(* ===== verification/_CoqProject ===== *)
-Q . S2P
Prelude.v
Utf8.v
PivError.v
Guid.v
Reader.v
Wire.v
Crypto.v
PivBox.v
Tagged.v
Template.v
Ebox.v
AgentExt.v
Unlock.v
Stream.v
Tlv.v
Walk.v
Apdu.v
Transport.v
Slot.v
Fascn.v
PivObjects.v
Session.v
CardEcdh.v
Effects.v
Text.v
Blech32.v
Markl.v
Recipients.v
Classify.v
Pigpen.v
Hyphence.v
PigpenCrypto.v
Document.v
DocumentText.v
DocumentOpen.v
PinCache.v
OperatorAct.v
SigFormat.v
Presence.v
Upstream.v
AgentCards.v
AgentSession.v
AgentSafe.v
AgentEnds.v
CardTlv.v
CardState.v
Card.v
PinSpec.v
CardPin.v
CardSafe.v
CardKeys.v
HostCard.v
HostObjects.v
HostEcdh.v
Proto.v
Server.v
ServerInv.v
ServerShare.v
ServerCard.v
Provision.v
ProvisionSafe.v
CardSetup.v
CardInit.v
AgentClient.v
SignBytes.v
AgePlugin.v
CardOracle.v
PigpenAgent.v
