(* ===== verification/Prelude.v ===== *)
(** * A verification library for piggy

    piggy is a PIV smart-card toolkit in Rust.  Its crates, under
    [src/crates/]:
    - [piggy-box]: what is sealed to a card's keys.  A box ([piv_box.rs]) is a
      ciphertext for one EC key, an ebox ([ebox.rs]) a key sealed to the
      recipients of a template ([template.rs]), a stream ([stream.rs]) chunks
      encrypted under an ebox's key.  [unlock.rs] opens an ebox through an
      oracle ([oracle.rs]) that does the ECDH: the SSH agent, whose extension
      is [agent_ext.rs], or a card.
    - [piggy-piv]: the host's side of a card.  BER-TLV ([tlv.rs]), command
      APDUs ([apdu.rs]), and the commands of NIST SP 800-73 on top.
    - [fibby]: a virtual card that answers the same APDUs
      ([virtual_card.rs]), with injected faults, touch policies and a control
      protocol; the project's tests run the host's code against it.
    - [piggy] (the agent and the command line), [piggy-markl] (identifiers),
      [piggy-pigpen], [piggy-ids], [age-plugin-piggy], and the FFI to OpenSSL
      and PC/SC.

    ** How the library is laid out

    Foundations
    - [Prelude]: [res], the outcome of a Rust function ([Ok], [Err] or
      [Panic]), its bind, machine-width integers, checked slices, big-endian
      integers, the predicate [yields] that bounds an outcome, the hint
      databases [bytes] and [panic].
    - [Utf8], [PivError], [Guid]: what the program uses of [str::from_utf8];
      the error type; [guid.rs].
    - [Reader]: parsers over a slice and a position, and what is proved of
      them: [reads] an encoding, [safe], [local_rd].
    - [Wire] ([wire.rs]), [Tagged]: the length-prefixed format of piggy-box
      with the class [WireCodec] its formats are instances of; tagged records.
    - [Crypto]: OpenSSL, the digests, the ciphers and Shamir's scheme as one
      record, its laws as a second, and a toy instance of both.

    The boxes
    - [PivBox] ([piv_box.rs]), [Template] ([template.rs]), [Ebox]
      ([ebox.rs]), [Stream] ([stream.rs]), [AgentExt] ([agent_ext.rs] and the
      half of the extension that the agent's [session.rs] implements),
      [Unlock] ([unlock.rs]; the trait of [oracle.rs] is the class
      [EcdhOracle]).

    The card's protocol, host side
    - [Tlv] ([tlv.rs]); [Apdu] ([apdu.rs] and the functions of [pin_mgmt.rs],
      [put_data.rs], [keygen.rs] and [admin.rs] that only build bytes).
    - [Walk]: loops over TLVs, strict and lenient.
    - [Transport] ([transport.rs], [transmit_on] of [token.rs]): the monad of
      effects on a card, the traits [RawApdu], [ApduTransport] and
      [ApduSession] as classes, GET RESPONSE.
    - [Slot] ([slot.rs], [policy.rs], [refusal.rs], [cert.rs], [attest.rs]),
      [Fascn] ([fascn.rs]), [PivObjects] ([chuid.rs], [keyhist.rs],
      [pinfo.rs]): what a card's objects hold.
    - [Session] ([token.rs] and the write operations of [admin.rs],
      [keygen.rs], [pin_mgmt.rs], [put_data.rs], [keyhist.rs]): [PivToken] and
      [PinSession] over any transport.  A session that is dropped or ended
      gives the transport back with a disposition.
    - [CardEcdh] ([card_ecdh.rs]): key agreement with slot 9D and the loop
      that asks for its PIN.

    Names and PINs
    - [Blech32], [Markl] ([blech32.rs]; [format.rs], [purpose.rs], [id.rs] of
      piggy-markl): the text form of keys, digests and signatures.
    - [Recipients] ([lib.rs] of piggy-ids, [recipients.rs] of piggy-box): the
      file of recipients, and the ebox template made of it.  [Classify]
      ([classify.rs]): the identifier a card's slot is listed with.

    The agent
    - [PinCache] ([pins.rs]): which PIN is tried on which card.
    - [OperatorAct] ([operator_act.rs]): statements that an operator signs
      after they were displayed, and the form that keeps them apart from what
      is signed without.
    - [SigFormat] ([ecdsa_sig.rs], the signing formats of [session.rs]): what a
      card is given to sign, and the forms of its answer.
    - [Presence] ([card.rs]): the reconciler that follows cards as they come
      and go.  Cards are effects on a world, the loop a step per wake.
    - [Upstream] ([upstream.rs]): the pool of other agents, each an instance
      of the class [UpstreamAgent].
    - [Effects]: inversion, totality and naturality of effects on a card.
      [AgentCards] ([context.rs], [reconnect_to_token] of [session.rs],
      [cak.rs], the key load of [mod.rs]): the cards an agent can reach, a
      shared world under the class [CardWorld]; a transport is a handle into it.
    - [AgentSession] ([session.rs]): the handlers and the dispatch of
      requests.  Its [Agent] is what all clients share; at every await and
      prompt a function stands for what the others do.  [AgentSafe]: what
      precedes the signature of an operator act, and what is forwarded.
      [AgentEnds]: every request ends.

    The pigpen document
    - [Text]: what it uses of [str].  [Pigpen] ([lib.rs] of piggy-pigpen): its
      errors.  [Hyphence] ([hyphence.rs]): the line format.  [PigpenCrypto]
      ([crypto.rs]): key wraps and the payload's STREAM.  [Document]
      ([document.rs]): documents and pointers, written, read, sealed, opened.
      [DocumentText] has the theorems on their text, [DocumentOpen] those on
      sealing and opening.

    The virtual card
    - [CardTlv]: its own parsers.  [CardState]: the struct [VirtualCard], the
      touch pad of [touch.rs], the parameters for its cryptography.  [Card]:
      a handler per instruction, [dispatch_command], [dispatch] and the
      operations of the backend.
    - [PinSpec]: the abstract machine of a card's PIN and PUK.  [CardPin]: the
      card refines it.  [CardSafe]: the card's invariant, and what a command
      needs before it uses or changes a key.
    The two together
    - [HostCard]: the host's transport over the virtual card, as the tests of
      [card_ecdh.rs] set it up.  [HostObjects], [HostEcdh]: objects written
      and read, management authentication, key agreement, end to end.

    The daemon
    - [Proto] ([proto.rs], [frame.rs], [error.rs] of fibby): the structs of
      pcsc-lite's protocol and their framing, instances of [WireStruct].
    - [Server] ([server.rs], [backend.rs]): one thread per connection, cards
      and shares behind locks, the control socket.  What a thread does between
      two locks is a turn; between the turns of a handler is a [Phase], and a
      run is a list of turns and other [Event]s in any order.  The cards are
      any [Backend].  [ServerInv]: its invariant.  [ServerShare]: transactions
      and waits.  [ServerCard]: the virtual card as a [Backend], runs on it,
      and the interleavings that the locks let through.

    Card set-up
    - [Provision] ([engine.rs], [protocol.rs], [seal.rs], [slot_policy.rs] of
      the card commands): [card init] and [card add-key] over any card, any
      frontend and any escrow (classes); their three states are a [Bench].
      [ProvisionSafe]: what they ask a card, in which order, and what becomes
      of the management key.
    - [CardSetup] ([init_cmd.rs], [add_key_cmd.rs]): the commands around the
      engine, from the choice of a card to the session it is given.
    - [CardInit]: the engine on the virtual card, end to end.

    The clients
    - [AgentClient] ([agent_client.rs], [operator_sign.rs]): what piggy asks
      an SSH agent for, over the calls of its library (the class
      [AgentSockets]), and the command [operator-sign].
    - [SignBytes] ([sign_core.rs]): [sign-bytes], with a card or an agent.
    - [CardOracle] ([card_oracle.rs]): the oracle of [Unlock] over the attached
      cards, the PINs it keeps, the answer of an askpass program.
    - [AgePlugin] (the crate [age-plugin-piggy]): its stanzas, the two state
      machines that age drives, keys as text.  Its crates are [AgeSuite].
    - [PigpenAgent] ([agent.rs] of piggy-pigpen): the oracle of [Document.open]
      that writes the bytes of the agent's extension itself.

    ** What the theorems say

    - Secrecy is a matter of the cryptography's laws; what is proved is that
      the code uses it correctly.  An ebox made by [create] opens with the
      oracle of any recipient ([Unlock.unlock_created]), with a threshold of
      recovery shares and with no fewer challenges ([Ebox.recover_threshold]);
      a sealed box opens after a trip through its wire form; an altered chunk
      is refused.
    - Every wire format round-trips, and its parser neither panics nor loops
      on any input.
    - The virtual card refines [PinSpec]: its PIN is verified only by the PIN,
      a guesser has as many tries as the counters say, keys are used only
      behind their PIN policy and changed only behind the management key, and
      no sequence of commands panics.
    - The host: a response comes back whole whatever its parts
      ([Transport.transmit_on_exact]), and comes back at all exactly when the
      card stops announcing more ([Transport.transmit_on_termination]).  The
      policy of an attested key is the one its extension states, wherever the
      extension stands; the objects of a card are read as they were written,
      and no bytes make their parsers panic.
    - Host and card: a session that verified a PIN leaves the card without it,
      however it ends ([HostCard.session_forgets_pin]); [verify_pin] reports
      what the card's PIN machine decides ([HostCard.verify_pin_exact]);
      every operation returns; certificates, the CHUID and the management key
      work as the two halves agree; key agreement gives the shared secret of
      the slot's key, or the reason it does not, and asks for a PIN at most as
      often as there are tries ([HostEcdh]).
    - Identifiers: blech32 and the identifiers round-trip, every identifier
      parsed or made has the size and the purpose its format allows, and an
      error confined to six consecutive characters is never accepted
      ([Blech32.blech32_detects_bursts]).
    - Recipients: a file of them reads back as rendered; a key sealed to the
      file is unlocked by whoever holds the key of one of its recipients
      ([Recipients.recipients_can_read]); a slot is listed with the key of its
      certificate or not at all ([Classify.classification_exact]).
    - Pigpen: a document and a pointer read back as written, no bytes make
      their readers panic, and a document that parses is a recipient set or
      entirely sealed; the payload opens exactly when it is the STREAM of the
      plaintext; a sealed document opens with any recipient's key, nothing is
      released that its header does not vouch for, and the oracle is asked
      once per key.
    - The daemon: in every interleaving the shares count the open handles and
      no bytes make it panic ([ServerInv]); while a handle holds a card only
      its own APDUs reach it, short of a close or reconnect that resets
      ([ServerShare.transaction_exclusive], under the condition that nothing
      else was on its way when the transaction began, which
      [ServerCard.foreign_apdu_in_transaction] shows is needed); a wait for a
      reader is ended by one wake, and a wait for a touch by its deadline.
    - The agent: its PIN cache does what its history says
      ([PinCache.pin_cache_refines]); the signed data of an operator act is
      refused wherever no display precedes the signature
      ([OperatorAct.operator_acts_are_apart]); a signature keeps its integers
      in every form; a pass of the reconciler drops a card whole or not at all
      and serves nothing that did not answer ([Presence.pass_exact]); an
      upstream's key is routed to the first upstream that lists it, and a
      request goes no further than the answer it gets ([Upstream]); every key
      that is served passed the filters and the CAK challenge
      ([AgentCards.loaded_keys_are_selected]); a card signs an act only after
      its text was on the prompt that took the PIN, and while it attests its
      key ([AgentSafe.acts_are_shown_first]); only a request for a key that
      is not served leaves the agent; and every request ends whatever the
      PINs and the interleaving are ([AgentEnds.requests_end]).
    - Card set-up: [card init] is one script of commands that starts only after
      the operator said yes to that card ([ProvisionSafe.init_is_scripted]); a
      management key that the card took is never lost
      ([ProvisionSafe.management_key_is_not_lost]) and, when sealing was
      required, is sealed to a reader that survives
      ([CardSetup.sealed_key_has_a_reader]); on the virtual card it leaves the
      PIN, the PUK, the CHUID and the management key that were chosen
      ([CardInit.init_secures_the_card]); [card add-key] touches one slot; and
      no card is set up that another could have been meant by
      ([CardSetup.only_match_is_chosen]).
    - The clients: an agent is asked for an operator act only for a text that
      can be shown, and bytes come out only of its signature over that act
      ([AgentClient.operator_sign_is_shown_first]); the key of a request is the
      only one it can mean ([AgentClient.served_key_is_selected]);
      [sign-bytes] asks an agent only when no card can be chosen, and an
      operator at most three times ([SignBytes.sign_message_asks]); the card
      oracle asks for the PIN of a card once ([CardOracle.pins_are_asked_once]);
      age files are read back, and no file key is released that a stanza of
      its file does not hold ([AgePlugin.file_keys_read_back],
      [AgePlugin.released_keys_are_vouched]); both clients of the extension
      put the same bytes on the socket
      ([PigpenAgent.agent_oracle_speaks_the_extension]).

    ** Conventions

    A byte is an integer between 0 and 255, an integer of the code a [Z] with
    its wrap-around written out ([u8], [u32] and so on).  A
    method on [&mut self] returns the changed value; where it can fail after a
    change, it returns the value beside the result.  A loop over a reader runs
    with one more unit of fuel than bytes are left and running out is a
    [Panic], so a [safe] parser is also one that ends.
    Three loops are as long as someone else decides.  The GET RESPONSE loop of a
    command ends when the card says so: its fuel running out is [None], the
    call that has not returned, and theorems say for which fuel, or that for
    any, it returns.  The PIN loop ends when the user is right or the tries
    are spent; three turns are enough for a card, and for the agent, one of
    whose turns may decline an offered PIN, and for [sign-bytes]
    ([SignBytes.sign_message_ends]).  The redial loop of the upstreams ends at its deadline ([Upstream.redial_terminates]).
    Error messages are constructors that carry the interpolated values.
    Third-party code is a field of [Crypto], [CardCrypto] or a section's
    variable; a theorem that needs its behaviour takes a record of laws, and
    its witness an instance.

    ** What is not modelled

    Traces, [Display] and [Debug] output, zeroizing, sockets other than the
    bytes that go through them, threads other than fibby's, the FFI crates, the command line's argument parsing and terminal output, and
    test code.  X.509 certificates are opaque.  The PC/SC transport
    is an instance of [ApduTransport] like the link of [HostCard].  Around
    what is modelled there is I/O that is not: the command lines, their tables
    and reports, the frontends of the card commands (a terminal, JSON-RPC),
    the password store and the pointer files, the health checks and
    their probes of an agent, batches that are shown, and the hardware proxy of
    fibby. *)

From Stdlib Require Import ZArith Lia String Ascii.
From stdpp Require Import base tactics list numbers strings.

Local Open Scope Z_scope.

(** ** Outcomes of Rust functions

    A Rust function that returns [Result<A, E>] either returns [Ok], returns
    [Err], or panics (slice index out of bounds, [assert!], [expect]).  The
    three cases are kept apart, so "never panics" is a theorem. *)
Inductive res (E A : Type) : Type :=
| Ok (a : A)
| Err (e : E)
| Panic.
Arguments Ok {E A} a.
Arguments Err {E A} e.
Arguments Panic {E A}.

Definition res_bind {E A B : Type} (c : res E A) (k : A -> res E B) : res E B :=
  match c with
  | Ok a => k a
  | Err e => Err e
  | Panic => Panic
  end.

(** [c.map_err(f)] *)
Definition map_err {E F A : Type} (f : E -> F) (c : res E A) : res F A :=
  match c with
  | Ok a => Ok a
  | Err e => Err (f e)
  | Panic => Panic
  end.

(** [o.ok_or(e)] *)
Definition ok_or {E A : Type} (o : option A) (e : E) : res E A :=
  match o with
  | Some a => Ok a
  | None => Err e
  end.

(** [r.ok()] on a result that did not panic. *)
Definition res_ok {E A : Type} (c : res E A) : option A :=
  match c with
  | Ok a => Some a
  | _ => None
  end.

Definition is_ok {E A : Type} (c : res E A) : bool :=
  match c with Ok _ => true | _ => false end.

(** The outcome is a value or an error, never a panic. *)
Definition no_panic {E A : Type} (c : res E A) : Prop := c <> Panic.

Declare Scope res_scope.
Delimit Scope res_scope with res.
Notation "'let*' x ':=' c 'in' k" := (res_bind c (fun x => k))
  (at level 10, x pattern, c at level 100, k at level 200) : res_scope.
Open Scope res_scope.

Lemma Ok_inj {E A} (a b : A) : Ok (E := E) a = Ok b -> a = b.
Proof. now intros [= ->]. Qed.

Section Res.
Context {E A B : Type}.

Lemma res_bind_ok (a : A) (k : A -> res E B) : res_bind (Ok a) k = k a.
Proof. reflexivity. Qed.

Lemma res_bind_Ok_inv (c : res E A) (k : A -> res E B) b :
  res_bind c k = Ok b -> exists a, c = Ok a /\ k a = Ok b.
Proof. destruct c; simpl; try discriminate; eauto. Qed.

Lemma no_panic_Ok (a : A) : no_panic (E := E) (Ok a).
Proof. discriminate. Qed.

Lemma no_panic_Err (e : E) : no_panic (A := A) (Err e).
Proof. discriminate. Qed.

Lemma no_panic_bind (c : res E A) (k : A -> res E B) :
  no_panic c -> (forall a, c = Ok a -> no_panic (k a)) -> no_panic (res_bind c k).
Proof. destruct c; simpl; auto; intros H; [discriminate | now destruct H]. Qed.

Lemma no_panic_map_err {F} (f : E -> F) (c : res E A) :
  no_panic c -> no_panic (map_err f c).
Proof. destruct c; simpl; auto; intros H; [discriminate | discriminate | now destruct H]. Qed.

Lemma no_panic_ok_or (o : option A) (e : E) : no_panic (ok_or o e).
Proof. destruct o; discriminate. Qed.
End Res.

(** The outcome is not a panic, and a value satisfies [Q]. *)
Definition yields {E A : Type} (c : res E A) (Q : A -> Prop) : Prop :=
  match c with
  | Ok a => Q a
  | Err _ => True
  | Panic => False
  end.

Section Yields.
Context {E A B : Type}.

Lemma yields_bind (c : res E A) (k : A -> res E B) P Q :
  yields c P -> (forall a, P a -> yields (k a) Q) -> yields (res_bind c k) Q.
Proof. destruct c; simpl; auto. Qed.

Lemma yields_weaken (c : res E A) (P Q : A -> Prop) :
  yields c P -> (forall a, P a -> Q a) -> yields c Q.
Proof. destruct c; simpl; auto. Qed.

Lemma yields_no_panic (c : res E A) Q : yields c Q -> no_panic c.
Proof. destruct c; simpl; intros H; [discriminate..|contradiction]. Qed.

Lemma yields_Ok (c : res E A) Q a : yields c Q -> c = Ok a -> Q a.
Proof. now intros H ->. Qed.

Lemma no_panic_yields (c : res E A) : no_panic c -> yields c (fun _ => True).
Proof. destruct c; simpl; auto. Qed.

Lemma yields_and (c : res E A) P Q : yields c P -> yields c Q -> yields c (fun a => P a /\ Q a).
Proof. destruct c; simpl; auto. Qed.

Lemma yields_ok_or (o : option A) (e : E) (Q : A -> Prop) :
  (forall a, o = Some a -> Q a) -> yields (ok_or o e) Q.
Proof. destruct o; simpl; auto. Qed.
End Yields.

Create HintDb panic discriminated.
#[export] Hint Resolve no_panic_Ok no_panic_Err no_panic_map_err no_panic_ok_or : panic.

(** Invert every successful bind in the context. *)
Ltac inv_ok :=
  repeat match goal with
  | H : Ok _ = Ok _ |- _ => injection H as H
  | H : Err _ = Ok _ |- _ => discriminate H
  | H : Panic = Ok _ |- _ => discriminate H
  | H : res_bind _ _ = Ok _ |- _ =>
      apply res_bind_Ok_inv in H; destruct H as (? & ? & H)
  | H : (if ?b then _ else Err _) = Ok _ |- _ =>
      let Hb := fresh "Hc" in destruct b eqn:Hb; [|discriminate H]
  | H : (if ?b then Err _ else _) = Ok _ |- _ =>
      let Hb := fresh "Hc" in destruct b eqn:Hb; [discriminate H|]
  end; subst.

(** ** Bytes *)

(** A [u8] is a [Z] in [0..255]; a byte string is a list of them. *)
Abbreviation bytes := (list Z) (only parsing).

Definition byte_ok (b : Z) : Prop := 0 <= b < 256.
Abbreviation bytes_ok := (Forall byte_ok).

(** [x as u8], [x as u16], [x as u32], [x as u64] of a non-negative value. *)
Definition u8 (z : Z) : Z := z mod 2 ^ 8.
Definition u16 (z : Z) : Z := z mod 2 ^ 16.
Definition u32 (z : Z) : Z := z mod 2 ^ 32.
Definition u64 (z : Z) : Z := z mod 2 ^ 64.

(** The length of a slice as the integer the code computes with. *)
Definition len {A} (l : list A) : Z := Z.of_nat (length l).

(** [z.to_be_bytes()] for an [n]-byte integer. *)
Fixpoint to_be_bytes (n : nat) (z : Z) : bytes :=
  match n with
  | O => []
  | S k => ((z / 256 ^ Z.of_nat k) mod 256) :: to_be_bytes k z
  end.

(** [uN::from_be_bytes(l)]. *)
Definition from_be_bytes (l : bytes) : Z := foldl (fun acc b => acc * 256 + b) 0 l.

(** The bytes of an ASCII string literal ([b"..."], [s.as_bytes()]). *)
Fixpoint ascii (s : string) : bytes :=
  match s with
  | EmptyString => []
  | String c s' => Z.of_N (N_of_ascii c) :: ascii s'
  end.

(** Equality of byte strings, as [==] on slices. *)
Definition bytes_eqb (a b : bytes) : bool := bool_decide (a = b).

(** ** Slices: out-of-range indexing panics *)

Definition ztake {A} (n : Z) (l : list A) : list A := take (Z.to_nat n) l.
Definition zdrop {A} (n : Z) (l : list A) : list A := drop (Z.to_nat n) l.

(** [l[i]] *)
Definition index {E A} (l : list A) (i : Z) : res E A :=
  if (0 <=? i) && (i <? len l)
  then match l !! Z.to_nat i with Some a => Ok a | None => Panic end
  else Panic.

(** [&l[a..b]] *)
Definition slice {E A} (l : list A) (a b : Z) : res E (list A) :=
  if (0 <=? a) && (a <=? b) && (b <=? len l)
  then Ok (ztake (b - a) (zdrop a l))
  else Panic.

(** [&l[a..]] *)
Definition slice_from {E A} (l : list A) (a : Z) : res E (list A) :=
  if (0 <=? a) && (a <=? len l) then Ok (zdrop a l) else Panic.

(** [a - b] on [usize]: underflow panics. *)
Definition usub {E} (a b : Z) : res E Z :=
  if b <=? a then Ok (a - b) else Panic.

(** [l.iter().position(f)] *)
Fixpoint position {A} (f : A -> bool) (l : list A) : option nat :=
  match l with
  | [] => None
  | x :: l' => if f x then Some O else S <$> position f l'
  end.

Lemma position_hit {A} (f : A -> bool) l i :
  position f l = Some i -> exists x, l !! i = Some x /\ f x = true.
Proof.
  revert i. induction l as [|x l IH]; intros i; simpl; [discriminate|]. destruct (f x) eqn:Hf.
  - intros [= <-]. now exists x.
  - destruct (position f l) as [j|]; [|discriminate]. intros [= <-]. exact (IH j eq_refl).
Qed.

(** ** Lemmas on integers and bytes *)

Lemma u8_small z : byte_ok z -> u8 z = z.
Proof. intros H. apply Z.mod_small. exact H. Qed.

Lemma u8_ok z : byte_ok (u8 z).
Proof. apply Z.mod_pos_bound. lia. Qed.

Lemma len_nonneg {A} (l : list A) : 0 <= len l.
Proof. unfold len. lia. Qed.

Lemma len_nil {A} : len (@nil A) = 0.
Proof. reflexivity. Qed.

Lemma len_cons {A} (x : A) l : len (x :: l) = 1 + len l.
Proof. unfold len. simpl length. lia. Qed.

Lemma len_app {A} (l k : list A) : len (l ++ k) = len l + len k.
Proof. unfold len. rewrite length_app. lia. Qed.

Lemma length_to_be_bytes n z : length (to_be_bytes n z) = n.
Proof. induction n; simpl; congruence. Qed.

Lemma to_be_bytes_ok n z : bytes_ok (to_be_bytes n z).
Proof.
  induction n; simpl; constructor; auto. apply Z.mod_pos_bound. lia.
Qed.

Lemma from_be_bytes_acc l a :
  foldl (fun acc b => acc * 256 + b) a l = a * 256 ^ len l + from_be_bytes l.
Proof.
  unfold from_be_bytes. revert a. induction l as [|x l IH]; intros a.
  - rewrite (@len_nil Z), Z.pow_0_r. simpl. lia.
  - cbn [foldl]. rewrite IH, (IH (0 * 256 + x)), len_cons.
    rewrite Z.pow_add_r by (pose proof (len_nonneg l); lia). lia.
Qed.

Lemma from_be_bytes_cons x l :
  from_be_bytes (x :: l) = x * 256 ^ len l + from_be_bytes l.
Proof.
  unfold from_be_bytes at 1. cbn [foldl]. rewrite from_be_bytes_acc. lia.
Qed.

Lemma from_be_bytes_app l k :
  from_be_bytes (l ++ k) = from_be_bytes l * 256 ^ len k + from_be_bytes k.
Proof.
  unfold from_be_bytes at 1. rewrite foldl_app. rewrite from_be_bytes_acc.
  reflexivity.
Qed.

Lemma from_be_bytes_bound l : bytes_ok l -> 0 <= from_be_bytes l < 256 ^ len l.
Proof.
  induction 1 as [|x l Hx Hl IH]; [change (0 <= 0 < 1); lia|].
  rewrite from_be_bytes_cons, len_cons.
  rewrite Z.pow_add_r by (pose proof (len_nonneg l); lia). unfold byte_ok in Hx. nia.
Qed.

Lemma from_to_be_bytes n z :
  from_be_bytes (to_be_bytes n z) = z mod 256 ^ Z.of_nat n.
Proof.
  induction n as [|n IH]; [symmetry; apply Z.mod_1_r|].
  cbn [to_be_bytes]. rewrite from_be_bytes_cons, IH. unfold len.
  rewrite length_to_be_bytes, Nat2Z.inj_succ, Z.pow_succ_r by lia.
  assert (0 < 256 ^ Z.of_nat n) by (apply Z.pow_pos_nonneg; lia).
  rewrite (Z.mul_comm 256), Z.rem_mul_r by lia. lia.
Qed.

Lemma from_to_be_bytes_small n z :
  0 <= z < 256 ^ Z.of_nat n -> from_be_bytes (to_be_bytes n z) = z.
Proof. intros H. rewrite from_to_be_bytes. now apply Z.mod_small. Qed.

Lemma to_be_bytes_from l :
  bytes_ok l -> to_be_bytes (length l) (from_be_bytes l) = l.
Proof.
  induction 1 as [|x l Hx Hl IH]; [reflexivity|].
  cbn [length to_be_bytes]. rewrite from_be_bytes_cons.
  assert (H256 : 256 ^ len l > 0) by (apply Z.lt_gt, Z.pow_pos_nonneg; unfold len; lia).
  pose proof (from_be_bytes_bound l Hl) as Hb. unfold byte_ok in Hx. f_equal.
  - fold (len l). rewrite Z.div_add_l, Z.div_small, Z.add_0_r by lia. now apply Z.mod_small.
  - clear Hx Hb.
    assert (G : forall n a r, (n <= length l)%nat ->
               to_be_bytes n (a * 256 ^ len l + r) = to_be_bytes n r).
    { induction n as [|n IHn]; intros a r Hn; cbn [to_be_bytes]; [reflexivity|].
      rewrite IHn by lia. f_equal.
      replace (256 ^ len l) with (256 ^ (len l - Z.of_nat n) * 256 ^ Z.of_nat n)
        by (rewrite <- Z.pow_add_r by (unfold len; lia); f_equal; lia).
      rewrite Z.mul_assoc, Z.div_add_l by lia.
      replace (len l - Z.of_nat n) with (Z.succ (len l - Z.of_nat n - 1)) by lia.
      rewrite Z.pow_succ_r by (unfold len; lia).
      replace (a * (256 * 256 ^ (len l - Z.of_nat n - 1)) + r / 256 ^ Z.of_nat n)
        with (r / 256 ^ Z.of_nat n + a * 256 ^ (len l - Z.of_nat n - 1) * 256) by lia.
      apply Z.mod_add. lia. }
    etransitivity; [apply G; lia | exact IH].
Qed.

Lemma length_ascii s : length (ascii s) = String.length s.
Proof. induction s; simpl; congruence. Qed.

Lemma ascii_ok s : bytes_ok (ascii s).
Proof.
  induction s as [|c s IH]; simpl; constructor; auto.
  unfold byte_ok. pose proof (N_ascii_bounded c). lia.
Qed.

(** ** Lemmas on slices *)

Ltac zbool :=
  repeat match goal with
  | |- context [?a <=? ?b] =>
      first [ rewrite (proj2 (Z.leb_le a b)) by lia
            | rewrite (proj2 (Z.leb_gt a b)) by lia ]
  | |- context [?a <? ?b] =>
      first [ rewrite (proj2 (Z.ltb_lt a b)) by lia
            | rewrite (proj2 (Z.ltb_ge a b)) by lia ]
  | |- context [?a =? ?b] =>
      first [ rewrite (proj2 (Z.eqb_eq a b)) by lia
            | rewrite (proj2 (Z.eqb_neq a b)) by lia ]
  end; simpl andb; simpl orb; cbv iota.

(** Turn the boolean tests of the context into (in)equalities. *)
Ltac bprop :=
  repeat match goal with
  | H : (_ && _)%bool = true |- _ => apply andb_true_iff in H; destruct H
  | H : (_ || _)%bool = false |- _ => apply orb_false_iff in H; destruct H
  | H : negb _ = true |- _ => apply negb_true_iff in H
  | H : negb _ = false |- _ => apply negb_false_iff in H
  | H : (_ <=? _) = true |- _ => apply Z.leb_le in H
  | H : (_ <=? _) = false |- _ => apply Z.leb_gt in H
  | H : (_ <? _) = true |- _ => apply Z.ltb_lt in H
  | H : (_ <? _) = false |- _ => apply Z.ltb_ge in H
  | H : (_ =? _) = true |- _ => apply Z.eqb_eq in H
  | H : (_ =? _) = false |- _ => apply Z.eqb_neq in H
  | H : bool_decide _ = true |- _ => apply bool_decide_eq_true in H
  | H : bool_decide _ = false |- _ => apply bool_decide_eq_false in H
  end.

(** A closed, decidable side condition of a witness. *)
Ltac by_compute :=
  vm_compute; repeat first [discriminate | reflexivity | split | constructor].

(** A literal list of bytes. *)
Ltac byte_list :=
  repeat (constructor; [first [assumption | apply u8_ok | unfold byte_ok; lia]|]); try constructor.

Section Slices.
Context {E A : Type}.
Implicit Type l : list A.

Lemma len_zdrop n l : 0 <= n <= len l -> len (zdrop n l) = len l - n.
Proof. unfold len, zdrop. rewrite length_drop. lia. Qed.

Lemma len_ztake n l : 0 <= n <= len l -> len (ztake n l) = n.
Proof. unfold len, ztake. rewrite length_take. lia. Qed.

Lemma zdrop_0 l : zdrop 0 l = l.
Proof. reflexivity. Qed.

Lemma zdrop_app l k : zdrop (len l) (l ++ k) = k.
Proof. unfold zdrop, len. rewrite Nat2Z.id. apply drop_app_length. Qed.

Lemma ztake_app l k : ztake (len l) (l ++ k) = l.
Proof. unfold ztake, len. rewrite Nat2Z.id. apply take_app_length. Qed.

Lemma zdrop_step p l k t :
  0 <= p -> zdrop p l = k ++ t -> zdrop (p + len k) l = t.
Proof.
  unfold zdrop, len. intros Hp H. rewrite Z2Nat.inj_add, Nat2Z.id by lia.
  rewrite <- drop_drop, H. apply drop_app_length.
Qed.

Lemma zdrop_bound p l k t :
  0 <= p <= len l -> zdrop p l = k ++ t -> p + len k <= len l.
Proof.
  intros Hp H. pose proof (len_zdrop p l Hp) as Hl. rewrite H, len_app in Hl.
  pose proof (len_nonneg t). lia.
Qed.

Lemma index_Ok l i x t : 0 <= i -> zdrop i l = x :: t -> index (E := E) l i = Ok x.
Proof.
  intros Hi H. unfold index.
  assert (Hl : l !! Z.to_nat i = Some x).
  { rewrite <- (Nat.add_0_r (Z.to_nat i)), <- lookup_drop. fold (zdrop i l).
    rewrite H. reflexivity. }
  pose proof (lookup_lt_Some _ _ _ Hl). unfold len. zbool. now rewrite Hl.
Qed.

Lemma index_no_panic l i : 0 <= i < len l -> no_panic (index (E := E) l i).
Proof.
  intros H. unfold index. zbool.
  destruct (lookup_lt_is_Some_2 l (Z.to_nat i)) as [x ->]; [unfold len in H; lia|].
  discriminate.
Qed.

Lemma slice_app p l k t :
  0 <= p <= len l -> zdrop p l = k ++ t -> slice (E := E) l p (p + len k) = Ok k.
Proof.
  intros Hp H. pose proof (zdrop_bound p l k t Hp H). pose proof (len_nonneg k).
  unfold slice. zbool. rewrite H. replace (p + len k - p) with (len k) by lia.
  now rewrite ztake_app.
Qed.

Lemma slice_Ok l a b :
  0 <= a -> a <= b -> b <= len l -> slice (E := E) l a b = Ok (ztake (b - a) (zdrop a l)).
Proof. intros. unfold slice. zbool. reflexivity. Qed.

Lemma slice_from_Ok l a : 0 <= a <= len l -> slice_from (E := E) l a = Ok (zdrop a l).
Proof. intros. unfold slice_from. zbool. reflexivity. Qed.

Lemma usub_Ok a b : b <= a -> usub (E := E) a b = Ok (a - b).
Proof. intros. unfold usub. zbool. reflexivity. Qed.

Lemma zsplit n l : l = ztake n l ++ zdrop n l.
Proof. unfold ztake, zdrop. symmetry. apply take_drop. Qed.
End Slices.

Lemma bytes_ok_zdrop n l : bytes_ok l -> bytes_ok (zdrop n l).
Proof. apply Forall_drop. Qed.

Lemma bytes_ok_ztake n l : bytes_ok l -> bytes_ok (ztake n l).
Proof. apply Forall_take. Qed.

Lemma bytes_ok_app l k : bytes_ok l -> bytes_ok k -> bytes_ok (l ++ k).
Proof. intros. now apply Forall_app. Qed.

Create HintDb bytes discriminated.
#[export] Hint Resolve bytes_ok_zdrop bytes_ok_ztake bytes_ok_app to_be_bytes_ok
  ascii_ok u8_ok : bytes.
#[export] Hint Constructors Forall : bytes.

Arguments to_be_bytes : simpl never.
Arguments from_be_bytes : simpl never.
Arguments len : simpl never.
Arguments zdrop : simpl never.
Arguments ztake : simpl never.
