(* ===== verification/Utf8.v ===== *)
(** * Utf8: the parts of [std::str] and [char] the program relies on

    A Rust [String] read from or written to the wire is modelled by its UTF-8
    bytes together with [utf8_valid]; a [&str] that is walked character by
    character (the markl identifiers) is modelled by its list of Unicode
    scalar values. *)

From Stdlib Require Import ZArith Lia.
From stdpp Require Import base tactics list numbers.
From S2P Require Import Prelude.

Local Open Scope Z_scope.

(** ** Validation ([core::str::from_utf8]) *)

Definition between (lo x hi : Z) : bool := (lo <=? x) && (x <=? hi).

Definition utf8_cont (b : Z) : bool := between 0x80 b 0xBF.

(** [core::str::utf8_char_width] *)
Definition utf8_width (a : Z) : Z :=
  if a <? 0x80 then 1
  else if between 0xC2 a 0xDF then 2
  else if between 0xE0 a 0xEF then 3
  else if between 0xF0 a 0xF4 then 4
  else 0.

(** The second byte a three- or four-byte lead accepts: no overlong form, no
    surrogate, nothing above U+10FFFF. *)
Definition utf8_second_ok (a b : Z) : bool :=
  ((a =? 0xE0) && between 0xA0 b 0xBF)
  || (between 0xE1 a 0xEC && between 0x80 b 0xBF)
  || ((a =? 0xED) && between 0x80 b 0x9F)
  || (between 0xEE a 0xEF && between 0x80 b 0xBF)
  || ((a =? 0xF0) && between 0x90 b 0xBF)
  || (between 0xF1 a 0xF3 && between 0x80 b 0xBF)
  || ((a =? 0xF4) && between 0x80 b 0x8F).

Fixpoint utf8_valid (l : bytes) : bool :=
  match l with
  | [] => true
  | a :: l1 =>
      if a <? 0x80 then utf8_valid l1
      else match l1 with
      | [] => false
      | b :: l2 =>
          if utf8_width a =? 2 then utf8_cont b && utf8_valid l2
          else match l2 with
          | [] => false
          | c :: l3 =>
              if utf8_width a =? 3
              then utf8_second_ok a b && utf8_cont c && utf8_valid l3
              else match l3 with
              | [] => false
              | d :: l4 =>
                  (utf8_width a =? 4) && utf8_second_ok a b && utf8_cont c
                  && utf8_cont d && utf8_valid l4
              end
          end
      end
  end.

(** ** [String::from_utf8_lossy]: every maximal invalid prefix becomes U+FFFD *)

Definition replacement_char : bytes := [0xEF; 0xBF; 0xBD].

Fixpoint from_utf8_lossy (l : bytes) : bytes :=
  match l with
  | [] => []
  | a :: l1 =>
      if a <? 0x80 then a :: from_utf8_lossy l1
      else if utf8_width a =? 0 then replacement_char ++ from_utf8_lossy l1
      else match l1 with
      | [] => replacement_char
      | b :: l2 =>
          if utf8_width a =? 2 then
            if utf8_cont b then a :: b :: from_utf8_lossy l2
            else replacement_char ++ from_utf8_lossy l1
          else if negb (utf8_second_ok a b) then replacement_char ++ from_utf8_lossy l1
          else match l2 with
          | [] => replacement_char
          | c :: l3 =>
              if negb (utf8_cont c) then replacement_char ++ from_utf8_lossy l2
              else if utf8_width a =? 3 then a :: b :: c :: from_utf8_lossy l3
              else match l3 with
              | [] => replacement_char
              | d :: l4 =>
                  if utf8_cont d then a :: b :: c :: d :: from_utf8_lossy l4
                  else replacement_char ++ from_utf8_lossy l3
              end
          end
      end
  end.

(** ** Characters *)

(** A Unicode scalar value ([char]). *)
Definition is_char (c : Z) : bool := between 0 c 0xD7FF || between 0xE000 c 0x10FFFF.

(** [char::len_utf8] *)
Definition len_utf8 (c : Z) : Z :=
  if c <? 0x80 then 1 else if c <? 0x800 then 2 else if c <? 0x10000 then 3 else 4.

(** [str::len]: the length in bytes. *)
Definition str_len (s : list Z) : Z := foldr (fun c n => len_utf8 c + n) 0 s.

(** [char::encode_utf8] *)
Definition encode_utf8 (c : Z) : bytes :=
  if c <? 0x80 then [c]
  else if c <? 0x800 then [0xC0 + c / 64; 0x80 + c mod 64]
  else if c <? 0x10000 then [0xE0 + c / 4096; 0x80 + c / 64 mod 64; 0x80 + c mod 64]
  else [0xF0 + c / 262144; 0x80 + c / 4096 mod 64; 0x80 + c / 64 mod 64; 0x80 + c mod 64].

(** [str::as_bytes] *)
Definition as_bytes (s : list Z) : bytes := mbind encode_utf8 s.

Definition is_ascii_lowercase (c : Z) : bool := between 97 c 122.
Definition is_ascii_uppercase (c : Z) : bool := between 65 c 90.
Definition is_ascii_digit (c : Z) : bool := between 48 c 57.
Definition is_ascii_alphanumeric (c : Z) : bool :=
  is_ascii_lowercase c || is_ascii_uppercase c || is_ascii_digit c.
Definition to_ascii_lowercase (c : Z) : Z := if is_ascii_uppercase c then c + 32 else c.
(** [u8::is_ascii_whitespace]: space, tab, LF, FF, CR. *)
Definition is_ascii_whitespace (c : Z) : bool :=
  (c =? 32) || (c =? 9) || (c =? 10) || (c =? 12) || (c =? 13).

(** ** Lemmas *)

Lemma utf8_valid_ascii l : Forall (fun b => 0 <= b < 128) l -> utf8_valid l = true.
Proof.
  induction 1 as [|b l Hb Hl IH]; [reflexivity|]. cbn [utf8_valid]. zbool. exact IH.
Qed.

Lemma utf8_lossy_ascii l : Forall (fun b => 0 <= b < 128) l -> from_utf8_lossy l = l.
Proof.
  induction 1 as [|b l Hb Hl IH]; [reflexivity|]. cbn [from_utf8_lossy]. zbool. now rewrite IH.
Qed.

(** Valid UTF-8 is a fixed point of the lossy conversion. *)
Lemma from_utf8_lossy_valid l : utf8_valid l = true -> from_utf8_lossy l = l.
Proof.
  assert (H : forall n l, (length l <= n)%nat -> utf8_valid l = true -> from_utf8_lossy l = l).
  { clear l. induction n as [|n IH]; intros [|a l1] Hn; try reflexivity; simpl in Hn; [lia|].
    cbn [utf8_valid from_utf8_lossy].
    destruct (a <? 0x80). { intros H. rewrite IH by (assumption || lia). reflexivity. }
    destruct (Z.eqb_spec (utf8_width a) 0) as [->|W0].
    { destruct l1 as [|? [|? [|? ?]]]; discriminate. }
    destruct l1 as [|b l2]; [discriminate|]. simpl in Hn.
    destruct (utf8_width a =? 2) eqn:W2.
    { intros [-> H]%andb_true_iff. rewrite IH by (assumption || lia). reflexivity. }
    destruct l2 as [|c l3]; [discriminate|]. simpl in Hn.
    destruct (utf8_width a =? 3) eqn:W3.
    { intros [[-> ->]%andb_true_iff H]%andb_true_iff. cbn.
      rewrite IH by (assumption || lia). reflexivity. }
    destruct l3 as [|d l4]; [discriminate|]. simpl in Hn.
    intros [[[[_ ->]%andb_true_iff ->]%andb_true_iff ->]%andb_true_iff H]%andb_true_iff. cbn.
    rewrite IH by (assumption || lia). reflexivity. }
  apply (H (length l)). lia.
Qed.
