(* ===== verification/PivError.v ===== *)
(** * PivError: the error type of [piggy-piv]

    An error message that interpolates values is modelled by a constructor
    that carries the same values; the English text around them is not. *)

From Stdlib Require Import ZArith String.
From stdpp Require Import base.
From S2P Require Import Prelude.

Local Open Scope Z_scope.

(** The [message] of [PivError::Tlv]. *)
Inductive TlvMsg : Type :=
| TagPastEnd
| TagContinuedPastEnd
| ValueExceeds (length remaining : Z)
| LengthPastEnd
| BadLengthIndicator (octets : Z)
| LengthBytesExceed (octets remaining : Z)
| UnexpectedTag (what : string) (expected got : Z)
| TagNotFound (what : string) (tag : Z)
| NotADataObject
| NoExtensions
| NoPolicyExtension
| PolicyExtensionLength (length : Z).

(** The text of [PivError::Other] and [PivError::Crypto]; [Library] stands for a
    text that goes on with the error of another crate. *)
Inductive PivMsg : Type :=
| PinTooLong (length : Z)
| ReferenceTooLong (length : Z)
| ReferenceEmpty
| MgmtAlgUnsupported (key_alg : Z)
| MgmtKeyLength (length : Z)
| DesBlockLength (length : Z)
| NoCertTag (slot : Z)
| ResponseTooShort
| ChainedResponseTooShort
| PeerNotUncompressed
| PeerPointLength (length expected : Z)
| EcdhNeedsEcKey
| EcdhResponseShort
| NotAPoint (what : string)
| UnknownPinPolicy (byte : Z)
| UnknownTouchPolicy (byte : Z)
| Library (what : string)
| UnusedBits
| RsaKeySize (bits : Z)
| Ed25519Length (length : Z)
| EcCurve (oid : string)
| UnnamedEcCurve
| NotAnEcKey
| UnknownKeyType
| CakNotEc
| CakCurve
| Text (message : string).

Inductive PivError : Type :=
| PivTransport (message : string)
| PivTlv (message : TlvMsg)
| InvalidGuid (expected got : Z)
| PivApdu (sw : Z)
| CardNotFound
| NoPin
| PinIncorrect (retries : Z)
| PinRequired
| PinBlocked
| ManagementAuthFailed
| SlotEmpty (slot : Z)
| UnsupportedAlgorithm (message : PivMsg)
| PivCrypto (message : PivMsg)
| PivOther (message : PivMsg).
