(* ===== verification/Guid.v ===== *)
(** * Guid: the 16-byte card identifier ([piggy-piv/src/guid.rs]) *)

From Stdlib Require Import ZArith Lia String.
From stdpp Require Import base tactics list numbers.
From S2P Require Import Prelude Utf8 PivError.

Local Open Scope Z_scope.

(** [Guid([u8; 16])]; the length is the invariant of the Rust array type. *)
Record Guid := MkGuid { guid_bytes : bytes }.

#[export] Instance Guid_eq_dec : EqDecision Guid.
Proof. solve_decision. Defined.

Definition guid_ok (g : Guid) : Prop := len (guid_bytes g) = 16 /\ bytes_ok (guid_bytes g).

(** [Guid::from_bytes] *)
Definition guid_from_bytes (l : bytes) : res PivError Guid :=
  if len l =? 16 then Ok (MkGuid l) else Err (InvalidGuid 16 (len l)).

(** [Guid::as_bytes] *)
Definition guid_as_bytes (g : Guid) : bytes := guid_bytes g.

(** [Guid::is_all_zeros] *)
Definition is_all_zeros (g : Guid) : bool := bool_decide (guid_bytes g = repeat 0 16).

Lemma guid_from_bytes_ok g : len (guid_bytes g) = 16 -> guid_from_bytes (guid_bytes g) = Ok g.
Proof. unfold guid_from_bytes. intros ->. now destruct g. Qed.
