(* ===== verification/Reader.v ===== *)
(** * Reader: parsers over a byte slice with a position

    [WireReader] (piggy-box) and [TlvReader] (piggy-piv) are both a slice and a
    position; a reading method is a [Parser] that takes the reader and returns
    the value and the moved reader, or an error of its crate.  The file is the
    interface the formats are proved against: what it means for a parser to
    read an encoding ([reads]), never to panic ([safe]), and to depend only on
    the bytes it consumes ([local_rd]); [good] is the last two.  Loops are
    [rd_while], whose fuel is one more than the bytes left: running out of it
    is a [Panic], so [safe] also says that a loop ends. *)

From Stdlib Require Import ZArith Lia.
From stdpp Require Import base tactics list numbers.
From S2P Require Import Prelude.

Local Open Scope Z_scope.

Record Reader := MkReader { rd_data : bytes; rd_pos : Z }.

Definition reader_new (data : bytes) : Reader := MkReader data 0.

(** [self.pos += n] *)
Definition adv (r : Reader) (n : Z) : Reader := MkReader (rd_data r) (rd_pos r + n).

(** A reading method: [&mut self] in, the value and the moved reader out. *)
Definition Parser (E A : Type) : Type := Reader -> res E (A * Reader).

Definition rd_ret {E A} (a : A) : Parser E A := fun r => Ok (a, r).
Definition rd_lift {E A} (c : res E A) : Parser E A := fun r => let* a := c in Ok (a, r).
Definition rd_bind {E A B} (p : Parser E A) (k : A -> Parser E B) : Parser E B :=
  fun r => res_bind (p r) (fun '(a, r') => k a r').

Notation "'let!' x ':=' p 'in' k" := (rd_bind p (fun x => k))
  (at level 10, x pattern, p at level 100, k at level 200) : res_scope.

(** The reader stands inside its data. *)
Definition reader_ok (r : Reader) : Prop :=
  0 <= rd_pos r <= len (rd_data r) /\ bytes_ok (rd_data r).

(** The bytes still to be read are [s]. *)
Definition at_rest (r : Reader) (s : bytes) : Prop :=
  0 <= rd_pos r <= len (rd_data r) /\ zdrop (rd_pos r) (rd_data r) = s.

(** [p] reads the value [x] off the encoding [e], whatever follows it, and
    stops right behind it. *)
Definition reads {E A} (p : Parser E A) (x : A) (e : bytes) : Prop :=
  forall r t, at_rest r (e ++ t) -> p r = Ok (x, adv r (len e)).

(** On every input [p] returns, without panicking; a value it returns
    satisfies [Q] and the reader only moved forward. *)
Definition safe {E A} (p : Parser E A) (Q : A -> Prop) : Prop :=
  forall r, reader_ok r ->
    no_panic (p r) /\
    forall x r', p r = Ok (x, r') ->
      Q x /\ rd_data r' = rd_data r /\ rd_pos r <= rd_pos r' <= len (rd_data r).

(** The outcome of a successful [p] depends only on the bytes it consumed. *)
Definition local_rd {E A} (p : Parser E A) : Prop :=
  forall r x r' d', reader_ok r -> p r = Ok (x, r') ->
    bytes_ok d' -> rd_pos r' <= len d' ->
    ztake (rd_pos r') d' = ztake (rd_pos r') (rd_data r) ->
    p (MkReader d' (rd_pos r)) = Ok (x, MkReader d' (rd_pos r')).

Definition good {E A} (p : Parser E A) (Q : A -> Prop) : Prop := safe p Q /\ local_rd p.

(** [for _ in 0..n { xs.push(get(r)?); }] *)
Fixpoint get_times {E A} (get : Parser E A) (n : nat) : Parser E (list A) :=
  match n with
  | O => rd_ret []
  | S k => let! x := get in let! xs := get_times get k in rd_ret (x :: xs)
  end.

Lemma at_rest_adv r e t : at_rest r (e ++ t) -> at_rest (adv r (len e)) t.
Proof.
  intros [Hp Hd]. pose proof (zdrop_bound _ _ _ _ Hp Hd). pose proof (len_nonneg e).
  split; simpl; [lia|]. apply zdrop_step with (k := e); [lia|exact Hd].
Qed.

Lemma adv_adv r n m : adv (adv r n) m = adv r (n + m).
Proof. unfold adv. simpl. now rewrite Z.add_assoc. Qed.

Lemma at_rest_new l : at_rest (reader_new l) l.
Proof. split; simpl; [pose proof (len_nonneg l); lia|reflexivity]. Qed.

Lemma reader_new_ok l : bytes_ok l -> reader_ok (reader_new l).
Proof. intros H. split; simpl; [pose proof (len_nonneg l); lia|exact H]. Qed.

Section Reads.
Context {E A B : Type}.

Lemma reads_ret (x : A) : reads (E := E) (rd_ret x) x [].
Proof.
  intros r t _. unfold rd_ret, adv. change (len (@nil Z)) with 0. rewrite Z.add_0_r.
  now destruct r.
Qed.

Lemma reads_lift (c : res E A) x : c = Ok x -> reads (rd_lift c) x [].
Proof. intros ->. exact (reads_ret x). Qed.

Lemma reads_bind (p : Parser E A) (k : A -> Parser E B) x y e1 e2 :
  reads p x e1 -> reads (k x) y e2 -> reads (rd_bind p k) y (e1 ++ e2).
Proof.
  intros Hp Hk r t Hr. rewrite <- app_assoc in Hr. unfold rd_bind.
  rewrite (Hp _ _ Hr). simpl. rewrite (Hk _ t) by (now apply at_rest_adv).
  now rewrite adv_adv, len_app.
Qed.

(** A step that leaves the reader where it is. *)
Lemma reads_bind_nil (p : Parser E A) (k : A -> Parser E B) x y e :
  reads p x [] -> reads (k x) y e -> reads (rd_bind p k) y e.
Proof. intros Hp Hk. exact (reads_bind p k x y [] e Hp Hk). Qed.

(** The last step of a chain. *)
Lemma reads_bind_last (p : Parser E A) (k : A -> Parser E B) x y e :
  reads p x e -> reads (k x) y [] -> reads (rd_bind p k) y e.
Proof. intros Hp Hk. rewrite <- (app_nil_r e). now apply reads_bind with x. Qed.
End Reads.

Section Safe.
Context {E A B : Type}.

Lemma safe_weaken (p : Parser E A) (Q R : A -> Prop) :
  (forall x, Q x -> R x) -> safe p Q -> safe p R.
Proof.
  intros HQR Hp r Hr. destruct (Hp r Hr) as [H1 H2]. split; [exact H1|].
  intros x r' Hx. destruct (H2 x r' Hx). auto.
Qed.

Lemma safe_ret (x : A) (Q : A -> Prop) : Q x -> safe (E := E) (rd_ret x) Q.
Proof.
  intros HQ r Hr. split; [apply no_panic_Ok|]. intros y r' Hy. injection Hy as <- <-.
  destruct Hr as [Hr _]. repeat split; auto; lia.
Qed.

Lemma safe_lift (c : res E A) (Q : A -> Prop) :
  no_panic c -> (forall x, c = Ok x -> Q x) -> safe (rd_lift c) Q.
Proof.
  intros Hc HQ r Hr. unfold rd_lift. destruct c as [a|e|]; simpl; [..|now destruct Hc].
  - apply (safe_ret a Q (HQ a eq_refl) r Hr).
  - split; [apply no_panic_Err|discriminate].
Qed.

Lemma safe_bind (p : Parser E A) (k : A -> Parser E B) (Q : A -> Prop) (R : B -> Prop) :
  safe p Q -> (forall x, Q x -> safe (k x) R) -> safe (rd_bind p k) R.
Proof.
  intros Hp Hk r Hr. unfold rd_bind. destruct (Hp r Hr) as [Hn Hx].
  destruct (p r) as [[x r1]|e|]; simpl; [|split; [apply no_panic_Err|discriminate]|now destruct Hn].
  destruct (Hx x r1 eq_refl) as (HQ & Hd & Hpos).
  assert (Hr1 : reader_ok r1) by (destruct Hr; split; rewrite Hd; [lia|assumption]).
  destruct (Hk x HQ r1 Hr1) as [Hn2 Hx2]. split; [exact Hn2|].
  intros y r2 Hy. destruct (Hx2 y r2 Hy) as (HR & Hd2 & Hpos2).
  rewrite Hd in *. repeat split; auto; lia.
Qed.
End Safe.

Lemma safe_times {E A} (get : Parser E A) (Q : A -> Prop) n :
  safe get Q -> safe (get_times get n) (fun xs => Forall Q xs /\ length xs = n).
Proof.
  intros Hget. induction n as [|n IH]; cbn [get_times].
  - apply safe_ret. now split.
  - apply safe_bind with (Q := Q); [exact Hget|]. intros x Hx.
    apply safe_bind with (Q := fun xs => Forall Q xs /\ length xs = n); [exact IH|].
    intros xs [Hxs <-]. apply safe_ret. split; [now constructor|reflexivity].
Qed.

Section Local.
Context {E A B : Type}.

Lemma local_ret (x : A) : local_rd (E := E) (rd_ret x).
Proof. intros r y r' d' _ [= <- <-] _ _ _. reflexivity. Qed.

Lemma local_lift (c : res E A) : local_rd (rd_lift c).
Proof.
  intros r y r' d' _ Heq _ _ _. unfold rd_lift in *. destruct c; try discriminate.
  injection Heq as <- <-. reflexivity.
Qed.

Lemma local_bind (p : Parser E A) (k : A -> Parser E B) (Q : A -> Prop) (R : B -> Prop) :
  safe p Q -> local_rd p -> (forall x, Q x -> safe (k x) R) ->
  (forall x, Q x -> local_rd (k x)) -> local_rd (rd_bind p k).
Proof.
  intros Hsp Hlp Hsk Hlk r y r2 d' Hr Heq Hd' Hlen Hagree. unfold rd_bind in *.
  destruct (p r) as [[x r1]|e|] eqn:Hp; try discriminate. simpl in Heq.
  destruct (proj2 (Hsp r Hr) x r1 Hp) as (HQ & Hd & Hpos).
  assert (Hr1 : reader_ok r1) by (destruct Hr; split; rewrite Hd; [lia|assumption]).
  destruct (proj2 (Hsk x HQ r1 Hr1) y r2 Heq) as (_ & Hd2 & Hpos2).
  assert (Hag1 : ztake (rd_pos r1) d' = ztake (rd_pos r1) (rd_data r)).
  { unfold ztake in *. replace (Z.to_nat (rd_pos r1)) with (Z.to_nat (rd_pos r1) `min` Z.to_nat (rd_pos r2))%nat
      by lia. rewrite <- !take_take. now rewrite Hagree. }
  rewrite (Hlp r x r1 d' Hr Hp Hd' ltac:(lia) Hag1). simpl.
  rewrite <- Hd in Hagree.
  exact (Hlk x HQ r1 y r2 d' Hr1 Heq Hd' Hlen Hagree).
Qed.

Lemma good_safe (p : Parser E A) (Q : A -> Prop) : good p Q -> safe p Q.
Proof. exact (@proj1 _ _). Qed.

Lemma good_ret (x : A) (Q : A -> Prop) : Q x -> good (E := E) (rd_ret x) Q.
Proof. intros H. split; [now apply safe_ret|apply local_ret]. Qed.

Lemma good_lift (c : res E A) (Q : A -> Prop) :
  no_panic c -> (forall x, c = Ok x -> Q x) -> good (rd_lift c) Q.
Proof. intros H1 H2. split; [now apply safe_lift|apply local_lift]. Qed.

Lemma good_err (e : E) (Q : A -> Prop) : good (E := E) (rd_lift (Err e)) Q.
Proof. apply good_lift; [apply no_panic_Err|discriminate]. Qed.

Lemma good_bind (p : Parser E A) (k : A -> Parser E B) (Q : A -> Prop) (R : B -> Prop) :
  good p Q -> (forall x, Q x -> good (k x) R) -> good (rd_bind p k) R.
Proof.
  intros [Hs Hl] Hk. split.
  - apply safe_bind with Q; [exact Hs|]. intros x Hx. exact (proj1 (Hk x Hx)).
  - apply local_bind with Q R; [exact Hs|exact Hl| |]; intros x Hx;
      [exact (proj1 (Hk x Hx))|exact (proj2 (Hk x Hx))].
Qed.

Lemma good_weaken (p : Parser E A) (Q R : A -> Prop) :
  (forall x, Q x -> R x) -> good p Q -> good p R.
Proof. intros HQR [Hs Hl]. split; [now apply safe_weaken with Q|exact Hl]. Qed.
End Local.

Lemma ztake_agree_slice (d d' : bytes) a b :
  0 <= a -> a <= b -> b <= len d -> b <= len d' -> ztake b d' = ztake b d ->
  ztake (b - a) (zdrop a d') = ztake (b - a) (zdrop a d).
Proof.
  intros Ha Hab Hd Hd' H. unfold ztake, zdrop in *.
  rewrite !firstn_skipn_comm. rewrite <- !Z2Nat.inj_add by lia.
  replace (a + (b - a)) with b by lia. now rewrite H.
Qed.

Lemma good_times {E A} (get : Parser E A) (Q : A -> Prop) n :
  good get Q -> good (get_times get n) (fun xs => Forall Q xs /\ length xs = n).
Proof.
  intros Hget. induction n as [|n IH]; cbn [get_times].
  - apply good_ret. now split.
  - apply good_bind with Q; [exact Hget|]. intros x Hx.
    apply good_bind with (fun xs => Forall Q xs /\ length xs = n); [exact IH|].
    intros xs [Hxs <-]. apply good_ret. split; [now constructor|reflexivity].
Qed.

(** A whole buffer parsed by [p]. *)
Definition parse_all {E A} (p : Parser E A) (data : bytes) : res E A :=
  let* (x, _) := p (reader_new data) in Ok x.

Lemma parse_all_reads {E A} (p : Parser E A) x e t : reads p x e -> parse_all p (e ++ t) = Ok x.
Proof. intros H. unfold parse_all. rewrite (H _ t) by apply at_rest_new. reflexivity. Qed.

Lemma parse_all_safe {E A} (p : Parser E A) Q data :
  safe p Q -> bytes_ok data -> no_panic (parse_all p data).
Proof.
  intros Hs Hd. destruct (Hs _ (reader_new_ok data Hd)) as [Hn _]. unfold parse_all.
  destruct (p (reader_new data)) as [[x r]|e|]; simpl; [discriminate|discriminate|now destruct Hn].
Qed.

(** A proper prefix of an encoding is never accepted, whatever the value the
    encoding carries. *)
Lemma parse_all_truncated {E A} (p : Parser E A) Q x e n :
  good p Q -> reads p x e -> bytes_ok e -> 0 <= n < len e ->
  exists err, parse_all p (ztake n e) = Err err.
Proof.
  intros [Hs Hl] He Hbytes Hn. unfold parse_all.
  assert (Hok : reader_ok (reader_new (ztake n e))) by (apply reader_new_ok; auto with bytes).
  destruct (Hs _ Hok) as [Hp Hx].
  destruct (p (reader_new (ztake n e))) as [[y r]|err|] eqn:Hrun; simpl;
    [|now exists err|now destruct Hp].
  exfalso. destruct (Hx y r eq_refl) as (_ & _ & Hpos). simpl in Hpos.
  rewrite len_ztake in Hpos by lia.
  assert (Hag : ztake (rd_pos r) e = ztake (rd_pos r) (ztake n e)).
  { unfold ztake. rewrite take_take. f_equal. lia. }
  pose proof (Hl _ _ _ e Hok Hrun Hbytes ltac:(lia) Hag) as Hfull. simpl in Hfull.
  assert (Hr : at_rest (reader_new e) (e ++ [])) by (rewrite app_nil_r; apply at_rest_new).
  pose proof (He _ _ Hr) as Hwhole. unfold reader_new, adv in Hwhole. simpl in Hwhole.
  rewrite Hwhole in Hfull. injection Hfull as Hend. lia.
Qed.

(** ** While loops *)

Fixpoint rd_loop {E S R : Type} (fuel : nat) (step : S -> Parser E (S + R)) (s : S) : Parser E R :=
  match fuel with
  | O => rd_lift Panic
  | S k => let! x := step s in
           match x with
           | inl s' => rd_loop k step s'
           | inr a => rd_ret a
           end
  end.

Definition loop_fuel (r : Reader) : nat :=
  S (Z.to_nat (len (rd_data r) - rd_pos r)).

Definition rd_while {E S R : Type} (step : S -> Parser E (S + R)) (s : S) : Parser E R :=
  fun r => rd_loop (loop_fuel r) step s r.

Section Loop.
Context {E S R : Type} (step : S -> Parser E (S + R)).

(** The runs of the loop, one step at a time. *)
Inductive loops : S -> R -> bytes -> Prop :=
| loops_done s a e : reads (step s) (inr a) e -> loops s a e
| loops_more s s' a e1 e2 :
    reads (step s) (inl s') e1 -> 1 <= len e1 -> loops s' a e2 -> loops s a (e1 ++ e2).

Lemma reads_loop s a e :
  loops s a e -> forall n, len e < Z.of_nat n -> reads (rd_loop n step s) a e.
Proof.
  induction 1 as [s a e Hs|s s' a e1 e2 Hs Hlen _ IH]; intros n Hn.
  - destruct n as [|n]; [pose proof (len_nonneg e); lia|]. simpl.
    apply reads_bind_last with (inr a); [exact Hs|apply reads_ret].
  - rewrite len_app in Hn. pose proof (len_nonneg e2).
    destruct n as [|n]; [lia|]. simpl. apply reads_bind with (inl s'); [exact Hs|].
    apply IH. lia.
Qed.

Lemma reads_while s a e : loops s a e -> reads (rd_while step s) a e.
Proof.
  intros H r t Hr. unfold rd_while. apply (reads_loop s a e H) with (t := t); [|exact Hr].
  destruct Hr as [Hp Hd]. pose proof (zdrop_bound _ _ _ _ Hp Hd). unfold loop_fuel. lia.
Qed.

(** A step keeps the invariant [I] and, when the loop goes on, moves the
    reader. *)
Context (I : S -> Prop) (Q : R -> Prop).

Definition step_post (x : S + R) : Prop :=
  match x with inl s' => I s' | inr a => Q a end.

Definition moves (p : Parser E (S + R)) : Prop :=
  forall r s' r', reader_ok r -> p r = Ok (inl s', r') -> rd_pos r < rd_pos r'.

Hypothesis step_safe : forall s, I s -> safe (step s) step_post.
Hypothesis step_moves : forall s, I s -> moves (step s).

Lemma loop_safe n s r :
  I s -> reader_ok r -> len (rd_data r) - rd_pos r < Z.of_nat n ->
  no_panic (rd_loop n step s r) /\
  forall a r', rd_loop n step s r = Ok (a, r') ->
    Q a /\ rd_data r' = rd_data r /\ rd_pos r <= rd_pos r' <= len (rd_data r).
Proof.
  revert s r. induction n as [|n IH]; intros s r Hs Hr Hn.
  { destruct Hr as [Hr _]. lia. }
  simpl. unfold rd_bind. destruct (step_safe s Hs r Hr) as [Hp Hx].
  destruct (step s r) as [[x r1]|e|] eqn:Hrun; simpl;
    [|split; [apply no_panic_Err|discriminate]|now destruct Hp].
  destruct (Hx x r1 eq_refl) as (HQ & Hd & Hpos).
  assert (Hr1 : reader_ok r1) by (destruct Hr; split; rewrite Hd; [lia|assumption]).
  destruct x as [s'|a]; simpl in HQ.
  - pose proof (step_moves s Hs r s' r1 Hr Hrun).
    destruct (IH s' r1 HQ Hr1) as [Hn1 Hx1]; [rewrite Hd; lia|].
    split; [exact Hn1|]. intros b r2 Hb. destruct (Hx1 b r2 Hb) as (Hb1 & Hb2 & Hb3).
    rewrite Hd in *. repeat split; auto; lia.
  - split; [apply no_panic_Ok|]. intros b r2 [= <- <-]. rewrite Hd. repeat split; auto; lia.
Qed.

Lemma safe_while s : I s -> safe (rd_while step s) Q.
Proof.
  intros Hs r Hr. apply loop_safe; [exact Hs|exact Hr|].
  unfold loop_fuel. destruct Hr. lia.
Qed.

Hypothesis step_local : forall s, I s -> local_rd (step s).

Lemma loop_local n s r a r' :
  I s -> reader_ok r -> rd_loop n step s r = Ok (a, r') ->
  rd_pos r <= rd_pos r' /\
  forall m d', rd_pos r' - rd_pos r < Z.of_nat m -> bytes_ok d' -> rd_pos r' <= len d' ->
    ztake (rd_pos r') d' = ztake (rd_pos r') (rd_data r) ->
    rd_loop m step s (MkReader d' (rd_pos r)) = Ok (a, MkReader d' (rd_pos r')).
Proof.
  revert s r. induction n as [|n IH]; intros s r Hs Hr Hrun; [discriminate|].
  simpl in Hrun. unfold rd_bind in Hrun. destruct (step_safe s Hs r Hr) as [_ Hx].
  destruct (step s r) as [[x r1]|e|] eqn:Hstep; try discriminate. simpl in Hrun.
  destruct (Hx x r1 eq_refl) as (HQ & Hd & Hpos).
  assert (Hr1 : reader_ok r1) by (destruct Hr; split; rewrite Hd; [lia|assumption]).
  assert (Hloc : forall d', bytes_ok d' -> rd_pos r1 <= rd_pos r' -> rd_pos r' <= len d' ->
            ztake (rd_pos r') d' = ztake (rd_pos r') (rd_data r) ->
            step s (MkReader d' (rd_pos r)) = Ok (x, MkReader d' (rd_pos r1))).
  { intros d' Hd' Hle Hlen Hag. apply (step_local s Hs r x r1 d' Hr Hstep Hd'); [lia|].
    unfold ztake in *.
    replace (Z.to_nat (rd_pos r1)) with (Z.to_nat (rd_pos r1) `min` Z.to_nat (rd_pos r'))%nat
      by lia. rewrite <- !take_take. now rewrite Hag. }
  destruct x as [s'|b]; simpl in HQ.
  - pose proof (step_moves s Hs r s' r1 Hr Hstep) as Hmv.
    destruct (IH s' r1 HQ Hr1 Hrun) as [Hle Hrest]. split; [lia|].
    intros m d' Hm Hd' Hlen Hag. destruct m as [|m]; [lia|]. simpl. unfold rd_bind.
    rewrite (Hloc d' Hd' Hle Hlen Hag). simpl.
    apply Hrest; [lia|exact Hd'|exact Hlen|]. now rewrite Hd.
  - injection Hrun as <- <-. split; [lia|].
    intros m d' Hm Hd' Hlen Hag. destruct m as [|m]; [lia|]. simpl. unfold rd_bind.
    now rewrite (Hloc d' Hd' (Z.le_refl _) Hlen Hag).
Qed.

Lemma good_while s : I s -> good (rd_while step s) Q.
Proof.
  intros Hs. split; [now apply safe_while|].
  intros r a r' d' Hr Hrun Hd' Hlen Hag. unfold rd_while in *.
  destruct (loop_local _ s r a r' Hs Hr Hrun) as [Hle H].
  apply H; [|exact Hd'|exact Hlen|exact Hag]. unfold loop_fuel. simpl. lia.
Qed.
End Loop.
