(* ===== verification/Wire.v ===== *)
(** * Wire: the length-prefixed wire format of [piggy-box/src/wire.rs]

    [WireReader] and [WireWriter] are the two Rust structs; a method that takes
    [&mut self] returns the new value.  The second half of the file is the
    interface the box, template and stream formats are proved against: what it
    means for a parser to read an encoding ([reads]), for a writer to append
    one ([writes]), for a parser never to panic ([safe]) and to depend only on
    the bytes it consumes ([local_rd]), and the class [WireCodec] that bundles
    an encoding with the writer and the reader that implement it. *)

From Stdlib Require Import ZArith Lia String.
From stdpp Require Import base tactics list numbers.
From S2P Require Import Prelude Utf8 PivError Guid Reader.

Local Open Scope Z_scope.

(** ** Errors of the crate ([piggy-box/src/error.rs]) *)

(** The text of [BoxError::Wire]. *)
Inductive WireMsg : Type :=
| NeedBytes (n offset remain : Z)
| CstringNul
| CstringNotUtf8
| String8TooLong (length : Z)
| MissingPubkey
| MissingCurve
| MissingBox
| UnknownPartTag (tag : Z)
| UnknownEboxPartTag (tag : Z)
| PrimaryN (n : Z)
| Base64Failed
| ChunkTooShort
| NoRecipients
| UnsupportedFormat (format : string)
| WrongPurpose.

(** The text of [BoxError::Crypto]. *)
Inductive CryptoMsg : Type :=
| WireIvLength (got : Z)
| AeadIvLength (got : Z)
| CiphertextTooShort
| AeadDecrypt
| GcmTooShort
| GcmDecrypt
| ShamirRecover
| NonceLength
| RecoveryNoKey.

(** The text of [BoxError::InvalidAgentReply]. *)
Inductive AgentMsg : Type :=
| ReplyTooShort (length : Z)
| ReplyLengthExceedsBody
| ReplyTrailing (length : Z).

(** [OracleError] ([piggy-box/src/oracle.rs]). *)
Inductive OracleError : Type :=
| NoKey
| InvalidPubkey (message : string)
| OracleTransport (message : string)
| OracleProtocol (message : string)
| OracleOther (message : string).

Inductive BoxError : Type :=
| Wire (message : WireMsg)
| BadMagic (expected got : Z)
| UnsupportedVersion (version : Z)
| UnsupportedCipher (name : bytes)
| UnsupportedKdf (name : bytes)
| UnsupportedCurve (name : bytes)
| UnsupportedRecipientFormat (format : string)
| BoxCrypto (message : CryptoMsg)
| BadPadding
| NotSealed
| NotOpened
| BadEboxType (v : Z)
| BadConfigType (v : Z)
| NotUnlocked
| AlreadyUnlocked
| UnlockFailed (reason : option UnlockReason)
| ThresholdNotMet (have need : Z)
| HmacMismatch (seqnr : Z)
| SequenceMismatch (expected got : Z)
| InvalidAgentReply (message : AgentMsg)
| BoxPiv (e : PivError)
| OpenSsl (message : string)
| BoxIo (message : string)
(** The text in [UnlockFailed]'s reason. *)
with UnlockReason : Type :=
| RecoveryOnly
| OracleFailed (e : OracleError)
| OpenWithSecretFailed (e : BoxError).

(** ** WireReader *)

Definition WireReader : Type := Reader.

(** A reading method of the crate. *)
Abbreviation Rd := (Parser BoxError).

Definition remaining (r : WireReader) : res BoxError Z := usub (len (rd_data r)) (rd_pos r).

(** [WireReader::rest] *)
Definition rest (r : WireReader) : res BoxError bytes := slice_from (rd_data r) (rd_pos r).

Definition need (r : WireReader) (n : Z) : res BoxError unit :=
  let* rem := remaining r in
  if rem <? n
  then let* rem := remaining r in Err (Wire (NeedBytes n (rd_pos r) rem))
  else Ok tt.

Definition get_u8 : Rd Z := fun r =>
  let* _ := need r 1 in
  let* v := index (rd_data r) (rd_pos r) in
  Ok (v, adv r 1).

Definition get_u32 : Rd Z := fun r =>
  let* _ := need r 4 in
  let* s := slice (rd_data r) (rd_pos r) (rd_pos r + 4) in
  Ok (from_be_bytes s, adv r 4).

Definition get_u64 : Rd Z := fun r =>
  let* _ := need r 8 in
  let* s := slice (rd_data r) (rd_pos r) (rd_pos r + 8) in
  Ok (from_be_bytes s, adv r 8).

(** The body shared by [get_string8] and [get_string] once the length is known. *)
Definition get_n (n : Z) : Rd bytes := fun r =>
  let* _ := need r n in
  let* v := slice (rd_data r) (rd_pos r) (rd_pos r + n) in
  Ok (v, adv r n).

Definition get_string8 : Rd bytes :=
  let! n := get_u8 in
  get_n n.

(** [raw.contains(&0u8)] *)
Definition contains_nul (l : bytes) : bool := existsb (Z.eqb 0) l.

Definition get_cstring8 : Rd bytes :=
  let! raw := get_string8 in
  if contains_nul raw then rd_lift (Err (Wire CstringNul))
  else if utf8_valid raw then rd_ret raw
  else rd_lift (Err (Wire CstringNotUtf8)).

Definition get_eckey8 : Rd bytes := get_string8.

Definition get_string : Rd bytes :=
  let! n := get_u32 in
  get_n n.

(** ** WireWriter *)

Record WireWriter := MkWriter { wr_buf : bytes }.

Definition writer_new : WireWriter := MkWriter [].
Definition into_bytes (w : WireWriter) : bytes := wr_buf w.

(** [self.buf.extend_from_slice(data)] *)
Definition put_raw (w : WireWriter) (data : bytes) : WireWriter := MkWriter (wr_buf w ++ data).

Definition put_u8 (w : WireWriter) (v : Z) : WireWriter := put_raw w [v].
Definition put_u32 (w : WireWriter) (v : Z) : WireWriter := put_raw w (to_be_bytes 4 v).
Definition put_u64 (w : WireWriter) (v : Z) : WireWriter := put_raw w (to_be_bytes 8 v).

Definition put_string8 (w : WireWriter) (data : bytes) : res BoxError WireWriter :=
  if 255 <? len data then Err (Wire (String8TooLong (len data)))
  else Ok (put_raw (put_u8 w (u8 (len data))) data).

Definition put_cstring8 (w : WireWriter) (s : bytes) : res BoxError WireWriter :=
  if contains_nul s then Err (Wire CstringNul)
  else put_string8 w s.

Definition put_eckey8 (w : WireWriter) (point : bytes) : res BoxError WireWriter :=
  put_string8 w point.

Definition put_string (w : WireWriter) (data : bytes) : WireWriter :=
  put_raw (put_u32 w (u32 (len data))) data.

(** ** PKCS#7 padding *)

Definition pkcs7_pad (data : bytes) (block_size : Z) : bytes :=
  let pad_len := block_size - len data mod block_size in
  data ++ repeat (u8 pad_len) (Z.to_nat pad_len).

Definition pkcs7_unpad (data : bytes) (block_size : Z) : res BoxError bytes :=
  if bool_decide (data = []) then Err BadPadding
  else
    let* last := usub (len data) 1 in
    let* pad_byte := index data last in
    let pad_len := pad_byte in
    if (pad_len =? 0) || (len data <? pad_len) || (block_size <? pad_len)
    then Err BadPadding
    else
      let* start := usub (len data) pad_len in
      let* tail := slice_from data start in
      if forallb (fun b => b =? pad_byte) tail
      then let* start := usub (len data) pad_len in slice data 0 start
      else Err BadPadding.

(** ** The interface: parsers, writers and codecs *)

(** [f] appends exactly [e]. *)
Definition writes (f : WireWriter -> res BoxError WireWriter) (e : bytes) : Prop :=
  forall w, f w = Ok (put_raw w e).

(** A wire format: which values it can carry, their encoding, and the writer
    and reader that implement it.  [wire_view] is what a reader gives back: the
    fields that are not on the wire come back as the reader's defaults. *)
Class WireCodec (A : Type) := {
  wire_ok : A -> Prop;
  wire_enc : A -> bytes;
  wire_view : A -> A;
  wire_put : WireWriter -> A -> res BoxError WireWriter;
  wire_get : Rd A;
}.

Class WireCodecLaws (A : Type) `{WireCodec A} := {
  wire_put_enc x : wire_ok x -> writes (fun w => wire_put w x) (wire_enc x);
  wire_get_enc x : wire_ok x -> reads wire_get (wire_view x) (wire_enc x);
}.

(** [for x in &xs { put(w, x)?; }] *)
Fixpoint put_all {A} (put : WireWriter -> A -> res BoxError WireWriter)
    (w : WireWriter) (xs : list A) : res BoxError WireWriter :=
  match xs with
  | [] => Ok w
  | x :: xs' => let* w := put w x in put_all put w xs'
  end.

(** ** Lemmas *)

Lemma put_raw_app w a b : put_raw (put_raw w a) b = put_raw w (a ++ b).
Proof. unfold put_raw. simpl. now rewrite app_assoc. Qed.

Lemma put_raw_nil w : put_raw w [] = w.
Proof. destruct w. unfold put_raw. simpl. now rewrite app_nil_r. Qed.

Lemma remaining_Ok r : reader_ok r -> remaining r = Ok (len (rd_data r) - rd_pos r).
Proof. intros [H _]. unfold remaining. apply usub_Ok. lia. Qed.

Lemma need_rest r e t : at_rest r (e ++ t) -> need r (len e) = Ok tt.
Proof.
  intros [Hp Hd]. pose proof (zdrop_bound _ _ _ _ Hp Hd).
  unfold need, remaining. rewrite usub_Ok by lia. simpl. zbool. reflexivity.
Qed.

Lemma reads_u8 b : reads get_u8 b [b].
Proof.
  intros r t Hr. unfold get_u8. change 1 with (len [b]) at 1. rewrite (need_rest _ _ _ Hr).
  destruct Hr as [Hp Hd]. simpl. erewrite index_Ok; [reflexivity|lia|exact Hd].
Qed.

Lemma reads_n l : reads (get_n (len l)) l l.
Proof.
  intros r t Hr. unfold get_n. rewrite (need_rest _ _ _ Hr). destruct Hr as [Hp Hd]. simpl.
  erewrite slice_app; [reflexivity|exact Hp|exact Hd].
Qed.

Lemma reads_u32 z : 0 <= z < 2 ^ 32 -> reads get_u32 z (to_be_bytes 4 z).
Proof.
  intros Hz r t Hr. unfold get_u32.
  change 4 with (len (to_be_bytes 4 z)) at 1. rewrite (need_rest _ _ _ Hr).
  destruct Hr as [Hp Hd]. simpl res_bind.
  change (rd_pos r + 4) with (rd_pos r + len (to_be_bytes 4 z)).
  rewrite (slice_app _ _ _ t) by assumption. simpl res_bind.
  rewrite from_to_be_bytes_small by exact Hz. reflexivity.
Qed.

Lemma reads_u64 z : 0 <= z < 2 ^ 64 -> reads get_u64 z (to_be_bytes 8 z).
Proof.
  intros Hz r t Hr. unfold get_u64.
  change 8 with (len (to_be_bytes 8 z)) at 1. rewrite (need_rest _ _ _ Hr).
  destruct Hr as [Hp Hd]. simpl res_bind.
  change (rd_pos r + 8) with (rd_pos r + len (to_be_bytes 8 z)).
  rewrite (slice_app _ _ _ t) by assumption. simpl res_bind.
  rewrite from_to_be_bytes_small by exact Hz. reflexivity.
Qed.

(** The encodings of the two length-prefixed string forms. *)
Definition enc8 (l : bytes) : bytes := len l :: l.
Definition enc32 (l : bytes) : bytes := to_be_bytes 4 (len l) ++ l.

#[global] Arguments enc8 : simpl never.
#[global] Arguments enc32 : simpl never.

(** Bytes a [cstring8] can carry. *)
Definition cstr_ok (l : bytes) : Prop :=
  len l <= 255 /\ contains_nul l = false /\ utf8_valid l = true.

Lemma reads_string8 l : reads get_string8 l (enc8 l).
Proof. apply (reads_bind _ _ (len l) l [len l] l); [apply reads_u8|apply reads_n]. Qed.

Lemma reads_cstring8 l : cstr_ok l -> reads get_cstring8 l (enc8 l).
Proof.
  intros (_ & Hnul & Hutf). apply reads_bind_last with l; [apply reads_string8|].
  rewrite Hnul, Hutf. apply reads_ret.
Qed.

Lemma reads_eckey8 l : reads get_eckey8 l (enc8 l).
Proof. exact (reads_string8 l). Qed.

Lemma reads_string l : len l < 2 ^ 32 -> reads get_string l (enc32 l).
Proof.
  intros H. apply reads_bind with (len l); [|apply reads_n].
  apply reads_u32. pose proof (len_nonneg l). lia.
Qed.

Lemma writes_u8 v : writes (fun w => Ok (put_u8 w v)) [v].
Proof. intros w. reflexivity. Qed.

Lemma put_string8_Ok w l : len l <= 255 -> put_string8 w l = Ok (put_raw w (enc8 l)).
Proof.
  intros H. pose proof (len_nonneg l). unfold put_string8. zbool.
  unfold put_u8. rewrite put_raw_app, u8_small by (unfold byte_ok; lia). reflexivity.
Qed.

Lemma put_cstring8_Ok w l : cstr_ok l -> put_cstring8 w l = Ok (put_raw w (enc8 l)).
Proof.
  intros (Hl & Hnul & _). unfold put_cstring8. rewrite Hnul. now apply put_string8_Ok.
Qed.

Lemma put_eckey8_Ok w l : len l <= 255 -> put_eckey8 w l = Ok (put_raw w (enc8 l)).
Proof. apply put_string8_Ok. Qed.

Lemma put_string_Ok w l : len l < 2 ^ 32 -> put_string w l = put_raw w (enc32 l).
Proof.
  intros H. pose proof (len_nonneg l). unfold put_string, put_u32.
  rewrite put_raw_app. unfold u32. now rewrite Z.mod_small by lia.
Qed.

(** [put_string8] fails exactly on the strings a one-byte length cannot
    describe. *)
Lemma put_string8_Err w l :
  255 < len l -> put_string8 w l = Err (Wire (String8TooLong (len l))).
Proof. intros H. unfold put_string8. zbool. reflexivity. Qed.

(** *** Lists, against the interface *)

Section Lists.
Context {A : Type} `{WireCodecLaws A}.

Definition enc_all (xs : list A) : bytes := mbind wire_enc xs.

Lemma writes_all xs :
  Forall wire_ok xs -> writes (fun w => put_all wire_put w xs) (enc_all xs).
Proof.
  induction 1 as [|x xs Hx Hxs IH]; intros w; simpl.
  - now rewrite put_raw_nil.
  - rewrite (wire_put_enc x Hx w). simpl. rewrite (IH _). now rewrite put_raw_app.
Qed.

Lemma reads_all xs :
  Forall wire_ok xs ->
  reads (get_times wire_get (length xs)) (wire_view <$> xs) (enc_all xs).
Proof.
  induction 1 as [|x xs Hx Hxs IH]; simpl.
  - apply reads_ret.
  - apply reads_bind with (wire_view x); [now apply wire_get_enc|].
    apply reads_bind_last with (wire_view <$> xs); [exact IH|apply reads_ret].
Qed.

(** Where the whole value is on the wire. *)
Lemma reads_all_id xs :
  (forall x, wire_view x = x) -> Forall wire_ok xs ->
  reads (get_times wire_get (length xs)) xs (enc_all xs).
Proof.
  intros Hid Hxs. pose proof (reads_all xs Hxs) as Hr.
  replace (wire_view <$> xs) with xs in Hr; [exact Hr|].
  clear Hr Hxs. induction xs as [|x xs IH]; [reflexivity|].
  rewrite fmap_cons, Hid. now f_equal.
Qed.
End Lists.

(** *** Safety *)

Lemma need_safe r n : reader_ok r -> no_panic (need r n).
Proof.
  intros Hr. unfold need. rewrite (remaining_Ok r Hr). simpl.
  destruct (_ <? n); discriminate.
Qed.

Lemma need_Ok r n : reader_ok r -> need r n = Ok tt -> rd_pos r + n <= len (rd_data r).
Proof.
  intros Hr. unfold need. rewrite (remaining_Ok r Hr). simpl.
  destruct (_ <? n) eqn:Hn; [discriminate|]. intros _. bprop. lia.
Qed.

Lemma safe_n n : 0 <= n -> safe (get_n n) bytes_ok.
Proof.
  intros Hn r Hr. unfold get_n. pose proof (need_safe r n Hr) as Hs.
  destruct (need r n) as [[]|e|] eqn:Hneed; simpl;
    [|split; [apply no_panic_Err|discriminate]|now destruct Hs].
  pose proof (need_Ok r n Hr Hneed) as Hb. destruct Hr as [Hp Hd].
  rewrite slice_Ok by lia. simpl. split; [apply no_panic_Ok|].
  intros x r' Hx. injection Hx as <- <-. simpl. split; [auto with bytes|].
  split; [reflexivity|lia].
Qed.

Lemma safe_u8 : safe get_u8 byte_ok.
Proof.
  intros r Hr. unfold get_u8. pose proof (need_safe r 1 Hr) as Hs.
  destruct (need r 1) as [[]|e|] eqn:Hneed; simpl;
    [|split; [apply no_panic_Err|discriminate]|now destruct Hs].
  pose proof (need_Ok r 1 Hr Hneed) as Hb. destruct Hr as [Hp Hd].
  pose proof (index_no_panic (E := BoxError) (rd_data r) (rd_pos r) ltac:(lia)) as Hi.
  destruct (index (rd_data r) (rd_pos r)) as [b|e|] eqn:Hx; simpl;
    [|split; [apply no_panic_Err|discriminate]|now destruct Hi].
  split; [apply no_panic_Ok|]. intros x r' Heq. injection Heq as <- <-. simpl.
  split; [|split; [reflexivity|lia]].
  revert Hx. unfold index. destruct (_ && _); [|discriminate].
  destruct (rd_data r !! Z.to_nat (rd_pos r)) eqn:Hl; [|discriminate]. intros [= <-].
  exact (proj1 (Forall_lookup _ _) Hd _ _ Hl).
Qed.

(** A fixed-width big-endian integer is a [get_n] followed by the conversion. *)
Definition get_be (n : Z) : Rd Z := let! s := get_n n in rd_ret (from_be_bytes s).

Lemma get_u32_be r : get_u32 r = get_be 4 r.
Proof.
  unfold get_u32, get_be, rd_bind, get_n. destruct (need r 4); simpl; try reflexivity.
  now destruct (slice (rd_data r) (rd_pos r) (rd_pos r + 4)).
Qed.

Lemma get_u64_be r : get_u64 r = get_be 8 r.
Proof.
  unfold get_u64, get_be, rd_bind, get_n. destruct (need r 8); simpl; try reflexivity.
  now destruct (slice (rd_data r) (rd_pos r) (rd_pos r + 8)).
Qed.

Lemma len_get_n n r s r' :
  reader_ok r -> 0 <= n -> get_n n r = Ok (s, r') -> len s = n.
Proof.
  intros Hr Hn. unfold get_n. destruct (need r n) as [[]| |] eqn:Hneed; simpl; try discriminate.
  pose proof (need_Ok r n Hr Hneed) as Hb. destruct Hr as [Hp Hd].
  rewrite slice_Ok by lia. simpl. intros [= <- <-].
  replace (rd_pos r + n - rd_pos r) with n by lia.
  apply len_ztake. rewrite len_zdrop by lia. lia.
Qed.

Lemma safe_n_len n : 0 <= n -> safe (get_n n) (fun s => bytes_ok s /\ len s = n).
Proof.
  intros Hn r Hr. destruct (safe_n n Hn r Hr) as [H1 H2]. split; [exact H1|].
  intros x r' Hx. destruct (H2 x r' Hx) as (Hb & Hrest).
  split; [split; [exact Hb|exact (len_get_n n r x r' Hr Hn Hx)]|exact Hrest].
Qed.

Lemma safe_be n : 0 <= n -> safe (get_be n) (fun z => 0 <= z < 256 ^ n).
Proof.
  intros Hn. apply safe_bind with (Q := fun s => bytes_ok s /\ len s = n); [now apply safe_n_len|].
  intros s [Hs <-]. apply safe_ret. now apply from_be_bytes_bound.
Qed.

Lemma safe_u32 : safe get_u32 (fun z => 0 <= z < 2 ^ 32).
Proof. intros r Hr. rewrite get_u32_be. exact (safe_be 4 ltac:(lia) r Hr). Qed.

Lemma safe_u64 : safe get_u64 (fun z => 0 <= z < 2 ^ 64).
Proof. intros r Hr. rewrite get_u64_be. exact (safe_be 8 ltac:(lia) r Hr). Qed.

(** *** Locality *)

Lemma need_weaken r d' n :
  reader_ok r -> rd_pos r + n <= len d' -> 0 <= n ->
  need (MkReader d' (rd_pos r)) n = Ok tt.
Proof.
  intros [Hp _] Hd Hn. unfold need, remaining. simpl. rewrite usub_Ok by lia. simpl.
  zbool. reflexivity.
Qed.

Lemma local_n n : 0 <= n -> local_rd (get_n n).
Proof.
  intros Hn r s r' d' Hr Heq Hd' Hlen Hag. unfold get_n in *.
  destruct (need r n) as [[]| |] eqn:Hneed; simpl in Heq; try discriminate.
  pose proof (need_Ok r n Hr Hneed) as Hb.
  assert (Hp : 0 <= rd_pos r <= len (rd_data r)) by apply Hr.
  rewrite slice_Ok in Heq by lia. simpl in Heq. injection Heq as <- <-. simpl in *.
  rewrite need_weaken by (assumption || lia). simpl. rewrite slice_Ok by lia. simpl.
  do 2 f_equal. apply ztake_agree_slice; (lia || assumption).
Qed.

Lemma good_n n : 0 <= n -> good (get_n n) (fun s => bytes_ok s /\ len s = n).
Proof. intros H. split; [now apply safe_n_len|now apply local_n]. Qed.

(** [get_u8] is [get_n 1] with its one byte taken out. *)
Lemma get_u8_n r : reader_ok r -> get_u8 r = (let! s := get_n 1 in rd_ret (from_be_bytes s)) r.
Proof.
  intros Hr. unfold get_u8, rd_bind, get_n. destruct (need r 1) as [[]| |] eqn:Hneed; try reflexivity.
  pose proof (need_Ok r 1 Hr Hneed) as Hb. destruct Hr as [Hp _]. simpl.
  rewrite slice_Ok by lia. simpl.
  destruct (zdrop (rd_pos r) (rd_data r)) as [|b t] eqn:Hd.
  { pose proof (len_zdrop (rd_pos r) (rd_data r) ltac:(lia)) as Hl. rewrite Hd in Hl.
    change (len (@nil Z)) with 0 in Hl. lia. }
  erewrite index_Ok by (lia || exact Hd). simpl.
  replace (rd_pos r + 1 - rd_pos r) with 1 by lia. reflexivity.
Qed.

Lemma good_u8 : good get_u8 byte_ok.
Proof.
  split; [apply safe_u8|]. intros r x r' d' Hr Heq Hd' Hlen Hag.
  assert (Hr' : reader_ok (MkReader d' (rd_pos r))).
  { destruct (proj2 (safe_u8 r Hr) x r' Heq) as (_ & _ & Hpos). split; simpl; [destruct Hr; lia|exact Hd']. }
  rewrite get_u8_n in * by assumption.
  assert (G : good (let! s := get_n 1 in rd_ret (from_be_bytes s)) (fun _ => True)).
  { apply good_bind with (fun s => bytes_ok s /\ len s = 1); [apply good_n; lia|].
    intros s _. now apply good_ret. }
  exact (proj2 G r x r' d' Hr Heq Hd' Hlen Hag).
Qed.

Lemma good_be n : 0 <= n -> good (get_be n) (fun z => 0 <= z < 256 ^ n).
Proof.
  intros Hn. apply good_bind with (fun s => bytes_ok s /\ len s = n); [now apply good_n|].
  intros s [Hs <-]. apply good_ret. now apply from_be_bytes_bound.
Qed.

Lemma good_u32 : good get_u32 (fun z => 0 <= z < 2 ^ 32).
Proof.
  split; [apply safe_u32|]. intros r x r' d' Hr Heq. rewrite get_u32_be in *.
  exact (proj2 (good_be 4 ltac:(lia)) r x r' d' Hr Heq).
Qed.

Lemma good_u64 : good get_u64 (fun z => 0 <= z < 2 ^ 64).
Proof.
  split; [apply safe_u64|]. intros r x r' d' Hr Heq. rewrite get_u64_be in *.
  exact (proj2 (good_be 8 ltac:(lia)) r x r' d' Hr Heq).
Qed.

Lemma good_string8 : good get_string8 (fun l => bytes_ok l /\ len l <= 255).
Proof.
  apply good_bind with byte_ok; [apply good_u8|]. intros n Hn. unfold byte_ok in Hn.
  apply good_weaken with (fun s => bytes_ok s /\ len s = n); [|apply good_n; lia].
  intros s [Hs Hl]. split; [exact Hs|lia].
Qed.

Lemma good_cstring8 : good get_cstring8 (fun l => bytes_ok l /\ cstr_ok l).
Proof.
  apply good_bind with (fun l => bytes_ok l /\ len l <= 255); [apply good_string8|].
  intros l [Hl Hlen]. destruct (contains_nul l) eqn:Hnul; [apply good_err|].
  destruct (utf8_valid l) eqn:Hutf; [|apply good_err].
  apply good_ret. repeat split; assumption.
Qed.

Lemma good_string : good get_string bytes_ok.
Proof.
  apply good_bind with (fun z => 0 <= z < 2 ^ 32); [apply good_u32|].
  intros n Hn. apply good_weaken with (fun s => bytes_ok s /\ len s = n); [tauto|].
  apply good_n. lia.
Qed.

Lemma good_eckey8 : good get_eckey8 (fun l => bytes_ok l /\ len l <= 255).
Proof. exact good_string8. Qed.

Create HintDb wire discriminated.
#[export] Hint Resolve good_u8 good_u32 good_u64 good_string8 good_cstring8 good_eckey8
  good_string good_err : wire.
#[export] Hint Resolve reads_u8 reads_string8 reads_cstring8 reads_eckey8 reads_string
  reads_ret : wire.

(** One more field of a parser shown [good], then one more shown to read its
    encoding. *)
Ltac good_field := eapply good_bind; [eauto with wire|intros ? ?].
Ltac reads_field x := apply reads_bind with x; [eauto with wire|].

(** *** PKCS#7 *)

Definition pad_len (data : bytes) (bs : Z) : Z := bs - len data mod bs.

Lemma pad_len_bound data bs : 0 < bs -> 0 < pad_len data bs <= bs.
Proof. intros H. unfold pad_len. pose proof (Z.mod_pos_bound (len data) bs H). lia. Qed.

Lemma pad_len_block data bs : 0 < bs -> bs <= len data + pad_len data bs.
Proof.
  intros H. unfold pad_len. pose proof (len_nonneg data).
  pose proof (Z.mod_le (len data) bs). lia.
Qed.

Lemma len_repeat {A} (x : A) n : 0 <= n -> len (repeat x (Z.to_nat n)) = n.
Proof. intros. unfold len. rewrite repeat_length. lia. Qed.

Lemma len_pkcs7_pad data bs :
  0 < bs -> len (pkcs7_pad data bs) = len data + pad_len data bs.
Proof.
  intros H. pose proof (pad_len_bound data bs H). unfold pkcs7_pad, pad_len in *.
  rewrite len_app, len_repeat by lia. reflexivity.
Qed.

(** The padded text fills whole blocks. *)
Lemma pkcs7_pad_blocks data bs : 0 < bs -> len (pkcs7_pad data bs) mod bs = 0.
Proof.
  intros H. rewrite len_pkcs7_pad by exact H. unfold pad_len.
  replace (len data + (bs - len data mod bs)) with (len data - len data mod bs + 1 * bs) by lia.
  rewrite Z.mod_add by lia. rewrite Zminus_mod_idemp_r, Z.sub_diag. apply Z.mod_0_l. lia.
Qed.

Lemma pkcs7_unpad_eq data tail pad bs :
  0 < pad <= bs -> pad <= 255 -> tail = repeat pad (Z.to_nat pad) ->
  pkcs7_unpad (data ++ tail) bs = Ok data.
Proof.
  intros Hpad H255 ->. set (tail := repeat pad (Z.to_nat pad)).
  assert (Hlen : len tail = pad) by (apply len_repeat; lia).
  assert (Htl : exists t, tail = t ++ [pad]).
  { exists (repeat pad (Z.to_nat (pad - 1))). unfold tail.
    replace (Z.to_nat pad) with (Z.to_nat (pad - 1) + 1)%nat by lia.
    now rewrite repeat_app. }
  destruct Htl as [t Ht]. unfold pkcs7_unpad.
  rewrite bool_decide_false by (rewrite Ht; destruct data, t; discriminate).
  pose proof (len_nonneg data). rewrite usub_Ok by (rewrite len_app; lia). simpl.
  assert (Hdrop : zdrop (len (data ++ tail) - 1) (data ++ tail) = [pad]).
  { rewrite Ht, app_assoc. rewrite len_app. change (len [pad]) with 1.
    replace (len (data ++ t) + 1 - 1) with (len (data ++ t)) by lia. apply zdrop_app. }
  rewrite (index_Ok _ _ pad []) by (exact Hdrop || (rewrite len_app; lia)). simpl.
  rewrite !len_app, Hlen. zbool. rewrite usub_Ok by lia. simpl.
  replace (len data + pad - pad) with (len data) by lia.
  rewrite slice_from_Ok by (rewrite len_app; lia). simpl. rewrite zdrop_app.
  assert (Hall : forallb (fun b => b =? pad) tail = true).
  { apply forallb_forall. intros b Hb%repeat_spec. now apply Z.eqb_eq. }
  rewrite Hall. rewrite slice_Ok by (rewrite ?len_app; lia). simpl.
  rewrite Z.sub_0_r, zdrop_0. now rewrite ztake_app.
Qed.

Lemma pkcs7_unpad_pad data bs : 0 < bs <= 255 -> pkcs7_unpad (pkcs7_pad data bs) bs = Ok data.
Proof.
  intros H. pose proof (pad_len_bound data bs ltac:(lia)) as Hp.
  apply pkcs7_unpad_eq with (pad_len data bs); [lia|lia|].
  unfold pad_len in *. now rewrite u8_small by (unfold byte_ok; lia).
Qed.

(** What [pkcs7_unpad] strips is a well-formed pad. *)
Lemma pkcs7_unpad_sound data bs d :
  bytes_ok data -> pkcs7_unpad data bs = Ok d ->
  exists pad, 0 < pad <= bs /\ pad <= 255 /\ data = d ++ repeat pad (Z.to_nat pad).
Proof.
  intros Hok. unfold pkcs7_unpad. destruct (bool_decide (data = [])) eqn:Hne; [discriminate|].
  unfold usub. destruct (1 <=? len data) eqn:H1; [simpl|discriminate].
  unfold index at 1. destruct ((0 <=? len data - 1) && _); [|discriminate].
  destruct (data !! Z.to_nat (len data - 1)) as [pad|] eqn:Hlast; [simpl|discriminate].
  pose proof (proj1 (Forall_lookup _ _) Hok _ _ Hlast) as Hpad. unfold byte_ok in Hpad.
  destruct ((pad =? 0) || _ || _) eqn:Hg; [discriminate|]. bprop.
  replace (pad <=? len data) with true by (symmetry; apply Z.leb_le; lia). simpl.
  rewrite slice_from_Ok by lia. simpl.
  destruct (forallb _ _) eqn:Hall; [|discriminate].
  rewrite slice_Ok by lia. simpl. rewrite zdrop_0, Z.sub_0_r. intros [= <-].
  exists pad. split; [lia|]. split; [lia|].
  rewrite (zsplit (len data - pad) data) at 1. f_equal.
  assert (Hl : len (zdrop (len data - pad) data) = pad) by (rewrite len_zdrop; lia).
  revert Hall Hl. generalize (zdrop (len data - pad) data). intros tl Hall Hl.
  replace (Z.to_nat pad) with (length tl) by (unfold len in Hl; lia). clear Hl.
  induction tl as [|b tl IH]; [reflexivity|]. simpl in *. bprop. subst. f_equal. auto.
Qed.

Lemma pkcs7_unpad_safe data bs : bytes_ok data -> no_panic (pkcs7_unpad data bs).
Proof.
  intros Hok. unfold pkcs7_unpad. destruct (bool_decide (data = [])) eqn:Hne; [discriminate|].
  bprop. assert (H1 : 1 <= len data) by (destruct data; [done|rewrite len_cons;
    pose proof (len_nonneg data); lia]).
  rewrite usub_Ok by lia. simpl.
  apply no_panic_bind; [apply index_no_panic; lia|]. intros pad Hpad.
  destruct ((pad =? 0) || _ || _) eqn:Hg; [discriminate|]. bprop.
  assert (0 <= pad).
  { unfold index in Hpad. destruct (_ && _); [|discriminate].
    destruct (data !! _) eqn:Hl; [|discriminate]. injection Hpad as <-.
    exact (proj1 (proj1 (Forall_lookup _ _) Hok _ _ Hl)). }
  rewrite usub_Ok by lia. simpl. rewrite slice_from_Ok by lia. simpl.
  destruct (forallb _ _); [|discriminate]. rewrite slice_Ok by lia. discriminate.
Qed.
