(* ===== verification/Crypto.v ===== *)
(** * Crypto: the third-party cryptography the box formats call

    OpenSSL's EC keys, digests and ciphers and the [sharks] secret sharing are
    not under [src/].  They are the fields of one record, an argument of every
    definition that uses them; [CryptoLaws] states the documented behaviour
    the theorems rely on.  [ToyCrypto] is a concrete instance that satisfies
    the laws, on which the witnesses evaluate. *)

From Stdlib Require Import ZArith Lia String.
From stdpp Require Import base tactics list numbers.
From S2P Require Import Prelude Utf8 PivError Guid Reader Wire.

Local Open Scope Z_scope.

(** ** Curves ([EcCurve] of [piggy-box/src/piv_box.rs]) *)

Inductive EcCurve : Type := NistP256 | NistP384.

#[export] Instance EcCurve_eq_dec : EqDecision EcCurve.
Proof. solve_decision. Defined.

(** [EcCurve::wire_name] *)
Definition wire_name (c : EcCurve) : bytes :=
  match c with
  | NistP256 => ascii "nistp256"
  | NistP384 => ascii "nistp384"
  end.

(** [EcCurve::ssh_keytype] *)
Definition ssh_keytype (c : EcCurve) : bytes :=
  match c with
  | NistP256 => ascii "ecdsa-sha2-nistp256"
  | NistP384 => ascii "ecdsa-sha2-nistp384"
  end.

(** [EcCurve::from_wire_name] *)
Definition from_wire_name (s : bytes) : res BoxError EcCurve :=
  if bytes_eqb s (ascii "nistp256") then Ok NistP256
  else if bytes_eqb s (ascii "nistp384") then Ok NistP384
  else Err (UnsupportedCurve s).

Lemma from_wire_name_ok c : from_wire_name (wire_name c) = Ok c.
Proof. destruct c; reflexivity. Qed.

Lemma wire_name_cstr c : cstr_ok (wire_name c).
Proof. destruct c; repeat split; vm_compute; discriminate. Qed.

Lemma from_wire_name_safe s : no_panic (from_wire_name s).
Proof. unfold from_wire_name. repeat case_match; discriminate. Qed.

(** The curve field of every format: its name as a [cstring8]. *)
Definition get_curve : Rd EcCurve :=
  let! name := get_cstring8 in
  rd_lift (from_wire_name name).

Lemma reads_curve c : reads get_curve c (enc8 (wire_name c)).
Proof.
  apply reads_bind_last with (wire_name c).
  - apply reads_cstring8, wire_name_cstr.
  - apply reads_lift, from_wire_name_ok.
Qed.

Lemma good_curve : good get_curve (fun _ => True).
Proof.
  good_field. apply good_lift; [apply from_wire_name_safe|trivial].
Qed.

#[export] Hint Resolve reads_curve good_curve wire_name_cstr : wire.

(** ** The operations *)

Record Crypto := {
  (** [EcKey<Private>], [EcKey<Public>] *)
  ec_priv : Type;
  ec_pub : Type;
  (** the state of the random generator *)
  rng : Type;
  (** [openssl::rand::rand_bytes] on a buffer of that length *)
  rand_bytes : Z -> rng -> res BoxError (bytes * rng);
  (** [EcKey::generate] *)
  ec_generate : EcCurve -> rng -> res BoxError (ec_priv * rng);
  (** [EcKey::public_key] *)
  ec_public : ec_priv -> ec_pub;
  (** [EcPoint::to_bytes], compressed and uncompressed *)
  ec_compressed : EcCurve -> ec_pub -> res BoxError bytes;
  ec_uncompressed : EcCurve -> ec_pub -> res BoxError bytes;
  (** [EcPoint::from_bytes] and [EcKey::from_public_key] *)
  ec_from_bytes : EcCurve -> bytes -> res BoxError ec_pub;
  (** [Deriver::derive_to_vec] on a private key and a peer *)
  ec_derive : ec_priv -> ec_pub -> res BoxError bytes;
  (** the SHA-512 of the concatenated updates *)
  sha512 : bytes -> res BoxError bytes;
  (** ChaCha20-Poly1305 and AES-256-GCM: key, nonce, text *)
  chacha_encrypt : bytes -> bytes -> bytes -> res BoxError (bytes * bytes);
  chacha_decrypt : bytes -> bytes -> bytes -> bytes -> option bytes;
  gcm_encrypt : bytes -> bytes -> bytes -> res BoxError (bytes * bytes);
  gcm_decrypt : bytes -> bytes -> bytes -> bytes -> option bytes;
  (** AES-256-CTR: key, initial counter block, text *)
  aes_ctr : bytes -> bytes -> bytes -> res BoxError bytes;
  (** HMAC-SHA-256: key, text *)
  hmac : bytes -> bytes -> res BoxError bytes;
  (** [openssl::memcmp::eq] *)
  memcmp_eq : bytes -> bytes -> res BoxError bool;
  (** [sharks]: threshold, secret, number of shares; [Share::try_from] and
      [recover] *)
  shamir_deal : Z -> bytes -> nat -> rng -> list bytes * rng;
  shamir_parse : bytes -> bool;
  shamir_recover : Z -> list bytes -> option bytes;
}.

(** Documented behaviour of the operations. *)
Record CryptoLaws (C : Crypto) : Prop := {
  rand_len n g b g' : 0 <= n -> rand_bytes C n g = Ok (b, g') -> len b = n /\ bytes_ok b;
  ec_from_compressed c p b : ec_compressed C c p = Ok b -> ec_from_bytes C c b = Ok p;
  ec_compressed_form c p b :
    ec_compressed C c p = Ok b -> 0 < len b <= 49 /\ bytes_ok b /\ head b <> Some 4;
  ec_from_uncompressed c p b : ec_uncompressed C c p = Ok b -> ec_from_bytes C c b = Ok p;
  ec_uncompressed_form c b p :
    ec_from_bytes C c b = Ok p ->
    exists u, ec_uncompressed C c p = Ok u /\ len u <= 97 /\ bytes_ok u /\ head u = Some 4;
  ec_agree a b s :
    ec_derive C a (ec_public C b) = Ok s -> ec_derive C b (ec_public C a) = Ok s;
  sha512_len m h : sha512 C m = Ok h -> len h = 64;
  chacha_roundtrip k iv m ct tag :
    chacha_encrypt C k iv m = Ok (ct, tag) -> chacha_decrypt C k iv ct tag = Some m;
  chacha_tag k iv m ct tag :
    chacha_encrypt C k iv m = Ok (ct, tag) ->
    len tag = 16 /\ len ct = len m /\ bytes_ok ct /\ bytes_ok tag;
  gcm_roundtrip k iv m ct tag :
    gcm_encrypt C k iv m = Ok (ct, tag) -> gcm_decrypt C k iv ct tag = Some m;
  gcm_tag k iv m ct tag :
    gcm_encrypt C k iv m = Ok (ct, tag) ->
    len tag = 16 /\ len ct = len m /\ bytes_ok ct /\ bytes_ok tag;
  ctr_involutive k iv m ct : aes_ctr C k iv m = Ok ct -> aes_ctr C k iv ct = Ok m;
  ctr_len k iv m ct : aes_ctr C k iv m = Ok ct -> len ct = len m /\ bytes_ok ct;
  memcmp_same a b : len a = len b -> memcmp_eq C a b = Ok (bytes_eqb a b);
  hmac_len k m t : hmac C k m = Ok t -> len t = 32 /\ bytes_ok t;
  shamir_dealt n secret m g :
    length (fst (shamir_deal C n secret m g)) = m /\
    Forall (fun s => shamir_parse C s = true /\ len s <= len secret + 1)
      (fst (shamir_deal C n secret m g));
  shamir_threshold n secret m g shares :
    1 <= n -> sublist shares (fst (shamir_deal C n secret m g)) -> n <= len shares ->
    shamir_recover C n shares = Some secret;
}.

(** ** A concrete instance

    Diffie-Hellman by multiplication, identity ciphers with a key-dependent
    tag, and shares that all carry the secret: enough to satisfy the laws. *)

Definition all_bytes (l : bytes) : bool := forallb (fun b => between 0 b 255) l.

Definition toy_tag (n : Z) (key : bytes) : bytes :=
  ztake n (map u8 key ++ repeat 0 (Z.to_nat n)).

Definition toy_encrypt (key iv m : bytes) : res BoxError (bytes * bytes) :=
  if all_bytes m then Ok (m, toy_tag 16 key) else Err (OpenSsl "text").

Definition toy_decrypt (key iv ct tag : bytes) : option bytes :=
  if all_bytes ct && bytes_eqb tag (toy_tag 16 key) then Some ct else None.

Definition toy_point (form p : Z) : res BoxError bytes :=
  if between 0 p (2 ^ 256 - 1) then Ok (form :: to_be_bytes 32 p) else Err (OpenSsl "point").

Definition ToyCrypto : Crypto := {|
  ec_priv := Z;
  ec_pub := Z;
  rng := Z;
  rand_bytes n g := Ok (repeat (u8 g) (Z.to_nat n), g + 1);
  ec_generate c g := Ok (g mod 2 ^ 32, g + 1);
  ec_public a := a;
  ec_compressed c p := toy_point 2 p;
  ec_uncompressed c p := toy_point 4 p;
  ec_from_bytes c b :=
    match b with
    | f :: t => if ((f =? 2) || (f =? 4)) && (len t =? 32) && all_bytes t
                then Ok (from_be_bytes t) else Err (OpenSsl "point")
    | [] => Err (OpenSsl "point")
    end;
  ec_derive a p := Ok (to_be_bytes 32 (a * p));
  sha512 m := Ok (ztake 64 (m ++ repeat 0 64));
  chacha_encrypt := toy_encrypt;
  chacha_decrypt := toy_decrypt;
  gcm_encrypt := toy_encrypt;
  gcm_decrypt := toy_decrypt;
  aes_ctr k iv m := if all_bytes m then Ok m else Err (OpenSsl "text");
  hmac k m := Ok (toy_tag 32 (k ++ m));
  memcmp_eq a b := if len a =? len b then Ok (bytes_eqb a b) else Panic;
  shamir_deal n secret m g := (repeat secret m, g + 1);
  shamir_parse s := true;
  shamir_recover n shares := if n <=? len shares then head shares else None;
|}.

Lemma all_bytes_ok l : all_bytes l = true <-> bytes_ok l.
Proof.
  unfold all_bytes, between, byte_ok. induction l as [|x l IH]; simpl.
  - split; constructor.
  - rewrite !andb_true_iff, !Z.leb_le. split.
    + intros [Hx Hl]. constructor; [lia|tauto].
    + intros Hxl. inversion_clear Hxl. split; [lia|tauto].
Qed.

Lemma toy_tag_ok n key : 0 <= n -> len (toy_tag n key) = n /\ bytes_ok (toy_tag n key).
Proof.
  intros Hn. unfold toy_tag. split.
  - apply len_ztake. rewrite len_app, len_repeat by lia.
    pose proof (len_nonneg (map u8 key)). lia.
  - apply bytes_ok_ztake, bytes_ok_app.
    + apply Forall_map, Forall_true. intros. apply u8_ok.
    + apply Forall_forall. intros x Hx%repeat_spec. subst. unfold byte_ok. lia.
Qed.

Lemma toy_point_ok form p b :
  toy_point form p = Ok b -> 0 <= p < 256 ^ 32 /\ b = form :: to_be_bytes 32 p.
Proof.
  unfold toy_point, between. destruct (_ && _) eqn:H; [|discriminate]. bprop.
  intros [= <-]. split; [lia|reflexivity].
Qed.

Lemma toy_point_parse f p :
  f = 2 \/ f = 4 -> 0 <= p < 256 ^ 32 ->
  ec_from_bytes ToyCrypto NistP256 (f :: to_be_bytes 32 p) = Ok p.
Proof.
  intros Hf Hp. unfold ToyCrypto. cbn [ec_from_bytes]. change (len (to_be_bytes 32 p)) with 32.
  rewrite (proj2 (all_bytes_ok _) (to_be_bytes_ok 32 p)).
  destruct Hf as [-> | ->]; simpl; now rewrite from_to_be_bytes_small.
Qed.

Lemma toy_encrypt_ok k iv m ct tag :
  toy_encrypt k iv m = Ok (ct, tag) -> bytes_ok m /\ ct = m /\ tag = toy_tag 16 k.
Proof.
  unfold toy_encrypt. destruct (all_bytes m) eqn:H; [|discriminate].
  intros [= <- <-]. apply all_bytes_ok in H. auto.
Qed.

Lemma toy_encrypt_decrypt k iv m ct tag :
  toy_encrypt k iv m = Ok (ct, tag) -> toy_decrypt k iv ct tag = Some m.
Proof.
  intros (Hm & -> & ->)%toy_encrypt_ok. unfold toy_decrypt, bytes_eqb.
  rewrite (proj2 (all_bytes_ok m) Hm), bool_decide_true by reflexivity. reflexivity.
Qed.

Lemma toy_encrypt_tag k iv m ct tag :
  toy_encrypt k iv m = Ok (ct, tag) ->
  len tag = 16 /\ len ct = len m /\ bytes_ok ct /\ bytes_ok tag.
Proof.
  intros (Hm & -> & ->)%toy_encrypt_ok. destruct (toy_tag_ok 16 k); [lia|]. auto.
Qed.

Lemma repeat_ok x n : byte_ok x -> bytes_ok (repeat x n).
Proof. intros H. apply Forall_forall. intros y Hy%repeat_spec. now subst. Qed.

Lemma sublist_repeat {A} (x : A) n l : sublist l (repeat x n) -> forall y, y ∈ l -> y = x.
Proof.
  intros Hl y Hy. pose proof (sublist_submseteq _ _ Hl) as Hs.
  assert (Hin : y ∈ repeat x n) by (eapply elem_of_submseteq; eassumption).
  now apply list_elem_of_In, repeat_spec in Hin.
Qed.

Lemma ToyCrypto_laws : CryptoLaws ToyCrypto.
Proof.
  split; simpl; intros.
  - injection H0 as <- <-. split; [now apply len_repeat|apply repeat_ok, u8_ok].
  - apply toy_point_ok in H as [Hp ->]. apply (toy_point_parse _ p); auto.
  - apply toy_point_ok in H as [Hp ->]. split; [vm_compute; split; congruence|].
    split; [|simpl; congruence]. constructor; [unfold byte_ok; lia|apply to_be_bytes_ok].
  - apply toy_point_ok in H as [Hp ->]. apply (toy_point_parse _ p); auto.
  - destruct b as [|f t]; [discriminate|].
    destruct (_ && all_bytes t) eqn:Hb; [|discriminate]. injection H as <-. bprop.
    match goal with H : all_bytes t = true |- _ => apply all_bytes_ok in H; rename H into Ht end.
    pose proof (from_be_bytes_bound t Ht) as Hbd. exists (4 :: to_be_bytes 32 (from_be_bytes t)).
    match goal with H : len t = 32 |- _ => rewrite H in Hbd end.
    unfold toy_point, between. zbool. split; [reflexivity|]. split; [by_compute|].
    split; [|reflexivity]. constructor; [unfold byte_ok; lia|apply to_be_bytes_ok].
  - now rewrite Z.mul_comm.
  - injection H as <-. apply len_ztake. rewrite len_app.
    match goal with |- context [len ?l] => change (len l) with 64 end.
    pose proof (len_nonneg m). lia.
  - eapply toy_encrypt_decrypt; eassumption.
  - eapply toy_encrypt_tag; eassumption.
  - eapply toy_encrypt_decrypt; eassumption.
  - eapply toy_encrypt_tag; eassumption.
  - destruct (all_bytes m) eqn:Hm; [|discriminate]. injection H as <-. now rewrite Hm.
  - destruct (all_bytes m) eqn:Hm; [|discriminate]. injection H as <-.
    apply all_bytes_ok in Hm. auto.
  - now rewrite (proj2 (Z.eqb_eq _ _)).
  - injection H as <-. apply toy_tag_ok. lia.
  - split; [apply repeat_length|]. apply List.Forall_forall. intros s Hs%repeat_spec. subst.
    split; [reflexivity|lia].
  - rewrite (proj2 (Z.leb_le n (len shares))) by assumption.
    destruct shares as [|s shares]; [change (n <= 0) in H1; lia|].
    simpl. f_equal. apply (sublist_repeat _ _ _ H0). apply list_elem_of_here.
Qed.
