(* ===== verification/PivBox.v ===== *)
(** * PivBox: the sealed box of [piggy-box/src/piv_box.rs]

    State of a box, its wire codec, and seal/open over the operations of
    [Crypto].  A method that takes [&mut self] returns the new box; on [Err]
    the callers drop or keep the old one (no method below fails after having
    changed a field a later call reads, except [seal], whose box is dropped). *)

From Stdlib Require Import ZArith Lia String.
From stdpp Require Import base tactics list numbers.
From S2P Require Import Prelude Utf8 PivError Guid Reader Wire Crypto.

Local Open Scope Z_scope.

Definition BOX_MAGIC : Z := 0xB0C5.
Definition BOX_VERSION : Z := 2.
Definition DEFAULT_CIPHER : bytes := ascii "chacha20-poly1305@piggy.amarbel.net".
Definition DEFAULT_KDF : bytes := ascii "sha512".
Definition NONCE_LEN : Z := 16.
Definition CIPHER_IV_LEN : Z := 12.

Record PivBox := MkBox {
  version : Z;
  guid_slot : option (Guid * Z);
  cipher : bytes;
  kdf : bytes;
  nonce : bytes;
  curve : EcCurve;
  recipient_pubkey : bytes;
  ephemeral_pubkey : bytes;
  iv : bytes;
  ciphertext : bytes;
  plaintext : option bytes;
}.

(** [PivBox::new] *)
Definition box_new (c : EcCurve) : PivBox :=
  {| version := BOX_VERSION; guid_slot := None; cipher := DEFAULT_CIPHER;
     kdf := DEFAULT_KDF; nonce := []; curve := c; recipient_pubkey := [];
     ephemeral_pubkey := []; iv := []; ciphertext := []; plaintext := None |}.

Definition with_plaintext (b : PivBox) (p : option bytes) : PivBox :=
  {| version := version b; guid_slot := guid_slot b; cipher := cipher b; kdf := kdf b;
     nonce := nonce b; curve := curve b; recipient_pubkey := recipient_pubkey b;
     ephemeral_pubkey := ephemeral_pubkey b; iv := iv b; ciphertext := ciphertext b;
     plaintext := p |}.

Definition with_guid_slot (b : PivBox) (gs : option (Guid * Z)) : PivBox :=
  {| version := version b; guid_slot := gs; cipher := cipher b; kdf := kdf b;
     nonce := nonce b; curve := curve b; recipient_pubkey := recipient_pubkey b;
     ephemeral_pubkey := ephemeral_pubkey b; iv := iv b; ciphertext := ciphertext b;
     plaintext := plaintext b |}.

(** [set_data], [take_data], [has_plaintext] *)
Definition set_data (b : PivBox) (data : bytes) : PivBox := with_plaintext b (Some data).

Definition take_data (b : PivBox) : res BoxError (bytes * PivBox) :=
  let* d := ok_or (plaintext b) NotOpened in
  Ok (d, with_plaintext b None).

Definition has_plaintext (b : PivBox) : bool :=
  match plaintext b with Some _ => true | None => false end.

(** ** Wire form *)

(** The [match &self.guid_slot] of [to_bytes]. *)
Definition put_guid_slot (w : WireWriter) (gs : option (Guid * Z)) : res BoxError WireWriter :=
  match gs with
  | Some (guid, slot) =>
      let w := put_u8 w 0x01 in
      let* w := put_string8 w (guid_as_bytes guid) in
      Ok (put_u8 w slot)
  | None =>
      let w := put_u8 w 0x00 in
      let w := put_u8 w 0x00 in
      Ok (put_u8 w 0x00)
  end.

(** [PivBox::to_bytes], on the writer it creates. *)
Definition put_box (w : WireWriter) (b : PivBox) : res BoxError WireWriter :=
  let w := put_u8 w (u8 (Z.shiftr BOX_MAGIC 8)) in
  let w := put_u8 w (u8 (Z.land BOX_MAGIC 0xFF)) in
  let w := put_u8 w (version b) in
  let* w := put_guid_slot w (guid_slot b) in
  let* w := put_cstring8 w (cipher b) in
  let* w := put_cstring8 w (kdf b) in
  let* w := (if 2 <=? version b then put_string8 w (nonce b) else Ok w) in
  let* w := put_cstring8 w (wire_name (curve b)) in
  let* w := put_eckey8 w (recipient_pubkey b) in
  let* w := put_eckey8 w (ephemeral_pubkey b) in
  let* w := put_string8 w (iv b) in
  Ok (put_string w (ciphertext b)).

Definition box_to_bytes (b : PivBox) : res BoxError bytes :=
  let* w := put_box writer_new b in
  Ok (into_bytes w).

Definition get_magic : Rd Z :=
  let! magic_hi := get_u8 in
  let! magic_lo := get_u8 in
  rd_ret (Z.lor (Z.shiftl magic_hi 8) magic_lo).

Definition get_guid : Rd Guid :=
  let! guid_bytes := get_string8 in
  rd_lift (map_err BoxPiv (guid_from_bytes guid_bytes)).

Definition get_guid_slot : Rd (option (Guid * Z)) :=
  let! guidslot_valid := get_u8 in
  if negb (guidslot_valid =? 0) then
    let! guid := get_guid in
    let! slot := get_u8 in
    rd_ret (Some (guid, slot))
  else
    let! _ := get_string8 in
    let! _ := get_u8 in
    rd_ret None.

(** [PivBox::from_bytes], on the reader it creates. *)
Definition get_box : Rd PivBox :=
  let! magic := get_magic in
  if negb (magic =? BOX_MAGIC) then rd_lift (Err (BadMagic BOX_MAGIC magic)) else
  let! version := get_u8 in
  if negb (between 1 version BOX_VERSION) then rd_lift (Err (UnsupportedVersion version)) else
  let! guid_slot := get_guid_slot in
  let! cipher := get_cstring8 in
  let! kdf := get_cstring8 in
  let! nonce := (if 2 <=? version then get_string8 else rd_ret []) in
  let! curve := get_curve in
  let! recipient_pubkey := get_eckey8 in
  let! ephemeral_pubkey := get_eckey8 in
  let! iv := get_string8 in
  let! ciphertext := get_string in
  rd_ret (MkBox version guid_slot cipher kdf nonce curve recipient_pubkey ephemeral_pubkey
            iv ciphertext None).

Definition box_from_bytes (data : bytes) : res BoxError PivBox := parse_all get_box data.

(** ** Sealing and opening *)

Section Seal.
Context (C : Crypto).

(** [ecdh_derive], [kdf_sha512] *)
Definition ecdh_derive (privkey : ec_priv C) (pubkey : ec_pub C) : res BoxError bytes :=
  ec_derive C privkey pubkey.

Definition kdf_sha512 (shared_secret nonce : bytes) : res BoxError bytes :=
  sha512 C (shared_secret ++ nonce).

Definition chacha20_poly1305_encrypt (key iv plaintext : bytes) : res BoxError bytes :=
  if negb (len iv =? CIPHER_IV_LEN) then Err (BoxCrypto (AeadIvLength (len iv)))
  else
    let* (ct, tag) := chacha_encrypt C key iv plaintext in
    Ok (ct ++ tag).

Definition chacha20_poly1305_decrypt (key iv ciphertext : bytes) : res BoxError bytes :=
  if negb (len iv =? CIPHER_IV_LEN) then Err (BoxCrypto (AeadIvLength (len iv)))
  else if len ciphertext <? 16 then Err (BoxCrypto CiphertextTooShort)
  else
    let* tag_offset := usub (len ciphertext) 16 in
    let* ct := slice ciphertext 0 tag_offset in
    let* tag := slice_from ciphertext tag_offset in
    ok_or (chacha_decrypt C key iv ct tag) (BoxCrypto AeadDecrypt).

(** [seal_offline_with_ephemeral_and_pinned_random] *)
Definition seal_pinned (b : PivBox) (recipient_pub : ec_pub C) (ephem : ec_priv C)
    (kdf_nonce cipher_iv : bytes) : res BoxError PivBox :=
  let* plaintext := ok_or (plaintext b) NotSealed in
  let* recipient_pubkey := ec_compressed C (curve b) recipient_pub in
  let* ephemeral_pubkey := ec_compressed C (curve b) (ec_public C ephem) in
  let* shared_secret := ecdh_derive ephem recipient_pub in
  let nonce := kdf_nonce in
  let iv := cipher_iv in
  let* key_material := kdf_sha512 shared_secret nonce in
  let padded := pkcs7_pad plaintext 16 in
  let* key := slice key_material 0 32 in
  let* ct := chacha20_poly1305_encrypt key iv padded in
  Ok (MkBox (version b) (guid_slot b) (cipher b) (kdf b) nonce (curve b)
        recipient_pubkey ephemeral_pubkey iv ct (Some plaintext)).

(** [seal_offline_with_ephemeral]: the KDF nonce and the IV are drawn here. *)
Definition seal_offline_with_ephemeral (b : PivBox) (recipient_pub : ec_pub C)
    (ephem : ec_priv C) (g : rng C) : res BoxError (PivBox * rng C) :=
  let* (kdf_nonce, g) := rand_bytes C NONCE_LEN g in
  let* (cipher_iv, g) := rand_bytes C CIPHER_IV_LEN g in
  let* b := seal_pinned b recipient_pub ephem kdf_nonce cipher_iv in
  Ok (b, g).

(** [seal_offline] *)
Definition seal_offline (b : PivBox) (recipient_pub : ec_pub C) (g : rng C)
    : res BoxError (PivBox * rng C) :=
  let* (ephem, g) := ec_generate C (curve b) g in
  seal_offline_with_ephemeral b recipient_pub ephem g.

(** [open_with_secret] *)
Definition open_with_secret (b : PivBox) (shared_secret : bytes) : res BoxError PivBox :=
  if negb (len (iv b) =? CIPHER_IV_LEN) then Err (BoxCrypto (WireIvLength (len (iv b))))
  else
    let* key_material := kdf_sha512 shared_secret (nonce b) in
    let* key := slice key_material 0 32 in
    let* padded := chacha20_poly1305_decrypt key (iv b) (ciphertext b) in
    let* plain := pkcs7_unpad padded 16 in
    Ok (with_plaintext b (Some plain)).

(** [open_offline] *)
Definition open_offline (b : PivBox) (privkey : ec_priv C) : res BoxError PivBox :=
  let* ephem_pub := ec_from_bytes C (curve b) (ephemeral_pubkey b) in
  let* shared_secret := ecdh_derive privkey ephem_pub in
  open_with_secret b shared_secret.
End Seal.

(** ** The codec *)

(** Boxes the wire can carry. *)
Definition guid_slot_ok (gs : option (Guid * Z)) : Prop :=
  match gs with
  | Some (g, s) => guid_ok g /\ byte_ok s
  | None => True
  end.

Record box_ok (b : PivBox) : Prop := {
  ok_version : 1 <= version b <= BOX_VERSION;
  ok_guid_slot : guid_slot_ok (guid_slot b);
  ok_cipher : cstr_ok (cipher b);
  ok_kdf : cstr_ok (kdf b);
  ok_nonce : len (nonce b) <= 255;
  ok_recipient : len (recipient_pubkey b) <= 255;
  ok_ephemeral : len (ephemeral_pubkey b) <= 255;
  ok_iv : len (iv b) <= 255;
  ok_ciphertext : len (ciphertext b) < 2 ^ 32;
}.

Definition enc_guid_slot (gs : option (Guid * Z)) : bytes :=
  match gs with
  | Some (g, s) => [1] ++ enc8 (guid_bytes g) ++ [s]
  | None => [0; 0; 0]
  end.

(** RFC 0002's layout. *)
Definition enc_box (b : PivBox) : bytes :=
  [0xB0; 0xC5] ++ [version b] ++ enc_guid_slot (guid_slot b)
  ++ enc8 (cipher b) ++ enc8 (kdf b)
  ++ (if 2 <=? version b then enc8 (nonce b) else [])
  ++ enc8 (wire_name (curve b)) ++ enc8 (recipient_pubkey b)
  ++ enc8 (ephemeral_pubkey b) ++ enc8 (iv b) ++ enc32 (ciphertext b).

(** What a reader gives back: the plaintext is not on the wire, nor is the
    nonce of a version-1 box. *)
Definition box_view (b : PivBox) : PivBox :=
  {| version := version b; guid_slot := guid_slot b; cipher := cipher b; kdf := kdf b;
     nonce := if 2 <=? version b then nonce b else []; curve := curve b;
     recipient_pubkey := recipient_pubkey b; ephemeral_pubkey := ephemeral_pubkey b;
     iv := iv b; ciphertext := ciphertext b; plaintext := None |}.

#[export] Instance PivBox_codec : WireCodec PivBox := {
  wire_ok := box_ok;
  wire_enc := enc_box;
  wire_view := box_view;
  wire_put := put_box;
  wire_get := get_box;
}.

Lemma put_guid_slot_Ok w gs :
  guid_slot_ok gs -> put_guid_slot w gs = Ok (put_raw w (enc_guid_slot gs)).
Proof.
  destruct gs as [[g s]|]; simpl; intros H; unfold put_u8.
  - destruct H as [[Hg _] _].
    rewrite put_string8_Ok by (unfold guid_as_bytes; lia). simpl. now rewrite !put_raw_app.
  - now rewrite !put_raw_app.
Qed.

Lemma writes_box b : box_ok b -> writes (fun w => put_box w b) (enc_box b).
Proof.
  intros [] w. unfold put_box, put_u8. rewrite !put_raw_app.
  rewrite put_guid_slot_Ok by assumption. simpl res_bind.
  do 2 (rewrite put_cstring8_Ok by assumption; simpl res_bind).
  assert (Hn : forall w, (if 2 <=? version b then put_string8 w (nonce b) else Ok w)
                 = Ok (put_raw w (if 2 <=? version b then enc8 (nonce b) else []))).
  { intros w'. destruct (2 <=? version b); [now apply put_string8_Ok|now rewrite put_raw_nil]. }
  rewrite Hn. simpl res_bind. rewrite put_cstring8_Ok by apply wire_name_cstr. simpl res_bind.
  do 2 (rewrite put_eckey8_Ok by assumption; simpl res_bind).
  rewrite put_string8_Ok by assumption. simpl res_bind. rewrite put_string_Ok by assumption.
  now rewrite !put_raw_app.
Qed.

Lemma reads_guid g : guid_ok g -> reads get_guid g (enc8 (guid_bytes g)).
Proof.
  intros [Hg _]. apply reads_bind_last with (guid_bytes g); [apply reads_string8|].
  apply reads_lift. now rewrite guid_from_bytes_ok.
Qed.

Lemma reads_magic hi lo :
  reads get_magic (Z.lor (Z.shiftl hi 8) lo) [hi; lo].
Proof.
  change [hi; lo] with ([hi] ++ [lo]). reads_field hi.
  apply reads_bind_last with lo; [apply reads_u8|apply reads_ret].
Qed.

Lemma reads_guid_slot gs :
  guid_slot_ok gs -> reads get_guid_slot gs (enc_guid_slot gs).
Proof.
  destruct gs as [[g s]|]; simpl; intros H.
  - destruct H as [Hg _].
    apply (reads_bind _ _ 1 _ [1] (enc8 (guid_bytes g) ++ [s])); [eauto with wire|].
    apply reads_bind with g; [now apply reads_guid|].
    apply reads_bind_last with s; [apply reads_u8|apply reads_ret].
  - apply (reads_bind _ _ 0 _ [0] (enc8 [] ++ [0])); [eauto with wire|].
    reads_field (@nil Z). apply reads_bind_last with 0; [apply reads_u8|apply reads_ret].
Qed.

Lemma reads_box b : box_ok b -> reads get_box (box_view b) (enc_box b).
Proof.
  intros []. unfold get_box, enc_box, box_view.
  apply reads_bind with BOX_MAGIC; [apply (reads_magic 0xB0 0xC5)|].
  rewrite (proj2 (Z.eqb_eq _ _)) by reflexivity. simpl negb. cbv iota.
  reads_field (version b).
  replace (between 1 (version b) BOX_VERSION) with true
    by (unfold between; zbool; reflexivity). simpl negb. cbv iota.
  apply reads_bind with (guid_slot b); [now apply reads_guid_slot|].
  reads_field (cipher b). reads_field (kdf b).
  apply reads_bind with (if 2 <=? version b then nonce b else []).
  { destruct (2 <=? version b); eauto with wire. }
  reads_field (curve b). reads_field (recipient_pubkey b). reads_field (ephemeral_pubkey b).
  reads_field (iv b). apply reads_bind_last with (ciphertext b); eauto with wire.
Qed.

#[export] Instance PivBox_codec_laws : WireCodecLaws PivBox.
Proof. split; [apply writes_box|apply reads_box]. Qed.

Lemma good_magic : good get_magic (fun _ => True).
Proof. good_field. good_field. now apply good_ret. Qed.

Lemma guid_from_bytes_safe l : no_panic (guid_from_bytes l).
Proof. unfold guid_from_bytes. case_match; discriminate. Qed.

Lemma good_guid : good get_guid guid_ok.
Proof.
  good_field. destruct H as [Hok _]. apply good_lift.
  - apply no_panic_map_err, guid_from_bytes_safe.
  - intros g. unfold guid_from_bytes. destruct (len x =? 16) eqn:Hl; [|discriminate]. bprop.
    intros [= <-]. now split.
Qed.

Lemma good_guid_slot : good get_guid_slot guid_slot_ok.
Proof.
  good_field. destruct (negb (x =? 0)).
  - eapply good_bind; [apply good_guid|intros g Hg]. good_field. now apply good_ret.
  - good_field. good_field. now apply good_ret.
Qed.

#[export] Hint Resolve good_magic good_guid good_guid_slot : wire.

Lemma good_box : good get_box (fun _ => True).
Proof.
  unfold get_box. good_field. case_match; [apply good_err|]. good_field.
  case_match; [apply good_err|]. do 3 good_field.
  apply good_bind with (fun _ => True).
  { case_match; [eapply good_weaken; [|apply good_string8]; trivial|now apply good_ret]. }
  intros ? _. do 5 good_field. now apply good_ret.
Qed.

(** ** Seal and open *)

Section SealOpen.
Context (C : Crypto) (L : CryptoLaws C).

Lemma chacha_roundtrip_bytes key iv m ct :
  chacha20_poly1305_encrypt C key iv m = Ok ct ->
  chacha20_poly1305_decrypt C key iv ct = Ok m.
Proof.
  unfold chacha20_poly1305_encrypt, chacha20_poly1305_decrypt.
  destruct (negb (len iv =? CIPHER_IV_LEN)); [discriminate|]. intros H.
  apply res_bind_Ok_inv in H as ([c tag] & Henc & Heq). injection Heq as <-.
  destruct (chacha_tag C L _ _ _ _ _ Henc) as (Ht & _).
  pose proof (len_nonneg c). rewrite len_app, Ht. zbool.
  rewrite usub_Ok by lia. simpl. replace (len c + 16 - 16) with (len c) by lia.
  rewrite slice_Ok by (rewrite ?len_app; lia). simpl. rewrite Z.sub_0_r, zdrop_0, ztake_app.
  rewrite slice_from_Ok by (rewrite len_app; lia). simpl. rewrite zdrop_app.
  now rewrite (chacha_roundtrip C L _ _ _ _ _ Henc).
Qed.

(** Everything a successful [seal_pinned] leaves in the box. *)
Lemma seal_pinned_inv b pub ephem n i b' :
  seal_pinned C b pub ephem n i = Ok b' ->
  exists m s, plaintext b = Some m /\ ec_derive C ephem pub = Ok s /\
    ec_compressed C (curve b) pub = Ok (recipient_pubkey b') /\
    ec_compressed C (curve b) (ec_public C ephem) = Ok (ephemeral_pubkey b') /\
    nonce b' = n /\ iv b' = i /\ len i = CIPHER_IV_LEN /\ curve b' = curve b /\
    (exists km, sha512 C (s ++ n) = Ok km /\
       chacha20_poly1305_encrypt C (ztake 32 km) i (pkcs7_pad m 16) = Ok (ciphertext b')) /\
    version b' = version b /\ guid_slot b' = guid_slot b /\ cipher b' = cipher b /\
    kdf b' = kdf b.
Proof.
  unfold seal_pinned, kdf_sha512, ecdh_derive. intros H.
  apply res_bind_Ok_inv in H as (m & Hm & H). apply res_bind_Ok_inv in H as (rp & Hrp & H).
  apply res_bind_Ok_inv in H as (ep & Hep & H). apply res_bind_Ok_inv in H as (s & Hs & H).
  apply res_bind_Ok_inv in H as (km & Hkm & H). apply res_bind_Ok_inv in H as (k & Hk & H).
  apply res_bind_Ok_inv in H as (ct & Hct & H). injection H as <-. simpl.
  destruct (plaintext b) as [p|]; [|discriminate]. injection Hm as ->.
  pose proof (sha512_len C L _ _ Hkm) as H64.
  rewrite slice_Ok in Hk by lia. injection Hk as <-. rewrite zdrop_0 in Hct.
  exists m, s. repeat split; auto.
  - unfold chacha20_poly1305_encrypt in Hct.
    destruct (negb (len i =? CIPHER_IV_LEN)) eqn:Hi; [discriminate|]. now bprop.
  - exists km. split; [exact Hkm|exact Hct].
Qed.

(** Opening needs the secret, the nonce, the IV and the ciphertext only. *)
Lemma open_sealed b pub ephem n i b' b'' s :
  seal_pinned C b pub ephem n i = Ok b' ->
  ec_derive C ephem pub = Ok s ->
  nonce b'' = nonce b' -> iv b'' = iv b' -> ciphertext b'' = ciphertext b' ->
  open_with_secret C b'' s = Ok (with_plaintext b'' (plaintext b)).
Proof.
  intros Hseal Hs Hn Hi Hc.
  destruct (seal_pinned_inv _ _ _ _ _ _ Hseal)
    as (m & s' & Hm & Hs' & _ & _ & Hn' & Hi' & Hlen & _ & (km & Hkm & Hct) & _).
  rewrite Hs in Hs'. injection Hs' as <-.
  unfold open_with_secret, kdf_sha512. rewrite Hi, Hi', Hlen, Z.eqb_refl. simpl negb. cbv iota.
  rewrite Hn, Hn', Hkm. simpl. pose proof (sha512_len C L _ _ Hkm).
  rewrite slice_Ok by lia. simpl. rewrite zdrop_0, Hc.
  change (32 - 0) with 32. rewrite (chacha_roundtrip_bytes _ _ _ _ Hct). simpl.
  rewrite pkcs7_unpad_pad by lia. simpl. now rewrite Hm.
Qed.

(** The box sealed to [ec_public priv] opens with [priv]. *)
Lemma open_offline_sealed b priv ephem n i b' :
  seal_pinned C b (ec_public C priv) ephem n i = Ok b' ->
  open_offline C b' priv = Ok (with_plaintext b' (plaintext b)).
Proof.
  intros Hseal.
  destruct (seal_pinned_inv _ _ _ _ _ _ Hseal)
    as (m & s & Hm & Hs & _ & Hep & Hn & Hi & _ & Hcu & _).
  unfold open_offline. rewrite Hcu, (ec_from_compressed C L _ _ _ Hep). simpl.
  unfold ecdh_derive. rewrite (ec_agree C L _ _ _ Hs). simpl.
  eapply open_sealed; eauto.
Qed.
End SealOpen.

(** ** Properties *)

(** A box the wire can carry serialises, and parsing the
    bytes back (whatever follows them) gives the same box without its
    plaintext. *)
Theorem box_roundtrip b t :
  box_ok b ->
  exists bs, box_to_bytes b = Ok bs /\ box_from_bytes (bs ++ t) = Ok (box_view b).
Proof.
  intros Hb. exists (enc_box b). split.
  - unfold box_to_bytes. rewrite (writes_box b Hb writer_new). reflexivity.
  - apply parse_all_reads, (reads_box b Hb).
Qed.

Definition sample_box : PivBox :=
  MkBox 2 (Some (MkGuid (repeat 7 16), 0x9D)) DEFAULT_CIPHER DEFAULT_KDF [1; 2; 3] NistP256
    [2; 9; 9] [3; 8; 8] (repeat 5 12) [10; 20; 30] None.

Lemma sample_box_ok : box_ok sample_box.
Proof.
  split; vm_compute; repeat split; try discriminate; try reflexivity.
  repeat constructor; discriminate.
Defined.

Lemma box_roundtrip_witness :
  box_ok sample_box /\
  exists bs, box_to_bytes sample_box = Ok bs /\ box_from_bytes (bs ++ [0xFF]) = Ok sample_box.
Proof. split; [exact sample_box_ok|exact (box_roundtrip sample_box [0xFF] sample_box_ok)]. Defined.

(** [PivBox::from_bytes] never panics, and a serialised box cut
    short anywhere is an error, never a different box. *)
Theorem box_parse_robust data :
  bytes_ok data ->
  no_panic (box_from_bytes data) /\
  (forall b n, box_ok b -> data = enc_box b -> 0 <= n < len data ->
     exists e, box_from_bytes (ztake n data) = Err e).
Proof.
  intros Hd. split; [exact (parse_all_safe _ _ _ (proj1 good_box) Hd)|].
  intros b n Hb -> Hn. exact (parse_all_truncated _ _ _ _ _ good_box (reads_box b Hb) Hd Hn).
Qed.

Lemma box_parse_robust_witness :
  bytes_ok (enc_box sample_box) /\
  exists e, box_from_bytes (ztake 40 (enc_box sample_box)) = Err e.
Proof.
  assert (H : bytes_ok (enc_box sample_box))
    by (vm_compute; repeat constructor; discriminate).
  split; [exact H|].
  apply (proj2 (box_parse_robust (enc_box sample_box) H) sample_box 40 sample_box_ok eq_refl).
  vm_compute. split; congruence.
Defined.

(** A box sealed to a recipient, with any ephemeral key and
    any fresh nonce and IV, serialises; and the recipient's private key opens
    what a reader parses from those bytes, to exactly the data that was
    sealed. *)
Theorem seal_wire_open C b priv ephem g b' g' :
  CryptoLaws C ->
  seal_offline_with_ephemeral C b (ec_public C priv) ephem g = Ok (b', g') ->
  version b = BOX_VERSION -> guid_slot_ok (guid_slot b) ->
  cipher b = DEFAULT_CIPHER -> kdf b = DEFAULT_KDF -> len (ciphertext b') < 2 ^ 32 ->
  exists bs parsed, box_to_bytes b' = Ok bs /\ box_from_bytes bs = Ok parsed /\
    open_offline C parsed priv = Ok (with_plaintext parsed (plaintext b)).
Proof.
  intros L Hseal Hv Hgs Hci Hkdf Hct. unfold seal_offline_with_ephemeral in Hseal.
  apply res_bind_Ok_inv in Hseal as ([n g1] & Hn & Hseal).
  apply res_bind_Ok_inv in Hseal as ([i g2] & Hi & Hseal).
  apply res_bind_Ok_inv in Hseal as (b1 & Hseal & Heq). injection Heq as -> ->.
  destruct (rand_len C L NONCE_LEN _ _ _ ltac:(now vm_compute) Hn) as [Hnl _].
  destruct (rand_len C L CIPHER_IV_LEN _ _ _ ltac:(now vm_compute) Hi) as [Hil _].
  destruct (seal_pinned_inv C L _ _ _ _ _ _ Hseal)
    as (m & s & Hm & Hs & Hrp & Hep & Hn' & Hi' & _ & Hcu & _ & Hv' & Hgs' & Hci' & Hkdf').
  destruct (ec_compressed_form C L _ _ _ Hrp) as [Hrl _].
  destruct (ec_compressed_form C L _ _ _ Hep) as [Hel _].
  assert (Hok : box_ok b').
  { split; rewrite ?Hv', ?Hgs', ?Hci', ?Hkdf', ?Hn', ?Hi', ?Hv, ?Hci, ?Hkdf;
      unfold BOX_VERSION, NONCE_LEN, CIPHER_IV_LEN in *; try lia; try assumption;
      repeat split; vm_compute; discriminate. }
  destruct (box_roundtrip b' [] Hok) as (bs & Hbs & Hparse). rewrite app_nil_r in Hparse.
  exists bs, (box_view b'). split; [exact Hbs|]. split; [exact Hparse|].
  unfold open_offline. simpl curve. simpl ephemeral_pubkey.
  rewrite Hcu, (ec_from_compressed C L _ _ _ Hep). simpl. unfold ecdh_derive.
  rewrite (ec_agree C L _ _ _ Hs). simpl.
  eapply open_sealed; eauto. simpl. rewrite Hv', Hv. reflexivity.
Qed.

Definition sample_sealed : res BoxError (PivBox * Z) :=
  seal_offline_with_ephemeral ToyCrypto (set_data (box_new NistP256) [1; 2; 3]) 1234 99 5.

Lemma seal_wire_open_witness :
  exists b' g' bs parsed,
    sample_sealed = Ok (b', g') /\ box_to_bytes b' = Ok bs /\ box_from_bytes bs = Ok parsed /\
    open_offline ToyCrypto parsed 1234 = Ok (with_plaintext parsed (Some [1; 2; 3])).
Proof.
  destruct sample_sealed as [[b' g']|e|] eqn:Hs; try discriminate.
  destruct (seal_wire_open ToyCrypto (set_data (box_new NistP256) [1; 2; 3]) 1234 99 5 b' g'
              ToyCrypto_laws Hs) as (bs & parsed & H1 & H2 & H3);
    try reflexivity; [vm_compute in Hs; injection Hs as <- _; vm_compute; reflexivity|].
  exists b', g', bs, parsed. auto.
Defined.
