(* ===== verification/Tagged.v ===== *)
(** * Tagged: records of tagged fields

    The template and ebox parts are records of tagged fields closed by an END
    tag, read by a [while] loop over the tags. *)

From Stdlib Require Import ZArith Lia.
From stdpp Require Import base tactics list numbers.
From S2P Require Import Prelude Utf8 PivError Guid Reader Wire.

Local Open Scope Z_scope.

(** ** Tagged records *)

Definition PART_END : Z := 0.

(** One turn of [while tag != PART_END { match tag { .. } tag = r.get_u8()?; }]. *)
Definition tag_step {A} (field : Z -> A -> Rd A) (s : Z * A) : Rd ((Z * A) + A) :=
  let '(tag, acc) := s in
  if tag =? PART_END then rd_ret (inr acc)
  else
    let! acc := field tag acc in
    let! tag := get_u8 in
    rd_ret (inl (tag, acc)).

Definition read_tagged {A} (field : Z -> A -> Rd A) (acc : A) : Rd A :=
  let! tag := get_u8 in
  rd_while (tag_step field) (tag, acc).

Definition opt_all {A} (P : A -> Prop) (o : option A) : Prop :=
  match o with Some a => P a | None => True end.

(** The field of an optional value: absent when there is none. *)
Definition opt_field {A} (tag : Z) (enc : A -> bytes) (o : option A) : list (Z * bytes) :=
  match o with Some a => [(tag, enc a)] | None => [] end.

Section Tagged.
Context {A : Type} (field : Z -> A -> Rd A).

(** Reading the fields [fs] one after the other takes [acc] to [acc']. *)
Inductive fields_read : A -> list (Z * bytes) -> A -> Prop :=
| fields_nil acc : fields_read acc [] acc
| fields_cons acc acc1 acc' t e fs :
    t <> PART_END -> reads (field t acc) acc1 e -> fields_read acc1 fs acc' ->
    fields_read acc ((t, e) :: fs) acc'.

Definition enc_fields (fs : list (Z * bytes)) : bytes :=
  mbind (fun '(t, e) => t :: e) fs ++ [PART_END].

Lemma enc_fields_cons t e fs : enc_fields ((t, e) :: fs) = [t] ++ e ++ enc_fields fs.
Proof. unfold enc_fields. simpl. now rewrite <- app_assoc. Qed.

(** A field that is written only when there is a value. *)
Lemma fields_opt {B} (t : Z) (enc : B -> bytes) (o : option B) (upd : option B -> A) fs acc' :
  t <> PART_END -> (forall b, o = Some b -> reads (field t (upd None)) (upd (Some b)) (enc b)) ->
  fields_read (upd o) fs acc' -> fields_read (upd None) (opt_field t enc o ++ fs) acc'.
Proof.
  intros Ht Hr Hfs. destruct o as [b|]; [|exact Hfs].
  econstructor; [exact Ht|exact (Hr b eq_refl)|exact Hfs].
Qed.

Lemma fields_app acc fs1 acc1 fs2 acc2 :
  fields_read acc fs1 acc1 -> fields_read acc1 fs2 acc2 ->
  fields_read acc (fs1 ++ fs2) acc2.
Proof. induction 1; simpl; [auto|]. intros. econstructor; eauto. Qed.

Lemma reads_tagged acc fs acc' :
  fields_read acc fs acc' -> reads (read_tagged field acc) acc' (enc_fields fs).
Proof.
  intros H.
  assert (G : exists t0 e0, enc_fields fs = [t0] ++ e0 /\
             loops (tag_step field) (t0, acc) acc' e0).
  { induction H as [acc|acc acc1 acc' t e fs Ht Hf Hfs (t1 & e1 & Heq & Hl)].
    - exists PART_END, []. split; [reflexivity|]. apply loops_done. apply reads_ret.
    - exists t, (e ++ [t1] ++ e1). split.
      + rewrite enc_fields_cons. now rewrite Heq.
      + rewrite app_assoc. apply loops_more with (t1, acc1).
        * simpl. rewrite (proj2 (Z.eqb_neq _ _) Ht).
          apply reads_bind with acc1; [exact Hf|].
          apply reads_bind_last with t1; [apply reads_u8|apply reads_ret].
        * rewrite len_app. change (len [t1]) with 1. pose proof (len_nonneg e). lia.
        * exact Hl. }
  destruct G as (t0 & e0 & -> & Hl). apply reads_bind with t0; [apply reads_u8|].
  now apply reads_while.
Qed.

Context (I : A -> Prop).

Lemma tag_step_moves s : (forall t acc, I acc -> safe (field t acc) I) -> I (snd s) ->
  moves (tag_step field s).
Proof.
  intros Hf Hs r s' r' Hr Hrun. destruct s as [t acc]. simpl in *.
  destruct (t =? PART_END); [discriminate|]. unfold rd_bind in Hrun.
  destruct (Hf t acc Hs r Hr) as [_ Hx].
  destruct (field t acc r) as [[acc1 r1]|e|] eqn:H1; try discriminate. simpl in Hrun.
  destruct (Hx acc1 r1 eq_refl) as (_ & Hd & Hpos).
  unfold get_u8 in Hrun. destruct (need r1 1); try discriminate. simpl in Hrun.
  destruct (index (rd_data r1) (rd_pos r1)); try discriminate. simpl in Hrun.
  injection Hrun as <- <-. simpl. lia.
Qed.

Lemma safe_tagged acc :
  (forall t acc, I acc -> safe (field t acc) I) -> I acc ->
  safe (read_tagged field acc) I.
Proof.
  intros Hf Hacc. apply safe_bind with byte_ok; [apply safe_u8|]. intros t Ht.
  apply safe_while with (I := fun s => I (snd s)); [| |exact Hacc].
  - intros [t' acc'] Hacc'. simpl. case_match; [now apply safe_ret|].
    apply safe_bind with I; [now apply Hf|]. intros acc1 H1.
    apply safe_bind with byte_ok; [apply safe_u8|]. intros t1 _. now apply safe_ret.
  - intros s Hs. now apply tag_step_moves.
Qed.

Lemma good_tagged acc :
  (forall t acc, I acc -> good (field t acc) I) -> I acc ->
  good (read_tagged field acc) I.
Proof.
  intros Hf Hacc.
  assert (Hstep : forall s, I (snd s) ->
            good (tag_step field s) (step_post (fun s => I (snd s)) I)).
  { intros [t' acc'] Hacc'. simpl in *. case_match; [now apply good_ret|].
    apply good_bind with I; [now apply Hf|]. intros acc1 H1.
    apply good_bind with byte_ok; [apply good_u8|]. intros t1 _. now apply good_ret. }
  apply good_bind with byte_ok; [apply good_u8|]. intros t Ht.
  apply good_while with (I := fun s => I (snd s)).
  - intros s Hs. apply (Hstep s Hs).
  - intros s Hs. apply tag_step_moves; [|exact Hs]. intros t' acc' H'. apply (Hf t' acc' H').
  - intros s Hs. apply (Hstep s Hs).
  - exact Hacc.
Qed.
End Tagged.

(** The next optional field; [u] is the state of the loop as a function of
    the field's value. *)
Ltac read_opt u :=
  apply fields_opt with (upd := u);
  [discriminate
  |let b := fresh in let Hb := fresh in intros b Hb; rewrite Hb in *; apply reads_bind_last with b;
    [eauto with wire|apply reads_ret]
  |].
