(* ===== verification/Template.v ===== *)
(** * Template: ebox templates ([piggy-box/src/template.rs])

    The recipient list a box is created from: configs of parts, each part a
    tagged record.  Base64 is a third-party crate, a parameter of the text
    form. *)

From Stdlib Require Import ZArith Lia String.
From stdpp Require Import base tactics list numbers.
From S2P Require Import Prelude Utf8 PivError Guid Reader Wire Crypto PivBox Tagged.

Local Open Scope Z_scope.

Definition EBOX_MAGIC : Z := 0xEB0C.
Definition BASE64_LINE_LEN : Z := 65.
Definition EBOX_TYPE_TEMPLATE : Z := 0x01.
Definition DEFAULT_SLOT : Z := 0x9D.

Definition PART_PUBKEY : Z := 1.
Definition PART_NAME : Z := 2.
Definition PART_CAK : Z := 3.
Definition PART_GUID : Z := 4.
Definition PART_BOX : Z := 5.
Definition PART_SLOT : Z := 6.
Definition PART_OPTIONAL_FLAG : Z := 0x80.

(** [tag & !PART_OPTIONAL_FLAG] and [tag & PART_OPTIONAL_FLAG != 0] on a [u8]. *)
Definition tag_kind (tag : Z) : Z := Z.land tag (Z.lxor 0xFF PART_OPTIONAL_FLAG).
Definition tag_optional (tag : Z) : bool := negb (Z.land tag PART_OPTIONAL_FLAG =? 0).

Inductive EboxConfigType : Type := Primary | Recovery.

#[export] Instance EboxConfigType_eq_dec : EqDecision EboxConfigType.
Proof. solve_decision. Defined.

(** [config_type as u8] and [EboxConfigType::from_u8] *)
Definition config_type_u8 (t : EboxConfigType) : Z :=
  match t with Primary => 1 | Recovery => 2 end.

Definition config_type_from_u8 (v : Z) : res BoxError EboxConfigType :=
  if v =? 1 then Ok Primary
  else if v =? 2 then Ok Recovery
  else Err (BadConfigType v).

Record EboxTplPart := MkTplPart {
  tp_guid : option Guid;
  tp_slot : Z;
  tp_name : option bytes;
  tp_pubkey : bytes;
  tp_pubkey_curve : EcCurve;
  tp_cak : option bytes;
}.

Record EboxTplConfig := MkTplConfig {
  tc_type : EboxConfigType;
  tc_n : Z;
  tc_parts : list EboxTplPart;
}.

(** [EboxTplConfig::m] *)
Definition tc_m (c : EboxTplConfig) : Z := u8 (len (tc_parts c)).

Record EboxTemplate := MkTemplate {
  tpl_version : Z;
  tpl_configs : list EboxTplConfig;
}.

(** ** Writing *)

(** [if let Some(guid) = .. { put GUID }], [.. NAME ..], [.. CAK ..] and
    [if slot != DEFAULT_SLOT { .. }], shared with the ebox part writer. *)
Definition put_part_guid (w : WireWriter) (guid : option Guid) : res BoxError WireWriter :=
  match guid with
  | Some guid => put_string8 (put_u8 w PART_GUID) (guid_as_bytes guid)
  | None => Ok w
  end.

Definition put_part_name (w : WireWriter) (name : option bytes) : res BoxError WireWriter :=
  match name with
  | Some name => put_cstring8 (put_u8 w PART_NAME) name
  | None => Ok w
  end.

Definition put_part_cak (w : WireWriter) (cak : option bytes) : WireWriter :=
  match cak with
  | Some cak => put_string (put_u8 w PART_CAK) cak
  | None => w
  end.

Definition put_part_slot (w : WireWriter) (slot : Z) : WireWriter :=
  if negb (slot =? DEFAULT_SLOT) then put_u8 (put_u8 w PART_SLOT) slot else w.

Definition write_tpl_part (w : WireWriter) (part : EboxTplPart) : res BoxError WireWriter :=
  let w := put_u8 w PART_PUBKEY in
  let* w := put_cstring8 w (wire_name (tp_pubkey_curve part)) in
  let* w := put_eckey8 w (tp_pubkey part) in
  let* w := put_part_guid w (tp_guid part) in
  let* w := put_part_name w (tp_name part) in
  let w := put_part_cak w (tp_cak part) in
  let w := put_part_slot w (tp_slot part) in
  Ok (put_u8 w PART_END).

Definition write_tpl_config (w : WireWriter) (config : EboxTplConfig) : res BoxError WireWriter :=
  let w := put_u8 w (config_type_u8 (tc_type config)) in
  let w := put_u8 w (tc_n config) in
  let w := put_u8 w (tc_m config) in
  put_all write_tpl_part w (tc_parts config).

(** [EboxTemplate::to_bytes] *)
Definition put_template (w : WireWriter) (t : EboxTemplate) : res BoxError WireWriter :=
  let w := put_u8 w (u8 (Z.shiftr EBOX_MAGIC 8)) in
  let w := put_u8 w (u8 (Z.land EBOX_MAGIC 0xFF)) in
  let w := put_u8 w (tpl_version t) in
  let w := put_u8 w EBOX_TYPE_TEMPLATE in
  let w := put_u8 w (u8 (len (tpl_configs t))) in
  put_all write_tpl_config w (tpl_configs t).

Definition template_to_bytes (t : EboxTemplate) : res BoxError bytes :=
  let* w := put_template writer_new t in
  Ok (into_bytes w).

(** ** Reading *)

(** The local variables of [read_tpl_part]'s loop. *)
Record TplAcc := MkTplAcc {
  ta_guid : option Guid;
  ta_slot : Z;
  ta_name : option bytes;
  ta_pubkey : option bytes;
  ta_curve : option EcCurve;
  ta_cak : option bytes;
}.

Definition tpl_acc_new : TplAcc := MkTplAcc None DEFAULT_SLOT None None None None.

(** The [match] in the loop's body. *)
Definition tpl_field (tag : Z) (a : TplAcc) : Rd TplAcc :=
  if tag_kind tag =? PART_PUBKEY then
    let! c := get_curve in
    let! p := get_eckey8 in
    rd_ret (MkTplAcc (ta_guid a) (ta_slot a) (ta_name a) (Some p) (Some c) (ta_cak a))
  else if tag_kind tag =? PART_GUID then
    let! g := get_guid in
    rd_ret (MkTplAcc (Some g) (ta_slot a) (ta_name a) (ta_pubkey a) (ta_curve a) (ta_cak a))
  else if tag_kind tag =? PART_NAME then
    let! n := get_cstring8 in
    rd_ret (MkTplAcc (ta_guid a) (ta_slot a) (Some n) (ta_pubkey a) (ta_curve a) (ta_cak a))
  else if tag_kind tag =? PART_CAK then
    let! k := get_string in
    rd_ret (MkTplAcc (ta_guid a) (ta_slot a) (ta_name a) (ta_pubkey a) (ta_curve a) (Some k))
  else if tag_kind tag =? PART_SLOT then
    let! s := get_u8 in
    rd_ret (MkTplAcc (ta_guid a) s (ta_name a) (ta_pubkey a) (ta_curve a) (ta_cak a))
  else if tag_optional tag then
    let! _ := get_string8 in
    rd_ret a
  else rd_lift (Err (Wire (UnknownPartTag tag))).

Definition tpl_finish (a : TplAcc) : res BoxError EboxTplPart :=
  let* pubkey := ok_or (ta_pubkey a) (Wire MissingPubkey) in
  let* pubkey_curve := ok_or (ta_curve a) (Wire MissingCurve) in
  Ok (MkTplPart (ta_guid a) (ta_slot a) (ta_name a) pubkey pubkey_curve (ta_cak a)).

Definition read_tpl_part : Rd EboxTplPart :=
  let! a := read_tagged tpl_field tpl_acc_new in
  rd_lift (tpl_finish a).

Definition get_config_type : Rd EboxConfigType :=
  let! v := get_u8 in
  rd_lift (config_type_from_u8 v).

Definition read_tpl_config : Rd EboxTplConfig :=
  let! config_type := get_config_type in
  let! n := get_u8 in
  let! m := get_u8 in
  if bool_decide (config_type = Primary) && (1 <? n) then rd_lift (Err (Wire (PrimaryN n)))
  else
    let! parts := get_times read_tpl_part (Z.to_nat m) in
    rd_ret (MkTplConfig config_type n parts).

(** [EboxTemplate::from_bytes] *)
Definition get_template : Rd EboxTemplate :=
  let! magic := get_magic in
  if negb (magic =? EBOX_MAGIC) then rd_lift (Err (BadMagic EBOX_MAGIC magic)) else
  let! version := get_u8 in
  let! etype := get_u8 in
  if negb (etype =? EBOX_TYPE_TEMPLATE) then rd_lift (Err (BadEboxType etype)) else
  let! nconfigs := get_u8 in
  let! configs := get_times read_tpl_config (Z.to_nat nconfigs) in
  rd_ret (MkTemplate version configs).

Definition template_from_bytes (data : bytes) : res BoxError EboxTemplate :=
  parse_all get_template data.

(** ** The base64 text form *)

Section Base64.
Context (b64_encode : bytes -> bytes) (b64_decode : bytes -> option bytes).

(** The [while offset < bytes.len()] loop of [to_b64_wrapped]. *)
Fixpoint wrap_lines (fuel : nat) (raw : bytes) (offset : Z) (out : bytes)
    : res BoxError bytes :=
  match fuel with
  | O => Panic
  | S k =>
      if offset <? len raw then
        let end_ := Z.min (offset + BASE64_LINE_LEN) (len raw) in
        let* line := slice raw offset end_ in
        wrap_lines k raw end_ (out ++ line ++ [10])
      else Ok out
  end.

Definition to_b64_wrapped (t : EboxTemplate) : res BoxError bytes :=
  let* bin := template_to_bytes t in
  let raw := b64_encode bin in
  wrap_lines (S (length raw)) raw 0 [].

Definition from_b64_bytes (data : bytes) : res BoxError EboxTemplate :=
  let stripped := List.filter (fun b => negb (is_ascii_whitespace b)) data in
  let* bin := ok_or (b64_decode stripped) (Wire Base64Failed) in
  template_from_bytes bin.
End Base64.

(** ** The codecs *)

Record tpl_part_ok (p : EboxTplPart) : Prop := {
  tpo_guid : opt_all guid_ok (tp_guid p);
  tpo_slot : byte_ok (tp_slot p);
  tpo_name : opt_all cstr_ok (tp_name p);
  tpo_pubkey : len (tp_pubkey p) <= 255;
  tpo_cak : opt_all (fun k => len k < 2 ^ 32) (tp_cak p);
}.

Definition slot_field (slot : Z) : list (Z * bytes) :=
  if negb (slot =? DEFAULT_SLOT) then [(PART_SLOT, [slot])] else [].

(** GUID, NAME, CAK and SLOT, in the order both part writers emit them. *)
Definition common_fields (guid : option Guid) (name cak : option bytes) (slot : Z)
    : list (Z * bytes) :=
  opt_field PART_GUID (fun g => enc8 (guid_bytes g)) guid
  ++ opt_field PART_NAME enc8 name
  ++ opt_field PART_CAK enc32 cak
  ++ slot_field slot.


Definition tpl_part_fields (p : EboxTplPart) : list (Z * bytes) :=
  [(PART_PUBKEY, enc8 (wire_name (tp_pubkey_curve p)) ++ enc8 (tp_pubkey p))]
  ++ common_fields (tp_guid p) (tp_name p) (tp_cak p) (tp_slot p).

Definition enc_tpl_part (p : EboxTplPart) : bytes := enc_fields (tpl_part_fields p).

#[export] Instance TplPart_codec : WireCodec EboxTplPart := {
  wire_ok := tpl_part_ok;
  wire_enc := enc_tpl_part;
  wire_view p := p;
  wire_put := write_tpl_part;
  wire_get := read_tpl_part;
}.

Record tpl_config_ok (c : EboxTplConfig) : Prop := {
  tco_n : byte_ok (tc_n c);
  tco_primary : tc_type c = Primary -> tc_n c <= 1;
  tco_m : len (tc_parts c) <= 255;
  tco_parts : Forall tpl_part_ok (tc_parts c);
}.

Definition enc_tpl_config (c : EboxTplConfig) : bytes :=
  [config_type_u8 (tc_type c)] ++ [tc_n c] ++ [len (tc_parts c)] ++ enc_all (tc_parts c).

#[export] Instance TplConfig_codec : WireCodec EboxTplConfig := {
  wire_ok := tpl_config_ok;
  wire_enc := enc_tpl_config;
  wire_view c := c;
  wire_put := write_tpl_config;
  wire_get := read_tpl_config;
}.

Record template_ok (t : EboxTemplate) : Prop := {
  to_version : byte_ok (tpl_version t);
  to_count : len (tpl_configs t) <= 255;
  to_configs : Forall tpl_config_ok (tpl_configs t);
}.

Definition enc_template (t : EboxTemplate) : bytes :=
  [0xEB; 0x0C] ++ [tpl_version t] ++ [EBOX_TYPE_TEMPLATE] ++ [len (tpl_configs t)]
  ++ enc_all (tpl_configs t).

(** ** Lemmas *)

Definition enc_flat (fs : list (Z * bytes)) : bytes := mbind (fun '(t, e) => t :: e) fs.

Lemma enc_flat_app fs gs : enc_flat (fs ++ gs) = enc_flat fs ++ enc_flat gs.
Proof. apply bind_app. Qed.

Lemma enc_fields_flat fs : enc_fields fs = enc_flat fs ++ [PART_END].
Proof. reflexivity. Qed.

Lemma enc_flat_cons t e fs : enc_flat ((t, e) :: fs) = [t] ++ e ++ enc_flat fs.
Proof. reflexivity. Qed.

Lemma put_part_guid_Ok w g :
  opt_all guid_ok g ->
  put_part_guid w g
  = Ok (put_raw w (enc_flat (opt_field PART_GUID (fun g => enc8 (guid_bytes g)) g))).
Proof.
  destruct g as [g|]; simpl.
  - intros [Hl _]. rewrite put_string8_Ok by (unfold guid_as_bytes; lia).
    unfold put_u8. now rewrite put_raw_app, app_nil_r.
  - intros _. now rewrite put_raw_nil.
Qed.

Lemma put_part_name_Ok w n :
  opt_all cstr_ok n ->
  put_part_name w n = Ok (put_raw w (enc_flat (opt_field PART_NAME enc8 n))).
Proof.
  destruct n as [n|]; simpl; intros H.
  - rewrite put_cstring8_Ok by assumption. unfold put_u8. now rewrite put_raw_app, app_nil_r.
  - now rewrite put_raw_nil.
Qed.

Lemma put_part_cak_Ok w k :
  opt_all (fun k => len k < 2 ^ 32) k ->
  put_part_cak w k = put_raw w (enc_flat (opt_field PART_CAK enc32 k)).
Proof.
  destruct k as [k|]; simpl opt_all; intros H.
  - unfold put_part_cak. rewrite put_string_Ok by assumption. unfold put_u8.
    rewrite put_raw_app. unfold enc_flat. simpl mbind. now rewrite app_nil_r.
  - unfold put_part_cak. now rewrite put_raw_nil.
Qed.

Lemma put_part_slot_Ok w s :
  put_part_slot w s
  = put_raw w (enc_flat (slot_field s)).
Proof.
  unfold put_part_slot, slot_field. destruct (negb _).
  - unfold put_u8. now rewrite put_raw_app.
  - now rewrite put_raw_nil.
Qed.

Lemma writes_tpl_part p :
  tpl_part_ok p -> writes (fun w => write_tpl_part w p) (enc_tpl_part p).
Proof.
  intros [] w. unfold write_tpl_part, put_u8.
  rewrite put_cstring8_Ok by apply wire_name_cstr. simpl res_bind.
  rewrite put_eckey8_Ok by assumption. simpl res_bind.
  rewrite put_part_guid_Ok by assumption. simpl res_bind.
  rewrite put_part_name_Ok by assumption. simpl res_bind.
  rewrite put_part_cak_Ok, put_part_slot_Ok by assumption.
  rewrite !put_raw_app. do 2 f_equal.
  unfold enc_tpl_part, tpl_part_fields, common_fields.
  rewrite enc_fields_flat, !enc_flat_app, enc_flat_cons, <- !app_assoc. reflexivity.
Qed.

Lemma config_type_from_u8_ok t : config_type_from_u8 (config_type_u8 t) = Ok t.
Proof. destruct t; reflexivity. Qed.

Lemma config_type_from_u8_safe v : no_panic (config_type_from_u8 v).
Proof. unfold config_type_from_u8. repeat case_match; discriminate. Qed.

Lemma reads_config_type t : reads get_config_type t [config_type_u8 t].
Proof.
  apply reads_bind_last with (config_type_u8 t); [apply reads_u8|].
  apply reads_lift, config_type_from_u8_ok.
Qed.

Lemma good_config_type : good get_config_type (fun _ => True).
Proof. good_field. apply good_lift; [apply config_type_from_u8_safe|trivial]. Qed.

#[export] Hint Resolve reads_config_type good_config_type reads_guid : wire.

(** The SLOT field, written only when it is not the default. *)
Lemma fields_slot {A} (field : Z -> A -> Rd A) (upd : Z -> A) slot fs acc' :
  reads (field PART_SLOT (upd DEFAULT_SLOT)) (upd slot) [slot] ->
  fields_read field (upd slot) fs acc' ->
  fields_read field (upd DEFAULT_SLOT) (slot_field slot ++ fs) acc'.
Proof.
  intros Hr Hfs. unfold slot_field. destruct (negb (slot =? DEFAULT_SLOT)) eqn:Hs; simpl.
  - econstructor; [discriminate|exact Hr|exact Hfs].
  - bprop. now subst.
Qed.

Lemma tpl_read_pubkey a c p fs a' :
  fields_read tpl_field (MkTplAcc (ta_guid a) (ta_slot a) (ta_name a) (Some p) (Some c) (ta_cak a)) fs a' ->
  fields_read tpl_field a ([(PART_PUBKEY, enc8 (wire_name c) ++ enc8 p)] ++ fs) a'.
Proof.
  intros H. econstructor; [discriminate| |exact H].
  apply reads_bind with c; [apply reads_curve|].
  apply reads_bind_last with p; [apply reads_eckey8|apply reads_ret].
Qed.
Lemma reads_tpl_part p : tpl_part_ok p -> reads read_tpl_part p (enc_tpl_part p).
Proof.
  intros []. unfold read_tpl_part, enc_tpl_part.
  apply reads_bind_last with
    (MkTplAcc (tp_guid p) (tp_slot p) (tp_name p) (Some (tp_pubkey p))
       (Some (tp_pubkey_curve p)) (tp_cak p)).
  - apply reads_tagged. econstructor; [discriminate| |].
    { apply reads_bind with (tp_pubkey_curve p); [apply reads_curve|].
      apply reads_bind_last with (tp_pubkey p); [apply reads_eckey8|apply reads_ret]. }
    read_opt (fun g => MkTplAcc g DEFAULT_SLOT None (Some (tp_pubkey p)) (Some (tp_pubkey_curve p)) None).
    read_opt (fun n => MkTplAcc (tp_guid p) DEFAULT_SLOT n (Some (tp_pubkey p)) (Some (tp_pubkey_curve p)) None).
    read_opt (fun k => MkTplAcc (tp_guid p) DEFAULT_SLOT (tp_name p) (Some (tp_pubkey p)) (Some (tp_pubkey_curve p)) k).
    rewrite <- (app_nil_r (slot_field _)).
    apply fields_slot with (upd := fun s => MkTplAcc (tp_guid p) s (tp_name p) (Some (tp_pubkey p))
      (Some (tp_pubkey_curve p)) (tp_cak p)); [|constructor].
    apply reads_bind_last with (tp_slot p); [apply reads_u8|apply reads_ret].
  - apply reads_lift. unfold tpl_finish. simpl. now destruct p.
Qed.

#[export] Instance TplPart_codec_laws : WireCodecLaws EboxTplPart.
Proof. split; [apply writes_tpl_part|apply reads_tpl_part]. Qed.

(** What every run of [read_tpl_part]'s loop keeps. *)
Definition tpl_acc_ok (a : TplAcc) : Prop :=
  opt_all guid_ok (ta_guid a) /\ byte_ok (ta_slot a) /\ opt_all cstr_ok (ta_name a)
  /\ opt_all (fun k => len k <= 255) (ta_pubkey a).

Lemma good_tpl_field tag a : tpl_acc_ok a -> good (tpl_field tag a) tpl_acc_ok.
Proof.
  intros (Hg & Hs & Hn & Hp). unfold tpl_field.
  repeat case_match; try apply good_err; repeat good_field; apply good_ret;
    unfold tpl_acc_ok; cbv beta in *; simpl; tauto.
Qed.

Lemma tpl_finish_safe a : no_panic (tpl_finish a).
Proof. unfold tpl_finish. destruct (ta_pubkey a), (ta_curve a); discriminate. Qed.

Lemma good_tpl_part : good read_tpl_part (fun p => byte_ok (tp_slot p)).
Proof.
  apply good_bind with tpl_acc_ok.
  - apply good_tagged; [intros; now apply good_tpl_field|].
    repeat split; simpl; vm_compute; congruence.
  - intros a (Hg & Hs & Hn & Hp). apply good_lift; [apply tpl_finish_safe|].
    intros p. unfold tpl_finish. destruct (ta_pubkey a), (ta_curve a); try discriminate.
    intros [= <-]. exact Hs.
Qed.

#[export] Hint Resolve good_tpl_part reads_tpl_part : wire.

Lemma writes_tpl_config c :
  tpl_config_ok c -> writes (fun w => write_tpl_config w c) (enc_tpl_config c).
Proof.
  intros [Hn _ Hm Hparts] w. unfold write_tpl_config, put_u8, tc_m. rewrite !put_raw_app.
  rewrite u8_small by (unfold byte_ok; pose proof (len_nonneg (tc_parts c)); lia).
  pose proof (writes_all (tc_parts c) Hparts) as Hw. unfold writes in Hw. simpl in Hw.
  rewrite Hw, put_raw_app. now rewrite <- !app_assoc.
Qed.

Lemma reads_tpl_config c : tpl_config_ok c -> reads read_tpl_config c (enc_tpl_config c).
Proof.
  intros [Hn Hprim Hm Hparts]. unfold read_tpl_config, enc_tpl_config.
  reads_field (tc_type c). reads_field (tc_n c). reads_field (len (tc_parts c)).
  replace (bool_decide (tc_type c = Primary) && (1 <? tc_n c)) with false.
  - unfold len. rewrite Nat2Z.id. apply reads_bind_last with (tc_parts c).
    + exact (reads_all_id (tc_parts c) (fun _ => eq_refl) Hparts).
    + destruct c. apply reads_ret.
  - symmetry. destruct (bool_decide_reflect (tc_type c = Primary)); [|reflexivity].
    simpl. apply Z.ltb_ge. auto.
Qed.

#[export] Instance TplConfig_codec_laws : WireCodecLaws EboxTplConfig.
Proof. split; [apply writes_tpl_config|apply reads_tpl_config]. Qed.

Lemma good_tpl_config : good read_tpl_config (fun c => byte_ok (tc_n c)).
Proof.
  unfold read_tpl_config. good_field. good_field. good_field.
  case_match; [apply good_err|]. eapply good_bind; [apply good_times, good_tpl_part|].
  intros ? _. now apply good_ret.
Qed.

Lemma writes_template t : template_ok t -> writes (fun w => put_template w t) (enc_template t).
Proof.
  intros [Hv Hc Hconfigs] w. unfold put_template, put_u8. rewrite !put_raw_app.
  rewrite (u8_small (len _)) by (unfold byte_ok; pose proof (len_nonneg (tpl_configs t)); lia).
  pose proof (writes_all (tpl_configs t) Hconfigs) as Hw. unfold writes in Hw. simpl in Hw.
  rewrite Hw, put_raw_app. now rewrite <- !app_assoc.
Qed.

Lemma reads_template t : template_ok t -> reads get_template t (enc_template t).
Proof.
  intros [Hv Hc Hconfigs]. unfold get_template, enc_template.
  apply reads_bind with EBOX_MAGIC; [apply (reads_magic 0xEB 0x0C)|].
  simpl negb. cbv iota. reads_field (tpl_version t). reads_field EBOX_TYPE_TEMPLATE.
  simpl negb. cbv iota. reads_field (len (tpl_configs t)). unfold len. rewrite Nat2Z.id.
  apply reads_bind_last with (tpl_configs t).
  - exact (reads_all_id (tpl_configs t) (fun _ => eq_refl) Hconfigs).
  - destruct t. apply reads_ret.
Qed.

Lemma good_template : good get_template (fun _ => True).
Proof.
  unfold get_template. good_field. case_match; [apply good_err|]. good_field. good_field.
  case_match; [apply good_err|]. good_field.
  eapply good_bind; [apply good_times, good_tpl_config|]. intros ? _. now apply good_ret.
Qed.

(** The encoding is a byte string, so it can be cut and reparsed. *)
Lemma template_bytes t bs : template_ok t -> template_to_bytes t = Ok bs -> bs = enc_template t.
Proof.
  intros Ht. unfold template_to_bytes. rewrite (writes_template t Ht writer_new).
  intros [= <-]. reflexivity.
Qed.

(** *** The base64 text *)

Lemma strip_ws_id l :
  Forall (fun b => is_ascii_whitespace b = false) l ->
  List.filter (fun b => negb (is_ascii_whitespace b)) l = l.
Proof. induction 1 as [|b l Hb _ IH]; simpl; [reflexivity|]. rewrite Hb. simpl. now f_equal. Qed.

(** The lines of [raw] from [offset] on, each ended by a newline; what
    [from_b64_bytes] strips is the newlines. *)
Lemma wrap_lines_ok fuel raw offset out :
  0 <= offset <= len raw -> len raw - offset < Z.of_nat fuel ->
  exists text, wrap_lines fuel raw offset out = Ok (out ++ text) /\
    List.filter (fun b => negb (is_ascii_whitespace b)) text
    = List.filter (fun b => negb (is_ascii_whitespace b)) (zdrop offset raw).
Proof.
  revert offset out. induction fuel as [|fuel IH]; intros offset out Ho Hf; [lia|].
  simpl. destruct (offset <? len raw) eqn:Hlt; bprop.
  - set (end_ := Z.min (offset + BASE64_LINE_LEN) (len raw)).
    assert (Hend : offset < end_ <= len raw) by (unfold end_, BASE64_LINE_LEN; lia).
    rewrite slice_Ok by lia. simpl.
    destruct (IH end_ (out ++ ztake (end_ - offset) (zdrop offset raw) ++ [10]))
      as (text & Htext & Hfilter); [lia|lia|].
    exists (ztake (end_ - offset) (zdrop offset raw) ++ [10] ++ text). split.
    + rewrite Htext. now rewrite <- !app_assoc.
    + rewrite !List.filter_app, Hfilter. simpl (List.filter _ [10]). simpl app.
      rewrite <- List.filter_app. f_equal.
      rewrite (zsplit (end_ - offset) (zdrop offset raw)) at 2. f_equal.
      unfold zdrop. rewrite drop_drop. f_equal. lia.
  - exists []. rewrite app_nil_r. split; [reflexivity|].
    unfold zdrop, len in *. rewrite drop_ge by lia. reflexivity.
Qed.

Section B64.
Context (b64_encode : bytes -> bytes) (b64_decode : bytes -> option bytes).
Hypothesis b64_roundtrip : forall l, bytes_ok l -> b64_decode (b64_encode l) = Some l.
Hypothesis b64_no_space : forall l, bytes_ok l ->
  Forall (fun b => is_ascii_whitespace b = false) (b64_encode l).

Lemma to_b64_wrapped_ok t bs :
  template_to_bytes t = Ok bs -> bytes_ok bs ->
  exists text, to_b64_wrapped b64_encode t = Ok text /\
    from_b64_bytes b64_decode text = template_from_bytes bs.
Proof.
  intros Hbs Hok. unfold to_b64_wrapped. rewrite Hbs. simpl res_bind.
  destruct (wrap_lines_ok (S (length (b64_encode bs))) (b64_encode bs) 0 [])
    as (text & Htext & Hfilter); [pose proof (len_nonneg (b64_encode bs)); lia|unfold len; lia|].
  exists text. split; [exact Htext|]. unfold from_b64_bytes. rewrite Hfilter, zdrop_0.
  rewrite strip_ws_id by now apply b64_no_space. rewrite b64_roundtrip by exact Hok. reflexivity.
Qed.
End B64.

(** ** Properties *)

(** A template whose counts fit their bytes serialises, and the
    bytes parse back to the same template; any proper prefix is an error, and
    no input makes the parser panic or loop. *)
Theorem template_roundtrip t suffix :
  template_ok t ->
  exists bs, template_to_bytes t = Ok bs /\ template_from_bytes (bs ++ suffix) = Ok t /\
    (bytes_ok bs -> forall n, 0 <= n < len bs ->
       exists e, template_from_bytes (ztake n bs) = Err e).
Proof.
  intros Ht. exists (enc_template t). split; [|split].
  - unfold template_to_bytes. now rewrite (writes_template t Ht writer_new).
  - apply parse_all_reads, (reads_template t Ht).
  - intros Hb n Hn. exact (parse_all_truncated _ _ _ _ _ good_template (reads_template t Ht) Hb Hn).
Qed.

(** No byte string makes the template parser panic, and its tag
    loop always ends within the bytes given. *)
Theorem template_parse_safe data : bytes_ok data -> no_panic (template_from_bytes data).
Proof. exact (parse_all_safe _ _ _ (proj1 good_template)). Qed.

(** The base64 text of a template, wrapped at 65 columns, is
    always produced, and stripping its white space and decoding gives back the
    template. *)
Theorem template_text_roundtrip b64_encode b64_decode t :
  (forall l, bytes_ok l -> b64_decode (b64_encode l) = Some l) ->
  (forall l, bytes_ok l -> Forall (fun b => is_ascii_whitespace b = false) (b64_encode l)) ->
  template_ok t -> bytes_ok (enc_template t) ->
  exists text, to_b64_wrapped b64_encode t = Ok text /\ from_b64_bytes b64_decode text = Ok t.
Proof.
  intros Hrt Hws Ht Hb.
  assert (Hbs : template_to_bytes t = Ok (enc_template t))
    by (unfold template_to_bytes; now rewrite (writes_template t Ht writer_new)).
  destruct (to_b64_wrapped_ok b64_encode b64_decode Hrt Hws t _ Hbs Hb) as (text & H1 & H2).
  exists text. split; [exact H1|]. rewrite H2. rewrite <- (app_nil_r (enc_template t)).
  apply parse_all_reads, (reads_template t Ht).
Qed.

(** The config count is one byte, taken modulo 256 without a
    check: a template of 256 configs is written without an error, and reads
    back as a template with none. *)
Theorem template_count_wraps t :
  byte_ok (tpl_version t) -> len (tpl_configs t) = 256 -> Forall tpl_config_ok (tpl_configs t) ->
  exists bs, template_to_bytes t = Ok bs /\
    template_from_bytes bs = Ok (MkTemplate (tpl_version t) []).
Proof.
  intros Hv Hn Hc.
  exists ([0xEB; 0x0C] ++ [tpl_version t] ++ [EBOX_TYPE_TEMPLATE] ++ [0] ++ enc_all (tpl_configs t)).
  split.
  - unfold template_to_bytes, put_template, put_u8. rewrite !put_raw_app, Hn.
    pose proof (writes_all (tpl_configs t) Hc) as Hw. unfold writes in Hw. simpl in Hw.
    rewrite Hw, put_raw_app. reflexivity.
  - rewrite !app_assoc. apply parse_all_reads. rewrite <- !app_assoc.
    pose proof (reads_template (MkTemplate (tpl_version t) [])) as Hr.
    apply Hr. split; [exact Hv|vm_compute; discriminate|constructor].
Qed.

Definition sample_tpl_part : EboxTplPart :=
  MkTplPart (Some (MkGuid (repeat 9 16))) 0x9E (Some (ascii "laptop")) [2; 1; 1] NistP384
    (Some [5; 6]).

Definition sample_template : EboxTemplate :=
  MkTemplate 1 [MkTplConfig Primary 1 [sample_tpl_part];
                MkTplConfig Recovery 2 [sample_tpl_part; sample_tpl_part]].

Lemma sample_tpl_part_ok : tpl_part_ok sample_tpl_part.
Proof. split; by_compute. Defined.

Lemma sample_template_ok : template_ok sample_template.
Proof.
  pose proof sample_tpl_part_ok. split; [by_compute|by_compute|].
  repeat constructor; simpl; try discriminate; assumption.
Defined.

Lemma template_roundtrip_witness :
  template_ok sample_template /\
  exists bs, template_to_bytes sample_template = Ok bs /\
    template_from_bytes (bs ++ [1]) = Ok sample_template.
Proof.
  split; [exact sample_template_ok|].
  destruct (template_roundtrip sample_template [1] sample_template_ok) as (bs & H1 & H2 & _).
  now exists bs.
Defined.

Lemma template_parse_safe_witness : no_panic (template_from_bytes [0xEB; 0x0C; 1; 1; 1; 2; 2]).
Proof. apply template_parse_safe. by_compute. Defined.

(** A concrete text encoding: two letters per byte. *)
Definition nibbles_encode (l : bytes) : bytes := mbind (fun b => [65 + b / 16; 65 + b mod 16]) l.

Fixpoint nibbles_decode (l : bytes) : option bytes :=
  match l with
  | [] => Some []
  | hi :: lo :: t => (fun r => ((hi - 65) * 16 + (lo - 65)) :: r) <$> nibbles_decode t
  | [_] => None
  end.

Lemma nibbles_roundtrip l : bytes_ok l -> nibbles_decode (nibbles_encode l) = Some l.
Proof.
  induction 1 as [|b l Hb _ IH]; [reflexivity|].
  change (nibbles_encode (b :: l)) with ([65 + b / 16; 65 + b mod 16] ++ nibbles_encode l).
  cbn [app nibbles_decode]. rewrite IH. cbn [fmap option_fmap option_map]. do 2 f_equal.
  pose proof (Z.div_mod b 16). lia.
Qed.

Lemma nibbles_no_space l :
  bytes_ok l -> Forall (fun b => is_ascii_whitespace b = false) (nibbles_encode l).
Proof.
  induction 1 as [|b l Hb _ IH]; simpl; [constructor|]. unfold byte_ok in Hb.
  pose proof (Z.mod_pos_bound b 16 ltac:(lia)). pose proof (Z.div_pos b 16 ltac:(lia) ltac:(lia)).
  repeat constructor; [..|exact IH]; unfold is_ascii_whitespace; zbool; reflexivity.
Qed.

Lemma template_text_roundtrip_witness :
  exists text, to_b64_wrapped nibbles_encode sample_template = Ok text /\
    from_b64_bytes nibbles_decode text = Ok sample_template.
Proof.
  exact (template_text_roundtrip nibbles_encode nibbles_decode sample_template
           nibbles_roundtrip nibbles_no_space sample_template_ok ltac:(by_compute)).
Defined.

Definition overfull_template : EboxTemplate :=
  MkTemplate 1 (repeat (MkTplConfig Recovery 0 []) 256).

Lemma template_count_wraps_witness :
  exists bs, template_to_bytes overfull_template = Ok bs /\
    template_from_bytes bs = Ok (MkTemplate 1 []).
Proof.
  apply (template_count_wraps overfull_template); [by_compute|reflexivity|].
  apply List.Forall_forall. intros c Hc. apply repeat_spec in Hc. subst c. split; [by_compute|discriminate|by_compute|constructor].
Defined.
