(* ===== verification/Ebox.v ===== *)
(** * Ebox: the encrypted box of [piggy-box/src/ebox.rs]

    An ebox holds one key, sealed to the parts of its configs: a PRIMARY part's
    box carries the key itself, a RECOVERY part's box a Shamir share of the key
    of the recovery box.  A method that takes [&mut self] and can fail after
    having changed the ebox returns the changed ebox beside its result. *)

From Stdlib Require Import ZArith Lia String.
From stdpp Require Import base tactics list numbers.
From S2P Require Import Prelude Utf8 PivError Guid Reader Wire Crypto PivBox Tagged Template.

Local Open Scope Z_scope.

Definition EBOX_VERSION : Z := 3.
Definition RECOVERY_CIPHER : bytes := ascii "aes256-gcm".
Definition RECOV_KEY : Z := 0x02.

Inductive EboxType : Type := TypeTemplate | TypeKey | TypeStream.

#[export] Instance EboxType_eq_dec : EqDecision EboxType.
Proof. solve_decision. Defined.

(** [ebox_type as u8] and [EboxType::from_u8] *)
Definition ebox_type_u8 (t : EboxType) : Z :=
  match t with TypeTemplate => 1 | TypeKey => 2 | TypeStream => 3 end.

Definition ebox_type_from_u8 (v : Z) : res BoxError EboxType :=
  if v =? 1 then Ok TypeTemplate
  else if v =? 2 then Ok TypeKey
  else if v =? 3 then Ok TypeStream
  else Err (BadEboxType v).

Record EphemeralKey := MkEphemeral { ek_curve : EcCurve; ek_pubkey : bytes }.

Record EboxPart := MkPart {
  ep_guid : option Guid;
  ep_slot : Z;
  ep_name : option bytes;
  ep_pubkey : option bytes;
  ep_pubkey_curve : option EcCurve;
  ep_cak : option bytes;
  piv_box : PivBox;
}.

Definition with_box (p : EboxPart) (b : PivBox) : EboxPart :=
  {| ep_guid := ep_guid p; ep_slot := ep_slot p; ep_name := ep_name p;
     ep_pubkey := ep_pubkey p; ep_pubkey_curve := ep_pubkey_curve p;
     ep_cak := ep_cak p; piv_box := b |}.

Record EboxConfig := MkConfig {
  ec_type : EboxConfigType;
  ec_n : Z;
  ec_nonce : bytes;
  ec_parts : list EboxPart;
}.

Definition with_parts (c : EboxConfig) (ps : list EboxPart) : EboxConfig :=
  {| ec_type := ec_type c; ec_n := ec_n c; ec_nonce := ec_nonce c; ec_parts := ps |}.

(** [EboxConfig::m] *)
Definition config_m (c : EboxConfig) : Z := u8 (len (ec_parts c)).

Record Ebox := MkEbox {
  eb_version : Z;
  eb_type : EboxType;
  eb_recovery_cipher : bytes;
  eb_recovery_iv : bytes;
  eb_recovery_enc : bytes;
  eb_ephemeral_keys : list EphemeralKey;
  eb_configs : list EboxConfig;
  eb_key : option bytes;
}.

Definition with_configs (eb : Ebox) (cs : list EboxConfig) : Ebox :=
  {| eb_version := eb_version eb; eb_type := eb_type eb;
     eb_recovery_cipher := eb_recovery_cipher eb; eb_recovery_iv := eb_recovery_iv eb;
     eb_recovery_enc := eb_recovery_enc eb; eb_ephemeral_keys := eb_ephemeral_keys eb;
     eb_configs := cs; eb_key := eb_key eb |}.

(** [Ebox::set_key], [Ebox::key], [Ebox::is_unlocked] *)
Definition set_key (eb : Ebox) (key : bytes) : Ebox :=
  {| eb_version := eb_version eb; eb_type := eb_type eb;
     eb_recovery_cipher := eb_recovery_cipher eb; eb_recovery_iv := eb_recovery_iv eb;
     eb_recovery_enc := eb_recovery_enc eb; eb_ephemeral_keys := eb_ephemeral_keys eb;
     eb_configs := eb_configs eb; eb_key := Some key |}.

Definition is_unlocked (eb : Ebox) : bool :=
  match eb_key eb with Some _ => true | None => false end.

(** [&mut self.configs[config_idx]] and the write through it *)
Definition set_config (eb : Ebox) (idx : nat) (c : EboxConfig) : Ebox :=
  with_configs eb (<[idx := c]> (eb_configs eb)).

(** ** Creation *)

Section Create.
Context (C : Crypto).

Definition generate_random (n : Z) (g : rng C) : res BoxError (bytes * rng C) :=
  rand_bytes C n g.

(** The ciphertext with its tag, and the IV drawn for it. *)
Definition aes256_gcm_encrypt (key plaintext : bytes) (g : rng C)
    : res BoxError (bytes * bytes * rng C) :=
  let* (iv, g) := rand_bytes C 12 g in
  let* (ct, tag) := gcm_encrypt C key iv plaintext in
  Ok (ct ++ tag, iv, g).

Definition aes256_gcm_decrypt (key iv ciphertext : bytes) : res BoxError bytes :=
  if len ciphertext <? 16 then Err (BoxCrypto GcmTooShort)
  else
    let* tag_offset := usub (len ciphertext) 16 in
    let* ct := slice ciphertext 0 tag_offset in
    let* tag := slice_from ciphertext tag_offset in
    ok_or (gcm_decrypt C key iv ct tag) (BoxCrypto GcmDecrypt).

(** The two vectors [create] grows: the public halves, stored in the ebox,
    and the private ones, dropped at the end. *)
Record Ephemerals := MkEphemerals {
  ephemeral_keys : list EphemeralKey;
  ephem_privkeys : list (EcCurve * ec_priv C);
}.

Definition get_or_create_ephemeral (curve : EcCurve) (es : Ephemerals) (g : rng C)
    : res BoxError (ec_priv C * Ephemerals * rng C) :=
  match List.find (fun cp => bool_decide (fst cp = curve)) (ephem_privkeys es) with
  | Some cp => Ok (snd cp, es, g)
  | None =>
      let* (priv_key, g) := ec_generate C curve g in
      let* pubkey_bytes := ec_compressed C curve (ec_public C priv_key) in
      Ok (priv_key,
          MkEphemerals (ephemeral_keys es ++ [MkEphemeral curve pubkey_bytes])
                       (ephem_privkeys es ++ [(curve, priv_key)]), g)
  end.

(** The body of the loop over the parts; [shares] is [None] for a PRIMARY
    config. *)
Definition create_part (key : bytes) (shares : option (list bytes)) (i : Z)
    (tpl_part : EboxTplPart) (es : Ephemerals) (g : rng C)
    : res BoxError (EboxPart * Ephemerals * rng C) :=
  let curve := tp_pubkey_curve tpl_part in
  let* (ephem, es, g) := get_or_create_ephemeral curve es g in
  let* recipient_pub := ec_from_bytes C curve (tp_pubkey tpl_part) in
  let pbox := box_new curve in
  let pbox := with_guid_slot pbox ((fun g => (g, tp_slot tpl_part)) <$> tp_guid tpl_part) in
  let* plaintext := match shares with
                    | Some ss => index ss i
                    | None => Ok key
                    end in
  let pbox := set_data pbox plaintext in
  let* (pbox, g) := seal_offline_with_ephemeral C pbox recipient_pub ephem g in
  Ok (MkPart (tp_guid tpl_part) (tp_slot tpl_part) (tp_name tpl_part)
        (Some (tp_pubkey tpl_part)) (Some curve) (tp_cak tpl_part) pbox, es, g).

Fixpoint create_parts (key : bytes) (shares : option (list bytes)) (i : Z)
    (tpl_parts : list EboxTplPart) (es : Ephemerals) (g : rng C)
    : res BoxError (list EboxPart * Ephemerals * rng C) :=
  match tpl_parts with
  | [] => Ok ([], es, g)
  | tp :: tps =>
      let* (p, es, g) := create_part key shares i tp es g in
      let* (ps, es, g) := create_parts key shares (i + 1) tps es g in
      Ok (p :: ps, es, g)
  end.

(** [config_key[i] = nonce[i] ^ recovery_key[i]] over the 32 bytes of both *)
Definition xor_bytes (a b : bytes) : bytes := zip_with Z.lxor a b.

(** The nonce and the shares of a config. *)
Definition deal_shares (recovery_key : bytes) (c : EboxTplConfig) (g : rng C)
    : res BoxError (bytes * option (list bytes) * rng C) :=
  if bool_decide (tc_type c = Recovery) then
    let* (nonce, g) := generate_random 32 g in
    let config_key := xor_bytes nonce recovery_key in
    let m := u8 (len (tc_parts c)) in
    let n := tc_n c in
    let '(shares, g) := shamir_deal C n config_key (Z.to_nat m) g in
    Ok (nonce, Some shares, g)
  else Ok ([], None, g).

Definition create_config (key recovery_key : bytes) (c : EboxTplConfig)
    (es : Ephemerals) (g : rng C) : res BoxError (EboxConfig * Ephemerals * rng C) :=
  let* (nonce, shares, g) := deal_shares recovery_key c g in
  let* (parts, es, g) := create_parts key shares 0 (tc_parts c) es g in
  Ok (MkConfig (tc_type c) (tc_n c) nonce parts, es, g).

Fixpoint create_configs (key recovery_key : bytes) (cs : list EboxTplConfig)
    (es : Ephemerals) (g : rng C)
    : res BoxError (list EboxConfig * Ephemerals * rng C) :=
  match cs with
  | [] => Ok ([], es, g)
  | c :: cs' =>
      let* (cfg, es, g) := create_config key recovery_key c es g in
      let* (cfgs, es, g) := create_configs key recovery_key cs' es g in
      Ok (cfg :: cfgs, es, g)
  end.

(** [u8(RECOV_KEY) + string8(key)] *)
Definition recovery_plaintext (key : bytes) : res BoxError bytes :=
  let* w := put_string8 (put_u8 writer_new RECOV_KEY) key in
  Ok (into_bytes w).

(** [Ebox::create] *)
Definition create (tpl : EboxTemplate) (key : bytes) (ebox_type : EboxType) (g : rng C)
    : res BoxError (Ebox * rng C) :=
  let* (recovery_key, g) := generate_random 32 g in
  let* recov_plaintext := recovery_plaintext key in
  let* (recovery_enc, recovery_iv, g) := aes256_gcm_encrypt recovery_key recov_plaintext g in
  let* (configs, es, g) :=
    create_configs key recovery_key (tpl_configs tpl) (MkEphemerals [] []) g in
  Ok (MkEbox EBOX_VERSION ebox_type RECOVERY_CIPHER recovery_iv recovery_enc
        (ephemeral_keys es) configs None, g).
End Create.
Arguments MkEphemerals {C}.
Arguments ephemeral_keys {C}.
Arguments ephem_privkeys {C}.

(** ** Unlock and recover *)

(** The loop of [unlock]: the data of the first part that has some, and the
    parts once it has been taken. *)
Fixpoint take_first (parts : list EboxPart) : res BoxError (option (bytes * list EboxPart)) :=
  match parts with
  | [] => Ok None
  | p :: ps =>
      if has_plaintext (piv_box p) then
        let* (data, b) := take_data (piv_box p) in
        Ok (Some (data, with_box p b :: ps))
      else
        let* r := take_first ps in
        Ok (option_map (fun '(data, ps) => (data, p :: ps)) r)
  end.

(** [Ebox::unlock] *)
Definition unlock (eb : Ebox) (config_idx : nat) : res BoxError Ebox :=
  if is_unlocked eb then Err AlreadyUnlocked
  else
    match eb_configs eb !! config_idx with
    | None => Panic
    | Some c =>
        let* r := take_first (ec_parts c) in
        match r with
        | Some (data, parts) => Ok (set_key (set_config eb config_idx (with_parts c parts)) data)
        | None => Err (UnlockFailed None)
        end
    end.

Section Recover.
Context (C : Crypto).

(** The loop of [recover] over the parts: every plaintext is taken out, the
    ones that parse as shares are kept. *)
Fixpoint collect_shares (parts : list EboxPart) : res BoxError (list bytes * list EboxPart) :=
  match parts with
  | [] => Ok ([], [])
  | p :: ps =>
      if has_plaintext (piv_box p) then
        let* (data, b) := take_data (piv_box p) in
        let* (shares, ps) := collect_shares ps in
        Ok (if shamir_parse C data then data :: shares else shares, with_box p b :: ps)
      else
        let* (shares, ps) := collect_shares ps in
        Ok (shares, p :: ps)
  end.

(** One turn of the loop that looks for the key in the recovery box. *)
Definition recov_step (_ : unit) : Rd (unit + option bytes) :=
  let! tag := get_u8 in
  let! data := get_string8 in
  if tag =? RECOV_KEY then rd_ret (inr (Some data))
  else
    let! rem := (fun r => let* n := remaining r in Ok (n, r)) in
    if rem =? 0 then rd_ret (inr None) else rd_ret (inl tt).

Definition parse_recovery (recov_plain : bytes) : res BoxError bytes :=
  let* key := parse_all (rd_while recov_step tt) recov_plain in
  ok_or key (BoxCrypto RecoveryNoKey).

(** [recover] from the shares on. *)
Definition recover_key (c : EboxConfig) (recovery_iv recovery_enc : bytes)
    (shares : list bytes) : res BoxError bytes :=
  let n := ec_n c in
  if len shares <? n then Err (ThresholdNotMet (len shares) n)
  else
    let* config_key := ok_or (shamir_recover C n shares) (BoxCrypto ShamirRecover) in
    if negb (len (ec_nonce c) =? len config_key) then Err (BoxCrypto NonceLength)
    else
      let recovery_key := xor_bytes config_key (ec_nonce c) in
      let* recov_plain := aes256_gcm_decrypt C recovery_key recovery_iv recovery_enc in
      parse_recovery recov_plain.

(** [Ebox::recover]: the shares are taken out of the parts before anything
    that can fail, so the ebox that comes back with an error has lost them. *)
Definition recover (eb : Ebox) (config_idx : nat) : Ebox * res BoxError unit :=
  if is_unlocked eb then (eb, Err AlreadyUnlocked)
  else
    match eb_configs eb !! config_idx with
    | None => (eb, Panic)
    | Some c =>
        match collect_shares (ec_parts c) with
        | Ok (shares, parts) =>
            let eb' := set_config eb config_idx (with_parts c parts) in
            match recover_key c (eb_recovery_iv eb) (eb_recovery_enc eb) shares with
            | Ok key => (set_key eb' key, Ok tt)
            | Err e => (eb', Err e)
            | Panic => (eb', Panic)
            end
        | Err e => (eb, Err e)
        | Panic => (eb, Panic)
        end
    end.
End Recover.

(** ** Wire form *)

(** The [PART_BOX] arm of [write_ebox_part]. *)
Definition put_part_box (version : Z) (w : WireWriter) (b : PivBox) : res BoxError WireWriter :=
  if 2 <=? version then
    let* w := put_cstring8 w (cipher b) in
    let* w := put_cstring8 w (kdf b) in
    let* w := put_string8 w (nonce b) in
    let* w := put_cstring8 w (wire_name (curve b)) in
    let* w := put_eckey8 w (recipient_pubkey b) in
    let* w := put_string8 w (iv b) in
    Ok (put_string w (ciphertext b))
  else
    let* box_bytes := box_to_bytes b in
    Ok (put_raw w box_bytes).

Definition write_ebox_part (version : Z) (w : WireWriter) (part : EboxPart)
    : res BoxError WireWriter :=
  let* w := put_part_guid w (ep_guid part) in
  let* w := put_part_name w (ep_name part) in
  let w := put_part_cak w (ep_cak part) in
  let w := put_part_slot w (ep_slot part) in
  let w := put_u8 w PART_BOX in
  let* w := put_part_box version w (piv_box part) in
  Ok (put_u8 w PART_END).

Definition write_ebox_config (version : Z) (w : WireWriter) (config : EboxConfig)
    : res BoxError WireWriter :=
  let w := put_u8 w (config_type_u8 (ec_type config)) in
  let w := put_u8 w (ec_n config) in
  let w := put_u8 w (config_m config) in
  let* w := (if negb (bool_decide (ec_nonce config = [])) then put_string8 w (ec_nonce config)
             else Ok (put_u8 w 0)) in
  put_all (write_ebox_part version) w (ec_parts config).

Definition write_ephemeral (w : WireWriter) (ek : EphemeralKey) : res BoxError WireWriter :=
  let* w := put_cstring8 w (wire_name (ek_curve ek)) in
  put_eckey8 w (ek_pubkey ek).

(** [Ebox::to_bytes] *)
Definition put_ebox (w : WireWriter) (eb : Ebox) : res BoxError WireWriter :=
  let w := put_u8 w (u8 (Z.shiftr EBOX_MAGIC 8)) in
  let w := put_u8 w (u8 (Z.land EBOX_MAGIC 0xFF)) in
  let w := put_u8 w (eb_version eb) in
  let w := put_u8 w (ebox_type_u8 (eb_type eb)) in
  let* w := put_cstring8 w (eb_recovery_cipher eb) in
  let* w := put_string8 w (eb_recovery_iv eb) in
  let* w := put_string8 w (eb_recovery_enc eb) in
  let* w := (if 2 <=? eb_version eb then
               let w := put_u8 w (u8 (len (eb_ephemeral_keys eb))) in
               put_all write_ephemeral w (eb_ephemeral_keys eb)
             else Ok w) in
  let w := put_u8 w (u8 (len (eb_configs eb))) in
  put_all (write_ebox_config (eb_version eb)) w (eb_configs eb).

Definition ebox_to_bytes (eb : Ebox) : res BoxError bytes :=
  let* w := put_ebox writer_new eb in
  Ok (into_bytes w).

(** The local variables of [read_ebox_part]'s loop. *)
Record PartAcc := MkPartAcc {
  pa_guid : option Guid;
  pa_slot : Z;
  pa_name : option bytes;
  pa_pubkey : option bytes;
  pa_curve : option EcCurve;
  pa_cak : option bytes;
  pa_box : option PivBox;
}.

Definition part_acc_new : PartAcc := MkPartAcc None DEFAULT_SLOT None None None None None.

(** The [PART_BOX] arm: inline fields from version 2 on, a whole box parsed off
    the rest of the input before, which does not move the reader. *)
Definition get_part_box (version : Z) (guid : option Guid) (slot : Z) : Rd PivBox :=
  if 2 <=? version then
    let! cipher := get_cstring8 in
    let! kdf := get_cstring8 in
    let! nonce := get_string8 in
    let! curve := get_curve in
    let! recipient_pubkey := get_eckey8 in
    let! iv := get_string8 in
    let! ciphertext := get_string in
    let guid_slot := (fun g => (g, slot)) <$> guid in
    rd_ret (MkBox BOX_VERSION guid_slot cipher kdf nonce curve recipient_pubkey [] iv
              ciphertext None)
  else
    fun r => let* data := rest r in
             let* b := box_from_bytes data in
             Ok (b, r).

Definition part_field (version : Z) (tag : Z) (a : PartAcc) : Rd PartAcc :=
  if tag_kind tag =? PART_PUBKEY then
    let! c := get_curve in
    let! p := get_eckey8 in
    rd_ret (MkPartAcc (pa_guid a) (pa_slot a) (pa_name a) (Some p) (Some c) (pa_cak a) (pa_box a))
  else if tag_kind tag =? PART_GUID then
    let! g := get_guid in
    rd_ret (MkPartAcc (Some g) (pa_slot a) (pa_name a) (pa_pubkey a) (pa_curve a) (pa_cak a) (pa_box a))
  else if tag_kind tag =? PART_NAME then
    let! n := get_cstring8 in
    rd_ret (MkPartAcc (pa_guid a) (pa_slot a) (Some n) (pa_pubkey a) (pa_curve a) (pa_cak a) (pa_box a))
  else if tag_kind tag =? PART_CAK then
    let! k := get_string in
    rd_ret (MkPartAcc (pa_guid a) (pa_slot a) (pa_name a) (pa_pubkey a) (pa_curve a) (Some k) (pa_box a))
  else if tag_kind tag =? PART_SLOT then
    let! s := get_u8 in
    rd_ret (MkPartAcc (pa_guid a) s (pa_name a) (pa_pubkey a) (pa_curve a) (pa_cak a) (pa_box a))
  else if tag_kind tag =? PART_BOX then
    let! b := get_part_box version (pa_guid a) (pa_slot a) in
    rd_ret (MkPartAcc (pa_guid a) (pa_slot a) (pa_name a) (pa_pubkey a) (pa_curve a) (pa_cak a) (Some b))
  else if tag_optional tag then
    let! _ := get_string8 in
    rd_ret a
  else rd_lift (Err (Wire (UnknownEboxPartTag tag))).

Definition part_finish (a : PartAcc) : res BoxError EboxPart :=
  let* piv_box := ok_or (pa_box a) (Wire MissingBox) in
  Ok (MkPart (pa_guid a) (pa_slot a) (pa_name a) (pa_pubkey a) (pa_curve a) (pa_cak a) piv_box).

Definition read_ebox_part (version : Z) : Rd EboxPart :=
  let! a := read_tagged (part_field version) part_acc_new in
  rd_lift (part_finish a).

Definition read_ebox_config (version : Z) : Rd EboxConfig :=
  let! config_type := get_config_type in
  let! n := get_u8 in
  let! m := get_u8 in
  let! nonce := get_string8 in
  let! parts := get_times (read_ebox_part version) (Z.to_nat m) in
  rd_ret (MkConfig config_type n nonce parts).

Definition read_ephemeral : Rd EphemeralKey :=
  let! curve := get_curve in
  let! pubkey := get_eckey8 in
  rd_ret (MkEphemeral curve pubkey).

Definition get_ebox_type : Rd EboxType :=
  let! etype_raw := get_u8 in
  let! ebox_type := rd_lift (ebox_type_from_u8 etype_raw) in
  if bool_decide (ebox_type = TypeTemplate) then rd_lift (Err (BadEboxType etype_raw))
  else rd_ret ebox_type.

(** [Ebox::read_from] *)
Definition read_from : Rd Ebox :=
  let! magic := get_magic in
  if negb (magic =? EBOX_MAGIC) then rd_lift (Err (BadMagic EBOX_MAGIC magic)) else
  let! version := get_u8 in
  let! ebox_type := get_ebox_type in
  let! recovery_cipher := get_cstring8 in
  let! recovery_iv := get_string8 in
  let! recovery_enc := get_string8 in
  let! ephemeral_keys := (if 2 <=? version then
                            let! neeks := get_u8 in
                            get_times read_ephemeral (Z.to_nat neeks)
                          else rd_ret []) in
  let! nconfigs := get_u8 in
  let! configs := get_times (read_ebox_config version) (Z.to_nat nconfigs) in
  rd_ret (MkEbox version ebox_type recovery_cipher recovery_iv recovery_enc ephemeral_keys
            configs None).

Definition ebox_from_bytes (data : bytes) : res BoxError Ebox := parse_all read_from data.

(** ** The codecs *)

(** What the inline form of a box carries. *)
Record inline_ok (b : PivBox) : Prop := {
  io_cipher : cstr_ok (cipher b);
  io_kdf : cstr_ok (kdf b);
  io_nonce : len (nonce b) <= 255;
  io_recipient : len (recipient_pubkey b) <= 255;
  io_iv : len (iv b) <= 255;
  io_ciphertext : len (ciphertext b) < 2 ^ 32;
}.

Record part_ok (p : EboxPart) : Prop := {
  po_guid : opt_all guid_ok (ep_guid p);
  po_slot : byte_ok (ep_slot p);
  po_name : opt_all cstr_ok (ep_name p);
  po_cak : opt_all (fun k => len k < 2 ^ 32) (ep_cak p);
  po_box : inline_ok (piv_box p);
}.

Definition enc_inline (b : PivBox) : bytes :=
  enc8 (cipher b) ++ enc8 (kdf b) ++ enc8 (nonce b) ++ enc8 (wire_name (curve b))
  ++ enc8 (recipient_pubkey b) ++ enc8 (iv b) ++ enc32 (ciphertext b).

(** What comes back of an inline box: the format's own version, the card
    rebuilt from the part's GUID and slot, no ephemeral key and no plaintext. *)
Definition inline_view (guid : option Guid) (slot : Z) (b : PivBox) : PivBox :=
  MkBox BOX_VERSION ((fun g => (g, slot)) <$> guid) (cipher b) (kdf b) (nonce b) (curve b)
    (recipient_pubkey b) [] (iv b) (ciphertext b) None.

Definition part_fields (p : EboxPart) : list (Z * bytes) :=
  common_fields (ep_guid p) (ep_name p) (ep_cak p) (ep_slot p)
  ++ [(PART_BOX, enc_inline (piv_box p))].

(** The recipient's public key is not written. *)
Definition part_view (p : EboxPart) : EboxPart :=
  MkPart (ep_guid p) (ep_slot p) (ep_name p) None None (ep_cak p)
    (inline_view (ep_guid p) (ep_slot p) (piv_box p)).

#[export] Instance EboxPart_codec : WireCodec EboxPart := {
  wire_ok := part_ok;
  wire_enc p := enc_fields (part_fields p);
  wire_view := part_view;
  wire_put := write_ebox_part EBOX_VERSION;
  wire_get := read_ebox_part EBOX_VERSION;
}.

Record config_ok (c : EboxConfig) : Prop := {
  co_n : byte_ok (ec_n c);
  co_nonce : len (ec_nonce c) <= 255;
  co_count : len (ec_parts c) <= 255;
  co_parts : Forall part_ok (ec_parts c);
}.

Definition enc_config (c : EboxConfig) : bytes :=
  [config_type_u8 (ec_type c)] ++ [ec_n c] ++ [len (ec_parts c)] ++ enc8 (ec_nonce c)
  ++ enc_all (ec_parts c).

Definition config_view (c : EboxConfig) : EboxConfig := with_parts c (part_view <$> ec_parts c).

#[export] Instance EboxConfig_codec : WireCodec EboxConfig := {
  wire_ok := config_ok;
  wire_enc := enc_config;
  wire_view := config_view;
  wire_put := write_ebox_config EBOX_VERSION;
  wire_get := read_ebox_config EBOX_VERSION;
}.

#[export] Instance EphemeralKey_codec : WireCodec EphemeralKey := {
  wire_ok ek := len (ek_pubkey ek) <= 255;
  wire_enc ek := enc8 (wire_name (ek_curve ek)) ++ enc8 (ek_pubkey ek);
  wire_view ek := ek;
  wire_put := write_ephemeral;
  wire_get := read_ephemeral;
}.

(** Eboxes of the version [create] writes, within the format's one-byte
    lengths and counts. *)
Record ebox_ok (eb : Ebox) : Prop := {
  eo_version : eb_version eb = EBOX_VERSION;
  eo_type : eb_type eb <> TypeTemplate;
  eo_cipher : cstr_ok (eb_recovery_cipher eb);
  eo_iv : len (eb_recovery_iv eb) <= 255;
  eo_enc : len (eb_recovery_enc eb) <= 255;
  eo_eks_count : len (eb_ephemeral_keys eb) <= 255;
  eo_eks : Forall (fun ek => len (ek_pubkey ek) <= 255) (eb_ephemeral_keys eb);
  eo_count : len (eb_configs eb) <= 255;
  eo_configs : Forall config_ok (eb_configs eb);
}.

Definition enc_ebox (eb : Ebox) : bytes :=
  [0xEB; 0x0C] ++ [EBOX_VERSION] ++ [ebox_type_u8 (eb_type eb)]
  ++ enc8 (eb_recovery_cipher eb) ++ enc8 (eb_recovery_iv eb) ++ enc8 (eb_recovery_enc eb)
  ++ [len (eb_ephemeral_keys eb)] ++ enc_all (eb_ephemeral_keys eb)
  ++ [len (eb_configs eb)] ++ enc_all (eb_configs eb).

(** The key never goes on the wire. *)
Definition ebox_view (eb : Ebox) : Ebox :=
  MkEbox (eb_version eb) (eb_type eb) (eb_recovery_cipher eb) (eb_recovery_iv eb)
    (eb_recovery_enc eb) (eb_ephemeral_keys eb) (config_view <$> eb_configs eb) None.

#[export] Instance Ebox_codec : WireCodec Ebox := {
  wire_ok := ebox_ok;
  wire_enc := enc_ebox;
  wire_view := ebox_view;
  wire_put := put_ebox;
  wire_get := read_from;
}.

(** ** Lemmas on the wire form *)

Lemma writes_part p :
  part_ok p -> writes (fun w => write_ebox_part EBOX_VERSION w p) (enc_fields (part_fields p)).
Proof.
  intros [Hg Hs Hn Hk []] w. unfold write_ebox_part, put_part_box. simpl (2 <=? _). cbv iota.
  rewrite put_part_guid_Ok by assumption. simpl res_bind.
  rewrite put_part_name_Ok by assumption. simpl res_bind.
  rewrite put_part_cak_Ok, put_part_slot_Ok by assumption. unfold put_u8.
  do 2 (rewrite put_cstring8_Ok by assumption; simpl res_bind).
  rewrite put_string8_Ok by assumption. simpl res_bind.
  rewrite put_cstring8_Ok by apply wire_name_cstr. simpl res_bind.
  rewrite put_eckey8_Ok by assumption. simpl res_bind.
  rewrite put_string8_Ok by assumption. simpl res_bind. rewrite put_string_Ok by assumption.
  rewrite !put_raw_app. do 2 f_equal. unfold part_fields, common_fields, enc_inline.
  rewrite enc_fields_flat, !enc_flat_app, enc_flat_cons, <- !app_assoc. reflexivity.
Qed.

Lemma reads_inline guid slot b :
  inline_ok b ->
  reads (get_part_box EBOX_VERSION guid slot) (inline_view guid slot b) (enc_inline b).
Proof.
  intros []. unfold get_part_box, enc_inline. simpl (2 <=? _). cbv iota.
  reads_field (cipher b). reads_field (kdf b). reads_field (nonce b). reads_field (curve b).
  reads_field (recipient_pubkey b). reads_field (iv b).
  apply reads_bind_last with (ciphertext b); [eauto with wire|apply reads_ret].
Qed.

Lemma reads_part p :
  part_ok p -> reads (read_ebox_part EBOX_VERSION) (part_view p) (enc_fields (part_fields p)).
Proof.
  intros [Hg Hs Hn Hk Hb].
  apply reads_bind_last with
    (MkPartAcc (ep_guid p) (ep_slot p) (ep_name p) None None (ep_cak p)
       (Some (inline_view (ep_guid p) (ep_slot p) (piv_box p)))); [|now apply reads_lift].
  apply reads_tagged. unfold part_fields, common_fields. rewrite <- !app_assoc.
  read_opt (fun g => MkPartAcc g DEFAULT_SLOT None None None None None).
  read_opt (fun n => MkPartAcc (ep_guid p) DEFAULT_SLOT n None None None None).
  read_opt (fun k => MkPartAcc (ep_guid p) DEFAULT_SLOT (ep_name p) None None k None).
  apply fields_slot with (upd := fun s =>
    MkPartAcc (ep_guid p) s (ep_name p) None None (ep_cak p) None).
  { apply reads_bind_last with (ep_slot p); [apply reads_u8|apply reads_ret]. }
  econstructor; [discriminate| |constructor].
  apply reads_bind_last with (inline_view (ep_guid p) (ep_slot p) (piv_box p));
    [now apply reads_inline|apply reads_ret].
Qed.

#[export] Instance EboxPart_codec_laws : WireCodecLaws EboxPart.
Proof. split; [apply writes_part|apply reads_part]. Qed.

Lemma writes_config c :
  config_ok c -> writes (fun w => write_ebox_config EBOX_VERSION w c) (enc_config c).
Proof.
  intros [Hn Hnonce Hcount Hparts] w. unfold write_ebox_config, put_u8, config_m.
  rewrite u8_small by (unfold byte_ok; pose proof (len_nonneg (ec_parts c)); lia).
  assert (Hno : forall w, (if negb (bool_decide (ec_nonce c = [])) then put_string8 w (ec_nonce c)
                 else Ok (put_raw w [0])) = Ok (put_raw w (enc8 (ec_nonce c)))).
  { intros w'. destruct (bool_decide_reflect (ec_nonce c = [])) as [->|]; simpl;
      [reflexivity|now apply put_string8_Ok]. }
  rewrite Hno. simpl res_bind. rewrite !put_raw_app.
  pose proof (writes_all (ec_parts c) Hparts) as Hw. unfold writes in Hw. simpl in Hw.
  rewrite Hw, put_raw_app.
  unfold enc_config. now rewrite <- !app_assoc.
Qed.

Lemma reads_config c :
  config_ok c -> reads (read_ebox_config EBOX_VERSION) (config_view c) (enc_config c).
Proof.
  intros [Hn Hnonce Hcount Hparts]. unfold read_ebox_config, enc_config.
  reads_field (ec_type c). reads_field (ec_n c). reads_field (len (ec_parts c)).
  reads_field (ec_nonce c). unfold len at 1. rewrite Nat2Z.id.
  apply reads_bind_last with (part_view <$> ec_parts c); [|apply reads_ret].
  exact (reads_all (ec_parts c) Hparts).
Qed.

#[export] Instance EboxConfig_codec_laws : WireCodecLaws EboxConfig.
Proof. split; [apply writes_config|apply reads_config]. Qed.

#[export] Instance EphemeralKey_codec_laws : WireCodecLaws EphemeralKey.
Proof.
  split; intros [c k] Hk; simpl in Hk.
  - intros w. change (write_ephemeral w (MkEphemeral c k)
      = Ok (put_raw w (enc8 (wire_name c) ++ enc8 k))). unfold write_ephemeral. simpl. rewrite put_cstring8_Ok by apply wire_name_cstr.
    simpl res_bind. rewrite put_eckey8_Ok by assumption. now rewrite put_raw_app.
  - change (reads read_ephemeral (MkEphemeral c k) (enc8 (wire_name c) ++ enc8 k)).
    reads_field c. apply reads_bind_last with k; [eauto with wire|apply reads_ret].
Qed.

Lemma ebox_type_roundtrip t : ebox_type_from_u8 (ebox_type_u8 t) = Ok t.
Proof. now destruct t. Qed.

Lemma reads_ebox_type t :
  t <> TypeTemplate -> reads get_ebox_type t [ebox_type_u8 t].
Proof.
  intros Ht. apply reads_bind_last with (ebox_type_u8 t); [apply reads_u8|].
  apply reads_bind_nil with t; [apply reads_lift, ebox_type_roundtrip|].
  rewrite bool_decide_false by exact Ht. apply reads_ret.
Qed.

Lemma writes_ebox eb : ebox_ok eb -> writes (fun w => put_ebox w eb) (enc_ebox eb).
Proof.
  intros [Hv Ht Hc Hi He Hek Heks Hn Hcs] w. unfold put_ebox, put_u8. rewrite Hv.
  simpl (2 <=? _). cbv iota. rewrite !put_raw_app.
  rewrite put_cstring8_Ok by assumption. simpl res_bind.
  do 2 (rewrite put_string8_Ok by assumption; simpl res_bind).
  rewrite (u8_small (len (eb_ephemeral_keys eb))), (u8_small (len (eb_configs eb)))
    by (unfold byte_ok; split; [apply len_nonneg|lia]).
  pose proof (writes_all (eb_ephemeral_keys eb) Heks) as Hw1.
  pose proof (writes_all (eb_configs eb) Hcs) as Hw2. unfold writes in Hw1, Hw2. simpl in Hw1, Hw2.
  rewrite Hw1. simpl res_bind. rewrite !put_raw_app, Hw2, put_raw_app. unfold enc_ebox.
  now rewrite <- !app_assoc.
Qed.

Lemma reads_ebox eb : ebox_ok eb -> reads read_from (ebox_view eb) (enc_ebox eb).
Proof.
  intros [Hv Ht Hc Hi He Hek Heks Hn Hcs]. unfold read_from, enc_ebox.
  apply reads_bind with EBOX_MAGIC; [apply (reads_magic 0xEB 0x0C)|]. simpl negb. cbv iota.
  reads_field EBOX_VERSION. apply reads_bind with (eb_type eb); [now apply reads_ebox_type|].
  reads_field (eb_recovery_cipher eb). reads_field (eb_recovery_iv eb).
  reads_field (eb_recovery_enc eb). simpl (2 <=? _). cbv iota. rewrite app_assoc.
  apply reads_bind with (eb_ephemeral_keys eb).
  { reads_field (len (eb_ephemeral_keys eb)). unfold len. rewrite Nat2Z.id.
    exact (reads_all_id (eb_ephemeral_keys eb) (fun _ => eq_refl) Heks). }
  reads_field (len (eb_configs eb)). unfold len. rewrite Nat2Z.id.
  apply reads_bind_last with (config_view <$> eb_configs eb);
    [exact (reads_all (eb_configs eb) Hcs)|].
  unfold ebox_view. rewrite Hv. apply reads_ret.
Qed.

#[export] Instance Ebox_codec_laws : WireCodecLaws Ebox.
Proof. split; [apply writes_ebox|apply reads_ebox]. Qed.

Ltac safe_field := eapply safe_bind; [apply good_safe; eauto with wire|intros ? ?].

(** No ebox, of any version, makes the parser panic. *)
Lemma safe_part_box v guid slot : safe (get_part_box v guid slot) (fun _ => True).
Proof.
  unfold get_part_box. case_match.
  - do 7 safe_field. now apply safe_ret.
  - intros r Hr. unfold rest. rewrite slice_from_Ok by apply Hr. simpl.
    assert (Hb : bytes_ok (zdrop (rd_pos r) (rd_data r))) by (apply bytes_ok_zdrop, Hr).
    pose proof (parse_all_safe _ _ _ (proj1 good_box) Hb) as Hs.
    unfold box_from_bytes. destruct (parse_all get_box _) as [b|e|]; simpl.
    + split; [discriminate|]. intros x r' [= <- <-]. destruct Hr as [Hr _].
      repeat split; lia.
    + split; [discriminate|discriminate].
    + now destruct Hs.
Qed.

Lemma safe_part_field v tag a : safe (part_field v tag a) (fun _ => True).
Proof.
  unfold part_field. repeat case_match;
    try (eapply safe_bind; [apply safe_part_box|intros ? ?]);
    repeat safe_field; solve [now apply safe_ret | apply good_safe, good_err].
Qed.

Lemma safe_ebox_part v : safe (read_ebox_part v) (fun _ => True).
Proof.
  eapply safe_bind; [apply (safe_tagged (part_field v) (fun _ => True))|].
  - intros. apply safe_part_field.
  - trivial.
  - intros a _. apply safe_lift; [|trivial]. unfold part_finish.
    destruct (pa_box a); discriminate.
Qed.

Lemma safe_ebox_config v : safe (read_ebox_config v) (fun _ => True).
Proof.
  unfold read_ebox_config. do 4 safe_field.
  eapply safe_bind; [apply safe_times, safe_ebox_part|]. intros. now apply safe_ret.
Qed.

Lemma safe_read_ephemeral : safe read_ephemeral (fun _ => True).
Proof. unfold read_ephemeral. do 2 safe_field. now apply safe_ret. Qed.

Lemma safe_ebox_type : safe get_ebox_type (fun _ => True).
Proof.
  unfold get_ebox_type. safe_field.
  eapply safe_bind; [apply safe_lift with (Q := fun _ => True)|intros t _].
  - unfold ebox_type_from_u8. repeat case_match; discriminate.
  - trivial.
  - case_match; [apply good_safe, good_err|now apply safe_ret].
Qed.

Lemma safe_ebox : safe read_from (fun eb => eb_key eb = None).
Proof.
  unfold read_from. safe_field. case_match; [apply good_safe, good_err|]. safe_field.
  eapply safe_bind; [apply safe_ebox_type|intros ? _]. do 3 safe_field.
  eapply safe_bind with (Q := fun _ => True).
  { case_match; [|now apply safe_ret]. safe_field.
    eapply safe_weaken; [|apply safe_times, safe_read_ephemeral]. trivial. }
  intros ? _. safe_field. eapply safe_bind; [apply safe_times, safe_ebox_config|].
  intros ? _. now apply safe_ret.
Qed.

(** ** What [create] builds *)

Lemma index_inv {E A} (l : list A) i x :
  index (E := E) l i = Ok x -> 0 <= i /\ l !! Z.to_nat i = Some x.
Proof.
  unfold index. destruct (_ && _) eqn:Hb; [|discriminate]. bprop.
  destruct (l !! Z.to_nat i); [|discriminate]. intros [= ->]. auto.
Qed.

Section Created.
Context (C : Crypto) (L : CryptoLaws C).

Definition find_priv (es : Ephemerals C) (c : EcCurve) : option (ec_priv C) :=
  snd <$> List.find (fun cp => bool_decide (fst cp = c)) (ephem_privkeys es).

(** The ebox-level ephemeral key of a curve. *)
Definition find_ephemeral (eks : list EphemeralKey) (c : EcCurve) : option bytes :=
  ek_pubkey <$> List.find (fun ek => bool_decide (ek_curve ek = c)) eks.

(** The public halves are those of the private ones, in the same order, one
    per curve. *)
Definition eph_pair (ek : EphemeralKey) (cp : EcCurve * ec_priv C) : Prop :=
  ek_curve ek = fst cp /\ ec_compressed C (fst cp) (ec_public C (snd cp)) = Ok (ek_pubkey ek).

Record eph_ok (es : Ephemerals C) : Prop := {
  eph_pairs : Forall2 eph_pair (ephemeral_keys es) (ephem_privkeys es);
  eph_nodup : NoDup (ek_curve <$> ephemeral_keys es);
}.

Definition eph_extends (es es' : Ephemerals C) : Prop :=
  forall c e, find_priv es c = Some e -> find_priv es' c = Some e.

Lemma eph_pairs_find eks cps c :
  Forall2 eph_pair eks cps ->
  match List.find (fun cp => bool_decide (fst cp = c)) cps with
  | Some cp => exists pk, find_ephemeral eks c = Some pk /\
                 ec_compressed C c (ec_public C (snd cp)) = Ok pk
  | None => c ∉ (ek_curve <$> eks)
  end.
Proof.
  unfold find_ephemeral. induction 1 as [|ek cp eks cps [H1 H2] _ IH]; simpl; [apply not_elem_of_nil|].
  rewrite H1. destruct (bool_decide_reflect (fst cp = c)) as [<-|Hne].
  - exists (ek_pubkey ek). auto.
  - destruct (List.find _ cps); [exact IH|]. apply not_elem_of_cons. auto.
Qed.

Lemma find_priv_ephemeral es c e :
  eph_ok es -> find_priv es c = Some e ->
  exists pk, find_ephemeral (ephemeral_keys es) c = Some pk /\
    ec_compressed C c (ec_public C e) = Ok pk.
Proof.
  intros [Hp _] He. pose proof (eph_pairs_find _ _ c Hp) as H. unfold find_priv in He.
  destruct (List.find _ _) as [cp|]; [|discriminate]. injection He as <-. exact H.
Qed.

Lemma find_app {A} (f : A -> bool) l k :
  List.find f (l ++ k) = match List.find f l with Some x => Some x | None => List.find f k end.
Proof. induction l as [|x l IH]; simpl; [reflexivity|]. now destruct (f x). Qed.

Lemma get_or_create_spec c es g e es' g' :
  eph_ok es -> get_or_create_ephemeral C c es g = Ok (e, es', g') ->
  eph_ok es' /\ eph_extends es es' /\ find_priv es' c = Some e.
Proof.
  intros Hes. unfold get_or_create_ephemeral.
  pose proof (eph_pairs_find _ _ c (eph_pairs es Hes)) as Hf.
  destruct (List.find _ (ephem_privkeys es)) as [cp|] eqn:Hfind.
  - intros [= <- <- <-]. split; [exact Hes|]. split; [now intros ?|].
    unfold find_priv. now rewrite Hfind.
  - intros H. apply res_bind_Ok_inv in H as ([k g1] & _ & H).
    apply res_bind_Ok_inv in H as (pk & Hpk & H). injection H as <- <- <-.
    destruct Hes as [Hp Hd]. repeat split; simpl.
    + apply Forall2_app; [exact Hp|]. repeat constructor. exact Hpk.
    + rewrite fmap_app. apply list.NoDup_app. split; [exact Hd|]. split; [|apply NoDup_singleton].
      simpl. intros x Hx Hx'%list_elem_of_singleton. now subst.
    + intros c' e'. unfold find_priv. simpl. rewrite find_app.
      intros Hc. destruct (List.find (fun cp => bool_decide (fst cp = c')) (ephem_privkeys es));
        [exact Hc|discriminate Hc].
    + unfold find_priv. simpl. rewrite find_app, Hfind. simpl.
      now rewrite bool_decide_true by reflexivity.
Qed.

(** A part that carries [m] for the key of the template part. *)
Record sealed_part (es : Ephemerals C) (tp : EboxTplPart) (m : bytes) (p : EboxPart) : Prop := {
  sp_guid : ep_guid p = tp_guid tp;
  sp_slot : ep_slot p = tp_slot tp;
  sp_name : ep_name p = tp_name tp;
  sp_cak : ep_cak p = tp_cak tp;
  sp_seal : exists e r b0 n i,
    find_priv es (tp_pubkey_curve tp) = Some e /\
    ec_from_bytes C (tp_pubkey_curve tp) (tp_pubkey tp) = Ok r /\
    b0 = set_data (with_guid_slot (box_new (tp_pubkey_curve tp))
           ((fun g => (g, tp_slot tp)) <$> tp_guid tp)) m /\
    len n = NONCE_LEN /\ seal_pinned C b0 r e n i = Ok (piv_box p);
}.

Lemma sealed_part_extends es es' tp m p :
  eph_extends es es' -> sealed_part es tp m p -> sealed_part es' tp m p.
Proof.
  intros He [H1 H2 H3 H4 (e & r & b0 & n & i & Hf & H)]. split; auto.
  exists e, r, b0, n, i. split; [now apply He|exact H].
Qed.

Lemma create_part_spec key shares i tp es g p es' g' :
  eph_ok es -> create_part C key shares i tp es g = Ok (p, es', g') ->
  eph_ok es' /\ eph_extends es es' /\
  exists m, sealed_part es' tp m p /\
    match shares with
    | Some ss => 0 <= i /\ ss !! Z.to_nat i = Some m
    | None => m = key
    end.
Proof.
  intros Hes H. unfold create_part in H.
  apply res_bind_Ok_inv in H as ([[e es1] g1] & He & H).
  apply res_bind_Ok_inv in H as (r & Hr & H). apply res_bind_Ok_inv in H as (m & Hm & H).
  apply res_bind_Ok_inv in H as ([b g2] & Hseal & H). injection H as <- <- <-.
  destruct (get_or_create_spec _ _ _ _ _ _ Hes He) as (H1 & H2 & H3).
  split; [exact H1|]. split; [exact H2|]. exists m. split.
  - split; try reflexivity. unfold seal_offline_with_ephemeral in Hseal.
    apply res_bind_Ok_inv in Hseal as ([n g3] & Hn & Hseal).
    apply res_bind_Ok_inv in Hseal as ([iv g4] & Hiv & Hseal).
    apply res_bind_Ok_inv in Hseal as (b1 & Hseal & Heq). injection Heq as -> ->.
    destruct (rand_len C L NONCE_LEN _ _ _ ltac:(now vm_compute) Hn) as [Hnl _].
    eexists e, r, _, n, iv. simpl. repeat split; eauto.
  - destruct shares as [ss|]; [now apply index_inv in Hm|now injection Hm].
Qed.

Lemma create_parts_spec key shares tps : forall i es g ps es' g',
  eph_ok es -> 0 <= i -> create_parts C key shares i tps es g = Ok (ps, es', g') ->
  eph_ok es' /\ eph_extends es es' /\
  exists ms, Forall3 (sealed_part es') tps ms ps /\
    match shares with
    | Some ss => forall j m, ms !! j = Some m -> ss !! (Z.to_nat i + j)%nat = Some m
    | None => Forall (eq key) ms
    end.
Proof.
  induction tps as [|tp tps IH]; intros i es g ps es' g' Hes Hi H; simpl in H.
  - injection H as <- <- <-. split; [exact Hes|]. split; [now intros ?|].
    exists []. split; [constructor|]. destruct shares; [intros j m Hm; now rewrite lookup_nil in Hm|constructor].
  - apply res_bind_Ok_inv in H as ([[p es1] g1] & Hp & H).
    apply res_bind_Ok_inv in H as ([[ps1 es2] g2] & Hps & H). injection H as <- <- <-.
    destruct (create_part_spec _ _ _ _ _ _ _ _ _ Hes Hp) as (Ho1 & Hx1 & m & Hm & Hmv).
    assert (Hi1 : 0 <= i + 1) by lia.
    destruct (IH _ _ _ _ _ _ Ho1 Hi1 Hps) as (Ho2 & Hx2 & ms & Hms & Hmsv).
    split; [exact Ho2|]. split; [intros c e Hc; now apply Hx2, Hx1|].
    exists (m :: ms). split.
    + constructor; [now apply sealed_part_extends with es1|exact Hms].
    + destruct shares as [ss|]; [|now constructor].
      destruct Hmv as [_ Hmv]. intros [|j] x; simpl.
      * intros [= <-]. now rewrite Nat.add_0_r.
      * intros Hx. rewrite <- (Hmsv j x Hx). f_equal. lia.
Qed.

(** The messages the parts of a config carry: the key itself in a PRIMARY
    config, the shares of the masked recovery key in a RECOVERY one. *)
Definition config_msgs (key recovery_key : bytes) (c : EboxTplConfig) (nonce : bytes)
    (ms : list bytes) : Prop :=
  match tc_type c with
  | Primary => nonce = [] /\ Forall (eq key) ms
  | Recovery =>
      len nonce = 32 /\ bytes_ok nonce /\
      exists g, ms = fst (shamir_deal C (tc_n c) (xor_bytes nonce recovery_key) (length (tc_parts c)) g)
  end.

Record sealed_config (es : Ephemerals C) (key recovery_key : bytes) (tc : EboxTplConfig)
    (c : EboxConfig) : Prop := {
  sc_type : ec_type c = tc_type tc;
  sc_n : ec_n c = tc_n tc;
  sc_parts : exists ms, Forall3 (sealed_part es) (tc_parts tc) ms (ec_parts c) /\
               config_msgs key recovery_key tc (ec_nonce c) ms;
}.

Lemma prefix_eq {A} (ms ss : list A) :
  (forall j m, ms !! j = Some m -> ss !! j = Some m) -> (length ss <= length ms)%nat -> ms = ss.
Proof.
  revert ss. induction ms as [|m ms IH]; intros [|x ss] H Hl; simpl in *; [reflexivity|lia| |].
  - now specialize (H 0%nat m eq_refl).
  - pose proof (H 0%nat m eq_refl) as Hx. injection Hx as ->. f_equal.
    apply IH; [intros j y Hj; exact (H (S j) y Hj)|lia].
Qed.

Lemma create_config_spec key rk tc es g c es' g' :
  eph_ok es -> create_config C key rk tc es g = Ok (c, es', g') ->
  eph_ok es' /\ eph_extends es es' /\ sealed_config es' key rk tc c.
Proof.
  intros Hes H. unfold create_config in H.
  apply res_bind_Ok_inv in H as ([[nonce shares] g1] & Hd & H).
  apply res_bind_Ok_inv in H as ([[ps es1] g2] & Hps & H). injection H as <- <- <-.
  destruct (create_parts_spec _ _ _ _ _ _ _ _ _ Hes (Z.le_refl 0) Hps) as (Ho & Hx & ms & Hms & Hv).
  split; [exact Ho|]. split; [exact Hx|]. split; try reflexivity. exists ms.
  split; [exact Hms|]. unfold config_msgs. simpl. unfold deal_shares in Hd.
  destruct (tc_type tc); simpl in Hd.
  - injection Hd as <- <- <-. split; [reflexivity|exact Hv].
  - apply res_bind_Ok_inv in Hd as ([n g3] & Hn & Hd).
    destruct (shamir_deal C _ _ _ g3) as [ss g4] eqn:Hdeal. injection Hd as <- <- <-.
    destruct (rand_len C L 32 _ _ _ ltac:(lia) Hn) as [Hl Hb]. split; [exact Hl|]. split; [exact Hb|].
    exists g3. pose proof (Forall3_length_lm _ _ _ _ Hms) as Hlen.
    assert (Heq : ms = ss).
    { apply prefix_eq; [exact Hv|].
      pose proof (proj1 (shamir_dealt C L (tc_n tc) (xor_bytes n rk)
        (Z.to_nat (u8 (len (tc_parts tc)))) g3)) as Hss. rewrite Hdeal in Hss. simpl in Hss.
      rewrite Hss, <- Hlen. unfold u8, len.
      pose proof (Z.mod_le (Z.of_nat (length (tc_parts tc))) (2 ^ 8)). lia. }
    subst ms. pose proof (proj1 (shamir_dealt C L (tc_n tc) (xor_bytes n rk)
        (Z.to_nat (u8 (len (tc_parts tc)))) g3)) as Hss. rewrite Hdeal in Hss. simpl in Hss.
    rewrite Hlen, Hss, Hdeal. reflexivity.
Qed.

Lemma sealed_config_extends es es' key rk tc c :
  eph_extends es es' -> sealed_config es key rk tc c -> sealed_config es' key rk tc c.
Proof.
  intros He [H1 H2 (ms & H3 & H4)]. split; auto. exists ms. split; [|exact H4].
  eapply Forall3_impl; [exact H3|]. intros ? ? ?. now apply sealed_part_extends.
Qed.

Lemma create_configs_spec key rk tcs : forall es g cs es' g',
  eph_ok es -> create_configs C key rk tcs es g = Ok (cs, es', g') ->
  eph_ok es' /\ eph_extends es es' /\ Forall2 (sealed_config es' key rk) tcs cs.
Proof.
  induction tcs as [|tc tcs IH]; intros es g cs es' g' Hes H; simpl in H.
  - injection H as <- <- <-. split; [exact Hes|]. split; [now intros ?|constructor].
  - apply res_bind_Ok_inv in H as ([[c es1] g1] & Hc & H).
    apply res_bind_Ok_inv in H as ([[cs1 es2] g2] & Hcs & H). injection H as <- <- <-.
    destruct (create_config_spec _ _ _ _ _ _ _ _ Hes Hc) as (Ho1 & Hx1 & Hs1).
    destruct (IH _ _ _ _ _ Ho1 Hcs) as (Ho2 & Hx2 & Hs2).
    split; [exact Ho2|]. split; [intros x e Hx; now apply Hx2, Hx1|].
    constructor; [now apply sealed_config_extends with es1|exact Hs2].
Qed.

(** Everything [create] promises of the ebox it returns. *)
Record created (tpl : EboxTemplate) (key : bytes) (t : EboxType) (eb : Ebox) : Prop := {
  cr_version : eb_version eb = EBOX_VERSION;
  cr_type : eb_type eb = t;
  cr_cipher : eb_recovery_cipher eb = RECOVERY_CIPHER;
  cr_key : eb_key eb = None;
  cr_body : exists es rk g plain g',
    ephemeral_keys es = eb_ephemeral_keys eb /\ eph_ok es /\
    len rk = 32 /\ bytes_ok rk /\ recovery_plaintext key = Ok plain /\
    aes256_gcm_encrypt C rk plain g = Ok (eb_recovery_enc eb, eb_recovery_iv eb, g') /\
    Forall2 (sealed_config es key rk) (tpl_configs tpl) (eb_configs eb);
}.

Lemma create_created tpl key t g eb g' :
  create C tpl key t g = Ok (eb, g') -> created tpl key t eb.
Proof.
  intros H. unfold create in H. apply res_bind_Ok_inv in H as ([rk g1] & Hrk & H).
  apply res_bind_Ok_inv in H as (plain & Hp & H).
  apply res_bind_Ok_inv in H as ([[enc iv] g2] & Henc & H).
  apply res_bind_Ok_inv in H as ([[cs es] g3] & Hcs & H). injection H as <- <-.
  assert (H0 : eph_ok (MkEphemerals (C := C) [] [])) by (split; constructor).
  destruct (create_configs_spec _ _ _ _ _ _ _ _ H0 Hcs) as (Ho & _ & Hs).
  destruct (rand_len C L 32 _ _ _ ltac:(lia) Hrk) as [Hl Hb].
  split; try reflexivity. exists es, rk, g1, plain, g2. simpl. repeat (split; [assumption || reflexivity|]).
  exact Hs.
Qed.
End Created.

(** ** Opening and recovering a created ebox *)

Section Opened.
Context (C : Crypto) (L : CryptoLaws C).

(** The holder of a part's key opens its box, whatever copy of it the wire
    gave back, with the ephemeral key the ebox stores for the curve. *)
Lemma sealed_part_open es eks tp m p priv b :
  eph_ok C es -> ephemeral_keys es = eks -> sealed_part C es tp m p ->
  ec_from_bytes C (curve (piv_box p)) (recipient_pubkey (piv_box p)) = Ok (ec_public C priv) ->
  nonce b = nonce (piv_box p) -> iv b = iv (piv_box p) -> ciphertext b = ciphertext (piv_box p) ->
  exists pk pub s,
    find_ephemeral eks (curve (piv_box p)) = Some pk /\
    ec_compressed C (curve (piv_box p)) pub = Ok pk /\
    ec_derive C priv pub = Ok s /\
    open_with_secret C b s = Ok (with_plaintext b (Some m)).
Proof.
  intros Hes <- Hsp Hpriv Hn Hi Hc.
  destruct (sp_seal _ _ _ _ _ Hsp) as (e & r & b0 & n & i & He & Hr & Hb0 & _ & Hseal).
  destruct (find_priv_ephemeral C es _ e Hes He) as (pk & Hpk & Hcomp).
  destruct (seal_pinned_inv C L _ _ _ _ _ _ Hseal)
    as (m' & s & Hm & Hs & Hrp & _ & _ & _ & _ & Hcu & _).
  rewrite Hb0 in Hm, Hcu, Hrp. simpl in Hm, Hcu, Hrp. injection Hm as <-.
  rewrite Hcu in *. rewrite (ec_from_compressed C L _ _ _ Hrp) in Hpriv. injection Hpriv as ->.
  exists pk, (ec_public C e), s. repeat (split; [assumption|]).
  split; [now apply (ec_agree C L)|].
  rewrite (open_sealed C L _ _ _ _ _ _ b s Hseal Hs Hn Hi Hc). now rewrite Hb0.
Qed.

Lemma gcm_roundtrip_bytes key plain g ct iv g' :
  aes256_gcm_encrypt C key plain g = Ok (ct, iv, g') ->
  aes256_gcm_decrypt C key iv ct = Ok plain.
Proof.
  unfold aes256_gcm_encrypt, aes256_gcm_decrypt. intros H.
  apply res_bind_Ok_inv in H as ([i g1] & _ & H).
  apply res_bind_Ok_inv in H as ([c tag] & Henc & H). injection H as <- <- <-.
  destruct (gcm_tag C L _ _ _ _ _ Henc) as (Ht & _). pose proof (len_nonneg c).
  rewrite len_app, Ht. zbool. rewrite usub_Ok by lia. simpl.
  replace (len c + 16 - 16) with (len c) by lia.
  rewrite slice_Ok by (rewrite ?len_app; lia). simpl. rewrite Z.sub_0_r, zdrop_0, ztake_app.
  rewrite slice_from_Ok by (rewrite len_app; lia). simpl. rewrite zdrop_app.
  now rewrite (gcm_roundtrip C L _ _ _ _ _ Henc).
Qed.

Lemma parse_recovery_ok key plain :
  recovery_plaintext key = Ok plain -> parse_recovery plain = Ok key.
Proof.
  unfold recovery_plaintext. intros H. apply res_bind_Ok_inv in H as (w & Hw & H).
  injection H as <-. destruct (Z.leb_spec (len key) 255) as [Hl|Hl].
  - rewrite put_string8_Ok in Hw by exact Hl. injection Hw as <-.
    change (into_bytes _) with ([RECOV_KEY] ++ enc8 key). unfold parse_recovery.
    rewrite <- (app_nil_r ([RECOV_KEY] ++ enc8 key)). rewrite (parse_all_reads _ (Some key)); [reflexivity|].
    apply reads_while, loops_done. apply reads_bind with RECOV_KEY; [apply reads_u8|].
    apply reads_bind_last with key; [apply reads_string8|]. apply reads_ret.
  - rewrite put_string8_Err in Hw by exact Hl. discriminate.
Qed.

Lemma xor_bytes_cancel a b :
  length a = length b -> xor_bytes (xor_bytes a b) a = b.
Proof.
  revert b. induction a as [|x a IH]; intros [|y b] H; try discriminate; [reflexivity|].
  simpl. f_equal; [|apply IH; now injection H].
  rewrite (Z.lxor_comm x y), Z.lxor_assoc, Z.lxor_nilpotent. apply Z.lxor_0_r.
Qed.

Lemma len_xor_bytes a b : length a = length b -> len (xor_bytes a b) = len a.
Proof. intros H. unfold len, xor_bytes. rewrite length_zip_with. lia. Qed.

(** A part as sealed, or opened to the message it carries. *)
Definition shut_or (m : bytes) (p : EboxPart) : Prop :=
  plaintext (piv_box p) = None \/ plaintext (piv_box p) = Some m.

Definition opened (ps : list EboxPart) : list EboxPart :=
  List.filter (fun p => has_plaintext (piv_box p)) ps.

Lemma collect_shares_ok ms ps :
  Forall2 shut_or ms ps -> Forall (fun s => shamir_parse C s = true) ms ->
  exists shares ps', collect_shares C ps = Ok (shares, ps') /\ sublist shares ms /\
    len shares = len (opened ps) /\ opened ps' = [].
Proof.
  induction 1 as [|m p ms ps Hp _ IH]; intros Hparse.
  - exists [], []. repeat split. constructor.
  - inversion Hparse; subst. destruct (IH ltac:(assumption)) as (shares & ps' & Hc & Hsub & Hl & Ho).
    cbn [collect_shares]. unfold opened in *. cbn [List.filter].
    unfold has_plaintext, take_data. destruct Hp as [Hp|Hp]; rewrite Hp.
    + rewrite Hc. simpl. exists shares, (p :: ps'). split; [reflexivity|].
      split; [now constructor|]. split; [exact Hl|].
      simpl. unfold has_plaintext. rewrite Hp. exact Ho.
    + simpl. rewrite Hc. simpl. match goal with H : shamir_parse C m = true |- _ => rewrite H end.
      eexists (m :: shares), _. split; [reflexivity|]. split; [now constructor|].
      split; [rewrite !len_cons; now f_equal|exact Ho].
Qed.

(** What the holders of a config's parts have made of the parts the wire
    gave back: each part is still shut, or opened with the private key of
    its recipient and the ephemeral key of its curve. *)
Inductive held (eb : Ebox) : EboxPart -> EboxPart -> Prop :=
| held_shut p : plaintext (piv_box p) = None -> held eb p p
| held_open p priv pk pub s b :
    ec_from_bytes C (curve (piv_box p)) (recipient_pubkey (piv_box p)) = Ok (ec_public C priv) ->
    find_ephemeral (eb_ephemeral_keys eb) (curve (piv_box p)) = Some pk ->
    ec_from_bytes C (curve (piv_box p)) pk = Ok pub ->
    ec_derive C priv pub = Ok s ->
    open_with_secret C (piv_box p) s = Ok b ->
    held eb p (with_box p b).

Lemma held_shut_or es eb tp m p p' :
  eph_ok C es -> ephemeral_keys es = eb_ephemeral_keys eb -> sealed_part C es tp m p ->
  held eb (part_view p) p' -> shut_or m p'.
Proof.
  intros Hes Heks Hsp Hh. inversion Hh; subst; simpl in *; [now left|].
  destruct (sealed_part_open es _ tp m p priv (piv_box (part_view p)) Hes Heks Hsp)
    as (pk' & pub' & s' & Hpk & Hpub & Hs & Hopen); try reflexivity; try assumption.
  apply (ec_from_compressed C L) in Hpub. simpl in Hopen.
  assert (pk' = pk) by congruence. subst pk'. assert (pub' = pub) by congruence. subst pub'.
  assert (s' = s) by congruence. subst s'. assert (b = _) by (eapply Ok_inj; etrans; [symmetry|];
    eassumption). subst b. now right.
Qed.
End Opened.

Section CreatedWire.
Context (C : Crypto) (L : CryptoLaws C).

Lemma sealed_part_ok es tp m p :
  tpl_part_ok tp -> len m <= 2 ^ 16 -> sealed_part C es tp m p -> part_ok p.
Proof.
  intros [Hg Hs Hn Hp Hk] Hm [Eg Es En Ek (e & r & b0 & n & i & _ & _ & Hb0 & Hnl & Hseal)].
  split; rewrite ?Eg, ?Es, ?En, ?Ek; try assumption.
  destruct (seal_pinned_inv C L _ _ _ _ _ _ Hseal)
    as (m' & s & Hm' & _ & Hrp & _ & Hn' & Hi' & Hil & _ & (km & _ & Hct) & _ & _ & Hci & Hkd).
  rewrite Hb0 in *. simpl in Hm', Hci, Hkd. injection Hm' as <-.
  split; rewrite ?Hci, ?Hkd, ?Hn', ?Hi', ?Hnl, ?Hil.
  - repeat split; vm_compute; discriminate.
  - repeat split; vm_compute; discriminate.
  - now vm_compute.
  - destruct (ec_compressed_form C L _ _ _ Hrp). lia.
  - now vm_compute.
  - unfold chacha20_poly1305_encrypt in Hct. destruct (negb _); [discriminate|].
    apply res_bind_Ok_inv in Hct as ([ct tag] & Henc & Heq). injection Heq as <-.
    destruct (chacha_tag C L _ _ _ _ _ Henc) as (Ht & Hl & _).
    rewrite len_app, Ht, Hl, len_pkcs7_pad by lia. pose proof (pad_len_bound m 16). lia.
Qed.

Lemma config_msgs_len key rk tc nonce ms :
  len key <= 255 -> len rk = 32 -> config_msgs C key rk tc nonce ms ->
  len nonce <= 255 /\ Forall (fun m => len m <= 2 ^ 16) ms.
Proof.
  intros Hk Hrk. unfold config_msgs. destruct (tc_type tc).
  - intros [-> Hms]. split; [now vm_compute|]. eapply list.Forall_impl; [exact Hms|].
    intros m <-. lia.
  - intros (Hl & _ & g & ->). split; [lia|].
    eapply list.Forall_impl; [apply (shamir_dealt C L)|]. intros s [_ Hs]. simpl in Hs.
    rewrite len_xor_bytes in Hs by (unfold len in *; lia). lia.
Qed.

Lemma sealed_parts_ok es tps ms ps :
  Forall tpl_part_ok tps -> Forall (fun m => len m <= 2 ^ 16) ms ->
  Forall3 (sealed_part C es) tps ms ps -> Forall part_ok ps.
Proof.
  intros Ht Hm H. induction H; [constructor|]. inversion_clear Ht. inversion_clear Hm.
  constructor; [eapply sealed_part_ok; eassumption|auto].
Qed.

Lemma sealed_config_ok es key rk tc c :
  tpl_config_ok tc -> len key <= 255 -> len rk = 32 ->
  sealed_config C es key rk tc c -> config_ok c.
Proof.
  intros [Hn _ Hm Hp] Hk Hrk [Et En (ms & Hps & Hms)].
  destruct (config_msgs_len _ _ _ _ _ Hk Hrk Hms) as [Hnonce Hlen].
  split; [now rewrite En|exact Hnonce| |eapply sealed_parts_ok; eassumption].
  unfold len in *. now rewrite <- (Forall3_length_lr _ _ _ _ Hps).
Qed.

Lemma eph_ok_small es :
  eph_ok C es -> len (ephemeral_keys es) <= 255 /\
  Forall (fun ek => len (ek_pubkey ek) <= 255) (ephemeral_keys es).
Proof.
  intros [Hp Hd]. split.
  - assert (Hs : ek_curve <$> ephemeral_keys es ⊆ [NistP256; NistP384]).
    { intros c _. destruct c; rewrite !elem_of_cons; auto. }
    pose proof (submseteq_length _ _ (NoDup_submseteq _ _ Hd Hs)) as Hl.
    rewrite length_fmap in Hl. simpl in Hl. unfold len. lia.
  - clear Hd. induction Hp as [|ek cp eks cps [_ Hc] _ IH]; constructor; [|exact IH].
    destruct (ec_compressed_form C L _ _ _ Hc). lia.
Qed.

Lemma recovery_plaintext_len key plain :
  recovery_plaintext key = Ok plain -> len key <= 255 /\ len plain = len key + 2.
Proof.
  unfold recovery_plaintext. intros H. apply res_bind_Ok_inv in H as (w & Hw & H).
  injection H as <-. destruct (Z.leb_spec (len key) 255) as [Hl|Hl].
  - rewrite put_string8_Ok in Hw by exact Hl. injection Hw as <-. split; [exact Hl|].
    change (into_bytes _) with ([RECOV_KEY] ++ enc8 key). rewrite len_app.
    unfold enc8. rewrite !len_cons. change (len (@nil Z)) with 0. lia.
  - rewrite put_string8_Err in Hw by exact Hl. discriminate.
Qed.

Lemma gcm_encrypt_len key plain g ct iv g' :
  aes256_gcm_encrypt C key plain g = Ok (ct, iv, g') -> len ct = len plain + 16 /\ len iv = 12.
Proof.
  unfold aes256_gcm_encrypt. intros H. apply res_bind_Ok_inv in H as ([i g1] & Hi & H).
  apply res_bind_Ok_inv in H as ([c tag] & Henc & H). injection H as <- <- <-.
  destruct (gcm_tag C L _ _ _ _ _ Henc) as (Ht & Hl & _).
  destruct (rand_len C L 12 _ _ _ ltac:(lia) Hi). rewrite len_app. lia.
Qed.

(** A created ebox is one the wire carries, when the template is and the key
    leaves room for the recovery box's header and tag. *)
Lemma created_ok tpl key t eb :
  created C tpl key t eb -> template_ok tpl -> t <> TypeTemplate -> len key <= 237 -> ebox_ok eb.
Proof.
  intros [Hv Ht Hc _ (es & rk & g & plain & g' & Hek & Heph & Hrk & _ & Hp & Henc & Hcs)]
    [_ Hcount Htcs] Htype Hkey.
  destruct (recovery_plaintext_len _ _ Hp) as [_ Hpl].
  destruct (gcm_encrypt_len _ _ _ _ _ _ Henc) as [Hel Hil].
  destruct (eph_ok_small es Heph) as [He1 He2]. rewrite Hek in He1, He2.
  split; rewrite ?Hc, ?Ht; try assumption; try lia.
  - repeat split; vm_compute; discriminate.
  - unfold len in *. now rewrite <- (list.Forall2_length _ _ _ Hcs).
  - clear - L Hcs Htcs Hkey Hrk.
    induction Hcs as [|tc c tcs cs Hs _ IH]; [constructor|]. inversion_clear Htcs.
    constructor; [|auto]. apply (sealed_config_ok es key rk tc c); [assumption|lia|exact Hrk|exact Hs].
Qed.
End CreatedWire.

(** The recovery, in terms of what the wire gives back of the ebox. *)
Lemma recover_viewed C tpl key t g eb g' idx c ps :
  CryptoLaws C -> create C tpl key t g = Ok (eb, g') ->
  eb_configs eb !! idx = Some c -> ec_type c = Recovery -> 1 <= ec_n c ->
  Forall2 (held C eb) (part_view <$> ec_parts c) ps ->
  let r := recover C (set_config (ebox_view eb) idx (with_parts c ps)) idx in
  if ec_n c <=? len (opened ps) then
    snd r = Ok tt /\ eb_key (fst r) = Some key
  else
    snd r = Err (ThresholdNotMet (len (opened ps)) (ec_n c)) /\ eb_key (fst r) = None /\
    exists c', eb_configs (fst r) !! idx = Some c' /\ opened (ec_parts c') = [].
Proof.
  intros L Hcr Hc Ht Hn Hps r.
  destruct (create_created C L _ _ _ _ _ _ Hcr) as
    [_ _ _ _ (es & rk & g1 & plain & g2 & Hek & Heph & Hrk & _ & Hp & Henc & Hcs)].
  destruct (Forall2_lookup_r _ _ _ _ _ Hcs Hc) as (tc & _ & [Et En (ms & Hms & Hmsg)]).
  unfold config_msgs in Hmsg. rewrite <- Et, Ht in Hmsg. destruct Hmsg as (Hnl & _ & gd & Hdeal).
  assert (Hshut : Forall2 shut_or ms ps).
  { clear - L Hms Hps Heph Hek. revert ps Hps.
    induction Hms as [|tp m p tps ms qs Hp _ IH]; intros ps Hps.
    - inversion_clear Hps. constructor.
    - inversion_clear Hps. constructor; [|now apply IH]. eapply held_shut_or; eassumption. }
  assert (Hdealt := shamir_dealt C L (tc_n tc) (xor_bytes (ec_nonce c) rk) (length (tc_parts tc)) gd).
  rewrite <- Hdeal in Hdealt. destruct Hdealt as [_ Hparse].
  destruct (collect_shares_ok C ms ps Hshut) as (shares & ps' & Hcol & Hsub & Hlen & Hopen).
  { eapply list.Forall_impl; [exact Hparse|]. now intros ? []. }
  pose proof (lookup_lt_Some _ _ _ Hc) as Hlt.
  assert (Hlook : forall cs, length cs = length (eb_configs eb) ->
                    <[idx := with_parts c ps]> cs !! idx = Some (with_parts c ps)).
  { intros cs Hcl. apply list_lookup_insert_eq. lia. }
  assert (Hvl : length (config_view <$> eb_configs eb) = length (eb_configs eb)) by apply length_fmap.
  assert (Hr : r = recover C (set_config (ebox_view eb) idx (with_parts c ps)) idx) by reflexivity.
  clearbody r. unfold recover in Hr. simpl in Hr. rewrite (Hlook _ Hvl) in Hr.
  unfold with_parts at 1 in Hr. simpl in Hr. rewrite Hcol in Hr. unfold recover_key in Hr. simpl in Hr.
  rewrite Hlen in Hr. destruct (Z.leb_spec (ec_n c) (len (opened ps))) as [Hge|Hlt2].
  - replace (len (opened ps) <? ec_n c) with false in Hr by (symmetry; apply Z.ltb_ge; lia).
    rewrite Hdeal in Hsub.
    assert (H1 : 1 <= tc_n tc) by lia. assert (H2 : tc_n tc <= len shares) by lia.
    rewrite En, (shamir_threshold C L _ _ _ _ _ H1 Hsub H2) in Hr. simpl in Hr.
    assert (Hll : length (ec_nonce c) = length rk) by (unfold len in *; lia).
    rewrite len_xor_bytes, Z.eqb_refl in Hr by exact Hll. simpl in Hr.
    rewrite xor_bytes_cancel, (gcm_roundtrip_bytes C L _ _ _ _ _ _ Henc) in Hr by exact Hll.
    simpl in Hr. rewrite (parse_recovery_ok _ _ Hp) in Hr. rewrite Hr. now split.
  - replace (len (opened ps) <? ec_n c) with true in Hr by (symmetry; apply Z.ltb_lt; lia).
    rewrite Hr. simpl. split; [reflexivity|]. split; [reflexivity|].
    exists (with_parts (with_parts c ps) ps'). split; [|exact Hopen].
    apply list_lookup_insert_eq. rewrite length_insert. lia.
Qed.

Lemma held_view C eb p p' : held C (ebox_view eb) p p' -> held C eb p p'.
Proof. intros Hh. inversion Hh; subst; [now constructor|eapply held_open; eassumption]. Qed.

(** ** Properties *)

(** An ebox within the format's one-byte counts serialises, and
    the bytes, whatever follows them, parse back to the ebox without what the
    format leaves out: the key, the parts' public keys, and the boxes'
    ephemeral keys and plaintexts. *)
Theorem ebox_roundtrip eb t :
  ebox_ok eb ->
  exists bs, ebox_to_bytes eb = Ok bs /\ ebox_from_bytes (bs ++ t) = Ok (ebox_view eb).
Proof.
  intros Hok. exists (enc_ebox eb). split.
  - unfold ebox_to_bytes. now rewrite (writes_ebox eb Hok writer_new).
  - apply parse_all_reads, (reads_ebox eb Hok).
Qed.

(** No byte string, of any ebox version, makes the ebox parser
    panic or loop; an ebox it accepts holds no key. *)
Theorem ebox_parse_safe data :
  bytes_ok data ->
  no_panic (ebox_from_bytes data) /\
  forall eb, ebox_from_bytes data = Ok eb -> is_unlocked eb = false.
Proof.
  intros Hd. split; [exact (parse_all_safe _ _ _ safe_ebox Hd)|].
  intros eb. unfold ebox_from_bytes, parse_all.
  destruct (safe_ebox _ (reader_new_ok data Hd)) as [_ Hx].
  destruct (read_from (reader_new data)) as [[x r]|e|]; simpl; try discriminate.
  intros [= <-]. unfold is_unlocked. now rewrite (proj1 (Hx x r eq_refl)).
Qed.

(** [create] accepts keys of up to 255 bytes, but the recovery
    box adds 18 to a field of at most 255: an ebox created for a key of 238
    bytes or more cannot be serialised. *)
Theorem create_key_limit C tpl key t g eb g' :
  CryptoLaws C -> create C tpl key t g = Ok (eb, g') -> 237 < len key ->
  len key <= 255 /\ ebox_to_bytes eb = Err (Wire (String8TooLong (len key + 18))).
Proof.
  intros L Hcr Hkey. destruct (create_created C L _ _ _ _ _ _ Hcr) as
    [Hv Ht Hc _ (es & rk & g1 & plain & g2 & _ & _ & _ & _ & Hp & Henc & _)].
  destruct (recovery_plaintext_len _ _ Hp) as [Hk Hpl].
  destruct (gcm_encrypt_len C L _ _ _ _ _ _ Henc) as [Hel Hil]. split; [exact Hk|].
  assert (Hci : cstr_ok RECOVERY_CIPHER) by (repeat split; vm_compute; discriminate).
  unfold ebox_to_bytes, put_ebox. rewrite Hc, put_cstring8_Ok by exact Hci. simpl res_bind.
  rewrite put_string8_Ok by lia. simpl res_bind.
  rewrite put_string8_Err by lia. simpl. do 3 f_equal. lia.
Qed.

(** C22 (functional).  A RECOVERY config of the template, of which [n] parts
    are required, at least one.  When the ebox created from the template was
    written to bytes, and read back from them whatever follows, and some
    holders of the config's parts have opened theirs, then the key comes back
    exactly when at least [n] of the parts are open; with fewer the error says
    how many were there, and the parts that were counted are emptied.  The
    template is one that the wire carries, the ebox of a type that is stored. *)
Theorem recover_threshold C tpl key t g eb g' idx tc bs rest eb1 c ps :
  CryptoLaws C -> template_ok tpl -> t <> TypeTemplate ->
  tpl_configs tpl !! idx = Some tc -> tc_type tc = Recovery -> 1 <= tc_n tc ->
  create C tpl key t g = Ok (eb, g') ->
  ebox_to_bytes eb = Ok bs -> ebox_from_bytes (bs ++ rest) = Ok eb1 ->
  eb_configs eb1 !! idx = Some c -> Forall2 (held C eb1) (ec_parts c) ps ->
  length ps = length (tc_parts tc) /\
  let r := recover C (set_config eb1 idx (with_parts c ps)) idx in
  if tc_n tc <=? len (opened ps) then
    snd r = Ok tt /\ eb_key (fst r) = Some key
  else
    snd r = Err (ThresholdNotMet (len (opened ps)) (tc_n tc)) /\ eb_key (fst r) = None /\
    exists c', eb_configs (fst r) !! idx = Some c' /\ opened (ec_parts c') = [].
Proof.
  intros L Htpl Ht Htc Htype Hn Hcr Hto Hfrom Hc Hps.
  pose proof (create_created C L _ _ _ _ _ _ Hcr) as Hcreated.
  assert (Hkey : len key <= 237).
  { destruct (Z.leb_spec (len key) 237) as [Hle|Hlt]; [exact Hle|].
    destruct (create_key_limit _ _ _ _ _ _ _ L Hcr Hlt) as [_ He]. congruence. }
  pose proof (created_ok C L _ _ _ _ Hcreated Htpl Ht Hkey) as Hok.
  unfold ebox_to_bytes in Hto. rewrite (writes_ebox eb Hok writer_new) in Hto. injection Hto as <-.
  unfold ebox_from_bytes in Hfrom. change (into_bytes _) with (enc_ebox eb) in Hfrom.
  rewrite (parse_all_reads _ _ _ rest (reads_ebox eb Hok)) in Hfrom. injection Hfrom as <-.
  cbn [ebox_view eb_configs] in Hc. rewrite list_lookup_fmap in Hc.
  destruct (eb_configs eb !! idx) as [c0|] eqn:Hc0; [|discriminate]. injection Hc as <-.
  destruct Hcreated as [_ _ _ _ (es & rk & g1 & plain & g2 & _ & _ & _ & _ & _ & _ & Hcs)].
  destruct (Forall2_lookup_r _ _ _ _ _ Hcs Hc0) as (tc' & Htc' & [Et En (ms & Hms & _)]).
  rewrite Htc in Htc'. injection Htc' as <-. split.
  - apply list.Forall2_length in Hps. cbn in Hps. rewrite length_fmap in Hps.
    rewrite <- Hps. exact (eq_sym (Forall3_length_lr _ _ _ _ Hms)).
  - rewrite <- En. apply (recover_viewed C tpl key t g eb g' idx c0 ps L Hcr Hc0); [congruence|lia|].
    eapply list.Forall2_impl; [exact Hps|]. intros p p'. apply held_view.
Qed.

(** *** A concrete ebox *)

Definition toy_part (priv : Z) (slot : Z) : EboxTplPart :=
  MkTplPart (Some (MkGuid (repeat 9 16))) slot None (2 :: to_be_bytes 32 priv) NistP256 None.

Definition toy_template : EboxTemplate :=
  MkTemplate 1 [MkTplConfig Primary 1 [toy_part 11 0x9D];
                MkTplConfig Recovery 2 [toy_part 21 0x9D; toy_part 22 0x9E; toy_part 23 0x9D]].

Definition toy_key : bytes := repeat 77 32.

Definition toy_created : res BoxError (Ebox * Z) := create ToyCrypto toy_template toy_key TypeKey 5.

Definition toy_ebox : Ebox :=
  match toy_created with
  | Ok (eb, _) => eb
  | _ => MkEbox 0 TypeKey [] [] [] [] [] None
  end.

Lemma toy_template_ok : template_ok toy_template.
Proof.
  split; [by_compute|by_compute|].
  repeat constructor; simpl; by_compute.
Defined.

Lemma toy_created_ok : exists g, toy_created = Ok (toy_ebox, g).
Proof. eexists. vm_compute. reflexivity. Defined.

Lemma toy_ebox_ok : ebox_ok toy_ebox.
Proof.
  destruct toy_created_ok as [g Hg].
  exact (created_ok ToyCrypto ToyCrypto_laws _ _ _ _
    (create_created ToyCrypto ToyCrypto_laws _ _ _ _ _ _ Hg) toy_template_ok
    ltac:(discriminate) ltac:(by_compute)).
Qed.

Lemma ebox_roundtrip_witness :
  ebox_ok toy_ebox /\
  exists bs, ebox_to_bytes toy_ebox = Ok bs /\ ebox_from_bytes (bs ++ [9]) = Ok (ebox_view toy_ebox).
Proof. split; [exact toy_ebox_ok|exact (ebox_roundtrip toy_ebox [9] toy_ebox_ok)]. Defined.

Lemma ebox_parse_safe_witness :
  bytes_ok (enc_ebox toy_ebox) /\ no_panic (ebox_from_bytes (ztake 200 (enc_ebox toy_ebox))).
Proof.
  assert (H : bytes_ok (enc_ebox toy_ebox)) by by_compute.
  split; [exact H|]. apply (ebox_parse_safe (ztake 200 (enc_ebox toy_ebox))). now apply bytes_ok_ztake.
Defined.

(** The part opened with the private key [priv]. *)
Definition toy_open (eb : Ebox) (priv : Z) (p : EboxPart) : EboxPart :=
  match find_ephemeral (eb_ephemeral_keys eb) (curve (piv_box p)) with
  | Some pk =>
      match ec_from_bytes ToyCrypto (curve (piv_box p)) pk with
      | Ok pub =>
          match open_with_secret ToyCrypto (piv_box p) (to_be_bytes 32 (priv * pub)) with
          | Ok b => with_box p b
          | _ => p
          end
      | _ => p
      end
  | _ => p
  end.

Lemma toy_open_held eb priv p :
  plaintext (piv_box p) = None ->
  ec_from_bytes ToyCrypto (curve (piv_box p)) (recipient_pubkey (piv_box p)) = Ok priv ->
  held ToyCrypto eb p (toy_open eb priv p).
Proof.
  intros Hp Hr. unfold toy_open.
  destruct (find_ephemeral _ _) as [pk|] eqn:Hpk; [|now constructor].
  destruct (ec_from_bytes ToyCrypto _ pk) as [pub|e|] eqn:Hpub; [|now constructor..].
  destruct (open_with_secret _ _ _) as [b|e|] eqn:Hb; [|now constructor..].
  now apply held_open with (C := ToyCrypto) (priv := priv) (pk := pk) (pub := pub)
    (s := to_be_bytes 32 (priv * pub)).
Qed.

(** The toy ebox, written and read back with a byte after it; two of its three recovery parts opened. *)
Definition toy_bytes : bytes := match ebox_to_bytes toy_ebox with Ok bs => bs | _ => [] end.
Definition toy_read : Ebox := match ebox_from_bytes (toy_bytes ++ [9]) with Ok eb => eb | _ => toy_ebox end.

Definition toy_recovery : EboxConfig :=
  match eb_configs toy_read with [_; c] => c | _ => MkConfig Primary 0 [] [] end.

Definition toy_opened : list EboxPart :=
  match ec_parts toy_recovery with
  | [p1; p2; p3] => [toy_open toy_read 21 p1; p2; toy_open toy_read 23 p3]
  | _ => []
  end.

Definition toy_recovery_tpl : EboxTplConfig := MkTplConfig Recovery 2 [toy_part 21 0x9D; toy_part 22 0x9E; toy_part 23 0x9D].

Lemma toy_opened_held : Forall2 (held ToyCrypto toy_read) (ec_parts toy_recovery) toy_opened.
Proof.
  assert (Hparts : match ec_parts toy_recovery with [_; _; _] => true | _ => false end = true) by (vm_compute; reflexivity).
  assert (Hsh : Forall (fun p => plaintext (piv_box p) = None) (ec_parts toy_recovery)) by (vm_compute; repeat constructor).
  assert (Hpub : (fun p => ec_from_bytes ToyCrypto (curve (piv_box p)) (recipient_pubkey (piv_box p))) <$> ec_parts toy_recovery = [Ok 21; Ok 22; Ok 23])
    by (vm_compute; reflexivity).
  unfold toy_opened. destruct (ec_parts toy_recovery) as [|p1 [|p2 [|p3 [|p4 ps]]]]; try discriminate.
  injection Hpub as H1 H2 H3. inversion_clear Hsh as [|? ? S1 Hsh']. inversion_clear Hsh' as [|? ? S2 Hsh]. inversion_clear Hsh as [|? ? S3 _].
  constructor; [now apply toy_open_held|]. constructor; [now constructor|]. constructor; [now apply toy_open_held|constructor].
Qed.

Lemma toy_two_opened : len (opened toy_opened) = 2.
Proof. vm_compute. reflexivity. Qed.

Lemma recover_threshold_witness :
  let r := recover ToyCrypto (set_config toy_read 1 (with_parts toy_recovery toy_opened)) 1 in
  snd r = Ok tt /\ eb_key (fst r) = Some toy_key.
Proof.
  destruct toy_created_ok as [g Hg].
  assert (Hto : ebox_to_bytes toy_ebox = Ok toy_bytes) by (vm_compute; reflexivity).
  assert (Hfrom : ebox_from_bytes (toy_bytes ++ [9]) = Ok toy_read) by (vm_compute; reflexivity).
  assert (Hc : eb_configs toy_read !! 1%nat = Some toy_recovery) by (vm_compute; reflexivity).
  destruct (recover_threshold ToyCrypto toy_template toy_key TypeKey 5 toy_ebox g 1 toy_recovery_tpl toy_bytes [9] toy_read toy_recovery toy_opened
    ToyCrypto_laws toy_template_ok ltac:(discriminate) eq_refl eq_refl ltac:(by_compute) Hg Hto Hfrom Hc toy_opened_held) as [_ Hr].
  rewrite toy_two_opened in Hr. exact Hr.
Defined.

Lemma create_key_limit_witness :
  exists eb g, create ToyCrypto toy_template (repeat 1 238) TypeKey 5 = Ok (eb, g) /\
    ebox_to_bytes eb = Err (Wire (String8TooLong 256)).
Proof.
  destruct (create ToyCrypto toy_template (repeat 1 238) TypeKey 5) as [[eb g]|e|] eqn:H;
    [|vm_compute in H; discriminate|vm_compute in H; discriminate].
  exists eb, g. split; [reflexivity|].
  apply (create_key_limit ToyCrypto toy_template (repeat 1 238) TypeKey 5 eb g ToyCrypto_laws H).
  now vm_compute.
Defined.
