(* ===== verification/AgentExt.v ===== *)
(** * AgentExt: the ECDH agent extension, client and server side

    The client half is [piggy-box/src/agent_ext.rs]; the server half is what
    [piggy/src/cmd/agent/session.rs] parses requests with.  The two are written
    separately in two crates; the theorems say that they agree. *)

From Stdlib Require Import ZArith Lia String.
From stdpp Require Import base tactics list numbers.
From S2P Require Import Prelude Utf8 PivError Guid Reader Wire Crypto.

Local Open Scope Z_scope.

(** ** Client side *)

Definition encode_ecdh_request (self_key_blob partner_key_blob : bytes) (flags : Z) : bytes :=
  let inner := put_string writer_new self_key_blob in
  let inner := put_string inner partner_key_blob in
  let inner := put_u32 inner flags in
  let outer := put_string writer_new (into_bytes inner) in
  into_bytes outer.

Definition decode_ecdh_response (details : bytes) : res BoxError bytes :=
  if len details <? 4 then Err (InvalidAgentReply (ReplyTooShort (len details)))
  else
    let* (secret, reader) :=
      map_err (fun _ => InvalidAgentReply ReplyLengthExceedsBody)
        (get_string (reader_new details)) in
    let* rem := remaining reader in
    if negb (rem =? 0) then
      let* rem := remaining reader in Err (InvalidAgentReply (ReplyTrailing rem))
    else Ok secret.

Definition ec_point_to_ssh_pubkey_blob (curve : EcCurve) (point : bytes) : bytes :=
  let w := put_string writer_new (ssh_keytype curve) in
  let w := put_string w (wire_name curve) in
  let w := put_string w point in
  into_bytes w.

Definition ed25519_to_ssh_pubkey_blob (key : bytes) : bytes :=
  let w := put_string writer_new (ascii "ssh-ed25519") in
  let w := put_string w key in
  into_bytes w.

(** [u32::from_be_bytes([b[i], b[i+1], b[i+2], b[i+3]])] *)
Definition be32_at {E} (b : bytes) (i : Z) : res E Z :=
  let* b0 := index b i in
  let* b1 := index b (i + 1) in
  let* b2 := index b (i + 2) in
  let* b3 := index b (i + 3) in
  Ok (from_be_bytes [b0; b1; b2; b3]).

Definition take_string (b : bytes) : res OracleError (bytes * bytes) :=
  if len b <? 4 then Err (InvalidPubkey "blob too short for length")
  else
    let* n := be32_at b 0 in
    if len b <? 4 + n then Err (InvalidPubkey "blob string underflow")
    else
      let* s := slice b 4 (4 + n) in
      let* rest := slice_from b (4 + n) in
      Ok (s, rest).

Definition extract_point_from_sshkey_blob (blob : bytes) : res OracleError bytes :=
  let* (_, rest) := take_string blob in
  let* (_, rest) := take_string rest in
  let* (point, _) := take_string rest in
  Ok point.

(** ** Server side *)

Inductive SshError : Type :=
| NotEnoughForLength
| LengthExceedsData (length remaining : Z)
| TruncatedFlags (label : string).

(** [a.checked_add(b)] on a 64-bit [usize] *)
Definition checked_add (a b : Z) : option Z := if a + b <? 2 ^ 64 then Some (a + b) else None.

(** [.filter(|&e| e <= data.len())] *)
Definition within (data : bytes) (o : option Z) : option Z :=
  match o with
  | Some e => if e <=? len data then Some e else None
  | None => None
  end.

Definition read_ssh_string (data : bytes) (offset : Z) : res SshError (bytes * Z) :=
  let* hdr_end := ok_or (within data (checked_add offset 4)) NotEnoughForLength in
  let* n := be32_at data offset in
  match within data (checked_add hdr_end n) with
  | None => let* rem := usub (len data) hdr_end in Err (LengthExceedsData n rem)
  | Some end_ =>
      let* s := slice data hdr_end end_ in
      Ok (s, end_)
  end.

Definition read_u32_be (data : bytes) (offset : Z) (label : string) : res SshError Z :=
  match within data (checked_add offset 4) with
  | None => Err (TruncatedFlags label)
  | Some _ => be32_at data offset
  end.

(** The parsing at the head of [handle_ecdh]: the card's key blob, the
    partner's, and the flags. *)
Definition parse_ecdh_request (details : bytes) : res SshError (bytes * bytes * Z) :=
  let* (inner, _) := read_ssh_string details 0 in
  let* (card_key_blob, pos) := read_ssh_string inner 0 in
  let* (partner_blob, pos) := read_ssh_string inner pos in
  let* flags := read_u32_be inner pos "ecdh" in
  Ok (card_key_blob, partner_blob, flags).

Definition extract_ec_point_from_ssh_blob (blob : bytes) : res SshError bytes :=
  let* (_, pos) := read_ssh_string blob 0 in
  let* (_, pos) := read_ssh_string blob pos in
  let* (point, _) := read_ssh_string blob pos in
  Ok point.

(** ** One description of both parsers *)

(** The first length-prefixed string of [l], and what follows it. *)
Definition split_string (l : bytes) : option (bytes * bytes) :=
  if len l <? 4 then None
  else
    let n := from_be_bytes (ztake 4 l) in
    if len l - 4 <? n then None else Some (ztake n (zdrop 4 l), zdrop (4 + n) l).

Lemma be32_at_Ok {E} b i :
  0 <= i -> i + 4 <= len b -> be32_at (E := E) b i = Ok (from_be_bytes (ztake 4 (zdrop i b))).
Proof.
  intros Hi Hb. unfold be32_at.
  assert (Hl : 4 <= len (zdrop i b)) by (rewrite len_zdrop; lia).
  destruct (zdrop i b) as [|b0 [|b1 [|b2 [|b3 t]]]] eqn:Hd; unfold len in Hl; simpl in Hl; try lia.
  rewrite (index_Ok b i b0 _ Hi Hd). simpl.
  rewrite (index_Ok b (i + 1) b1 (b2 :: b3 :: t)) by
    (lia || exact (zdrop_step i b [b0] _ Hi Hd)). simpl.
  rewrite (index_Ok b (i + 2) b2 (b3 :: t)) by
    (lia || exact (zdrop_step i b [b0; b1] _ Hi Hd)). simpl.
  rewrite (index_Ok b (i + 3) b3 t) by
    (lia || exact (zdrop_step i b [b0; b1; b2] _ Hi Hd)). reflexivity.
Qed.

Lemma be32_bound b i : bytes_ok b -> 0 <= from_be_bytes (ztake 4 (zdrop i b)) < 2 ^ 32.
Proof.
  intros Hb. assert (Hok : bytes_ok (ztake 4 (zdrop i b))) by auto with bytes.
  pose proof (from_be_bytes_bound _ Hok) as H.
  assert (len (ztake 4 (zdrop i b)) <= 4) by (unfold len, ztake; rewrite length_take; lia).
  pose proof (Z.pow_le_mono_r 256 (len (ztake 4 (zdrop i b))) 4). lia.
Qed.

Lemma take_string_split b :
  bytes_ok b ->
  match split_string b with
  | Some x => take_string b = Ok x
  | None => exists e, take_string b = Err e
  end.
Proof.
  intros Hb. unfold split_string, take_string. pose proof (be32_bound b 0 Hb) as Hn.
  rewrite zdrop_0 in Hn. destruct (len b <? 4) eqn:H4; [eauto|]. bprop.
  rewrite be32_at_Ok, zdrop_0 by lia. simpl.
  set (n := from_be_bytes (ztake 4 b)) in *.
  destruct (len b - 4 <? n) eqn:Hlt; bprop; zbool; [eauto|].
  rewrite slice_Ok, slice_from_Ok by lia. simpl. now replace (4 + n - 4) with n by lia.
Qed.

Lemma read_ssh_string_split data off :
  bytes_ok data -> 0 <= off <= len data -> len data < 2 ^ 63 ->
  match split_string (zdrop off data) with
  | Some (s, t) =>
      read_ssh_string data off = Ok (s, len data - len t) /\ zdrop (len data - len t) data = t
  | None => exists e, read_ssh_string data off = Err e
  end.
Proof.
  intros Hd Ho Hmax. unfold split_string, read_ssh_string, within, checked_add.
  pose proof (be32_bound data off Hd) as Hn. rewrite len_zdrop by lia. zbool.
  destruct (len data - off <? 4) eqn:H4; bprop; zbool; simpl; [eauto|].
  rewrite be32_at_Ok by lia. simpl. set (n := from_be_bytes _) in *. zbool.
  destruct (len data - off - 4 <? n) eqn:Hlt; bprop; zbool.
  - rewrite usub_Ok by lia. simpl. eauto.
  - rewrite slice_Ok by lia. simpl.
    assert (Ht : zdrop (4 + n) (zdrop off data) = zdrop (off + 4 + n) data).
    { unfold zdrop. rewrite drop_drop. f_equal. lia. }
    rewrite Ht, len_zdrop by lia. replace (len data - (len data - (off + 4 + n)))
      with (off + 4 + n) by lia. split; [|reflexivity].
    replace (off + 4 + n - (off + 4)) with n by lia. do 3 f_equal.
    unfold zdrop. rewrite drop_drop. f_equal. lia.
Qed.

Lemma split_string_enc l t : len l < 2 ^ 32 -> split_string (enc32 l ++ t) = Some (l, t).
Proof.
  intros Hl. unfold split_string, enc32. pose proof (len_nonneg l). pose proof (len_nonneg t).
  set (h := to_be_bytes 4 (len l)). assert (Hh : len h = 4) by reflexivity.
  rewrite <- app_assoc, !len_app, Hh. zbool.
  assert (Hn : from_be_bytes (ztake 4 (h ++ l ++ t)) = len l).
  { rewrite <- Hh, ztake_app. apply from_to_be_bytes_small.
    change (256 ^ Z.of_nat 4) with (2 ^ 32). lia. }
  rewrite Hn. zbool. rewrite <- Hh at 1. rewrite zdrop_app, ztake_app.
  rewrite <- Hh, <- len_app, app_assoc. now rewrite zdrop_app.
Qed.

Lemma split_string_inv l s t :
  bytes_ok l -> split_string l = Some (s, t) -> l = enc32 s ++ t /\ len s < 2 ^ 32.
Proof.
  intros Hl. unfold split_string. pose proof (be32_bound l 0 Hl) as Hn. rewrite zdrop_0 in Hn.
  destruct (len l <? 4) eqn:H4; [discriminate|].
  destruct (len l - 4 <? from_be_bytes (ztake 4 l)) eqn:Hlt; [discriminate|]. bprop.
  intros [= <- <-]. set (n := from_be_bytes (ztake 4 l)) in *.
  assert (Hs : len (ztake n (zdrop 4 l)) = n) by (rewrite len_ztake; rewrite ?len_zdrop; lia).
  unfold enc32. rewrite Hs. split; [|lia].
  assert (Hh : to_be_bytes 4 n = ztake 4 l).
  { assert (H4l : length (ztake 4 l) = 4%nat)
      by (pose proof (len_ztake 4 l ltac:(lia)); unfold len in *; lia).
    rewrite <- H4l. apply to_be_bytes_from. now apply bytes_ok_ztake. }
  rewrite Hh, <- app_assoc. rewrite (zsplit 4 l) at 1. f_equal.
  rewrite (zsplit n (zdrop 4 l)) at 1. f_equal. unfold zdrop. rewrite drop_drop. f_equal. lia.
Qed.

Lemma get_string_split d :
  bytes_ok d ->
  match split_string d with
  | Some (s, t) => get_string (reader_new d) = Ok (s, MkReader d (len d - len t))
  | None => exists e, get_string (reader_new d) = Err e
  end.
Proof.
  intros Hd. unfold split_string. pose proof (be32_bound d 0 Hd) as Hn. rewrite zdrop_0 in Hn.
  unfold get_string, rd_bind, get_u32, get_n, need, remaining, reader_new. simpl.
  rewrite usub_Ok by apply len_nonneg. simpl. rewrite Z.sub_0_r.
  destruct (len d <? 4) eqn:H4; simpl; [eauto|]. bprop.
  rewrite slice_Ok by lia. simpl. change (0 + 4 - 0) with 4. change (0 + 4) with 4. rewrite zdrop_0.
  set (n := from_be_bytes (ztake 4 d)) in *. rewrite usub_Ok by lia. simpl.
  destruct (len d - 4 <? n) eqn:Hlt; simpl; [eauto|]. bprop.
  rewrite slice_Ok by lia. simpl. replace (4 + n - 4) with n by lia.
  rewrite len_zdrop by lia. replace (len d - (len d - (4 + n))) with (4 + n) by lia. reflexivity.
Qed.

Lemma encode_ecdh_request_enc s p f :
  len s + len p + 12 < 2 ^ 32 ->
  encode_ecdh_request s p f = enc32 (enc32 s ++ enc32 p ++ to_be_bytes 4 f).
Proof.
  intros H. pose proof (len_nonneg s). pose proof (len_nonneg p). unfold encode_ecdh_request, put_u32.
  rewrite (put_string_Ok _ s), (put_string_Ok _ p), !put_raw_app by lia.
  assert (Hin : into_bytes (put_raw writer_new (enc32 s ++ enc32 p ++ to_be_bytes 4 f))
                = enc32 s ++ enc32 p ++ to_be_bytes 4 f) by reflexivity.
  rewrite Hin, put_string_Ok; [reflexivity|].
  unfold enc32. rewrite !len_app. change (len (to_be_bytes 4 _)) with 4. lia.
Qed.

Lemma blob_enc curve point :
  len point < 2 ^ 32 ->
  ec_point_to_ssh_pubkey_blob curve point
  = enc32 (ssh_keytype curve) ++ enc32 (wire_name curve) ++ enc32 point.
Proof.
  intros Hp. unfold ec_point_to_ssh_pubkey_blob.
  rewrite !put_string_Ok by (try assumption; destruct curve; reflexivity).
  rewrite !put_raw_app. reflexivity.
Qed.

Lemma enc32_ok l : bytes_ok l -> bytes_ok (enc32 l).
Proof. intros H. unfold enc32. auto with bytes. Qed.
#[export] Hint Resolve enc32_ok : bytes.

(** A string read where one was written. *)
Lemma read_ssh_string_enc data off s t :
  bytes_ok data -> 0 <= off <= len data -> len data < 2 ^ 63 -> len s < 2 ^ 32 ->
  zdrop off data = enc32 s ++ t ->
  read_ssh_string data off = Ok (s, len data - len t) /\ zdrop (len data - len t) data = t.
Proof.
  intros Hd Ho Hm Hs Heq. pose proof (read_ssh_string_split data off Hd Ho Hm) as H.
  rewrite Heq, split_string_enc in H by exact Hs. exact H.
Qed.

(** Three strings in a row. *)
Lemma three_strings data a b c :
  bytes_ok data -> len data < 2 ^ 63 -> len a < 2 ^ 32 -> len b < 2 ^ 32 ->
  data = enc32 a ++ enc32 b ++ c ->
  exists p1 p2, read_ssh_string data 0 = Ok (a, p1) /\ read_ssh_string data p1 = Ok (b, p2) /\
    0 <= p1 <= len data /\ 0 <= p2 <= len data /\ zdrop p2 data = c.
Proof.
  intros Hd Hm Ha Hb Heq.
  destruct (read_ssh_string_enc data 0 a (enc32 b ++ c)) as [H1 Hr1]; auto;
    [pose proof (len_nonneg data); lia|].
  set (p1 := len data - len (enc32 b ++ c)) in *.
  assert (Hp1 : 0 <= p1 <= len data).
  { unfold p1. rewrite Heq at 1 2. rewrite (len_app (enc32 a)).
    pose proof (len_nonneg (enc32 a)). pose proof (len_nonneg (enc32 b ++ c)).
    rewrite Heq at 1. rewrite (len_app (enc32 a)). lia. }
  destruct (read_ssh_string_enc data p1 b c) as [H2 Hr2]; auto.
  exists p1, (len data - len c). repeat (split; [assumption || lia|]).
  split; [|exact Hr2]. pose proof (len_nonneg c).
  rewrite Heq, !len_app. pose proof (len_nonneg (enc32 a)). pose proof (len_nonneg (enc32 b)). lia.
Qed.

Lemma extract_blob_point c p :
  bytes_ok (ec_point_to_ssh_pubkey_blob c p) -> len p < 2 ^ 32 ->
  extract_point_from_sshkey_blob (ec_point_to_ssh_pubkey_blob c p) = Ok p.
Proof.
  intros Hb Hp.
  assert (Hts : forall s t, bytes_ok (enc32 s ++ t) -> len s < 2 ^ 32 ->
            take_string (enc32 s ++ t) = Ok (s, t)).
  { intros s t Hst Hs. pose proof (take_string_split _ Hst) as H.
    now rewrite split_string_enc in H. }
  rewrite blob_enc in Hb |- * by exact Hp. unfold extract_point_from_sshkey_blob.
  rewrite Hts; [|exact Hb|destruct c; reflexivity]. apply Forall_app in Hb as [_ Hb'].
  cbn [res_bind]. rewrite Hts; [|exact Hb'|destruct c; reflexivity]. cbn [res_bind].
  apply Forall_app in Hb' as [_ Hb']. rewrite <- (app_nil_r (enc32 p)) in *.
  now rewrite Hts.
Qed.

(** ** Properties *)

(** The agent's parser gets back from a client's ECDH request
    exactly the two key blobs and the flags the client put in. *)
Theorem ecdh_request_roundtrip s p f :
  bytes_ok s -> bytes_ok p -> 0 <= f < 2 ^ 32 -> len s + len p + 16 < 2 ^ 32 ->
  parse_ecdh_request (encode_ecdh_request s p f) = Ok (s, p, f).
Proof.
  intros Hs Hp Hf Hl. pose proof (len_nonneg s). pose proof (len_nonneg p).
  rewrite encode_ecdh_request_enc by lia. set (inner := enc32 s ++ enc32 p ++ to_be_bytes 4 f).
  assert (Hin : bytes_ok inner) by (unfold inner; auto with bytes).
  assert (Hil : len inner = len s + len p + 12).
  { unfold inner, enc32. rewrite !len_app. change (len (to_be_bytes 4 _)) with 4. lia. }
  assert (Hel : len (enc32 inner) = len inner + 4).
  { unfold enc32. rewrite len_app. change (len (to_be_bytes 4 _)) with 4. lia. }
  unfold parse_ecdh_request.
  destruct (read_ssh_string_enc (enc32 inner) 0 inner []) as [H1 _]; auto with bytes;
    [lia|lia|lia|now rewrite zdrop_0, app_nil_r|].
  rewrite H1. simpl.
  destruct (three_strings inner s p (to_be_bytes 4 f)) as (p1 & p2 & H2 & H3 & Hp1 & Hp2 & Hc);
    auto; try lia. rewrite H2. simpl. rewrite H3. simpl.
  assert (H4 : p2 + 4 = len inner).
  { pose proof (len_zdrop p2 inner Hp2) as Hz. rewrite Hc in Hz.
    change (len (to_be_bytes 4 f)) with 4 in Hz. lia. }
  unfold read_u32_be, within, checked_add. zbool. rewrite be32_at_Ok, Hc by lia. simpl.
  change 4 with (len (to_be_bytes 4 f)). rewrite <- (app_nil_r (to_be_bytes 4 f)) at 2.
  rewrite ztake_app, from_to_be_bytes_small by exact Hf. reflexivity.
Qed.

Lemma ecdh_request_roundtrip_witness :
  parse_ecdh_request (encode_ecdh_request (ascii "self") (ascii "partner") 0xDEADBEEF)
  = Ok (ascii "self", ascii "partner", 0xDEADBEEF).
Proof.
  apply ecdh_request_roundtrip; [apply ascii_ok|apply ascii_ok|by_compute|by_compute].
Defined.

(** A response is accepted exactly when it is one
    length-prefixed string with nothing behind it, and the secret is that
    string; on any other bytes the decoder returns an error. *)
Theorem ecdh_response_exact d :
  bytes_ok d ->
  no_panic (decode_ecdh_response d) /\
  forall s, decode_ecdh_response d = Ok s <-> d = enc32 s /\ len s < 2 ^ 32.
Proof.
  intros Hd. pose proof (get_string_split d Hd) as Hg. unfold decode_ecdh_response.
  destruct (len d <? 4) eqn:H4.
  { bprop. split; [discriminate|]. intros s. split; [discriminate|]. intros [-> _].
    unfold enc32 in H4. rewrite len_app in H4. change (len (to_be_bytes 4 _)) with 4 in H4.
    pose proof (len_nonneg s). lia. }
  destruct (split_string d) as [[s t]|] eqn:Hsp.
  - rewrite Hg. simpl. destruct (split_string_inv d s t Hd Hsp) as [Heq Hs].
    assert (Hrem : remaining (MkReader d (len d - len t)) = Ok (len t)).
    { unfold remaining. simpl. pose proof (len_nonneg t). rewrite usub_Ok by lia. f_equal. lia. }
    rewrite Hrem. simpl. destruct (len t =? 0) eqn:Ht; simpl.
    + bprop. destruct t as [|x t]; [|rewrite len_cons in Ht; pose proof (len_nonneg t); lia].
      rewrite app_nil_r in Heq. split; [discriminate|]. intros s'. split.
      * intros [= <-]. auto.
      * intros [Heq' Hs']. pose proof (split_string_enc s' [] Hs') as H'.
        rewrite app_nil_r, <- Heq', Hsp in H'. now injection H' as ->.
    + split; [discriminate|]. intros s'. split; [discriminate|]. intros [Heq' Hs'].
      pose proof (split_string_enc s' [] Hs') as H'.
      rewrite app_nil_r, <- Heq', Hsp in H'. injection H' as _ ->. discriminate.
  - destruct Hg as [e Hg]. rewrite Hg. simpl. split; [discriminate|].
    intros s. split; [discriminate|]. intros [-> Hs].
    pose proof (split_string_enc s [] Hs) as H'. rewrite app_nil_r, Hsp in H'. discriminate.
Qed.

Lemma ecdh_response_exact_witness :
  decode_ecdh_response (enc32 (ascii "secret")) = Ok (ascii "secret") /\
  decode_ecdh_response (enc32 (ascii "secret") ++ [0]) <> Ok (ascii "secret").
Proof.
  split.
  - apply (ecdh_response_exact (enc32 (ascii "secret"))); [by_compute|]. split; by_compute.
  - intros H. apply (ecdh_response_exact (enc32 (ascii "secret") ++ [0])) in H; [|by_compute].
    destruct H as [H _]. vm_compute in H. discriminate.
Defined.

(** The client's and the agent's readers of a public-key blob
    accept the same blobs and give the same point, neither ever panics, and
    both recover the point a blob was built from. *)
Theorem blob_extractors_agree blob :
  bytes_ok blob -> len blob < 2 ^ 63 ->
  no_panic (extract_point_from_sshkey_blob blob) /\
  no_panic (extract_ec_point_from_ssh_blob blob) /\
  res_ok (extract_point_from_sshkey_blob blob) = res_ok (extract_ec_point_from_ssh_blob blob) /\
  forall c p, blob = ec_point_to_ssh_pubkey_blob c p -> len p < 2 ^ 32 ->
    extract_point_from_sshkey_blob blob = Ok p.
Proof.
  intros Hb Hm. unfold extract_point_from_sshkey_blob, extract_ec_point_from_ssh_blob.
  assert (Hstep : forall off, 0 <= off <= len blob ->
    (exists s off' , take_string (zdrop off blob) = Ok (s, zdrop off' blob) /\
       read_ssh_string blob off = Ok (s, off') /\ 0 <= off' <= len blob) \/
    (exists e e', take_string (zdrop off blob) = Err e /\ read_ssh_string blob off = Err e')).
  { intros off Ho. pose proof (take_string_split _ (bytes_ok_zdrop off _ Hb)) as H1.
    pose proof (read_ssh_string_split blob off Hb Ho Hm) as H2.
    destruct (split_string (zdrop off blob)) as [[s t]|] eqn:Hsp.
    - destruct H2 as [H2 Ht]. left. exists s, (len blob - len t). rewrite Ht. split; [exact H1|].
      split; [exact H2|]. pose proof (len_nonneg t).
      destruct (split_string_inv _ _ _ (bytes_ok_zdrop off _ Hb) Hsp) as [Heq _].
      pose proof (len_zdrop off blob Ho) as Hz. rewrite Heq, len_app in Hz.
      pose proof (len_nonneg (enc32 s)). lia.
    - destruct H1 as [e1 H1], H2 as [e2 H2]. right. eauto. }
  assert (H0 : 0 <= 0 <= len blob) by (pose proof (len_nonneg blob); lia).
  change (take_string blob) with (take_string (zdrop 0 blob)).
  repeat split.
  1-3: destruct (Hstep 0 H0) as [(a & o1 & H1 & H2 & Ho1)|(e & e' & H1 & H2)];
    rewrite ?H1, ?H2; simpl; try discriminate; try reflexivity;
    destruct (Hstep o1 Ho1) as [(b & o2 & H3 & H4 & Ho2)|(e & e' & H3 & H4)];
    rewrite ?H3, ?H4; simpl; try discriminate; try reflexivity;
    destruct (Hstep o2 Ho2) as [(c & o3 & H5 & H6 & Ho3)|(e & e' & H5 & H6)];
    rewrite ?H5, ?H6; simpl; try discriminate; reflexivity.
  intros c p -> Hp. rewrite zdrop_0. now apply extract_blob_point.
Qed.

Lemma blob_extractors_agree_witness :
  extract_point_from_sshkey_blob (ec_point_to_ssh_pubkey_blob NistP256 [4; 7; 9]) = Ok [4; 7; 9].
Proof.
  apply (blob_extractors_agree (ec_point_to_ssh_pubkey_blob NistP256 [4; 7; 9])) with (c := NistP256);
    [by_compute|by_compute|reflexivity|by_compute].
Defined.
