(* ===== verification/Unlock.v ===== *)
(** * Unlock: opening an ebox through an ECDH oracle

    [piggy-box/src/unlock.rs] and the trait of [piggy-box/src/oracle.rs].  An
    oracle (the agent, a card) is a value of a type with an [ecdh] method that
    takes [&mut self]; the class below is the trait, [EcdhOracleLaws] what a
    client may expect of an implementation. *)

From Stdlib Require Import ZArith Lia String.
From stdpp Require Import base tactics list numbers.
From S2P Require Import Prelude Utf8 PivError Guid Reader Wire Crypto PivBox Tagged Template Ebox AgentExt.

Local Open Scope Z_scope.

(** ** The trait *)

Class EcdhOracle (S : Type) := {
  ecdh : S -> bytes -> bytes -> res OracleError bytes * S;
}.

(** ** The unlock flow *)

Section Unlock.
Context (C : Crypto).

(** [decompress_ec_point] *)
Definition decompress_ec_point (c : EcCurve) (point : bytes) : res BoxError bytes :=
  if bool_decide (head point = Some 0x04) then Ok point
  else
    let* ec := ec_from_bytes C c point in
    ec_uncompressed C c ec.

(** [part.piv_box.ephemeral_pubkey], or the ebox's for the curve when it is
    empty. *)
Definition resolve_ephemeral (ephemeral_by_curve : list (EcCurve * bytes)) (b : PivBox) : bytes :=
  if bool_decide (ephemeral_pubkey b = []) then
    match List.find (fun cp => bool_decide (fst cp = curve b)) ephemeral_by_curve with
    | Some cp => snd cp
    | None => ephemeral_pubkey b
    end
  else ephemeral_pubkey b.

(** What became of one part. *)
Inductive PartOutcome : Type :=
| Skipped
| Failed (reason : UnlockReason)
| Opened (b : PivBox).

Context {S : Type} `{EcdhOracle S}.

(** The body of the loop over the parts. *)
Definition try_part (ephemeral_by_curve : list (EcCurve * bytes)) (b : PivBox) (oracle : S)
    : res BoxError (PartOutcome * S) :=
  let c := curve b in
  let ephemeral := resolve_ephemeral ephemeral_by_curve b in
  if bool_decide (ephemeral = []) || bool_decide (recipient_pubkey b = [])
  then Ok (Skipped, oracle)
  else
    match decompress_ec_point c (recipient_pubkey b) with
    | Panic => Panic
    | Err _ => Ok (Skipped, oracle)
    | Ok self_uncompressed =>
        match decompress_ec_point c ephemeral with
        | Panic => Panic
        | Err _ => Ok (Skipped, oracle)
        | Ok partner_uncompressed =>
            let self_blob := ec_point_to_ssh_pubkey_blob c self_uncompressed in
            let partner_blob := ec_point_to_ssh_pubkey_blob c partner_uncompressed in
            let '(answer, oracle) := ecdh oracle self_blob partner_blob in
            match answer with
            | Panic => Panic
            | Err NoKey => Ok (Skipped, oracle)
            | Err e => Ok (Failed (OracleFailed e), oracle)
            | Ok secret =>
                match open_with_secret C b secret with
                | Panic => Panic
                | Err e => Ok (Failed (OpenWithSecretFailed e), oracle)
                | Ok b => Ok (Opened b, oracle)
                end
            end
        end
    end.

(** The loop over the parts, with its variables [any_opened] and [reason]. *)
Fixpoint try_parts (ephemeral_by_curve : list (EcCurve * bytes)) (parts : list EboxPart)
    (oracle : S) (reason : option UnlockReason)
    : res BoxError (list EboxPart * S * bool * option UnlockReason) :=
  match parts with
  | [] => Ok ([], oracle, false, reason)
  | p :: ps =>
      let* (outcome, oracle) := try_part ephemeral_by_curve (piv_box p) oracle in
      match outcome with
      | Opened b => Ok (with_box p b :: ps, oracle, true, reason)
      | Failed r =>
          let* (ps, oracle, opened, reason) := try_parts ephemeral_by_curve ps oracle (Some r) in
          Ok (p :: ps, oracle, opened, reason)
      | Skipped =>
          let* (ps, oracle, opened, reason) := try_parts ephemeral_by_curve ps oracle reason in
          Ok (p :: ps, oracle, opened, reason)
      end
  end.

Definition ephemerals_by_curve (eb : Ebox) : list (EcCurve * bytes) :=
  map (fun ek => (ek_curve ek, ek_pubkey ek)) (eb_ephemeral_keys eb).

(** [try_unlock_with_oracle]: the ebox, the oracle and the result. *)
Definition try_unlock_with_oracle (eb : Ebox) (config_idx : nat) (oracle : S)
    : Ebox * S * res BoxError unit :=
  match eb_configs eb !! config_idx with
  | None => (eb, oracle, Panic)
  | Some c =>
      match try_parts (ephemerals_by_curve eb) (ec_parts c) oracle None with
      | Panic => (eb, oracle, Panic)
      | Err e => (eb, oracle, Err e)
      | Ok (parts, oracle, any_opened, reason) =>
          let eb := set_config eb config_idx (with_parts c parts) in
          if negb any_opened then (eb, oracle, Err (UnlockFailed reason))
          else
            match unlock eb config_idx with
            | Ok eb => (eb, oracle, Ok tt)
            | Err e => (eb, oracle, Err e)
            | Panic => (eb, oracle, Panic)
            end
      end
  end.
End Unlock.

(** [note]: the reason of the last failure that has one. *)
Definition note (reason : option UnlockReason) (e : BoxError) : option UnlockReason :=
  match e with
  | UnlockFailed (Some r) => Some r
  | _ => reason
  end.

Definition primary_indices (eb : Ebox) : list nat :=
  omap (fun ic => if bool_decide (ec_type (snd ic) = Primary) then Some (fst ic) else None)
    (imap pair (eb_configs eb)).

Section UnlockEbox.
Context (C : Crypto).

(** [if let Some(oracle) = ..as_deref_mut() { match try_unlock_with_oracle .. }]:
    the result is [None] when the flow goes on. *)
Definition try_oracle {S} `{EcdhOracle S} (eb : Ebox) (idx : nat) (oracle : option S)
    (reason : option UnlockReason)
    : Ebox * option S * option UnlockReason * option (res BoxError unit) :=
  match oracle with
  | None => (eb, None, reason, None)
  | Some o =>
      match try_unlock_with_oracle C eb idx o with
      | (eb, o, Ok _) => (eb, Some o, reason, Some (Ok tt))
      | (eb, o, Err e) => (eb, Some o, note reason e, None)
      | (eb, o, Panic) => (eb, Some o, reason, Some Panic)
      end
  end.

Context {A K : Type} `{EcdhOracle A} `{EcdhOracle K}.

(** The loop over the PRIMARY configs: agent first, then card. *)
Fixpoint unlock_loop (idxs : list nat) (eb : Ebox) (agent : option A) (card : option K)
    (reason : option UnlockReason) : Ebox * option A * option K * res BoxError unit :=
  match idxs with
  | [] => (eb, agent, card, Err (UnlockFailed reason))
  | idx :: idxs =>
      match try_oracle eb idx agent reason with
      | (eb, agent, _, Some r) => (eb, agent, card, r)
      | (eb, agent, reason, None) =>
          match try_oracle eb idx card reason with
          | (eb, card, _, Some r) => (eb, agent, card, r)
          | (eb, card, reason, None) => unlock_loop idxs eb agent card reason
          end
      end
  end.

Definition unlock_ebox (eb : Ebox) (agent_oracle : option A) (card_oracle : option K)
    : Ebox * option A * option K * res BoxError unit :=
  let idxs := primary_indices eb in
  let reason :=
    if bool_decide (idxs = [])
       && existsb (fun c => bool_decide (ec_type c = Recovery)) (eb_configs eb)
    then Some RecoveryOnly else None in
  unlock_loop idxs eb agent_oracle card_oracle reason.
End UnlockEbox.

(** ** What a client may expect of an oracle *)

Class EcdhOracleLaws (C : Crypto) (S : Type) `{EcdhOracle S} := {
  (** the oracle holds this private key for this curve *)
  holds : S -> EcCurve -> ec_priv C -> Prop;
  (** it does not crash *)
  oracle_safe o a b : fst (ecdh o a b) <> Panic;
  (** a secret it returns is the one of a private key of the public key asked *)
  oracle_sound o c r u p up s o' :
    ec_uncompressed C c r = Ok u -> ec_uncompressed C c p = Ok up ->
    ecdh o (ec_point_to_ssh_pubkey_blob c u) (ec_point_to_ssh_pubkey_blob c up) = (Ok s, o') ->
    exists priv, ec_public C priv = r /\ ec_derive C priv p = Ok s;
  (** asked for a key it holds, it answers *)
  oracle_complete o c priv u p up s :
    holds o c priv ->
    ec_uncompressed C c (ec_public C priv) = Ok u -> ec_uncompressed C c p = Ok up ->
    ec_derive C priv p = Ok s ->
    exists s' o', ecdh o (ec_point_to_ssh_pubkey_blob c u) (ec_point_to_ssh_pubkey_blob c up)
                  = (Ok s', o');
  (** and keeps the keys it holds *)
  oracle_keeps o a b c priv : holds o c priv -> holds (snd (ecdh o a b)) c priv;
}.

(** ** Lemmas *)

Section Sealed.
Context (C : Crypto) (L : CryptoLaws C).
Context {S : Type} `{EcdhOracle S} `{!EcdhOracleLaws C S}.

Definition keeps (o o' : S) : Prop := forall c priv, holds o c priv -> holds o' c priv.

Lemma keeps_refl o : keeps o o.
Proof. now intros ? ?. Qed.

Lemma keeps_trans o1 o2 o3 : keeps o1 o2 -> keeps o2 o3 -> keeps o1 o3.
Proof. intros H1 H2 c priv Hp. auto. Qed.

Lemma find_by_curve eks c pk :
  find_ephemeral eks c = Some pk ->
  List.find (fun cp => bool_decide (fst cp = c)) (map (fun ek => (ek_curve ek, ek_pubkey ek)) eks)
  = Some (c, pk).
Proof.
  unfold find_ephemeral. induction eks as [|ek eks IH]; simpl; [discriminate|].
  destruct (bool_decide_reflect (ek_curve ek = c)) as [<-|_]; simpl; [now intros [= <-]|exact IH].
Qed.

Lemma decompress_compressed c p b :
  ec_compressed C c p = Ok b ->
  b <> [] /\ exists u, ec_uncompressed C c p = Ok u /\ decompress_ec_point C c b = Ok u.
Proof.
  intros Hc. destruct (ec_compressed_form C L _ _ _ Hc) as (Hl & _ & Hh).
  pose proof (ec_from_compressed C L _ _ _ Hc) as Hp.
  destruct (ec_uncompressed_form C L _ _ _ Hp) as (u & Hu & _).
  split; [intros ->; change (len (@nil Z)) with 0 in Hl; lia|].
  exists u. split; [exact Hu|]. unfold decompress_ec_point.
  rewrite bool_decide_false by exact Hh. rewrite Hp. exact Hu.
Qed.

(** The box of a sealed part, as it comes back from the wire. *)
Lemma try_part_sealed es eks tp m p guid slot o :
  eph_ok C es -> ephemeral_keys es = eks -> sealed_part C es tp m p ->
  let b := inline_view guid slot (piv_box p) in
  exists out o', try_part C (map (fun ek => (ek_curve ek, ek_pubkey ek)) eks) b o = Ok (out, o') /\
    keeps o o' /\
    ((out = Opened (with_plaintext b (Some m))) \/
     ((out = Skipped \/ exists r, out = Failed r) /\
      forall priv, holds o (curve b) priv ->
        ec_from_bytes C (curve b) (recipient_pubkey b) = Ok (ec_public C priv) -> False)).
Proof.
  intros Hes <- Hsp b.
  destruct (sp_seal _ _ _ _ _ Hsp) as (e & r & b0 & n & i & He & _ & Hb0 & _ & Hseal).
  destruct (find_priv_ephemeral C es _ e Hes He) as (pk & Hpk & Hcomp).
  destruct (seal_pinned_inv C L _ _ _ _ _ _ Hseal)
    as (m' & s & Hm & Hs & Hrp & _ & _ & _ & _ & Hcu & _).
  assert (Hcb : curve b = tp_pubkey_curve tp) by (simpl; rewrite Hcu, Hb0; reflexivity).
  rewrite Hb0 in Hm, Hrp. simpl in Hm, Hrp. injection Hm as <-.
  assert (Hres : resolve_ephemeral (map (fun ek => (ek_curve ek, ek_pubkey ek)) (ephemeral_keys es)) b = pk).
  { unfold resolve_ephemeral. rewrite bool_decide_true by reflexivity.
    now rewrite Hcb, (find_by_curve _ _ _ Hpk). }
  destruct (decompress_compressed _ _ _ Hrp) as (Hne1 & u & Hu & Hdu).
  destruct (decompress_compressed _ _ _ Hcomp) as (Hne2 & up & Hup & Hdup).
  unfold try_part. rewrite Hres. change (recipient_pubkey b) with (recipient_pubkey (piv_box p)).
  rewrite (bool_decide_false _ Hne1), (bool_decide_false _ Hne2). simpl orb. cbv iota.
  rewrite Hcb, Hdu, Hdup.
  pose proof (oracle_safe (C := C) o (ec_point_to_ssh_pubkey_blob (tp_pubkey_curve tp) u)
    (ec_point_to_ssh_pubkey_blob (tp_pubkey_curve tp) up)) as Hsafe.
  pose proof (oracle_keeps (C := C) o (ec_point_to_ssh_pubkey_blob (tp_pubkey_curve tp) u)
    (ec_point_to_ssh_pubkey_blob (tp_pubkey_curve tp) up)) as Hkeeps.
  destruct (ecdh o _ _) as [answer o'] eqn:Hask. simpl in Hsafe, Hkeeps.
  assert (Hno : forall e, answer = Err e -> forall priv, holds o (tp_pubkey_curve tp) priv ->
            ec_from_bytes C (tp_pubkey_curve tp) (recipient_pubkey (piv_box p)) = Ok (ec_public C priv) ->
            False).
  { intros e' -> priv Hh Hr. rewrite (ec_from_compressed C L _ _ _ Hrp) in Hr. injection Hr as Hr.
    rewrite Hr in Hu, Hs. pose proof (ec_agree C L _ _ _ Hs) as Hs'.
    destruct (oracle_complete o _ priv u _ up s Hh Hu Hup Hs') as (s2 & o2 & Ho).
    rewrite Hask in Ho. discriminate. }
  assert (Hk : keeps o o') by (intros c priv; apply Hkeeps).
  destruct answer as [secret|e'|]; [| |now destruct Hsafe].
  - destruct (oracle_sound o _ _ _ _ _ _ _ Hu Hup Hask) as (priv & Hpub & Hder).
    rewrite <- Hpub in Hs. rewrite (ec_agree C L _ _ _ Hs) in Hder. injection Hder as ->.
    rewrite <- Hpub in Hseal.
    rewrite (open_sealed C L _ _ _ _ _ _ b secret Hseal Hs eq_refl eq_refl eq_refl), Hb0.
    exists (Opened (with_plaintext b (Some m))), o'. auto.
  - destruct e'; eexists _, o'; (split; [reflexivity|]); (split; [exact Hk|]); right;
      (split; [eauto|exact (Hno _ eq_refl)]).
Qed.

(** The parts of a created config whose message is [m] throughout. *)
Definition sealed_with (es : Ephemerals C) (m : bytes) (p : EboxPart) : Prop :=
  exists tp, sealed_part C es tp m p.

Lemma try_parts_sealed es eks m ps : forall o reason,
  eph_ok C es -> ephemeral_keys es = eks -> Forall (sealed_with es m) ps ->
  exists ps' o' opened reason',
    try_parts C (map (fun ek => (ek_curve ek, ek_pubkey ek)) eks) (part_view <$> ps) o reason
    = Ok (ps', o', opened, reason') /\ keeps o o' /\
    (if opened then exists ps2, take_first ps' = Ok (Some (m, ps2)) else ps' = part_view <$> ps) /\
    forall p priv, p ∈ ps -> holds o (curve (piv_box p)) priv ->
      ec_from_bytes C (curve (piv_box p)) (recipient_pubkey (piv_box p)) = Ok (ec_public C priv) ->
      opened = true.
Proof.
  intros o reason Hes Heks Hps. revert o reason.
  induction Hps as [|p ps [tp Hp] _ IH]; intros o reason.
  - exists [], o, false, reason. split; [reflexivity|]. split; [apply keeps_refl|].
    split; [reflexivity|]. intros p priv Hin. now apply elem_of_nil in Hin.
  - destruct (try_part_sealed es eks tp m p (ep_guid p) (ep_slot p) o Hes Heks Hp)
      as (out & o1 & Htry & Hk1 & Hout). cbn [fmap list_fmap try_parts].
    change (piv_box (part_view p)) with (inline_view (ep_guid p) (ep_slot p) (piv_box p)).
    rewrite Htry. cbn [res_bind]. destruct Hout as [->|[Hout Hno]].
    + eexists _, o1, true, reason. split; [reflexivity|]. split; [exact Hk1|].
      split; [|trivial]. eexists. reflexivity.
    + assert (G : forall reason1, exists ps' o' opened reason',
          (let* (ps, oracle, opened, reason) :=
             try_parts C (map (fun ek => (ek_curve ek, ek_pubkey ek)) eks) (part_view <$> ps) o1 reason1 in
           Ok (part_view p :: ps, oracle, opened, reason)) = Ok (ps', o', opened, reason') /\ keeps o o' /\
          (if opened then exists ps2, take_first ps' = Ok (Some (m, ps2))
           else ps' = part_view p :: (part_view <$> ps)) /\
          forall q priv, q ∈ p :: ps -> holds o (curve (piv_box q)) priv ->
            ec_from_bytes C (curve (piv_box q)) (recipient_pubkey (piv_box q)) = Ok (ec_public C priv) ->
            opened = true).
      { intros reason1. destruct (IH o1 reason1) as (ps' & o' & opened & reason' & Hrun & Hk & Hres & Hheld).
        rewrite Hrun. cbn [res_bind]. exists (part_view p :: ps'), o', opened, reason'.
        split; [reflexivity|]. split; [now apply keeps_trans with o1|]. split.
        - destruct opened; [|now rewrite Hres]. destruct Hres as [ps2 Hps2].
          exists (part_view p :: ps2). cbn [take_first has_plaintext]. simpl. now rewrite Hps2.
        - intros q priv [->|Hq]%elem_of_cons Hh Hr; [now destruct (Hno priv Hh Hr)|].
          apply (Hheld q priv Hq); [now apply Hk1|exact Hr]. }
      destruct Hout as [->|[r ->]]; apply G.
Qed.

Lemma set_config_same eb idx c :
  eb_configs eb !! idx = Some c -> set_config eb idx (with_parts c (ec_parts c)) = eb.
Proof.
  intros Hc. unfold set_config, with_configs.
  replace (with_parts c (ec_parts c)) with c by now destruct c.
  rewrite list_insert_id by exact Hc. now destruct eb.
Qed.

(** A PRIMARY config of a created ebox, through the wire. *)
Lemma try_unlock_sealed es eb idx c m o :
  eph_ok C es -> ephemeral_keys es = eb_ephemeral_keys eb ->
  eb_configs eb !! idx = Some c -> Forall (sealed_with es m) (ec_parts c) ->
  exists o' r eb', try_unlock_with_oracle C (ebox_view eb) idx o = (eb', o', r) /\ keeps o o' /\
    ((r = Ok tt /\ eb_key eb' = Some m) \/
     (eb' = ebox_view eb /\ (exists reason, r = Err (UnlockFailed reason)) /\
      forall p priv, p ∈ ec_parts c -> holds o (curve (piv_box p)) priv ->
        ec_from_bytes C (curve (piv_box p)) (recipient_pubkey (piv_box p)) = Ok (ec_public C priv) ->
        False)).
Proof.
  intros Hes Heks Hc Hps.
  assert (Hv : eb_configs (ebox_view eb) !! idx = Some (config_view c)).
  { simpl. rewrite list_lookup_fmap, Hc. reflexivity. }
  unfold try_unlock_with_oracle, ephemerals_by_curve. rewrite Hv.
  change (ec_parts (config_view c)) with (part_view <$> ec_parts c).
  change (eb_ephemeral_keys (ebox_view eb)) with (eb_ephemeral_keys eb).
  destruct (try_parts_sealed es _ m (ec_parts c) o None Hes Heks Hps)
    as (ps' & o' & opened & reason & Hrun & Hk & Hres & Hheld).
  rewrite Hrun. pose proof (lookup_lt_Some _ _ _ Hv) as Hlt. destruct opened; simpl.
  - destruct Hres as [ps2 Hps2]. unfold unlock. simpl.
    rewrite list_lookup_insert_eq by exact Hlt. simpl. rewrite Hps2. simpl.
    eexists o', (Ok tt), _. split; [reflexivity|]. split; [exact Hk|]. left. now split.
  - eexists o', _, _. split; [reflexivity|]. split; [exact Hk|]. right. subst ps'. split.
    + exact (set_config_same _ _ _ Hv).
    + split; [eauto|]. intros p priv Hp Hh Hr. discriminate (Hheld p priv Hp Hh Hr).
Qed.
End Sealed.

Lemma primary_indices_spec eb i :
  i ∈ primary_indices eb <-> exists c, eb_configs eb !! i = Some c /\ ec_type c = Primary.
Proof.
  unfold primary_indices. rewrite list_elem_of_omap. split.
  - intros ([j c] & Hin & Heq). simpl in Heq. case_bool_decide as Ht; [|discriminate].
    injection Heq as ->. apply list_elem_of_lookup in Hin as (k & Hk).
    rewrite list_lookup_imap in Hk. destruct (eb_configs eb !! k) as [c'|] eqn:Hc; [|discriminate].
    simpl in Hk. injection Hk as -> ->. eauto.
  - intros (c & Hc & Ht). exists (i, c). simpl. rewrite bool_decide_true by exact Ht.
    split; [|reflexivity]. apply list_elem_of_lookup. exists i.
    now rewrite list_lookup_imap, Hc.
Qed.

Section Flow.
Context (C : Crypto) (L : CryptoLaws C).
Context {A K : Type} `{EcdhOracle A} `{EcdhOracle K} `{!EcdhOracleLaws C A} `{!EcdhOracleLaws C K}.

(** Nobody asked holds the key of a part of this config. *)
Definition none_holds {S} `{EcdhOracle S} `{!EcdhOracleLaws C S} (o : option S) (c : EboxConfig) : Prop :=
  forall o' p priv, o = Some o' -> p ∈ ec_parts c -> holds o' (curve (piv_box p)) priv ->
    ec_from_bytes C (curve (piv_box p)) (recipient_pubkey (piv_box p)) = Ok (ec_public C priv) ->
    False.

Definition keeps_opt {S} `{EcdhOracle S} `{!EcdhOracleLaws C S} (o o' : option S) : Prop :=
  match o, o' with
  | Some o, Some o' => keeps C o o'
  | None, None => True
  | _, _ => False
  end.

Lemma none_holds_keeps {S} `{EcdhOracle S} `{!EcdhOracleLaws C S} (o o' : option S) c :
  keeps_opt o o' -> none_holds o' c -> none_holds o c.
Proof.
  intros Hk Hn x p priv -> Hp Hh Hr. destruct o' as [y|]; [|destruct Hk].
  exact (Hn y p priv eq_refl Hp (Hk _ _ Hh) Hr).
Qed.

Lemma try_oracle_sealed {S} `{EcdhOracle S} `{!EcdhOracleLaws C S} es eb idx c m (o : option S) reason :
  eph_ok C es -> ephemeral_keys es = eb_ephemeral_keys eb ->
  eb_configs eb !! idx = Some c -> Forall (sealed_with C es m) (ec_parts c) ->
  exists o' reason' eb' r, try_oracle C (ebox_view eb) idx o reason = (eb', o', reason', r) /\
    keeps_opt o o' /\
    ((r = Some (Ok tt) /\ eb_key eb' = Some m) \/
     (r = None /\ eb' = ebox_view eb /\ none_holds o c)).
Proof.
  intros Hes Heks Hc Hps. destruct o as [o|]; simpl.
  - destruct (try_unlock_sealed C L es eb idx c m o Hes Heks Hc Hps)
      as (o' & r & eb' & -> & Hk & [[-> Hkey]|(-> & [re ->] & Hno)]).
    + eexists (Some o'), _, _, _. split; [reflexivity|]. split; [exact Hk|]. left. auto.
    + eexists (Some o'), _, _, _. split; [reflexivity|]. split; [exact Hk|]. right.
      split; [reflexivity|]. split; [reflexivity|]. intros x p priv [= <-]. apply Hno.
  - eexists None, _, _, _. split; [reflexivity|]. split; [exact I|]. right.
    split; [reflexivity|]. split; [reflexivity|]. intros x p priv [=].
Qed.

Lemma unlock_loop_sealed es eb m idxs : forall (agent : option A) (card : option K) reason,
  eph_ok C es -> ephemeral_keys es = eb_ephemeral_keys eb ->
  (forall i, i ∈ idxs -> exists c, eb_configs eb !! i = Some c /\ Forall (sealed_with C es m) (ec_parts c)) ->
  exists eb' agent' card' r, unlock_loop C idxs (ebox_view eb) agent card reason = (eb', agent', card', r) /\
    ((r = Ok tt /\ eb_key eb' = Some m) \/
     ((exists re, r = Err (UnlockFailed re)) /\ eb' = ebox_view eb /\
      forall i c, i ∈ idxs -> eb_configs eb !! i = Some c -> none_holds agent c /\ none_holds card c)).
Proof.
  intros agent card reason Hes Heks. revert agent card reason.
  induction idxs as [|i idxs IH]; intros agent card reason Hidx; simpl.
  - eexists _, _, _, _. split; [reflexivity|]. right. split; [eauto|]. split; [reflexivity|].
    intros i c Hi. now apply elem_of_nil in Hi.
  - destruct (Hidx i (list_elem_of_here _ _)) as (c & Hc & Hps).
    destruct (try_oracle_sealed es eb i c m agent reason Hes Heks Hc Hps)
      as (ag1 & re1 & eb1 & r1 & -> & Hk1 & [[-> Hkey]|(-> & -> & Hno1)]).
    { eexists _, _, _, _. split; [reflexivity|]. left. auto. }
    destruct (try_oracle_sealed es eb i c m card re1 Hes Heks Hc Hps)
      as (cd1 & re2 & eb2 & r2 & -> & Hk2 & [[-> Hkey]|(-> & -> & Hno2)]).
    { eexists _, _, _, _. split; [reflexivity|]. left. auto. }
    destruct (IH ag1 cd1 re2) as (eb' & ag' & cd' & r & Hrun & Hres).
    { intros j Hj. apply Hidx. now apply list_elem_of_further. }
    eexists _, _, _, _. split; [exact Hrun|]. destruct Hres as [Hok|(Hr & Heb & Hno)]; [now left|].
    right. split; [exact Hr|]. split; [exact Heb|].
    intros j cj [->|Hj]%elem_of_cons Hcj.
    + rewrite Hc in Hcj. injection Hcj as <-. auto.
    + destruct (Hno j cj Hj Hcj) as [Ha Hb].
      split; eapply none_holds_keeps; eassumption.
Qed.

(** The PRIMARY configs of a created ebox are sealed to its key. *)
Lemma created_primary tpl key t eb :
  created C tpl key t eb ->
  exists es, eph_ok C es /\ ephemeral_keys es = eb_ephemeral_keys eb /\
    forall i c, eb_configs eb !! i = Some c -> ec_type c = Primary ->
      Forall (sealed_with C es key) (ec_parts c).
Proof.
  intros [_ _ _ _ (es & rk & g & plain & g' & Hek & Heph & _ & _ & _ & _ & Hcs)].
  exists es. split; [exact Heph|]. split; [exact Hek|]. intros i c Hc Ht.
  destruct (Forall2_lookup_r _ _ _ _ _ Hcs Hc) as (tc & _ & [Et _ (ms & Hms & Hmsg)]).
  unfold config_msgs in Hmsg. rewrite <- Et, Ht in Hmsg. destruct Hmsg as [_ Hall].
  clear - Hms Hall. induction Hms as [|tp m p tps ms ps Hp _ IH]; [constructor|].
  inversion_clear Hall. subst m. constructor; [now exists tp|auto].
Qed.
End Flow.

(** A created ebox, written, read back and unlocked. *)
Lemma created_unlocks C tpl key t g eb g' {A K} `{EcdhOracle A} `{EcdhOracle K}
    `{!EcdhOracleLaws C A} `{!EcdhOracleLaws C K} (agent : option A) (card : option K) :
  CryptoLaws C -> create C tpl key t g = Ok (eb, g') ->
  template_ok tpl -> t <> TypeTemplate -> len key <= 237 ->
  exists bs eb1 eb2 agent' card' r,
    ebox_to_bytes eb = Ok bs /\ ebox_from_bytes bs = Ok eb1 /\
    unlock_ebox C eb1 agent card = (eb2, agent', card', r) /\
    ((r = Ok tt /\ eb_key eb2 = Some key) \/
     ((exists reason, r = Err (UnlockFailed reason)) /\ eb2 = eb1 /\
      forall c, c ∈ eb_configs eb -> ec_type c = Primary ->
        none_holds C agent c /\ none_holds C card c)).
Proof.
  intros L Hcr Htpl Ht Hkey. pose proof (create_created C L _ _ _ _ _ _ Hcr) as Hcreated.
  pose proof (created_ok C L _ _ _ _ Hcreated Htpl Ht Hkey) as Hok.
  destruct (created_primary C _ _ _ _ Hcreated) as (es & Hes & Heks & Hprim).
  set (reason := if bool_decide (primary_indices (ebox_view eb) = []) && existsb
    (fun c => bool_decide (ec_type c = Recovery)) (eb_configs (ebox_view eb))
    then Some RecoveryOnly else None).
  destruct (unlock_loop_sealed C L es eb key (primary_indices (ebox_view eb)) agent card reason Hes Heks)
    as (eb2 & ag & cd & r & Hrun & Hres).
  { intros i (cv & Hc & Hp)%primary_indices_spec. simpl in Hc. rewrite list_lookup_fmap in Hc.
    destruct (eb_configs eb !! i) as [c|] eqn:Hci; [|discriminate]. injection Hc as <-.
    exists c. split; [reflexivity|]. exact (Hprim i c Hci Hp). }
  exists (enc_ebox eb), (ebox_view eb), eb2, ag, cd, r.
  split; [unfold ebox_to_bytes; now rewrite (writes_ebox eb Hok writer_new)|].
  split; [rewrite <- (app_nil_r (enc_ebox eb)); apply parse_all_reads, (reads_ebox eb Hok)|].
  split; [exact Hrun|]. destruct Hres as [Hgood|(Hr & Heb & Hno)]; [now left|]. right.
  split; [exact Hr|]. split; [exact Heb|]. intros c (i & Hc)%list_elem_of_lookup Hp.
  apply (Hno i c); [|exact Hc]. apply primary_indices_spec. exists (config_view c).
  split; [|exact Hp]. simpl. now rewrite list_lookup_fmap, Hc.
Qed.

(** Each recipient of the template has a part of its own, sealed to its key. *)
Lemma created_holder C tpl key t eb tc tp pub :
  CryptoLaws C -> created C tpl key t eb -> tc ∈ tpl_configs tpl -> tp ∈ tc_parts tc ->
  ec_from_bytes C (tp_pubkey_curve tp) (tp_pubkey tp) = Ok pub ->
  exists c p, c ∈ eb_configs eb /\ ec_type c = tc_type tc /\ p ∈ ec_parts c /\ curve (piv_box p) = tp_pubkey_curve tp /\
    ec_from_bytes C (curve (piv_box p)) (recipient_pubkey (piv_box p)) = Ok pub.
Proof.
  intros L [_ _ _ _ (es & rk & g & plain & g' & _ & _ & _ & _ & _ & _ & Hcs)] Htc Htp Hpub.
  apply list_elem_of_lookup in Htc as (i & Htc). destruct (Forall2_lookup_l _ _ _ _ _ Hcs Htc) as (c & Hc & [Ht _ (ms & Hms & _)]).
  apply list_elem_of_lookup in Htp as (j & Htp). destruct (Forall3_lookup_l _ _ _ _ _ _ Hms Htp) as (m & p & _ & Hp & Hs).
  destruct (sp_seal _ _ _ _ _ Hs) as (e & r & b0 & n & iv & _ & Hr & -> & _ & Hseal). rewrite Hpub in Hr. injection Hr as <-.
  destruct (seal_pinned_inv C L _ _ _ _ _ _ Hseal) as (_ & _ & _ & _ & Hcomp & _ & _ & _ & _ & Hcurve & _).
  assert (Ecurve : curve (piv_box p) = tp_pubkey_curve tp) by (rewrite Hcurve; now destruct (tp_guid tp)).
  exists c, p. split; [apply list_elem_of_lookup; eauto|]. split; [exact Ht|]. split; [apply list_elem_of_lookup; eauto|]. split; [exact Ecurve|].
  apply (ec_from_compressed C L). rewrite Hcurve. exact Hcomp.
Qed.

(** ** Properties *)

(** C1 (functional).  An ebox created for a key, written to bytes and read back,
    is unlocked by the agent or the card that holds the private key of a part
    of a PRIMARY config, and then holds exactly that key; if the flow fails, the
    ebox is unchanged and neither of them held such a key. *)
Theorem unlock_created C tpl key t g eb g' {A K} `{EcdhOracle A} `{EcdhOracle K}
    `{!EcdhOracleLaws C A} `{!EcdhOracleLaws C K} (agent : option A) (card : option K) :
  CryptoLaws C -> create C tpl key t g = Ok (eb, g') ->
  template_ok tpl -> t <> TypeTemplate -> len key <= 237 ->
  exists bs eb1 eb2 agent' card' r,
    ebox_to_bytes eb = Ok bs /\ ebox_from_bytes bs = Ok eb1 /\
    unlock_ebox C eb1 agent card = (eb2, agent', card', r) /\
    ((r = Ok tt /\ eb_key eb2 = Some key) \/
     ((exists reason, r = Err (UnlockFailed reason)) /\ eb2 = eb1 /\
      forall c, c ∈ eb_configs eb -> ec_type c = Primary ->
        none_holds C agent c /\ none_holds C card c)).
Proof. exact (created_unlocks C tpl key t g eb g' agent card). Qed.

(** *** A concrete oracle: a list of private keys *)

Definition toy_match (point : bytes) (k : Z) : bool :=
  match toy_point 4 k with Ok b => bytes_eqb b point | _ => false end.

Lemma toy_match_spec point k : toy_match point k = true <-> toy_point 4 k = Ok point.
Proof.
  unfold toy_match, bytes_eqb. destruct (toy_point 4 k) as [b|e|]; [|easy|easy].
  rewrite bool_decide_eq_true. split; [now intros ->|now intros [=]].
Qed.

Definition toy_find (keys : list Z) (point : bytes) : option Z :=
  List.find (toy_match point) keys.

#[export] Instance ToyOracle : EcdhOracle (list Z) := {
  ecdh keys self_blob partner_blob :=
    (match extract_point_from_sshkey_blob self_blob, extract_point_from_sshkey_blob partner_blob with
     | Ok self, Ok partner =>
         match toy_find keys self with
         | None => Err NoKey
         | Some k =>
             match ec_from_bytes ToyCrypto NistP256 partner with
             | Ok p => Ok (to_be_bytes 32 (k * p))
             | _ => Err (InvalidPubkey "partner")
             end
         end
     | _, _ => Err (InvalidPubkey "blob")
     end, keys);
}.

Lemma toy_blob c r u :
  ec_uncompressed ToyCrypto c r = Ok u ->
  extract_point_from_sshkey_blob (ec_point_to_ssh_pubkey_blob c u) = Ok u /\
  ec_from_bytes ToyCrypto NistP256 u = Ok r.
Proof.
  intros Hu. pose proof (ec_from_uncompressed ToyCrypto ToyCrypto_laws c r u Hu) as Hp.
  destruct (ec_uncompressed_form ToyCrypto ToyCrypto_laws _ _ _ Hp) as (u' & Hu' & Hl & Hb & _).
  rewrite Hu in Hu'. injection Hu' as <-. split; [|exact Hp]. apply extract_blob_point; [|lia].
  rewrite blob_enc by lia. unfold ssh_keytype, wire_name. destruct c; auto 10 with bytes.
Qed.

#[export] Instance ToyOracle_laws : EcdhOracleLaws ToyCrypto (list Z).
Proof.
  refine {| holds keys c priv := priv ∈ keys |}.
  - intros o a b. simpl. repeat case_match; discriminate.
  - intros o c r u p up s o' Hu Hup Hask. unfold ecdh, ToyOracle in Hask.
    destruct (toy_blob c r u Hu) as [H1 _], (toy_blob c p up Hup) as [H2 H3].
    rewrite H1, H2, H3 in Hask. unfold toy_find in Hask.
    destruct (List.find _ o) as [k|] eqn:Hk; [|discriminate]. apply find_some in Hk as [_ Hk].
    apply toy_match_spec in Hk. exists k. injection Hask as <- <-. split; [|reflexivity].
    change (ec_uncompressed ToyCrypto c k = Ok u) in Hk.
    pose proof (ec_from_uncompressed ToyCrypto ToyCrypto_laws _ _ _ Hk) as E1.
    pose proof (ec_from_uncompressed ToyCrypto ToyCrypto_laws _ _ _ Hu) as E2.
    rewrite E1 in E2. now injection E2.
  - intros o c priv u p up s Hin Hu Hup _. unfold ecdh, ToyOracle.
    destruct (toy_blob c priv u Hu) as [H1 _], (toy_blob c p up Hup) as [H2 H3].
    rewrite H1, H2, H3. unfold toy_find.
    destruct (List.find _ o) as [k|] eqn:Hk; [eauto|]. exfalso.
    apply list_elem_of_In in Hin. apply (find_none _ _ Hk) in Hin.
    apply not_true_iff_false in Hin. apply Hin, toy_match_spec. exact Hu.
  - intros o a b c priv H. exact H.
Defined.

Lemma unlock_created_witness :
  exists bs eb1 eb2 agent' card' r,
    ebox_to_bytes toy_ebox = Ok bs /\ ebox_from_bytes bs = Ok eb1 /\
    unlock_ebox ToyCrypto eb1 (Some [3; 11]) (Some [5]) = (eb2, agent', card', r) /\
    r = Ok tt /\ eb_key eb2 = Some toy_key.
Proof.
  destruct toy_created_ok as [g Hg].
  destruct (unlock_created ToyCrypto toy_template toy_key TypeKey 5 toy_ebox g (Some [3; 11]) (Some [5])
    ToyCrypto_laws Hg toy_template_ok ltac:(discriminate) ltac:(by_compute))
    as (bs & eb1 & eb2 & ag & cd & r & H1 & H2 & H3 & [[H4 H5]|(_ & _ & Hno)]).
  - exists bs, eb1, eb2, ag, cd, r. auto.
  - exfalso.
    destruct (eb_configs toy_ebox) as [|c cs] eqn:Hc; [vm_compute in Hc; discriminate|].
    assert (Ht : ec_type c = Primary) by (vm_compute in Hc; injection Hc as <- _; reflexivity).
    destruct (Hno c (list_elem_of_here _ _) Ht) as [Ha _].
    destruct (ec_parts c) as [|p ps] eqn:Hp; [vm_compute in Hc; injection Hc as <- _; discriminate|].
    apply (Ha [3; 11] p 11 eq_refl).
    + rewrite Hp. apply list_elem_of_here.
    + apply list_elem_of_further, list_elem_of_here.
    + vm_compute in Hc. injection Hc as <- _. injection Hp as <- _. reflexivity.
Defined.
