(* ===== verification/Stream.v ===== *)
(** * Stream: the chunked stream of [piggy-box/src/stream.rs]

    A stream is an ebox whose key encrypts numbered chunks: AES-256-CTR with an
    IV made of the chunk's number, then an HMAC over the ciphertext. *)

From Stdlib Require Import ZArith Lia String.
From stdpp Require Import base tactics list numbers.
From S2P Require Import Prelude Utf8 PivError Guid Reader Wire Crypto PivBox Tagged Template Ebox.

Local Open Scope Z_scope.

Definition DEFAULT_CHUNK_SIZE : Z := 128 * 1024.
Definition STREAM_CIPHER : bytes := ascii "aes256-ctr".
Definition STREAM_MAC : bytes := ascii "sha256".
Definition AES_BLOCK_SIZE : Z := 16.
Definition AES_KEY_LEN : Z := 32.
Definition AES_IV_LEN : Z := 16.
Definition HMAC_LEN : Z := 32.

Record EboxStream := MkStream {
  st_ebox : Ebox;
  st_cipher : bytes;
  st_mac : bytes;
  st_chunk_size : Z;
}.

(** [EboxStream::to_bytes], [EboxStream::from_bytes] *)
Definition put_stream (w : WireWriter) (s : EboxStream) : res BoxError WireWriter :=
  let* ebox_bytes := ebox_to_bytes (st_ebox s) in
  let w := put_raw w ebox_bytes in
  let w := put_u64 w (st_chunk_size s) in
  let* w := put_cstring8 w (st_cipher s) in
  put_cstring8 w (st_mac s).

Definition stream_to_bytes (s : EboxStream) : res BoxError bytes :=
  let* w := put_stream writer_new s in
  Ok (into_bytes w).

Definition get_stream : Rd EboxStream :=
  let! ebox := read_from in
  let! chunk_size := get_u64 in
  let! cipher := get_cstring8 in
  let! mac := get_cstring8 in
  rd_ret (MkStream ebox cipher mac chunk_size).

Definition stream_from_bytes (data : bytes) : res BoxError EboxStream := parse_all get_stream data.

(** [iv[..4].copy_from_slice(&seqnr.to_be_bytes())] on 16 zero bytes *)
Definition seqnr_to_iv (seqnr : Z) : bytes := to_be_bytes 4 seqnr ++ repeat 0 (Z.to_nat (AES_IV_LEN - 4)).

(** The two fields a chunk is framed in. *)
Definition get_frame : Rd (Z * bytes) :=
  let! seqnr := get_u32 in
  let! enc_with_mac := get_string in
  rd_ret (seqnr, enc_with_mac).

Section Chunks.
Context (C : Crypto).

(** [EboxStream::new] *)
Definition stream_new (tpl : EboxTemplate) (g : rng C) : res BoxError (EboxStream * rng C) :=
  let* (key_bytes, g) := rand_bytes C AES_KEY_LEN g in
  let* (ebox, g) := create C tpl key_bytes TypeStream g in
  let ebox := set_key ebox key_bytes in
  Ok (MkStream ebox STREAM_CIPHER STREAM_MAC DEFAULT_CHUNK_SIZE, g).

Definition encrypt_chunk (s : EboxStream) (seqnr : Z) (plaintext : bytes) : res BoxError bytes :=
  let* key := ok_or (eb_key (st_ebox s)) NotUnlocked in
  let padded := pkcs7_pad plaintext AES_BLOCK_SIZE in
  let iv := seqnr_to_iv seqnr in
  let* ciphertext := aes_ctr C key iv padded in
  let* mac := hmac C key ciphertext in
  let w := put_u32 writer_new seqnr in
  let enc_data := ciphertext ++ mac in
  let w := put_string w enc_data in
  Ok (into_bytes w).

(** The body of [decrypt_chunk] from the framed fields on. *)
Definition open_frame (key : bytes) (seqnr : Z) (enc_with_mac : bytes) : res BoxError (Z * bytes) :=
  if len enc_with_mac <? HMAC_LEN + AES_BLOCK_SIZE then Err (Wire ChunkTooShort)
  else
    let* mac_offset := usub (len enc_with_mac) HMAC_LEN in
    let* ciphertext := slice enc_with_mac 0 mac_offset in
    let* received_mac := slice_from enc_with_mac mac_offset in
    let* computed_mac := hmac C key ciphertext in
    let* same := memcmp_eq C computed_mac received_mac in
    if negb same then Err (HmacMismatch seqnr)
    else
      let iv := seqnr_to_iv seqnr in
      let* padded := aes_ctr C key iv ciphertext in
      let* plain := pkcs7_unpad padded AES_BLOCK_SIZE in
      Ok (seqnr, plain).

Definition decrypt_chunk (s : EboxStream) (expected_seqnr : option Z) (chunk_data : bytes)
    : res BoxError (Z * bytes) :=
  let* key := ok_or (eb_key (st_ebox s)) NotUnlocked in
  let* (seqnr, enc_with_mac) := parse_all get_frame chunk_data in
  match expected_seqnr with
  | Some expected =>
      if negb (seqnr =? expected) then Err (SequenceMismatch expected seqnr)
      else open_frame key seqnr enc_with_mac
  | None => open_frame key seqnr enc_with_mac
  end.
End Chunks.

(** ** Lemmas *)

Definition enc_frame (seqnr : Z) (enc : bytes) : bytes := to_be_bytes 4 seqnr ++ enc32 enc.

Lemma reads_frame seqnr enc :
  0 <= seqnr < 2 ^ 32 -> len enc < 2 ^ 32 -> reads get_frame (seqnr, enc) (enc_frame seqnr enc).
Proof.
  intros Hs He. apply reads_bind with seqnr; [now apply reads_u32|].
  apply reads_bind_last with enc; [now apply reads_string|apply reads_ret].
Qed.

Section ChunkLemmas.
Context (C : Crypto) (L : CryptoLaws C).

(** What an encrypted chunk is. *)
Lemma encrypt_chunk_inv s seqnr pt chunk :
  encrypt_chunk C s seqnr pt = Ok chunk ->
  exists key ct mac, eb_key (st_ebox s) = Some key /\
    aes_ctr C key (seqnr_to_iv seqnr) (pkcs7_pad pt AES_BLOCK_SIZE) = Ok ct /\
    hmac C key ct = Ok mac /\ len mac = HMAC_LEN /\ bytes_ok (ct ++ mac) /\
    len ct = len pt + pad_len pt AES_BLOCK_SIZE /\
    (len ct + HMAC_LEN < 2 ^ 32 -> chunk = enc_frame seqnr (ct ++ mac)).
Proof.
  unfold encrypt_chunk. intros H. apply res_bind_Ok_inv in H as (key & Hk & H).
  apply res_bind_Ok_inv in H as (ct & Hct & H). apply res_bind_Ok_inv in H as (mac & Hmac & H).
  destruct (eb_key (st_ebox s)) as [k|]; [|discriminate]. injection Hk as ->.
  destruct (hmac_len C L _ _ _ Hmac) as [Hml Hmb]. destruct (ctr_len C L _ _ _ _ Hct) as [Hcl Hcb].
  rewrite len_pkcs7_pad in Hcl by reflexivity.
  exists key, ct, mac. repeat (split; [assumption || reflexivity|]).
  split; [auto with bytes|]. split; [exact Hcl|]. intros Hlen. apply Ok_inj in H. subst chunk.
  rewrite put_string_Ok by (rewrite len_app, Hml; exact Hlen).
  reflexivity.
Qed.

(** A frame whose MAC is right. *)
Lemma open_frame_mac key seqnr ct mac :
  hmac C key ct = Ok mac -> AES_BLOCK_SIZE <= len ct ->
  open_frame C key seqnr (ct ++ mac)
  = let* padded := aes_ctr C key (seqnr_to_iv seqnr) ct in
    let* plain := pkcs7_unpad padded AES_BLOCK_SIZE in
    Ok (seqnr, plain).
Proof.
  intros Hmac Hlen. destruct (hmac_len C L _ _ _ Hmac) as [Hml _].
  unfold AES_BLOCK_SIZE, HMAC_LEN in *. unfold open_frame, AES_BLOCK_SIZE, HMAC_LEN.
  rewrite len_app, Hml. zbool. rewrite usub_Ok by lia. cbn [res_bind].
  replace (len ct + 32 - 32) with (len ct) by lia.
  rewrite slice_Ok by (rewrite ?len_app; lia). cbn [res_bind].
  rewrite Z.sub_0_r, zdrop_0, ztake_app.
  rewrite slice_from_Ok by (rewrite len_app; lia). cbn [res_bind]. rewrite zdrop_app, Hmac.
  cbn [res_bind]. rewrite (memcmp_same C L) by reflexivity. cbn [res_bind].
  unfold bytes_eqb. now rewrite bool_decide_true by reflexivity.
Qed.
End ChunkLemmas.

(** ** Properties *)

(** A stream header serialises and parses back, whatever
    chunks follow it. *)
Theorem stream_roundtrip s t :
  ebox_ok (st_ebox s) -> cstr_ok (st_cipher s) -> cstr_ok (st_mac s) ->
  0 <= st_chunk_size s < 2 ^ 64 ->
  exists bs, stream_to_bytes s = Ok bs /\
    stream_from_bytes (bs ++ t)
    = Ok (MkStream (ebox_view (st_ebox s)) (st_cipher s) (st_mac s) (st_chunk_size s)).
Proof.
  intros He Hc Hm Hz.
  exists (enc_ebox (st_ebox s) ++ to_be_bytes 8 (st_chunk_size s) ++ enc8 (st_cipher s) ++ enc8 (st_mac s)).
  split.
  - unfold stream_to_bytes, put_stream, ebox_to_bytes, put_u64.
    rewrite (writes_ebox _ He writer_new). cbn [res_bind]. rewrite put_cstring8_Ok by exact Hc.
    cbn [res_bind]. rewrite put_cstring8_Ok by exact Hm. cbn [res_bind]. rewrite !put_raw_app.
    reflexivity.
  - apply parse_all_reads. apply reads_bind with (ebox_view (st_ebox s)); [now apply reads_ebox|].
    apply reads_bind with (st_chunk_size s); [now apply reads_u64|]. reads_field (st_cipher s).
    apply reads_bind_last with (st_mac s); [eauto with wire|apply reads_ret].
Qed.

(** A chunk encrypted on one stream is decrypted, on any stream
    that holds the same key, to the same data and number, when no number or
    that number is expected; any other expectation is a [SequenceMismatch]. *)
Theorem chunk_roundtrip C s1 s2 seqnr pt chunk expected :
  CryptoLaws C -> 0 <= seqnr < 2 ^ 32 -> len pt + 48 < 2 ^ 32 ->
  encrypt_chunk C s1 seqnr pt = Ok chunk -> eb_key (st_ebox s2) = eb_key (st_ebox s1) ->
  decrypt_chunk C s2 expected chunk =
  match expected with
  | Some e => if e =? seqnr then Ok (seqnr, pt) else Err (SequenceMismatch e seqnr)
  | None => Ok (seqnr, pt)
  end.
Proof.
  intros L Hs Hl Henc Hkey.
  destruct (encrypt_chunk_inv C L _ _ _ _ Henc)
    as (key & ct & mac & Hk & Hct & Hmac & Hml & _ & Hcl & Hchunk).
  unfold AES_BLOCK_SIZE, HMAC_LEN in *. pose proof (pad_len_bound pt 16 ltac:(lia)). pose proof (pad_len_block pt 16 ltac:(lia)).
  pose proof (len_nonneg pt). rewrite Hchunk by lia. unfold decrypt_chunk. rewrite Hkey, Hk.
  cbn [ok_or res_bind]. rewrite <- (app_nil_r (enc_frame _ _)).
  rewrite (parse_all_reads _ (seqnr, ct ++ mac))
    by (apply reads_frame; [exact Hs|rewrite len_app; lia]).
  cbn [res_bind].
  assert (Hopen : open_frame C key seqnr (ct ++ mac) = Ok (seqnr, pt)).
  { rewrite (open_frame_mac C L) by (unfold AES_BLOCK_SIZE; assumption || lia).
    rewrite (ctr_involutive C L _ _ _ _ Hct). cbn [res_bind].
    now rewrite pkcs7_unpad_pad by (unfold AES_BLOCK_SIZE; lia). }
  destruct expected as [e|]; [|exact Hopen]. rewrite (Z.eqb_sym seqnr e).
  destruct (e =? seqnr); [exact Hopen|reflexivity].
Qed.

(** Whatever bytes are given as a chunk, decrypting them returns
    data only when they start with a frame whose HMAC, under the stream's key,
    is the one the frame carries, and never panics. *)
Theorem chunk_authentic C s expected chunk :
  CryptoLaws C -> bytes_ok chunk ->
  (forall k m, no_panic (hmac C k m)) ->
  (forall k i m, no_panic (aes_ctr C k i m)) ->
  no_panic (decrypt_chunk C s expected chunk) /\
  forall seqnr pt, decrypt_chunk C s expected chunk = Ok (seqnr, pt) ->
    exists key ct mac tail, eb_key (st_ebox s) = Some key /\
      parse_all get_frame chunk = Ok (seqnr, ct ++ mac) /\
      hmac C key ct = Ok mac /\ (forall e, expected = Some e -> e = seqnr) /\
      aes_ctr C key (seqnr_to_iv seqnr) ct = Ok (pt ++ tail) /\ 0 < len tail <= 16.
Proof.
  intros L Hb Hsafe1 Hsafe2. unfold decrypt_chunk.
  destruct (eb_key (st_ebox s)) as [key|]; cbn [ok_or res_bind]; [|split; discriminate].
  assert (Hgood : safe get_frame (fun se => bytes_ok (snd se))).
  { apply safe_bind with (fun z => 0 <= z < 2 ^ 32); [apply safe_u32|]. intros n _.
    apply safe_bind with bytes_ok; [apply good_safe, good_string|]. intros e He. now apply safe_ret. }
  pose proof (parse_all_safe _ _ _ Hgood Hb) as Hp.
  assert (Henc : forall n e, parse_all get_frame chunk = Ok (n, e) -> bytes_ok e).
  { unfold parse_all. destruct (Hgood _ (reader_new_ok chunk Hb)) as [_ Hx].
    destruct (get_frame (reader_new chunk)) as [[x r]| |]; try discriminate.
    intros n e [= ->]. exact (proj1 (Hx (n, e) r eq_refl)). }
  destruct (parse_all get_frame chunk) as [[n enc]|e|]; cbn [res_bind];
    [|split; discriminate|now destruct Hp].
  specialize (Henc n enc eq_refl).
  assert (Hopen : no_panic (open_frame C key n enc) /\ forall seqnr pt,
    open_frame C key n enc = Ok (seqnr, pt) -> seqnr = n /\
      exists ct mac tail, enc = ct ++ mac /\ hmac C key ct = Ok mac /\
        aes_ctr C key (seqnr_to_iv n) ct = Ok (pt ++ tail) /\ 0 < len tail <= 16).
  { unfold open_frame, HMAC_LEN, AES_BLOCK_SIZE. destruct (len enc <? 32 + 16) eqn:Hlen; [split; discriminate|].
    bprop. rewrite usub_Ok by lia. cbn [res_bind]. rewrite slice_Ok, slice_from_Ok by lia. cbn [res_bind].
    rewrite Z.sub_0_r, zdrop_0. set (ct := ztake (len enc - 32) enc).
    set (mac := zdrop (len enc - 32) enc).
    destruct (hmac C key ct) as [computed|e|] eqn:Hm; cbn [res_bind];
      [|split; discriminate|now destruct (Hsafe1 key ct)].
    destruct (hmac_len C L _ _ _ Hm) as [Hcl _].
    rewrite (memcmp_same C L) by (unfold mac; rewrite Hcl, len_zdrop; lia). cbn [res_bind].
    unfold bytes_eqb. destruct (bool_decide_reflect (computed = mac)) as [Heq|]; cbn [negb];
      [|split; discriminate].
    destruct (aes_ctr C key (seqnr_to_iv n) ct) as [padded|e|] eqn:Hc; cbn [res_bind];
      [|split; discriminate|now destruct (Hsafe2 key (seqnr_to_iv n) ct)].
    destruct (ctr_len C L _ _ _ _ Hc) as [_ Hpb].
    split.
    - apply no_panic_bind; [now apply pkcs7_unpad_safe|discriminate].
    - intros seqnr pt H. apply res_bind_Ok_inv in H as (d & Hd & H). injection H as <- <-.
      split; [reflexivity|]. destruct (pkcs7_unpad_sound _ _ _ Hpb Hd) as (pad & H1 & H2 & ->).
      exists ct, mac, (repeat pad (Z.to_nat pad)). split; [apply zsplit|].
      split; [now rewrite <- Heq|]. split; [exact Hc|]. rewrite len_repeat; lia. }
  destruct Hopen as [Hn Hx]. split.
  - destruct expected as [e|]; [destruct (negb (n =? e)); [discriminate|exact Hn]|exact Hn].
  - intros seqnr pt H.
    assert (Ho : open_frame C key n enc = Ok (seqnr, pt) /\ (forall e, expected = Some e -> e = n)).
    { destruct expected as [e|]; [|split; [exact H|discriminate]].
      destruct (n =? e) eqn:He; [|discriminate]. bprop. split; [exact H|]. now intros e' [= <-]. }
    destruct Ho as [Ho He]. destruct (Hx _ _ Ho) as [-> (ct & mac & tail & -> & Hm & Hc & Ht)].
    exists key, ct, mac, tail. auto 10.
Qed.

(** The HMAC does not cover the chunk's number: a chunk moved to
    any other number [n] passes the MAC check of a reader that expects [n], and
    what comes out is decided by its padding under the IV of [n] alone. *)
Theorem chunk_number_not_authenticated C s seqnr pt chunk n :
  CryptoLaws C -> 0 <= n < 2 ^ 32 -> len pt + 48 < 2 ^ 32 ->
  encrypt_chunk C s seqnr pt = Ok chunk ->
  exists key ct, eb_key (st_ebox s) = Some key /\
    aes_ctr C key (seqnr_to_iv seqnr) (pkcs7_pad pt 16) = Ok ct /\
    decrypt_chunk C s (Some n) (to_be_bytes 4 n ++ zdrop 4 chunk)
    = let* padded := aes_ctr C key (seqnr_to_iv n) ct in
      let* plain := pkcs7_unpad padded 16 in
      Ok (n, plain).
Proof.
  intros L Hn Hl Henc.
  destruct (encrypt_chunk_inv C L _ _ _ _ Henc)
    as (key & ct & mac & Hk & Hct & Hmac & Hml & _ & Hcl & Hchunk).
  unfold AES_BLOCK_SIZE, HMAC_LEN in *. pose proof (pad_len_bound pt 16 ltac:(lia)). pose proof (pad_len_block pt 16 ltac:(lia)).
  pose proof (len_nonneg pt). exists key, ct. split; [exact Hk|]. split; [exact Hct|].
  rewrite Hchunk by lia. unfold enc_frame at 1. change 4 with (len (to_be_bytes 4 seqnr)) at 1.
  rewrite zdrop_app. change (to_be_bytes 4 n ++ enc32 (ct ++ mac)) with (enc_frame n (ct ++ mac)).
  unfold decrypt_chunk. rewrite Hk. cbn [ok_or res_bind]. rewrite <- (app_nil_r (enc_frame _ _)).
  rewrite (parse_all_reads _ (n, ct ++ mac)) by (apply reads_frame; [exact Hn|rewrite len_app; lia]).
  cbn [res_bind]. rewrite Z.eqb_refl. cbn [negb].
  apply (open_frame_mac C L); [exact Hmac|unfold AES_BLOCK_SIZE; lia].
Qed.

(** *** Witnesses *)

Definition toy_stream : EboxStream :=
  MkStream (set_key toy_ebox toy_key) STREAM_CIPHER STREAM_MAC DEFAULT_CHUNK_SIZE.

Lemma toy_stream_ebox_ok : ebox_ok (st_ebox toy_stream).
Proof. pose proof toy_ebox_ok as []. now split. Qed.

Lemma stream_roundtrip_witness :
  exists bs, stream_to_bytes toy_stream = Ok bs /\
    stream_from_bytes (bs ++ [1; 2])
    = Ok (MkStream (ebox_view toy_ebox) STREAM_CIPHER STREAM_MAC DEFAULT_CHUNK_SIZE).
Proof.
  exact (stream_roundtrip toy_stream [1; 2] toy_stream_ebox_ok ltac:(by_compute) ltac:(by_compute)
    ltac:(by_compute)).
Defined.

Definition toy_chunk : bytes :=
  match encrypt_chunk ToyCrypto toy_stream 7 [1; 2; 3] with Ok c => c | _ => [] end.

Lemma chunk_roundtrip_witness :
  decrypt_chunk ToyCrypto toy_stream (Some 7) toy_chunk = Ok (7, [1; 2; 3]) /\
  decrypt_chunk ToyCrypto toy_stream (Some 8) toy_chunk = Err (SequenceMismatch 8 7).
Proof.
  split;
    [apply (chunk_roundtrip ToyCrypto toy_stream toy_stream 7 [1; 2; 3] toy_chunk (Some 7))
    |apply (chunk_roundtrip ToyCrypto toy_stream toy_stream 7 [1; 2; 3] toy_chunk (Some 8))];
    first [exact ToyCrypto_laws|by_compute].
Defined.

Lemma chunk_authentic_witness :
  exists key ct mac tail, eb_key (st_ebox toy_stream) = Some key /\
    parse_all get_frame toy_chunk = Ok (7, ct ++ mac) /\ hmac ToyCrypto key ct = Ok mac /\
    aes_ctr ToyCrypto key (seqnr_to_iv 7) ct = Ok ([1; 2; 3] ++ tail).
Proof.
  destruct (chunk_authentic ToyCrypto toy_stream None toy_chunk ToyCrypto_laws) as [_ H].
  - by_compute.
  - intros k m. discriminate.
  - intros k i m. simpl. destruct (all_bytes m); discriminate.
  - destruct (H 7 [1; 2; 3] ltac:(vm_compute; reflexivity)) as (key & ct & mac & tail & H1 & H2 & H3 & _ & H4 & _).
    exists key, ct, mac, tail. auto.
Defined.

Lemma chunk_number_not_authenticated_witness :
  exists key ct, eb_key (st_ebox toy_stream) = Some key /\
    aes_ctr ToyCrypto key (seqnr_to_iv 7) (pkcs7_pad [1; 2; 3] 16) = Ok ct /\
    decrypt_chunk ToyCrypto toy_stream (Some 9) (to_be_bytes 4 9 ++ zdrop 4 toy_chunk)
    = let* padded := aes_ctr ToyCrypto key (seqnr_to_iv 9) ct in
      let* plain := pkcs7_unpad padded 16 in
      Ok (9, plain).
Proof.
  apply (chunk_number_not_authenticated ToyCrypto toy_stream 7 [1; 2; 3] toy_chunk 9 ToyCrypto_laws);
    by_compute.
Defined.
