(* ===== verification/Tlv.v ===== *)
(** * Tlv: BER-TLV, [piggy-piv/src/tlv.rs]

    The reader's methods are parsers over a slice and a position; the writer's
    one panic (a value of 16 MiB or more) is a [Panic]. *)

From Stdlib Require Import ZArith Lia.
From stdpp Require Import base tactics list numbers.
From S2P Require Import Prelude PivError Reader.

Local Open Scope Z_scope.

(** ** TlvReader *)

Definition TlvReader : Type := Reader.
Abbreviation Tl := (Parser PivError).

(** [if self.pos >= self.data.len() { return Err(..) }] and the byte at [pos] *)
Definition tl_byte (past_end : TlvMsg) : Tl Z := fun r =>
  if len (rd_data r) <=? rd_pos r then Err (PivTlv past_end)
  else
    let* b := index (rd_data r) (rd_pos r) in
    Ok (b, adv r 1).

(** One turn of the loop over a tag's continuation bytes; [tag << 8] drops the
    bits above 32. *)
Definition tag_more (tag : Z) : Tl (Z + Z) :=
  let! b := tl_byte TagContinuedPastEnd in
  let tag := Z.lor (u32 (Z.shiftl tag 8)) b in
  if Z.land b 0x80 =? 0 then rd_ret (inr tag) else rd_ret (inl tag).

Definition read_tag : Tl Z :=
  let! first := tl_byte TagPastEnd in
  if Z.land first 0x1F =? 0x1F then rd_while tag_more first else rd_ret first.

(** [for _ in 0..num_bytes { len = (len << 8) | data[pos]; pos += 1; }] *)
Fixpoint length_bytes (n : nat) (acc : Z) : Tl Z :=
  match n with
  | O => rd_ret acc
  | S k => fun r =>
      let* b := index (rd_data r) (rd_pos r) in
      length_bytes k (Z.lor (Z.shiftl acc 8) b) (adv r 1)
  end.

Definition read_length : Tl Z :=
  let! first := tl_byte LengthPastEnd in
  if Z.land first 0x80 =? 0 then rd_ret first
  else
    let num_bytes := Z.land first 0x7F in
    if (num_bytes =? 0) || (3 <? num_bytes) then rd_lift (Err (PivTlv (BadLengthIndicator num_bytes)))
    else fun r =>
      if len (rd_data r) <? rd_pos r + num_bytes then
        let* rem := usub (len (rd_data r)) (rd_pos r) in
        Err (PivTlv (LengthBytesExceed num_bytes rem))
      else length_bytes (Z.to_nat num_bytes) 0 r.

Definition read_value : Tl bytes :=
  let! n := read_length in
  fun r =>
    if len (rd_data r) <? rd_pos r + n then
      let* rem := usub (len (rd_data r)) (rd_pos r) in
      Err (PivTlv (ValueExceeds n rem))
    else
      let* value := slice (rd_data r) (rd_pos r) (rd_pos r + n) in
      Ok (value, adv r n).

(** [self.data.len().saturating_sub(self.pos)] and [self.pos < self.data.len()] *)
Definition tlv_remaining (r : TlvReader) : Z := Z.max 0 (len (rd_data r) - rd_pos r).
Definition has_remaining (r : TlvReader) : bool := rd_pos r <? len (rd_data r).

(** ** TlvWriter *)

Record TlvWriter := MkTlvWriter { tw_buf : bytes }.

Definition tlv_writer_new : TlvWriter := MkTlvWriter [].
Definition tw_push (w : TlvWriter) (b : bytes) : TlvWriter := MkTlvWriter (tw_buf w ++ b).

Definition write_tag {E} (w : TlvWriter) (tag : Z) : res E TlvWriter :=
  if tag =? 0 then Ok (tw_push w [0])
  else
    let bs := to_be_bytes 4 tag in
    let start := match position (fun b => negb (b =? 0)) bs with Some i => Z.of_nat i | None => 3 end in
    let* tail := slice_from bs start in
    Ok (tw_push w tail).

Definition write_length {E} (w : TlvWriter) (n : Z) : res E TlvWriter :=
  if n <? 0x80 then Ok (tw_push w [u8 n])
  else if n <? 0x100 then Ok (tw_push w [0x81; u8 n])
  else if n <? 0x10000 then Ok (tw_push w [0x82; u8 (Z.shiftr n 8); u8 (Z.land n 0xFF)])
  else if n <? 0x1000000 then
    Ok (tw_push w [0x83; u8 (Z.shiftr n 16); u8 (Z.land (Z.shiftr n 8) 0xFF); u8 (Z.land n 0xFF)])
  else Panic.

Definition write_tag_value {E} (w : TlvWriter) (tag : Z) (value : bytes) : res E TlvWriter :=
  let* w := write_tag w tag in
  let* w := write_length w (len value) in
  Ok (tw_push w value).

(** ** Lemmas *)

Lemma reads_tl_byte e b : reads (tl_byte e) b [b].
Proof.
  intros r t [Hp Hd]. unfold tl_byte.
  pose proof (zdrop_bound _ _ [b] t Hp Hd) as Hb. change (len [b]) with 1 in Hb.
  replace (len (rd_data r) <=? rd_pos r) with false by (symmetry; apply Z.leb_gt; lia).
  simpl. erewrite index_Ok; [reflexivity|lia|exact Hd].
Qed.

Lemma safe_tl_byte e : safe (tl_byte e) byte_ok.
Proof.
  intros r [Hp Hd]. unfold tl_byte. destruct (len (rd_data r) <=? rd_pos r) eqn:Hl; bprop.
  - split; discriminate.
  - pose proof (index_no_panic (E := PivError) (rd_data r) (rd_pos r) ltac:(lia)) as Hn.
    unfold index in *. destruct (_ && _); [|now destruct Hn].
    destruct (rd_data r !! _) as [b|] eqn:Hb; [|now destruct Hn]. simpl.
    split; [discriminate|]. intros x r' [= <- <-]. simpl.
    split; [exact (proj1 (Forall_lookup _ _) Hd _ _ Hb)|]. split; [reflexivity|lia].
Qed.

Lemma shift_or_byte a b : 0 <= a -> byte_ok b -> Z.lor (Z.shiftl a 8) b = a * 256 + b.
Proof.
  intros Ha Hb. unfold byte_ok in Hb. rewrite Z.shiftl_mul_pow2 by lia. change (2 ^ 8) with 256.
  assert (Hland : Z.land (a * 256) b = 0).
  { apply Z.bits_inj'. intros n Hn. rewrite Z.bits_0, Z.land_spec.
    destruct (Z.ltb_spec n 8).
    - change 256 with (2 ^ 8). now rewrite Z.mul_pow2_bits_low by lia.
    - rewrite (Z.bits_above_log2 b n); [apply andb_false_r|lia|].
      destruct (Z.eq_dec b 0) as [->|]; [simpl; lia|]. apply Z.log2_lt_pow2; [lia|].
      pose proof (Z.pow_le_mono_r 2 8 n ltac:(lia) ltac:(lia)). lia. }
  rewrite <- Z.lxor_lor by exact Hland. symmetry. now apply Z.add_nocarry_lxor.
Qed.

(** *** Tags *)

(** The continuation bytes of a tag: bit 7 set on all but the last. *)
Fixpoint cont_ok (l : bytes) : bool :=
  match l with
  | [] => false
  | [b] => Z.land b 0x80 =? 0
  | b :: l' => negb (Z.land b 0x80 =? 0) && cont_ok l'
  end.

(** Bytes that [read_tag] takes as one tag. *)
Definition ber_tag (l : bytes) : bool :=
  match l with
  | [] => false
  | [b] => negb (Z.land b 0x1F =? 0x1F)
  | b :: l' => (Z.land b 0x1F =? 0x1F) && cont_ok l'
  end.

Lemma loops_tag l acc :
  bytes_ok l -> cont_ok l = true -> 0 <= acc -> acc * 256 ^ len l + from_be_bytes l < 2 ^ 32 ->
  loops tag_more acc (acc * 256 ^ len l + from_be_bytes l) l.
Proof.
  revert acc. induction l as [|b l IH]; intros acc Hb Hc Ha Hlt; [discriminate|].
  inversion Hb as [|? ? Hb1 Hb2]; subst. clear Hb.
  rewrite from_be_bytes_cons, len_cons in Hlt |- *.
  assert (Hpow : 0 < 256 ^ len l) by (apply Z.pow_pos_nonneg; unfold len; lia).
  pose proof (from_be_bytes_bound l Hb2) as Hfb. unfold byte_ok in Hb1.
  rewrite Z.pow_add_r in Hlt |- * by (unfold len; lia). rewrite Z.pow_1_r in *.
  assert (Hstep : Z.lor (u32 (Z.shiftl acc 8)) b = acc * 256 + b).
  { unfold u32. rewrite Z.mod_small by (rewrite Z.shiftl_mul_pow2 by lia; nia).
    apply shift_or_byte; [exact Ha|exact Hb1]. }
  assert (Heq : acc * (256 * 256 ^ len l) + (b * 256 ^ len l + from_be_bytes l)
                = (acc * 256 + b) * 256 ^ len l + from_be_bytes l) by lia.
  rewrite Heq in *. destruct l as [|b' l].
  - simpl in Hc. apply loops_done. apply reads_bind_last with b; [apply reads_tl_byte|].
    rewrite Hstep, Hc. change (len (@nil Z)) with 0. change (from_be_bytes []) with 0.
    rewrite Z.pow_0_r, Z.mul_1_r, Z.add_0_r. apply reads_ret.
  - cbn [cont_ok] in Hc. apply andb_true_iff in Hc as [Hc1 Hc2].
    change (b :: b' :: l) with ([b] ++ (b' :: l)). apply loops_more with (acc * 256 + b).
    + apply reads_bind_last with b; [apply reads_tl_byte|]. rewrite Hstep.
      apply negb_true_iff in Hc1. rewrite Hc1. apply reads_ret.
    + change (len [b]) with 1. lia.
    + apply IH; [exact Hb2|exact Hc2|lia|exact Hlt].
Qed.

Lemma reads_tag_bytes l :
  bytes_ok l -> ber_tag l = true -> from_be_bytes l < 2 ^ 32 ->
  reads read_tag (from_be_bytes l) l.
Proof.
  intros Hb Hl Hlt. destruct l as [|b l]; [discriminate|]. inversion Hb; subst.
  unfold read_tag. destruct l as [|b' l].
  - simpl in Hl. change (from_be_bytes [b]) with b. apply reads_bind_last with b; [apply reads_tl_byte|].
    apply negb_true_iff in Hl. rewrite Hl. apply reads_ret.
  - cbn [ber_tag] in Hl. apply andb_true_iff in Hl as [Hl1 Hl2].
    change (b :: b' :: l) with ([b] ++ (b' :: l)). apply reads_bind with b; [apply reads_tl_byte|].
    rewrite Hl1. rewrite from_be_bytes_app. change (from_be_bytes [b]) with b.
    change ([b] ++ b' :: l) with (b :: b' :: l) in Hlt. rewrite from_be_bytes_cons in Hlt.
    apply reads_while, loops_tag; [assumption|exact Hl2| |exact Hlt].
    match goal with H : byte_ok b |- _ => unfold byte_ok in H; lia end.
Qed.

(** The minimal big-endian bytes of a tag, as [write_tag] emits them. *)
Definition enc_tag (tag : Z) : bytes :=
  if tag =? 0 then [0]
  else
    let bs := to_be_bytes 4 tag in
    zdrop (match position (fun b => negb (b =? 0)) bs with Some i => Z.of_nat i | None => 3 end) bs.

Lemma position_Some {A} (f : A -> bool) l i :
  position f l = Some i -> (i < length l)%nat /\ Forall (fun x => f x = false) (take i l).
Proof.
  revert i. induction l as [|x l IH]; intros i; simpl; [discriminate|].
  destruct (f x) eqn:Hf.
  - intros [= <-]. split; [lia|constructor].
  - destruct (position f l) as [j|]; [|discriminate]. intros [= <-].
    destruct (IH j eq_refl) as [Hj Hall]. split; [lia|]. simpl. now constructor.
Qed.

Lemma from_be_bytes_zeros l k :
  Forall (fun b => negb (b =? 0) = false) l -> from_be_bytes (l ++ k) = from_be_bytes k.
Proof.
  induction 1 as [|b l Hb _ IH]; [reflexivity|]. simpl. apply negb_false_iff, Z.eqb_eq in Hb.
  subst. rewrite from_be_bytes_cons, IH. lia.
Qed.

(** The number of the minimal bytes is the tag. *)
Lemma enc_tag_value tag :
  0 <= tag < 2 ^ 32 -> from_be_bytes (enc_tag tag) = tag /\ bytes_ok (enc_tag tag).
Proof.
  intros Ht. unfold enc_tag. destruct (tag =? 0) eqn:H0; bprop; [subst; split; [reflexivity|by_compute]|].
  pose proof (from_to_be_bytes_small 4 tag Ht) as Hv.
  split; [|apply bytes_ok_zdrop, to_be_bytes_ok].
  destruct (position _ (to_be_bytes 4 tag)) as [i|] eqn:Hp.
  - apply position_Some in Hp as [_ Hall]. unfold zdrop. rewrite Nat2Z.id.
    rewrite <- (take_drop i (to_be_bytes 4 tag)), from_be_bytes_zeros in Hv by exact Hall. exact Hv.
  - exfalso. revert Hp. unfold to_be_bytes in *. simpl.
    repeat case_match; try discriminate. intros _.
    repeat match goal with H : negb _ = false |- _ => apply negb_false_iff, Z.eqb_eq in H end.
    revert Hv. change (fold_left (fun acc b : Z => acc * 256 + b)) with (fold_left (fun acc b : Z => acc * 256 + b)).
    unfold from_be_bytes. simpl. lia.
Qed.

Lemma write_tag_Ok {E} w tag : write_tag (E := E) w tag = Ok (tw_push w (enc_tag tag)).
Proof.
  unfold write_tag, enc_tag. destruct (tag =? 0); [reflexivity|].
  destruct (position _ _) as [i|] eqn:Hp.
  - apply position_Some in Hp as [Hi _]. rewrite length_to_be_bytes in Hi.
    rewrite slice_from_Ok by (unfold len; rewrite length_to_be_bytes; lia). reflexivity.
  - reflexivity.
Qed.

(** *** Lengths *)

Definition enc_length (n : Z) : bytes :=
  if n <? 0x80 then [n]
  else if n <? 0x100 then 0x81 :: to_be_bytes 1 n
  else if n <? 0x10000 then 0x82 :: to_be_bytes 2 n
  else 0x83 :: to_be_bytes 3 n.

Lemma u8_land n : u8 (Z.land n 0xFF) = n mod 256.
Proof.
  unfold u8. change 0xFF with (Z.ones 8). rewrite Z.land_ones by lia. apply Z.mod_mod. lia.
Qed.

Lemma write_length_Ok {E} w n :
  0 <= n < 2 ^ 24 -> write_length (E := E) w n = Ok (tw_push w (enc_length n)).
Proof.
  intros Hn. unfold write_length, enc_length.
  destruct (n <? 0x80) eqn:H1; bprop.
  { rewrite u8_small by (unfold byte_ok; lia). reflexivity. }
  destruct (n <? 0x100) eqn:H2; bprop.
  { unfold to_be_bytes, u8. simpl. now rewrite Z.div_1_r. }
  rewrite !u8_land, !Z.shiftr_div_pow2 by lia. unfold u8.
  destruct (n <? 0x10000) eqn:H3; bprop.
  { unfold to_be_bytes. simpl. now rewrite Z.div_1_r. }
  zbool. unfold to_be_bytes. simpl. now rewrite Z.div_1_r.
Qed.

Lemma reads_length_bytes l acc :
  bytes_ok l -> 0 <= acc -> reads (length_bytes (length l) acc) (acc * 256 ^ len l + from_be_bytes l) l.
Proof.
  revert acc. induction l as [|b l IH]; intros acc Hb Ha; simpl.
  - change (len (@nil Z)) with 0. change (from_be_bytes []) with 0.
    rewrite Z.pow_0_r, Z.mul_1_r, Z.add_0_r. apply reads_ret.
  - inversion Hb as [|? ? Hb1 Hb2]; subst. intros r t Hr. pose proof Hr as [Hp Hd].
    erewrite index_Ok; [|lia|exact Hd]. simpl. rewrite shift_or_byte by assumption.
    unfold byte_ok in Hb1.
    rewrite (IH (acc * 256 + b) Hb2 ltac:(lia) _ t) by exact (at_rest_adv r [b] (l ++ t) Hr).
    rewrite adv_adv, from_be_bytes_cons, (len_cons b l), Z.pow_add_r by (unfold len; lia).
    replace ((acc * 256 + b) * 256 ^ len l + from_be_bytes l)
      with (acc * (256 ^ 1 * 256 ^ len l) + (b * 256 ^ len l + from_be_bytes l)) by ring.
    reflexivity.
Qed.

Lemma reads_long_length l :
  bytes_ok l -> 1 <= len l <= 3 -> reads read_length (from_be_bytes l) ((0x80 + len l) :: l).
Proof.
  intros Hb Hl. change ((0x80 + len l) :: l) with ([0x80 + len l] ++ l).
  apply reads_bind with (0x80 + len l); [apply reads_tl_byte|].
  assert (H1 : (Z.land (0x80 + len l) 0x80 =? 0) = false /\ Z.land (0x80 + len l) 0x7F = len l).
  { assert (Hc : len l = 1 \/ len l = 2 \/ len l = 3) by lia.
    destruct Hc as [-> |[-> | ->]]; split; reflexivity. }
  destruct H1 as [-> ->]. cbv zeta. zbool.
  intros r t Hr. pose proof Hr as [Hp Hd]. pose proof (zdrop_bound _ _ _ _ Hp Hd). zbool.
  replace (Z.to_nat (len l)) with (length l) by (unfold len; lia).
  exact (reads_length_bytes l 0 Hb (Z.le_refl 0) r t Hr).
Qed.

Lemma reads_length n : 0 <= n < 2 ^ 24 -> reads read_length n (enc_length n).
Proof.
  intros Hn. unfold enc_length. destruct (n <? 0x80) eqn:H1; bprop.
  { apply reads_bind_last with n; [apply reads_tl_byte|].
    replace (Z.land n 0x80 =? 0) with true; [apply reads_ret|]. symmetry. apply Z.eqb_eq.
    apply Z.bits_inj'. intros i Hi. rewrite Z.bits_0, Z.land_spec. change 0x80 with (2 ^ 7).
    rewrite Z.pow2_bits_eqb by lia. destruct (Z.eqb_spec 7 i) as [<-|]; [|apply andb_false_r].
    rewrite (Z.bits_above_log2 n 7); [reflexivity|lia|].
    destruct (Z.eq_dec n 0) as [->|]; [simpl; lia|]. apply Z.log2_lt_pow2; lia. }
  destruct (n <? 0x100) eqn:H2; bprop; [|destruct (n <? 0x10000) eqn:H3; bprop].
  - rewrite <- (from_to_be_bytes_small 1 n) at 1 by (change (256 ^ Z.of_nat 1) with 256; lia).
    exact (reads_long_length (to_be_bytes 1 n) (to_be_bytes_ok 1 n) ltac:(by_compute)).
  - rewrite <- (from_to_be_bytes_small 2 n) at 1 by (change (256 ^ Z.of_nat 2) with (2 ^ 16); lia).
    exact (reads_long_length (to_be_bytes 2 n) (to_be_bytes_ok 2 n) ltac:(by_compute)).
  - rewrite <- (from_to_be_bytes_small 3 n) at 1 by (change (256 ^ Z.of_nat 3) with (2 ^ 24); lia).
    exact (reads_long_length (to_be_bytes 3 n) (to_be_bytes_ok 3 n) ltac:(by_compute)).
Qed.

Lemma reads_value v : len v < 2 ^ 24 -> reads read_value v (enc_length (len v) ++ v).
Proof.
  intros Hv. apply reads_bind with (len v); [apply reads_length; pose proof (len_nonneg v); lia|].
  intros r t Hr. pose proof Hr as [Hp Hd]. pose proof (zdrop_bound _ _ _ _ Hp Hd). zbool.
  erewrite slice_app; [reflexivity|exact Hp|exact Hd].
Qed.

(** One TLV. *)
Definition enc_tlv (tag : Z) (v : bytes) : bytes := enc_tag tag ++ enc_length (len v) ++ v.

Definition tag_ok (tag : Z) : Prop := 0 <= tag < 2 ^ 32 /\ ber_tag (enc_tag tag) = true.

Lemma tw_push_app w a b : tw_push (tw_push w a) b = tw_push w (a ++ b).
Proof. unfold tw_push. simpl. now rewrite app_assoc. Qed.

Lemma write_tag_value_Ok {E} w tag v :
  len v < 2 ^ 24 -> write_tag_value (E := E) w tag v = Ok (tw_push w (enc_tlv tag v)).
Proof.
  intros Hv. unfold write_tag_value. rewrite write_tag_Ok. simpl.
  rewrite write_length_Ok by (pose proof (len_nonneg v); lia). simpl. now rewrite !tw_push_app.
Qed.

Lemma reads_tag tag : tag_ok tag -> reads read_tag tag (enc_tag tag).
Proof.
  intros [Ht Hb]. destruct (enc_tag_value tag Ht) as [Hv Hok]. rewrite <- Hv at 1.
  apply reads_tag_bytes; [exact Hok|exact Hb|lia].
Qed.

(** *** Safety *)

Lemma tag_more_moves tag : moves (tag_more tag).
Proof.
  intros r s' r' Hr Hrun. unfold tag_more, rd_bind, tl_byte in Hrun.
  destruct (len (rd_data r) <=? rd_pos r); [discriminate|].
  destruct (index _ _); try discriminate. simpl in Hrun. case_match; [discriminate|].
  injection Hrun as _ <-. simpl. lia.
Qed.

Lemma safe_tag : safe read_tag (fun t => 0 <= t).
Proof.
  apply safe_bind with byte_ok; [apply safe_tl_byte|]. intros first Hf. unfold byte_ok in Hf.
  case_match; [|apply safe_ret; lia]. apply safe_while with (I := fun t => 0 <= t); [| |lia].
  - intros tag Ht. apply safe_bind with byte_ok; [apply safe_tl_byte|]. intros b Hb.
    assert (0 <= Z.lor (u32 (Z.shiftl tag 8)) b).
    { apply Z.lor_nonneg. split; [apply Z.mod_pos_bound; lia|unfold byte_ok in Hb; lia]. }
    case_match; now apply safe_ret.
  - intros tag _. apply tag_more_moves.
Qed.

(** A tag that was read moved the reader. *)
Lemma read_tag_moves r tag r' : reader_ok r -> read_tag r = Ok (tag, r') -> rd_pos r < rd_pos r'.
Proof.
  intros Hr Htag. revert Htag. unfold read_tag, rd_bind, tl_byte.
  destruct (len (rd_data r) <=? rd_pos r) eqn:H0; [discriminate|].
  bprop. destruct (index (rd_data r) (rd_pos r)) as [first|e|]; simpl; try discriminate.
  case_match; [|intros [= _ <-]; simpl; lia].
  intros Hloop. destruct Hr as [Hp Hd].
  assert (Hadv : reader_ok (adv r 1)) by (split; simpl; [lia|exact Hd]).
  assert (Hs : safe (rd_while tag_more first) (fun _ => True)).
  { apply safe_while with (I := fun _ => True); [| |trivial].
    - intros tg _. apply safe_bind with byte_ok; [apply safe_tl_byte|]. intros b _.
      case_match; now apply safe_ret.
    - intros tg _. apply tag_more_moves. }
  destruct (proj2 (Hs _ Hadv) tag r' Hloop) as (_ & _ & Hp2). simpl in Hp2. lia.
Qed.

Lemma length_bytes_safe n : forall acc r, 0 <= acc -> reader_ok r -> rd_pos r + Z.of_nat n <= len (rd_data r) ->
  exists x, length_bytes n acc r = Ok (x, adv r (Z.of_nat n)) /\ 0 <= x.
Proof.
  induction n as [|n IH]; intros acc r Ha Hr Hb; simpl length_bytes.
  - exists acc. unfold adv. simpl. rewrite Z.add_0_r. destruct r. split; [reflexivity|exact Ha].
  - pose proof Hr as [Hp Hd].
    pose proof (index_no_panic (E := PivError) (rd_data r) (rd_pos r) ltac:(lia)) as Hn.
    unfold index in *. destruct (_ && _); [|now destruct Hn].
    destruct (rd_data r !! _) as [b|] eqn:Hl; [|now destruct Hn]. simpl res_bind.
    pose proof (proj1 (Forall_lookup _ _) Hd _ _ Hl) as Hbyte. unfold byte_ok in Hbyte.
    destruct (IH (Z.lor (Z.shiftl acc 8) b) (adv r 1)) as (x & Hx & Hx0).
    + apply Z.lor_nonneg. split; [apply Z.shiftl_nonneg; exact Ha|lia].
    + split; simpl; [lia|exact Hd].
    + simpl. lia.
    + exists x. rewrite Hx, adv_adv. split; [|exact Hx0]. do 3 f_equal. lia.
Qed.

Lemma safe_length : safe read_length (fun n => 0 <= n).
Proof.
  apply safe_bind with byte_ok; [apply safe_tl_byte|]. intros first Hf. unfold byte_ok in Hf.
  case_match; [apply safe_ret; lia|]. cbv zeta.
  assert (Hn : 0 <= Z.land first 0x7F) by (apply Z.land_nonneg; lia).
  case_match; [apply good_safe, good_err|]. intros r Hr. pose proof Hr as [Hp Hd].
  case_match; bprop.
  - rewrite usub_Ok by lia. split; discriminate.
  - destruct (length_bytes_safe (Z.to_nat (Z.land first 0x7F)) 0 r ltac:(lia) Hr ltac:(lia))
      as (x & -> & Hx). split; [discriminate|]. intros y r' [= <- <-]. simpl.
    split; [exact Hx|]. split; [reflexivity|lia].
Qed.

Lemma safe_value : safe read_value bytes_ok.
Proof.
  apply safe_bind with (fun n => 0 <= n); [apply safe_length|]. intros n Hn r [Hp Hd].
  case_match; bprop.
  - rewrite usub_Ok by lia. split; discriminate.
  - rewrite slice_Ok by lia. split; [discriminate|]. intros v r' [= <- <-]. simpl.
    split; [auto with bytes|]. split; [reflexivity|lia].
Qed.

Create HintDb tlv discriminated.
#[export] Hint Resolve safe_tag safe_value : tlv.

(** ** Properties *)

(** What [write_tag_value] appends for a well-formed BER tag and
    a value of less than 16 MiB is read back, whatever follows it, as the same
    tag and the same value, and the reader stops right behind it. *)
Theorem tlv_roundtrip w tag v t :
  tag_ok tag -> len v < 2 ^ 24 ->
  exists e, write_tag_value (E := PivError) w tag v = Ok (tw_push w e) /\
    (let! tg := read_tag in let! x := read_value in rd_ret (tg, x)) (reader_new (e ++ t))
    = Ok ((tag, v), adv (reader_new (e ++ t)) (len e)).
Proof.
  intros Ht Hv. exists (enc_tlv tag v). split; [now apply write_tag_value_Ok|].
  assert (Hr : reads (let! tg := read_tag in let! x := read_value in rd_ret (tg, x)) (tag, v) (enc_tlv tag v)).
  { apply reads_bind with tag; [now apply reads_tag|].
    apply reads_bind_last with v; [now apply reads_value|apply reads_ret]. }
  apply (Hr _ t), at_rest_new.
Qed.

Lemma tlv_roundtrip_witness :
  (let! tg := read_tag in let! x := read_value in rd_ret (tg, x))
    (reader_new (enc_tlv 0x7F49 [1; 2; 3] ++ [9]))
  = Ok ((0x7F49, [1; 2; 3]), MkReader (enc_tlv 0x7F49 [1; 2; 3] ++ [9]) 6).
Proof.
  destruct (tlv_roundtrip tlv_writer_new 0x7F49 [1; 2; 3] [9]) as (e & He & Hr);
    [by_compute|by_compute|]. vm_compute in He. injection He as <-. exact Hr.
Defined.

(** On any bytes, reading a tag and a value ends, never panics,
    and never moves the reader out of its slice, however many continuation
    bytes a tag has. *)
Theorem tlv_read_safe data :
  bytes_ok data ->
  no_panic (read_tag (reader_new data)) /\ no_panic (read_value (reader_new data)) /\
  (forall tag r, read_tag (reader_new data) = Ok (tag, r) ->
     0 < rd_pos r <= len data /\ no_panic (read_value r)).
Proof.
  intros Hd. pose proof (reader_new_ok data Hd) as Hr.
  split; [exact (proj1 (safe_tag _ Hr))|]. split; [exact (proj1 (safe_value _ Hr))|].
  intros tag r Htag. destruct (proj2 (safe_tag _ Hr) tag r Htag) as (_ & Hdata & Hpos).
  simpl in Hdata, Hpos. assert (Hr' : reader_ok r) by (split; rewrite Hdata; [lia|exact Hd]).
  split; [|exact (proj1 (safe_value r Hr'))]. split; [|lia].
  pose proof (read_tag_moves _ _ _ Hr Htag) as Hm. exact Hm.
Qed.

Lemma tlv_read_safe_witness :
  no_panic (read_tag (reader_new [0x5F; 0xFF; 0xFF; 0xFF; 0xFF; 0xFF; 0xFF])).
Proof.
  assert (H : bytes_ok [0x5F; 0xFF; 0xFF; 0xFF; 0xFF; 0xFF; 0xFF]) by by_compute.
  exact (proj1 (tlv_read_safe _ H)).
Defined.

(** The writer's only failure is the panic on a value of 16 MiB or
    more; below that, the length octets are the shortest BER form. *)
Theorem tlv_write_bounds w tag v :
  (2 ^ 24 <= len v -> write_tag_value (E := PivError) w tag v = Panic) /\
  (len v < 2 ^ 24 ->
   exists n, write_tag_value (E := PivError) w tag v
             = Ok (tw_push w (enc_tag tag ++ n ++ v)) /\
     (len v < 0x80 -> len n = 1) /\ (0x80 <= len v < 0x100 -> len n = 2) /\
     (0x100 <= len v < 0x10000 -> len n = 3) /\ (0x10000 <= len v -> len n = 4)).
Proof.
  pose proof (len_nonneg v). split; intros Hv.
  - unfold write_tag_value. rewrite write_tag_Ok. simpl. unfold write_length. zbool. reflexivity.
  - exists (enc_length (len v)). split; [now apply write_tag_value_Ok|].
    unfold enc_length. repeat split; intros; zbool; reflexivity.
Qed.
