(* ===== verification/Walk.v ===== *)
(** * Walk: loops over a sequence of TLVs

    The data objects of a PIV card are read by [while r.has_remaining()] loops
    over [read_tag] and [read_value].  [walk_tlvs] is the loop whose reads are
    followed by [?], [scan_tlvs] the lenient one that breaks at the first read
    that fails; [walk_items] is what both compute on a list of items. *)

From Stdlib Require Import ZArith Lia.
From stdpp Require Import base tactics list numbers.
From S2P Require Import Prelude PivError Reader Tlv.

Local Open Scope Z_scope.

(** [let Ok(x) = p else { d }; k x]; after a failed read nothing more is read,
    so where the reader stopped does not matter. *)
Definition rd_else {E F A B} (p : Parser E A) (d : Parser F B) (k : A -> Parser F B) : Parser F B :=
  fun r => match p r with
           | Ok (a, r') => k a r'
           | Err _ => d r
           | Panic => Panic
           end.

(** [while r.has_remaining() { let tag = r.read_tag()?; let value = r.read_value()?; .. }]:
    a turn of the loop goes on with a new state or returns. *)
Definition walk_step {S R} (step : S -> Z -> bytes -> res PivError (S + R)) (stop : S -> res PivError R)
    (s : S) : Tl (S + R) := fun r =>
  if has_remaining r then
    (let! tag := read_tag in let! value := read_value in rd_lift (step s tag value)) r
  else (let! a := rd_lift (stop s) in rd_ret (inr a)) r.

Definition walk_tlvs {S R} (step : S -> Z -> bytes -> res PivError (S + R)) (stop : S -> res PivError R)
    (s : S) (data : bytes) : res PivError R :=
  parse_all (rd_while (walk_step step stop) s) data.

(** [while r.has_remaining() { let (Ok(t), Ok(v)) = (r.read_tag(), r.read_value()) else { break }; .. }] *)
Definition scan_step {E S} (step : S -> Z -> bytes -> res E S) (s : S) : Parser E (S + S) := fun r =>
  if has_remaining r then
    rd_else read_tag (rd_ret (inr s)) (fun tag =>
    rd_else read_value (rd_ret (inr s)) (fun value =>
    let! s' := rd_lift (step s tag value) in rd_ret (inl s'))) r
  else rd_ret (inr s) r.

Definition scan_tlvs {E S} (step : S -> Z -> bytes -> res E S) (s : S) (data : bytes) : res E S :=
  parse_all (rd_while (scan_step step) s) data.

(** The items, without the bytes. *)
Abbreviation items := (list (Z * bytes)).

Fixpoint walk_items {E S R} (step : S -> Z -> bytes -> res E (S + R)) (stop : S -> res E R)
    (s : S) (l : items) : res E R :=
  match l with
  | [] => stop s
  | (tag, v) :: l' =>
      let* x := step s tag v in
      match x with
      | inl s' => walk_items step stop s' l'
      | inr a => Ok a
      end
  end.

Fixpoint scan_items {E S} (step : S -> Z -> bytes -> res E S) (s : S) (l : items) : res E S :=
  match l with
  | [] => Ok s
  | (tag, v) :: l' => let* s' := step s tag v in scan_items step s' l'
  end.

Definition enc_items (l : items) : bytes := mbind (fun '(tag, v) => enc_tlv tag v) l.

Definition items_ok (l : items) : Prop := Forall (fun '(tag, v) => tag_ok tag /\ len v < 2 ^ 24) l.

Definition items_okb (l : items) : bool :=
  forallb (fun '(tag, v) => (0 <=? tag) && (tag <? 2 ^ 32) && ber_tag (enc_tag tag) && (len v <? 2 ^ 24)) l.

Lemma items_ok_dec l : items_okb l = true -> items_ok l.
Proof.
  induction l as [|[tag v] l IH]; [constructor|]. cbn [items_okb forallb]. intros H. bprop.
  constructor; [|now apply IH]. split; [|assumption]. split; [lia|assumption].
Qed.

Lemma enc_items_cons tag v l : enc_items ((tag, v) :: l) = enc_tlv tag v ++ enc_items l.
Proof. reflexivity. Qed.

Lemma enc_tag_pos tag : tag_ok tag -> 1 <= len (enc_tag tag).
Proof.
  intros [_ Hb]. destruct (enc_tag tag) eqn:He; [discriminate|].
  rewrite len_cons. pose proof (len_nonneg l). lia.
Qed.

Lemma has_remaining_rest r e t : at_rest r (e ++ t) -> 1 <= len e -> has_remaining r = true.
Proof.
  intros [Hp Hd] He. pose proof (zdrop_bound _ _ _ _ Hp Hd). apply Z.ltb_lt. lia.
Qed.

Lemma has_remaining_end r : at_rest r [] -> has_remaining r = false.
Proof.
  intros [Hp Hd]. apply Z.ltb_ge. pose proof (len_zdrop _ _ Hp) as Hl. rewrite Hd in Hl.
  change (len (@nil Z)) with 0 in Hl. lia.
Qed.

(** Reading one item of the sequence. *)
Lemma read_item r tag v t :
  tag_ok tag -> len v < 2 ^ 24 -> at_rest r (enc_tlv tag v ++ t) ->
  has_remaining r = true /\ read_tag r = Ok (tag, adv r (len (enc_tag tag))) /\
  read_value (adv r (len (enc_tag tag))) = Ok (v, adv r (len (enc_tlv tag v))).
Proof.
  intros Ht Hv Hr. pose proof (enc_tag_pos tag Ht).
  unfold enc_tlv in Hr |- *. rewrite <- app_assoc in Hr.
  split; [now apply has_remaining_rest with (1 := Hr)|].
  split; [now apply (reads_tag tag Ht _ _ Hr)|].
  apply at_rest_adv in Hr. rewrite (reads_value v Hv _ _ Hr), adv_adv, !len_app. reflexivity.
Qed.

(** ** On encoded items, the loops are the folds *)

Lemma walk_loop {S R} (step : S -> Z -> bytes -> res PivError (S + R)) stop l :
  items_ok l -> forall n s r,
  at_rest r (enc_items l) -> (length l < n)%nat ->
  (let* (a, _) := rd_loop n (walk_step step stop) s r in Ok a) = walk_items step stop s l.
Proof.
  induction 1 as [|[tag v] l [Ht Hv] Hl IH]; intros [|n] s r Hr Hn; try (simpl in Hn; lia).
  - simpl. unfold rd_bind, walk_step. rewrite has_remaining_end by exact Hr.
    unfold rd_bind, rd_lift. now destruct (stop s).
  - rewrite enc_items_cons in Hr. destruct (read_item r tag v _ Ht Hv Hr) as (Hrem & Htag & Hval).
    simpl. unfold rd_bind, walk_step. rewrite Hrem. unfold rd_bind. rewrite Htag. simpl. rewrite Hval. simpl.
    unfold rd_lift. destruct (step s tag v) as [[s'|a]|e|]; simpl; try reflexivity.
    apply IH; [now apply at_rest_adv|simpl in Hn; lia].
Qed.

Lemma enc_items_length l : items_ok l -> Z.of_nat (length l) <= len (enc_items l).
Proof.
  induction 1 as [|[tag v] l [Ht Hv] Hl IH]; [done|].
  rewrite enc_items_cons, len_app. unfold enc_tlv. rewrite !len_app.
  pose proof (enc_tag_pos tag Ht). pose proof (len_nonneg (enc_length (len v))). pose proof (len_nonneg v).
  simpl length. lia.
Qed.

Lemma fuel_enough l : items_ok l -> (length l < loop_fuel (reader_new (enc_items l)))%nat.
Proof. intros H. pose proof (enc_items_length l H). unfold loop_fuel. simpl. lia. Qed.

Lemma walk_tlvs_items {S R} (step : S -> Z -> bytes -> res PivError (S + R)) stop s l :
  items_ok l -> walk_tlvs step stop s (enc_items l) = walk_items step stop s l.
Proof.
  intros Hl. unfold walk_tlvs, parse_all, rd_while.
  apply walk_loop; [exact Hl|apply at_rest_new|now apply fuel_enough].
Qed.

Lemma scan_loop {E S} (step : S -> Z -> bytes -> res E S) l :
  items_ok l -> forall n s r,
  at_rest r (enc_items l) -> (length l < n)%nat ->
  (let* (a, _) := rd_loop n (scan_step step) s r in Ok a) = scan_items step s l.
Proof.
  induction 1 as [|[tag v] l [Ht Hv] Hl IH]; intros [|n] s r Hr Hn; try (simpl in Hn; lia).
  - simpl. unfold rd_bind, scan_step. rewrite has_remaining_end by exact Hr. reflexivity.
  - rewrite enc_items_cons in Hr. destruct (read_item r tag v _ Ht Hv Hr) as (Hrem & Htag & Hval).
    simpl. unfold rd_bind, scan_step. rewrite Hrem. unfold rd_else, rd_bind. rewrite Htag, Hval.
    unfold rd_lift. destruct (step s tag v) as [s'|e|]; simpl; try reflexivity.
    apply IH; [now apply at_rest_adv|simpl in Hn; lia].
Qed.

Lemma scan_tlvs_items {E S} (step : S -> Z -> bytes -> res E S) s l :
  items_ok l -> scan_tlvs step s (enc_items l) = scan_items step s l.
Proof.
  intros Hl. unfold scan_tlvs, parse_all, rd_while.
  apply scan_loop; [exact Hl|apply at_rest_new|now apply fuel_enough].
Qed.

(** ** On any bytes, the loops end without a panic *)

Section WalkSafe.
Context {E S R : Type} (I : S -> Prop) (Q : R -> Prop).

Lemma walk_yields (step : S -> Z -> bytes -> res PivError (S + R)) stop s data :
  (forall s tag v, I s -> bytes_ok v ->
     yields (step s tag v) (fun x => match x with inl s' => I s' | inr a => Q a end)) ->
  (forall s, I s -> yields (stop s) Q) ->
  I s -> bytes_ok data -> yields (walk_tlvs step stop s data) Q.
Proof.
  intros Hstep Hstop Hs Hd. unfold walk_tlvs, parse_all.
  assert (Hw : safe (rd_while (walk_step step stop) s) Q).
  { apply safe_while with (I := I); [| |exact Hs].
    - intros s0 Hs0. intros r Hr. unfold walk_step. destruct (has_remaining r).
      + apply safe_bind with (fun t => 0 <= t); [apply safe_tag| |exact Hr]. intros tag _.
        apply safe_bind with bytes_ok; [apply safe_value|]. intros v Hv.
        pose proof (Hstep s0 tag v Hs0 Hv) as Hy.
        apply safe_lift; [now apply yields_no_panic in Hy|]. intros x Hx. now apply yields_Ok with (1 := Hy).
      + apply safe_bind with Q; [|intros a Ha; now apply safe_ret|exact Hr].
        pose proof (Hstop s0 Hs0) as Hy. apply safe_lift; [now apply yields_no_panic in Hy|].
        intros a Ha. now apply yields_Ok with (1 := Hy).
    - intros s0 Hs0 r s1 r1 Hr Hrun. unfold walk_step in Hrun. destruct (has_remaining r).
      + unfold rd_bind in Hrun. destruct (read_tag r) as [[tag r2]|e|] eqn:Htag; try discriminate. simpl in Hrun.
        pose proof (read_tag_moves r tag r2 Hr Htag) as Hm.
        destruct (proj2 (safe_tag r Hr) tag r2 Htag) as (_ & Hd2 & Hp2).
        assert (Hr2 : reader_ok r2) by (destruct Hr; split; rewrite Hd2; [lia|assumption]).
        destruct (read_value r2) as [[v r3]|e|] eqn:Hval; try discriminate. simpl in Hrun.
        destruct (proj2 (safe_value r2 Hr2) v r3 Hval) as (_ & _ & Hp3).
        unfold rd_lift in Hrun. destruct (step s0 tag v); try discriminate. simpl in Hrun.
        injection Hrun as _ <-. lia.
      + unfold rd_bind, rd_lift in Hrun. destruct (stop s0); discriminate. }
  destruct (Hw _ (reader_new_ok data Hd)) as [Hn Hx].
  destruct (rd_while _ s _) as [[a r]|e|]; simpl; [exact (proj1 (Hx a r eq_refl))|exact Logic.I|now destruct Hn].
Qed.

Lemma scan_step_safe (step : S -> Z -> bytes -> res E S) s r :
  (forall tag v, bytes_ok v -> yields (step s tag v) I) -> I s -> reader_ok r ->
  no_panic (scan_step step s r) /\
  forall x r', scan_step step s r = Ok (x, r') ->
    step_post I I x /\ rd_data r' = rd_data r /\ rd_pos r <= rd_pos r' <= len (rd_data r) /\
    (forall s', x = inl s' -> rd_pos r < rd_pos r').
Proof.
  intros Hstep Hs Hr. unfold scan_step, rd_else. pose proof Hr as [Hp Hd].
  destruct (has_remaining r); [|split; [discriminate|]; intros x r' [= <- <-]; repeat split; auto; try lia; congruence].
  destruct (safe_tag r Hr) as [Hn Hx].
  destruct (read_tag r) as [[tag r2]|e|] eqn:Htag; [|split; [discriminate|]; intros x r' [= <- <-]; repeat split; auto; try lia; congruence|now destruct Hn].
  destruct (Hx tag r2 eq_refl) as (_ & Hd2 & Hp2). pose proof (read_tag_moves r tag r2 Hr Htag) as Hm.
  assert (Hr2 : reader_ok r2) by (split; rewrite Hd2; [lia|assumption]).
  destruct (safe_value r2 Hr2) as [Hn3 Hx3].
  destruct (read_value r2) as [[v r3]|e|] eqn:Hval;
    [|split; [discriminate|]; intros x r' [= <- <-]; repeat split; auto; try lia; congruence|now destruct Hn3].
  destruct (Hx3 v r3 eq_refl) as (Hv & Hd3 & Hp3). rewrite Hd2 in *.
  pose proof (Hstep tag v Hv) as Hy. unfold rd_bind, rd_lift.
  destruct (step s tag v) as [s'|e|]; simpl; [|split; discriminate|destruct Hy].
  split; [discriminate|]. intros x r' [= <- <-]. repeat split; auto; lia.
Qed.

Lemma scan_yields (step : S -> Z -> bytes -> res E S) s data :
  (forall s tag v, I s -> bytes_ok v -> yields (step s tag v) I) ->
  I s -> bytes_ok data -> yields (scan_tlvs step s data) I.
Proof.
  intros Hstep Hs Hd. unfold scan_tlvs, parse_all.
  assert (Hw : safe (rd_while (scan_step step) s) I).
  { apply safe_while with (I := I); [| |exact Hs].
    - intros s0 Hs0 r Hr. destruct (scan_step_safe step s0 r (fun t v => Hstep s0 t v Hs0) Hs0 Hr) as [Hn Hx].
      split; [exact Hn|]. intros x r' Hrun. destruct (Hx x r' Hrun) as (? & ? & ? & _). auto.
    - intros s0 Hs0 r s1 r1 Hr Hrun.
      destruct (scan_step_safe step s0 r (fun t v => Hstep s0 t v Hs0) Hs0 Hr) as [_ Hx].
      destruct (Hx _ _ Hrun) as (_ & _ & _ & Hm). now apply (Hm s1). }
  destruct (Hw _ (reader_new_ok data Hd)) as [Hn Hx].
  destruct (rd_while _ s _) as [[a r]|e|]; simpl; [exact (proj1 (Hx a r eq_refl))|exact Logic.I|now destruct Hn].
Qed.
End WalkSafe.
