(* ===== verification/Apdu.v ===== *)
(** * Apdu: command APDUs and status words, [piggy-piv/src/apdu.rs]

    The command builders, their ISO 7816-4 encoding, the status word, and the
    pure builders of the credential and data-object commands
    ([pin_mgmt.rs], [put_data.rs], [keygen.rs], [admin.rs]).  The encoding is
    checked against the decoder the virtual card uses
    ([fibby/src/virtual_card.rs], [apdu_body]). *)

From Stdlib Require Import ZArith Lia String.
From stdpp Require Import base tactics list numbers.
From S2P Require Import Prelude PivError Reader Tlv.

Local Open Scope Z_scope.

Definition PIV_AID : bytes :=
  [0xA0; 0x00; 0x00; 0x03; 0x08; 0x00; 0x00; 0x10; 0x00; 0x01; 0x00].
Definition YK_OTP_AID : bytes := [0xA0; 0x00; 0x00; 0x05; 0x27; 0x20; 0x01; 0x01].
Definition PIV_TAG_CERT_YK_ATTESTATION : Z := 0x5FFF01.

(** [apdu::ins] *)
Module Ins.
Definition SELECT : Z := 0xA4.
Definition GET_DATA : Z := 0xCB.
Definition VERIFY : Z := 0x20.
Definition CHANGE_PIN : Z := 0x24.
Definition RESET_PIN : Z := 0x2C.
Definition GEN_AUTH : Z := 0x87.
Definition PUT_DATA : Z := 0xDB.
Definition GEN_ASYM : Z := 0x47.
Definition IMPORT_ASYM : Z := 0xFE.
Definition CONTINUE : Z := 0xC0.
Definition YK_ATTEST : Z := 0xF9.
Definition YK_GET_SERIAL : Z := 0xF8.
Definition YK_GET_VERSION : Z := 0xFD.
Definition YK_RESET : Z := 0xFB.
Definition SET_MGMT_KEY : Z := 0xFF.
End Ins.

Definition OTP_API_REQ : Z := 0x01.
Definition OTP_SLOT_DEVICE_SERIAL : Z := 0x10.

(** [apdu::ga_tag] *)
Definition GA_WITNESS : Z := 0x80.
Definition GA_CHALLENGE : Z := 0x81.
Definition GA_RESPONSE : Z := 0x82.
Definition GA_EXPONENT : Z := 0x85.

(** [apdu::alg::TDEA_3KEY] *)
Definition ALG_TDEA_3KEY : Z := 0x03.

Record Apdu := MkApdu {
  cla : Z;
  ins : Z;
  p1 : Z;
  p2 : Z;
  data : bytes;
  le : option Z;
}.

(** [Apdu::new] *)
Definition apdu_new (cla ins p1 p2 : Z) : Apdu := MkApdu cla ins p1 p2 [] None.

Definition apdu_select (aid : bytes) : Apdu := MkApdu 0x00 Ins.SELECT 0x04 0x00 aid None.

Definition tag_to_bytes {E} (tag : Z) : res E bytes :=
  if tag =? 0 then Ok [0]
  else
    let bs := to_be_bytes 4 tag in
    let start := match position (fun b => negb (b =? 0)) bs with Some i => Z.of_nat i | None => 3 end in
    slice_from bs start.

Definition apdu_get_data (tag : Z) : res PivError Apdu :=
  let* tag_bytes := tag_to_bytes tag in
  let* tlv := write_tag_value tlv_writer_new 0x5C tag_bytes in
  Ok (MkApdu 0x00 Ins.GET_DATA 0x3F 0xFF (tw_buf tlv) None).

Definition apdu_general_authenticate (alg slot : Z) (d : bytes) : Apdu :=
  MkApdu 0x00 Ins.GEN_AUTH alg slot d None.

Definition apdu_generate_asym (slot key_alg : Z) (pin_policy touch_policy : option Z) : res PivError Apdu :=
  let* tmpl := write_tag_value tlv_writer_new 0x80 [key_alg] in
  let* tmpl := match pin_policy with
               | Some p => write_tag_value tmpl 0xAA [p]
               | None => Ok tmpl
               end in
  let* tmpl := match touch_policy with
               | Some t => write_tag_value tmpl 0xAB [t]
               | None => Ok tmpl
               end in
  let* outer := write_tag_value tlv_writer_new 0xAC (tw_buf tmpl) in
  Ok (MkApdu 0x00 Ins.GEN_ASYM 0x00 slot (tw_buf outer) None).

Definition apdu_put_data (tag : Z) (value : bytes) : res PivError Apdu :=
  let* tag_bytes := tag_to_bytes tag in
  let* w := write_tag_value tlv_writer_new 0x5C tag_bytes in
  let* w := write_tag_value w 0x53 value in
  Ok (MkApdu 0x00 Ins.PUT_DATA 0x3F 0xFF (tw_buf w) None).

Definition apdu_yk_attest (slot : Z) : Apdu := MkApdu 0x00 Ins.YK_ATTEST slot 0x00 [] None.

(** [Apdu::verify_pin]: asserts that the PIN is at most 8 bytes. *)
Definition apdu_verify_pin (pin : bytes) : res PivError Apdu :=
  if len pin <=? 8 then
    Ok (MkApdu 0x00 Ins.VERIFY 0x00 0x80 (pin ++ repeat 0xFF (Z.to_nat (8 - len pin))) None)
  else Panic.

Definition apdu_verify_pin_status : Apdu := MkApdu 0x00 Ins.VERIFY 0x00 0x80 [] None.

(** [Apdu::to_bytes] *)
Definition apdu_to_bytes (a : Apdu) : bytes :=
  let data_len := len (data a) in
  let extended := (255 <? data_len) || match le a with Some le => 256 <? le | None => false end in
  let buf := [cla a; ins a; p1 a; p2 a] in
  if extended then
    let buf := buf ++ [0x00] in
    let buf := if negb (bool_decide (data a = [])) then
                 buf ++ [u8 (Z.shiftr data_len 8); u8 (Z.land data_len 0xFF)] ++ data a
               else buf in
    match le a with
    | Some le => buf ++ [u8 (Z.shiftr le 8); u8 (Z.land le 0xFF)]
    | None => buf
    end
  else
    let buf := if negb (bool_decide (data a = [])) then buf ++ [u8 data_len] ++ data a else buf in
    match le a with
    | Some le => if 256 <=? le then buf ++ [0x00] else buf ++ [u8 le]
    | None => buf
    end.

(** ** Status words *)

Record StatusWord := MkSw { sw1 : Z; sw2 : Z }.

#[export] Instance StatusWord_eq_dec : EqDecision StatusWord.
Proof. solve_decision. Defined.

Definition is_success (sw : StatusWord) : bool := (sw1 sw =? 0x90) && (sw2 sw =? 0x00).
Definition as_u16 (sw : StatusWord) : Z := Z.lor (Z.shiftl (sw1 sw) 8) (sw2 sw).
Definition has_more_data (sw : StatusWord) : bool := sw1 sw =? 0x61.
Definition remaining_bytes (sw : StatusWord) : Z := if sw2 sw =? 0 then 256 else sw2 sw.
Definition is_pin_incorrect (sw : StatusWord) : bool :=
  (sw1 sw =? 0x63) && (Z.land (sw2 sw) 0xF0 =? 0xC0).
Definition sw_pin_retries_remaining (sw : StatusWord) : option Z :=
  if is_pin_incorrect sw then Some (Z.land (sw2 sw) 0x0F) else None.

(** ** Credentials ([pin_mgmt.rs]) *)

Definition SLOT_MGMT : Z := 0x9B.
Definition P2_PIN : Z := 0x80.
Definition P2_PUK : Z := 0x81.

Definition with_data (a : Apdu) (d : bytes) : Apdu := MkApdu (cla a) (ins a) (p1 a) (p2 a) d (le a).

Definition pad_reference (s : bytes) : res PivError bytes :=
  if 8 <? len s then Err (PivOther (ReferenceTooLong (len s)))
  else if bool_decide (s = []) then Err (PivOther ReferenceEmpty)
  else Ok (s ++ repeat 0xFF (Z.to_nat (8 - len s))).

Definition change_reference_data_apdu (p2 : Z) (old new : bytes) : res PivError Apdu :=
  let* o := pad_reference old in
  let* n := pad_reference new in
  Ok (with_data (apdu_new 0x00 Ins.CHANGE_PIN 0x00 p2) (o ++ n)).

Definition reset_retry_counter_apdu (puk new_pin : bytes) : res PivError Apdu :=
  let* o := pad_reference puk in
  let* n := pad_reference new_pin in
  Ok (with_data (apdu_new 0x00 Ins.RESET_PIN 0x00 P2_PIN) (o ++ n)).

Definition set_management_key_apdu (key : bytes) : res PivError Apdu :=
  if negb (len key =? 24) then Err (PivOther (MgmtKeyLength (len key)))
  else Ok (with_data (apdu_new 0x00 Ins.SET_MGMT_KEY 0xFF 0xFF)
             ([ALG_TDEA_3KEY; SLOT_MGMT; u8 (len key)] ++ key)).

(** ** Data objects ([put_data.rs]) *)

Definition OBJECT_CHUID : Z := 0x5FC102.
Definition CERT_9A : Z := 0x5FC105.
Definition CERT_9C : Z := 0x5FC10A.
Definition CERT_9D : Z := 0x5FC10B.
Definition CERT_9E : Z := 0x5FC101.

Definition cert_tag_for_slot (slot_id : Z) : option Z :=
  if slot_id =? 0x9A then Some CERT_9A
  else if slot_id =? 0x9C then Some CERT_9C
  else if slot_id =? 0x9D then Some CERT_9D
  else if slot_id =? 0x9E then Some CERT_9E
  else None.

Definition FASCN_ALL_ZERO : bytes := repeat 0 25.
Definition CHUID_EXPIRY : bytes := ascii "20991231".

Definition build_chuid_object (guid : bytes) : bytes :=
  [0x30; u8 (len FASCN_ALL_ZERO)] ++ FASCN_ALL_ZERO
  ++ [0x34; u8 (len guid)] ++ guid
  ++ [0x35; u8 (len CHUID_EXPIRY)] ++ CHUID_EXPIRY
  ++ [0x3E; 0x00].

Definition push_der_len (buf : bytes) (n : Z) : bytes :=
  if n <? 0x80 then buf ++ [u8 n]
  else if n <? 0x100 then buf ++ [0x81; u8 n]
  else buf ++ [0x82; u8 (Z.shiftr n 8); u8 (Z.land n 0xFF)].

(** The value [put_cert] writes. *)
Definition cert_object (cert_der : bytes) : bytes :=
  let value := [0x70] in
  let value := push_der_len value (len cert_der) in
  let value := value ++ cert_der in
  value ++ [0x71; 0x01; 0x00].

(** The command [import_ec_key] sends. *)
Definition import_ec_key_apdu (slot_id key_alg : Z) (scalar : bytes) : Apdu :=
  with_data (apdu_new 0x00 Ins.IMPORT_ASYM key_alg slot_id) ([0x06; u8 (len scalar)] ++ scalar).

(** [ga_request] of [admin.rs] *)
Definition ga_request (tag : Z) (value : bytes) : res PivError bytes :=
  let* inner := write_tag_value tlv_writer_new tag value in
  let* outer := write_tag_value tlv_writer_new 0x7C (tw_buf inner) in
  Ok (tw_buf outer).

(** The data field of [PinSession::general_authenticate]. *)
Definition ga_template (data_tag : Z) (d : bytes) : res PivError bytes :=
  let* inner := write_tag_value tlv_writer_new GA_RESPONSE [] in
  let* inner := write_tag_value inner data_tag d in
  let* outer := write_tag_value tlv_writer_new 0x7C (tw_buf inner) in
  Ok (tw_buf outer).

(** ** The virtual card's view of a command ([fibby], [apdu_body]) *)

Definition apdu_body {E} (apdu : bytes) : res E (option bytes) :=
  if len apdu <? 5 then Ok None
  else
    let* b4 := index apdu 4 in
    if (b4 =? 0x00) && (7 <=? len apdu) then
      let* hi := index apdu 5 in
      let* lo := index apdu 6 in
      let lc := from_be_bytes [hi; lo] in
      if (lc =? 0) || (len apdu <? 7 + lc) then Ok None
      else let* body := slice apdu 7 (7 + lc) in Ok (Some body)
    else
      let lc := b4 in
      if (lc =? 0) || (len apdu <? 5 + lc) then Ok None
      else let* body := slice apdu 5 (5 + lc) in Ok (Some body).

(** ** Lemmas *)

(** The body of a short and of an extended command. *)
Lemma apdu_body_short {E} c i p q body t :
  body <> [] -> len body < 256 ->
  apdu_body (E := E) ([c; i; p; q; len body] ++ body ++ t) = Ok (Some body).
Proof.
  intros Hn Hl. pose proof (len_nonneg t). pose proof (len_nonneg body).
  assert (len body <> 0) by (destruct body; [congruence|rewrite len_cons; pose proof (len_nonneg body); lia]).
  unfold apdu_body. cbn [app]. rewrite !len_cons, len_app. zbool.
  rewrite (index_Ok _ 4 (len body) (body ++ t)) by (lia || reflexivity). cbn [res_bind].
  zbool. erewrite (slice_app 5 _ body t); [reflexivity| |reflexivity].
  rewrite !len_cons, len_app. lia.
Qed.

Lemma apdu_body_extended {E} c i p q hi lo body t :
  body <> [] -> from_be_bytes [hi; lo] = len body ->
  apdu_body (E := E) ([c; i; p; q; 0; hi; lo] ++ body ++ t) = Ok (Some body).
Proof.
  intros Hn Hl. pose proof (len_nonneg t). pose proof (len_nonneg body).
  assert (len body <> 0) by (destruct body; [congruence|rewrite len_cons; pose proof (len_nonneg body); lia]).
  unfold apdu_body. cbn [app]. rewrite !len_cons, len_app. zbool.
  rewrite (index_Ok _ 4 0 (hi :: lo :: body ++ t)) by (lia || reflexivity). cbn [res_bind]. zbool.
  rewrite (index_Ok _ 5 hi (lo :: body ++ t)), (index_Ok _ 6 lo (body ++ t)) by (lia || reflexivity).
  cbn [res_bind]. rewrite Hl. zbool.
  erewrite (slice_app 7 _ body t); [reflexivity| |reflexivity].
  rewrite !len_cons, len_app. lia.
Qed.

(** The two length octets of an extended field. *)
Lemma lc_value n : 0 <= n -> from_be_bytes [u8 (Z.shiftr n 8); u8 (Z.land n 0xFF)] = n mod 65536.
Proof.
  intros Hn. change 0xFF with (Z.ones 8). rewrite Z.land_ones, Z.shiftr_div_pow2 by lia.
  rewrite !from_be_bytes_cons. change (len [u8 (n mod 2 ^ 8)]) with 1. change (len []) with 0.
  change (from_be_bytes []) with 0. unfold u8. rewrite Z.mod_mod by lia.
  change (256 ^ 1) with 256. change (256 ^ 0) with 1. change (2 ^ 8) with 256.
  change 65536 with (256 * 256). rewrite Z.rem_mul_r by lia. lia.
Qed.

(** What is left when there is no body: at most three more octets. *)
Lemma apdu_body_none {E} c i p q t :
  t = [] \/ (exists a, t = [a]) \/ t = [0] \/ (exists hi lo, t = [0; hi; lo] /\ 0 <= from_be_bytes [hi; lo]) ->
  (forall a, t = [a] -> 0 <= a) ->
  apdu_body (E := E) ([c; i; p; q] ++ t) = Ok None.
Proof.
  intros [->|[[a ->]|[->|(hi & lo & -> & Hlc)]]] Ha; unfold apdu_body; cbn [app].
  - reflexivity.
  - change (len [c; i; p; q; a]) with 5. cbv iota. change (index [c; i; p; q; a] 4) with (Ok (E := E) a).
    cbn [res_bind]. rewrite andb_false_r. specialize (Ha a eq_refl).
    destruct (Z.eq_dec a 0) as [->|Hz]; [reflexivity|zbool; reflexivity].
  - reflexivity.
  - change (len [c; i; p; q; 0; hi; lo]) with 7.
    change (index [c; i; p; q; 0; hi; lo] 4) with (Ok (E := E) 0). cbn [res_bind].
    change (index [c; i; p; q; 0; hi; lo] 5) with (Ok (E := E) hi).
    change (index [c; i; p; q; 0; hi; lo] 6) with (Ok (E := E) lo). cbn [res_bind].
    destruct (Z.eq_dec (from_be_bytes [hi; lo]) 0) as [->|Hz]; [reflexivity|zbool; reflexivity].
Qed.

Lemma len_0_nil {A} (l : list A) : len l = 0 -> l = [].
Proof. destruct l; [reflexivity|]. rewrite len_cons. pose proof (len_nonneg l). lia. Qed.

Lemma len_pos {A} (l : list A) : l <> [] -> 0 < len l.
Proof. intros H. destruct l; [congruence|]. rewrite len_cons. pose proof (len_nonneg l). lia. Qed.

Lemma u8_nonneg z : 0 <= u8 z.
Proof. apply Z.mod_pos_bound. lia. Qed.

Lemma bytes2_nonneg a b : 0 <= from_be_bytes [u8 a; u8 b].
Proof. apply from_be_bytes_bound. auto with bytes. Qed.

(** The encoding, spelled out on the two forms of a command with a body. *)
Lemma apdu_to_bytes_body a :
  data a <> [] ->
  exists t, apdu_to_bytes a =
    if (255 <? len (data a)) || match le a with Some le => 256 <? le | None => false end
    then [cla a; ins a; p1 a; p2 a; 0; u8 (Z.shiftr (len (data a)) 8); u8 (Z.land (len (data a)) 0xFF)]
         ++ data a ++ t
    else [cla a; ins a; p1 a; p2 a; len (data a)] ++ data a ++ t.
Proof.
  intros Hd. pose proof (len_pos _ Hd). unfold apdu_to_bytes. rewrite bool_decide_false by exact Hd. cbn [negb].
  set (ext := _ || _). destruct ext eqn:Hext.
  - destruct (le a) as [n|]; eexists; rewrite <- ?app_assoc; [reflexivity|]. now rewrite app_nil_r.
  - unfold ext in Hext. bprop. rewrite (u8_small (len (data a))) by (unfold byte_ok; lia).
    destruct (le a) as [n|]; [case_match|]; eexists; rewrite <- ?app_assoc; try reflexivity.
    now rewrite app_nil_r.
Qed.

Lemma apdu_body_no_data {E} a : data a = [] -> apdu_body (E := E) (apdu_to_bytes a) = Ok None.
Proof.
  intros Hd. unfold apdu_to_bytes. rewrite Hd. change (255 <? len []) with false. cbn [orb]. rewrite bool_decide_true by reflexivity.
  cbn [negb]. destruct (le a) as [n|]; [|apply (apdu_body_none _ _ _ _ []); [auto|congruence]].
  destruct (256 <? n).
  - apply (apdu_body_none _ _ _ _ [0; _; _]); [|congruence]. eauto 8 using bytes2_nonneg.
  - case_match; apply (apdu_body_none _ _ _ _ [_]); eauto; intros x [= <-]; [lia|apply u8_nonneg].
Qed.

Lemma apdu_body_data {E} a :
  data a <> [] -> len (data a) < 65536 -> apdu_body (E := E) (apdu_to_bytes a) = Ok (Some (data a)).
Proof.
  intros Hd Hl. pose proof (len_pos _ Hd). destruct (apdu_to_bytes_body a Hd) as [t ->].
  destruct (_ || _) eqn:Hext.
  - apply apdu_body_extended; [exact Hd|]. rewrite lc_value by lia. apply Z.mod_small. lia.
  - bprop. apply apdu_body_short; [exact Hd|lia].
Qed.

(** The header is the first four octets. *)
Lemma apdu_to_bytes_header a : take 4 (apdu_to_bytes a) = [cla a; ins a; p1 a; p2 a].
Proof.
  unfold apdu_to_bytes. destruct (_ || _), (negb _), (le a) as [n|]; try destruct (256 <=? n); reflexivity.
Qed.

(** ** Properties *)

(** A command without a body is read by the virtual card as
    one, whatever its expected length; a command with a body is read back with
    exactly that body when, and only when, the body has fewer than 65536 bytes,
    which is where the encoder's two length octets wrap. *)
Theorem apdu_body_exact {E} a :
  (data a = [] -> apdu_body (E := E) (apdu_to_bytes a) = Ok None) /\
  (data a <> [] -> (apdu_body (E := E) (apdu_to_bytes a) = Ok (Some (data a)) <-> len (data a) < 65536)).
Proof.
  split; intros Hd; [now apply apdu_body_no_data|]. split; [|now apply apdu_body_data].
  pose proof (len_pos _ Hd). intros Hb. apply Z.nle_gt. intros Hbig. revert Hb.
  destruct (apdu_to_bytes_body a Hd) as [t ->].
  destruct (_ || _) eqn:Hext; [|bprop; lia].
  set (n := len (data a)) in *. unfold apdu_body.
  pose proof (len_nonneg t). cbn [app]. rewrite !len_cons, len_app. fold n. zbool.
  rewrite (index_Ok _ 4 0 (u8 (Z.shiftr n 8) :: u8 (Z.land n 0xFF) :: data a ++ t)) by (lia || reflexivity).
  cbn [res_bind]. zbool.
  rewrite (index_Ok _ 5 (u8 (Z.shiftr n 8)) (u8 (Z.land n 0xFF) :: data a ++ t)),
    (index_Ok _ 6 (u8 (Z.land n 0xFF)) (data a ++ t)) by (lia || reflexivity).
  cbn [res_bind]. rewrite lc_value by lia.
  assert (Hmod : 0 <= n mod 65536 < 65536) by (apply Z.mod_pos_bound; lia).
  destruct ((n mod 65536 =? 0) || _); [discriminate|]. rewrite slice_Ok by (rewrite ?len_cons, ?len_app; fold n; lia).
  intros [= Hb]. apply (f_equal len) in Hb. revert Hb. fold n. rewrite len_ztake; [lia|].
  rewrite len_zdrop by (rewrite !len_cons, len_app; fold n; lia).
  rewrite !len_cons, len_app. fold n. lia.
Qed.

Lemma apdu_body_exact_witness :
  apdu_body (E := unit) (apdu_to_bytes (MkApdu 0 Ins.GET_DATA 0x3F 0xFF (repeat 7 300) None)) = Ok (Some (repeat 7 300)).
Proof.
  set (a := MkApdu 0 Ins.GET_DATA 0x3F 0xFF (repeat 7 300) None).
  apply (proj2 (apdu_body_exact a)); [discriminate|reflexivity].
Defined.
