(* ===== verification/Transport.v ===== *)
(** * Transport: effects on a card, and the transport seam

    [IO] is how a method that talks to a card is modelled: a function of the
    state the method owns, which may not return ([None], when the fuel of the
    one loop whose length the card decides runs out).  Below it the traits of
    [piggy-piv/src/transport.rs] as classes, and [transmit_on] of [token.rs]
    with its GET RESPONSE loop. *)

From Stdlib Require Import ZArith Lia String.
From stdpp Require Import base tactics list numbers.
From S2P Require Import Prelude PivError Apdu.

Local Open Scope Z_scope.

(** ** Effects *)

Definition IO (E S A : Type) : Type := S -> option (S * res E A).

Definition io_ret {E S A} (a : A) : IO E S A := fun s => Some (s, Ok a).
Definition io_err {E S A} (e : E) : IO E S A := fun s => Some (s, Err e).
Definition io_lift {E S A} (c : res E A) : IO E S A := fun s => Some (s, c).
Definition io_get {E S} : IO E S S := fun s => Some (s, Ok s).
Definition io_modify {E S} (f : S -> S) : IO E S unit := fun s => Some (f s, Ok tt).

Definition io_bind {E S A B} (m : IO E S A) (k : A -> IO E S B) : IO E S B :=
  fun s => match m s with
           | Some (s', Ok a) => k a s'
           | Some (s', Err e) => Some (s', Err e)
           | Some (s', Panic) => Some (s', Panic)
           | None => None
           end.

(** [match m { Ok(a) => .., Err(e) => .. }]: the error becomes a value. *)
Definition io_try {E F S A} (m : IO E S A) : IO F S (A + E) :=
  fun s => match m s with
           | Some (s', Ok a) => Some (s', Ok (inl a))
           | Some (s', Err e) => Some (s', Ok (inr e))
           | Some (s', Panic) => Some (s', Panic)
           | None => None
           end.

(** [m.map_err(f)?] *)
Definition io_map_err {E F S A} (f : E -> F) (m : IO E S A) : IO F S A :=
  fun s => match m s with
           | Some (s', c) => Some (s', map_err f c)
           | None => None
           end.

Notation "'do!' x ':=' m 'in' k" := (io_bind m (fun x => k))
  (at level 10, x pattern, m at level 100, k at level 200) : res_scope.

Lemma io_bind_assoc {E S A B C} (m : IO E S A) (k : A -> IO E S B) (h : B -> IO E S C) s :
  io_bind (io_bind m k) h s = io_bind m (fun a => io_bind (k a) h) s.
Proof. unfold io_bind. now destruct (m s) as [[s' [a|e|]]|]. Qed.

(** ** The traits ([transport.rs]) *)

Inductive EndDisposition : Type := LeaveCard | ResetCard.

#[export] Instance EndDisposition_eq_dec : EqDecision EndDisposition.
Proof. solve_decision. Defined.

(** [RawApdu]: one command in, [data ‖ SW1 SW2] out.  The method takes [&self],
    the card behind it changes. *)
Class RawApdu (T : Type) := transmit_raw : bytes -> T -> T * res PivError bytes.

(** [ApduTransport] and its [ApduSession].  A session borrows the transport and
    gives it back when it ends or is dropped. *)
Class ApduTransport (T : Type) := {
  ap_session : Type;
  transport_raw :: RawApdu T;
  session_raw :: RawApdu ap_session;
  begin_transaction : T -> ap_session + T * PivError;
  session_end : EndDisposition -> ap_session -> T * res PivError unit;
  session_drop : ap_session -> T;
}.
Arguments ap_session T {_}.

(** ** [transmit_on] *)

Section TransmitOn.
Context {T : Type} `{RawApdu T}.

Definition raw (command : bytes) : IO PivError T bytes :=
  fun t => let (t', r) := transmit_raw command t in Some (t', r).

(** [resp[..len - 2]] and the status word of the last two bytes. *)
Definition split_sw (resp : bytes) : res PivError (bytes * StatusWord) :=
  let n := len resp in
  let* a := index resp (n - 2) in
  let* b := index resp (n - 1) in
  let* d := slice resp 0 (n - 2) in
  Ok (d, MkSw a b).

Definition get_response_apdu (sw : StatusWord) : Apdu :=
  MkApdu 0x00 0xC0 0x00 0x00 [] (Some (remaining_bytes sw)).

(** [while chain_sw.has_more_data()] *)
Fixpoint get_response_chain (fuel : nat) (full : bytes) (chain_sw : StatusWord) : IO PivError T (bytes * StatusWord) :=
  match fuel with
  | O => fun _ => None
  | S k =>
      if has_more_data chain_sw then
        do! resp2 := raw (apdu_to_bytes (get_response_apdu chain_sw)) in
        if len resp2 <? 2 then io_err (PivOther ChainedResponseTooShort)
        else
          do! (more, sw) := io_lift (split_sw resp2) in
          get_response_chain k (full ++ more) sw
      else io_ret (full, chain_sw)
  end.

Definition transmit_on (fuel : nat) (a : Apdu) : IO PivError T (bytes * StatusWord) :=
  do! resp := raw (apdu_to_bytes a) in
  if len resp <? 2 then io_err (PivOther ResponseTooShort)
  else
    do! (d, sw) := io_lift (split_sw resp) in
    if has_more_data sw then get_response_chain fuel d sw else io_ret (d, sw).

(** ** What a card's answers add up to *)

(** [answers t cmd d sw t']: the card in state [t] answers [cmd] with payload [d]
    and status word [sw]. *)
Definition answers (t : T) (cmd : bytes) (d : bytes) (sw : StatusWord) (t' : T) : Prop :=
  transmit_raw cmd t = (t', Ok (d ++ [sw1 sw; sw2 sw])).

(** A chain of GET RESPONSE exchanges that begins at status word [sw]: the
    payloads concatenate, and the chain ends at the first word that is not
    [61xx]. *)
Inductive chain : nat -> T -> StatusWord -> bytes -> StatusWord -> T -> Prop :=
| chain_done t sw : has_more_data sw = false -> chain 0 t sw [] sw t
| chain_more n t sw d sw1 t1 rest sw' t' :
    has_more_data sw = true ->
    answers t (apdu_to_bytes (get_response_apdu sw)) d sw1 t1 ->
    chain n t1 sw1 rest sw' t' ->
    chain (S n) t sw (d ++ rest) sw' t'.

Lemma split_sw_app d sw : split_sw (d ++ [sw1 sw; sw2 sw]) = Ok (d, sw).
Proof.
  unfold split_sw. rewrite len_app. change (len [sw1 sw; sw2 sw]) with 2. pose proof (len_nonneg d).
  replace (len d + 2 - 2) with (len d) by lia. replace (len d + 2 - 1) with (len d + 1) by lia.
  rewrite (index_Ok _ (len d) (sw1 sw) [sw2 sw]) by (lia || apply zdrop_app).
  rewrite (index_Ok _ (len d + 1) (sw2 sw) []).
  - cbn [res_bind]. rewrite slice_Ok by (rewrite ?len_app; change (len [sw1 sw; sw2 sw]) with 2; lia).
    rewrite Z.sub_0_r, zdrop_0, ztake_app. now destruct sw.
  - lia.
  - change 1 with (len [sw1 sw]). apply zdrop_step; [lia|apply zdrop_app].
Qed.

(** Every response of two bytes or more has a payload and a status word. *)
Lemma split_sw_total resp :
  2 <= len resp -> exists d sw, split_sw resp = Ok (d, sw) /\ resp = d ++ [sw1 sw; sw2 sw].
Proof.
  intros Hl. pose proof (zsplit (len resp - 2) resp) as Hs.
  assert (H2 : len (zdrop (len resp - 2) resp) = 2) by (rewrite len_zdrop; lia).
  destruct (zdrop (len resp - 2) resp) as [|a [|b [|c l]]];
    try (exfalso; revert H2; rewrite ?len_cons; change (len (@nil Z)) with 0; try lia; pose proof (len_nonneg l); lia).
  exists (ztake (len resp - 2) resp), (MkSw a b). split; [|exact Hs].
  rewrite Hs at 1. exact (split_sw_app _ (MkSw a b)).
Qed.

Lemma raw_answers t cmd d sw t' :
  answers t cmd d sw t' -> raw cmd t = Some (t', Ok (d ++ [sw1 sw; sw2 sw])).
Proof. intros H1. unfold raw. now rewrite H1. Qed.

Lemma len_resp (d : bytes) sw : (len (d ++ [sw1 sw; sw2 sw]) <? 2) = false.
Proof. rewrite len_app. change (len [sw1 sw; sw2 sw]) with 2. pose proof (len_nonneg d). apply Z.ltb_ge. lia. Qed.

(** An answer that does not ask for GET RESPONSE is the outcome. *)
Lemma transmit_single fuel a t t' d sw :
  raw (apdu_to_bytes a) t = Some (t', Ok (d ++ [sw1 sw; sw2 sw])) -> has_more_data sw = false ->
  transmit_on fuel a t = Some (t', Ok (d, sw)).
Proof.
  intros Hr Hm. unfold transmit_on, io_bind at 1. rewrite Hr, len_resp.
  unfold io_bind, io_lift. now rewrite split_sw_app, Hm.
Qed.

Lemma chain_runs n t sw rest sw' t' :
  chain n t sw rest sw' t' -> forall fuel full, (n < fuel)%nat ->
  get_response_chain fuel full sw t = Some (t', Ok (full ++ rest, sw')).
Proof.
  induction 1 as [t sw Hd|n t sw d sw1 t1 rest sw' t' Hm Ha Hc IH]; intros [|fuel] full Hf; try lia; simpl.
  - rewrite Hd. unfold io_ret. now rewrite app_nil_r.
  - rewrite Hm. unfold io_bind. rewrite (raw_answers _ _ _ _ _ Ha), len_resp. unfold io_lift. rewrite split_sw_app.
    rewrite IH by lia. now rewrite app_assoc.
Qed.

Lemma runs_chain fuel : forall full sw t t' out sw',
  get_response_chain fuel full sw t = Some (t', Ok (out, sw')) ->
  exists n rest, (n < fuel)%nat /\ chain n t sw rest sw' t' /\ out = full ++ rest.
Proof.
  induction fuel as [|k IH]; intros full sw t t' out sw' Hr; [discriminate|]. simpl in Hr.
  destruct (has_more_data sw) eqn:Hm.
  - unfold io_bind, raw in Hr. destruct (transmit_raw _ t) as [t1 [resp|e|]] eqn:Ht; try discriminate.
    destruct (len resp <? 2) eqn:Hl; [discriminate|]. bprop.
    destruct (split_sw_total resp Hl) as (d & sw1 & Hs & ->). unfold io_lift in Hr. rewrite Hs in Hr.
    apply IH in Hr as (n & rest & Hn & Hc & ->). exists (S n), (d ++ rest). split; [lia|].
    split; [now apply chain_more with sw1 t1|]. now rewrite app_assoc.
  - injection Hr as <- <- <-. exists 0%nat, []. split; [lia|]. split; [now constructor|]. now rewrite app_nil_r.
Qed.

(** ** Termination *)

(** When what a card still has to send shrinks with every GET RESPONSE, a
    measure of it bounds the loop. *)
Lemma chain_terminates (m : T -> nat) :
  (forall t sw t' resp, has_more_data sw = true ->
     transmit_raw (apdu_to_bytes (get_response_apdu sw)) t = (t', Ok resp) ->
     forall d sw1', resp = d ++ [sw1 sw1'; sw2 sw1'] -> has_more_data sw1' = true -> (m t' < m t)%nat) ->
  forall fuel full sw t, (m t + 1 < fuel)%nat -> get_response_chain fuel full sw t <> None.
Proof.
  intros Hm. induction fuel as [|k IH]; intros full sw t Hf; [lia|]. simpl.
  destruct (has_more_data sw) eqn:Hsw; [|discriminate]. unfold io_bind, raw.
  destruct (transmit_raw _ t) as [t1 [resp|e|]] eqn:Ht; try discriminate.
  destruct (len resp <? 2) eqn:Hl; [discriminate|]. bprop.
  destruct (split_sw_total resp Hl) as (d & sw2' & Hs & ->). unfold io_lift. rewrite Hs.
  destruct (has_more_data sw2') eqn:Hsw2.
  - apply IH. pose proof (Hm t sw t1 _ Hsw Ht d sw2' eq_refl Hsw2). lia.
  - destruct k; [lia|]. simpl. rewrite Hsw2. discriminate.
Qed.
End TransmitOn.


(** ** Invariants of an effect

    [keeps I m]: whatever [m] returns, value, error or panic, it leaves the
    state in [I]. *)

Definition keeps {E S A} (I : S -> Prop) (m : IO E S A) : Prop :=
  forall s, I s -> forall s' r, m s = Some (s', r) -> I s'.

Section Keeps.
Context {E S : Type} (I : S -> Prop).

Lemma keeps_lift {A} (c : res E A) : keeps I (io_lift c).
Proof. now intros s Hs s' r [= <- _]. Qed.

Lemma keeps_ret {A} (a : A) : keeps (E := E) I (io_ret a).
Proof. exact (keeps_lift (Ok a)). Qed.

Lemma keeps_err {A} (e : E) : keeps (A := A) I (io_err e).
Proof. exact (keeps_lift (Err e)). Qed.

Lemma keeps_modify (f : S -> S) : (forall s, I s -> I (f s)) -> keeps (E := E) I (io_modify f).
Proof. intros Hf s Hs s' r [= <- _]. auto. Qed.

Lemma keeps_bind {A B} (m : IO E S A) (k : A -> IO E S B) :
  keeps I m -> (forall a, keeps I (k a)) -> keeps I (io_bind m k).
Proof.
  intros Hm Hk s Hs s' r Hr. unfold io_bind in Hr.
  destruct (m s) as [[s1 [a|e|]]|] eqn:Hms; try discriminate.
  - exact (Hk a s1 (Hm s Hs s1 _ Hms) s' r Hr).
  - injection Hr as <- _. exact (Hm s Hs s1 _ Hms).
  - injection Hr as <- _. exact (Hm s Hs s1 _ Hms).
Qed.

(** A builder that ran before the effect: its value is known. *)
Lemma keeps_built {A B} (c : res E A) (k : A -> IO E S B) :
  (forall a, c = Ok a -> keeps I (k a)) -> keeps I (io_bind (io_lift c) k).
Proof.
  intros Hk s Hs s' r Hr. unfold io_bind, io_lift in Hr. destruct c as [a|e|].
  - exact (Hk a eq_refl s Hs s' r Hr).
  - now injection Hr as <- _.
  - now injection Hr as <- _.
Qed.

Lemma keeps_try {F A} (m : IO F S A) : keeps I m -> keeps (E := E) I (io_try m).
Proof.
  intros Hm s Hs s' r Hr. unfold io_try in Hr.
  destruct (m s) as [[s1 [a|e|]]|] eqn:Hms; try discriminate; injection Hr as <- _; exact (Hm s Hs s1 _ Hms).
Qed.

Lemma keeps_map_err {F A} (f : F -> E) (m : IO F S A) : keeps I m -> keeps I (io_map_err f m).
Proof.
  intros Hm s Hs s' r Hr. unfold io_map_err in Hr.
  destruct (m s) as [[s1 c]|] eqn:Hms; try discriminate. injection Hr as <- _. exact (Hm s Hs s1 _ Hms).
Qed.
End Keeps.

(** An exchange keeps what its commands keep. *)
Lemma keeps_transmit {T} `{RawApdu T} (I : T -> Prop) fuel a :
  keeps I (raw (apdu_to_bytes a)) -> (forall sw, keeps I (raw (apdu_to_bytes (get_response_apdu sw)))) ->
  keeps I (transmit_on fuel a).
Proof.
  intros Ha Hg. apply keeps_bind; [exact Ha|]. intros resp. case_match; [apply keeps_err|].
  apply keeps_bind; [apply keeps_lift|]. intros [d sw]. case_match; [|apply keeps_ret].
  generalize d, sw. clear -Hg. induction fuel as [|k IH]; intros full w; [now intros s _ s' r|].
  simpl. case_match; [|apply keeps_ret]. apply keeps_bind; [apply Hg|]. intros resp. case_match; [apply keeps_err|].
  apply keeps_bind; [apply keeps_lift|]. intros [more w']. apply IH.
Qed.

Create HintDb keeps discriminated.
#[export] Hint Resolve keeps_lift keeps_ret keeps_err keeps_try keeps_map_err : keeps.

(** ** Computations that return *)

(** From a state in [I] the computation returns, with a value, an error or a
    panic, and the state is in [I] again. *)
Definition returns {E S A} (I : S -> Prop) (m : IO E S A) : Prop :=
  forall s, I s -> exists s' r, m s = Some (s', r) /\ I s'.

Section Returns.
Context {E S : Type} (I : S -> Prop).

Lemma returns_lift {A} (c : res E A) : returns I (io_lift c).
Proof. intros s Hs. now exists s, c. Qed.

Lemma returns_ret {A} (a : A) : returns (E := E) I (io_ret a).
Proof. exact (returns_lift (Ok a)). Qed.

Lemma returns_err {A} (e : E) : returns (A := A) I (io_err e).
Proof. exact (returns_lift (Err e)). Qed.

Lemma returns_modify (f : S -> S) : (forall s, I s -> I (f s)) -> returns (E := E) I (io_modify f).
Proof. intros Hf s Hs. exists (f s), (Ok tt). auto. Qed.

Lemma returns_bind {A B} (m : IO E S A) (k : A -> IO E S B) :
  returns I m -> (forall a, returns I (k a)) -> returns I (io_bind m k).
Proof.
  intros Hm Hk s Hs. destruct (Hm s Hs) as (s1 & r & Hr & H1). unfold io_bind. rewrite Hr.
  destruct r as [a|e|]; [exact (Hk a s1 H1)|now exists s1, (Err e)|now exists s1, Panic].
Qed.

Lemma returns_built {A B} (c : res E A) (k : A -> IO E S B) :
  (forall a, c = Ok a -> returns I (k a)) -> returns I (io_bind (io_lift c) k).
Proof.
  intros Hk s Hs. unfold io_bind, io_lift. destruct c as [a|e|]; [exact (Hk a eq_refl s Hs)|..]; eauto.
Qed.

Lemma returns_try {F A} (m : IO F S A) : returns I m -> returns (E := E) I (io_try m).
Proof.
  intros Hm s Hs. destruct (Hm s Hs) as (s1 & r & Hr & H1). unfold io_try. rewrite Hr. destruct r; eauto.
Qed.

Lemma returns_map_err {F A} (f : F -> E) (m : IO F S A) : returns I m -> returns I (io_map_err f m).
Proof. intros Hm s Hs. destruct (Hm s Hs) as (s1 & r & Hr & H1). unfold io_map_err. rewrite Hr. eauto. Qed.
End Returns.

Create HintDb returns discriminated.
#[export] Hint Resolve returns_lift returns_ret returns_err returns_try returns_map_err : returns.

(** ** Properties *)

(** C16 (functional).  What [transmit_on] returns is exactly what the card's
    chain of answers adds up to: the payload of the command followed by those of
    the GET RESPONSEs, in order, and the first status word that is not [61xx];
    every chain is followed to its end by enough fuel. *)
Theorem transmit_on_exact {T} `{RawApdu T} fuel a (t t' : T) out sw :
  (transmit_on fuel a t = Some (t', Ok (out, sw)) ->
   exists d sw0 t1 n rest,
     answers t (apdu_to_bytes a) d sw0 t1 /\ chain n t1 sw0 rest sw t' /\ out = d ++ rest) /\
  (forall d sw0 t1 n rest,
     answers t (apdu_to_bytes a) d sw0 t1 -> chain n t1 sw0 rest sw t' -> (n < fuel)%nat ->
     transmit_on fuel a t = Some (t', Ok (d ++ rest, sw))).
Proof.
  split.
  - intros Hr. unfold transmit_on, io_bind, raw in Hr.
    destruct (transmit_raw _ t) as [t1 [resp|e|]] eqn:Ht; try discriminate.
    destruct (len resp <? 2) eqn:Hl; [discriminate|]. bprop.
    destruct (split_sw_total resp Hl) as (d & sw0 & Hs & ->). unfold io_lift in Hr. rewrite Hs in Hr.
    exists d, sw0, t1. destruct (has_more_data sw0) eqn:Hm.
    + apply runs_chain in Hr as (n & rest & _ & Hc & ->). exists n, rest. auto.
    + injection Hr as <- <- <-. exists 0%nat, []. split; [exact Ht|]. split; [now constructor|]. now rewrite app_nil_r.
  - intros d sw0 t1 n rest Ha Hc Hn. unfold transmit_on, io_bind.
    rewrite (raw_answers _ _ _ _ _ Ha), len_resp. unfold io_lift. rewrite split_sw_app.
    destruct (has_more_data sw0) eqn:Hm; [exact (chain_runs _ _ _ _ _ _ Hc fuel d Hn)|].
    inversion Hc; subst; [|congruence]. unfold io_ret. now rewrite app_nil_r.
Qed.

(** A card that says [61 05] to anything for [n] commands, then [90 00]. *)
#[export] Instance CountdownCard : RawApdu nat := fun _ n =>
  match n with
  | O => (0%nat, Ok [0x90; 0x00])
  | S k => (k, Ok [0xAA; 0x61; 0x05])
  end.

Lemma transmit_on_exact_witness :
  transmit_on 3 (apdu_new 0 Ins.GET_DATA 0 0) 2%nat = Some (0%nat, Ok ([0xAA; 0xAA], MkSw 0x90 0)).
Proof.
  refine (proj2 (transmit_on_exact 3 (apdu_new 0 Ins.GET_DATA 0 0) 2%nat 0%nat [] (MkSw 0x90 0))
            [0xAA] (MkSw 0x61 5) 1%nat 2%nat [0xAA] _ _ _); [reflexivity| |lia].
  apply (chain_more 1 1%nat (MkSw 0x61 5) [0xAA] (MkSw 0x61 5) 0%nat []); [reflexivity|reflexivity|].
  apply (chain_more 0 0%nat (MkSw 0x61 5) [] (MkSw 0x90 0) 0%nat []); [reflexivity|reflexivity|].
  now constructor.
Defined.

(** The GET RESPONSE loop ends on every card whose supply of
    [61xx] answers shrinks, with as much fuel as the supply; and the loop has no
    bound of its own: a card that always answers [61xx] is never done with. *)
Theorem transmit_on_termination {T} `{RawApdu T} (m : T -> nat) a (t : T) :
  ((forall t sw t' resp, has_more_data sw = true ->
      transmit_raw (apdu_to_bytes (get_response_apdu sw)) t = (t', Ok resp) ->
      forall d sw1', resp = d ++ [sw1 sw1'; sw2 sw1'] -> has_more_data sw1' = true -> (m t' < m t)%nat) ->
   forall fuel, (forall t', (transmit_raw (apdu_to_bytes a) t).1 = t' -> (m t' + 1 < fuel)%nat) ->
   transmit_on fuel a t <> None) /\
  ((forall cmd t, exists t' d n, transmit_raw cmd t = (t', Ok (d ++ [0x61; n]))) ->
   forall fuel, transmit_on fuel a t = None).
Proof.
  split.
  - intros Hm fuel Hf. unfold transmit_on, io_bind, raw.
    destruct (transmit_raw (apdu_to_bytes a) t) as [t1 [resp|e|]]; try discriminate.
    destruct (len resp <? 2) eqn:Hl; [discriminate|]. bprop.
    destruct (split_sw_total resp Hl) as (d & sw0 & Hs & ->). unfold io_lift. rewrite Hs.
    destruct (has_more_data sw0); [|discriminate]. apply (chain_terminates m Hm). exact (Hf t1 eq_refl).
  - intros Hall fuel. unfold transmit_on, io_bind, raw.
    destruct (Hall (apdu_to_bytes a) t) as (t1 & d & n & ->).
    assert (Hne : forall k full n t, get_response_chain k full (MkSw 0x61 n) t = None).
    { induction k as [|k IH]; intros full b u; [reflexivity|]. simpl. unfold io_bind, raw.
      destruct (Hall (apdu_to_bytes (get_response_apdu (MkSw 0x61 b))) u) as (u1 & d2 & b2 & ->).
      pose proof (len_resp d2 (MkSw 0x61 b2)) as Hl2. simpl in Hl2. rewrite Hl2. unfold io_lift.
      pose proof (split_sw_app d2 (MkSw 0x61 b2)) as Hs. simpl in Hs. rewrite Hs. apply IH. }
    pose proof (len_resp d (MkSw 0x61 n)) as Hl. simpl in Hl. rewrite Hl. unfold io_lift.
    pose proof (split_sw_app d (MkSw 0x61 n)) as Hs. simpl in Hs. rewrite Hs. apply Hne.
Qed.

Lemma transmit_on_termination_witness : transmit_on 9 (apdu_new 0 Ins.GET_DATA 0 0) 7%nat <> None.
Proof.
  refine (proj1 (transmit_on_termination id (apdu_new 0 Ins.GET_DATA 0 0) 7%nat) _ 9%nat _).
  - intros [|t] sw t' resp _ Ht; cbv in Ht; injection Ht as <- <-; intros d sw1' Hd Hm.
    + apply (f_equal reverse) in Hd. rewrite reverse_app in Hd. injection Hd as H2 H1 _.
      unfold has_more_data in Hm. rewrite <- H1 in Hm. discriminate.
    + unfold id. lia.
  - intros t' <-. unfold id. simpl. lia.
Defined.
