(* ===== verification/Slot.v ===== *)
(** * Slot: key slots, their policies and their certificates

    [policy.rs], [refusal.rs], [slot.rs], [cert.rs] and [attest.rs] of piggy-piv.
    X.509, PKCS#1, SEC1 and ECDSA are third-party crates: the fields of
    [CertLib].  The attestation's policy extension is found by a DER walk of
    the program's own, modelled in full. *)

From Stdlib Require Import ZArith Lia String.
From stdpp Require Import base tactics list numbers.
From S2P Require Import Prelude PivError Reader Tlv Apdu Walk.

Local Open Scope Z_scope.

(** ** Policies ([policy.rs]) *)

Module PinPolicy.
Inductive t : Type := Default | Never | Once | Always.

#[global] Instance t_eq_dec : EqDecision t.
Proof. solve_decision. Defined.

Definition from_byte (b : Z) : res PivError t :=
  if b =? 0x00 then Ok Default
  else if b =? 0x01 then Ok Never
  else if b =? 0x02 then Ok Once
  else if b =? 0x03 then Ok Always
  else Err (PivOther (UnknownPinPolicy b)).

Definition to_byte (p : t) : Z :=
  match p with Default => 0x00 | Never => 0x01 | Once => 0x02 | Always => 0x03 end.

Definition generate_tag_byte (p : t) : option Z :=
  if negb (bool_decide (p = Default)) then Some (to_byte p) else None.

Definition as_str (p : t) : string :=
  match p with Default => "default" | Never => "never" | Once => "once" | Always => "always" end.

(** The error carries the string. *)
Definition from_str (s : string) : res string t :=
  if bool_decide (s = "default"%string) then Ok Default
  else if bool_decide (s = "never"%string) then Ok Never
  else if bool_decide (s = "once"%string) then Ok Once
  else if bool_decide (s = "always"%string) then Ok Always
  else Err s.
End PinPolicy.

Module TouchPolicy.
Inductive t : Type := Default | Never | Always | Cached.

#[global] Instance t_eq_dec : EqDecision t.
Proof. solve_decision. Defined.

Definition from_byte (b : Z) : res PivError t :=
  if b =? 0x00 then Ok Default
  else if b =? 0x01 then Ok Never
  else if b =? 0x02 then Ok Always
  else if b =? 0x03 then Ok Cached
  else Err (PivOther (UnknownTouchPolicy b)).

Definition to_byte (p : t) : Z :=
  match p with Default => 0x00 | Never => 0x01 | Always => 0x02 | Cached => 0x03 end.

Definition generate_tag_byte (p : t) : option Z :=
  if negb (bool_decide (p = Default)) then Some (to_byte p) else None.

Definition as_str (p : t) : string :=
  match p with Default => "default" | Never => "never" | Always => "always" | Cached => "cached" end.

Definition from_str (s : string) : res string t :=
  if bool_decide (s = "default"%string) then Ok Default
  else if bool_decide (s = "never"%string) then Ok Never
  else if bool_decide (s = "always"%string) then Ok Always
  else if bool_decide (s = "cached"%string) then Ok Cached
  else Err s.
End TouchPolicy.

Record KeyPolicy := MkKeyPolicy { kp_pin : PinPolicy.t; kp_touch : TouchPolicy.t }.

#[export] Instance KeyPolicy_eq_dec : EqDecision KeyPolicy.
Proof. solve_decision. Defined.

Definition CARD_DEFAULT : KeyPolicy := MkKeyPolicy PinPolicy.Default TouchPolicy.Default.
Definition OPERATOR_ACT : KeyPolicy := MkKeyPolicy PinPolicy.Always TouchPolicy.Always.

Definition serves_operator_acts (p : KeyPolicy) : bool := bool_decide (p = OPERATOR_ACT).

Definition effective_pin (p : KeyPolicy) (slot : Z) : PinPolicy.t :=
  match kp_pin p with
  | PinPolicy.Default =>
      if slot =? 0x9C then PinPolicy.Always
      else if slot =? 0x9E then PinPolicy.Never
      else PinPolicy.Once
  | configured => configured
  end.

Definition needs_touch (p : KeyPolicy) : bool :=
  match kp_touch p with TouchPolicy.Always | TouchPolicy.Cached => true | _ => false end.

(** ** Refusals ([refusal.rs]); times are in milliseconds *)

Definition TOUCH_TIMEOUT_FLOOR : Z := 250.

Inductive SecurityStatusRefusal : Type := TouchTimedOut | PinStateNotSatisfied.

Definition classify (elapsed : Z) (needs_touch : bool) : SecurityStatusRefusal :=
  if needs_touch && (TOUCH_TIMEOUT_FLOOR <=? elapsed) then TouchTimedOut else PinStateNotSatisfied.

(** ** Slots ([slot.rs]) *)

Inductive PivAlgorithm : Type := Rsa1024 | Rsa2048 | EcP256 | EcP384 | AlgEd25519.

#[export] Instance PivAlgorithm_eq_dec : EqDecision PivAlgorithm.
Proof. solve_decision. Defined.

Definition alg_to_byte (a : PivAlgorithm) : Z :=
  match a with
  | Rsa1024 => 0x06 | Rsa2048 => 0x07 | EcP256 => 0x11 | EcP384 => 0x14 | AlgEd25519 => 0xE0
  end.

Definition algorithm_label (a : PivAlgorithm) : string :=
  match a with
  | Rsa1024 => "RSA1024" | Rsa2048 => "RSA2048" | EcP256 => "ECCP256" | EcP384 => "ECCP384"
  | AlgEd25519 => "ED25519"
  end.

Definition key_type (a : PivAlgorithm) : string :=
  match a with Rsa1024 | Rsa2048 => "RSA" | EcP256 | EcP384 => "ECDSA" | AlgEd25519 => "ED25519" end.

Definition key_bits (a : PivAlgorithm) : Z :=
  match a with Rsa1024 => 1024 | Rsa2048 => 2048 | EcP256 => 256 | EcP384 => 384 | AlgEd25519 => 256 end.

(** [{id:x}] of one digit, and [{n}] of a number below a hundred. *)
Definition hex_digit (d : Z) : Z := if d <? 10 then 48 + d else 87 + d.
Definition fmt_hex2 (b : Z) : bytes := [hex_digit (b / 16); hex_digit (b mod 16)].
Definition fmt_dec2 (n : Z) : bytes := if n <? 10 then [48 + n] else [48 + n / 10; 48 + n mod 10].

Definition slot_id_to_string (id : Z) : bytes :=
  if id =? 0x9A then ascii "piv-auth"
  else if id =? 0x9C then ascii "piv-sign"
  else if id =? 0x9D then ascii "key-mgmt"
  else if id =? 0x9E then ascii "card-auth"
  else if (0x82 <=? id) && (id <=? 0x95) then ascii "retired-" ++ fmt_dec2 (id - 0x81)
  else ascii "0x" ++ fmt_hex2 id.

Definition slot_to_cert_tag (slot_id : Z) : option Z :=
  if slot_id =? 0x9A then Some 0x5FC105
  else if slot_id =? 0x9C then Some 0x5FC10A
  else if slot_id =? 0x9D then Some 0x5FC10B
  else if slot_id =? 0x9E then Some 0x5FC101
  else if (0x82 <=? slot_id) && (slot_id <=? 0x95) then Some (0x5FC10D + (slot_id - 0x82))
  else if slot_id =? 0xF9 then Some PIV_TAG_CERT_YK_ATTESTATION
  else None.

Definition is_valid_piv_slot (slot_id : Z) : bool := bool_decide (slot_to_cert_tag slot_id <> None).

Definition STANDARD_SLOTS : list Z := [0x9A; 0x9C; 0x9D; 0x9E].

(** [0x82..=0x95_u8] *)
Definition RETIRED_SLOTS : list Z := (fun i => 0x82 + Z.of_nat i) <$> seq 0 20.

(** ** Certificates ([cert.rs]) *)

(** [ssh_key]'s public keys. *)
Inductive EcdsaPublicKey : Type :=
| NistP256 (sec1 : bytes)
| NistP384 (sec1 : bytes)
| NistP521 (sec1 : bytes).

Inductive KeyData : Type :=
| KeyRsa (e n : bytes)
| KeyEd25519 (key : bytes)
| KeyEcdsa (key : EcdsaPublicKey)
| KeyOther (algorithm : string).

(** The parameters of a SubjectPublicKeyInfo: an OID that decodes or does not,
    or something else. *)
Inductive SpkiParams : Type :=
| ParamsOid (oid : option string)
| ParamsOther.

(** [subject_public_key.as_bytes()] is [None] when the bit string has unused
    bits. *)
Record Spki := MkSpki { spki_oid : string; spki_params : option SpkiParams; spki_bits : option bytes }.

(** What [cert.rs] takes from other crates. *)
Record CertLib := {
  (** [Certificate::from_der], its [subject_public_key_info] *)
  certificate_from_der : bytes -> option Spki;
  (** [PublicKey::from_sec1_bytes(..)?.to_encoded_point(false)] *)
  p256_uncompressed : bytes -> option bytes;
  p384_uncompressed : bytes -> option bytes;
  (** [pkcs1::RsaPublicKey::from_der]: modulus and exponent *)
  pkcs1_from_der : bytes -> option (bytes * bytes);
  (** [Mpint::from_positive_bytes] *)
  mpint_from_positive : bytes -> option bytes;
  (** [EcdsaPublicKey::from_sec1_bytes] *)
  ecdsa_from_sec1 : bytes -> option EcdsaPublicKey;
  (** [VerifyingKey::from_sec1_bytes], [Signature::from_der] succeed *)
  p256_key_ok : bytes -> bool;
  p256_sig_ok : bytes -> bool;
  p384_key_ok : bytes -> bool;
  p384_sig_ok : bytes -> bool;
  (** [key.verify_prehash(prehash, sig).is_ok()] *)
  p256_verify : bytes -> bytes -> bytes -> bool;
  p384_verify : bytes -> bytes -> bytes -> bool;
}.

Definition OID_RSA_ENCRYPTION : string := "1.2.840.113549.1.1.1".
Definition OID_EC_PUBLIC_KEY : string := "1.2.840.10045.2.1".
Definition OID_PRIME256V1 : string := "1.2.840.10045.3.1.7".
Definition OID_SECP384R1 : string := "1.3.132.0.34".
Definition OID_ED25519 : string := "1.3.101.112".

Record CertKey := MkCertKey { ck_algorithm : string; ck_curve : option string; ck_key : bytes }.

Section Cert.
Variable L : CertLib.

Definition cert_key (cert_der : bytes) : res PivError CertKey :=
  let* spki := ok_or (certificate_from_der L cert_der) (PivCrypto (Library "X.509 certificate")) in
  let* key := ok_or (spki_bits spki) (PivCrypto UnusedBits) in
  let* curve := match spki_params spki with
                | Some (ParamsOid o) =>
                    let* oid := ok_or o (PivCrypto (Library "EC curve parameter")) in Ok (Some oid)
                | _ => Ok None
                end in
  Ok (MkCertKey (spki_oid spki) curve key).

Definition ec_uncompressed (curve : option string) (sec1 : bytes) : res PivError (PivAlgorithm * bytes) :=
  let bad_point := PivCrypto (Library "EC point") in
  match curve with
  | Some oid =>
      if bool_decide (oid = OID_PRIME256V1) then
        let* point := ok_or (p256_uncompressed L sec1) bad_point in Ok (EcP256, point)
      else if bool_decide (oid = OID_SECP384R1) then
        let* point := ok_or (p384_uncompressed L sec1) bad_point in Ok (EcP384, point)
      else Err (UnsupportedAlgorithm (EcCurve oid))
  | None => Err (UnsupportedAlgorithm UnnamedEcCurve)
  end.

Definition extract_public_key (cert_der : bytes) : res PivError (PivAlgorithm * KeyData) :=
  let* ck := cert_key cert_der in
  if bool_decide (ck_algorithm ck = OID_RSA_ENCRYPTION) then
    let* (n_bytes, e_bytes) := ok_or (pkcs1_from_der L (ck_key ck)) (PivCrypto (Library "RSA public key")) in
    let* alg := (if (len n_bytes =? 128) || (len n_bytes =? 129) then Ok Rsa1024
                 else if (len n_bytes =? 256) || (len n_bytes =? 257) then Ok Rsa2048
                 else Err (UnsupportedAlgorithm (RsaKeySize (len n_bytes * 8)))) in
    let* e := ok_or (mpint_from_positive L e_bytes) (PivCrypto (Library "mpint")) in
    let* n := ok_or (mpint_from_positive L n_bytes) (PivCrypto (Library "mpint")) in
    Ok (alg, KeyRsa e n)
  else if bool_decide (ck_algorithm ck = OID_ED25519) then
    if len (ck_key ck) =? 32 then Ok (AlgEd25519, KeyEd25519 (ck_key ck))
    else Err (PivCrypto (Ed25519Length (len (ck_key ck))))
  else if bool_decide (ck_algorithm ck = OID_EC_PUBLIC_KEY) then
    let* (alg, point) := ec_uncompressed (ck_curve ck) (ck_key ck) in
    let* ec_key := ok_or (ecdsa_from_sec1 L point) (PivCrypto (Library "EC key")) in
    Ok (alg, KeyEcdsa ec_key)
  else Err (UnsupportedAlgorithm UnknownKeyType).

(** [cert::ec_sec1_point] *)
Definition cert_sec1_point (cert_der : bytes) : res PivError bytes :=
  let* ck := cert_key cert_der in
  if negb (bool_decide (ck_algorithm ck = OID_EC_PUBLIC_KEY)) then Err (UnsupportedAlgorithm NotAnEcKey)
  else let* (_, point) := ec_uncompressed (ck_curve ck) (ck_key ck) in Ok point.

Definition verify_ec_signature (pubkey : KeyData) (prehash der_sig : bytes) : res PivError bool :=
  match pubkey with
  | KeyEcdsa (NistP256 key) =>
      if negb (p256_key_ok L key) then Err (PivCrypto (Library "CAK public key"))
      else if negb (p256_sig_ok L der_sig) then Err (PivCrypto (Library "CAK signature"))
      else Ok (p256_verify L key prehash der_sig)
  | KeyEcdsa (NistP384 key) =>
      if negb (p384_key_ok L key) then Err (PivCrypto (Library "CAK public key"))
      else if negb (p384_sig_ok L der_sig) then Err (PivCrypto (Library "CAK signature"))
      else Ok (p384_verify L key prehash der_sig)
  | KeyEcdsa (NistP521 _) => Err (UnsupportedAlgorithm CakCurve)
  | _ => Err (UnsupportedAlgorithm CakNotEc)
  end.
End Cert.

Record PivSlot := MkSlot {
  slot_id : Z;
  slot_algorithm : PivAlgorithm;
  slot_cert_der : bytes;
  slot_public_key : KeyData;
}.

Definition slot_name (s : PivSlot) : bytes := slot_id_to_string (slot_id s).

(** [PivSlot::ec_sec1_point] *)
Definition slot_sec1_point (L : CertLib) (s : PivSlot) : res PivError bytes := cert_sec1_point L (slot_cert_der s).

(** ** Attestations ([attest.rs]) *)

Definition YK_POLICY_OID_BODY : bytes := [0x2B; 0x06; 0x01; 0x04; 0x01; 0x82; 0xC4; 0x0A; 0x03; 0x08].

(** A tag, which must be the given one. *)
Definition expect_tag (what : string) (expected : Z) : Tl unit :=
  let! tag := read_tag in
  if negb (tag =? expected) then rd_lift (Err (PivTlv (UnexpectedTag what expected tag))) else rd_ret tt.

Definition try_parse_policy_extension (extension_body : bytes) : res PivError (option (Z * Z)) :=
  parse_all
    (let! oid_tag := read_tag in
     if negb (oid_tag =? 0x06) then rd_ret None
     else
       let! oid := read_value in
       if negb (bytes_eqb oid YK_POLICY_OID_BODY) then rd_ret None
       else
         let! next_tag := read_tag in
         let! next_tag := (if next_tag =? 0x01 then let! _ := read_value in read_tag else rd_ret next_tag) in
         if negb (next_tag =? 0x04) then rd_lift (Err (PivTlv (UnexpectedTag "extnValue" 0x04 next_tag)))
         else
           let! extn_value := read_value in
           if negb (len extn_value =? 2) then rd_lift (Err (PivTlv (PolicyExtensionLength (len extn_value))))
           else
             rd_lift (let* a := index extn_value 0 in let* b := index extn_value 1 in Ok (Some (a, b))))
    extension_body.

Definition policy_step (_ : unit) (tag : Z) (value : bytes) : res PivError (unit + Z * Z) :=
  if negb (tag =? 0x30) then Ok (inl tt)
  else
    let* policy := try_parse_policy_extension value in
    match policy with
    | Some p => Ok (inr p)
    | None => Ok (inl tt)
    end.

Definition find_policy_in_extensions (extensions_wrapper : bytes) : res PivError (Z * Z) :=
  let* ext_seq := parse_all (let! _ := expect_tag "Extensions" 0x30 in read_value) extensions_wrapper in
  walk_tlvs policy_step (fun _ => Err (PivTlv NoPolicyExtension)) tt ext_seq.

Definition extensions_step (_ : unit) (tag : Z) (value : bytes) : res PivError (unit + Z * Z) :=
  if tag =? 0xA3 then let* p := find_policy_in_extensions value in Ok (inr p) else Ok (inl tt).

Definition find_policy_bytes (cert_der : bytes) : res PivError (Z * Z) :=
  let* cert_body := parse_all (let! _ := expect_tag "Certificate" 0x30 in read_value) cert_der in
  let* tbs := parse_all (let! _ := expect_tag "TBSCertificate" 0x30 in read_value) cert_body in
  walk_tlvs extensions_step (fun _ => Err (PivTlv NoExtensions)) tt tbs.

Definition parse_policy (cert_der : bytes) : res PivError (PinPolicy.t * TouchPolicy.t) :=
  let* (pin_byte, touch_byte) := find_policy_bytes cert_der in
  let* pin := PinPolicy.from_byte pin_byte in
  let* touch := TouchPolicy.from_byte touch_byte in
  Ok (pin, touch).

(** ** Lemmas *)

Lemma pin_policy_byte p : PinPolicy.from_byte (PinPolicy.to_byte p) = Ok p.
Proof. now destruct p. Qed.

Lemma touch_policy_byte p : TouchPolicy.from_byte (TouchPolicy.to_byte p) = Ok p.
Proof. now destruct p. Qed.

(** A string of bytes parsed by a [good]-style parser, as an outcome. *)
Lemma parse_all_yields {E A} (p : Parser E A) Q data :
  safe p Q -> bytes_ok data -> yields (parse_all p data) Q.
Proof.
  intros Hs Hd. destruct (Hs _ (reader_new_ok data Hd)) as [Hn Hx]. unfold parse_all.
  destruct (p (reader_new data)) as [[x r]|e|]; simpl; [exact (proj1 (Hx x r eq_refl))|exact Logic.I|now destruct Hn].
Qed.

Lemma expect_tag_safe what t : safe (expect_tag what t) (fun _ => True).
Proof.
  apply safe_bind with (fun t => 0 <= t); [apply safe_tag|]. intros tag _.
  case_match; [apply good_safe, good_err|now apply safe_ret].
Qed.

(** A wrapper tag and its value. *)
Lemma wrapper_yields what t data :
  bytes_ok data -> yields (parse_all (let! _ := expect_tag what t in read_value) data) bytes_ok.
Proof.
  intros Hd. apply parse_all_yields; [|exact Hd].
  apply safe_bind with (fun _ => True); [apply expect_tag_safe|]. intros _ _. apply safe_value.
Qed.

Lemma wrapper_reads what t v tail :
  tag_ok t -> len v < 2 ^ 24 ->
  parse_all (let! _ := expect_tag what t in read_value) (enc_tlv t v ++ tail) = Ok v.
Proof.
  intros Ht Hv. apply parse_all_reads. apply reads_bind with tt; [|now apply reads_value].
  apply reads_bind_last with t; [now apply reads_tag|]. rewrite Z.eqb_refl. apply reads_ret.
Qed.

Lemma policy_extension_yields data :
  bytes_ok data -> yields (try_parse_policy_extension data) (fun _ => True).
Proof.
  intros Hd. apply parse_all_yields; [|exact Hd].
  apply safe_bind with (fun t => 0 <= t); [apply safe_tag|]. intros t _. case_match; [now apply safe_ret|].
  apply safe_bind with bytes_ok; [apply safe_value|]. intros oid _. case_match; [now apply safe_ret|].
  apply safe_bind with (fun t => 0 <= t); [apply safe_tag|]. intros t2 Ht2.
  apply safe_bind with (fun t => 0 <= t).
  { case_match; [|now apply safe_ret].
    apply safe_bind with bytes_ok; [apply safe_value|]. intros _ _. apply safe_tag. }
  intros t3 _. case_match; [apply good_safe, good_err|].
  apply safe_bind with bytes_ok; [apply safe_value|]. intros v _. case_match; [apply good_safe, good_err|].
  bprop. apply safe_lift; [|trivial].
  apply no_panic_bind; [apply index_no_panic; lia|]. intros a _.
  apply no_panic_bind; [apply index_no_panic; lia|]. intros b _. discriminate.
Qed.

Lemma find_in_extensions_yields data :
  bytes_ok data -> yields (find_policy_in_extensions data) (fun _ => True).
Proof.
  intros Hd. apply yields_bind with (1 := wrapper_yields _ _ _ Hd). intros exts Hexts.
  apply walk_yields with (I := fun _ => True); try done. intros s tag v _ Hv.
  unfold policy_step. case_match; [done|].
  apply yields_bind with (1 := policy_extension_yields v Hv). now intros [p|].
Qed.

Lemma find_policy_yields data : bytes_ok data -> yields (find_policy_bytes data) (fun _ => True).
Proof.
  intros Hd. apply yields_bind with (1 := wrapper_yields _ _ _ Hd). intros body Hb.
  apply yields_bind with (1 := wrapper_yields _ _ _ Hb). intros tbs Htbs.
  apply walk_yields with (I := fun _ => True); try done. intros s tag v _ Hv.
  unfold extensions_step. case_match; [|done].
  now apply yields_bind with (1 := find_in_extensions_yields v Hv).
Qed.

(** *** Attestations the walk finds its way in *)

(** An extension: its OID, the criticality when it is encoded, its value. *)
Definition extension (oid : bytes) (critical : option bytes) (value : bytes) : Z * bytes :=
  (0x30, enc_items ((0x06, oid) ::
           match critical with Some c => [(0x01, c)] | None => [] end ++ [(0x04, value)])).

(** The certificate: TBSCertificate fields around the extensions, then the
    signature. *)
Definition attestation (before : items) (extensions : items) (behind : items) (signature : bytes) : bytes :=
  enc_tlv 0x30 (enc_tlv 0x30 (enc_items (before ++ (0xA3, enc_tlv 0x30 (enc_items extensions)) :: behind))
                ++ signature).

Lemma walk_items_app {E S R} (step : S -> Z -> bytes -> res E (S + R)) stop s l l' :
  Forall (fun '(t, v) => step s t v = Ok (inl s)) l ->
  walk_items step stop s (l ++ l') = walk_items step stop s l'.
Proof. induction 1 as [|[t v] l H _ IH]; simpl; [reflexivity|]. now rewrite H. Qed.

Lemma try_parse_other oid c v :
  oid <> YK_POLICY_OID_BODY -> len oid < 2 ^ 24 ->
  try_parse_policy_extension (extension oid c v).2 = Ok None.
Proof.
  intros Ho Hl. unfold extension. cbn [snd]. rewrite enc_items_cons.
  apply parse_all_reads. unfold enc_tlv.
  apply reads_bind with 0x06; [apply reads_tag; by_compute|]. cbn [Z.eqb Pos.eqb negb].
  apply reads_bind_last with oid; [now apply reads_value|].
  unfold bytes_eqb. rewrite bool_decide_false by exact Ho. apply reads_ret.
Qed.

Lemma try_parse_policy c a b :
  (forall x, c = Some x -> len x < 2 ^ 24) ->
  try_parse_policy_extension (extension YK_POLICY_OID_BODY c [a; b]).2 = Ok (Some (a, b)).
Proof.
  intros Hc. unfold extension. cbn [snd]. rewrite enc_items_cons.
  rewrite <- (app_nil_r (_ ++ enc_items _)). apply parse_all_reads. unfold enc_tlv. rewrite <- app_assoc.
  apply reads_bind with 0x06; [apply reads_tag; by_compute|]. cbn [Z.eqb Pos.eqb negb].
  apply reads_bind with YK_POLICY_OID_BODY; [apply reads_value; by_compute|].
  unfold bytes_eqb. rewrite bool_decide_true by reflexivity. cbn [negb].
  assert (Hv : reads (let! extn_value := read_value in
     if negb (len extn_value =? 2) then rd_lift (Err (PivTlv (PolicyExtensionLength (len extn_value))))
     else rd_lift (let* a := index extn_value 0 in let* b := index extn_value 1 in Ok (Some (a, b))))
     (Some (a, b)) (enc_length (len [a; b]) ++ [a; b])).
  { apply reads_bind_last with [a; b]; [apply reads_value; by_compute|]. apply reads_lift. reflexivity. }
  destruct c as [x|]; cbn [app].
  - rewrite enc_items_cons. unfold enc_tlv. rewrite <- app_assoc.
    apply reads_bind with 0x01; [apply reads_tag; by_compute|]. cbn [Z.eqb Pos.eqb negb].
    unfold enc_items. cbn [mbind list_bind]. rewrite app_nil_r. unfold enc_tlv. rewrite app_assoc.
    apply reads_bind with 0x04; [|exact Hv].
    apply reads_bind with x; [apply reads_value; auto|apply reads_tag; by_compute].
  - unfold enc_items. cbn [mbind list_bind]. rewrite app_nil_r. unfold enc_tlv.
    apply reads_bind with 0x04; [apply reads_tag; by_compute|]. cbn [Z.eqb Pos.eqb negb].
    apply reads_bind_nil with 0x04; [apply reads_ret|exact Hv].
Qed.

Lemma wrapper_reads_all what t v :
  tag_ok t -> len v < 2 ^ 24 -> parse_all (let! _ := expect_tag what t in read_value) (enc_tlv t v) = Ok v.
Proof. intros Ht Hv. rewrite <- (app_nil_r (enc_tlv t v)). now apply wrapper_reads. Qed.

(** ** Properties *)

(** The policy read off an attestation certificate is the one
    its policy extension states, wherever that extension stands among others
    and whether or not its criticality is encoded. *)
Theorem parse_policy_finds before exts rest behind signature critical pin touch :
  Forall (fun '(tag, _) => tag <> 0xA3) before ->
  Forall (fun e => exists oid c v, e = extension oid c v /\ oid <> YK_POLICY_OID_BODY /\ len oid < 2 ^ 24) exts ->
  (forall x, critical = Some x -> len x < 2 ^ 24) ->
  let policy := extension YK_POLICY_OID_BODY critical [PinPolicy.to_byte pin; TouchPolicy.to_byte touch] in
  let extensions := exts ++ policy :: rest in
  let fields := before ++ (0xA3, enc_tlv 0x30 (enc_items extensions)) :: behind in
  items_ok extensions -> items_ok fields ->
  len (enc_items extensions) < 2 ^ 24 ->
  len (enc_tlv 0x30 (enc_items fields) ++ signature) < 2 ^ 24 ->
  parse_policy (attestation before extensions behind signature) = Ok (pin, touch).
Proof.
  intros Hb He Hc policy extensions fields Hoe Hof Hle Hlf.
  assert (Hlf' : len (enc_items fields) < 2 ^ 24).
  { unfold enc_tlv in Hlf. rewrite !len_app in Hlf. pose proof (len_nonneg signature).
    pose proof (len_nonneg (enc_tag 0x30)). pose proof (len_nonneg (enc_length (len (enc_items fields)))). lia. }
  assert (Hexts : find_policy_in_extensions (enc_tlv 0x30 (enc_items extensions))
                  = Ok (PinPolicy.to_byte pin, TouchPolicy.to_byte touch)).
  { unfold find_policy_in_extensions. rewrite wrapper_reads_all by (exact Hle || by_compute). cbn [res_bind].
    rewrite walk_tlvs_items by exact Hoe. unfold extensions. rewrite walk_items_app.
    - unfold policy. cbn [walk_items]. unfold policy_step at 1. cbn [Z.eqb Pos.eqb negb extension].
      change (enc_items _) with (extension YK_POLICY_OID_BODY critical [PinPolicy.to_byte pin; TouchPolicy.to_byte touch]).2.
      now rewrite try_parse_policy.
    - eapply list.Forall_impl; [exact He|]. intros e (oid & c & v & -> & Ho & Hl).
      unfold policy_step. cbn [extension Z.eqb Pos.eqb negb].
      change (enc_items _) with (extension oid c v).2. now rewrite try_parse_other. }
  unfold parse_policy, find_policy_bytes, attestation. fold fields.
  rewrite wrapper_reads_all by (exact Hlf || by_compute). cbn [res_bind].
  rewrite wrapper_reads by (exact Hlf' || by_compute). cbn [res_bind].
  rewrite walk_tlvs_items by exact Hof. unfold fields. rewrite walk_items_app.
  - cbn [walk_items]. unfold extensions_step at 1. cbn [Z.eqb Pos.eqb]. rewrite Hexts. cbn [res_bind].
    now rewrite pin_policy_byte, touch_policy_byte.
  - eapply list.Forall_impl; [exact Hb|]. intros [t v] Ht. unfold extensions_step.
    now rewrite (proj2 (Z.eqb_neq t 0xA3) Ht).
Qed.

Lemma parse_policy_finds_witness :
  parse_policy (attestation [(0x02, [7])] [extension [0x55; 0x1D; 0x0F] (Some [0xFF]) [3];
                                           extension YK_POLICY_OID_BODY None [3; 2]] [] [1; 2; 3])
  = Ok (PinPolicy.Always, TouchPolicy.Always).
Proof.
  refine (parse_policy_finds [(0x02, [7])] [extension [0x55; 0x1D; 0x0F] (Some [0xFF]) [3]] [] [] [1; 2; 3] None
            PinPolicy.Always TouchPolicy.Always _ _ _ _ _ _ _).
  - repeat constructor; discriminate.
  - constructor; [|constructor]. exists [0x55; 0x1D; 0x0F], (Some [0xFF]), [3]. split; [reflexivity|].
    split; [discriminate|reflexivity].
  - discriminate.
  - now apply items_ok_dec.
  - now apply items_ok_dec.
  - reflexivity.
  - reflexivity.
Defined.
