(* ===== verification/Fascn.v ===== *)
(** * Fascn: the FASC-N of a card's CHUID, [piggy-piv/src/fascn.rs]

    A BCD stream of five-bit symbols.  The decoder is the program's; the encoder
    below, from SP 800-73-4, is what its theorem is stated against. *)

From Stdlib Require Import ZArith Lia String.
From stdpp Require Import base tactics list numbers.
From S2P Require Import Prelude.

Local Open Scope Z_scope.

Inductive FascnError : Type :=
| UnexpectedEnd
| IllegalSymbol (v : Z)
| UnexpectedStartSentinel
| MissingStartSentinel
| MissingEndSentinel
| BadOrgCategory (d : bytes)
| BadAssociation (d : bytes)
| LrcMismatch.

Inductive OrgCategory : Type := Federal | State | Commercial | Foreign.

Definition org_from_digit (d : bytes) : res FascnError OrgCategory :=
  match head d with
  | Some 49 => Ok Federal
  | Some 50 => Ok State
  | Some 51 => Ok Commercial
  | Some 52 => Ok Foreign
  | _ => Err (BadOrgCategory d)
  end.

Definition org_as_str (o : OrgCategory) : string :=
  match o with
  | Federal => "federal" | State => "state" | Commercial => "commercial" | Foreign => "foreign"
  end.

Inductive Association : Type :=
| Employee | Civil | Executive | Uniformed | Contractor | Affiliate | Beneficiary.

Definition assoc_from_digit (d : bytes) : res FascnError Association :=
  match head d with
  | Some 49 => Ok Employee
  | Some 50 => Ok Civil
  | Some 51 => Ok Executive
  | Some 52 => Ok Uniformed
  | Some 53 => Ok Contractor
  | Some 54 => Ok Affiliate
  | Some 55 => Ok Beneficiary
  | _ => Err (BadAssociation d)
  end.

Definition assoc_as_str (a : Association) : string :=
  match a with
  | Employee => "employee" | Civil => "civil" | Executive => "executive-staff"
  | Uniformed => "uniformed-service" | Contractor => "contractor" | Affiliate => "affiliate"
  | Beneficiary => "beneficiary"
  end.

(** The fields are strings of ASCII digits. *)
Record Fascn := MkFascn {
  agency : bytes;
  system : bytes;
  crednum : bytes;
  cs : bytes;
  ici : bytes;
  pi : bytes;
  oc : OrgCategory;
  oi : bytes;
  poa : Association;
}.

Definition fascn_zero : Fascn :=
  MkFascn (ascii "0000") (ascii "0000") (ascii "000000") (ascii "0") (ascii "1") (ascii "0000000000")
    Commercial (ascii "0000") Employee.

Definition to_pivy_string (f : Fascn) : bytes :=
  agency f ++ ascii "-" ++ system f ++ ascii "-" ++ crednum f ++ ascii "-" ++ cs f ++ ascii "-" ++ ici f
  ++ ascii "/" ++ ascii (org_as_str (oc f)) ++ ascii ":" ++ oi f
  ++ ascii "/" ++ ascii (assoc_as_str (poa f)) ++ ascii ":" ++ pi f.

Inductive Symbol : Type :=
| Digit (c : Z)
| StartSentinel
| FieldSeparator
| EndSentinel.

Definition decode_symbol (v : Z) : res FascnError Symbol :=
  match v with
  | 0x01 => Ok (Digit 48)
  | 0x10 => Ok (Digit 49)
  | 0x08 => Ok (Digit 50)
  | 0x19 => Ok (Digit 51)
  | 0x04 => Ok (Digit 52)
  | 0x15 => Ok (Digit 53)
  | 0x0d => Ok (Digit 54)
  | 0x1c => Ok (Digit 55)
  | 0x02 => Ok (Digit 56)
  | 0x13 => Ok (Digit 57)
  | 0x1a => Ok StartSentinel
  | 0x16 => Ok FieldSeparator
  | 0x1f => Ok EndSentinel
  | _ => Err (IllegalSymbol v)
  end.

Record BcdReader := MkBcd { bcd_data : bytes; bcd_bit : Z; bcd_lrc : Z }.

Definition bcd_new (data : bytes) : BcdReader := MkBcd data 0 0.

(** [for _ in 0..n { .. v = (v << 1) | b; self.bit += 1 }] *)
Fixpoint read_bits {E} (n : nat) (v : Z) (r : BcdReader) : res E (Z * BcdReader) :=
  match n with
  | O => Ok (v, r)
  | S k =>
      let* byte := index (bcd_data r) (bcd_bit r / 8) in
      let b := Z.land (Z.shiftr byte (7 - bcd_bit r mod 8)) 1 in
      read_bits k (Z.lor (u8 (Z.shiftl v 1)) b) (MkBcd (bcd_data r) (bcd_bit r + 1) (bcd_lrc r))
  end.

Definition read5_raw {E} (r : BcdReader) : res E (option Z * BcdReader) :=
  if len (bcd_data r) * 8 <? bcd_bit r + 5 then Ok (None, r)
  else let* (v, r) := read_bits 5 0 r in Ok (Some v, r).

Definition read_symbol (r : BcdReader) : res FascnError (Symbol * BcdReader) :=
  let* (o, r) := read5_raw r in
  let* v := ok_or o UnexpectedEnd in
  let r := MkBcd (bcd_data r) (bcd_bit r) (Z.lxor (bcd_lrc r) (Z.land v 0x1e)) in
  let* s := decode_symbol v in
  Ok (s, r).

(** [read_field]'s loop; every turn reads five bits. *)
Fixpoint read_field_loop (fuel : nat) (limit : Z) (s : bytes) (r : BcdReader)
    : res FascnError ((bytes * option Symbol) * BcdReader) :=
  match fuel with
  | O => Panic
  | S k =>
      let* (sym, r) := read_symbol r in
      match sym with
      | StartSentinel => Err UnexpectedStartSentinel
      | FieldSeparator => Ok ((s, Some FieldSeparator), r)
      | EndSentinel => Ok ((s, Some EndSentinel), r)
      | Digit c =>
          let s := s ++ [c] in
          if negb (limit =? 0) && (limit <=? len s) then Ok ((s, None), r)
          else read_field_loop k limit s r
      end
  end.

Definition read_field (limit : Z) (r : BcdReader) : res FascnError ((bytes * option Symbol) * BcdReader) :=
  read_field_loop (S (Z.to_nat (len (bcd_data r) * 8 - bcd_bit r))) limit [] r.

Definition check_lrc (r : BcdReader) : res FascnError (unit * BcdReader) :=
  let* (o, r) := read5_raw r in
  let* v := ok_or o UnexpectedEnd in
  if negb (Z.land v 0x1e =? bcd_lrc r) then Err LrcMismatch else Ok (tt, r).

Definition decode (data : bytes) : res FascnError Fascn :=
  if (7 <=? len data) && (len data <=? 25) && forallb (fun b => b =? 0) data then Ok fascn_zero
  else
    let r := bcd_new data in
    let* (s, r) := read_symbol r in
    match s with
    | StartSentinel =>
        let* ((agency, _), r) := read_field 5 r in
        let* ((system, _), r) := read_field 5 r in
        let* ((crednum, _), r) := read_field 7 r in
        let* ((cs, _), r) := read_field 2 r in
        let* ((ici, _), r) := read_field 2 r in
        let* ((pi, _), r) := read_field 10 r in
        let* ((oc, _), r) := read_field 1 r in
        let* ((oi, _), r) := read_field 4 r in
        let* ((poa, poa_term), r) := read_field 2 r in
        let* oc := org_from_digit oc in
        let* poa := assoc_from_digit poa in
        match poa_term with
        | Some EndSentinel =>
            let* (_, r) := check_lrc r in
            Ok (MkFascn agency system crednum cs ici pi oc oi poa)
        | _ => Err MissingEndSentinel
        end
    | _ => Err MissingStartSentinel
    end.

(** ** The encoding of SP 800-73-4 *)

Definition encode_symbol (s : Symbol) : Z :=
  match s with
  | Digit 48 => 0x01 | Digit 49 => 0x10 | Digit 50 => 0x08 | Digit 51 => 0x19 | Digit 52 => 0x04
  | Digit 53 => 0x15 | Digit 54 => 0x0d | Digit 55 => 0x1c | Digit 56 => 0x02 | Digit 57 => 0x13
  | Digit _ => 0
  | StartSentinel => 0x1a | FieldSeparator => 0x16 | EndSentinel => 0x1f
  end.

(** Five bits of a code, eight of a byte, the most significant first. *)
Definition bits_of (n : nat) (v : Z) : list bool := (fun i => Z.testbit v (Z.of_nat i)) <$> reverse (seq 0 n).

Definition bits_value (l : list bool) : Z := foldl (fun v b => 2 * v + Z.b2z b) 0 l.

(** The bytes of a bit string. *)
Fixpoint pack (n : nat) (l : list bool) : bytes :=
  match n with
  | O => []
  | S k => bits_value (take 8 l) :: pack k (drop 8 l)
  end.

Definition org_digit (o : OrgCategory) : Z :=
  match o with Federal => 49 | State => 50 | Commercial => 51 | Foreign => 52 end.
Definition assoc_digit (a : Association) : Z :=
  match a with
  | Employee => 49 | Civil => 50 | Executive => 51 | Uniformed => 52 | Contractor => 53 | Affiliate => 54
  | Beneficiary => 55
  end.

Definition fascn_symbols (f : Fascn) : list Symbol :=
  [StartSentinel] ++ (Digit <$> agency f) ++ [FieldSeparator] ++ (Digit <$> system f) ++ [FieldSeparator]
  ++ (Digit <$> crednum f) ++ [FieldSeparator] ++ (Digit <$> cs f) ++ [FieldSeparator]
  ++ (Digit <$> ici f) ++ [FieldSeparator] ++ (Digit <$> pi f) ++ [Digit (org_digit (oc f))]
  ++ (Digit <$> oi f) ++ [Digit (assoc_digit (poa f))] ++ [EndSentinel].

(** The check character: the codes' data bits xored, with no regard to parity. *)
Definition lrc_of (l : list Symbol) : Z :=
  foldl (fun acc s => Z.lxor acc (Z.land (encode_symbol s) 0x1e)) 0 l.

Definition encode (f : Fascn) : bytes :=
  let codes := (encode_symbol <$> fascn_symbols f) ++ [lrc_of (fascn_symbols f)] in
  pack 25 (mbind (bits_of 5) codes).

Definition digits (n : Z) (l : bytes) : Prop := len l = n /\ Forall (fun c => 48 <= c <= 57) l.

Definition fascn_ok (f : Fascn) : Prop :=
  digits 4 (agency f) /\ digits 4 (system f) /\ digits 6 (crednum f) /\ digits 1 (cs f) /\
  digits 1 (ici f) /\ digits 10 (pi f) /\ digits 4 (oi f).

(** ** Lemmas *)

Lemma length_bits_of n v : length (bits_of n v) = n.
Proof. unfold bits_of. now rewrite length_fmap, length_reverse, length_seq. Qed.

Lemma bits_of_lookup n v i : (i < n)%nat -> bits_of n v !! i = Some (Z.testbit v (Z.of_nat (n - 1 - i))).
Proof.
  intros Hi. unfold bits_of. rewrite list_lookup_fmap, reverse_lookup by (rewrite length_seq; lia).
  rewrite length_seq, lookup_seq_lt by lia. simpl. do 2 f_equal. lia.
Qed.

(** A code is what its five bits say. *)
Lemma bits_value_5 v : 0 <= v < 32 -> bits_value (bits_of 5 v) = v.
Proof.
  intros Hv. assert (H : forallb (fun n => bits_value (bits_of 5 (Z.of_nat n)) =? Z.of_nat n) (seq 0 32) = true)
    by reflexivity.
  rewrite forallb_forall in H. specialize (H (Z.to_nat v)). rewrite Z2Nat.id in H by lia.
  apply Z.eqb_eq, H, in_seq. lia.
Qed.

(** Eight bits are what their byte says. *)
Lemma bits_of_value_8 l : length l = 8%nat -> bits_of 8 (bits_value l) = l /\ byte_ok (bits_value l).
Proof.
  intros Hl. do 8 (destruct l as [|[] l]; [discriminate| |]); (destruct l; [|discriminate]); split;
    first [reflexivity | unfold byte_ok, bits_value; simpl; lia].
Qed.

Definition bits (data : bytes) : list bool := mbind (bits_of 8) data.

Lemma bits_cons b l : bits (b :: l) = bits_of 8 b ++ bits l.
Proof. reflexivity. Qed.

Lemma bits_pack n l : length l = (8 * n)%nat -> bits (pack n l) = l /\ bytes_ok (pack n l).
Proof.
  revert l. induction n as [|n IH]; intros l Hl.
  - destruct l; [|simpl in Hl; lia]. split; [reflexivity|constructor].
  - simpl pack. destruct (bits_of_value_8 (take 8 l)) as [H8 Hb]; [rewrite length_take; lia|].
    destruct (IH (drop 8 l)) as [HI Hbs]; [rewrite length_drop; lia|].
    split; [|now constructor]. rewrite bits_cons, H8, HI. apply take_drop.
Qed.

Lemma length_bits data : length (bits data) = (8 * length data)%nat.
Proof. induction data as [|b l IH]; [reflexivity|]. rewrite bits_cons, length_app, length_bits_of, IH. simpl length. lia. Qed.

Lemma bits_lookup data i b :
  bits data !! i = Some b ->
  exists byte, data !! (i / 8)%nat = Some byte /\ b = Z.testbit byte (7 - Z.of_nat (i mod 8)).
Proof.
  revert i. induction data as [|x l IH]; intros i H; [destruct i; discriminate|].
  rewrite bits_cons in H. destruct (decide (i < 8)%nat) as [Hi|Hi].
  - rewrite lookup_app_l in H by (rewrite length_bits_of; lia). rewrite bits_of_lookup in H by lia.
    injection H as <-. exists x. rewrite Nat.div_small, Nat.mod_small by lia. split; [reflexivity|].
    f_equal. lia.
  - rewrite lookup_app_r in H by (rewrite length_bits_of; lia). rewrite length_bits_of in H.
    apply IH in H as (byte & Hl & Hb). exists byte.
    assert (Hd : (i = i - 8 + 1 * 8)%nat) by lia.
    assert (Hq : (i / 8 = S ((i - 8) / 8))%nat) by (rewrite Hd at 1; rewrite Nat.div_add by lia; lia).
    assert (Hm : (i mod 8 = (i - 8) mod 8)%nat) by (rewrite Hd at 1; apply Nat.Div0.mod_add).
    rewrite Hq, Hm. split; [exact Hl|exact Hb].
Qed.

(** The bits still to be read. *)
Definition bits_left (r : BcdReader) (l : list bool) : Prop :=
  0 <= bcd_bit r /\ drop (Z.to_nat (bcd_bit r)) (bits (bcd_data r)) = l.

Definition bcd_adv (r : BcdReader) (n : Z) : BcdReader := MkBcd (bcd_data r) (bcd_bit r + n) (bcd_lrc r).

Lemma bits_left_adv r l t : bits_left r (l ++ t) -> bits_left (bcd_adv r (len l)) t.
Proof.
  intros [Hp Hd]. split; simpl; [pose proof (len_nonneg l); lia|].
  unfold len. rewrite Z2Nat.inj_add, Nat2Z.id by lia. rewrite <- drop_drop, Hd. apply drop_app_length.
Qed.

Lemma land_1_testbit z n : 0 <= n -> Z.land (Z.shiftr z n) 1 = Z.b2z (Z.testbit z n).
Proof. intros Hn. change 1 with (Z.ones 1). rewrite Z.land_ones by lia. rewrite Z.testbit_spec', Z.shiftr_div_pow2 by lia. reflexivity. Qed.

Lemma lor_bit v b : 0 <= v -> Z.lor (2 * v) (Z.b2z b) = 2 * v + Z.b2z b.
Proof. destruct b; [now destruct v|intros _]. simpl Z.b2z. now rewrite Z.lor_0_r, Z.add_0_r. Qed.

Lemma read_bits_spec {E} n : forall v r l t,
  bits_left r (l ++ t) -> length l = n -> 0 <= v -> (v + 1) * 2 ^ Z.of_nat n <= 256 ->
  read_bits (E := E) n v r = Ok (foldl (fun v b => 2 * v + Z.b2z b) v l, bcd_adv r (Z.of_nat n)).
Proof.
  induction n as [|n IH]; intros v r l t Hr Hl Hv Hb.
  - destruct l; [|discriminate]. unfold bcd_adv. simpl. rewrite Z.add_0_r. now destruct r.
  - destruct l as [|b l]; [discriminate|]. injection Hl as Hl. pose proof Hr as [Hp Hd]. simpl app in Hd.
    assert (Hlook : bits (bcd_data r) !! Z.to_nat (bcd_bit r) = Some b).
    { rewrite <- (Nat.add_0_r (Z.to_nat _)), <- lookup_drop, Hd. reflexivity. }
    apply bits_lookup in Hlook as (byte & Hbyte & Hbit).
    assert (Hdiv : bcd_bit r / 8 = Z.of_nat (Z.to_nat (bcd_bit r) / 8)).
    { rewrite Nat2Z.inj_div, Z2Nat.id by lia. reflexivity. }
    assert (Hmod : bcd_bit r mod 8 = Z.of_nat (Z.to_nat (bcd_bit r) mod 8)).
    { rewrite Nat2Z.inj_mod, Z2Nat.id by lia. reflexivity. }
    simpl read_bits. unfold index. rewrite Hdiv, Nat2Z.id, Hbyte.
    pose proof (lookup_lt_Some _ _ _ Hbyte). unfold len at 1. zbool. cbn [res_bind].
    rewrite Hmod, land_1_testbit by (pose proof (Nat.mod_upper_bound (Z.to_nat (bcd_bit r)) 8); lia).
    rewrite <- Hbit. rewrite Nat2Z.inj_succ, Z.pow_succ_r in Hb by lia.
    assert (0 < 2 ^ Z.of_nat n) by (apply Z.pow_pos_nonneg; lia).
    unfold u8. rewrite Z.shiftl_mul_pow2, (Z.mul_comm v) by lia. change (2 ^ 1) with 2. change (2 ^ 8) with 256.
    rewrite Z.mod_small by nia. rewrite lor_bit by exact Hv.
    assert (Hr' : bits_left (bcd_adv r 1) (l ++ t)) by exact (bits_left_adv r [b] (l ++ t) Hr).
    change (MkBcd (bcd_data r) (bcd_bit r + 1) (bcd_lrc r)) with (bcd_adv r 1).
    assert (Hc : 0 <= Z.b2z b <= 1) by (destruct b; simpl; lia).
    destruct (Z.eq_dec (Z.of_nat n) 0) as [Hn0|Hn0].
    + destruct n; [|lia]. destruct l; [|discriminate]. reflexivity.
    + rewrite (IH _ _ l t Hr' Hl) by nia. unfold bcd_adv. simpl. do 3 f_equal. lia.
Qed.

(** ** Symbols *)

Definition symbol_ok (s : Symbol) : Prop := match s with Digit c => 48 <= c <= 57 | _ => True end.

Lemma encode_symbol_ok s :
  symbol_ok s -> 0 <= encode_symbol s < 32 /\ decode_symbol (encode_symbol s) = Ok s.
Proof.
  destruct s as [c| | |]; simpl; try (intros _; split; [lia|reflexivity]). intros Hc.
  assert (Hin : In c [48; 49; 50; 51; 52; 53; 54; 55; 56; 57]) by (simpl; lia).
  repeat (destruct Hin as [<-|Hin]; [split; [simpl; lia|reflexivity]|]). destruct Hin.
Qed.

Definition codes (l : list Symbol) : list bool := mbind (fun s => bits_of 5 (encode_symbol s)) l.

Lemma codes_cons s l : codes (s :: l) = bits_of 5 (encode_symbol s) ++ codes l.
Proof. reflexivity. Qed.

Definition bcd_next (r : BcdReader) (s : Symbol) : BcdReader :=
  MkBcd (bcd_data r) (bcd_bit r + 5) (Z.lxor (bcd_lrc r) (Z.land (encode_symbol s) 0x1e)).

(** The reader behind a sequence of symbols. *)
Definition bcd_skip (r : BcdReader) (l : list Symbol) : BcdReader := foldl bcd_next r l.


Lemma read5_spec {E} r v t :
  0 <= v < 32 -> bits_left r (bits_of 5 v ++ t) -> read5_raw (E := E) r = Ok (Some v, bcd_adv r 5).
Proof.
  intros Hv Hr. unfold read5_raw.
  assert (Hlen : bcd_bit r + 5 <= len (bcd_data r) * 8).
  { destruct Hr as [Hp Hd]. apply (f_equal length) in Hd.
    rewrite length_drop, length_bits, length_app, length_bits_of in Hd. unfold len. lia. }
  zbool. rewrite (read_bits_spec 5 0 r (bits_of 5 v) t) by (first [exact Hr | apply length_bits_of | simpl; lia]).
  cbn [res_bind]. fold (bits_value (bits_of 5 v)). now rewrite bits_value_5.
Qed.

Lemma read_symbol_spec r s t :
  symbol_ok s -> bits_left r (codes [s] ++ t) -> read_symbol r = Ok (s, bcd_next r s).
Proof.
  intros Hs Hr. destruct (encode_symbol_ok s Hs) as [Hv Hdec]. rewrite codes_cons, <- app_assoc in Hr.
  unfold read_symbol. rewrite (read5_spec r _ _ Hv Hr). simpl. now rewrite Hdec.
Qed.

Lemma codes_app l k : codes (l ++ k) = codes l ++ codes k.
Proof. unfold codes. apply bind_app. Qed.

Lemma bits_left_next r s l t : bits_left r (codes (s :: l) ++ t) -> bits_left (bcd_next r s) (codes l ++ t).
Proof.
  intros Hr. rewrite codes_cons, <- app_assoc in Hr.
  destruct (bits_left_adv r _ _ Hr) as [Hp Hd]. unfold len in *. rewrite length_bits_of in *. split; [exact Hp|exact Hd].
Qed.

Lemma bits_left_skip l : forall r k t, bits_left r (codes (l ++ k) ++ t) -> bits_left (bcd_skip r l) (codes k ++ t).
Proof.
  induction l as [|s l IH]; intros r k t Hr; [exact Hr|]. simpl. apply IH. now apply bits_left_next.
Qed.

Lemma first_symbol r s l t :
  symbol_ok s -> bits_left r (codes (s :: l) ++ t) -> read_symbol r = Ok (s, bcd_next r s).
Proof.
  intros Hs Hr. apply read_symbol_spec with (codes l ++ t); [exact Hs|].
  change (s :: l) with ([s] ++ l) in Hr. rewrite codes_app, <- app_assoc in Hr. exact Hr.
Qed.

(** A field ended by a separator, and a field cut at its limit. *)
Lemma read_field_sep n : forall ds limit s r sep t,
  Forall (fun c => 48 <= c <= 57) ds -> sep = FieldSeparator \/ sep = EndSentinel ->
  len s + len ds < limit -> (length ds < n)%nat ->
  bits_left r (codes ((Digit <$> ds) ++ [sep]) ++ t) ->
  read_field_loop n limit s r = Ok ((s ++ ds, Some sep), bcd_skip r ((Digit <$> ds) ++ [sep])).
Proof.
  induction n as [|n IH]; intros ds limit s r sep t Hds Hsep Hlim Hn Hr; [lia|].
  destruct ds as [|d ds]; simpl fmap in *; simpl app in *; simpl read_field_loop.
  - rewrite (first_symbol r sep [] t); [|now destruct Hsep as [-> | ->]|exact Hr]. cbn [res_bind].
    rewrite app_nil_r. now destruct Hsep as [-> | ->].
  - inversion Hds as [|? ? Hd Hds']; subst. rewrite (first_symbol r (Digit d) _ t Hd Hr). cbn [res_bind].
    rewrite len_cons in Hlim. pose proof (len_nonneg ds).
    replace (limit <=? len (s ++ [d])) with false
      by (symmetry; apply Z.leb_gt; rewrite len_app; change (len [d]) with 1; lia).
    rewrite andb_false_r. rewrite (IH ds limit (s ++ [d]) _ sep t Hds' Hsep).
    + now rewrite <- app_assoc.
    + rewrite len_app. change (len [d]) with 1. lia.
    + simpl in Hn. lia.
    + now apply bits_left_next.
Qed.

Lemma read_field_cut n : forall ds limit s r t,
  Forall (fun c => 48 <= c <= 57) ds -> ds <> [] ->
  len s + len ds = limit -> (length ds <= n)%nat ->
  bits_left r (codes (Digit <$> ds) ++ t) ->
  read_field_loop n limit s r = Ok ((s ++ ds, None), bcd_skip r (Digit <$> ds)).
Proof.
  induction n as [|n IH]; intros ds limit s r t Hds Hne Hlim Hn Hr; [destruct ds; [done|simpl in Hn; lia]|].
  destruct ds as [|d ds]; [done|]. simpl fmap in *. simpl read_field_loop.
  inversion Hds as [|? ? Hd Hds']; subst. rewrite (first_symbol r (Digit d) _ t Hd Hr). cbn [res_bind].
  pose proof (len_nonneg ds). pose proof (len_nonneg s).
  rewrite len_app, len_cons. change (len [d]) with 1.
  destruct ds as [|d2 ds].
  - change (len (@nil Z)) with 0. zbool. reflexivity.
  - rewrite !len_cons. pose proof (len_nonneg ds). zbool.
    rewrite (IH (d2 :: ds) _ (s ++ [d]) _ t Hds').
    + now rewrite <- app_assoc.
    + discriminate.
    + rewrite len_app, !len_cons. change (len (@nil Z)) with 0. lia.
    + simpl in *. lia.
    + now apply bits_left_next.
Qed.

(** The two as the decoder calls them, with the rest of the stream. *)
Lemma fuel_ok r l t : bits_left r (codes l ++ t) -> (length l <= Z.to_nat (len (bcd_data r) * 8 - bcd_bit r))%nat.
Proof.
  intros [Hp Hd]. apply (f_equal length) in Hd. rewrite length_drop, length_bits, length_app in Hd.
  assert (Hc : length (codes l) = (5 * length l)%nat).
  { clear. induction l as [|s l IH]; [reflexivity|]. rewrite codes_cons, length_app, length_bits_of, IH. simpl length. lia. }
  unfold len. lia.
Qed.

Lemma read_sep r n ds limit sep rest t :
  digits n ds -> n < limit -> sep = FieldSeparator \/ sep = EndSentinel ->
  bits_left r (codes ((Digit <$> ds) ++ [sep] ++ rest) ++ t) ->
  read_field limit r = Ok ((ds, Some sep), bcd_skip r ((Digit <$> ds) ++ [sep])) /\
  bits_left (bcd_skip r ((Digit <$> ds) ++ [sep])) (codes rest ++ t).
Proof.
  intros [Hl Hds] Hlim Hsep Hr. rewrite app_assoc in Hr. split; [|now apply bits_left_skip].
  pose proof (fuel_ok _ _ _ Hr) as Hf. rewrite length_app, length_app, length_fmap in Hf.
  unfold read_field. rewrite codes_app, <- app_assoc in Hr.
  rewrite (read_field_sep _ ds limit [] r sep (codes rest ++ t) Hds Hsep);
    [reflexivity|change (len (@nil Z)) with 0; lia|lia|exact Hr].
Qed.

Lemma read_cut r n ds rest t :
  digits n ds -> 0 < n -> bits_left r (codes ((Digit <$> ds) ++ rest) ++ t) ->
  read_field n r = Ok ((ds, None), bcd_skip r (Digit <$> ds)) /\
  bits_left (bcd_skip r (Digit <$> ds)) (codes rest ++ t).
Proof.
  intros [Hl Hds] Hn Hr. split; [|now apply bits_left_skip].
  pose proof (fuel_ok _ _ _ Hr) as Hf. rewrite length_app, length_fmap in Hf.
  unfold read_field. rewrite codes_app, <- app_assoc in Hr.
  rewrite (read_field_cut _ ds n [] r (codes rest ++ t));
    [reflexivity|exact Hds|intros ->; change (len (@nil Z)) with 0 in Hl; lia|exact Hl|lia|exact Hr].
Qed.

Lemma bcd_skip_app r l k : bcd_skip r (l ++ k) = bcd_skip (bcd_skip r l) k.
Proof. apply foldl_app. Qed.

Lemma bcd_skip_lrc l : forall r, bcd_lrc (bcd_skip r l) = foldl (fun acc s => Z.lxor acc (Z.land (encode_symbol s) 0x1e)) (bcd_lrc r) l.
Proof. induction l as [|s l IH]; intros r; simpl; [reflexivity|]. now rewrite IH. Qed.

Lemma lxor_5bit a b : 0 <= a < 32 -> 0 <= b < 32 -> 0 <= Z.lxor a b < 32.
Proof.
  intros Ha Hb. split; [apply Z.lxor_nonneg; lia|].
  assert (H : Z.lxor a b = Z.land (Z.lxor a b) (Z.ones 5)).
  { apply Z.bits_inj'. intros n Hn. rewrite Z.land_spec. destruct (Z.ltb_spec n 5).
    - rewrite Z.ones_spec_low by lia. now rewrite andb_true_r.
    - rewrite Z.lxor_spec. rewrite <- (Z.mod_small a (2 ^ 5)), <- (Z.mod_small b (2 ^ 5)) by (simpl; lia).
      now rewrite !Z.mod_pow2_bits_high by lia. }
  rewrite H, Z.land_ones by lia. apply Z.mod_pos_bound. lia.
Qed.

Lemma land_5bit a : 0 <= a < 32 -> 0 <= Z.land a 0x1e < 32.
Proof.
  intros Ha. assert (H : forallb (fun n => (0 <=? Z.land (Z.of_nat n) 0x1e) && (Z.land (Z.of_nat n) 0x1e <? 32)) (seq 0 32) = true)
    by reflexivity.
  rewrite forallb_forall in H. specialize (H (Z.to_nat a)). rewrite Z2Nat.id in H by lia.
  rewrite andb_true_iff, Z.leb_le, Z.ltb_lt in H. apply H, in_seq. lia.
Qed.

Lemma lrc_bound l : Forall symbol_ok l -> 0 <= lrc_of l < 32 /\ Z.land (lrc_of l) 0x1e = lrc_of l.
Proof.
  intros Hl. unfold lrc_of.
  assert (H : forall acc, 0 <= acc < 32 -> Z.land acc 0x1e = acc ->
            let x := foldl (fun acc s => Z.lxor acc (Z.land (encode_symbol s) 0x1e)) acc l in
            0 <= x < 32 /\ Z.land x 0x1e = x); [|apply (H 0); [lia|reflexivity]].
  induction Hl as [|s l Hs Hl IH]; intros acc Ha Hm; [auto|]. cbn [foldl].
  destruct (encode_symbol_ok s Hs) as [Hv _]. apply IH.
  - apply lxor_5bit; [exact Ha|now apply land_5bit].
  - apply Z.bits_inj'. intros n Hn. rewrite Z.land_spec, Z.lxor_spec, Z.land_spec.
    rewrite <- Hm at 1 2. rewrite Z.land_spec.
    destruct (Z.testbit acc n), (Z.testbit (encode_symbol s) n), (Z.testbit 0x1e n); reflexivity.
Qed.

Lemma fascn_symbols_ok f : fascn_ok f -> Forall symbol_ok (fascn_symbols f).
Proof.
  intros ((_ & H1) & (_ & H2) & (_ & H3) & (_ & H4) & (_ & H5) & (_ & H6) & (_ & H7)).
  assert (Hd : forall l, Forall (fun c => 48 <= c <= 57) l -> Forall symbol_ok (Digit <$> l)).
  { intros l Hl. apply Forall_fmap. eapply list.Forall_impl; [exact Hl|auto]. }
  unfold fascn_symbols. repeat apply Forall_app_2; auto; repeat constructor;
    try (destruct (oc f); simpl; lia); destruct (poa f); simpl; lia.
Qed.

Lemma length_codes l : length (codes l) = (5 * length l)%nat.
Proof. induction l as [|s l IH]; [reflexivity|]. rewrite codes_cons, length_app, length_bits_of, IH. simpl length. lia. Qed.

Lemma length_fascn_symbols f : fascn_ok f -> length (fascn_symbols f) = 39%nat.
Proof.
  intros ((H1 & _) & (H2 & _) & (H3 & _) & (H4 & _) & (H5 & _) & (H6 & _) & (H7 & _)). unfold len in *.
  unfold fascn_symbols. rewrite !length_app, !length_fmap. simpl length. lia.
Qed.

(** The bits of an encoded FASC-N. *)
Lemma encode_bits f :
  fascn_ok f -> bits (encode f) = codes (fascn_symbols f) ++ bits_of 5 (lrc_of (fascn_symbols f)) /\
  bytes_ok (encode f) /\ len (encode f) = 25.
Proof.
  intros Hf.
  assert (Hc : mbind (bits_of 5) ((encode_symbol <$> fascn_symbols f) ++ [lrc_of (fascn_symbols f)])
               = codes (fascn_symbols f) ++ bits_of 5 (lrc_of (fascn_symbols f))).
  { rewrite bind_app. etransitivity; [|apply (f_equal (app _)), app_nil_r]. f_equal.
    induction (fascn_symbols f) as [|s l IH]; [reflexivity|]. rewrite codes_cons, <- IH. reflexivity. }
  unfold encode. rewrite Hc.
  assert (Hl : length (codes (fascn_symbols f) ++ bits_of 5 (lrc_of (fascn_symbols f))) = (8 * 25)%nat).
  { rewrite length_app, length_codes, length_bits_of, length_fascn_symbols by exact Hf. reflexivity. }
  destruct (bits_pack 25 _ Hl) as [Hb Hok]. split; [exact Hb|]. split; [exact Hok|].
  apply (f_equal length) in Hb. rewrite length_bits, Hl in Hb. unfold len. lia.
Qed.

Lemma not_all_zero f : fascn_ok f -> forallb (fun b => b =? 0) (encode f) = false.
Proof.
  intros Hf. destruct (encode_bits f Hf) as (Hb & _ & _). apply not_true_is_false. intros Hz.
  assert (H0 : bits (encode f) !! 0%nat = Some true) by (rewrite Hb; reflexivity).
  apply bits_lookup in H0 as (byte & Hl & Ht). rewrite forallb_forall in Hz.
  apply list_elem_of_lookup_2, list_elem_of_In, Hz, Z.eqb_eq in Hl. rewrite Hl, Z.testbit_0_l in Ht. discriminate.
Qed.

Lemma org_digit_ok o : org_from_digit [org_digit o] = Ok o.
Proof. now destruct o. Qed.

Lemma assoc_digit_ok a : assoc_from_digit [assoc_digit a] = Ok a.
Proof. now destruct a. Qed.

(** ** Properties *)

(** A FASC-N written as SP 800-73-4 packs it, sentinels, odd
    parity and check character included, is decoded to the same FASC-N. *)
Theorem fascn_roundtrip f : fascn_ok f -> decode (encode f) = Ok f.
Proof.
  intros Hf. destruct (encode_bits f Hf) as (Hb & Hok & Hlen). pose proof (not_all_zero f Hf) as Hz.
  pose proof (lrc_bound _ (fascn_symbols_ok f Hf)) as [Hlrc Hmask].
  unfold decode. rewrite Hz, andb_false_r. set (r := bcd_new (encode f)).
  assert (Hr : bits_left r (codes (fascn_symbols f) ++ bits_of 5 (lrc_of (fascn_symbols f)))) by (split; [reflexivity|exact Hb]).
  set (t := bits_of 5 _) in *. destruct Hf as (H1 & H2 & H3 & H4 & H5 & H6 & H7).
  unfold fascn_symbols in Hr. rewrite (first_symbol r StartSentinel _ t Logic.I Hr). cbn [res_bind].
  apply bits_left_next in Hr. set (r0 := bcd_next r StartSentinel) in *.
  assert (Hfs : FieldSeparator = FieldSeparator \/ FieldSeparator = EndSentinel) by now left.
  destruct (read_sep r0 4 _ 5 _ _ t H1 ltac:(lia) Hfs Hr) as [-> Hr1]. cbn [res_bind].
  destruct (read_sep _ 4 _ 5 _ _ t H2 ltac:(lia) Hfs Hr1) as [-> Hr2]. cbn [res_bind].
  destruct (read_sep _ 6 _ 7 _ _ t H3 ltac:(lia) Hfs Hr2) as [-> Hr3]. cbn [res_bind].
  destruct (read_sep _ 1 _ 2 _ _ t H4 ltac:(lia) Hfs Hr3) as [-> Hr4]. cbn [res_bind].
  destruct (read_sep _ 1 _ 2 _ _ t H5 ltac:(lia) Hfs Hr4) as [-> Hr5]. cbn [res_bind].
  destruct (read_cut _ 10 _ _ t H6 ltac:(lia) Hr5) as [-> Hr6]. cbn [res_bind].
  assert (Ho : digits 1 [org_digit (oc f)]) by (split; [reflexivity|constructor; [destruct (oc f); simpl; lia|constructor]]).
  destruct (read_cut _ 1 [org_digit (oc f)] _ t Ho ltac:(lia) Hr6) as [-> Hr7]. cbn [res_bind].
  destruct (read_cut _ 4 _ _ t H7 ltac:(lia) Hr7) as [-> Hr8]. cbn [res_bind].
  assert (Hp : digits 1 [assoc_digit (poa f)]) by (split; [reflexivity|constructor; [destruct (poa f); simpl; lia|constructor]]).
  destruct (read_sep _ 1 [assoc_digit (poa f)] 2 EndSentinel [] t Hp ltac:(lia) (or_intror eq_refl) Hr8) as [-> Hr9].
  cbn [res_bind]. rewrite org_digit_ok, assoc_digit_ok. cbn [res_bind].
  unfold check_lrc. rewrite (read5_spec _ (lrc_of (fascn_symbols f)) [] Hlrc) by (rewrite app_nil_r; exact Hr9).
  cbn [res_bind ok_or]. rewrite Hmask, <- !bcd_skip_app. unfold r0. change (bcd_skip (bcd_next ?a ?b) ?c) with (bcd_skip a (b :: c)).
  change (bcd_lrc (bcd_adv ?x _)) with (bcd_lrc x). rewrite bcd_skip_lrc. change (bcd_lrc r) with 0.
  rewrite <- !app_assoc.
  change (foldl _ _ (StartSentinel :: _)) with (lrc_of (fascn_symbols f)). rewrite Z.eqb_refl. cbn [negb res_bind].
  now destruct f.
Qed.

Lemma fascn_roundtrip_witness :
  let f := MkFascn (ascii "0032") (ascii "0001") (ascii "092446") (ascii "0") (ascii "1") (ascii "1112223333")
             Federal (ascii "1223") Civil in
  decode (encode f) = Ok f.
Proof. intros f. apply (fascn_roundtrip f). repeat split; try (repeat constructor; discriminate). Defined.
