(* ===== verification/PivObjects.v ===== *)
(** * PivObjects: the data objects of a card

    [chuid.rs], [keyhist.rs] and [pinfo.rs] of piggy-piv: lenient parsers of
    GET DATA responses, and the builder of the Key History object.  The parsers
    return a value whatever the bytes; here their error type is empty, so what
    is left to prove is that they do not panic. *)

From Stdlib Require Import ZArith Lia String.
From stdpp Require Import base tactics list numbers.
From S2P Require Import Prelude Utf8 PivError Reader Tlv Apdu Walk Fascn.

Local Open Scope Z_scope.

(** [let Ok(0x53) = outer.read_tag() else return; let Ok(body) = outer.read_value() else return] *)
Definition object_body (response : bytes) : res Empty_set (option bytes) :=
  parse_all
    (rd_else read_tag (rd_ret None) (fun tag =>
     if negb (tag =? 0x53) then rd_ret None
     else rd_else read_value (rd_ret None) (fun body => rd_ret (Some body))))
    response.

(** The object's items folded from the default; the default when the response
    is not an object. *)
Definition parse_object {S} (step : S -> Z -> bytes -> res Empty_set S) (default : S) (response : bytes)
    : res Empty_set S :=
  let* body := object_body response in
  match body with
  | None => Ok default
  | Some body => scan_tlvs step default body
  end.

(** ** CHUID ([chuid.rs]) *)

Record Chuid := MkChuid {
  ch_signed : bool;
  ch_cardholder : option bytes;
  ch_fascn : option Fascn;
  ch_expiry : option bytes;
}.

Definition chuid_default : Chuid := MkChuid false None None None.

Definition TAG_FASCN : Z := 0x30.
Definition TAG_CHUUID : Z := 0x36.
Definition TAG_EXPIRY : Z := 0x35.
Definition TAG_SIGNATURE : Z := 0x3E.

(** [decode(v).ok()] *)
Definition decode_ok (v : bytes) : res Empty_set (option Fascn) :=
  match decode v with
  | Ok f => Ok (Some f)
  | Err _ => Ok None
  | Panic => Panic
  end.

Definition chuid_step (c : Chuid) (t : Z) (v : bytes) : res Empty_set Chuid :=
  if t =? TAG_FASCN then
    let* f := decode_ok v in Ok (MkChuid (ch_signed c) (ch_cardholder c) f (ch_expiry c))
  else if t =? TAG_CHUUID then Ok (MkChuid (ch_signed c) (Some v) (ch_fascn c) (ch_expiry c))
  else if t =? TAG_EXPIRY then Ok (MkChuid (ch_signed c) (ch_cardholder c) (ch_fascn c) (Some (from_utf8_lossy v)))
  else if t =? TAG_SIGNATURE then
    Ok (MkChuid (negb (bool_decide (v = []))) (ch_cardholder c) (ch_fascn c) (ch_expiry c))
  else Ok c.

Definition parse_chuid (response : bytes) : res Empty_set Chuid := parse_object chuid_step chuid_default response.

(** ** Key History ([keyhist.rs]) *)

Definition KEYHIST_TAG : Z := 0x5FC10C.

Record KeyHistory := MkKeyHistory { oncard : Z; offcard : Z; kh_url : option bytes }.

Definition keyhistory_default : KeyHistory := MkKeyHistory 0 0 None.

Definition keyhist_push_len (buf : bytes) (n : Z) : bytes :=
  if n <? 0x80 then buf ++ [u8 n]
  else if n <? 0x100 then buf ++ [0x81; u8 n]
  else buf ++ [0x82; u8 (Z.shiftr n 8); u8 (Z.land n 0xFF)].

Definition build_keyhistory_body (oncard offcard : Z) (url : option bytes) : bytes :=
  let v := [0xC1; 0x01; oncard] in
  let v := v ++ [0xC2; 0x01; offcard] in
  match url with
  | Some u => keyhist_push_len (v ++ [0xF3]) (len u) ++ u
  | None => v
  end.

Definition keyhist_step (kh : KeyHistory) (tag : Z) (v : bytes) : res Empty_set KeyHistory :=
  if tag =? 0xC1 then Ok (MkKeyHistory (default 0 (head v)) (offcard kh) (kh_url kh))
  else if tag =? 0xC2 then Ok (MkKeyHistory (oncard kh) (default 0 (head v)) (kh_url kh))
  else if tag =? 0xF3 then Ok (MkKeyHistory (oncard kh) (offcard kh) (Some (from_utf8_lossy v)))
  else Ok kh.

Definition parse_keyhistory (response : bytes) : res Empty_set KeyHistory :=
  parse_object keyhist_step keyhistory_default response.

(** ** Printed Information ([pinfo.rs]) *)

Definition PINFO_TAG : Z := 0x5FC109.

Record Pinfo := MkPinfo {
  pi_name : option bytes;
  pi_affiliation : option bytes;
  pi_expiry : option bytes;
  pi_serial : option bytes;
  pi_issuer : option bytes;
  pi_org_1 : option bytes;
  pi_org_2 : option bytes;
  pi_has_admin_key : bool;
}.

Definition pinfo_default : Pinfo := MkPinfo None None None None None None None false.

(** The nested [0x88] template. *)
Definition admin_key_step (found : bool) (t : Z) (v : bytes) : res Empty_set bool :=
  Ok (if (t =? 0x89) && negb (bool_decide (v = [])) then true else found).

Definition pinfo_step (p : Pinfo) (tag : Z) (v : bytes) : res Empty_set Pinfo :=
  let '(MkPinfo n a e s i o1 o2 k) := p in
  let text := Some (from_utf8_lossy v) in
  if tag =? 0x01 then Ok (MkPinfo text a e s i o1 o2 k)
  else if tag =? 0x02 then Ok (MkPinfo n text e s i o1 o2 k)
  else if tag =? 0x04 then Ok (MkPinfo n a text s i o1 o2 k)
  else if tag =? 0x05 then Ok (MkPinfo n a e text i o1 o2 k)
  else if tag =? 0x06 then Ok (MkPinfo n a e s text o1 o2 k)
  else if tag =? 0x07 then Ok (MkPinfo n a e s i text o2 k)
  else if tag =? 0x08 then Ok (MkPinfo n a e s i o1 text k)
  else if tag =? 0x88 then let* k := scan_tlvs admin_key_step k v in Ok (MkPinfo n a e s i o1 o2 k)
  else Ok p.

Definition parse_pinfo (response : bytes) : res Empty_set Pinfo := parse_object pinfo_step pinfo_default response.

(** ** Lemmas *)

Lemma object_body_encoded body t : len body < 2 ^ 24 -> object_body (enc_tlv 0x53 body ++ t) = Ok (Some body).
Proof.
  intros Hb. unfold object_body. apply parse_all_reads. intros r k Hr.
  unfold enc_tlv in Hr. rewrite <- app_assoc in Hr. unfold rd_else.
  rewrite (reads_tag 0x53 ltac:(by_compute) _ _ Hr). cbn [Z.eqb Pos.eqb negb]. apply at_rest_adv in Hr.
  rewrite (reads_value body Hb _ _ Hr). unfold rd_ret, enc_tlv. rewrite adv_adv, !len_app. reflexivity.
Qed.

Lemma parse_object_encoded {S} (step : S -> Z -> bytes -> res Empty_set S) d l t :
  items_ok l -> len (enc_items l) < 2 ^ 24 ->
  parse_object step d (enc_tlv 0x53 (enc_items l) ++ t) = scan_items step d l.
Proof.
  intros Hl Hb. unfold parse_object. rewrite object_body_encoded by exact Hb. cbn [res_bind].
  now apply scan_tlvs_items.
Qed.

Lemma object_body_yields data :
  bytes_ok data -> yields (object_body data) (fun o => forall b, o = Some b -> bytes_ok b).
Proof.
  intros Hd. unfold object_body, parse_all, rd_else. pose proof (reader_new_ok data Hd) as Hr.
  destruct (safe_tag _ Hr) as [Hn Hx]. destruct (read_tag _) as [[tag r]|e|]; [|simpl; discriminate|now destruct Hn].
  destruct (Hx tag r eq_refl) as (_ & Hd1 & Hp1). case_match; [simpl; discriminate|].
  assert (Hr1 : reader_ok r) by (destruct Hr; split; rewrite Hd1; [lia|assumption]).
  destruct (safe_value r Hr1) as [Hn2 Hx2].
  destruct (read_value r) as [[v r2]|e|]; simpl; [|discriminate|now destruct Hn2].
  intros b [= <-]. exact (proj1 (Hx2 v r2 eq_refl)).
Qed.

Lemma parse_object_yields {S} (step : S -> Z -> bytes -> res Empty_set S) d (I : S -> Prop) data :
  (forall s tag v, I s -> bytes_ok v -> yields (step s tag v) I) -> I d -> bytes_ok data ->
  yields (parse_object step d data) I.
Proof.
  intros Hstep Hd Hb. apply yields_bind with (1 := object_body_yields data Hb).
  intros [body|] Hbody; [|exact Hd]. apply scan_yields; [exact Hstep|exact Hd|now apply Hbody].
Qed.

(** A fallible computation that cannot fail and does not panic has a value. *)
Lemma yields_total {A} (c : res Empty_set A) Q : yields c Q -> exists a, c = Ok a /\ Q a.
Proof. destruct c as [a|[]|]; simpl; [eauto|contradiction]. Qed.

(** The length octets of the object builders are those of the TLV writer. *)
Lemma keyhist_push_len_spec buf n : 0 <= n < 0x10000 -> keyhist_push_len buf n = buf ++ enc_length n.
Proof.
  intros Hn. assert (H : write_length (E := unit) (MkTlvWriter buf) n = Ok (MkTlvWriter (keyhist_push_len buf n))).
  { unfold write_length, keyhist_push_len, tw_push. simpl. destruct (n <? 0x80); [reflexivity|].
    destruct (n <? 0x100); [reflexivity|]. zbool. reflexivity. }
  rewrite write_length_Ok in H by lia. injection H as H. now rewrite <- H.
Qed.

(** *** The FASC-N decoder never panics *)

Lemma read_bits_total {E} n : forall v r,
  0 <= bcd_bit r -> bcd_bit r + Z.of_nat n <= len (bcd_data r) * 8 ->
  exists w, read_bits (E := E) n v r = Ok (w, bcd_adv r (Z.of_nat n)).
Proof.
  induction n as [|n IH]; intros v r Hp Hb.
  - exists v. unfold bcd_adv. simpl. rewrite Z.add_0_r. now destruct r.
  - simpl read_bits. assert (Hi : 0 <= bcd_bit r / 8 < len (bcd_data r)).
    { split; [apply Z.div_pos; lia|]. apply Z.div_lt_upper_bound; lia. }
    destruct (index (E := E) (bcd_data r) (bcd_bit r / 8)) as [b|e|] eqn:Hx; [| |now apply index_no_panic in Hx].
    2:{ unfold index in Hx. destruct (_ && _); [|discriminate]. destruct (_ !! _); discriminate. }
    cbn [res_bind]. destruct (IH (Z.lor (u8 (Z.shiftl v 1)) (Z.land (Z.shiftr b (7 - bcd_bit r mod 8)) 1)) (bcd_adv r 1)) as [w Hw].
    + simpl. lia.
    + simpl. lia.
    + exists w. unfold bcd_adv in *. simpl in Hw. rewrite Hw. do 3 f_equal. lia.
Qed.

(** A symbol read moves five bits on, inside the data. *)
Definition bcd_ok (r : BcdReader) : Prop := 0 <= bcd_bit r <= len (bcd_data r) * 8.

Definition bcd_moves {A} (n : Z) (r : BcdReader) (p : A * BcdReader) : Prop :=
  bcd_data p.2 = bcd_data r /\ bcd_ok p.2 /\ bcd_bit r + n <= bcd_bit p.2.

Lemma read5_yields {E} r :
  bcd_ok r -> yields (read5_raw (E := E) r) (fun p => bcd_moves 0 r p /\ (p.1 <> None -> bcd_bit p.2 = bcd_bit r + 5)).
Proof.
  intros Hr. unfold read5_raw. destruct (Z.ltb_spec (len (bcd_data r) * 8) (bcd_bit r + 5)) as [Hl|Hl].
  { simpl. repeat split; simpl; try (apply Hr); try lia. congruence. }
  destruct (read_bits_total (E := E) 5 0 r) as [w ->]; [apply Hr|simpl; lia|].
  unfold bcd_moves, bcd_ok in *. simpl. repeat split; lia.
Qed.

Lemma read_symbol_yields r : bcd_ok r -> yields (read_symbol r) (bcd_moves 5 r).
Proof.
  intros Hr. apply yields_bind with (1 := read5_yields r Hr). intros [[v|] r1] [(Hd & Ho & Hm) Hs]; simpl; [|exact Logic.I].
  specialize (Hs ltac:(discriminate)). simpl in *.
  assert (Hdec : yields (decode_symbol v) (fun _ => True)).
  { unfold decode_symbol. repeat case_match; exact Logic.I. }
  apply yields_bind with (1 := Hdec). intros s _. unfold bcd_moves, bcd_ok in *. simpl in *. rewrite Hd in *. repeat split; lia || reflexivity.
Qed.

Lemma read_field_loop_yields n : forall limit s r,
  bcd_ok r -> len (bcd_data r) * 8 - bcd_bit r < Z.of_nat n -> yields (read_field_loop n limit s r) (bcd_moves 0 r).
Proof.
  induction n as [|n IH]; intros limit s r Hr Hn; [destruct Hr; lia|]. simpl read_field_loop.
  apply yields_bind with (1 := read_symbol_yields r Hr). intros [sym r1] (Hd & Ho & Hm). simpl in *.
  assert (H0 : forall a, bcd_moves (A := bytes * option Symbol) 0 r (a, r1)).
  { intros a. split; [exact Hd|]. split; [exact Ho|]. simpl. lia. }
  destruct sym; try exact Logic.I; try apply H0.
  case_match; [apply H0|]. apply yields_weaken with (1 := IH _ _ r1 Ho ltac:(rewrite Hd; lia)).
  intros p (Hd2 & Ho2 & Hm2). unfold bcd_moves. rewrite Hd2, Hd. split; [reflexivity|]. split; [exact Ho2|lia].
Qed.

Lemma read_field_yields limit r : bcd_ok r -> yields (read_field limit r) (bcd_moves 0 r).
Proof. intros Hr. apply read_field_loop_yields; [exact Hr|]. destruct Hr. lia. Qed.

Lemma decode_yields data : yields (decode data) (fun _ => True).
Proof.
  unfold decode. case_match; [exact Logic.I|].
  assert (H0 : bcd_ok (bcd_new data)) by (unfold bcd_ok; simpl; pose proof (len_nonneg data); lia).
  apply yields_bind with (1 := read_symbol_yields _ H0). intros [s r] (_ & Hr & _). simpl in Hr.
  destruct s; try exact Logic.I.
  do 9 (match goal with H : bcd_ok ?r |- yields (res_bind (read_field ?n ?r) _) _ =>
          apply yields_bind with (1 := read_field_yields n r H) end;
        clear Hr; intros [[? ?] r1] (_ & Hr & _); simpl in Hr; clear r; rename r1 into r).
  assert (Hoc : forall d, yields (org_from_digit d) (fun _ => True)) by (intros d; unfold org_from_digit; repeat case_match; exact Logic.I).
  assert (Has : forall d, yields (assoc_from_digit d) (fun _ => True)) by (intros d; unfold assoc_from_digit; repeat case_match; exact Logic.I).
  apply yields_bind with (1 := Hoc _). intros ? _. apply yields_bind with (1 := Has _). intros ? _.
  case_match; [|exact Logic.I]. case_match; try exact Logic.I.
  unfold check_lrc. apply yields_bind with (P := fun _ => True); [|intros [? ?] _; exact Logic.I].
  apply yields_bind with (1 := read5_yields r Hr). intros [[v|] ?] _; simpl; [|exact Logic.I].
  case_match; exact Logic.I.
Qed.

(** ** Properties *)

(** The CHUID piggy writes and the Key History it builds are
    read back for what they are: an unsigned card without a cardholder, the
    stock FASC-N and the fixed expiry; the two counts and the URL. *)
Theorem objects_roundtrip guid on off url t :
  len guid = 16 ->
  (forall u, url = Some u -> utf8_valid u = true /\ len u < 0x10000) ->
  parse_chuid (enc_tlv 0x53 (build_chuid_object guid) ++ t)
    = Ok (MkChuid false None (Some fascn_zero) (Some CHUID_EXPIRY)) /\
  parse_keyhistory (enc_tlv 0x53 (build_keyhistory_body on off url) ++ t) = Ok (MkKeyHistory on off url).
Proof.
  intros Hg Hu. split.
  - assert (Hb : build_chuid_object guid = enc_items [(0x30, FASCN_ALL_ZERO); (0x34, guid); (0x35, CHUID_EXPIRY); (0x3E, [])]).
    { unfold build_chuid_object. rewrite Hg, !enc_items_cons. unfold enc_tlv. rewrite Hg. reflexivity. }
    assert (Hok : items_ok [(0x30, FASCN_ALL_ZERO); (0x34, guid); (0x35, CHUID_EXPIRY); (0x3E, [])]).
    { constructor; [|constructor; [|constructor; [|constructor; [|constructor]]]];
        (split; [by_compute|]); [reflexivity|rewrite Hg; reflexivity|reflexivity|reflexivity]. }
    rewrite Hb. unfold parse_chuid. rewrite parse_object_encoded; [reflexivity|exact Hok|].
    rewrite <- Hb. unfold build_chuid_object. rewrite !len_app, Hg. reflexivity.
  - set (l := [(0xC1, [on]); (0xC2, [off])] ++ match url with Some u => [(0xF3, u)] | None => [] end).
    assert (Hb : build_keyhistory_body on off url = enc_items l).
    { unfold build_keyhistory_body, l. destruct url as [u|]; [|reflexivity]. destruct (Hu u eq_refl) as [_ Hl].
      rewrite keyhist_push_len_spec by (pose proof (len_nonneg u); lia).
      cbn [app]. rewrite !enc_items_cons. unfold enc_items. cbn [mbind list_bind]. rewrite app_nil_r.
      unfold enc_tlv. rewrite <- !app_assoc. reflexivity. }
    assert (Hok : items_ok l).
    { do 2 (constructor; [split; [by_compute|reflexivity]|]). destruct url as [u|]; [|constructor].
      destruct (Hu u eq_refl) as [_ Hl]. constructor; [split; [by_compute|lia]|constructor]. }
    rewrite Hb. unfold parse_keyhistory. rewrite parse_object_encoded; [|exact Hok|].
    + unfold l. destruct url as [u|]; [|reflexivity]. destruct (Hu u eq_refl) as [Hv _]. simpl.
      rewrite from_utf8_lossy_valid by exact Hv. reflexivity.
    + rewrite <- Hb. unfold build_keyhistory_body, keyhist_push_len. destruct url as [u|]; [|reflexivity].
      destruct (Hu u eq_refl) as [_ Hl]. pose proof (len_nonneg u).
      repeat case_match; rewrite !len_app, ?len_cons; change (len (@nil Z)) with 0; lia.
Qed.

Lemma objects_roundtrip_witness :
  parse_chuid (enc_tlv 0x53 (build_chuid_object (repeat 7 16)))
    = Ok (MkChuid false None (Some fascn_zero) (Some CHUID_EXPIRY)) /\
  parse_keyhistory (enc_tlv 0x53 (build_keyhistory_body 2 1 (Some (ascii "http://x"))))
    = Ok (MkKeyHistory 2 1 (Some (ascii "http://x"))).
Proof.
  rewrite <- (app_nil_r (enc_tlv _ (build_chuid_object _))), <- (app_nil_r (enc_tlv _ (build_keyhistory_body _ _ _))).
  apply (objects_roundtrip (repeat 7 16) 2 1 (Some (ascii "http://x")) []); [reflexivity|].
  intros u [= <-]. split; reflexivity.
Defined.

(** The lenient parsers of the data objects return a value on any
    response, whatever it is, truncated tags and nested templates included. *)
Theorem objects_total response :
  bytes_ok response ->
  (exists c, parse_chuid response = Ok c) /\
  (exists k, parse_keyhistory response = Ok k) /\
  (exists p, parse_pinfo response = Ok p).
Proof.
  intros Hr. split; [|split].
  - destruct (yields_total (parse_chuid response) (fun _ => True)) as (c & -> & _); [|eauto].
    apply parse_object_yields; [|exact Logic.I|exact Hr]. intros s t v _ _. unfold chuid_step.
    repeat case_match; try exact Logic.I. unfold decode_ok. pose proof (decode_yields v) as Hdec.
    destruct (decode v); [exact Logic.I|exact Logic.I|destruct Hdec].
  - destruct (yields_total (parse_keyhistory response) (fun _ => True)) as (c & -> & _); [|eauto].
    apply parse_object_yields; [|exact Logic.I|exact Hr]. intros s t v _ _. unfold keyhist_step.
    repeat case_match; exact Logic.I.
  - destruct (yields_total (parse_pinfo response) (fun _ => True)) as (c & -> & _); [|eauto].
    apply parse_object_yields; [|exact Logic.I|exact Hr]. intros s t v _ Hv. destruct s. unfold pinfo_step.
    repeat case_match; try exact Logic.I.
    assert (Hs : forall k, yields (scan_tlvs admin_key_step k v) (fun _ => True)).
    { intros k. apply scan_yields; [|exact Logic.I|exact Hv]. intros; exact Logic.I. }
    apply yields_bind with (1 := Hs _). intros; exact Logic.I.
Qed.

Lemma objects_total_witness : exists p, parse_pinfo [0x53; 0x04; 0x88; 0x02; 0x89; 0x1F] = Ok p.
Proof.
  assert (H : bytes_ok [0x53; 0x04; 0x88; 0x02; 0x89; 0x1F]) by by_compute.
  exact (proj2 (proj2 (objects_total _ H))).
Defined.
