(* ===== verification/Session.v ===== *)
(** * Session: a token and its PIN sessions, [piggy-piv/src/token.rs]

    [PivToken] and [PinSession] over any [ApduTransport], with the write
    operations of [admin.rs], [keygen.rs], [pin_mgmt.rs], [put_data.rs] and
    [keyhist.rs].  A method takes the struct it is called on as the state of an
    [IO]; [fuel] bounds the GET RESPONSE loop of each command.  Single-DES
    encryption of a block is a parameter. *)

From Stdlib Require Import ZArith Lia String.
From stdpp Require Import base tactics list numbers.
From S2P Require Import Prelude PivError Guid Reader Tlv Apdu Transport Walk Slot PivObjects.

Local Open Scope Z_scope.

Definition PIV_TAG_CHUID : Z := 0x5FC102.
Definition CHUID_TAG_GUID : Z := 0x34.

(** ** What a command's answer is turned into *)

(** [if !sw.is_success() { return Err(PivError::Apdu { .. }) }] *)
Definition require_success (sw : StatusWord) : res PivError unit :=
  if negb (is_success sw) then Err (PivApdu (as_u16 sw)) else Ok tt.

Definition parse_serial_response (data : bytes) (sw : StatusWord) : res PivError (option Z) :=
  if is_success sw && (4 <=? len data) then
    let* b := slice data 0 4 in Ok (Some (from_be_bytes b))
  else Ok None.

Definition guid_step (_ : unit) (tag : Z) (value : bytes) : res PivError (unit + Guid) :=
  if tag =? CHUID_TAG_GUID then let* g := guid_from_bytes value in Ok (inr g) else Ok (inl tt).

(** The walk of [read_chuid]. *)
Definition find_guid (data : bytes) : res PivError Guid :=
  let* chuid_data := parse_all (let! _ := expect_tag "CHUID" 0x53 in read_value) data in
  walk_tlvs guid_step (fun _ => Err (PivTlv (TagNotFound "GUID" CHUID_TAG_GUID))) tt chuid_data.

Definition cert_step (cert : option bytes) (tag : Z) (value : bytes) : res PivError (option bytes + option bytes) :=
  Ok (inl (if tag =? 0x70 then Some value else cert)).

(** The walk of [read_slot]: the last [0x70]. *)
Definition find_cert (data : bytes) : res PivError (option bytes) :=
  let* inner := parse_all (let! _ := expect_tag "cert" 0x53 in read_value) data in
  walk_tlvs cert_step (fun c => Ok c) None inner.

Definition unwrap_step (_ : unit) (tag : Z) (value : bytes) : res PivError (unit + bytes) :=
  Ok (if tag =? 0x70 then inr value else inl tt).

Definition unwrap_piv_cert_object (data : bytes) : res PivError bytes :=
  let* inner := parse_all (let! tag := read_tag in
                           if negb (tag =? 0x53) then rd_lift (Err (PivTlv NotADataObject)) else read_value) data in
  walk_tlvs unwrap_step (fun _ => Err (PivTlv (TagNotFound "cert" 0x70))) tt inner.

Definition attestation_cert_der (data : bytes) : res PivError bytes :=
  if bool_decide (head data = Some 0x53) then
    match unwrap_piv_cert_object data with
    | Ok cert_der => Ok cert_der
    | Err _ => Ok data
    | Panic => Panic
    end
  else Ok data.

Definition validate_ec_point (alg : PivAlgorithm) (point : bytes) : res PivError unit :=
  let* expected_len := match alg with
                       | EcP256 => Ok 65
                       | EcP384 => Ok 97
                       | _ => Err (UnsupportedAlgorithm EcdhNeedsEcKey)
                       end in
  let* first := (if bool_decide (point = []) then Ok None else let* b := index point 0 in Ok (Some b)) in
  if bool_decide (first <> Some 0x04) then Err (PivCrypto PeerNotUncompressed)
  else if negb (len point =? expected_len) then Err (PivCrypto (PeerPointLength (len point) expected_len))
  else Ok tt.

Definition parse_ga_response (resp : bytes) : res PivError bytes :=
  let* inner_data := parse_all (let! _ := expect_tag "GA response" 0x7C in read_value) resp in
  parse_all (let! _ := expect_tag "GA response" GA_RESPONSE in read_value) inner_data.

(** [parse_witness] of [admin.rs] *)
Definition parse_witness (resp : bytes) : res PivError bytes :=
  let* inner := parse_all (let! _ := expect_tag "admin auth" 0x7C in read_value) resp in
  parse_all (let! _ := expect_tag "admin auth" GA_CHALLENGE in read_value) inner.

Definition pubkey_step (_ : unit) (t : Z) (v : bytes) : res PivError (unit + bytes) :=
  Ok (if t =? 0x86 then inr v else inl tt).

(** [parse_generated_pubkey] of [keygen.rs] *)
Definition parse_generated_pubkey (resp : bytes) : res PivError bytes :=
  let* inner := parse_all (let! _ := expect_tag "generate" 0x7F49 in read_value) resp in
  walk_tlvs pubkey_step (fun _ => Err (PivTlv (TagNotFound "public-key point" 0x86))) tt inner.

(** ** The serial's diagnostics *)

Inductive PivNote : Type := SerialSw (sw : StatusWord) | SerialError (e : PivError).

Inductive OtpNote : Type :=
| OtpSelectError (e : PivError)
| OtpSelectSw (sw : StatusWord)
| OtpReadError (e : PivError)
| OtpReadSw (sw : StatusWord) (length : Z).

(** The text of [yk_serial_diag], by its interpolated values. *)
Inductive SerialDiag : Type :=
| ReadViaPiv
| ReadViaOtp (piv : PivNote) (reselect : option PivError)
| NoSerial (piv : PivNote) (otp : OtpNote) (reselect : option PivError).

(** ** Operations on any link *)

Section Link.
Context {T : Type} `{RawApdu T} (fuel : nat) (L : CertLib).

Definition transmit (a : Apdu) : IO PivError T (bytes * StatusWord) := transmit_on fuel a.

(** A command whose only good outcome is success. *)
Definition command (a : Apdu) : IO PivError T bytes :=
  do! (data, sw) := transmit a in
  do! _ := io_lift (require_success sw) in
  io_ret data.

(** The body that [PivToken::read_slot] and [PinSession::read_slot] share. *)
Definition read_slot_on (slot_id : Z) : IO PivError T PivSlot :=
  do! cert_tag := io_lift (ok_or (slot_to_cert_tag slot_id) (SlotEmpty slot_id)) in
  do! apdu := io_lift (apdu_get_data cert_tag) in
  do! (data, sw) := transmit apdu in
  if negb (is_success sw) then io_err (SlotEmpty slot_id)
  else
    do! cert := io_lift (find_cert data) in
    do! cert_der := io_lift (ok_or cert (SlotEmpty slot_id)) in
    do! (algorithm, public_key) := io_lift (extract_public_key L cert_der) in
    io_ret (MkSlot slot_id algorithm cert_der public_key).

Definition read_otp_serial : IO OtpNote T Z :=
  do! (_, sw) := io_map_err OtpSelectError (transmit (apdu_select YK_OTP_AID)) in
  if negb (is_success sw) then io_err (OtpSelectSw sw)
  else
    let req := apdu_new 0x00 OTP_API_REQ OTP_SLOT_DEVICE_SERIAL 0x00 in
    do! (data, sw) := io_map_err OtpReadError (transmit req) in
    do! serial := io_map_err OtpReadError (io_lift (parse_serial_response data sw)) in
    io_lift (ok_or serial (OtpReadSw sw (len data))).

(** The first path of [read_yk_serial]. *)
Definition read_piv_serial : IO PivError T (Z + PivNote) :=
  do! answer := io_try (transmit (apdu_new 0x00 Ins.YK_GET_SERIAL 0x00 0x00)) in
  match answer with
  | inl (data, sw) =>
      do! serial := io_lift (parse_serial_response data sw) in
      match serial with
      | Some serial => io_ret (inl serial)
      | None => io_ret (inr (SerialSw sw))
      end
  | inr e => io_ret (inr (SerialError e))
  end.

Definition read_yk_serial : IO PivError T (option Z * option SerialDiag) :=
  do! piv := read_piv_serial in
  match piv with
  | inl serial => io_ret (Some serial, Some ReadViaPiv)
  | inr piv_note =>
      do! otp_result := io_try read_otp_serial in
      do! answer := io_try (transmit (apdu_select PIV_AID)) in
      let reselect := match answer with inl _ => None | inr e => Some e end in
      match otp_result with
      | inl serial => io_ret (Some serial, Some (ReadViaOtp piv_note reselect))
      | inr otp_note => io_ret (None, Some (NoSerial piv_note otp_note reselect))
      end
  end.

Definition read_ykpiv_version : IO PivError T (option (Z * Z * Z)) :=
  do! answer := io_try (transmit (apdu_new 0x00 Ins.YK_GET_VERSION 0x00 0x00)) in
  match answer with
  | inl (data, sw) =>
      if is_success sw && (3 <=? len data) then
        do! a := io_lift (index data 0) in
        do! b := io_lift (index data 1) in
        do! c := io_lift (index data 2) in
        io_ret (Some (a, b, c))
      else io_ret None
  | inr _ => io_ret None
  end.

Definition read_ykpiv_piv_serial : IO PivError T (option Z) :=
  do! answer := io_try (transmit (apdu_new 0x00 Ins.YK_GET_SERIAL 0x00 0x00)) in
  match answer with
  | inl (data, sw) => io_lift (parse_serial_response data sw)
  | inr _ => io_ret None
  end.

Definition factory_reset : IO PivError T unit :=
  do! _ := command (apdu_new 0x00 Ins.YK_RESET 0x00 0x00) in io_ret tt.

Definition yk_attest (slot_id : Z) : IO PivError T bytes :=
  do! data := command (apdu_yk_attest slot_id) in
  io_lift (attestation_cert_der data).

Definition read_slot_policy (slot_id : Z) : IO PivError T (PinPolicy.t * TouchPolicy.t) :=
  do! cert_der := yk_attest slot_id in
  io_lift (parse_policy cert_der).

(** A parser that cannot fail, among computations that can. *)
Definition never_err {A} (c : res Empty_set A) : res PivError A :=
  match c with Ok a => Ok a | Err e => match e with end | Panic => Panic end.

Definition read_keyhistory : IO PivError T KeyHistory :=
  do! apdu := io_lift (apdu_get_data KEYHIST_TAG) in
  do! (data, sw) := transmit apdu in
  if as_u16 sw =? 0x6A82 then io_ret keyhistory_default
  else
    do! _ := io_lift (require_success sw) in
    io_lift (never_err (parse_keyhistory data)).

Definition read_pinfo : IO PivError T Pinfo :=
  do! apdu := io_lift (apdu_get_data PINFO_TAG) in
  do! data := command apdu in
  io_lift (never_err (parse_pinfo data)).

(** [for slot_id in .. { match self.read_slot(slot_id) { Ok(s) => slots.push(s), Err(_) => continue } }] *)
Fixpoint read_slots (slots : list PivSlot) (ids : list Z) : IO PivError T (list PivSlot) :=
  match ids with
  | [] => io_ret slots
  | id :: ids =>
      do! s := io_try (read_slot_on id) in
      read_slots (match s with inl s => slots ++ [s] | inr _ => slots end) ids
  end.

Definition read_all_slots : IO PivError T (list PivSlot) :=
  do! slots := read_slots [] STANDARD_SLOTS in
  read_slots slots RETIRED_SLOTS.

Fixpoint count_retired (oncard : Z) (ids : list Z) : IO PivError T Z :=
  match ids with
  | [] => io_ret oncard
  | id :: ids =>
      do! s := io_try (read_slot_on id) in
      count_retired (match s with inl _ => u8 (id - 0x82 + 1) | inr _ => oncard end) ids
  end.

Definition count_oncard_retired : IO PivError T Z := count_retired 0 RETIRED_SLOTS.
End Link.

(** ** PivToken *)

Section Token.
Context {T : Type} `{ApduTransport T} (fuel : nat).

Record PivToken := MkToken {
  tok_transport : T;
  tok_guid : Guid;
  tok_reader_name : bytes;
  tok_yk_serial : option Z;
  tok_yk_serial_diag : option SerialDiag;
  tok_initialized : bool;
  tok_chuid_raw : option bytes;
}.

Definition with_transport (t : T) (k : PivToken) : PivToken :=
  MkToken t (tok_guid k) (tok_reader_name k) (tok_yk_serial k) (tok_yk_serial_diag k) (tok_initialized k)
    (tok_chuid_raw k).

(** The token's commands go over its transport. *)
#[export] Instance token_raw : RawApdu PivToken :=
  fun cmd k => let (t, r) := transmit_raw cmd (tok_transport k) in (with_transport t k, r).

Definition set_guid (g : Guid) (k : PivToken) : PivToken :=
  MkToken (tok_transport k) g (tok_reader_name k) (tok_yk_serial k) (tok_yk_serial_diag k) (tok_initialized k)
    (tok_chuid_raw k).
Definition set_yk_serial (s : option Z) (d : option SerialDiag) (k : PivToken) : PivToken :=
  MkToken (tok_transport k) (tok_guid k) (tok_reader_name k) s d (tok_initialized k) (tok_chuid_raw k).
Definition set_initialized (k : PivToken) : PivToken :=
  MkToken (tok_transport k) (tok_guid k) (tok_reader_name k) (tok_yk_serial k) (tok_yk_serial_diag k) true
    (tok_chuid_raw k).
Definition set_chuid_raw (d : bytes) (k : PivToken) : PivToken :=
  MkToken (tok_transport k) (tok_guid k) (tok_reader_name k) (tok_yk_serial k) (tok_yk_serial_diag k)
    (tok_initialized k) (Some d).

Definition select_piv : IO PivError PivToken unit :=
  do! _ := command fuel (apdu_select PIV_AID) in io_ret tt.

Definition read_chuid : IO PivError PivToken unit :=
  do! apdu := io_lift (apdu_get_data PIV_TAG_CHUID) in
  do! data := command fuel apdu in
  do! _ := io_modify (set_chuid_raw data) in
  do! g := io_lift (find_guid data) in
  io_modify (set_guid g).

Definition connect_sequence (require_chuid : bool) : IO PivError PivToken unit :=
  do! _ := select_piv in
  do! chuid := io_try read_chuid in
  do! _ := match chuid with
           | inl _ => io_modify set_initialized
           | inr e => if require_chuid then io_err e else io_ret tt
           end in
  do! (serial, diag) := read_yk_serial fuel in
  io_modify (set_yk_serial serial diag).

(** The token, or the error; on an error the transport is dropped. *)
Definition from_transport (transport : T) (reader_name : bytes) (require_chuid : bool)
    : option (res PivError PivToken) :=
  match guid_from_bytes (repeat 0 16) with
  | Ok g =>
      match connect_sequence require_chuid (MkToken transport g reader_name None None false None) with
      | Some (k, Ok _) => Some (Ok k)
      | Some (_, Err e) => Some (Err e)
      | Some (_, Panic) => Some Panic
      | None => None
      end
  | Err e => Some (Err e)
  | Panic => Some Panic
  end.

Definition token_chuid (k : PivToken) : res Empty_set Chuid :=
  match tok_chuid_raw k with
  | Some raw => parse_chuid raw
  | None => Ok chuid_default
  end.

(** ** PinSession *)

Record PinSession := MkSession {
  ps_session : ap_session T;
  ps_pin_verified : bool;
}.

#[export] Instance pin_session_raw : RawApdu PinSession :=
  fun cmd s => let (s', r) := transmit_raw cmd (ps_session s) in (MkSession s' (ps_pin_verified s), r).

(** [begin_pin_session]: the session, or the transport it gave back and why. *)
Definition begin_pin_session (t : T) : option (PinSession + T * res PivError Empty_set) :=
  match begin_transaction t with
  | inr (t', e) => Some (inr (t', Err e))
  | inl session =>
      match transmit_on fuel (apdu_select PIV_AID) session with
      | None => None
      | Some (session, Err e) => Some (inr (session_drop session, Err e))
      | Some (session, Panic) => Some (inr (session_drop session, Panic))
      | Some (session, Ok (_, sw)) =>
          if negb (is_success sw) then Some (inr (session_drop session, Err (PivApdu (as_u16 sw))))
          else Some (inl (MkSession session false))
      end
  end.

Definition disposition (s : PinSession) : EndDisposition :=
  if ps_pin_verified s then ResetCard else LeaveCard.

(** [PinSession::end]: the transport is free again, whatever the outcome. *)
Definition end_session (s : PinSession) : T * res PivError unit := session_end (disposition s) (ps_session s).

(** [Drop]: the error is only logged. *)
Definition drop_session (s : PinSession) : T := (session_end (disposition s) (ps_session s)).1.

Definition set_pin_verified (s : PinSession) : PinSession := MkSession (ps_session s) true.

Definition verify_pin (pin : bytes) : IO PivError PinSession unit :=
  if 8 <? len pin then io_err (PivOther (PinTooLong (len pin)))
  else
    do! apdu := io_lift (apdu_verify_pin pin) in
    do! (_, sw) := transmit fuel apdu in
    if is_success sw then io_modify set_pin_verified
    else if is_pin_incorrect sw then io_err (PinIncorrect (default 0 (sw_pin_retries_remaining sw)))
    else if as_u16 sw =? 0x6983 then io_err PinBlocked
    else io_err (PivApdu (as_u16 sw)).

Definition pin_retries_remaining : IO PivError PinSession Z :=
  do! (_, sw) := transmit fuel apdu_verify_pin_status in
  if is_success sw then io_ret 255
  else if is_pin_incorrect sw then io_ret (default 0 (sw_pin_retries_remaining sw))
  else if as_u16 sw =? 0x6983 then io_ret 0
  else io_err (PivApdu (as_u16 sw)).

Definition general_authenticate (alg slot_id data_tag : Z) (d : bytes) : IO PivError PinSession bytes :=
  do! template := io_lift (ga_template data_tag d) in
  do! (resp, sw) := transmit fuel (apdu_general_authenticate alg slot_id template) in
  if as_u16 sw =? 0x6982 then io_err PinRequired
  else
    do! _ := io_lift (require_success sw) in
    io_lift (parse_ga_response resp).

Definition sign_prehash (slot : PivSlot) (d : bytes) : IO PivError PinSession bytes :=
  general_authenticate (alg_to_byte (slot_algorithm slot)) (slot_id slot) GA_CHALLENGE d.

Definition sign_prehash_with_alg (slot_id alg : Z) (d : bytes) : IO PivError PinSession bytes :=
  general_authenticate alg slot_id GA_CHALLENGE d.

Definition ecdh_derive (slot : PivSlot) (peer_ec_point : bytes) : IO PivError PinSession bytes :=
  do! _ := io_lift (validate_ec_point (slot_algorithm slot) peer_ec_point) in
  general_authenticate (alg_to_byte (slot_algorithm slot)) (slot_id slot) GA_EXPONENT peer_ec_point.

Definition attested_policy (slot_id : Z) : IO PivError PinSession KeyPolicy :=
  do! data := command fuel (apdu_yk_attest slot_id) in
  do! cert_der := io_lift (attestation_cert_der data) in
  do! (pin, touch) := io_lift (parse_policy cert_der) in
  io_ret (MkKeyPolicy pin touch).

(** ** Write operations *)

(** [admin.rs]; [des] is [TdesEde3::encrypt_block] under a 24-byte key. *)
Definition des3_ecb_encrypt (des : bytes -> bytes -> bytes) (key block : bytes) : res PivError bytes :=
  if negb (len key =? 24) then Err (PivOther (MgmtKeyLength (len key)))
  else if negb (len block =? 8) then Err (PivOther (DesBlockLength (len block)))
  else Ok (des key block).

Definition authenticate_admin (des : bytes -> bytes -> bytes) (key : bytes) (key_alg : Z) : IO PivError PinSession unit :=
  if negb (key_alg =? ALG_TDEA_3KEY) then io_err (PivOther (MgmtAlgUnsupported key_alg))
  else if negb (len key =? 24) then io_err (PivOther (MgmtKeyLength (len key)))
  else
    do! request := io_lift (ga_request GA_CHALLENGE []) in
    do! resp := command fuel (apdu_general_authenticate key_alg SLOT_MGMT request) in
    do! witness := io_lift (parse_witness resp) in
    do! enc := io_lift (des3_ecb_encrypt des key witness) in
    do! answer := io_lift (ga_request GA_RESPONSE enc) in
    do! (_, sw) := transmit fuel (apdu_general_authenticate key_alg SLOT_MGMT answer) in
    if as_u16 sw =? 0x6982 then io_err ManagementAuthFailed
    else io_lift (require_success sw).

(** [keygen.rs] *)
Definition generate_key (slot_id key_alg : Z) (pin_policy touch_policy : option Z) : IO PivError PinSession bytes :=
  do! apdu := io_lift (apdu_generate_asym slot_id key_alg pin_policy touch_policy) in
  do! resp := command fuel apdu in
  io_lift (parse_generated_pubkey resp).

Definition import_ec_key (slot_id key_alg : Z) (scalar : bytes) : IO PivError PinSession unit :=
  do! _ := command fuel (import_ec_key_apdu slot_id key_alg scalar) in io_ret tt.

(** [pin_mgmt.rs]: what the two reference-data commands do with the answer. *)
Definition reference_command (a : Apdu) : IO PivError PinSession unit :=
  do! (_, sw) := transmit fuel a in
  if is_pin_incorrect sw then io_err (PinIncorrect (default 0 (sw_pin_retries_remaining sw)))
  else io_lift (require_success sw).

Definition change_reference_data (p2 : Z) (old new : bytes) : IO PivError PinSession unit :=
  do! apdu := io_lift (change_reference_data_apdu p2 old new) in reference_command apdu.

Definition change_pin (old new : bytes) : IO PivError PinSession unit := change_reference_data P2_PIN old new.
Definition change_puk (old new : bytes) : IO PivError PinSession unit := change_reference_data P2_PUK old new.

Definition reset_pin (puk new_pin : bytes) : IO PivError PinSession unit :=
  do! apdu := io_lift (reset_retry_counter_apdu puk new_pin) in reference_command apdu.

Definition set_management_key_3des (key : bytes) : IO PivError PinSession unit :=
  do! apdu := io_lift (set_management_key_apdu key) in
  do! _ := command fuel apdu in io_ret tt.

(** [put_data.rs] *)
Definition put_data (tag : Z) (value : bytes) : IO PivError PinSession unit :=
  do! apdu := io_lift (apdu_put_data tag value) in
  do! _ := command fuel apdu in io_ret tt.

Definition write_chuid (guid : bytes) : IO PivError PinSession unit := put_data OBJECT_CHUID (build_chuid_object guid).

Definition put_cert (slot_id : Z) (cert_der : bytes) : IO PivError PinSession unit :=
  do! tag := io_lift (ok_or (cert_tag_for_slot slot_id) (PivOther (NoCertTag slot_id))) in
  put_data tag (cert_object cert_der).

Definition clear_cert (slot_id : Z) : IO PivError PinSession unit :=
  do! tag := io_lift (ok_or (cert_tag_for_slot slot_id) (PivOther (NoCertTag slot_id))) in
  put_data tag [].

(** [keyhist.rs] *)
Definition write_keyhistory (oncard offcard : Z) (url : option bytes) : IO PivError PinSession unit :=
  put_data KEYHIST_TAG (build_keyhistory_body oncard offcard url).
End Token.

Arguments PivToken T : clear implicits.
Arguments PinSession T {_}.
