(* ===== verification/CardEcdh.v ===== *)
(** * CardEcdh: card ECDH with the PIN asked once

    [piggy-piv/src/card_ecdh.rs]: the slot 9D key agreement of a pigpen
    recipient over any transport, with the loop that asks for the PIN.  The
    [PinSource] is a parameter: a function of the request and of its own state
    [Q] (the user, the dialog).  The mutexes are taken and released inside one
    call, so the state they guard is threaded. *)

From Stdlib Require Import ZArith Lia String.
From stdpp Require Import base tactics list numbers.
From S2P Require Import Prelude PivError Guid Apdu Transport Walk Slot Session.

Local Open Scope Z_scope.

Definition SLOT_9D : Z := 0x9D.

Record PinRequest := MkPinRequest {
  pr_token_guid : Guid;
  pr_slot : Z;
  pr_retries_remaining : option Z;
}.

Inductive CardEcdhError : Type :=
| NotThisCard
| EcdhPinDeclined
| EcdhPinBlocked
| EcdhPiv (e : PivError).

(** [From<PivError>], and the [PinDeclined] of the source. *)
Definition piv_err {A} (c : res PivError A) : res CardEcdhError A := map_err EcdhPiv c.

Section CardEcdh.
Context {T : Type} `{ApduTransport T} (fuel : nat) (L : CertLib).

(** [PinSource::pin]; [None] is [PinDeclined]. *)
Context {Q : Type} (pin_source : PinRequest -> Q -> Q * option bytes).

Record CardEcdh := MkCardEcdh {
  ce_token : PivToken T;
  ce_source : Q;
  ce_cached_pin : option bytes;
}.

Definition card_ecdh_new (token : PivToken T) (source : Q) : CardEcdh := MkCardEcdh token source None.

Definition uncompressed_p256 (sec1 : bytes) (what : string) : res CardEcdhError bytes :=
  ok_or (p256_uncompressed L sec1) (EcdhPiv (PivCrypto (NotAPoint what))).

Definition with_token (token : PivToken T) (c : CardEcdh) : CardEcdh :=
  MkCardEcdh token (ce_source c) (ce_cached_pin c).

Definition holds (recipient : bytes) (c : CardEcdh) : option (CardEcdh * res CardEcdhError bool) :=
  match uncompressed_p256 recipient "recipient" with
  | Err e => Some (c, Err e)
  | Panic => Some (c, Panic)
  | Ok want =>
      match io_map_err EcdhPiv (read_slot_on fuel L SLOT_9D) (ce_token c) with
      | None => None
      | Some (token, slot) =>
          Some (with_token token c,
                let* slot := slot in
                let* point := piv_err (slot_sec1_point L slot) in
                Ok (bool_decide (point = want)))
      end
  end.

(** What [ecdh] owns while its session is open: the session, the source, and the
    guard of the cached PIN. *)
Record Run := MkRun {
  run_session : PinSession T;
  run_source : Q;
  run_cached : option bytes;
}.

(** A method of the session. *)
Definition on_session {A} (m : IO PivError (PinSession T) A) : IO PivError Run A :=
  fun r => match m (run_session r) with
           | Some (s, a) => Some (MkRun s (run_source r) (run_cached r), a)
           | None => None
           end.

Definition set_cached (pin : option bytes) (r : Run) : Run := MkRun (run_session r) (run_source r) pin.

(** [match cached.take() { Some(pin) => pin, None => self.pin_source.pin(..)? }] *)
Definition next_pin (guid : Guid) (retries_remaining : option Z) : IO CardEcdhError Run bytes :=
  fun r => match run_cached r with
           | Some pin => Some (set_cached None r, Ok pin)
           | None =>
               let (q, answer) := pin_source (MkPinRequest guid SLOT_9D retries_remaining) (run_source r) in
               Some (MkRun (run_session r) q None, ok_or answer EcdhPinDeclined)
           end.

(** [u8::try_from(retries).unwrap_or(u8::MAX)] *)
Definition retries_u8 (retries : Z) : Z := if (0 <=? retries) && (retries <=? 255) then retries else 255.

(** The [loop]; [None] when it has not ended within [n] turns. *)
Fixpoint pin_loop (n : nat) (guid : Guid) (retries_remaining : option Z) : IO CardEcdhError Run unit :=
  match n with
  | O => fun _ => None
  | S n =>
      do! pin := next_pin guid retries_remaining in
      do! verified := io_try (on_session (verify_pin fuel pin)) in
      match verified with
      | inl _ => io_modify (set_cached (Some pin))
      | inr (PinIncorrect retries) => pin_loop n guid (Some (retries_u8 retries))
      | inr PinBlocked => io_err EcdhPinBlocked
      | inr e => io_err (EcdhPiv e)
      end
  end.

(** The body of [ecdh] while the session is open. *)
Definition ecdh_body (n : nat) (guid : Guid) (want partner : bytes) : IO CardEcdhError Run bytes :=
  do! slot := io_map_err EcdhPiv (on_session (read_slot_on fuel L SLOT_9D)) in
  do! point := io_lift (piv_err (slot_sec1_point L slot)) in
  if negb (bool_decide (point = want)) then io_err NotThisCard
  else
    do! _ := pin_loop n guid None in
    io_map_err EcdhPiv (on_session (ecdh_derive fuel slot partner)).

Definition after_run (token : PivToken T) (t : T) (r : Run) : CardEcdh :=
  MkCardEcdh (with_transport t token) (run_source r) (run_cached r).

(** [response.get(..32)] *)
Definition shared_secret (response : bytes) : option bytes :=
  if 32 <=? len response then Some (ztake 32 response) else None.

(** Whichever way the body leaves, the session ends: by [end] or by its drop. *)
Definition ecdh_in_session (n : nat) (want partner : bytes) (c : CardEcdh) (s : PinSession T)
    : option (CardEcdh * res CardEcdhError bytes) :=
  let token := ce_token c in
  match ecdh_body n (tok_guid token) want partner (MkRun s (ce_source c) (ce_cached_pin c)) with
  | None => None
  | Some (r, Err e) => Some (after_run token (drop_session (run_session r)) r, Err e)
  | Some (r, Panic) => Some (after_run token (drop_session (run_session r)) r, Panic)
  | Some (r, Ok response) =>
      let (t, ended) := end_session (run_session r) in
      Some (after_run token t r,
            let* _ := piv_err ended in
            ok_or (shared_secret response) (EcdhPiv (PivCrypto EcdhResponseShort)))
  end.

Definition ecdh (n : nat) (recipient partner : bytes) (c : CardEcdh) : option (CardEcdh * res CardEcdhError bytes) :=
  let token := ce_token c in
  match (let* want := uncompressed_p256 recipient "recipient" in
         let* partner := uncompressed_p256 partner "partner key" in
         Ok (want, partner)) with
  | Err e => Some (c, Err e)
  | Panic => Some (c, Panic)
  | Ok (want, partner) =>
      match begin_pin_session fuel (tok_transport token) with
      | None => None
      | Some (inr (t, Err e)) => Some (with_token (with_transport t token) c, Err (EcdhPiv e))
      | Some (inr (t, Panic)) => Some (with_token (with_transport t token) c, Panic)
      | Some (inr (t, Ok nothing)) => match nothing with end
      | Some (inl s) => ecdh_in_session n want partner c s
      end
  end.
End CardEcdh.

Arguments CardEcdh T Q : clear implicits.
Arguments Run T {_} Q.
