(* ===== verification/Effects.v ===== *)
(** * Effects: reasoning about effects on a card

    What the components above [Transport] share: inversion of a run that
    returned, post-conditions, and the naturality of the operations in
    the transport below them: an embedding of one transport in another
    carries every operation of a session or a token along. *)

From Stdlib Require Import ZArith Lia String.
From stdpp Require Import base tactics list numbers.
From S2P Require Import Prelude PivError Guid Apdu Transport Walk Slot Session.

Local Open Scope Z_scope.

(** What is dropped on every way out of [m]. *)
Definition io_finally {E S A} (m : IO E S A) (f : S -> S) : IO E S A :=
  fun s => match m s with Some (s', r) => Some (f s', r) | None => None end.

(** ** Inversion *)

Section Inversion.
Context {E F S A B : Type}.

Lemma io_bind_Ok_inv (m : IO E S A) (k : A -> IO E S B) s s' b :
  io_bind m k s = Some (s', Ok b) -> exists s1 a, m s = Some (s1, Ok a) /\ k a s1 = Some (s', Ok b).
Proof. unfold io_bind. destruct (m s) as [[s1 [a|e|]]|]; try discriminate. eauto. Qed.

Lemma io_bind_Err_inv (m : IO E S A) (k : A -> IO E S B) s s' e :
  io_bind m k s = Some (s', Err e) -> m s = Some (s', Err e) \/ exists s1 a, m s = Some (s1, Ok a) /\ k a s1 = Some (s', Err e).
Proof. unfold io_bind. destruct (m s) as [[s1 [a|e1|]]|]; try discriminate; [eauto|]. intros [= -> ->]. auto. Qed.

Lemma io_map_err_Ok_inv (f : E -> F) (m : IO E S A) s s' a :
  io_map_err f m s = Some (s', Ok a) -> m s = Some (s', Ok a).
Proof. unfold io_map_err. destruct (m s) as [[s1 [a1|e|]]|]; try discriminate. now intros [= -> ->]. Qed.

Lemma io_try_inl_inv (m : IO E S A) s s' a :
  io_try (F := F) m s = Some (s', Ok (inl a)) -> m s = Some (s', Ok a).
Proof. unfold io_try. destruct (m s) as [[s1 [a1|e|]]|]; try discriminate. now intros [= -> ->]. Qed.

Lemma io_try_inr_inv (m : IO E S A) s s' e :
  io_try (F := F) m s = Some (s', Ok (inr e)) -> m s = Some (s', Err e).
Proof. unfold io_try. destruct (m s) as [[s1 [a1|e1|]]|]; try discriminate. now intros [= -> ->]. Qed.

Lemma io_lift_Ok_inv (c : res E A) (s s' : S) a : io_lift c s = Some (s', Ok a) -> s' = s /\ c = Ok a.
Proof. now intros [= -> ->]. Qed.

Lemma io_finally_inv (m : IO E S A) (f : S -> S) s s' r :
  io_finally m f s = Some (s', r) -> exists s1, m s = Some (s1, r) /\ s' = f s1.
Proof. unfold io_finally. destruct (m s) as [[s1 r1]|]; [|discriminate]. intros [= <- ->]. eauto. Qed.
End Inversion.

(** The first step of a run that returned a value: the state and the value it left, and its own run. *)
Tactic Notation "bind_inv" hyp(H) "as" simple_intropattern(s) simple_intropattern(a) ident(H1) :=
  apply io_bind_Ok_inv in H as (s & a & H1 & H).

(** A pure step, a changed error, a returned value. *)
Ltac pure_inv H :=
  repeat lazymatch type of H with
  | io_lift _ _ = Some (_, Ok _) => apply io_lift_Ok_inv in H as [-> H]
  | io_map_err _ _ _ = Some (_, Ok _) => apply io_map_err_Ok_inv in H
  | io_try _ _ = Some (_, Ok (inl _)) => apply io_try_inl_inv in H
  | io_ret _ _ = Some _ => unfold io_ret in H; injection H as <- <-
  | io_err _ _ = Some (_, Ok _) => discriminate H
  | io_modify _ _ = Some _ => unfold io_modify in H; injection H as <- <-
  | ok_or ?x _ = Ok _ => let E := fresh "E" in destruct x eqn:E; [cbn [ok_or] in H; injection H as ->; rename E into H|discriminate H]
  | map_err _ ?x = Ok _ => let E := fresh "E" in destruct x eqn:E; [cbn [map_err] in H; injection H as ->; rename E into H|discriminate H|discriminate H]
  end.

(** ** Post-conditions

    [ensures P m Q]: from a state in [P], [m] returns or runs out of fuel, and what it returns satisfies
    [Q], which relates the outcome to the state it started in. *)

Definition ensures {E S A} (P : S -> Prop) (m : IO E S A) (Q : S -> S -> res E A -> Prop) : Prop :=
  forall s, P s -> forall s' r, m s = Some (s', r) -> Q s s' r.

Lemma keeps_finally {E S A} (I : S -> Prop) (m : IO E S A) f : keeps I m -> (forall s, I s -> I (f s)) -> keeps I (io_finally m f).
Proof. intros Hm Hf s Hs s' r Hr. apply io_finally_inv in Hr as (s1 & Hr & ->). apply Hf. exact (Hm s Hs s1 r Hr). Qed.

Lemma keeps_get {E S} (I : S -> Prop) : keeps (E := E) I io_get.
Proof. now intros s Hs s' r [= <- _]. Qed.

(** ** Effects that return

    [total m]: [m] returns from every state, a value, an error or a panic. *)

Definition total {E S A} (m : IO E S A) : Prop := forall s, m s <> None.

Section Total.
Context {E F S A B : Type}.

Lemma total_lift (c : res E A) : total (S := S) (io_lift c).
Proof. discriminate. Qed.

Lemma total_ret (a : A) : total (E := E) (S := S) (io_ret a).
Proof. discriminate. Qed.

Lemma total_err (e : E) : total (A := A) (S := S) (io_err e).
Proof. discriminate. Qed.

Lemma total_modify (f : S -> S) : total (E := E) (io_modify f).
Proof. discriminate. Qed.

Lemma total_get : total (E := E) (S := S) io_get.
Proof. discriminate. Qed.

Lemma total_bind (m : IO E S A) (k : A -> IO E S B) : total m -> (forall a, total (k a)) -> total (io_bind m k).
Proof.
  intros Hm Hk s. unfold io_bind. destruct (m s) as [[s' [a|e|]]|] eqn:E1; try discriminate; [apply Hk|now destruct (Hm s)].
Qed.

Lemma total_try (m : IO E S A) : total m -> total (io_try (F := F) m).
Proof. intros Hm s. unfold io_try. destruct (m s) as [[s' [a|e|]]|] eqn:E1; try discriminate. now destruct (Hm s). Qed.

Lemma total_map_err (f : E -> F) (m : IO E S A) : total m -> total (io_map_err f m).
Proof. intros Hm s. unfold io_map_err. destruct (m s) as [[s' r]|] eqn:E1; [discriminate|now destruct (Hm s)]. Qed.

Lemma total_finally (m : IO E S A) f : total m -> total (io_finally m f).
Proof. intros Hm s. unfold io_finally. destruct (m s) as [[s' r]|] eqn:E1; [discriminate|now destruct (Hm s)]. Qed.
End Total.

Create HintDb total.
#[export] Hint Resolve total_lift total_ret total_err total_modify total_get total_try total_map_err total_finally : total.

(** Through binds, tests and matches. *)
Ltac total_walk :=
  repeat first
    [ solve [eauto 3 with total]
    | apply total_bind; [|intros ?]
    | progress intros
    | match goal with |- total (if ?b then _ else _) => destruct b end
    | match goal with |- total (match ?x with _ => _ end) => destruct x end
    | apply total_try | apply total_map_err | apply total_finally ].

(** ** Embeddings of transports *)

Section Naturality.
Context {T1 T2 : Type} (e : T1 -> T2).

(** [m2] does on the image of a state what [m1] does on the state. *)
Definition natural {E A} (m2 : IO E T2 A) (m1 : IO E T1 A) : Prop :=
  forall t, m2 (e t) = match m1 t with Some (t', r) => Some (e t', r) | None => None end.

Lemma natural_lift {E A} (c : res E A) : natural (io_lift c) (io_lift c).
Proof. now intros t. Qed.

Lemma natural_ret {E A} (a : A) : natural (E := E) (io_ret a) (io_ret a).
Proof. now intros t. Qed.

Lemma natural_err {E A} (x : E) : natural (A := A) (io_err x) (io_err x).
Proof. now intros t. Qed.

Lemma natural_bind {E A B} (m2 : IO E T2 A) m1 (k2 : A -> IO E T2 B) k1 :
  natural m2 m1 -> (forall a, natural (k2 a) (k1 a)) -> natural (io_bind m2 k2) (io_bind m1 k1).
Proof. intros Hm Hk t. unfold io_bind. rewrite Hm. destruct (m1 t) as [[t' [a|x|]]|]; try reflexivity. apply Hk. Qed.

Lemma natural_try {E F A} (m2 : IO E T2 A) m1 : natural m2 m1 -> natural (io_try (F := F) m2) (io_try m1).
Proof. intros Hm t. unfold io_try. rewrite Hm. now destruct (m1 t) as [[t' [a|x|]]|]. Qed.

Lemma natural_map_err {E F A} (f : E -> F) (m2 : IO E T2 A) m1 : natural m2 m1 -> natural (io_map_err f m2) (io_map_err f m1).
Proof. intros Hm t. unfold io_map_err. rewrite Hm. now destruct (m1 t) as [[t' r]|]. Qed.

Lemma natural_modify {E} f2 f1 : (forall t, f2 (e t) = e (f1 t)) -> natural (E := E) (io_modify f2) (io_modify f1).
Proof. intros Hf t. unfold io_modify. now rewrite Hf. Qed.

Lemma natural_total {E A} (m2 : IO E T2 A) m1 t : natural m2 m1 -> total m1 -> m2 (e t) <> None.
Proof. intros Hn Ht. rewrite Hn. destruct (m1 t) as [[t' r]|] eqn:E1; [discriminate|now destruct (Ht t)]. Qed.

Lemma natural_fun {E A} (f2 f1 : IO E _ A) : (forall t, f2 (e t) = match f1 t with Some (t', r) => Some (e t', r) | None => None end) -> natural f2 f1.
Proof. auto. Qed.
End Naturality.

Create HintDb natural.
#[export] Hint Resolve natural_lift natural_ret natural_err natural_try natural_map_err : natural.

(** Through binds, tests and matches on what they have in common. *)
Ltac natural_walk :=
  repeat first
    [ solve [eauto 3 with natural]
    | apply natural_bind; [|intros ?]
    | progress intros
    | match goal with |- natural _ (if ?b then _ else _) (if ?b then _ else _) => destruct b end
    | match goal with |- natural _ (match ?x with _ => _ end) (match ?x with _ => _ end) => destruct x end
    | apply natural_try | apply natural_map_err ].

Section Operations.
Context {T1 T2 : Type} `{RawApdu T1} `{RawApdu T2} (e : T1 -> T2).
Context (He : forall cmd t, transmit_raw cmd (e t) = (e (transmit_raw cmd t).1, (transmit_raw cmd t).2)).
Context (fuel : nat) (L : CertLib).

Lemma natural_raw cmd : natural e (raw cmd) (raw cmd).
Proof. intros t. unfold raw. rewrite He. now destruct (transmit_raw cmd t). Qed.
#[local] Hint Resolve natural_raw : natural.

Lemma natural_chain n : forall full sw, natural e (get_response_chain n full sw) (get_response_chain n full sw).
Proof. induction n as [|n IH]; intros full sw; [now intros t|]. cbn [get_response_chain]. natural_walk. Qed.
#[local] Hint Resolve natural_chain : natural.

Lemma natural_transmit a : natural e (Session.transmit fuel a) (Session.transmit fuel a).
Proof. unfold Session.transmit, transmit_on. natural_walk. Qed.
#[local] Hint Resolve natural_transmit : natural.

Lemma natural_command a : natural e (command fuel a) (command fuel a).
Proof. unfold command. natural_walk. Qed.
#[local] Hint Resolve natural_command : natural.

Lemma natural_read_slot slot : natural e (read_slot_on fuel L slot) (read_slot_on fuel L slot).
Proof. unfold read_slot_on. natural_walk. Qed.

Lemma natural_read_serial : natural e (read_yk_serial fuel) (read_yk_serial fuel).
Proof. unfold read_yk_serial, read_piv_serial, read_otp_serial. cbv zeta. natural_walk. Qed.

Lemma natural_attest slot : natural e (yk_attest fuel slot) (yk_attest fuel slot).
Proof. unfold yk_attest. natural_walk. Qed.

Lemma natural_read_slots ids : forall slots, natural e (read_slots fuel L slots ids) (read_slots fuel L slots ids).
Proof.
  induction ids as [|id ids IH]; intros slots; cbn [read_slots]; [apply natural_ret|].
  apply natural_bind; [apply natural_try, natural_read_slot|]. intros a. natural_walk.
Qed.
End Operations.

(** *** When every command returns *)

Section CommandsReturn.
Context {T : Type} `{RawApdu T} (fuel : nat) (L : CertLib) (Ht : forall a, total (Session.transmit fuel a)).

#[local] Hint Resolve Ht : total.

Lemma total_command a : total (command fuel a).
Proof. unfold command. total_walk. Qed.
#[local] Hint Resolve total_command : total.

Lemma total_read_slot slot : total (read_slot_on fuel L slot).
Proof. unfold read_slot_on. total_walk. Qed.

Lemma total_read_serial : total (read_yk_serial fuel).
Proof. unfold read_yk_serial, read_piv_serial, read_otp_serial. cbv zeta. total_walk. Qed.

Lemma total_attest slot : total (yk_attest fuel slot).
Proof. unfold yk_attest. total_walk. Qed.
End CommandsReturn.

(** ** Sessions *)

Section Sessions.
Context {T1 T2 : Type} `{A1 : ApduTransport T1} `{A2 : ApduTransport T2} (e : ap_session T1 -> ap_session T2).
Context (He : forall cmd t, transmit_raw cmd (e t) = (e (transmit_raw cmd t).1, (transmit_raw cmd t).2)).
Context (fuel : nat) (L : CertLib).

(** The same session on the other transport. *)
Definition carry (s : PinSession T1) : PinSession T2 := MkSession (e (ps_session s)) (ps_pin_verified s).

Lemma carry_raw cmd s : transmit_raw cmd (carry s) = (carry (transmit_raw cmd s).1, (transmit_raw cmd s).2).
Proof.
  unfold transmit_raw, pin_session_raw, carry. cbn [ps_session ps_pin_verified]. rewrite He. now destruct (transmit_raw cmd (ps_session s)).
Qed.

#[local] Hint Resolve natural_transmit natural_command natural_read_slot natural_attest carry_raw : natural.

Lemma natural_set_verified {E} : natural (E := E) carry (io_modify set_pin_verified) (io_modify set_pin_verified).
Proof. now apply natural_modify. Qed.
#[local] Hint Resolve natural_set_verified : natural.

Lemma natural_verify_pin pin : natural carry (verify_pin fuel pin) (verify_pin fuel pin).
Proof. unfold verify_pin. natural_walk. Qed.

Lemma natural_pin_retries : natural carry (pin_retries_remaining fuel) (pin_retries_remaining fuel).
Proof. unfold pin_retries_remaining. natural_walk. Qed.

Lemma natural_ga alg slot tag d : natural carry (general_authenticate fuel alg slot tag d) (general_authenticate fuel alg slot tag d).
Proof. unfold general_authenticate. natural_walk. Qed.
#[local] Hint Resolve natural_ga : natural.

Lemma natural_sign slot d : natural carry (sign_prehash fuel slot d) (sign_prehash fuel slot d).
Proof. apply natural_ga. Qed.

Lemma natural_sign_with_alg slot alg d : natural carry (sign_prehash_with_alg fuel slot alg d) (sign_prehash_with_alg fuel slot alg d).
Proof. apply natural_ga. Qed.

Lemma natural_ecdh slot point : natural carry (ecdh_derive fuel slot point) (ecdh_derive fuel slot point).
Proof. unfold ecdh_derive. natural_walk. Qed.

Lemma natural_session_read_slot slot : natural carry (read_slot_on fuel L slot) (read_slot_on fuel L slot).
Proof. apply natural_read_slot, carry_raw. Qed.
End Sessions.

Section SessionsReturn.
Context {T : Type} `{ApduTransport T} (fuel : nat) (L : CertLib).
Context (Ht : forall a, total (S := ap_session T) (Session.transmit fuel a)).

(** A session's command is its transport's. *)
Lemma session_transmit_total a : total (S := PinSession T) (Session.transmit fuel a).
Proof.
  intros [s v]. apply (natural_total (fun t => MkSession t v) _ (Session.transmit fuel a) s); [|apply Ht].
  apply natural_transmit. intros cmd t. unfold transmit_raw at 1, pin_session_raw. cbn [ps_session ps_pin_verified].
  now destruct (transmit_raw cmd t).
Qed.
#[local] Hint Resolve session_transmit_total total_read_slot : total.

Lemma total_verify_pin pin : total (verify_pin (T := T) fuel pin).
Proof. unfold verify_pin. total_walk. Qed.

Lemma total_pin_retries : total (pin_retries_remaining (T := T) fuel).
Proof. unfold pin_retries_remaining. total_walk. Qed.

Lemma total_ga alg slot tag d : total (general_authenticate (T := T) fuel alg slot tag d).
Proof. unfold general_authenticate. total_walk. Qed.
#[local] Hint Resolve total_ga : total.

Lemma total_ecdh slot point : total (ecdh_derive (T := T) fuel slot point).
Proof. unfold ecdh_derive. total_walk. Qed.

Lemma total_session_read_slot slot : total (S := PinSession T) (read_slot_on fuel L slot).
Proof. auto with total. Qed.
End SessionsReturn.

Section TokensReturn.
Context {T : Type} `{ApduTransport T} (fuel : nat) (Ht : forall a, total (S := T) (Session.transmit fuel a)).

Lemma token_transmit_total a : total (S := PivToken T) (Session.transmit fuel a).
Proof.
  intros k. destruct k as [t g n y d i c]. apply (natural_total (fun t => MkToken t g n y d i c) _ (Session.transmit fuel a) t); [|apply Ht].
  apply natural_transmit. intros cmd u. unfold transmit_raw at 1, token_raw. cbn [tok_transport]. now destruct (transmit_raw cmd u).
Qed.
#[local] Hint Resolve token_transmit_total total_command total_read_serial : total.

Lemma total_connect require : total (S := PivToken T) (connect_sequence fuel require).
Proof. unfold connect_sequence, select_piv, read_chuid. total_walk. Qed.
End TokensReturn.

(** ** Tokens *)

Section Tokens.
Context {T1 T2 : Type} `{A1 : ApduTransport T1} `{A2 : ApduTransport T2} (e : T1 -> T2).
Context (He : forall cmd t, transmit_raw cmd (e t) = (e (transmit_raw cmd t).1, (transmit_raw cmd t).2)).
Context (fuel : nat) (L : CertLib).

Definition carry_token (k : PivToken T1) : PivToken T2 :=
  MkToken (e (tok_transport k)) (tok_guid k) (tok_reader_name k) (tok_yk_serial k) (tok_yk_serial_diag k) (tok_initialized k) (tok_chuid_raw k).

Lemma carry_token_raw cmd k : transmit_raw cmd (carry_token k) = (carry_token (transmit_raw cmd k).1, (transmit_raw cmd k).2).
Proof.
  unfold transmit_raw, token_raw, carry_token. cbn [tok_transport]. rewrite He. now destruct (transmit_raw cmd (tok_transport k)).
Qed.

#[local] Hint Resolve natural_command natural_read_serial carry_token_raw : natural.

Lemma natural_token_modify {E} (f2 : PivToken T2 -> PivToken T2) f1 :
  (forall k, f2 (carry_token k) = carry_token (f1 k)) -> natural (E := E) carry_token (io_modify f2) (io_modify f1).
Proof. apply natural_modify. Qed.

Lemma natural_read_chuid : natural carry_token (read_chuid fuel) (read_chuid fuel).
Proof. unfold read_chuid. natural_walk; now apply natural_token_modify. Qed.
#[local] Hint Resolve natural_read_chuid : natural.

Lemma natural_connect require : natural carry_token (connect_sequence fuel require) (connect_sequence fuel require).
Proof. unfold connect_sequence, select_piv. natural_walk; now apply natural_token_modify. Qed.
End Tokens.
