(* ===== verification/Text.v ===== *)
(** * Text: the string operations of a line-oriented format

    What the pigpen document of [piggy-pigpen] uses of [str]: decoding from
    UTF-8, trimming, searching for and splitting at a delimiter.  A [&str] is
    its list of characters. *)

From Stdlib Require Import ZArith Lia.
From stdpp Require Import base tactics list numbers.
From S2P Require Import Prelude Utf8.

Local Open Scope Z_scope.

(** [str::from_utf8(l).map(|s| s.chars().collect())] *)
Fixpoint from_utf8 (l : bytes) : option (list Z) :=
  match l with
  | [] => Some []
  | a :: l1 =>
      if a <? 0x80 then cons a <$> from_utf8 l1
      else match l1 with
      | [] => None
      | b :: l2 =>
          if utf8_width a =? 2 then
            if utf8_cont b then cons (64 * (a - 0xC0) + (b - 0x80)) <$> from_utf8 l2 else None
          else match l2 with
          | [] => None
          | c :: l3 =>
              if utf8_width a =? 3 then
                if utf8_second_ok a b && utf8_cont c
                then cons (4096 * (a - 0xE0) + 64 * (b - 0x80) + (c - 0x80)) <$> from_utf8 l3
                else None
              else match l3 with
              | [] => None
              | d :: l4 =>
                  if (utf8_width a =? 4) && utf8_second_ok a b && utf8_cont c && utf8_cont d
                  then cons (262144 * (a - 0xF0) + 4096 * (b - 0x80) + 64 * (c - 0x80) + (d - 0x80)) <$> from_utf8 l4
                  else None
              end
          end
      end
  end.

(** [char::is_whitespace]: the characters with the property White_Space. *)
Definition is_whitespace (c : Z) : bool :=
  between 9 c 13 || (c =? 0x20) || (c =? 0x85) || (c =? 0xA0) || (c =? 0x1680) || between 0x2000 c 0x200A
  || (c =? 0x2028) || (c =? 0x2029) || (c =? 0x202F) || (c =? 0x205F) || (c =? 0x3000).

Fixpoint trim_start (s : list Z) : list Z :=
  match s with
  | [] => []
  | c :: s' => if is_whitespace c then trim_start s' else s
  end.

(** [str::trim] *)
Definition trim (s : list Z) : list Z := reverse (trim_start (reverse (trim_start s))).

(** [s.strip_prefix(p)] *)
Fixpoint strip_str (p s : list Z) : option (list Z) :=
  match p, s with
  | [], _ => Some s
  | _, [] => None
  | a :: p, b :: s => if a =? b then strip_str p s else None
  end.

(** [s.split_once(p)]: before and behind the first [p]. *)
Fixpoint split_once (p s : list Z) : option (list Z * list Z) :=
  match strip_str p s with
  | Some rest => Some ([], rest)
  | None =>
      match s with
      | [] => None
      | c :: s => '(a, b) ← split_once p s; Some (c :: a, b)
      end
  end.

(** [s.contains(['..', ..])] *)
Definition contains_any (cs s : list Z) : bool := existsb (fun c => existsb (Z.eqb c) cs) s.

(** ** UTF-8 *)

(** A property of [between] as inequalities. *)
Lemma between_spec a x b : between a x b = true <-> a <= x <= b.
Proof. unfold between. rewrite andb_true_iff, !Z.leb_le. lia. Qed.

Lemma between_out a x b : ~ (a <= x <= b) -> between a x b = false.
Proof. intros H. destruct (between a x b) eqn:E; [apply between_spec in E; lia|reflexivity]. Qed.

Ltac betweens :=
  repeat match goal with
  | |- context [between ?a ?x ?b] =>
      first [ rewrite (proj2 (between_spec a x b)) by lia | rewrite (between_out a x b) by lia ]
  end.

Lemma width_2 a : 0xC2 <= a <= 0xDF -> utf8_width a = 2.
Proof. intros H. unfold utf8_width. zbool. betweens. reflexivity. Qed.
Lemma width_3 a : 0xE0 <= a <= 0xEF -> utf8_width a = 3.
Proof. intros H. unfold utf8_width. zbool. betweens. reflexivity. Qed.
Lemma width_4 a : 0xF0 <= a <= 0xF4 -> utf8_width a = 4.
Proof. intros H. unfold utf8_width. zbool. betweens. reflexivity. Qed.

Lemma cont_ok b : 0x80 <= b <= 0xBF -> utf8_cont b = true.
Proof. intros H. now apply between_spec. Qed.

(** Which second bytes a lead accepts, by its class. *)
Lemma second_ok a b :
  0x80 <= b <= 0xBF -> 0xE0 <= a <= 0xF4 ->
  (a = 0xE0 -> 0xA0 <= b) -> (a = 0xED -> b <= 0x9F) -> (a = 0xF0 -> 0x90 <= b) -> (a = 0xF4 -> b <= 0x8F) ->
  utf8_second_ok a b = true.
Proof.
  intros Hb Ha H1 H2 H3 H4. unfold utf8_second_ok. rewrite !orb_true_iff, !andb_true_iff, !between_spec, !Z.eqb_eq. lia.
Qed.

Lemma from_utf8_1 a l : a < 0x80 -> from_utf8 (a :: l) = cons a <$> from_utf8 l.
Proof. intros Ha. cbn [from_utf8]. now rewrite (proj2 (Z.ltb_lt a 0x80) Ha). Qed.

Lemma from_utf8_2 a b l :
  0xC2 <= a <= 0xDF -> 0x80 <= b <= 0xBF ->
  from_utf8 (a :: b :: l) = cons (64 * (a - 0xC0) + (b - 0x80)) <$> from_utf8 l.
Proof.
  intros Ha Hb. cbn [from_utf8]. rewrite (proj2 (Z.ltb_ge a 0x80)) by lia.
  now rewrite (width_2 a Ha), Z.eqb_refl, (cont_ok b Hb).
Qed.

Lemma from_utf8_3 a b c l :
  0xE0 <= a <= 0xEF -> utf8_second_ok a b = true -> 0x80 <= c <= 0xBF ->
  from_utf8 (a :: b :: c :: l) = cons (4096 * (a - 0xE0) + 64 * (b - 0x80) + (c - 0x80)) <$> from_utf8 l.
Proof.
  intros Ha Hb Hc. cbn [from_utf8]. rewrite (proj2 (Z.ltb_ge a 0x80)) by lia.
  rewrite (width_3 a Ha). change (3 =? 2) with false. cbv iota.
  now rewrite Z.eqb_refl, Hb, (cont_ok c Hc).
Qed.

Lemma from_utf8_4 a b c d l :
  0xF0 <= a <= 0xF4 -> utf8_second_ok a b = true -> 0x80 <= c <= 0xBF -> 0x80 <= d <= 0xBF ->
  from_utf8 (a :: b :: c :: d :: l)
  = cons (262144 * (a - 0xF0) + 4096 * (b - 0x80) + 64 * (c - 0x80) + (d - 0x80)) <$> from_utf8 l.
Proof.
  intros Ha Hb Hc Hd. cbn [from_utf8]. rewrite (proj2 (Z.ltb_ge a 0x80)) by lia.
  rewrite (width_4 a Ha). change (4 =? 2) with false. change (4 =? 3) with false. cbv iota.
  now rewrite Z.eqb_refl, Hb, (cont_ok c Hc), (cont_ok d Hd).
Qed.

Ltac divs := intros; Z.to_euclidean_division_equations; lia.

Lemma from_utf8_char c l : is_char c = true -> from_utf8 (encode_utf8 c ++ l) = cons c <$> from_utf8 l.
Proof.
  intros Hc. assert (Hr : 0 <= c <= 0xD7FF \/ 0xE000 <= c <= 0x10FFFF).
  { unfold is_char in Hc. rewrite orb_true_iff, !between_spec in Hc. exact Hc. }
  unfold encode_utf8. destruct (Z.ltb_spec c 0x80) as [H1|H1]; [now apply from_utf8_1|].
  destruct (Z.ltb_spec c 0x800) as [H2|H2]; [|destruct (Z.ltb_spec c 0x10000) as [H3|H3]]; cbn [app].
  - rewrite from_utf8_2 by divs. do 2 f_equal. divs.
  - rewrite from_utf8_3; [do 2 f_equal; divs|divs|apply second_ok; divs|divs].
  - rewrite from_utf8_4; [do 2 f_equal; divs|divs|apply second_ok; divs|divs..].
Qed.

(** A character string is what its bytes decode to. *)
Lemma from_utf8_as_bytes s : Forall (fun c => is_char c = true) s -> from_utf8 (as_bytes s) = Some s.
Proof.
  induction 1 as [|c s Hc Hs IH]; [reflexivity|]. unfold as_bytes in *. rewrite bind_cons, from_utf8_char by exact Hc.
  now rewrite IH.
Qed.

Lemma width_class a n : utf8_width a = n -> 
  (n = 2 -> 0xC2 <= a <= 0xDF) /\ (n = 3 -> 0xE0 <= a <= 0xEF) /\ (n = 4 -> 0xF0 <= a <= 0xF4).
Proof.
  unfold utf8_width. intros <-. destruct (a <? 0x80); [lia|]. destruct (between 0xC2 a 0xDF) eqn:E2; [apply between_spec in E2; lia|].
  destruct (between 0xE0 a 0xEF) eqn:E3; [apply between_spec in E3; lia|]. destruct (between 0xF0 a 0xF4) eqn:E4; [apply between_spec in E4|]; lia.
Qed.

Lemma second_inv a b : utf8_second_ok a b = true ->
  0x80 <= b <= 0xBF /\ (a = 0xE0 -> 0xA0 <= b) /\ (a = 0xED -> b <= 0x9F) /\ (a = 0xF0 -> 0x90 <= b) /\ (a = 0xF4 -> b <= 0x8F).
Proof. unfold utf8_second_ok. rewrite !orb_true_iff, !andb_true_iff, !between_spec, !Z.eqb_eq. lia. Qed.

Lemma encode_2 a b : 0xC2 <= a <= 0xDF -> 0x80 <= b <= 0xBF -> encode_utf8 (64 * (a - 0xC0) + (b - 0x80)) = [a; b].
Proof.
  intros Ha Hb. unfold encode_utf8. zbool. f_equal; [|f_equal]; divs.
Qed.
Lemma encode_3 a b c : 0xE0 <= a <= 0xEF -> utf8_second_ok a b = true -> 0x80 <= c <= 0xBF ->
  encode_utf8 (4096 * (a - 0xE0) + 64 * (b - 0x80) + (c - 0x80)) = [a; b; c].
Proof.
  intros Ha (Hb & H1 & _)%second_inv Hc. unfold encode_utf8. zbool. f_equal; [|f_equal; [|f_equal]]; divs.
Qed.
Lemma encode_4 a b c d : 0xF0 <= a <= 0xF4 -> utf8_second_ok a b = true -> 0x80 <= c <= 0xBF -> 0x80 <= d <= 0xBF ->
  encode_utf8 (262144 * (a - 0xF0) + 4096 * (b - 0x80) + 64 * (c - 0x80) + (d - 0x80)) = [a; b; c; d].
Proof.
  intros Ha (Hb & _ & _ & H1 & _)%second_inv Hc Hd. unfold encode_utf8. zbool. f_equal; [|f_equal; [|f_equal; [|f_equal]]]; divs.
Qed.

(** What was decoded is encoded again as it was. *)
Lemma as_bytes_from_utf8 l : forall s, from_utf8 l = Some s -> as_bytes s = l.
Proof.
  assert (H : forall n l, (length l <= n)%nat -> forall s, from_utf8 l = Some s -> as_bytes s = l); [|now apply (H (length l))].
  clear l. induction n as [|n IH]; intros [|a l1] Hn s; cbn [length] in Hn; try (intros [= <-]; reflexivity); [lia|].
  assert (Hs : forall l' c k, (length l' <= n)%nat -> encode_utf8 c = k -> forall s, cons c <$> from_utf8 l' = Some s -> as_bytes s = k ++ l').
  { intros l' c k Hl Hk s' E. destruct (from_utf8 l') as [s0|] eqn:E0; [|discriminate]. injection E as <-.
    change (as_bytes (c :: s0)) with (encode_utf8 c ++ as_bytes s0). rewrite Hk. f_equal. exact (IH l' Hl s0 E0). }
  cbn [from_utf8]. destruct (a <? 0x80) eqn:Ha.
  { apply (Hs l1 a [a]); [lia|]. unfold encode_utf8. now rewrite Ha. }
  destruct l1 as [|b l2]; [discriminate|]. cbn [length] in Hn. destruct (utf8_width a =? 2) eqn:W2.
  { bprop. destruct (utf8_cont b) eqn:Hb; [|discriminate]. apply between_spec in Hb. destruct (width_class a 2 W2) as (Hw & _).
    apply (Hs l2 _ [a; b]); [lia|]. apply encode_2; auto. }
  destruct l2 as [|c l3]; [discriminate|]. cbn [length] in Hn. destruct (utf8_width a =? 3) eqn:W3.
  { bprop. destruct (utf8_second_ok a b && utf8_cont c) eqn:Hb; [|discriminate]. apply andb_true_iff in Hb as [Hb Hc]. apply between_spec in Hc.
    destruct (width_class a 3 W3) as (_ & Hw & _). apply (Hs l3 _ [a; b; c]); [lia|]. apply encode_3; auto. }
  destruct l3 as [|d l4]; [discriminate|]. cbn [length] in Hn.
  destruct ((utf8_width a =? 4) && utf8_second_ok a b && utf8_cont c && utf8_cont d) eqn:Hb; [|discriminate].
  apply andb_true_iff in Hb as [Hb Hd]. apply andb_true_iff in Hb as [Hb Hc]. apply andb_true_iff in Hb as [W4 Hb].
  apply between_spec in Hc, Hd. apply Z.eqb_eq in W4. destruct (width_class a 4 W4) as (_ & _ & Hw).
  apply (Hs l4 _ [a; b; c; d]); [lia|]. apply encode_4; auto.
Qed.

Lemma as_bytes_app a b : as_bytes (a ++ b) = as_bytes a ++ as_bytes b.
Proof. unfold as_bytes. apply bind_app. Qed.

(** An ASCII byte occurs in a string's bytes exactly as a character. *)
Lemma as_bytes_ascii_in b s : b < 0x80 -> In b (as_bytes s) -> In b s.
Proof.
  intros Hb. induction s as [|c s IH]; [easy|]. unfold as_bytes in *. rewrite bind_cons. intros [H|H]%in_app_or.
  - left. unfold encode_utf8 in H. repeat case_match; bprop; simpl in H;
      repeat destruct H as [H|H]; try easy; subst; divs.
  - right. now apply IH.
Qed.

(** ** Searching and splitting *)

Lemma strip_str_app p s : strip_str p (p ++ s) = Some s.
Proof. induction p as [|a p IH]; [reflexivity|]. cbn [app strip_str]. now rewrite Z.eqb_refl. Qed.

Lemma strip_str_Some p s rest : strip_str p s = Some rest -> s = p ++ rest.
Proof.
  revert s. induction p as [|a p IH]; intros s; cbn [strip_str]; [intros [= ->]; reflexivity|].
  destruct s as [|b s]; [discriminate|]. destruct (Z.eqb_spec a b) as [->|]; [|discriminate].
  intros H. cbn [app]. f_equal. now apply IH.
Qed.

(** No occurrence starts in [u] when none is inside it and none can reach past
    its last character. *)
Lemma strip_str_past p u c v : ~ In c p -> strip_str p (u ++ [c]) = None -> strip_str p (u ++ c :: v) = None.
Proof.
  intros Hc. revert u. induction p as [|a p IH]; intros u H; [destruct u; discriminate|].
  destruct u as [|x u]; cbn [app strip_str] in *.
  - rewrite (proj2 (Z.eqb_neq a c)) by (intros ->; apply Hc; now left). reflexivity.
  - destruct (a =? x); [|reflexivity]. apply IH; [|exact H]. intros Hin. apply Hc. now right.
Qed.

Lemma split_once_cons p c s :
  strip_str p (c :: s) = None -> split_once p (c :: s) = '(a, b) ← split_once p s; Some (c :: a, b).
Proof. intros H. cbn [split_once]. now rewrite H. Qed.

Lemma split_once_None_cons p c s : split_once p (c :: s) = None -> strip_str p (c :: s) = None /\ split_once p s = None.
Proof.
  cbn [split_once]. destruct (strip_str p (c :: s)); [discriminate|]. split; [reflexivity|].
  now destruct (split_once p s) as [[a b]|].
Qed.

(** The first occurrence, behind a text that has none and whose last character
    is not the delimiter's. *)
Lemma split_once_hit p u c v :
  ~ In c p -> split_once p (u ++ [c]) = None -> split_once p (u ++ c :: p ++ v) = Some (u ++ [c], v).
Proof.
  intros Hc. induction u as [|x u IH]; intros H; cbn [app] in *; apply split_once_None_cons in H as [Hs H].
  - rewrite split_once_cons by exact (strip_str_past p [] c (p ++ v) Hc Hs).
    destruct p as [|a p]; [discriminate|]. change ((a :: p) ++ v) with (a :: (p ++ v)). cbn [split_once].
    change (a :: (p ++ v)) with ((a :: p) ++ v). now rewrite strip_str_app.
  - rewrite split_once_cons by exact (strip_str_past p (x :: u) c (p ++ v) Hc Hs). now rewrite (IH H).
Qed.

Lemma split_once_miss p u c v :
  ~ In c p -> split_once p (u ++ [c]) = None -> split_once p v = None -> split_once p (u ++ c :: v) = None.
Proof.
  intros Hc Hu Hv. revert Hu. induction u as [|x u IH]; intros H; cbn [app] in *; apply split_once_None_cons in H as [Hs H].
  - rewrite split_once_cons by exact (strip_str_past p [] c v Hc Hs). now rewrite Hv.
  - rewrite split_once_cons by exact (strip_str_past p (x :: u) c v Hc Hs). now rewrite (IH H).
Qed.

(** A text without one of the delimiter's characters. *)
Lemma split_once_absent p s c : In c p -> ~ In c s -> split_once p s = None.
Proof.
  intros Hp. assert (Hstrip : forall s, ~ In c s -> strip_str p s = None).
  { intros s' Hs. destruct (strip_str p s') as [rest|] eqn:H; [|reflexivity]. apply strip_str_Some in H. subst.
    exfalso. apply Hs, in_or_app. now left. }
  induction s as [|x s IH]; intros Hs; [cbn [split_once]; now rewrite Hstrip|].
  rewrite split_once_cons by now apply Hstrip. rewrite IH by (intros H; apply Hs; now right). reflexivity.
Qed.

(** Splitting at one character. *)
Lemma split_once_char c u v : ~ In c u -> split_once [c] (u ++ c :: v) = Some (u, v).
Proof.
  induction u as [|x u IH]; intros H.
  - cbn [app split_once strip_str]. now rewrite Z.eqb_refl.
  - cbn [app]. rewrite split_once_cons.
    + rewrite IH by (intros Hi; apply H; now right). reflexivity.
    + cbn [strip_str]. rewrite (proj2 (Z.eqb_neq c x)) by (intros ->; apply H; now left). reflexivity.
Qed.

(** ** Trimming *)

Lemma trim_start_keeps c s : is_whitespace c = false -> trim_start (c :: s) = c :: s.
Proof. intros H. cbn [trim_start]. now rewrite H. Qed.

(** A text that begins and ends with visible characters is left as it is. *)
Lemma trim_keeps s a b :
  head s = Some a -> list.last s = Some b -> is_whitespace a = false -> is_whitespace b = false -> trim s = s.
Proof.
  intros Ha Hb Wa Wb. destruct s as [|x s]; [discriminate|]. injection Ha as ->. unfold trim.
  rewrite trim_start_keeps by exact Wa.
  rewrite <- head_reverse in Hb. destruct (reverse (a :: s)) as [|y l] eqn:E; [discriminate|]. injection Hb as ->.
  rewrite trim_start_keeps by exact Wb. now rewrite <- E, reverse_involutive.
Qed.

Lemma contains_any_false cs s : contains_any cs s = false <-> forall c, In c cs -> ~ In c s.
Proof.
  unfold contains_any. rewrite <- not_true_iff_false, existsb_exists. split.
  - intros H c Hc Hs. apply H. exists c. split; [exact Hs|]. apply existsb_exists. exists c. split; [exact Hc|apply Z.eqb_refl].
  - intros H (c & Hs & Hc). apply existsb_exists in Hc as (d & Hd & He%Z.eqb_eq). subst d. exact (H c Hd Hs).
Qed.
