(* ===== verification/Blech32.v ===== *)
(** * Blech32: the checksummed text form of markl identifiers

    [piggy-markl/src/blech32.rs] in full: BIP173's bech32 with [-] as the
    separator and lowercase only.  A [&str] is its list of characters; positions
    are byte offsets ([str_len]).  A [u32] shifted left loses its high bits
    ([u32_shl]). *)

From Stdlib Require Import ZArith Lia String Btauto.
From stdpp Require Import base tactics list numbers.
From S2P Require Import Prelude Utf8.

Local Open Scope Z_scope.

Definition CHARSET : list Z := ascii "qpzry9x8gf2tvdw0s3jn54khce6mua7l".
Definition SEPARATOR : Z := 45.
Definition GENERATOR : list Z := [0x3b6a57b2; 0x26508e6d; 0x1ea119fa; 0x3d4233dd; 0x2a1462b3].
Definition CHECKSUM_LEN : Z := 6.
Definition DATA_PORTION_MIN : Z := 7.

Inductive Blech32Error : Type :=
| EmptyHrp
| InvalidHrpCharacter (pos char : Z)
| MixedCase
| Uppercase
| SeparatorMissing
| DataPortionTooShort (expected actual : Z)
| InvalidCharacterInData (pos char : Z)
| InvalidChecksum
| InvalidDataRange (pos value max : Z)
| NonZeroPadding
| IllegalZeroPadding.

(** ** The checksum *)

Definition u32_shl (a n : Z) : Z := Z.land (Z.shiftl a n) 0xFFFFFFFF.

(** [for i in 0..5 { if (top >> i) & 1 == 1 { chk ^= GENERATOR[i] } }] *)
Definition apply_generator (top chk : Z) : Z :=
  foldl (fun chk '(i, g) => if Z.land (Z.shiftr top i) 1 =? 1 then Z.lxor chk g else chk) chk
    (zip [0; 1; 2; 3; 4] GENERATOR).

Definition polymod_step (chk v : Z) : Z :=
  let top := Z.shiftr chk 25 in
  let chk := Z.lxor (u32_shl (Z.land chk 0x01ffffff) 5) v in
  apply_generator top chk.

Definition polymod (values : bytes) : Z := foldl polymod_step 1 values.

Definition hrp_expand (hrp : list Z) : bytes :=
  if bool_decide (hrp = []) then []
  else
    let lower := to_ascii_lowercase <$> as_bytes hrp in
    ((fun c => Z.shiftr c 5) <$> lower) ++ [0] ++ ((fun c => Z.land c 0x1f) <$> lower).

Definition verify_checksum (hrp : list Z) (data : bytes) : bool :=
  polymod (hrp_expand hrp ++ data) =? 1.

Definition create_checksum (hrp : list Z) (data : bytes) : bytes :=
  let values := hrp_expand hrp ++ data in
  let values := values ++ repeat 0 6 in
  let polymod_v := Z.lxor (polymod values) 1 in
  (fun p => Z.land (u8 (Z.shiftr polymod_v (5 * (5 - p)))) 0x1f) <$> [0; 1; 2; 3; 4; 5].

(** ** Bit groups *)

(** [while bits >= to_bits]; [fuel] is the number of groups [bits] can hold. *)
Fixpoint emit_groups (fuel : nat) (to_bits acc bits : Z) (out : bytes) : Z * bytes :=
  match fuel with
  | O => (bits, out)
  | S fuel =>
      if to_bits <=? bits then
        let bits := bits - to_bits in
        emit_groups fuel to_bits acc bits (out ++ [u8 (Z.land (Z.shiftr acc bits) (Z.shiftl 1 to_bits - 1))])
      else (bits, out)
  end.

Fixpoint convert_groups (from_bits to_bits idx acc bits : Z) (out data : bytes)
    : res Blech32Error (Z * Z * bytes) :=
  match data with
  | [] => Ok (acc, bits, out)
  | v :: data =>
      if negb (Z.shiftr v from_bits =? 0) then Err (InvalidDataRange idx v (u8 (Z.shiftl 1 from_bits - 1)))
      else
        let acc := Z.lor (u32_shl acc from_bits) v in
        let bits := bits + from_bits in
        let (bits, out) := emit_groups (Z.to_nat bits) to_bits acc bits out in
        convert_groups from_bits to_bits (idx + 1) acc bits out data
  end.

Definition convert_bits (data : bytes) (from_bits to_bits : Z) (pad : bool) : res Blech32Error bytes :=
  let max_v := Z.shiftl 1 to_bits - 1 in
  let* (acc, bits, out) := convert_groups from_bits to_bits 0 0 0 [] data in
  if pad then
    Ok (if 0 <? bits then out ++ [u8 (Z.land (u32_shl acc (to_bits - bits)) max_v)] else out)
  else if from_bits <=? bits then Err IllegalZeroPadding
  else if negb (Z.land (u32_shl acc (to_bits - bits)) max_v =? 0) then Err NonZeroPadding
  else Ok out.

(** ** Case and charset *)

Fixpoint case_loop (has_lower has_upper : bool) (s : list Z) : res Blech32Error unit :=
  match s with
  | [] => if has_upper then Err Uppercase else Ok tt
  | c :: s =>
      let (has_lower, has_upper) :=
        if is_ascii_lowercase c then (true, has_upper)
        else if is_ascii_uppercase c then (has_lower, true)
        else (has_lower, has_upper) in
      if has_lower && has_upper then Err MixedCase else case_loop has_lower has_upper s
  end.

Definition validate_case (s : list Z) : res Blech32Error unit := case_loop false false s.

Definition hrp_char (c : Z) : bool := is_ascii_alphanumeric c || (c =? 95).

(** [for (pos, c) in hrp.char_indices()] *)
Fixpoint hrp_loop (pos : Z) (hrp : list Z) : res Blech32Error unit :=
  match hrp with
  | [] => Ok tt
  | c :: hrp => if negb (hrp_char c) then Err (InvalidHrpCharacter pos c) else hrp_loop (pos + len_utf8 c) hrp
  end.

Definition validate_hrp (hrp : list Z) : res Blech32Error unit := hrp_loop 0 hrp.

(** ** Encoding and decoding *)

(** [for &v in values { out.push(CHARSET[v as usize] as char) }] *)
Fixpoint push_chars (out : list Z) (values : bytes) : res Blech32Error (list Z) :=
  match values with
  | [] => Ok out
  | v :: values => let* c := index CHARSET v in push_chars (out ++ [c]) values
  end.

Definition encode (hrp : list Z) (data : bytes) : res Blech32Error (list Z) :=
  if bool_decide (hrp = []) then Err EmptyHrp
  else
    let* _ := validate_hrp hrp in
    let* _ := validate_case hrp in
    let* values_5bit := convert_bits data 8 5 true in
    let checksum := create_checksum hrp values_5bit in
    let out := hrp ++ [SEPARATOR] in
    let* out := push_chars out values_5bit in
    push_chars out checksum.

(** [input.find(c)]: what is before and after the first [c]. *)
Fixpoint split_at (c : Z) (s : list Z) : option (list Z * list Z) :=
  match s with
  | [] => None
  | x :: s => if x =? c then Some ([], s) else '(a, b) ← split_at c s; Some (x :: a, b)
  end.

(** [for (p, c) in data_str.char_indices()]; [p] is the offset in the input. *)
Fixpoint read_chars (p : Z) (s : list Z) : res Blech32Error bytes :=
  match s with
  | [] => Ok []
  | c :: s =>
      let* idx := ok_or (position (Z.eqb c) CHARSET) (InvalidCharacterInData p c) in
      let* rest := read_chars (p + len_utf8 c) s in
      Ok (u8 (Z.of_nat idx) :: rest)
  end.

Definition decode (input : list Z) : res Blech32Error (list Z * bytes) :=
  let* _ := validate_case input in
  let* (hrp, data_str) := ok_or (split_at SEPARATOR input) SeparatorMissing in
  let pos := str_len hrp in
  if pos <? 1 then Err EmptyHrp
  else if str_len data_str <? DATA_PORTION_MIN then Err (DataPortionTooShort DATA_PORTION_MIN (str_len data_str))
  else
    let* _ := validate_hrp hrp in
    let* data_5bit := read_chars (pos + 1) data_str in
    if negb (verify_checksum hrp data_5bit) then Err InvalidChecksum
    else
      let* n := usub (len data_5bit) CHECKSUM_LEN in
      let* payload_5bit := slice data_5bit 0 n in
      let* payload := convert_bits payload_5bit 5 8 false in
      Ok (hrp, payload).

(** The conformance vector of the format's registry. *)
Definition vector_payload : bytes := Z.of_nat <$> seq 0 33.
Definition vector_text : list Z := ascii "pivy_ecdh_p256_pub-qqqsyqcyq5rqwzqfpg9scrgwpugpzysnzs23v9ccrydpk8qarc0jqr9fwqu".

Example encode_vector : encode (ascii "pivy_ecdh_p256_pub") vector_payload = Ok vector_text.
Proof. vm_compute. reflexivity. Qed.

Example decode_vector : decode vector_text = Ok (ascii "pivy_ecdh_p256_pub", vector_payload).
Proof. vm_compute. reflexivity. Qed.

(** ** The checksum is linear

    The step of [polymod] is linear over GF(2) in the residue and the value. *)

(** Equality of numbers bit by bit. *)
Ltac bitwise :=
  apply Z.bits_inj'; intros ?n ?Hn;
  repeat (rewrite ?Z.lxor_spec, ?Z.land_spec, ?Z.bits_0; try rewrite Z.shiftl_spec by lia; try rewrite Z.shiftr_spec by lia);
  btauto.

Definition sel (b : bool) (g : Z) : Z := if b then g else 0.

Lemma sel_xorb a b g : sel (xorb a b) g = Z.lxor (sel a g) (sel b g).
Proof. destruct a, b; simpl; now rewrite ?Z.lxor_0_r, ?Z.lxor_nilpotent. Qed.

Lemma bit_test t i : (Z.land (Z.shiftr t i) 1 =? 1) = Z.testbit t i.
Proof.
  rewrite Z.testbit_odd. generalize (Z.shiftr t i). intros x. change 1 with (Z.ones 1) at 1.
  rewrite Z.land_ones by lia. change (2 ^ 1) with 2. rewrite Zmod_odd. now destruct (Z.odd x).
Qed.

Definition gsum (t : Z) : Z :=
  Z.lxor (sel (Z.testbit t 0) 0x3b6a57b2) (Z.lxor (sel (Z.testbit t 1) 0x26508e6d)
    (Z.lxor (sel (Z.testbit t 2) 0x1ea119fa) (Z.lxor (sel (Z.testbit t 3) 0x3d4233dd) (sel (Z.testbit t 4) 0x2a1462b3)))).

Lemma apply_generator_gsum t chk : apply_generator t chk = Z.lxor chk (gsum t).
Proof.
  unfold apply_generator, gsum, GENERATOR. cbn [zip zip_with foldl]. rewrite !bit_test.
  destruct (Z.testbit t 0), (Z.testbit t 1), (Z.testbit t 2), (Z.testbit t 3), (Z.testbit t 4);
    cbn [sel]; rewrite ?Z.lxor_0_l, ?Z.lxor_0_r, ?Z.lxor_assoc; reflexivity.
Qed.

Lemma gsum_lxor a b : gsum (Z.lxor a b) = Z.lxor (gsum a) (gsum b).
Proof. unfold gsum. rewrite !Z.lxor_spec, !sel_xorb. bitwise. Qed.

Definition shifted (chk : Z) : Z := u32_shl (Z.land chk 0x01ffffff) 5.

Lemma shifted_lxor a b : shifted (Z.lxor a b) = Z.lxor (shifted a) (shifted b).
Proof. unfold shifted, u32_shl. bitwise. Qed.

Lemma step_eq chk v : polymod_step chk v = Z.lxor (Z.lxor (shifted chk) v) (gsum (Z.shiftr chk 25)).
Proof. exact (apply_generator_gsum _ _). Qed.

Lemma step_lxor a b u v : polymod_step (Z.lxor a b) (Z.lxor u v) = Z.lxor (polymod_step a u) (polymod_step b v).
Proof.
  rewrite !step_eq, shifted_lxor, Z.shiftr_lxor, gsum_lxor. bitwise.
Qed.

Lemma fold_lxor us : forall vs a b,
  length us = length vs ->
  foldl polymod_step (Z.lxor a b) (zip_with Z.lxor us vs) = Z.lxor (foldl polymod_step a us) (foldl polymod_step b vs).
Proof.
  induction us as [|u us IH]; intros [|v vs] a b Hl; try discriminate; [reflexivity|].
  cbn [zip_with foldl]. rewrite step_lxor. apply IH. now injection Hl.
Qed.

(** *** Thirty bits *)

Definition below (n x : Z) : Prop := 0 <= x < 2 ^ n.

Lemma lxor_below n a b : 0 <= n -> below n a -> below n b -> below n (Z.lxor a b).
Proof.
  intros Hn Ha Hb. assert (H : Z.lxor a b = Z.land (Z.lxor a b) (Z.ones n)).
  { rewrite <- (Z.mod_small a (2 ^ n)), <- (Z.mod_small b (2 ^ n)) by assumption.
    rewrite <- !Z.land_ones by assumption. bitwise. }
  rewrite H, Z.land_ones by assumption. apply Z.mod_pos_bound, Z.pow_pos_nonneg; lia.
Qed.

Lemma gsum_below t : below 30 (gsum t).
Proof.
  unfold gsum. repeat (apply lxor_below; [lia| |]);
    match goal with |- below 30 (sel ?b _) => destruct b; split; vm_compute; congruence end.
Qed.

Lemma shifted_value chk : shifted chk = 32 * (chk mod 2 ^ 25).
Proof.
  unfold shifted, u32_shl. change 0x01ffffff with (Z.ones 25). change 0xFFFFFFFF with (Z.ones 32).
  rewrite !Z.land_ones, Z.shiftl_mul_pow2 by lia. pose proof (Z.mod_pos_bound chk (2 ^ 25) ltac:(lia)).
  rewrite Z.mod_small by lia. lia.
Qed.

Lemma step_below chk v : below 30 v -> below 30 (polymod_step chk v).
Proof.
  intros Hv. rewrite step_eq. apply lxor_below; [lia| |apply gsum_below]. apply lxor_below; [lia| |exact Hv].
  rewrite shifted_value. pose proof (Z.mod_pos_bound chk (2 ^ 25) ltac:(lia)). unfold below. lia.
Qed.

Lemma fold_below vs : Forall (below 30) vs -> forall c, below 30 c -> below 30 (foldl polymod_step c vs).
Proof. induction 1 as [|v vs Hv _ IH]; intros c Hc; [exact Hc|]. apply IH. now apply step_below. Qed.

(** A value enters below a residue that has not filled its thirty bits. *)
Lemma step_small chk v : below 25 chk -> below 5 v -> polymod_step chk v = 32 * chk + v.
Proof.
  intros Hc Hv. rewrite step_eq, shifted_value, Z.mod_small by exact Hc.
  unfold below in *. rewrite Z.shiftr_div_pow2, Z.div_small by lia. change (gsum 0) with 0. rewrite Z.lxor_0_r.
  assert (H0 : Z.land (32 * chk) v = 0).
  { apply Z.bits_inj'. intros n Hn. rewrite Z.bits_0, Z.land_spec. destruct (Z.ltb_spec n 5) as [Hlt|Hge].
    - replace (32 * chk) with (chk * 2 ^ 5) by lia. now rewrite Z.mul_pow2_bits_low by lia.
    - rewrite (Z.bits_above_log2 v n), andb_false_r; [reflexivity|lia|].
      destruct (Z.eq_dec v 0) as [->|]; [simpl; lia|]. apply Z.log2_lt_pow2; [lia|].
      apply Z.lt_le_trans with (2 ^ 5); [lia|apply Z.pow_le_mono_r; lia]. }
  now rewrite <- Z.add_nocarry_lxor.
Qed.

(** The number of a list of 5-bit digits. *)
Definition digits (ds : bytes) : Z := foldl (fun acc d => 32 * acc + d) 0 ds.

Lemma digits_snoc ds d : digits (ds ++ [d]) = 32 * digits ds + d.
Proof. unfold digits. now rewrite foldl_app. Qed.

Lemma digits_bound ds : Forall (below 5) ds -> below (5 * len ds) (digits ds).
Proof.
  induction ds as [|d ds IH] using rev_ind; intros H; [split; vm_compute; congruence|].
  apply Forall_app in H as [H1 H2]. inversion H2; subst. specialize (IH H1). rewrite digits_snoc, len_app.
  change (len [d]) with 1. unfold below in *. rewrite Z.mul_add_distr_l, Z.pow_add_r by (pose proof (len_nonneg ds); lia).
  change (2 ^ (5 * 1)) with 32. change (2 ^ 5) with 32 in *. lia.
Qed.

Lemma fold_small ds : (length ds <= 6)%nat -> Forall (below 5) ds -> foldl polymod_step 0 ds = digits ds.
Proof.
  induction ds as [|d ds IH] using rev_ind; intros Hl H; [reflexivity|].
  apply Forall_app in H as [H1 H2]. inversion H2; subst. rewrite length_app in Hl. simpl in Hl.
  rewrite foldl_app, digits_snoc, IH by (assumption || lia). simpl. apply step_small; [|assumption].
  pose proof (digits_bound ds H1) as Hb. unfold below in *. split; [lia|].
  apply Z.lt_le_trans with (1 := proj2 Hb). apply Z.pow_le_mono_r; unfold len; lia.
Qed.

(** *** No residue is lost *)

Lemma gsum_low : Forall (fun t => negb (Z.land (gsum t) 31 =? 0) || (t =? 0) = true) (Z.of_nat <$> seq 0 32).
Proof. apply Forall_forall. intros t. vm_compute. intuition (subst; reflexivity). Qed.

Lemma step_kernel chk : below 30 chk -> polymod_step chk 0 = 0 -> chk = 0.
Proof.
  intros Hc H. rewrite step_eq, Z.lxor_0_r in H. unfold below in Hc.
  set (t := Z.shiftr chk 25) in *.
  assert (Ht : 0 <= t < 32).
  { unfold t. rewrite Z.shiftr_div_pow2 by lia. split; [apply Z.div_pos; lia|apply Z.div_lt_upper_bound; lia]. }
  assert (Hlow : Z.land (gsum t) 31 = 0).
  { apply Z.lxor_eq in H. rewrite <- H. rewrite shifted_value. change 31 with (Z.ones 5).
    rewrite Z.land_ones by lia. change (2 ^ 5) with 32. rewrite Z.mul_comm. apply Z.mod_mul. lia. }
  assert (Ht0 : t = 0).
  { pose proof (proj1 (Forall_forall _ _) gsum_low t) as Hf.
    assert (Hin : t ∈ Z.of_nat <$> seq 0 32).
    { apply list_elem_of_fmap. exists (Z.to_nat t). split; [lia|]. apply elem_of_seq. lia. }
    apply list_elem_of_In in Hin. specialize (Hf Hin). cbn beta in Hf. rewrite Hlow in Hf. now apply Z.eqb_eq in Hf. }
  rewrite Ht0 in H. change (gsum 0) with 0 in H. rewrite Z.lxor_0_r, shifted_value in H.
  assert (Hs : chk / 2 ^ 25 = 0) by (rewrite <- Z.shiftr_div_pow2 by lia; exact Ht0).
  rewrite (Z.div_mod chk (2 ^ 25)) by lia. lia.
Qed.

Lemma zeros_kernel n : forall chk, below 30 chk -> foldl polymod_step chk (repeat 0 n) = 0 -> chk = 0.
Proof.
  induction n as [|n IH]; intros chk Hc H; [exact H|]. apply step_kernel; [exact Hc|].
  apply IH; [|exact H]. apply step_below. split; lia.
Qed.

(** *** The checksum the encoder adds *)

Lemma fold_zeros c vs :
  foldl polymod_step (foldl polymod_step c vs) (repeat 0 6) = foldl polymod_step c (vs ++ repeat 0 6).
Proof. now rewrite foldl_app. Qed.

(** The six groups of a thirty-bit number. *)
Definition groups (x : Z) : bytes := (fun p => Z.land (u8 (Z.shiftr x (5 * (5 - p)))) 0x1f) <$> [0; 1; 2; 3; 4; 5].

Lemma group_digit x k : 0 <= k -> Z.land (u8 (Z.shiftr x k)) 0x1f = (x / 2 ^ k) mod 32.
Proof.
  intros Hk. change 0x1f with (Z.ones 5). rewrite Z.land_ones, Z.shiftr_div_pow2 by lia. unfold u8.
  change (2 ^ 5) with 32. apply Z.mod_mod_divide. now exists 8.
Qed.

Lemma groups_spec x : below 30 x -> digits (groups x) = x /\ Forall (below 5) (groups x) /\ length (groups x) = 6%nat.
Proof.
  intros Hx. unfold groups. cbn [fmap list_fmap]. rewrite !group_digit by lia. split; [|split; [|reflexivity]].
  - unfold digits. cbn [foldl]. unfold below in Hx.
    change (5 * (5 - 0)) with 25. change (5 * (5 - 1)) with 20. change (5 * (5 - 2)) with 15.
    change (5 * (5 - 3)) with 10. change (5 * (5 - 4)) with 5. change (5 * (5 - 5)) with 0. rewrite Z.pow_0_r, Z.div_1_r.
    assert (E : forall k, 0 <= k -> x / 2 ^ k = 32 * (x / 2 ^ (k + 5)) + (x / 2 ^ k) mod 32).
    { intros k Hk. rewrite Z.pow_add_r, <- Z.div_div by lia. change (2 ^ 5) with 32. apply Z.div_mod. lia. }
    assert (H25 : (x / 2 ^ 25) mod 32 = x / 2 ^ 25).
    { apply Z.mod_small. split; [apply Z.div_pos; lia|apply Z.div_lt_upper_bound; lia]. }
    assert (E0 : x = 32 * (x / 2 ^ 5) + x mod 32) by (apply Z.div_mod; lia).
    assert (E5 : x / 2 ^ 5 = 32 * (x / 2 ^ 10) + (x / 2 ^ 5) mod 32) by exact (E 5 ltac:(lia)).
    assert (E10 : x / 2 ^ 10 = 32 * (x / 2 ^ 15) + (x / 2 ^ 10) mod 32) by exact (E 10 ltac:(lia)).
    assert (E15 : x / 2 ^ 15 = 32 * (x / 2 ^ 20) + (x / 2 ^ 15) mod 32) by exact (E 15 ltac:(lia)).
    assert (E20 : x / 2 ^ 20 = 32 * (x / 2 ^ 25) + (x / 2 ^ 20) mod 32) by exact (E 20 ltac:(lia)).
    rewrite H25. lia.
  - repeat constructor; apply Z.mod_pos_bound; lia.
Qed.

Lemma checksum_closes c vs :
  below 30 c -> Forall (below 30) vs ->
  foldl polymod_step c (vs ++ groups (Z.lxor (foldl polymod_step c (vs ++ repeat 0 6)) 1)) = 1.
Proof.
  intros Hc Hvs. set (P := foldl polymod_step c (vs ++ repeat 0 6)).
  assert (HP : below 30 P).
  { apply fold_below; [|exact Hc]. apply Forall_app. split; [exact Hvs|]. repeat constructor; lia. }
  assert (Hx : below 30 (Z.lxor P 1)) by (apply lxor_below; [lia|exact HP|split; lia]).
  destruct (groups_spec _ Hx) as (Hd & Hg & Hl). set (cs := groups (Z.lxor P 1)) in *.
  rewrite foldl_app. set (k := foldl polymod_step c vs).
  assert (Hsplit : foldl polymod_step k cs = Z.lxor (foldl polymod_step k (repeat 0 6)) (foldl polymod_step 0 cs)).
  { rewrite <- fold_lxor by (rewrite Hl; reflexivity). rewrite Z.lxor_0_r. reflexivity. }
  rewrite Hsplit, fold_small by (rewrite ?Hl; assumption || lia). rewrite Hd. unfold k. rewrite fold_zeros. fold P.
  rewrite <- Z.lxor_assoc, Z.lxor_nilpotent. apply Z.lxor_0_l.
Qed.


(** *** A short burst changes the residue *)

Lemma digits_zero ds : Forall (below 5) ds -> digits ds = 0 -> Forall (fun d => d = 0) ds.
Proof.
  induction ds as [|d ds IH] using rev_ind; intros H Hd; [constructor|].
  apply Forall_app in H as [H1 H2]. inversion H2; subst. rewrite digits_snoc in Hd.
  pose proof (digits_bound ds H1). unfold below in *. apply Forall_app. split; [apply IH; [assumption|lia]|].
  constructor; [lia|constructor].
Qed.

Lemma zip_self ds : zip_with Z.lxor ds ds = repeat 0 (length ds).
Proof. induction ds as [|d ds IH]; [reflexivity|]. simpl. now rewrite Z.lxor_nilpotent, IH. Qed.

Lemma zip_zero w : forall w', length w = length w' -> Forall (fun d => d = 0) (zip_with Z.lxor w w') -> w = w'.
Proof.
  induction w as [|x w IH]; intros [|y w'] Hl H; try discriminate; [reflexivity|].
  inversion H; subst. f_equal; [now apply Z.lxor_eq|]. apply IH; [now injection Hl|assumption].
Qed.

Lemma zip_below w : forall w', Forall (below 5) w -> Forall (below 5) w' -> Forall (below 5) (zip_with Z.lxor w w').
Proof.
  induction w as [|x w IH]; intros [|y w'] H H'; try constructor; inversion H; inversion H'; subst.
  - now apply lxor_below.
  - now apply IH.
Qed.

Lemma burst k w w' post :
  length w = length w' -> (length w <= 6)%nat -> Forall (below 5) w -> Forall (below 5) w' ->
  foldl polymod_step k (w ++ post) = foldl polymod_step k (w' ++ post) -> w = w'.
Proof.
  intros Hl H6 Hw Hw' He. apply zip_zero; [exact Hl|].
  pose proof (zip_below w w' Hw Hw') as Hz.
  assert (Hlz : length (zip_with Z.lxor w w') = length w) by (rewrite length_zip_with; lia).
  apply digits_zero; [exact Hz|]. rewrite <- fold_small by (assumption || lia).
  apply (zeros_kernel (length post)).
  { apply fold_below; [|split; lia]. apply (list.Forall_impl _ _ _ Hz). unfold below. intros x Hx.
    split; [lia|]. apply Z.lt_trans with (2 ^ 5); [lia|reflexivity]. }
  rewrite <- zip_self, <- foldl_app, <- zip_with_app by exact Hl.
  transitivity (foldl polymod_step (Z.lxor k k) (zip_with Z.lxor (w ++ post) (w' ++ post))); [now rewrite Z.lxor_nilpotent|].
  rewrite fold_lxor by (rewrite !length_app; lia). rewrite He. apply Z.lxor_nilpotent.
Qed.

(** ** Characters *)

Definition chars_of (vs : bytes) : list Z := (fun v => nth (Z.to_nat v) CHARSET 0) <$> vs.

Lemma charset_index v : below 5 v -> index (E := Blech32Error) CHARSET v = Ok (nth (Z.to_nat v) CHARSET 0).
Proof.
  intros Hv. assert (H : Forall (fun v => index (E := Blech32Error) CHARSET v = Ok (nth (Z.to_nat v) CHARSET 0)) (Z.of_nat <$> seq 0 32)).
  { apply Forall_forall. intros t. vm_compute. intuition (subst; reflexivity). }
  rewrite Forall_forall in H. apply H. apply list_elem_of_In, list_elem_of_fmap.
  exists (Z.to_nat v). unfold below in Hv. split; [lia|]. apply elem_of_seq. lia.
Qed.

Lemma push_chars_spec vs : forall out, Forall (below 5) vs -> push_chars out vs = Ok (out ++ chars_of vs).
Proof.
  induction vs as [|v vs IH]; intros out H; cbn [push_chars]; [now rewrite app_nil_r|].
  inversion H; subst. rewrite charset_index by assumption. cbn [res_bind]. rewrite IH by assumption.
  now rewrite <- app_assoc.
Qed.

(** The characters of the alphabet: one per value, none of them a separator, an
    uppercase letter or anything that takes two bytes. *)
Definition alphabet_ok (v : Z) : bool :=
  let c := nth (Z.to_nat v) CHARSET 0 in
  bool_decide (position (Z.eqb c) CHARSET = Some (Z.to_nat v)) && negb (c =? SEPARATOR)
  && negb (is_ascii_uppercase c) && (len_utf8 c =? 1).

Lemma alphabet v : below 5 v -> alphabet_ok v = true.
Proof.
  intros Hv. assert (H : forallb alphabet_ok (Z.of_nat <$> seq 0 32) = true) by (vm_compute; reflexivity).
  rewrite forallb_forall in H. apply H. apply list_elem_of_In, list_elem_of_fmap.
  exists (Z.to_nat v). unfold below in Hv. split; [lia|]. apply elem_of_seq. lia.
Qed.

Lemma read_chars_of vs : forall p, Forall (below 5) vs -> read_chars p (chars_of vs) = Ok vs.
Proof.
  induction vs as [|v vs IH]; intros p H; [reflexivity|]. inversion H; subst.
  pose proof (alphabet v ltac:(assumption)) as Ha. unfold alphabet_ok in Ha.
  apply andb_true_iff in Ha as [[[Ha _]%andb_true_iff _]%andb_true_iff _]. apply bool_decide_eq_true in Ha.
  unfold chars_of. cbn [fmap list_fmap read_chars]. rewrite Ha. cbn [ok_or res_bind].
  unfold chars_of in IH. rewrite IH by assumption. cbn [res_bind].
  unfold below in *. rewrite Z2Nat.id by lia. rewrite u8_small by (unfold byte_ok; lia). reflexivity.
Qed.

(** What was read was written in the alphabet. *)
Lemma read_chars_inv s : forall p vs, read_chars p s = Ok vs -> s = chars_of vs /\ Forall (below 5) vs.
Proof.
  induction s as [|c s IH]; intros p vs; cbn [read_chars]; [now intros [= <-]|].
  intros H. apply res_bind_Ok_inv in H as (i & Hi & H). apply res_bind_Ok_inv in H as (rest & Hr & H).
  injection H as <-. destruct (IH _ _ Hr) as [-> Hb].
  destruct (position (Z.eqb c) CHARSET) as [j|] eqn:Hj; [|discriminate]. injection Hi as ->.
  destruct (position_hit _ _ _ Hj) as (x & Hx & Hc). apply Z.eqb_eq in Hc. subst x.
  assert (Hi : (i < 32)%nat) by (apply lookup_lt_Some in Hx; exact Hx).
  assert (Hbi : below 5 (Z.of_nat i)) by (unfold below; lia).
  split; [|constructor; [|exact Hb]]; rewrite u8_small by (unfold byte_ok; lia); [|exact Hbi].
  unfold chars_of. cbn [fmap list_fmap]. rewrite Nat2Z.id. f_equal. symmetry. now apply nth_lookup_Some.
Qed.

(** ** Bit groups *)

(** The number of a list of [n]-bit groups. *)
Definition gvalue (n : Z) (gs : bytes) : Z := foldl (fun acc d => 2 ^ n * acc + d) 0 gs.

Lemma gvalue_snoc n gs d : gvalue n (gs ++ [d]) = 2 ^ n * gvalue n gs + d.
Proof. unfold gvalue. now rewrite foldl_app. Qed.

Lemma gvalue_inj n gs : forall gs',
  length gs = length gs' -> Forall (below n) gs -> Forall (below n) gs' -> gvalue n gs = gvalue n gs' -> gs = gs'.
Proof.
  induction gs as [|d gs IH] using rev_ind; intros gs' Hl H H' He; [now destruct gs'|].
  destruct gs' as [|d' gs' _] using rev_ind; [rewrite length_app in Hl; simpl in Hl; lia|].
  rewrite !length_app in Hl. simpl in Hl. apply Forall_app in H as [H1 H2]. apply Forall_app in H' as [H1' H2'].
  inversion H2; inversion H2'; subst. rewrite !gvalue_snoc in He. unfold below in *.
  assert (Hd : gvalue n gs = gvalue n gs' /\ d = d') by (apply (Z.div_mod_unique (2 ^ n)); lia).
  destruct Hd as [Hg ->]. f_equal. apply IH; (assumption || lia).
Qed.

Lemma shl_value a n : 0 <= n <= 32 -> u32_shl a n = 2 ^ n * (a mod 2 ^ (32 - n)).
Proof.
  intros Hn. unfold u32_shl. change 0xFFFFFFFF with (Z.ones 32). rewrite Z.land_ones, Z.shiftl_mul_pow2 by lia.
  rewrite Z.mul_comm. rewrite <- Z.mul_mod_distr_l by (pose proof (Z.pow_pos_nonneg 2 n); pose proof (Z.pow_pos_nonneg 2 (32 - n)); lia).
  f_equal. rewrite <- Z.pow_add_r by lia. f_equal. lia.
Qed.

Lemma lor_low a n v : 0 <= n -> below n v -> Z.lor (2 ^ n * a) v = 2 ^ n * a + v.
Proof.
  intros Hn Hv. assert (H0 : Z.land (2 ^ n * a) v = 0).
  { apply Z.bits_inj'. intros i Hi. rewrite Z.bits_0, Z.land_spec. destruct (Z.ltb_spec i n) as [Hlt|Hge].
    - rewrite Z.mul_comm, Z.mul_pow2_bits_low by lia. reflexivity.
    - unfold below in Hv. rewrite <- (Z.mod_small v (2 ^ n)), Z.mod_pow2_bits_high by lia. apply andb_false_r. }
  now rewrite <- Z.lxor_lor, <- Z.add_nocarry_lxor by exact H0.
Qed.

Lemma pow2_pos n : 0 <= n -> 0 < 2 ^ n.
Proof. intros. now apply Z.pow_pos_nonneg. Qed.

(** One step of the accumulator: the pending bits followed by the new ones. *)
Lemma acc_step acc bits from v :
  0 <= bits -> 0 <= from -> bits + from <= 32 -> below from v ->
  Z.lor (u32_shl acc from) v mod 2 ^ (bits + from) = 2 ^ from * (acc mod 2 ^ bits) + v.
Proof.
  intros Hb Hf Hs Hv. rewrite shl_value, lor_low by (assumption || lia).
  pose proof (pow2_pos from Hf). pose proof (pow2_pos bits Hb). unfold below in Hv.
  rewrite Z.pow_add_r, (Z.mul_comm (2 ^ bits)), Z.rem_mul_r by lia.
  rewrite (Z.add_comm _ v), (Z.mul_comm (2 ^ from)), Z.mod_add, Z.div_add, Z.mod_small, Z.div_small by lia.
  rewrite Z.add_0_l. rewrite Z.mod_mod_divide; [lia|].
  exists (2 ^ (32 - from - bits)). rewrite <- Z.pow_add_r by lia. f_equal. lia.
Qed.

(** One group off the accumulator. *)
Lemma group_value acc bits n :
  0 <= bits -> 0 <= n <= 8 ->
  u8 (Z.land (Z.shiftr acc bits) (Z.shiftl 1 n - 1)) = (acc / 2 ^ bits) mod 2 ^ n.
Proof.
  intros Hb Hn. rewrite Z.shiftl_1_l. replace (2 ^ n - 1) with (Z.ones n) by (rewrite Z.ones_equiv; lia).
  rewrite Z.land_ones, Z.shiftr_div_pow2 by lia. unfold u8. apply Z.mod_small.
  pose proof (Z.mod_pos_bound (acc / 2 ^ bits) (2 ^ n) ltac:(apply pow2_pos; lia)).
  pose proof (Z.pow_le_mono_r 2 n 8 ltac:(lia) ltac:(lia)). lia.
Qed.

Lemma mod_split acc n bits : 0 <= n -> 0 <= bits ->
  acc mod 2 ^ (bits + n) = 2 ^ bits * ((acc / 2 ^ bits) mod 2 ^ n) + acc mod 2 ^ bits.
Proof.
  intros Hn Hb. rewrite Z.pow_add_r, Z.rem_mul_r by (try apply Z.pow_nonzero; try apply pow2_pos; lia). lia.
Qed.

Lemma emit_spec fuel n acc : forall bits out,
  1 <= n <= 8 -> 0 <= bits -> (Z.to_nat bits <= fuel)%nat ->
  exists bits' gs, emit_groups fuel n acc bits out = (bits', out ++ gs) /\ 0 <= bits' < n /\ Forall (below n) gs /\
    bits = n * len gs + bits' /\
    forall a, a * 2 ^ bits + acc mod 2 ^ bits
      = foldl (fun acc d => 2 ^ n * acc + d) a gs * 2 ^ bits' + acc mod 2 ^ bits'.
Proof.
  induction fuel as [|fuel IH]; intros bits out Hn Hb Hf; cbn [emit_groups].
  - exists bits, []. rewrite app_nil_r. change (len (@nil Z)) with 0. assert (bits = 0) by lia. subst. repeat split; try lia. constructor.
  - destruct (n <=? bits) eqn:Hle; bprop.
    + destruct (IH (bits - n) (out ++ [u8 (Z.land (Z.shiftr acc (bits - n)) (Z.shiftl 1 n - 1))]))
        as (bits' & gs & He & Hb' & Hgs & Hlen & Hv); [lia|lia|lia|].
      rewrite He. rewrite <- app_assoc. eexists bits', (_ :: gs). split; [reflexivity|]. split; [exact Hb'|].
      rewrite group_value by lia. split; [constructor; [apply Z.mod_pos_bound, pow2_pos; lia|exact Hgs]|].
      split; [rewrite len_cons; lia|]. intros a. cbn [foldl]. rewrite <- Hv.
      replace bits with ((bits - n) + n) at 1 2 by lia. rewrite mod_split by lia.
      rewrite Z.pow_add_r by lia. ring.
    + exists bits, []. rewrite app_nil_r. change (len (@nil Z)) with 0. repeat split; try lia. constructor.
Qed.

Lemma convert_spec from n : 1 <= from <= 8 -> 1 <= n <= 8 -> forall data idx acc bits out,
  Forall (below from) data -> 0 <= bits < n -> Forall (below n) out ->
  exists acc' bits' out', convert_groups from n idx acc bits out data = Ok (acc', bits', out') /\
    0 <= bits' < n /\ Forall (below n) out' /\ n * len out' + bits' = n * len out + bits + from * len data /\
    gvalue n out' * 2 ^ bits' + acc' mod 2 ^ bits'
    = foldl (fun a d => 2 ^ from * a + d) (gvalue n out * 2 ^ bits + acc mod 2 ^ bits) data.
Proof.
  intros Hf Hn. induction data as [|v data IH]; intros idx acc bits out Hd Hb Ho; cbn [convert_groups].
  - exists acc, bits, out. change (len (@nil Z)) with 0. repeat split; (assumption || lia).
  - inversion Hd as [|? ? Hv Hd']; subst. unfold below in Hv.
    rewrite Z.shiftr_div_pow2, (Z.div_small v) by lia. cbn [Z.eqb negb].
    destruct (emit_spec (Z.to_nat (bits + from)) n (Z.lor (u32_shl acc from) v) (bits + from) out)
      as (bits' & gs & He & Hb' & Hgs & Hlen & Hval); [lia|lia|lia|].
    rewrite He. destruct (IH (idx + 1) (Z.lor (u32_shl acc from) v) bits' (out ++ gs) Hd' Hb')
      as (acc2 & bits2 & out2 & Hr & Hb2 & Ho2 & Hl2 & Hv2); [now apply Forall_app|].
    exists acc2, bits2, out2. split; [exact Hr|]. split; [exact Hb2|]. split; [exact Ho2|].
    split; [rewrite Hl2, len_app, len_cons; lia|]. rewrite Hv2. cbn [foldl]. f_equal.
    specialize (Hval (gvalue n out)). rewrite acc_step in Hval by (unfold below; lia).
    unfold gvalue at 1. rewrite foldl_app. fold (gvalue n out). rewrite <- Hval.
    rewrite Z.pow_add_r by lia. ring.
Qed.

Lemma foldl_gvalue n data : foldl (fun a d => 2 ^ n * a + d) (gvalue n [] * 2 ^ 0 + 0 mod 2 ^ 0) data = gvalue n data.
Proof. reflexivity. Qed.

(** Groups of five with zero bits at the end. *)
Lemma convert_up data :
  bytes_ok data ->
  exists vs p, convert_bits data 8 5 true = Ok vs /\ Forall (below 5) vs /\ 0 <= p < 5 /\
    5 * len vs = 8 * len data + p /\ gvalue 5 vs = 2 ^ p * gvalue 8 data.
Proof.
  intros Hd. assert (H8 : Forall (below 8) data) by exact Hd. unfold convert_bits.
  destruct (convert_spec 8 5 ltac:(lia) ltac:(lia) data 0 0 0 [] H8 ltac:(lia) ltac:(constructor))
    as (acc & bits & out & He & Hb & Ho & Hl & Hv).
  rewrite He. cbn [res_bind]. change (gvalue 5 [] * 2 ^ 0 + 0 mod 2 ^ 0) with 0 in Hv. change (len (@nil Z)) with 0 in Hl.
  change (foldl (fun a d : Z => 2 ^ 8 * a + d) 0 data) with (gvalue 8 data) in Hv.
  destruct (0 <? bits) eqn:H0; bprop.
  - exists (out ++ [u8 (Z.land (u32_shl acc (5 - bits)) (Z.shiftl 1 5 - 1))]), (5 - bits). split; [reflexivity|].
    assert (Hg : u8 (Z.land (u32_shl acc (5 - bits)) (Z.shiftl 1 5 - 1)) = 2 ^ (5 - bits) * (acc mod 2 ^ bits)).
    { change (Z.shiftl 1 5 - 1) with (Z.ones 5). rewrite Z.land_ones, shl_value by lia.
      pose proof (pow2_pos (5 - bits) ltac:(lia)). pose proof (pow2_pos bits ltac:(lia)).
      replace (2 ^ 5) with (2 ^ (5 - bits) * 2 ^ bits) by (rewrite <- Z.pow_add_r by lia; f_equal; lia).
      rewrite Z.mul_mod_distr_l, Z.mod_mod_divide by (try (exists (2 ^ (32 - (5 - bits) - bits)); rewrite <- Z.pow_add_r by lia; f_equal); lia).
      apply u8_small. unfold byte_ok. pose proof (Z.mod_pos_bound acc (2 ^ bits) ltac:(lia)).
      assert (2 ^ (5 - bits) * 2 ^ bits = 32) by (rewrite <- Z.pow_add_r by lia; replace (5 - bits + bits) with 5 by lia; reflexivity). nia. }
    rewrite Hg. pose proof (pow2_pos (5 - bits) ltac:(lia)) as P1. pose proof (pow2_pos bits ltac:(lia)) as P2.
    assert (P3 : 2 ^ (5 - bits) * 2 ^ bits = 32) by (rewrite <- Z.pow_add_r by lia; replace (5 - bits + bits) with 5 by lia; reflexivity).
    split; [apply Forall_app; split; [exact Ho|constructor; [|constructor]]|].
    { unfold below. change (2 ^ 5) with 32. pose proof (Z.mod_pos_bound acc (2 ^ bits) ltac:(lia)). nia. }
    split; [lia|]. split; [rewrite len_app; change (len [_]) with 1; lia|].
    rewrite gvalue_snoc, <- Hv. change (2 ^ 5) with 32. rewrite <- P3. ring.
  - assert (bits = 0) by lia. subst bits. exists out, 0. split; [reflexivity|]. split; [exact Ho|]. split; [lia|].
    split; [lia|]. rewrite <- Hv, Z.pow_0_r, Z.mod_1_r. ring.
Qed.

Lemma convert_down data vs p :
  bytes_ok data -> Forall (below 5) vs -> 0 <= p < 5 ->
  5 * len vs = 8 * len data + p -> gvalue 5 vs = 2 ^ p * gvalue 8 data ->
  convert_bits vs 5 8 false = Ok data.
Proof.
  intros Hd Hvs Hp Hl Hval. unfold convert_bits.
  destruct (convert_spec 5 8 ltac:(lia) ltac:(lia) vs 0 0 0 [] Hvs ltac:(lia) ltac:(constructor))
    as (acc & bits & out & He & Hb & Ho & Hlo & Hv).
  rewrite He. cbn [res_bind]. change (gvalue 8 [] * 2 ^ 0 + 0 mod 2 ^ 0) with 0 in Hv. change (len (@nil Z)) with 0 in Hlo.
  change (foldl (fun a d : Z => 2 ^ 5 * a + d) 0 vs) with (gvalue 5 vs) in Hv. rewrite Hval in Hv.
  assert (Hbp : bits = p /\ len out = len data) by lia. destruct Hbp as [-> Hlen].
  pose proof (pow2_pos p ltac:(lia)) as Pp. pose proof (Z.mod_pos_bound acc (2 ^ p) Pp) as Hm.
  assert (Hz : gvalue 8 out = gvalue 8 data /\ acc mod 2 ^ p = 0).
  { apply (Z.div_mod_unique (2 ^ p)); lia. }
  destruct Hz as [Hg Hz]. rewrite (proj2 (Z.leb_gt 5 p)) by lia.
  assert (Hpad : Z.land (u32_shl acc (8 - p)) (Z.shiftl 1 8 - 1) = 0).
  { change (Z.shiftl 1 8 - 1) with (Z.ones 8). rewrite Z.land_ones, shl_value by lia.
    pose proof (pow2_pos (8 - p) ltac:(lia)).
    replace (2 ^ 8) with (2 ^ (8 - p) * 2 ^ p) by (rewrite <- Z.pow_add_r by lia; f_equal; lia).
    rewrite Z.mul_mod_distr_l, Z.mod_mod_divide by (try (exists (2 ^ (32 - (8 - p) - p)); rewrite <- Z.pow_add_r by lia; f_equal); lia).
    rewrite Hz. lia. }
  rewrite Hpad. cbn [Z.eqb negb]. f_equal. apply (gvalue_inj 8); [unfold len in Hlen; lia|exact Ho|exact Hd|exact Hg].
Qed.

(** ** The text *)

Lemma case_loop_ok s : forall l u, case_loop l u s = Ok tt <-> u = false /\ Forall (fun c => is_ascii_uppercase c = false) s.
Proof.
  induction s as [|c s IH]; intros l u; cbn [case_loop].
  - destruct u; [split; [discriminate|now intros [? _]]|]. split; [|reflexivity]. intros _. split; [reflexivity|constructor].
  - rewrite Forall_cons_iff. destruct (is_ascii_lowercase c) eqn:Hl.
    + assert (is_ascii_uppercase c = false) as ->.
      { unfold is_ascii_lowercase, is_ascii_uppercase, between in *. apply andb_true_iff in Hl as [H1 H2].
        apply andb_false_iff. bprop. right. apply Z.leb_gt. lia. }
      destruct u; cbn [andb]; [split; [discriminate|now intros [? _]]|]. rewrite IH. intuition.
    + destruct (is_ascii_uppercase c) eqn:Hu.
      * split; [|now intros (_ & ? & _)]. destruct l; cbn [andb]; [discriminate|]. rewrite IH. now intros [? _].
      * destruct (l && u) eqn:Hlu; [|rewrite IH; intuition]. apply andb_true_iff in Hlu as [-> ->].
        split; [discriminate|now intros [? _]].
Qed.

Lemma validate_case_ok s : validate_case s = Ok tt <-> Forall (fun c => is_ascii_uppercase c = false) s.
Proof. unfold validate_case. rewrite case_loop_ok. intuition. Qed.

Lemma hrp_loop_ok s : forall p, hrp_loop p s = Ok tt <-> Forall (fun c => hrp_char c = true) s.
Proof.
  induction s as [|c s IH]; intros p; cbn [hrp_loop]; [split; [constructor|reflexivity]|].
  rewrite Forall_cons_iff. destruct (hrp_char c); cbn [negb]; [rewrite IH; intuition|]. split; [discriminate|now intros [? _]].
Qed.

Lemma hrp_char_range c : hrp_char c = true -> 48 <= c < 128.
Proof.
  unfold hrp_char, is_ascii_alphanumeric, is_ascii_lowercase, is_ascii_uppercase, is_ascii_digit, between.
  intros H. repeat (apply orb_true_iff in H as [H|H]); try (apply andb_true_iff in H as [? ?]); bprop; lia.
Qed.

Lemma as_bytes_hrp hrp : Forall (fun c => hrp_char c = true) hrp -> as_bytes hrp = hrp.
Proof.
  induction 1 as [|c hrp Hc _ IH]; [reflexivity|]. unfold as_bytes in *. cbn [mbind list_bind]. rewrite IH.
  unfold encode_utf8. apply hrp_char_range in Hc. now rewrite (proj2 (Z.ltb_lt c 0x80)) by lia.
Qed.

Lemma expand_below hrp : Forall (fun c => hrp_char c = true) hrp -> Forall (below 30) (hrp_expand hrp).
Proof.
  intros H. unfold hrp_expand. case_bool_decide; [constructor|]. rewrite as_bytes_hrp by exact H.
  assert (Hl : Forall (fun c => 0 <= c < 256) (to_ascii_lowercase <$> hrp)).
  { apply Forall_fmap. apply (list.Forall_impl _ _ _ H). intros c Hc. apply hrp_char_range in Hc.
    unfold to_ascii_lowercase. simpl. destruct (is_ascii_uppercase c) eqn:Hu; [|lia].
    unfold is_ascii_uppercase, between in Hu. apply andb_true_iff in Hu as [? ?]. bprop. lia. }
  apply Forall_app. split; [|constructor; [unfold below; lia|]]; apply Forall_fmap; apply (list.Forall_impl _ _ _ Hl);
    intros c Hc; unfold below; simpl.
  - rewrite Z.shiftr_div_pow2 by lia. split; [apply Z.div_pos; lia|].
    apply Z.div_lt_upper_bound; lia.
  - change 31 with (Z.ones 5). rewrite Z.land_ones by lia. pose proof (Z.mod_pos_bound c (2 ^ 5) ltac:(lia)). lia.
Qed.

Lemma checksum_verifies hrp vs :
  Forall (fun c => hrp_char c = true) hrp -> Forall (below 5) vs ->
  Forall (below 5) (create_checksum hrp vs) /\ length (create_checksum hrp vs) = 6%nat /\
  verify_checksum hrp (vs ++ create_checksum hrp vs) = true.
Proof.
  intros Hh Hv. assert (Hall : Forall (below 30) (hrp_expand hrp ++ vs)).
  { apply Forall_app. split; [now apply expand_below|]. apply (list.Forall_impl _ _ _ Hv). unfold below.
    intros x Hx. split; [lia|]. apply Z.lt_trans with (2 ^ 5); [lia|reflexivity]. }
  assert (H1 : below 30 1) by (split; lia).
  assert (Hp : below 30 (Z.lxor (polymod ((hrp_expand hrp ++ vs) ++ repeat 0 6)) 1)).
  { apply lxor_below; [lia| |exact H1]. apply fold_below; [|exact H1]. apply Forall_app. split; [exact Hall|].
    repeat constructor; lia. }
  destruct (groups_spec _ Hp) as (_ & Hg & Hl).
  change (groups (Z.lxor (polymod ((hrp_expand hrp ++ vs) ++ repeat 0 6)) 1)) with (create_checksum hrp vs) in Hg, Hl.
  split; [exact Hg|]. split; [exact Hl|]. unfold verify_checksum. apply Z.eqb_eq. rewrite app_assoc.
  exact (checksum_closes 1 (hrp_expand hrp ++ vs) H1 Hall).
Qed.

Lemma split_at_spec c a b : ~ (In c a) -> split_at c (a ++ c :: b) = Some (a, b).
Proof.
  induction a as [|x a IH]; intros Ha; cbn [app split_at]; [now rewrite Z.eqb_refl|].
  rewrite (proj2 (Z.eqb_neq x c)) by (intros ->; apply Ha; now left). rewrite IH by (intros H; apply Ha; now right). reflexivity.
Qed.

Lemma str_len_ge s : len s <= str_len s.
Proof.
  induction s as [|c s IH]; [reflexivity|]. rewrite len_cons. cbn [str_len foldr]. fold (str_len s).
  unfold len_utf8. repeat case_match; lia.
Qed.

Lemma chars_no_upper vs : Forall (below 5) vs -> Forall (fun c => is_ascii_uppercase c = false) (chars_of vs).
Proof.
  intros H. apply Forall_fmap. apply (list.Forall_impl _ _ _ H). intros v Hv. simpl.
  pose proof (alphabet v Hv) as Ha. unfold alphabet_ok in Ha.
  apply andb_true_iff in Ha as [[_ Ha]%andb_true_iff _]. now apply negb_true_iff in Ha.
Qed.

Lemma hrp_no_separator hrp : Forall (fun c => hrp_char c = true) hrp -> ~ In SEPARATOR hrp.
Proof. intros H Hin. rewrite Forall_forall in H. specialize (H _ Hin). discriminate. Qed.

Lemma hrp_validated hrp : validate_hrp hrp = Ok tt -> Forall (fun c => hrp_char c = true) hrp.
Proof. apply hrp_loop_ok. Qed.

(** What the encoder writes. *)
Lemma encode_text hrp data :
  hrp <> [] -> validate_hrp hrp = Ok tt -> validate_case hrp = Ok tt -> bytes_ok data ->
  exists vs p, encode hrp data = Ok (hrp ++ SEPARATOR :: chars_of (vs ++ create_checksum hrp vs)) /\
    Forall (below 5) vs /\ 0 <= p < 5 /\ 5 * len vs = 8 * len data + p /\ gvalue 5 vs = 2 ^ p * gvalue 8 data.
Proof.
  intros Hne Hh Hc Hd. destruct (convert_up data Hd) as (vs & p & Hconv & Hvs & Hp & Hl & Hg).
  destruct (checksum_verifies hrp vs (hrp_validated hrp Hh) Hvs) as (Hcs & _ & _).
  exists vs, p. split; [|auto]. unfold encode. rewrite bool_decide_false by exact Hne. rewrite Hh, Hc, Hconv. cbn [res_bind].
  rewrite push_chars_spec by exact Hvs. cbn [res_bind]. rewrite push_chars_spec by exact Hcs.
  unfold chars_of. rewrite fmap_app, <- !app_assoc. reflexivity.
Qed.

(** What the decoder reads. *)
Lemma decode_text hrp vs cs data :
  hrp <> [] -> validate_hrp hrp = Ok tt -> validate_case hrp = Ok tt ->
  Forall (below 5) vs -> Forall (below 5) cs -> length cs = 6%nat -> (1 <= length vs)%nat ->
  verify_checksum hrp (vs ++ cs) = true -> convert_bits vs 5 8 false = Ok data ->
  decode (hrp ++ SEPARATOR :: chars_of (vs ++ cs)) = Ok (hrp, data).
Proof.
  intros Hne Hh Hc Hvs Hcs Hl Hn Hv Hconv.
  assert (Hall : Forall (below 5) (vs ++ cs)) by now apply Forall_app.
  assert (Hcase : validate_case (hrp ++ SEPARATOR :: chars_of (vs ++ cs)) = Ok tt).
  { apply validate_case_ok. apply Forall_app. split; [now apply validate_case_ok|].
    constructor; [reflexivity|now apply chars_no_upper]. }
  assert (Hpos : 1 <= str_len hrp).
  { pose proof (str_len_ge hrp). destruct hrp; [contradiction|]. rewrite len_cons in *. pose proof (len_nonneg hrp). lia. }
  assert (Hlen : 7 <= str_len (chars_of (vs ++ cs))).
  { pose proof (str_len_ge (chars_of (vs ++ cs))) as Hg. unfold len, chars_of in Hg. rewrite length_fmap, length_app in Hg.
    unfold chars_of. lia. }
  unfold decode. rewrite Hcase. cbn [res_bind].
  rewrite split_at_spec by (apply hrp_no_separator, hrp_validated, Hh). cbn [ok_or res_bind].
  rewrite (proj2 (Z.ltb_ge _ 1)) by lia. unfold DATA_PORTION_MIN. rewrite (proj2 (Z.ltb_ge _ 7)) by lia.
  rewrite Hh. cbn [res_bind]. rewrite read_chars_of by exact Hall. cbn [res_bind]. rewrite Hv. cbn [negb].
  unfold CHECKSUM_LEN. rewrite len_app. assert (len cs = 6) as -> by (unfold len; lia). pose proof (len_nonneg vs).
  rewrite usub_Ok by lia. cbn [res_bind]. replace (len vs + 6 - 6) with (0 + len vs) by lia.
  rewrite (slice_app 0 (vs ++ cs) vs cs) by (reflexivity || (rewrite len_app; pose proof (len_nonneg cs); lia)).
  cbn [res_bind]. now rewrite Hconv.
Qed.

Lemma decode_inv s hrp data :
  decode s = Ok (hrp, data) -> exists d vs, split_at SEPARATOR s = Some (hrp, d) /\ read_chars (str_len hrp + 1) d = Ok vs /\
    validate_hrp hrp = Ok tt /\ verify_checksum hrp vs = true.
Proof.
  unfold decode. intros H. apply res_bind_Ok_inv in H as (? & _ & H). apply res_bind_Ok_inv in H as ([h d] & Hs & H).
  destruct (str_len h <? 1); [discriminate|]. destruct (_ <? DATA_PORTION_MIN); [discriminate|].
  apply res_bind_Ok_inv in H as ([] & Hh & H). apply res_bind_Ok_inv in H as (vs & Hr & H).
  destruct (verify_checksum h vs) eqn:Hv; cbn [negb] in H; [|discriminate].
  apply res_bind_Ok_inv in H as (? & _ & H). apply res_bind_Ok_inv in H as (? & _ & H). apply res_bind_Ok_inv in H as (? & _ & H).
  injection H as <- _. destruct (split_at SEPARATOR s) as [[a b]|]; [|discriminate]. injection Hs as -> ->. eauto 6.
Qed.

Lemma chars_of_app_inv a b vs :
  a ++ b = chars_of vs -> exists va vb, vs = va ++ vb /\ a = chars_of va /\ b = chars_of vb.
Proof. intros H. symmetry in H. apply fmap_app_inv in H as (va & vb & -> & -> & ->). eauto. Qed.

Lemma chars_of_inj vs vs' : Forall (below 5) vs -> Forall (below 5) vs' -> chars_of vs = chars_of vs' -> vs = vs'.
Proof.
  intros H H' He. pose proof (read_chars_of vs 0 H) as H1. rewrite He, (read_chars_of vs' 0 H') in H1. now injection H1.
Qed.

(** *** No text makes the decoder panic *)

Lemma convert_groups_no_panic from n data : forall idx acc bits out, no_panic (convert_groups from n idx acc bits out data).
Proof.
  induction data as [|v data IH]; intros idx acc bits out; cbn [convert_groups]; [auto with panic|].
  destruct (negb _); [auto with panic|]. destruct (emit_groups _ _ _ _ _) as [b o]. apply IH.
Qed.

Lemma convert_bits_no_panic data from n pad : no_panic (convert_bits data from n pad).
Proof.
  unfold convert_bits. apply no_panic_bind; [apply convert_groups_no_panic|]. intros [[acc bits] out] _.
  destruct pad; [auto with panic|]. destruct (_ <=? _); [auto with panic|]. destruct (negb _); auto with panic.
Qed.

Lemma case_loop_no_panic s : forall l u, no_panic (case_loop l u s).
Proof.
  induction s as [|c s IH]; intros l u; cbn [case_loop]; [destruct u; auto with panic|].
  destruct (if is_ascii_lowercase c then _ else _) as [l' u']. destruct (_ && _); [auto with panic|apply IH].
Qed.

Lemma hrp_loop_no_panic s : forall p, no_panic (hrp_loop p s).
Proof.
  induction s as [|c s IH]; intros p; cbn [hrp_loop]; [auto with panic|]. destruct (negb _); [auto with panic|apply IH].
Qed.

Lemma read_chars_no_panic s : forall p, no_panic (read_chars p s).
Proof.
  induction s as [|c s IH]; intros p; cbn [read_chars]; [auto with panic|].
  apply no_panic_bind; [auto with panic|]. intros i _. apply no_panic_bind; [apply IH|auto with panic].
Qed.

(** A character of the alphabet is one byte. *)
Lemma chars_of_str_len vs : Forall (below 5) vs -> str_len (chars_of vs) = len vs.
Proof.
  induction 1 as [|v vs Hv Hvs IH]; [reflexivity|]. rewrite len_cons, <- IH. pose proof (alphabet v Hv) as Ha.
  unfold alphabet_ok in Ha. apply andb_true_iff in Ha as [_ Ha]. apply Z.eqb_eq in Ha. cbn [chars_of fmap list_fmap str_len foldr].
  now rewrite Ha.
Qed.

Lemma decode_no_panic s : no_panic (decode s).
Proof.
  unfold decode. apply no_panic_bind; [apply case_loop_no_panic|]. intros _ _.
  apply no_panic_bind; [auto with panic|]. intros [hrp data] _. destruct (_ <? 1); [auto with panic|].
  destruct (str_len data <? DATA_PORTION_MIN) eqn:Hl; [auto with panic|]. bprop.
  apply no_panic_bind; [apply hrp_loop_no_panic|]. intros _ _.
  apply no_panic_bind; [apply read_chars_no_panic|]. intros vs Hvs.
  destruct (negb _); [auto with panic|]. apply read_chars_inv in Hvs as [-> Hb]. rewrite chars_of_str_len in Hl by exact Hb.
  unfold DATA_PORTION_MIN in Hl. rewrite usub_Ok by (unfold CHECKSUM_LEN; lia). cbn [res_bind].
  rewrite slice_Ok by (unfold CHECKSUM_LEN; lia). cbn [res_bind].
  apply no_panic_bind; [apply convert_bits_no_panic|auto with panic].
Qed.

(** What a decoder gives are bytes. *)

Lemma emit_bytes fuel n acc : forall bits out, bytes_ok out -> bytes_ok (emit_groups fuel n acc bits out).2.
Proof.
  induction fuel as [|fuel IH]; intros bits out H; cbn [emit_groups]; [exact H|]. destruct (n <=? bits); [|exact H].
  apply IH, Forall_app. split; [exact H|]. constructor; [apply u8_ok|constructor].
Qed.

Lemma convert_groups_bytes from n data : forall idx acc bits out r,
  bytes_ok out -> convert_groups from n idx acc bits out data = Ok r -> bytes_ok r.2.
Proof.
  induction data as [|v data IH]; intros idx acc bits out r Ho H; cbn [convert_groups] in H; [now injection H as <-|].
  destruct (negb _); [discriminate|]. destruct (emit_groups _ _ _ _ _) as [b o] eqn:He. revert H. apply IH.
  change o with (b, o).2. rewrite <- He. now apply emit_bytes.
Qed.

Lemma decode_bytes s hrp data : decode s = Ok (hrp, data) -> bytes_ok data.
Proof.
  unfold decode. intros H. apply res_bind_Ok_inv in H as (? & _ & H). apply res_bind_Ok_inv in H as ([h d] & _ & H).
  destruct (str_len h <? 1); [discriminate|]. destruct (_ <? DATA_PORTION_MIN); [discriminate|].
  apply res_bind_Ok_inv in H as ([] & _ & H). apply res_bind_Ok_inv in H as (vs & _ & H). destruct (negb _); [discriminate|].
  apply res_bind_Ok_inv in H as (? & _ & H). apply res_bind_Ok_inv in H as (gs & _ & H). apply res_bind_Ok_inv in H as (dat & Hc & H).
  injection H as _ <-. unfold convert_bits in Hc. apply res_bind_Ok_inv in Hc as ([[acc bits] out] & Hg & Hc).
  destruct (_ <=? _); [discriminate|]. destruct (negb _); [discriminate|]. injection Hc as <-.
  exact (convert_groups_bytes _ _ _ _ _ _ [] _ (List.Forall_nil _) Hg).
Qed.

(** ** Properties *)

(** Every non-empty payload under a valid lowercase
    human-readable part is encoded, and decodes to itself. *)
Theorem blech32_roundtrip hrp data :
  hrp <> [] -> validate_hrp hrp = Ok tt -> validate_case hrp = Ok tt -> bytes_ok data -> data <> [] ->
  exists w, encode hrp data = Ok w /\ decode w = Ok (hrp, data).
Proof.
  intros Hne Hh Hc Hd Hdata. destruct (encode_text hrp data Hne Hh Hc Hd) as (vs & p & He & Hvs & Hp & Hl & Hg).
  destruct (checksum_verifies hrp vs (hrp_validated hrp Hh) Hvs) as (Hcs & H6 & Hver).
  eexists. split; [exact He|]. apply decode_text; try assumption.
  - assert (1 <= len data) by (destruct data; [contradiction|]; rewrite len_cons; pose proof (len_nonneg data); lia).
    unfold len in *. lia.
  - exact (convert_down data vs p Hd Hvs Hp Hl Hg).
Qed.

(** C15 (safety).  The checksum catches every burst of errors: two texts that
    differ in at most six consecutive characters of the data portion, whatever
    those characters are and however long the text, never both decode. *)
Theorem blech32_detects_bursts hrp a w w' b r r' :
  ~ In SEPARATOR hrp -> length w = length w' -> (length w <= 6)%nat -> w <> w' ->
  decode (hrp ++ SEPARATOR :: a ++ w ++ b) = Ok r -> decode (hrp ++ SEPARATOR :: a ++ w' ++ b) <> Ok r'.
Proof.
  intros Hno Hl H6 Hne H H'. apply Hne. destruct r as [h d], r' as [h' d'].
  apply decode_inv in H as (t & vs & Hs & Hr & Hh & Hv). apply decode_inv in H' as (t' & vs' & Hs' & Hr' & _ & Hv').
  rewrite split_at_spec in Hs, Hs' by exact Hno. injection Hs as <- <-. injection Hs' as <- <-.
  apply read_chars_inv in Hr as [Ht Hb]. apply read_chars_inv in Hr' as [Ht' Hb'].
  apply chars_of_app_inv in Ht as (va & vt & -> & -> & Ht). apply chars_of_app_inv in Ht as (vw & vb & -> & -> & ->).
  apply chars_of_app_inv in Ht' as (va' & vt' & -> & Ha & Ht'). apply chars_of_app_inv in Ht' as (vw' & vb' & -> & -> & Hbb).
  apply Forall_app in Hb as [B1 [B2 B3]%Forall_app]. apply Forall_app in Hb' as [B1' [B2' B3']%Forall_app].
  apply chars_of_inj in Ha as <-; [|assumption..]. apply chars_of_inj in Hbb as <-; [|assumption..].
  unfold chars_of in Hl, H6. rewrite !length_fmap in Hl. rewrite length_fmap in H6.
  unfold verify_checksum, polymod in Hv, Hv'. apply Z.eqb_eq in Hv, Hv'.
  rewrite !foldl_app in Hv, Hv'. f_equal.
  apply (burst (foldl polymod_step (foldl polymod_step 1 (hrp_expand hrp)) va) vw vw' vb Hl H6 B2 B2').
  rewrite !foldl_app. congruence.
Qed.

Lemma blech32_roundtrip_witness :
  exists w, encode (ascii "pivy_ecdh_p256_pub") vector_payload = Ok w /\ decode w = Ok (ascii "pivy_ecdh_p256_pub", vector_payload).
Proof. apply (blech32_roundtrip (ascii "pivy_ecdh_p256_pub") vector_payload); try reflexivity; try discriminate. by_compute. Defined.

(** The text of one byte, with three of its characters replaced. *)
Lemma blech32_detects_bursts_witness :
  decode (ascii "x" ++ SEPARATOR :: [103] ++ [103; 120; 117] ++ [119; 56; 57; 53]) = Ok (ascii "x", [0x42]) /\
  decode (ascii "x" ++ SEPARATOR :: [103] ++ [113; 113; 113] ++ [119; 56; 57; 53]) <> Ok (ascii "x", [0x42]).
Proof.
  split; [vm_compute; reflexivity|].
  apply (blech32_detects_bursts (ascii "x") [103] [103; 120; 117] [113; 113; 113] [119; 56; 57; 53] (ascii "x", [0x42]));
    [vm_compute; intuition discriminate|reflexivity|simpl; lia|discriminate|vm_compute; reflexivity].
Defined.
