(* ===== verification/Markl.v ===== *)
(** * Markl: identifiers

    [piggy-markl/src/format.rs], [purpose.rs] and [id.rs] in full: the registries
    of formats and purposes, the quoting of the purpose slot, and identifiers
    [[purpose@]format-data] with their blech32 body. *)

From Stdlib Require Import ZArith Lia String.
From stdpp Require Import base tactics list numbers.
From S2P Require Import Prelude Utf8 Text Blech32.

Local Open Scope Z_scope.

(** ** Formats ([format.rs]) *)

Inductive FormatId : Type :=
| PivyEcdhP256Pub
| Sha256
| Blake2b256
| Ed25519Pub
| Ed25519Sec
| Ed25519Sig
| EcdsaP256Pub
| EcdsaP256Sig
| AgeX25519Pub
| AgeX25519Sec
| Nonce
| Ed25519Ssh
| EcdsaP256Ssh
| SshEcdsaNistp256Pub
| SshEd25519Pub
| SshEcdsaNistp384Pub
| PigpenWrapP256
| PigpenWrapX25519
| PigpenHeaderMac.

#[export] Instance FormatId_eq_dec : EqDecision FormatId.
Proof. solve_decision. Defined.

Definition format_as_str (f : FormatId) : list Z :=
  match f with
  | PivyEcdhP256Pub => ascii "pivy_ecdh_p256_pub"
  | Sha256 => ascii "sha256"
  | Blake2b256 => ascii "blake2b256"
  | Ed25519Pub => ascii "ed25519_pub"
  | Ed25519Sec => ascii "ed25519_sec"
  | Ed25519Sig => ascii "ed25519_sig"
  | EcdsaP256Pub => ascii "ecdsa_p256_pub"
  | EcdsaP256Sig => ascii "ecdsa_p256_sig"
  | AgeX25519Pub => ascii "age_x25519_pub"
  | AgeX25519Sec => ascii "age_x25519_sec"
  | Nonce => ascii "nonce"
  | Ed25519Ssh => ascii "ed25519_ssh"
  | EcdsaP256Ssh => ascii "ecdsa_p256_ssh"
  | SshEcdsaNistp256Pub => ascii "ssh_ecdsa_nistp256_pub"
  | SshEd25519Pub => ascii "ssh_ed25519_pub"
  | SshEcdsaNistp384Pub => ascii "ssh_ecdsa_nistp384_pub"
  | PigpenWrapP256 => ascii "pigpen_wrap_p256"
  | PigpenWrapX25519 => ascii "pigpen_wrap_x25519"
  | PigpenHeaderMac => ascii "pigpen_header_mac"
  end.

Definition format_size (f : FormatId) : Z :=
  match f with
  | PivyEcdhP256Pub | EcdsaP256Pub | EcdsaP256Ssh | SshEcdsaNistp256Pub => 33
  | Sha256 | Blake2b256 | Ed25519Pub | AgeX25519Pub | AgeX25519Sec | Nonce | Ed25519Ssh | SshEd25519Pub | PigpenHeaderMac => 32
  | Ed25519Sec | Ed25519Sig | EcdsaP256Sig | PigpenWrapX25519 => 64
  | SshEcdsaNistp384Pub => 49
  | PigpenWrapP256 => 65
  end.

(** [Err] carries the string of [UnknownFormat]. *)
Definition format_parse (s : list Z) : res (list Z) FormatId :=
  if bool_decide (s = ascii "pivy_ecdh_p256_pub") then Ok PivyEcdhP256Pub
  else if bool_decide (s = ascii "sha256") then Ok Sha256
  else if bool_decide (s = ascii "blake2b256") then Ok Blake2b256
  else if bool_decide (s = ascii "ed25519_pub") then Ok Ed25519Pub
  else if bool_decide (s = ascii "ed25519_sec") then Ok Ed25519Sec
  else if bool_decide (s = ascii "ed25519_sig") then Ok Ed25519Sig
  else if bool_decide (s = ascii "ecdsa_p256_pub") then Ok EcdsaP256Pub
  else if bool_decide (s = ascii "ecdsa_p256_sig") then Ok EcdsaP256Sig
  else if bool_decide (s = ascii "age_x25519_pub") then Ok AgeX25519Pub
  else if bool_decide (s = ascii "age_x25519_sec") then Ok AgeX25519Sec
  else if bool_decide (s = ascii "nonce") then Ok Nonce
  else if bool_decide (s = ascii "ed25519_ssh") then Ok Ed25519Ssh
  else if bool_decide (s = ascii "ecdsa_p256_ssh") then Ok EcdsaP256Ssh
  else if bool_decide (s = ascii "ssh_ecdsa_nistp256_pub") then Ok SshEcdsaNistp256Pub
  else if bool_decide (s = ascii "ssh_ed25519_pub") then Ok SshEd25519Pub
  else if bool_decide (s = ascii "ssh_ecdsa_nistp384_pub") then Ok SshEcdsaNistp384Pub
  else if bool_decide (s = ascii "pigpen_wrap_p256") then Ok PigpenWrapP256
  else if bool_decide (s = ascii "pigpen_wrap_x25519") then Ok PigpenWrapX25519
  else if bool_decide (s = ascii "pigpen_header_mac") then Ok PigpenHeaderMac
  else Err s.

(** ** Purposes ([purpose.rs]) *)

Inductive PurposeId : Type :=
| PiggyRecipientV1
| PiggyPivAuthV1
| PiggyPivSigV1
| PiggyPivCardAuthV1
| PapiDocSigV1
| PigpenWrapV1
| PigpenDocV1
| PiggyRecordDigestV1
| PiggyRecordSigV1
| DodderBlobDigestSha256V1
| DodderObjectDigestV2
| DodderObjectSigV2
| DodderRepoPublicKeyV1
| DodderRepoPrivateKeyV1
| Other (s : list Z).

Inductive PurposeError : Type :=
| InvalidBarePurpose (purpose : list Z) (ch : option Z)
| UnterminatedQuoted (purpose : list Z).

Definition PURPOSE_QUOTE_DOUBLE : Z := 34.
Definition PURPOSE_QUOTE_SINGLE : Z := 39.
Definition BACKSLASH : Z := 92.
Definition AT : Z := 64.

Definition is_quote (c : Z) : bool := (c =? PURPOSE_QUOTE_DOUBLE) || (c =? PURPOSE_QUOTE_SINGLE).

Definition bare_char (c : Z) : bool := is_ascii_alphanumeric c || (c =? 95) || (c =? 47) || (c =? 45).

Definition purpose_is_bare_expressible (purpose_id : list Z) : bool :=
  negb (bool_decide (purpose_id = [])) && forallb bare_char purpose_id.

(** The scan for the closing quote, behind the opening one: the slot up to and
    with the quote, and what follows it. *)
Fixpoint scan_quote (quote : Z) (slot s : list Z) : option (list Z * list Z) :=
  match s with
  | [] => None
  | c :: s =>
      if c =? BACKSLASH then
        match s with
        | [] => None
        | escaped :: s => scan_quote quote (slot ++ [c; escaped]) s
        end
      else if c =? quote then Some (slot ++ [c], s)
      else scan_quote quote (slot ++ [c]) s
  end.

Definition split_purpose_slot (value : list Z) : option (list Z) * list Z :=
  match value with
  | [] => (None, value)
  | quote :: tail =>
      if negb (is_quote quote) then
        match split_at AT value with
        | Some (slot, body) => (Some slot, body)
        | None => (None, value)
        end
      else
        match scan_quote quote [quote] tail with
        | Some (slot, at_sign :: body) => if at_sign =? AT then (Some slot, body) else (Some value, [])
        | Some (_, []) | None => (Some value, [])
        end
  end.

Definition escape_char (c : Z) : list Z :=
  if c =? BACKSLASH then [BACKSLASH; BACKSLASH]
  else if c =? PURPOSE_QUOTE_DOUBLE then [BACKSLASH; PURPOSE_QUOTE_DOUBLE]
  else if c =? 10 then [BACKSLASH; 110]
  else if c =? 9 then [BACKSLASH; 116]
  else if c =? 13 then [BACKSLASH; 114]
  else if c =? 7 then [BACKSLASH; 97]
  else if c =? 8 then [BACKSLASH; 98]
  else if c =? 12 then [BACKSLASH; 102]
  else if c =? 11 then [BACKSLASH; 118]
  else [c].

Definition quote_purpose (purpose_id : list Z) : list Z :=
  [PURPOSE_QUOTE_DOUBLE] ++ mbind escape_char purpose_id ++ [PURPOSE_QUOTE_DOUBLE].

Definition spell_purpose (purpose_id : list Z) : list Z :=
  if purpose_is_bare_expressible purpose_id then purpose_id else quote_purpose purpose_id.

(** The character an escape stands for. *)
Definition unescape_char (escaped : Z) : Z :=
  if escaped =? 110 then 10
  else if escaped =? 116 then 9
  else if escaped =? 114 then 13
  else if escaped =? 97 then 7
  else if escaped =? 98 then 8
  else if escaped =? 102 then 12
  else if escaped =? 118 then 11
  else escaped.

Fixpoint unescape_loop (s : list Z) : list Z :=
  match s with
  | [] => []
  | c :: s =>
      if negb (c =? BACKSLASH) then c :: unescape_loop s
      else match s with
           | [] => [BACKSLASH]
           | escaped :: s => unescape_char escaped :: unescape_loop s
           end
  end.

Definition unescape_purpose_interior (interior : list Z) : list Z :=
  if negb (existsb (Z.eqb BACKSLASH) interior) then interior else unescape_loop interior.

(** [str::strip_prefix], [str::strip_suffix] for a character *)
Definition strip_prefix (c : Z) (s : list Z) : option (list Z) :=
  match s with x :: s => if x =? c then Some s else None | [] => None end.
Definition strip_suffix (c : Z) (s : list Z) : option (list Z) :=
  match list.last s with
  | Some x => if x =? c then Some (take (length s - 1) s) else None
  | None => None
  end.

Definition invalid_bare_purpose (slot : list Z) : PurposeError :=
  InvalidBarePurpose slot (find (fun c => negb (purpose_is_bare_expressible [c])) slot).

Definition unquote_purpose (slot : list Z) : res PurposeError (list Z) :=
  match slot with
  | [] => Err (InvalidBarePurpose [] None)
  | first :: _ =>
      if negb (is_quote first) then
        if negb (purpose_is_bare_expressible slot) then Err (invalid_bare_purpose slot) else Ok slot
      else
        let* interior := ok_or (rest ← strip_prefix first slot; strip_suffix first rest) (UnterminatedQuoted slot) in
        Ok (unescape_purpose_interior interior)
  end.

Definition purpose_as_str (p : PurposeId) : list Z :=
  match p with
  | PiggyRecipientV1 => ascii "piggy-recipient-v1"
  | PiggyPivAuthV1 => ascii "piggy-piv_auth-v1"
  | PiggyPivSigV1 => ascii "piggy-piv_sig-v1"
  | PiggyPivCardAuthV1 => ascii "piggy-piv_card_auth-v1"
  | PapiDocSigV1 => ascii "papi-doc-sig-v1"
  | PigpenWrapV1 => ascii "pigpen-wrap-v1"
  | PigpenDocV1 => ascii "pigpen-doc-v1"
  | PiggyRecordDigestV1 => ascii "piggy-record-digest-v1"
  | PiggyRecordSigV1 => ascii "piggy-record-sig-v1"
  | DodderBlobDigestSha256V1 => ascii "dodder-blob-digest-sha256-v1"
  | DodderObjectDigestV2 => ascii "dodder-object-digest-v2"
  | DodderObjectSigV2 => ascii "dodder-object-sig-v2"
  | DodderRepoPublicKeyV1 => ascii "dodder-repo-public_key-v1"
  | DodderRepoPrivateKeyV1 => ascii "dodder-repo-private_key-v1"
  | Other s => s
  end.

Definition purpose_parse (s : list Z) : PurposeId :=
  if bool_decide (s = ascii "piggy-recipient-v1") then PiggyRecipientV1
  else if bool_decide (s = ascii "piggy-piv_auth-v1") then PiggyPivAuthV1
  else if bool_decide (s = ascii "piggy-piv_sig-v1") then PiggyPivSigV1
  else if bool_decide (s = ascii "piggy-piv_card_auth-v1") then PiggyPivCardAuthV1
  else if bool_decide (s = ascii "papi-doc-sig-v1") then PapiDocSigV1
  else if bool_decide (s = ascii "pigpen-wrap-v1") then PigpenWrapV1
  else if bool_decide (s = ascii "pigpen-doc-v1") then PigpenDocV1
  else if bool_decide (s = ascii "piggy-record-digest-v1") then PiggyRecordDigestV1
  else if bool_decide (s = ascii "piggy-record-sig-v1") then PiggyRecordSigV1
  else if bool_decide (s = ascii "dodder-blob-digest-sha256-v1") then DodderBlobDigestSha256V1
  else if bool_decide (s = ascii "dodder-object-digest-v2") then DodderObjectDigestV2
  else if bool_decide (s = ascii "dodder-object-sig-v2") then DodderObjectSigV2
  else if bool_decide (s = ascii "dodder-repo-public_key-v1") then DodderRepoPublicKeyV1
  else if bool_decide (s = ascii "dodder-repo-private_key-v1") then DodderRepoPrivateKeyV1
  else Other s.

Definition one_of (f : FormatId) (l : list FormatId) : bool := bool_decide (f ∈ l).

(** [validate_format(format).is_ok()]; the error names the two. *)
Definition accepts (p : PurposeId) (f : FormatId) : bool :=
  match p with
  | PiggyRecipientV1 => one_of f [PivyEcdhP256Pub; AgeX25519Pub]
  | PiggyPivAuthV1 | PiggyPivSigV1 | PiggyPivCardAuthV1 => one_of f [SshEcdsaNistp256Pub; SshEd25519Pub; SshEcdsaNistp384Pub]
  | PapiDocSigV1 => one_of f [EcdsaP256Sig]
  | PigpenWrapV1 => one_of f [PigpenWrapP256; PigpenWrapX25519]
  | PigpenDocV1 => one_of f [PigpenHeaderMac; Blake2b256]
  | PiggyRecordDigestV1 | DodderBlobDigestSha256V1 | DodderObjectDigestV2 => one_of f [Sha256; Blake2b256]
  | PiggyRecordSigV1 | DodderObjectSigV2 => one_of f [Ed25519Sig; EcdsaP256Sig]
  | DodderRepoPublicKeyV1 => one_of f [Ed25519Pub; EcdsaP256Pub]
  | DodderRepoPrivateKeyV1 => one_of f [Ed25519Sec; Ed25519Ssh; EcdsaP256Ssh]
  | Other _ => false
  end.

(** ** Identifiers ([id.rs]) *)

Inductive ParseError : Type :=
| ParseBlech32 (e : Blech32Error)
| UnknownFormat (s : list Z)
| WrongSize (format : FormatId) (expected actual : Z)
| ParseIncompatible (purpose : PurposeId) (format : FormatId)
| ParsePurpose (e : PurposeError).

Definition validate_format (p : PurposeId) (f : FormatId) : res ParseError unit :=
  if accepts p f then Ok tt else Err (ParseIncompatible p f).

Record Id := MkId { id_purpose : option PurposeId; id_format : FormatId; id_data : bytes }.

Definition is_other (p : PurposeId) : bool := match p with Other _ => true | _ => false end.

Definition id_new (purpose : option PurposeId) (format : FormatId) (data : bytes) : res ParseError Id :=
  let expected := format_size format in
  if negb (len data =? expected) then Err (WrongSize format expected (len data))
  else
    let* _ := match purpose with
              | Some p => if negb (is_other p) then validate_format p format else Ok tt
              | None => Ok tt
              end in
    Ok (MkId purpose format data).

(** [.expect("encode of validated payload cannot fail")] *)
Definition to_wire (id : Id) : res Empty_set (list Z) :=
  match encode (format_as_str (id_format id)) (id_data id) with
  | Ok body =>
      Ok (match id_purpose id with
          | Some p => spell_purpose (purpose_as_str p) ++ [AT] ++ body
          | None => body
          end)
  | Err _ | Panic => Panic
  end.

Definition id_parse (s : list Z) : res ParseError Id :=
  let (purpose_slot, body) := split_purpose_slot s in
  let* purpose := match purpose_slot with
                  | Some slot =>
                      let* value := map_err ParsePurpose (unquote_purpose slot) in Ok (Some (purpose_parse value))
                  | None => Ok None
                  end in
  let* (format_str, data) := map_err ParseBlech32 (decode body) in
  let* format := map_err UnknownFormat (format_parse format_str) in
  id_new purpose format data.

(** ** Lemmas *)

Lemma format_parse_as_str f : format_parse (format_as_str f) = Ok f.
Proof. destruct f; vm_compute; reflexivity. Qed.

Lemma purpose_parse_as_str p : is_other p = false -> purpose_parse (purpose_as_str p) = p.
Proof. destruct p; intros H; try discriminate H; vm_compute; reflexivity. Qed.

(** The name of a format is a valid human-readable part without a quote or an
    [@]. *)
Definition name_ok (f : FormatId) : bool :=
  let s := format_as_str f in
  negb (bool_decide (s = [])) && is_ok (validate_hrp s) && is_ok (validate_case s) && forallb bare_char s.

Lemma names_ok f : name_ok f = true.
Proof. destruct f; vm_compute; reflexivity. Qed.

Lemma format_size_pos f : 0 < format_size f.
Proof. destruct f; reflexivity. Qed.

Lemma bare_visible c : bare_char c = true -> 45 <= c <= 122 /\ is_whitespace c = false /\ is_char c = true.
Proof.
  intros H. assert (Hr : 45 <= c <= 122).
  { unfold bare_char, is_ascii_alphanumeric, is_ascii_lowercase, is_ascii_uppercase, is_ascii_digit in H.
    rewrite !orb_true_iff, !between_spec, !Z.eqb_eq in H. lia. }
  split; [exact Hr|]. unfold is_whitespace, is_char. rewrite !between_out by lia.
  split; [zbool; reflexivity|]. rewrite (proj2 (between_spec 0 c 0xD7FF)) by lia. reflexivity.
Qed.

Lemma bare_char_plain c : bare_char c = true -> c <> AT /\ is_quote c = false.
Proof.
  intros H. destruct (Z.eq_dec c AT) as [->|Hn]; [discriminate|]. split; [exact Hn|].
  unfold is_quote. destruct (Z.eqb_spec c PURPOSE_QUOTE_DOUBLE) as [->|_]; [discriminate|].
  destruct (Z.eqb_spec c PURPOSE_QUOTE_SINGLE) as [->|_]; [discriminate|]. reflexivity.
Qed.

(** *** Quoting *)

(** An escape is one character that is neither a backslash nor the quote, or a
    backslash and the letter that stands for the character. *)
Lemma escape_shape c :
  (escape_char c = [c] /\ c <> BACKSLASH /\ c <> PURPOSE_QUOTE_DOUBLE) \/
  (exists e, escape_char c = [BACKSLASH; e] /\ unescape_char e = c).
Proof.
  unfold escape_char.
  repeat match goal with
  | |- context [c =? ?k] =>
      destruct (Z.eqb_spec c k) as [->|]; [right; eexists; split; [reflexivity|reflexivity]|]
  end. now left.
Qed.

Lemma scan_quoted p : forall slot rest,
  scan_quote PURPOSE_QUOTE_DOUBLE slot (mbind escape_char p ++ PURPOSE_QUOTE_DOUBLE :: rest)
  = Some (slot ++ mbind escape_char p ++ [PURPOSE_QUOTE_DOUBLE], rest).
Proof.
  induction p as [|c p IH]; intros slot rest; [reflexivity|]. rewrite bind_cons.
  destruct (escape_shape c) as [(-> & H1 & H2)|(e & -> & _)].
  - cbn [app scan_quote]. rewrite (proj2 (Z.eqb_neq _ _) H1), (proj2 (Z.eqb_neq _ _) H2).
    rewrite IH, <- app_assoc. reflexivity.
  - cbn [app scan_quote]. rewrite Z.eqb_refl. rewrite IH, <- app_assoc. reflexivity.
Qed.

Lemma unescape_escaped p : unescape_loop (mbind escape_char p) = p.
Proof.
  induction p as [|c p IH]; [reflexivity|]. rewrite bind_cons.
  destruct (escape_shape c) as [(-> & H1 & _)|(e & -> & He)]; cbn [app unescape_loop].
  - rewrite (proj2 (Z.eqb_neq _ _) H1). cbn [negb]. now rewrite IH.
  - rewrite Z.eqb_refl. cbn [negb]. now rewrite He, IH.
Qed.

Lemma unescape_plain s : existsb (Z.eqb BACKSLASH) s = false -> unescape_loop s = s.
Proof.
  induction s as [|c s IH]; [reflexivity|]. cbn [existsb]. intros [H1 H2]%orb_false_iff. cbn [unescape_loop].
  rewrite (Z.eqb_sym c), H1. cbn [negb]. now rewrite IH.
Qed.

Lemma unescape_interior s : unescape_purpose_interior s = unescape_loop s.
Proof.
  unfold unescape_purpose_interior. destruct (existsb _ s) eqn:H; [reflexivity|]. now rewrite unescape_plain.
Qed.

Lemma strip_suffix_snoc c s : strip_suffix c (s ++ [c]) = Some s.
Proof.
  unfold strip_suffix. rewrite last_snoc, Z.eqb_refl, length_app. simpl.
  now rewrite Nat.add_sub, take_app_length.
Qed.

Lemma unquote_spelled p : unquote_purpose (spell_purpose p) = Ok p.
Proof.
  unfold spell_purpose. destruct (purpose_is_bare_expressible p) eqn:Hb.
  - destruct p as [|c p]; [discriminate|]. unfold unquote_purpose.
    assert (Hc : bare_char c = true).
    { unfold purpose_is_bare_expressible in Hb. apply andb_true_iff in Hb as [_ Hb]. cbn [forallb] in Hb.
      now apply andb_true_iff in Hb as [Hb _]. }
    destruct (bare_char_plain c Hc) as [_ ->]. cbn [negb]. now rewrite Hb.
  - unfold quote_purpose, unquote_purpose. cbn [app]. change (negb (is_quote PURPOSE_QUOTE_DOUBLE)) with false. cbv iota.
    unfold strip_prefix. rewrite Z.eqb_refl. cbn [mbind option_bind]. rewrite strip_suffix_snoc. cbn [ok_or res_bind].
    now rewrite unescape_interior, unescape_escaped.
Qed.

Lemma bare_no_at s : forallb bare_char s = true -> ~ In AT s.
Proof. intros H Hin. rewrite forallb_forall in H. specialize (H AT Hin). discriminate. Qed.

Lemma split_spelled p body : split_purpose_slot (spell_purpose p ++ [AT] ++ body) = (Some (spell_purpose p), body).
Proof.
  unfold spell_purpose. destruct (purpose_is_bare_expressible p) eqn:Hb.
  - unfold purpose_is_bare_expressible in Hb. apply andb_true_iff in Hb as [_ Hb].
    destruct p as [|c p]; [reflexivity|]. unfold split_purpose_slot. cbn [app].
    assert (Hc : bare_char c = true) by (cbn [forallb] in Hb; now apply andb_true_iff in Hb as [Hb _]).
    destruct (bare_char_plain c Hc) as [_ ->]. cbn [negb].
    change (c :: p ++ AT :: body) with ((c :: p) ++ AT :: body). now rewrite split_at_spec by now apply bare_no_at.
  - unfold quote_purpose, split_purpose_slot. cbn [app]. change (negb (is_quote PURPOSE_QUOTE_DOUBLE)) with false. cbv iota.
    rewrite <- app_assoc. cbn [app]. rewrite scan_quoted. cbn [app]. now rewrite Z.eqb_refl.
Qed.

Lemma split_at_none c s : ~ In c s -> split_at c s = None.
Proof.
  induction s as [|x s IH]; intros H; [reflexivity|]. cbn [split_at].
  rewrite (proj2 (Z.eqb_neq x c)) by (intros ->; apply H; now left). rewrite IH by (intros Hi; apply H; now right). reflexivity.
Qed.

(** A body alone has no purpose slot. *)
Lemma split_body hrp rest :
  hrp <> [] -> forallb bare_char hrp = true -> ~ In AT rest -> split_purpose_slot (hrp ++ rest) = (None, hrp ++ rest).
Proof.
  intros Hn Hb Hr. destruct hrp as [|c hrp]; [contradiction|]. unfold split_purpose_slot. cbn [app].
  assert (Hc : bare_char c = true) by (cbn [forallb] in Hb; now apply andb_true_iff in Hb as [Hb' _]).
  destruct (bare_char_plain c Hc) as [_ ->]. cbn [negb].
  rewrite split_at_none; [reflexivity|]. change (c :: hrp ++ rest) with ((c :: hrp) ++ rest).
  intros Hin. apply in_app_or in Hin as [Hin|Hin]; [now apply (bare_no_at (c :: hrp))|contradiction].
Qed.

Lemma chars_bare vs : Forall (below 5) vs -> forallb bare_char (chars_of vs) = true.
Proof.
  intros H. apply forallb_forall. intros c Hin. apply in_map_iff in Hin as (v & <- & Hi).
  rewrite Forall_forall in H. specialize (H v Hi).
  assert (Ha : forallb (fun v => bare_char (nth (Z.to_nat v) CHARSET 0)) (Z.of_nat <$> seq 0 32) = true) by (vm_compute; reflexivity).
  rewrite forallb_forall in Ha. apply Ha. apply list_elem_of_In, list_elem_of_fmap. exists (Z.to_nat v).
  unfold below in H. split; [lia|]. apply elem_of_seq. lia.
Qed.

(** ** What an identifier is *)

(** The size is the format's, and a known purpose accepts the format. *)
Definition id_ok (id : Id) : Prop :=
  len (id_data id) = format_size (id_format id) /\
  forall p, id_purpose id = Some p -> is_other p = false -> accepts p (id_format id) = true.

Lemma id_new_ok purpose format data id :
  id_new purpose format data = Ok id -> id = MkId purpose format data /\ id_ok id.
Proof.
  unfold id_new. destruct (len data =? format_size format) eqn:Hl; [|discriminate]. cbn [negb]. bprop.
  intros H. apply res_bind_Ok_inv in H as ([] & Hp & H). injection H as <-. split; [reflexivity|].
  split; [exact Hl|]. simpl. intros p -> Ho. rewrite Ho in Hp. cbn [negb] in Hp. unfold validate_format in Hp.
  now destruct (accepts p format).
Qed.

Lemma id_ok_new id : id_ok id -> id_new (id_purpose id) (id_format id) (id_data id) = Ok id.
Proof.
  intros [Hl Hp]. destruct id as [purpose format data]. simpl in *. unfold id_new. rewrite Hl, Z.eqb_refl. cbn [negb].
  destruct purpose as [p|]; [|reflexivity]. destruct (is_other p) eqn:Ho; [reflexivity|]. cbn [negb].
  unfold validate_format. now rewrite (Hp p eq_refl Ho).
Qed.

(** A purpose with a variant of its own is not carried as [Other]. *)
Definition canonical (id : Id) : Prop :=
  forall s, id_purpose id = Some (Other s) -> purpose_parse s = Other s.

Lemma canonical_parse id p : canonical id -> id_purpose id = Some p -> purpose_parse (purpose_as_str p) = p.
Proof.
  intros Hc Hp. destruct (is_other p) eqn:Ho; [|now apply purpose_parse_as_str].
  destruct p; try discriminate Ho. now apply Hc.
Qed.

(** The body of the wire form. *)
Lemma body_text id :
  id_ok id -> bytes_ok (id_data id) ->
  exists rest, encode (format_as_str (id_format id)) (id_data id) = Ok (format_as_str (id_format id) ++ rest) /\
    forallb bare_char rest = true /\ decode (format_as_str (id_format id) ++ rest) = Ok (format_as_str (id_format id), id_data id).
Proof.
  intros [Hl _] Hd. pose proof (names_ok (id_format id)) as Hn. unfold name_ok in Hn.
  apply andb_true_iff in Hn as [[[H1 H2]%andb_true_iff H3]%andb_true_iff _].
  apply negb_true_iff, bool_decide_eq_false in H1.
  assert (Hh : validate_hrp (format_as_str (id_format id)) = Ok tt) by (destruct (validate_hrp _) as [[]|e|]; [reflexivity|discriminate..]).
  assert (Hc : validate_case (format_as_str (id_format id)) = Ok tt) by (destruct (validate_case _) as [[]|e|]; [reflexivity|discriminate..]).
  destruct (encode_text _ (id_data id) H1 Hh Hc Hd) as (vs & p & He & Hvs & Hp & Hlen & Hg).
  destruct (checksum_verifies _ vs (hrp_validated _ Hh) Hvs) as (Hcs & H6 & Hver).
  exists (SEPARATOR :: chars_of (vs ++ create_checksum (format_as_str (id_format id)) vs)). split; [exact He|]. split.
  - apply (chars_bare (vs ++ _)). now apply Forall_app.
  - apply decode_text; try assumption; [|exact (convert_down _ vs p Hd Hvs Hp Hlen Hg)].
    pose proof (format_size_pos (id_format id)). unfold len in *. lia.
Qed.

(** The purpose slot with its [@]. *)
Definition purpose_slot (id : Id) : list Z :=
  match id_purpose id with Some p => spell_purpose (purpose_as_str p) ++ [AT] | None => [] end.

(** The wire form: the slot, and a body of bare characters. *)
Lemma wire_text id :
  id_ok id -> bytes_ok (id_data id) -> canonical id ->
  exists body, to_wire id = Ok (purpose_slot id ++ body) /\ id_parse (purpose_slot id ++ body) = Ok id /\
    body <> [] /\ forallb bare_char body = true.
Proof.
  intros Hok Hd Hc. destruct (body_text id Hok Hd) as (rest & He & Hat & Hdec).
  pose proof (names_ok (id_format id)) as Hn. unfold name_ok in Hn.
  apply andb_true_iff in Hn as [[[H1 _]%andb_true_iff _]%andb_true_iff H4].
  apply negb_true_iff, bool_decide_eq_false in H1. set (hrp := format_as_str (id_format id)) in *.
  exists (hrp ++ rest). unfold to_wire, purpose_slot. fold hrp. rewrite He. pose proof (id_ok_new id Hok) as Hnew.
  split; [|split; [|split]].
  - destruct (id_purpose id) as [p|]; [|reflexivity]. now rewrite <- app_assoc.
  - unfold id_parse. destruct (id_purpose id) as [p|] eqn:Hp.
    + rewrite <- app_assoc. rewrite split_spelled, unquote_spelled. cbn [map_err res_bind].
      rewrite (canonical_parse id p Hc Hp), Hdec. cbn [map_err res_bind]. unfold hrp. rewrite format_parse_as_str. exact Hnew.
    + cbn [app]. rewrite split_body by (assumption || now apply bare_no_at). cbn [res_bind]. rewrite Hdec. cbn [map_err res_bind].
      unfold hrp. rewrite format_parse_as_str. exact Hnew.
  - intros E. apply app_eq_nil in E as [E _]. contradiction.
  - now rewrite forallb_app, H4, Hat.
Qed.

(** *** No text makes the parser panic *)

Lemma id_new_no_panic p f d : no_panic (id_new p f d).
Proof.
  unfold id_new. destruct (negb _); [auto with panic|]. apply no_panic_bind; [|auto with panic].
  destruct p as [p|]; [|auto with panic]. destruct (negb _); [|auto with panic]. unfold validate_format.
  destruct (accepts p f); auto with panic.
Qed.

Lemma unquote_no_panic s : no_panic (unquote_purpose s).
Proof.
  unfold unquote_purpose. destruct s as [|c s]; [auto with panic|]. destruct (negb (is_quote c)).
  - destruct (negb _); auto with panic.
  - apply no_panic_bind; auto with panic.
Qed.

Lemma format_parse_no_panic s : no_panic (format_parse s).
Proof. unfold format_parse. repeat case_bool_decide; auto with panic. Qed.

Lemma id_parse_no_panic s : no_panic (id_parse s).
Proof.
  unfold id_parse. destruct (split_purpose_slot s) as [slot body]. apply no_panic_bind.
  - destruct slot as [slot|]; [|auto with panic]. apply no_panic_bind; [apply no_panic_map_err, unquote_no_panic|auto with panic].
  - intros p _. apply no_panic_bind; [apply no_panic_map_err, decode_no_panic|]. intros [fs data] _.
    apply no_panic_bind; [apply no_panic_map_err, format_parse_no_panic|]. intros f _. apply id_new_no_panic.
Qed.

(** ** Properties *)

(** C35 (roundtrip).  An identifier in wire form parses back to itself, whatever
    its purpose is: a registered one, an unknown one, or a text with quotes,
    backslashes, an [@] or any other character. *)
Theorem id_roundtrip id :
  id_ok id -> bytes_ok (id_data id) -> canonical id -> exists w, to_wire id = Ok w /\ id_parse w = Ok id.
Proof. intros Hok Hd Hc. destruct (wire_text id Hok Hd Hc) as (body & H1 & H2 & _). eauto. Qed.

(** What parses is well formed. *)
Lemma id_parse_ok s id : id_parse s = Ok id -> id_ok id.
Proof.
  intros H. unfold id_parse in H. destruct (split_purpose_slot s) as [slot body].
  apply res_bind_Ok_inv in H as (purpose & _ & H). apply res_bind_Ok_inv in H as ([fs data] & _ & H).
  apply res_bind_Ok_inv in H as (format & _ & H). exact (proj2 (id_new_ok _ _ _ _ H)).
Qed.

Lemma id_parse_bytes s id : id_parse s = Ok id -> bytes_ok (id_data id).
Proof.
  intros H. unfold id_parse in H. destruct (split_purpose_slot s) as [slot body].
  apply res_bind_Ok_inv in H as (purpose & _ & H). apply res_bind_Ok_inv in H as ([fs data] & Hd & H).
  apply res_bind_Ok_inv in H as (format & _ & H). apply id_new_ok in H as [-> _].
  destruct (decode body) as [[h x]|e|] eqn:E; try discriminate. injection Hd as -> ->. exact (decode_bytes _ _ _ E).
Qed.

(** C39 (type).  Every identifier that was built or parsed is well formed: its
    payload has the size its format declares, and its purpose, if registered,
    accepts the format. *)
Theorem ids_well_formed :
  (forall purpose format data id, id_new purpose format data = Ok id -> id_ok id) /\
  (forall s id, id_parse s = Ok id -> id_ok id).
Proof.
  split; [intros purpose format data id H; exact (proj2 (id_new_ok _ _ _ _ H))|exact id_parse_ok].
Qed.

(** A purpose that needs the quotes, and an escape. *)
Definition quoted_id : Id :=
  MkId (Some (Other [0xE9; AT; PURPOSE_QUOTE_DOUBLE; BACKSLASH; 10])) PivyEcdhP256Pub vector_payload.

Lemma id_roundtrip_witness : exists w, to_wire quoted_id = Ok w /\ id_parse w = Ok quoted_id.
Proof.
  apply (id_roundtrip quoted_id).
  - split; [reflexivity|]. intros p [= <-]. discriminate.
  - by_compute.
  - intros s [= <-]. vm_compute. reflexivity.
Defined.

Lemma ids_well_formed_witness :
  id_parse (ascii "piggy-recipient-v1@" ++ vector_text) = Ok (MkId (Some PiggyRecipientV1) PivyEcdhP256Pub vector_payload) /\
  id_ok (MkId (Some PiggyRecipientV1) PivyEcdhP256Pub vector_payload).
Proof.
  assert (H : id_parse (ascii "piggy-recipient-v1@" ++ vector_text) = Ok (MkId (Some PiggyRecipientV1) PivyEcdhP256Pub vector_payload))
    by (vm_compute; reflexivity).
  split; [exact H|]. exact (proj2 ids_well_formed _ _ H).
Defined.

(** A slot whose last quote is escaped is not closed, but is accepted as a
    quoted purpose, and the error is the empty body's. *)
Example unclosed_slot :
  split_purpose_slot [PURPOSE_QUOTE_DOUBLE; 97; BACKSLASH; PURPOSE_QUOTE_DOUBLE]
    = (Some [PURPOSE_QUOTE_DOUBLE; 97; BACKSLASH; PURPOSE_QUOTE_DOUBLE], []) /\
  unquote_purpose [PURPOSE_QUOTE_DOUBLE; 97; BACKSLASH; PURPOSE_QUOTE_DOUBLE] = Ok [97; BACKSLASH] /\
  id_parse [PURPOSE_QUOTE_DOUBLE; 97; BACKSLASH; PURPOSE_QUOTE_DOUBLE] = Err (ParseBlech32 SeparatorMissing).
Proof. split; [|split]; reflexivity. Qed.
