(* ===== verification/Recipients.v ===== *)
(** * Recipients: the [piggy-ids] file, and the template made of it

    [piggy-ids/src/lib.rs]: a text file of identifiers with comments, parsed,
    rendered, compared.  [piggy-box/src/recipients.rs]: the ebox template of the
    recipients in it. *)

From Stdlib Require Import ZArith Lia.
From stdpp Require Import base tactics list numbers strings.
From S2P Require Import Prelude Utf8 Text Guid Wire Crypto PivBox Template Ebox AgentExt Unlock Blech32 Markl.

Local Open Scope Z_scope.

#[export] Instance Id_eq_dec : EqDecision Id.
Proof. assert (EqDecision PurposeId) by solve_decision. solve_decision. Defined.

Record Recipient := MkRecipient { r_id : Id; r_comment : option (list Z) }.

(** A text on one line of the file: its tokens are [char]s. *)
Inductive IdsError : Type :=
| BadMarkl (line : Z) (token : list Z) (source : ParseError)
| InvalidRecipientShape (line : Z) (purpose : option PurposeId) (format : FormatId)
| EmptyToken (line : Z).

(** ** Entries *)

Definition purpose_tagged_entry_ok (id : Id) : bool :=
  match id_purpose id with
  | Some ((PiggyRecipientV1 | PiggyPivAuthV1) as p) => accepts p (id_format id)
  | _ => false
  end.

Definition validate_recipient_shape (id : Id) : res IdsError unit :=
  if purpose_tagged_entry_ok id then Ok tt else Err (InvalidRecipientShape 0 (id_purpose id) (id_format id)).

(** [Recipient::new] *)
Definition recipient_new (id : Id) (comment : option (list Z)) : res IdsError Recipient :=
  let* _ := validate_recipient_shape id in Ok (MkRecipient id comment).

Definition set_comment (comment : option (list Z)) (r : Recipient) : Recipient := MkRecipient (r_id r) comment.

Definition is_encryption_recipient (r : Recipient) : bool := one_of (id_format (r_id r)) [PivyEcdhP256Pub; AgeX25519Pub].

Definition is_ssh_auth (r : Recipient) : bool :=
  match id_purpose (r_id r) with Some PiggyPivAuthV1 => true | _ => false end
  && one_of (id_format (r_id r)) [SshEcdsaNistp256Pub; SshEcdsaNistp384Pub; SshEd25519Pub].

(** ** Files: a [RecipientFile] is its list of entries *)

Definition encryption_recipients (f : list Recipient) : list Recipient := List.filter is_encryption_recipient f.
Definition ssh_auth_recipients (f : list Recipient) : list Recipient := List.filter is_ssh_auth f.

(** [str::lines]: up to each line feed, a carriage return before it dropped; what
    is behind the last line feed is a line if it is not empty. *)
Definition strip_cr (s : list Z) : list Z := match list.last s with Some 13 => removelast s | _ => s end.

Fixpoint lines_from (line s : list Z) : list (list Z) :=
  match s with
  | [] => match line with [] => [] | _ => [line] end
  | c :: s => if c =? 10 then strip_cr line :: lines_from [] s else lines_from (line ++ [c]) s
  end.

Definition lines (s : list Z) : list (list Z) := lines_from [] s.

(** Up to the first ASCII whitespace, and from there. *)
Fixpoint split_token (s : list Z) : list Z * list Z :=
  match s with
  | [] => ([], [])
  | c :: s' => if is_ascii_whitespace c then ([], s) else let (token, rest) := split_token s' in (c :: token, rest)
  end.

Definition HASH : Z := 35.

Definition split_token_and_comment (line : list Z) : list Z * option (list Z) :=
  let (token, rest) := split_token (trim_start line) in
  match strip_prefix HASH (trim_start rest) with
  | Some stripped => (token, Some (trim stripped))
  | None => (token, None)
  end.

Definition parse_line (raw : list Z) (line_no : Z) : res IdsError Recipient :=
  let (token, comment) := split_token_and_comment raw in
  match token with
  | [] => Err (EmptyToken line_no)
  | _ =>
      let* id := map_err (BadMarkl line_no token) (id_parse token) in
      let shape_ok := match id_purpose id with
                      | None => accepts PiggyRecipientV1 (id_format id)
                      | Some _ => purpose_tagged_entry_ok id
                      end in
      if negb shape_ok then Err (InvalidRecipientShape line_no (id_purpose id) (id_format id))
      else Ok (MkRecipient id comment)
  end.

(** A blank line, or a comment on a line of its own. *)
Definition is_skipped (raw : list Z) : bool := match trim raw with [] => true | c :: _ => c =? HASH end.

Fixpoint parse_from (line_no : Z) (ls : list (list Z)) : res IdsError (list Recipient) :=
  match ls with
  | [] => Ok []
  | raw :: ls =>
      if is_skipped raw then parse_from (line_no + 1) ls
      else
        let* r := parse_line raw line_no in
        let* rs := parse_from (line_no + 1) ls in
        Ok (r :: rs)
  end.

(** [RecipientFile::parse] *)
Definition parse (input : list Z) : res IdsError (list Recipient) := parse_from 1 (lines input).

(** [.expect("canonicalize_for_render: ...")] *)
Definition canonicalize_for_render (id : Id) : res Empty_set Id :=
  match id_purpose id with
  | Some _ => Ok id
  | None => match id_new (Some PiggyRecipientV1) (id_format id) (id_data id) with Ok id => Ok id | _ => Panic end
  end.

Definition COMMENT : list Z := [32; 32; HASH; 32].

Definition render_one (r : Recipient) : res Empty_set (list Z) :=
  let* canonical_id := canonicalize_for_render (r_id r) in
  let* w := to_wire canonical_id in
  Ok (w ++ match r_comment r with Some c => COMMENT ++ c | None => [] end ++ [10]).

(** [RecipientFile::render] *)
Fixpoint render (f : list Recipient) : res Empty_set (list Z) :=
  match f with
  | [] => Ok []
  | r :: f => let* line := render_one r in let* rest := render f in Ok (line ++ rest)
  end.

Record Diff := MkDiff { added : list Recipient; removed : list Recipient; retained : list Recipient }.

Definition ids_of (f : list Recipient) : list Id := r_id <$> f.

(** [RecipientFile::diff]: by identifier, whatever the comments. *)
Definition diff (current desired : list Recipient) : Diff :=
  MkDiff (List.filter (fun r => negb (bool_decide (r_id r ∈ ids_of current))) desired)
         (List.filter (fun r => negb (bool_decide (r_id r ∈ ids_of desired))) current)
         (List.filter (fun r => bool_decide (r_id r ∈ ids_of desired)) current).

Definition diff_is_empty (d : Diff) : bool :=
  match added d, removed d with [], [] => true | _, _ => false end.

(** ** Templates ([recipients.rs]) *)

Inductive RecipientsError : Type :=
| NoRecipient
| UnsupportedFormat (format : FormatId)
| ExpectedFormat (expected got : FormatId)
| ExpectedRecipient (purpose : option PurposeId)
(** [BoxError::UnsupportedRecipientFormat] *)
| NotYetSealed (format : FormatId).

Definition recipient_purpose (id : Id) : bool :=
  match id_purpose id with None | Some PiggyRecipientV1 => true | _ => false end.

Definition piv_part_from_markl (id : Id) : res RecipientsError EboxTplPart :=
  if negb (bool_decide (id_format id = PivyEcdhP256Pub)) then Err (ExpectedFormat PivyEcdhP256Pub (id_format id))
  else if negb (recipient_purpose id) then Err (ExpectedRecipient (id_purpose id))
  else Ok (MkTplPart None DEFAULT_SLOT None (id_data id) NistP256 None).

Definition age_part_from_markl (id : Id) : res RecipientsError EboxTplPart :=
  if negb (bool_decide (id_format id = AgeX25519Pub)) then Err (ExpectedFormat AgeX25519Pub (id_format id))
  else if negb (recipient_purpose id) then Err (ExpectedRecipient (id_purpose id))
  else Err (NotYetSealed AgeX25519Pub).

Definition tpl_part_from_markl (id : Id) : res RecipientsError EboxTplPart :=
  match id_format id with
  | PivyEcdhP256Pub => piv_part_from_markl id
  | AgeX25519Pub => age_part_from_markl id
  | other => Err (UnsupportedFormat other)
  end.

(** [collect] into a [Result]: the first error, if there is one. *)
Fixpoint tpl_parts (ids : list Id) : res RecipientsError (list EboxTplPart) :=
  match ids with
  | [] => Ok []
  | id :: ids => let* p := tpl_part_from_markl id in let* ps := tpl_parts ids in Ok (p :: ps)
  end.

Definition template_from_recipients (ids : list Id) : res RecipientsError EboxTemplate :=
  match ids with
  | [] => Err NoRecipient
  | _ => let* parts := tpl_parts ids in Ok (MkTemplate 1 [MkTplConfig Primary 1 parts])
  end.

(** ** Lemmas *)

(** *** White space *)

Lemma trim_start_head s a : head (trim_start s) = Some a -> is_whitespace a = false.
Proof. induction s as [|c s IH]; [discriminate|]. cbn [trim_start]. destruct (is_whitespace c) eqn:E; [exact IH|]. now intros [= <-]. Qed.

Lemma trim_start_idem s : trim_start (trim_start s) = trim_start s.
Proof. induction s as [|c s IH]; [reflexivity|]. cbn [trim_start]. destruct (is_whitespace c) eqn:E; [exact IH|]. now rewrite trim_start_keeps. Qed.

Lemma trim_start_snoc l a : is_whitespace a = false -> exists u, trim_start (l ++ [a]) = u ++ [a].
Proof.
  intros Ha. induction l as [|c l IH]; cbn [app trim_start]; [exists []; now rewrite Ha|].
  destruct (is_whitespace c); [exact IH|]. now exists (c :: l).
Qed.

Lemma trim_start_in c s : In c (trim_start s) -> In c s.
Proof. induction s as [|x s IH]; [done|]. cbn [trim_start]. destruct (is_whitespace x); [intros H; right; auto|auto]. Qed.

Lemma trim_in c s : In c (trim s) -> In c s.
Proof. unfold trim. rewrite <- !list_elem_of_In, elem_of_reverse, !list_elem_of_In. intros H. apply trim_start_in in H.
  rewrite <- !list_elem_of_In, elem_of_reverse, !list_elem_of_In in H. now apply trim_start_in. Qed.

(** What trimming leaves begins and ends with visible characters. *)
Lemma trim_ends s : trim s = [] \/ exists a b, head (trim s) = Some a /\ list.last (trim s) = Some b /\ is_whitespace a = false /\ is_whitespace b = false.
Proof.
  unfold trim. destruct (trim_start s) as [|a l] eqn:E; [now left|]. right.
  assert (Ha : is_whitespace a = false) by (apply (trim_start_head s); now rewrite E).
  rewrite reverse_cons. destruct (trim_start_snoc (reverse l) a Ha) as (u & Hu). rewrite Hu, reverse_snoc.
  destruct (head (u ++ [a])) as [b|] eqn:Hb; [|now destruct u]. exists a, b. split; [reflexivity|]. split; [|split; [exact Ha|]].
  - rewrite <- reverse_snoc, <- head_reverse, reverse_involutive. exact Hb.
  - apply (trim_start_head (reverse l ++ [a])). now rewrite Hu.
Qed.

Lemma trim_idem s : trim (trim s) = trim s.
Proof. destruct (trim_ends s) as [->|(a & b & Ha & Hb & Wa & Wb)]; [reflexivity|]. now apply (trim_keeps _ a b). Qed.

Lemma trim_space c s : is_whitespace c = true -> trim (c :: s) = trim s.
Proof. intros H. unfold trim. cbn [trim_start]. now rewrite H. Qed.

Lemma ascii_ws_ws c : is_ascii_whitespace c = true -> is_whitespace c = true.
Proof.
  unfold is_ascii_whitespace. intros H. assert (E : c = 32 \/ c = 9 \/ c = 10 \/ c = 12 \/ c = 13) by (bprop; lia).
  destruct E as [->|[->|[->|[->| ->]]]]; reflexivity.
Qed.

(** *** Lines *)

Lemma lines_from_line l : forall line s, ~ In 10 l -> lines_from line (l ++ 10 :: s) = strip_cr (line ++ l) :: lines_from [] s.
Proof.
  induction l as [|c l IH]; intros line s H; cbn [app lines_from].
  - cbn. now rewrite app_nil_r.
  - destruct (c =? 10) eqn:E; bprop; [destruct H; now left|]. rewrite IH by (intros Hi; apply H; now right). now rewrite <- app_assoc.
Qed.

Lemma strip_cr_keeps l b : list.last l = Some b -> is_whitespace b = false -> strip_cr l = l.
Proof. unfold strip_cr. intros -> H. destruct b as [|p|]; auto. do 4 (destruct p; auto; try discriminate). Qed.

Lemma strip_cr_in c l : In c (strip_cr l) -> In c l.
Proof.
  unfold strip_cr. destruct (list.last l) as [b|] eqn:E; [|auto]. assert (Hr : In c (removelast l) -> In c l).
  { intros H. destruct l as [|x l]; [done|]. rewrite (app_removelast_last 0 (l := x :: l)) by discriminate. apply in_or_app. now left. }
  repeat match goal with |- context [match ?x with _ => _ end] => destruct x end; auto.
Qed.

Lemma lines_from_clean s : forall line, ~ In 10 line -> Forall (fun l => ~ In 10 l) (lines_from line s).
Proof.
  induction s as [|c s IH]; intros line H; cbn [lines_from]; [destruct line; repeat constructor; exact H|].
  destruct (c =? 10) eqn:E; bprop.
  - constructor; [intros Hi; now apply strip_cr_in in Hi|]. now apply IH.
  - apply IH. rewrite in_app_iff. cbn. intuition.
Qed.

(** *** Tokens *)

(** What an identifier of the file is spelled with. *)
Definition token_char (c : Z) : bool := bare_char c || (c =? AT).

Lemma token_char_plain c : token_char c = true -> is_whitespace c = false /\ is_ascii_whitespace c = false /\ c <> HASH /\ c <> 10.
Proof.
  intros H. assert (R : 33 <= c <= 126 /\ c <> HASH).
  { unfold token_char in H. apply orb_true_iff in H as [H|H]; [apply bare_visible in H|bprop; unfold AT in *]; unfold HASH; lia. }
  destruct R as [R Hh]. split; [|split; [|split; [exact Hh|lia]]].
  - unfold is_whitespace. rewrite !between_out by lia. zbool. reflexivity.
  - unfold is_ascii_whitespace. zbool. reflexivity.
Qed.

Lemma split_token_stops w : forall rest, forallb token_char w = true ->
  match rest with [] => True | c :: _ => is_ascii_whitespace c = true end -> split_token (w ++ rest) = (w, rest).
Proof.
  induction w as [|c w IH]; intros rest Hw Hr; cbn [app].
  - destruct rest as [|c rest]; [reflexivity|]. cbn. now rewrite Hr.
  - cbn [forallb] in Hw. apply andb_true_iff in Hw as [Hc Hw]. cbn [split_token].
    destruct (token_char_plain c Hc) as (_ & -> & _). now rewrite (IH rest Hw Hr).
Qed.

(** *** Entries *)

Record entry_ok (r : Recipient) : Prop := {
  eo_id : id_ok (r_id r);
  eo_data : bytes_ok (id_data (r_id r));
  eo_shape : match id_purpose (r_id r) with
             | None => accepts PiggyRecipientV1 (id_format (r_id r)) = true
             | Some _ => purpose_tagged_entry_ok (r_id r) = true
             end;
  eo_comment : forall c, r_comment r = Some c -> trim c = c /\ ~ In 10 c;
}.

(** An entry as it is rendered: its purpose spelled out. *)
Definition canonical_id (id : Id) : Id :=
  MkId (Some (default PiggyRecipientV1 (id_purpose id))) (id_format id) (id_data id).
Definition canonical_entry (r : Recipient) : Recipient := MkRecipient (canonical_id (r_id r)) (r_comment r).

Lemma canonical_entry_ok r : entry_ok r -> entry_ok (canonical_entry r).
Proof.
  intros [[Hl Hp] Hd Hs Hc]. constructor; cbn; auto.
  - split; [exact Hl|]. intros p [= <-] Ho. destruct (id_purpose (r_id r)) as [q|]; cbn in *; [now apply Hp|exact Hs].
  - unfold purpose_tagged_entry_ok in *. cbn. destruct (id_purpose (r_id r)) as [q|]; cbn; exact Hs.
Qed.

Lemma canonicalize_ok r : entry_ok r -> canonicalize_for_render (r_id r) = Ok (canonical_id (r_id r)).
Proof.
  intros H. pose proof (eo_id _ (canonical_entry_ok r H)) as Hok. apply id_ok_new in Hok. cbn in Hok.
  unfold canonicalize_for_render, canonical_id. destruct (r_id r) as [[p|] f d]; cbn in *; [reflexivity|]. now rewrite Hok.
Qed.

Lemma canonical_entry_idem r : canonical_entry (canonical_entry r) = canonical_entry r.
Proof. reflexivity. Qed.

(** The purposes of the file are spelled as they are. *)
Lemma tagged_slot id : purpose_tagged_entry_ok id = true -> forallb token_char (purpose_slot id) = true /\ canonical id.
Proof.
  unfold purpose_tagged_entry_ok, purpose_slot, canonical. intros H.
  destruct (id_purpose id) as [[]|]; try discriminate; (split; [vm_compute; reflexivity|discriminate]).
Qed.

Lemma entry_text r : entry_ok r -> exists a w,
  to_wire (canonical_id (r_id r)) = Ok (a :: w) /\ id_parse (a :: w) = Ok (canonical_id (r_id r)) /\ forallb token_char (a :: w) = true.
Proof.
  intros H. pose proof (canonical_entry_ok r H) as [Hok Hd Hs _]. cbn [canonical_entry r_id r_comment] in *.
  destruct (tagged_slot _ Hs) as [Hslot Hcan]. destruct (wire_text _ Hok Hd Hcan) as (body & Hw & Hp & Hne & Hb).
  assert (Ht : forallb token_char (purpose_slot (canonical_id (r_id r)) ++ body) = true).
  { rewrite forallb_app, Hslot. apply forallb_forall. intros c Hc. rewrite forallb_forall in Hb. unfold token_char. now rewrite (Hb c Hc). }
  destruct (purpose_slot (canonical_id (r_id r)) ++ body) as [|a w] eqn:E; [now apply app_eq_nil in E as [_ ->]|].
  exists a, w. auto.
Qed.

(** The line of an entry, without its line feed. *)
Definition line_of (w : list Z) (comment : option (list Z)) : list Z :=
  w ++ match comment with Some c => COMMENT ++ c | None => [] end.

Lemma split_line_of a w comment : forallb token_char (a :: w) = true -> (forall c, comment = Some c -> trim c = c) ->
  split_token_and_comment (line_of (a :: w) comment) = (a :: w, comment).
Proof.
  intros Hw Hc. pose proof Hw as Ha. cbn [forallb] in Ha. apply andb_true_iff in Ha as [Ha _]. apply token_char_plain in Ha as (Wa & _).
  unfold split_token_and_comment, line_of. cbn [app]. rewrite trim_start_keeps by exact Wa. change (a :: w ++ ?r) with ((a :: w) ++ r).
  rewrite split_token_stops; [|exact Hw|now destruct comment]. destruct comment as [c|]; [|reflexivity].
  change (trim_start (COMMENT ++ c)) with (HASH :: 32 :: c). cbn [strip_prefix]. rewrite Z.eqb_refl. cbv beta iota.
  now rewrite trim_space, (Hc c eq_refl).
Qed.

Lemma parse_line_of r a w n : entry_ok r -> id_parse (a :: w) = Ok (canonical_id (r_id r)) -> forallb token_char (a :: w) = true ->
  parse_line (line_of (a :: w) (r_comment r)) n = Ok (canonical_entry r).
Proof.
  intros H Hp Hw. unfold parse_line. rewrite split_line_of by (auto; intros c Hc; now apply (eo_comment r H)).
  rewrite Hp. cbn [map_err res_bind]. pose proof (eo_shape _ (canonical_entry_ok r H)) as Hs. cbn [canonical_entry r_id canonical_id id_purpose] in *.
  now rewrite Hs.
Qed.

Lemma line_of_text r a w : entry_ok r -> forallb token_char (a :: w) = true ->
  is_skipped (line_of (a :: w) (r_comment r)) = false /\ ~ In 10 (line_of (a :: w) (r_comment r)) /\
  strip_cr (line_of (a :: w) (r_comment r)) = line_of (a :: w) (r_comment r).
Proof.
  intros H Hw. assert (Hall : forall c, In c (a :: w) -> is_whitespace c = false /\ c <> 10 /\ c <> HASH).
  { intros c Hc. rewrite forallb_forall in Hw. apply Hw, token_char_plain in Hc as (A & _ & C & D). auto. }
  destruct (Hall a (or_introl eq_refl)) as (Wa & _ & Ha). split; [|split].
  - unfold is_skipped, trim, line_of. cbn [app]. rewrite trim_start_keeps by exact Wa. rewrite reverse_cons.
    destruct (trim_start_snoc (reverse (w ++ match r_comment r with Some c => COMMENT ++ c | None => [] end)) a Wa) as (u & ->).
    rewrite reverse_snoc. bprop. now apply Z.eqb_neq.
  - unfold line_of. rewrite in_app_iff. intros [Hi|Hi]; [now apply Hall in Hi|].
    destruct (r_comment r) as [c|] eqn:Ec; [|done]. apply (eo_comment r H) in Ec as [_ Ec]. cbn in Hi. intuition discriminate.
  - unfold line_of. destruct (r_comment r) as [c|] eqn:Ec.
    + apply (eo_comment r H) in Ec as [Ec _]. destruct (trim_ends c) as [E|(x & y & _ & Hy & _ & Wy)]; rewrite Ec in *.
      * subst c. unfold strip_cr. now rewrite app_nil_r, last_app.
      * apply (strip_cr_keeps _ y); [|exact Wy]. rewrite !last_app. now rewrite Hy.
    + rewrite app_nil_r. destruct (exists_last (l := a :: w)) as (u & b & E); [discriminate|]. rewrite E.
      apply (strip_cr_keeps _ b); [apply last_snoc|]. apply Hall. rewrite E. apply in_or_app. right. now left.
Qed.

Lemma render_one_ok r : entry_ok r -> exists a w,
  render_one r = Ok (line_of (a :: w) (r_comment r) ++ [10]) /\ id_parse (a :: w) = Ok (canonical_id (r_id r)) /\ forallb token_char (a :: w) = true.
Proof.
  intros H. destruct (entry_text r H) as (a & w & Hw & Hp & Ht). exists a, w. split; [|auto].
  unfold render_one. rewrite (canonicalize_ok r H). cbn [res_bind]. rewrite Hw. cbn [res_bind]. unfold line_of. now rewrite <- app_assoc.
Qed.

Lemma render_parse f : Forall entry_ok f -> exists text, render f = Ok text /\
  forall n, parse_from n (lines text) = Ok (canonical_entry <$> f).
Proof.
  induction 1 as [|r f Hr Hf (text & IH & Hp)]; [exists []; split; reflexivity|].
  destruct (render_one_ok r Hr) as (a & w & Hone & Hid & Ht). destruct (line_of_text r a w Hr Ht) as (Hsk & H10 & Hcr).
  exists (line_of (a :: w) (r_comment r) ++ 10 :: text). cbn [render]. rewrite Hone, IH. cbn [res_bind]. split; [now rewrite <- app_assoc|].
  intros n. unfold lines. rewrite lines_from_line by exact H10. cbn [app parse_from]. rewrite Hcr, Hsk, (parse_line_of r a w n Hr Hid Ht).
  cbn [res_bind]. fold (lines text). now rewrite Hp.
Qed.

Lemma render_canonical f : Forall entry_ok f -> render (canonical_entry <$> f) = render f.
Proof.
  induction 1 as [|r f Hr _ IH]; [reflexivity|]. cbn [fmap list_fmap render]. rewrite IH. f_equal. unfold render_one.
  rewrite (canonicalize_ok r Hr), (canonicalize_ok _ (canonical_entry_ok r Hr)). reflexivity.
Qed.

(** *** What is parsed *)

Lemma split_token_in s c : forall token rest, split_token s = (token, rest) -> In c rest -> In c s.
Proof.
  induction s as [|x s IH]; intros token rest E Hr; cbn [split_token] in E; [injection E as <- <-; done|].
  destruct (is_ascii_whitespace x); [injection E as <- <-; exact Hr|].
  destruct (split_token s) as [t2 r2]. injection E as <- <-. right. now apply (IH t2 r2).
Qed.

Lemma parse_line_ok raw n r : ~ In 10 raw -> parse_line raw n = Ok r -> entry_ok r.
Proof.
  unfold parse_line. intros Hraw H. destruct (split_token_and_comment raw) as [token comment] eqn:Es.
  destruct token as [|a w]; [discriminate|]. apply res_bind_Ok_inv in H as (id & Hid & H).
  destruct (id_parse (a :: w)) as [id'|e|] eqn:Ep; try discriminate. injection Hid as ->.
  match type of H with (if negb ?b then _ else _) = _ => destruct b eqn:Hs end; [|discriminate]. cbn [negb] in H. injection H as <-.
  constructor; cbn.
  - exact (id_parse_ok _ _ Ep).
  - exact (id_parse_bytes _ _ Ep).
  - destruct (id_purpose id); exact Hs.
  - intros c ->. unfold split_token_and_comment in Es. destruct (split_token (trim_start raw)) as [tk rest] eqn:Et.
    destruct (strip_prefix HASH (trim_start rest)) as [st|] eqn:Eh; [|discriminate]. injection Es as -> <-.
    split; [apply trim_idem|]. intros Hi. apply trim_in in Hi. apply Hraw.
    unfold strip_prefix in Eh. destruct (trim_start rest) as [|x l] eqn:El; [discriminate|].
    destruct (x =? HASH); [|discriminate]. injection Eh as ->. apply trim_start_in.
    apply (split_token_in _ _ _ _ Et), trim_start_in. rewrite El. now right.
Qed.

Lemma parse_from_ok ls : forall n f, Forall (fun l => ~ In 10 l) ls -> parse_from n ls = Ok f -> Forall entry_ok f.
Proof.
  induction ls as [|raw ls IH]; intros n f Hls H; cbn [parse_from] in H; [injection H as <-; constructor|].
  inversion Hls; subst. destruct (is_skipped raw); [now apply (IH (n + 1))|].
  apply res_bind_Ok_inv in H as (r & Hr & H). apply res_bind_Ok_inv in H as (rs & Hrs & H). injection H as <-.
  constructor; [now apply (parse_line_ok raw n)|now apply (IH (n + 1))].
Qed.

Lemma parse_ok s f : parse s = Ok f -> Forall entry_ok f.
Proof. unfold parse, lines. apply parse_from_ok, lines_from_clean. intros []. Qed.

(** *** No text makes the readers panic *)

Lemma parse_line_no_panic raw n : no_panic (parse_line raw n).
Proof.
  unfold parse_line. destruct (split_token_and_comment raw) as [token comment]. destruct token; [discriminate|].
  apply no_panic_bind; [apply no_panic_map_err, id_parse_no_panic|]. intros id _. destruct (negb _); discriminate.
Qed.

Lemma parse_from_no_panic ls : forall n, no_panic (parse_from n ls).
Proof.
  induction ls as [|raw ls IH]; intros n; cbn [parse_from]; [discriminate|]. destruct (is_skipped raw); [apply IH|].
  apply no_panic_bind; [apply parse_line_no_panic|]. intros r _. apply no_panic_bind; [apply IH|discriminate].
Qed.

(** *** Templates *)

(** A recipient that the encrypt pipeline can seal to. *)
Definition piv_recipient (id : Id) : bool := bool_decide (id_format id = PivyEcdhP256Pub).

Definition part_of (id : Id) : EboxTplPart := MkTplPart None DEFAULT_SLOT None (id_data id) NistP256 None.

Lemma one_of_spec f l : one_of f l = true <-> In f l.
Proof. unfold one_of. rewrite bool_decide_eq_true. apply list_elem_of_In. Qed.

Lemma entry_recipient r : entry_ok r -> is_encryption_recipient r = true -> recipient_purpose (r_id r) = true.
Proof.
  intros H Hr. pose proof (eo_shape r H) as Hs. unfold is_encryption_recipient, recipient_purpose, purpose_tagged_entry_ok in *.
  destruct (id_purpose (r_id r)) as [[]|]; try reflexivity; try discriminate.
  apply one_of_spec in Hs, Hr. cbn in *. intuition congruence.
Qed.

Lemma tpl_part_exact r : entry_ok r -> is_encryption_recipient r = true ->
  tpl_part_from_markl (r_id r) = if piv_recipient (r_id r) then Ok (part_of (r_id r)) else Err (NotYetSealed AgeX25519Pub).
Proof.
  intros H Hr. pose proof (entry_recipient r H Hr) as Hp. apply one_of_spec in Hr.
  unfold tpl_part_from_markl, piv_recipient. destruct Hr as [Hr|[Hr|[]]]; rewrite <- Hr; cbn.
  - unfold piv_part_from_markl. now rewrite <- Hr, Hp.
  - unfold age_part_from_markl. now rewrite <- Hr, Hp.
Qed.

Lemma tpl_parts_exact rs : Forall entry_ok rs -> forallb is_encryption_recipient rs = true ->
  tpl_parts (ids_of rs) = if forallb piv_recipient (ids_of rs) then Ok (part_of <$> ids_of rs) else Err (NotYetSealed AgeX25519Pub).
Proof.
  induction 1 as [|r rs Hr _ IH]; [reflexivity|]. cbn [forallb]. rewrite andb_true_iff. intros [H1 H2].
  cbn [ids_of fmap list_fmap tpl_parts forallb]. rewrite (tpl_part_exact r Hr H1). destruct (piv_recipient (r_id r)); [|reflexivity].
  cbn [res_bind]. unfold ids_of in IH. rewrite (IH H2). now destruct (forallb piv_recipient _).
Qed.

Lemma filter_ok (p : Recipient -> bool) f : Forall entry_ok f -> Forall entry_ok (List.filter p f) /\ forallb p (List.filter p f) = true.
Proof.
  induction 1 as [|r f Hr _ [IH1 IH2]]; [split; constructor|]. cbn [List.filter]. destruct (p r) eqn:E; [|auto].
  split; [now constructor|]. cbn [forallb]. now rewrite E.
Qed.

(** The template of a file's recipients, or why there is none. *)
Lemma template_of_file f : Forall entry_ok f ->
  template_from_recipients (ids_of (encryption_recipients f)) =
  match encryption_recipients f with
  | [] => Err NoRecipient
  | rs => if forallb piv_recipient (ids_of rs) then Ok (MkTemplate 1 [MkTplConfig Primary 1 (part_of <$> ids_of rs)])
          else Err (NotYetSealed AgeX25519Pub)
  end.
Proof.
  intros H. destruct (filter_ok is_encryption_recipient f H) as [H1 H2]. pose proof (tpl_parts_exact _ H1 H2) as E.
  unfold encryption_recipients, template_from_recipients in *. destruct (List.filter is_encryption_recipient f) as [|r rs]; [reflexivity|].
  cbn [ids_of fmap list_fmap] in *. rewrite E. now destruct (forallb piv_recipient _).
Qed.

Lemma part_of_ok id : id_ok id -> piv_recipient id = true -> tpl_part_ok (part_of id).
Proof.
  intros [Hl _] Hp. apply bool_decide_eq_true in Hp. rewrite Hp in Hl. change (format_size PivyEcdhP256Pub) with 33 in Hl.
  constructor; cbn; auto; [unfold byte_ok, DEFAULT_SLOT; lia|lia].
Qed.

Lemma file_template_ok f tpl : Forall entry_ok f -> len f <= 255 ->
  template_from_recipients (ids_of (encryption_recipients f)) = Ok tpl -> template_ok tpl.
Proof.
  intros H Hlen. rewrite (template_of_file f H). unfold encryption_recipients.
  pose proof (filter_ok is_encryption_recipient f H) as [Hok _]. assert (Hle : (length (List.filter is_encryption_recipient f) <= length f)%nat).
  { clear. induction f as [|r f IH]; cbn; [lia|]. destruct (is_encryption_recipient r); cbn; lia. }
  destruct (List.filter is_encryption_recipient f) as [|r rs]; [discriminate|].
  destruct (forallb piv_recipient (ids_of (r :: rs))) eqn:Hp; [|discriminate]. intros [= <-].
  split; [cbn; unfold byte_ok; lia|unfold len; cbn [tpl_configs length]; lia|]. constructor; [|constructor].
  assert (Hl : length (part_of <$> ids_of (r :: rs)) = length (r :: rs)) by (unfold ids_of; now rewrite !length_fmap).
  constructor; cbn [tc_n tc_type]; [unfold byte_ok; lia|lia| |].
  { apply (Z.le_trans _ (len f)); [|exact Hlen]. apply Nat2Z.inj_le. etransitivity; [|exact Hle]. now apply Nat.eq_le_incl. }
  apply list.Forall_forall. intros x Hx. change (x ∈ part_of <$> (r_id <$> r :: rs)) in Hx.
  apply list_elem_of_fmap in Hx as (id & -> & Hid). apply list_elem_of_fmap in Hid as (q & -> & Hq).
  rewrite list.Forall_forall in Hok. apply part_of_ok; [exact (eo_id q (Hok q Hq))|].
  rewrite forallb_forall in Hp. apply Hp, list_elem_of_In. now apply list_elem_of_fmap_2.
Qed.

Lemma part_of_template f tpl r : Forall entry_ok f -> template_from_recipients (ids_of (encryption_recipients f)) = Ok tpl ->
  In r f -> is_encryption_recipient r = true ->
  exists tc, tc ∈ tpl_configs tpl /\ tc_type tc = Primary /\ part_of (r_id r) ∈ tc_parts tc.
Proof.
  intros H Htpl Hr He. rewrite (template_of_file f H) in Htpl.
  assert (Hin : In r (encryption_recipients f)) by now apply filter_In.
  destruct (encryption_recipients f) as [|r0 rs] eqn:E; [done|].
  cbv zeta in Htpl. destruct (forallb piv_recipient (ids_of (r0 :: rs))); [|discriminate]. injection Htpl as <-. eexists. split; [constructor|]. split; [reflexivity|].
  cbn [tc_parts]. apply (list_elem_of_fmap_2 part_of (ids_of (r0 :: rs))), (list_elem_of_fmap_2 r_id (r0 :: rs)), list_elem_of_In. exact Hin.
Qed.

(** *** What is listed in a text *)

Definition visible (c : Z) : Prop := 33 <= c <= 126.

(** Nothing, or something that begins with white space. *)
Definition apart_from_token (rest : list Z) : Prop := match rest with [] => True | c :: _ => In c [9; 10; 12; 13; 32] end.

(** The text has a line with the token: it is the first of the text or comes after a line feed, it goes up to the next
    line feed or the end, and it is white space, the token, and anything that is apart from the token. *)
Definition listed (s token : list Z) : Prop :=
  exists before pad rest after, s = before ++ pad ++ token ++ rest ++ after /\
    (before = [] \/ exists l, before = l ++ [10]) /\ (after = [] \/ exists l, after = 10 :: l) /\
    Forall (fun c => In c [9; 32]) pad /\ apart_from_token rest /\ ~ In 10 rest /\
    Forall visible token /\ (exists c t, token = c :: t /\ c <> HASH).

Lemma visible_plain c : visible c -> is_whitespace c = false /\ is_ascii_whitespace c = false.
Proof.
  unfold visible. intros R. split; [unfold is_whitespace; rewrite !between_out by lia|unfold is_ascii_whitespace]; zbool; reflexivity.
Qed.

Lemma split_visible w rest : Forall visible w -> apart_from_token rest -> split_token (w ++ rest) = (w, rest).
Proof.
  intros Hw Hr. induction Hw as [|c w Hc _ IH]; cbn [app].
  - destruct rest as [|c rest]; [reflexivity|]. cbn [split_token].
    assert (Hc : is_ascii_whitespace c = true) by (cbn in Hr; destruct Hr as [<-|[<-|[<-|[<-|[<-|[]]]]]]; reflexivity). now rewrite Hc.
  - cbn [split_token]. destruct (visible_plain c Hc) as [_ ->]. now rewrite IH.
Qed.

Lemma lines_from_after l : forall line s, lines_from line (l ++ 10 :: s) = lines_from line (l ++ [10]) ++ lines_from [] s.
Proof.
  induction l as [|c l IH]; intros line s; cbn [app lines_from]; [reflexivity|]. destruct (c =? 10); [cbn [app]; now rewrite IH|apply IH].
Qed.

Lemma lines_from_last l : forall line, ~ In 10 l -> line ++ l <> [] -> lines_from line l = [line ++ l].
Proof.
  induction l as [|c l IH]; intros line Hn Hne; cbn [lines_from].
  - rewrite app_nil_r in *. now destruct line.
  - destruct (Z.eqb_spec c 10) as [->|_]; [destruct Hn; now left|]. rewrite IH; [now rewrite <- app_assoc|intros Hi; apply Hn; now right|].
    now rewrite <- app_assoc.
Qed.

(** A line of the text is one of its lines, but for a carriage return at its end. *)
Lemma line_in before line after :
  (before = [] \/ exists l, before = l ++ [10]) -> (after = [] \/ exists l, after = 10 :: l) -> ~ In 10 line -> line <> [] ->
  In line (lines (before ++ line ++ after)) \/ In (strip_cr line) (lines (before ++ line ++ after)).
Proof.
  intros Hb Ha Hn Hne.
  assert (Hl : In line (lines_from [] (line ++ after)) \/ In (strip_cr line) (lines_from [] (line ++ after))).
  { destruct Ha as [->|[l ->]]; [left; rewrite app_nil_r, lines_from_last by assumption; now left|right].
    rewrite lines_from_line by exact Hn. now left. }
  destruct Hb as [->|[l ->]]; [exact Hl|]. unfold lines. rewrite <- app_assoc. cbn [app]. rewrite lines_from_after, !in_app_iff. tauto.
Qed.

Lemma strip_cr_app l rest : Forall visible l -> l <> [] -> exists rest', strip_cr (l ++ rest) = l ++ rest' /\ (apart_from_token rest -> apart_from_token rest').
Proof.
  intros Hv Hl. destruct rest as [|c rest _] using rev_ind.
  - exists []. split; [|auto]. rewrite app_nil_r. destruct l as [|x l _] using rev_ind; [contradiction|].
    apply Forall_app in Hv as [_ Hx]. inversion_clear Hx as [|? ? Hx' _]. apply (strip_cr_keeps _ x); [apply last_snoc|now apply visible_plain].
  - unfold strip_cr. rewrite app_assoc, last_snoc. destruct (Z.eq_dec c 13) as [->|Hc].
    + rewrite removelast_last. exists rest. split; [reflexivity|]. now destruct rest.
    + exists (rest ++ [c]). split; [|auto]. rewrite app_assoc.
      destruct c as [|p|p]; try reflexivity. do 4 (destruct p as [p|p|]; try reflexivity). now destruct Hc.
Qed.

(** A line with a token on it is not passed over, and gives the token's entry. *)
Lemma parse_listed pad token rest n r id :
  Forall (fun c => In c [9; 32]) pad -> apart_from_token rest -> Forall visible token -> (exists c t, token = c :: t /\ c <> HASH) ->
  id_parse token = Ok id ->
  is_skipped (pad ++ token ++ rest) = false /\ (parse_line (pad ++ token ++ rest) n = Ok r -> r_id r = id).
Proof.
  intros Hp Hr Hv (c & t & -> & Hc) Hid. inversion Hv as [|? ? Hc' _]; subst. destruct (visible_plain c Hc') as [Hw _].
  assert (Hts : trim_start (pad ++ (c :: t) ++ rest) = (c :: t) ++ rest).
  { clear - Hp Hw. induction Hp as [|x pad Hx _ IH]; cbn [app trim_start]; [now rewrite Hw|].
    assert (Hx' : is_whitespace x = true) by (destruct Hx as [<-|[<-|[]]]; reflexivity). rewrite Hx'. exact IH. }
  split.
  - unfold is_skipped, trim. rewrite Hts. cbn [app]. rewrite reverse_cons. destruct (trim_start_snoc (reverse (t ++ rest)) c Hw) as (u & ->).
    rewrite reverse_snoc. now apply Z.eqb_neq.
  - unfold parse_line, split_token_and_comment. rewrite Hts, split_visible by assumption.
    destruct (strip_prefix HASH (trim_start rest)); rewrite Hid; cbn [map_err res_bind]; cbv zeta;
      match goal with |- context [if negb ?b then _ else _] => destruct b end; cbn [negb]; try discriminate; now intros [= <-].
Qed.

Lemma parse_from_in raw ls : forall n f, parse_from n ls = Ok f -> In raw ls -> is_skipped raw = false ->
  exists n' r, parse_line raw n' = Ok r /\ In r f.
Proof.
  induction ls as [|l ls IH]; intros n f Hf Hin Hs; [destruct Hin|]. cbn [parse_from] in Hf. destruct Hin as [->|Hin].
  - rewrite Hs in Hf. destruct (parse_line raw n) as [r|e|] eqn:Hr; try discriminate. cbn [res_bind] in Hf.
    destruct (parse_from (n + 1) ls) as [rs|e|]; try discriminate. injection Hf as <-. exists n, r. split; [exact Hr|now left].
  - destruct (is_skipped l); [exact (IH _ _ Hf Hin Hs)|]. destruct (parse_line l n) as [r|e|]; try discriminate. cbn [res_bind] in Hf.
    destruct (parse_from (n + 1) ls) as [rs|e|] eqn:Hrs; try discriminate. injection Hf as <-.
    destruct (IH _ _ Hrs Hin Hs) as (n' & r' & Hr' & Hi). exists n', r'. split; [exact Hr'|now right].
Qed.

(** Whatever is listed is an entry, when the file is read at all. *)
Lemma listed_entry s f token id : parse s = Ok f -> listed s token -> id_parse token = Ok id -> exists r, In r f /\ r_id r = id.
Proof.
  intros Hf (before & pad & rest & after & -> & Hb & Ha & Hp & Hr & Hn & Hv & Ht) Hid.
  assert (Hne : token <> []) by (destruct Ht as (c & t & -> & _); discriminate).
  assert (Hline : ~ In 10 (pad ++ token ++ rest)).
  { rewrite !in_app_iff. intros [Hi|[Hi|Hi]]; [|rewrite list.Forall_forall in Hv; apply list_elem_of_In, Hv in Hi; unfold visible in Hi; lia|contradiction].
    rewrite list.Forall_forall in Hp. apply list_elem_of_In, Hp in Hi. cbn in Hi. lia. }
  assert (Hok : forall rest', apart_from_token rest' -> In (pad ++ token ++ rest') (lines (before ++ (pad ++ token ++ rest) ++ after)) ->
                exists r, In r f /\ r_id r = id).
  { intros rest' Hr' Hin. destruct (parse_listed pad token rest' 0 (MkRecipient id None) id Hp Hr' Hv Ht Hid) as [Hs _].
    replace (before ++ pad ++ token ++ rest ++ after) with (before ++ (pad ++ token ++ rest) ++ after) in Hf by now rewrite <- !app_assoc.
    destruct (parse_from_in _ _ _ _ Hf Hin Hs) as (n & r & Hr'' & Hir). exists r. split; [exact Hir|].
    exact (proj2 (parse_listed pad token rest' n r id Hp Hr' Hv Ht Hid) Hr''). }
  destruct (line_in before (pad ++ token ++ rest) after Hb Ha Hline) as [Hin|Hin]; [destruct pad, token; discriminate || contradiction|exact (Hok rest Hr Hin)|].
  assert (Hstrip : exists rest', strip_cr (pad ++ token ++ rest) = pad ++ token ++ rest' /\ apart_from_token rest').
  { destruct (strip_cr_app token rest Hv Hne) as (rest' & He & Hr'). exists rest'. split; [|exact (Hr' Hr)].
    clear - He Hne. unfold strip_cr in *. assert (Hlast : list.last (pad ++ token ++ rest) = list.last (token ++ rest)).
    { destruct (token ++ rest) as [|x l _] eqn:E using rev_ind; [now destruct token|]. rewrite app_assoc, !last_snoc. reflexivity. }
    rewrite Hlast. assert (Hrm : removelast (pad ++ token ++ rest) = pad ++ removelast (token ++ rest)) by (apply removelast_app; now destruct token).
    rewrite Hrm. revert He. repeat match goal with |- context [match ?x with _ => _ end] => destruct x end; intros ->; reflexivity. }
  destruct Hstrip as (rest' & He & Hr'). rewrite He in Hin. exact (Hok rest' Hr' Hin).
Qed.

(** ** Properties *)

(** A [piggy-ids] file that was read is rendered, and what is
    rendered reads back: the same entries in the same order with their comments, a
    bare recipient under its purpose.  Rendering that again gives the same text.
    The same is true of entries that were built, if their comments are trimmed
    and on one line. *)
Theorem ids_file_roundtrip :
  (forall s f, parse s = Ok f -> exists text,
     render f = Ok text /\ parse text = Ok (canonical_entry <$> f) /\ render (canonical_entry <$> f) = Ok text) /\
  (forall f, Forall entry_ok f -> exists text, render f = Ok text /\ parse text = Ok (canonical_entry <$> f)).
Proof.
  split.
  - intros s f H. apply parse_ok in H. destruct (render_parse f H) as (text & Hr & Hp). exists text.
    split; [exact Hr|]. split; [exact (Hp 1)|]. now rewrite render_canonical.
  - intros f H. destruct (render_parse f H) as (text & Hr & Hp). exists text. split; [exact Hr|exact (Hp 1)].
Qed.

(** C28 (functional).  Whoever is listed can read: when a [piggy-ids] file is
    read and gives a template, a key sealed to that template, written and read
    back, is unlocked by an agent or a card that holds the private key of an
    encryption recipient whose identifier stands on a line of the file's text,
    whatever comments, blank lines and other entries stand before and behind it.
    (The file has at most 255 entries: the format counts the parts in a byte; and
    the key has at most 237 bytes.) *)
Theorem recipients_can_read C s f tpl key t g eb g' token id priv {A K} `{EcdhOracle A} `{EcdhOracle K}
    `{!EcdhOracleLaws C A} `{!EcdhOracleLaws C K} (agent : option A) (card : option K) :
  CryptoLaws C -> parse s = Ok f -> len f <= 255 ->
  template_from_recipients (ids_of (encryption_recipients f)) = Ok tpl ->
  create C tpl key t g = Ok (eb, g') -> t <> TypeTemplate -> len key <= 237 ->
  listed s token -> id_parse token = Ok id -> In (id_format id) [PivyEcdhP256Pub; AgeX25519Pub] ->
  ec_from_bytes C NistP256 (id_data id) = Ok (ec_public C priv) ->
  (exists a, agent = Some a /\ holds a NistP256 priv) \/ (exists k, card = Some k /\ holds k NistP256 priv) ->
  exists bs eb1 eb2 agent' card',
    ebox_to_bytes eb = Ok bs /\ ebox_from_bytes bs = Ok eb1 /\
    unlock_ebox C eb1 agent card = (eb2, agent', card', Ok tt) /\ eb_key eb2 = Some key.
Proof.
  intros L Hparse Hlen Htpl Hcr Ht Hkey Hlisted Hid Hfmt Hpub Hholds. pose proof (parse_ok _ _ Hparse) as Hok.
  destruct (listed_entry s f token id Hparse Hlisted Hid) as (r & Hr & <-).
  assert (He : is_encryption_recipient r = true) by (unfold is_encryption_recipient; now apply one_of_spec).
  destruct (created_unlocks C tpl key t g eb g' agent card L Hcr (file_template_ok f tpl Hok Hlen Htpl) Ht Hkey)
    as (bs & eb1 & eb2 & agent' & card' & res & Hw & Hb & Hu & [[-> Hk]|(_ & _ & Hno)]); [exists bs, eb1, eb2, agent', card'; auto|].
  exfalso. destruct (part_of_template f tpl r Hok Htpl Hr He) as (tc & Htc & Hprim & Hpart).
  destruct (created_holder C tpl key t eb tc (part_of (r_id r)) (ec_public C priv) L (create_created C L _ _ _ _ _ _ Hcr) Htc Hpart Hpub)
    as (c & p & Hc & Etc & Hp & Hcv & Hfrom). rewrite Hprim in Etc. destruct (Hno c Hc Etc) as [Hna Hnk].
  cbn in Hcv. rewrite Hcv in Hfrom. destruct Hholds as [(a & -> & Ha)|(k & -> & Hkk)].
  - apply (Hna a p priv eq_refl Hp); rewrite Hcv; assumption.
  - apply (Hnk k p priv eq_refl Hp); rewrite Hcv; assumption.
Qed.

(** What a file is compared to: an identifier is added if it is
    in the desired file only, removed if in the current one only, retained if in
    both; the difference is empty exactly when the two have the same identifiers;
    and the retained entries with the added ones are the desired identifiers. *)
Theorem diff_exact current desired :
  (forall r, In r (added (diff current desired)) <-> In r desired /\ ~ In (r_id r) (ids_of current)) /\
  (forall r, In r (removed (diff current desired)) <-> In r current /\ ~ In (r_id r) (ids_of desired)) /\
  (forall r, In r (retained (diff current desired)) <-> In r current /\ In (r_id r) (ids_of desired)) /\
  (diff_is_empty (diff current desired) = true <-> forall id, In id (ids_of current) <-> In id (ids_of desired)) /\
  (forall id, In id (ids_of (retained (diff current desired) ++ added (diff current desired))) <-> In id (ids_of desired)).
Proof.
  assert (Ha : forall r, In r (added (diff current desired)) <-> In r desired /\ ~ In (r_id r) (ids_of current)).
  { intros r. cbn [added diff]. rewrite filter_In, negb_true_iff, bool_decide_eq_false, list_elem_of_In. reflexivity. }
  assert (Hr : forall r, In r (removed (diff current desired)) <-> In r current /\ ~ In (r_id r) (ids_of desired)).
  { intros r. cbn [removed diff]. rewrite filter_In, negb_true_iff, bool_decide_eq_false, list_elem_of_In. reflexivity. }
  assert (Ht : forall r, In r (retained (diff current desired)) <-> In r current /\ In (r_id r) (ids_of desired)).
  { intros r. cbn [retained diff]. rewrite filter_In, bool_decide_eq_true, list_elem_of_In. reflexivity. }
  assert (Hids : forall id l, In id (ids_of l) <-> exists r, In r l /\ r_id r = id).
  { intros id l. unfold ids_of. rewrite <- list_elem_of_In, list_elem_of_fmap. setoid_rewrite list_elem_of_In. firstorder congruence. }
  split; [exact Ha|]. split; [exact Hr|]. split; [exact Ht|]. split.
  - assert (E : diff_is_empty (diff current desired) = true <-> added (diff current desired) = [] /\ removed (diff current desired) = []).
    { unfold diff_is_empty. destruct (added (diff current desired)), (removed (diff current desired)); intuition discriminate. }
    rewrite E. split.
    + intros [E1 E2] id. split; intros Hi.
      * destruct (decide (id ∈ ids_of desired)) as [Hd|Hd]; rewrite list_elem_of_In in Hd; [exact Hd|].
        apply Hids in Hi as (r & Hin & <-). pose proof (proj2 (Hr r) (conj Hin Hd)) as Hx. now rewrite E2 in Hx.
      * destruct (decide (id ∈ ids_of current)) as [Hd|Hd]; rewrite list_elem_of_In in Hd; [exact Hd|].
        apply Hids in Hi as (r & Hin & <-). pose proof (proj2 (Ha r) (conj Hin Hd)) as Hx. now rewrite E1 in Hx.
    + intros Hs. split.
      * destruct (added (diff current desired)) as [|r l] eqn:El; [reflexivity|]. destruct (proj1 (Ha r) (or_introl eq_refl)) as [H1 H2].
        destruct H2. apply Hs, Hids. eauto.
      * destruct (removed (diff current desired)) as [|r l] eqn:El; [reflexivity|]. destruct (proj1 (Hr r) (or_introl eq_refl)) as [H1 H2].
        destruct H2. apply Hs, Hids. eauto.
  - intros id. rewrite Hids. setoid_rewrite in_app_iff. setoid_rewrite Ht. setoid_rewrite Ha. split.
    + intros (r & [[_ Hx]|[Hx _]] & <-); [exact Hx|]. apply Hids. eauto.
    + intros Hi. destruct (decide (id ∈ ids_of current)) as [Hd|Hd]; rewrite list_elem_of_In in Hd.
      * apply Hids in Hd as (r & Hin & <-). exists r. auto.
      * apply Hids in Hi as (r & Hin & <-). exists r. auto.
Qed.

(** ** Witnesses *)

Definition toy_recipient (purpose : option PurposeId) (priv : Z) (comment : option (list Z)) : Recipient :=
  MkRecipient (MkId purpose PivyEcdhP256Pub (2 :: to_be_bytes 32 priv)) comment.

(** Two recipients, one of them bare, and a key for SSH. *)
Definition toy_file : list Recipient :=
  [toy_recipient (Some PiggyRecipientV1) 5 (Some (ascii "primary"));
   MkRecipient (MkId (Some PiggyPivAuthV1) SshEd25519Pub (repeat 7 32)) (Some (ascii "laptop # 2"));
   toy_recipient None 11 None].

Definition toy_text : list Z := ascii "# team" ++ [13; 10; 10] ++ match render toy_file with Ok text => text | _ => [] end.

Definition canonical_file : list Recipient := canonical_entry <$> toy_file.

Lemma ids_file_roundtrip_witness :
  exists text, render canonical_file = Ok text /\ parse text = Ok canonical_file /\ render canonical_file = Ok text.
Proof.
  destruct (proj1 ids_file_roundtrip toy_text canonical_file ltac:(vm_compute; reflexivity)) as (text & H1 & H2 & H3).
  exists text. auto.
Defined.

Definition toy_tpl : EboxTemplate :=
  match template_from_recipients (ids_of (encryption_recipients canonical_file)) with Ok t => t | _ => MkTemplate 0 [] end.
Definition toy_sealed : Ebox * Z := match create ToyCrypto toy_tpl toy_key TypeKey 5 with Ok e => e | _ => (toy_ebox, 0) end.

(** The third recipient's identifier, on the last line. *)
Definition toy_token : list Z :=
  match to_wire (MkId (Some PiggyRecipientV1) PivyEcdhP256Pub (2 :: to_be_bytes 32 11)) with Ok w => w | _ => [] end.

Lemma toy_listed : listed toy_text toy_token.
Proof.
  exists (take (length toy_text - length toy_token - 1) toy_text), [], [], [10].
  split; [vm_compute; reflexivity|]. split; [right; exists (take (length toy_text - length toy_token - 2) toy_text); vm_compute; reflexivity|].
  split; [right; now exists []|]. split; [constructor|]. split; [exact I|]. split; [intros []|]. split.
  - apply list.Forall_forall. assert (Hall : forallb (fun c => (33 <=? c) && (c <=? 126)) toy_token = true) by (vm_compute; reflexivity).
    rewrite forallb_forall in Hall. intros c Hc. apply list_elem_of_In, Hall in Hc. unfold visible. bprop. lia.
  - eexists _, _. split; [vm_compute; reflexivity|discriminate].
Qed.

Lemma recipients_can_read_witness :
  exists bs eb1 eb2 agent' card',
    ebox_to_bytes (fst toy_sealed) = Ok bs /\ ebox_from_bytes bs = Ok eb1 /\
    unlock_ebox ToyCrypto eb1 (Some [3; 11]) (None (A := list Z)) = (eb2, agent', card', Ok tt) /\ eb_key eb2 = Some toy_key.
Proof.
  apply (recipients_can_read ToyCrypto toy_text canonical_file toy_tpl toy_key TypeKey 5 (fst toy_sealed) (snd toy_sealed)
           toy_token (MkId (Some PiggyRecipientV1) PivyEcdhP256Pub (2 :: to_be_bytes 32 11)) 11 (Some [3; 11]) None ToyCrypto_laws).
  - vm_compute. reflexivity.
  - vm_compute. discriminate.
  - vm_compute. reflexivity.
  - vm_compute. reflexivity.
  - discriminate.
  - vm_compute. discriminate.
  - exact toy_listed.
  - vm_compute. reflexivity.
  - now left.
  - vm_compute. reflexivity.
  - left. exists [3; 11]. split; [reflexivity|]. cbn. right. left.
Defined.

(** What follows an identifier on its line without a [#] is dropped; the comment in
    [split_token_and_comment] says that it makes the line malformed. *)
Example trailing_text_ignored :
  let file := [toy_recipient (Some PiggyRecipientV1) 5 None] in
  match render file with
  | Ok text => parse (removelast text ++ ascii " and more") = Ok file
  | _ => False
  end.
Proof. vm_compute. reflexivity. Qed.
