(* ===== verification/Classify.v ===== *)
(** * Classify: what a card's slots are listed as, [piggy-ids/src/classify.rs]

    A slot's certificate becomes an identifier: a recipient's, or an SSH key's.
    OpenSSL's X.509 is a parameter, as are its points ([Crypto]) and base64. *)

From Stdlib Require Import ZArith Lia.
From stdpp Require Import base tactics list numbers strings.
From S2P Require Import Prelude Utf8 Text Guid Slot Wire Crypto PivBox Template AgentExt Blech32 Markl Recipients.

Local Open Scope Z_scope.

(** A certificate's public key as OpenSSL gives it; errors are its texts. *)
Record PKey := MkPKey {
  pk_is_ed25519 : bool;
  (** [raw_public_key] *)
  pk_raw : res (list Z) bytes;
  (** [ec_key()?.public_key().to_bytes(COMPRESSED)] *)
  pk_compressed : res (list Z) bytes;
}.

Record X509Lib := {
  (** [X509::from_der(..)?.public_key()?] *)
  x509_public_key : bytes -> res (list Z) PKey;
  (** the first subject common name, if it is text *)
  x509_subject_cn : bytes -> option (list Z);
  (** [openssl::base64::encode_block] *)
  encode_block : bytes -> list Z;
}.

Inductive KeyError : Type :=
| KeyLib (text : list Z)
| NotEd25519
| Ed25519Length (n : Z)
| PointLength (expected got : Z).

(** Why a slot has no identifier. *)
Inductive Reason : Type :=
| SlotAlgorithm (slot : list Z) (algo : PivAlgorithm)
| PubkeyDecode (e : KeyError)
| MarklBuild (e : ParseError)
| NotAnSshSlot (slot : list Z)
| NoSshFormat (slot : list Z) (algo : PivAlgorithm).

Record ClassifyInput := MkInput {
  in_slot_id : Z;
  in_guid : Guid;
  in_reader : list Z;
  in_serial : option Z;
  in_serial_diag : option (list Z);
  in_algo : PivAlgorithm;
  in_cert_der : bytes;
  in_pin_policy : option PinPolicy.t;
  in_touch_policy : option TouchPolicy.t;
}.

Inductive Classification : Type :=
| Supported (id : Id) (guid : Guid) (reader : list Z) (serial : option Z) (serial_diag : option (list Z)) (slot_id : Z)
    (cn : option (list Z)) (pin_policy : option PinPolicy.t) (touch_policy : option TouchPolicy.t)
| Unsupported (guid : Guid) (reader : list Z) (serial : option Z) (serial_diag : option (list Z)) (slot_id : Z)
    (cn : option (list Z)) (pin_policy : option PinPolicy.t) (touch_policy : option TouchPolicy.t) (reason : Reason)
| Uninitialized (guid : Guid) (reader : list Z) (serial : option Z) (serial_diag : option (list Z)).

(** [impl Classification] *)
Definition cl_guid (c : Classification) : Guid :=
  match c with Supported _ g _ _ _ _ _ _ _ | Unsupported g _ _ _ _ _ _ _ _ | Uninitialized g _ _ _ => g end.
Definition cl_reader (c : Classification) : list Z :=
  match c with Supported _ _ r _ _ _ _ _ _ | Unsupported _ r _ _ _ _ _ _ _ | Uninitialized _ r _ _ => r end.
Definition cl_serial (c : Classification) : option Z :=
  match c with Supported _ _ _ s _ _ _ _ _ | Unsupported _ _ s _ _ _ _ _ _ | Uninitialized _ _ s _ => s end.
Definition cl_serial_diag (c : Classification) : option (list Z) :=
  match c with Supported _ _ _ _ d _ _ _ _ | Unsupported _ _ _ d _ _ _ _ _ | Uninitialized _ _ _ d => d end.
Definition cl_slot_id (c : Classification) : Z :=
  match c with Supported _ _ _ _ _ s _ _ _ | Unsupported _ _ _ _ s _ _ _ _ => s | Uninitialized _ _ _ _ => 0x00 end.
Definition cl_cn (c : Classification) : option (list Z) :=
  match c with Supported _ _ _ _ _ _ n _ _ | Unsupported _ _ _ _ _ n _ _ _ => n | Uninitialized _ _ _ _ => None end.
Definition cl_pin_policy (c : Classification) : option PinPolicy.t :=
  match c with Supported _ _ _ _ _ _ _ p _ | Unsupported _ _ _ _ _ _ p _ _ => p | Uninitialized _ _ _ _ => None end.
Definition cl_touch_policy (c : Classification) : option TouchPolicy.t :=
  match c with Supported _ _ _ _ _ _ _ _ t | Unsupported _ _ _ _ _ _ _ t _ => t | Uninitialized _ _ _ _ => None end.

Definition supported (i : ClassifyInput) (id : Id) (cn : option (list Z)) : Classification :=
  Supported id (in_guid i) (in_reader i) (in_serial i) (in_serial_diag i) (in_slot_id i) cn (in_pin_policy i) (in_touch_policy i).
Definition unsupported (i : ClassifyInput) (cn : option (list Z)) (reason : Reason) : Classification :=
  Unsupported (in_guid i) (in_reader i) (in_serial i) (in_serial_diag i) (in_slot_id i) cn (in_pin_policy i) (in_touch_policy i) reason.

(** [{:02X}] *)
Definition upper_hex (d : Z) : Z := if d <? 10 then 48 + d else 55 + d.
Definition format_slot_id (slot_id : Z) : list Z := [upper_hex (slot_id / 16); upper_hex (slot_id mod 16)].

Section Classify.
Context (X : X509Lib).

Definition compress_ec_pubkey (cert_der : bytes) (expected_len : Z) : res KeyError bytes :=
  let* pubkey := map_err KeyLib (x509_public_key X cert_der) in
  let* compressed := map_err KeyLib (pk_compressed pubkey) in
  if negb (len compressed =? expected_len) then Err (PointLength expected_len (len compressed)) else Ok compressed.

(** [piggy_piv::cert::raw_ed25519_from_spki] *)
Definition raw_ed25519_from_spki (pkey : PKey) : res KeyError bytes :=
  if negb (pk_is_ed25519 pkey) then Err NotEd25519
  else
    let* raw := map_err KeyLib (pk_raw pkey) in
    if len raw =? 32 then Ok raw else Err (Ed25519Length (len raw)).

Definition raw_ed25519_pubkey (cert_der : bytes) : res KeyError bytes :=
  let* pubkey := map_err KeyLib (x509_public_key X cert_der) in raw_ed25519_from_spki pubkey.

Definition finish (i : ClassifyInput) (cn : option (list Z)) (purpose : PurposeId) (format : FormatId) (payload : res KeyError bytes)
    : res Empty_set Classification :=
  match payload with
  | Err e => Ok (unsupported i cn (PubkeyDecode e))
  | Panic => Panic
  | Ok payload =>
      match id_new (Some purpose) format payload with
      | Ok id => Ok (supported i id cn)
      | Err e => Ok (unsupported i cn (MarklBuild e))
      | Panic => Panic
      end
  end.

Definition classify_slot (i : ClassifyInput) : res Empty_set Classification :=
  let cn := x509_subject_cn X (in_cert_der i) in
  if negb (bool_decide (in_algo i = EcP256)) then Ok (unsupported i cn (SlotAlgorithm (format_slot_id (in_slot_id i)) (in_algo i)))
  else finish i cn PiggyRecipientV1 PivyEcdhP256Pub (compress_ec_pubkey (in_cert_der i) (format_size PivyEcdhP256Pub)).

Definition classify_slot_9d (guid : Guid) (reader : list Z) (serial : option Z) (algo : PivAlgorithm) (cert_der : bytes)
    : res Empty_set Classification :=
  classify_slot (MkInput 0x9D guid reader serial None algo cert_der None None).

Definition purpose_for_ssh_slot (slot_id : Z) : option PurposeId :=
  if slot_id =? 0x9A then Some PiggyPivAuthV1
  else if slot_id =? 0x9C then Some PiggyPivSigV1
  else if slot_id =? 0x9E then Some PiggyPivCardAuthV1
  else None.

Definition ssh_format (algo : PivAlgorithm) : option FormatId :=
  match algo with
  | EcP256 => Some SshEcdsaNistp256Pub
  | EcP384 => Some SshEcdsaNistp384Pub
  | AlgEd25519 => Some SshEd25519Pub
  | _ => None
  end.

Definition ssh_payload (format : FormatId) (cert_der : bytes) : res KeyError bytes :=
  if bool_decide (format = SshEd25519Pub) then raw_ed25519_pubkey cert_der else compress_ec_pubkey cert_der (format_size format).

Definition classify_ssh_slot (i : ClassifyInput) : res Empty_set Classification :=
  let cn := x509_subject_cn X (in_cert_der i) in
  match purpose_for_ssh_slot (in_slot_id i) with
  | None => Ok (unsupported i cn (NotAnSshSlot (format_slot_id (in_slot_id i))))
  | Some purpose =>
      match ssh_format (in_algo i) with
      | None => Ok (unsupported i cn (NoSshFormat (format_slot_id (in_slot_id i)) (in_algo i)))
      | Some format => finish i cn purpose format (ssh_payload format (in_cert_der i))
      end
  end.
End Classify.

(** ** [authorized_keys] lines *)

Inductive LineError : Type :=
| LineCrypto (e : BoxError)
| NoWireForm (format : FormatId).

Section Lines.
Context (X : X509Lib) (C : Crypto).

Definition openssh_line_from_compressed_ec (compressed : bytes) (curve : EcCurve) : res LineError (list Z) :=
  let* point := map_err LineCrypto (ec_from_bytes C curve compressed) in
  let* uncompressed := map_err LineCrypto (ec_uncompressed C curve point) in
  Ok (ssh_keytype curve ++ [32] ++ encode_block X (ec_point_to_ssh_pubkey_blob curve uncompressed)).

Definition openssh_line_from_ed25519 (key : bytes) : list Z :=
  ascii "ssh-ed25519" ++ [32] ++ encode_block X (ed25519_to_ssh_pubkey_blob key).

Definition openssh_authorized_key (id : Id) : res LineError (list Z) :=
  match id_format id with
  | SshEcdsaNistp256Pub => openssh_line_from_compressed_ec (id_data id) NistP256
  | SshEcdsaNistp384Pub => openssh_line_from_compressed_ec (id_data id) NistP384
  | SshEd25519Pub => Ok (openssh_line_from_ed25519 (id_data id))
  | other => Err (NoWireForm other)
  end.
End Lines.

(** ** Lemmas *)

(** OpenSSL returns; what it returns are bytes. *)
Record X509Laws (X : X509Lib) : Prop := {
  public_key_returns : forall der, no_panic (x509_public_key X der);
  raw_returns : forall der k, x509_public_key X der = Ok k -> no_panic (pk_raw k) /\ forall b, pk_raw k = Ok b -> bytes_ok b;
  compressed_returns : forall der k, x509_public_key X der = Ok k ->
    no_panic (pk_compressed k) /\ forall b, pk_compressed k = Ok b -> bytes_ok b;
}.

Section Facts.
Context (X : X509Lib) (L : X509Laws X).

(** A payload of the size asked for, or an error. *)
Definition sized (n : Z) (r : res KeyError bytes) : Prop :=
  no_panic r /\ forall b, r = Ok b -> len b = n /\ bytes_ok b.

Lemma compress_sized der n : sized n (compress_ec_pubkey X der n).
Proof.
  unfold compress_ec_pubkey. pose proof (public_key_returns X L der) as Hp. pose proof (compressed_returns X L der) as Hc.
  destruct (x509_public_key X der) as [k|e|]; cbn; [|split; discriminate|contradiction]. destruct (Hc k eq_refl) as [Hn Hb].
  destruct (pk_compressed k) as [b|e|]; cbn; [|split; discriminate|contradiction].
  destruct (len b =? n) eqn:E; cbn; [|split; discriminate]. bprop. split; [discriminate|]. intros b' [= <-]. auto.
Qed.

Lemma raw_sized der : sized 32 (raw_ed25519_pubkey X der).
Proof.
  unfold raw_ed25519_pubkey, raw_ed25519_from_spki. pose proof (public_key_returns X L der) as Hp. pose proof (raw_returns X L der) as Hc.
  destruct (x509_public_key X der) as [k|e|]; cbn; [|split; discriminate|contradiction]. destruct (Hc k eq_refl) as [Hn Hb].
  destruct (pk_is_ed25519 k); cbn; [|split; discriminate]. destruct (pk_raw k) as [b|e|]; cbn; [|split; discriminate|contradiction].
  destruct (len b =? 32) eqn:E; [|split; discriminate]. bprop. split; [discriminate|]. intros b' [= <-]. auto.
Qed.

Lemma ssh_payload_sized der algo f : ssh_format algo = Some f -> sized (format_size f) (ssh_payload X f der).
Proof.
  intros H. unfold ssh_payload. case_bool_decide as E; [|apply compress_sized]. subst f. exact (raw_sized der).
Qed.

(** With a payload of the right size and a purpose that takes the format, there
    is an identifier. *)
Lemma finish_exact i cn purpose format payload :
  sized (format_size format) payload -> accepts purpose format = true -> is_other purpose = false ->
  finish i cn purpose format payload =
  Ok (match payload with
      | Ok b => supported i (MkId (Some purpose) format b) cn
      | Err e => unsupported i cn (PubkeyDecode e)
      | Panic => unsupported i cn (PubkeyDecode NotEd25519)
      end).
Proof.
  intros [Hn Hs] Ha Ho. unfold finish. destruct payload as [b|e|]; [|reflexivity|contradiction]. destruct (Hs b eq_refl) as [Hl _].
  unfold id_new. rewrite Hl, Z.eqb_refl. cbn [negb]. rewrite Ho. cbn [negb]. unfold validate_format. now rewrite Ha.
Qed.
End Facts.

(** A slot that is supported: its identifier, and what is known of the key. *)
Definition identifier_of (c : Classification) : option Id := match c with Supported id _ _ _ _ _ _ _ _ => Some id | _ => None end.

(** What every classification carries over from its input. *)
Definition about_slot (i : ClassifyInput) (X : X509Lib) (c : Classification) : Prop :=
  cl_guid c = in_guid i /\ cl_reader c = in_reader i /\ cl_serial c = in_serial i /\ cl_serial_diag c = in_serial_diag i /\
  cl_slot_id c = in_slot_id i /\ cl_cn c = x509_subject_cn X (in_cert_der i) /\
  cl_pin_policy c = in_pin_policy i /\ cl_touch_policy c = in_touch_policy i.

(** The purpose and the format a slot's key is listed with. *)
Definition listed_as (i : ClassifyInput) : option (PurposeId * FormatId) :=
  p ← purpose_for_ssh_slot (in_slot_id i); f ← ssh_format (in_algo i); Some (p, f).

Lemma purpose_known s p : purpose_for_ssh_slot s = Some p -> is_other p = false.
Proof. unfold purpose_for_ssh_slot. repeat case_match; intros [= <-]; reflexivity. Qed.

Lemma purpose_accepts i p f : listed_as i = Some (p, f) -> accepts p f = true.
Proof.
  unfold listed_as, purpose_for_ssh_slot. intros H. repeat case_match; try discriminate; cbn in H;
    destruct (in_algo i); try discriminate; injection H as <- <-; reflexivity.
Qed.

(** ** Properties *)

(** A slot is listed with an identifier exactly when its
    algorithm is P-256 (a recipient), or one of those of its SSH purpose, and its
    certificate holds a key of that kind, which is the identifier's payload; what
    else is known of the slot is carried over, and no certificate panics. *)
Theorem classification_exact X i :
  X509Laws X ->
  (exists c, classify_slot X i = Ok c /\ about_slot i X c /\
    forall id, identifier_of c = Some id <->
      in_algo i = EcP256 /\ exists b, compress_ec_pubkey X (in_cert_der i) 33 = Ok b /\ id = MkId (Some PiggyRecipientV1) PivyEcdhP256Pub b) /\
  (exists c, classify_ssh_slot X i = Ok c /\ about_slot i X c /\
    forall id, identifier_of c = Some id <->
      exists p f b, listed_as i = Some (p, f) /\ ssh_payload X f (in_cert_der i) = Ok b /\ id = MkId (Some p) f b).
Proof.
  intros L. split.
  - unfold classify_slot. case_bool_decide as E; cbn [negb].
    + rewrite finish_exact by (reflexivity || apply (compress_sized X L)). eexists. split; [reflexivity|].
      change (format_size PivyEcdhP256Pub) with 33. destruct (compress_ec_pubkey X (in_cert_der i) 33) as [b|e|] eqn:Eb; (split; [repeat split|]).
      all: intros id; split; [|intros (_ & b' & [= <-] & ->); reflexivity || discriminate].
      all: cbn; intros [= <-]. split; [exact E|]. eauto.
    + eexists. split; [reflexivity|]. split; [repeat split|]. intros id. split; [discriminate|]. intros (Ea & _). contradiction.
  - unfold classify_ssh_slot, listed_as. destruct (purpose_for_ssh_slot (in_slot_id i)) as [p|] eqn:Ep.
    2:{ eexists. split; [reflexivity|]. split; [repeat split|]. intros id. cbn. split; [discriminate|]. intros (? & ? & ? & [=] & _). }
    destruct (ssh_format (in_algo i)) as [f|] eqn:Ef; cbn.
    2:{ eexists. split; [reflexivity|]. split; [repeat split|]. intros id. split; [discriminate|]. intros (? & ? & ? & [=] & _). }
    assert (Hl : listed_as i = Some (p, f)) by (unfold listed_as; now rewrite Ep, Ef).
    rewrite finish_exact; [|exact (ssh_payload_sized X L _ _ _ Ef)|exact (purpose_accepts i p f Hl)|exact (purpose_known _ _ Ep)].
    eexists. split; [reflexivity|]. destruct (ssh_payload X f (in_cert_der i)) as [b|e|] eqn:Eb; (split; [repeat split|]).
    all: intros id; split; [cbn; intros [= <-]; eauto 10|intros (p' & f' & b' & [= <- <-] & Hb & ->); rewrite Eb in Hb; try discriminate; injection Hb as <-; reflexivity].
Qed.

(** From a card to a sealed secret: the identifier a P-256 slot is
    listed with can be put in a [piggy-ids] file with its common name, the file
    reads back as that one entry, and the template made of it is the one part with
    the key of the slot's certificate. *)
Theorem listed_slot_is_a_recipient X i c id comment :
  X509Laws X -> classify_slot X i = Ok c -> identifier_of c = Some id -> (forall n, comment = Some n -> trim n = n /\ ~ In 10 n) ->
  exists r text key, recipient_new id comment = Ok r /\ render [r] = Ok text /\ parse text = Ok [r] /\
    compress_ec_pubkey X (in_cert_der i) 33 = Ok key /\
    template_from_recipients (ids_of (encryption_recipients [r])) =
      Ok (MkTemplate 1 [MkTplConfig Primary 1 [MkTplPart None DEFAULT_SLOT None key NistP256 None]]).
Proof.
  intros L Hc Hid Hcm. unfold classify_slot in Hc. case_bool_decide as E; cbn [negb] in Hc; [|injection Hc as <-; discriminate].
  pose proof (compress_sized X L (in_cert_der i) 33) as [Hn Hs]. change (format_size PivyEcdhP256Pub) with 33 in Hc.
  rewrite finish_exact in Hc by (reflexivity || (split; assumption)). injection Hc as <-.
  destruct (compress_ec_pubkey X (in_cert_der i) 33) as [key|e|] eqn:Ek; cbn in Hid; try discriminate. injection Hid as <-.
  destruct (Hs key eq_refl) as [Hl Hb]. set (r := MkRecipient (MkId (Some PiggyRecipientV1) PivyEcdhP256Pub key) comment).
  assert (Hok : Forall entry_ok [r]).
  { constructor; [|constructor]. constructor; cbn; auto. split; [exact Hl|]. intros p [= <-] _. reflexivity. }
  destruct (render_parse [r] Hok) as (text & Hr & Hp). exists r, text, key. split; [reflexivity|]. split; [exact Hr|].
  split; [exact (Hp 1)|]. split; [reflexivity|]. now rewrite (template_of_file [r] Hok).
Qed.

(** ** Witnesses *)

Definition toy_pkey : PKey := MkPKey false (Err []) (Ok (3 :: repeat 8 32)).
Definition toy_x509 : X509Lib := {|
  x509_public_key der := if len der =? 0 then Err [] else Ok toy_pkey;
  x509_subject_cn der := Some (ascii "alice");
  encode_block b := b;
|}.

Lemma toy_x509_laws : X509Laws toy_x509.
Proof.
  split; cbn; intros der; [destruct (len der =? 0); discriminate| |]; intros k; destruct (len der =? 0); try discriminate; intros [= <-]; cbn.
  - split; discriminate.
  - split; [discriminate|]. intros b [= <-]. by_compute.
Qed.

Definition toy_slot : ClassifyInput := MkInput 0x9D (MkGuid (repeat 1 16)) (ascii "reader") None None EcP256 [48] None None.

Lemma classification_exact_witness :
  exists c, classify_slot toy_x509 toy_slot = Ok c /\ identifier_of c = Some (MkId (Some PiggyRecipientV1) PivyEcdhP256Pub (3 :: repeat 8 32)).
Proof.
  destruct (proj1 (classification_exact toy_x509 toy_slot toy_x509_laws)) as (c & Hc & _ & Hid). exists c. split; [exact Hc|].
  apply Hid. split; [reflexivity|]. eexists. split; reflexivity.
Defined.

Lemma listed_slot_is_a_recipient_witness :
  exists r text key, recipient_new (MkId (Some PiggyRecipientV1) PivyEcdhP256Pub (3 :: repeat 8 32)) (Some (ascii "alice")) = Ok r /\
    render [r] = Ok text /\ parse text = Ok [r] /\ compress_ec_pubkey toy_x509 [48] 33 = Ok key /\
    template_from_recipients (ids_of (encryption_recipients [r])) =
      Ok (MkTemplate 1 [MkTplConfig Primary 1 [MkTplPart None DEFAULT_SLOT None key NistP256 None]]).
Proof.
  refine (listed_slot_is_a_recipient toy_x509 toy_slot _ _ _ toy_x509_laws eq_refl eq_refl _).
  intros n [= <-]. split; [vm_compute; reflexivity|]. cbn. lia.
Defined.
