(* ===== verification/Pigpen.v ===== *)
(** * Pigpen: the errors of [piggy-pigpen], [src/lib.rs]

    A message is a constructor with the values it interpolates. *)

From Stdlib Require Import ZArith.
From stdpp Require Import base tactics list numbers strings.
From S2P Require Import Prelude Utf8 Blech32 Markl.

Local Open Scope Z_scope.

Inductive HyphenceError : Type :=
| EmptyInput
| MissingOpening
| MalformedLine (line : bytes)
| BodyNotUtf8
| UnknownPrefix (prefix : Z)
| MissingClosing
| NoSeparator
| AtWithBody.

Inductive CryptoError : Type :=
| AeadSeal
| AeadOpen
| LowOrder (what : string)
| BadX25519Recipient
| BadX25519Wrap
| BadX25519Secret
| BadP256Recipient
| BadP256Secret
| BadP256Wrap
| PayloadSeal.

Inductive PayloadError : Type :=
| ShorterThanNonce
| NoFinalChunk
| ChunkRefused (i : Z).

Inductive MarklProblem : Type :=
| RecipientId (e : ParseError)
| BadWrap (wrap_format recipient : FormatId) (e : ParseError)
| BadWrapLock (s : list Z) (e : ParseError)
| BadMac (e : ParseError)
| BadMacLock (s : list Z) (e : ParseError).

Inductive MalformedWhat : Type :=
| NoRecipients
| EphemeralCount (ephemeral recipients : Z)
| NotSealed
| AtPayload
| TwoTypeLines
| MissingTypeLine
| Mixed
| NoWrapped
| MissingMac
| MissingPayload
| UnexpectedType (tag : list Z)
| WrapPurpose (p : option (list Z))
| WrapFormat (recipient got want : FormatId)
| MacPurpose (p : list Z)
| MacFormat (got want : FormatId)
| EmptyPurpose (id : list Z)
| Newline (field : string)
| PointerQuote (field : string)
| NotPointer (tag : option (list Z))
| PointerBody
| PointerLine (body : list Z)
| PointerMissing (field : string)
| KindEmpty
| KindSeparator (kind : list Z).

Inductive UnsupportedWhat : Type :=
| Unwrappable (f : FormatId)
| NotARecipient (id : list Z)
| NoWrapFormat (f : FormatId)
| NotCardRecipient (f : FormatId).

(** What the oracle over an agent says went wrong. *)
Inductive AgentProblem : Type :=
| NotAPoint (what : string)
| SocketConnect
| SocketTimeout
| SocketWrite (name : bytes)
| ReadReplyLength (name : bytes)
| ReplyTooLarge (name : bytes) (n : Z)
| ReadReply (name : bytes)
| TruncatedReply (name : bytes)
| EchoedName (name echoed : bytes)
| TrailingReply (name : bytes) (n : Z)
| SecretLength (name : bytes) (n : Z)
| ReplyType (name : bytes) (other : Z)
| RefusedBoth.

Inductive PigpenError : Type :=
| HyphenceErr (e : HyphenceError)
| MarklErr (e : MarklProblem)
| CryptoErr (e : CryptoError)
| UnsupportedFormat (w : UnsupportedWhat)
| Malformed (w : MalformedWhat)
| NoRecipient
| OracleErr (failures : list PigpenError)
| MacMismatch
| PayloadErr (e : PayloadError)
| AgentOracleErr (e : AgentProblem).
