(* ===== verification/Hyphence.v ===== *)
(** * Hyphence: the framing of a pigpen document, [piggy-pigpen/src/hyphence.rs]

    Metadata lines of a one-byte prefix and a body, between two [---] boundaries,
    and the payload behind a blank line.  The position of [parse] in its buffer is
    the part of the buffer behind it. *)

From Stdlib Require Import ZArith Lia.
From stdpp Require Import base tactics list numbers.
From S2P Require Import Prelude Utf8 Text Blech32 Markl Pigpen.

Local Open Scope Z_scope.

(** ** Definitions *)

Definition LF : Z := 10.
Definition BOUNDARY : bytes := [45; 45; 45; LF].

(** The prefixes [#], [-], [@] and [!]. *)
Definition P_DESC : Z := 35.
Definition P_ITEM : Z := 45.
Definition P_AT : Z := 64.
Definition P_TYPE : Z := 33.

Record MetaLine := MkLine { prefix : Z; body : list Z }.
Record HyphenceDoc := MkHyphence { meta : list MetaLine; payload_body : bytes }.

Definition has_at_ref (d : HyphenceDoc) : bool := existsb (fun l => prefix l =? P_AT) (meta d).

Definition line_bytes (l : MetaLine) : bytes := prefix l :: 32 :: as_bytes (body l) ++ [LF].

Definition with_prefix (want : Z) (ls : list MetaLine) : list MetaLine :=
  List.filter (fun l => prefix l =? want) ls.

Definition marshal_metadata (d : HyphenceDoc) : bytes :=
  BOUNDARY
  ++ mbind (fun want => mbind line_bytes (with_prefix want (meta d))) [P_DESC; P_ITEM; P_AT; P_TYPE]
  ++ BOUNDARY.

Definition marshal (d : HyphenceDoc) : res PigpenError bytes :=
  if has_at_ref d && negb (bool_decide (payload_body d = [])) then Err (HyphenceErr AtWithBody)
  else
    Ok (marshal_metadata d
        ++ if negb (bool_decide (payload_body d = [])) then LF :: payload_body d else []).

(** The next line with its line feed, if it has one, and what is behind it. *)
Definition read_line (text : bytes) : option (bytes * bytes) :=
  match text with
  | [] => None
  | _ =>
      match position (fun b => b =? LF) text with
      | Some i => Some (take (S i) text, drop (S i) text)
      | None => Some (text, [])
      end
  end.

Definition strip_lf (line : bytes) : bytes :=
  if bool_decide (list.last line = Some LF) then take (pred (length line)) line else line.

Definition known_prefix (p : Z) : bool := (p =? P_DESC) || (p =? P_ITEM) || (p =? P_AT) || (p =? P_TYPE).

Definition read_meta (line : bytes) : res PigpenError MetaLine :=
  let content := strip_lf line in
  let* malformed := if len content <? 2 then Ok true
                    else let* sep := index content 1 in Ok (negb (sep =? 32)) in
  if malformed : bool then Err (HyphenceErr (MalformedLine line))
  else
    let* p := index content 0 in
    if known_prefix p then
      let* raw := slice_from content 2 in
      let* text := ok_or (from_utf8 raw) (HyphenceErr BodyNotUtf8) in
      Ok (MkLine p text)
    else Err (HyphenceErr (UnknownPrefix p)).

(** The [while let Some(line)] loop: the lines read, and what is behind the
    closing boundary.  A turn takes at least one byte. *)
Fixpoint read_metas (fuel : nat) (ls : list MetaLine) (text : bytes) : res PigpenError (list MetaLine * bytes) :=
  match fuel with
  | O => Panic
  | S k =>
      match read_line text with
      | None => Err (HyphenceErr MissingClosing)
      | Some (line, rest) =>
          if bytes_eqb line BOUNDARY then Ok (ls, rest)
          else let* l := read_meta line in read_metas k (ls ++ [l]) rest
      end
  end.

Definition parse (raw : bytes) : res PigpenError HyphenceDoc :=
  let* (first, text) := ok_or (read_line raw) (HyphenceErr EmptyInput) in
  if negb (bytes_eqb first BOUNDARY) then Err (HyphenceErr MissingOpening)
  else
    let* (ls, rest) := read_metas (S (length text)) [] text in
    let* body := match rest with
                 | [] => Ok []
                 | c :: behind => if negb (c =? LF) then Err (HyphenceErr NoSeparator) else Ok behind
                 end in
    let d := MkHyphence ls body in
    if has_at_ref d && negb (bool_decide (payload_body d = [])) then Err (HyphenceErr AtWithBody)
    else Ok d.

(** ** Lines *)

(** A line that the writer may be given: a prefix the reader knows, and text
    without a line feed. *)
Definition line_ok (l : MetaLine) : Prop :=
  known_prefix (prefix l) = true /\ Forall (fun c => is_char c = true) (body l) /\ ~ In LF (body l).

Lemma position_app_hit {A} (f : A -> bool) u x v :
  Forall (fun y => f y = false) u -> f x = true -> position f (u ++ x :: v) = Some (length u).
Proof.
  intros Hu Hx. induction Hu as [|y u Hy Hu IH]; cbn [app position length]; [now rewrite Hx|].
  now rewrite Hy, IH.
Qed.

Lemma read_line_app u v : ~ In LF u -> read_line (u ++ LF :: v) = Some (u ++ [LF], v).
Proof.
  intros Hu. assert (Hp : position (fun b => b =? LF) (u ++ LF :: v) = Some (length u)).
  { apply position_app_hit; [|reflexivity]. apply Forall_forall. intros x Hx. apply Z.eqb_neq. intros ->.
    apply Hu. now apply list_elem_of_In. }
  unfold read_line. destruct (u ++ LF :: v) as [|y l] eqn:E; [destruct u; discriminate|].
  rewrite Hp, <- E. replace (u ++ LF :: v) with ((u ++ [LF]) ++ v) by now rewrite <- app_assoc.
  replace (S (length u)) with (length (u ++ [LF])) by (rewrite length_app; simpl; lia).
  now rewrite take_app_length, drop_app_length.
Qed.

(** Every line is shorter than the text: at least one byte is taken. *)
Lemma read_line_shorter text line rest : read_line text = Some (line, rest) -> (length rest < length text)%nat.
Proof.
  unfold read_line. destruct text as [|b text]; [discriminate|].
  destruct (position _ _) as [i|]; intros [= <- <-]; [|simpl; lia]. rewrite length_drop. simpl. lia.
Qed.

Lemma strip_lf_snoc u : strip_lf (u ++ [LF]) = u.
Proof.
  unfold strip_lf. rewrite last_snoc, bool_decide_eq_true_2 by reflexivity. rewrite length_app.
  change (length [LF]) with 1%nat. rewrite Nat.add_1_r. apply take_app_length.
Qed.

Lemma line_bytes_no_lf l : line_ok l -> ~ In LF (prefix l :: 32 :: as_bytes (body l)).
Proof.
  intros (Hp & _ & Hb) [H|[H|H]]; [|discriminate|].
  - unfold known_prefix in Hp. rewrite H in Hp. discriminate.
  - apply Hb. now apply as_bytes_ascii_in.
Qed.

Lemma read_meta_line l : line_ok l -> read_meta (line_bytes l) = Ok l.
Proof.
  intros (Hp & Hc & _). unfold read_meta, line_bytes.
  change (prefix l :: 32 :: as_bytes (body l) ++ [LF]) with ((prefix l :: 32 :: as_bytes (body l)) ++ [LF]).
  rewrite strip_lf_snoc. set (c := prefix l :: 32 :: as_bytes (body l)).
  assert (Hl : 2 <= len c) by (unfold c; rewrite !len_cons; pose proof (len_nonneg (as_bytes (body l))); lia).
  rewrite (proj2 (Z.ltb_ge _ _) Hl). rewrite (index_Ok c 1 32 (as_bytes (body l))) by (reflexivity || lia). cbn [res_bind].
  change (32 =? 32) with true. cbn [negb]. rewrite (index_Ok c 0 (prefix l) (32 :: as_bytes (body l))) by (reflexivity || lia).
  cbn [res_bind]. rewrite Hp, slice_from_Ok by lia. change (zdrop 2 c) with (as_bytes (body l)). cbn [res_bind].
  rewrite from_utf8_as_bytes by exact Hc. now destruct l.
Qed.

Lemma line_not_boundary l : bytes_eqb (line_bytes l) BOUNDARY = false.
Proof. apply bool_decide_eq_false_2. unfold line_bytes, BOUNDARY. intros [= _ H]. Qed.

(** What is written is read: the lines, up to the closing boundary. *)
Lemma read_metas_lines ls : forall fuel acc rest,
  Forall line_ok ls -> (length ls < fuel)%nat ->
  read_metas fuel acc (mbind line_bytes ls ++ BOUNDARY ++ rest) = Ok (acc ++ ls, rest).
Proof.
  induction ls as [|l ls IH]; intros [|fuel] acc rest Hok Hf; simpl in Hf; try lia.
  - cbn [mbind list_bind app]. rewrite app_nil_r. cbn [read_metas]. change (BOUNDARY ++ rest) with ([45; 45; 45] ++ LF :: rest).
    rewrite read_line_app by (intros [|[|[|[]]]]; discriminate). reflexivity.
  - apply list.Forall_cons in Hok as [Hl Hok]. rewrite bind_cons, <- app_assoc. cbn [read_metas].
    unfold line_bytes at 1.
    replace ((prefix l :: 32 :: as_bytes (body l) ++ [LF]) ++ mbind line_bytes ls ++ BOUNDARY ++ rest)
      with ((prefix l :: 32 :: as_bytes (body l)) ++ LF :: (mbind line_bytes ls ++ BOUNDARY ++ rest))
      by (cbn [app]; now rewrite <- app_assoc).
    rewrite read_line_app by now apply line_bytes_no_lf.
    change ((prefix l :: 32 :: as_bytes (body l)) ++ [LF]) with (line_bytes l).
    rewrite line_not_boundary, read_meta_line by exact Hl. cbn [res_bind].
    rewrite IH by (assumption || lia). now rewrite <- app_assoc.
Qed.

(** ** The document *)

(** The lines in the order the writer gives them. *)
Definition canon (ls : list MetaLine) : list MetaLine :=
  mbind (fun want => with_prefix want ls) [P_DESC; P_ITEM; P_AT; P_TYPE].

Lemma marshal_metadata_canon d : marshal_metadata d = BOUNDARY ++ mbind line_bytes (canon (meta d)) ++ BOUNDARY.
Proof. unfold marshal_metadata, canon. do 2 f_equal. cbn [mbind list_bind]. now rewrite !bind_app. Qed.

Lemma in_canon l ls : known_prefix (prefix l) = true -> In l (canon ls) <-> In l ls.
Proof.
  intros Hp. unfold canon, with_prefix. cbn [mbind list_bind]. rewrite !in_app_iff, !filter_In.
  unfold known_prefix in Hp. rewrite !orb_true_iff in Hp. cbn [In]. tauto.
Qed.

Lemma canon_ok ls : Forall line_ok ls -> Forall line_ok (canon ls).
Proof.
  rewrite !List.Forall_forall. intros H l Hl. apply H. unfold canon, with_prefix in Hl. cbn [mbind list_bind] in Hl.
  rewrite !in_app_iff, !filter_In in Hl. cbn [In] in Hl. tauto.
Qed.

Lemma canon_at ls b : Forall line_ok ls -> has_at_ref (MkHyphence (canon ls) b) = has_at_ref (MkHyphence ls b).
Proof.
  intros Hok. unfold has_at_ref. cbn [meta]. apply eq_true_iff_eq. rewrite !existsb_exists.
  split; intros (l & Hl & Hp); exists l; (split; [|exact Hp]);
    apply (in_canon l ls); try assumption; apply Z.eqb_eq in Hp; unfold known_prefix; now rewrite Hp.
Qed.

Lemma lines_length ls : (length ls <= length (mbind line_bytes ls))%nat.
Proof. induction ls as [|l ls IH]; [simpl; lia|]. rewrite bind_cons, length_app. simpl. lia. Qed.

(** A document reads back as it was written, its lines in canonical order. *)
Lemma parse_marshal d w :
  Forall line_ok (meta d) -> marshal d = Ok w -> parse w = Ok (MkHyphence (canon (meta d)) (payload_body d)).
Proof.
  intros Hok. unfold marshal. destruct (has_at_ref d && _) eqn:Hat; [discriminate|]. intros <-%Ok_inj.
  rewrite marshal_metadata_canon. set (ls := canon (meta d)). set (tail := if negb _ then _ else _).
  unfold parse. change BOUNDARY with ([45; 45; 45] ++ [LF]) at 1. rewrite <- !app_assoc. cbn [app].
  change (45 :: 45 :: 45 :: LF :: ?v) with ([45; 45; 45] ++ LF :: v).
  rewrite read_line_app by (intros [|[|[|[]]]]; discriminate). cbn [ok_or res_bind].
  change (negb (bytes_eqb ([45; 45; 45] ++ [LF]) BOUNDARY)) with false. cbv iota.
  rewrite read_metas_lines; [|now apply canon_ok|rewrite !length_app; pose proof (lines_length ls); lia].
  cbn [res_bind app]. assert (Ht : (match tail with
                 | [] => Ok []
                 | c :: behind => if negb (c =? LF) then Err (HyphenceErr NoSeparator) else Ok behind
                 end : res PigpenError bytes) = Ok (payload_body d)).
  { unfold tail. destruct (payload_body d); reflexivity. }
  rewrite Ht. cbn [res_bind]. unfold ls. rewrite canon_at by exact Hok. cbn [payload_body].
  destruct d as [m b]. cbn [meta payload_body] in *. now rewrite Hat.
Qed.

(** ** No input makes the reader panic *)

Lemma strip_lf_len line : len (strip_lf line) <= len line.
Proof. unfold strip_lf, len. case_bool_decide; [rewrite length_take|]; lia. Qed.

Lemma read_meta_no_panic line : no_panic (read_meta line).
Proof.
  unfold read_meta. set (c := strip_lf line). destruct (Z.ltb_spec (len c) 2) as [H|H]; [cbn [res_bind]; auto with panic|].
  apply no_panic_bind; [apply no_panic_bind; [apply index_no_panic; lia|auto with panic]|].
  intros [] _; [auto with panic|]. apply no_panic_bind; [apply index_no_panic; lia|]. intros p _.
  destruct (known_prefix p); [|auto with panic]. rewrite slice_from_Ok by lia. cbn [res_bind].
  apply no_panic_bind; auto with panic.
Qed.

Lemma read_metas_no_panic fuel : forall ls text, (length text < fuel)%nat -> no_panic (read_metas fuel ls text).
Proof.
  induction fuel as [|k IH]; intros ls text Hf; [lia|]. cbn [read_metas].
  destruct (read_line text) as [[line rest]|] eqn:Hr; [|auto with panic]. destruct (bytes_eqb line BOUNDARY); [auto with panic|].
  apply no_panic_bind; [apply read_meta_no_panic|]. intros l _. apply IH. apply read_line_shorter in Hr. lia.
Qed.

Lemma parse_no_panic raw : no_panic (parse raw).
Proof.
  unfold parse. apply no_panic_bind; [auto with panic|]. intros [first text] _. destruct (negb _); [auto with panic|].
  apply no_panic_bind; [apply read_metas_no_panic; lia|]. intros [ls rest] _.
  apply no_panic_bind; [destruct rest; [|destruct (negb _)]; auto with panic|]. intros b _. destruct (_ && _); auto with panic.
Qed.
