(* ===== verification/PigpenCrypto.v ===== *)
(** * PigpenCrypto: the cipher suite of pigpen-v1, [piggy-pigpen/src/crypto.rs]

    How the suite puts its primitives together: the two wraps of a file key,
    the STREAM of the payload, the header MAC.  The primitives themselves
    (HKDF, ChaCha20-Poly1305, HMAC, X25519, P-256, of the RustCrypto crates) are
    the fields of [Suite]; an array argument [[u8; n]] is a list whose length
    the theorems assume. *)

From Stdlib Require Import ZArith Lia.
From stdpp Require Import base tactics list numbers strings.
From S2P Require Import Prelude Blech32 Markl Pigpen.

Local Open Scope Z_scope.

Record Suite := {
  (** [Hkdf::<Sha256>::new(Some(salt), ikm)] expanded to 32 bytes: ikm, salt, info *)
  hkdf_sha256 : bytes -> bytes -> bytes -> bytes;
  (** [ChaCha20Poly1305]: key, nonce, text *)
  chacha_seal : bytes -> bytes -> bytes -> option bytes;
  chacha_open : bytes -> bytes -> bytes -> option bytes;
  (** [Hmac::<Sha256>]: key, text; and [verify_slice] *)
  hmac_sha256 : bytes -> bytes -> bytes;
  hmac_verify : bytes -> bytes -> bytes -> bool;
  (** [x25519_dalek]: the public key of a secret, the exchange of a secret and
      a public key, [was_contributory] of a shared secret *)
  x25519_public : bytes -> bytes;
  x25519_dh : bytes -> bytes -> bytes;
  was_contributory : bytes -> bool;
  (** [p256]: points and scalars, their encodings, the X coordinate of a product *)
  P256Point : Type;
  P256Scalar : Type;
  p256_from_sec1 : bytes -> option P256Point;
  p256_scalar : bytes -> option P256Scalar;
  p256_public : P256Scalar -> P256Point;
  p256_compressed : P256Point -> bytes;
  p256_dh : P256Scalar -> P256Point -> bytes;
}.

(** Documented behaviour of the primitives. *)
Record SuiteLaws (C : Suite) : Prop := {
  chacha_roundtrip k n m c : chacha_seal C k n m = Some c -> chacha_open C k n c = Some m;
  (** a ciphertext is what its text is sealed to, and nothing else opens *)
  chacha_unique k n m c : chacha_open C k n c = Some m -> chacha_seal C k n m = Some c;
  chacha_len k n m c : chacha_seal C k n m = Some c -> len c = len m + 16 /\ bytes_ok c;
  chacha_seals k n m : bytes_ok m -> len m <= 65536 -> is_Some (chacha_seal C k n m);
  hmac_len k m : len (hmac_sha256 C k m) = 32 /\ bytes_ok (hmac_sha256 C k m);
  hmac_verifies k m t : hmac_verify C k m t = bytes_eqb (hmac_sha256 C k m) t;
  x25519_public_len s : len s = 32 -> len (x25519_public C s) = 32 /\ bytes_ok (x25519_public C s);
  x25519_agree a b : len a = 32 -> len b = 32 -> x25519_dh C a (x25519_public C b) = x25519_dh C b (x25519_public C a);
  p256_sec1 p : p256_from_sec1 C (p256_compressed C p) = Some p;
  p256_compressed_len p : len (p256_compressed C p) = 33 /\ bytes_ok (p256_compressed C p);
  p256_agree a b : p256_dh C a (p256_public C b) = p256_dh C b (p256_public C a);
}.

Definition FILE_KEY_LEN : Z := 16.
Definition PAYLOAD_NONCE_LEN : Z := 16.
Definition STREAM_CHUNK : Z := 64 * 1024.
Definition TAG_LEN : Z := 16.

Definition INFO_PAYLOAD : bytes := ascii "pigpen-v1 payload".
Definition INFO_HEADER : bytes := ascii "pigpen-v1 header".
Definition INFO_P256 : bytes := ascii "pigpen-v1 piv-p256".
Definition INFO_X25519 : bytes := ascii "pigpen-v1 x25519".

Definition ZERO_NONCE : bytes := repeat 0 12.

Section Crypto.
Context (C : Suite).

Definition aead_seal (key nonce plaintext : bytes) : res PigpenError bytes :=
  ok_or (chacha_seal C key nonce plaintext) (CryptoErr AeadSeal).

Definition aead_open (key nonce ciphertext : bytes) : res PigpenError bytes :=
  ok_or (chacha_open C key nonce ciphertext) (CryptoErr AeadOpen).

(** ** Wraps *)

Definition reject_low_order (shared : bytes) (what : string) : res PigpenError unit :=
  if was_contributory C shared then Ok tt else Err (CryptoErr (LowOrder what)).

Definition wrap_x25519 (file_key recipient_pub ephemeral_secret : bytes) : res PigpenError bytes :=
  if negb (len recipient_pub =? 32) then Err (CryptoErr BadX25519Recipient)
  else
    let epk := x25519_public C ephemeral_secret in
    let shared := x25519_dh C ephemeral_secret recipient_pub in
    let* _ := reject_low_order shared "recipient public key" in
    let kw := hkdf_sha256 C shared (epk ++ recipient_pub) INFO_X25519 in
    let* ct := aead_seal kw ZERO_NONCE file_key in
    Ok (epk ++ ct).

Definition unwrap_x25519 (blob recipient_pub recipient_sec : bytes) : res PigpenError bytes :=
  if negb (len blob =? 32 + FILE_KEY_LEN + TAG_LEN) then Err (CryptoErr BadX25519Wrap)
  else
    let epk := ztake 32 blob in
    let ct := zdrop 32 blob in
    if negb (len recipient_sec =? 32) then Err (CryptoErr BadX25519Secret)
    else
      let shared := x25519_dh C recipient_sec epk in
      let* _ := reject_low_order shared "ephemeral public key" in
      let kw := hkdf_sha256 C shared (epk ++ recipient_pub) INFO_X25519 in
      aead_open kw ZERO_NONCE ct.

Definition wrap_p256 (file_key recipient_compressed ephemeral_secret : bytes) : res PigpenError bytes :=
  let* recipient := ok_or (p256_from_sec1 C recipient_compressed) (CryptoErr BadP256Recipient) in
  let* esk := ok_or (p256_scalar C ephemeral_secret) (CryptoErr BadP256Secret) in
  let epk := p256_compressed C (p256_public C esk) in
  let shared := p256_dh C esk recipient in
  let kw := hkdf_sha256 C shared (epk ++ recipient_compressed) INFO_P256 in
  let* ct := aead_seal kw ZERO_NONCE file_key in
  Ok (epk ++ ct).

Definition unwrap_p256_with_shared (blob recipient_compressed shared_x : bytes) : res PigpenError bytes :=
  if negb (len blob =? 33 + FILE_KEY_LEN + TAG_LEN) then Err (CryptoErr BadP256Wrap)
  else
    let epk := ztake 33 blob in
    let ct := zdrop 33 blob in
    let kw := hkdf_sha256 C shared_x (epk ++ recipient_compressed) INFO_P256 in
    aead_open kw ZERO_NONCE ct.

Definition p256_wrap_epk (blob : bytes) : res PigpenError bytes :=
  if negb (len blob =? 33 + FILE_KEY_LEN + TAG_LEN) then Err (CryptoErr BadP256Wrap) else Ok (ztake 33 blob).

(** ** The payload *)

(** The counter as a [u64], then the flag of the last chunk. *)
Definition stream_nonce (counter : Z) (last : bool) : bytes :=
  [0; 0; 0] ++ to_be_bytes 8 counter ++ [if last then 1 else 0].

(** The loop of [seal_payload] from chunk [i] on; a turn takes a chunk off the
    plaintext. *)
Fixpoint seal_chunks (fuel : nat) (key plaintext : bytes) (i : Z) (out : bytes) : res PigpenError bytes :=
  match fuel with
  | O => Panic
  | S k =>
      let start := i * STREAM_CHUNK in
      let stop := Z.min (start + STREAM_CHUNK) (len plaintext) in
      let last := len plaintext <=? stop in
      let* chunk := slice plaintext start stop in
      let* ct := ok_or (chacha_seal C key (stream_nonce i last) chunk) (CryptoErr PayloadSeal) in
      if last then Ok (out ++ ct) else seal_chunks k key plaintext (i + 1) (out ++ ct)
  end.

Definition seal_payload (file_key plaintext nonce : bytes) : res PigpenError bytes :=
  let stream_key := hkdf_sha256 C file_key nonce INFO_PAYLOAD in
  seal_chunks (S (length plaintext)) stream_key plaintext 0 nonce.

Fixpoint open_chunks (fuel : nat) (key body : bytes) (i : Z) (out : bytes) : res PigpenError bytes :=
  match fuel with
  | O => Panic
  | S k =>
      let enc_chunk := STREAM_CHUNK + TAG_LEN in
      let start := i * enc_chunk in
      if len body <=? start then Err (PayloadErr NoFinalChunk)
      else
        let stop := Z.min (start + enc_chunk) (len body) in
        let last := len body <=? stop in
        let* chunk := slice body start stop in
        let* plain := ok_or (chacha_open C key (stream_nonce i last) chunk) (PayloadErr (ChunkRefused i)) in
        if last then Ok (out ++ plain) else open_chunks k key body (i + 1) (out ++ plain)
  end.

Definition open_payload (file_key payload : bytes) : res PigpenError bytes :=
  if len payload <? PAYLOAD_NONCE_LEN then Err (PayloadErr ShorterThanNonce)
  else
    let nonce := ztake PAYLOAD_NONCE_LEN payload in
    let body := zdrop PAYLOAD_NONCE_LEN payload in
    let stream_key := hkdf_sha256 C file_key nonce INFO_PAYLOAD in
    open_chunks (S (length body)) stream_key body 0 [].

(** ** The header MAC *)

Definition header_mac (file_key canonical_header : bytes) : bytes :=
  hmac_sha256 C (hkdf_sha256 C file_key [] INFO_HEADER) canonical_header.

Definition verify_mac (file_key canonical_header expected : bytes) : bool :=
  hmac_verify C (hkdf_sha256 C file_key [] INFO_HEADER) canonical_header expected.
End Crypto.

(** ** The STREAM against its specification *)

Section Stream.
Context (C : Suite) (Laws : SuiteLaws C) (key : bytes).

(** The chunks sealed in order, the last one flagged. *)
Fixpoint sealed_from (i : Z) (cs : list bytes) : option bytes :=
  match cs with
  | [] => None
  | [c] => chacha_seal C key (stream_nonce i true) c
  | c :: cs =>
      ct ← chacha_seal C key (stream_nonce i false) c;
      rest ← sealed_from (i + 1) cs;
      Some (ct ++ rest)
  end.

(** Every chunk is full but the last. *)
Fixpoint chunking (cs : list bytes) : Prop :=
  match cs with
  | [] => False
  | [c] => len c <= STREAM_CHUNK
  | c :: cs => len c = STREAM_CHUNK /\ chunking cs
  end.

Lemma sealed_cons i c c' cs :
  sealed_from i (c :: c' :: cs)
  = ct ← chacha_seal C key (stream_nonce i false) c; rest ← sealed_from (i + 1) (c' :: cs); Some (ct ++ rest).
Proof. reflexivity. Qed.

Lemma chunking_cons c c' cs : chunking (c :: c' :: cs) <-> len c = STREAM_CHUNK /\ chunking (c' :: cs).
Proof. reflexivity. Qed.

Lemma sealed_len i cs b : sealed_from i cs = Some b -> TAG_LEN <= len b.
Proof.
  destruct cs as [|c [|c' cs]]; [discriminate| |]; intros H.
  - apply (chacha_len C Laws) in H as [H _]. pose proof (len_nonneg c). unfold TAG_LEN. lia.
  - rewrite sealed_cons in H. destruct (chacha_seal _ _ _ _) as [ct|] eqn:Hc; [|discriminate]. cbn [mbind option_bind] in H.
    destruct (sealed_from _ _) as [rest|]; [|discriminate]. injection H as <-.
    apply (chacha_len C Laws) in Hc as [Hc _]. rewrite len_app. pose proof (len_nonneg c). pose proof (len_nonneg rest).
    unfold TAG_LEN. lia.
Qed.

(** The slice of a turn: a full one when more follows, else what is left. *)
Lemma slice_mid (n i : Z) (pre mid rest : bytes) :
  len pre = i * n -> len mid = n -> rest <> [] ->
  (len (pre ++ mid ++ rest) <=? Z.min (i * n + n) (len (pre ++ mid ++ rest))) = false /\
  slice (E := PigpenError) (pre ++ mid ++ rest) (i * n) (Z.min (i * n + n) (len (pre ++ mid ++ rest))) = Ok mid.
Proof.
  intros Hp Hm Hr. assert (0 < len rest) by (destruct rest; [easy|rewrite len_cons; pose proof (len_nonneg rest); lia]).
  rewrite !len_app, Hp, Hm. pose proof (len_nonneg pre). rewrite Z.min_l by lia. split; [zbool; reflexivity|].
  replace (i * n + n) with (len pre + len mid) by lia. rewrite <- Hp. apply slice_app with (t := rest).
  - rewrite !len_app. pose proof (len_nonneg mid). lia.
  - apply zdrop_app.
Qed.

Lemma slice_last (n i : Z) (pre rest : bytes) :
  len pre = i * n -> len rest <= n ->
  (len (pre ++ rest) <=? Z.min (i * n + n) (len (pre ++ rest))) = true /\
  slice (E := PigpenError) (pre ++ rest) (i * n) (Z.min (i * n + n) (len (pre ++ rest))) = Ok rest.
Proof.
  intros Hp Hr. rewrite !len_app, Hp. pose proof (len_nonneg pre). pose proof (len_nonneg rest).
  rewrite Z.min_r by lia. split; [zbool; reflexivity|].
  rewrite <- Hp. apply slice_app with (t := []).
  - rewrite len_app. lia.
  - rewrite zdrop_app. now rewrite app_nil_r.
Qed.

Lemma take_chunk n (rest : bytes) : 0 <= n < len rest -> exists c r, rest = c ++ r /\ len c = n /\ r <> [].
Proof.
  intros Hn. exists (ztake n rest), (zdrop n rest). split; [apply zsplit|]. split; [apply len_ztake; lia|].
  intros E. pose proof (len_zdrop n rest) as H. rewrite E in H. change (len (@nil Z)) with 0 in H. lia.
Qed.

Lemma chunk_start n i (pre mid : bytes) : len pre = i * n -> len mid = n -> len (pre ++ mid) = (i + 1) * n.
Proof. intros. rewrite len_app. lia. Qed.

(** Sealing makes the chunks of the plaintext, in order. *)
Lemma seal_chunks_spec fuel : forall i pre rest out,
  bytes_ok rest -> len pre = i * STREAM_CHUNK -> (length rest < fuel)%nat ->
  exists cs b, chunking cs /\ concat cs = rest /\ sealed_from i cs = Some b /\
    seal_chunks C fuel key (pre ++ rest) i out = Ok (out ++ b).
Proof.
  induction fuel as [|k IH]; intros i pre rest out Hok Hp Hf; [lia|].
  destruct (Z.le_gt_cases (len rest) STREAM_CHUNK) as [Hr|Hr].
  - destruct (chacha_seals C Laws key (stream_nonce i true) rest Hok Hr) as [ct Hct].
    exists [rest], ct. split; [exact Hr|]. split; [apply app_nil_r|]. split; [exact Hct|].
    cbn [seal_chunks]. destruct (slice_last STREAM_CHUNK i pre rest Hp Hr) as [-> ->]. cbn [res_bind]. now rewrite Hct.
  - destruct (take_chunk STREAM_CHUNK rest) as (c & r & -> & Hc & Hn); [unfold STREAM_CHUNK in *; lia|].
    apply Forall_app in Hok as [Hokc Hokr].
    destruct (chacha_seals C Laws key (stream_nonce i false) c Hokc) as [ct Hct]; [unfold STREAM_CHUNK in Hc; lia|].
    rewrite app_assoc.
    destruct (IH (i + 1) (pre ++ c) r (out ++ ct)) as (cs & b & Hcs & Hcat & Hs & Hrun).
    + exact Hokr.
    + now apply chunk_start.
    + rewrite length_app in Hf. unfold len, STREAM_CHUNK in Hc. lia.
    + destruct cs as [|c' cs]; [easy|]. exists (c :: c' :: cs), (ct ++ b). split; [now split|].
      split; [cbn [concat] in *; now rewrite Hcat|]. split; [rewrite sealed_cons, Hct; cbn [mbind option_bind]; now rewrite Hs|].
      cbn [seal_chunks]. rewrite <- app_assoc. destruct (slice_mid STREAM_CHUNK i pre c r Hp Hc Hn) as [-> ->].
      cbn [res_bind]. rewrite Hct. cbn [ok_or res_bind]. rewrite app_assoc, Hrun. now rewrite app_assoc.
Qed.

Definition ENC_CHUNK : Z := STREAM_CHUNK + TAG_LEN.

(** A sealed sequence of chunks opens to their text. *)
Lemma open_chunks_complete cs : forall fuel i pre b out,
  chunking cs -> sealed_from i cs = Some b -> len pre = i * ENC_CHUNK -> (length b < fuel)%nat ->
  open_chunks C fuel key (pre ++ b) i out = Ok (out ++ concat cs).
Proof.
  induction cs as [|c cs IH]; intros [|k] i pre b out Hcs Hs Hp Hf; try easy.
  assert (Hb : 0 < len b) by (apply sealed_len in Hs; unfold TAG_LEN in Hs; lia).
  cbn [open_chunks]. fold ENC_CHUNK. rewrite len_app at 1. rewrite Hp, (proj2 (Z.leb_gt _ _)) by lia.
  destruct cs as [|c' cs].
  - simpl in Hcs, Hs. pose proof (proj1 (chacha_len C Laws _ _ _ _ Hs)) as Hl.
    destruct (slice_last ENC_CHUNK i pre b Hp) as [-> ->]; [unfold ENC_CHUNK, TAG_LEN; lia|]. cbn [res_bind].
    rewrite (chacha_roundtrip C Laws _ _ _ _ Hs). cbn [ok_or res_bind concat]. now rewrite app_nil_r.
  - rewrite sealed_cons in Hs. destruct (chacha_seal _ _ _ _) as [ct|] eqn:Hct; [|discriminate]. cbn [mbind option_bind] in Hs.
    destruct (sealed_from (i + 1) (c' :: cs)) as [r|] eqn:Hr; [|discriminate]. injection Hs as <-.
    apply chunking_cons in Hcs as [Hc Hcs]. pose proof (proj1 (chacha_len C Laws _ _ _ _ Hct)) as Hl.
    assert (Hn : r <> []) by (intros ->; apply sealed_len in Hr; unfold TAG_LEN in Hr; change (len (@nil Z)) with 0 in Hr; lia).
    assert (Hl' : len ct = ENC_CHUNK) by (unfold ENC_CHUNK, TAG_LEN; lia).
    destruct (slice_mid ENC_CHUNK i pre ct r Hp Hl' Hn) as [-> ->]. cbn [res_bind].
    rewrite (chacha_roundtrip C Laws _ _ _ _ Hct). cbn [ok_or res_bind]. rewrite app_assoc.
    rewrite (IH k (i + 1) (pre ++ ct) r (out ++ c) Hcs Hr (chunk_start _ _ _ _ Hp Hl')).
    + cbn [concat]. now rewrite <- app_assoc.
    + rewrite length_app in Hf. unfold len, ENC_CHUNK, STREAM_CHUNK, TAG_LEN in Hl'. lia.
Qed.

(** What opens is a sealed sequence of chunks, ended by its flagged one. *)
Lemma open_chunks_sound fuel : forall i pre rest out pt,
  len pre = i * ENC_CHUNK -> open_chunks C fuel key (pre ++ rest) i out = Ok pt ->
  exists cs, chunking cs /\ sealed_from i cs = Some rest /\ pt = out ++ concat cs.
Proof.
  induction fuel as [|k IH]; intros i pre rest out pt Hp H; [discriminate|]. cbn [open_chunks] in H. fold ENC_CHUNK in H.
  destruct (len (pre ++ rest) <=? i * ENC_CHUNK) eqn:Hge; [discriminate|]. rewrite len_app, Hp in Hge. bprop.
  destruct (Z.le_gt_cases (len rest) ENC_CHUNK) as [Hr|Hr].
  - destruct (slice_last ENC_CHUNK i pre rest Hp Hr) as [Hl Hs]. rewrite Hl, Hs in H. cbn [res_bind] in H.
    destruct (chacha_open _ _ _ _) as [plain|] eqn:Ho; [|discriminate]. cbn [ok_or res_bind] in H. injection H as <-.
    apply (chacha_unique C Laws) in Ho. exists [plain]. cbn [concat chunking sealed_from]. rewrite app_nil_r.
    split; [|now split]. apply (chacha_len C Laws) in Ho as [Ho _]. unfold ENC_CHUNK, TAG_LEN in Hr. lia.
  - destruct (take_chunk ENC_CHUNK rest) as (ct & r & -> & Hc & Hn); [unfold ENC_CHUNK, STREAM_CHUNK, TAG_LEN in *; lia|].
    destruct (slice_mid ENC_CHUNK i pre ct r Hp Hc Hn) as [Hl Hs]. rewrite Hl, Hs in H. cbn [res_bind] in H.
    destruct (chacha_open _ _ _ _) as [plain|] eqn:Ho; [|discriminate]. cbn [ok_or res_bind] in H. rewrite app_assoc in H.
    destruct (IH (i + 1) (pre ++ ct) r (out ++ plain) pt (chunk_start _ _ _ _ Hp Hc) H) as (cs & Hcs & Hsc & ->).
    apply (chacha_unique C Laws) in Ho. destruct cs as [|c' cs]; [easy|].
    exists (plain :: c' :: cs). split; [|split].
    + apply chunking_cons. split; [|exact Hcs]. apply (chacha_len C Laws) in Ho as [Ho _]. unfold ENC_CHUNK, TAG_LEN in Hc. lia.
    + rewrite sealed_cons, Ho. cbn [mbind option_bind]. now rewrite Hsc.
    + symmetry. apply (app_assoc out plain).
Qed.

Lemma open_chunks_no_panic fuel : forall i pre rest out,
  len pre = i * ENC_CHUNK -> (length rest < fuel)%nat -> no_panic (open_chunks C fuel key (pre ++ rest) i out).
Proof.
  induction fuel as [|k IH]; intros i pre rest out Hp Hf; [lia|]. cbn [open_chunks]. fold ENC_CHUNK.
  destruct (len (pre ++ rest) <=? i * ENC_CHUNK); [auto with panic|].
  destruct (Z.le_gt_cases (len rest) ENC_CHUNK) as [Hr|Hr].
  - destruct (slice_last ENC_CHUNK i pre rest Hp Hr) as [-> ->]. cbn [res_bind].
    apply no_panic_bind; auto with panic.
  - destruct (take_chunk ENC_CHUNK rest) as (ct & r & -> & Hc & Hn); [unfold ENC_CHUNK, STREAM_CHUNK, TAG_LEN in *; lia|].
    destruct (slice_mid ENC_CHUNK i pre ct r Hp Hc Hn) as [-> ->]. cbn [res_bind].
    apply no_panic_bind; [auto with panic|]. intros plain _. rewrite app_assoc. apply IH; [now apply chunk_start|].
    rewrite length_app in Hf. unfold len, ENC_CHUNK, STREAM_CHUNK, TAG_LEN in Hc. lia.
Qed.
End Stream.

(** ** The STREAM in the words of its specification *)

Definition chunk_nonce (i : Z) (last : bool) : bytes := repeat 0 3 ++ to_be_bytes 8 i ++ [if last then 1 else 0].

Fixpoint stream_from (C : Suite) (key : bytes) (i : Z) (cs : list bytes) : option bytes :=
  match cs with
  | [] => None
  | [c] => chacha_seal C key (chunk_nonce i true) c
  | c :: cs =>
      ct ← chacha_seal C key (chunk_nonce i false) c;
      rest ← stream_from C key (i + 1) cs;
      Some (ct ++ rest)
  end.

(** Chunks of [n] bytes, but for the last, which has at most as many. *)
Definition chunks_of (n : Z) (cs : list bytes) : Prop :=
  exists full end_, cs = full ++ [end_] /\ Forall (fun c => len c = n) full /\ len end_ <= n.

Lemma stream_nonce_chunk i last : stream_nonce i last = chunk_nonce i last.
Proof. reflexivity. Qed.

Lemma sealed_stream C key cs : forall i, sealed_from C key i cs = stream_from C key i cs.
Proof.
  induction cs as [|c [|c' cs] IH]; intros i; [reflexivity|exact (f_equal (fun n => chacha_seal C key n c) (stream_nonce_chunk i true))|]. rewrite sealed_cons, stream_nonce_chunk, IH. reflexivity.
Qed.

Lemma chunking_chunks cs : chunking cs <-> chunks_of 65536 cs.
Proof.
  induction cs as [|c [|c' cs] IH].
  - split; [easy|]. intros (full & e & H & _). now destruct full.
  - split; [intros H; now exists [], c|]. intros ([|d full] & e & H & Hf & He); [now injection H as ->|]. now destruct full.
  - rewrite chunking_cons, IH. split.
    + intros [Hc (full & e & H & Hf & He)]. exists (c :: full), e. split; [cbn; now f_equal|]. split; [now constructor|exact He].
    + intros ([|d full] & e & H & Hf & He); [discriminate|]. injection H as -> H. split; [now apply Forall_inv in Hf|]. exists full, e. split; [exact H|]. split; [now apply Forall_inv_tail in Hf|exact He].
Qed.

(** ** Wraps and payloads *)

Section Facts.
Context (C : Suite) (Laws : SuiteLaws C).

Lemma take_front n (a b : bytes) : len a = n -> ztake n (a ++ b) = a /\ zdrop n (a ++ b) = b.
Proof. intros <-. split; [apply ztake_app|apply zdrop_app]. Qed.

Lemma seal_opens k n m ct : aead_seal C k n m = Ok ct -> aead_open C k n ct = Ok m /\ len ct = len m + 16 /\ bytes_ok ct.
Proof.
  unfold aead_seal, aead_open. destruct (chacha_seal C k n m) as [c|] eqn:H; [|discriminate]. intros [= <-].
  rewrite (chacha_roundtrip C Laws _ _ _ _ H). split; [reflexivity|]. exact (chacha_len C Laws _ _ _ _ H).
Qed.

(** A wrap is the ephemeral key and the sealed file key, whoever the recipient. *)
Lemma wrap_x25519_shape fk rpub e blob :
  len fk = FILE_KEY_LEN -> len e = 32 -> wrap_x25519 C fk rpub e = Ok blob ->
  len blob = 64 /\ bytes_ok blob /\ len rpub = 32 /\
  exists ct, blob = x25519_public C e ++ ct /\ was_contributory C (x25519_dh C e rpub) = true /\
    aead_open C (hkdf_sha256 C (x25519_dh C e rpub) (x25519_public C e ++ rpub) INFO_X25519) ZERO_NONCE ct = Ok fk.
Proof.
  intros Hfk He. destruct (x25519_public_len C Laws e He) as [Hpe Hbe]. unfold wrap_x25519.
  destruct (len rpub =? 32) eqn:Hr; [|discriminate]. bprop. cbn [negb]. intros H.
  apply res_bind_Ok_inv in H as ([] & Hlow & H). apply res_bind_Ok_inv in H as (ct & Hct & H). injection H as <-.
  apply seal_opens in Hct as (Ho & Hl & Hb).
  split; [rewrite len_app, Hpe, Hl, Hfk; reflexivity|]. split; [now apply bytes_ok_app|]. split; [exact Hr|].
  exists ct. split; [reflexivity|]. split; [|exact Ho]. unfold reject_low_order in Hlow. now destruct (was_contributory _ _).
Qed.

Lemma unwrap_wrap_x25519 fk s e blob :
  len fk = FILE_KEY_LEN -> len s = 32 -> len e = 32 ->
  wrap_x25519 C fk (x25519_public C s) e = Ok blob -> unwrap_x25519 C blob (x25519_public C s) s = Ok fk.
Proof.
  intros Hfk Hs He H. apply wrap_x25519_shape in H as (Hlen & _ & _ & ct & -> & Hc & Ho); [|assumption..].
  unfold unwrap_x25519. rewrite Hlen, Hs. change (negb (64 =? 32 + FILE_KEY_LEN + TAG_LEN)) with false.
  change (negb (32 =? 32)) with false. cbv iota.
  destruct (take_front 32 (x25519_public C e) ct (proj1 (x25519_public_len C Laws e He))) as [-> ->].
  rewrite (x25519_agree C Laws s e Hs He). unfold reject_low_order. rewrite Hc. exact Ho.
Qed.

Lemma wrap_p256_shape fk rc e blob :
  len fk = FILE_KEY_LEN -> wrap_p256 C fk rc e = Ok blob ->
  len blob = 65 /\ bytes_ok blob /\
  exists R k ct, p256_from_sec1 C rc = Some R /\ p256_scalar C e = Some k /\
    blob = p256_compressed C (p256_public C k) ++ ct /\
    aead_open C (hkdf_sha256 C (p256_dh C k R) (p256_compressed C (p256_public C k) ++ rc) INFO_P256) ZERO_NONCE ct = Ok fk.
Proof.
  intros Hfk. unfold wrap_p256. destruct (p256_from_sec1 C rc) as [R|] eqn:Hrc; [|discriminate].
  destruct (p256_scalar C e) as [k|] eqn:Hk; [|discriminate]. cbn [ok_or res_bind]. intros H.
  apply res_bind_Ok_inv in H as (ct & Hct & H). injection H as <-. apply seal_opens in Hct as (Ho & Hl & Hb).
  destruct (p256_compressed_len C Laws (p256_public C k)) as [Hpl Hpb].
  split; [rewrite len_app, Hpl, Hl, Hfk; reflexivity|]. split; [now apply bytes_ok_app|]. now exists R, k, ct.
Qed.

Lemma unwrap_wrap_p256 fk d rc e blob :
  len fk = FILE_KEY_LEN -> p256_from_sec1 C rc = Some (p256_public C d) ->
  wrap_p256 C fk rc e = Ok blob ->
  exists epk E, p256_wrap_epk blob = Ok epk /\ p256_from_sec1 C epk = Some E /\
    unwrap_p256_with_shared C blob rc (p256_dh C d E) = Ok fk.
Proof.
  intros Hfk Hrc H. apply wrap_p256_shape in H as (Hlen & _ & R & k & ct & HR & _ & -> & Ho); [|exact Hfk].
  rewrite Hrc in HR. injection HR as <-. set (epk := p256_compressed C (p256_public C k)) in *.
  destruct (take_front 33 epk ct (proj1 (p256_compressed_len C Laws _))) as [Hf Hr].
  exists epk, (p256_public C k). unfold p256_wrap_epk, unwrap_p256_with_shared. rewrite Hlen.
  change (negb (65 =? 33 + FILE_KEY_LEN + TAG_LEN)) with false. cbv iota. rewrite Hf, Hr.
  split; [reflexivity|]. split; [apply (p256_sec1 C Laws)|]. now rewrite (p256_agree C Laws d k).
Qed.

Lemma open_seal_payload fk pt nonce :
  bytes_ok pt -> len nonce = PAYLOAD_NONCE_LEN ->
  exists p, seal_payload C fk pt nonce = Ok p /\ open_payload C fk p = Ok pt /\ p <> [].
Proof.
  intros Hpt Hn. set (key := hkdf_sha256 C fk nonce INFO_PAYLOAD).
  destruct (seal_chunks_spec C Laws key (S (length pt)) 0 [] pt nonce Hpt eq_refl) as (cs & b & Hcs & Hcat & Hs & Hrun); [lia|].
  exists (nonce ++ b). split; [exact Hrun|]. split; [|intros E; apply app_eq_nil in E as [-> _]; discriminate].
  unfold open_payload. rewrite len_app, Hn. pose proof (len_nonneg b). zbool.
  destruct (take_front PAYLOAD_NONCE_LEN nonce b Hn) as [-> ->]. fold key.
  rewrite <- Hcat. apply (open_chunks_complete C Laws key cs (S (length b)) 0 [] b [] Hcs Hs eq_refl). lia.
Qed.

Lemma open_payload_no_panic fk p : no_panic (open_payload C fk p).
Proof.
  unfold open_payload. destruct (len p <? PAYLOAD_NONCE_LEN); [auto with panic|].
  exact (open_chunks_no_panic C _ _ 0 [] _ [] eq_refl (Nat.lt_succ_diag_r _)).
Qed.

(** C37 (equivalence).  The payload is the STREAM construction.  Sealing always
    succeeds and opens again; and a payload opens to a text exactly when it is a
    nonce of 16 bytes followed by the chunks of that text, each sealed under its
    position (three zero bytes, the position as a big-endian [u64], and one byte
    that is 1 for the last chunk and 0 for any other), all of 64 KiB but the
    last.  No payload makes the reader panic. *)
Theorem payload_exact fk :
  (forall pt nonce, bytes_ok pt -> len nonce = 16 ->
     exists p, seal_payload C fk pt nonce = Ok p /\ open_payload C fk p = Ok pt) /\
  (forall p pt, open_payload C fk p = Ok pt <->
     exists nonce cs b, p = nonce ++ b /\ len nonce = 16 /\ chunks_of 65536 cs /\ concat cs = pt /\
       stream_from C (hkdf_sha256 C fk nonce (ascii "pigpen-v1 payload")) 0 cs = Some b) /\
  (forall p, no_panic (open_payload C fk p)).
Proof.
  split; [|split; [|apply open_payload_no_panic]].
  { intros pt nonce Hpt Hn. destruct (open_seal_payload fk pt nonce Hpt Hn) as (p & H1 & H2 & _). eauto. }
  intros p pt. split.
  - unfold open_payload. destruct (len p <? PAYLOAD_NONCE_LEN) eqn:Hl; [discriminate|]. bprop. intros H.
    apply (open_chunks_sound C Laws _ _ 0 []) in H as (cs & Hcs & Hs & ->); [|reflexivity].
    exists (ztake PAYLOAD_NONCE_LEN p), cs, (zdrop PAYLOAD_NONCE_LEN p). split; [apply zsplit|].
    split; [apply len_ztake; unfold PAYLOAD_NONCE_LEN in *; lia|]. split; [now apply chunking_chunks|]. split; [reflexivity|]. now rewrite <- sealed_stream.
  - intros (nonce & cs & b & -> & Hn & Hcs & <- & Hs). unfold open_payload. rewrite len_app, Hn. pose proof (len_nonneg b).
    destruct (Z.ltb_spec (16 + len b) PAYLOAD_NONCE_LEN); [unfold PAYLOAD_NONCE_LEN in *; lia|].
    destruct (take_front PAYLOAD_NONCE_LEN nonce b Hn) as [-> ->]. rewrite <- sealed_stream in Hs.
    apply (open_chunks_complete C Laws _ cs (S (length b)) 0 [] b [] (proj2 (chunking_chunks cs) Hcs) Hs eq_refl). lia.
Qed.
End Facts.

(** ** A concrete suite

    Exchanges by addition, a tag made of the nonce and the key, no secrecy:
    enough to satisfy the laws. *)

Definition bytes_okb (l : bytes) : bool := forallb (fun b => (0 <=? b) && (b <? 256)) l.

Lemma bytes_okb_ok l : bytes_okb l = true <-> bytes_ok l.
Proof.
  unfold bytes_okb. rewrite forallb_forall, List.Forall_forall. unfold byte_ok.
  split; intros H b Hb; specialize (H b Hb); rewrite andb_true_iff, Z.leb_le, Z.ltb_lt in *; lia.
Qed.

(** The first [n] bytes of a text, made bytes and filled up. *)
Definition fit (n : nat) (l : bytes) : bytes := take n ((u8 <$> l) ++ repeat 0 n).

Lemma fit_ok n l : len (fit n l) = Z.of_nat n /\ bytes_ok (fit n l).
Proof.
  unfold fit, len. split.
  - rewrite length_take, length_app, repeat_length. lia.
  - apply Forall_take, Forall_app. split.
    + apply Forall_fmap, List.Forall_forall. intros b _. apply u8_ok.
    + apply List.Forall_forall. intros b Hb. apply repeat_spec in Hb as ->. unfold byte_ok. lia.
Qed.

Definition toy_stamp (k n : bytes) : bytes := fit 16 (n ++ k).

Definition toy_suite : Suite := {|
  hkdf_sha256 ikm salt info := fit 32 (ikm ++ salt);
  chacha_seal k n m := if bytes_okb m then Some (m ++ toy_stamp k n) else None;
  chacha_open k n c :=
    let m := take (length c - 16) c in
    if bytes_eqb (drop (length c - 16) c) (toy_stamp k n) && bytes_okb m then Some m else None;
  hmac_sha256 k m := fit 32 (k ++ m);
  hmac_verify k m t := bytes_eqb (fit 32 (k ++ m)) t;
  x25519_public s := fit 32 s;
  x25519_dh a b := zip_with (fun x y => u8 (x + y)) a b;
  was_contributory _ := true;
  P256Point := bool;
  P256Scalar := bool;
  p256_from_sec1 b :=
    if bytes_eqb b (2 :: repeat 0 32) then Some false
    else if bytes_eqb b (3 :: repeat 0 32) then Some true else None;
  p256_scalar e := Some (match e with 1 :: _ => true | _ => false end);
  p256_public s := s;
  p256_compressed p := (if p then 3 else 2) :: repeat 0 32;
  p256_dh a b := repeat (if xorb a b then 1 else 0) 32;
|}.

Lemma u8_add_l x y : u8 (u8 x + y) = u8 (x + y).
Proof. unfold u8. now rewrite Zplus_mod_idemp_l. Qed.

Lemma u8_add_r x y : u8 (x + u8 y) = u8 (x + y).
Proof. rewrite Z.add_comm, u8_add_l. f_equal. lia. Qed.

Lemma fit_same s : len s = 32 -> fit 32 s = u8 <$> s.
Proof.
  intros H. unfold fit. replace 32%nat with (length (u8 <$> s)) by (rewrite length_fmap; unfold len in H; lia).
  apply take_app_length.
Qed.

Lemma toy_agree a b : zip_with (fun x y => u8 (x + y)) a (u8 <$> b) = zip_with (fun x y => u8 (x + y)) b (u8 <$> a).
Proof.
  revert b. induction a as [|x a IH]; intros [|y b]; try reflexivity. cbn. rewrite !u8_add_r, (Z.add_comm x y). f_equal. apply IH.
Qed.

Lemma toy_suite_laws : SuiteLaws toy_suite.
Proof.
  assert (Hst : forall k n, length (toy_stamp k n) = 16%nat).
  { intros k n. destruct (fit_ok 16 (n ++ k)) as [H _]. unfold len in H. unfold toy_stamp. lia. }
  split; cbn.
  - intros k n m c. destruct (bytes_okb m) eqn:Hm; [|discriminate]. intros [= <-]. rewrite length_app, Hst, Nat.add_sub.
    rewrite take_app_length, drop_app_length, Hm. unfold bytes_eqb. now rewrite bool_decide_eq_true_2.
  - intros k n m c. destruct (bytes_eqb _ _ && _) eqn:H; [|discriminate]. intros [= <-]. apply andb_true_iff in H as [H1 H2].
    rewrite H2. apply bool_decide_eq_true in H1. rewrite <- H1. now rewrite take_drop.
  - intros k n m c. destruct (bytes_okb m) eqn:Hm; [|discriminate]. intros [= <-]. apply bytes_okb_ok in Hm.
    destruct (fit_ok 16 (n ++ k)) as [Hl Hb]. rewrite len_app. unfold toy_stamp. rewrite Hl. split; [lia|]. now apply bytes_ok_app.
  - intros k n m Hm _. apply bytes_okb_ok in Hm. rewrite Hm. eauto.
  - intros k m. apply (fit_ok 32).
  - reflexivity.
  - intros s _. apply (fit_ok 32).
  - intros a b Ha Hb. rewrite !fit_same by assumption. apply toy_agree.
  - intros []; reflexivity.
  - intros []; by_compute.
  - intros a b. now rewrite xorb_comm.
Qed.

Lemma payload_exact_witness :
  exists p, seal_payload toy_suite (repeat 7 16) (ascii "attack at dawn") (repeat 9 16) = Ok p /\
    open_payload toy_suite (repeat 7 16) p = Ok (ascii "attack at dawn").
Proof.
  apply (payload_exact toy_suite toy_suite_laws (repeat 7 16)); [apply ascii_ok|reflexivity].
Defined.
