(* ===== verification/Document.v ===== *)
(** * Document: pigpen documents, [piggy-pigpen/src/document.rs]

    The document model, its text form, sealing and opening.  The entropy of
    [seal] and the ECDH oracle of [open] are state-passing functions; the oracle's
    state is what stands behind it: an agent, a card, a user. *)

From Stdlib Require Import ZArith Lia.
From stdpp Require Import base tactics list numbers strings.
From S2P Require Import Prelude Utf8 Text Blech32 Markl Pigpen Hyphence PigpenCrypto.

Local Open Scope Z_scope.

Definition TYPE_TAG : list Z := ascii "pigpen-v1".
Definition POINTER_TYPE_TAG : list Z := ascii "pigpen-pointer-v1".

Record X25519Identity := MkIdentity { xi_public : bytes; xi_secret : bytes }.

Record Recipient := MkRecipient { rc_id : Id; rc_comment : option (list Z); rc_wrap : option bytes }.

Record Document := MkDocument {
  d_description : option (list Z);
  d_recipients : list Recipient;
  d_payload : bytes;
  d_mac : option bytes;
}.

Record SealInputs := MkInputs { si_file_key : bytes; si_payload_nonce : bytes; si_ephemeral : list bytes }.

Definition sealed (d : Document) : bool := match d_mac d with Some _ => true | None => false end.

Definition new_recipient_set (rs : list Recipient) : Document := MkDocument None rs [] None.

(** ** Identifiers *)

(** [id.to_wire()] *)
Definition wire (id : Id) : res PigpenError (list Z) :=
  match to_wire id with Ok w => Ok w | Err e => match e with end | Panic => Panic end.

Definition is_encryption_recipient (id : Id) : bool :=
  one_of (id_format id) [PivyEcdhP256Pub; AgeX25519Pub]
  && match id_purpose id with None | Some PiggyRecipientV1 => true | _ => false end.

Definition recipient_id (format : FormatId) (data : bytes) : res PigpenError Id :=
  map_err (fun e => MarklErr (RecipientId e)) (id_new (Some PiggyRecipientV1) format data).

Definition promote_recipient (id : Id) : res PigpenError Id :=
  if negb (is_encryption_recipient id) then let* w := wire id in Err (UnsupportedFormat (NotARecipient w))
  else recipient_id (id_format id) (id_data id).

Definition wrap_format_for (recipient : FormatId) : res PigpenError FormatId :=
  match recipient with
  | PivyEcdhP256Pub => Ok PigpenWrapP256
  | AgeX25519Pub => Ok PigpenWrapX25519
  | other => Err (UnsupportedFormat (NoWrapFormat other))
  end.

Definition encode_wrap (recipient : FormatId) (blob : bytes) : res PigpenError (list Z) :=
  let* wrap_format := wrap_format_for recipient in
  let* id := map_err (fun e => MarklErr (BadWrap wrap_format recipient e)) (id_new (Some PigpenWrapV1) wrap_format blob) in
  wire id.

Definition decode_wrap (recipient : FormatId) (s : list Z) : res PigpenError bytes :=
  let* wrap_format := wrap_format_for recipient in
  let* id := map_err (fun e => MarklErr (BadWrapLock s e)) (id_parse s) in
  match id_purpose id with
  | Some PigpenWrapV1 =>
      if negb (bool_decide (id_format id = wrap_format))
      then Err (Malformed (WrapFormat recipient (id_format id) wrap_format))
      else Ok (id_data id)
  | p => Err (Malformed (WrapPurpose (purpose_as_str <$> p)))
  end.

Definition encode_mac (mac : bytes) : res PigpenError (list Z) :=
  let* id := map_err (fun e => MarklErr (BadMac e)) (id_new None PigpenHeaderMac mac) in
  wire id.

Definition decode_mac (s : list Z) : res PigpenError bytes :=
  let* id := map_err (fun e => MarklErr (BadMacLock s e)) (id_parse s) in
  match id_purpose id with
  | Some p => Err (Malformed (MacPurpose (purpose_as_str p)))
  | None =>
      if negb (bool_decide (id_format id = PigpenHeaderMac)) then Err (Malformed (MacFormat (id_format id) PigpenHeaderMac))
      else Ok (id_data id)
  end.

Definition reject_control (field : string) (s : list Z) : res PigpenError unit :=
  if contains_any [LF; 13] s then Err (Malformed (Newline field)) else Ok tt.

(** ** Writing *)

(** The delimiters of a recipient line: two spaces, a hash, a space; and a [<]
    between spaces. *)
Definition COMMENT_MARK : list Z := [32; 32; 35; 32].
Definition WRAP_MARK : list Z := [32; 60; 32].

Definition is_empty {A} (l : list A) : bool := match l with [] => true | _ => false end.

Definition recipient_line (r : Recipient) : res PigpenError MetaLine :=
  let* text := wire (rc_id r) in
  let* text := match rc_wrap r with
               | Some wrap => let* w := encode_wrap (id_format (rc_id r)) wrap in Ok (text ++ WRAP_MARK ++ w)
               | None =>
                   match rc_comment r with
                   | Some c =>
                       if negb (is_empty c)
                       then let* _ := reject_control "comment" c in Ok (text ++ COMMENT_MARK ++ c)
                       else Ok text
                   | None => Ok text
                   end
               end in
  Ok (MkLine P_ITEM text).

Fixpoint recipient_lines (rs : list Recipient) : res PigpenError (list MetaLine) :=
  match rs with
  | [] => Ok []
  | r :: rs => let* l := recipient_line r in let* ls := recipient_lines rs in Ok (l :: ls)
  end.

Definition build (include_mac : bool) (d : Document) : res PigpenError HyphenceDoc :=
  let* desc := match d_description d with
               | Some desc =>
                   if negb (is_empty desc)
                   then let* _ := reject_control "description" desc in Ok [MkLine P_DESC desc]
                   else Ok []
               | None => Ok []
               end in
  let* items := recipient_lines (d_recipients d) in
  let* type_body := match d_mac d with
                    | Some mac => if include_mac then let* m := encode_mac mac in Ok (TYPE_TAG ++ [AT] ++ m) else Ok TYPE_TAG
                    | None => Ok TYPE_TAG
                    end in
  Ok (MkHyphence (desc ++ items ++ [MkLine P_TYPE type_body]) (if include_mac && sealed d then d_payload d else [])).

Definition canonical_header (d : Document) : res PigpenError bytes :=
  let* h := build false d in Ok (marshal_metadata h).

Definition to_bytes (d : Document) : res PigpenError bytes :=
  let* h := build true d in marshal h.

(** ** Reading *)

Definition parse_type_line (text : list Z) : res PigpenError (option bytes) :=
  let* (tag, mac) := match split_once [AT] text with
                     | Some (tag, mac_s) => let* m := decode_mac mac_s in Ok (tag, Some m)
                     | None => Ok (text, None)
                     end in
  if negb (bytes_eqb tag TYPE_TAG) then Err (Malformed (UnexpectedType tag)) else Ok mac.

(** The identifier's text, the comment and the wrap's text of a recipient line. *)
Definition split_recipient_line (text : list Z) : list Z * option (list Z) * option (list Z) :=
  match split_once COMMENT_MARK text with
  | Some (id_str, c) => (trim id_str, if negb (is_empty c) then Some c else None, None)
  | None =>
      match split_once WRAP_MARK text with
      | Some (id_str, w) => (trim id_str, None, Some (trim w))
      | None => (trim text, None, None)
      end
  end.

Definition parse_recipient_line (text : list Z) : res PigpenError Recipient :=
  let '(id_str, comment, wrap_str) := split_recipient_line text in
  let* id := map_err (fun e => MarklErr (RecipientId e)) (id_parse id_str) in
  if match id_purpose id with Some p => is_empty (purpose_as_str p) | None => false end
  then Err (Malformed (EmptyPurpose id_str))
  else
    let* id := if is_encryption_recipient id then promote_recipient id else Ok id in
    let* wrap := match wrap_str with
                 | Some s => let* w := decode_wrap (id_format id) s in Ok (Some w)
                 | None => Ok None
                 end in
    Ok (MkRecipient id comment wrap).

Definition add_description (d : Document) (text : list Z) : Document :=
  if negb (is_empty text) then
    let old := default [] (d_description d) in
    let sep := if negb (is_empty old) then [32] else [] in
    MkDocument (Some (old ++ sep ++ text)) (d_recipients d) (d_payload d) (d_mac d)
  else d.

Definition set_mac (mac : option bytes) (d : Document) : Document :=
  MkDocument (d_description d) (d_recipients d) (d_payload d) mac.

Definition parse_line (d : Document) (saw_type : bool) (l : MetaLine) : res PigpenError (Document * bool) :=
  if prefix l =? P_DESC then Ok (add_description d (body l), saw_type)
  else if prefix l =? P_ITEM then
    let* r := parse_recipient_line (body l) in
    Ok (MkDocument (d_description d) (d_recipients d ++ [r]) (d_payload d) (d_mac d), saw_type)
  else if prefix l =? P_AT then Err (Malformed AtPayload)
  else if prefix l =? P_TYPE then
    if saw_type then Err (Malformed TwoTypeLines)
    else let* mac := parse_type_line (body l) in Ok (set_mac mac d, true)
  else Ok (d, saw_type).

Fixpoint parse_lines (d : Document) (saw_type : bool) (ls : list MetaLine) : res PigpenError (Document * bool) :=
  match ls with
  | [] => Ok (d, saw_type)
  | l :: ls => let* (d, saw_type) := parse_line d saw_type l in parse_lines d saw_type ls
  end.

Definition is_wrapped (r : Recipient) : bool := match rc_wrap r with Some _ => true | None => false end.

Definition validate (d : Document) : res PigpenError unit :=
  let wrapped := len (List.filter is_wrapped (d_recipients d)) in
  let unwrapped := len (List.filter (fun r => negb (is_wrapped r) && is_encryption_recipient (rc_id r)) (d_recipients d)) in
  let is_sealed := sealed d || negb (is_empty (d_payload d)) || (0 <? wrapped) in
  if negb is_sealed then Ok tt
  else if 0 <? unwrapped then Err (Malformed Mixed)
  else if wrapped =? 0 then Err (Malformed NoWrapped)
  else if negb (sealed d) then Err (Malformed MissingMac)
  else if is_empty (d_payload d) then Err (Malformed MissingPayload)
  else Ok tt.

Definition with_payload (d : Document) (payload : bytes) : Document :=
  MkDocument (d_description d) (d_recipients d) payload (d_mac d).

Definition doc_parse (raw : bytes) : res PigpenError Document :=
  let* h := parse raw in
  let* (d, saw_type) := parse_lines (MkDocument None [] [] None) false (meta h) in
  if negb saw_type then Err (Malformed MissingTypeLine)
  else
    let d := with_payload d (payload_body h) in
    let* _ := validate d in
    Ok d.

(** ** Sealing *)

Section Seal.
Context (C : Suite).

Definition wrap_for (file_key : bytes) (id : Id) (ephemeral : bytes) : res PigpenError Recipient :=
  let* id := promote_recipient id in
  let* wrap := match id_format id with
               | PivyEcdhP256Pub => wrap_p256 C file_key (id_data id) ephemeral
               | AgeX25519Pub => wrap_x25519 C file_key (id_data id) ephemeral
               | other => Err (UnsupportedFormat (Unwrappable other))
               end in
  Ok (MkRecipient id None (Some wrap)).

(** The loop over [recipients.iter().zip(&inputs.ephemeral)]. *)
Fixpoint wrap_all (file_key : bytes) (ids : list Id) (ephemeral : list bytes) : res PigpenError (list Recipient) :=
  match ids, ephemeral with
  | id :: ids, e :: ephemeral =>
      let* r := wrap_for file_key id e in let* rs := wrap_all file_key ids ephemeral in Ok (r :: rs)
  | _, _ => Ok []
  end.

Definition seal_with (plaintext : bytes) (recipients : list Id) (inputs : SealInputs) : res PigpenError Document :=
  if is_empty recipients then Err (Malformed NoRecipients)
  else if negb (len (si_ephemeral inputs) =? len recipients)
  then Err (Malformed (EphemeralCount (len (si_ephemeral inputs)) (len recipients)))
  else
    let file_key := si_file_key inputs in
    let* recs := wrap_all file_key recipients (si_ephemeral inputs) in
    let* payload := seal_payload C file_key plaintext (si_payload_nonce inputs) in
    let d := MkDocument None recs payload None in
    let* canon := canonical_header d in
    Ok (set_mac (Some (header_mac C file_key canon)) d).

(** [OsRng]: so many random bytes, and a random P-256 scalar. *)
Context {R : Type} (fill_bytes : Z -> R -> bytes * R) (random_scalar : R -> bytes * R).

Fixpoint draw_ephemeral (ids : list Id) (g : R) : res PigpenError (list bytes * R) :=
  match ids with
  | [] => Ok ([], g)
  | id :: ids =>
      let* (e, g) := match id_format id with
                     | PivyEcdhP256Pub => Ok (random_scalar g)
                     | AgeX25519Pub => Ok (fill_bytes 32 g)
                     | other => Err (UnsupportedFormat (Unwrappable other))
                     end in
      let* (es, g) := draw_ephemeral ids g in
      Ok (e :: es, g)
  end.

Definition seal (plaintext : bytes) (recipients : list Id) (g : R) : res PigpenError Document :=
  let* (ephemeral, g) := draw_ephemeral recipients g in
  let (file_key, g) := fill_bytes FILE_KEY_LEN g in
  let (nonce, g) := fill_bytes PAYLOAD_NONCE_LEN g in
  seal_with plaintext recipients (MkInputs file_key nonce ephemeral).
End Seal.

(** ** Opening *)

Section Open.
Context (C : Suite) {Q : Type} (oracle : option (Id -> bytes -> Q -> Q * res PigpenError bytes)).

(** The file key is known: nothing is released before the header MAC. *)
Definition release (d : Document) (mac file_key : bytes) : res PigpenError bytes :=
  let* canon := canonical_header d in
  if negb (verify_mac C file_key canon mac) then Err MacMismatch else open_payload C file_key (d_payload d).

(** What one recipient gives: nothing to try, an oracle that failed, or an
    attempt at the file key. *)
Inductive Attempt : Type :=
| Skip
| Failed (e : PigpenError)
| Unwrapped (file_key : res PigpenError bytes)
| Crashed.

Definition attempt (x25519 : list X25519Identity) (id : Id) (wrap : bytes) (q : Q) : Q * Attempt :=
  match id_format id with
  | AgeX25519Pub =>
      match List.find (fun i => bytes_eqb (xi_public i) (id_data id)) x25519 with
      | None => (q, Skip)
      | Some i => (q, Unwrapped (unwrap_x25519 C wrap (id_data id) (xi_secret i)))
      end
  | PivyEcdhP256Pub =>
      match oracle with
      | None => (q, Skip)
      | Some ecdh =>
          match p256_wrap_epk wrap with
          | Err _ => (q, Skip)
          | Panic => (q, Crashed)
          | Ok epk =>
              let (q, answer) := ecdh id epk q in
              (q, match answer with
                  | Ok shared => Unwrapped (unwrap_p256_with_shared C wrap (id_data id) shared)
                  | Err e => Failed e
                  | Panic => Crashed
                  end)
          end
      end
  | _ => (q, Skip)
  end.

Fixpoint open_loop (d : Document) (mac : bytes) (x25519 : list X25519Identity) (rs : list Recipient)
    (tried : list (FormatId * bytes)) (oracle_failures : list PigpenError) (q : Q) : Q * res PigpenError bytes :=
  match rs with
  | [] => (q, if negb (is_empty oracle_failures) then Err (OracleErr oracle_failures) else Err NoRecipient)
  | r :: rs =>
      match rc_wrap r with
      | None => open_loop d mac x25519 rs tried oracle_failures q
      | Some wrap =>
          let key := (id_format (rc_id r), id_data (rc_id r)) in
          if bool_decide (key ∈ tried) then open_loop d mac x25519 rs tried oracle_failures q
          else
            let tried := tried ++ [key] in
            let (q, a) := attempt x25519 (rc_id r) wrap q in
            match a with
            | Skip | Unwrapped (Err _) => open_loop d mac x25519 rs tried oracle_failures q
            | Failed e => open_loop d mac x25519 rs tried (oracle_failures ++ [e]) q
            | Unwrapped (Ok file_key) => (q, release d mac file_key)
            | Unwrapped Panic | Crashed => (q, Panic)
            end
      end
  end.

Definition open (d : Document) (x25519 : list X25519Identity) (q : Q) : Q * res PigpenError bytes :=
  match d_mac d with
  | None => (q, Err (Malformed NotSealed))
  | Some mac => open_loop d mac x25519 (d_recipients d) [] [] q
  end.
End Open.

(** ** Pointers *)

Record Pointer := MkPointer { kind : list Z; locator : list Z }.

Definition validate_pointer_kind (k : list Z) : res PigpenError unit :=
  if is_empty k then Err (Malformed KindEmpty)
  else if contains_any [47; 0] k then Err (Malformed (KindSeparator k))
  else Ok tt.

Definition check_pointer_field (field : string) (value : list Z) : res PigpenError unit :=
  let* _ := reject_control field value in
  if contains_any [PURPOSE_QUOTE_DOUBLE] value then Err (Malformed (PointerQuote field)) else Ok tt.

Definition KEY_KIND : list Z := ascii "kind".
Definition KEY_LOCATOR : list Z := ascii "locator".

(** [key="value"] *)
Definition quoted_kv (key value : list Z) : list Z :=
  key ++ [61; PURPOSE_QUOTE_DOUBLE] ++ value ++ [PURPOSE_QUOTE_DOUBLE].

Definition parse_quoted_kv (text key : list Z) : option (list Z) :=
  rest ← strip_str key text;
  rest ← strip_prefix 61 rest;
  rest ← strip_prefix PURPOSE_QUOTE_DOUBLE rest;
  strip_suffix PURPOSE_QUOTE_DOUBLE rest.

Definition pointer_to_bytes (p : Pointer) : res PigpenError bytes :=
  let* _ := validate_pointer_kind (kind p) in
  let* _ := check_pointer_field "kind" (kind p) in
  let* _ := check_pointer_field "locator" (locator p) in
  marshal (MkHyphence [MkLine P_ITEM (quoted_kv KEY_KIND (kind p));
                       MkLine P_ITEM (quoted_kv KEY_LOCATOR (locator p));
                       MkLine P_TYPE POINTER_TYPE_TAG] []).

Fixpoint count_types (n : Z) (ls : list MetaLine) : res PigpenError Z :=
  match ls with
  | [] => Ok n
  | l :: ls =>
      if negb (bytes_eqb (body l) POINTER_TYPE_TAG) then Err (Malformed (NotPointer (Some (body l))))
      else count_types (n + 1) ls
  end.

Fixpoint pointer_tags (k l : option (list Z)) (ls : list MetaLine) : res PigpenError (option (list Z) * option (list Z)) :=
  match ls with
  | [] => Ok (k, l)
  | line :: ls =>
      if negb (prefix line =? P_ITEM) then pointer_tags k l ls
      else
        match parse_quoted_kv (body line) KEY_KIND, k, parse_quoted_kv (body line) KEY_LOCATOR, l with
        | Some v, None, _, _ => pointer_tags (Some v) l ls
        | _, _, Some v, None => pointer_tags k (Some v) ls
        | _, _, _, _ => Err (Malformed (PointerLine (body line)))
        end
  end.

Definition pointer_parse (raw : bytes) : res PigpenError Pointer :=
  let* h := parse raw in
  let* type_lines := count_types 0 (with_prefix P_TYPE (meta h)) in
  if type_lines =? 0 then Err (Malformed (NotPointer None))
  else if negb (type_lines =? 1) then Err (Malformed TwoTypeLines)
  else if negb (is_empty (payload_body h)) then Err (Malformed PointerBody)
  else
    let* (k, l) := pointer_tags None None (meta h) in
    let* k := ok_or k (Malformed (PointerMissing "kind")) in
    let* l := ok_or l (Malformed (PointerMissing "locator")) in
    let* _ := validate_pointer_kind k in
    Ok (MkPointer k l).
