(* ===== verification/DocumentText.v ===== *)
(** * DocumentText: a pigpen document reads back as it was written

    The text form of [Document] against its parser: identifiers and their
    delimiters, recipient lines, the whole document, pointers; and that the
    parser is total. *)

From Stdlib Require Import ZArith Lia.
From stdpp Require Import base tactics list numbers strings.
From S2P Require Import Prelude Utf8 Text Blech32 Markl Pigpen Hyphence Document.

Local Open Scope Z_scope.

(** ** Characters of an identifier's text *)

(** A line's text that does not break the line: characters, no line break. *)
Definition text_ok (s : list Z) : Prop := Forall (fun c => is_char c = true /\ c <> LF /\ c <> 13) s.

Definition text_okb (s : list Z) : bool := forallb (fun c => is_char c && negb (c =? LF) && negb (c =? 13)) s.

Lemma text_okb_ok s : text_okb s = true -> text_ok s.
Proof.
  unfold text_okb. rewrite forallb_forall. intros H. apply List.Forall_forall. intros c Hc. specialize (H c Hc). now bprop.
Qed.

Lemma text_ok_app a b : text_ok (a ++ b) <-> text_ok a /\ text_ok b.
Proof. apply Forall_app. Qed.

Lemma bare_text_ok s : forallb bare_char s = true -> text_ok s.
Proof.
  rewrite forallb_forall. intros H. apply List.Forall_forall. intros c Hc. specialize (H c Hc).
  apply bare_visible in H as (Hr & _ & Hc'). unfold LF. split; [exact Hc'|]. lia.
Qed.

Lemma text_line p s : known_prefix p = true -> text_ok s -> line_ok (MkLine p s).
Proof.
  intros Hp Hs. split; [exact Hp|]. split.
  - eapply list.Forall_impl; [exact Hs|]. now intros c (H & _).
  - intros Hin. unfold text_ok in Hs. rewrite List.Forall_forall in Hs. destruct (Hs LF Hin) as (_ & H & _). now apply H.
Qed.

Lemma text_no_control field s : text_ok s -> reject_control field s = Ok tt.
Proof.
  intros Hs. unfold reject_control. rewrite (proj2 (contains_any_false [LF; 13] s)); [reflexivity|].
  intros c Hc Hin. unfold text_ok in Hs. rewrite List.Forall_forall in Hs. destruct (Hs c Hin) as (_ & H1 & H2).
  destruct Hc as [<-|[<-|[]]]; congruence.
Qed.

(** Escaping turns the line breaks into letters. *)
Lemma escaped_text_ok s : Forall (fun c => is_char c = true) s -> text_ok (mbind escape_char s).
Proof.
  induction 1 as [|c s Hc Hs IH]; [constructor|]. rewrite bind_cons. apply text_ok_app. split; [|exact IH].
  unfold escape_char.
  repeat match goal with
  | |- context [c =? ?k] => destruct (Z.eqb_spec c k) as [_|?]; [apply text_okb_ok; reflexivity|]
  end. repeat constructor; [exact Hc|unfold LF; congruence|congruence].
Qed.

Lemma spelled_text_ok s : Forall (fun c => is_char c = true) s -> text_ok (spell_purpose s).
Proof.
  intros Hs. unfold spell_purpose. destruct (purpose_is_bare_expressible s) eqn:Hb.
  - apply bare_text_ok. unfold purpose_is_bare_expressible in Hb. now apply andb_true_iff in Hb as [_ Hb].
  - unfold quote_purpose. apply text_ok_app. split; [now apply text_okb_ok|]. apply text_ok_app. split; [now apply escaped_text_ok|now apply text_okb_ok].
Qed.

Lemma spelled_head s : exists a u, spell_purpose s = a :: u /\ is_whitespace a = false.
Proof.
  unfold spell_purpose. destruct (purpose_is_bare_expressible s) eqn:Hb.
  - unfold purpose_is_bare_expressible in Hb. apply andb_true_iff in Hb as [Hn Hb].
    destruct s as [|a u]; [discriminate|]. exists a, u. split; [reflexivity|]. cbn [forallb] in Hb.
    apply andb_true_iff in Hb as [Hb _]. now apply bare_visible in Hb as (_ & H & _).
  - exists PURPOSE_QUOTE_DOUBLE. eexists. split; [reflexivity|]. reflexivity.
Qed.

(** ** Identifiers in a recipient line *)

(** An identifier that a recipient line can carry: well formed, its purpose a
    text that is not empty and, quoted, free of the line's delimiters. *)
Record line_id (id : Id) : Prop := {
  li_ok : id_ok id;
  li_data : bytes_ok (id_data id);
  li_canonical : canonical id;
  li_chars p : id_purpose id = Some p -> Forall (fun c => is_char c = true) (purpose_as_str p);
  li_named p : id_purpose id = Some p -> purpose_as_str p <> [];
  li_comment : split_once COMMENT_MARK (purpose_slot id) = None;
  li_wrap : split_once WRAP_MARK (purpose_slot id) = None;
}.

(** The text of an identifier: visible at both ends, free of the delimiters, and
    its last character is none of theirs. *)
Definition id_text (id : Id) (pre : list Z) (c : Z) : Prop :=
  wire id = Ok (pre ++ [c]) /\ id_parse (pre ++ [c]) = Ok id /\ text_ok (pre ++ [c]) /\ trim (pre ++ [c]) = pre ++ [c] /\
  ~ In c COMMENT_MARK /\ ~ In c WRAP_MARK /\
  split_once COMMENT_MARK (pre ++ [c]) = None /\ split_once WRAP_MARK (pre ++ [c]) = None.

Lemma bare_not_space c : bare_char c = true -> c <> 32.
Proof. intros H. apply bare_visible in H. lia. Qed.

Lemma bare_no_space s : forallb bare_char s = true -> ~ In 32 s.
Proof. rewrite forallb_forall. intros H Hin. now apply (bare_not_space 32 (H 32 Hin)). Qed.

(** Behind a slot that is free of a delimiter with a space, so is the text. *)
Lemma split_slot_body mark id body :
  In 32 mark -> ~ In AT mark -> split_once mark (purpose_slot id) = None -> forallb bare_char body = true ->
  split_once mark (purpose_slot id ++ body) = None.
Proof.
  intros H32 Hat Hs Hb. assert (Hbody : split_once mark body = None) by (apply (split_once_absent _ _ 32 H32); now apply bare_no_space).
  unfold purpose_slot in *. destruct (id_purpose id) as [p|]; [|exact Hbody].
  rewrite <- app_assoc. now apply split_once_miss.
Qed.

Lemma line_id_text id : line_id id -> exists pre c, id_text id pre c /\ bare_char c = true.
Proof.
  intros H. destruct (wire_text id (li_ok id H) (li_data id H) (li_canonical id H)) as (body & Hw & Hp & Hn & Hb).
  destruct (exists_last Hn) as (b & c & ->). rewrite app_assoc in Hw, Hp.
  assert (Hc : bare_char c = true).
  { rewrite forallb_forall in Hb. apply Hb, in_or_app. right. now left. }
  exists (purpose_slot id ++ b), c. split; [|exact Hc].
  pose proof (bare_visible c Hc) as (Hr & Hws & _).
  assert (Hslot : forall mark, In 32 mark -> ~ In AT mark -> split_once mark (purpose_slot id) = None ->
                  split_once mark ((purpose_slot id ++ b) ++ [c]) = None).
  { intros mark Hm Ha Hs. rewrite <- app_assoc. now apply split_slot_body. }
  split; [unfold wire; now rewrite Hw|]. split; [exact Hp|]. split; [|split; [|split; [|split; [|split]]]].
  - rewrite <- app_assoc. apply text_ok_app. split; [|now apply bare_text_ok].
    unfold purpose_slot. destruct (id_purpose id) as [p|] eqn:Hpp; [|constructor].
    apply text_ok_app. split; [apply spelled_text_ok, (li_chars id H p Hpp)|now apply text_okb_ok].
  - rewrite <- app_assoc.
    assert (Hhead : exists a, head (purpose_slot id ++ b ++ [c]) = Some a /\ is_whitespace a = false).
    { unfold purpose_slot. destruct (id_purpose id) as [p|].
      - destruct (spelled_head (purpose_as_str p)) as (a & u & -> & Ha). exists a. now split.
      - destruct (b ++ [c]) as [|a u] eqn:E; [now destruct b|]. exists a. split; [reflexivity|].
        cbn [forallb] in Hb. apply andb_true_iff in Hb as [Hb _]. now apply bare_visible in Hb as (_ & Ha & _). }
    destruct Hhead as (a & Ha & Hwa). apply (trim_keeps _ a c Ha); [|exact Hwa|exact Hws].
    rewrite app_assoc. apply last_snoc.
  - intros Hin. cbn in Hin. intuition (subst; discriminate).
  - intros Hin. cbn in Hin. intuition (subst; discriminate).
  - apply Hslot; [now left| |exact (li_comment id H)]. intros Hin. cbn in Hin. intuition discriminate.
  - apply Hslot; [now left| |exact (li_wrap id H)]. intros Hin. cbn in Hin. intuition discriminate.
Qed.

(** ** Locks *)

Definition visible (c : Z) : bool := (33 <=? c) && (c <=? 126).

Lemma bare_all_visible s : forallb bare_char s = true -> forallb visible s = true.
Proof.
  rewrite !forallb_forall. intros H c Hc. apply H, bare_visible in Hc as (Hr & _). unfold visible. zbool. reflexivity.
Qed.

Lemma visible_text s :
  forallb visible s = true -> s <> [] -> text_ok s /\ trim s = s /\ ~ In 32 s.
Proof.
  intros Hv Hn. rewrite forallb_forall in Hv.
  assert (H : forall c, In c s -> 33 <= c <= 126) by (intros c Hc; specialize (Hv c Hc); unfold visible in Hv; bprop; lia).
  assert (Hws : forall c, In c s -> is_whitespace c = false).
  { intros c Hc. specialize (H c Hc). unfold is_whitespace. rewrite !between_out by lia. zbool. reflexivity. }
  split; [|split].
  - apply List.Forall_forall. intros c Hc. specialize (H c Hc). unfold is_char, LF.
    rewrite (proj2 (between_spec 0 c 0xD7FF)) by lia. split; [reflexivity|lia].
  - destruct s as [|a s]; [contradiction|]. destruct (exists_last Hn) as (u & b & E).
    apply (trim_keeps (a :: s) a b).
    + reflexivity.
    + rewrite E. apply last_snoc.
    + apply Hws. now left.
    + apply Hws. rewrite E. apply in_or_app. right. now left.
  - intros Hin. specialize (H 32 Hin). lia.
Qed.

(** The text of an identifier whose purpose is visible. *)
Lemma visible_wire id :
  id_ok id -> bytes_ok (id_data id) -> canonical id -> forallb visible (purpose_slot id) = true ->
  exists w, wire id = Ok w /\ id_parse w = Ok id /\ text_ok w /\ trim w = w /\ ~ In 32 w.
Proof.
  intros Hok Hd Hc Hs. destruct (wire_text id Hok Hd Hc) as (body & Hw & Hp & Hn & Hb).
  exists (purpose_slot id ++ body). split; [unfold wire; now rewrite Hw|]. split; [exact Hp|].
  apply visible_text; [|intros E; apply app_eq_nil in E as [_ E]; contradiction].
  rewrite forallb_app, Hs. now apply bare_all_visible.
Qed.

Lemma wrap_lock f wf blob :
  wrap_format_for f = Ok wf -> len blob = format_size wf -> bytes_ok blob ->
  exists w, encode_wrap f blob = Ok w /\ decode_wrap f w = Ok blob /\ text_ok w /\ trim w = w /\ ~ In 32 w.
Proof.
  intros Hf Hl Hb. set (id := MkId (Some PigpenWrapV1) wf blob).
  assert (Hok : id_ok id).
  { split; [exact Hl|]. intros p [= <-] _. destruct f; try discriminate Hf; injection Hf as <-; reflexivity. }
  destruct (visible_wire id Hok Hb) as (w & Hw & Hp & Ht); [intros s [=]|reflexivity|].
  exists w. unfold encode_wrap, decode_wrap. rewrite Hf. cbn [res_bind].
  pose proof (id_ok_new id Hok) as Hnew. cbn [id id_purpose id_format id_data] in Hnew. rewrite Hnew. cbn [map_err res_bind].
  split; [exact Hw|]. rewrite Hp. cbn [map_err res_bind id id_purpose id_format id_data].
  rewrite bool_decide_eq_true_2 by reflexivity. now split.
Qed.

Lemma mac_lock mac :
  len mac = 32 -> bytes_ok mac ->
  exists w, encode_mac mac = Ok w /\ decode_mac w = Ok mac /\ text_ok w.
Proof.
  intros Hl Hb. set (id := MkId None PigpenHeaderMac mac).
  assert (Hok : id_ok id) by (split; [exact Hl|intros p [=]]).
  destruct (visible_wire id Hok Hb) as (w & Hw & Hp & Ht & _); [intros s [=]|reflexivity|].
  exists w. unfold encode_mac, decode_mac.
  pose proof (id_ok_new id Hok) as Hnew. cbn [id id_purpose id_format id_data] in Hnew. rewrite Hnew. cbn [map_err res_bind].
  split; [exact Hw|]. rewrite Hp. now split.
Qed.

(** ** Recipient lines *)

(** The identifier that a bare encryption key stands for: the reader gives it
    the recipient purpose. *)
Definition promoted (id : Id) : Id := MkId (Some PiggyRecipientV1) (id_format id) (id_data id).

Lemma recipient_format id : is_encryption_recipient id = true -> id_format id = PivyEcdhP256Pub \/ id_format id = AgeX25519Pub.
Proof.
  unfold is_encryption_recipient, one_of. rewrite andb_true_iff. intros [H _]. apply bool_decide_eq_true in H.
  apply elem_of_cons in H as [H|H]; [now left|]. apply elem_of_cons in H as [H|H]; [now right|]. inversion H.
Qed.

Lemma promoted_ok id : id_ok id -> is_encryption_recipient id = true -> id_ok (promoted id).
Proof.
  intros [Hl _] He. split; [exact Hl|]. intros p [= <-] _. cbn [promoted id_format].
  destruct (recipient_format id He) as [-> | ->]; reflexivity.
Qed.

Lemma promote_ok id : id_ok id -> is_encryption_recipient id = true -> promote_recipient id = Ok (promoted id).
Proof.
  intros Hok He. unfold promote_recipient, recipient_id. rewrite He. cbn [negb].
  pose proof (id_ok_new _ (promoted_ok id Hok He)) as Hn. cbn [promoted id_purpose id_format id_data] in Hn. now rewrite Hn.
Qed.

(** What a line can carry of a recipient.  The comment is written only where no
    wrapped key is, and must not break the line; a wrapped key belongs to an
    encryption recipient and has its format's size. *)
Record recipient_ok (r : Recipient) : Prop := {
  rok_id : line_id (rc_id r);
  rok_comment c : rc_wrap r = None -> rc_comment r = Some c -> text_ok c;
  rok_wrap w : rc_wrap r = Some w ->
    is_encryption_recipient (rc_id r) = true /\
    exists wf, wrap_format_for (id_format (rc_id r)) = Ok wf /\ len w = format_size wf /\ bytes_ok w;
}.

(** What a line keeps of a recipient: a bare encryption key becomes a
    recipient, the comment goes where a wrapped key stands or nothing is in it. *)
Definition normal_id (id : Id) : Id := if is_encryption_recipient id then promoted id else id.

Definition normal_comment (r : Recipient) : option (list Z) :=
  match rc_wrap r, rc_comment r with
  | None, Some (c :: cs) => Some (c :: cs)
  | _, _ => None
  end.

Definition normal_recipient (r : Recipient) : Recipient :=
  MkRecipient (normal_id (rc_id r)) (normal_comment r) (rc_wrap r).

(** Once its text is split, a line gives the recipient back. *)
Lemma parse_split text r pre c :
  recipient_ok r -> id_text (rc_id r) pre c ->
  forall ws, split_recipient_line text = (pre ++ [c], normal_comment r, ws) ->
  match ws, rc_wrap r with
  | Some s, Some w => decode_wrap (id_format (rc_id r)) s = Ok w
  | None, None => True
  | _, _ => False
  end ->
  parse_recipient_line text = Ok (normal_recipient r).
Proof.
  intros Hr (_ & Hp & _) ws Hs Hw. unfold parse_recipient_line. rewrite Hs, Hp. cbn [map_err res_bind].
  assert (Hnamed : (match id_purpose (rc_id r) with Some p => is_empty (purpose_as_str p) | None => false end) = false).
  { destruct (id_purpose (rc_id r)) as [p|] eqn:E; [|reflexivity].
    pose proof (li_named _ (rok_id r Hr) p E) as Hn. now destruct (purpose_as_str p). }
  rewrite Hnamed.
  assert (Hprom : (if is_encryption_recipient (rc_id r) then promote_recipient (rc_id r) else Ok (rc_id r)) = Ok (normal_id (rc_id r))).
  { unfold normal_id. destruct (is_encryption_recipient (rc_id r)) eqn:E; [|reflexivity].
    apply promote_ok; [exact (li_ok _ (rok_id r Hr))|exact E]. }
  rewrite Hprom. cbn [res_bind]. assert (Hf : id_format (normal_id (rc_id r)) = id_format (rc_id r)) by (unfold normal_id; now destruct (is_encryption_recipient _)).
  rewrite Hf. unfold normal_recipient. destruct ws as [s|], (rc_wrap r) as [w|]; try contradiction; [now rewrite Hw|reflexivity].
Qed.

Lemma recipient_line_parse r :
  recipient_ok r ->
  exists l, recipient_line r = Ok l /\ line_ok l /\ prefix l = P_ITEM /\ parse_recipient_line (body l) = Ok (normal_recipient r).
Proof.
  intros Hr. destruct (line_id_text _ (rok_id r Hr)) as (pre & c & Ht & _).
  pose proof Ht as (Hw & _ & Hok & Htrim & Hc1 & Hc2 & Hs1 & Hs2). unfold recipient_line. rewrite Hw. cbn [res_bind].
  assert (Hmk : forall text, text_ok text -> line_ok (MkLine P_ITEM text)) by (intros; now apply text_line).
  pose proof (fun text => parse_split text r pre c Hr Ht) as Hparse. unfold normal_comment in Hparse.
  destruct (rc_wrap r) as [wrap|] eqn:Hwr.
  - destruct (rok_wrap r Hr wrap Hwr) as (_ & wf & Hf & Hl & Hb).
    destruct (wrap_lock _ wf wrap Hf Hl Hb) as (w & He & Hd & Htw & Htrw & Hn). rewrite He. cbn [res_bind].
    eexists. split; [reflexivity|]. split; [|split; [reflexivity|]].
    + apply Hmk, text_ok_app. split; [exact Hok|]. apply text_ok_app. split; [now apply text_okb_ok|exact Htw].
    + cbn [body]. apply (Hparse _ (Some w)); [|exact Hd]. unfold split_recipient_line. rewrite <- app_assoc. cbn [app].
      rewrite split_once_miss; [|exact Hc1|exact Hs1|].
      * rewrite split_once_hit by assumption. now rewrite Htrim, Htrw.
      * assert (Hcm' : split_once COMMENT_MARK w = None) by (apply (split_once_absent _ _ 32); [now left|exact Hn]).
        cbn [WRAP_MARK app]. rewrite split_once_cons by reflexivity. rewrite split_once_cons by reflexivity.
        rewrite split_once_cons; [now rewrite Hcm'|]. destruct w as [|a w]; [reflexivity|].
        destruct (strip_str COMMENT_MARK (32 :: a :: w)) as [s|] eqn:E; [|reflexivity]. apply strip_str_Some in E.
        injection E as -> _. exfalso. apply Hn. now left.
  - destruct (rc_comment r) as [cm|] eqn:Hcm.
    + pose proof (rok_comment r Hr cm Hwr Hcm) as Hcok. destruct cm as [|ch cm]; cbn [is_empty negb].
      { eexists. split; [reflexivity|]. split; [now apply Hmk|]. split; [reflexivity|]. cbn [body].
        apply (Hparse _ None); [|exact I]. unfold split_recipient_line. rewrite Hs1, Hs2. now rewrite Htrim. }
      rewrite text_no_control by exact Hcok. cbn [res_bind]. eexists. split; [reflexivity|]. split; [|split; [reflexivity|]].
      * apply Hmk, text_ok_app. split; [exact Hok|]. apply text_ok_app. split; [now apply text_okb_ok|exact Hcok].
      * cbn [body]. apply (Hparse _ None); [|exact I]. unfold split_recipient_line. rewrite <- app_assoc. cbn [app].
        rewrite split_once_hit by assumption. now rewrite Htrim.
    + eexists. split; [reflexivity|]. split; [now apply Hmk|]. split; [reflexivity|]. cbn [body].
      apply (Hparse _ None); [|exact I]. unfold split_recipient_line. rewrite Hs1, Hs2. now rewrite Htrim.
Qed.

Lemma recipient_lines_parse rs :
  Forall recipient_ok rs ->
  exists ls, recipient_lines rs = Ok ls /\ Forall line_ok ls /\ Forall (fun l => prefix l = P_ITEM) ls /\
    forall d saw rest,
      parse_lines d saw (ls ++ rest)
      = parse_lines (MkDocument (d_description d) (d_recipients d ++ map normal_recipient rs) (d_payload d) (d_mac d)) saw rest.
Proof.
  induction 1 as [|r rs Hr Hrs IH].
  - exists []. repeat split; try constructor. intros [de re pa ma] saw rest. cbn. now rewrite app_nil_r.
  - destruct (recipient_line_parse r Hr) as (l & Hl & Hok & Hp & Hparse). destruct IH as (ls & Hls & Hoks & Hps & Hrun).
    exists (l :: ls). cbn [recipient_lines]. rewrite Hl, Hls. cbn [res_bind].
    split; [reflexivity|]. split; [now constructor|]. split; [now constructor|]. intros d saw rest.
    cbn [app parse_lines]. unfold parse_line. rewrite Hp. change (P_ITEM =? P_DESC) with false.
    change (P_ITEM =? P_ITEM) with true. cbv iota. rewrite Hparse. cbn [res_bind]. rewrite Hrun.
    cbn [d_description d_recipients d_payload d_mac]. now rewrite <- app_assoc.
Qed.

(** ** Documents *)

Record doc_ok (d : Document) : Prop := {
  dok_description s : d_description d = Some s -> text_ok s;
  dok_recipients : Forall recipient_ok (d_recipients d);
  dok_mac m : d_mac d = Some m -> len m = 32 /\ bytes_ok m;
  dok_valid : validate d = Ok tt;
}.

(** What the text keeps of a document. *)
Definition normal (d : Document) : Document :=
  MkDocument (match d_description d with Some [] => None | s => s end)
    (map normal_recipient (d_recipients d)) (d_payload d) (d_mac d).

Lemma normal_id_encryption id : is_encryption_recipient (normal_id id) = is_encryption_recipient id.
Proof.
  unfold normal_id. destruct (is_encryption_recipient id) eqn:E; [|exact E].
  destruct (recipient_format id E) as [Hf|Hf]; unfold is_encryption_recipient; cbn [promoted id_format id_purpose]; now rewrite Hf.
Qed.

(** It is as valid as the document. *)
Lemma validate_normal d : validate (normal d) = validate d.
Proof.
  unfold validate, normal, sealed. cbn [d_recipients d_payload d_mac].
  assert (H : forall (f : Recipient -> bool) rs, (forall r, f (normal_recipient r) = f r) ->
              len (List.filter f (map normal_recipient rs)) = len (List.filter f rs)).
  { intros f rs Hf. induction rs as [|r rs IH]; [reflexivity|]. cbn [map List.filter]. rewrite Hf.
    destruct (f r); [rewrite !len_cons; now rewrite IH|exact IH]. }
  rewrite !H; [reflexivity| |reflexivity]. intros r. unfold is_wrapped. cbn [normal_recipient rc_id rc_wrap]. now rewrite normal_id_encryption.
Qed.

Lemma with_prefix_all p ls : Forall (fun l => prefix l = p) ls -> with_prefix p ls = ls.
Proof.
  unfold with_prefix. induction 1 as [|l ls Hl Hls IH]; [reflexivity|]. cbn [List.filter]. rewrite Hl, Z.eqb_refl. now rewrite IH.
Qed.

Lemma with_prefix_none p q ls : p <> q -> Forall (fun l => prefix l = p) ls -> with_prefix q ls = [].
Proof.
  unfold with_prefix. intros Hpq. induction 1 as [|l ls Hl Hls IH]; [reflexivity|]. cbn [List.filter].
  rewrite Hl, (proj2 (Z.eqb_neq p q) Hpq). exact IH.
Qed.

(** The writer's lines are in canonical order, and none is a reference. *)
Lemma canon_in_order ds its t :
  Forall (fun l => prefix l = P_DESC) ds -> Forall (fun l => prefix l = P_ITEM) its ->
  canon (ds ++ its ++ [MkLine P_TYPE t]) = ds ++ its ++ [MkLine P_TYPE t].
Proof.
  intros Hd Hi. assert (Ht : Forall (fun l => prefix l = P_TYPE) [MkLine P_TYPE t]) by (repeat constructor).
  unfold canon. cbn [mbind list_bind]. unfold with_prefix. rewrite !List.filter_app. fold (with_prefix P_DESC) (with_prefix P_ITEM).
  change (List.filter (fun l => prefix l =? P_AT)) with (with_prefix P_AT).
  change (List.filter (fun l => prefix l =? P_TYPE)) with (with_prefix P_TYPE).
  change (List.filter (fun l => prefix l =? P_DESC)) with (with_prefix P_DESC).
  change (List.filter (fun l => prefix l =? P_ITEM)) with (with_prefix P_ITEM).
  rewrite (with_prefix_all P_DESC ds), (with_prefix_all P_ITEM its), (with_prefix_all P_TYPE [_]) by assumption.
  rewrite !(with_prefix_none P_DESC _ ds), !(with_prefix_none P_ITEM _ its), !(with_prefix_none P_TYPE _ [_]) by (discriminate || assumption).
  cbn [app]. now rewrite !app_nil_r.
Qed.

Lemma no_reference ds its t b :
  Forall (fun l => prefix l = P_DESC) ds -> Forall (fun l => prefix l = P_ITEM) its ->
  has_at_ref (MkHyphence (ds ++ its ++ [MkLine P_TYPE t]) b) = false.
Proof.
  intros Hd Hi. unfold has_at_ref. cbn [meta]. apply not_true_iff_false. rewrite existsb_exists. intros (l & Hl & Hp%Z.eqb_eq).
  rewrite List.Forall_forall in Hd, Hi. rewrite !in_app_iff in Hl. destruct Hl as [Hl|[Hl|[<-|[]]]]; [| |discriminate].
  - rewrite (Hd l Hl) in Hp. discriminate.
  - rewrite (Hi l Hl) in Hp. discriminate.
Qed.

Lemma type_line mac :
  (forall m, mac = Some m -> len m = 32 /\ bytes_ok m) ->
  exists t, (match mac with Some m => let* w := encode_mac m in Ok (TYPE_TAG ++ [AT] ++ w) | None => Ok TYPE_TAG end) = Ok t /\
    text_ok t /\ parse_type_line t = Ok mac.
Proof.
  intros Hm. destruct mac as [m|].
  - destruct (Hm m eq_refl) as [Hl Hb]. destruct (mac_lock m Hl Hb) as (w & He & Hd & Ht). rewrite He. cbn [res_bind].
    eexists. split; [reflexivity|]. split.
    + apply text_ok_app. split; [now apply text_okb_ok|]. apply text_ok_app. split; [now apply text_okb_ok|exact Ht].
    + unfold parse_type_line. change ([AT] ++ w) with (AT :: w). rewrite split_once_char.
      * rewrite Hd. reflexivity.
      * cbn. intuition discriminate.
  - exists TYPE_TAG. split; [reflexivity|]. split; [now apply text_okb_ok|reflexivity].
Qed.

(** A document that is not sealed has no payload. *)
Lemma valid_payload d : validate d = Ok tt -> (if sealed d then d_payload d else []) = d_payload d.
Proof.
  unfold validate. destruct (sealed d); [reflexivity|]. destruct (d_payload d) as [|b p]; [reflexivity|]. cbn [negb is_empty orb].
  repeat (match goal with |- (if ?b then _ else _) = _ -> _ => destruct b end; try discriminate).
Qed.

Lemma description_line d :
  doc_ok d ->
  exists ls, (match d_description d with
              | Some desc => if negb (is_empty desc) then let* _ := reject_control "description" desc in Ok [MkLine P_DESC desc] else Ok []
              | None => Ok []
              end) = Ok ls /\
    Forall line_ok ls /\ Forall (fun l => prefix l = P_DESC) ls /\
    forall rest, parse_lines (MkDocument None [] [] None) false (ls ++ rest)
                 = parse_lines (MkDocument (d_description (normal d)) [] [] None) false rest.
Proof.
  intros Hd. cbn [normal d_description]. destruct (d_description d) as [[|ch s]|] eqn:E; cbn [is_empty negb].
  - exists []. repeat split; constructor.
  - pose proof (dok_description d Hd _ E) as Ht.
    rewrite text_no_control by exact Ht. cbn [res_bind]. exists [MkLine P_DESC (ch :: s)]. split; [reflexivity|].
    split; [constructor; [now apply text_line|constructor]|]. split; [repeat constructor|]. intros rest.
    cbn [app parse_lines]. unfold parse_line. cbn [prefix body]. change (P_DESC =? P_DESC) with true. cbv iota. cbn [res_bind].
    reflexivity.
  - exists []. repeat split; constructor.
Qed.

(** What [to_bytes] writes parses back. *)
Lemma doc_text d : doc_ok d -> exists w, to_bytes d = Ok w /\ doc_parse w = Ok (normal d).
Proof.
  intros Hd. destruct (description_line d Hd) as (ds & Hds & Hdok & Hdp & Hdrun).
  destruct (recipient_lines_parse _ (dok_recipients d Hd)) as (its & His & Hiok & Hip & Hirun).
  destruct (type_line (d_mac d) (dok_mac d Hd)) as (t & Ht & Htok & Htparse).
  assert (Hb : build true d = Ok (MkHyphence (ds ++ its ++ [MkLine P_TYPE t]) (d_payload d))).
  { unfold build. rewrite Hds. cbn [res_bind]. rewrite His. cbn [res_bind andb].
    rewrite (valid_payload d (dok_valid d Hd)). destruct (d_mac d); rewrite Ht; reflexivity. }
  set (ls := ds ++ its ++ [MkLine P_TYPE t]) in *. unfold to_bytes. rewrite Hb. cbn [res_bind].
  assert (Hat : has_at_ref (MkHyphence ls (d_payload d)) = false) by now apply no_reference.
  destruct (marshal (MkHyphence ls (d_payload d))) as [w|e|] eqn:Hm;
    [|unfold marshal in Hm; rewrite Hat in Hm; discriminate..].
  exists w. split; [reflexivity|]. unfold doc_parse. apply parse_marshal in Hm.
  2:{ unfold ls. cbn [meta]. apply Forall_app. split; [exact Hdok|]. apply Forall_app. split; [exact Hiok|].
      constructor; [now apply text_line|constructor]. }
  rewrite Hm. cbn [res_bind meta payload_body]. unfold ls. rewrite canon_in_order by assumption.
  rewrite Hdrun, Hirun. cbn [d_description d_recipients d_payload d_mac app parse_lines]. unfold parse_line. cbn [prefix body].
  change (P_TYPE =? P_DESC) with false. change (P_TYPE =? P_ITEM) with false. change (P_TYPE =? P_AT) with false.
  change (P_TYPE =? P_TYPE) with true. cbv iota. rewrite Htparse. cbn [res_bind negb].
  unfold with_payload, set_mac. cbn [d_description d_recipients d_payload d_mac].
  pose proof (validate_normal d) as Hv. rewrite (dok_valid d Hd) in Hv. match goal with |- context [validate ?x] => change x with (normal d) end. now rewrite Hv.
Qed.

(** ** What a parsed document is *)

Record recipient_wf (r : Recipient) : Prop := {
  rwf_id : id_ok (rc_id r);
  rwf_data : bytes_ok (id_data (rc_id r));
  rwf_promoted : is_encryption_recipient (rc_id r) = true -> id_purpose (rc_id r) = Some PiggyRecipientV1;
  rwf_wrap w : rc_wrap r = Some w ->
    rc_comment r = None /\ bytes_ok w /\ exists wf, wrap_format_for (id_format (rc_id r)) = Ok wf /\ len w = format_size wf;
  rwf_comment : rc_comment r <> Some [];
}.

(** Such a recipient is written as it is. *)
Lemma wf_normal r : recipient_wf r -> normal_recipient r = r.
Proof.
  intros H. destruct r as [id c w]. unfold normal_recipient, normal_id, normal_comment. cbn [rc_id rc_comment rc_wrap].
  pose proof (rwf_promoted _ H) as Hp. pose proof (rwf_wrap _ H) as Hw. pose proof (rwf_comment _ H) as Hc. cbn [rc_id rc_comment rc_wrap] in *.
  assert (Hid : (if is_encryption_recipient id then promoted id else id) = id).
  { destruct (is_encryption_recipient id); [|reflexivity]. destruct id as [p f b]. cbn in Hp. now rewrite (Hp eq_refl). }
  rewrite Hid. destruct w as [w|]; [destruct (Hw w eq_refl) as [-> _]; reflexivity|]. now destruct c as [[|x c]|].
Qed.

Definition recipient_set (d : Document) : Prop :=
  d_mac d = None /\ d_payload d = [] /\ Forall (fun r => rc_wrap r = None) (d_recipients d).

Definition sealed_document (d : Document) : Prop :=
  (exists m, d_mac d = Some m /\ len m = 32) /\ d_payload d <> [] /\
  Exists (fun r => is_wrapped r = true) (d_recipients d) /\
  Forall (fun r => is_encryption_recipient (rc_id r) = true -> is_wrapped r = true) (d_recipients d).

Lemma id_parse_format s id : id_parse s = Ok id -> len (id_data id) = format_size (id_format id).
Proof. intros H. apply id_parse_ok in H as [H _]. exact H. Qed.

Lemma decode_wrap_size f s w :
  decode_wrap f s = Ok w -> bytes_ok w /\ exists wf, wrap_format_for f = Ok wf /\ len w = format_size wf.
Proof.
  unfold decode_wrap. intros H. apply res_bind_Ok_inv in H as (wf & Hf & H).
  destruct (id_parse s) as [id|e|] eqn:Hp; try discriminate. cbn [map_err res_bind] in H.
  destruct (id_purpose id) as [[]|]; try discriminate. case_bool_decide as Hw; [|discriminate]. injection H as <-.
  split; [exact (id_parse_bytes s id Hp)|]. exists wf. split; [exact Hf|]. rewrite <- Hw. exact (id_parse_format s id Hp).
Qed.

Lemma decode_mac_size s m : decode_mac s = Ok m -> len m = 32.
Proof.
  unfold decode_mac. intros H. destruct (id_parse s) as [id|e|] eqn:Hp; try discriminate. cbn [map_err res_bind] in H.
  destruct (id_purpose id) as [p|]; [discriminate|]. case_bool_decide as Hf; [|discriminate]. injection H as <-.
  rewrite (id_parse_format s id Hp), Hf. reflexivity.
Qed.

Lemma parse_type_size t m : parse_type_line t = Ok (Some m) -> len m = 32.
Proof.
  unfold parse_type_line. intros H. apply res_bind_Ok_inv in H as ([tag mac] & Hm & H).
  destruct (negb _); [discriminate|]. injection H as ->. destruct (split_once [AT] t) as [[a b]|]; [|discriminate].
  destruct (decode_mac b) as [x|e|] eqn:Hd; try discriminate. injection Hm as _ ->. exact (decode_mac_size b m Hd).
Qed.

Lemma parse_recipient_wf text r : parse_recipient_line text = Ok r -> recipient_wf r.
Proof.
  unfold parse_recipient_line. destruct (split_recipient_line text) as [[s c] ws] eqn:Hs. intros H.
  destruct (id_parse s) as [id|e|] eqn:Hp; try discriminate. cbn [map_err res_bind] in H.
  destruct (match id_purpose id with Some p => is_empty (purpose_as_str p) | None => false end); [discriminate|].
  apply res_bind_Ok_inv in H as (id' & Hid & H). apply res_bind_Ok_inv in H as (wrap & Hw & H). injection H as <-.
  assert (Hok : id_ok id' /\ bytes_ok (id_data id') /\ (is_encryption_recipient id' = true -> id_purpose id' = Some PiggyRecipientV1)).
  { destruct (is_encryption_recipient id) eqn:He.
    - unfold promote_recipient, recipient_id in Hid. rewrite He in Hid. cbn [negb] in Hid.
      destruct (id_new _ _ _) as [i|e|] eqn:Hn; try discriminate. injection Hid as <-.
      apply id_new_ok in Hn as [-> Hok]. split; [exact Hok|]. split; [exact (id_parse_bytes s id Hp)|reflexivity].
    - injection Hid as <-. split; [now apply id_parse_ok in Hp|]. split; [exact (id_parse_bytes s id Hp)|congruence]. }
  split; cbn [rc_id rc_comment rc_wrap]; [apply Hok..| |].
  2:{ unfold split_recipient_line in Hs. destruct (split_once COMMENT_MARK text) as [[? [|? ?]]|];
        [..|destruct (split_once WRAP_MARK text) as [[? ?]|]]; injection Hs as _ <- _; discriminate. }
  intros w ->. split.
  - destruct ws as [s'|]; [|discriminate]. unfold split_recipient_line in Hs.
    destruct (split_once COMMENT_MARK text) as [[? ?]|]; [destruct (negb _); discriminate|].
    destruct (split_once WRAP_MARK text) as [[? ?]|]; injection Hs as _ <- _; reflexivity.
  - destruct ws as [s'|]; [|discriminate]. destruct (decode_wrap (id_format id') s') as [w'|e|] eqn:Hd; try discriminate.
    injection Hw as ->. exact (decode_wrap_size _ _ _ Hd).
Qed.

(** What the loop over the lines keeps. *)
Definition parsing (d : Document) : Prop :=
  Forall recipient_wf (d_recipients d) /\ (forall m, d_mac d = Some m -> len m = 32) /\
  (forall s, d_description d = Some s -> s <> []).

Lemma parse_line_parsing d saw l d' saw' : parsing d -> parse_line d saw l = Ok (d', saw') -> parsing d'.
Proof.
  intros (Hr & Hm & Hd). unfold parse_line.
  destruct (prefix l =? P_DESC); [|destruct (prefix l =? P_ITEM); [|destruct (prefix l =? P_AT);
    [discriminate|destruct (prefix l =? P_TYPE); [destruct saw; [discriminate|]|]]]].
  - intros [= <- <-]. unfold add_description. destruct (negb _) eqn:E; [|now split].
    split; [exact Hr|]. split; [exact Hm|]. intros s [= <-] He. apply app_eq_nil in He as [_ He].
    apply app_eq_nil in He as [_ He]. rewrite He in E. discriminate.
  - intros H. apply res_bind_Ok_inv in H as (r & Hp & H). injection H as <- _. split; [|now split].
    apply Forall_app. split; [exact Hr|]. constructor; [exact (parse_recipient_wf _ _ Hp)|constructor].
  - intros H. apply res_bind_Ok_inv in H as (mac & Hp & H). injection H as <- _. split; [exact Hr|]. split; [|exact Hd].
    intros m E. cbn in E. subst mac. exact (parse_type_size _ _ Hp).
  - intros [= <- <-]. now split.
Qed.

Lemma parse_lines_parsing ls : forall d saw d' saw', parsing d -> parse_lines d saw ls = Ok (d', saw') -> parsing d'.
Proof.
  induction ls as [|l ls IH]; intros d saw d' saw' Hd H; cbn [parse_lines] in H; [now injection H as <- <-|].
  apply res_bind_Ok_inv in H as ([d1 s1] & H1 & H). exact (IH _ _ _ _ (parse_line_parsing _ _ _ _ _ Hd H1) H).
Qed.

Lemma filter_none {A} (f : A -> bool) l : len (List.filter f l) <= 0 -> Forall (fun x => f x = false) l.
Proof.
  induction l as [|x l IH]; intros H; constructor; cbn [List.filter] in H; destruct (f x) eqn:E; try reflexivity;
    try (rewrite len_cons in H; pose proof (len_nonneg (List.filter f l)); lia); now apply IH.
Qed.

Lemma filter_some {A} (f : A -> bool) l : len (List.filter f l) <> 0 -> Exists (fun x => f x = true) l.
Proof.
  induction l as [|x l IH]; intros H; [contradiction|]. cbn [List.filter] in H.
  destruct (f x) eqn:E; [now left|right; now apply IH].
Qed.

(** The two faces [validate] lets pass. *)
Lemma validate_faces d :
  (forall m, d_mac d = Some m -> len m = 32) -> validate d = Ok tt -> recipient_set d \/ sealed_document d.
Proof.
  intros Hm. unfold validate. set (w := len (List.filter is_wrapped _)). set (u := len (List.filter _ (d_recipients d))).
  destruct (sealed d || negb (is_empty (d_payload d)) || (0 <? w)) eqn:Hs; cbn [negb].
  - destruct (0 <? u) eqn:Hu; [discriminate|]. destruct (w =? 0) eqn:Hw; [discriminate|]. destruct (sealed d) eqn:Hsd; [|discriminate].
    cbn [negb]. destruct (is_empty (d_payload d)) eqn:Hp; [discriminate|]. intros _. right. bprop.
    split; [|split; [|split]].
    + unfold sealed in Hsd. destruct (d_mac d) as [m|]; [|discriminate]. exists m. split; [reflexivity|now apply Hm].
    + intros E. rewrite E in Hp. discriminate.
    + now apply filter_some.
    + eapply list.Forall_impl; [exact (filter_none _ _ Hu)|]. intros r Hr He. cbn beta in Hr. rewrite He in Hr.
      destruct (is_wrapped r); [reflexivity|discriminate].
  - intros _. left. bprop. split; [|split].
    + unfold sealed in *. now destruct (d_mac d).
    + now destruct (d_payload d).
    + eapply list.Forall_impl; [exact (filter_none _ _ (proj1 (Z.ltb_ge 0 w) ltac:(now apply Z.ltb_ge)))|].
      intros r Hr. unfold is_wrapped in Hr. now destruct (rc_wrap r).
Qed.

Lemma doc_parse_wf raw d :
  doc_parse raw = Ok d ->
  (recipient_set d \/ sealed_document d) /\ Forall recipient_wf (d_recipients d) /\
  (forall s, d_description d = Some s -> s <> []).
Proof.
  unfold doc_parse. intros H. apply res_bind_Ok_inv in H as (h & _ & H). apply res_bind_Ok_inv in H as ([d1 saw] & H1 & H).
  destruct (negb saw); [discriminate|]. apply res_bind_Ok_inv in H as ([] & Hv & H). injection H as <-.
  apply parse_lines_parsing in H1 as (Hr & Hm & Hd); [|now repeat split].
  split; [apply validate_faces; [exact Hm|exact Hv]|]. now split.
Qed.

(** A document that was read is written as it is. *)
Lemma parsed_normal raw d : doc_parse raw = Ok d -> normal d = d.
Proof.
  intros H. apply doc_parse_wf in H as (_ & Hr & Hd). destruct d as [de rs pa ma]. unfold normal. cbn [d_description d_recipients d_payload d_mac] in *.
  assert (Hrs : map normal_recipient rs = rs) by (induction Hr as [|r rs Hr Hrs IH]; [reflexivity|]; cbn [map]; now rewrite (wf_normal r Hr), IH).
  rewrite Hrs. destruct de as [[|c s]|]; [now destruct (Hd [] eq_refl)|reflexivity..].
Qed.

(** ** No bytes make the readers panic *)

Lemma decode_wrap_no_panic f s : no_panic (decode_wrap f s).
Proof.
  unfold decode_wrap. apply no_panic_bind; [destruct f; discriminate|]. intros wf _.
  apply no_panic_bind; [apply no_panic_map_err, id_parse_no_panic|]. intros id _.
  destruct (id_purpose id) as [[]|]; auto with panic. destruct (negb _); auto with panic.
Qed.

Lemma parse_type_line_no_panic t : no_panic (parse_type_line t).
Proof.
  unfold parse_type_line. apply no_panic_bind; [|intros [tag mac] _; destruct (negb _); auto with panic].
  destruct (split_once [AT] t) as [[a b]|]; [|auto with panic]. apply no_panic_bind; [|auto with panic].
  unfold decode_mac. apply no_panic_bind; [apply no_panic_map_err, id_parse_no_panic|]. intros id _.
  destruct (id_purpose id); [auto with panic|]. destruct (negb _); auto with panic.
Qed.

Lemma parse_recipient_line_no_panic t : no_panic (parse_recipient_line t).
Proof.
  unfold parse_recipient_line. destruct (split_recipient_line t) as [[s c] ws].
  apply no_panic_bind; [apply no_panic_map_err, id_parse_no_panic|]. intros id _.
  destruct (match id_purpose id with Some p => is_empty (purpose_as_str p) | None => false end); [auto with panic|].
  apply no_panic_bind.
  - destruct (is_encryption_recipient id) eqn:He; [|auto with panic]. unfold promote_recipient. rewrite He. cbn [negb].
    apply no_panic_map_err, id_new_no_panic.
  - intros id' _. apply no_panic_bind; [|auto with panic]. destruct ws; [|auto with panic].
    apply no_panic_bind; [apply decode_wrap_no_panic|auto with panic].
Qed.

Lemma parse_lines_no_panic ls : forall d saw, no_panic (parse_lines d saw ls).
Proof.
  induction ls as [|l ls IH]; intros d saw; cbn [parse_lines]; [auto with panic|].
  apply no_panic_bind; [|intros [d' saw'] _; apply IH]. unfold parse_line.
  repeat match goal with |- no_panic (if ?b then _ else _) => destruct b end; auto with panic.
  - apply no_panic_bind; [apply parse_recipient_line_no_panic|auto with panic].
  - apply no_panic_bind; [apply parse_type_line_no_panic|auto with panic].
Qed.

Lemma validate_no_panic d : no_panic (validate d).
Proof. unfold validate. repeat match goal with |- no_panic (if ?b then _ else _) => destruct b end; auto with panic. Qed.

Lemma count_types_no_panic ls : forall n, no_panic (count_types n ls).
Proof.
  induction ls as [|l ls IH]; intros n; cbn [count_types]; [auto with panic|]. destruct (negb _); [auto with panic|apply IH].
Qed.

Lemma pointer_tags_no_panic ls : forall k l, no_panic (pointer_tags k l ls).
Proof.
  induction ls as [|x ls IH]; intros k l; cbn [pointer_tags]; [auto with panic|]. destruct (negb _); [apply IH|].
  destruct (parse_quoted_kv (body x) KEY_KIND), k, (parse_quoted_kv (body x) KEY_LOCATOR), l; auto with panic; apply IH.
Qed.

Lemma pointer_kind_no_panic k : no_panic (validate_pointer_kind k).
Proof. unfold validate_pointer_kind. destruct (is_empty k); [|destruct (contains_any _ _)]; auto with panic. Qed.

Lemma doc_parse_no_panic raw : no_panic (doc_parse raw).
Proof.
  unfold doc_parse. apply no_panic_bind; [apply parse_no_panic|]. intros h _.
  apply no_panic_bind; [apply parse_lines_no_panic|]. intros [d saw] _. destruct (negb saw); [auto with panic|].
  apply no_panic_bind; [apply validate_no_panic|auto with panic].
Qed.

Lemma pointer_parse_no_panic raw : no_panic (pointer_parse raw).
Proof.
  unfold pointer_parse. apply no_panic_bind; [apply parse_no_panic|]. intros h _.
  apply no_panic_bind; [apply count_types_no_panic|]. intros n _.
  repeat match goal with |- no_panic (if ?b then _ else _) => destruct b end; auto with panic.
  apply no_panic_bind; [apply pointer_tags_no_panic|]. intros [k l] _.
  apply no_panic_bind; [auto with panic|]. intros k' _. apply no_panic_bind; [auto with panic|]. intros l' _.
  apply no_panic_bind; [apply pointer_kind_no_panic|auto with panic].
Qed.

(** What was read can be written: [to_wire] does not panic. *)
Lemma wire_no_panic id : id_ok id -> bytes_ok (id_data id) -> no_panic (wire id).
Proof. intros Hok Hd. destruct (body_text id Hok Hd) as (rest & He & _). unfold wire, to_wire. now rewrite He. Qed.

Lemma encode_wrap_no_panic f w : bytes_ok w -> no_panic (encode_wrap f w).
Proof.
  intros Hw. unfold encode_wrap. apply no_panic_bind; [destruct f; discriminate|]. intros wf _.
  apply no_panic_bind; [apply no_panic_map_err, id_new_no_panic|]. intros id H.
  destruct (id_new _ _ _) as [i|e|] eqn:Hn; try discriminate. injection H as <-. apply id_new_ok in Hn as [-> Hok].
  now apply wire_no_panic.
Qed.

Lemma recipient_line_no_panic r : recipient_wf r -> no_panic (recipient_line r).
Proof.
  intros Hr. unfold recipient_line. apply no_panic_bind; [apply wire_no_panic; apply Hr|]. intros text _.
  apply no_panic_bind; [|auto with panic]. destruct (rc_wrap r) as [w|] eqn:Hw.
  - apply no_panic_bind; [|auto with panic]. apply encode_wrap_no_panic. now apply (rwf_wrap r Hr).
  - destruct (rc_comment r) as [c|]; [|auto with panic]. destruct (negb _); [|auto with panic]. unfold reject_control.
    destruct (contains_any _ _); discriminate.
Qed.

Lemma canonical_header_no_panic d : Forall recipient_wf (d_recipients d) -> no_panic (canonical_header d).
Proof.
  intros H. unfold canonical_header, build. apply no_panic_bind; [|auto with panic]. apply no_panic_bind.
  { destruct (d_description d) as [s|]; [|auto with panic]. destruct (negb _); [|auto with panic]. unfold reject_control.
    destruct (contains_any _ _); discriminate. }
  intros desc _. apply no_panic_bind; [|intros items _; destruct (d_mac d); discriminate].
  induction H as [|r rs Hr Hrs IH]; cbn [recipient_lines]; [auto with panic|].
  apply no_panic_bind; [now apply recipient_line_no_panic|]. intros l _. apply no_panic_bind; [exact IH|auto with panic].
Qed.

(** ** Pointers *)

Lemma quoted_kv_parse key v : parse_quoted_kv (quoted_kv key v) key = Some v.
Proof.
  unfold parse_quoted_kv, quoted_kv. rewrite strip_str_app. cbn [mbind option_bind app]. unfold strip_prefix.
  rewrite !Z.eqb_refl. cbn [mbind option_bind]. rewrite Z.eqb_refl. cbn [mbind option_bind]. apply strip_suffix_snoc.
Qed.

Lemma quoted_text key v : text_ok key -> text_ok v -> line_ok (MkLine P_ITEM (quoted_kv key v)).
Proof.
  intros Hk Hv. apply text_line; [reflexivity|]. unfold quoted_kv. repeat (apply text_ok_app; split); try assumption; now apply text_okb_ok.
Qed.

(** A field that passed the writer's checks is a line's text. *)
Lemma checked_text field v : Forall (fun c => is_char c = true) v -> check_pointer_field field v = Ok tt -> text_ok v.
Proof.
  intros Hc. unfold check_pointer_field, reject_control. destruct (contains_any [LF; 13] v) eqn:E; [discriminate|]. intros _.
  rewrite contains_any_false in E. unfold text_ok. rewrite List.Forall_forall in *. intros c Hin. split; [now apply Hc|].
  split; intros ->; [apply (E LF)|apply (E 13)]; cbn; auto.
Qed.

Lemma pointer_text p w :
  Forall (fun c => is_char c = true) (kind p) -> Forall (fun c => is_char c = true) (locator p) ->
  pointer_to_bytes p = Ok w -> pointer_parse w = Ok p.
Proof.
  intros Hk Hl. unfold pointer_to_bytes. intros H.
  apply res_bind_Ok_inv in H as ([] & Hkind & H). apply res_bind_Ok_inv in H as ([] & Hck & H).
  apply res_bind_Ok_inv in H as ([] & Hcl & H). apply checked_text in Hck; [|exact Hk]. apply checked_text in Hcl; [|exact Hl].
  apply parse_marshal in H.
  2:{ cbn [meta]. constructor; [|constructor; [|constructor; [|constructor]]].
      - apply quoted_text; [now apply text_okb_ok|exact Hck].
      - apply quoted_text; [now apply text_okb_ok|exact Hcl].
      - apply text_line; [reflexivity|now apply text_okb_ok]. }
  unfold pointer_parse. rewrite H. cbn [res_bind meta payload_body].
  change [MkLine P_ITEM (quoted_kv KEY_KIND (kind p)); MkLine P_ITEM (quoted_kv KEY_LOCATOR (locator p)); MkLine P_TYPE POINTER_TYPE_TAG]
    with ([] ++ [MkLine P_ITEM (quoted_kv KEY_KIND (kind p)); MkLine P_ITEM (quoted_kv KEY_LOCATOR (locator p))]
          ++ [MkLine P_TYPE POINTER_TYPE_TAG]).
  rewrite canon_in_order by repeat constructor. cbn [app].
  change (count_types 0 (with_prefix P_TYPE _)) with (Ok (E := PigpenError) 1). cbn [res_bind].
  change (1 =? 0) with false. change (negb (1 =? 1)) with false. cbv iota. cbn [is_empty negb pointer_tags prefix body].
  change (P_ITEM =? P_ITEM) with true. change (P_TYPE =? P_ITEM) with false. cbn [negb].
  rewrite quoted_kv_parse. change (parse_quoted_kv (quoted_kv KEY_LOCATOR (locator p)) KEY_KIND) with (@None (list Z)).
  rewrite quoted_kv_parse. cbn [res_bind ok_or]. rewrite Hkind. now destruct p.
Qed.

(** What a pointer's fields must be. *)
Definition pointer_fits (p : Pointer) : bool :=
  negb (is_empty (kind p)) && negb (contains_any [47; 0] (kind p))
  && negb (contains_any [LF; 13] (kind p)) && negb (contains_any [PURPOSE_QUOTE_DOUBLE] (kind p))
  && negb (contains_any [LF; 13] (locator p)) && negb (contains_any [PURPOSE_QUOTE_DOUBLE] (locator p)).

Lemma pointer_writes p :
  (pointer_fits p = true /\ exists w, pointer_to_bytes p = Ok w) \/
  (pointer_fits p = false /\ exists e, pointer_to_bytes p = Err (Malformed e)).
Proof.
  unfold pointer_fits, pointer_to_bytes, validate_pointer_kind, check_pointer_field, reject_control.
  repeat (match goal with
          | |- context [is_empty ?s] => destruct (is_empty s)
          | |- context [contains_any ?cs ?s] => destruct (contains_any cs s)
          end; cbn [negb andb res_bind]; [now right; eauto|]).
  left. split; [reflexivity|]. eexists. reflexivity.
Qed.

(** ** Properties *)

(** C36 (roundtrip).  A pigpen document, sealed or a recipient set, that is
    written reads back: description, recipients in order with their comments or
    wrapped keys, header MAC, payload.  It reads back as it was but for what the
    text does not keep: a bare encryption key comes back with the recipient
    purpose, the comment of a recipient that carries a wrapped key is dropped, and
    an empty comment or description comes back as none; a document that was
    itself read has none of these, and comes back exactly.  The document has to
    pass [validate]; its MAC, if any, has 32 bytes; its description and the comments
    that are written are text without line breaks (with one, the writer
    fails); wrapped keys, of their format's size, are on encryption recipients
    only; and each identifier is well formed, with a purpose that is not empty, is
    not a registered name held as another's, and, when it must be quoted, does
    not contain a delimiter of the line. *)
Theorem document_roundtrip d :
  doc_ok d ->
  (exists w, to_bytes d = Ok w /\ doc_parse w = Ok (normal d)) /\
  ((exists raw, doc_parse raw = Ok d) -> normal d = d).
Proof. intros H. split; [exact (doc_text d H)|]. intros [raw Hr]. exact (parsed_normal raw d Hr). Qed.

(** A document that parses is one of the two faces of the format: a
    recipient set with neither payload, MAC nor wrapped key, or a sealed document
    with a MAC of 32 bytes, a payload, and a wrapped key for every encryption
    recipient and for at least one line.  Its identifiers are well formed, bare
    recipients carry the recipient purpose, every wrapped key has its format's
    size, and its description is not empty. *)
Theorem documents_well_formed raw d :
  doc_parse raw = Ok d ->
  (recipient_set d \/ sealed_document d) /\ Forall recipient_wf (d_recipients d) /\
  (forall s, d_description d = Some s -> s <> []).
Proof. exact (doc_parse_wf raw d). Qed.

(** A pointer is written exactly when its kind can name an
    executable and neither field would break its line, and then it reads back as
    it is; otherwise the writer says why. *)
Theorem pointer_roundtrip p :
  Forall (fun c => is_char c = true) (kind p) -> Forall (fun c => is_char c = true) (locator p) ->
  if pointer_fits p then exists w, pointer_to_bytes p = Ok w /\ pointer_parse w = Ok p
  else exists e, pointer_to_bytes p = Err (Malformed e).
Proof.
  intros Hk Hl. destruct (pointer_writes p) as [(Hf & w & Hw)|(Hf & e & He)]; rewrite Hf; [|now exists e].
  exists w. split; [exact Hw|]. exact (pointer_text p w Hk Hl Hw).
Qed.

(** *** Witnesses *)

(** The conditions on a recipient, as a test. *)
Definition line_idb (id : Id) : bool :=
  (len (id_data id) =? format_size (id_format id)) && forallb (fun b => between 0 b 255) (id_data id)
  && match id_purpose id with
     | None => true
     | Some p =>
         (is_other p || accepts p (id_format id)) && negb (is_other p && negb (is_other (purpose_parse (purpose_as_str p))))
         && forallb is_char (purpose_as_str p) && negb (is_empty (purpose_as_str p))
     end
  && negb (is_ok (ok_or (split_once COMMENT_MARK (purpose_slot id)) tt))
  && negb (is_ok (ok_or (split_once WRAP_MARK (purpose_slot id)) tt)).

Lemma forall_of_forallb {A} (f : A -> bool) l : forallb f l = true -> Forall (fun x => f x = true) l.
Proof. rewrite forallb_forall. intros H. now apply List.Forall_forall. Qed.

Lemma purpose_parse_other s : is_other (purpose_parse s) = true -> purpose_parse s = Other s.
Proof. unfold purpose_parse. now repeat case_bool_decide. Qed.

Lemma line_idb_ok id : line_idb id = true -> line_id id.
Proof.
  unfold line_idb. rewrite !andb_true_iff. intros ((((Hl & Hb) & Hp) & Hc) & Hw). apply Z.eqb_eq in Hl.
  assert (Hbytes : bytes_ok (id_data id)).
  { eapply list.Forall_impl; [exact (forall_of_forallb _ _ Hb)|]. intros b H. apply between_spec in H. unfold byte_ok. lia. }
  destruct (id_purpose id) as [p|] eqn:E.
  - rewrite !andb_true_iff in Hp. destruct Hp as (((Ha & Ho) & Hch) & Hn). split.
    + split; [exact Hl|]. intros q Hq Hoq. rewrite E in Hq. injection Hq as <-. rewrite Hoq in Ha. exact Ha.
    + exact Hbytes.
    + intros s Hs. rewrite E in Hs. injection Hs as ->. cbn [is_other purpose_as_str andb negb] in Ho.
      apply purpose_parse_other. now destruct (is_other _).
    + intros q Hq. rewrite E in Hq. injection Hq as <-. now apply forall_of_forallb.
    + intros q Hq. rewrite E in Hq. injection Hq as <-. now destruct (purpose_as_str p).
    + now destruct (split_once COMMENT_MARK _).
    + now destruct (split_once WRAP_MARK _).
  - split; try (intros q Hq; rewrite E in Hq; discriminate); try assumption.
    + split; [exact Hl|]. intros q Hq. rewrite E in Hq. discriminate.
    + now destruct (split_once COMMENT_MARK _).
    + now destruct (split_once WRAP_MARK _).
Qed.

(** A recipient set: a card with a comment, one without its purpose, and a
    line for someone else. *)
Definition toy_set : Document :=
  MkDocument (Some (ascii "for the store"))
    [MkRecipient (MkId (Some PiggyRecipientV1) PivyEcdhP256Pub vector_payload) (Some (ascii "# primary < key")) None;
     MkRecipient (MkId None AgeX25519Pub (repeat 7 32)) (Some []) None;
     MkRecipient quoted_id None None] [] None.

Definition toy_set_read : Document :=
  MkDocument (Some (ascii "for the store"))
    [MkRecipient (MkId (Some PiggyRecipientV1) PivyEcdhP256Pub vector_payload) (Some (ascii "# primary < key")) None;
     MkRecipient (MkId (Some PiggyRecipientV1) AgeX25519Pub (repeat 7 32)) None None;
     MkRecipient quoted_id None None] [] None.

(** A sealed document whose recipient has a comment and no purpose. *)
Definition toy_wrap : Document :=
  MkDocument None [MkRecipient (MkId None AgeX25519Pub (repeat 7 32)) (Some (ascii "lost")) (Some (repeat 8 64))]
    [1; 2; 3] (Some (repeat 9 32)).

Lemma document_roundtrip_witness :
  (doc_ok toy_set /\ normal toy_set = toy_set_read /\
   ((exists w, to_bytes toy_set = Ok w /\ doc_parse w = Ok (normal toy_set)) /\
    ((exists raw, doc_parse raw = Ok toy_set) -> normal toy_set = toy_set))) /\
  doc_ok toy_wrap /\ (exists w, to_bytes toy_wrap = Ok w /\ doc_parse w = Ok (normal toy_wrap)).
Proof.
  assert (H : doc_ok toy_set).
  { split; [intros s [= <-]; now apply text_okb_ok| |intros m [=]|reflexivity].
    repeat constructor; cbn [rc_id rc_comment rc_wrap]; try discriminate;
      try (intros c _ [= <-]; now apply text_okb_ok); apply line_idb_ok; vm_compute; reflexivity. }
  assert (Hw : doc_ok toy_wrap).
  { split; [intros s [=]| |intros m [= <-]; split; [reflexivity|now repeat constructor]|reflexivity].
    constructor; [|constructor]. split; [apply line_idb_ok; vm_compute; reflexivity|discriminate|].
    intros w [= <-]. split; [reflexivity|]. eexists. split; [reflexivity|]. split; [reflexivity|now repeat constructor]. }
  split; [split; [exact H|split; [reflexivity|exact (document_roundtrip toy_set H)]]|].
  split; [exact Hw|]. apply (document_roundtrip toy_wrap Hw).
Defined.

(** A sealed document by the look of it: what its keys are is for [open]. *)
Definition toy_sealed : Document :=
  MkDocument None
    [MkRecipient (MkId (Some PiggyRecipientV1) AgeX25519Pub (repeat 7 32)) None (Some (repeat 8 64))]
    [1; 2; 3] (Some (repeat 9 32)).

Definition text_of {A} (c : res PigpenError (list A)) : list A := match c with Ok w => w | _ => [] end.

Lemma documents_well_formed_witness :
  doc_parse (text_of (to_bytes toy_sealed)) = Ok toy_sealed /\
  (recipient_set toy_sealed \/ sealed_document toy_sealed) /\ Forall recipient_wf (d_recipients toy_sealed) /\
  (forall s, d_description toy_sealed = Some s -> s <> []).
Proof.
  assert (H : doc_parse (text_of (to_bytes toy_sealed)) = Ok toy_sealed) by (vm_compute; reflexivity).
  split; [exact H|]. exact (documents_well_formed _ _ H).
Defined.

Definition toy_pointer : Pointer := MkPointer (ascii "papi-http") (ascii "https://example.com/a=b").

Lemma pointer_roundtrip_witness :
  if pointer_fits toy_pointer then exists w, pointer_to_bytes toy_pointer = Ok w /\ pointer_parse w = Ok toy_pointer
  else exists e, pointer_to_bytes toy_pointer = Err (Malformed e).
Proof. apply (pointer_roundtrip toy_pointer); now apply forall_of_forallb. Defined.

(** *** What the format's rules do not have *)

(** A purpose that is quoted may contain the comment's mark: the line that is
    written for it does not read. *)
Definition marked_id : Id := MkId (Some (Other (ascii "a  # b"))) PivyEcdhP256Pub vector_payload.

Example marked_purpose_unreadable :
  exists w e, to_bytes (new_recipient_set [MkRecipient marked_id None None]) = Ok w /\ doc_parse w = Err (MarklErr (RecipientId e)).
Proof. do 2 eexists. split; [vm_compute; reflexivity|]. vm_compute. reflexivity. Qed.

(** A line that is not an encryption recipient may carry a wrapped key. *)
Definition foreign_wrap : Document :=
  MkDocument None [MkRecipient (MkId (Some (Other (ascii "other"))) PivyEcdhP256Pub vector_payload) None (Some (repeat 8 65))]
    [1] (Some (repeat 9 32)).

Example foreign_wrap_accepted :
  doc_parse (text_of (to_bytes foreign_wrap)) = Ok foreign_wrap /\
  Forall (fun r => is_encryption_recipient (rc_id r) = false /\ is_wrapped r = true) (d_recipients foreign_wrap).
Proof. split; [vm_compute; reflexivity|]. repeat constructor. Qed.
