(* ===== verification/DocumentOpen.v ===== *)
(** * DocumentOpen: sealing and opening a pigpen document

    What [seal_with] makes opens, after a trip through its text, for whoever
    holds a recipient's key; and what [open] gives back is what the header MAC
    and the payload's tags vouch for, at one oracle call per key. *)

From Stdlib Require Import ZArith Lia.
From stdpp Require Import base tactics list numbers strings.
From S2P Require Import Prelude Utf8 Text Blech32 Markl Pigpen Hyphence PigpenCrypto Document DocumentText.

Local Open Scope Z_scope.

Section Sealing.
Context (C : Suite) (Laws : SuiteLaws C).

(** An identifier that a file key can be sealed to with that ephemeral secret. *)
Record sealable (id : Id) (e : bytes) : Prop := {
  sl_ok : id_ok id;
  sl_data : bytes_ok (id_data id);
  sl_recipient : is_encryption_recipient id = true;
  sl_secret : len e = 32;
  sl_p256 : id_format id = PivyEcdhP256Pub -> is_Some (p256_from_sec1 C (id_data id)) /\ is_Some (p256_scalar C e);
  sl_x25519 : id_format id = AgeX25519Pub -> was_contributory C (x25519_dh C e (id_data id)) = true;
}.

(** A file key: sixteen bytes. *)
Definition file_key_ok (fk : bytes) : Prop := len fk = FILE_KEY_LEN /\ bytes_ok fk.

(** A recipient that holds the file key, wrapped to its own key. *)
Record wrapped (fk : bytes) (r : Recipient) : Prop := {
  wr_ok : id_ok (rc_id r);
  wr_data : bytes_ok (id_data (rc_id r));
  wr_purpose : id_purpose (rc_id r) = Some PiggyRecipientV1;
  wr_comment : rc_comment r = None;
  wr_wrap : exists w e, rc_wrap r = Some w /\ len e = 32 /\
    ((id_format (rc_id r) = PivyEcdhP256Pub /\ wrap_p256 C fk (id_data (rc_id r)) e = Ok w) \/
     (id_format (rc_id r) = AgeX25519Pub /\ wrap_x25519 C fk (id_data (rc_id r)) e = Ok w));
}.

Lemma sealable_p256 fk id e :
  file_key_ok fk -> sealable id e -> id_format id = PivyEcdhP256Pub -> exists w, wrap_p256 C fk (id_data id) e = Ok w.
Proof.
  intros [Hfk Hfb] Hs Hf. destruct (sl_p256 id e Hs Hf) as [[R HR] [k Hk]]. unfold wrap_p256. rewrite HR, Hk. cbn [ok_or res_bind].
  unfold aead_seal. match goal with |- context [chacha_seal C ?key ?n fk] => destruct (chacha_seals C Laws key n fk Hfb) as [ct Hct] end;
    [rewrite Hfk; unfold FILE_KEY_LEN; lia|]. rewrite Hct. cbn [ok_or res_bind]. eauto.
Qed.

Lemma sealable_x25519 fk id e :
  file_key_ok fk -> sealable id e -> id_format id = AgeX25519Pub -> exists w, wrap_x25519 C fk (id_data id) e = Ok w.
Proof.
  intros [Hfk Hfb] Hs Hf. assert (Hl : len (id_data id) = 32) by (rewrite (proj1 (sl_ok id e Hs)), Hf; reflexivity).
  unfold wrap_x25519. rewrite Hl. change (negb (32 =? 32)) with false. cbv iota. unfold reject_low_order.
  rewrite (sl_x25519 id e Hs Hf). cbn [res_bind].
  unfold aead_seal. match goal with |- context [chacha_seal C ?key ?n fk] => destruct (chacha_seals C Laws key n fk Hfb) as [ct Hct] end;
    [rewrite Hfk; unfold FILE_KEY_LEN; lia|]. rewrite Hct. cbn [ok_or res_bind]. eauto.
Qed.

Lemma wrap_for_wrapped fk id e :
  file_key_ok fk -> sealable id e -> exists r, wrap_for C fk id e = Ok r /\ wrapped fk r /\ rc_id r = promoted id.
Proof.
  intros Hfk Hs. pose proof (sl_recipient id e Hs) as He. unfold wrap_for. rewrite promote_ok by (assumption || exact (sl_ok id e Hs)).
  cbn [res_bind promoted id_format id_data].
  destruct (recipient_format id He) as [Hf|Hf]; rewrite Hf.
  - destruct (sealable_p256 fk id e Hfk Hs Hf) as [w Hw]. rewrite Hw. eexists. split; [reflexivity|]. split; [|reflexivity].
    split; cbn [rc_id rc_comment rc_wrap promoted id_purpose id_format id_data]; try reflexivity; [|exact (sl_data id e Hs)|].
    + exact (promoted_ok id (sl_ok id e Hs) He).
    + exists w, e. split; [reflexivity|]. split; [exact (sl_secret id e Hs)|]. now left.
  - destruct (sealable_x25519 fk id e Hfk Hs Hf) as [w Hw]. rewrite Hw. eexists. split; [reflexivity|]. split; [|reflexivity].
    split; cbn [rc_id rc_comment rc_wrap promoted id_purpose id_format id_data]; try reflexivity; [|exact (sl_data id e Hs)|].
    + exact (promoted_ok id (sl_ok id e Hs) He).
    + exists w, e. split; [reflexivity|]. split; [exact (sl_secret id e Hs)|]. now right.
Qed.

Lemma wrap_all_wrapped fk ids es :
  file_key_ok fk -> Forall2 sealable ids es ->
  exists rs, wrap_all C fk ids es = Ok rs /\ Forall (wrapped fk) rs /\ rc_id <$> rs = promoted <$> ids.
Proof.
  intros Hfk. induction 1 as [|id e ids es Hs Hss (rs & Hrs & Hw & Hids)]; [exists []; repeat constructor|].
  destruct (wrap_for_wrapped fk id e Hfk Hs) as (r & Hr & Hwr & Hid).
  exists (r :: rs). cbn [wrap_all]. rewrite Hr, Hrs. cbn [res_bind]. split; [reflexivity|]. split; [now constructor|].
  now rewrite !fmap_cons, Hid, Hids.
Qed.

(** ** The sealed document is well formed *)

Lemma wrapped_line fk r : wrapped fk r -> line_id (rc_id r).
Proof.
  intros H. pose proof (wr_purpose fk r H) as Hp. split.
  - exact (wr_ok fk r H).
  - exact (wr_data fk r H).
  - intros s Hs. rewrite Hp in Hs. discriminate.
  - intros p Hq. rewrite Hp in Hq. injection Hq as <-. now apply forall_of_forallb.
  - intros p Hq. rewrite Hp in Hq. injection Hq as <-. discriminate.
  - unfold purpose_slot. rewrite Hp. reflexivity.
  - unfold purpose_slot. rewrite Hp. reflexivity.
Qed.

Lemma wrapped_recipient fk r : wrapped fk r -> is_encryption_recipient (rc_id r) = true.
Proof.
  intros H. unfold is_encryption_recipient. rewrite (wr_purpose fk r H).
  destruct (wr_wrap fk r H) as (w & e & _ & _ & [[Hf _]|[Hf _]]); now rewrite Hf.
Qed.

(** It is written as it is. *)
Lemma wrapped_normal fk r : wrapped fk r -> normal_recipient r = r.
Proof.
  intros H. unfold normal_recipient, normal_id, normal_comment. rewrite (wrapped_recipient fk r H), (wr_comment fk r H).
  pose proof (wr_purpose fk r H) as Hp. pose proof (wr_comment fk r H) as Hc. destruct r as [[p f b] c w]. cbn [rc_id rc_comment rc_wrap id_purpose] in *. subst.
  now destruct w.
Qed.

Lemma wrapped_recipient_ok fk r : len fk = FILE_KEY_LEN -> wrapped fk r -> recipient_ok r.
Proof.
  intros Hfk H. split.
  - exact (wrapped_line fk r H).
  - intros c _ Hc. rewrite (wr_comment fk r H) in Hc. discriminate.
  - intros w Hw. split; [exact (wrapped_recipient fk r H)|]. destruct (wr_wrap fk r H) as (w' & e & Hw' & Hle & Hor).
    rewrite Hw in Hw'. injection Hw' as <-. destruct Hor as [[Hf Hwr]|[Hf Hwr]]; rewrite Hf; eexists; (split; [reflexivity|]).
    + apply (wrap_p256_shape C Laws) in Hwr as (Hl & Hb & _); [|exact Hfk]. now split.
    + apply (wrap_x25519_shape C Laws) in Hwr as (Hl & Hb & _); [|assumption..]. now split.
Qed.

Lemma wrapped_filters fk rs :
  rs <> [] -> Forall (wrapped fk) rs ->
  0 < len (List.filter is_wrapped rs) /\
  len (List.filter (fun r => negb (is_wrapped r) && is_encryption_recipient (rc_id r)) rs) = 0.
Proof.
  intros Hn H. assert (Hw : Forall (fun r => is_wrapped r = true) rs).
  { eapply list.Forall_impl; [exact H|]. intros r Hr. destruct (wr_wrap fk r Hr) as (w & e & Hwr & _).
    unfold is_wrapped. now rewrite Hwr. }
  clear H. split.
  - destruct Hw as [|r rs Hr Hrs]; [contradiction|]. cbn [List.filter]. rewrite Hr, len_cons.
    pose proof (len_nonneg (List.filter is_wrapped rs)). lia.
  - clear Hn. induction Hw as [|r rs Hr Hrs IH]; [reflexivity|]. cbn [List.filter]. now rewrite Hr.
Qed.

Lemma sealed_valid fk rs p m : rs <> [] -> p <> [] -> Forall (wrapped fk) rs -> validate (MkDocument None rs p (Some m)) = Ok tt.
Proof.
  intros Hn Hp H. destruct (wrapped_filters fk rs Hn H) as [H1 H2]. unfold validate. cbn [d_recipients d_payload d_mac sealed orb negb].
  rewrite H2, (proj2 (Z.eqb_neq _ 0)) by lia. now destruct p.
Qed.

(** The canonical header does not depend on the MAC. *)
Lemma canonical_header_mac rs p m : canonical_header (MkDocument None rs p m) = canonical_header (MkDocument None rs p None).
Proof. unfold canonical_header, build. cbn [d_description d_recipients d_mac andb]. now destruct m. Qed.

Lemma canonical_header_ok fk rs p :
  len fk = FILE_KEY_LEN -> Forall (wrapped fk) rs -> exists canon, canonical_header (MkDocument None rs p None) = Ok canon.
Proof.
  intros Hfk H. destruct (recipient_lines_parse rs) as (ls & Hls & _).
  { eapply list.Forall_impl; [exact H|]. intros r. now apply wrapped_recipient_ok. }
  unfold canonical_header, build. cbn [d_description d_recipients d_mac]. rewrite Hls. cbn [res_bind]. eauto.
Qed.

(** A document sealed under a file key. *)
Record sealed_under (fk pt : bytes) (d : Document) : Prop := {
  su_key : len fk = FILE_KEY_LEN;
  su_wrapped : Forall (wrapped fk) (d_recipients d);
  su_mac : exists canon mac, canonical_header d = Ok canon /\ d_mac d = Some mac /\ verify_mac C fk canon mac = true;
  su_payload : open_payload C fk (d_payload d) = Ok pt;
}.

Definition inputs_ok (i : SealInputs) : Prop :=
  file_key_ok (si_file_key i) /\ len (si_payload_nonce i) = PAYLOAD_NONCE_LEN.

Lemma seal_with_sealed pt ids i :
  bytes_ok pt -> ids <> [] -> inputs_ok i -> Forall2 sealable ids (si_ephemeral i) ->
  exists d, seal_with C pt ids i = Ok d /\ doc_ok d /\ normal d = d /\ sealed_under (si_file_key i) pt d /\
    rc_id <$> d_recipients d = promoted <$> ids.
Proof.
  intros Hpt Hn [Hkey Hnonce] Hs. pose proof (proj1 Hkey) as Hfk.
  destruct (wrap_all_wrapped (si_file_key i) ids (si_ephemeral i) Hkey Hs) as (rs & Hrs & Hw & Hids).
  destruct (open_seal_payload C Laws (si_file_key i) pt (si_payload_nonce i) Hpt Hnonce) as (p & Hp & Hopen & Hpn).
  assert (Hrn : rs <> []) by (intros ->; destruct ids; [contradiction|discriminate]).
  destruct (canonical_header_ok (si_file_key i) rs p Hfk Hw) as [canon Hcanon].
  exists (MkDocument None rs p (Some (header_mac C (si_file_key i) canon))). unfold seal_with.
  assert (He : is_empty ids = false) by now destruct ids. rewrite He. apply Forall2_length in Hs as Hlen.
  unfold len at 1 2. rewrite Hlen, Z.eqb_refl. cbn [negb]. rewrite Hrs. cbn [res_bind]. rewrite Hp. cbn [res_bind].
  rewrite Hcanon. split; [reflexivity|]. split; [|split; [|split; [|exact Hids]]].
  - split; cbn [d_description d_recipients d_mac].
    + intros s [=].
    + eapply list.Forall_impl; [exact Hw|]. intros r. now apply wrapped_recipient_ok.
    + intros m [= <-]. apply (hmac_len C Laws).
    + now apply sealed_valid with (si_file_key i).
  - unfold normal. cbn [d_description d_recipients d_payload d_mac]. f_equal. rewrite <- (map_id rs) at 2. apply map_ext_in.
    intros r Hin. rewrite List.Forall_forall in Hw. exact (wrapped_normal _ r (Hw r Hin)).
  - split; cbn [d_recipients d_payload d_mac]; try assumption.
    exists canon, (header_mac C (si_file_key i) canon). split; [now rewrite canonical_header_mac|]. split; [reflexivity|].
    unfold verify_mac. rewrite (hmac_verifies C Laws). now apply bool_decide_eq_true_2.
Qed.
End Sealing.

(** ** Opening what was sealed *)

Section Opening.
Context (C : Suite) (Laws : SuiteLaws C).
Context {Q : Type} (oracle : option (Id -> bytes -> Q -> Q * res PigpenError bytes)) (x25519 : list X25519Identity).

(** An identity whose public key is its secret's. *)
Definition genuine (i : X25519Identity) : Prop := len (xi_secret i) = 32 /\ xi_public i = x25519_public C (xi_secret i).

(** An oracle that fails, or answers with the secret of the recipient's key. *)
Definition honest (f : Id -> bytes -> Q -> Q * res PigpenError bytes) : Prop :=
  forall id epk q, match (f id epk q).2 with
  | Ok shared => exists d E, p256_from_sec1 C (id_data id) = Some (p256_public C d) /\ p256_from_sec1 C epk = Some E /\
                             shared = p256_dh C d E
  | Err _ => True
  | Panic => False
  end.

(** The recipient's secret is at hand. *)
Definition holds_key (id : Id) : Prop :=
  (id_format id = AgeX25519Pub /\ exists i, In i x25519 /\ xi_public i = id_data id) \/
  (id_format id = PivyEcdhP256Pub /\
   exists f, oracle = Some f /\ forall id' epk q, id_data id' = id_data id -> is_ok (f id' epk q).2 = true).

(** Nothing at hand gives the recipient's secret: no identity is its key, and an oracle fails whatever it is asked about that key. *)
Definition helpless (id : Id) : Prop :=
  (id_format id = AgeX25519Pub -> forall i, In i x25519 -> xi_public i <> id_data id) /\
  (id_format id = PivyEcdhP256Pub ->
   forall f, oracle = Some f -> forall id' epk q, id_data id' = id_data id -> exists e, (f id' epk q).2 = Err e).

Context (Hgenuine : Forall genuine x25519) (Hhonest : forall f, oracle = Some f -> honest f).

Lemma holds_key_ext id id' : id_format id = id_format id' -> id_data id = id_data id' -> holds_key id -> holds_key id'.
Proof. unfold holds_key. now intros -> ->. Qed.

(** A wrapped file key is skipped, not obtained from the oracle, or unwrapped. *)
Lemma attempt_wrapped fk r w q :
  len fk = FILE_KEY_LEN -> wrapped C fk r -> rc_wrap r = Some w ->
  (attempt C oracle x25519 (rc_id r) w q).2 = Unwrapped (Ok fk) \/
  ~ holds_key (rc_id r) /\
  ((attempt C oracle x25519 (rc_id r) w q).2 = Skip \/ exists e, (attempt C oracle x25519 (rc_id r) w q).2 = Failed e).
Proof.
  intros Hfk Hr Hw. destruct (wr_wrap C fk r Hr) as (w' & e & Hw' & Hle & Hor). rewrite Hw in Hw'. injection Hw' as <-.
  unfold attempt. destruct Hor as [[Hf Hwr]|[Hf Hwr]]; rewrite Hf.
  - assert (Hage : holds_key (rc_id r) -> exists f, oracle = Some f /\
                   forall id' epk q, id_data id' = id_data (rc_id r) -> is_ok (f id' epk q).2 = true).
    { intros [[Hf' _]|[_ H]]; [congruence|exact H]. }
    destruct oracle as [f|] eqn:Ho.
    2:{ right. split; [|now left]. intros H. destruct (Hage H) as (f & [=] & _). }
    destruct (p256_from_sec1 C (id_data (rc_id r))) as [P|] eqn:HP.
    2:{ unfold wrap_p256 in Hwr. rewrite HP in Hwr. discriminate. }
    assert (Hepk : exists epk, p256_wrap_epk w = Ok epk).
    { apply (wrap_p256_shape C Laws) in Hwr as (Hl & _); [|exact Hfk]. unfold p256_wrap_epk. rewrite Hl. now eexists. }
    destruct Hepk as [epk Hepk]. rewrite Hepk. pose proof (Hhonest f eq_refl (rc_id r) epk q) as Hans.
    destruct (f (rc_id r) epk q) as [q' [shared|err|]] eqn:Hq; cbn [snd] in Hans |- *; [| |contradiction].
    + left. destruct Hans as (d & E & Hd & HE & ->). destruct (unwrap_wrap_p256 C Laws fk d _ e w Hfk Hd Hwr) as (epk' & E' & H1 & H2 & H3).
      rewrite Hepk in H1. injection H1 as <-. rewrite HE in H2. injection H2 as <-. now rewrite H3.
    + right. split; [|right; eauto]. intros H. destruct (Hage H) as (f' & [= <-] & Hok). specialize (Hok (rc_id r) epk q eq_refl).
      rewrite Hq in Hok. discriminate.
  - destruct (List.find _ x25519) as [i|] eqn:Hfind.
    + left. apply find_some in Hfind as [Hin Hpub]. apply bool_decide_eq_true in Hpub.
      rewrite List.Forall_forall in Hgenuine. destruct (Hgenuine i Hin) as [Hl Hi]. cbn [snd].
      rewrite <- Hpub, Hi in Hwr |- *. now rewrite (unwrap_wrap_x25519 C Laws fk _ e w Hfk Hl Hle Hwr).
    + right. split; [|now left]. intros [[_ (i & Hin & Hi)]|[Hf' _]]; [|congruence].
      apply (find_none _ _ Hfind) in Hin. cbn beta in Hin. unfold bytes_eqb in Hin. now rewrite bool_decide_eq_true_2 in Hin.
Qed.

(** For a helpless recipient it is never unwrapped. *)
Lemma attempt_helpless fk r w q :
  len fk = FILE_KEY_LEN -> wrapped C fk r -> rc_wrap r = Some w -> helpless (rc_id r) ->
  (attempt C oracle x25519 (rc_id r) w q).2 = Skip \/ exists e, (attempt C oracle x25519 (rc_id r) w q).2 = Failed e.
Proof.
  intros Hfk Hr Hw [Hx Hp]. destruct (wr_wrap C fk r Hr) as (w' & e & Hw' & _ & Hor). rewrite Hw in Hw'. injection Hw' as <-.
  unfold attempt. destruct Hor as [[Hf Hwr]|[Hf _]]; rewrite Hf.
  - destruct oracle as [f|]; [|now left].
    assert (Hepk : exists epk, p256_wrap_epk w = Ok epk).
    { apply (wrap_p256_shape C Laws) in Hwr as (Hl & _); [|exact Hfk]. unfold p256_wrap_epk. rewrite Hl. now eexists. }
    destruct Hepk as [epk Hepk]. rewrite Hepk. destruct (Hp Hf f eq_refl (rc_id r) epk q eq_refl) as [err Herr].
    destruct (f (rc_id r) epk q) as [q' a]. cbn [snd] in Herr. subst a. right. now exists err.
  - destruct (List.find _ x25519) as [i|] eqn:Hfind; [|now left]. exfalso. apply find_some in Hfind as [Hin Hpub].
    apply bool_decide_eq_true in Hpub. now apply (Hx Hf i Hin).
Qed.

Lemma open_loop_helpless fk d mac rs : forall tried fails q,
  len fk = FILE_KEY_LEN -> Forall (wrapped C fk) rs -> Forall (fun r => helpless (rc_id r)) rs ->
  let r := (open_loop C oracle d mac x25519 rs tried fails q).2 in
  r = Err NoRecipient \/ exists fs, r = Err (OracleErr fs).
Proof.
  induction rs as [|x rs IH]; intros tried fails q Hfk Hrs Hhs.
  - cbn. destruct (is_empty fails); cbn [negb]; eauto.
  - apply list.Forall_cons in Hrs as [Hx Hrs], Hhs as [Hh Hhs]. cbn [open_loop]. destruct (wr_wrap C fk x Hx) as (w & e & Hw & _ & _). rewrite Hw.
    case_bool_decide as Ht; [now apply IH|]. pose proof (attempt_helpless fk x w q Hfk Hx Hw Hh) as Ha.
    destruct (attempt C oracle x25519 (rc_id x) w q) as [q' a]. cbn [snd] in Ha. destruct Ha as [->|[err ->]]; now apply IH.
Qed.

Lemma release_sealed fk pt d mac : sealed_under C fk pt d -> d_mac d = Some mac -> release C d mac fk = Ok pt.
Proof.
  intros H Hm. destruct (su_mac C fk pt d H) as (canon & m & Hc & Hm' & Hv). rewrite Hm in Hm'. injection Hm' as <-.
  unfold release. rewrite Hc. cbn [res_bind]. rewrite Hv. exact (su_payload C fk pt d H).
Qed.

Definition key_of (r : Recipient) : FormatId * bytes := (id_format (rc_id r), id_data (rc_id r)).

(** The outcomes of the loop on a sealed document. *)
Definition good_outcome (pt : bytes) (r : res PigpenError bytes) : Prop :=
  r = Ok pt \/ r = Err NoRecipient \/ exists fs, r = Err (OracleErr fs).

Lemma open_loop_sealed fk pt d mac rs : forall tried fails q,
  sealed_under C fk pt d -> d_mac d = Some mac -> Forall (wrapped C fk) rs ->
  let r := (open_loop C oracle d mac x25519 rs tried fails q).2 in
  good_outcome pt r /\ ((exists x, In x rs /\ holds_key (rc_id x) /\ key_of x ∉ tried) -> r = Ok pt).
Proof.
  induction rs as [|x rs IH]; intros tried fails q Hd Hm Hrs.
  - cbn. split; [|intros (x & [] & _)]. destruct (is_empty fails); cbn [negb]; unfold good_outcome; eauto.
  - apply list.Forall_cons in Hrs as [Hx Hrs]. cbn [open_loop]. destruct (wr_wrap C fk x Hx) as (w & e & Hw & _ & _). rewrite Hw.
    fold (key_of x). case_bool_decide as Ht.
    + destruct (IH tried fails q Hd Hm Hrs) as [IH1 IH2]. split; [exact IH1|]. intros (y & [<-|Hy] & Hh & Hk); [contradiction|eauto].
    + pose proof (attempt_wrapped fk x w q (su_key C fk pt d Hd) Hx Hw) as Ha.
      destruct (attempt C oracle x25519 (rc_id x) w q) as [q' a]. cbn [snd] in Ha.
      destruct Ha as [->|[Hno Ha]].
      * cbn [snd]. rewrite (release_sealed fk pt d mac Hd Hm). split; [now left|reflexivity].
      * assert (Hrest : forall fails', good_outcome pt (open_loop C oracle d mac x25519 rs (tried ++ [key_of x]) fails' q').2 /\
                  ((exists y, In y (x :: rs) /\ holds_key (rc_id y) /\ key_of y ∉ tried) ->
                   (open_loop C oracle d mac x25519 rs (tried ++ [key_of x]) fails' q').2 = Ok pt)).
        { intros fails'. destruct (IH (tried ++ [key_of x]) fails' q' Hd Hm Hrs) as [IH1 IH2]. split; [exact IH1|].
          intros (y & [<-|Hy] & Hh & Hk); [contradiction|]. apply IH2. exists y. split; [exact Hy|]. split; [exact Hh|].
          rewrite elem_of_app, list_elem_of_singleton. intros [Hin|Heq]; [contradiction|]. apply Hno.
          unfold key_of in Heq. injection Heq as Hf' Hd'. now apply (holds_key_ext (rc_id y)). }
        destruct Ha as [->|[err ->]]; apply Hrest.
Qed.

Lemma open_of_sealed fk pt d q :
  sealed_under C fk pt d ->
  good_outcome pt (open C oracle d x25519 q).2 /\
  ((exists x, In x (d_recipients d) /\ holds_key (rc_id x)) -> (open C oracle d x25519 q).2 = Ok pt) /\
  (Forall (fun x => helpless (rc_id x)) (d_recipients d) ->
   (open C oracle d x25519 q).2 = Err NoRecipient \/ exists fs, (open C oracle d x25519 q).2 = Err (OracleErr fs)).
Proof.
  intros Hd. destruct (su_mac C fk pt d Hd) as (canon & mac & _ & Hm & _). unfold open. rewrite Hm.
  destruct (open_loop_sealed fk pt d mac (d_recipients d) [] [] q Hd Hm (su_wrapped C fk pt d Hd)) as [H1 H2].
  split; [exact H1|]. split; [|apply (open_loop_helpless fk); [exact (su_key C fk pt d Hd)|exact (su_wrapped C fk pt d Hd)]].
  intros (x & Hx & Hh). apply H2. exists x. split; [exact Hx|]. split; [exact Hh|]. apply not_elem_of_nil.
Qed.
End Opening.

(** ** What opens is vouched for *)

Section Trust.
Context (C : Suite) (Laws : SuiteLaws C).
Context {Q : Type} (oracle : option (Id -> bytes -> Q -> Q * res PigpenError bytes)) (x25519 : list X25519Identity).

(** A file key that one of the recipients gave. *)
Definition unwrapped_from (d : Document) (fk : bytes) : Prop :=
  exists r w q, In r (d_recipients d) /\ rc_wrap r = Some w /\ (attempt C oracle x25519 (rc_id r) w q).2 = Unwrapped (Ok fk).

Lemma open_loop_released d mac rs : forall tried fails q q' pt,
  open_loop C oracle d mac x25519 rs tried fails q = (q', Ok pt) ->
  exists r w q1 fk, In r rs /\ rc_wrap r = Some w /\ (attempt C oracle x25519 (rc_id r) w q1).2 = Unwrapped (Ok fk) /\
    release C d mac fk = Ok pt.
Proof.
  induction rs as [|r rs IH]; intros tried fails q q' pt H; cbn [open_loop] in H.
  - destruct (negb _); discriminate.
  - assert (Hrest : forall tried fails q, open_loop C oracle d mac x25519 rs tried fails q = (q', Ok pt) ->
              exists x w q1 fk, In x (r :: rs) /\ rc_wrap x = Some w /\
                (attempt C oracle x25519 (rc_id x) w q1).2 = Unwrapped (Ok fk) /\ release C d mac fk = Ok pt).
    { intros t f q0 H0. destruct (IH _ _ _ _ _ H0) as (x & w & q1 & fk & Hx & Hr). exists x, w, q1, fk. split; [now right|exact Hr]. }
    destruct (rc_wrap r) as [w|] eqn:Hw; [|now apply Hrest in H]. case_bool_decide; [now apply Hrest in H|].
    destruct (attempt C oracle x25519 (rc_id r) w q) as [q1 a] eqn:Ha.
    destruct a as [|e|[fk|e|]|]; try (now apply Hrest in H); try discriminate.
    injection H as <- Hrel. exists r, w, q, fk. split; [now left|]. split; [exact Hw|]. rewrite Ha. now split.
Qed.
End Trust.

(** ** Opening does not panic *)

Section Total.
Context (C : Suite) {Q : Type} (oracle : option (Id -> bytes -> Q -> Q * res PigpenError bytes)) (x25519 : list X25519Identity).

(** An oracle that answers or fails. *)
Definition returning (f : Id -> bytes -> Q -> Q * res PigpenError bytes) : Prop := forall id epk q, no_panic (f id epk q).2.

Context (Hreturns : forall f, oracle = Some f -> returning f).

Lemma unwrap_x25519_no_panic blob pub sec : no_panic (unwrap_x25519 C blob pub sec).
Proof.
  unfold unwrap_x25519, reject_low_order, aead_open. destruct (negb _); [auto with panic|]. destruct (negb _); [auto with panic|].
  destruct (was_contributory _ _); cbn [res_bind]; auto with panic.
Qed.

Lemma unwrap_p256_no_panic blob pub x : no_panic (unwrap_p256_with_shared C blob pub x).
Proof. unfold unwrap_p256_with_shared, aead_open. destruct (negb _); auto with panic. Qed.

Lemma attempt_no_panic id w q :
  match (attempt C oracle x25519 id w q).2 with Crashed | Unwrapped Panic => False | _ => True end.
Proof.
  unfold attempt. destruct (id_format id); try exact I.
  - destruct oracle as [f|]; [|exact I]. unfold p256_wrap_epk. destruct (negb _); [exact I|].
    pose proof (Hreturns f eq_refl id (ztake 33 w) q) as Hf. destruct (f id _ q) as [q' [x|e|]]; cbn [snd] in *; [|exact I|now apply Hf].
    pose proof (unwrap_p256_no_panic w (id_data id) x) as Hu. destruct (unwrap_p256_with_shared _ _ _ _); auto.
  - destruct (List.find _ _) as [i|]; [|exact I]. cbn [snd].
    pose proof (unwrap_x25519_no_panic w (id_data id) (xi_secret i)) as Hu. destruct (unwrap_x25519 _ _ _ _); auto.
Qed.

Lemma open_loop_no_panic d mac rs : no_panic (canonical_header d) -> forall tried fails q,
  no_panic (open_loop C oracle d mac x25519 rs tried fails q).2.
Proof.
  intros Hc. induction rs as [|r rs IH]; intros tried fails q; cbn [open_loop]; [destruct (negb _); discriminate|].
  destruct (rc_wrap r) as [w|]; [|apply IH]. case_bool_decide; [apply IH|].
  pose proof (attempt_no_panic (rc_id r) w q) as Ha. destruct (attempt C oracle x25519 (rc_id r) w q) as [q' a]. cbn [snd] in Ha.
  destruct a as [|e|[fk|e|]|]; try contradiction; try apply IH. cbn [snd]. unfold release.
  apply no_panic_bind; [exact Hc|]. intros canon _. destruct (negb _); [auto with panic|apply open_payload_no_panic].
Qed.
End Total.

(** ** How often the oracle is asked *)

Section Asked.
Context (C : Suite) {Q : Type} (ecdh : Id -> bytes -> Q -> Q * res PigpenError bytes) (x25519 : list X25519Identity).

(** The oracle with a log of the keys it is asked about. *)
Definition logged (id : Id) (epk : bytes) (s : Q * list bytes) : (Q * list bytes) * res PigpenError bytes :=
  let (q', a) := ecdh id epk s.1 in ((q', s.2 ++ [id_data id]), a).

(** A card's key with a wrap of the right size. *)
Definition askable (rs : list Recipient) (k : bytes) : Prop :=
  exists r w, In r rs /\ rc_wrap r = Some w /\ len w = 65 /\ id_format (rc_id r) = PivyEcdhP256Pub /\ id_data (rc_id r) = k.

(** One attempt: the same answer, and at most one entry, the recipient's. *)
Lemma attempt_logged id w q log :
  exists ks,
    attempt C (Some logged) x25519 id w (q, log)
    = ((attempt C (Some ecdh) x25519 id w q).1, log ++ ks, (attempt C (Some ecdh) x25519 id w q).2) /\
    (ks = [] \/ ks = [id_data id] /\ id_format id = PivyEcdhP256Pub /\ len w = 65).
Proof.
  unfold attempt. destruct (id_format id); try (exists []; rewrite app_nil_r; split; [reflexivity|now left]).
  - unfold p256_wrap_epk. destruct (len w =? 33 + FILE_KEY_LEN + TAG_LEN) eqn:Hl; cbn [negb].
    + exists [id_data id]. unfold logged. cbn [fst snd]. destruct (ecdh id (ztake 33 w) q) as [q' a].
      split; [reflexivity|]. right. apply Z.eqb_eq in Hl. now split.
    + exists []. rewrite app_nil_r. split; [reflexivity|now left].
  - destruct (List.find _ x25519); exists []; rewrite app_nil_r; (split; [reflexivity|now left]).
Qed.

Lemma askable_cons r rs k : askable rs k -> askable (r :: rs) k.
Proof. intros (x & w & Hx & H). exists x, w. split; [now right|exact H]. Qed.

(** The logged run does what the other one does, and adds to the log keys it had
    not tried, each once. *)
Definition adds {A} (rs : list Recipient) (tried : list (FormatId * bytes)) (log : list bytes)
    (c : (Q * list bytes) * A) (c' : Q * A) : Prop :=
  exists ks, c = ((c'.1, log ++ ks), c'.2) /\ NoDup ks /\
    (forall k, In k ks -> askable rs k /\ (PivyEcdhP256Pub, k) ∉ tried).

Lemma adds_skip {A} r rs tried log (c : _ * A) c' : adds rs tried log c c' -> adds (r :: rs) tried log c c'.
Proof.
  intros (ks & H1 & H2 & H3). exists ks. split; [exact H1|]. split; [exact H2|].
  intros k Hk. destruct (H3 k Hk). split; [now apply askable_cons|assumption].
Qed.

(** The entry of an attempt at a key that was not tried. *)
Definition entry (rs : list Recipient) (key : FormatId * bytes) (k0 : list bytes) : Prop :=
  k0 = [] \/ exists k, k0 = [k] /\ key = (PivyEcdhP256Pub, k) /\ askable rs k.

Lemma adds_entry {A} r rs tried key k0 log (c : _ * A) c' :
  key ∉ tried -> entry (r :: rs) key k0 -> adds rs (tried ++ [key]) (log ++ k0) c c' -> adds (r :: rs) tried log c c'.
Proof.
  intros Ht Hk0 (ks & -> & H2 & H3). exists (k0 ++ ks). rewrite <- app_assoc. split; [reflexivity|].
  assert (Hks : forall k, In k ks -> askable (r :: rs) k /\ (PivyEcdhP256Pub, k) ∉ tried).
  { intros k Hk. destruct (H3 k Hk) as [Ha Hn]. split; [now apply askable_cons|]. intros Hin. apply Hn, elem_of_app. now left. }
  destruct Hk0 as [->|(k & -> & -> & Hask)]; [now split|]. split.
  - apply NoDup_cons. split; [|exact H2]. intros Hin. apply list_elem_of_In in Hin. destruct (H3 k Hin) as [_ Hn].
    apply Hn, elem_of_app. right. now left.
  - intros x [<-|Hx]; [now split|now apply Hks].
Qed.

Lemma adds_stop {A} rs tried key k0 log q (a : A) :
  key ∉ tried -> entry rs key k0 -> adds rs tried log ((q, log ++ k0), a) (q, a).
Proof.
  intros Ht Hk0. exists k0. split; [reflexivity|]. destruct Hk0 as [->|(k & -> & -> & Hask)]; [split; [constructor|easy]|].
  split; [apply NoDup_singleton|]. intros x [<-|[]]. now split.
Qed.

Lemma open_loop_logged d mac rs : forall tried fails q log,
  adds rs tried log (open_loop C (Some logged) d mac x25519 rs tried fails (q, log))
    (open_loop C (Some ecdh) d mac x25519 rs tried fails q).
Proof.
  induction rs as [|r rs IH]; intros tried fails q log; cbn [open_loop].
  - exists []. rewrite app_nil_r. split; [reflexivity|]. split; [constructor|easy].
  - destruct (rc_wrap r) as [w|] eqn:Hw; [|apply adds_skip, IH]. case_bool_decide as Ht; [apply adds_skip, IH|].
    destruct (attempt_logged (rc_id r) w q log) as (k0 & Ha & Hk0). rewrite Ha.
    destruct (attempt C (Some ecdh) x25519 (rc_id r) w q) as [q1 a]. cbn [fst snd].
    assert (He : entry (r :: rs) (id_format (rc_id r), id_data (rc_id r)) k0).
    { destruct Hk0 as [->|(-> & Hf & Hl)]; [now left|]. right. exists (id_data (rc_id r)). split; [reflexivity|]. rewrite Hf.
      split; [reflexivity|]. exists r, w. split; [now left|now repeat split]. }
    destruct a as [|e|[fk|e|]|]; try exact (adds_stop _ _ _ _ _ _ _ Ht He); exact (adds_entry _ _ _ _ _ _ _ _ Ht He (IH _ _ _ _)).
Qed.
End Asked.

(** ** Properties *)

(** C23 (functional).  Sealing to recipients always succeeds; the document
    survives its text form; and opening it gives the plaintext to whoever holds
    the key of one of the recipients, as an X25519 identity or behind an oracle
    that answers for it whenever it is asked, whatever the order of the recipients
    and whichever other oracle calls fail.  To someone who has none of the
    recipients' identities, and whose oracle, if any, fails for each of their
    keys, it gives one of the two errors that say that no recipient opened.  With
    an oracle that answers at some times and not at others it is one of these
    three outcomes, and nothing else. *)
Theorem seal_open (C : Suite) {Q} (oracle : option (Id -> bytes -> Q -> Q * res PigpenError bytes)) x25519 pt ids i q :
  SuiteLaws C -> bytes_ok pt -> ids <> [] -> inputs_ok i -> Forall2 (sealable C) ids (si_ephemeral i) ->
  Forall (genuine C) x25519 -> (forall f, oracle = Some f -> honest C f) ->
  exists d w, seal_with C pt ids i = Ok d /\ to_bytes d = Ok w /\ doc_parse w = Ok d /\
    good_outcome pt (open C oracle d x25519 q).2 /\
    ((exists id, In id ids /\ holds_key oracle x25519 id) -> (open C oracle d x25519 q).2 = Ok pt) /\
    ((forall id, In id ids -> helpless oracle x25519 id) ->
     (open C oracle d x25519 q).2 = Err NoRecipient \/ exists fs, (open C oracle d x25519 q).2 = Err (OracleErr fs)).
Proof.
  intros Laws Hpt Hn Hi Hs Hg Hh. destruct (seal_with_sealed C Laws pt ids i Hpt Hn Hi Hs) as (d & Hd & Hok & Hnorm & Hsu & Hids).
  destruct (doc_text d Hok) as (w & Hw & Hp). rewrite Hnorm in Hp. exists d, w. split; [exact Hd|]. split; [exact Hw|]. split; [exact Hp|].
  destruct (open_of_sealed C Laws oracle x25519 Hg Hh (si_file_key i) pt d q Hsu) as (H1 & H2 & H3). split; [exact H1|]. split.
  - intros (id & Hin & Hk). apply H2.
    assert (Hin' : promoted id ∈ rc_id <$> d_recipients d) by (rewrite Hids; apply list_elem_of_fmap_2; now apply list_elem_of_In).
    apply list_elem_of_fmap in Hin' as (r & Hr & Hin'). exists r. split; [now apply list_elem_of_In|].
    rewrite <- Hr. now apply (holds_key_ext oracle x25519 id).
  - intros Hall. apply H3, list.Forall_forall. intros r Hr. apply (list_elem_of_fmap_2 rc_id) in Hr. rewrite Hids in Hr.
    apply list_elem_of_fmap in Hr as (id & -> & Hin). apply list_elem_of_In in Hin. exact (Hall id Hin).
Qed.

(** C26 (safety).  Nothing is released that the header does not vouch for: a
    plaintext comes out only under a file key that one of the recipients' wraps
    gave, with the header MAC of the document as it is spelled canonically right
    under that key, and with every chunk of the payload authentic under it. *)
Theorem open_authentic (C : Suite) {Q} (oracle : option (Id -> bytes -> Q -> Q * res PigpenError bytes)) x25519 d q q' pt :
  SuiteLaws C -> open C oracle d x25519 q = (q', Ok pt) ->
  exists fk canon, unwrapped_from C oracle x25519 d fk /\ canonical_header d = Ok canon /\
    d_mac d = Some (header_mac C fk canon) /\ open_payload C fk (d_payload d) = Ok pt.
Proof.
  intros Laws. unfold open. destruct (d_mac d) as [mac|]; [|discriminate]. intros H.
  apply open_loop_released in H as (r & w & q1 & fk & Hr & Hw & Ha & Hrel). unfold release in Hrel.
  destruct (canonical_header d) as [canon|e|] eqn:Hc; try discriminate. cbn [res_bind] in Hrel.
  unfold verify_mac in Hrel. rewrite (hmac_verifies C Laws) in Hrel. destruct (bytes_eqb _ mac) eqn:Hm; [|discriminate].
  apply bool_decide_eq_true in Hm. exists fk, canon. split; [now exists r, w, q1|]. split; [reflexivity|].
  split; [|exact Hrel]. now rewrite <- Hm.
Qed.

(** C40 (safety).  No bytes make piggy-pigpen panic: reading a document or a
    pointer never does, and neither does opening whatever document was read, with
    any identities, even ones whose keys have the wrong size, and any oracle that
    returns. *)
Theorem pigpen_total (C : Suite) {Q} (oracle : option (Id -> bytes -> Q -> Q * res PigpenError bytes)) x25519 raw :
  (forall f, oracle = Some f -> returning f) ->
  no_panic (pointer_parse raw) /\
  match doc_parse raw with
  | Ok d => forall q, no_panic (open C oracle d x25519 q).2
  | Err _ => True
  | Panic => False
  end.
Proof.
  intros Ho. split; [apply pointer_parse_no_panic|]. pose proof (doc_parse_no_panic raw) as Hp.
  destruct (doc_parse raw) as [d|e|] eqn:Hd; [|exact I|now apply Hp]. intros q. apply doc_parse_wf in Hd as (_ & Hr & _).
  unfold open. destruct (d_mac d) as [mac|]; [|discriminate]. apply open_loop_no_panic; [exact Ho|].
  now apply canonical_header_no_panic.
Qed.

(** Opening asks the oracle, and so costs a touch or a PIN, at most
    once for every distinct card key of the document that has a wrap of the right
    size, however often a crafted document repeats it; keeping the log of the
    questions changes nothing else. *)
Theorem oracle_asked_once (C : Suite) {Q} (ecdh : Id -> bytes -> Q -> Q * res PigpenError bytes) x25519 d q :
  let logged_run := open C (Some (logged ecdh)) d x25519 (q, []) in
  let run := open C (Some ecdh) d x25519 q in
  logged_run.2 = run.2 /\ logged_run.1.1 = run.1 /\ NoDup logged_run.1.2 /\
  (forall k, In k logged_run.1.2 -> askable (d_recipients d) k).
Proof.
  unfold open. destruct (d_mac d) as [mac|]; [|repeat split; [constructor|easy]].
  destruct (open_loop_logged C ecdh x25519 d mac (d_recipients d) [] [] q []) as (ks & -> & Hn & Hk).
  cbn [fst snd app]. split; [reflexivity|]. split; [reflexivity|]. split; [exact Hn|]. intros k Hin. exact (proj1 (Hk k Hin)).
Qed.

(** *** Witnesses *)

(** Two recipients: an age identity, and a card's key that an oracle holds. *)
Definition toy_identity : X25519Identity := MkIdentity (repeat 5 32) (repeat 5 32).
Definition toy_card_id : Id := MkId None PivyEcdhP256Pub (3 :: repeat 0 32).
Definition toy_age_id : Id := MkId (Some PiggyRecipientV1) AgeX25519Pub (repeat 5 32).
Definition toy_inputs : SealInputs := MkInputs (repeat 7 16) (repeat 9 16) [repeat 1 32; repeat 2 32].

(** The oracle of the card with the scalar [true]; it counts its calls. *)
Definition toy_oracle (id : Id) (epk : bytes) (n : nat) : nat * res PigpenError bytes :=
  (S n, if bytes_eqb (id_data id) (3 :: repeat 0 32) then
          match p256_from_sec1 toy_suite epk with
          | Some E => Ok (p256_dh toy_suite true E)
          | None => Err NoRecipient
          end
        else Err NoRecipient).

Lemma toy_oracle_honest : honest toy_suite toy_oracle.
Proof.
  intros id epk n. unfold toy_oracle. cbn [snd]. destruct (bytes_eqb (id_data id) _) eqn:Hid; [|exact I].
  apply bool_decide_eq_true in Hid. destruct (p256_from_sec1 toy_suite epk) as [E|] eqn:HE; [|exact I].
  exists true, E. rewrite Hid. now split.
Qed.

Lemma toy_sealable : Forall2 (sealable toy_suite) [toy_card_id; toy_age_id] (si_ephemeral toy_inputs).
Proof.
  constructor; [|constructor; [|constructor]]; split; try reflexivity; try discriminate.
  - split; [reflexivity|]. intros p [=].
  - by_compute.
  - intros _. split; [now exists true|now exists true].
  - split; [reflexivity|]. intros p [= <-] _. reflexivity.
  - by_compute.
Qed.

(** Someone who has neither key. *)
Definition toy_failing (id : Id) (epk : bytes) (n : nat) : nat * res PigpenError bytes := (S n, Err NoRecipient).

Lemma seal_open_witness :
  exists d w, seal_with toy_suite (ascii "attack") [toy_card_id; toy_age_id] toy_inputs = Ok d /\ to_bytes d = Ok w /\
    doc_parse w = Ok d /\ good_outcome (ascii "attack") (open toy_suite (Some toy_failing) d [] 0%nat).2 /\
    ((exists id, In id [toy_card_id; toy_age_id] /\ holds_key (Some toy_failing) [] id) ->
     (open toy_suite (Some toy_failing) d [] 0%nat).2 = Ok (ascii "attack")) /\
    ((forall id, In id [toy_card_id; toy_age_id] -> helpless (Some toy_failing) [] id) ->
     (open toy_suite (Some toy_failing) d [] 0%nat).2 = Err NoRecipient \/
     exists fs, (open toy_suite (Some toy_failing) d [] 0%nat).2 = Err (OracleErr fs)).
Proof.
  apply (seal_open toy_suite (Some toy_failing) [] (ascii "attack") [toy_card_id; toy_age_id] toy_inputs 0%nat).
  - exact toy_suite_laws.
  - apply ascii_ok.
  - discriminate.
  - by_compute.
  - exact toy_sealable.
  - constructor.
  - intros f [= <-] id epk q. exact I.
Defined.

(** The two outcomes are there: the one who has both keys, and the one who has neither. *)
Lemma toy_holder_and_stranger :
  holds_key (Some toy_failing) [toy_identity] toy_age_id /\
  (forall id, In id [toy_card_id; toy_age_id] -> helpless (Some toy_failing) [] id).
Proof.
  split; [left; split; [reflexivity|]; exists toy_identity; split; [now left|reflexivity]|].
  intros id _. split; [intros _ i []|]. intros _ f [= <-] id' epk q _. now exists NoRecipient.
Qed.

(** A document sealed to the two. *)
Definition toy_document : Document :=
  match seal_with toy_suite (ascii "attack") [toy_card_id; toy_age_id] toy_inputs with Ok d => d | _ => new_recipient_set [] end.

Lemma open_authentic_witness :
  open toy_suite (Some toy_oracle) toy_document [toy_identity] 0%nat = (1%nat, Ok (ascii "attack")) /\
  exists fk canon, unwrapped_from toy_suite (Some toy_oracle) [toy_identity] toy_document fk /\
    canonical_header toy_document = Ok canon /\ d_mac toy_document = Some (header_mac toy_suite fk canon) /\
    open_payload toy_suite fk (d_payload toy_document) = Ok (ascii "attack").
Proof.
  assert (H : open toy_suite (Some toy_oracle) toy_document [toy_identity] 0%nat = (1%nat, Ok (ascii "attack")))
    by (vm_compute; reflexivity).
  split; [exact H|]. exact (open_authentic toy_suite (Some toy_oracle) [toy_identity] toy_document 0%nat 1%nat _ toy_suite_laws H).
Defined.

Lemma pigpen_total_witness :
  no_panic (pointer_parse [45]) /\
  match doc_parse [45] with
  | Ok d => forall q, no_panic (open toy_suite (Some toy_oracle) d [toy_identity] q).2
  | Err _ => True
  | Panic => False
  end.
Proof.
  apply (pigpen_total toy_suite (Some toy_oracle) [toy_identity] [45]). intros f [= <-] id epk q.
  pose proof (toy_oracle_honest id epk q) as H. intros E. now rewrite E in H.
Defined.
