(* ===== verification/PinCache.v ===== *)
(** * PinCache: the agent's PINs, per card

    [piggy/src/cmd/agent/pins.rs] in full: which PIN the agent tries on which
    card.  Next to the cache, an abstract account of it by the history of its
    operations, which the cache is shown to implement. *)

From Stdlib Require Import ZArith Lia.
From stdpp Require Import base tactics list gmap.
From S2P Require Import Prelude PivError Guid.

Local Open Scope Z_scope.

#[export] Instance Guid_countable : Countable Guid.
Proof. apply (inj_countable' guid_bytes MkGuid). now intros []. Defined.

(** ** The cache *)

Inductive PinOrigin : Type := Verified | Offered.

Record PinCache := MkPinCache {
  pc_verified : gmap Guid bytes;
  pc_offered : option bytes;
  pc_offered_rejected_by : gset Guid;
}.

Definition pin_cache_new : PinCache := MkPinCache ∅ None ∅.

Definition lookup_pin (g : Guid) (c : PinCache) : option (bytes * PinOrigin) :=
  match pc_verified c !! g with
  | Some p => Some (p, Verified)
  | None =>
      match pc_offered c with
      | Some p => if bool_decide (g ∉ pc_offered_rejected_by c) then Some (p, Offered) else None
      | None => None
      end
  end.

Definition cache_verified (g : Guid) (pin : bytes) (c : PinCache) : PinCache :=
  MkPinCache (<[g := pin]> (pc_verified c)) (pc_offered c) (pc_offered_rejected_by c).

Definition forget_for (g : Guid) (c : PinCache) : PinCache :=
  MkPinCache (delete g (pc_verified c)) (pc_offered c) ({[g]} ∪ pc_offered_rejected_by c).

Definition forget_card (g : Guid) (c : PinCache) : bool * PinCache :=
  (bool_decide (is_Some (pc_verified c !! g)) || bool_decide (is_Some (pc_offered c)), MkPinCache (delete g (pc_verified c)) None ∅).

Definition offer (pin : bytes) (c : PinCache) : PinCache := MkPinCache (pc_verified c) (Some pin) ∅.

Definition clear (c : PinCache) : PinCache := pin_cache_new.

Definition has_any (c : PinCache) : bool :=
  negb (bool_decide (pc_verified c = ∅)) || bool_decide (is_Some (pc_offered c)).

(** ** Its history *)

Inductive PinOp : Type :=
| DoVerified (g : Guid) (pin : bytes)
| DoForgetFor (g : Guid)
| DoForgetCard (g : Guid)
| DoOffer (pin : bytes)
| DoClear.

Definition pin_op (c : PinCache) (op : PinOp) : PinCache :=
  match op with
  | DoVerified g pin => cache_verified g pin c
  | DoForgetFor g => forget_for g c
  | DoForgetCard g => (forget_card g c).2
  | DoOffer pin => offer pin c
  | DoClear => clear c
  end.

Definition run_pin_ops (ops : list PinOp) : PinCache := foldl pin_op pin_cache_new ops.

(** The abstract account, latest operation first: the PIN that verified on [g]
    and was not given up since; the offer that stands; whether [g] rejected it. *)
Fixpoint last_verified (g : Guid) (history : list PinOp) : option bytes :=
  match history with
  | [] => None
  | DoVerified g' pin :: before => if bool_decide (g' = g) then Some pin else last_verified g before
  | DoForgetFor g' :: before | DoForgetCard g' :: before => if bool_decide (g' = g) then None else last_verified g before
  | DoOffer _ :: before => last_verified g before
  | DoClear :: _ => None
  end.

Fixpoint standing_offer (history : list PinOp) : option bytes :=
  match history with
  | DoOffer pin :: _ => Some pin
  | DoForgetCard _ :: _ | DoClear :: _ | [] => None
  | DoVerified _ _ :: before | DoForgetFor _ :: before => standing_offer before
  end.

Fixpoint rejected (g : Guid) (history : list PinOp) : bool :=
  match history with
  | DoForgetFor g' :: before => bool_decide (g' = g) || rejected g before
  | DoVerified _ _ :: before => rejected g before
  | DoOffer _ :: _ | DoForgetCard _ :: _ | DoClear :: _ | [] => false
  end.

Definition abstract_lookup (g : Guid) (history : list PinOp) : option (bytes * PinOrigin) :=
  match last_verified g history with
  | Some pin => Some (pin, Verified)
  | None =>
      match standing_offer history with
      | Some pin => if rejected g history then None else Some (pin, Offered)
      | None => None
      end
  end.

(** ** The cache implements its account *)

(** The cache and the history agree. *)
Record agrees (c : PinCache) (history : list PinOp) : Prop := {
  ag_verified : forall g, pc_verified c !! g = last_verified g history;
  ag_offered : pc_offered c = standing_offer history;
  ag_rejected : forall g, g ∈ pc_offered_rejected_by c <-> rejected g history = true;
}.

Lemma agrees_new : agrees pin_cache_new [].
Proof. split; simpl; [intros g; apply lookup_empty|reflexivity|]. intros g. split; [set_solver|discriminate]. Qed.

Lemma lookup_delete_cond (m : gmap Guid bytes) g g' : delete g m !! g' = if bool_decide (g = g') then None else m !! g'.
Proof. case_bool_decide; subst; [apply lookup_delete_eq|now apply lookup_delete_ne]. Qed.

Lemma agrees_step c history op : agrees c history -> agrees (pin_op c op) (op :: history).
Proof.
  intros [Hv Ho Hr]. destruct op as [g pin|g|g|pin|]; split; simpl; try assumption; try reflexivity.
  - intros g'. case_bool_decide; subst; [apply lookup_insert_eq|rewrite lookup_insert_ne by assumption; apply Hv].
  - intros g'. rewrite lookup_delete_cond. case_bool_decide; [reflexivity|apply Hv].
  - intros g'. rewrite elem_of_union, elem_of_singleton, Hr, orb_true_iff, bool_decide_eq_true. intuition.
  - intros g'. rewrite lookup_delete_cond. case_bool_decide; [reflexivity|apply Hv].
  - intros g'. split; [set_solver|discriminate].
  - intros g'. split; [set_solver|discriminate].
  - intros g'. split; [set_solver|discriminate].
Qed.

Lemma agrees_run ops : agrees (run_pin_ops ops) (rev ops).
Proof.
  unfold run_pin_ops. induction ops as [|op ops IH] using rev_ind; [exact agrees_new|].
  rewrite foldl_app, rev_app_distr. exact (agrees_step _ _ op IH).
Qed.

Lemma agrees_lookup c history g : agrees c history -> lookup_pin g c = abstract_lookup g history.
Proof.
  intros [Hv Ho Hr]. unfold lookup_pin, abstract_lookup. rewrite Hv, Ho.
  destruct (last_verified g history); [reflexivity|]. destruct (standing_offer history); [|reflexivity].
  destruct (rejected g history) eqn:He.
  - apply Hr in He. now rewrite bool_decide_false by (intros H; contradiction).
  - rewrite bool_decide_true; [reflexivity|]. rewrite Hr. congruence.
Qed.

(** ** Properties *)

(** C20 (refinement).  After any sequence of operations the cache hands out for
    a card exactly what its history says: the PIN last verified on that very
    card and not given up since, else the standing offer unless that card has
    rejected it; and it holds anything at all exactly when some card or the
    offer does. *)
Theorem pin_cache_refines ops g :
  lookup_pin g (run_pin_ops ops) = abstract_lookup g (rev ops) /\
  (has_any (run_pin_ops ops) = true <->
   (exists g', is_Some (last_verified g' (rev ops))) \/ is_Some (standing_offer (rev ops))).
Proof.
  pose proof (agrees_run ops) as Ha. split; [now apply agrees_lookup|]. destruct Ha as [Hv Ho _].
  unfold has_any. rewrite orb_true_iff, negb_true_iff, bool_decide_eq_false, bool_decide_eq_true, <- Ho. split.
  - intros [Hne|H]; [left|now right]. apply map_choose in Hne as (g' & p & Hg). exists g'. rewrite <- Hv. eauto.
  - intros [(g' & p & Hg)|H]; [left|now right]. rewrite <- Hv in Hg. intros He. rewrite He, lookup_empty in Hg. discriminate.
Qed.

(** No card is tried with another card's PIN: a PIN that the cache
    hands out as verified on a card was recorded for that card, one it hands out
    as offered was offered, and a card that turned the offer down is not given
    it again until there is a new one. *)
Theorem pins_stay_with_their_card ops g pin :
  (lookup_pin g (run_pin_ops ops) = Some (pin, Verified) -> In (DoVerified g pin) ops) /\
  (lookup_pin g (run_pin_ops ops) = Some (pin, Offered) -> In (DoOffer pin) ops) /\
  (forall later, Forall (fun op => match op with DoOffer _ | DoForgetCard _ | DoClear => False | DoVerified g' _ => g' <> g | _ => True end) later ->
     lookup_pin g (run_pin_ops (ops ++ DoForgetFor g :: later)) = None).
Proof.
  split; [|split].
  - rewrite (agrees_lookup _ _ g (agrees_run ops)). unfold abstract_lookup.
    destruct (last_verified g (rev ops)) as [p|] eqn:Hl; [|now repeat case_match]. intros [= ->].
    apply in_rev. revert Hl. generalize (rev ops) as h. induction h as [|op h IH]; [discriminate|].
    destruct op; cbn [last_verified]; try case_bool_decide; subst; try discriminate; intros Hx;
      try (injection Hx as ->; now left); right; auto.
  - rewrite (agrees_lookup _ _ g (agrees_run ops)). unfold abstract_lookup.
    destruct (last_verified g (rev ops)); [discriminate|]. destruct (standing_offer (rev ops)) as [p|] eqn:Hs; [|discriminate].
    destruct (rejected g (rev ops)); [discriminate|]. intros [= ->].
    apply in_rev. revert Hs. generalize (rev ops) as h. induction h as [|op h IH]; [discriminate|].
    destruct op; cbn [standing_offer]; try discriminate; intros H; try (injection H as ->; now left); right; auto.
  - intros later Hl. rewrite (agrees_lookup _ _ g (agrees_run _)), rev_app_distr. cbn [rev]. rewrite <- app_assoc.
    cbn [app]. unfold abstract_lookup.
    assert (H : last_verified g (rev later ++ DoForgetFor g :: rev ops) = None /\
                (rejected g (rev later ++ DoForgetFor g :: rev ops) = true)).
    { apply Forall_rev in Hl. induction Hl as [|op later' Hop _ IH]; cbn [app last_verified rejected].
      - rewrite bool_decide_true by reflexivity. now split.
      - destruct IH as [IH1 IH2]. destruct op; cbn [last_verified rejected]; try contradiction; try (rewrite bool_decide_false by assumption);
          rewrite ?IH1, ?IH2, ?orb_true_r; try case_bool_decide; now split. }
    destruct H as [-> ->]. now case_match.
Qed.

(** Two cards; the second is offered the PIN that the first one turned down. *)
Definition toy_pin_ops : list PinOp :=
  [DoVerified (MkGuid [1]) [0x31]; DoOffer [0x39]; DoForgetFor (MkGuid [1])].

Example toy_pin_lookups :
  lookup_pin (MkGuid [1]) (run_pin_ops toy_pin_ops) = None /\
  lookup_pin (MkGuid [2]) (run_pin_ops toy_pin_ops) = Some ([0x39], Offered).
Proof. split; reflexivity. Qed.

Lemma pins_stay_with_their_card_witness :
  In (DoOffer [0x39]) toy_pin_ops /\
  lookup_pin (MkGuid [2]) (run_pin_ops (toy_pin_ops ++ DoForgetFor (MkGuid [2]) :: [DoVerified (MkGuid [1]) [0x32]])) = None.
Proof.
  destruct (pins_stay_with_their_card toy_pin_ops (MkGuid [2]) [0x39]) as (_ & H2 & H3).
  split; [apply H2; reflexivity|]. apply H3. constructor; [discriminate|constructor].
Defined.
