(* ===== verification/OperatorAct.v ===== *)
(** * OperatorAct: the [operator-act@piggy] extension

    [piggy/src/operator_act.rs] in full: the wire form of requests and responses,
    the namespaces an act may be signed under, the texts it may carry, the sshsig
    that is made of it, and the gate that keeps such data away from every ordinary
    way to sign.  A [String] is its UTF-8 bytes. *)

From Stdlib Require Import ZArith Lia String.
From stdpp Require Import base tactics list numbers.
From S2P Require Import Prelude Utf8 Text Wire AgentExt.

Local Open Scope Z_scope.

(** The digests of the sha2 crate. *)
Record Hashes := MkHashes {
  sha256 : bytes -> bytes;
  sha384 : bytes -> bytes;
  sha512 : bytes -> bytes;
}.

Definition VERSION : Z := 1.
Definition MAX_TEXT_BYTES : Z := 4096.
Definition SSHSIG_MAGIC : bytes := ascii "SSHSIG".
Definition SSHSIG_VERSION : Z := 1.

(** ** What an act is shown as, and signed under *)

Inductive DisplayClass : Type := Quote | Escalation | Certificate.

Definition class_as_str (c : DisplayClass) : bytes :=
  match c with
  | Quote => ascii "quote"
  | Escalation => ascii "escalation"
  | Certificate => ascii "certificate"
  end.

Definition PIGGY_QUOTE : bytes := ascii "piggy-quote-v1".
Definition PIGGY_ESCALATION : bytes := ascii "piggy-escalation-v1".
Definition PIGGY_CERTIFICATE : bytes := ascii "piggy-certificate-v1".

Definition display_class (namespace : bytes) : option DisplayClass :=
  if bytes_eqb namespace PIGGY_QUOTE then Some Quote
  else if bytes_eqb namespace PIGGY_ESCALATION then Some Escalation
  else if bytes_eqb namespace PIGGY_CERTIFICATE then Some Certificate
  else None.

Definition NAMESPACES : list bytes := [PIGGY_QUOTE; PIGGY_ESCALATION; PIGGY_CERTIFICATE].

Inductive HashAlgorithm : Type := HashSha256 | HashSha512.

Definition hash_as_str (h : HashAlgorithm) : bytes :=
  match h with HashSha256 => ascii "sha256" | HashSha512 => ascii "sha512" end.

Definition hash_parse (name : bytes) : option HashAlgorithm :=
  if bytes_eqb name (ascii "sha256") then Some HashSha256
  else if bytes_eqb name (ascii "sha512") then Some HashSha512
  else None.

Definition hash_digest (H : Hashes) (h : HashAlgorithm) (message : bytes) : bytes :=
  match h with HashSha256 => sha256 H message | HashSha512 => sha512 H message end.

Inductive Status : Type :=
| Signed | NoSuchKey | RefusedPolicy | RefusedNamespace | RefusedText | Cancelled | CardAbsent | BadRequest | StatusError
| UnknownStatus (code : Z).

Definition status_code (s : Status) : Z :=
  match s with
  | Signed => 0 | NoSuchKey => 1 | RefusedPolicy => 2 | RefusedNamespace => 3 | RefusedText => 4
  | Cancelled => 5 | CardAbsent => 6 | BadRequest => 7 | StatusError => 8
  | UnknownStatus code => code
  end.

Definition status_from_code (code : Z) : Status :=
  if code =? 0 then Signed else if code =? 1 then NoSuchKey else if code =? 2 then RefusedPolicy
  else if code =? 3 then RefusedNamespace else if code =? 4 then RefusedText else if code =? 5 then Cancelled
  else if code =? 6 then CardAbsent else if code =? 7 then BadRequest else if code =? 8 then StatusError
  else UnknownStatus code.

Definition status_name (s : Status) : bytes :=
  match s with
  | Signed => ascii "signed"
  | NoSuchKey => ascii "no-such-key"
  | RefusedPolicy => ascii "refused-policy"
  | RefusedNamespace => ascii "refused-namespace"
  | RefusedText => ascii "refused-text"
  | Cancelled => ascii "cancelled"
  | CardAbsent => ascii "card-absent"
  | BadRequest => ascii "bad-request"
  | StatusError => ascii "error"
  | UnknownStatus _ => ascii "unknown"
  end.

(** ** The wire form *)

(** [put_u32]; the value is truncated to a [u32], as [bytes.len() as u32] is. *)
Definition append_u32 (out : bytes) (value : Z) : bytes := out ++ to_be_bytes 4 value.
Definition append_string (out b : bytes) : bytes := append_u32 out (len b) ++ b.

(** [Reader::u32], [Reader::string]: the value and what is left. *)
Definition reader_u32 (rest : bytes) : option (Z * bytes) :=
  match rest with
  | a :: b :: c :: d :: tail => Some (from_be_bytes [a; b; c; d], tail)
  | _ => None
  end.

Definition reader_string (rest : bytes) : option (bytes * bytes) :=
  '(n, tail) ← reader_u32 rest;
  if len tail <? n then None else Some (ztake n tail, zdrop n tail).

Definition contents (details : bytes) : option bytes :=
  '(inner, rest) ← reader_string details;
  match rest with [] => Some inner | _ => None end.

Definition request_key (details : bytes) : option bytes :=
  rest ← match contents details with Some inner => Some inner | None => fst <$> reader_string details end;
  '(_, rest) ← reader_u32 rest;
  fst <$> reader_string rest.

Record Request := MkRequest {
  rq_key : bytes;
  rq_namespace : bytes;
  rq_hash_algorithm : bytes;
  rq_text : bytes;
}.

Definition request_encode (r : Request) : bytes :=
  let inner := append_u32 [] VERSION in
  let inner := append_string inner (rq_key r) in
  let inner := append_string inner (rq_namespace r) in
  let inner := append_string inner (rq_hash_algorithm r) in
  let inner := append_string inner (rq_text r) in
  append_string [] (append_u32 inner 0).

Definition request_decode (details : bytes) : option Request :=
  rest ← contents details;
  '(version, rest) ← reader_u32 rest;
  if negb (version =? VERSION) then None
  else
    '(key, rest) ← reader_string rest;
    '(namespace, rest) ← reader_string rest;
    '(hash_algorithm, rest) ← reader_string rest;
    if negb (utf8_valid hash_algorithm) then None
    else
      '(text, rest) ← reader_string rest;
      '(flags, rest) ← reader_u32 rest;
      if negb (flags =? 0) || negb (len rest =? 0) then None
      else Some (MkRequest key (from_utf8_lossy namespace) hash_algorithm text).

Record Response := MkResponse { rs_status : Status; rs_sshsig : bytes; rs_detail : bytes }.

Definition refusal (status : Status) (detail : bytes) : Response := MkResponse status [] detail.
Definition response_signed (sshsig : bytes) : Response := MkResponse Signed sshsig [].

Definition response_encode (r : Response) : bytes :=
  let inner := append_u32 [] VERSION in
  let inner := append_u32 inner (status_code (rs_status r)) in
  let inner := append_string inner (rs_sshsig r) in
  append_string [] (append_string inner (rs_detail r)).

Definition response_decode (details : bytes) : option Response :=
  rest ← contents details;
  '(version, rest) ← reader_u32 rest;
  if negb (version =? VERSION) then None
  else
    '(code, rest) ← reader_u32 rest;
    '(sshsig, rest) ← reader_string rest;
    '(detail, _) ← reader_string rest;
    Some (MkResponse (status_from_code code) sshsig (from_utf8_lossy detail)).

(** ** Texts *)

(** [char::is_control]: the characters of the category Cc. *)
Definition is_control (c : Z) : bool := between 0 c 0x1F || between 0x7F c 0x9F.

Definition allowed (c : Z) : bool := (c =? 10) || (c =? 9) || negb (is_control c).

Definition displayable_text (text : bytes) : option bytes :=
  if (len text =? 0) || (MAX_TEXT_BYTES <? len text) then None
  else
    chars ← from_utf8 text;
    if forallb allowed chars then Some text else None.

Definition upper_hex (d : Z) : Z := if d <? 10 then 48 + d else 55 + d.

(** [{:02X}] of a byte *)
Definition fmt_hex2_upper (b : Z) : bytes := [upper_hex (b / 16); upper_hex (b mod 16)].

Definition prompt_context (class : DisplayClass) (card : bytes) (slot : Z) (namespace text : bytes) : bytes :=
  ascii "operator act: " ++ class_as_str class ++ [10] ++
  ascii "card " ++ card ++ ascii ", slot " ++ fmt_hex2_upper slot ++ [10] ++
  ascii "namespace " ++ namespace ++ [10; 10] ++ text.

(** ** The signature *)

Definition signed_data (H : Hashes) (namespace : bytes) (hash : HashAlgorithm) (text : bytes) : bytes :=
  let out := SSHSIG_MAGIC in
  let out := append_string out namespace in
  let out := append_string out [] in
  let out := append_string out (hash_as_str hash) in
  append_string out (hash_digest H hash text).

Definition namespace_of_signed_data (d : bytes) : option bytes :=
  rest ← strip_str SSHSIG_MAGIC d;
  '(namespace, _) ← reader_string rest;
  List.find (fun registered => bytes_eqb registered namespace) NAMESPACES.

(** The refusal names the namespace. *)
Definition refuse_operator_act_signed_data (d : bytes) : res bytes unit :=
  match namespace_of_signed_data d with
  | None => Ok tt
  | Some namespace => Err namespace
  end.

Definition sshsig_blob (public_key namespace : bytes) (hash : HashAlgorithm) (signature : bytes) : bytes :=
  let out := SSHSIG_MAGIC in
  let out := append_u32 out SSHSIG_VERSION in
  let out := append_string out public_key in
  let out := append_string out namespace in
  let out := append_string out [] in
  let out := append_string out (hash_as_str hash) in
  append_string out signature.

Definition ssh_signature (algorithm d : bytes) : bytes := append_string (append_string [] algorithm) d.

(** [slice::chunks]: pieces of [n], the last one what is left.  As much fuel as
    there are bytes is enough. *)
Fixpoint chunks (fuel : nat) (n : nat) (l : bytes) : list bytes :=
  match fuel, l with
  | S fuel, _ :: _ => take n l :: chunks fuel n (drop n l)
  | _, _ => []
  end.

(** The base64 codec is a parameter; its output is ASCII. *)
Definition armor (base64_encode : bytes -> bytes) (sshsig : bytes) : bytes :=
  let encoded := base64_encode sshsig in
  ascii "-----BEGIN SSH SIGNATURE-----" ++ [10] ++
  mbind (fun line => line ++ [10]) (chunks (length encoded) 70 encoded) ++
  ascii "-----END SSH SIGNATURE-----" ++ [10].

(** ** Lemmas *)

(** *** Fields *)

Lemma append_u32_app out v : append_u32 out v = out ++ to_be_bytes 4 v.
Proof. reflexivity. Qed.

Lemma append_string_app out b : append_string out b = out ++ enc32 b.
Proof. unfold append_string, append_u32, enc32. now rewrite <- app_assoc. Qed.

Lemma reader_u32_app v t : 0 <= v < 2 ^ 32 -> reader_u32 (to_be_bytes 4 v ++ t) = Some (v, t).
Proof.
  intros Hv. pose proof (from_to_be_bytes_small 4 v Hv) as E. pose proof (length_to_be_bytes 4 v) as Hl.
  destruct (to_be_bytes 4 v) as [|a [|b [|c [|d [|e l]]]]]; try discriminate Hl. cbn [app reader_u32]. now rewrite E.
Qed.

Lemma reader_u32_inv l v t : bytes_ok l -> reader_u32 l = Some (v, t) -> l = to_be_bytes 4 v ++ t /\ 0 <= v < 2 ^ 32.
Proof.
  unfold reader_u32. intros Hl. destruct l as [|a [|b [|c [|d l]]]]; try discriminate. intros [= <- <-].
  assert (Hb : bytes_ok [a; b; c; d]) by (apply (Forall_app byte_ok [a; b; c; d] l); exact Hl).
  split; [|exact (from_be_bytes_bound _ Hb)]. change 4%nat with (length [a; b; c; d]). now rewrite (to_be_bytes_from [a; b; c; d] Hb).
Qed.

Lemma reader_string_app b t : len b < 2 ^ 32 -> reader_string (enc32 b ++ t) = Some (b, t).
Proof.
  intros Hb. pose proof (len_nonneg b). pose proof (len_nonneg t). unfold reader_string, enc32. rewrite <- app_assoc, reader_u32_app by lia.
  cbn [mbind option_bind]. rewrite len_app, ztake_app, zdrop_app. zbool. reflexivity.
Qed.

Lemma reader_string_inv l s t : bytes_ok l -> reader_string l = Some (s, t) -> l = enc32 s ++ t /\ len s < 2 ^ 32.
Proof.
  unfold reader_string. intros Hl. destruct (reader_u32 l) as [[n rest]|] eqn:E; [|discriminate].
  apply (reader_u32_inv _ _ _ Hl) in E as [-> Hn]. cbn [mbind option_bind].
  destruct (len rest <? n) eqn:Hlt; [discriminate|]. bprop. intros [= <- <-].
  assert (Hs : len (ztake n rest) = n) by (apply len_ztake; lia). unfold enc32. rewrite Hs.
  split; [|lia]. now rewrite <- app_assoc, <- (zsplit n rest).
Qed.

Lemma bytes_ok_enc32_tail b t : bytes_ok (enc32 b ++ t) -> bytes_ok t /\ bytes_ok b.
Proof. unfold enc32. rewrite !Forall_app. tauto. Qed.

Lemma bytes_ok_u32_tail v t : bytes_ok (to_be_bytes 4 v ++ t) -> bytes_ok t.
Proof. rewrite Forall_app. tauto. Qed.

Lemma contents_enc b : len b < 2 ^ 32 -> contents (enc32 b) = Some b.
Proof. intros H. unfold contents. rewrite <- (app_nil_r (enc32 b)), reader_string_app by exact H. reflexivity. Qed.

Lemma contents_inv d b : bytes_ok d -> contents d = Some b -> d = enc32 b /\ len b < 2 ^ 32.
Proof.
  unfold contents. intros Hd. destruct (reader_string d) as [[inner rest]|] eqn:E; [|discriminate]. cbn [mbind option_bind].
  destruct rest; [|discriminate]. intros [= <-]. apply reader_string_inv in E as [-> H]; [|exact Hd]. now rewrite app_nil_r.
Qed.

(** The fields of a request, and of a response. *)
Definition request_fields (r : Request) (tail : bytes) : bytes :=
  enc32 (rq_key r) ++ enc32 (rq_namespace r) ++ enc32 (rq_hash_algorithm r) ++ enc32 (rq_text r) ++ tail.

Lemma request_encode_enc r :
  request_encode r = enc32 (to_be_bytes 4 VERSION ++ request_fields r (to_be_bytes 4 0)).
Proof. unfold request_encode, request_fields. rewrite ?append_string_app, ?append_u32_app. now rewrite ?app_nil_l, <- ?app_assoc. Qed.

Lemma response_encode_enc r :
  response_encode r = enc32 (to_be_bytes 4 VERSION ++ to_be_bytes 4 (status_code (rs_status r)) ++ enc32 (rs_sshsig r) ++ enc32 (rs_detail r)).
Proof. unfold response_encode. rewrite ?append_string_app, ?append_u32_app. now rewrite ?app_nil_l, <- ?app_assoc. Qed.

(** A request that fits its length fields, with a hash name that is a string. *)
Definition request_ok (r : Request) : Prop :=
  utf8_valid (rq_namespace r) = true /\ utf8_valid (rq_hash_algorithm r) = true /\
  len (to_be_bytes 4 VERSION ++ request_fields r (to_be_bytes 4 0)) < 2 ^ 32.

Lemma enc32_len b : len (enc32 b) = 4 + len b.
Proof. unfold enc32. rewrite len_app. unfold len at 1. now rewrite length_to_be_bytes. Qed.

Lemma to_be_len v : len (to_be_bytes 4 v) = 4.
Proof. unfold len. now rewrite length_to_be_bytes. Qed.

Lemma request_ok_lens r : request_ok r ->
  len (rq_key r) < 2 ^ 32 /\ len (rq_namespace r) < 2 ^ 32 /\ len (rq_hash_algorithm r) < 2 ^ 32 /\ len (rq_text r) < 2 ^ 32.
Proof.
  intros (_ & _ & H). unfold request_fields in H. rewrite !len_app, !enc32_len, !to_be_len in H.
  pose proof (len_nonneg (rq_key r)). pose proof (len_nonneg (rq_namespace r)).
  pose proof (len_nonneg (rq_hash_algorithm r)). pose proof (len_nonneg (rq_text r)). lia.
Qed.

Lemma request_key_encode r : request_ok r -> request_key (request_encode r) = Some (rq_key r).
Proof.
  intros Hr. pose proof (request_ok_lens r Hr) as (Hk & _). destruct Hr as (_ & _ & Hl). unfold request_key.
  rewrite request_encode_enc, contents_enc by exact Hl. cbn [mbind option_bind]. rewrite reader_u32_app by (unfold VERSION; lia).
  cbn [mbind option_bind]. unfold request_fields. now rewrite reader_string_app by exact Hk.
Qed.

Lemma request_decode_fields r : request_ok r -> request_decode (request_encode r) = Some r.
Proof.
  intros Hr. pose proof (request_ok_lens r Hr) as (H1 & H2 & H3 & H4). destruct Hr as (Hn & Hh & Hl). unfold request_decode.
  rewrite request_encode_enc, contents_enc by exact Hl. cbn [mbind option_bind]. rewrite reader_u32_app by (unfold VERSION; lia).
  cbn [mbind option_bind]. change (negb (VERSION =? VERSION)) with false. cbv iota. unfold request_fields.
  rewrite reader_string_app by exact H1. cbn [mbind option_bind]. rewrite reader_string_app by exact H2. cbn [mbind option_bind].
  rewrite reader_string_app by exact H3. cbn [mbind option_bind]. rewrite Hh. cbn [negb]. rewrite reader_string_app by exact H4.
  cbn [mbind option_bind]. rewrite from_utf8_lossy_valid by exact Hn. destruct r. reflexivity.
Qed.

(** A request that was decoded is the encoding of one whose namespace is the bytes
    on the wire. *)
Lemma request_decode_inv d r :
  bytes_ok d -> request_decode d = Some r ->
  exists ns, rq_namespace r = from_utf8_lossy ns /\ utf8_valid (rq_hash_algorithm r) = true /\
    d = request_encode (MkRequest (rq_key r) ns (rq_hash_algorithm r) (rq_text r)) /\
    len (to_be_bytes 4 VERSION ++ request_fields (MkRequest (rq_key r) ns (rq_hash_algorithm r) (rq_text r)) (to_be_bytes 4 0)) < 2 ^ 32.
Proof.
  intros Hd. unfold request_decode. destruct (contents d) as [inner|] eqn:Ec; [|discriminate]. cbn [mbind option_bind].
  apply (contents_inv _ _ Hd) in Ec as [-> Hlen]. assert (Hi : bytes_ok inner) by (unfold enc32 in Hd; now apply Forall_app in Hd as [_ Hd]).
  destruct (reader_u32 inner) as [[v t0]|] eqn:E0; [|discriminate]. cbn [mbind option_bind].
  destruct (negb (v =? VERSION)) eqn:Hv; [discriminate|]. bprop. subst v. apply (reader_u32_inv _ _ _ Hi) in E0 as [-> _].
  apply bytes_ok_u32_tail in Hi.
  destruct (reader_string t0) as [[key t1]|] eqn:E1; [|discriminate]. apply (reader_string_inv _ _ _ Hi) in E1 as [-> _].
  apply bytes_ok_enc32_tail in Hi as [Hi _]. cbn [mbind option_bind].
  destruct (reader_string t1) as [[ns t2]|] eqn:E2; [|discriminate]. apply (reader_string_inv _ _ _ Hi) in E2 as [-> _].
  apply bytes_ok_enc32_tail in Hi as [Hi _]. cbn [mbind option_bind].
  destruct (reader_string t2) as [[h t3]|] eqn:E3; [|discriminate]. apply (reader_string_inv _ _ _ Hi) in E3 as [-> _].
  apply bytes_ok_enc32_tail in Hi as [Hi _]. cbn [mbind option_bind]. destruct (negb (utf8_valid h)) eqn:Hu; [discriminate|]. bprop.
  destruct (reader_string t3) as [[text t4]|] eqn:E4; [|discriminate]. apply (reader_string_inv _ _ _ Hi) in E4 as [-> _].
  apply bytes_ok_enc32_tail in Hi as [Hi _]. cbn [mbind option_bind].
  destruct (reader_u32 t4) as [[flags t5]|] eqn:E5; [|discriminate]. apply (reader_u32_inv _ _ _ Hi) in E5 as [-> _]. cbn [mbind option_bind].
  destruct (negb (flags =? 0) || negb (len t5 =? 0)) eqn:Hf; [discriminate|]. bprop. intros [= <-]. cbn [rq_key rq_namespace rq_hash_algorithm rq_text].
  assert (t5 = []) as -> by (destruct t5; [reflexivity|rewrite len_cons in *; pose proof (len_nonneg t5); lia]). subst flags.
  exists ns. rewrite request_encode_enc. unfold request_fields. cbn [rq_key rq_namespace rq_hash_algorithm rq_text].
  rewrite ?app_nil_r in *. auto.
Qed.

(** *** Names of namespaces *)

(** The lossy conversion marks whatever it changes. *)
Lemma lossy_unmarked l : ~ In 0xEF (from_utf8_lossy l) -> from_utf8_lossy l = l.
Proof.
  assert (H : forall n l, (length l <= n)%nat -> ~ In 0xEF (from_utf8_lossy l) -> from_utf8_lossy l = l); [|now apply (H (length l))].
  clear l. induction n as [|n IH]; intros [|a l1] Hn; try reflexivity; cbn [length] in Hn; [lia|]. cbn [from_utf8_lossy].
  assert (Hm : forall t, ~ In 0xEF (replacement_char ++ t) -> forall u : bytes, u = replacement_char ++ t) by (intros t Ht; destruct Ht; left; reflexivity).
  assert (Hm0 : ~ In 0xEF replacement_char -> forall u : bytes, u = replacement_char) by (intros Ht; destruct Ht; left; reflexivity).
  assert (Hc : forall l' : bytes, (length l' <= n)%nat -> forall pre, ~ In 0xEF (pre ++ from_utf8_lossy l') -> pre ++ from_utf8_lossy l' = pre ++ l').
  { intros l' Hl' pre Hp. f_equal. apply IH; [exact Hl'|]. intros Hi. apply Hp, in_or_app. now right. }
  destruct (a <? 0x80); [exact (Hc l1 ltac:(lia) [a])|]. destruct (utf8_width a =? 0); [now intros Ht; symmetry; apply Hm|].
  destruct l1 as [|b l2]; [now intros Ht; symmetry; apply Hm0|]. cbn [length] in Hn.
  destruct (utf8_width a =? 2). { destruct (utf8_cont b); [exact (Hc l2 ltac:(lia) [a; b])|now intros Ht; symmetry; apply Hm]. }
  destruct (negb (utf8_second_ok a b)); [now intros Ht; symmetry; apply Hm|].
  destruct l2 as [|c l3]; [now intros Ht; symmetry; apply Hm0|]. cbn [length] in Hn.
  destruct (negb (utf8_cont c)); [now intros Ht; symmetry; apply Hm|].
  destruct (utf8_width a =? 3); [exact (Hc l3 ltac:(lia) [a; b; c])|].
  destruct l3 as [|d l4]; [now intros Ht; symmetry; apply Hm0|]. cbn [length] in Hn.
  destruct (utf8_cont d); [exact (Hc l4 ltac:(lia) [a; b; c; d])|now intros Ht; symmetry; apply Hm].
Qed.

Lemma display_class_registered ns c : display_class ns = Some c -> In ns NAMESPACES.
Proof. unfold display_class, bytes_eqb. repeat case_bool_decide; try discriminate; subst; intros _; cbn; tauto. Qed.

Lemma registered_class ns : In ns NAMESPACES -> exists c, display_class ns = Some c.
Proof. cbn [NAMESPACES In]. intros [<-|[<-|[<-|[]]]]; eexists; reflexivity. Qed.

Lemma registered_plain ns : In ns NAMESPACES -> ~ In 0xEF ns /\ len ns < 2 ^ 32.
Proof.
  cbn [NAMESPACES In]. intros [<-|[<-|[<-|[]]]]; (split; [|reflexivity]); intros H; vm_compute in H;
    repeat (destruct H as [H|H]; [discriminate|]); exact H.
Qed.

(** Bad bytes do not turn into a registered name. *)
Lemma lossy_registered ns : In (from_utf8_lossy ns) NAMESPACES -> from_utf8_lossy ns = ns.
Proof. intros H. apply lossy_unmarked. now apply registered_plain. Qed.

Lemma find_registered ns : List.find (fun registered => bytes_eqb registered ns) NAMESPACES = if bool_decide (ns ∈ NAMESPACES) then Some ns else None.
Proof.
  destruct (decide (ns ∈ NAMESPACES)) as [H0|H0]; [rewrite (bool_decide_true _ H0)|rewrite (bool_decide_false _ H0)];
    rewrite list_elem_of_In in H0; cbn [NAMESPACES In] in H0.
  - destruct H0 as [<-|[<-|[<-|[]]]]; reflexivity.
  - cbn [NAMESPACES List.find]. unfold bytes_eqb. now rewrite !bool_decide_false by tauto.
Qed.

(** *** Signed data *)

Lemma signed_data_app H ns h text :
  signed_data H ns h text = SSHSIG_MAGIC ++ enc32 ns ++ enc32 [] ++ enc32 (hash_as_str h) ++ enc32 (hash_digest H h text).
Proof. unfold signed_data. rewrite !append_string_app. now rewrite <- !app_assoc. Qed.

Lemma namespace_found ns rest : len ns < 2 ^ 32 ->
  namespace_of_signed_data (SSHSIG_MAGIC ++ enc32 ns ++ rest) = if bool_decide (ns ∈ NAMESPACES) then Some ns else None.
Proof.
  intros H. unfold namespace_of_signed_data. rewrite strip_str_app. cbn [mbind option_bind].
  rewrite reader_string_app by exact H. cbn [mbind option_bind]. apply find_registered.
Qed.

Lemma refuses_acts H ns class h text rest :
  display_class ns = Some class -> refuse_operator_act_signed_data (signed_data H ns h text ++ rest) = Err ns.
Proof.
  intros Hc. apply display_class_registered in Hc. unfold refuse_operator_act_signed_data.
  rewrite signed_data_app, <- app_assoc, <- app_assoc. rewrite namespace_found by now apply registered_plain.
  rewrite bool_decide_true by now apply list_elem_of_In. reflexivity.
Qed.

Lemma namespace_found_inv d ns : bytes_ok d -> namespace_of_signed_data d = Some ns ->
  In ns NAMESPACES /\ exists rest, d = SSHSIG_MAGIC ++ enc32 ns ++ rest.
Proof.
  intros Hd. unfold namespace_of_signed_data. destruct (strip_str SSHSIG_MAGIC d) as [rest|] eqn:E; [|discriminate].
  apply strip_str_Some in E as ->. apply Forall_app in Hd as [_ Hd]. cbn [mbind option_bind].
  destruct (reader_string rest) as [[n t]|] eqn:E; [|discriminate]. apply (reader_string_inv _ _ _ Hd) in E as [-> _].
  cbn [mbind option_bind]. rewrite find_registered. case_bool_decide as Hn; [|discriminate]. intros [= <-].
  rewrite list_elem_of_In in Hn. eauto.
Qed.

Lemma enc32_inj a b s t : len a < 2 ^ 32 -> len b < 2 ^ 32 -> enc32 a ++ s = enc32 b ++ t -> a = b /\ s = t.
Proof.
  intros Ha Hb E. pose proof (reader_string_app a s Ha) as H1. rewrite E, reader_string_app in H1 by exact Hb.
  injection H1 as <- <-. auto.
Qed.

Lemma hash_as_str_inj h h' : hash_as_str h = hash_as_str h' -> h = h'.
Proof. destruct h, h'; (reflexivity || discriminate). Qed.

Lemma hash_as_str_len h : len (hash_as_str h) < 2 ^ 32.
Proof. destruct h; reflexivity. Qed.

Lemma status_code_back s : (forall c, s = UnknownStatus c -> 8 < c) -> status_from_code (status_code s) = s.
Proof.
  destruct s; try reflexivity. intros H. specialize (H code eq_refl). unfold status_from_code. cbn [status_code]. zbool. reflexivity.
Qed.

(** *** Texts *)

(** What is shown is what was sent, and every character of it is one that shows, a
    line feed or a tab. *)
Lemma displayable_exact text shown :
  displayable_text text = Some shown <->
  shown = text /\ 0 < len text <= MAX_TEXT_BYTES /\
  exists chars, from_utf8 text = Some chars /\ as_bytes chars = text /\
    Forall (fun c => c = 10 \/ c = 9 \/ ~ (0 <= c <= 0x1F) /\ ~ (0x7F <= c <= 0x9F)) chars.
Proof.
  unfold displayable_text. pose proof (len_nonneg text).
  assert (Ha : forall c, allowed c = true <-> c = 10 \/ c = 9 \/ ~ (0 <= c <= 0x1F) /\ ~ (0x7F <= c <= 0x9F)).
  { intros c. unfold allowed, is_control. rewrite !orb_true_iff, negb_true_iff, orb_false_iff, !Z.eqb_eq.
    rewrite <- !(between_spec _ c), !not_true_iff_false. tauto. }
  destruct ((len text =? 0) || (MAX_TEXT_BYTES <? len text)) eqn:E.
  { split; [discriminate|]. intros (_ & Hl & _). bprop. apply orb_true_iff in E as [E|E]; bprop; lia. }
  bprop. destruct (from_utf8 text) as [chars|] eqn:Ef; cbn [mbind option_bind].
  - assert (Hall : forallb allowed chars = true <-> Forall (fun c => c = 10 \/ c = 9 \/ ~ (0 <= c <= 0x1F) /\ ~ (0x7F <= c <= 0x9F)) chars)
      by (rewrite forallb_forall, List.Forall_forall; split; intros Hf c Hi; apply Ha, Hf, Hi).
    split.
    + destruct (forallb allowed chars) eqn:Hc; [|discriminate]. intros [= <-]. split; [reflexivity|]. split; [lia|].
      exists chars. split; [reflexivity|]. split; [now apply as_bytes_from_utf8|now apply Hall].
    + intros (-> & _ & chars' & [= <-] & _ & Hc). apply Hall in Hc. now rewrite Hc.
  - split; [discriminate|]. intros (_ & _ & chars & [=] & _).
Qed.

(** ** Properties *)

(** A request is read back as it was sent, and so is a response;
    what is accepted as a request is nothing but an encoded request, up to
    the namespace, which is made a string; the key a proxy routes on is the key
    that is judged; and a namespace that passes as registered is the one that was sent,
    byte for byte. *)
Theorem act_messages_exact :
  (forall r, request_ok r -> request_decode (request_encode r) = Some r /\ request_key (request_encode r) = Some (rq_key r)) /\
  (forall d r, bytes_ok d -> request_decode d = Some r ->
     request_key d = Some (rq_key r) /\
     (forall class, display_class (rq_namespace r) = Some class -> d = request_encode r)) /\
  (forall r, utf8_valid (rs_detail r) = true -> len (rs_sshsig r) + len (rs_detail r) + 16 < 2 ^ 32 ->
     (0 <= status_code (rs_status r) < 2 ^ 32) -> (forall c, rs_status r = UnknownStatus c -> 8 < c) ->
     response_decode (response_encode r) = Some r).
Proof.
  split; [|split].
  - intros r Hr. split; [now apply request_decode_fields|now apply request_key_encode].
  - intros d r Hd Hr. destruct (request_decode_inv d r Hd Hr) as (ns & Hns & Hu & -> & Hl). split.
    + unfold request_key. rewrite request_encode_enc, contents_enc by exact Hl. cbn [mbind option_bind].
      rewrite reader_u32_app by (unfold VERSION; lia). cbn [mbind option_bind]. unfold request_fields. cbn [rq_key].
      unfold request_fields in Hl. cbn [rq_key rq_namespace rq_hash_algorithm rq_text] in Hl. rewrite !len_app, !enc32_len, !to_be_len in Hl.
      pose proof (len_nonneg (rq_text r)). pose proof (len_nonneg (rq_hash_algorithm r)). pose proof (len_nonneg ns).
      now rewrite reader_string_app by lia.
    + intros class Hc. apply display_class_registered in Hc. rewrite Hns in Hc. apply lossy_registered in Hc.
      rewrite Hc in Hns. rewrite <- Hns. now destruct r.
  - intros r Hu Hl Hc Hk. unfold response_decode. rewrite response_encode_enc.
    pose proof (len_nonneg (rs_sshsig r)). pose proof (len_nonneg (rs_detail r)).
    rewrite contents_enc by (rewrite !len_app, !enc32_len, !to_be_len; lia). cbn [mbind option_bind].
    rewrite reader_u32_app by (unfold VERSION; lia). cbn [mbind option_bind]. change (negb (VERSION =? VERSION)) with false. cbv iota.
    rewrite reader_u32_app by exact Hc. cbn [mbind option_bind]. rewrite reader_string_app by lia. cbn [mbind option_bind].
    rewrite <- (app_nil_r (enc32 (rs_detail r))), reader_string_app by lia. cbn [mbind option_bind].
    rewrite from_utf8_lossy_valid, status_code_back by assumption. now destruct r.
Qed.

(** C31 (safety).  The gate of the ordinary ways to sign refuses exactly the data that
    begins as sshsig data of a registered namespace does; so it refuses the signed
    data of every operator act, whatever follows it; and the signed data tells its
    namespace, its hash and the digest of its text. *)
Theorem operator_acts_are_apart (H : Hashes) :
  (forall d ns, bytes_ok d -> refuse_operator_act_signed_data d = Err ns <->
     In ns NAMESPACES /\ exists rest, d = SSHSIG_MAGIC ++ enc32 ns ++ rest) /\
  (forall ns class h text rest, display_class ns = Some class ->
     refuse_operator_act_signed_data (signed_data H ns h text ++ rest) = Err ns) /\
  (forall ns ns' h h' text text', len ns < 2 ^ 32 -> len ns' < 2 ^ 32 ->
     len (hash_digest H h text) < 2 ^ 32 -> len (hash_digest H h' text') < 2 ^ 32 ->
     signed_data H ns h text = signed_data H ns' h' text' ->
     ns = ns' /\ h = h' /\ hash_digest H h text = hash_digest H h' text').
Proof.
  split; [|split].
  - intros d ns Hd. unfold refuse_operator_act_signed_data. split.
    + destruct (namespace_of_signed_data d) as [n|] eqn:E; [|discriminate]. intros [= <-]. now apply namespace_found_inv.
    + intros (Hn & rest & ->). rewrite namespace_found by now apply registered_plain.
      rewrite bool_decide_true by now apply list_elem_of_In. reflexivity.
  - apply refuses_acts.
  - intros ns ns' h h' text text' H1 H2 H3 H4. rewrite !signed_data_app. intros E. apply app_inv_head in E.
    apply enc32_inj in E as [-> E]; [|assumption..]. apply enc32_inj in E as [_ E]; [|reflexivity..].
    apply enc32_inj in E as [Eh E]; [|apply hash_as_str_len..]. apply hash_as_str_inj in Eh as ->.
    rewrite <- (app_nil_r (enc32 (hash_digest H h' text))), <- (app_nil_r (enc32 (hash_digest H h' text'))) in E.
    apply enc32_inj in E as [E _]; [|assumption..]. auto.
Qed.

(** The armor's lines are the base64 text. *)
Lemma chunks_exact n l : forall fuel, (0 < n)%nat -> (length l <= fuel)%nat ->
  mbind (fun line => line) (chunks fuel n l) = l /\ Forall (fun line => (length line <= n)%nat) (chunks fuel n l).
Proof.
  intros fuel Hn. revert l. induction fuel as [|fuel IH]; intros [|a l] Hl; cbn [length] in Hl; try (split; [reflexivity|constructor]); [lia|].
  cbn [chunks]. destruct (IH (drop n (a :: l))) as [H1 H2]; [rewrite length_drop; cbn [length]; lia|]. split.
  - rewrite bind_cons, H1. apply take_drop.
  - constructor; [rewrite length_take; lia|exact H2].
Qed.

(** ** Witnesses *)

Definition toy_hashes : Hashes := MkHashes (repeat 1 32 ++.) (repeat 2 48 ++.) (repeat 3 64 ++.).

Definition toy_request : Request := MkRequest [1; 2; 3] PIGGY_ESCALATION (ascii "sha256") (ascii "grant the right for a day").

Lemma act_messages_exact_witness :
  request_decode (request_encode toy_request) = Some toy_request /\ request_key (request_encode toy_request) = Some [1; 2; 3].
Proof. apply (proj1 act_messages_exact toy_request). repeat split; vm_compute; reflexivity. Defined.

Lemma operator_acts_are_apart_witness :
  refuse_operator_act_signed_data (signed_data toy_hashes PIGGY_QUOTE HashSha512 [104; 105] ++ [0]) = Err PIGGY_QUOTE.
Proof. exact (proj1 (proj2 (operator_acts_are_apart toy_hashes)) PIGGY_QUOTE Quote HashSha512 [104; 105] [0] eq_refl). Defined.
