(* ===== verification/SigFormat.v ===== *)
(** * SigFormat: the forms of a signature

    [piggy/src/ecdsa_sig.rs] in full: the DER form a card signs in, the raw form,
    and the form of the SSH wire; and the signing formats of [session.rs]: what a
    card is given to sign, and what becomes of its answer. *)

From Stdlib Require Import ZArith Lia String.
From stdpp Require Import base tactics list numbers.
From S2P Require Import Prelude Text Wire AgentExt Slot OperatorAct.

Local Open Scope Z_scope.

(** ** DER signatures *)

Inductive SigError : Type :=
| NotASequence
| LengthOverflows
| TruncatedBody
| TrailingAfterS
| MissingInteger (label : string)
| ExpectedInteger (label : string)
| IntegerExceedsSequence (label : string)
| MissingLengthByte
| TruncatedLength
| NonCanonicalLength
| UnsupportedLength (first : Z)
| FieldExceeded (label : string) (n field_len : Z)
| SshTruncated (label : string)
| SshLengthExceeds (label : string) (n : Z)
| SshTrailing (n : Z).

(** [bytes.get(i)] *)
Definition get (l : bytes) (i : Z) : option Z := l !! Z.to_nat i.

(** The length, and how many bytes it took. *)
Definition parse_der_length (l : bytes) : res SigError (Z * Z) :=
  let* first := ok_or (get l 0) MissingLengthByte in
  if first <? 0x80 then Ok (first, 1)
  else if first =? 0x81 then
    let* b := ok_or (get l 1) TruncatedLength in
    if b <? 0x80 then Err NonCanonicalLength else Ok (b, 2)
  else if first =? 0x82 then
    let* hi := ok_or (get l 1) TruncatedLength in
    let* lo := ok_or (get l 2) TruncatedLength in
    if hi =? 0 then Err NonCanonicalLength else Ok (from_be_bytes [hi; lo], 3)
  else Err (UnsupportedLength first).

(** The integer's bytes, and the position behind it. *)
Definition read_der_integer (der : bytes) (pos end_ : Z) (label : string) : res SigError (bytes * Z) :=
  if end_ <=? pos then Err (MissingInteger label)
  else
    let* tag := index der pos in
    if negb (tag =? 0x02) then Err (ExpectedInteger label)
    else
      let* rest := slice der (pos + 1) end_ in
      let* (int_len, int_hdr) := parse_der_length rest in
      let int_start := pos + 1 + int_hdr in
      let* int_end := ok_or (checked_add int_start int_len) LengthOverflows in
      if end_ <? int_end then Err (IntegerExceedsSequence label)
      else
        let* int := slice der int_start int_end in
        Ok (int, int_end).

Definition decode_der_ecdsa_signature (der : bytes) : res SigError (bytes * bytes) :=
  if negb (bool_decide (get der 0 = Some 0x30)) then Err NotASequence
  else
    let* rest := slice_from der 1 in
    let* (seq_len, seq_hdr) := parse_der_length rest in
    let seq_start := 1 + seq_hdr in
    let* seq_end := ok_or (checked_add seq_start seq_len) LengthOverflows in
    if len der <? seq_end then Err TruncatedBody
    else
      let* (r, after_r) := read_der_integer der seq_start seq_end "r" in
      let* (s, after_s) := read_der_integer der after_r seq_end "s" in
      if negb (after_s =? seq_end) then Err TrailingAfterS else Ok (r, s).

(** [while b.len() > field_len && b[0] == 0x00] *)
Fixpoint strip_zeros (field_len : Z) (b : bytes) : bytes :=
  match b with
  | 0 :: b' => if field_len <? len b then strip_zeros field_len b' else b
  | _ => b
  end.

Definition fixed_width_be (int_bytes : bytes) (field_len : Z) (label : string) : res SigError bytes :=
  let b := strip_zeros field_len int_bytes in
  if field_len <? len b then Err (FieldExceeded label (len b) field_len)
  else Ok (repeat 0 (Z.to_nat (field_len - len b)) ++ b).

Definition der_to_raw_rs (der : bytes) (field_len : Z) : res SigError bytes :=
  let* (r, s) := decode_der_ecdsa_signature der in
  let* r := fixed_width_be r field_len "r" in
  let* s := fixed_width_be s field_len "s" in
  Ok (r ++ s).

Definition encode_der_length (n : Z) : bytes :=
  if n <? 0x80 then [u8 n]
  else if n <=? 0xFF then [0x81; u8 n]
  else 0x82 :: to_be_bytes 2 (Z.min n 0xFFFF).

Definition encode_der_integer (body : bytes) : bytes :=
  0x02 :: match body with [] => [1; 0] | _ => encode_der_length (len body) ++ body end.

(** [read_ssh_string] of [ecdsa_sig.rs] *)
Definition sig_ssh_string (d : bytes) (offset : Z) (label : string) : res SigError (bytes * Z) :=
  let* hdr_end := ok_or (within d (checked_add offset 4)) (SshTruncated label) in
  let* n := be32_at d offset in
  let* end_ := ok_or (within d (checked_add hdr_end n)) (SshLengthExceeds label n) in
  let* s := slice d hdr_end end_ in
  Ok (s, end_).

Definition ssh_ecdsa_blob_to_der (blob : bytes) : res SigError bytes :=
  let* (r, pos) := sig_ssh_string blob 0 "r" in
  let* (s, end_) := sig_ssh_string blob pos "s" in
  if negb (end_ =? len blob) then let* n := usub (len blob) end_ in Err (SshTrailing n)
  else
    let body := encode_der_integer r ++ encode_der_integer s in
    Ok (0x30 :: encode_der_length (len body) ++ body).

(** ** What the agent signs ([session.rs]) *)

Inductive SignError : Type :=
| KeyTooSmall
| BadDer (e : SigError)
| RejectedByLibrary (algorithm : bytes).

(** [SSH_AGENT_RSA_SHA2_512] *)
Definition RSA_SHA2_512 : Z := 4.

Definition RSA_DIGEST_PREFIX_SHA256 : bytes :=
  [0x30; 0x31; 0x30; 0x0d; 0x06; 0x09; 0x60; 0x86; 0x48; 0x01; 0x65; 0x03; 0x04; 0x02; 0x01; 0x05; 0x00; 0x04; 0x20].

Definition RSA_DIGEST_PREFIX_SHA512 : bytes :=
  [0x30; 0x51; 0x30; 0x0d; 0x06; 0x09; 0x60; 0x86; 0x48; 0x01; 0x65; 0x03; 0x04; 0x02; 0x03; 0x05; 0x00; 0x04; 0x40].

(** [l[i] = v], [l[a..b].copy_from_slice(src)] *)
Definition set_at {E} (l : bytes) (i v : Z) : res E bytes :=
  if (0 <=? i) && (i <? len l) then Ok (ztake i l ++ v :: zdrop (i + 1) l) else Panic.

Definition copy_into {E} (l : bytes) (a b : Z) (src : bytes) : res E bytes :=
  if (0 <=? a) && (a <=? b) && (b <=? len l) && (b - a =? len src) then Ok (ztake a l ++ src ++ zdrop b l) else Panic.

Definition pkcs1_v15_pad (hash digest_prefix : bytes) (key_size : Z) : res SignError bytes :=
  let digest_info_len := len digest_prefix + len hash in
  if key_size <? digest_info_len + 11 then Err KeyTooSmall
  else
    let padded := repeat 0 (Z.to_nat key_size) in
    let* padded := set_at padded 0 0x00 in
    let* padded := set_at padded 1 0x01 in
    let* pad_len := usub key_size digest_info_len in
    let* pad_len := usub pad_len 3 in
    let* padded := copy_into padded 2 (2 + pad_len) (repeat 0xFF (Z.to_nat pad_len)) in
    let* padded := set_at padded (2 + pad_len) 0x00 in
    let di_start := 3 + pad_len in
    let* padded := copy_into padded di_start (di_start + len digest_prefix) digest_prefix in
    copy_into padded (di_start + len digest_prefix) (len padded) hash.

Definition wants_sha512 (flags : Z) : bool := negb (Z.land flags RSA_SHA2_512 =? 0).

Section Signing.
Context (H : Hashes).

Definition rsa_block (key_size : Z) (d : bytes) (flags : Z) : res SignError bytes :=
  let '(hash_bytes, digest_prefix) :=
    if wants_sha512 flags then (sha512 H d, RSA_DIGEST_PREFIX_SHA512) else (sha256 H d, RSA_DIGEST_PREFIX_SHA256) in
  pkcs1_v15_pad hash_bytes digest_prefix key_size.

Definition prepare_sign_data (alg : PivAlgorithm) (d : bytes) (flags : Z) : res SignError bytes :=
  match alg with
  | EcP256 => Ok (sha256 H d)
  | EcP384 => Ok (sha384 H d)
  | Rsa1024 => rsa_block 128 d flags
  | Rsa2048 => rsa_block 256 d flags
  | AlgEd25519 => Ok d
  end.
End Signing.

(** [ssh_key::Signature]: the algorithm's name and the signature's bytes. *)
Record Signature := MkSignature { sig_algorithm : bytes; sig_bytes : bytes }.

Definition encode_ecdsa_ssh_signature (r s : bytes) : bytes :=
  to_be_bytes 4 (len r) ++ r ++ to_be_bytes 4 (len s) ++ s.

Section ToSsh.
(** [Signature::new] of the ssh_key crate checks that the bytes are of the form of
    the algorithm. *)
Context (well_formed : bytes -> bytes -> bool).

Definition signature_new (algorithm d : bytes) : res SignError Signature :=
  if well_formed algorithm d then Ok (MkSignature algorithm d) else Err (RejectedByLibrary algorithm).

Definition to_ssh_signature (alg : PivAlgorithm) (sig_bytes : bytes) (flags : Z) : res SignError Signature :=
  let ecdsa name :=
    let* (r, s) := map_err BadDer (decode_der_ecdsa_signature sig_bytes) in
    signature_new name (encode_ecdsa_ssh_signature r s) in
  match alg with
  | EcP256 => ecdsa (ascii "ecdsa-sha2-nistp256")
  | EcP384 => ecdsa (ascii "ecdsa-sha2-nistp384")
  | Rsa1024 | Rsa2048 => signature_new (if wants_sha512 flags then ascii "rsa-sha2-512" else ascii "rsa-sha2-256") sig_bytes
  | AlgEd25519 => signature_new (ascii "ssh-ed25519") sig_bytes
  end.
End ToSsh.

(** ** Lemmas *)

(** *** Buffers *)

Lemma zdrop_len_app {A} (a t : list A) n : n = len a -> zdrop n (a ++ t) = t.
Proof. intros ->. apply zdrop_app. Qed.

Lemma ztake_len_app {A} (a t : list A) n : n = len a -> ztake n (a ++ t) = a.
Proof. intros ->. apply ztake_app. Qed.

Lemma set_at_app {E} a x t v i : i = len a -> set_at (E := E) (a ++ x :: t) i v = Ok (a ++ v :: t).
Proof.
  intros ->. pose proof (len_nonneg a). pose proof (len_nonneg t). unfold set_at. rewrite len_app, len_cons. zbool.
  rewrite ztake_app. do 3 f_equal. change (x :: t) with ([x] ++ t). rewrite app_assoc. apply zdrop_len_app. now rewrite len_app.
Qed.

Lemma copy_into_app {E} a m t src i j : i = len a -> j = len a + len m -> len m = len src ->
  copy_into (E := E) (a ++ m ++ t) i j src = Ok (a ++ src ++ t).
Proof.
  intros -> -> Hl. pose proof (len_nonneg a). pose proof (len_nonneg t). pose proof (len_nonneg m). unfold copy_into. rewrite !len_app. zbool.
  replace (len a + len m - len a =? len src) with true by (symmetry; apply Z.eqb_eq; lia). cbn [andb].
  rewrite ztake_app. do 3 f_equal. rewrite app_assoc. apply zdrop_len_app. now rewrite len_app.
Qed.

Lemma len_zeros (x n : Z) : 0 <= n -> len (repeat x (Z.to_nat n)) = n.
Proof. intros H. unfold len. rewrite repeat_length. lia. Qed.

Lemma zeros_split (x a b : Z) : 0 <= a -> 0 <= b -> repeat x (Z.to_nat (a + b)) = repeat x (Z.to_nat a) ++ repeat x (Z.to_nat b).
Proof. intros Ha Hb. now rewrite Z2Nat.inj_add, repeat_app by lia. Qed.

(** The block of RFC 8017, 9.2, or the refusal of a key that is too small. *)
Lemma pkcs1_exact hash digest_prefix key_size :
  pkcs1_v15_pad hash digest_prefix key_size =
  let pad_len := key_size - len digest_prefix - len hash - 3 in
  if pad_len <? 8 then Err KeyTooSmall
  else Ok ([0x00; 0x01] ++ repeat 0xFF (Z.to_nat pad_len) ++ [0x00] ++ digest_prefix ++ hash).
Proof.
  unfold pkcs1_v15_pad. cbv zeta. set (n := key_size - len digest_prefix - len hash - 3).
  pose proof (len_nonneg digest_prefix). pose proof (len_nonneg hash).
  destruct (key_size <? len digest_prefix + len hash + 11) eqn:E; bprop; [replace (n <? 8) with true by (symmetry; apply Z.ltb_lt; lia); reflexivity|].
  replace (n <? 8) with false by (symmetry; apply Z.ltb_ge; lia).
  replace key_size with (2 + (n + (1 + (len digest_prefix + len hash)))) by lia.
  rewrite !zeros_split by lia. change (repeat 0 (Z.to_nat 2)) with ([0; 0] : bytes). change (repeat 0 (Z.to_nat 1)) with ([0] : bytes).
  set (F := repeat 0 (Z.to_nat n)). set (P := repeat 0 (Z.to_nat (len digest_prefix))). set (Q := repeat 0 (Z.to_nat (len hash))).
  assert (HF : len F = n) by (apply len_zeros; lia). assert (HP : len P = len digest_prefix) by (apply len_zeros; lia).
  assert (HQ : len Q = len hash) by (apply len_zeros; lia).
  rewrite (set_at_app [] 0 ([0] ++ F ++ [0] ++ P ++ Q)) by reflexivity. cbn [res_bind app].
  rewrite (set_at_app [0] 0 (F ++ [0] ++ P ++ Q)) by reflexivity. cbn [res_bind app].
  rewrite !usub_Ok by lia. cbn [res_bind]. rewrite usub_Ok by lia. cbn [res_bind].
  replace (2 + (n + (1 + (len digest_prefix + len hash))) - (len digest_prefix + len hash) - 3) with n by lia.
  rewrite (copy_into_app [0; 1] F ([0] ++ P ++ Q)); [|reflexivity|rewrite HF; reflexivity|rewrite HF, len_zeros; lia]. cbn [res_bind].
  set (G := repeat 255 (Z.to_nat n)). assert (HG : len G = n) by (apply len_zeros; lia).
  rewrite (app_assoc [0; 1] G). rewrite (set_at_app ([0; 1] ++ G) 0 (P ++ Q)) by (rewrite len_app, HG; reflexivity). cbn [res_bind].
  change (0 :: P ++ Q) with ([0] ++ P ++ Q). rewrite (app_assoc _ [0]).
  rewrite (copy_into_app (([0; 1] ++ G) ++ [0]) P Q digest_prefix) by (rewrite ?len_app, ?HG, ?HP; change (len [0; 1]) with 2; change (len [0]) with 1; lia).
  cbn [res_bind]. rewrite (app_assoc _ digest_prefix). rewrite <- (app_nil_r Q) at 1.
  rewrite (copy_into_app _ Q [] hash) by (rewrite ?len_app, ?HG, ?HQ; change (len [0; 1]) with 2; change (len [0]) with 1; lia).
  now rewrite app_nil_r, <- !app_assoc.
Qed.

(** *** DER lengths *)

Lemma byte_u8 b : byte_ok b -> u8 b = b.
Proof. exact (u8_small b). Qed.

Lemma be2 hi lo : byte_ok hi -> byte_ok lo -> from_be_bytes [hi; lo] = hi * 256 + lo.
Proof. intros. unfold from_be_bytes. cbn [foldl]. lia. Qed.

Lemma to_be2 n : to_be_bytes 2 n = [n / 256 mod 256; n mod 256].
Proof. unfold to_be_bytes. change (256 ^ Z.of_nat 1) with 256. change (256 ^ Z.of_nat 0) with 1. now rewrite Z.div_1_r. Qed.

Lemma get_0 a l : get (a :: l) 0 = Some a.
Proof. reflexivity. Qed.
Lemma get_1 a b l : get (a :: b :: l) 1 = Some b.
Proof. reflexivity. Qed.
Lemma get_2 a b c l : get (a :: b :: c :: l) 2 = Some c.
Proof. reflexivity. Qed.

(** A length is read in one way only: the way it is written. *)
Lemma parse_der_length_inv l n h : bytes_ok l -> parse_der_length l = Ok (n, h) ->
  exists t, l = encode_der_length n ++ t /\ h = len (encode_der_length n) /\ 0 <= n <= 0xFFFF.
Proof.
  unfold parse_der_length, encode_der_length. intros Hl. destruct l as [|first l]; [discriminate|]. rewrite get_0. cbn [ok_or res_bind].
  apply Forall_cons_iff in Hl as [Hf Hl]. unfold byte_ok in Hf. destruct (first <? 0x80) eqn:E1; bprop.
  { intros [= <- <-]. rewrite (proj2 (Z.ltb_lt first 0x80) E1), byte_u8 by exact Hf. exists l. split; [reflexivity|]. split; [reflexivity|lia]. }
  destruct (first =? 0x81) eqn:E2; bprop.
  { subst first. destruct l as [|b l]; [discriminate|]. apply Forall_cons_iff in Hl as [Hb Hl]. unfold byte_ok in Hb.
    rewrite get_1. cbn [ok_or res_bind]. destruct (b <? 0x80) eqn:E3; [discriminate|]. bprop.
    intros [= <- <-]. zbool. rewrite byte_u8 by exact Hb. exists l. split; [reflexivity|]. split; [reflexivity|lia]. }
  destruct (first =? 0x82) eqn:E3; [|discriminate]. bprop. subst first.
  destruct l as [|hi [|lo l]]; try discriminate. apply Forall_cons_iff in Hl as [Hhi Hl]. apply Forall_cons_iff in Hl as [Hlo Hl].
  rewrite get_1, get_2. cbn [ok_or res_bind]. destruct (hi =? 0) eqn:E4; [discriminate|]. bprop. rewrite be2 by assumption. unfold byte_ok in Hhi, Hlo. intros [= <- <-].
  zbool. rewrite Z.min_l by lia. exists l. split; [|split; [reflexivity|lia]]. rewrite to_be2. cbn [app]. repeat f_equal; divs.
Qed.

Lemma parse_der_length_encode n t : 0 <= n <= 0xFFFF ->
  parse_der_length (encode_der_length n ++ t) = Ok (n, len (encode_der_length n)).
Proof.
  intros Hn. unfold encode_der_length, parse_der_length. destruct (n <? 0x80) eqn:E1; bprop.
  { cbn [app]. rewrite get_0. cbn [ok_or res_bind]. rewrite byte_u8 by (unfold byte_ok; lia). zbool. reflexivity. }
  destruct (n <=? 0xFF) eqn:E2; bprop.
  { cbn [app]. rewrite get_0. cbn [ok_or res_bind]. change (0x81 <? 0x80) with false. change (0x81 =? 0x81) with true. cbv iota.
    rewrite get_1. cbn [ok_or res_bind]. rewrite byte_u8 by (unfold byte_ok; lia). zbool. reflexivity. }
  rewrite Z.min_l by lia. rewrite to_be2. cbn [app]. rewrite get_0. cbn [ok_or res_bind].
  change (0x82 <? 0x80) with false. change (0x82 =? 0x81) with false. change (0x82 =? 0x82) with true. cbv iota.
  rewrite get_1, get_2. cbn [ok_or res_bind].
  assert (Hh : n / 256 mod 256 = n / 256) by divs. rewrite Hh. assert ((n / 256 =? 0) = false) as -> by (apply Z.eqb_neq; divs).
  rewrite be2 by (unfold byte_ok; divs). do 2 f_equal. divs.
Qed.

Lemma parse_der_length_no_panic l : no_panic (parse_der_length l).
Proof.
  unfold parse_der_length. apply no_panic_bind; [apply no_panic_ok_or|]. intros first _. case_match; [apply no_panic_Ok|].
  case_match; [apply no_panic_bind; [apply no_panic_ok_or|intros; case_match; [apply no_panic_Err|apply no_panic_Ok]]|].
  case_match; [|apply no_panic_Err]. apply no_panic_bind; [apply no_panic_ok_or|]. intros hi _.
  apply no_panic_bind; [apply no_panic_ok_or|]. intros lo _. case_match; [apply no_panic_Err|apply no_panic_Ok].
Qed.

(** *** The same parser on what is left *)

Definition int_of (label : string) (l : bytes) : res SigError (bytes * bytes) :=
  match l with
  | [] => Err (MissingInteger label)
  | tag :: rest =>
      if negb (tag =? 0x02) then Err (ExpectedInteger label)
      else
        let* (n, h) := parse_der_length rest in
        if len rest <? h + n then Err (IntegerExceedsSequence label) else Ok (ztake n (zdrop h rest), zdrop (h + n) rest)
  end.

Lemma len_encode_der n : 1 <= len (encode_der_length n) <= 3.
Proof. unfold encode_der_length. destruct (n <? 128); [|destruct (n <=? 255)]; rewrite ?len_cons, ?to_be2, ?len_cons; change (len (@nil Z)) with 0; lia. Qed.

Lemma read_der_integer_spec pre mid post label :
  bytes_ok mid -> len (pre ++ mid ++ post) < 2 ^ 63 ->
  read_der_integer (pre ++ mid ++ post) (len pre) (len pre + len mid) label =
  let* (i, rest) := int_of label mid in Ok (i, len pre + len mid - len rest).
Proof.
  intros Hm Hl. pose proof (len_nonneg pre). pose proof (len_nonneg mid). pose proof (len_nonneg post). rewrite !len_app in Hl.
  unfold read_der_integer. destruct mid as [|tag rest]; [change (len (@nil Z)) with 0; zbool; reflexivity|].
  pose proof (len_nonneg rest). rewrite len_cons in *. zbool. rewrite (index_Ok _ _ tag (rest ++ post)) by (lia || apply zdrop_app). cbn [res_bind int_of].
  destruct (negb (tag =? 2)) eqn:Et; [reflexivity|].
  assert (Hs : slice (E := SigError) (pre ++ (tag :: rest) ++ post) (len pre + 1) (len pre + (1 + len rest)) = Ok rest).
  { replace (len pre + (1 + len rest)) with (len pre + 1 + len rest) by lia. apply (slice_app _ _ rest post); [rewrite !len_app, len_cons; lia|].
    apply (zdrop_step (len pre) _ [tag]); [lia|]. apply zdrop_app. }
  rewrite Hs. cbn [res_bind]. apply Forall_cons_iff in Hm as [_ Hm]. destruct (parse_der_length rest) as [[n h]|e|] eqn:Ep; [|reflexivity..].
  cbn [res_bind]. destruct (parse_der_length_inv _ _ _ Hm Ep) as (t & Ht & Hh & Hn). pose proof (len_encode_der n).
  unfold checked_add. zbool. cbn [ok_or res_bind]. destruct (len rest <? h + n) eqn:El; bprop; zbool; [reflexivity|].
  rewrite slice_Ok by (rewrite ?len_app, ?len_cons; lia). cbn [res_bind]. do 2 f_equal; [|rewrite len_zdrop by lia; lia].
  replace (len pre + 1 + h + n - (len pre + 1 + h)) with n by lia.
  assert (Hd : zdrop (len pre + 1 + h) (pre ++ (tag :: rest) ++ post) = zdrop h rest ++ post).
  { replace (pre ++ (tag :: rest) ++ post) with ((pre ++ [tag] ++ ztake h rest) ++ zdrop h rest ++ post)
      by (rewrite <- !app_assoc; cbn [app]; do 2 f_equal; rewrite app_assoc, <- zsplit; reflexivity).
    apply zdrop_len_app. rewrite !len_app, len_ztake by lia. change (len [tag]) with 1. lia. }
  rewrite Hd. unfold ztake. apply take_app_le. pose proof (len_zdrop h rest ltac:(lia)). unfold len in *. lia.
Qed.

Definition der_parts (der : bytes) : res SigError (bytes * bytes) :=
  match der with
  | 0x30 :: rest =>
      let* (n, h) := parse_der_length rest in
      if len rest <? h + n then Err TruncatedBody
      else
        let* (r, t) := int_of "r" (ztake n (zdrop h rest)) in
        let* (s, t) := int_of "s" t in
        match t with [] => Ok (r, s) | _ => Err TrailingAfterS end
  | _ => Err NotASequence
  end.

Lemma int_of_inv label l i rest : bytes_ok l -> int_of label l = Ok (i, rest) ->
  l = 0x02 :: encode_der_length (len i) ++ i ++ rest /\ len i <= 0xFFFF.
Proof.
  intros Hl. unfold int_of. destruct l as [|tag l]; [discriminate|]. destruct (negb (tag =? 2)) eqn:Et; [discriminate|]. bprop. subst tag.
  apply Forall_cons_iff in Hl as [_ Hl]. intros H. apply res_bind_Ok_inv in H as ([n h] & Hp & H).
  destruct (parse_der_length_inv _ _ _ Hl Hp) as (t & -> & -> & Hn).
  destruct (len (encode_der_length n ++ t) <? len (encode_der_length n) + n) eqn:E; [discriminate|]. bprop. rewrite len_app in E.
  rewrite zdrop_app in H. injection H as <- <-. pose proof (len_nonneg (encode_der_length n)).
  assert (Hi : len (ztake n t) = n) by (apply len_ztake; lia). rewrite Hi. split; [|lia]. f_equal. f_equal.
  assert (Hz : zdrop (len (encode_der_length n) + n) (encode_der_length n ++ t) = zdrop n t).
  { unfold zdrop. rewrite Z2Nat.inj_add, <- drop_drop by lia. f_equal. apply zdrop_app. }
  rewrite Hz. apply zsplit.
Qed.

Lemma int_of_bytes label l i rest : bytes_ok l -> int_of label l = Ok (i, rest) -> bytes_ok i /\ bytes_ok rest.
Proof.
  intros Hl H. destruct (int_of_inv _ _ _ _ Hl H) as [-> _]. apply Forall_cons_iff in Hl as [_ Hl].
  apply Forall_app in Hl as [_ Hl]. now apply Forall_app in Hl.
Qed.

Lemma int_of_no_panic label l : no_panic (int_of label l).
Proof.
  unfold int_of. destruct l; [apply no_panic_Err|]. case_match; [apply no_panic_Err|].
  apply no_panic_bind; [apply parse_der_length_no_panic|]. intros [n h] _. case_match; [apply no_panic_Err|apply no_panic_Ok].
Qed.

Lemma decode_der_spec der : bytes_ok der -> len der < 2 ^ 63 -> decode_der_ecdsa_signature der = der_parts der.
Proof.
  intros Hd Hl. unfold decode_der_ecdsa_signature, der_parts, get. destruct der as [|b rest]; [reflexivity|].
  change ((b :: rest) !! Z.to_nat 0) with (Some b). case_bool_decide as Hb.
  2:{ cbn [negb]. destruct b as [|p|p]; try reflexivity. do 6 (destruct p as [p|p|]; try reflexivity). now destruct Hb. }
  injection Hb as ->. cbn [negb]. pose proof (len_nonneg rest). rewrite len_cons in Hl. apply Forall_cons_iff in Hd as [_ Hd].
  rewrite slice_from_Ok by (rewrite len_cons; lia). cbn [res_bind]. change (zdrop 1 (0x30 :: rest)) with rest.
  destruct (parse_der_length rest) as [[n h]|e|] eqn:Ep; [|reflexivity..]. cbn [res_bind].
  destruct (parse_der_length_inv _ _ _ Hd Ep) as (t & -> & -> & Hn). pose proof (len_encode_der n). set (e := encode_der_length n) in *.
  rewrite len_app in *. unfold checked_add. zbool. cbn [ok_or res_bind]. rewrite len_cons, len_app.
  destruct (len e + len t <? len e + n) eqn:El; bprop; zbool; [reflexivity|]. rewrite zdrop_app.
  set (mid := ztake n t). set (post := zdrop n t). assert (Ht : t = mid ++ post) by apply zsplit.
  assert (Hm : len mid = n) by (apply len_ztake; lia). assert (Hpre : 0x30 :: e ++ t = (0x30 :: e) ++ mid ++ post) by (rewrite Ht; reflexivity).
  rewrite Hpre. replace (1 + len e) with (len (0x30 :: e)) by now rewrite len_cons.
  replace (len (0x30 :: e) + n) with (len (0x30 :: e) + len mid) by lia.
  assert (Hbm : bytes_ok mid) by (apply Forall_app in Hd as [_ Hd]; now apply bytes_ok_ztake).
  assert (Hlt : len ((0x30 :: e) ++ mid ++ post) < 2 ^ 63) by (rewrite <- Hpre, len_cons, len_app; lia).
  rewrite read_der_integer_spec by assumption.
  destruct (int_of "r" mid) as [[r t1]|err|] eqn:Er; [|reflexivity..]. cbn [res_bind].
  destruct (int_of_inv _ _ _ _ Hbm Er) as [Hmid _]. destruct (int_of_bytes _ _ _ _ Hbm Er) as [_ Hb1].
  set (pre1 := (0x30 :: e) ++ 0x02 :: encode_der_length (len r) ++ r).
  assert (Heq : (0x30 :: e) ++ mid ++ post = pre1 ++ t1 ++ post) by (unfold pre1; rewrite Hmid; repeat (cbn [app]; rewrite <- ?app_assoc); reflexivity).
  assert (Hp1 : len pre1 + len t1 = len (0x30 :: e) + len mid).
  { unfold pre1. rewrite Hmid, !len_app, !len_cons, !len_app. lia. }
  rewrite Heq in Hlt |- *. replace (len (0x30 :: e) + len mid - len t1) with (len pre1) by lia. rewrite <- Hp1.
  rewrite read_der_integer_spec by assumption. destruct (int_of "s" t1) as [[s t2]|err|]; [|reflexivity..]. cbn [res_bind].
  destruct t2 as [|x t2]; [change (len (@nil Z)) with 0; rewrite Z.sub_0_r, Z.eqb_refl; reflexivity|].
  rewrite len_cons. pose proof (len_nonneg t2). zbool. replace (len pre1 + len t1 - (1 + len t2) =? len pre1 + len t1) with false by (symmetry; apply Z.eqb_neq; lia). reflexivity.
Qed.

(** *** Raw integers *)

Lemma strip_zeros_value n b : from_be_bytes (strip_zeros n b) = from_be_bytes b.
Proof.
  induction b as [|x b IH]; [reflexivity|]. cbn [strip_zeros]. destruct x; try reflexivity.
  destruct (n <? len (0 :: b)); [|reflexivity]. rewrite IH, (from_be_bytes_cons 0 b). lia.
Qed.

Lemma strip_zeros_ok n b : bytes_ok b -> bytes_ok (strip_zeros n b).
Proof.
  induction b as [|x b IH]; intros H; [exact H|]. cbn [strip_zeros]. destruct x; try exact H.
  destruct (n <? len (0 :: b)); [|exact H]. apply Forall_cons_iff in H as [_ H]. auto.
Qed.

(** What is left is short enough, or does not begin with a zero. *)
Lemma strip_zeros_head n b : 0 <= n -> len (strip_zeros n b) <= n \/ exists x t, strip_zeros n b = x :: t /\ x <> 0.
Proof.
  intros Hn. induction b as [|x b IH]; [left; exact Hn|]. cbn [strip_zeros]. destruct x; [|right; eexists; eexists; split; [reflexivity|discriminate]..].
  destruct (n <? len (0 :: b)) eqn:E; [exact IH|]. bprop. now left.
Qed.

Lemma from_be_zeros k b : from_be_bytes (repeat 0 k ++ b) = from_be_bytes b.
Proof. induction k as [|k IH]; [reflexivity|]. cbn [repeat app]. rewrite from_be_bytes_cons, IH. lia. Qed.

Lemma fixed_width_exact b n label : 0 <= n -> bytes_ok b ->
  if from_be_bytes b <? 256 ^ n
  then exists out, fixed_width_be b n label = Ok out /\ len out = n /\ from_be_bytes out = from_be_bytes b
  else exists e, fixed_width_be b n label = Err e.
Proof.
  intros Hn Hb. unfold fixed_width_be. cbv zeta. pose proof (strip_zeros_value n b) as Hv. pose proof (strip_zeros_ok n b Hb) as Hs.
  pose proof (from_be_bytes_bound _ Hs) as Hbd. pose proof (len_nonneg (strip_zeros n b)).
  destruct (n <? len (strip_zeros n b)) eqn:E; bprop.
  - destruct (strip_zeros_head n b Hn) as [|(x & t & Hx & Hnz)]; [lia|]. rewrite Hx in *. rewrite from_be_bytes_cons in Hv, Hbd.
    apply Forall_cons_iff in Hs as [Hx1 Ht]. pose proof (from_be_bytes_bound t Ht). unfold byte_ok in Hx1. rewrite len_cons in *.
    pose proof (Z.pow_le_mono_r 256 n (len t) ltac:(lia) ltac:(lia)). destruct (from_be_bytes b <? 256 ^ n) eqn:Ev; bprop; [nia|eauto].
  - pose proof (Z.pow_le_mono_r 256 (len (strip_zeros n b)) n ltac:(lia) ltac:(lia)). zbool. eexists. split; [reflexivity|].
    split; [rewrite len_app, len_zeros; lia|]. now rewrite from_be_zeros.
Qed.

(** *** The SSH form *)

Lemma encode_ecdsa_enc r s : encode_ecdsa_ssh_signature r s = enc32 r ++ enc32 s.
Proof. unfold encode_ecdsa_ssh_signature, enc32. now rewrite <- !app_assoc. Qed.

Lemma sig_ssh_string_app pre s t label :
  len (pre ++ enc32 s ++ t) < 2 ^ 63 -> len s < 2 ^ 32 ->
  sig_ssh_string (pre ++ enc32 s ++ t) (len pre) label = Ok (s, len pre + 4 + len s).
Proof.
  intros Hl Hs. rewrite !len_app, enc32_len in Hl. pose proof (len_nonneg pre). pose proof (len_nonneg s). pose proof (len_nonneg t).
  unfold sig_ssh_string, within, checked_add. rewrite !len_app, enc32_len. zbool. cbn [ok_or res_bind].
  rewrite be32_at_Ok by (rewrite ?len_app, ?enc32_len; lia). cbn [res_bind]. rewrite zdrop_app.
  assert (Hn : from_be_bytes (ztake 4 (enc32 s ++ t)) = len s).
  { unfold enc32. rewrite <- app_assoc, (ztake_len_app (to_be_bytes 4 (len s))) by now rewrite to_be_len.
    apply from_to_be_bytes_small. change (256 ^ Z.of_nat 4) with (2 ^ 32). lia. }
  rewrite Hn. zbool. cbn [ok_or res_bind]. unfold enc32. replace (len pre + 4 + len s) with ((len pre + 4) + len s) by lia.
  rewrite (slice_app _ _ s t); [reflexivity|rewrite !len_app, to_be_len; lia|].
  rewrite <- app_assoc. replace (len pre + 4) with (len pre + len (to_be_bytes 4 (len s))) by now rewrite to_be_len.
  apply (zdrop_step (len pre) _ (to_be_bytes 4 (len s))); [lia|]. apply zdrop_app.
Qed.

Lemma blob_to_der_enc r s : len r + len s + 8 < 2 ^ 32 ->
  ssh_ecdsa_blob_to_der (encode_ecdsa_ssh_signature r s) =
  Ok (0x30 :: encode_der_length (len (encode_der_integer r ++ encode_der_integer s)) ++ encode_der_integer r ++ encode_der_integer s).
Proof.
  intros H. pose proof (len_nonneg r). pose proof (len_nonneg s). rewrite encode_ecdsa_enc. unfold ssh_ecdsa_blob_to_der.
  rewrite (sig_ssh_string_app [] r (enc32 s)) by (rewrite ?len_app, ?enc32_len; change (len (@nil Z)) with 0; lia). cbn [res_bind].
  change (len (@nil Z)) with 0. replace (0 + 4 + len r) with (len (enc32 r)) by (rewrite enc32_len; lia).
  rewrite <- (app_nil_r (enc32 s)). rewrite sig_ssh_string_app by (rewrite ?len_app, ?enc32_len; change (len (@nil Z)) with 0; lia). cbn [res_bind].
  rewrite !len_app, !enc32_len. change (len (@nil Z)) with 0.
  replace (4 + len r + 4 + len s =? 4 + len r + (4 + len s + 0)) with true by (symmetry; apply Z.eqb_eq; lia). reflexivity.
Qed.

Lemma encode_der_integer_body i : i <> [] -> encode_der_integer i = 0x02 :: encode_der_length (len i) ++ i.
Proof. unfold encode_der_integer. now destruct i. Qed.

(** The parts of a signature, and the DER they came from. *)
Lemma der_parts_inv der r s : bytes_ok der -> der_parts der = Ok (r, s) ->
  exists t, let body := (0x02 :: encode_der_length (len r) ++ r) ++ 0x02 :: encode_der_length (len s) ++ s in
    der = (0x30 :: encode_der_length (len body) ++ body) ++ t /\ len r <= 0xFFFF /\ len s <= 0xFFFF /\ bytes_ok r /\ bytes_ok s.
Proof.
  intros Hd H. unfold der_parts in H. destruct der as [|b rest]; [discriminate|].
  assert (Hb : b = 0x30) by (destruct b as [|p|p]; try discriminate H; do 6 (destruct p as [p|p|]; try discriminate H); reflexivity).
  subst b. apply Forall_cons_iff in Hd as [_ Hd]. apply res_bind_Ok_inv in H as ([n h] & Hp & H).
  destruct (parse_der_length_inv _ _ _ Hd Hp) as (t & -> & -> & Hn). rewrite len_app, zdrop_app in H.
  destruct (len (encode_der_length n) + len t <? len (encode_der_length n) + n) eqn:El; [discriminate|]. bprop.
  assert (Hbm : bytes_ok (ztake n t)) by (apply Forall_app in Hd as [_ Hd]; now apply bytes_ok_ztake).
  apply res_bind_Ok_inv in H as ([r' t1] & Hr & H). destruct (int_of_inv _ _ _ _ Hbm Hr) as [Hmid Hlr].
  destruct (int_of_bytes _ _ _ _ Hbm Hr) as [Hbr Hb1]. apply res_bind_Ok_inv in H as ([s' t2] & Hs & H).
  destruct (int_of_inv _ _ _ _ Hb1 Hs) as [Ht1 Hls]. destruct (int_of_bytes _ _ _ _ Hb1 Hs) as [Hbs _].
  destruct t2; [|discriminate]. injection H as -> ->. rewrite app_nil_r in Ht1. exists (zdrop n t). cbv zeta.
  assert (Hbody : ztake n t = (0x02 :: encode_der_length (len r) ++ r) ++ 0x02 :: encode_der_length (len s) ++ s)
    by (rewrite Hmid, Ht1; repeat (cbn [app]; rewrite <- ?app_assoc); reflexivity).
  rewrite <- Hbody. rewrite (len_ztake n t) by lia. split; [|auto]. cbn [app]. rewrite <- app_assoc. now rewrite <- (zsplit n t).
Qed.

Lemma no_panic_checked_add a b e : no_panic (ok_or (E := SigError) (checked_add a b) e).
Proof. apply no_panic_ok_or. Qed.

Lemma der_parts_no_panic der : no_panic (der_parts der).
Proof.
  unfold der_parts. destruct der as [|b rest]; [discriminate|]. destruct b as [|p|p]; try discriminate.
  do 6 (destruct p as [p|p|]; try discriminate). apply no_panic_bind; [apply parse_der_length_no_panic|]. intros [n h] _.
  case_match; [discriminate|]. apply no_panic_bind; [apply int_of_no_panic|]. intros [r t] _.
  apply no_panic_bind; [apply int_of_no_panic|]. intros [s t'] _. destruct t'; discriminate.
Qed.

(** *** Flags *)

Lemma land_4 z : Z.land z 4 = if Z.testbit z 2 then 4 else 0.
Proof.
  apply Z.bits_inj'. intros k Hk. rewrite Z.land_spec. change 4 with (2 ^ 2) at 1. rewrite Z.pow2_bits_eqb by lia.
  destruct (Z.eqb_spec 2 k) as [<-|Hne].
  - destruct (Z.testbit z 2); reflexivity.
  - rewrite andb_false_r. destruct (Z.testbit z 2); [change 4 with (2 ^ 2); rewrite Z.pow2_bits_eqb by lia|now rewrite Z.bits_0].
    symmetry. now apply Z.eqb_neq.
Qed.

(** ** Properties *)

(** A signature keeps its two integers in every form.  The DER that a
    card answers with and the agent sends on in the SSH form is, up to bytes that
    trail it, the DER a client makes of that form again; its raw form holds
    the same two numbers in the width of the field, and exists exactly when they fit; and no
    bytes of a card make the parser panic. *)
Theorem signatures_reframed der :
  bytes_ok der -> len der < 2 ^ 63 ->
  no_panic (decode_der_ecdsa_signature der) /\
  forall r s, decode_der_ecdsa_signature der = Ok (r, s) ->
    (r <> [] -> s <> [] -> exists d t,
       ssh_ecdsa_blob_to_der (encode_ecdsa_ssh_signature r s) = Ok d /\ der = d ++ t) /\
    (forall n, 0 <= n ->
       if (from_be_bytes r <? 256 ^ n) && (from_be_bytes s <? 256 ^ n)
       then exists raw, der_to_raw_rs der n = Ok raw /\ len raw = 2 * n /\
              from_be_bytes (ztake n raw) = from_be_bytes r /\ from_be_bytes (zdrop n raw) = from_be_bytes s
       else exists e, der_to_raw_rs der n = Err e).
Proof.
  intros Hd Hl. rewrite decode_der_spec by assumption. split; [apply der_parts_no_panic|]. intros r s Hrs.
  destruct (der_parts_inv der r s Hd Hrs) as (t & Hder & Hr & Hs & Hbr & Hbs). split.
  - intros Hnr Hns. rewrite blob_to_der_enc by lia. rewrite !encode_der_integer_body by assumption. eexists. exists t. split; [reflexivity|exact Hder].
  - intros n Hn. unfold der_to_raw_rs. rewrite decode_der_spec, Hrs by assumption. cbn [res_bind].
    pose proof (fixed_width_exact r n "r" Hn Hbr) as Fr. pose proof (fixed_width_exact s n "s" Hn Hbs) as Fs.
    destruct (from_be_bytes r <? 256 ^ n); cbn [andb].
    2:{ destruct Fr as [e ->]. cbn [res_bind]. eauto. }
    destruct Fr as (r' & -> & Hlr & Hvr). cbn [res_bind]. destruct (from_be_bytes s <? 256 ^ n).
    2:{ destruct Fs as [e ->]. cbn [res_bind]. eauto. }
    destruct Fs as (s' & -> & Hls & Hvs). cbn [res_bind]. exists (r' ++ s'). split; [reflexivity|]. rewrite len_app.
    split; [lia|]. rewrite ztake_len_app, zdrop_len_app by congruence. auto.
Qed.

(** What a card is given to sign: the digest of its curve, the data
    itself for Ed25519, and for RSA the whole PKCS#1 block of RFC 8017 in the size of the key, with SHA-512 exactly when
    the request asks for it.  No card key is too small, and nothing panics. *)
Theorem sign_data_exact (H : Hashes) alg d flags :
  (forall m, len (sha256 H m) = 32 /\ len (sha384 H m) = 48 /\ len (sha512 H m) = 64) ->
  exists block, prepare_sign_data H alg d flags = Ok block /\
    match alg with
    | EcP256 => block = sha256 H d /\ len block = 32
    | EcP384 => block = sha384 H d /\ len block = 48
    | AlgEd25519 => block = d
    | Rsa1024 | Rsa2048 =>
        len block = (if bool_decide (alg = Rsa1024) then 128 else 256) /\
        exists fill, 8 <= fill /\
          block = [0x00; 0x01] ++ repeat 0xFF (Z.to_nat fill) ++ [0x00] ++
                  (if Z.testbit flags 2 then RSA_DIGEST_PREFIX_SHA512 ++ sha512 H d else RSA_DIGEST_PREFIX_SHA256 ++ sha256 H d)
    end.
Proof.
  intros Hh. destruct (Hh d) as (H1 & H2 & H3).
  assert (Hrsa : forall size, 128 <= size -> exists block, rsa_block H size d flags = Ok block /\ len block = size /\
    exists fill, 8 <= fill /\ block = [0x00; 0x01] ++ repeat 0xFF (Z.to_nat fill) ++ [0x00] ++
      (if Z.testbit flags 2 then RSA_DIGEST_PREFIX_SHA512 ++ sha512 H d else RSA_DIGEST_PREFIX_SHA256 ++ sha256 H d)).
  { intros size Hsize. assert (Hf : wants_sha512 flags = Z.testbit flags 2).
    { unfold wants_sha512, RSA_SHA2_512. rewrite land_4. destruct (Z.testbit flags 2); reflexivity. }
    unfold rsa_block. rewrite Hf. destruct (Z.testbit flags 2); rewrite pkcs1_exact; cbv zeta; [rewrite H3|rewrite H1].
    all: change (len RSA_DIGEST_PREFIX_SHA512) with 19; change (len RSA_DIGEST_PREFIX_SHA256) with 19.
    all: match goal with |- context [?n <? 8] => replace (n <? 8) with false by (symmetry; apply Z.ltb_ge; lia) end.
    all: eexists; split; [reflexivity|]; split; [|eexists; split; [|reflexivity]; lia].
    all: rewrite !len_app, len_zeros by lia; change (len [0; 1]) with 2; change (len [0]) with 1;
      change (len RSA_DIGEST_PREFIX_SHA512) with 19; change (len RSA_DIGEST_PREFIX_SHA256) with 19; lia. }
  destruct alg; cbn [prepare_sign_data]; eauto.
  - destruct (Hrsa 128 ltac:(lia)) as (block & Hb & Hl & Hx). rewrite Hb. eauto.
  - destruct (Hrsa 256 ltac:(lia)) as (block & Hb & Hl & Hx). rewrite Hb. eauto.
Qed.

(** ** Witnesses *)

Definition toy_der : bytes := [0x30; 0x07; 0x02; 0x02; 0x00; 0x81; 0x02; 0x01; 0x05; 0xEE].

Lemma signatures_reframed_witness :
  exists d t, ssh_ecdsa_blob_to_der (encode_ecdsa_ssh_signature [0x00; 0x81] [0x05]) = Ok d /\ toy_der = d ++ t.
Proof.
  refine (proj1 (proj2 (signatures_reframed toy_der _ _) [0x00; 0x81] [0x05] _) _ _);
    [by_compute|reflexivity|vm_compute; reflexivity|discriminate|discriminate].
Defined.

Definition sized_hashes : Hashes := MkHashes (fun _ => repeat 1 32) (fun _ => repeat 2 48) (fun _ => repeat 3 64).

Lemma sign_data_exact_witness :
  exists block, prepare_sign_data sized_hashes Rsa2048 [1; 2] 4 = Ok block /\ len block = 256 /\ exists fill, 8 <= fill /\
    block = [0x00; 0x01] ++ repeat 0xFF (Z.to_nat fill) ++ [0x00] ++ RSA_DIGEST_PREFIX_SHA512 ++ repeat 3 64.
Proof. exact (sign_data_exact sized_hashes Rsa2048 [1; 2] 4 (fun _ => conj eq_refl (conj eq_refl eq_refl))). Defined.
