(* ===== verification/Presence.v ===== *)
(** * Presence: the agent's served cards

    [piggy/src/cmd/agent/card.rs]: the reconciler that keeps the keys the agent
    serves, and the PINs it knows, in step with the cards that are there.  The
    enumeration of the cards ([load]) and the probe of a card ([verify]) are
    effects on a world of cards, parameters here and given by [AgentCards]. *)

From Stdlib Require Import ZArith Lia Permutation.
From stdpp Require Import base tactics list numbers gmap.
From S2P Require Import Prelude Guid Slot PinCache.

Local Open Scope Z_scope.

(** [session.rs] *)
Record CachedKey := MkCachedKey {
  ck_guid : Guid;
  ck_reader_name : bytes;
  ck_slot_id : Z;
  ck_algorithm : PivAlgorithm;
  ck_public_key : KeyData;
  ck_comment : bytes;
}.

Definition PROBE_FAIL_LIMIT : Z := 3.

(** In milliseconds. *)
Definition STARTUP_FAST_WINDOW : Z := 30000.
Definition STARTUP_FAST_INTERVAL : Z := 1000.

(** What the reconciler works on: the keys and the PINs it shares with the
    handlers, and the misses its loop owns. *)
Record Served := MkServed {
  sv_keys : list CachedKey;
  sv_pins : PinCache;
  sv_misses : gmap Guid Z;
}.

Definition guids (keys : list CachedKey) : list Guid := ck_guid <$> keys.

(** [next_reconcile_delay], given the time since the start. *)
Definition next_reconcile_delay (keys : list CachedKey) (elapsed interval : Z) : Z :=
  if bool_decide (keys = []) && (elapsed <? STARTUP_FAST_WINDOW) then Z.min STARTUP_FAST_INTERVAL interval else interval.

(** The pass over the served keys that counts the misses of their cards.  *)
Fixpoint debounce (present : gset Guid) (immediate_readers : gset bytes) (fail_limit : Z)
    (served : list (Guid * bytes)) (misses : gmap Guid Z) (to_drop : list Guid) : gmap Guid Z * list Guid :=
  match served with
  | [] => (misses, to_drop)
  | (g, reader) :: served =>
      if bool_decide (g ∈ present) then debounce present immediate_readers fail_limit served (delete g misses) to_drop
      else
        let n := u32 (default 0 (misses !! g) + 1) in
        let limit := if bool_decide (reader ∈ immediate_readers) then 1 else fail_limit in
        debounce present immediate_readers fail_limit served (<[g := n]> misses)
          (if limit <=? n then to_drop ++ [g] else to_drop)
  end.

Section Reconcile.
(** [verify]: whether the card answered; its error is logged. *)
Context {W : Type} (load : W -> W * list CachedKey) (verify : Guid -> W -> W * bool).

(** The order in which a [HashSet] is walked. *)
Context (walk : gset Guid -> list Guid).

Fixpoint adopt (desired : list CachedKey) (candidates : list Guid) (w : W) : W * list CachedKey :=
  match candidates with
  | [] => (w, [])
  | g :: candidates =>
      let (w, r) := verify g w in
      let (w, rest) := adopt desired candidates w in
      (w, if r then List.filter (fun k => bool_decide (ck_guid k = g)) desired ++ rest else rest)
  end.

(** The PINs and the misses of the dropped cards. *)
Definition forget_dropped (to_drop : list Guid) (pins : PinCache) (misses : gmap Guid Z) : PinCache * gmap Guid Z :=
  foldl (fun '(pins, misses) g => ((PinCache.forget_card g pins).2, delete g misses)) (pins, misses) to_drop.

(** The pass, while it holds the card lock. *)
Definition reconcile (fail_limit : Z) (immediate_readers : gset bytes) (s : Served) (w : W) : Served * W :=
  let (w, desired) := load w in
  let present : gset Guid := list_to_set (guids desired) in
  let served := (fun k => (ck_guid k, ck_reader_name k)) <$> sv_keys s in
  let served_guids : gset Guid := list_to_set (guids (sv_keys s)) in
  let (misses, to_drop) := debounce present immediate_readers fail_limit served (sv_misses s) [] in
  let (w, to_adopt) := adopt desired (walk (present ∖ served_guids)) w in
  let keys := List.filter (fun k => negb (bool_decide (ck_guid k ∈ to_drop))) (sv_keys s) ++ to_adopt in
  let (pins, misses) := forget_dropped to_drop (sv_pins s) misses in
  (MkServed keys pins misses, w).

(** [reconcile_once]: nothing while a request holds the card lock. *)
Definition reconcile_once (card_busy : bool) (fail_limit : Z) (immediate_readers : gset bytes) (s : Served) (w : W) : Served * W :=
  if card_busy then (s, w) else reconcile fail_limit immediate_readers s w.

(** ** The event loop *)

(** The reader names the watch has seen change, and the loop's wake. *)
Record LoopState := MkLoop { ls_served : Served; ls_changed : gset bytes; ls_notified : bool }.

Inductive LoopEvent : Type :=
| WatchSees (readers : list bytes)   (** [watch_reader_states]: record them and notify *)
| PollDeadline (card_busy : bool)    (** the delay is over *)
| Notified (card_busy : bool)        (** the loop was notified *)
| OtherChange (f : Served -> Served). (** a handler at work on the keys and PINs *)

(** One turn of [reconcile_loop_with_events], or of its watch.  A deadline ends the wait with no
    reader named; a notification takes the names seen since the last one. *)
Definition loop_turn (fail_limit : Z) (e : LoopEvent) (l : LoopState) (w : W) : LoopState * W :=
  match e with
  | WatchSees readers => (MkLoop (ls_served l) (list_to_set readers ∪ ls_changed l) true, w)
  | PollDeadline busy =>
      let (s, w) := reconcile_once busy fail_limit ∅ (ls_served l) w in (MkLoop s (ls_changed l) (ls_notified l), w)
  | Notified busy =>
      if ls_notified l then
        let (s, w) := reconcile_once busy fail_limit (ls_changed l) (ls_served l) w in (MkLoop s ∅ false, w)
      else (l, w)
  | OtherChange f => (MkLoop (f (ls_served l)) (ls_changed l) (ls_notified l), w)
  end.
End Reconcile.

(** ** Lemmas *)

(** *** The misses *)

(** How many of the served keys are of the card. *)
Definition key_count (g : Guid) (served : list (Guid * bytes)) : Z := len (List.filter (fun e => bool_decide (e.1 = g)) served).

Lemma key_count_cons g e served : key_count g (e :: served) = (if bool_decide (e.1 = g) then 1 else 0) + key_count g served.
Proof. unfold key_count. cbn [List.filter]. case_bool_decide; [now rewrite len_cons|reflexivity]. Qed.

Lemma key_count_nonneg g served : 0 <= key_count g served.
Proof. apply len_nonneg. Qed.

Lemma debounce_present present immediate limit g served : forall misses to_drop,
  g ∈ present ->
  let r := debounce present immediate limit served misses to_drop in
  (r.1 !! g = if key_count g served =? 0 then misses !! g else None) /\ (In g r.2 <-> In g to_drop).
Proof.
  induction served as [|[g' reader] served IH]; intros misses to_drop Hg; [cbn; auto|].
  cbv zeta. rewrite key_count_cons. cbn [debounce fst]. pose proof (key_count_nonneg g served).
  destruct (decide (g' = g)) as [->|Hne].
  - rewrite !bool_decide_true by (reflexivity || assumption). destruct (IH (delete g misses) to_drop Hg) as [-> ->].
    zbool. replace (1 + key_count g served =? 0) with false by (symmetry; apply Z.eqb_neq; lia). rewrite lookup_delete_eq. destruct (_ =? 0); auto.
  - rewrite (bool_decide_false (g' = g)) by assumption. rewrite Z.add_0_l. case_bool_decide.
    + destruct (IH (delete g' misses) to_drop Hg) as [-> ->]. rewrite lookup_delete_ne by congruence. auto.
    + match goal with |- context [debounce _ _ _ _ ?m ?d] => destruct (IH m d Hg) as [-> ->] end.
      rewrite lookup_insert_ne by congruence. split; [reflexivity|]. match goal with |- context [if ?a <=? ?b then _ ++ _ else _] => destruct (a <=? b) end; [rewrite in_app_iff; cbn; intuition congruence|reflexivity].
Qed.

Lemma debounce_absent present immediate limit g b served : forall misses to_drop,
  g ∉ present -> (forall reader, In (g, reader) served -> bool_decide (reader ∈ immediate) = b) ->
  0 <= default 0 (misses !! g) -> default 0 (misses !! g) + key_count g served < 2 ^ 32 ->
  let r := debounce present immediate limit served misses to_drop in
  (r.1 !! g = if key_count g served =? 0 then misses !! g else Some (default 0 (misses !! g) + key_count g served)) /\
  (In g r.2 <-> In g to_drop \/ 0 < key_count g served /\ (if b then 1 else limit) <= default 0 (misses !! g) + key_count g served).
Proof.
  induction served as [|[g' reader] served IH]; intros misses to_drop Hg Hr H0 Hlt.
  { cbn. change (key_count g []) with 0. split; [reflexivity|]. intuition lia. }
  cbv zeta in *. rewrite key_count_cons in *. cbn [debounce fst] in *. pose proof (key_count_nonneg g served).
  assert (Hr' : forall reader, In (g, reader) served -> bool_decide (reader ∈ immediate) = b) by (intros r Hi; apply Hr; now right).
  destruct (decide (g' = g)) as [->|Hne].
  - rewrite (bool_decide_true (g = g)) in * by reflexivity. rewrite (bool_decide_false (g ∈ present)) by assumption.
    rewrite (Hr reader (or_introl eq_refl)). set (n0 := default 0 (misses !! g)) in *.
    assert (Hu : u32 (n0 + 1) = n0 + 1) by (apply Z.mod_small; change (2 ^ 32) with 4294967296 in *; lia). rewrite Hu.
    match goal with |- context [debounce _ _ _ _ ?m ?d] => destruct (IH m d Hg Hr') as [E1 E2] end.
    { rewrite lookup_insert_eq. cbn. lia. } { rewrite lookup_insert_eq. cbn. lia. }
    rewrite lookup_insert_eq in E1, E2. cbn [default from_option id] in E1, E2. rewrite E1, E2.
    replace (1 + key_count g served =? 0) with false by (symmetry; apply Z.eqb_neq; lia). split.
    + destruct (key_count g served =? 0) eqn:E; bprop; f_equal; lia.
    + destruct ((if b then 1 else limit) <=? n0 + 1) eqn:El; bprop; [rewrite in_app_iff; cbn|]; intuition lia.
  - rewrite (bool_decide_false (g' = g)) in * by assumption. rewrite Z.add_0_l in *. case_bool_decide.
    + match goal with |- context [debounce _ _ _ _ ?m ?d] => destruct (IH m d Hg Hr') as [E1 E2] end; rewrite ?lookup_delete_ne in * by congruence; auto.
    + match goal with |- context [debounce _ _ _ _ ?m ?d] => destruct (IH m d Hg Hr') as [E1 E2] end; rewrite ?lookup_insert_ne in * by congruence; auto.
      split; [exact E1|]. rewrite E2. match goal with |- context [if ?a <=? ?b then _ ++ _ else _] => destruct (a <=? b) end; [rewrite in_app_iff; cbn; intuition congruence|reflexivity].
Qed.

(** Only a served card's misses are counted, and only a served card is dropped. *)
Lemma debounce_other present immediate limit g served : forall misses to_drop,
  ~ In g (fst <$> served) ->
  let r := debounce present immediate limit served misses to_drop in r.1 !! g = misses !! g /\ (In g r.2 <-> In g to_drop).
Proof.
  induction served as [|[g' reader] served IH]; intros misses to_drop Hg; [cbn; auto|].
  cbv zeta. cbn [debounce fmap list_fmap fst In] in *. assert (Hne : g' <> g) by tauto. assert (Hg' : ~ In g (fst <$> served)) by tauto.
  case_bool_decide.
  - destruct (IH (delete g' misses) to_drop Hg') as [-> ->]. now rewrite lookup_delete_ne by congruence.
  - match goal with |- context [debounce _ _ _ _ ?m ?d] => destruct (IH m d Hg') as [-> ->] end. rewrite lookup_insert_ne by congruence.
    split; [reflexivity|]. match goal with |- context [if ?a <=? ?b then _ ++ _ else _] => destruct (a <=? b) end; [rewrite in_app_iff; cbn; intuition congruence|reflexivity].
Qed.

(** *** The PINs *)

Lemma forget_dropped_spec to_drop : forall pins misses,
  let r := forget_dropped to_drop pins misses in
  (forall g, r.2 !! g = if bool_decide (g ∈ to_drop) then None else misses !! g) /\
  (forall g, pc_verified r.1 !! g = if bool_decide (g ∈ to_drop) then None else pc_verified pins !! g) /\
  (to_drop <> [] -> pc_offered r.1 = None).
Proof.
  unfold forget_dropped. induction to_drop as [|g0 to_drop IH]; intros pins misses; cbn [foldl].
  - cbn. split; [|split]; [intros g; rewrite bool_decide_false by set_solver; reflexivity..|congruence].
  - destruct (IH (PinCache.forget_card g0 pins).2 (delete g0 misses)) as (H1 & H2 & H3). cbv zeta in *.
    assert (Hd : forall (A : Type) (m : gmap Guid A) g, (if bool_decide (g ∈ to_drop) then None else delete g0 m !! g) =
                 if bool_decide (g ∈ g0 :: to_drop) then None else m !! g).
    { intros A m g. destruct (decide (g = g0)) as [->|Hne].
      - rewrite lookup_delete_eq, (bool_decide_true (g0 ∈ g0 :: to_drop)) by apply list_elem_of_here. now case_bool_decide.
      - rewrite lookup_delete_ne by congruence. rewrite (bool_decide_ext (g ∈ g0 :: to_drop) (g ∈ to_drop)) by (rewrite elem_of_cons; tauto). reflexivity. }
    split; [|split].
    + intros g. rewrite H1. apply Hd.
    + intros g. rewrite H2. apply Hd.
    + intros _. destruct to_drop as [|g1 to_drop]; [reflexivity|]. now apply H3.
Qed.

(** *** One pass *)

Definition keys_of (g : Guid) (keys : list CachedKey) : list CachedKey := List.filter (fun k => bool_decide (ck_guid k = g)) keys.

Lemma keys_of_app g a b : keys_of g (a ++ b) = keys_of g a ++ keys_of g b.
Proof. apply List.filter_app. Qed.

Lemma keys_of_in g keys k : In k (keys_of g keys) <-> In k keys /\ ck_guid k = g.
Proof. unfold keys_of. now rewrite filter_In, bool_decide_eq_true. Qed.

Lemma keys_of_nil g keys : keys_of g keys = [] <-> ~ In g (guids keys).
Proof.
  unfold guids. rewrite <- list_elem_of_In, list_elem_of_fmap. setoid_rewrite list_elem_of_In. split.
  - intros E (k & -> & Hk). assert (Hin : In k (keys_of (ck_guid k) keys)) by now apply keys_of_in. now rewrite E in Hin.
  - intros Hn. destruct (keys_of g keys) as [|k l] eqn:E; [reflexivity|]. destruct Hn. exists k.
    assert (Hin : In k (keys_of g keys)) by (rewrite E; now left). apply keys_of_in in Hin as [Hk <-]. auto.
Qed.

Lemma keys_of_kept g (drop : list Guid) keys :
  keys_of g (List.filter (fun k => negb (bool_decide (ck_guid k ∈ drop))) keys) = if bool_decide (g ∈ drop) then [] else keys_of g keys.
Proof.
  induction keys as [|k keys IH]; [cbn; now destruct (bool_decide _)|]. cbn [List.filter]. unfold keys_of in *.
  destruct (decide (ck_guid k ∈ drop)) as [Hd|Hd]; [rewrite (bool_decide_true _ Hd)|rewrite (bool_decide_false _ Hd)]; cbn [negb List.filter]; rewrite IH;
    destruct (decide (ck_guid k = g)) as [<-|Hne]; rewrite ?(bool_decide_true (_ = _) eq_refl), ?(bool_decide_false _ Hne), ?(bool_decide_true _ Hd), ?(bool_decide_false _ Hd);
    reflexivity.
Qed.

Lemma served_count g keys : key_count g ((fun k => (ck_guid k, ck_reader_name k)) <$> keys) = len (keys_of g keys).
Proof.
  unfold key_count, keys_of. induction keys as [|k keys IH]; [reflexivity|]. cbn [fmap list_fmap List.filter fst].
  case_bool_decide; [rewrite !len_cons; now rewrite IH|exact IH].
Qed.

Lemma served_guids keys : fst <$> ((fun k => (ck_guid k, ck_reader_name k)) <$> keys) = guids keys.
Proof. unfold guids. now rewrite <- list_fmap_compose. Qed.

Section Pass.
Context {W : Type} (load : W -> W * list CachedKey) (verify : Guid -> W -> W * bool) (walk : gset Guid -> list Guid).

Lemma adopt_in desired candidates : forall w k, In k (adopt verify desired candidates w).2 ->
  In k desired /\ In (ck_guid k) candidates /\ exists w1 w2, verify (ck_guid k) w1 = (w2, true).
Proof.
  induction candidates as [|g candidates IH]; intros w k; cbn [adopt]; [intros []|].
  destruct (verify g w) as [w1 r] eqn:Ev. destruct (adopt verify desired candidates w1) as [w2 rest] eqn:Ea.
  specialize (IH w1 k). rewrite Ea in IH. cbn [snd] in *. destruct r.
  - rewrite in_app_iff. intros [Hk|Hk].
    + apply filter_In in Hk as [Hk Hg]. apply bool_decide_eq_true in Hg. subst g. split; [exact Hk|]. split; [now left|]. eauto.
    + destruct (IH Hk) as (H1 & H2 & H3). split; [exact H1|]. split; [now right|exact H3].
  - intros Hk. destruct (IH Hk) as (H1 & H2 & H3). split; [exact H1|]. split; [now right|exact H3].
Qed.

(** A card not in the load, all of whose keys are on readers that were named, or
    all on readers that were not. *)
Lemma reconcile_absent limit immediate s w g b :
  let m := len (keys_of g (sv_keys s)) in
  let n0 := default 0 (sv_misses s !! g) in
  let s' := (reconcile load verify walk limit immediate s w).1 in
  ~ In g (guids (load w).2) -> (forall k, In k (sv_keys s) -> ck_guid k = g -> bool_decide (ck_reader_name k ∈ immediate) = b) ->
  0 <= n0 -> n0 + m < 2 ^ 32 ->
  let dropped := (0 <? m) && ((if b then 1 else limit) <=? n0 + m) in
  keys_of g (sv_keys s') = (if dropped then [] else keys_of g (sv_keys s)) /\
  sv_misses s' !! g = (if dropped then None else if m =? 0 then sv_misses s !! g else Some (n0 + m)) /\
  (dropped = true -> pc_verified (sv_pins s') !! g = None /\ pc_offered (sv_pins s') = None) /\
  (dropped = false -> pc_verified (sv_pins s') !! g = pc_verified (sv_pins s) !! g).
Proof.
  cbv zeta. intros Hg Hr H0 Hlt. unfold reconcile. destruct (load w) as [w1 desired] eqn:El. cbn [snd] in Hg.
  set (present := list_to_set (guids desired) : gset Guid). set (served := (fun k => (ck_guid k, ck_reader_name k)) <$> sv_keys s).
  assert (Hp : g ∉ present) by (unfold present; rewrite elem_of_list_to_set, list_elem_of_In; exact Hg).
  assert (Hs : forall reader, In (g, reader) served -> bool_decide (reader ∈ immediate) = b).
  { intros reader Hi. unfold served in Hi. apply list_elem_of_In, list_elem_of_fmap in Hi as (k & E & Hk).
    injection E as -> ->. apply Hr; [now apply list_elem_of_In|reflexivity]. }
  pose proof (debounce_absent present immediate limit g b served (sv_misses s) [] Hp Hs H0) as Hd.
  rewrite (served_count g (sv_keys s) : key_count g served = _) in Hd. specialize (Hd Hlt). cbv zeta in Hd.
  destruct (debounce present immediate limit served (sv_misses s) []) as [misses to_drop]. cbn [fst snd] in Hd. destruct Hd as [Hm Hin].
  set (candidates := walk _). pose proof (adopt_in desired candidates w1) as Had.
  destruct (adopt verify desired candidates w1) as [w2 to_adopt]. cbn [snd] in Had.
  pose proof (forget_dropped_spec to_drop (sv_pins s) misses) as Hf. cbv zeta in Hf.
  destruct (forget_dropped to_drop (sv_pins s) misses) as [pins misses']. cbn [fst snd sv_keys sv_misses sv_pins] in *. destruct Hf as (F1 & F2 & F3).
  assert (Hdrop : bool_decide (g ∈ to_drop) = (0 <? len (keys_of g (sv_keys s))) && ((if b then 1 else limit) <=? default 0 (sv_misses s !! g) + len (keys_of g (sv_keys s)))).
  { apply eq_bool_prop_intro. rewrite bool_decide_spec, list_elem_of_In, Hin, andb_True, !Is_true_true, Z.ltb_lt, Z.leb_le. cbn. tauto. }
  assert (Hna : keys_of g to_adopt = []).
  { apply keys_of_nil. unfold guids. rewrite <- list_elem_of_In, list_elem_of_fmap. intros (k & -> & Hk). apply list_elem_of_In, Had in Hk as (Hk & _).
    apply Hg. unfold guids. apply list_elem_of_In, list_elem_of_fmap. exists k. split; [reflexivity|now apply list_elem_of_In]. }
  rewrite keys_of_app, Hna, app_nil_r, keys_of_kept, F1, F2, Hdrop, Hm. split; [reflexivity|]. split; [reflexivity|]. split.
  - intros E. rewrite E. split; [reflexivity|]. apply F3. intros ->. rewrite E in Hdrop. apply bool_decide_eq_true in Hdrop. set_solver.
  - intros E. now rewrite E.
Qed.

(** Passes with no event, the card lock free. *)
Fixpoint passes (n : nat) (limit : Z) (s : Served) (w : W) : Served * W :=
  match n with
  | O => (s, w)
  | S n => let (s, w) := reconcile load verify walk limit ∅ s w in passes n limit s w
  end.

Lemma passes_absent limit g n : forall s w,
  let m := len (keys_of g (sv_keys s)) in
  let n0 := default 0 (sv_misses s !! g) in
  (forall w, ~ In g (guids (load w).2)) -> 0 <= n0 -> n0 + Z.of_nat n * m < 2 ^ 32 -> (0 < m -> n0 < limit) ->
  keys_of g (sv_keys (passes n limit s w).1) = if n0 + Z.of_nat n * m <? limit then keys_of g (sv_keys s) else if m =? 0 then keys_of g (sv_keys s) else [].
Proof.
  induction n as [|n IH]; intros s w; cbv zeta; intros Hg H0 Hlt Hn0.
  { cbn [passes fst]. rewrite Z.add_0_r || idtac. destruct (_ =? 0) eqn:E; [now destruct (_ <? _)|].
    pose proof (len_nonneg (keys_of g (sv_keys s))). bprop. replace (_ <? limit) with true; [reflexivity|]. symmetry. apply Z.ltb_lt. lia. }
  set (m := len (keys_of g (sv_keys s))) in *. set (n0 := default 0 (sv_misses s !! g)) in *.
  assert (Hm : 0 <= m) by apply len_nonneg.
  destruct (reconcile_absent limit ∅ s w g false (Hg w)) as (Hk & Hms & _); [intros; apply bool_decide_eq_false_2; set_solver|exact H0|fold m n0; nia|].
  fold m n0 in Hk, Hms. cbn [passes]. destruct (reconcile load verify walk limit ∅ s w) as [s1 w1]. cbn [fst] in Hk, Hms.
  specialize (IH s1 w1). cbv zeta in IH. rewrite Hk, Hms in IH.
  destruct (0 <? m) eqn:E1; cbn [andb] in *; bprop.
  - destruct (limit <=? n0 + m) eqn:E2; bprop.
    + replace (n0 + Z.of_nat (S n) * m <? limit) with false by (symmetry; apply Z.ltb_ge; nia).
      replace (m =? 0) with false by (symmetry; apply Z.eqb_neq; lia). change (len (@nil CachedKey)) with 0 in IH. cbn [default from_option] in IH.
      specialize (IH Hg). destruct (0 + Z.of_nat n * 0 <? limit) in IH; apply IH; lia.
    + replace (m =? 0) with false in * by (symmetry; apply Z.eqb_neq; lia). cbn [default from_option id] in IH. fold m in IH.
      rewrite IH; [|exact Hg|lia|lia|lia]. replace (m =? 0) with false by (symmetry; apply Z.eqb_neq; lia).
      replace (n0 + m + Z.of_nat n * m) with (n0 + Z.of_nat (S n) * m) by lia. reflexivity.
  - assert (Hm0 : m = 0) by lia. rewrite Hm0 in *. cbn [Z.eqb] in IH. fold m n0 in IH. rewrite Hm0 in IH.
    rewrite IH; [|exact Hg|exact H0|lia|lia]. now destruct (_ <? _), (_ <? _).
Qed.
End Pass.

Section Present.
Context {W : Type} (load : W -> W * list CachedKey) (verify : Guid -> W -> W * bool) (walk : gset Guid -> list Guid).
Context (Hwalk : forall s, walk s ≡ₚ elements s).

(** A card that is in the load keeps what it has, and its misses are forgiven. *)
Lemma reconcile_present limit immediate s w g :
  let s' := (reconcile load verify walk limit immediate s w).1 in
  In g (guids (load w).2) -> In g (guids (sv_keys s)) ->
  keys_of g (sv_keys s') = keys_of g (sv_keys s) /\ sv_misses s' !! g = None /\
  pc_verified (sv_pins s') !! g = pc_verified (sv_pins s) !! g.
Proof.
  cbv zeta. intros Hg Hserved. unfold reconcile. destruct (load w) as [w1 desired] eqn:El. cbn [snd] in Hg.
  set (present := list_to_set (guids desired) : gset Guid). set (served := (fun k => (ck_guid k, ck_reader_name k)) <$> sv_keys s).
  assert (Hp : g ∈ present) by (unfold present; rewrite elem_of_list_to_set, list_elem_of_In; exact Hg).
  pose proof (debounce_present present immediate limit g served (sv_misses s) [] Hp) as Hd. cbv zeta in Hd.
  rewrite (served_count g (sv_keys s) : key_count g served = _) in Hd.
  destruct (debounce present immediate limit served (sv_misses s) []) as [misses to_drop]. cbn [fst snd] in Hd. destruct Hd as [Hm Hin].
  set (candidates := walk _). pose proof (adopt_in verify desired candidates w1) as Had.
  destruct (adopt verify desired candidates w1) as [w2 to_adopt]. cbn [snd] in Had.
  pose proof (forget_dropped_spec to_drop (sv_pins s) misses) as Hf. cbv zeta in Hf.
  destruct (forget_dropped to_drop (sv_pins s) misses) as [pins misses']. cbn [fst snd sv_keys sv_misses sv_pins] in *. destruct Hf as (F1 & F2 & _).
  assert (Hnd : g ∉ to_drop) by (rewrite list_elem_of_In, Hin; auto).
  assert (Hna : keys_of g to_adopt = []).
  { apply keys_of_nil. unfold guids at 1. rewrite <- list_elem_of_In, list_elem_of_fmap. intros (k & -> & Hk). apply list_elem_of_In, Had in Hk as (_ & Hc & _).
    unfold candidates in Hc. rewrite <- list_elem_of_In, Hwalk, elem_of_elements, elem_of_difference, !elem_of_list_to_set in Hc.
    apply (proj2 Hc), list_elem_of_In. exact Hserved. }
  rewrite keys_of_app, Hna, app_nil_r, keys_of_kept, F1, F2, Hm, !(bool_decide_false _ Hnd). split; [reflexivity|]. split; [|reflexivity].
  assert (Hne : keys_of g (sv_keys s) <> []) by (rewrite keys_of_nil; tauto).
  destruct (keys_of g (sv_keys s)) as [|k l]; [congruence|]. rewrite len_cons. pose proof (len_nonneg l).
  replace (1 + len l =? 0) with false by (symmetry; apply Z.eqb_neq; lia). reflexivity.
Qed.

(** Whatever is served after a pass was served before, or was enumerated in this
    pass and answered the probe. *)
Lemma reconcile_served limit immediate s w k :
  In k (sv_keys (reconcile load verify walk limit immediate s w).1) ->
  In k (sv_keys s) \/
  In k (load w).2 /\ ~ In (ck_guid k) (guids (sv_keys s)) /\ exists w1 w2, verify (ck_guid k) w1 = (w2, true).
Proof.
  unfold reconcile. destruct (load w) as [w1 desired] eqn:El.
  destruct (debounce _ immediate limit _ (sv_misses s) []) as [misses to_drop].
  set (candidates := walk _). pose proof (adopt_in verify desired candidates w1) as Had.
  destruct (adopt verify desired candidates w1) as [w2 to_adopt]. cbn [snd] in *.
  destruct (forget_dropped to_drop (sv_pins s) misses) as [pins misses']. cbn [fst sv_keys]. rewrite in_app_iff. intros [Hk|Hk].
  - left. now apply filter_In in Hk as [Hk _].
  - right. destruct (Had _ Hk) as (H1 & Hc & H3). split; [exact H1|]. split; [|exact H3].
    unfold candidates in Hc. rewrite <- list_elem_of_In, Hwalk, elem_of_elements, elem_of_difference, !elem_of_list_to_set, !list_elem_of_In in Hc. tauto.
Qed.
End Present.

(** ** Properties *)

(** What a pass does to a card.  A served card that is there keeps its keys and its PIN; a
    card that is not there loses them together, all its keys at once, and the
    offered PIN with them, when its misses reach the limit, at once when its reader was named; until then it loses nothing.
    Nothing becomes served but the keys of a card that was
    enumerated in the pass, was not served, and answered the probe. *)
Theorem pass_exact {W} (load : W -> W * list CachedKey) verify walk limit immediate s w g :
  (forall s, walk s ≡ₚ elements s) -> 0 <= default 0 (sv_misses s !! g) ->
  let n := default 0 (sv_misses s !! g) + len (keys_of g (sv_keys s)) in
  let s' := (reconcile load verify walk limit immediate s w).1 in
  n < 2 ^ 32 -> In g (guids (sv_keys s)) ->
  (In g (guids (load w).2) ->
     keys_of g (sv_keys s') = keys_of g (sv_keys s) /\ pc_verified (sv_pins s') !! g = pc_verified (sv_pins s) !! g) /\
  (forall named, ~ In g (guids (load w).2) ->
     (forall k, In k (sv_keys s) -> ck_guid k = g -> bool_decide (ck_reader_name k ∈ immediate) = named) ->
     if (if named then 1 else limit) <=? n
     then keys_of g (sv_keys s') = [] /\ pc_verified (sv_pins s') !! g = None /\ pc_offered (sv_pins s') = None
     else keys_of g (sv_keys s') = keys_of g (sv_keys s) /\ pc_verified (sv_pins s') !! g = pc_verified (sv_pins s) !! g) /\
  (forall k, In k (sv_keys s') -> ~ In k (sv_keys s) ->
     In k (load w).2 /\ ~ In (ck_guid k) (guids (sv_keys s)) /\ exists w1 w2, verify (ck_guid k) w1 = (w2, true)).
Proof.
  cbv zeta. intros Hwalk H0 Hlt Hs. split; [|split].
  - intros Hg. destruct (reconcile_present load verify walk Hwalk limit immediate s w g Hg Hs) as (H1 & _ & H3). auto.
  - intros named Hg Hr. destruct (reconcile_absent load verify walk limit immediate s w g named Hg Hr H0 Hlt) as (H1 & _ & H3 & H4).
    assert (Hm : (0 <? len (keys_of g (sv_keys s))) = true).
    { apply Z.ltb_lt. destruct (keys_of g (sv_keys s)) as [|k l] eqn:E; [apply keys_of_nil in E; contradiction|]. rewrite len_cons. pose proof (len_nonneg l). lia. }
    rewrite Hm in *. cbn [andb] in *. destruct (_ <=? _); [destruct (H3 eq_refl); auto|auto].
  - intros k Hk Hn. destruct (reconcile_served load verify walk Hwalk limit immediate s w k Hk) as [?|?]; [contradiction|assumption].
Qed.

(** How long a card may be away.  A card whose [m] keys are served is still served after [n]
    passes that did not see it exactly when [n * m] is below the limit: the misses are counted per key,
    and not, as [reconcile_once] says, per card. *)
Theorem debounce_counts_keys {W} (load : W -> W * list CachedKey) verify walk limit g s w n :
  (forall w, ~ In g (guids (load w).2)) -> sv_misses s !! g = None -> 0 < limit ->
  Z.of_nat n * len (keys_of g (sv_keys s)) < 2 ^ 32 ->
  keys_of g (sv_keys (passes load verify walk n limit s w).1) =
  if Z.of_nat n * len (keys_of g (sv_keys s)) <? limit then keys_of g (sv_keys s) else [].
Proof.
  intros Hg Hm Hl Hlt. pose proof (passes_absent load verify walk limit g n s w) as H. cbv zeta in H. rewrite Hm in H. cbn [default from_option] in H.
  rewrite H; [|exact Hg|lia|exact Hlt|lia]. rewrite Z.add_0_l. destruct (_ <? limit); [reflexivity|].
  destruct (len (keys_of g (sv_keys s)) =? 0) eqn:E; [|reflexivity]. bprop. destruct (keys_of g (sv_keys s)) as [|k l]; [reflexivity|].
  rewrite len_cons in E. pose proof (len_nonneg l). lia.
Qed.

(** ** Witnesses, and what the count means *)

Definition toy_key_of (g slot : Z) : CachedKey := MkCachedKey (MkGuid (repeat g 16)) [g] slot EcP256 (KeyEd25519 []) [].

(** A card with the four slots a card has, and one with a single key. *)
Definition four_slots : list CachedKey := toy_key_of 7 <$> [0x9A; 0x9C; 0x9D; 0x9E].
Definition toy_served (keys : list CachedKey) : Served := MkServed keys (cache_verified (MkGuid (repeat 7 16)) [1; 2] pin_cache_new) ∅.

Definition no_cards (w : unit) : unit * list CachedKey := (w, []).
Definition answers_probe (_ : Guid) (w : unit) : unit * bool := (w, true).

Lemma debounce_counts_keys_witness :
  keys_of (MkGuid (repeat 7 16)) (sv_keys (passes no_cards answers_probe elements 1 PROBE_FAIL_LIMIT (toy_served four_slots) tt).1) = [].
Proof.
  refine (debounce_counts_keys no_cards answers_probe elements PROBE_FAIL_LIMIT (MkGuid (repeat 7 16)) (toy_served four_slots) tt 1 _ _ _ _);
    [intros []; exact (fun H => H)|vm_compute; reflexivity..].
Defined.

(** One transient absence evicts a card with its usual keys, and forgets its PIN; a card with a
    single key has the three passes that the limit promises. *)
Example one_blip_evicts :
  let after n keys := (passes no_cards answers_probe elements n PROBE_FAIL_LIMIT (toy_served keys) tt).1 in
  sv_keys (after 1%nat four_slots) = [] /\ lookup_pin (MkGuid (repeat 7 16)) (sv_pins (after 1%nat four_slots)) = None /\
  sv_keys (after 2%nat [toy_key_of 7 0x9A]) = [toy_key_of 7 0x9A] /\ sv_keys (after 3%nat [toy_key_of 7 0x9A]) = [].
Proof. vm_compute. repeat split; reflexivity. Qed.

(** A wake that finds the card lock taken has used up the names it came with: the
    card that went is debounced as if no event had named its reader. *)
Example event_lost_while_busy :
  let l := MkLoop (toy_served [toy_key_of 7 0x9A]) ∅ false in
  let turn := loop_turn no_cards answers_probe elements PROBE_FAIL_LIMIT in
  let run := foldl (fun l e => (turn e l tt).1) l in
  sv_keys (ls_served (run [WatchSees [[7]]; Notified false])) = [] /\
  sv_keys (ls_served (run [WatchSees [[7]]; Notified true; PollDeadline false; PollDeadline false])) = [toy_key_of 7 0x9A].
Proof. vm_compute. split; reflexivity. Qed.

Lemma pass_exact_witness :
  let s' := (reconcile no_cards answers_probe elements PROBE_FAIL_LIMIT {[ [7] ]} (toy_served [toy_key_of 7 0x9A]) tt).1 in
  keys_of (MkGuid (repeat 7 16)) (sv_keys s') = [] /\ pc_verified (sv_pins s') !! MkGuid (repeat 7 16) = None /\ pc_offered (sv_pins s') = None.
Proof.
  refine (proj1 (proj2 (pass_exact no_cards answers_probe elements PROBE_FAIL_LIMIT {[ [7] ]} (toy_served [toy_key_of 7 0x9A]) tt (MkGuid (repeat 7 16)) _ _ _ _)) true _ _).
  - reflexivity.
  - vm_compute. discriminate.
  - vm_compute. reflexivity.
  - left. reflexivity.
  - intros [].
  - intros k [<-|[]] _. vm_compute. reflexivity.
Defined.
