(* ===== verification/Upstream.v ===== *)
(** * Upstream: the agents behind the agent

    [piggy/src/cmd/agent/upstream.rs]: the pool of SSH agents that requests are
    routed to when no card here has the key.  What an upstream answers is a class;
    whether one of the connections of the pool is free is decided by the other clients.  The tasks that
    contact all upstreams at once touch one upstream each, so they are run in
    configured order. *)

From Stdlib Require Import ZArith Lia String.
From stdpp Require Import base tactics list numbers gmap strings.
From S2P Require Import Prelude PivError Text Slot SigFormat.

Local Open Scope Z_scope.

#[export] Instance KeyData_eq_dec : EqDecision KeyData.
Proof. assert (EqDecision EcdsaPublicKey) by solve_decision. solve_decision. Defined.

#[export] Instance KeyData_countable : Countable KeyData.
Proof.
  refine (inj_countable'
    (fun k => match k with
              | KeyRsa e n => inl (inl (e, n)) | KeyEd25519 b => inl (inr (0%nat, b)) | KeyEcdsa (NistP256 b) => inl (inr (1%nat, b))
              | KeyEcdsa (NistP384 b) => inl (inr (2%nat, b)) | KeyEcdsa (NistP521 b) => inl (inr (3%nat, b)) | KeyOther s => inr s
              end)
    (fun c => match c with
              | inl (inl (e, n)) => KeyRsa e n | inl (inr (0%nat, b)) => KeyEd25519 b | inl (inr (1%nat, b)) => KeyEcdsa (NistP256 b)
              | inl (inr (2%nat, b)) => KeyEcdsa (NistP384 b) | inl (inr (_, b)) => KeyEcdsa (NistP521 b) | inr s => KeyOther s
              end) _).
  now intros [| |[]|].
Defined.

(** ** Messages of the agent protocol *)

Record Identity := MkIdentity { id_pubkey : KeyData; id_comment : bytes }.
Record SignRequest := MkSignRequest { sr_pubkey : KeyData; sr_data : bytes; sr_flags : Z }.
Record Extension := MkExtension { ext_name : bytes; ext_details : bytes }.

(** The texts of [AgentError::Other]. *)
Inductive PoolMsg : Type :=
| NoFreeConnection (name : bytes)
| ConnectTimedOut (name : bytes)
| IdentitiesTimedOut
| NoUpstreamHasKey
| SignTimedOut (name : bytes)
| ExtensionTimedOut (name : bytes)
| LockTimedOut (name : bytes)
| AddTimedOut (name : bytes)
| NoAddTarget.

(** [ssh_agent_lib::error::AgentError]; [M] are the texts that only the session
    has. *)
Inductive AgentError (M : Type) : Type :=
| AgentIo
| AgentProtoIo
| AgentProto (what : bytes)
| AgentFailure
| UnsupportedCommand (command : Z)
| PoolError (m : PoolMsg)
| OtherError (m : M).
Arguments AgentIo {M}.
Arguments AgentProtoIo {M}.
Arguments AgentProto {M} what.
Arguments AgentFailure {M}.
Arguments UnsupportedCommand {M} command.
Arguments PoolError {M} m.
Arguments OtherError {M} m.

Definition is_transport_failure {M} (e : AgentError M) : bool :=
  match e with AgentIo | AgentProtoIo => true | _ => false end.

(** A request under a time limit. *)
Inductive Timed (A : Type) : Type := InTime (a : A) | TimedOut.
Arguments InTime {A} a.
Arguments TimedOut {A}.

(** An agent at the other end of a socket.  [A] is its state. *)
Class UpstreamAgent (M A : Type) := {
  peer_connect : A -> A * Timed (res (AgentError M) unit);
  peer_identities : A -> A * Timed (res (AgentError M) (list Identity));
  peer_sign : SignRequest -> A -> A * Timed (res (AgentError M) Signature);
  peer_extension : Extension -> A -> A * Timed (res (AgentError M) (option Extension));
  (** the same with a limit of its own *)
  peer_extension_wait : Extension -> A -> A * Timed (res (AgentError M) (option Extension));
  peer_lock : bool -> bytes -> A -> A * Timed (res (AgentError M) unit);
  peer_add_identity : bool -> bytes -> A -> A * Timed (res (AgentError M) unit);
}.

(** ** Configuration *)

Record Upstream := MkUpstream { up_name : bytes; up_path : bytes }.

Inductive SpecError : Type := NoEquals | EmptyName | EmptyPath | DuplicateName (name : bytes).

Definition EQUALS : Z := 61.

(** [spec.split_once('=')] *)
Definition parse_upstream_spec (spec : bytes) : res SpecError Upstream :=
  match split_once [EQUALS] spec with
  | None => Err NoEquals
  | Some (name, path) =>
      match name, path with
      | [], _ => Err EmptyName
      | _, [] => Err EmptyPath
      | _, _ => Ok (MkUpstream name path)
      end
  end.

Fixpoint parse_specs_onto (upstreams : list Upstream) (specs : list bytes) : res SpecError (list Upstream) :=
  match specs with
  | [] => Ok upstreams
  | spec :: specs =>
      let* up := parse_upstream_spec spec in
      if existsb (fun u => bytes_eqb (up_name u) (up_name up)) upstreams then Err (DuplicateName (up_name up))
      else parse_specs_onto (upstreams ++ [up]) specs
  end.

Definition parse_upstream_specs (specs : list bytes) : res SpecError (list Upstream) := parse_specs_onto [] specs.

(** ** The pool *)

Record UpstreamState := MkUpstreamState { us_reachable : option bool; us_since : option Z }.

(** [UpstreamState::record] *)
Definition record_state (now : Z) (reachable : bool) (s : UpstreamState) : UpstreamState :=
  if bool_decide (us_reachable s = Some reachable) then s else MkUpstreamState (Some reachable) (Some now).

Definition MAX_REDIAL_BACKOFF : Z := 1000.
Definition FIRST_BACKOFF : Z := 100.

Section Pool.
Context {M A : Type} `{UpstreamAgent M A}.

(** Each upstream with the agent at its socket and what the pool last saw of it
    ([states], found by name: the names are unique). *)
Record PoolLink := MkPoolLink { ln_upstream : Upstream; ln_agent : A; ln_state : UpstreamState }.

Record UpstreamPool := MkPool {
  pl_links : list PoolLink;
  pl_outage_grace : Z;
  pl_known_keys : gmap KeyData nat;
  pl_add_new_keys_to : option nat;
  pl_now : Z;
}.

Definition pool_is_empty (p : UpstreamPool) : bool := match pl_links p with [] => true | _ => false end.

Definition set_links (links : list PoolLink) (p : UpstreamPool) : UpstreamPool :=
  MkPool links (pl_outage_grace p) (pl_known_keys p) (pl_add_new_keys_to p) (pl_now p).
Definition set_known (known : gmap KeyData nat) (p : UpstreamPool) : UpstreamPool :=
  MkPool (pl_links p) (pl_outage_grace p) known (pl_add_new_keys_to p) (pl_now p).
Definition set_now (now : Z) (p : UpstreamPool) : UpstreamPool :=
  MkPool (pl_links p) (pl_outage_grace p) (pl_known_keys p) (pl_add_new_keys_to p) now.

Definition with_add_new_keys_to (name : bytes) (p : UpstreamPool) : option UpstreamPool :=
  match position (fun l => bytes_eqb (up_name (ln_upstream l)) name) (pl_links p) with
  | Some idx => Some (MkPool (pl_links p) (pl_outage_grace p) (pl_known_keys p) (Some idx) (pl_now p))
  | None => None
  end.

Definition record (now : Z) (reachable : bool) (l : PoolLink) : PoolLink :=
  MkPoolLink (ln_upstream l) (ln_agent l) (record_state now reachable (ln_state l)).
Definition with_agent (a : A) (l : PoolLink) : PoolLink := MkPoolLink (ln_upstream l) a (ln_state l).

(** Whether one of the pool's connections is free when an upstream is dialled. *)
Context (free_permit : Z -> Upstream -> bool).

(** [connect]: a connection if one is free, within the time limit. *)
Definition connect (now : Z) (l : PoolLink) : PoolLink * res (AgentError M) unit :=
  if negb (free_permit now (ln_upstream l)) then (l, Err (PoolError (NoFreeConnection (up_name (ln_upstream l)))))
  else
    let (a, r) := peer_connect (ln_agent l) in
    (with_agent a l, match r with
                     | TimedOut => Err (PoolError (ConnectTimedOut (up_name (ln_upstream l))))
                     | InTime (Ok _) => Ok tt
                     | InTime (Err _) => Err AgentIo
                     | InTime Panic => Panic
                     end).

(** A request on a connection of its own. *)
Definition ask {R} (now : Z) (l : PoolLink) (request : A -> A * Timed (res (AgentError M) R)) (late : PoolMsg) : PoolLink * res (AgentError M) R :=
  let (l, c) := connect now l in
  match c with
  | Err e => (l, Err e)
  | Panic => (l, Panic)
  | Ok _ =>
      let (a, r) := request (ln_agent l) in
      (with_agent a l, match r with TimedOut => Err (PoolError late) | InTime r => r end)
  end.

Definition list_one_upstream (now : Z) (l : PoolLink) : PoolLink * res (AgentError M) (list Identity) :=
  let (l, listed) := ask now l peer_identities IdentitiesTimedOut in
  (record now (is_ok listed) l, listed).

Definition extension_on (request : Extension) (now : Z) (l : PoolLink) : PoolLink * res (AgentError M) (option Extension) :=
  ask now l (peer_extension request) (ExtensionTimedOut (up_name (ln_upstream l))).

Definition lock_on (key : bytes) (locked : bool) (now : Z) (l : PoolLink) : PoolLink * res (AgentError M) unit :=
  ask now l (peer_lock locked key) (LockTimedOut (up_name (ln_upstream l))).

(** [for_each_upstream_parallel]: the results are in configured order. *)
Definition for_each_upstream {R} (f : Z -> PoolLink -> PoolLink * R) (p : UpstreamPool) : UpstreamPool * list R :=
  let done := f (pl_now p) <$> pl_links p in
  (set_links (fst <$> done) p, snd <$> done).

Definition list_all_upstreams (p : UpstreamPool) : UpstreamPool * list (res (AgentError M) (list Identity)) :=
  for_each_upstream list_one_upstream p.

(** The identities an upstream adds to those before it. *)
Fixpoint merge_one (idx : nat) (ids : list Identity) (known : gmap KeyData nat) (identities : list Identity)
    : gmap KeyData nat * list Identity :=
  match ids with
  | [] => (known, identities)
  | id :: ids =>
      if bool_decide (is_Some (known !! id_pubkey id)) then merge_one idx ids known identities
      else merge_one idx ids (<[id_pubkey id := idx]> known) (identities ++ [id])
  end.

Fixpoint merge (idx : nat) (listed : list (res (AgentError M) (list Identity))) (known : gmap KeyData nat) (identities : list Identity)
    : gmap KeyData nat * list Identity :=
  match listed with
  | [] => (known, identities)
  | Ok ids :: listed => let (known, identities) := merge_one idx ids known identities in merge (S idx) listed known identities
  | _ :: listed => merge (S idx) listed known identities
  end.

Definition error_of {R} (r : res (AgentError M) R) : option (AgentError M) := match r with Err e => Some e | _ => None end.

(** [list_once]; the failures when every upstream failed. *)
Definition list_once (p : UpstreamPool) : UpstreamPool * list Identity * option (list (bytes * AgentError M)) :=
  let (p, listed) := list_all_upstreams p in
  let failures := omap (fun '(r, l) => e ← error_of r; Some (up_name (ln_upstream l), e)) (zip listed (pl_links p)) in
  let all_failed := negb (len listed =? 0) && (len failures =? len listed) in
  let (known, identities) := merge 0 listed ∅ [] in
  (set_known known p, identities, if all_failed then Some failures else None).

Definition list_identities (p : UpstreamPool) : UpstreamPool * list Identity :=
  let '(p, identities, _) := list_once p in (p, identities).

(** The redial loop; [None] when it has not ended within the fuel.  [took] is the time the
    listing takes. *)
Context (took : Z -> Z).

Fixpoint redial (fuel : nat) (deadline backoff : Z) (p : UpstreamPool)
    : option (UpstreamPool * res (list (bytes * AgentError M)) (list Identity)) :=
  match fuel with
  | O => None
  | S fuel =>
      let '(p, identities, failures) := list_once p in
      match failures with
      | None => Some (p, Ok identities)
      | Some failures =>
          let now := pl_now p + took (pl_now p) in
          if deadline <=? now then Some (set_now now p, Err failures)
          else redial fuel deadline (Z.min (backoff * 2) MAX_REDIAL_BACKOFF) (set_now (now + Z.min backoff (deadline - now)) p)
      end
  end.

Definition list_identities_or_outage (fuel : nat) (p : UpstreamPool) :=
  redial fuel (pl_now p + pl_outage_grace p) FIRST_BACKOFF p.

(** A task for one upstream. *)
Definition on_upstream {R} (idx : nat) (f : Z -> PoolLink -> PoolLink * res (AgentError M) R) (p : UpstreamPool) : UpstreamPool * res (AgentError M) R :=
  match pl_links p !! idx with
  | None => (p, Panic)
  | Some l => let (l, r) := f (pl_now p) l in (set_links (<[idx := l]> (pl_links p)) p, r)
  end.

(** [sign_on]; an error with whether a redial may cure it. *)
Definition sign_on (request : SignRequest) (now : Z) (l : PoolLink) : PoolLink * res (AgentError M) (Signature + AgentError M * bool) :=
  let (l, c) := connect now l in
  match c with
  | Err e => (record now false l, Ok (inr (e, true)))
  | Panic => (l, Panic)
  | Ok _ =>
      let (a, r) := peer_sign request (ln_agent l) in
      let l := with_agent a l in
      match r with
      | InTime (Ok signature) => (record now true l, Ok (inl signature))
      | InTime (Err e) => (record now (negb (is_transport_failure e)) l, Ok (inr (e, is_transport_failure e)))
      | InTime Panic => (l, Panic)
      | TimedOut => (l, Ok (inr (PoolError (SignTimedOut (up_name (ln_upstream l))), false)))
      end
  end.

(** The owner of a key, after one listing if it is not known. *)
Definition find_owner (k : KeyData) (p : UpstreamPool) : UpstreamPool * option nat :=
  match pl_known_keys p !! k with
  | Some idx => (p, Some idx)
  | None => let (p, _) := list_identities p in (p, pl_known_keys p !! k)
  end.

(** [UpstreamPool::sign] *)
Definition pool_sign (request : SignRequest) (p : UpstreamPool) : UpstreamPool * res (AgentError M) Signature :=
  let (p, idx) := find_owner (sr_pubkey request) p in
  match idx with
  | None => (p, Err (PoolError NoUpstreamHasKey))
  | Some idx =>
      let (p, answered) := on_upstream idx (sign_on request) p in
      match answered with
      | Ok (inl signature) => (p, Ok signature)
      | Ok (inr (e, false)) => (p, Err e)
      | Ok (inr (e, true)) =>
          let (p, _) := list_identities p in
          match pl_known_keys p !! sr_pubkey request with
          | None => (p, Err e)
          | Some idx =>
              let (p, answered) := on_upstream idx (sign_on request) p in
              (p, match answered with
                  | Ok (inl signature) => Ok signature
                  | Ok (inr (e, _)) => Err e
                  | Err e => Err e
                  | Panic => Panic
                  end)
          end
      | Err e => (p, Err e)
      | Panic => (p, Panic)
      end
  end.

(** No answer at all, or whatever the upstream answered. *)
Definition forward_extension_for_key (k : KeyData) (request : Extension) (p : UpstreamPool)
    : UpstreamPool * option (res (AgentError M) (option Extension) + AgentError M) :=
  let (p, idx) := find_owner k p in
  match idx with
  | None => (p, None)
  | Some idx =>
      match pl_links p !! idx with
      | None => (p, Some (inl Panic))
      | Some l =>
          let (l, c) := connect (pl_now p) l in
          match c with
          | Err e => (set_links (<[idx := l]> (pl_links p)) p, Some (inr e))
          | Panic => (set_links (<[idx := l]> (pl_links p)) p, Some (inl Panic))
          | Ok _ =>
              let (a, r) := peer_extension_wait request (ln_agent l) in
              (set_links (<[idx := with_agent a l]> (pl_links p)) p,
               Some (match r with
                     | InTime answer => inl answer
                     | TimedOut => inr (PoolError (ExtensionTimedOut (up_name (ln_upstream l))))
                     end))
          end
      end
  end.

(** The first success, in configured order. *)
Fixpoint first_success (request : Extension) (now : Z) (links : list PoolLink) : list PoolLink * res (AgentError M) (option Extension) :=
  match links with
  | [] => ([], Err AgentFailure)
  | l :: links =>
      let (l, r) := extension_on request now l in
      match r with
      | Ok v => (l :: links, Ok v)
      | Panic => (l :: links, Panic)
      | Err _ => let (links, r) := first_success request now links in (l :: links, r)
      end
  end.

Definition forward_extension (request : Extension) (p : UpstreamPool) : UpstreamPool * res (AgentError M) (option Extension) :=
  let (links, r) := first_success request (pl_now p) (pl_links p) in (set_links links p, r).

(** [QueryResponse], parsed by ssh-agent-lib: [None] is another extension or an error. *)
Context (parse_query_response : Extension -> option (list bytes)).

Definition query_extension_names (request : Extension) (p : UpstreamPool) : UpstreamPool * list bytes :=
  let (p, answers) := for_each_upstream (extension_on request) p in
  (p, mbind (fun r => match r with Ok (Some ext) => default [] (parse_query_response ext) | _ => [] end) answers).

Definition fan_out_extension (request : Extension) (p : UpstreamPool) : UpstreamPool :=
  (for_each_upstream (extension_on request) p).1.

Definition lock_fan_out (key : bytes) (locked : bool) (p : UpstreamPool) : UpstreamPool :=
  (for_each_upstream (lock_on key locked) p).1.
Definition lock_all (key : bytes) (p : UpstreamPool) : UpstreamPool := lock_fan_out key true p.
Definition unlock_all (key : bytes) (p : UpstreamPool) : UpstreamPool := lock_fan_out key false p.

(** [add_identity], and with constraints; the identity is opaque. *)
Definition pool_add_identity (constrained : bool) (identity : bytes) (p : UpstreamPool) : UpstreamPool * res (AgentError M) unit :=
  match pl_add_new_keys_to p with
  | None => (p, Err (PoolError NoAddTarget))
  | Some idx =>
      on_upstream idx (fun now l => ask now l (peer_add_identity constrained identity) (AddTimedOut (up_name (ln_upstream l)))) p
  end.

Record UpstreamStatus := MkStatus {
  st_name : bytes; st_reachable : bool; st_keys : Z; st_since : option Z; st_last_error : option (AgentError M)
}.

Definition pool_status (p : UpstreamPool) : UpstreamPool * list UpstreamStatus :=
  let (p, listed) := list_all_upstreams p in
  (p, zip_with (fun r l => MkStatus (up_name (ln_upstream l)) (is_ok r) (match r with Ok ids => len ids | _ => 0 end)
                             (us_since (ln_state l)) (error_of r)) listed (pl_links p)).
End Pool.
Arguments PoolLink A : clear implicits.
Arguments UpstreamPool A : clear implicits.

(** ** Lemmas *)

Section Facts.
Context {M A : Type} `{UpstreamAgent M A} (free_permit : Z -> Upstream -> bool) (took : Z -> Z).
Implicit Type p : UpstreamPool A.

(** What upstream [i] answers to a listing that the pool makes now. *)
Definition listed_by (p : UpstreamPool A) (i : nat) : option (list KeyData) :=
  l ← pl_links p !! i;
  match (list_one_upstream free_permit (pl_now p) l).2 with Ok ids => Some (id_pubkey <$> ids) | _ => None end.

(** *** The merge *)

Lemma merge_one_spec idx ids : forall known identities,
  let r := merge_one idx ids known identities in
  (forall k, r.1 !! k = match known !! k with Some i => Some i | None => if bool_decide (k ∈ id_pubkey <$> ids) then Some idx else None end) /\
  (exists new, r.2 = identities ++ new /\ (forall id, id ∈ new -> id ∈ ids) /\ NoDup (id_pubkey <$> new) /\
     forall k, k ∈ id_pubkey <$> new <-> known !! k = None /\ k ∈ id_pubkey <$> ids).
Proof.
  induction ids as [|id ids IH]; intros known identities; cbn [merge_one].
  - cbn. split; [intros k; rewrite bool_decide_false by apply not_elem_of_nil; now destruct (known !! k)|]. exists []. cbn. rewrite app_nil_r.
    split; [reflexivity|]. split; [auto|]. split; [constructor|]. intros k. split; [intros Hk; now apply not_elem_of_nil in Hk|intros [_ Hk]; now apply not_elem_of_nil in Hk].
  - rewrite fmap_cons. case_bool_decide as Hk.
    + destruct (IH known identities) as (H1 & new & H2 & H3 & H4 & H5). cbv zeta in *. split.
      * intros k. rewrite H1. destruct (known !! k) eqn:E; [reflexivity|]. erewrite bool_decide_ext; [reflexivity|].
        rewrite elem_of_cons. split; [tauto|]. intros [->|?]; [|assumption]. rewrite E in Hk. destruct Hk as [? [=]].
      * exists new. split; [exact H2|]. split; [intros x Hx; right; auto|]. split; [exact H4|]. intros k. rewrite H5, elem_of_cons. split; [tauto|].
        intros [Hn [->|Hi]]; [|auto]. rewrite Hn in Hk. destruct Hk as [? [=]].
    + assert (Hn : known !! id_pubkey id = None) by (destruct (known !! id_pubkey id); [destruct Hk; eauto|reflexivity]).
      destruct (IH (<[id_pubkey id := idx]> known) (identities ++ [id])) as (H1 & new & H2 & H3 & H4 & H5). cbv zeta in *. split.
      * intros k. rewrite H1. destruct (decide (id_pubkey id = k)) as [<-|Hne].
        { rewrite lookup_insert_eq, Hn, bool_decide_true by apply list_elem_of_here. reflexivity. }
        rewrite lookup_insert_ne by assumption. destruct (known !! k); [reflexivity|]. erewrite bool_decide_ext; [reflexivity|].
        rewrite elem_of_cons. intuition congruence.
      * exists (id :: new). rewrite <- app_assoc in H2. split; [exact H2|]. split; [intros x Hx; apply elem_of_cons in Hx as [->|Hx]; [left|right; auto]|].
        rewrite fmap_cons. split.
        { constructor; [|exact H4]. rewrite H5, lookup_insert_eq. intros [[=] _]. }
        intros k. rewrite !elem_of_cons, H5. destruct (decide (id_pubkey id = k)) as [<-|Hne].
        { rewrite lookup_insert_eq. intuition. }
        rewrite lookup_insert_ne by assumption. intuition congruence.
Qed.

(** The first answer, from [idx] on, that lists the key. *)
Definition first_lists (idx : nat) (listed : list (res (AgentError M) (list Identity))) (k : KeyData) (i : nat) : Prop :=
  exists j ids, i = (idx + j)%nat /\ listed !! j = Some (Ok ids) /\ k ∈ id_pubkey <$> ids /\
    forall j' ids', (j' < j)%nat -> listed !! j' = Some (Ok ids') -> k ∉ id_pubkey <$> ids'.

Lemma first_lists_cons idx r listed k i :
  first_lists idx (r :: listed) k i <->
  (exists ids, r = Ok ids /\ k ∈ id_pubkey <$> ids /\ i = idx) \/
  (forall ids, r = Ok ids -> k ∉ id_pubkey <$> ids) /\ first_lists (S idx) listed k i.
Proof.
  split.
  - intros (j & ids & -> & Hj & Hk & Hb). destruct j as [|j].
    + left. injection Hj as ->. exists ids. repeat split; [exact Hk|lia].
    + right. split; [intros ids' ->; exact (Hb 0%nat ids' ltac:(lia) eq_refl)|]. exists j, ids. split; [lia|]. split; [exact Hj|]. split; [exact Hk|].
      intros j' ids' Hl Hj'. exact (Hb (S j') ids' ltac:(lia) Hj').
  - intros [(ids & -> & Hk & ->)|[Hr (j & ids & -> & Hj & Hk & Hb)]].
    + exists 0%nat, ids. split; [lia|]. split; [reflexivity|]. split; [exact Hk|]. intros j' ids' Hl. lia.
    + exists (S j), ids. split; [lia|]. split; [exact Hj|]. split; [exact Hk|]. intros [|j'] ids' Hl Hj'; [injection Hj' as ->; now apply Hr|].
      exact (Hb j' ids' ltac:(lia) Hj').
Qed.

Lemma merge_spec listed : forall idx known identities,
  let r := merge idx listed known identities in
  (forall k i, r.1 !! k = Some i <-> known !! k = Some i \/ known !! k = None /\ first_lists idx listed k i) /\
  (exists new, r.2 = identities ++ new /\ NoDup (id_pubkey <$> new) /\
     forall k, k ∈ id_pubkey <$> new <-> known !! k = None /\ is_Some (r.1 !! k)).
Proof.
  induction listed as [|r listed IH]; intros idx known identities; cbn [merge].
  - cbn. split.
    + intros k i. split; [auto|]. intros [?|[_ (j & ids & _ & [=] & _)]]; assumption.
    + exists []. rewrite app_nil_r. split; [reflexivity|]. split; [constructor|]. intros k.
      split; [intros Hk; now apply not_elem_of_nil in Hk|intros [-> [? [=]]]].
  - assert (Hskip : (forall ids, r <> Ok ids) ->
      let r0 := merge (S idx) listed known identities in
      (forall k i, r0.1 !! k = Some i <-> known !! k = Some i \/ known !! k = None /\ first_lists idx (r :: listed) k i) /\
      (exists new, r0.2 = identities ++ new /\ NoDup (id_pubkey <$> new) /\
         forall k, k ∈ id_pubkey <$> new <-> known !! k = None /\ is_Some (r0.1 !! k))).
    { intros Hr. destruct (IH (S idx) known identities) as [H1 H2]. cbv zeta in *. split; [|exact H2]. intros k i. rewrite H1, first_lists_cons.
      split; (intros [?|[? Hf]]; [auto|right; split; [assumption|]]).
      - right. split; [intros ids E; now apply Hr in E|exact Hf].
      - destruct Hf as [(ids & E & _)|[_ Hf]]; [now apply Hr in E|exact Hf]. }
    destruct r as [ids|e|]; [|apply Hskip; discriminate..].
    destruct (merge_one_spec idx ids known identities) as (O1 & new1 & O2 & _ & O4 & O5). cbv zeta in *.
    destruct (merge_one idx ids known identities) as [known1 ids1]. cbn [fst snd] in *. subst ids1.
    destruct (IH (S idx) known1 (identities ++ new1)) as (H1 & new & H2 & H3 & H4). cbv zeta in *. split.
    + intros k i. rewrite H1, !O1, first_lists_cons. destruct (known !! k) as [i0|] eqn:Ek.
      * split; [intros [?|[[=] _]]; auto|intros [?|[[=] _]]; auto].
      * case_bool_decide as Hk.
        { split; [intros [[= <-]|[[=] _]]; right; split; [reflexivity|]; left; eauto|].
          intros [[=]|[_ [(ids0 & [= <-] & _ & ->)|[Hn _]]]]; [auto|]. now destruct (Hn ids eq_refl). }
        { split; [intros [[=]|[_ Hf]]; right; split; [reflexivity|]; right; split; [intros ids0 [= <-]; exact Hk|exact Hf]|].
          intros [[=]|[_ [(ids0 & [= <-] & Hk' & _)|[_ Hf]]]]; [contradiction|]. auto. }
    + exists (new1 ++ new). rewrite <- app_assoc in H2. split; [exact H2|]. rewrite fmap_app. split.
      { apply NoDup_app. split; [exact O4|]. split; [|exact H3]. intros k Hk1 Hk2. apply O5 in Hk1 as [Hn Hk1]. apply H4 in Hk2 as [Hk2 _].
        rewrite O1, Hn, bool_decide_true in Hk2 by assumption. discriminate. }
      intros k. rewrite elem_of_app, O5, H4. assert (Hc : is_Some ((merge (S idx) listed known1 (identities ++ new1)).1 !! k) <->
        known1 !! k <> None \/ exists i, known1 !! k = None /\ first_lists (S idx) listed k i).
      { split; [intros [i Hi]; apply H1 in Hi as [Hi|[Hi Hf]]; [left; congruence|right; eauto]|].
        intros [Hn|(i & Hn & Hf)]; [destruct (known1 !! k) as [i|] eqn:E; [|congruence]|]; exists i; apply H1; auto. }
      rewrite Hc, !O1. destruct (known !! k) as [i0|] eqn:Ek; [|case_bool_decide as Hk].
      * split; [intros [[[=] _]|[[=] _]]|intros [[=] _]].
      * split; [intros _; split; [reflexivity|left; discriminate]|intros _; left; auto].
      * split; [intros [[_ ?]|[_ ?]]; [contradiction|split; [reflexivity|assumption]]|intros [_ ?]; right; auto].
Qed.

(** A listing, in terms of what the upstreams answer. *)
Lemma list_once_spec p :
  let '(p', identities, _) := list_once free_permit p in
  (forall k i, pl_known_keys p' !! k = Some i <->
     (exists keys, listed_by p i = Some keys /\ k ∈ keys) /\ forall j keys, (j < i)%nat -> listed_by p j = Some keys -> k ∉ keys) /\
  NoDup (id_pubkey <$> identities) /\ (forall k, k ∈ id_pubkey <$> identities <-> is_Some (pl_known_keys p' !! k)) /\
  ln_upstream <$> pl_links p' = ln_upstream <$> pl_links p.
Proof.
  unfold list_once, list_all_upstreams, for_each_upstream. set (done := list_one_upstream free_permit (pl_now p) <$> pl_links p).
  pose proof (merge_spec (snd <$> done) 0 ∅ []) as Hm. cbv zeta in Hm. destruct (merge 0 (snd <$> done) ∅ []) as [known identities].
  cbn [fst snd app pl_known_keys set_known set_links pl_links] in *. destruct Hm as (H1 & new & -> & H3 & H4).
  assert (Hl : forall i ids, (snd <$> done) !! i = Some (Ok ids) -> listed_by p i = Some (id_pubkey <$> ids)).
  { intros i ids Hi. unfold listed_by, done in *. rewrite !list_lookup_fmap in Hi. destruct (pl_links p !! i) as [l|]; [|discriminate].
    cbn in Hi. injection Hi as Hi. cbn. now rewrite Hi. }
  assert (Hl' : forall i keys, listed_by p i = Some keys -> exists ids, (snd <$> done) !! i = Some (Ok ids) /\ keys = id_pubkey <$> ids).
  { intros i keys Hi. unfold listed_by, done in *. rewrite !list_lookup_fmap. destruct (pl_links p !! i) as [l|]; [|discriminate]. cbn in *.
    destruct (list_one_upstream free_permit (pl_now p) l).2 as [ids|e|]; try discriminate. injection Hi as <-. eauto. }
  split; [|split; [exact H3|split]].
  - intros k i. rewrite H1, lookup_empty. split.
    + intros [[=]|[_ (j & ids & -> & Hj & Hk & Hb)]]. cbn. split; [exists (id_pubkey <$> ids); auto|].
      intros j' keys Hlt Hj'. apply Hl' in Hj' as (ids' & Hj' & ->). exact (Hb j' ids' Hlt Hj').
    + intros [(keys & Hi & Hk) Hb]. right. split; [reflexivity|]. apply Hl' in Hi as (ids & Hi & ->). exists i, ids. split; [lia|]. split; [exact Hi|].
      split; [exact Hk|]. intros j' ids' Hlt Hj'. exact (Hb j' _ Hlt (Hl _ _ Hj')).
  - intros k. rewrite H4, lookup_empty. tauto.
  - unfold done. rewrite <- !list_fmap_compose. apply list_fmap_ext. intros i l _. cbn. unfold list_one_upstream, ask, connect.
    destruct (free_permit (pl_now p) (ln_upstream l)); [|reflexivity]. cbn [negb]. destruct (peer_connect (ln_agent l)) as [a r]. destruct r as [[u|e|]|]; try reflexivity.
    cbn [with_agent ln_agent]. destruct (peer_identities a) as [a' r']. reflexivity.
Qed.

(** *** The redial *)

Lemma redial_ends fuel : forall deadline backoff p,
  (forall t, 0 <= took t) -> FIRST_BACKOFF <= backoff -> deadline - pl_now p <= (Z.of_nat fuel - 1) * FIRST_BACKOFF -> (1 <= fuel)%nat ->
  exists r, redial free_permit took fuel deadline backoff p = Some r.
Proof.
  induction fuel as [|fuel IH]; intros deadline backoff p Ht Hb Hd Hf; [lia|]. cbn [redial].
  destruct (list_once free_permit p) as [[p1 ids] failures] eqn:El. destruct failures as [failures|]; [|eauto].
  assert (Hnow : pl_now p1 = pl_now p).
  { revert El. unfold list_once, list_all_upstreams, for_each_upstream. destruct (merge _ _ _ _) as [known identities]. intros [= <- _ _]. reflexivity. }
  rewrite Hnow. specialize (Ht (pl_now p)) as Ht0. destruct (deadline <=? pl_now p + took (pl_now p)) eqn:E; [eauto|]. bprop.
  unfold FIRST_BACKOFF, MAX_REDIAL_BACKOFF in *. apply IH; [exact Ht|lia|cbn [set_now pl_now]; lia|lia].
Qed.

(** *** One answer *)

(** What a try to sign gave that the pool returns as it is: a signature, or an error that a redial does not cure. *)
Definition final_answer (r : res (AgentError M) (Signature + AgentError M * bool)) : option (res (AgentError M) Signature) :=
  match r with
  | Ok (inl signature) => Some (Ok signature)
  | Ok (inr (e, false)) => Some (Err e)
  | Ok (inr (_, true)) => None
  | Err e => Some (Err e)
  | Panic => Some Panic
  end.

Lemma pool_sign_known request p idx l answer :
  pl_known_keys p !! sr_pubkey request = Some idx -> pl_links p !! idx = Some l ->
  final_answer (sign_on free_permit request (pl_now p) l).2 = Some answer ->
  pool_sign free_permit request p = (set_links (<[idx := (sign_on free_permit request (pl_now p) l).1]> (pl_links p)) p, answer).
Proof.
  intros Hk Hl Ha. unfold pool_sign, find_owner, on_upstream. rewrite Hk, Hl. destruct (sign_on free_permit request (pl_now p) l) as [l' r]. cbn in *.
  destruct r as [[?|[e []]]|e|]; try discriminate; injection Ha as <-; reflexivity.
Qed.

Lemma first_success_spec request now links :
  let '(links', r) := first_success free_permit request now links in
  (r = Err AgentFailure /\ Forall (fun l => is_ok (extension_on free_permit request now l).2 = false) links /\
     links' = fst ∘ extension_on free_permit request now <$> links) \/
  exists before l after, links = before ++ l :: after /\
    Forall (fun l => is_ok (extension_on free_permit request now l).2 = false) before /\ r = (extension_on free_permit request now l).2 /\
    (forall e, r <> Err e) /\
    links' = (fst ∘ extension_on free_permit request now <$> before) ++ (extension_on free_permit request now l).1 :: after.
Proof.
  induction links as [|l links IH]; cbn [first_success]; [left; auto|].
  destruct (extension_on free_permit request now l) as [l' r] eqn:E. destruct r as [v|e|].
  - right. exists [], l, links. rewrite E. cbn. repeat split; auto; discriminate.
  - destruct (first_success free_permit request now links) as [links' r']. destruct IH as [(-> & Hf & ->)|(before & x & after & -> & Hf & -> & Hn & ->)].
    + left. cbn. rewrite E. split; [reflexivity|]. split; [constructor; [now rewrite E|exact Hf]|reflexivity].
    + right. exists (l :: before), x, after. cbn. rewrite E. repeat split; auto. constructor; [now rewrite E|exact Hf].
  - right. exists [], l, links. rewrite E. cbn. repeat split; auto; discriminate.
Qed.
End Facts.

(** ** Properties *)

Section Properties.
Context {M A : Type} `{UpstreamAgent M A}.

(** A listing of the identities contacts the same upstreams in the
    same order, and returns each key once; the keys it returns are the
    ones that the routing table then knows, and the table sends a key to the first upstream, in
    configured order, whose listing has it: an upstream that failed or was late
    takes no key from the others. *)
Theorem listing_exact (free_permit : Z -> Upstream -> bool) (p : UpstreamPool A) :
  let '(p', identities) := list_identities free_permit p in
  (forall k i, pl_known_keys p' !! k = Some i <->
     (exists keys, listed_by free_permit p i = Some keys /\ k ∈ keys) /\
     forall j keys, (j < i)%nat -> listed_by free_permit p j = Some keys -> k ∉ keys) /\
  NoDup (id_pubkey <$> identities) /\ (forall k, k ∈ id_pubkey <$> identities <-> is_Some (pl_known_keys p' !! k)) /\
  ln_upstream <$> pl_links p' = ln_upstream <$> pl_links p.
Proof.
  pose proof (list_once_spec free_permit p) as Hl. unfold list_identities. destruct (list_once free_permit p) as [[p' identities] failures]. exact Hl.
Qed.

(** A request goes no further than the answer it gets: a signature with
    a known key changes nothing but the link to the upstream that has it, unless
    the connection failed, and an extension that is forwarded to whoever
    answers first contacts no upstream after the first that did not fail.  Its
    answer is returned as it is. *)
Theorem requests_stop_at_an_answer (free_permit : Z -> Upstream -> bool) (p : UpstreamPool A) (sign : SignRequest) (request : Extension) idx l answer :
  pl_known_keys p !! sr_pubkey sign = Some idx -> pl_links p !! idx = Some l ->
  final_answer (sign_on free_permit sign (pl_now p) l).2 = Some answer ->
  pool_sign free_permit sign p = (set_links (<[idx := (sign_on free_permit sign (pl_now p) l).1]> (pl_links p)) p, answer) /\
  let '(p', r) := forward_extension free_permit request p in
  (r = Err AgentFailure /\ Forall (fun l => is_ok (extension_on free_permit request (pl_now p) l).2 = false) (pl_links p)) \/
  exists before l after, pl_links p = before ++ l :: after /\
    Forall (fun l => is_ok (extension_on free_permit request (pl_now p) l).2 = false) before /\
    r = (extension_on free_permit request (pl_now p) l).2 /\ drop (S (length before)) (pl_links p') = after.
Proof.
  intros Hk Hl Ha. split; [now apply pool_sign_known|]. unfold forward_extension.
  pose proof (first_success_spec free_permit request (pl_now p) (pl_links p)) as Hs.
  destruct (first_success free_permit request (pl_now p) (pl_links p)) as [links' r]. cbn [pl_links set_links].
  destruct Hs as [(-> & Hf & _)|(before & x & after & -> & Hf & -> & _ & ->)]; [left; auto|right].
  exists before, x, after. repeat split; auto. rewrite drop_app_ge by (rewrite length_fmap; lia).
  now replace (S (length before) - length (fst ∘ extension_on free_permit request (pl_now p) <$> before))%nat with 1%nat by (rewrite length_fmap; lia).
Qed.

(** A listing during an outage ends: each turn of the redial loop
    moves the clock by at least the first backoff or to the deadline, so as
    many turns as the grace period has backoffs, and one, are enough, however long each listing takes. *)
Theorem redial_terminates (free_permit : Z -> Upstream -> bool) (took : Z -> Z) (p : UpstreamPool A) (fuel : nat) :
  (forall t, 0 <= took t) -> pl_outage_grace p <= (Z.of_nat fuel - 1) * FIRST_BACKOFF -> (1 <= fuel)%nat ->
  exists r, list_identities_or_outage free_permit took fuel p = Some r.
Proof. intros Ht Hg Hf. unfold list_identities_or_outage. apply redial_ends; [exact Ht|lia|lia|exact Hf]. Qed.
End Properties.

(** ** Witnesses *)

(** Agents with the keys that they list; one without keys refuses its
    connections. *)
#[local] Instance key_rings : UpstreamAgent unit (list Identity) := {
  peer_connect := fun a => (a, InTime (match a with [] => Err AgentIo | _ => Ok tt end));
  peer_identities := fun a => (a, InTime (Ok a));
  peer_sign := fun r a => (a, InTime (if existsb (fun i => bool_decide (id_pubkey i = sr_pubkey r)) a then Ok (MkSignature [] (sr_data r)) else Err AgentFailure));
  peer_extension := fun e a => (a, InTime (Ok (Some e)));
  peer_extension_wait := fun e a => (a, InTime (Ok (Some e)));
  peer_lock := fun _ _ a => (a, InTime (Ok tt));
  peer_add_identity := fun _ b a => (a ++ [MkIdentity (KeyEd25519 b) []], InTime (Ok tt));
}.

Definition example_pool : UpstreamPool (list Identity) :=
  let link name keys := MkPoolLink (MkUpstream name [47]) ((fun b => MkIdentity (KeyEd25519 [b]) name) <$> keys) (MkUpstreamState None None) in
  MkPool [link [97] []; link [98] [1; 2]; link [99] [2; 3]] 2000 {[KeyEd25519 [2] := 1%nat]} None 5.

Example example_listing :
  let '(p, ids) := list_identities (fun _ _ => true) example_pool in
  (id_pubkey <$> ids) = [KeyEd25519 [1]; KeyEd25519 [2]; KeyEd25519 [3]] /\ pl_known_keys p !! KeyEd25519 [2] = Some 1%nat /\
  (us_reachable ∘ ln_state <$> pl_links p) = [Some false; Some true; Some true].
Proof. vm_compute. auto. Qed.

Lemma requests_stop_at_an_answer_witness :
  (pool_sign (fun _ _ => true) (MkSignRequest (KeyEd25519 [2]) [9] 0) example_pool).2 = Ok (MkSignature [] [9]).
Proof.
  assert (H := requests_stop_at_an_answer (fun _ _ => true) example_pool (MkSignRequest (KeyEd25519 [2]) [9] 0) (MkExtension [] []) 1%nat _ _
                 eq_refl eq_refl eq_refl).
  rewrite (proj1 H). reflexivity.
Defined.

Lemma redial_terminates_witness :
  exists r, list_identities_or_outage (fun _ _ => true) (fun _ => 1) 21 example_pool = Some r.
Proof. refine (redial_terminates (fun _ _ => true) (fun _ => 1) example_pool 21 _ _ _); [intros; lia|vm_compute; discriminate|lia]. Defined.
