(* ===== verification/AgentCards.v ===== *)
(** * AgentCards: the cards an agent can reach

    How the agent gets at cards: the enumeration of [context.rs] and [token.rs], [reconnect_to_token] of
    [cmd/agent/session.rs], the key load of [cmd/agent/mod.rs] and the challenge
    of [cmd/agent/cak.rs].  Several connections to one card can be open at once,
    so the cards are one shared world, a transport is a handle into it, and a token at
    rest is a token of its handle. *)

From Stdlib Require Import ZArith Lia String.
From stdpp Require Import base tactics list numbers.
From S2P Require Import Prelude PivError Guid Tlv Apdu Transport Slot Session Effects PinCache OperatorAct Presence.

Local Open Scope Z_scope.

(** ** Readers and cards *)

(** What PC/SC offers on a world of cards. *)
Class CardWorld (W : Type) := {
  card_handle : Type;
  (** [Context::establish], [Context::list_readers], [Context::connect] *)
  establish : W -> W * res PivError unit;
  list_readers : W -> W * res PivError (list bytes);
  open_reader : bytes -> W -> W * res PivError card_handle;
  (** [Card]'s drop, [Card::transmit] and the transactions *)
  close_handle : card_handle -> W -> W;
  send : bytes -> card_handle -> W -> W * res PivError bytes;
  begin_on : card_handle -> W -> W * option PivError;
  end_on : EndDisposition -> card_handle -> W -> W * res PivError unit;
  leave_on : card_handle -> W -> W;
  (** 32 bytes of [openssl::rand::rand_bytes] *)
  fresh_challenge : W -> W * option bytes;
}.
Arguments card_handle W {_}.

Section World.
Context {W : Type} `{CardWorld W}.

(** A transport: its handle, and the world its commands go to. *)
Definition send_to (cmd : bytes) (c : W * card_handle W) : (W * card_handle W) * res PivError bytes :=
  let (w, r) := send cmd (snd c) (fst c) in ((w, snd c), r).

#[export] Instance world_raw : RawApdu (W * card_handle W) := send_to.

#[export] Instance world_transport : ApduTransport (W * card_handle W) := {|
  ap_session := W * card_handle W;
  begin_transaction c := match begin_on (snd c) (fst c) with
                         | (w, None) => inl (w, snd c)
                         | (w, Some e) => inr ((w, snd c), e)
                         end;
  session_end d c := let (w, r) := end_on d (snd c) (fst c) in ((w, snd c), r);
  session_drop c := (leave_on (snd c) (fst c), snd c);
|}.

Context (fuel : nat) (L : CertLib).

Abbreviation Token := (PivToken (card_handle W)).

(** A token whose commands go to the world as it is now, and back. *)
Definition attach (w : W) (k : Token) : PivToken (W * card_handle W) :=
  MkToken (w, tok_transport k) (tok_guid k) (tok_reader_name k) (tok_yk_serial k) (tok_yk_serial_diag k)
    (tok_initialized k) (tok_chuid_raw k).

Definition detach (k : PivToken (W * card_handle W)) : Token :=
  MkToken (snd (tok_transport k)) (tok_guid k) (tok_reader_name k) (tok_yk_serial k) (tok_yk_serial_diag k)
    (tok_initialized k) (tok_chuid_raw k).

(** A read over a token; the token itself does not change. *)
Definition on_token {A} (k : Token) (m : IO PivError (PivToken (W * card_handle W)) A) : IO PivError W A :=
  fun w => match m (attach w k) with
           | Some (k', r) => Some (fst (tok_transport k'), r)
           | None => None
           end.

Definition drop_token (k : Token) (w : W) : W := close_handle (tok_transport k) w.
Definition drop_tokens (ks : list Token) (w : W) : W := foldl (fun w k => drop_token k w) w ks.

(** ** Enumeration *)

(** [PivToken::connect_inner]: a reader whose card does not answer as a PIV card is let go again. *)
Definition connect_inner (require_chuid : bool) (reader : bytes) : IO PivError W Token :=
  fun w =>
    let (w, opened) := open_reader reader w in
    match opened with
    | Err e => Some (w, Err e)
    | Panic => Some (w, Panic)
    | Ok h =>
        match guid_from_bytes (repeat 0 16) with
        | Ok g =>
            match connect_sequence fuel require_chuid (MkToken (w, h) g reader None None false None) with
            | None => None
            | Some (k, Ok _) => Some (fst (tok_transport k), Ok (detach k))
            | Some (k, Err e) => Some (close_handle h (fst (tok_transport k)), Err e)
            | Some (k, Panic) => Some (close_handle h (fst (tok_transport k)), Panic)
            end
        | Err e => Some (close_handle h w, Err e)
        | Panic => Some (close_handle h w, Panic)
        end
    end.

Definition token_connect : bytes -> IO PivError W Token := connect_inner true.
Definition connect_allowing_uninitialized : bytes -> IO PivError W Token := connect_inner false.

Fixpoint connect_readers (connect : bytes -> IO PivError W Token) (readers : list bytes) : IO PivError W (list Token) :=
  match readers with
  | [] => io_ret []
  | reader :: readers =>
      do! token := io_try (connect reader) in
      do! tokens := connect_readers connect readers in
      io_ret (match token with inl k => k :: tokens | inr _ => tokens end)
  end.

Definition readers_of : IO PivError W (list bytes) := fun w => let (w, r) := list_readers w in Some (w, r).

Definition enumerate_tokens : IO PivError W (list Token) :=
  do! readers := readers_of in connect_readers token_connect readers.

Definition enumerate_tokens_including_uninitialized : IO PivError W (list Token) :=
  do! readers := readers_of in connect_readers connect_allowing_uninitialized readers.

(** [PivContext::new()] and the enumeration. *)
Definition new_context : IO PivError W unit := fun w => let (w, r) := establish w in Some (w, r).

Inductive ReconnectError : Type := ReconnectPiv (e : PivError) | TokenGone.

(** [tokens.into_iter().find(..)]: the tokens before the one, and then those after it, are dropped. *)
Fixpoint take_token (g : Guid) (ks : list Token) : IO ReconnectError W Token :=
  match ks with
  | [] => io_err TokenGone
  | k :: ks =>
      if bool_decide (tok_guid k = g) then do! _ := io_modify (drop_tokens ks) in io_ret k
      else do! _ := io_modify (drop_token k) in take_token g ks
  end.

Definition reconnect_to_token (g : Guid) : IO ReconnectError W Token :=
  do! tokens := io_map_err ReconnectPiv (do! _ := new_context in enumerate_tokens) in
  take_token g tokens.

(** ** Sessions *)

(** An open session: its handle and whether it verified a PIN. *)
Record OpenSession := MkOpen { os_handle : card_handle W; os_verified : bool }.

(** A method of the session, on the world as it is now. *)
Definition in_session {A} (m : IO PivError (PinSession (W * card_handle W)) A) : IO PivError (W * OpenSession) A :=
  fun s => match m (@MkSession _ world_transport (fst s, os_handle (snd s)) (os_verified (snd s))) with
           | Some (s', r) => Some ((fst (ps_session s'), MkOpen (os_handle (snd s)) (ps_pin_verified s')), r)
           | None => None
           end.

(** The session's drop: a card that verified a PIN is reset. *)
Definition drop_open (s : W * OpenSession) : W :=
  fst (drop_session (@MkSession _ world_transport (fst s, os_handle (snd s)) (os_verified (snd s)))).

(** [begin_pin_session] on a token. *)
Definition open_session (k : Token) : IO PivError W OpenSession :=
  fun w => match begin_pin_session fuel (w, tok_transport k) with
           | None => None
           | Some (inl s) => Some (fst (ps_session s), Ok (MkOpen (tok_transport k) (ps_pin_verified s)))
           | Some (inr (c, Err e)) => Some (fst c, Err e)
           | Some (inr (c, Panic)) => Some (fst c, Panic)
           | Some (inr (_, Ok nothing)) => match nothing with end
           end.

(** ** The CAK challenge ([cak.rs]) *)

Inductive CakError : Type := CakRandom | CakReconnect (e : ReconnectError) | CakPiv (e : PivError).

(** The signature of slot 9E over the challenge, in a session of its own; the verification that follows it
    is pure, so the session may end before it. *)
Definition cak_signature (challenge : bytes) (k : Token) : IO CakError W bytes :=
  do! s := io_map_err CakPiv (open_session k) in
  fun w =>
    match in_session (do! slot := read_slot_on fuel L 0x9E in sign_prehash fuel slot challenge) (w, s) with
    | None => None
    | Some (ws, r) => Some (drop_open ws, map_err CakPiv r)
    end.

Definition authenticate_inner (g : Guid) (cak : KeyData) : IO CakError W bool :=
  do! challenge := (fun w => let (w, c) := fresh_challenge w in Some (w, ok_or c CakRandom)) in
  do! k := io_map_err CakReconnect (reconnect_to_token g) in
  io_finally
    (do! der_sig := cak_signature challenge k in io_lift (map_err CakPiv (verify_ec_signature L cak challenge der_sig)))
    (drop_token k).

Definition authenticate (g : Guid) (cak : KeyData) : IO PivError W bool :=
  do! r := io_try (authenticate_inner g cak) in
  io_ret (match r with inl ok => ok | inr _ => false end).

(** ** The key load ([mod.rs]) *)

Record KeyLoadConfig := MkKeyLoadConfig {
  kl_guid_filter : option bytes;
  kl_all_cards : bool;
  kl_allowed_slots : option (list Z);
  kl_cak : option KeyData;
}.

(** [Guid::to_hex], [Guid::short_id]; indexing the array cannot fail. *)
Definition to_hex (g : Guid) : bytes := mbind fmt_hex2_upper (guid_bytes g).
Definition short_id (g : Guid) : bytes := mbind fmt_hex2_upper (take 4 (guid_bytes g)).

Definition guid_selected (config : KeyLoadConfig) (g : Guid) : bool :=
  match kl_guid_filter config with
  | Some f => bytes_eqb (to_hex g) f || bytes_eqb (short_id g) f
  | None => true
  end.

Definition slot_selected (config : KeyLoadConfig) (slot : Z) : bool :=
  match kl_allowed_slots config with
  | Some allowed => existsb (Z.eqb slot) allowed
  | None => true
  end.

Definition cached_key (k : Token) (s : PivSlot) : CachedKey :=
  MkCachedKey (tok_guid k) (tok_reader_name k) (slot_id s) (slot_algorithm s) (slot_public_key s)
    (ascii "PIV_slot_" ++ fmt_hex2_upper (slot_id s) ++ ascii " " ++ short_id (tok_guid k)).

(** The [for] over the tokens, with its [continue]s and [break]. *)
Fixpoint build_cached_keys (config : KeyLoadConfig) (ks : list Token) : IO PivError W (list CachedKey) :=
  match ks with
  | [] => io_ret []
  | k :: ks =>
      if negb (guid_selected config (tok_guid k)) then build_cached_keys config ks
      else
        do! slots := io_try (on_token k (read_all_slots fuel L)) in
        let slots := match slots with inl slots => slots | inr _ => [] end in
        let token_keys := cached_key k <$> List.filter (fun s => slot_selected config (slot_id s)) slots in
        do! genuine := match kl_cak config with
                       | Some cak => authenticate (tok_guid k) cak
                       | None => io_ret true
                       end in
        if negb genuine then build_cached_keys config ks
        else if negb (kl_all_cards config) then io_ret token_keys
        else do! rest := build_cached_keys config ks in io_ret (token_keys ++ rest)
  end.

Definition enumerate_tokens_or_empty : IO PivError W (list Token) :=
  do! tokens := io_try (F := PivError) (do! _ := new_context in enumerate_tokens) in
  io_ret (match tokens with inl tokens => tokens | inr _ => [] end).

Definition load_cached_keys_from_cards (config : KeyLoadConfig) : IO PivError W (list CachedKey) :=
  do! tokens := enumerate_tokens_or_empty in
  do! keys := build_cached_keys config tokens in
  do! _ := io_modify (drop_tokens tokens) in
  io_ret keys.

(** ** What is loaded *)

(** A card with the GUID signed a challenge of ours with the CAK. *)
Definition challenged (g : Guid) (cak : KeyData) : Prop :=
  exists (k : Token) challenge der_sig (w1 w2 w3 w4 : W),
    fresh_challenge w1 = (w2, Some challenge) /\ tok_guid k = g /\
    cak_signature challenge k w3 = Some (w4, Ok der_sig) /\
    verify_ec_signature L cak challenge der_sig = Ok true.

(** A key of a card and slot that the configuration selects; the card's GUID, if a CAK is set, was challenged. *)
Definition loaded_from (config : KeyLoadConfig) (tokens : list Token) (key : CachedKey) : Prop :=
  exists (k : Token) slots s (w1 w2 : W),
    In k tokens /\ guid_selected config (tok_guid k) = true /\
    on_token k (read_all_slots fuel L) w1 = Some (w2, Ok slots) /\ In s slots /\ slot_selected config (slot_id s) = true /\
    key = cached_key k s /\ (forall cak, kl_cak config = Some cak -> challenged (tok_guid k) cak).

Lemma take_token_guid g ks : forall (w w' : W) k, take_token g ks w = Some (w', Ok k) -> tok_guid k = g /\ In k ks.
Proof.
  induction ks as [|k0 ks IH]; intros w w' k Hk; cbn [take_token] in Hk; [discriminate|]. case_bool_decide as Hg; bind_inv Hk as w1 u Hu.
  - pure_inv Hk. split; [assumption|now left].
  - apply IH in Hk as [Hk Hi]. split; [exact Hk|now right].
Qed.

Lemma authenticate_true g cak (w w' : W) : authenticate g cak w = Some (w', Ok true) -> challenged g cak.
Proof.
  intros Ha. unfold authenticate in Ha. bind_inv Ha as w1 r Hr. destruct r as [ok|e]; [|discriminate]. injection Ha as -> ->. pure_inv Hr.
  unfold authenticate_inner in Hr. bind_inv Hr as w2 challenge Hc. destruct (fresh_challenge w) as [w3 c] eqn:Hf. injection Hc as -> Hc.
  destruct c as [c|]; [|discriminate]. cbn [ok_or] in Hc. injection Hc as ->. bind_inv Hr as w4 k Hk. pure_inv Hk.
  unfold reconnect_to_token in Hk. bind_inv Hk as w5 tokens Ht. apply take_token_guid in Hk as [Hk _].
  apply io_finally_inv in Hr as (w6 & Hr & _). bind_inv Hr as w7 der_sig Hs. pure_inv Hr.
  exists k, challenge, der_sig. do 4 eexists. repeat split; eassumption.
Qed.

Lemma loaded_weaken config k ks key : loaded_from config ks key -> loaded_from config (k :: ks) key.
Proof. intros (k' & slots & s & w1 & w2 & Hi & Hr). exists k', slots, s, w1, w2. split; [now right|exact Hr]. Qed.

Lemma build_loads config ks : forall (w w' : W) keys, build_cached_keys config ks w = Some (w', Ok keys) ->
  Forall (loaded_from config ks) keys /\ (kl_all_cards config = false -> exists g, Forall (fun key => ck_guid key = g) keys).
Proof.
  assert (Hskip : forall k ks keys, Forall (loaded_from config ks) keys -> Forall (loaded_from config (k :: ks)) keys).
  { intros k ks' keys Hk. eapply List.Forall_impl; [|exact Hk]. intros key. apply loaded_weaken. }
  induction ks as [|k ks IH]; intros w w' keys Hb; cbn [build_cached_keys] in Hb.
  { pure_inv Hb. split; [constructor|]. intros _. exists (MkGuid []). constructor. }
  destruct (guid_selected config (tok_guid k)) eqn:Hsel; cbn [negb] in Hb.
  2: { apply IH in Hb as [H1 H2]. split; [now apply Hskip|exact H2]. }
  bind_inv Hb as w1 r Hr. cbv zeta in Hb. bind_inv Hb as w2 genuine Hg.
  destruct genuine; cbn [negb] in Hb. 2: { apply IH in Hb as [H1 H2]. split; [now apply Hskip|exact H2]. }
  set (token_keys := cached_key k <$> _) in Hb.
  assert (Hkeys : Forall (fun key => loaded_from config (k :: ks) key /\ ck_guid key = tok_guid k) token_keys).
  { apply List.Forall_forall. intros key Hk. apply list_elem_of_In, list_elem_of_fmap in Hk as (s & -> & Hs).
    apply list_elem_of_In, filter_In in Hs as [Hs Hslot]. split; [|reflexivity].
    destruct r as [slots|e]; [|destruct Hs]. pure_inv Hr. exists k, slots, s, w, w1. split; [now left|]. repeat split; try assumption.
    intros cak Hcak. rewrite Hcak in Hg. now apply authenticate_true in Hg. }
  destruct (kl_all_cards config); cbn [negb] in Hb.
  - bind_inv Hb as w3 rest Hrest. pure_inv Hb. apply IH in Hrest as [H1 _]. split; [|discriminate].
    apply Forall_app. split; [eapply List.Forall_impl; [|exact Hkeys]; now intros key [Hk _]|now apply Hskip].
  - pure_inv Hb. split; [eapply List.Forall_impl; [|exact Hkeys]; now intros key [Hk _]|]. intros _. exists (tok_guid k).
    eapply List.Forall_impl; [|exact Hkeys]. now intros key [_ Hk].
Qed.

(** What a load serves. Every key comes from a card that was there and that the GUID filter selects, and from
    a slot of it that the slot filter selects, as the card presented it; under a CAK only after a card with
    that GUID signed a fresh challenge with it; and unless all cards are wanted, all keys are of one card's GUID. *)
Theorem loaded_keys_are_selected config (w w' : W) keys :
  load_cached_keys_from_cards config w = Some (w', Ok keys) ->
  exists (tokens : list Token) w1 found, io_try (F := PivError) (do! _ := new_context in enumerate_tokens) w = Some (w1, Ok found) /\
    tokens = match found with inl tokens => tokens | inr _ => [] end /\
    Forall (loaded_from config tokens) keys /\
    (kl_all_cards config = false -> exists g, Forall (fun key => ck_guid key = g) keys).
Proof.
  intros Hl. unfold load_cached_keys_from_cards in Hl. bind_inv Hl as w1 tokens Ht. bind_inv Hl as w2 loaded Hb. bind_inv Hl as w3 u Hd.
  pure_inv Hl. unfold enumerate_tokens_or_empty in Ht. bind_inv Ht as w4 found Hf. pure_inv Ht.
  apply build_loads in Hb as [H1 H2]. eauto 10.
Qed.
End World.
Arguments OpenSession W {_}.

(** ** Witnesses *)

(** One reader with one card, whose answers depend on the command only. *)
Definition demo_cert : bytes :=
  attestation [] [Slot.extension YK_POLICY_OID_BODY None [PinPolicy.to_byte PinPolicy.Always; TouchPolicy.to_byte TouchPolicy.Always]] [] [].

Definition demo_answer (cmd : bytes) : bytes :=
  match cmd !! 1%nat with
  | Some 0xCB => if bool_decide (cmd !! 9%nat = Some 0x02) then enc_tlv 0x53 (enc_tlv 0x34 (repeat 7 16)) else enc_tlv 0x53 (cert_object demo_cert)
  | Some 0xF8 => [0; 0; 0; 1]
  | Some 0xF9 => demo_cert
  | Some 0x87 => enc_tlv 0x7C (enc_tlv 0x82 [1; 2; 3])
  | _ => []
  end.

Definition demo_world : CardWorld unit := {|
  card_handle := unit;
  establish w := (w, Ok tt);
  list_readers w := (w, Ok [ascii "reader"]);
  open_reader _ w := (w, Ok tt);
  close_handle _ w := w;
  send cmd _ w := (w, Ok (demo_answer cmd ++ [0x90; 0x00]));
  begin_on _ w := (w, None);
  end_on _ _ w := (w, Ok tt);
  leave_on _ w := w;
  fresh_challenge w := (w, Some (repeat 0 32));
|}.

Definition demo_key : KeyData := KeyEd25519 (repeat 9 32).

Definition demo_lib : CertLib := {|
  certificate_from_der _ := Some (MkSpki OID_ED25519 None (Some (repeat 9 32)));
  p256_uncompressed _ := None;
  p384_uncompressed _ := None;
  pkcs1_from_der _ := None;
  mpint_from_positive _ := None;
  ecdsa_from_sec1 _ := None;
  p256_key_ok _ := false;
  p256_sig_ok _ := false;
  p384_key_ok _ := false;
  p384_sig_ok _ := false;
  p256_verify _ _ _ := false;
  p384_verify _ _ _ := false;
|}.

Definition demo_config : KeyLoadConfig := MkKeyLoadConfig (Some (ascii "07070707")) false (Some [0x9A; 0x9D]) None.

Abbreviation demo_load := (load_cached_keys_from_cards (H := demo_world) 1 demo_lib demo_config tt).

Definition demo_loaded : bool := match demo_load with Some (_, Ok [k; k']) => true | _ => false end.

Lemma loaded_keys_are_selected_witness :
  exists keys, length keys = 2%nat /\ exists w, demo_load = Some (w, Ok keys) /\ exists g, Forall (fun key => ck_guid key = g) keys.
Proof.
  assert (Hd : demo_loaded = true) by (vm_compute; reflexivity). unfold demo_loaded in Hd.
  destruct demo_load as [[w [[|k [|k1 [|]]]|e|]]|] eqn:Hl; try discriminate Hd. exists [k; k1]. split; [reflexivity|]. exists w. split; [reflexivity|].
  destruct (loaded_keys_are_selected (H := demo_world) 1 demo_lib demo_config tt w _ Hl) as (tokens & w1 & found & _ & _ & _ & Hg). now apply Hg.
Defined.
