(* ===== verification/AgentSession.v ===== *)
(** * AgentSession: what the agent answers

    [piggy/src/cmd/agent/session.rs]: the handlers of [PiggyAgent], one
    definition per handler, over the cards of [AgentCards], the PIN cache, the
    served keys and the upstream pool.  The state is shared by all clients: at
    each [await] the others may change it, which [meanwhile] stands for, and so
    may a prompt, which takes as long as its operator does. *)

From Stdlib Require Import ZArith Lia String.
From stdpp Require Import base tactics list numbers gmap.
From S2P Require Import Prelude PivError Guid Wire Apdu Transport Slot Crypto PivBox AgentExt Session Effects Unlock.
From S2P Require Import PinCache OperatorAct SigFormat Presence Upstream AgentCards.

Local Open Scope Z_scope.

(** ** Errors *)

(** The texts of [AgentError::Other] that the session makes. *)
Inductive SessionMsg : Type :=
| PivMsg (e : PivError)
| AskpassMsg (e : OracleError)
| AskpassTask
| SshMsg (e : SshError)
| SignMsg (e : SignError)
| RefusedAct (namespace : bytes)
| Outage (failures : list (bytes * AgentError SessionMsg))
| KeyNotFound
| TokenUnavailable
| BadCardKey (label : string)
| NotEcKey
| NotServed (label : string)
| TruncatedSlotId
| UnsupportedFlags (flags : Z)
| BadBox (e : BoxError)
| EcPointMsg (e : BoxError)
| OpenMsg (e : BoxError)
| PartnerKeyMsg (e : BoxError)
| TargetGuidMsg (e : PivError)
| TakeDataMsg (e : BoxError)
| SealMsg (e : BoxError)
| SerializeMsg (e : BoxError)
| JsonMsg (label : string).

Abbreviation AgentErr := (AgentError SessionMsg).

Definition piv_msg (e : PivError) : AgentErr := OtherError (PivMsg e).
Definition ssh_msg (e : SshError) : AgentErr := OtherError (SshMsg e).

Definition reconnect_msg (e : ReconnectError) : AgentErr :=
  match e with ReconnectPiv e => piv_msg e | TokenGone => OtherError TokenUnavailable end.

(** [NativeExtError]: the key is not served here, or a genuine error. *)
Inductive NativeExtError : Type := KeyNotNative (m : SessionMsg) | NativeAgent (e : AgentErr).

(** ** Limits *)

Definition PIN_RETRY_LIMIT : Z := 1.
Definition MIN_RETRIES_FOR_OFFERED_PIN : Z := 2.

Definition offered_retries_ok (remaining : Z + PivError) : bool :=
  match remaining with inl n => MIN_RETRIES_FOR_OFFERED_PIN <=? n | inr _ => false end.

Record AcquiredPin := MkAcquired { aq_pin : bytes; aq_fresh : bool; aq_offered : bool }.

(** A call of the askpass: the prompt, and the context and kind it is given in the environment. *)
Record Prompt := MkPrompt { pm_prompt : bytes; pm_context : option bytes; pm_kind : option bytes }.

(** ** The names of the extensions *)

Definition CANONICAL : bytes := ascii "ecdh@code.linenisgreat.com".
Definition LEGACY : bytes := ascii "ecdh@joyent.com".
Definition ECDH_NAMES : list bytes := [CANONICAL; LEGACY].
Definition is_ecdh (name : bytes) : bool := existsb (bytes_eqb name) ECDH_NAMES.

Definition QUERY_EXT : bytes := ascii "query".
Definition SESSION_BIND_EXT : bytes := ascii "session-bind@openssh.com".
Definition PIN_STATUS_EXT : bytes := ascii "pin-status@joyent.com".
Definition REBOX_EXT : bytes := ascii "ecdh-rebox@joyent.com".
Definition ATTEST_EXT : bytes := ascii "ykpiv-attest@joyent.com".
Definition OPERATOR_ACT_EXT : bytes := ascii "operator-act@piggy".
Definition AGENT_MODE_EXT : bytes := ascii "agent-mode@piggy".
Definition UPSTREAM_STATUS_EXT : bytes := ascii "upstream-status@piggy".

Record AgentMode := MkAgentMode {
  am_proxy_only : bool; am_native_keys : Z; am_upstreams : Z; am_service : option bytes; am_event_driven : bool
}.

(** ** The state *)

Section State.
Context (C : Crypto) (W A Q : Type).

(** [PiggyAgent]'s shared state, with the world of cards and the surroundings: operator, clock, other clients. *)
Record Agent := MkAgent {
  ag_keys : list CachedKey;
  ag_pins : PinCache;
  ag_pool : UpstreamPool A;
  ag_proxy_only : bool;
  ag_event_driven : bool;
  ag_service_name : option bytes;
  ag_world : W;
  ag_rng : rng C;
  ag_around : Q;
}.
End State.
Arguments MkAgent {C W A Q}.
Arguments ag_keys {C W A Q}.
Arguments ag_pins {C W A Q}.
Arguments ag_pool {C W A Q}.
Arguments ag_proxy_only {C W A Q}.
Arguments ag_event_driven {C W A Q}.
Arguments ag_service_name {C W A Q}.
Arguments ag_world {C W A Q}.
Arguments ag_rng {C W A Q}.
Arguments ag_around {C W A Q}.

(** What the session takes from other crates besides [Crypto] and [CertLib]. *)
Record SessionLib := {
  (** [PublicKey::from_bytes(..)?.key_data()] *)
  public_key_from_bytes : bytes -> option KeyData;
  (** [EcdsaPublicKey::as_sec1_bytes] *)
  as_sec1_bytes : EcdsaPublicKey -> bytes;
  (** [Signature::new] accepts the bytes *)
  signature_well_formed : bytes -> bytes -> bool;
  (** [X509::verify] of an attestation with the key of its issuer's certificate *)
  x509_signed_by : bytes -> bytes -> option bool;
  (** the digests of sha2 *)
  session_hashes : Hashes;
  (** [serde_json::to_vec] *)
  json_mode : AgentMode -> option bytes;
  json_status : list (UpstreamStatus (M := SessionMsg)) -> option bytes;
  (** [Extension::parse_message::<QueryResponse>] *)
  parse_query : Extension -> option (list bytes);
}.

(** ** What a refused operator act says *)

Inductive AttestRefusal : Type :=
| NoAttestation (e : PivError)
| NoPolicy (e : PivError)
| WrongPolicy (p : KeyPolicy)
| UnreadableAttestation (e : PivError)
| DifferentKey
| NoIntermediate (e : PivError)
| ChainUnreadable
| NotSignedByCard.

Inductive ActDetail : Type :=
| MalformedAct
| UnknownHash (name : bytes)
| UnregisteredNamespace (namespace : bytes)
| UndisplayableText
| NoAgentServes
| Unanswered (e : AgentErr)
| Absent (e : ReconnectError)
| NotAttested (slot : Z) (why : AttestRefusal)
| PromptFailed (e : OracleError)
| ActAskpassTask
| ActSignMsg (e : SignError)
| ActSession (e : PivError)
| WrongPin (retries : Z)
| PinIsBlocked
| PinVerifyFailed (e : PivError)
| CardRefusedSign (refusal : SecurityStatusRefusal) (elapsed : Z)
| ActPiv (e : PivError).

(** [operator_act_prompt_refusal], [operator_act_pin_refusal] *)
Definition operator_act_prompt_refusal (e : OracleError) : Status * ActDetail := (Cancelled, PromptFailed e).

Definition operator_act_pin_refusal (e : PivError) : Status * ActDetail :=
  (StatusError, match e with
          | PinIncorrect retries => WrongPin retries
          | PinBlocked => PinIsBlocked
          | other => PinVerifyFailed other
          end).

(** [OperatorActAnswer]; a local answer is a signature or a refusal. *)
Inductive OperatorActAnswer : Type :=
| ActSigned (sshsig : bytes)
| ActRefused (status : Status) (detail : ActDetail)
| Relayed (answer : res AgentErr (option Extension)).

Section Handlers.
Context (C : Crypto) {W : Type} `{CardWorld W} {A : Type} `{UpstreamAgent SessionMsg A} {Q : Type}.
Context (fuel : nat) (L : CertLib) (S : SessionLib).

Abbreviation Ag := (Agent C W A Q).
Abbreviation Token := (PivToken (card_handle W)).

(** [run_askpass_of_kind] on its own thread; [Panic] is a thread that died. *)
Context (askpass : Prompt -> Ag -> Ag * res OracleError bytes).

(** What happens at an [await]; the flag says that this request holds the card lock. *)
Context (meanwhile : bool -> Ag -> Ag).

(** [notify_operator]; the time that a sign took, from the state before and after it. *)
Context (notify_operator : bytes -> bytes -> Ag -> Ag) (sign_took : Ag -> Ag -> Z).

(** The surroundings of the pool ([Upstream]). *)
Context (free_permit : Z -> Upstream -> bool) (took : Z -> Z) (grace_fuel : nat).

Definition set_pins (pins : PinCache) (a : Ag) : Ag :=
  MkAgent (ag_keys a) pins (ag_pool a) (ag_proxy_only a) (ag_event_driven a) (ag_service_name a) (ag_world a) (ag_rng a) (ag_around a).
Definition set_pool (pool : UpstreamPool A) (a : Ag) : Ag :=
  MkAgent (ag_keys a) (ag_pins a) pool (ag_proxy_only a) (ag_event_driven a) (ag_service_name a) (ag_world a) (ag_rng a) (ag_around a).
Definition set_world (w : W) (a : Ag) : Ag :=
  MkAgent (ag_keys a) (ag_pins a) (ag_pool a) (ag_proxy_only a) (ag_event_driven a) (ag_service_name a) w (ag_rng a) (ag_around a).
Definition set_rng (g : rng C) (a : Ag) : Ag :=
  MkAgent (ag_keys a) (ag_pins a) (ag_pool a) (ag_proxy_only a) (ag_event_driven a) (ag_service_name a) (ag_world a) g (ag_around a).

(** ** Access to the shared state *)

Definition awaits {E} (holding : bool) : IO E Ag unit := io_modify (meanwhile holding).

Definition with_pins {E} (holding : bool) (f : PinCache -> PinCache) : IO E Ag unit :=
  do! _ := awaits holding in io_modify (fun a => set_pins (f (ag_pins a)) a).

Definition on_pool {E R} (f : UpstreamPool A -> UpstreamPool A * R) : IO E Ag R :=
  do! _ := awaits false in
  fun a => let (p, r) := f (ag_pool a) in Some (set_pool p a, Ok r).

(** The result of a pool method is the result of the handler. *)
Definition pool_result {R} (f : UpstreamPool A -> UpstreamPool A * res AgentErr R) : IO AgentErr Ag R :=
  do! r := on_pool f in io_lift r.

Definition on_world {E F R} (f : E -> F) (m : IO E W R) : IO F Ag R :=
  fun a => match m (ag_world a) with
           | Some (w, r) => Some (set_world w a, map_err f r)
           | None => None
           end.

(** ** PINs *)

Definition from_cache (g : Guid) (c : PinCache) : option AcquiredPin :=
  match lookup_pin g c with
  | Some (pin, Verified) => Some (MkAcquired pin false false)
  | Some (pin, Offered) => Some (MkAcquired pin true true)
  | None => None
  end.

Definition run_prompt (p : Prompt) : IO AgentErr Ag bytes :=
  fun a => let (a, r) := askpass p a in
           Some (a, match r with Ok pin => Ok pin | Err e => Err (OtherError (AskpassMsg e)) | Panic => Err (OtherError AskpassTask) end).

Definition ensure_pin (op : bytes) (g : Guid) : IO AgentErr Ag AcquiredPin :=
  do! _ := awaits false in
  do! a := io_get in
  match from_cache g (ag_pins a) with
  | Some acq => io_ret acq
  | None =>
      (* the prompt lock *)
      do! _ := awaits false in
      do! a := io_get in
      match from_cache g (ag_pins a) with
      | Some acq => io_ret acq
      | None =>
          let prompt := ascii "Enter PIN for token " ++ short_id g in
          let context := ascii "piggy-agent:" ++ op ++ ascii ":" ++ short_id g in
          do! pin := run_prompt (MkPrompt prompt (Some context) None) in
          io_ret (MkAcquired pin true false)
      end
  end.

Definition cache_pin {E} (g : Guid) (acq : AcquiredPin) : IO E Ag unit :=
  if aq_fresh acq then with_pins true (cache_verified g (aq_pin acq)) else io_ret tt.

Definition forget_pin {E} (g : Guid) : IO E Ag unit := with_pins true (forget_for g).

(** ** A session on a card *)

Definition CardRun : Type := Ag * OpenSession W.

Definition on_session {B} (m : IO PivError (PinSession (W * card_handle W)) B) : IO PivError CardRun B :=
  fun r => match in_session m (ag_world (fst r), snd r) with
           | Some ((w, o), b) => Some ((set_world w (fst r), o), b)
           | None => None
           end.

Definition on_agent {E B} (m : IO E Ag B) : IO E CardRun B :=
  fun r => match m (fst r) with
           | Some (a, b) => Some ((a, snd r), b)
           | None => None
           end.

(** A session on an open token, until [body] is left, one way or the other. *)
Definition session_on {E B} (f : PivError -> E) (k : Token) (body : IO E CardRun B) : IO E Ag B :=
  do! s := on_world f (open_session fuel k) in
  fun a => match body (a, s) with
           | Some ((a, s), b) => Some (set_world (drop_open (ag_world a, s)) a, b)
           | None => None
           end.

(** The token with the GUID, until [body] is left. *)
Definition with_card {E B} (f : ReconnectError -> E) (g : Guid) (body : Token -> IO E Ag B) : IO E Ag B :=
  do! k := on_world f (reconnect_to_token fuel g) in
  io_finally (body k) (fun a => set_world (drop_token k (ag_world a)) a).

(** Whether an offered PIN may not be tried on this card. *)
Definition offer_declined (acq : AcquiredPin) : IO AgentErr CardRun bool :=
  if aq_offered acq then
    do! remaining := io_try (on_session (pin_retries_remaining fuel)) in
    io_ret (negb (offered_retries_ok remaining))
  else io_ret false.

Definition finish {B} (use : PivSlot -> IO PivError (PinSession (W * card_handle W)) B) (s : PivSlot) : IO AgentErr CardRun (Z + B) :=
  do! b := io_map_err piv_msg (on_session (use s)) in io_ret (inr b).

(** The session of a turn: the slot is read before the PIN's verification, and [use] comes right after it.  Another
    turn is needed after an offer that the card's tries do not allow, or a wrong PIN. *)
Definition card_session {B} (g : Guid) (slot : Z) (use : PivSlot -> IO PivError (PinSession (W * card_handle W)) B)
    (attempt : Z) (acquired : option AcquiredPin) : IO AgentErr CardRun (Z + B) :=
  do! s := io_map_err piv_msg (on_session (read_slot_on fuel L slot)) in
  match acquired with
  | None => finish use s
  | Some acq =>
      do! declined := offer_declined acq in
      if declined then do! _ := on_agent (forget_pin g) in io_ret (inl attempt)
      else
        do! verified := io_try (on_session (verify_pin fuel (aq_pin acq))) in
        match verified with
        | inl _ => do! _ := on_agent (cache_pin g acq) in finish use s
        | inr (PinIncorrect retries) =>
            if attempt <? PIN_RETRY_LIMIT then do! _ := on_agent (forget_pin g) in io_ret (inl (attempt + 1))
            else io_err (piv_msg (PinIncorrect retries))
        | inr e => io_err (piv_msg e)
        end
  end.

Definition acquire (op : bytes) (g : Guid) (slot : Z) : IO AgentErr Ag (option AcquiredPin) :=
  if slot =? 0x9E then io_ret None else do! acq := ensure_pin op g in io_ret (Some acq).

(** One turn of the loop that [sign_inner], [handle_ecdh] and [handle_ecdh_rebox] have in common: the PIN is
    acquired before the card lock is taken. *)
Definition card_turn {B} (op : bytes) (g : Guid) (slot : Z) (use : PivSlot -> IO PivError (PinSession (W * card_handle W)) B)
    (attempt : Z) : IO AgentErr Ag (Z + B) :=
  do! acquired := acquire op g slot in
  do! _ := awaits false in
  with_card reconnect_msg g (fun k => session_on piv_msg k (card_session g slot use attempt acquired)).

(** The loop; [None] when it has not ended within [n] turns. *)
Fixpoint card_loop {B} (n : nat) (op : bytes) (g : Guid) (slot : Z) (use : PivSlot -> IO PivError (PinSession (W * card_handle W)) B)
    (attempt : Z) : IO AgentErr Ag B :=
  match n with
  | O => fun _ => None
  | Datatypes.S n =>
      do! r := card_turn op g slot use attempt in
      match r with
      | inl attempt => card_loop n op g slot use attempt
      | inr b => io_ret b
      end
  end.
Context (turns : nat).

(** ** Identities and signatures *)

Definition find_key (keys : list CachedKey) (pubkey : KeyData) : option CachedKey :=
  List.find (fun k => bool_decide (ck_public_key k = pubkey)) keys.

Definition find_cached_key (pubkey : KeyData) : IO AgentErr Ag CachedKey :=
  do! _ := awaits false in
  do! a := io_get in
  io_lift (ok_or (find_key (ag_keys a) pubkey) (OtherError KeyNotFound)).

(** The upstream keys that are not offered yet. *)
Definition add_identities (identities upstream_ids : list Identity) : list Identity :=
  foldl (fun ids id => if existsb (fun n => bool_decide (id_pubkey n = id_pubkey id)) ids then ids else ids ++ [id]) identities upstream_ids.

(** [request_identities_inner] *)
Definition request_identities : IO AgentErr Ag (list Identity) :=
  do! _ := awaits false in
  do! a := io_get in
  let identities := (fun k => MkIdentity (ck_public_key k) (ck_comment k)) <$> ag_keys a in
  if pool_is_empty (ag_pool a) then io_ret identities
  else
    do! upstream_ids :=
      match identities with
      | [] =>
          do! _ := awaits false in
          fun a => match list_identities_or_outage free_permit took grace_fuel (ag_pool a) with
                   | None => None
                   | Some (p, r) => Some (set_pool p a, map_err (fun failures => OtherError (Outage failures)) r)
                   end
      | _ => on_pool (list_identities free_permit)
      end in
    io_ret (add_identities identities upstream_ids).

(** [sign_inner] *)
Definition sign (request : SignRequest) : IO AgentErr Ag Signature :=
  do! _ := io_lift (map_err (fun ns => OtherError (RefusedAct ns)) (refuse_operator_act_signed_data (sr_data request))) in
  do! found := io_try (find_cached_key (sr_pubkey request)) in
  match found with
  | inr e =>
      do! a := io_get in
      if pool_is_empty (ag_pool a) then io_err e else pool_result (pool_sign free_permit request)
  | inl key =>
      do! sign_data := io_lift (map_err (fun e => OtherError (SignMsg e))
                                  (prepare_sign_data (session_hashes S) (ck_algorithm key) (sr_data request) (sr_flags request))) in
      do! sig_bytes := card_loop turns (ascii "sign") (ck_guid key) (ck_slot_id key) (fun s => sign_prehash fuel s sign_data) 0 in
      io_lift (map_err (fun e => OtherError (SignMsg e))
                 (to_ssh_signature (signature_well_formed S) (ck_algorithm key) sig_bytes (sr_flags request)))
  end.

(** What is logged of a refused sign; [fingerprint] and the texts of errors are parameters. *)
Record SignRefusal := MkSignRefusal { rf_slot : bytes; rf_fingerprint : bytes; rf_comment : bytes; rf_cause : bytes }.

Definition describe_sign_refusal (fingerprint : KeyData -> bytes) (text : AgentErr -> bytes) (key : option CachedKey)
    (pubkey : KeyData) (err : AgentErr) : SignRefusal :=
  MkSignRefusal (match key with Some k => fmt_hex2_upper (ck_slot_id k) | None => ascii "unknown" end) (fingerprint pubkey)
    (match key with Some k => match ck_comment k with [] => ascii "<none>" | c => c end | None => ascii "<none>" end) (text err).

(** ** Lock, unlock, added keys *)

Definition unless_no_upstreams {E} (f : UpstreamPool A -> UpstreamPool A) : IO E Ag unit :=
  do! a := io_get in
  if pool_is_empty (ag_pool a) then io_ret tt else on_pool (fun p => (f p, tt)).

(** [lock_inner], [unlock_inner] *)
Definition lock (key : bytes) : IO AgentErr Ag unit :=
  do! _ := with_pins false clear in unless_no_upstreams (lock_all free_permit key).

Definition unlock (key : bytes) : IO AgentErr Ag unit :=
  do! _ := with_pins false (offer key) in unless_no_upstreams (unlock_all free_permit key).

(** [add_identity_inner], [add_identity_constrained_inner] *)
Definition add_identity (constrained : bool) (identity : bytes) : IO AgentErr Ag unit :=
  pool_result (pool_add_identity free_permit constrained identity).

(** ** ECDH, attestation, rebox *)

Definition native {B} (m : IO AgentErr Ag B) : IO NativeExtError Ag B := io_map_err NativeAgent m.
Definition lift_ssh {B} (r : res SshError B) : IO NativeExtError Ag B := io_lift (map_err (fun e => NativeAgent (ssh_msg e)) r).
Definition native_err {B} (m : SessionMsg) : IO NativeExtError Ag B := io_err (NativeAgent (OtherError m)).

(** The key a request names; a miss is the upstreams' to answer. *)
Definition served_key (label : string) (blob : bytes) : IO NativeExtError Ag CachedKey :=
  do! pubkey := io_lift (ok_or (public_key_from_bytes S blob) (NativeAgent (OtherError (BadCardKey label)))) in
  do! found := io_try (find_cached_key pubkey) in
  match found with
  | inl key => io_ret key
  | inr _ => io_err (KeyNotNative (NotServed label))
  end.

Definition handle_ecdh (name details : bytes) : IO NativeExtError Ag (option Extension) :=
  do! (card_key_blob, partner_blob, _) := lift_ssh (parse_ecdh_request details) in
  do! key := served_key "ecdh" card_key_blob in
  do! ec_point := lift_ssh (extract_ec_point_from_ssh_blob partner_blob) in
  match ck_algorithm key with
  | EcP256 | EcP384 =>
      do! secret := native (card_loop turns (ascii "ecdh") (ck_guid key) (ck_slot_id key) (fun s => Session.ecdh_derive fuel s ec_point) 0) in
      io_ret (Some (MkExtension name (to_be_bytes 4 (len secret) ++ secret)))
  | _ => native_err NotEcKey
  end.

Definition parse_attest_request (details : bytes) : res SshError bytes :=
  let* (inner, _) := read_ssh_string details 0 in
  let* (card_key_blob, pos) := read_ssh_string inner 0 in
  let* _ := read_u32_be inner pos "attest" in
  Ok card_key_blob.

Definition attest_response (certs : list bytes) : bytes :=
  to_be_bytes 4 (len certs) ++ mbind (fun cert => to_be_bytes 4 (len cert) ++ cert) certs.

Definition handle_attest (details : bytes) : IO NativeExtError Ag (option Extension) :=
  do! card_key_blob := lift_ssh (parse_attest_request details) in
  do! key := served_key "attest" card_key_blob in
  native (
    do! _ := awaits false in
    with_card reconnect_msg (ck_guid key) (fun k =>
      do! attest_cert := on_world piv_msg (on_token k (yk_attest fuel (ck_slot_id key))) in
      do! f9_slot := io_try (on_world piv_msg (on_token k (read_slot_on fuel L 0xF9))) in
      let certs := attest_cert :: match f9_slot with inl s => [slot_cert_der s] | inr _ => [] end in
      io_ret (Some (MkExtension ATTEST_EXT (attest_response certs))))).

Record ReboxRequest := MkReboxRequest {
  rb_box : bytes; rb_guid : bytes; rb_slot : Z; rb_partner : bytes; rb_flags : Z
}.

Definition parse_rebox_request (details : bytes) : res AgentErr ReboxRequest :=
  let* (inner, _) := map_err ssh_msg (read_ssh_string details 0) in
  let* (boxbuf, pos) := map_err ssh_msg (read_ssh_string inner 0) in
  let* (guid_bytes, pos) := map_err ssh_msg (read_ssh_string inner pos) in
  let* slot_id := ok_or (get inner pos) (OtherError TruncatedSlotId) in
  let* (partner_blob, pos) := map_err ssh_msg (read_ssh_string inner (pos + 1)) in
  let* flags := map_err ssh_msg (read_u32_be inner pos "ecdh-rebox") in
  if negb (flags =? 0) then Err (OtherError (UnsupportedFlags flags))
  else Ok (MkReboxRequest boxbuf guid_bytes slot_id partner_blob flags).

(** [canonicalize_uncompressed] of [card_oracle.rs] *)
Definition canonicalize_uncompressed (point : bytes) : res OracleError bytes :=
  if bool_decide (head point = Some 0x04) then Ok point
  else
    let* curve := (if len point =? 33 then Ok NistP256 else if len point =? 49 then Ok NistP384 else Err (InvalidPubkey "length")) in
    let* ec := map_err (fun _ => InvalidPubkey "decompress") (ec_from_bytes C curve point) in
    map_err (fun _ => OracleOther "openssl encode") (ec_uncompressed C curve ec).

Definition find_key_by_guid (g : Guid) (keys : list CachedKey) : option CachedKey :=
  List.find (fun k => bool_decide (ck_guid k = g)) keys.

Definition find_key_by_recipient_pubkey (recipient : bytes) (keys : list CachedKey) : option (CachedKey * Z) :=
  match canonicalize_uncompressed recipient with
  | Ok want =>
      k ← List.find (fun k => match ck_public_key k with KeyEcdsa ec => bytes_eqb (as_sec1_bytes S ec) want | _ => false end) keys;
      Some (k, ck_slot_id k)
  | _ => None
  end.

(** The key and slot for a box: by its GUID and slot if it names them, else by its recipient. *)
Definition box_key (b : PivBox) (keys : list CachedKey) : option (CachedKey * Z) :=
  match guid_slot b with
  | Some (g, slot) => k ← find_key_by_guid g keys; Some (k, slot)
  | None => find_key_by_recipient_pubkey (recipient_pubkey b) keys
  end.

(** [decompress_ec_point] and [ec_public_key_from_point] of [session.rs] *)
Definition session_decompress (compressed : bytes) (curve : EcCurve) : res AgentErr bytes :=
  map_err (fun e => OtherError (EcPointMsg e)) (let* ec := ec_from_bytes C curve compressed in ec_uncompressed C curve ec).

(** The reseal to the partner, once the box is open. *)
Definition reseal (rq : ReboxRequest) (b : PivBox) (g : rng C) : res AgentErr (bytes * rng C) :=
  let* partner_point := map_err ssh_msg (extract_ec_point_from_ssh_blob (rb_partner rq)) in
  let* partner_ec_pub := map_err (fun e => OtherError (PartnerKeyMsg e)) (ec_from_bytes C (curve b) partner_point) in
  let new_box := box_new (curve b) in
  let* new_box :=
    match rb_guid rq with
    | [] => Ok new_box
    | l => let* target := map_err (fun e => OtherError (TargetGuidMsg e)) (guid_from_bytes l) in
           Ok (with_guid_slot new_box (Some (target, rb_slot rq)))
    end in
  let* (plaintext, _) := map_err (fun e => OtherError (TakeDataMsg e)) (take_data b) in
  let new_box := set_data new_box plaintext in
  let* (new_box, g) := map_err (fun e => OtherError (SealMsg e)) (seal_offline C new_box partner_ec_pub g) in
  let* out := map_err (fun e => OtherError (SerializeMsg e)) (box_to_bytes new_box) in
  Ok (to_be_bytes 4 (len out) ++ out, g).

Definition handle_ecdh_rebox (details : bytes) : IO NativeExtError Ag (option Extension) :=
  do! rq := io_lift (map_err NativeAgent (parse_rebox_request details)) in
  do! b := io_lift (map_err (fun e => NativeAgent (OtherError (BadBox e))) (box_from_bytes (rb_box rq))) in
  do! _ := awaits false in
  do! a := io_get in
  do! (key, box_slot) := io_lift (ok_or (box_key b (ag_keys a)) (KeyNotNative (NotServed "ecdh-rebox"))) in
  do! ec_point := io_lift (map_err NativeAgent (session_decompress (ephemeral_pubkey b) (curve b))) in
  do! secret := native (card_loop turns (ascii "ecdh-rebox") (ck_guid key) box_slot (fun s => Session.ecdh_derive fuel s ec_point) 0) in
  do! b := io_lift (map_err (fun e => NativeAgent (OtherError (OpenMsg e))) (open_with_secret C b secret)) in
  do! a := io_get in
  do! (resp, g) := io_lift (map_err NativeAgent (reseal rq b (ag_rng a))) in
  do! _ := io_modify (set_rng g) in
  io_ret (Some (MkExtension REBOX_EXT resp)).
(** ** Operator acts *)

Definition ActIO (B : Type) : Type := IO (Status * ActDetail) Ag B.

(** [check_operator_act_attestation] *)
Definition check_operator_act_attestation (k : Token) (slot : Z) (requested : KeyData) : IO AttestRefusal Ag unit :=
  do! attestation := on_world NoAttestation (on_token k (yk_attest fuel slot)) in
  do! (pin, touch) := io_lift (map_err NoPolicy (parse_policy attestation)) in
  let policy := MkKeyPolicy pin touch in
  if negb (serves_operator_acts policy) then io_err (WrongPolicy policy)
  else
    do! (_, attested_key) := io_lift (map_err UnreadableAttestation (extract_public_key L attestation)) in
    if negb (bool_decide (attested_key = requested)) then io_err DifferentKey
    else
      do! intermediate := on_world NoIntermediate (on_token k (read_slot_on fuel L 0xF9)) in
      match x509_signed_by S attestation (slot_cert_der intermediate) with
      | None => io_err ChainUnreadable
      | Some false => io_err NotSignedByCard
      | Some true => io_ret tt
      end.

Definition attested (key : CachedKey) (requested : KeyData) (k : Token) : ActIO unit :=
  io_map_err (fun why => (RefusedPolicy, NotAttested (ck_slot_id key) why))
    (check_operator_act_attestation k (ck_slot_id key) requested).

Definition absent (e : ReconnectError) : Status * ActDetail := (CardAbsent, Absent e).

(** The prompt that shows the text. *)
Definition operator_act_prompt (class : DisplayClass) (key : CachedKey) (namespace text : bytes) : Prompt :=
  let card := short_id (ck_guid key) in
  MkPrompt (ascii "PIN for card " ++ card ++ ascii " to sign this operator act")
    (Some (prompt_context class card (ck_slot_id key) namespace text)) (Some (class_as_str class)).

Definition prompt_operator (p : Prompt) : ActIO bytes :=
  do! _ := awaits false in
  fun a => let (a, r) := askpass p a in
           Some (a, match r with
                    | Ok pin => Ok pin
                    | Err e => Err (operator_act_prompt_refusal e)
                    | Panic => Err (StatusError, ActAskpassTask)
                    end).

(** The second hold of the card: attested again, verified, told, signed. *)
Definition sign_operator_act (class : DisplayClass) (key : CachedKey) (requested : KeyData) (pin digest : bytes) : ActIO bytes :=
  do! _ := awaits false in
  with_card absent (ck_guid key) (fun k =>
    do! _ := attested key requested k in
    session_on (fun e => (CardAbsent, ActSession e)) k (
      do! _ := io_map_err operator_act_pin_refusal (on_session (verify_pin fuel pin)) in
      do! _ := on_agent (io_modify (notify_operator (ascii "piggy-agent: touch your card")
                 (ascii "card " ++ short_id (ck_guid key) ++ ascii ", slot " ++ fmt_hex2_upper (ck_slot_id key) ++
                  ascii ": touch it now to sign the " ++ class_as_str class ++ ascii " operator act"))) in
      do! before := io_get in
      do! signed := io_try (on_session (sign_prehash_with_alg fuel (ck_slot_id key) (alg_to_byte (ck_algorithm key)) digest)) in
      do! after := io_get in
      match signed with
      | inl signature => io_ret signature
      | inr PinRequired =>
          let elapsed := sign_took (fst before) (fst after) in
          let refusal := classify elapsed true in
          io_err (match refusal with TouchTimedOut => Cancelled | PinStateNotSatisfied => StatusError end,
                  CardRefusedSign refusal elapsed)
      | inr e => io_err (StatusError, ActPiv e)
      end)).

(** The act, for a key that is held here. *)
Definition serve_operator_act (key : CachedKey) (requested : KeyData) (details : bytes) : ActIO bytes :=
  do! request := io_lift (ok_or (request_decode details) (BadRequest, MalformedAct)) in
  do! hash := io_lift (ok_or (hash_parse (rq_hash_algorithm request)) (BadRequest, UnknownHash (rq_hash_algorithm request))) in
  do! class := io_lift (ok_or (display_class (rq_namespace request)) (RefusedNamespace, UnregisteredNamespace (rq_namespace request))) in
  do! text := io_lift (ok_or (displayable_text (rq_text request)) (RefusedText, UndisplayableText)) in
  do! _ := awaits false in
  do! _ := with_card absent (ck_guid key) (fun k => attested key requested k) in
  do! pin := prompt_operator (operator_act_prompt class key (rq_namespace request) text) in
  let d := signed_data (session_hashes S) (rq_namespace request) hash (rq_text request) in
  do! digest := io_lift (map_err (fun e => (StatusError, ActSignMsg e)) (prepare_sign_data (session_hashes S) (ck_algorithm key) d 0)) in
  do! card_signature := sign_operator_act class key requested pin digest in
  do! signature := io_lift (map_err (fun e => (StatusError, ActSignMsg e))
                              (to_ssh_signature (signature_well_formed S) (ck_algorithm key) card_signature 0)) in
  let encoded := ssh_signature (sig_algorithm signature) (sig_bytes signature) in
  io_ret (sshsig_blob (rq_key request) (rq_namespace request) hash encoded).

Definition act_answer {E} (m : ActIO bytes) : IO E Ag OperatorActAnswer :=
  do! r := io_try m in
  io_ret (match r with inl sshsig => ActSigned sshsig | inr (status, detail) => ActRefused status detail end).

Definition handle_operator_act (details : bytes) (extension : Extension) : IO AgentErr Ag OperatorActAnswer :=
  match key ← request_key details; public_key_from_bytes S key with
  | None => io_ret (ActRefused BadRequest MalformedAct)
  | Some public_key =>
      do! found := io_try (find_cached_key public_key) in
      match found with
      | inl key => act_answer (serve_operator_act key public_key details)
      | inr _ =>
          do! relayed := on_pool (forward_extension_for_key free_permit public_key extension) in
          io_ret (match relayed with
                  | Some (inl answer) => Relayed answer
                  | Some (inr unanswered) => ActRefused StatusError (Unanswered unanswered)
                  | None => ActRefused NoSuchKey NoAgentServes
                  end)
      end
  end.

(** ** Extensions *)

(** [Display] of a refusal's detail. *)
Context (detail_text : ActDetail -> bytes).

Definition named (name details : bytes) : option Extension := Some (MkExtension name details).

Definition act_response (answer : OperatorActAnswer) : res AgentErr (option Extension) :=
  match answer with
  | ActSigned sshsig => Ok (named OPERATOR_ACT_EXT (response_encode (response_signed sshsig)))
  | ActRefused status detail => Ok (named OPERATOR_ACT_EXT (response_encode (refusal status (detail_text detail))))
  | Relayed answer => answer
  end.

Definition native_names (proxy_only : bool) : list bytes :=
  [QUERY_EXT; SESSION_BIND_EXT; PIN_STATUS_EXT; CANONICAL; LEGACY; REBOX_EXT; ATTEST_EXT; AGENT_MODE_EXT] ++
  (if proxy_only then [] else [OPERATOR_ACT_EXT]).

Definition add_names (supported upstream : list bytes) : list bytes :=
  foldl (fun names name => if existsb (bytes_eqb name) names then names else names ++ [name]) supported upstream.

Definition query_details (supported : list bytes) : bytes :=
  mbind (fun name => to_be_bytes 4 (len name) ++ name) supported.

Definition handle_query (extension : Extension) : IO AgentErr Ag (option Extension) :=
  do! a := io_get in
  let supported := native_names (ag_proxy_only a) in
  do! supported :=
    (if pool_is_empty (ag_pool a) then io_ret supported
     else do! names := on_pool (query_extension_names free_permit (parse_query S) extension) in
          io_ret (add_names (supported ++ [UPSTREAM_STATUS_EXT]) names)) in
  io_ret (named QUERY_EXT (query_details supported)).

(** A native card extension: forwarded only when its key is not served here, the canonical ECDH name a second
    time under the legacy one. *)
Definition native_or_forwarded (extension : Extension) (m : IO NativeExtError Ag (option Extension)) : IO AgentErr Ag (option Extension) :=
  do! r := io_try m in
  match r with
  | inl resp => io_ret resp
  | inr (NativeAgent e) => io_err e
  | inr (KeyNotNative msg) =>
      do! a := io_get in
      if pool_is_empty (ag_pool a) then io_err (OtherError msg)
      else
        do! first := on_pool (forward_extension free_permit extension) in
        if is_ok first || negb (bytes_eqb (ext_name extension) CANONICAL) then io_lift first
        else pool_result (forward_extension free_permit (MkExtension LEGACY (ext_details extension)))
  end.

(** [extension_inner] *)
Definition extension (ext : Extension) : IO AgentErr Ag (option Extension) :=
  let name := ext_name ext in
  if bytes_eqb name QUERY_EXT then handle_query ext
  else if bytes_eqb name SESSION_BIND_EXT then
    do! _ := unless_no_upstreams (fan_out_extension free_permit ext) in io_ret None
  else if bytes_eqb name PIN_STATUS_EXT then
    do! _ := awaits false in
    do! a := io_get in
    let has_pin := if has_any (ag_pins a) then 1 else 0 in
    do! _ := awaits false in
    do! a := io_get in
    let has_card := match ag_keys a with [] => 0 | _ => 1 end in
    io_ret (named PIN_STATUS_EXT [has_pin; has_card])
  else if is_ecdh name then native_or_forwarded ext (handle_ecdh name (ext_details ext))
  else if bytes_eqb name REBOX_EXT then native_or_forwarded ext (handle_ecdh_rebox (ext_details ext))
  else if bytes_eqb name ATTEST_EXT then native_or_forwarded ext (handle_attest (ext_details ext))
  else if bytes_eqb name OPERATOR_ACT_EXT then
    do! answer := handle_operator_act (ext_details ext) ext in io_lift (act_response answer)
  else if bytes_eqb name AGENT_MODE_EXT then
    do! _ := awaits false in
    do! a := io_get in
    let mode := MkAgentMode (ag_proxy_only a) (len (ag_keys a)) (len (pl_links (ag_pool a))) (ag_service_name a) (ag_event_driven a) in
    do! json := io_lift (ok_or (json_mode S mode) (OtherError (JsonMsg "agent-mode"))) in
    io_ret (named AGENT_MODE_EXT json)
  else
    do! a := io_get in
    if pool_is_empty (ag_pool a) then io_err (UnsupportedCommand 27)
    else if bytes_eqb name UPSTREAM_STATUS_EXT then
      do! statuses := on_pool (pool_status free_permit) in
      do! json := io_lift (ok_or (json_status S statuses) (OtherError (JsonMsg "upstream-status"))) in
      io_ret (named UPSTREAM_STATUS_EXT json)
    else pool_result (forward_extension free_permit ext).

(** ** [impl Session for PiggyAgent] *)

Inductive AgentRequest : Type :=
| RequestIdentities
| Sign (r : SignRequest)
| Lock (key : bytes)
| Unlock (key : bytes)
| Extend (e : Extension)
| AddIdentity (constrained : bool) (identity : bytes).

Inductive AgentReply : Type :=
| Identities (ids : list Identity)
| SignatureMade (s : Signature)
| Done
| Extended (e : option Extension).

Definition serve (r : AgentRequest) : IO AgentErr Ag AgentReply :=
  match r with
  | RequestIdentities => do! ids := request_identities in io_ret (Identities ids)
  | Sign r => do! s := sign r in io_ret (SignatureMade s)
  | Lock key => do! _ := lock key in io_ret Done
  | Unlock key => do! _ := unlock key in io_ret Done
  | Extend e => do! r := extension e in io_ret (Extended r)
  | AddIdentity constrained identity => do! _ := add_identity constrained identity in io_ret Done
  end.
End Handlers.
