(* ===== verification/AgentSafe.v ===== *)
(** * AgentSafe: what the agent's handlers guarantee

    Over any cards, any operator and any other clients: what precedes the signature
    of an operator act, which requests leave the agent, and that the PIN loop
    ends. *)

From Stdlib Require Import ZArith Lia String.
From stdpp Require Import base tactics list numbers gmap.
From S2P Require Import Prelude PivError Guid Wire Tlv Apdu Transport Slot Crypto PivBox AgentExt Session Effects.
From S2P Require Import PinCache OperatorAct SigFormat Presence Upstream AgentCards AgentSession.

Local Open Scope Z_scope.

Section Handlers.
Context (C : Crypto) {W : Type} `{CardWorld W} {A : Type} `{UpstreamAgent SessionMsg A} {Q : Type}.
Context (fuel : nat) (L : CertLib) (S : SessionLib).

Abbreviation Ag := (Agent C W A Q).
Abbreviation Token := (PivToken (card_handle W)).

Context (askpass : Prompt -> Ag -> Ag * res OracleError bytes) (meanwhile : bool -> Ag -> Ag).
(** ** The loop ends *)

Lemma lookup_forget g c : lookup_pin g (forget_for g c) = None.
Proof.
  unfold lookup_pin, forget_for. cbn [pc_verified pc_offered pc_offered_rejected_by]. rewrite lookup_delete_eq.
  destruct (pc_offered c); [|reflexivity]. now rewrite bool_decide_false by set_solver.
Qed.

(** A card has nothing cached and no offer to try. *)
Definition unknown_pin (g : Guid) (a : Ag) : Prop := lookup_pin g (ag_pins a) = None.

Section Loop.
Context {B : Type} (op : bytes) (g : Guid) (slot : Z) (use : PivSlot -> IO PivError (PinSession (W * card_handle W)) B).
Context (Hothers : forall held a, unknown_pin g a -> unknown_pin g (meanwhile held a)).

Lemma ensure_pin_unknown (a a' : Ag) acq :
  unknown_pin g a -> ensure_pin C askpass meanwhile op g a = Some (a', Ok acq) -> aq_offered acq = false.
Proof.
  intros Ha He. unfold ensure_pin in He. bind_inv He as a1 u1 H1. unfold awaits in H1. pure_inv H1. bind_inv He as a2 x H2. injection H2 as <- <-.
  assert (Hn : forall a, unknown_pin g a -> from_cache g (ag_pins a) = None) by (intros b Hb; unfold from_cache, unknown_pin in *; now rewrite Hb).
  assert (H1 := Hothers false a Ha). rewrite (Hn _ H1) in He. bind_inv He as a3 u3 H3. unfold awaits in H3. pure_inv H3.
  bind_inv He as a4 x H4. injection H4 as <- <-. rewrite (Hn _ (Hothers false _ H1)) in He. bind_inv He as a5 pin H5. pure_inv He. reflexivity.
Qed.

Lemma finish_ends (s : PivSlot) (st st' : Ag * OpenSession W) n : finish C use s st <> Some (st', Ok (inl n)).
Proof. intros Hf. unfold finish in Hf. bind_inv Hf as st1 b H1. discriminate. Qed.

Lemma forget_then (st st' : Ag * OpenSession W) (n n' : Z) :
  (do! _ := on_agent C (forget_pin C meanwhile g) in io_ret (E := AgentErr) (inl (B := B) n)) st = Some (st', Ok (inl n')) ->
  unknown_pin g (fst st') /\ n' = n.
Proof.
  intros Hf. bind_inv Hf as st1 u Hf1. unfold io_ret in Hf. injection Hf as <- <-. unfold on_agent in Hf1.
  destruct (forget_pin C meanwhile g (fst st)) as [[x y]|] eqn:E; [|discriminate]. injection Hf1 as <- ->. unfold forget_pin, with_pins in E.
  bind_inv E as y1 u1 E1. pure_inv E. split; [apply lookup_forget|reflexivity].
Qed.

(** A turn that asks for another one has forgotten the card's PIN; it counts, unless it declined an offer. *)
Lemma card_session_again attempt attempt' acquired (st st' : Ag * OpenSession W) :
  card_session C fuel L meanwhile g slot use attempt acquired st = Some (st', Ok (inl attempt')) ->
  unknown_pin g (fst st') /\
  (attempt' = attempt + 1 /\ attempt < PIN_RETRY_LIMIT \/
   attempt' = attempt /\ exists acq, acquired = Some acq /\ aq_offered acq = true).
Proof.
  intros Hb. unfold card_session in Hb. bind_inv Hb as b1 s Hs. destruct acquired as [acq|]; [|now apply finish_ends in Hb].
  bind_inv Hb as b2 declined Hd. destruct declined.
  - apply forget_then in Hb as [Hu ->]. split; [exact Hu|right]. split; [reflexivity|]. exists acq. split; [reflexivity|].
    unfold offer_declined in Hd. destruct (aq_offered acq); [reflexivity|discriminate].
  - bind_inv Hb as b3 verified Hv. destruct verified as [u|e]; [bind_inv Hb as b4 u4 Hc; now apply finish_ends in Hb|].
    destruct e; try discriminate. destruct (attempt <? PIN_RETRY_LIMIT) eqn:Hlt; [|discriminate]. bprop.
    apply forget_then in Hb as [Hu ->]. auto.
Qed.

Lemma turn_again attempt attempt' (a a' : Ag) :
  card_turn C fuel L askpass meanwhile op g slot use attempt a = Some (a', Ok (inl attempt')) ->
  unknown_pin g a' /\ (attempt' = attempt + 1 /\ attempt < PIN_RETRY_LIMIT \/ attempt' = attempt /\ ~ unknown_pin g a).
Proof.
  intros Ht. unfold card_turn in Ht. bind_inv Ht as a1 acquired Hacq. bind_inv Ht as a2 u2 Hw.
  unfold with_card in Ht. bind_inv Ht as a3 k Hk. apply io_finally_inv in Ht as (a4 & Ht & ->).
  unfold session_on in Ht. bind_inv Ht as a5 o Ho. destruct (card_session _ _ _ _ _ _ _ _ _ _) as [[[a6 o6] r6]|] eqn:Hb; [|discriminate].
  injection Ht as <- ->. apply card_session_again in Hb as [Hu Hc]. split; [exact Hu|].
  destruct Hc as [Hc|(-> & acq & -> & Hoff)]; [auto|right]. split; [reflexivity|]. intros Hun.
  unfold acquire in Hacq. destruct (slot =? 0x9E); [discriminate|]. bind_inv Hacq as c1 acq' He. pure_inv Hacq.
  apply (ensure_pin_unknown _ _ _ Hun) in He. congruence.
Qed.

(** When every turn comes back, three are enough: one may decline an offer, and one may be a wrong PIN. *)
Lemma loop_ends n (a : Ag) :
  (forall attempt a, card_turn C fuel L askpass meanwhile op g slot use attempt a <> None) ->
  exists r, card_loop C fuel L askpass meanwhile (3 + n) op g slot use 0 a = Some r.
Proof.
  intros Hret.
  assert (Hstep : forall m attempt b, (forall b' attempt', card_turn C fuel L askpass meanwhile op g slot use attempt b = Some (b', Ok (inl attempt')) ->
      exists r, card_loop C fuel L askpass meanwhile m op g slot use attempt' b' = Some r) ->
    exists r, card_loop C fuel L askpass meanwhile (Datatypes.S m) op g slot use attempt b = Some r).
  { intros m attempt b Hnext. cbn [card_loop]. unfold io_bind.
    destruct (card_turn _ _ _ _ _ _ _ _ _ attempt b) as [[b' [[attempt'|x]|e|]]|] eqn:E; [|unfold io_ret; eauto..|].
    - now apply Hnext.
    - now destruct (Hret attempt b). }
  assert (Hlast : forall m b, unknown_pin g b -> exists r, card_loop C fuel L askpass meanwhile (Datatypes.S m) op g slot use 1 b = Some r).
  { intros m b Hb. apply Hstep. intros b' attempt' Ht. apply turn_again in Ht as [_ [[_ Hl]|[_ Hn]]]; [unfold PIN_RETRY_LIMIT in Hl; lia|contradiction]. }
  apply (Hstep (Datatypes.S (Datatypes.S n))). intros b1 n1 H1. apply turn_again in H1 as [Hu1 [[-> _]|[-> _]]]; [now apply Hlast|].
  apply Hstep. intros b2 n2 H2. apply turn_again in H2 as [Hu2 [[-> _]|[_ Hn]]]; [now apply Hlast|contradiction].
Qed.
End Loop.
Context (notify_operator : bytes -> bytes -> Ag -> Ag) (sign_took : Ag -> Ag -> Z).
Context (free_permit : Z -> Upstream -> bool).

(** ** The attestation *)

(** The check of the key in [slot] passed on the card [k], in the state [a]: what the card said, in the order it was asked; [a'] is
    the state after it. *)
Definition attests (k : Token) (slot : Z) (requested : KeyData) (a a' : Ag) : Prop :=
  exists attestation intermediate alg (w1 w2 : W),
    on_token k (yk_attest fuel slot) (ag_world a) = Some (w1, Ok attestation) /\
    parse_policy attestation = Ok (PinPolicy.Always, TouchPolicy.Always) /\
    extract_public_key L attestation = Ok (alg, requested) /\
    on_token k (read_slot_on fuel L 0xF9) w1 = Some (w2, Ok intermediate) /\
    x509_signed_by S attestation (slot_cert_der intermediate) = Some true /\
    a' = set_world C w2 a.

Lemma on_world_Ok_inv {E F R} (f : E -> F) (m : IO E W R) (a a' : Ag) r :
  on_world C f m a = Some (a', Ok r) -> exists w, m (ag_world a) = Some (w, Ok r) /\ a' = set_world C w a.
Proof. unfold on_world. destruct (m (ag_world a)) as [[w [x|e|]]|]; try discriminate. intros [= <- <-]. eauto. Qed.

Lemma set_world_twice w w' (a : Ag) : set_world C w (set_world C w' a) = set_world C w a.
Proof. reflexivity. Qed.

Lemma check_attests k slot requested (a a' : Ag) u :
  check_operator_act_attestation C fuel L S k slot requested a = Some (a', Ok u) -> attests k slot requested a a'.
Proof.
  intros Hc. unfold check_operator_act_attestation in Hc.
  bind_inv Hc as a1 attestation Hatt. apply on_world_Ok_inv in Hatt as (w1 & Hatt & ->).
  bind_inv Hc as a2 [pin touch] Hpol. pure_inv Hpol. cbv zeta in Hc.
  destruct (negb (serves_operator_acts _)) eqn:Hp; [discriminate|]. bprop. apply bool_decide_eq_true in Hp. injection Hp as -> ->.
  bind_inv Hc as a3 [alg key] Hkey. pure_inv Hkey. case_bool_decide as Hk; [subst key|discriminate]. cbn [negb] in Hc.
  bind_inv Hc as a4 intermediate Hslot. apply on_world_Ok_inv in Hslot as (w2 & Hslot & ->).
  destruct (x509_signed_by S attestation (slot_cert_der intermediate)) as [[]|] eqn:Hx; try discriminate.
  pure_inv Hc. exists attestation, intermediate, alg, w1, w2. repeat split; assumption.
Qed.

(** ** The signature of an act *)

(** A hold of the card with the GUID: [body] relates the state in which the card was found, and the card, to the one in which it is let go. *)
Definition hold (g : Guid) (body : Token -> Ag -> Ag -> Prop) (a a' : Ag) : Prop :=
  exists (k : Token) (w : W) (b : Ag),
    reconnect_to_token fuel g (ag_world (meanwhile false a)) = Some (w, Ok k) /\
    body k (set_world C w (meanwhile false a)) b /\
    a' = set_world C (drop_token k (ag_world b)) b.

Lemma with_card_hold {E R} (f : ReconnectError -> E) g (body : Token -> IO E Ag R) (P : Token -> Ag -> Ag -> Prop) (a a' : Ag) r :
  (forall k b b', body k b = Some (b', Ok r) -> P k b b') ->
  with_card C fuel f g body (meanwhile false a) = Some (a', Ok r) -> hold g P a a'.
Proof.
  intros HP Hc. unfold with_card in Hc. bind_inv Hc as a1 k Hk. apply on_world_Ok_inv in Hk as (w & Hk & ->).
  apply io_finally_inv in Hc as (a2 & Hc & ->). exists k, w, a2. auto.
Qed.

Lemma session_on_Ok_inv {E R} (f : PivError -> E) k (body : IO E (Ag * OpenSession W) R) (a a' : Ag) r :
  session_on C fuel f k body a = Some (a', Ok r) ->
  exists w s st', open_session fuel k (ag_world a) = Some (w, Ok s) /\ body (set_world C w a, s) = Some (st', Ok r) /\
    a' = set_world C (drop_open (ag_world (fst st'), snd st')) (fst st').
Proof.
  intros Hs. unfold session_on in Hs. bind_inv Hs as a1 s Ho. apply on_world_Ok_inv in Ho as (w & Ho & ->).
  destruct (body (set_world C w a, s)) as [[[a2 s2] b]|] eqn:Hb; [|discriminate]. injection Hs as <- ->. exists w, s, (a2, s2). auto.
Qed.

(** What is done on the card that signs, each step in the state that the one before it left: the key is attested, a session opened, the
    PIN verified in it, the operator told to touch the card, and the digest signed. *)
Definition attested_then_signed (key : CachedKey) (requested : KeyData) (class : DisplayClass) (pin digest sg : bytes)
    (k : Token) (a a' : Ag) : Prop :=
  exists (b : Ag) (w : W) (s : OpenSession W) (c1 c2 : Ag * OpenSession W),
    attests k (ck_slot_id key) requested a b /\
    open_session fuel k (ag_world b) = Some (w, Ok s) /\
    on_session C (verify_pin fuel pin) (set_world C w b, s) = Some (c1, Ok tt) /\
    on_session C (sign_prehash_with_alg fuel (ck_slot_id key) (alg_to_byte (ck_algorithm key)) digest)
      (notify_operator (ascii "piggy-agent: touch your card")
         (ascii "card " ++ short_id (ck_guid key) ++ ascii ", slot " ++ fmt_hex2_upper (ck_slot_id key) ++
          ascii ": touch it now to sign the " ++ class_as_str class ++ ascii " operator act") (fst c1), snd c1) = Some (c2, Ok sg) /\
    a' = set_world C (drop_open (ag_world (fst c2), snd c2)) (fst c2).

Lemma sign_operator_act_inv class key requested pin digest (a a' : Ag) sg :
  sign_operator_act C fuel L S meanwhile notify_operator sign_took class key requested pin digest a = Some (a', Ok sg) ->
  hold (ck_guid key) (attested_then_signed key requested class pin digest sg) a a'.
Proof.
  intros Hs. unfold sign_operator_act in Hs. bind_inv Hs as b1 u1 Hw. unfold awaits in Hw. pure_inv Hw.
  revert Hs. apply with_card_hold. intros k b b' Hs.
  bind_inv Hs as b4 u2 Hatt. unfold attested in Hatt. pure_inv Hatt. apply check_attests in Hatt.
  apply session_on_Ok_inv in Hs as (w & o & st' & Ho & Hs & ->).
  bind_inv Hs as c1 [] Hv. pure_inv Hv. bind_inv Hs as c2 u3 Hn. unfold on_agent, io_modify in Hn. injection Hn as <- <-.
  bind_inv Hs as c3 x Hg. injection Hg as <- <-. bind_inv Hs as c4 signed Hsig. bind_inv Hs as c5 y Hg'. injection Hg' as <- <-.
  destruct signed as [sg'|e]; [pure_inv Hs; pure_inv Hsig|destruct e; discriminate].
  exists b4, w, o, c1, c4. auto.
Qed.

(** What precedes the signature of an act on the key [key], from the state [a] on, each step in the state that the one before
    it left: the request was of a registered namespace; a card with the key's GUID attested it; the text was shown as it is on
    the prompt that took the PIN; and what the card then signed, attested again and
    with that PIN, is the digest of that very text. *)
Definition shown_first (key : CachedKey) (public_key : KeyData) (details blob : bytes) (a a' : Ag) : Prop :=
  exists rq class hash pin digest card_signature signature (a1 a2 : Ag),
    request_decode details = Some rq /\ display_class (rq_namespace rq) = Some class /\
    hash_parse (rq_hash_algorithm rq) = Some hash /\ displayable_text (rq_text rq) = Some (rq_text rq) /\
    hold (ck_guid key) (fun k => attests k (ck_slot_id key) public_key) a a1 /\
    askpass (operator_act_prompt class key (rq_namespace rq) (rq_text rq)) (meanwhile false a1) = (a2, Ok pin) /\
    prepare_sign_data (session_hashes S) (ck_algorithm key) (signed_data (session_hashes S) (rq_namespace rq) hash (rq_text rq)) 0 = Ok digest /\
    hold (ck_guid key) (attested_then_signed key public_key class pin digest card_signature) a2 a' /\
    to_ssh_signature (signature_well_formed S) (ck_algorithm key) card_signature 0 = Ok signature /\
    blob = sshsig_blob (rq_key rq) (rq_namespace rq) hash (ssh_signature (sig_algorithm signature) (sig_bytes signature)).

Lemma serve_shows key public_key details (a a' : Ag) blob :
  serve_operator_act C fuel L S askpass meanwhile notify_operator sign_took key public_key details a = Some (a', Ok blob) ->
  shown_first key public_key details blob a a'.
Proof.
  intros Hs. unfold serve_operator_act in Hs.
  bind_inv Hs as b1 rq Hrq. pure_inv Hrq. bind_inv Hs as b2 hash Hh. pure_inv Hh. bind_inv Hs as b3 class Hc. pure_inv Hc.
  bind_inv Hs as b4 text Ht. pure_inv Ht. bind_inv Hs as b5 u1 Hw1. unfold awaits in Hw1. pure_inv Hw1. bind_inv Hs as b6 u2 Ha1.
  apply (with_card_hold _ _ _ (fun k => attests k (ck_slot_id key) public_key)) in Ha1;
    [|intros k c c' Hc'; unfold attested in Hc'; pure_inv Hc'; now apply check_attests in Hc'].
  bind_inv Hs as b7 pin Hp. unfold prompt_operator in Hp. bind_inv Hp as b8 u3 Hw2. unfold awaits in Hw2. pure_inv Hw2.
  destruct (askpass _ (meanwhile false b6)) as [b9 [pin'|e|]] eqn:Hask; try discriminate. injection Hp as <- ->. cbv zeta in Hs.
  bind_inv Hs as b10 digest Hd. pure_inv Hd. bind_inv Hs as b11 sg Hsg. apply sign_operator_act_inv in Hsg.
  bind_inv Hs as b12 signature Hto. pure_inv Hto. pure_inv Hs.
  assert (text = rq_text rq) as -> by now apply displayable_exact in Ht as [-> _].
  eexists rq, class, hash, pin, digest, sg, signature, _, _. repeat (split; [eassumption|]). reflexivity.
Qed.

(** ** What is forwarded *)

(** [m] never says that the key is someone else's. *)
Definition never_misses {R} (m : IO NativeExtError Ag R) : Prop := forall a a' msg, m a <> Some (a', Err (KeyNotNative msg)).

Lemma never_misses_native {R} (m : IO AgentErr Ag R) : never_misses (native C m).
Proof. intros a a' msg. unfold native, io_map_err. destruct (m a) as [[a1 [x|e|]]|]; discriminate. Qed.

Lemma never_misses_ssh {R} (r : res SshError R) : never_misses (lift_ssh C r).
Proof. intros a a' msg. unfold lift_ssh, io_lift. destruct r; discriminate. Qed.

Lemma never_misses_lift {R E} (f : E -> AgentErr) (r : res E R) : never_misses (io_lift (map_err (fun e => NativeAgent (f e)) r)).
Proof. intros a a' msg. unfold io_lift. destruct r; discriminate. Qed.

Lemma never_misses_ret {R} (x : R) : never_misses (io_ret x).
Proof. intros a a' msg. discriminate. Qed.

Lemma never_misses_modify f : never_misses (io_modify f).
Proof. intros a a' msg. discriminate. Qed.

Lemma never_misses_get : never_misses io_get.
Proof. intros a a' msg. discriminate. Qed.

Lemma never_misses_bind {R R'} (m : IO NativeExtError Ag R) (k : R -> IO NativeExtError Ag R') :
  never_misses m -> (forall x, never_misses (k x)) -> never_misses (io_bind m k).
Proof. intros Hm Hk a a' msg Hr. apply io_bind_Err_inv in Hr as [Hr|(a1 & x & _ & Hr)]; [exact (Hm _ _ _ Hr)|exact (Hk x _ _ _ Hr)]. Qed.

Lemma served_key_miss label blob (a a' : Ag) msg :
  served_key C S meanwhile label blob a = Some (a', Err (KeyNotNative msg)) ->
  exists pubkey, public_key_from_bytes S blob = Some pubkey /\ a' = meanwhile false a /\ find_key (ag_keys a') pubkey = None.
Proof.
  unfold served_key. intros Hs. apply io_bind_Err_inv in Hs as [Hs|(a1 & pubkey & Hp & Hs)].
  { unfold io_lift in Hs. destruct (public_key_from_bytes S blob); discriminate. }
  pure_inv Hp. exists pubkey. split; [reflexivity|]. unfold io_bind, io_try, find_cached_key, awaits, io_modify, io_get, io_lift in Hs.
  unfold io_bind in Hs. destruct (find_key (ag_keys (meanwhile false a)) pubkey) as [key|] eqn:Hf; cbn in Hs; [discriminate|].
  injection Hs as <- _. auto.
Qed.

(** The key blob (for a rebox, the box) that a request names: the first string in the one string of its details. *)
Definition names (details blob : bytes) : Prop :=
  exists rest trailing, details = enc32 (enc32 blob ++ rest) ++ trailing /\ len (enc32 blob ++ rest) < 2 ^ 32 /\ len blob < 2 ^ 32.

(** The blob's key is not among [keys]. *)
Definition stranger_key (blob : bytes) (keys : list CachedKey) : Prop :=
  exists pubkey, public_key_from_bytes S blob = Some pubkey /\ forall k, In k keys -> ck_public_key k <> pubkey.

(** No card of the box's GUID is among [keys]; without a GUID, no key that is the recipient's. *)
Definition stranger_box (blob : bytes) (keys : list CachedKey) : Prop :=
  exists b, box_from_bytes blob = Ok b /\
    match guid_slot b with
    | Some (g, _) => forall k, In k keys -> ck_guid k <> g
    | None => forall k ec want, In k keys -> ck_public_key k = KeyEcdsa ec ->
                canonicalize_uncompressed C (recipient_pubkey b) = Ok want -> as_sec1_bytes S ec <> want
    end.

(** A miss: the request names a key that is not served, the others had one turn, and that is all that happened: no card was touched and
    nobody was asked. *)
Definition missed (stranger : bytes -> list CachedKey -> Prop) (details : bytes) (a a' : Ag) : Prop :=
  a' = meanwhile false a /\ exists blob, names details blob /\ stranger blob (ag_keys a').

(** A request of a size that the machine can hold. *)
Definition in_memory (details : bytes) : Prop := bytes_ok details /\ len details < 2 ^ 63.

Lemma read_ssh_string_inv data s p :
  in_memory data -> read_ssh_string data 0 = Ok (s, p) -> exists t, data = enc32 s ++ t /\ len s < 2 ^ 32.
Proof.
  intros [Hb Hl] Hr. pose proof (read_ssh_string_split data 0 Hb ltac:(pose proof (len_nonneg data); lia) Hl) as Hs. rewrite zdrop_0 in Hs.
  destruct (split_string data) as [[s' t]|] eqn:E; [|destruct Hs as [e Hs]; congruence].
  destruct Hs as [Hs _]. rewrite Hs in Hr. injection Hr as -> _. apply split_string_inv in E as [-> Hn]; eauto.
Qed.

Lemma read_twice details inner blob p q :
  in_memory details -> read_ssh_string details 0 = Ok (inner, p) -> read_ssh_string inner 0 = Ok (blob, q) -> names details blob.
Proof.
  intros Hd Hi Hb. destruct (read_ssh_string_inv _ _ _ Hd Hi) as (t & -> & Hn). destruct Hd as [Ho Hl].
  assert (Hin : in_memory inner).
  { split; [|lia]. apply Forall_app in Ho as [Ho _]. unfold enc32 in Ho. now apply Forall_app in Ho as [_ Ho]. }
  destruct (read_ssh_string_inv _ _ _ Hin Hb) as (t' & -> & Hn'). exists t', t. auto.
Qed.

(** What both reads at the head of a parser gave. *)
Ltac first_reads details H E1 E2 :=
  destruct (read_ssh_string details 0) as [[?inner ?p]|?|] eqn:E1; try discriminate H; cbn [res_bind map_err] in H;
  match type of E1 with _ = Ok (?inner, _) =>
    destruct (read_ssh_string inner 0) as [[?blob ?q]|?|] eqn:E2; try discriminate H; cbn [res_bind map_err] in H
  end.

Lemma served_then_miss {R} label details blob (k : CachedKey -> IO NativeExtError Ag R) (a a' : Ag) msg :
  (forall key, never_misses (k key)) -> names details blob ->
  io_bind (served_key C S meanwhile label blob) k a = Some (a', Err (KeyNotNative msg)) -> missed stranger_key details a a'.
Proof.
  intros Hk Hn Hs. apply io_bind_Err_inv in Hs as [Hs|(a1 & key & _ & Hs)]; [|now destruct (Hk key _ _ _ Hs)].
  apply served_key_miss in Hs as (pubkey & Hp & -> & Hf). split; [reflexivity|]. exists blob. split; [exact Hn|]. exists pubkey. split; [exact Hp|].
  intros key Hi Heq. apply (find_none _ _ Hf) in Hi. apply bool_decide_eq_false in Hi. contradiction.
Qed.

Lemma box_key_miss b keys : box_key C S b keys = None ->
  match guid_slot b with
  | Some (g, _) => forall k, In k keys -> ck_guid k <> g
  | None => forall k ec want, In k keys -> ck_public_key k = KeyEcdsa ec ->
              canonicalize_uncompressed C (recipient_pubkey b) = Ok want -> as_sec1_bytes S ec <> want
  end.
Proof.
  unfold box_key. destruct (guid_slot b) as [[g slot]|].
  - unfold find_key_by_guid. destruct (find _ keys) eqn:Hf; [discriminate|]. intros _ k Hi Heq. apply (find_none _ _ Hf) in Hi.
    apply bool_decide_eq_false in Hi. contradiction.
  - unfold find_key_by_recipient_pubkey. intros Hm k ec want Hi Hk Hw. rewrite Hw in Hm. destruct (find _ keys) eqn:Hf; [discriminate|].
    apply (find_none _ _ Hf) in Hi. rewrite Hk in Hi. intros <-. unfold bytes_eqb in Hi. now apply bool_decide_eq_false in Hi.
Qed.

Context (turns : nat).

Create HintDb misses.
#[local] Hint Resolve never_misses_native never_misses_ssh never_misses_lift never_misses_ret never_misses_modify never_misses_get : misses.

Lemma ecdh_miss name details (a a' : Ag) msg :
  in_memory details ->
  handle_ecdh C fuel L S askpass meanwhile turns name details a = Some (a', Err (KeyNotNative msg)) -> missed stranger_key details a a'.
Proof.
  unfold handle_ecdh. intros Hd Hs. apply io_bind_Err_inv in Hs as [Hs|(a1 & [[blob partner] flags] & Hp & Hs)]; [now apply never_misses_ssh in Hs|].
  unfold lift_ssh in Hp. pure_inv Hp. revert Hs. apply served_then_miss.
  - intros key. apply never_misses_bind; [auto with misses|]. intros point.
    assert (Hn : never_misses (native_err (B := option Extension) C NotEcKey)) by (intros x y m; discriminate).
    destruct (ck_algorithm key); try exact Hn; (apply never_misses_bind; [auto with misses|]; intros x; auto with misses).
  - unfold parse_ecdh_request in Hp. first_reads details Hp E1 E2. inv_ok. repeat match goal with x : _ * _ |- _ => destruct x end. inv_ok.
    eapply read_twice; eassumption.
Qed.

Lemma attest_miss details (a a' : Ag) msg :
  in_memory details ->
  handle_attest C fuel L S meanwhile details a = Some (a', Err (KeyNotNative msg)) -> missed stranger_key details a a'.
Proof.
  unfold handle_attest. intros Hd Hs. apply io_bind_Err_inv in Hs as [Hs|(a1 & blob & Hp & Hs)]; [now apply never_misses_ssh in Hs|].
  unfold lift_ssh in Hp. pure_inv Hp. revert Hs. apply served_then_miss; [intros key; auto with misses|].
  unfold parse_attest_request in Hp. first_reads details Hp E1 E2. inv_ok. eapply read_twice; eassumption.
Qed.

Lemma rebox_miss details (a a' : Ag) msg :
  in_memory details ->
  handle_ecdh_rebox C fuel L S askpass meanwhile turns details a = Some (a', Err (KeyNotNative msg)) -> missed stranger_box details a a'.
Proof.
  unfold handle_ecdh_rebox. intros Hd Hs.
  apply io_bind_Err_inv in Hs as [Hs|(a1 & rq & Hp & Hs)]; [now apply (never_misses_lift (fun e => e)) in Hs|]. pure_inv Hp.
  apply io_bind_Err_inv in Hs as [Hs|(a2 & b & Hb & Hs)]; [now apply never_misses_lift in Hs|]. pure_inv Hb.
  apply io_bind_Err_inv in Hs as [Hs|(a3 & u & Hw & Hs)]; [discriminate|]. unfold awaits in Hw. pure_inv Hw.
  apply io_bind_Err_inv in Hs as [Hs|(a4 & x & Hg & Hs)]; [discriminate|]. injection Hg as <- <-.
  apply io_bind_Err_inv in Hs as [Hs|(a5 & [key slot] & Hk & Hs)].
  - unfold io_lift in Hs. destruct (box_key C S b (ag_keys (meanwhile false a))) eqn:E; [discriminate|]. injection Hs as <- _.
    split; [reflexivity|]. exists (rb_box rq). split.
    + unfold parse_rebox_request in Hp. first_reads details Hp E1 E2. inv_ok. repeat match goal with x : _ * _ |- _ => destruct x end. inv_ok.
      repeat match goal with x : _ * _ |- _ => destruct x end. inv_ok. eapply read_twice; eassumption.
    + exists b. split; [assumption|]. now apply box_key_miss.
  - exfalso. revert Hs. match goal with |- ?m _ = _ -> _ => assert (Hn : never_misses m); [|exact (Hn _ _ _)] end.
    repeat first [apply never_misses_bind; [first [apply (never_misses_lift (fun e => e))|auto with misses]|intros ?]
                 |match goal with |- never_misses (let '(_, _) := ?x in _) => destruct x end].
    auto with misses.
Qed.

(** The extensions that the agent's own cards answer, with what makes their key a stranger's. *)
Inductive card_extension : Extension -> IO NativeExtError Ag (option Extension) -> (bytes -> list CachedKey -> Prop) -> Prop :=
| EcdhExtension name details : In name [CANONICAL; LEGACY] ->
    card_extension (MkExtension name details) (handle_ecdh C fuel L S askpass meanwhile turns name details) stranger_key
| ReboxExtension details :
    card_extension (MkExtension REBOX_EXT details) (handle_ecdh_rebox C fuel L S askpass meanwhile turns details) stranger_box
| AttestExtension details :
    card_extension (MkExtension ATTEST_EXT details) (handle_attest C fuel L S meanwhile details) stranger_key.

Context (detail_text : ActDetail -> bytes).
Abbreviation agent_extension :=
  (AgentSession.extension C fuel L S askpass meanwhile notify_operator sign_took free_permit turns detail_text).

Lemma card_extension_handled ext m stranger (a : Ag) :
  card_extension ext m stranger -> agent_extension ext a = native_or_forwarded C meanwhile free_permit ext m a.
Proof. intros [name details [<-|[<-|[]]]| |]; reflexivity. Qed.

Lemma card_extension_miss ext m stranger (a a' : Ag) msg :
  card_extension ext m stranger -> in_memory (ext_details ext) -> m a = Some (a', Err (KeyNotNative msg)) ->
  missed stranger (ext_details ext) a a'.
Proof. intros [name details Hn|details|details] Hd Hm; [eapply ecdh_miss|eapply rebox_miss|eapply attest_miss]; eassumption. Qed.

(** ** Properties *)


(** C19 (error). What leaves the agent. An ECDH, rebox or attestation request is answered by the agent's own cards, with the value or
    the error of its handler, unless the handler says that the key is not served; only then is it forwarded, or refused when there is no
    upstream. The handler says so only when it is the case: the key (for a box: the
    GUID, or the recipient where it has none) that stands in the request's bytes is not that of any served key, the
    other clients had their one turn, and no card was touched and no PIN asked for; so a key that is served, a
    refused PIN or a card that fails is never tried elsewhere. *)
Theorem only_misses_are_forwarded ext m stranger (a a' : Ag) r :
  card_extension ext m stranger -> in_memory (ext_details ext) -> m a = Some (a', r) ->
  match r with
  | Ok resp => agent_extension ext a = Some (a', Ok resp)
  | Err (NativeAgent e) => agent_extension ext a = Some (a', Err e)
  | Panic => agent_extension ext a = Some (a', Panic)
  | Err (KeyNotNative msg) =>
      a' = meanwhile false a /\
      (exists blob, names (ext_details ext) blob /\ stranger blob (ag_keys a')) /\
      (if pool_is_empty (ag_pool a') then agent_extension ext a = Some (a', Err (OtherError msg))
       else
         let a1 := meanwhile false a' in
         let (p1, r1) := Upstream.forward_extension free_permit ext (ag_pool a1) in
         let b1 := set_pool C p1 a1 in
         agent_extension ext a =
           if is_ok r1 || negb (bytes_eqb (ext_name ext) CANONICAL) then Some (b1, r1)
           else
             let a2 := meanwhile false b1 in
             let (p2, r2) := Upstream.forward_extension free_permit (MkExtension LEGACY (ext_details ext)) (ag_pool a2) in
             Some (set_pool C p2 a2, r2))
  end.
Proof.
  intros Hc Hd Hm. rewrite (card_extension_handled _ _ _ a Hc). destruct r as [resp|[msg|e]|];
    try (unfold native_or_forwarded, io_bind, io_try; now rewrite Hm).
  destruct (card_extension_miss _ _ _ _ _ _ Hc Hd Hm) as [-> Hmiss]. split; [reflexivity|]. split; [exact Hmiss|].
  unfold native_or_forwarded, io_bind, io_try. rewrite Hm. unfold io_get. destruct (pool_is_empty _); [reflexivity|].
  unfold on_pool, pool_result, awaits, io_bind, io_modify, io_lift.
  destruct (Upstream.forward_extension free_permit ext _) as [p1 r1]. destruct (is_ok r1 || _); [now destruct r1|].
  unfold on_pool, awaits, io_bind, io_modify.
  now destruct (Upstream.forward_extension free_permit (MkExtension LEGACY _) _) as [p2 [r2|e2|]].
Qed.
End Handlers.

(** ** Witnesses *)

Definition demo_peers : UpstreamAgent SessionMsg unit := {|
  peer_connect a := (a, TimedOut);
  peer_identities a := (a, TimedOut);
  peer_sign _ a := (a, TimedOut);
  peer_extension _ a := (a, TimedOut);
  peer_extension_wait _ a := (a, TimedOut);
  peer_lock _ _ a := (a, TimedOut);
  peer_add_identity _ _ a := (a, TimedOut);
|}.

Definition demo_session_lib : SessionLib := {|
  public_key_from_bytes b := if bool_decide (b = [9]) then Some demo_key else Some (KeyEd25519 b);
  as_sec1_bytes _ := [];
  signature_well_formed _ _ := true;
  x509_signed_by _ _ := Some true;
  session_hashes := toy_hashes;
  json_mode _ := None;
  json_status _ := None;
  parse_query _ := None;
|}.

(** An operator who types the PIN, and an agent that serves the card's key. *)
Definition demo_agent : Agent ToyCrypto unit unit unit :=
  MkAgent [MkCachedKey (MkGuid (repeat 7 16)) (ascii "reader") 0x9A AlgEd25519 demo_key []]
    pin_cache_new (MkPool [] 0 ∅ None 5) false false None tt (0 : rng ToyCrypto) tt.

Definition demo_askpass (p : Prompt) (a : Agent ToyCrypto unit unit unit) : Agent ToyCrypto unit unit unit * res OracleError bytes :=
  (a, Ok (ascii "123456")).

Definition demo_act : bytes := request_encode (MkRequest [9] PIGGY_ESCALATION (ascii "sha256") (ascii "grant the right for a day")).

Abbreviation demo_operator_act :=
  (handle_operator_act ToyCrypto (H := demo_world) (H0 := demo_peers) 1 demo_lib demo_session_lib demo_askpass
    (fun _ a => a) (fun _ _ a => a) (fun _ _ => 0) (fun _ _ => true)).

Definition demo_signed : bool :=
  match demo_operator_act demo_act (MkExtension OPERATOR_ACT_EXT demo_act) demo_agent with
  | Some (_, Ok (ActSigned _)) => true
  | _ => false
  end.

Lemma demo_signs : exists a blob,
  demo_operator_act demo_act (MkExtension OPERATOR_ACT_EXT demo_act) demo_agent = Some (a, Ok (ActSigned blob)).
Proof.
  assert (Hd : demo_signed = true) by (vm_compute; reflexivity). unfold demo_signed in Hd.
  destruct (demo_operator_act _ _ _) as [[a [[blob|?|?]|?|]]|]; try discriminate. eauto.
Qed.


(** An attestation is asked for a key that is not served. *)
Abbreviation demo_attest :=
  (handle_attest ToyCrypto (H := demo_world) (A := unit) (Q := unit) 1 demo_lib demo_session_lib (fun _ a => a)).
Definition demo_stranger : bytes := enc32 (enc32 [8] ++ to_be_bytes 4 0).

Definition demo_missed : bool :=
  match demo_attest demo_stranger demo_agent with Some (_, Err (KeyNotNative _)) => true | _ => false end.

Lemma demo_misses : exists a msg, demo_attest demo_stranger demo_agent = Some (a, Err (KeyNotNative msg)).
Proof.
  assert (Hd : demo_missed = true) by (vm_compute; reflexivity). unfold demo_missed in Hd.
  destruct (demo_attest _ _) as [[a [?|[msg|?]|]]|]; try discriminate. eauto.
Qed.

Lemma demo_stranger_in_memory : in_memory demo_stranger.
Proof. split; [by_compute|reflexivity]. Qed.

Lemma only_misses_are_forwarded_witness :
  exists a msg, demo_attest demo_stranger demo_agent = Some (a, Err (KeyNotNative msg)) /\
    exists blob, names demo_stranger blob /\ stranger_key demo_session_lib blob (ag_keys a).
Proof.
  destruct demo_misses as (a & msg & Hm). exists a, msg. split; [exact Hm|].
  exact (proj1 (proj2 (only_misses_are_forwarded ToyCrypto (H := demo_world) (H0 := demo_peers) 1 demo_lib demo_session_lib demo_askpass
            (fun _ a => a) (fun _ _ a => a) (fun _ _ => 0) (fun _ _ => true) 3 (fun _ => []) (MkExtension ATTEST_EXT demo_stranger) _ _ _ _ _
            (AttestExtension _ _ _ _ _ _ _ _) demo_stranger_in_memory Hm))).
Defined.
