(* ===== verification/AgentEnds.v ===== *)
(** * AgentEnds: every request to the agent ends

    When each command of a card returns, so does each operation of [AgentCards] and
    each handler of [AgentSession]; and the keys that are loaded passed the filters of the configuration. *)

From Stdlib Require Import ZArith Lia String.
From stdpp Require Import base tactics list numbers gmap.
From S2P Require Import Prelude PivError Guid Wire Apdu Transport Slot Crypto PivBox AgentExt Session Effects.
From S2P Require Import PinCache OperatorAct SigFormat Presence Upstream AgentCards AgentSession AgentSafe.

Local Open Scope Z_scope.

(** ** The cards *)

Section Cards.
Context {W : Type} `{CardWorld W} (fuel : nat) (L : CertLib).
Context (Ht : forall a, total (S := W * card_handle W) (Session.transmit fuel a)).

Abbreviation Token := (PivToken (card_handle W)).

Lemma total_on_token {A} (k : Token) (m : IO PivError (PivToken (W * card_handle W)) A) : total m -> total (on_token k m).
Proof. intros Hm w. unfold on_token. destruct (m (attach w k)) as [[k' r]|] eqn:E; [discriminate|now destruct (Hm (attach w k))]. Qed.

Lemma total_connect_inner require reader : total (connect_inner fuel require reader).
Proof.
  intros w. unfold connect_inner. destruct (open_reader reader w) as [w1 [h|e|]]; try discriminate.
  destruct (guid_from_bytes _) as [g|e|]; try discriminate.
  destruct (connect_sequence _ _ _) as [[k [x|e|]]|] eqn:E; try discriminate. now apply (total_connect (H := world_transport) fuel Ht require) in E.
Qed.

Lemma total_connect_readers connect readers : (forall reader, total (connect reader)) -> total (connect_readers connect readers).
Proof. intros Hc. induction readers as [|reader readers IH]; cbn [connect_readers]; [apply total_ret|]. total_walk. Qed.

Lemma total_enumerate : total (enumerate_tokens fuel).
Proof.
  unfold enumerate_tokens. apply total_bind; [intros w; unfold readers_of; now destruct (list_readers w)|].
  intros readers. apply total_connect_readers, total_connect_inner.
Qed.
#[local] Hint Resolve total_enumerate : total.

Lemma total_new_context : total new_context.
Proof. intros w. unfold new_context. now destruct (establish w). Qed.
#[local] Hint Resolve total_new_context : total.

Lemma total_take_token g (ks : list Token) : total (take_token g ks).
Proof. induction ks as [|k ks IH]; cbn [take_token]; total_walk. Qed.
#[local] Hint Resolve total_take_token : total.

Lemma total_reconnect g : total (reconnect_to_token fuel g).
Proof. unfold reconnect_to_token. total_walk. Qed.

Lemma total_open_session (k : Token) : total (open_session fuel k).
Proof.
  intros w. unfold open_session, begin_pin_session. destruct (begin_transaction _) as [s|[c e]]; [|discriminate].
  destruct (transmit_on fuel (apdu_select PIV_AID) s) as [[s' [[d sw]|e|]]|] eqn:E; try discriminate; [now destruct (negb (is_success sw))|].
  exact (False_rect _ (Ht (apdu_select PIV_AID) s E)).
Qed.

Lemma total_in_session {A} (m : IO PivError (PinSession (W * card_handle W)) A) : total m -> total (in_session m).
Proof. intros Hm s. unfold in_session. destruct (m _) as [[s' r]|] eqn:E; [discriminate|now apply Hm in E]. Qed.

Lemma total_token_attest (k : Token) slot : total (on_token k (yk_attest fuel slot)).
Proof. apply total_on_token, total_attest, (token_transmit_total (H := world_transport)), Ht. Qed.

Lemma total_token_read_slot (k : Token) slot : total (on_token k (read_slot_on fuel L slot)).
Proof. apply total_on_token, total_read_slot, (token_transmit_total (H := world_transport)), Ht. Qed.

Lemma total_cak_signature challenge (k : Token) : total (cak_signature fuel L challenge k).
Proof.
  unfold cak_signature. apply total_bind; [apply total_map_err, total_open_session|]. intros s w.
  destruct (in_session _ (w, s)) as [[ws r]|] eqn:E; [discriminate|]. exfalso. revert E. refine (total_in_session _ _ (w, s)). apply total_bind.
  - now apply (total_session_read_slot (H := world_transport)).
  - intros slot. now apply (total_ga (H := world_transport)).
Qed.
#[local] Hint Resolve total_cak_signature total_reconnect : total.

Lemma total_authenticate g cak : total (authenticate fuel L g cak).
Proof.
  unfold authenticate, authenticate_inner. apply total_bind; [|auto with total]. apply total_try, total_bind.
  - intros w. now destruct (fresh_challenge w).
  - intros c. total_walk.
Qed.
#[local] Hint Resolve total_authenticate : total.

Lemma total_read_slots ids : forall slots, total (S := PivToken (W * card_handle W)) (read_slots fuel L slots ids).
Proof.
  induction ids as [|id ids IH]; intros slots; cbn [read_slots]; [apply total_ret|].
  apply total_bind; [apply total_try, total_read_slot, (token_transmit_total (H := world_transport)), Ht|]. intros r. total_walk.
Qed.

Lemma total_read_all_slots : total (S := PivToken (W * card_handle W)) (read_all_slots fuel L).
Proof. apply total_bind; [apply total_read_slots|]. intros slots. apply total_read_slots. Qed.

Lemma total_build config (ks : list Token) : total (build_cached_keys fuel L config ks).
Proof.
  induction ks as [|k ks IH]; cbn [build_cached_keys]; [apply total_ret|].
  destruct (negb _); [exact IH|]. apply total_bind; [apply total_try, total_on_token, total_read_all_slots|]. intros slots. cbv zeta. total_walk.
Qed.
End Cards.

(** ** The handlers *)

Section Handlers.
Context (C : Crypto) {W : Type} `{CardWorld W} {A : Type} `{UpstreamAgent SessionMsg A} {Q : Type}.
Context (fuel : nat) (L : CertLib) (S : SessionLib).

Abbreviation Ag := (Agent C W A Q).

Context (askpass : Prompt -> Ag -> Ag * res OracleError bytes) (meanwhile : bool -> Ag -> Ag).
Context (notify_operator : bytes -> bytes -> Ag -> Ag) (sign_took : Ag -> Ag -> Z).
Context (free_permit : Z -> Upstream -> bool) (took : Z -> Z) (grace_fuel : nat).

(** Every command of a card returns, and the other clients do not teach the agent a PIN while a request runs. *)
Context (Ht : forall a, total (S := W * card_handle W) (Session.transmit fuel a)).
Context (Hothers : forall held g (a : Ag), unknown_pin C g a -> unknown_pin C g (meanwhile held a)).

Lemma total_on_world {E F R} (f : E -> F) (m : IO E W R) : total m -> total (S := Ag) (on_world C f m).
Proof. intros Hm a. unfold on_world. destruct (m (ag_world a)) as [[w r]|] eqn:E1; [discriminate|now apply Hm in E1]. Qed.

Lemma total_on_session {B} (m : IO PivError (PinSession (W * card_handle W)) B) : total m -> total (S := Ag * OpenSession W) (on_session C m).
Proof.
  intros Hm s. unfold on_session. destruct (in_session m _) as [[[w o] b]|] eqn:E1; [discriminate|].
  exfalso. revert E1. exact (total_in_session m Hm (ag_world (fst s), snd s)).
Qed.

Lemma total_on_agent {E B} (m : IO E Ag B) : total m -> total (S := Ag * OpenSession W) (on_agent C m).
Proof. intros Hm s. unfold on_agent. destruct (m (fst s)) as [[a b]|] eqn:E1; [discriminate|now apply Hm in E1]. Qed.

Lemma total_awaits {E} held : total (E := E) (awaits C meanwhile held).
Proof. apply total_modify. Qed.

Lemma total_with_pins {E} held f : total (E := E) (with_pins C meanwhile held f).
Proof. unfold with_pins, awaits. total_walk. Qed.

Lemma total_on_pool {E R} (f : UpstreamPool A -> UpstreamPool A * R) : total (E := E) (on_pool C meanwhile f).
Proof. unfold on_pool, awaits. apply total_bind; [apply total_modify|]. intros u a. now destruct (f (ag_pool a)). Qed.

#[local] Hint Resolve total_on_agent total_awaits total_with_pins total_on_pool : total.

Lemma total_pool_result {R} (f : UpstreamPool A -> UpstreamPool A * res AgentErr R) : total (pool_result C meanwhile f).
Proof. unfold pool_result. total_walk. Qed.

Lemma total_session_on {E B} (f : PivError -> E) k (body : IO E (Ag * OpenSession W) B) : total body -> total (session_on C fuel f k body).
Proof.
  intros Hb. unfold session_on. apply total_bind; [now apply total_on_world, total_open_session|]. intros s a.
  destruct (body (a, s)) as [[[a1 s1] b]|] eqn:E1; [discriminate|now apply Hb in E1].
Qed.

Lemma total_with_card {E B} (f : ReconnectError -> E) g (body : PivToken (card_handle W) -> IO E Ag B) :
  (forall k, total (body k)) -> total (with_card C fuel f g body).
Proof. intros Hb. unfold with_card. apply total_bind; [now apply total_on_world, total_reconnect|]. intros k. apply total_finally, Hb. Qed.

Lemma total_run_prompt p : total (run_prompt C askpass p).
Proof. intros a. unfold run_prompt. now destruct (askpass p a). Qed.

Lemma total_session_op {B} (m : IO PivError (PinSession (W * card_handle W)) B) :
  total m -> total (S := Ag * OpenSession W) (on_session C m).
Proof. apply total_on_session. Qed.

Lemma total_ensure_pin op g : total (ensure_pin C askpass meanwhile op g).
Proof. unfold ensure_pin. pose proof total_run_prompt. total_walk. Qed.

#[local] Hint Resolve total_pool_result total_ensure_pin total_on_world total_on_session : total.

Lemma total_session_pin pin : total (S := Ag * OpenSession W) (on_session C (verify_pin fuel pin)).
Proof. apply total_on_session. now apply (total_verify_pin (H := world_transport)). Qed.

Lemma total_session_retries : total (S := Ag * OpenSession W) (on_session C (pin_retries_remaining fuel)).
Proof. apply total_on_session. now apply (total_pin_retries (H := world_transport)). Qed.

Lemma total_session_slot slot : total (S := Ag * OpenSession W) (on_session C (read_slot_on fuel L slot)).
Proof. apply total_on_session. now apply (total_session_read_slot (H := world_transport)). Qed.

Lemma total_session_sign slot alg d : total (S := Ag * OpenSession W) (on_session C (sign_prehash_with_alg fuel slot alg d)).
Proof. apply total_on_session. now apply (total_ga (H := world_transport)). Qed.

#[local] Hint Resolve total_session_pin total_session_retries total_session_slot total_session_sign : total.

(** *** The loop *)

Section Loop.
Context {B : Type} (op : bytes) (g : Guid) (slot : Z) (use : PivSlot -> IO PivError (PinSession (W * card_handle W)) B).
Context (Huse : forall s, total (use s)).

Lemma total_card_session attempt acquired : total (card_session C fuel L meanwhile g slot use attempt acquired).
Proof.
  assert (Hfin : forall s, total (finish C (A := A) (Q := Q) use s)) by (intros s; unfold finish; apply total_bind; auto with total).
  assert (Hcache : forall acq, total (cache_pin (E := AgentErr) C meanwhile g acq)) by (intros acq; unfold cache_pin; total_walk).
  unfold card_session, offer_declined, forget_pin. total_walk.
Qed.

Lemma total_card_turn attempt : total (card_turn C fuel L askpass meanwhile op g slot use attempt).
Proof.
  unfold card_turn, acquire. apply total_bind; [total_walk|]. intros acquired. apply total_bind; [auto with total|]. intros u.
  apply total_with_card. intros k. apply total_session_on, total_card_session.
Qed.

Lemma total_card_loop n : total (card_loop C fuel L askpass meanwhile (3 + n) op g slot use 0).
Proof.
  intros a Hn. destruct (loop_ends C fuel L askpass meanwhile op g slot use (fun held => Hothers held g) n a) as (r & Hr); [|congruence].
  intros attempt b. apply total_card_turn.
Qed.
End Loop.

(** *** The requests *)

Context (n : nat) (detail_text : ActDetail -> bytes).
Abbreviation turns := (3 + n)%nat.

Lemma total_find_cached_key pubkey : total (find_cached_key C meanwhile (W := W) (A := A) (Q := Q) pubkey).
Proof. unfold find_cached_key. total_walk. Qed.
#[local] Hint Resolve total_find_cached_key : total.

Lemma total_loop_sign op g slot d : total (card_loop C fuel L askpass meanwhile turns op g slot (fun s => sign_prehash fuel s d) 0).
Proof. apply total_card_loop. intros s. now apply (total_ga (H := world_transport)). Qed.

Lemma total_loop_ecdh op g slot point : total (card_loop C fuel L askpass meanwhile turns op g slot (fun s => Session.ecdh_derive fuel s point) 0).
Proof. apply total_card_loop. intros s. now apply (total_ecdh (H := world_transport)). Qed.
#[local] Hint Resolve total_loop_sign total_loop_ecdh : total.

Lemma total_sign r : total (sign C fuel L S askpass meanwhile free_permit turns r).
Proof. unfold sign. total_walk. Qed.

Lemma total_served_key label blob : total (served_key C S meanwhile (W := W) (A := A) (Q := Q) label blob).
Proof. unfold served_key. total_walk. Qed.

Lemma total_lift_ssh {R} (r : res SshError R) : total (lift_ssh C r (W := W) (A := A) (Q := Q)).
Proof. apply total_lift. Qed.

Lemma total_native {R} (m : IO AgentErr Ag R) : total m -> total (native C m).
Proof. apply total_map_err. Qed.

Lemma total_native_err {R} msg : total (native_err C (B := R) msg (W := W) (A := A) (Q := Q)).
Proof. apply total_err. Qed.
#[local] Hint Resolve total_sign total_served_key total_lift_ssh total_native total_native_err : total.

Lemma total_ecdh_request name details : total (handle_ecdh C fuel L S askpass meanwhile turns name details).
Proof. unfold handle_ecdh. total_walk. Qed.

Lemma total_rebox_request details : total (handle_ecdh_rebox C fuel L S askpass meanwhile turns details).
Proof. unfold handle_ecdh_rebox. total_walk. Qed.

Lemma total_card_attest k slot : total (S := Ag) (on_world C piv_msg (on_token k (yk_attest fuel slot))).
Proof. now apply total_on_world, total_token_attest. Qed.

Lemma total_attest_request details : total (S := Ag) (handle_attest C fuel L S meanwhile details).
Proof.
  unfold handle_attest. apply total_bind; [total_walk|]. intros blob. apply total_bind; [auto with total|]. intros key.
  apply total_native, total_bind; [auto with total|]. intros u. apply total_with_card. intros k.
  apply total_bind; [apply total_card_attest|]. intros cert. apply total_bind; [|total_walk].
  now apply total_try, total_on_world, total_token_read_slot.
Qed.

Lemma total_check_attestation k slot requested : total (S := Ag) (check_operator_act_attestation C fuel L S k slot requested).
Proof.
  unfold check_operator_act_attestation. apply total_bind; [now apply total_on_world, total_token_attest|]. intros attestation.
  apply total_bind; [auto with total|]. intros [pin touch]. cbv zeta. destruct (negb _); [apply total_err|].
  apply total_bind; [auto with total|]. intros [alg key]. destruct (negb _); [apply total_err|].
  apply total_bind; [now apply total_on_world, total_token_read_slot|]. intros f9. total_walk.
Qed.
#[local] Hint Resolve total_check_attestation : total.

Lemma total_serve_act key requested details : total (serve_operator_act C fuel L S askpass meanwhile notify_operator sign_took key requested details).
Proof.
  assert (Hatt : forall k, total (attested C fuel L S key requested k (A := A) (Q := Q))) by (intros k; unfold attested; auto with total).
  assert (Hask : forall p, total (prompt_operator C askpass meanwhile p)).
  { intros p. unfold prompt_operator. apply total_bind; [auto with total|]. intros u a. now destruct (askpass p a). }
  assert (Hsig : forall class pin d, total (sign_operator_act C fuel L S meanwhile notify_operator sign_took class key requested pin d)).
  { intros class pin d. unfold sign_operator_act. apply total_bind; [auto with total|]. intros u. apply total_with_card. intros k.
    apply total_bind; [apply Hatt|]. intros u1. apply total_session_on. cbv zeta. total_walk. }
  unfold serve_operator_act. repeat (apply total_bind; [first [apply total_lift|apply total_awaits|apply total_with_card, Hatt|apply Hask|apply Hsig]|intros ?]); cbv zeta.
  repeat (apply total_bind; [first [apply total_lift|apply Hsig]|intros ?]). apply total_ret.
Qed.
#[local] Hint Resolve total_ecdh_request total_rebox_request total_attest_request total_serve_act : total.

Lemma total_operator_act details ext : total (handle_operator_act C fuel L S askpass meanwhile notify_operator sign_took free_permit details ext).
Proof. unfold handle_operator_act, act_answer. total_walk. Qed.

Lemma total_query ext : total (S := Ag) (handle_query C S meanwhile free_permit ext (W := W) (Q := Q)).
Proof. unfold handle_query. cbv zeta. total_walk. Qed.

Lemma total_native_or_forwarded ext (m : IO NativeExtError Ag (option Extension)) : total m -> total (native_or_forwarded C meanwhile free_permit ext m).
Proof. intros Hm. unfold native_or_forwarded. total_walk. Qed.

Lemma total_unless f : total (E := AgentErr) (unless_no_upstreams C meanwhile f (W := W) (A := A) (Q := Q)).
Proof. unfold unless_no_upstreams. total_walk. Qed.
#[local] Hint Resolve total_operator_act total_query total_native_or_forwarded total_unless : total.

Lemma total_extension ext : total (AgentSession.extension C fuel L S askpass meanwhile notify_operator sign_took free_permit turns detail_text ext).
Proof. unfold AgentSession.extension. cbv zeta. total_walk. Qed.
#[local] Hint Resolve total_extension : total.

(** A listing when nothing is served waits for the upstreams at most the grace period. *)
Lemma total_identities (a : Ag) :
  (forall t, 0 <= took t) -> (1 <= grace_fuel)%nat -> (forall held b, pl_outage_grace (ag_pool (meanwhile held b)) = pl_outage_grace (ag_pool b)) ->
  pl_outage_grace (ag_pool a) <= (Z.of_nat grace_fuel - 1) * FIRST_BACKOFF ->
  request_identities C meanwhile free_permit took grace_fuel a <> None.
Proof.
  intros Hclock Hf Hkeep Hg. unfold request_identities, awaits, io_modify, io_get. unfold io_bind at 1 2.
  destruct (pool_is_empty _); [discriminate|]. destruct ((fun _ => _) <$> ag_keys (meanwhile false a)) as [|id ids].
  - unfold io_bind. destruct (redial_ends free_permit took grace_fuel (pl_now (ag_pool (meanwhile false (meanwhile false a))) + pl_outage_grace (ag_pool (meanwhile false (meanwhile false a)))) FIRST_BACKOFF
      (ag_pool (meanwhile false (meanwhile false a))) Hclock) as ([p r] & Hr); [lia|rewrite !Hkeep; lia|exact Hf|].
    unfold list_identities_or_outage. rewrite Hr. now destruct r.
  - revert a Hg. intros a _. generalize (meanwhile false a). apply total_bind; [auto with total|]. intros ups. apply total_ret.
Qed.
End Handlers.

(** ** Properties *)

(** What the end of a request rests on: each command of a card returns; a listing takes no negative time, and the turns
    granted to the redial cover the grace period; and the other clients neither
    teach the agent the PIN of a card it has none for while a request runs, nor change the grace period. *)
Record surroundings_return (C : Crypto) {W : Type} `{CardWorld W} {A Q : Type} (fuel : nat)
    (meanwhile : bool -> Agent C W A Q -> Agent C W A Q) (took : Z -> Z) (grace_fuel : nat) (a : Agent C W A Q) : Prop := {
  commands_return : forall c, total (S := W * card_handle W) (Session.transmit fuel c);
  clock_runs : forall t, 0 <= took t;
  grace_covered : (1 <= grace_fuel)%nat /\ pl_outage_grace (ag_pool a) <= (Z.of_nat grace_fuel - 1) * FIRST_BACKOFF;
  grace_kept : forall held b, pl_outage_grace (ag_pool (meanwhile held b)) = pl_outage_grace (ag_pool b);
  unknown_kept : forall held g b, unknown_pin C g b -> unknown_pin C g (meanwhile held b);
}.

(** C13 (termination). Every request ends - identities, signatures, locks, added keys and all extensions, key agreement, rebox,
    attestation and operator acts among them - in surroundings that do: every command of a card returns; a listing takes no negative
    time and the turns granted to the redial cover the grace period, which the other clients leave as it is; and while the request runs no other
    client teaches the agent a PIN for a card it has none for. Then three turns of the PIN loop are enough, whatever PINs are cached,
    offered and typed: one may decline an offered PIN, one may be told that a PIN is wrong, and the third is the last. *)
Theorem requests_end (C : Crypto) {W : Type} `{CardWorld W} {A : Type} `{UpstreamAgent SessionMsg A} {Q : Type}
    (fuel : nat) (L : CertLib) (S : SessionLib) askpass meanwhile notify_operator sign_took free_permit took grace_fuel n detail_text
    (request : AgentRequest) (a : Agent C W A Q) :
  surroundings_return C fuel meanwhile took grace_fuel a ->
  exists a' reply, serve C fuel L S askpass meanwhile notify_operator sign_took free_permit took grace_fuel (3 + n) detail_text request a
                   = Some (a', reply).
Proof.
  intros [Ht Hclock [Hf Hg] Hkeep Hothers].
  assert (Hn : serve C fuel L S askpass meanwhile notify_operator sign_took free_permit took grace_fuel (3 + n) detail_text request a <> None).
  2: { destruct (serve _ _ _ _ _ _ _ _ _ _ _ _ _ request a) as [[a' reply]|]; [eauto|now destruct Hn]. }
  destruct request as [|r|key|key|e|constrained identity]; cbn [serve].
  - unfold io_bind. pose proof (total_identities C meanwhile free_permit took grace_fuel a Hclock Hf Hkeep Hg).
    now destruct (request_identities _ _ _ _ _ a) as [[a' [ids|e|]]|].
  - revert a Hg. intros a _. revert a. apply total_bind; [now apply total_sign|]. intros s. apply total_ret.
  - revert a Hg. intros a _. revert a. apply total_bind; [|intros u; apply total_ret]. apply total_bind; [apply total_with_pins|]. intros u. apply total_unless.
  - revert a Hg. intros a _. revert a. apply total_bind; [|intros u; apply total_ret]. apply total_bind; [apply total_with_pins|]. intros u. apply total_unless.
  - revert a Hg. intros a _. revert a. apply total_bind; [now apply total_extension|]. intros s. apply total_ret.
  - revert a Hg. intros a _. revert a. apply total_bind; [|intros u; apply total_ret]. apply total_pool_result.
Qed.

(** ** Witnesses *)

(** The operator act of [AgentSafe], on its card. *)
Lemma demo_commands_return c : total (S := unit * @card_handle unit demo_world) (@Session.transmit _ (@world_raw unit demo_world) 1 c).
Proof.
  intros [[] []] Hn.
  assert (Hs := transmit_single (H := @world_raw unit demo_world) 1 c ((), ()) ((), ()) (demo_answer (apdu_to_bytes c)) (MkSw 0x90 0x00) eq_refl eq_refl).
  discriminate (eq_trans (eq_sym Hn) Hs).
Qed.

Lemma requests_end_witness :
  exists a' reply,
    serve ToyCrypto (H := demo_world) (H0 := demo_peers) 1 demo_lib demo_session_lib demo_askpass (fun _ a => a) (fun _ _ a => a) (fun _ _ => 0)
      (fun _ _ => true) (fun _ => 1) 1 3 (fun _ => []) (Extend (MkExtension OPERATOR_ACT_EXT demo_act)) demo_agent = Some (a', reply).
Proof.
  apply (requests_end ToyCrypto (H := demo_world) 1 demo_lib demo_session_lib demo_askpass (fun _ a => a) (fun _ _ a => a) (fun _ _ => 0)
           (fun _ _ => true) (fun _ => 1) 1 0). split.
  - apply demo_commands_return.
  - intros t. lia.
  - split; [lia|discriminate].
  - reflexivity.
  - auto.
Defined.
