(* ===== verification/CardTlv.v ===== *)
(** * CardTlv: the virtual card's parsers, [fibby/src/virtual_card.rs]

    The card side reads command bodies with parsers of its own (not the
    [TlvReader] of [piggy-piv]).  A Rust function that returns [Option<A>] is a
    [res unit A] here: [Err tt] is [None], and [Panic] is kept for an index out
    of bounds, so that their absence is a theorem. *)

From Stdlib Require Import ZArith Lia String.
From stdpp Require Import base tactics list numbers.
From S2P Require Import Prelude Apdu.

Local Open Scope Z_scope.

(** [l.first()?], [l.get(i)?], [l.get(a..b)?], [l.last()?] *)
Definition first (l : bytes) : res unit Z := ok_or (head l) tt.
Definition get_at (l : bytes) (i : Z) : res unit Z := ok_or (l !! Z.to_nat i) tt.
Definition get_range (l : bytes) (a b : Z) : res unit bytes :=
  if (a <=? b) && (b <=? len l) then Ok (ztake (b - a) (zdrop a l)) else Err tt.
Definition last_byte (l : bytes) : res unit Z := ok_or (list.last l) tt.

(** A [res unit A] as the [Option] it stands for. *)
Definition as_option {E A} (c : res unit A) : res E (option A) :=
  match c with
  | Ok a => Ok (Some a)
  | Err _ => Ok None
  | Panic => Panic
  end.

Definition starts_with (l prefix : bytes) : bool := bool_decide (take (length prefix) l = prefix).

(** ** Lengths *)

Definition push_ber_len (out : bytes) (n : Z) : bytes :=
  if n <? 0x80 then out ++ [u8 n]
  else if n <? 0x100 then out ++ [0x81; u8 n]
  else out ++ [0x82; u8 (Z.shiftr n 8); u8 (Z.land n 0xFF)].

(** Returns the octets the length takes and the length. *)
Definition ber_len (bs : bytes) : res unit (Z * Z) :=
  let* b := first bs in
  if b <? 0x80 then Ok (1, b)
  else if b =? 0x81 then let* n := get_at bs 1 in Ok (2, n)
  else Err tt.

(** Split one TLV (one-byte tag) off the front: tag, value, rest. *)
Definition split_tlv (bs : bytes) : res unit (Z * bytes * bytes) :=
  let* tag := first bs in
  let* tail := slice_from bs 1 in
  let* (len_offset, n) := ber_len tail in
  let value_start := 1 + len_offset in
  let* value := get_range bs value_start (value_start + n) in
  let* rest := slice_from bs (value_start + n) in
  Ok (tag, value, rest).

(** ** GET DATA and PUT DATA *)

Definition parse_5c_tag_with_rest (body : bytes) : res unit (bytes * bytes) :=
  let* b := first body in
  if negb (b =? 0x5C) then Err tt
  else
    let* tag_len := get_at body 1 in
    if (tag_len =? 0) || (len body <? 2 + tag_len) then Err tt
    else
      let* tag := slice body 2 (2 + tag_len) in
      let* rest := slice_from body (2 + tag_len) in
      Ok (tag, rest).

Definition parse_5c_tag (body : bytes) : res unit bytes :=
  let* (tag, _) := parse_5c_tag_with_rest body in Ok tag.

(** The whole TLV with its header, and what follows it. *)
Definition split_53_tlv (body : bytes) : res unit (bytes * bytes) :=
  let* b := first body in
  if negb (b =? 0x53) then Err tt
  else
    let* first_len := get_at body 1 in
    let* (header_len, payload_len) :=
      (if first_len <? 0x80 then Ok (2, first_len)
       else if first_len =? 0x81 then let* n := get_at body 2 in Ok (3, n)
       else if first_len =? 0x82 then
         let* hi := get_at body 2 in
         let* lo := get_at body 3 in
         Ok (4, Z.lor (Z.shiftl hi 8) lo)
       else Err tt) in
    let total := header_len + payload_len in
    if len body <? total then Err tt
    else
      let* tlv := slice body 0 total in
      let* trailing := slice_from body total in
      Ok (tlv, trailing).

(** ** GENERAL AUTHENTICATE *)

(** One turn of the walk both request parsers make over the [7C] template:
    tag, value and what follows, with the walk's own bounds check. *)
Definition ga_item (cur : bytes) : res unit (Z * bytes * bytes) :=
  let* tag := first cur in
  let* tail := slice_from cur 1 in
  let* (len_offset, n) := ber_len tail in
  let value_start := 1 + len_offset in
  if len cur <? value_start + n then Err tt
  else
    let* value := slice cur value_start (value_start + n) in
    let* rest := slice_from cur (value_start + n) in
    Ok (tag, value, rest).

(** [while !cur.is_empty() { .. }]: the first item with tag [want] decides. *)
Fixpoint ga_walk (fuel : nat) (want : Z) (accept : bytes -> bool) (cur : bytes) : res unit bytes :=
  match fuel with
  | O => Panic
  | S fuel =>
    if bool_decide (cur = []) then Err tt
    else
      let* (tag, value, rest) := ga_item cur in
      if tag =? want then (if accept value then Ok value else Err tt)
      else ga_walk fuel want accept rest
  end.

(** The content of the template. *)
Definition template_inner (template : Z) (body : bytes) : res unit bytes :=
  let* b := first body in
  if negb (b =? template) then Err tt
  else
    let* tail := slice_from body 1 in
    let* (inner_offset, inner_len) := ber_len tail in
    let inner_start := 1 + inner_offset in
    if len body <? inner_start + inner_len then Err tt
    else slice body inner_start (inner_start + inner_len).

(** An uncompressed P-256 point: 65 bytes, the first one [04]. *)
Definition is_p256_point (value : bytes) : bool :=
  (len value =? 65) && match value with b :: _ => b =? 0x04 | [] => false end.

Definition parse_ga_ecdh_request (body : bytes) : res unit bytes :=
  let* inner := template_inner 0x7C body in
  ga_walk (S (length inner)) 0x85 is_p256_point inner.

Definition parse_ga_sign_request (body : bytes) : res unit bytes :=
  let* inner := template_inner 0x7C body in
  ga_walk (S (length inner)) 0x81 (fun v => negb (bool_decide (v = []))) inner.

(** ** GENERATE and IMPORT *)

Record GenerateRequest := MkGenerateRequest {
  gr_alg : Z;
  gr_pin_policy : option Z;
  gr_touch_policy : option Z;
}.

(** One policy tag: [AA] and [AB] must be exactly one byte. *)
Definition policy_tag (tag : Z) (value : bytes) (pin touch : option Z)
    : res unit (option Z * option Z) :=
  if tag =? 0xAA then match value with [p] => Ok (Some p, touch) | _ => Err tt end
  else if tag =? 0xAB then match value with [t] => Ok (pin, Some t) | _ => Err tt end
  else Ok (pin, touch).

Fixpoint generate_walk (fuel : nat) (alg pin touch : option Z) (cur : bytes)
    : res unit (option Z * option Z * option Z) :=
  match fuel with
  | O => Panic
  | S fuel =>
    if bool_decide (cur = []) then Ok (alg, pin, touch)
    else
      let* (tag, value, rest) := split_tlv cur in
      if tag =? 0x80 then
        let* a := last_byte value in generate_walk fuel (Some a) pin touch rest
      else
        let* (pin, touch) := policy_tag tag value pin touch in
        generate_walk fuel alg pin touch rest
  end.

Definition parse_generate_request (body : bytes) : res unit GenerateRequest :=
  let* inner := template_inner 0xAC body in
  let* (alg, pin, touch) := generate_walk (S (length inner)) None None None inner in
  let* alg := ok_or alg tt in
  Ok (MkGenerateRequest alg pin touch).

Record ImportRequest := MkImportRequest {
  ir_scalar : bytes;
  ir_pin_policy : option Z;
  ir_touch_policy : option Z;
}.

(** [while val.len() > 32 && val[0] == 0x00 { val = &val[1..]; }] *)
Fixpoint trim_zeros (val : bytes) : bytes :=
  match val with
  | b :: val' => if (32 <? len val) && (b =? 0) then trim_zeros val' else val
  | [] => []
  end.

Fixpoint import_walk (fuel : nat) (pin touch : option Z) (cur : bytes) : res unit (option Z * option Z) :=
  match fuel with
  | O => Panic
  | S fuel =>
    match split_tlv cur with
    | Ok (tag, value, rest) =>
        let* (pin, touch) := policy_tag tag value pin touch in
        import_walk fuel pin touch rest
    | Err _ => Ok (pin, touch)
    | Panic => Panic
    end
  end.

Definition parse_import_request (body : bytes) : res unit ImportRequest :=
  if len body <? 2 then Err tt
  else
    let* b := index body 0 in
    if negb (b =? 0x06) then Err tt
    else
      let* n := index body 1 in
      let* val := get_range body 2 (2 + n) in
      let val := trim_zeros val in
      if 32 <? len val then Err tt
      else
        let scalar := repeat 0 (Z.to_nat (32 - len val)) ++ val in
        let* cur := slice_from body (2 + n) in
        let* (pin, touch) := import_walk (S (length cur)) None None cur in
        Ok (MkImportRequest scalar pin touch).

(** The four values of each policy. *)
Definition validated_policy (pin touch : option Z) : option (Z * Z) :=
  let pin := default 0 pin in
  let touch := default 0 touch in
  if (pin <=? 3) && (touch <=? 3) then Some (pin, touch) else None.

(** ** CHUID *)

(** The walk of [chuid_guid_offset] from [pos]. *)
Fixpoint chuid_walk (fuel : nat) (chuid : bytes) (stop pos : Z) : res unit Z :=
  match fuel with
  | O => Panic
  | S fuel =>
    if pos + 2 <=? stop then
      let* tag := index chuid pos in
      let* n := index chuid (pos + 1) in
      let pos := pos + 2 in
      if (tag =? 0x34) && (n =? 16) && (pos + 16 <=? stop) then Ok pos
      else chuid_walk fuel chuid stop (pos + n)
    else Err tt
  end.

Definition chuid_guid_offset (chuid : bytes) : res unit Z :=
  if len chuid <? 2 then Err tt
  else
    let* b := index chuid 0 in
    if negb (b =? 0x53) then Err tt
    else
      let* content_len := index chuid 1 in
      let stop := Z.min (2 + content_len) (len chuid) in
      chuid_walk (S (length chuid)) chuid stop 2.

(** ** Lemmas *)

(** A walk hands on a shorter remainder of the same bytes. *)
Definition shrinks (cur rest : bytes) : Prop := bytes_ok rest /\ (length rest < length cur)%nat.

Lemma length_zdrop_lt {A} n (l : list A) : 0 < n <= len l -> (length (zdrop n l) < length l)%nat.
Proof. unfold zdrop, len. rewrite length_drop. lia. Qed.

Lemma first_yields l : bytes_ok l -> yields (first l) (fun b => byte_ok b /\ 1 <= len l).
Proof.
  intros Hl. apply yields_ok_or. intros b Hb. destruct l as [|x l]; [discriminate|].
  injection Hb as <-. apply list.Forall_cons in Hl as [Hx _]. split; [exact Hx|].
  rewrite len_cons. pose proof (len_nonneg l). lia.
Qed.

Lemma get_at_yields l i : bytes_ok l -> 0 <= i -> yields (get_at l i) (fun b => byte_ok b /\ i < len l).
Proof.
  intros Hl Hi. apply yields_ok_or. intros b Hb. split.
  - exact (proj1 (Forall_lookup _ _) Hl _ _ Hb).
  - apply lookup_lt_Some in Hb. unfold len. lia.
Qed.

Lemma get_range_yields l a b :
  bytes_ok l -> 0 <= a -> yields (get_range l a b) (fun v => bytes_ok v /\ a <= b <= len l /\ len v = b - a).
Proof.
  intros Hl Ha. unfold get_range. case_match; [|exact I]. bprop. simpl. split; [auto with bytes|].
  split; [lia|]. rewrite len_ztake; [lia|]. rewrite len_zdrop; lia.
Qed.

Lemma slice_yields {E} l a b :
  bytes_ok l -> 0 <= a <= b -> b <= len l ->
  yields (slice (E := E) l a b) (fun v => bytes_ok v /\ len v = b - a).
Proof.
  intros Hl Ha Hb. rewrite slice_Ok by lia. simpl. split; [auto with bytes|].
  rewrite len_ztake; [lia|]. rewrite len_zdrop; lia.
Qed.

Lemma slice_from_yields {E} l a :
  bytes_ok l -> 0 <= a <= len l ->
  yields (slice_from (E := E) l a) (fun v => bytes_ok v /\ v = zdrop a l).
Proof. intros Hl Ha. rewrite slice_from_Ok by lia. simpl. auto with bytes. Qed.

Lemma ber_len_yields l :
  bytes_ok l -> yields (ber_len l) (fun '(o, n) => 1 <= o <= 2 /\ 0 <= n < 256).
Proof.
  intros Hl. apply yields_bind with (1 := first_yields l Hl). unfold byte_ok. intros b [Hb _].
  case_match; bprop; [simpl; lia|]. case_match; [|exact I].
  apply yields_bind with (1 := get_at_yields l 1 Hl ltac:(lia)). unfold byte_ok. intros n [Hn _]. simpl. lia.
Qed.

(** The header of one item: tag, octets of the length, length. *)
Lemma item_header {A} l (k : Z -> Z * Z -> res unit A) Q :
  bytes_ok l ->
  (forall tag o n, byte_ok tag -> 1 <= len l -> 1 <= o <= 2 -> 0 <= n < 256 -> yields (k tag (o, n)) Q) ->
  yields (let* tag := first l in let* tail := slice_from l 1 in let* on := ber_len tail in k tag on) Q.
Proof.
  intros Hl Hk. apply yields_bind with (1 := first_yields l Hl). intros tag [Htag H1].
  apply yields_bind with (1 := slice_from_yields l 1 Hl ltac:(lia)). intros tail [Htail _].
  apply yields_bind with (1 := ber_len_yields tail Htail). intros [o n] [Ho Hn]. auto.
Qed.

Lemma split_tlv_yields l :
  bytes_ok l -> yields (split_tlv l) (fun '(tag, value, rest) => byte_ok tag /\ bytes_ok value /\ shrinks l rest).
Proof.
  intros Hl. apply item_header; [exact Hl|]. intros tag o n Htag H1 Ho Hn.
  apply yields_bind with (1 := get_range_yields l (1 + o) (1 + o + n) Hl ltac:(lia)). intros v (Hv & Hb & _).
  apply yields_bind with (1 := slice_from_yields l (1 + o + n) Hl ltac:(lia)). intros rest [Hr ->].
  split; [exact Htag|]. split; [exact Hv|]. split; [exact Hr|]. apply length_zdrop_lt. lia.
Qed.

Lemma ga_item_yields l :
  bytes_ok l -> yields (ga_item l) (fun '(tag, value, rest) => byte_ok tag /\ bytes_ok value /\ shrinks l rest).
Proof.
  intros Hl. apply item_header; [exact Hl|]. intros tag o n Htag H1 Ho Hn. cbv beta iota zeta.
  case_match; [exact I|]. bprop.
  apply yields_bind with (1 := slice_yields l (1 + o) (1 + o + n) Hl ltac:(lia) ltac:(lia)). intros v [Hv _].
  apply yields_bind with (1 := slice_from_yields l (1 + o + n) Hl ltac:(lia)). intros rest [Hr ->].
  split; [exact Htag|]. split; [exact Hv|]. split; [exact Hr|]. apply length_zdrop_lt. lia.
Qed.

Lemma template_inner_yields t l : bytes_ok l -> yields (template_inner t l) bytes_ok.
Proof.
  intros Hl. unfold template_inner. apply yields_bind with (1 := first_yields l Hl). intros b [_ H1].
  case_match; [exact I|].
  apply yields_bind with (1 := slice_from_yields l 1 Hl ltac:(lia)). intros tail [Htail _].
  apply yields_bind with (1 := ber_len_yields tail Htail). intros [o n] [Ho Hn].
  case_match; [exact I|]. bprop.
  eapply yields_weaken; [apply (slice_yields l (1 + o) (1 + o + n) Hl); lia|]. now intros v [Hv _].
Qed.

Lemma ga_walk_yields want accept fuel : forall cur,
  bytes_ok cur -> (length cur < fuel)%nat ->
  yields (ga_walk fuel want accept cur) (fun v => bytes_ok v /\ accept v = true).
Proof.
  induction fuel as [|fuel IH]; intros cur Hc Hf; [lia|]. simpl. case_match; [exact I|].
  apply yields_bind with (1 := ga_item_yields cur Hc). intros [[tag value] rest] (_ & Hv & Hr & Hlt).
  case_match; [|apply IH; [exact Hr|lia]]. case_match; [simpl; auto|exact I].
Qed.

(** A policy read from a request is a byte. *)
Definition policy_ok (o : option Z) : Prop := forall z, o = Some z -> 0 <= z.

Lemma policy_none : policy_ok None.
Proof. discriminate. Qed.

Lemma policy_tag_yields tag value pin touch :
  bytes_ok value -> policy_ok pin -> policy_ok touch ->
  yields (policy_tag tag value pin touch) (fun pt => policy_ok pt.1 /\ policy_ok pt.2).
Proof.
  intros Hv Hp Ht. unfold policy_tag. destruct (tag =? 0xAA); [|destruct (tag =? 0xAB); [|now split]];
    (destruct value as [|b [|]]; simpl; auto); apply list.Forall_cons in Hv as [[Hb _] _];
    split; auto; intros z [= <-]; exact Hb.
Qed.

Lemma generate_walk_yields fuel : forall alg pin touch cur,
  bytes_ok cur -> (length cur < fuel)%nat -> policy_ok pin -> policy_ok touch ->
  yields (generate_walk fuel alg pin touch cur) (fun '(_, p, t) => policy_ok p /\ policy_ok t).
Proof.
  induction fuel as [|fuel IH]; intros alg pin touch cur Hc Hf Hp Ht; [lia|]. simpl. case_match; [now split|].
  apply yields_bind with (1 := split_tlv_yields cur Hc). intros [[tag value] rest] (_ & Hv & Hr & Hlt).
  case_match.
  - apply yields_bind with (P := fun _ => True); [now apply yields_ok_or|]. intros a _. apply IH; [exact Hr|lia|auto..].
  - apply yields_bind with (1 := policy_tag_yields tag value pin touch Hv Hp Ht). intros [p t] [Hp' Ht'].
    apply IH; [exact Hr|lia|auto..].
Qed.

Lemma import_walk_yields fuel : forall pin touch cur,
  bytes_ok cur -> (length cur < fuel)%nat -> policy_ok pin -> policy_ok touch ->
  yields (import_walk fuel pin touch cur) (fun '(p, t) => policy_ok p /\ policy_ok t).
Proof.
  induction fuel as [|fuel IH]; intros pin touch cur Hc Hf Hp Ht; [lia|]. simpl.
  pose proof (split_tlv_yields cur Hc) as Hs.
  destruct (split_tlv cur) as [[[tag value] rest]|e|]; [|now split|exact Hs].
  destruct Hs as (_ & Hv & Hr & Hlt).
  apply yields_bind with (1 := policy_tag_yields tag value pin touch Hv Hp Ht). intros [p t] [Hp' Ht'].
  apply IH; [exact Hr|lia|auto..].
Qed.

Lemma parse_5c_yields body :
  bytes_ok body -> yields (parse_5c_tag_with_rest body) (fun '(tag, rest) => bytes_ok tag /\ bytes_ok rest).
Proof.
  intros Hb. apply yields_bind with (1 := first_yields body Hb). intros b _. case_match; [exact I|].
  apply yields_bind with (1 := get_at_yields body 1 Hb ltac:(lia)). unfold byte_ok. intros n [Hn _].
  case_match; [exact I|]. bprop.
  apply yields_bind with (1 := slice_yields body 2 (2 + n) Hb ltac:(lia) ltac:(lia)). intros tag [Ht _].
  apply yields_bind with (1 := slice_from_yields body (2 + n) Hb ltac:(lia)). intros rest [Hr _]. now split.
Qed.

Lemma split_53_yields body :
  bytes_ok body -> yields (split_53_tlv body) (fun '(tlv, rest) => bytes_ok tlv /\ bytes_ok rest).
Proof.
  intros Hb. apply yields_bind with (1 := first_yields body Hb). intros b _. case_match; [exact I|].
  apply yields_bind with (1 := get_at_yields body 1 Hb ltac:(lia)). unfold byte_ok. intros fl [Hfl _].
  apply yields_bind with (P := fun '(h, p) => 0 <= h /\ 0 <= p).
  - case_match; [simpl; lia|]. case_match.
    + apply yields_bind with (1 := get_at_yields body 2 Hb ltac:(lia)). unfold byte_ok. intros n [Hn _]. simpl. lia.
    + case_match; [|exact I].
      apply yields_bind with (1 := get_at_yields body 2 Hb ltac:(lia)). unfold byte_ok. intros hi [Hhi _].
      apply yields_bind with (1 := get_at_yields body 3 Hb ltac:(lia)). unfold byte_ok. intros lo [Hlo _].
      simpl. split; [lia|]. apply Z.lor_nonneg. split; [apply Z.shiftl_nonneg|]; lia.
  - intros [h p] [Hh Hp]. cbv zeta. case_match; [exact I|]. bprop.
    apply yields_bind with (1 := slice_yields body 0 (h + p) Hb ltac:(lia) ltac:(lia)). intros tlv [Ht _].
    apply yields_bind with (1 := slice_from_yields body (h + p) Hb ltac:(lia)). intros rest [Hr _]. now split.
Qed.

Lemma ga_request_yields want accept body :
  bytes_ok body ->
  yields (let* inner := template_inner 0x7C body in ga_walk (S (length inner)) want accept inner)
    (fun v => bytes_ok v /\ accept v = true).
Proof.
  intros Hb. apply yields_bind with (1 := template_inner_yields 0x7C body Hb). intros inner Hi.
  apply ga_walk_yields; [exact Hi|lia].
Qed.

Lemma parse_generate_yields body :
  bytes_ok body ->
  yields (parse_generate_request body) (fun r => policy_ok (gr_pin_policy r) /\ policy_ok (gr_touch_policy r)).
Proof.
  intros Hb. apply yields_bind with (1 := template_inner_yields 0xAC body Hb). intros inner Hi.
  apply yields_bind with
    (1 := generate_walk_yields (S (length inner)) None None None inner Hi ltac:(lia) policy_none policy_none).
  intros [[alg pin] touch] Hpt. apply yields_bind with (P := fun _ => True); [now apply yields_ok_or|].
  intros a _. exact Hpt.
Qed.

Lemma trim_zeros_spec val :
  bytes_ok val -> bytes_ok (trim_zeros val) /\ (length (trim_zeros val) <= length val)%nat.
Proof.
  induction 1 as [|b val Hb Hv IH]; simpl; [auto|]. case_match.
  - destruct IH as [IHok IHle]. split; [exact IHok|lia].
  - simpl. split; [now constructor|lia].
Qed.

Lemma index_yields {E} l i : bytes_ok l -> 0 <= i < len l -> yields (index (E := E) l i) byte_ok.
Proof.
  intros Hl Hi. pose proof (index_no_panic (E := E) l i Hi) as Hn. unfold index in *.
  destruct (_ && _); [|now destruct Hn].
  destruct (l !! Z.to_nat i) as [b|] eqn:Hb; [|now destruct Hn]. exact (proj1 (Forall_lookup _ _) Hl _ _ Hb).
Qed.

Lemma parse_import_yields body :
  bytes_ok body ->
  yields (parse_import_request body) (fun r =>
    (bytes_ok (ir_scalar r) /\ len (ir_scalar r) = 32) /\
    policy_ok (ir_pin_policy r) /\ policy_ok (ir_touch_policy r)).
Proof.
  intros Hb. unfold parse_import_request. case_match; [exact I|]. bprop.
  apply yields_bind with (1 := index_yields body 0 Hb ltac:(lia)). intros b _. case_match; [exact I|].
  apply yields_bind with (1 := index_yields body 1 Hb ltac:(lia)). unfold byte_ok. intros n Hn.
  apply yields_bind with (1 := get_range_yields body 2 (2 + n) Hb ltac:(lia)). intros val (Hv & Hlen & _).
  cbv zeta. destruct (trim_zeros_spec val Hv) as [Htok _]. case_match; [exact I|]. bprop.
  apply yields_bind with (1 := slice_from_yields body (2 + n) Hb ltac:(lia)). intros cur [Hc _].
  apply yields_bind with
    (1 := import_walk_yields (S (length cur)) None None cur Hc ltac:(lia) policy_none policy_none).
  intros [p t] Hpt. simpl. split; [|exact Hpt]. split.
  - apply bytes_ok_app; [|exact Htok]. apply Forall_forall. intros x Hx. apply repeat_spec in Hx. subst x.
    unfold byte_ok. lia.
  - pose proof (len_nonneg (trim_zeros val)). rewrite len_app. unfold len at 1. rewrite repeat_length. lia.
Qed.

Lemma chuid_walk_yields chuid stop fuel : bytes_ok chuid -> stop <= len chuid -> forall pos,
  0 <= pos -> stop - pos < 2 * Z.of_nat fuel -> (0 < fuel)%nat -> yields (chuid_walk fuel chuid stop pos) (fun p => 0 <= p /\ p + 16 <= len chuid).
Proof.
  intros Hc Hs. induction fuel as [|fuel IH]; intros pos Hp Hf H0; simpl.
  - lia.
  - case_match; [|exact I]. bprop.
    apply yields_bind with (1 := index_yields chuid pos Hc ltac:(lia)). intros tag _.
    apply yields_bind with (1 := index_yields chuid (pos + 1) Hc ltac:(lia)). unfold byte_ok. intros n Hn.
    cbv zeta. case_match; bprop; [simpl; lia|]. apply IH; lia.
Qed.

Lemma chuid_guid_offset_yields chuid :
  bytes_ok chuid -> yields (chuid_guid_offset chuid) (fun p => 0 <= p /\ p + 16 <= len chuid).
Proof.
  intros Hc. unfold chuid_guid_offset. case_match; [exact I|]. bprop.
  apply yields_bind with (1 := index_yields chuid 0 Hc ltac:(lia)). intros b _. case_match; [exact I|].
  apply yields_bind with (1 := index_yields chuid 1 Hc ltac:(lia)). unfold byte_ok. intros n Hn. cbv zeta.
  apply chuid_walk_yields; [exact Hc|lia|lia|unfold len; lia|lia].
Qed.

(** ** Properties *)

(** Whatever bytes a command carries, none of the card's parsers
    indexes out of bounds or fails to end; an accepted ECDH point is 65 bytes
    starting with 04, an accepted challenge is not empty, an imported scalar is
    32 bytes, and a CHUID's GUID lies inside the object. *)
Theorem card_parsers_safe body :
  bytes_ok body ->
  no_panic (parse_5c_tag body) /\ no_panic (split_53_tlv body) /\ no_panic (parse_generate_request body) /\
  yields (parse_ga_ecdh_request body) (fun v => len v = 65) /\
  yields (parse_ga_sign_request body) (fun v => v <> []) /\
  yields (parse_import_request body) (fun r => len (ir_scalar r) = 32) /\
  yields (chuid_guid_offset body) (fun p => 0 <= p /\ p + 16 <= len body).
Proof.
  intros Hb. split; [|split; [|split; [|split; [|split; [|split]]]]].
  - apply yields_no_panic with (fun _ => True).
    apply yields_bind with (1 := parse_5c_yields body Hb). now intros [tag rest] _.
  - exact (yields_no_panic _ _ (split_53_yields body Hb)).
  - exact (yields_no_panic _ _ (parse_generate_yields body Hb)).
  - eapply yields_weaken; [exact (ga_request_yields _ _ body Hb)|]. intros v [_ Hv]. unfold is_p256_point in Hv.
    now bprop.
  - eapply yields_weaken; [exact (ga_request_yields _ _ body Hb)|]. intros v [_ Hv]. now bprop.
  - eapply yields_weaken; [exact (parse_import_yields body Hb)|]. now intros r [[_ Hr] _].
  - exact (chuid_guid_offset_yields body Hb).
Qed.

Lemma card_parsers_safe_witness :
  no_panic (parse_5c_tag [0x5C; 0xFF; 0x01]) /\ no_panic (split_53_tlv [0x5C; 0xFF; 0x01]).
Proof.
  assert (H : bytes_ok [0x5C; 0xFF; 0x01]) by by_compute.
  destruct (card_parsers_safe _ H) as (H1 & H2 & _). exact (conj H1 H2).
Defined.
