(* ===== verification/CardState.v ===== *)
(** * CardState: the state of the virtual PIV card, [fibby/src/virtual_card.rs]

    The struct, the touch pad it shares with its readers ([fibby/src/touch.rs]),
    its constants and one setter per field.  P-256, 3DES and the attestation
    certificates are parameters ([CardCrypto]).  The handlers are in [Card]. *)

From Stdlib Require Import ZArith Lia String.
From stdpp Require Import base tactics list numbers gmap.
From S2P Require Import Prelude.

Local Open Scope Z_scope.

(** ** What the card takes from other code

    The [p256], [des] and [rand_core] crates, and [attest.rs] (certificates). *)
Record CardCrypto := {
  cc_rng : Type;
  cc_authority : Type;
  (** [SigningKey::from_slice], then the uncompressed public point *)
  p256_public : bytes -> option bytes;
  (** [NonZeroScalar::try_from] succeeds *)
  p256_scalar_ok : bytes -> bool;
  (** [SigningKey::from_slice(scalar)?.sign_prehash(challenge)], as DER *)
  p256_sign : bytes -> bytes -> option bytes;
  (** [EncodedPoint::from_bytes] succeeds *)
  p256_sec1_ok : bytes -> bool;
  (** [PublicKey::from_encoded_point] succeeds *)
  p256_on_curve : bytes -> bool;
  (** [diffie_hellman(scalar, point).raw_secret_bytes()] *)
  p256_dh : bytes -> bytes -> bytes;
  (** [SigningKey::random] *)
  p256_random : cc_rng -> bytes * cc_rng;
  (** [des::TdesEde3::decrypt_block] *)
  tdes_decrypt : bytes -> bytes -> bytes;
  (** [AttestationAuthority::attest_slot], [AttestationAuthority::cert_object] *)
  attest_slot : cc_authority -> Z -> bytes -> Z * Z -> bytes -> bytes;
  cert_object : cc_authority -> bytes;
}.

(** ** Touch ([touch.rs]) *)

(** Times are in milliseconds. *)
Definition TOUCH_CACHE_WINDOW : Z := 15 * 1000.

Record TouchPad := MkPad {
  pad_pending : Z;
  pad_cached_until : gmap Z Z;
  pad_generation : Z;
}.

Inductive TouchPass : Type := TouchGranted | TouchCached.

Definition pad_new : TouchPad := MkPad 0 ∅ 0.

Definition grant (p : TouchPad) : Z * TouchPad :=
  let pending := u32 (pad_pending p + 1) in
  (pending, MkPad pending (pad_cached_until p) (u64 (pad_generation p + 1))).

(** [Err] carries the generation to wait on. *)
Definition try_consume (slot : Z) (cached_policy : bool) (now : Z) (p : TouchPad)
    : (TouchPass + Z) * TouchPad :=
  let open_window := match pad_cached_until p !! slot with Some until => now <? until | None => false end in
  if cached_policy && open_window then (inl TouchCached, p)
  else if pad_pending p =? 0 then (inr (pad_generation p), p)
  else if cached_policy then
    (inl TouchGranted, MkPad (pad_pending p - 1) (<[slot := now + TOUCH_CACHE_WINDOW]> (pad_cached_until p))
                         (u64 (pad_generation p + 1)))
  else (inl TouchGranted, MkPad (pad_pending p - 1) (pad_cached_until p) (pad_generation p)).

Definition clear_cache (p : TouchPad) : TouchPad := MkPad (pad_pending p) ∅ (pad_generation p).

(** What happens to a card that is let go ([proto::disposition]) *)
Definition DISPOSITION_LEAVE : Z := 0.
Definition DISPOSITION_RESET : Z := 1.
Definition DISPOSITION_UNPOWER : Z := 2.

(** ** The card *)

Inductive Model : Type := Yk4 | Yk5.

(** The values are those of GET METADATA. *)
Inductive KeyOrigin : Type := Generated | Imported.

#[export] Instance KeyOrigin_eq_dec : EqDecision KeyOrigin.
Proof. solve_decision. Defined.

Definition key_origin_u8 (o : KeyOrigin) : Z := match o with Generated => 1 | Imported => 2 end.

(** Queued faults: which instruction ([None] is any), what to answer, how often. *)
Record Fault := MkFault { fault_ins : option Z; fault_sw : Z; fault_remaining : Z }.

Definition CANONICAL_REAL_CARD_PIV_FCI : bytes :=
  [0x61; 0x11; 0x4F; 0x06; 0x00; 0x00; 0x10; 0x00; 0x01; 0x00; 0x79; 0x07; 0x4F; 0x05; 0xA0; 0x00;
   0x00; 0x03; 0x08].
Definition PIV_AID_PREFIX : bytes := [0xA0; 0x00; 0x00; 0x03; 0x08].

Definition select_fci_bytes (m : Model) : bytes := match m with Yk4 | Yk5 => CANONICAL_REAL_CARD_PIV_FCI end.
Definition model_serial (m : Model) : option bytes :=
  match m with Yk4 => None | Yk5 => Some [0x00; 0xF2; 0xC2; 0xE6] end.
Definition model_otp_serial (m : Model) : bytes :=
  match m with Yk4 => [0x00; 0xBC; 0x61; 0x4E] | Yk5 => [0x00; 0xF2; 0xC2; 0xE6] end.
Definition firmware_version (m : Model) : bytes :=
  match m with Yk4 => [0x04; 0x03; 0x05] | Yk5 => [0x05; 0x02; 0x07] end.

(** [pin_policy] and [touch_policy] *)
Definition PIN_DEFAULT : Z := 0.
Definition PIN_NEVER : Z := 1.
Definition PIN_ONCE : Z := 2.
Definition PIN_ALWAYS : Z := 3.
Definition TOUCH_DEFAULT : Z := 0.
Definition TOUCH_NEVER : Z := 1.
Definition TOUCH_ALWAYS : Z := 2.
Definition TOUCH_CACHED : Z := 3.

Definition SW_TOUCH_TIMEOUT : bytes := [0x69; 0x82].
Definition TAG_ATTESTATION_CERT : bytes := [0x5F; 0xFF; 0x01].
Definition DEFAULT_PIN : bytes := [0x31; 0x32; 0x33; 0x34; 0x35; 0x36; 0xFF; 0xFF].
Definition DEFAULT_PUK : bytes := [0x31; 0x32; 0x33; 0x34; 0x35; 0x36; 0x37; 0x38].
Definition DEFAULT_PIN_RETRIES : Z := 3.
Definition DEFAULT_PUK_RETRIES : Z := 3.
Definition DEFAULT_MGMT_KEY : bytes :=
  [1; 2; 3; 4; 5; 6; 7; 8; 1; 2; 3; 4; 5; 6; 7; 8; 1; 2; 3; 4; 5; 6; 7; 8].

(** The struct, less the reader's name and the touch timeout.  [vc_touch_blocked]
    is the slot and the pad's generation; [vc_rng] is the OS random generator. *)
Section VirtualCard.
Context {K : CardCrypto}.
Record VirtualCard := MkCard {
  vc_model : Model;
  vc_inserted : bool;
  vc_event_counter : Z;
  vc_powered : bool;
  vc_selected_piv : bool;
  vc_selected_otp : bool;
  vc_serial_override : option bytes;
  vc_data_objects : gmap bytes bytes;
  vc_pin : bytes;
  vc_pin_retries : Z;
  vc_pin_verified : bool;
  vc_command_since_verify : bool;
  vc_require_select : bool;
  vc_puk : bytes;
  vc_puk_retries : Z;
  vc_slot_9a_priv : option bytes;
  vc_slot_9d_priv : option bytes;
  vc_slot_9c_priv : option bytes;
  vc_slot_9e_priv : option bytes;
  vc_mgmt_key : bytes;
  vc_pending_mgmt_witness : option bytes;
  vc_mgmt_authenticated : bool;
  vc_generate_overrides : gmap Z bytes;
  vc_faults : list Fault;
  vc_slot_policies : gmap Z (Z * Z);
  vc_slot_origins : gmap Z KeyOrigin;
  vc_attestation : cc_authority K;
  vc_touch : TouchPad;
  vc_auto_touch : bool;
  vc_touch_clock_skew : Z;
  vc_touch_blocked : option (Z * Z);
  vc_rng : cc_rng K;
}.
End VirtualCard.
Arguments VirtualCard : clear implicits.

(** One setter per field: [self.field = v]. *)

Definition set_inserted {K : CardCrypto} (v : bool) (c : VirtualCard K) : VirtualCard K :=
  MkCard (vc_model c) v (vc_event_counter c) (vc_powered c) (vc_selected_piv c) (vc_selected_otp c)
     (vc_serial_override c) (vc_data_objects c) (vc_pin c) (vc_pin_retries c) (vc_pin_verified c)
     (vc_command_since_verify c) (vc_require_select c) (vc_puk c) (vc_puk_retries c)
     (vc_slot_9a_priv c) (vc_slot_9d_priv c) (vc_slot_9c_priv c) (vc_slot_9e_priv c)
     (vc_mgmt_key c) (vc_pending_mgmt_witness c) (vc_mgmt_authenticated c)
     (vc_generate_overrides c) (vc_faults c) (vc_slot_policies c) (vc_slot_origins c)
     (vc_attestation c) (vc_touch c) (vc_auto_touch c) (vc_touch_clock_skew c)
     (vc_touch_blocked c) (vc_rng c).
Definition set_event_counter {K : CardCrypto} (v : Z) (c : VirtualCard K) : VirtualCard K :=
  MkCard (vc_model c) (vc_inserted c) v (vc_powered c) (vc_selected_piv c) (vc_selected_otp c)
     (vc_serial_override c) (vc_data_objects c) (vc_pin c) (vc_pin_retries c) (vc_pin_verified c)
     (vc_command_since_verify c) (vc_require_select c) (vc_puk c) (vc_puk_retries c)
     (vc_slot_9a_priv c) (vc_slot_9d_priv c) (vc_slot_9c_priv c) (vc_slot_9e_priv c)
     (vc_mgmt_key c) (vc_pending_mgmt_witness c) (vc_mgmt_authenticated c)
     (vc_generate_overrides c) (vc_faults c) (vc_slot_policies c) (vc_slot_origins c)
     (vc_attestation c) (vc_touch c) (vc_auto_touch c) (vc_touch_clock_skew c)
     (vc_touch_blocked c) (vc_rng c).
Definition set_powered {K : CardCrypto} (v : bool) (c : VirtualCard K) : VirtualCard K :=
  MkCard (vc_model c) (vc_inserted c) (vc_event_counter c) v (vc_selected_piv c) (vc_selected_otp c)
     (vc_serial_override c) (vc_data_objects c) (vc_pin c) (vc_pin_retries c) (vc_pin_verified c)
     (vc_command_since_verify c) (vc_require_select c) (vc_puk c) (vc_puk_retries c)
     (vc_slot_9a_priv c) (vc_slot_9d_priv c) (vc_slot_9c_priv c) (vc_slot_9e_priv c)
     (vc_mgmt_key c) (vc_pending_mgmt_witness c) (vc_mgmt_authenticated c)
     (vc_generate_overrides c) (vc_faults c) (vc_slot_policies c) (vc_slot_origins c)
     (vc_attestation c) (vc_touch c) (vc_auto_touch c) (vc_touch_clock_skew c)
     (vc_touch_blocked c) (vc_rng c).
Definition set_selected_piv {K : CardCrypto} (v : bool) (c : VirtualCard K) : VirtualCard K :=
  MkCard (vc_model c) (vc_inserted c) (vc_event_counter c) (vc_powered c) v (vc_selected_otp c)
     (vc_serial_override c) (vc_data_objects c) (vc_pin c) (vc_pin_retries c) (vc_pin_verified c)
     (vc_command_since_verify c) (vc_require_select c) (vc_puk c) (vc_puk_retries c)
     (vc_slot_9a_priv c) (vc_slot_9d_priv c) (vc_slot_9c_priv c) (vc_slot_9e_priv c)
     (vc_mgmt_key c) (vc_pending_mgmt_witness c) (vc_mgmt_authenticated c)
     (vc_generate_overrides c) (vc_faults c) (vc_slot_policies c) (vc_slot_origins c)
     (vc_attestation c) (vc_touch c) (vc_auto_touch c) (vc_touch_clock_skew c)
     (vc_touch_blocked c) (vc_rng c).
Definition set_selected_otp {K : CardCrypto} (v : bool) (c : VirtualCard K) : VirtualCard K :=
  MkCard (vc_model c) (vc_inserted c) (vc_event_counter c) (vc_powered c) (vc_selected_piv c) v
     (vc_serial_override c) (vc_data_objects c) (vc_pin c) (vc_pin_retries c) (vc_pin_verified c)
     (vc_command_since_verify c) (vc_require_select c) (vc_puk c) (vc_puk_retries c)
     (vc_slot_9a_priv c) (vc_slot_9d_priv c) (vc_slot_9c_priv c) (vc_slot_9e_priv c)
     (vc_mgmt_key c) (vc_pending_mgmt_witness c) (vc_mgmt_authenticated c)
     (vc_generate_overrides c) (vc_faults c) (vc_slot_policies c) (vc_slot_origins c)
     (vc_attestation c) (vc_touch c) (vc_auto_touch c) (vc_touch_clock_skew c)
     (vc_touch_blocked c) (vc_rng c).
Definition set_serial_override {K : CardCrypto} (v : option bytes) (c : VirtualCard K) : VirtualCard K :=
  MkCard (vc_model c) (vc_inserted c) (vc_event_counter c) (vc_powered c) (vc_selected_piv c)
     (vc_selected_otp c) v (vc_data_objects c) (vc_pin c) (vc_pin_retries c) (vc_pin_verified c)
     (vc_command_since_verify c) (vc_require_select c) (vc_puk c) (vc_puk_retries c)
     (vc_slot_9a_priv c) (vc_slot_9d_priv c) (vc_slot_9c_priv c) (vc_slot_9e_priv c)
     (vc_mgmt_key c) (vc_pending_mgmt_witness c) (vc_mgmt_authenticated c)
     (vc_generate_overrides c) (vc_faults c) (vc_slot_policies c) (vc_slot_origins c)
     (vc_attestation c) (vc_touch c) (vc_auto_touch c) (vc_touch_clock_skew c)
     (vc_touch_blocked c) (vc_rng c).
Definition set_data_objects {K : CardCrypto} (v : gmap bytes bytes) (c : VirtualCard K) : VirtualCard K :=
  MkCard (vc_model c) (vc_inserted c) (vc_event_counter c) (vc_powered c) (vc_selected_piv c)
     (vc_selected_otp c) (vc_serial_override c) v (vc_pin c) (vc_pin_retries c)
     (vc_pin_verified c) (vc_command_since_verify c) (vc_require_select c) (vc_puk c)
     (vc_puk_retries c) (vc_slot_9a_priv c) (vc_slot_9d_priv c) (vc_slot_9c_priv c)
     (vc_slot_9e_priv c) (vc_mgmt_key c) (vc_pending_mgmt_witness c) (vc_mgmt_authenticated c)
     (vc_generate_overrides c) (vc_faults c) (vc_slot_policies c) (vc_slot_origins c)
     (vc_attestation c) (vc_touch c) (vc_auto_touch c) (vc_touch_clock_skew c)
     (vc_touch_blocked c) (vc_rng c).
Definition set_pin {K : CardCrypto} (v : bytes) (c : VirtualCard K) : VirtualCard K :=
  MkCard (vc_model c) (vc_inserted c) (vc_event_counter c) (vc_powered c) (vc_selected_piv c)
     (vc_selected_otp c) (vc_serial_override c) (vc_data_objects c) v (vc_pin_retries c)
     (vc_pin_verified c) (vc_command_since_verify c) (vc_require_select c) (vc_puk c)
     (vc_puk_retries c) (vc_slot_9a_priv c) (vc_slot_9d_priv c) (vc_slot_9c_priv c)
     (vc_slot_9e_priv c) (vc_mgmt_key c) (vc_pending_mgmt_witness c) (vc_mgmt_authenticated c)
     (vc_generate_overrides c) (vc_faults c) (vc_slot_policies c) (vc_slot_origins c)
     (vc_attestation c) (vc_touch c) (vc_auto_touch c) (vc_touch_clock_skew c)
     (vc_touch_blocked c) (vc_rng c).
Definition set_pin_retries {K : CardCrypto} (v : Z) (c : VirtualCard K) : VirtualCard K :=
  MkCard (vc_model c) (vc_inserted c) (vc_event_counter c) (vc_powered c) (vc_selected_piv c)
     (vc_selected_otp c) (vc_serial_override c) (vc_data_objects c) (vc_pin c) v
     (vc_pin_verified c) (vc_command_since_verify c) (vc_require_select c) (vc_puk c)
     (vc_puk_retries c) (vc_slot_9a_priv c) (vc_slot_9d_priv c) (vc_slot_9c_priv c)
     (vc_slot_9e_priv c) (vc_mgmt_key c) (vc_pending_mgmt_witness c) (vc_mgmt_authenticated c)
     (vc_generate_overrides c) (vc_faults c) (vc_slot_policies c) (vc_slot_origins c)
     (vc_attestation c) (vc_touch c) (vc_auto_touch c) (vc_touch_clock_skew c)
     (vc_touch_blocked c) (vc_rng c).
Definition set_pin_verified {K : CardCrypto} (v : bool) (c : VirtualCard K) : VirtualCard K :=
  MkCard (vc_model c) (vc_inserted c) (vc_event_counter c) (vc_powered c) (vc_selected_piv c)
     (vc_selected_otp c) (vc_serial_override c) (vc_data_objects c) (vc_pin c) (vc_pin_retries c)
     v (vc_command_since_verify c) (vc_require_select c) (vc_puk c) (vc_puk_retries c)
     (vc_slot_9a_priv c) (vc_slot_9d_priv c) (vc_slot_9c_priv c) (vc_slot_9e_priv c)
     (vc_mgmt_key c) (vc_pending_mgmt_witness c) (vc_mgmt_authenticated c)
     (vc_generate_overrides c) (vc_faults c) (vc_slot_policies c) (vc_slot_origins c)
     (vc_attestation c) (vc_touch c) (vc_auto_touch c) (vc_touch_clock_skew c)
     (vc_touch_blocked c) (vc_rng c).
Definition set_command_since_verify {K : CardCrypto} (v : bool) (c : VirtualCard K) : VirtualCard K :=
  MkCard (vc_model c) (vc_inserted c) (vc_event_counter c) (vc_powered c) (vc_selected_piv c)
     (vc_selected_otp c) (vc_serial_override c) (vc_data_objects c) (vc_pin c) (vc_pin_retries c)
     (vc_pin_verified c) v (vc_require_select c) (vc_puk c) (vc_puk_retries c)
     (vc_slot_9a_priv c) (vc_slot_9d_priv c) (vc_slot_9c_priv c) (vc_slot_9e_priv c)
     (vc_mgmt_key c) (vc_pending_mgmt_witness c) (vc_mgmt_authenticated c)
     (vc_generate_overrides c) (vc_faults c) (vc_slot_policies c) (vc_slot_origins c)
     (vc_attestation c) (vc_touch c) (vc_auto_touch c) (vc_touch_clock_skew c)
     (vc_touch_blocked c) (vc_rng c).
Definition set_require_select {K : CardCrypto} (v : bool) (c : VirtualCard K) : VirtualCard K :=
  MkCard (vc_model c) (vc_inserted c) (vc_event_counter c) (vc_powered c) (vc_selected_piv c)
     (vc_selected_otp c) (vc_serial_override c) (vc_data_objects c) (vc_pin c) (vc_pin_retries c)
     (vc_pin_verified c) (vc_command_since_verify c) v (vc_puk c) (vc_puk_retries c)
     (vc_slot_9a_priv c) (vc_slot_9d_priv c) (vc_slot_9c_priv c) (vc_slot_9e_priv c)
     (vc_mgmt_key c) (vc_pending_mgmt_witness c) (vc_mgmt_authenticated c)
     (vc_generate_overrides c) (vc_faults c) (vc_slot_policies c) (vc_slot_origins c)
     (vc_attestation c) (vc_touch c) (vc_auto_touch c) (vc_touch_clock_skew c)
     (vc_touch_blocked c) (vc_rng c).
Definition set_puk {K : CardCrypto} (v : bytes) (c : VirtualCard K) : VirtualCard K :=
  MkCard (vc_model c) (vc_inserted c) (vc_event_counter c) (vc_powered c) (vc_selected_piv c)
     (vc_selected_otp c) (vc_serial_override c) (vc_data_objects c) (vc_pin c) (vc_pin_retries c)
     (vc_pin_verified c) (vc_command_since_verify c) (vc_require_select c) v (vc_puk_retries c)
     (vc_slot_9a_priv c) (vc_slot_9d_priv c) (vc_slot_9c_priv c) (vc_slot_9e_priv c)
     (vc_mgmt_key c) (vc_pending_mgmt_witness c) (vc_mgmt_authenticated c)
     (vc_generate_overrides c) (vc_faults c) (vc_slot_policies c) (vc_slot_origins c)
     (vc_attestation c) (vc_touch c) (vc_auto_touch c) (vc_touch_clock_skew c)
     (vc_touch_blocked c) (vc_rng c).
Definition set_puk_retries {K : CardCrypto} (v : Z) (c : VirtualCard K) : VirtualCard K :=
  MkCard (vc_model c) (vc_inserted c) (vc_event_counter c) (vc_powered c) (vc_selected_piv c)
     (vc_selected_otp c) (vc_serial_override c) (vc_data_objects c) (vc_pin c) (vc_pin_retries c)
     (vc_pin_verified c) (vc_command_since_verify c) (vc_require_select c) (vc_puk c) v
     (vc_slot_9a_priv c) (vc_slot_9d_priv c) (vc_slot_9c_priv c) (vc_slot_9e_priv c)
     (vc_mgmt_key c) (vc_pending_mgmt_witness c) (vc_mgmt_authenticated c)
     (vc_generate_overrides c) (vc_faults c) (vc_slot_policies c) (vc_slot_origins c)
     (vc_attestation c) (vc_touch c) (vc_auto_touch c) (vc_touch_clock_skew c)
     (vc_touch_blocked c) (vc_rng c).
Definition set_slot_9a_priv {K : CardCrypto} (v : option bytes) (c : VirtualCard K) : VirtualCard K :=
  MkCard (vc_model c) (vc_inserted c) (vc_event_counter c) (vc_powered c) (vc_selected_piv c)
     (vc_selected_otp c) (vc_serial_override c) (vc_data_objects c) (vc_pin c) (vc_pin_retries c)
     (vc_pin_verified c) (vc_command_since_verify c) (vc_require_select c) (vc_puk c)
     (vc_puk_retries c) v (vc_slot_9d_priv c) (vc_slot_9c_priv c) (vc_slot_9e_priv c)
     (vc_mgmt_key c) (vc_pending_mgmt_witness c) (vc_mgmt_authenticated c)
     (vc_generate_overrides c) (vc_faults c) (vc_slot_policies c) (vc_slot_origins c)
     (vc_attestation c) (vc_touch c) (vc_auto_touch c) (vc_touch_clock_skew c)
     (vc_touch_blocked c) (vc_rng c).
Definition set_slot_9d_priv {K : CardCrypto} (v : option bytes) (c : VirtualCard K) : VirtualCard K :=
  MkCard (vc_model c) (vc_inserted c) (vc_event_counter c) (vc_powered c) (vc_selected_piv c)
     (vc_selected_otp c) (vc_serial_override c) (vc_data_objects c) (vc_pin c) (vc_pin_retries c)
     (vc_pin_verified c) (vc_command_since_verify c) (vc_require_select c) (vc_puk c)
     (vc_puk_retries c) (vc_slot_9a_priv c) v (vc_slot_9c_priv c) (vc_slot_9e_priv c)
     (vc_mgmt_key c) (vc_pending_mgmt_witness c) (vc_mgmt_authenticated c)
     (vc_generate_overrides c) (vc_faults c) (vc_slot_policies c) (vc_slot_origins c)
     (vc_attestation c) (vc_touch c) (vc_auto_touch c) (vc_touch_clock_skew c)
     (vc_touch_blocked c) (vc_rng c).
Definition set_slot_9c_priv {K : CardCrypto} (v : option bytes) (c : VirtualCard K) : VirtualCard K :=
  MkCard (vc_model c) (vc_inserted c) (vc_event_counter c) (vc_powered c) (vc_selected_piv c)
     (vc_selected_otp c) (vc_serial_override c) (vc_data_objects c) (vc_pin c) (vc_pin_retries c)
     (vc_pin_verified c) (vc_command_since_verify c) (vc_require_select c) (vc_puk c)
     (vc_puk_retries c) (vc_slot_9a_priv c) (vc_slot_9d_priv c) v (vc_slot_9e_priv c)
     (vc_mgmt_key c) (vc_pending_mgmt_witness c) (vc_mgmt_authenticated c)
     (vc_generate_overrides c) (vc_faults c) (vc_slot_policies c) (vc_slot_origins c)
     (vc_attestation c) (vc_touch c) (vc_auto_touch c) (vc_touch_clock_skew c)
     (vc_touch_blocked c) (vc_rng c).
Definition set_slot_9e_priv {K : CardCrypto} (v : option bytes) (c : VirtualCard K) : VirtualCard K :=
  MkCard (vc_model c) (vc_inserted c) (vc_event_counter c) (vc_powered c) (vc_selected_piv c)
     (vc_selected_otp c) (vc_serial_override c) (vc_data_objects c) (vc_pin c) (vc_pin_retries c)
     (vc_pin_verified c) (vc_command_since_verify c) (vc_require_select c) (vc_puk c)
     (vc_puk_retries c) (vc_slot_9a_priv c) (vc_slot_9d_priv c) (vc_slot_9c_priv c) v
     (vc_mgmt_key c) (vc_pending_mgmt_witness c) (vc_mgmt_authenticated c)
     (vc_generate_overrides c) (vc_faults c) (vc_slot_policies c) (vc_slot_origins c)
     (vc_attestation c) (vc_touch c) (vc_auto_touch c) (vc_touch_clock_skew c)
     (vc_touch_blocked c) (vc_rng c).
Definition set_mgmt_key {K : CardCrypto} (v : bytes) (c : VirtualCard K) : VirtualCard K :=
  MkCard (vc_model c) (vc_inserted c) (vc_event_counter c) (vc_powered c) (vc_selected_piv c)
     (vc_selected_otp c) (vc_serial_override c) (vc_data_objects c) (vc_pin c) (vc_pin_retries c)
     (vc_pin_verified c) (vc_command_since_verify c) (vc_require_select c) (vc_puk c)
     (vc_puk_retries c) (vc_slot_9a_priv c) (vc_slot_9d_priv c) (vc_slot_9c_priv c)
     (vc_slot_9e_priv c) v (vc_pending_mgmt_witness c) (vc_mgmt_authenticated c)
     (vc_generate_overrides c) (vc_faults c) (vc_slot_policies c) (vc_slot_origins c)
     (vc_attestation c) (vc_touch c) (vc_auto_touch c) (vc_touch_clock_skew c)
     (vc_touch_blocked c) (vc_rng c).
Definition set_pending_mgmt_witness {K : CardCrypto} (v : option bytes) (c : VirtualCard K) : VirtualCard K :=
  MkCard (vc_model c) (vc_inserted c) (vc_event_counter c) (vc_powered c) (vc_selected_piv c)
     (vc_selected_otp c) (vc_serial_override c) (vc_data_objects c) (vc_pin c) (vc_pin_retries c)
     (vc_pin_verified c) (vc_command_since_verify c) (vc_require_select c) (vc_puk c)
     (vc_puk_retries c) (vc_slot_9a_priv c) (vc_slot_9d_priv c) (vc_slot_9c_priv c)
     (vc_slot_9e_priv c) (vc_mgmt_key c) v (vc_mgmt_authenticated c) (vc_generate_overrides c)
     (vc_faults c) (vc_slot_policies c) (vc_slot_origins c) (vc_attestation c) (vc_touch c)
     (vc_auto_touch c) (vc_touch_clock_skew c) (vc_touch_blocked c) (vc_rng c).
Definition set_mgmt_authenticated {K : CardCrypto} (v : bool) (c : VirtualCard K) : VirtualCard K :=
  MkCard (vc_model c) (vc_inserted c) (vc_event_counter c) (vc_powered c) (vc_selected_piv c)
     (vc_selected_otp c) (vc_serial_override c) (vc_data_objects c) (vc_pin c) (vc_pin_retries c)
     (vc_pin_verified c) (vc_command_since_verify c) (vc_require_select c) (vc_puk c)
     (vc_puk_retries c) (vc_slot_9a_priv c) (vc_slot_9d_priv c) (vc_slot_9c_priv c)
     (vc_slot_9e_priv c) (vc_mgmt_key c) (vc_pending_mgmt_witness c) v (vc_generate_overrides c)
     (vc_faults c) (vc_slot_policies c) (vc_slot_origins c) (vc_attestation c) (vc_touch c)
     (vc_auto_touch c) (vc_touch_clock_skew c) (vc_touch_blocked c) (vc_rng c).
Definition set_generate_overrides {K : CardCrypto} (v : gmap Z bytes) (c : VirtualCard K) : VirtualCard K :=
  MkCard (vc_model c) (vc_inserted c) (vc_event_counter c) (vc_powered c) (vc_selected_piv c)
     (vc_selected_otp c) (vc_serial_override c) (vc_data_objects c) (vc_pin c) (vc_pin_retries c)
     (vc_pin_verified c) (vc_command_since_verify c) (vc_require_select c) (vc_puk c)
     (vc_puk_retries c) (vc_slot_9a_priv c) (vc_slot_9d_priv c) (vc_slot_9c_priv c)
     (vc_slot_9e_priv c) (vc_mgmt_key c) (vc_pending_mgmt_witness c) (vc_mgmt_authenticated c) v
     (vc_faults c) (vc_slot_policies c) (vc_slot_origins c) (vc_attestation c) (vc_touch c)
     (vc_auto_touch c) (vc_touch_clock_skew c) (vc_touch_blocked c) (vc_rng c).
Definition set_faults {K : CardCrypto} (v : list Fault) (c : VirtualCard K) : VirtualCard K :=
  MkCard (vc_model c) (vc_inserted c) (vc_event_counter c) (vc_powered c) (vc_selected_piv c)
     (vc_selected_otp c) (vc_serial_override c) (vc_data_objects c) (vc_pin c) (vc_pin_retries c)
     (vc_pin_verified c) (vc_command_since_verify c) (vc_require_select c) (vc_puk c)
     (vc_puk_retries c) (vc_slot_9a_priv c) (vc_slot_9d_priv c) (vc_slot_9c_priv c)
     (vc_slot_9e_priv c) (vc_mgmt_key c) (vc_pending_mgmt_witness c) (vc_mgmt_authenticated c)
     (vc_generate_overrides c) v (vc_slot_policies c) (vc_slot_origins c) (vc_attestation c)
     (vc_touch c) (vc_auto_touch c) (vc_touch_clock_skew c) (vc_touch_blocked c) (vc_rng c).
Definition set_slot_policies {K : CardCrypto} (v : gmap Z (Z * Z)) (c : VirtualCard K) : VirtualCard K :=
  MkCard (vc_model c) (vc_inserted c) (vc_event_counter c) (vc_powered c) (vc_selected_piv c)
     (vc_selected_otp c) (vc_serial_override c) (vc_data_objects c) (vc_pin c) (vc_pin_retries c)
     (vc_pin_verified c) (vc_command_since_verify c) (vc_require_select c) (vc_puk c)
     (vc_puk_retries c) (vc_slot_9a_priv c) (vc_slot_9d_priv c) (vc_slot_9c_priv c)
     (vc_slot_9e_priv c) (vc_mgmt_key c) (vc_pending_mgmt_witness c) (vc_mgmt_authenticated c)
     (vc_generate_overrides c) (vc_faults c) v (vc_slot_origins c) (vc_attestation c)
     (vc_touch c) (vc_auto_touch c) (vc_touch_clock_skew c) (vc_touch_blocked c) (vc_rng c).
Definition set_slot_origins {K : CardCrypto} (v : gmap Z KeyOrigin) (c : VirtualCard K) : VirtualCard K :=
  MkCard (vc_model c) (vc_inserted c) (vc_event_counter c) (vc_powered c) (vc_selected_piv c)
     (vc_selected_otp c) (vc_serial_override c) (vc_data_objects c) (vc_pin c) (vc_pin_retries c)
     (vc_pin_verified c) (vc_command_since_verify c) (vc_require_select c) (vc_puk c)
     (vc_puk_retries c) (vc_slot_9a_priv c) (vc_slot_9d_priv c) (vc_slot_9c_priv c)
     (vc_slot_9e_priv c) (vc_mgmt_key c) (vc_pending_mgmt_witness c) (vc_mgmt_authenticated c)
     (vc_generate_overrides c) (vc_faults c) (vc_slot_policies c) v (vc_attestation c)
     (vc_touch c) (vc_auto_touch c) (vc_touch_clock_skew c) (vc_touch_blocked c) (vc_rng c).
Definition set_touch {K : CardCrypto} (v : TouchPad) (c : VirtualCard K) : VirtualCard K :=
  MkCard (vc_model c) (vc_inserted c) (vc_event_counter c) (vc_powered c) (vc_selected_piv c)
     (vc_selected_otp c) (vc_serial_override c) (vc_data_objects c) (vc_pin c) (vc_pin_retries c)
     (vc_pin_verified c) (vc_command_since_verify c) (vc_require_select c) (vc_puk c)
     (vc_puk_retries c) (vc_slot_9a_priv c) (vc_slot_9d_priv c) (vc_slot_9c_priv c)
     (vc_slot_9e_priv c) (vc_mgmt_key c) (vc_pending_mgmt_witness c) (vc_mgmt_authenticated c)
     (vc_generate_overrides c) (vc_faults c) (vc_slot_policies c) (vc_slot_origins c)
     (vc_attestation c) v (vc_auto_touch c) (vc_touch_clock_skew c) (vc_touch_blocked c)
     (vc_rng c).
Definition set_auto_touch {K : CardCrypto} (v : bool) (c : VirtualCard K) : VirtualCard K :=
  MkCard (vc_model c) (vc_inserted c) (vc_event_counter c) (vc_powered c) (vc_selected_piv c)
     (vc_selected_otp c) (vc_serial_override c) (vc_data_objects c) (vc_pin c) (vc_pin_retries c)
     (vc_pin_verified c) (vc_command_since_verify c) (vc_require_select c) (vc_puk c)
     (vc_puk_retries c) (vc_slot_9a_priv c) (vc_slot_9d_priv c) (vc_slot_9c_priv c)
     (vc_slot_9e_priv c) (vc_mgmt_key c) (vc_pending_mgmt_witness c) (vc_mgmt_authenticated c)
     (vc_generate_overrides c) (vc_faults c) (vc_slot_policies c) (vc_slot_origins c)
     (vc_attestation c) (vc_touch c) v (vc_touch_clock_skew c) (vc_touch_blocked c) (vc_rng c).
Definition set_touch_clock_skew {K : CardCrypto} (v : Z) (c : VirtualCard K) : VirtualCard K :=
  MkCard (vc_model c) (vc_inserted c) (vc_event_counter c) (vc_powered c) (vc_selected_piv c)
     (vc_selected_otp c) (vc_serial_override c) (vc_data_objects c) (vc_pin c) (vc_pin_retries c)
     (vc_pin_verified c) (vc_command_since_verify c) (vc_require_select c) (vc_puk c)
     (vc_puk_retries c) (vc_slot_9a_priv c) (vc_slot_9d_priv c) (vc_slot_9c_priv c)
     (vc_slot_9e_priv c) (vc_mgmt_key c) (vc_pending_mgmt_witness c) (vc_mgmt_authenticated c)
     (vc_generate_overrides c) (vc_faults c) (vc_slot_policies c) (vc_slot_origins c)
     (vc_attestation c) (vc_touch c) (vc_auto_touch c) v (vc_touch_blocked c) (vc_rng c).
Definition set_touch_blocked {K : CardCrypto} (v : option (Z * Z)) (c : VirtualCard K) : VirtualCard K :=
  MkCard (vc_model c) (vc_inserted c) (vc_event_counter c) (vc_powered c) (vc_selected_piv c)
     (vc_selected_otp c) (vc_serial_override c) (vc_data_objects c) (vc_pin c) (vc_pin_retries c)
     (vc_pin_verified c) (vc_command_since_verify c) (vc_require_select c) (vc_puk c)
     (vc_puk_retries c) (vc_slot_9a_priv c) (vc_slot_9d_priv c) (vc_slot_9c_priv c)
     (vc_slot_9e_priv c) (vc_mgmt_key c) (vc_pending_mgmt_witness c) (vc_mgmt_authenticated c)
     (vc_generate_overrides c) (vc_faults c) (vc_slot_policies c) (vc_slot_origins c)
     (vc_attestation c) (vc_touch c) (vc_auto_touch c) (vc_touch_clock_skew c) v (vc_rng c).
Definition set_rng {K : CardCrypto} (v : cc_rng K) (c : VirtualCard K) : VirtualCard K :=
  MkCard (vc_model c) (vc_inserted c) (vc_event_counter c) (vc_powered c) (vc_selected_piv c)
     (vc_selected_otp c) (vc_serial_override c) (vc_data_objects c) (vc_pin c) (vc_pin_retries c)
     (vc_pin_verified c) (vc_command_since_verify c) (vc_require_select c) (vc_puk c)
     (vc_puk_retries c) (vc_slot_9a_priv c) (vc_slot_9d_priv c) (vc_slot_9c_priv c)
     (vc_slot_9e_priv c) (vc_mgmt_key c) (vc_pending_mgmt_witness c) (vc_mgmt_authenticated c)
     (vc_generate_overrides c) (vc_faults c) (vc_slot_policies c) (vc_slot_origins c)
     (vc_attestation c) (vc_touch c) (vc_auto_touch c) (vc_touch_clock_skew c)
     (vc_touch_blocked c) v.
