(* ===== verification/Card.v ===== *)
(** * Card: the virtual PIV card as a state machine, [fibby/src/virtual_card.rs]

    One handler per instruction, [dispatch] the command interpreter, and the
    [Backend] operations around it.  A step takes the wall clock where the code
    asks for it ([Instant::now()]) and returns the response bytes and the new
    card; the trace output is left out. *)

From Stdlib Require Import ZArith Lia String.
From stdpp Require Import base tactics list numbers gmap.
From S2P Require Import Prelude Apdu CardTlv CardState.

Local Open Scope Z_scope.

Definition YK_GET_METADATA : Z := 0xF7.

(** [sw(sw1, sw2)] *)
Definition sw_bytes (sw1 sw2 : Z) : bytes := [sw1; sw2].

Section Card.
Context {K : CardCrypto}.
Implicit Type c : VirtualCard K.

(** A handler's outcome: the response and the card after it.  The [Backend]
    interface lets a step fail; none of this card's does, so the error type
    is empty. *)
Definition Reply : Type := res Empty_set (bytes * VirtualCard K).

Definition reply (sw1 sw2 : Z) c : Reply := Ok (sw_bytes sw1 sw2, c).

(** ** Helpers *)

Definition piv_serial c : option bytes :=
  match model_serial (vc_model c) with
  | Some captured => Some (default captured (vc_serial_override c))
  | None => None
  end.

Definition otp_serial c : bytes := default (model_otp_serial (vc_model c)) (vc_serial_override c).

Definition slot_priv c (slot : Z) : option bytes :=
  if slot =? 0x9A then vc_slot_9a_priv c
  else if slot =? 0x9C then vc_slot_9c_priv c
  else if slot =? 0x9D then vc_slot_9d_priv c
  else if slot =? 0x9E then vc_slot_9e_priv c
  else None.

(** [unreachable!] on a slot that is not a key slot. *)
Definition install_slot_key c (slot : Z) (scalar : bytes) (policy : Z * Z) (origin : KeyOrigin)
    : res Empty_set (VirtualCard K) :=
  let* c := (if slot =? 0x9A then Ok (set_slot_9a_priv (Some scalar) c)
             else if slot =? 0x9C then Ok (set_slot_9c_priv (Some scalar) c)
             else if slot =? 0x9D then Ok (set_slot_9d_priv (Some scalar) c)
             else if slot =? 0x9E then Ok (set_slot_9e_priv (Some scalar) c)
             else Panic) in
  let c := set_slot_policies (<[slot := policy]> (vc_slot_policies c)) c in
  Ok (set_slot_origins (<[slot := origin]> (vc_slot_origins c)) c).

Definition stored_policy c (slot : Z) : Z * Z :=
  default (PIN_DEFAULT, TOUCH_DEFAULT) (vc_slot_policies c !! slot).

Definition effective_pin_policy c (slot : Z) : Z :=
  let configured := (stored_policy c slot).1 in
  if configured =? PIN_DEFAULT then
    (if slot =? 0x9C then PIN_ALWAYS else if slot =? 0x9E then PIN_NEVER else PIN_ONCE)
  else configured.

Definition effective_touch_policy c (slot : Z) : Z :=
  let configured := (stored_policy c slot).2 in
  if configured =? TOUCH_DEFAULT then TOUCH_NEVER else configured.

Definition pass_touch_gate (now : Z) c (slot : Z) : bool * VirtualCard K :=
  let policy := effective_touch_policy c slot in
  if negb ((policy =? TOUCH_ALWAYS) || (policy =? TOUCH_CACHED)) then (true, c)
  else
    let cached_policy := policy =? TOUCH_CACHED in
    if vc_auto_touch c then (true, c)
    else
      let now := now + vc_touch_clock_skew c in
      match try_consume slot cached_policy now (vc_touch c) with
      | (inl _, pad) => (true, set_touch pad c)
      | (inr generation, pad) => (false, set_touch_blocked (Some (slot, generation)) (set_touch pad c))
      end.

Definition reset_session_state c : VirtualCard K :=
  let c := set_selected_piv false c in
  let c := set_selected_otp false c in
  let c := set_pin_verified false c in
  let c := set_pending_mgmt_witness None c in
  set_mgmt_authenticated false c.

Definition fault_matches (i : Z) (f : Fault) : bool :=
  (0 <? fault_remaining f) && match fault_ins f with None => true | Some want => want =? i end.

Definition take_fault c (i : Z) : option Z * VirtualCard K :=
  match position (fault_matches i) (vc_faults c) with
  | None => (None, c)
  | Some idx =>
      match vc_faults c !! idx with
      | None => (None, c)
      | Some fault =>
          let fault := MkFault (fault_ins fault) (fault_sw fault) (fault_remaining fault - 1) in
          let faults := if fault_remaining fault =? 0 then delete idx (vc_faults c)
                        else <[idx := fault]> (vc_faults c) in
          (Some (fault_sw fault), set_faults faults c)
      end
  end.

(** ** Handlers *)

Definition handle_verify c (body : option bytes) : Reply :=
  match body with
  | None =>
      if vc_pin_verified c then reply 0x90 0x00 c
      else reply 0x63 (Z.lor 0xC0 (vc_pin_retries c)) c
  | Some pin =>
      if negb (len pin =? 8) then reply 0x6A 0x80 c
      else if vc_pin_retries c =? 0 then reply 0x69 0x83 c
      else if bytes_eqb pin (vc_pin c) then
        let c := set_pin_retries DEFAULT_PIN_RETRIES c in
        let c := set_pin_verified true c in
        let c := set_command_since_verify false c in
        reply 0x90 0x00 c
      else
        let* tries := usub (vc_pin_retries c) 1 in
        let c := set_pin_retries tries c in
        if vc_pin_retries c =? 0 then reply 0x69 0x83 c
        else reply 0x63 (Z.lor 0xC0 (vc_pin_retries c)) c
  end.

Definition handle_get_data c (apdu : bytes) : Reply :=
  let* body := apdu_body apdu in
  match body with
  | None => reply 0x6A 0x80 c
  | Some body =>
      let* tag := as_option (parse_5c_tag body) in
      match tag with
      | None => reply 0x6A 0x80 c
      | Some tag =>
          let stored :=
            match vc_data_objects c !! tag with
            | Some value => Some value
            | None => if bytes_eqb tag TAG_ATTESTATION_CERT then Some (cert_object K (vc_attestation c))
                      else None
            end in
          match stored with
          | Some value => Ok (value ++ sw_bytes 0x90 0x00, c)
          | None => reply 0x6A 0x82 c
          end
      end
  end.

Definition handle_general_authenticate_mgmt_key c (body : option bytes) : Reply :=
  match body with
  | None => reply 0x6A 0x80 c
  | Some body =>
      if bytes_eqb body [0x7C; 0x02; 0x81; 0x00] then
        let witness := default (repeat 0 8) (vc_pending_mgmt_witness c) in
        let c := set_pending_mgmt_witness (Some witness) c in
        Ok ([0x7C; 0x0A; 0x81; 0x08] ++ witness ++ sw_bytes 0x90 0x00, c)
      else if (len body =? 12) && starts_with body [0x7C; 0x0A; 0x82; 0x08] then
        let* enc := slice body 4 12 in
        match vc_pending_mgmt_witness c with
        | None => reply 0x69 0x82 c
        | Some witness =>
            let c := set_pending_mgmt_witness None c in
            let block := tdes_decrypt K (vc_mgmt_key c) enc in
            if bytes_eqb block witness then reply 0x90 0x00 (set_mgmt_authenticated true c)
            else reply 0x69 0x82 c
        end
      else reply 0x6A 0x80 c
  end.

Definition handle_change_reference_data c (p2 : Z) (body : option bytes) : Reply :=
  match body with
  | None => reply 0x6A 0x80 c
  | Some body =>
      if negb (len body =? 16) then reply 0x6A 0x80 c
      else
        let* old := slice body 0 8 in
        let* new := slice_from body 8 in
        let current := if p2 =? 0x80 then vc_pin c else vc_puk c in
        let retries := if p2 =? 0x80 then vc_pin_retries c else vc_puk_retries c in
        if retries =? 0 then reply 0x69 0x83 c
        else if negb (bytes_eqb old current) then
          let* tries := usub retries 1 in
          let c := if p2 =? 0x80 then set_pin_retries tries c else set_puk_retries tries c in
          reply 0x63 (Z.lor 0xC0 tries) c
        else
          let c := if p2 =? 0x80
                   then set_pin_retries DEFAULT_PIN_RETRIES (set_pin new c)
                   else set_puk_retries DEFAULT_PUK_RETRIES (set_puk new c) in
          reply 0x90 0x00 c
  end.

Definition handle_reset_retry_counter c (body : option bytes) : Reply :=
  match body with
  | None => reply 0x6A 0x80 c
  | Some body =>
      if negb (len body =? 16) then reply 0x6A 0x80 c
      else
        let* puk := slice body 0 8 in
        let* new_pin := slice_from body 8 in
        if vc_puk_retries c =? 0 then reply 0x69 0x83 c
        else if negb (bytes_eqb puk (vc_puk c)) then
          let* tries := usub (vc_puk_retries c) 1 in
          reply 0x63 (Z.lor 0xC0 tries) (set_puk_retries tries c)
        else
          let c := set_pin new_pin c in
          let c := set_pin_retries DEFAULT_PIN_RETRIES c in
          let c := set_puk_retries DEFAULT_PUK_RETRIES c in
          let c := set_pin_verified false c in
          reply 0x90 0x00 c
  end.

Definition handle_factory_reset c : Reply :=
  if negb (vc_pin_retries c =? 0) || negb (vc_puk_retries c =? 0) then reply 0x69 0x85 c
  else
    let c := set_slot_9a_priv None c in
    let c := set_slot_9c_priv None c in
    let c := set_slot_9d_priv None c in
    let c := set_slot_9e_priv None c in
    let c := set_slot_policies ∅ c in
    let c := set_slot_origins ∅ c in
    let c := set_touch (clear_cache (vc_touch c)) c in
    let c := set_data_objects ∅ c in
    let c := set_pin DEFAULT_PIN c in
    let c := set_pin_retries DEFAULT_PIN_RETRIES c in
    let c := set_puk DEFAULT_PUK c in
    let c := set_puk_retries DEFAULT_PUK_RETRIES c in
    let c := set_mgmt_key DEFAULT_MGMT_KEY c in
    let c := set_pin_verified false c in
    reply 0x90 0x00 c.

Definition handle_set_mgmt_key c (body : option bytes) : Reply :=
  if negb (vc_mgmt_authenticated c) then reply 0x69 0x82 c
  else
    match body with
    | None => reply 0x6A 0x80 c
    | Some body =>
        if negb (len body =? 3 + 24) || negb (bytes_eqb (take 3 body) [0x03; 0x9B; 0x18])
        then reply 0x6A 0x80 c
        else let* key := slice_from body 3 in reply 0x90 0x00 (set_mgmt_key key c)
    end.

(** The PIN checks of a private-key operation: [None] when they pass. *)
Definition pin_refused c (slot : Z) : bool :=
  let pin := effective_pin_policy c slot in
  (negb (pin =? PIN_NEVER) && negb (vc_pin_verified c))
  || ((pin =? PIN_ALWAYS) && vc_command_since_verify c).

(** [if pin == ALWAYS { self.pin_verified = false }] *)
Definition consume_verify c (policy : Z) : VirtualCard K :=
  if policy =? PIN_ALWAYS then set_pin_verified false c else c.

Definition handle_general_authenticate_ecdh_slot_9d (now : Z) c (body : option bytes) : Reply :=
  let pin := effective_pin_policy c 0x9D in
  if pin_refused c 0x9D then reply 0x69 0x82 c
  else
    match vc_slot_9d_priv c with
    | None => reply 0x6A 0x88 c
    | Some scalar =>
        match body with
        | None => reply 0x6A 0x80 c
        | Some body =>
            let* eph := as_option (parse_ga_ecdh_request body) in
            match eph with
            | None => reply 0x6A 0x80 c
            | Some eph =>
                if negb (p256_sec1_ok K eph) then reply 0x6A 0x80 c
                else if negb (p256_on_curve K eph) then reply 0x6A 0x80 c
                else if negb (p256_scalar_ok K scalar) then reply 0x6A 0x88 c
                else
                  let (pass, c) := pass_touch_gate now c 0x9D in
                  if negb pass then Ok (SW_TOUCH_TIMEOUT, c)
                  else
                    let x := p256_dh K scalar eph in
                    let c := consume_verify c pin in
                    Ok ([0x7C; 0x22; 0x82; 0x20] ++ x ++ sw_bytes 0x90 0x00, c)
            end
        end
    end.

Definition sign_ecdsa_slot (now : Z) c (body : option bytes) (slot : Z) : Reply :=
  let scalar := slot_priv c slot in
  let pin := effective_pin_policy c slot in
  if pin_refused c slot then reply 0x69 0x82 c
  else
    match scalar with
    | None => reply 0x6A 0x88 c
    | Some scalar =>
        match body with
        | None => reply 0x6A 0x80 c
        | Some body =>
            let* challenge := as_option (parse_ga_sign_request body) in
            match challenge with
            | None => reply 0x6A 0x80 c
            | Some challenge =>
                match p256_public K scalar with
                | None => reply 0x6A 0x88 c
                | Some _ =>
                    match p256_sign K scalar challenge with
                    | None => reply 0x6A 0x80 c
                    | Some der =>
                        let (pass, c) := pass_touch_gate now c slot in
                        if negb pass then Ok (SW_TOUCH_TIMEOUT, c)
                        else
                          let inner := push_ber_len [0x82] (len der) ++ der in
                          let out := push_ber_len [0x7C] (len inner) ++ inner ++ sw_bytes 0x90 0x00 in
                          Ok (out, consume_verify c pin)
                    end
                end
            end
        end
    end.

Definition handle_put_data c (apdu : bytes) : Reply :=
  let* body := apdu_body apdu in
  match body with
  | None => reply 0x6A 0x80 c
  | Some body =>
      let* parsed := as_option (parse_5c_tag_with_rest body) in
      match parsed with
      | None => reply 0x6A 0x80 c
      | Some (tag, rest) =>
          let* tlv := as_option (split_53_tlv rest) in
          match tlv with
          | None => reply 0x6A 0x80 c
          | Some (value_with_53, _) =>
              reply 0x90 0x00 (set_data_objects (<[tag := value_with_53]> (vc_data_objects c)) c)
          end
      end
  end.

Definition handle_generate_asymmetric c (slot : Z) (body : option bytes) : Reply :=
  if negb (vc_mgmt_authenticated c) then reply 0x69 0x82 c
  else
    match body with
    | None => reply 0x6A 0x80 c
    | Some body =>
        let* request := as_option (parse_generate_request body) in
        match request with
        | None => reply 0x6A 0x80 c
        | Some request =>
            if negb (gr_alg request =? 0x11) then reply 0x6A 0x80 c
            else if negb ((slot =? 0x9A) || (slot =? 0x9C) || (slot =? 0x9D)) then reply 0x6A 0x86 c
            else
              match validated_policy (gr_pin_policy request) (gr_touch_policy request) with
              | None => reply 0x6A 0x80 c
              | Some policy =>
                  let (scalar, c) :=
                    match vc_generate_overrides c !! slot with
                    | Some s => (s, c)
                    | None => let (s, g) := p256_random K (vc_rng c) in (s, set_rng g c)
                    end in
                  match p256_public K scalar with
                  | None => reply 0x6A 0x80 c
                  | Some pt =>
                      let* c := install_slot_key c slot scalar policy Generated in
                      let inner := push_ber_len [0x86] (len pt) ++ pt in
                      let out := push_ber_len [0x7F; 0x49] (len inner) ++ inner ++ sw_bytes 0x90 0x00 in
                      Ok (out, c)
                  end
              end
        end
    end.

Definition handle_import_asymmetric c (alg slot : Z) (body : option bytes) : Reply :=
  if negb (vc_mgmt_authenticated c) then reply 0x69 0x82 c
  else if negb (alg =? 0x11) then reply 0x6A 0x80 c
  else if negb ((slot =? 0x9A) || (slot =? 0x9C) || (slot =? 0x9D) || (slot =? 0x9E)) then reply 0x6A 0x86 c
  else
    let* request := match body with
                    | None => Ok None
                    | Some body => as_option (parse_import_request body)
                    end in
    match request with
    | None => reply 0x6A 0x80 c
    | Some request =>
        match p256_public K (ir_scalar request) with
        | None => reply 0x6A 0x80 c
        | Some _ =>
            match validated_policy (ir_pin_policy request) (ir_touch_policy request) with
            | None => reply 0x6A 0x80 c
            | Some policy =>
                let* c := install_slot_key c slot (ir_scalar request) policy Imported in
                reply 0x90 0x00 c
            end
        end
    end.

Definition slot_point c (slot : Z) : option bytes :=
  match slot_priv c slot with Some scalar => p256_public K scalar | None => None end.

Definition handle_attest c (slot : Z) : Reply :=
  let generated_point :=
    if bool_decide (vc_slot_origins c !! slot = Some Generated) then slot_point c slot else None in
  match generated_point with
  | None => reply 0x6A 0x80 c
  | Some point =>
      Ok (attest_slot K (vc_attestation c) slot point (stored_policy c slot) (firmware_version (vc_model c))
          ++ sw_bytes 0x90 0x00, c)
  end.

Definition handle_get_metadata c (slot : Z) : Reply :=
  match slot_point c slot with
  | None => reply 0x6A 0x88 c
  | Some point =>
      let (pin, touch) := stored_policy c slot in
      let origin := default Imported (vc_slot_origins c !! slot) in
      let out := [0x01; 0x01; 0x11; 0x02; 0x02; pin; touch; 0x03; 0x01] in
      let out := out ++ [key_origin_u8 origin] in
      let out := out ++ [0x04] in
      let out := push_ber_len out (2 + len point) in
      let out := out ++ [0x86] in
      let out := push_ber_len out (len point) in
      Ok (out ++ point ++ sw_bytes 0x90 0x00, c)
  end.

(** ** The interpreter *)

Definition handle_select c (apdu : bytes) : Reply :=
  let* body := apdu_body apdu in
  let aid := default [] body in
  if starts_with aid PIV_AID_PREFIX then
    let c := set_selected_piv true c in
    let c := set_selected_otp false c in
    Ok (select_fci_bytes (vc_model c) ++ sw_bytes 0x90 0x00, c)
  else if starts_with aid YK_OTP_AID then
    let c := set_selected_otp true c in
    let c := set_selected_piv false c in
    reply 0x90 0x00 c
  else reply 0x6A 0x82 c.

Definition dispatch_command (now : Z) c (command_apdu : bytes) : Reply :=
  if len command_apdu <? 4 then reply 0x6F 0x00 c
  else
    let* cla := index command_apdu 0 in
    let* ins := index command_apdu 1 in
    let* p1 := index command_apdu 2 in
    let* p2 := index command_apdu 3 in
    let (fault, c) := take_fault c ins in
    match fault with
    | Some fault_sw => reply (u8 (Z.shiftr fault_sw 8)) (u8 (Z.land fault_sw 0xFF)) c
    | None =>
      if (cla =? 0x00) && (ins =? Ins.SELECT) && (p1 =? 0x04) && (p2 =? 0x00) then
        handle_select c command_apdu
      else if (cla =? 0x00) && (ins =? Ins.GET_DATA) && (p1 =? 0x3F) && (p2 =? 0xFF) then
        handle_get_data c command_apdu
      else if (cla =? 0x00) && (ins =? Ins.PUT_DATA) && (p1 =? 0x3F) && (p2 =? 0xFF) then
        handle_put_data c command_apdu
      else if (cla =? 0x00) && (ins =? Ins.GEN_ASYM) && (p1 =? 0x00) then
        let* body := apdu_body command_apdu in handle_generate_asymmetric c p2 body
      else if (cla =? 0x00) && (ins =? Ins.YK_GET_VERSION) && (p1 =? 0x00) && (p2 =? 0x00) then
        Ok (firmware_version (vc_model c) ++ sw_bytes 0x90 0x00, c)
      else if (cla =? 0x00) && (ins =? Ins.YK_GET_SERIAL) && (p1 =? 0x00) && (p2 =? 0x00) then
        match piv_serial c with
        | Some serial => Ok (serial ++ sw_bytes 0x90 0x00, c)
        | None => reply 0x6D 0x00 c
        end
      else if vc_selected_otp c && (cla =? 0x00) && (ins =? OTP_API_REQ)
              && (p1 =? OTP_SLOT_DEVICE_SERIAL) && (p2 =? 0x00) then
        Ok (otp_serial c ++ sw_bytes 0x90 0x00, c)
      else if (cla =? 0x00) && (ins =? Ins.VERIFY) then
        if negb (p1 =? 0x00) || negb (p2 =? 0x80) then reply 0x6A 0x80 c
        else let* body := apdu_body command_apdu in handle_verify c body
      else if (cla =? 0x00) && (ins =? Ins.CHANGE_PIN) then
        if negb (p1 =? 0x00) || negb ((p2 =? 0x80) || (p2 =? 0x81)) then reply 0x6A 0x80 c
        else let* body := apdu_body command_apdu in handle_change_reference_data c p2 body
      else if (cla =? 0x00) && (ins =? Ins.RESET_PIN) then
        if negb (p1 =? 0x00) || negb (p2 =? 0x80) then reply 0x6A 0x80 c
        else let* body := apdu_body command_apdu in handle_reset_retry_counter c body
      else if (cla =? 0x00) && (ins =? Ins.YK_RESET) && (p1 =? 0x00) && (p2 =? 0x00) then
        handle_factory_reset c
      else if (cla =? 0x00) && (ins =? Ins.GEN_AUTH) && (p1 =? 0x11) && (p2 =? 0x9D) then
        let* body := apdu_body command_apdu in
        let* sign := match body with
                     | Some b => as_option (parse_ga_sign_request b)
                     | None => Ok None
                     end in
        match sign with
        | Some _ => sign_ecdsa_slot now c body 0x9D
        | None => handle_general_authenticate_ecdh_slot_9d now c body
        end
      else if (cla =? 0x00) && (ins =? Ins.GEN_AUTH) && (p1 =? 0x11)
              && ((p2 =? 0x9A) || (p2 =? 0x9C) || (p2 =? 0x9E)) then
        let* body := apdu_body command_apdu in sign_ecdsa_slot now c body p2
      else if (cla =? 0x00) && (ins =? Ins.GEN_AUTH) && (p1 =? 0x03) && (p2 =? 0x9B) then
        let* body := apdu_body command_apdu in handle_general_authenticate_mgmt_key c body
      else if (cla =? 0x00) && (ins =? Ins.SET_MGMT_KEY) && (p1 =? 0xFF) && (p2 =? 0xFF) then
        let* body := apdu_body command_apdu in handle_set_mgmt_key c body
      else if (cla =? 0x00) && (ins =? Ins.IMPORT_ASYM) then
        let* body := apdu_body command_apdu in handle_import_asymmetric c p1 p2 body
      else if (cla =? 0x00) && (ins =? Ins.YK_ATTEST) && (p2 =? 0x00) then handle_attest c p1
      else if (cla =? 0x00) && (ins =? YK_GET_METADATA) && (p1 =? 0x00) then handle_get_metadata c p2
      else reply 0x6D 0x00 c
    end.

Definition dispatch (now : Z) c (command_apdu : bytes) : Reply :=
  let c := set_touch_blocked None c in
  let ins := command_apdu !! 1%nat in
  if vc_require_select c && negb (vc_selected_piv c) && negb (vc_selected_otp c)
     && match ins with Some ins => negb (ins =? Ins.SELECT) | None => false end
  then reply 0x6D 0x00 c
  else
    let* (response, c) := dispatch_command now c command_apdu in
    let c := if negb (bool_decide (ins = Some Ins.VERIFY)) && bool_decide (vc_touch_blocked c = None)
             then set_command_since_verify true c else c in
    Ok (response, c).

(** ** The [Backend] operations *)

Inductive TransmitOutcome : Type :=
| Done (response : bytes)
(** the slot, the generation to wait on, and what to answer if no touch comes *)
| AwaitTouch (slot seen : Z) (timeout_response : bytes).

Definition transmit (now : Z) c (command_apdu : bytes) : Reply :=
  let* (response, c) := dispatch now c command_apdu in
  Ok (response, set_touch_blocked None c).

Definition transmit_or_await_touch (now : Z) c (command_apdu : bytes)
    : res Empty_set (TransmitOutcome * VirtualCard K) :=
  let* (response, c) := dispatch now c command_apdu in
  let blocked := vc_touch_blocked c in
  let c := set_touch_blocked None c in
  Ok (match blocked with
      | Some (slot, seen) => AwaitTouch slot seen response
      | None => Done response
      end, c).

Definition set_present c (present : bool) : VirtualCard K :=
  let c := if negb present && vc_inserted c then
             let c := set_powered false c in
             let c := set_selected_piv false c in
             let c := set_selected_otp false c in
             let c := set_pin_verified false c in
             let c := set_pending_mgmt_witness None c in
             let c := set_mgmt_authenticated false c in
             set_touch (clear_cache (vc_touch c)) c
           else c in
  let c := if negb (Bool.eqb present (vc_inserted c))
           then set_event_counter (u32 (vc_event_counter c + 1)) c else c in
  set_inserted present c.

Definition inject_fault c (fault : Fault) : res unit (VirtualCard K) :=
  if fault_remaining fault =? 0 then Err tt
  else Ok (set_faults (vc_faults c ++ [fault]) c).

Definition clear_faults c : VirtualCard K := set_faults [] c.

Definition connect c : VirtualCard K :=
  let c := set_powered true c in
  let c := set_selected_piv false c in
  set_selected_otp false c.

Definition disconnect c : VirtualCard K :=
  let c := set_powered false c in
  let c := set_selected_piv false c in
  let c := set_selected_otp false c in
  let c := set_pin_verified false c in
  let c := set_pending_mgmt_witness None c in
  set_mgmt_authenticated false c.

Definition end_transaction c (disposition : Z) : VirtualCard K :=
  if (disposition =? DISPOSITION_RESET) || (disposition =? DISPOSITION_UNPOWER)
  then reset_session_state c else c.

Definition grant_touch c : Z * VirtualCard K :=
  let (pending, pad) := grant (vc_touch c) in (pending, set_touch pad c).

(** [with_model]: the factory-fresh card. *)
Definition with_model (model : Model) (authority : cc_authority K) (g : cc_rng K) : VirtualCard K :=
  MkCard model true 0 false false false None ∅ DEFAULT_PIN DEFAULT_PIN_RETRIES false false false
    DEFAULT_PUK DEFAULT_PUK_RETRIES None None None None DEFAULT_MGMT_KEY None false ∅ [] ∅ ∅
    authority pad_new false 0 None g.
End Card.

(** ** A concrete card, for the witnesses

    A stand-in for the crates that has their shapes and none of their strength. *)

Definition xor_key (key block : bytes) : bytes := zip_with Z.lxor key block.

Definition toy_dh (scalar point : bytes) : bytes :=
  u8 <$> zip_with Z.lxor scalar (take 32 (drop 1 point)).

Definition ToyCard : CardCrypto := {|
  cc_rng := Z;
  cc_authority := unit;
  p256_public s := if len s =? 32 then Some (0x04 :: (u8 <$> s ++ s)) else None;
  p256_scalar_ok s := len s =? 32;
  p256_sign s m := if len s =? 32 then Some (0x30 :: (u8 <$> take 32 s)) else None;
  p256_sec1_ok pt := len pt =? 65;
  p256_on_curve pt := bytes_eqb (take 32 (drop 1 pt)) (drop 33 pt);
  p256_dh := toy_dh;
  p256_random g := (repeat (u8 g) 32, g + 1);
  tdes_decrypt := xor_key;
  attest_slot _ slot point policy fw := [0x30; u8 slot];
  cert_object _ := [0x53; 0x00];
|}.

Definition toy_card : VirtualCard ToyCard := with_model (K := ToyCard) Yk5 tt 7.
