(* ===== verification/PinSpec.v ===== *)
(** * PinSpec: what a PIV card promises about its PIN and PUK

    The abstract machine of the card's reference data: the two secrets, their
    retry counters and whether the PIN is verified, moved by events.  [Card]
    proves that the virtual card refines it; the theorems about guessing are
    proved here, once, on the abstract machine. *)

From Stdlib Require Import ZArith Lia.
From stdpp Require Import base tactics list numbers.
From S2P Require Import Prelude CardState.

Local Open Scope Z_scope.

Record PinState := MkPinState {
  ps_pin : bytes;
  ps_retries : Z;
  ps_verified : bool;
  ps_puk : bytes;
  ps_puk_retries : Z;
}.

Inductive PinEvent : Type :=
(** a command that leaves the reference data alone *)
| EvOther
(** the verification is dropped: consumed by a PIN-always key, or reset *)
| EvDrop
| EvVerify (pin : bytes)
| EvChangePin (old new : bytes)
| EvChangePuk (old new : bytes)
| EvUnblock (puk new_pin : bytes)
| EvFactoryReset.

(** A comparison of a secret: what the event does when it is right. *)
Definition try_pin (s : PinState) (guess : bytes) (right : PinState) : PinState :=
  if ps_retries s =? 0 then s
  else if bytes_eqb guess (ps_pin s) then right
  else MkPinState (ps_pin s) (ps_retries s - 1) (ps_verified s) (ps_puk s) (ps_puk_retries s).

Definition try_puk (s : PinState) (guess : bytes) (right : PinState) : PinState :=
  if ps_puk_retries s =? 0 then s
  else if bytes_eqb guess (ps_puk s) then right
  else MkPinState (ps_pin s) (ps_retries s) (ps_verified s) (ps_puk s) (ps_puk_retries s - 1).

Definition pin_step (s : PinState) (e : PinEvent) : PinState :=
  match e with
  | EvOther => s
  | EvDrop => MkPinState (ps_pin s) (ps_retries s) false (ps_puk s) (ps_puk_retries s)
  | EvVerify p => try_pin s p (MkPinState (ps_pin s) DEFAULT_PIN_RETRIES true (ps_puk s) (ps_puk_retries s))
  | EvChangePin o n => try_pin s o (MkPinState n DEFAULT_PIN_RETRIES (ps_verified s) (ps_puk s) (ps_puk_retries s))
  | EvChangePuk o n => try_puk s o (MkPinState (ps_pin s) (ps_retries s) (ps_verified s) n DEFAULT_PUK_RETRIES)
  | EvUnblock k n => try_puk s k (MkPinState n DEFAULT_PIN_RETRIES false (ps_puk s) DEFAULT_PUK_RETRIES)
  | EvFactoryReset =>
      if (ps_retries s =? 0) && (ps_puk_retries s =? 0)
      then MkPinState DEFAULT_PIN DEFAULT_PIN_RETRIES false DEFAULT_PUK DEFAULT_PUK_RETRIES else s
  end.

Definition pin_run (s : PinState) (es : list PinEvent) : PinState := foldl pin_step s es.

(** The counters are within their range. *)
Definition pin_state_ok (s : PinState) : Prop :=
  0 <= ps_retries s <= 3 /\ 0 <= ps_puk_retries s <= 3 /\ len (ps_pin s) = 8 /\ len (ps_puk s) = 8.

(** The event's own data is 8 bytes long. *)
Definition event_ok (e : PinEvent) : Prop :=
  match e with
  | EvVerify p => len p = 8
  | EvChangePin o n | EvChangePuk o n | EvUnblock o n => len o = 8 /\ len n = 8
  | _ => True
  end.

(** The event guesses the PIN, the PUK. *)
Definition guesses_pin (e : PinEvent) : option bytes :=
  match e with EvVerify p | EvChangePin p _ => Some p | _ => None end.
Definition guesses_puk (e : PinEvent) : option bytes :=
  match e with EvChangePuk k _ | EvUnblock k _ => Some k | _ => None end.

(** Someone who knows neither secret: no guess is right, and there is no factory
    reset. *)
Definition ignorant (s : PinState) (e : PinEvent) : Prop :=
  guesses_pin e <> Some (ps_pin s) /\ guesses_puk e <> Some (ps_puk s) /\ e <> EvFactoryReset.

Fixpoint ignorant_run (s : PinState) (es : list PinEvent) : Prop :=
  match es with
  | [] => True
  | e :: es => ignorant s e /\ ignorant_run (pin_step s e) es
  end.

(** The guesses at the PIN that the card compared, with tries left. *)
Fixpoint pin_tries (s : PinState) (es : list PinEvent) : Z :=
  match es with
  | [] => 0
  | e :: es =>
      (if negb (ps_retries s =? 0) && match guesses_pin e with Some _ => true | None => false end then 1 else 0)
      + pin_tries (pin_step s e) es
  end.

(** ** Lemmas *)

Lemma pin_step_ok s e : pin_state_ok s -> event_ok e -> pin_state_ok (pin_step s e).
Proof.
  intros (H1 & H2 & H3 & H4) He.
  destruct e; unfold pin_step, try_pin, try_puk, pin_state_ok in *; simpl in He;
    repeat case_match; bprop; simpl;
    try match type of He with _ /\ _ => destruct He end;
    unfold DEFAULT_PIN_RETRIES, DEFAULT_PUK_RETRIES; repeat split; try lia; auto.
Qed.

Lemma bytes_eqb_true a b : bytes_eqb a b = true <-> a = b.
Proof. apply bool_decide_eq_true. Qed.

Lemma bytes_eqb_false a b : bytes_eqb a b = false <-> a <> b.
Proof. apply bool_decide_eq_false. Qed.

(** Only a VERIFY with the PIN, and tries left, verifies. *)
Lemma pin_step_verifies s e :
  ps_verified s = false -> ps_verified (pin_step s e) = true ->
  e = EvVerify (ps_pin s) /\ ps_retries s <> 0.
Proof.
  intros Hs. destruct e; simpl; unfold try_pin, try_puk; repeat case_match; simpl; try congruence.
  intros _. bprop. split; [f_equal; now apply bytes_eqb_true|lia].
Qed.

Lemma pin_run_verifies es : forall s,
  ps_verified s = false -> ps_verified (pin_run s es) = true ->
  exists es1 es2, es = es1 ++ EvVerify (ps_pin (pin_run s es1)) :: es2 /\ ps_retries (pin_run s es1) <> 0.
Proof.
  induction es as [|e es IH]; intros s Hs Hr; [simpl in Hr; congruence|]. simpl in Hr.
  destruct (ps_verified (pin_step s e)) eqn:He.
  - apply pin_step_verifies in He as [-> Hn]; [|exact Hs]. exists [], es. split; [reflexivity|exact Hn].
  - destruct (IH _ He Hr) as (es1 & es2 & -> & Hn). exists (e :: es1), es2. split; [reflexivity|exact Hn].
Qed.

Lemma ignorant_step s e :
  pin_state_ok s -> ignorant s e ->
  ps_pin (pin_step s e) = ps_pin s /\ ps_puk (pin_step s e) = ps_puk s /\
  ps_retries (pin_step s e)
    = ps_retries s - (if negb (ps_retries s =? 0) && match guesses_pin e with Some _ => true | None => false end
                      then 1 else 0) /\
  (ps_verified (pin_step s e) = true -> ps_verified s = true).
Proof.
  intros _ (Hp & Hk & Hf).
  destruct e; simpl in *; unfold try_pin, try_puk; try congruence;
    repeat (case_match; simpl); bprop; repeat split; try lia; try congruence;
    try (match goal with H : bytes_eqb _ _ = true |- _ => apply bytes_eqb_true in H; congruence end);
    try discriminate.
Qed.

Lemma ignorant_run_tries es : forall s,
  pin_state_ok s -> Forall event_ok es -> ignorant_run s es ->
  ps_retries (pin_run s es) = ps_retries s - pin_tries s es /\ 0 <= ps_retries (pin_run s es) /\
  (ps_verified (pin_run s es) = true -> ps_verified s = true).
Proof.
  induction es as [|e es IH]; intros s Hs He Hi; simpl.
  - destruct Hs as (H & _). repeat split; try lia; auto.
  - apply list.Forall_cons in He as [He Hes]. destruct Hi as [Hi His].
    destruct (ignorant_step s e Hs Hi) as (_ & _ & Hr & Hv).
    destruct (IH (pin_step s e) (pin_step_ok s e Hs He) Hes His) as (IH1 & IH2 & IH3).
    split; [rewrite IH1, Hr; lia|]. split; [exact IH2|auto].
Qed.
