(* ===== verification/CardPin.v ===== *)
(** * CardPin: the virtual card refines the abstract PIN machine

    Every command the card of [Card] runs is one event of [PinSpec] on its PIN,
    PUK and counters; what is proved of the events holds of the card. *)

From Stdlib Require Import ZArith Lia String.
From stdpp Require Import base tactics list numbers gmap.
From S2P Require Import Prelude Apdu CardTlv CardState PinSpec Card.

Local Open Scope Z_scope.

(** What a run of commands does; each command comes with the clock. *)
Fixpoint run_card {K} (c : VirtualCard K) (cmds : list (Z * bytes)) : res Empty_set (VirtualCard K) :=
  match cmds with
  | [] => Ok c
  | (now, apdu) :: cmds => let* (_, c) := transmit now c apdu in run_card c cmds
  end.

Definition pin_of {K} (c : VirtualCard K) : PinState :=
  MkPinState (vc_pin c) (vc_pin_retries c) (vc_pin_verified c) (vc_puk c) (vc_puk_retries c).

(** The command [apdu] is the one that stands for the event. *)
Definition command_of (apdu : bytes) (e : PinEvent) : Prop :=
  match e with
  | EvOther | EvDrop => True
  | EvVerify p =>
      take 4 apdu = [0x00; Ins.VERIFY; 0x00; 0x80] /\ apdu_body (E := Empty_set) apdu = Ok (Some p)
  | EvChangePin o n =>
      take 4 apdu = [0x00; Ins.CHANGE_PIN; 0x00; 0x80] /\ apdu_body (E := Empty_set) apdu = Ok (Some (o ++ n))
  | EvChangePuk o n =>
      take 4 apdu = [0x00; Ins.CHANGE_PIN; 0x00; 0x81] /\ apdu_body (E := Empty_set) apdu = Ok (Some (o ++ n))
  | EvUnblock k n =>
      take 4 apdu = [0x00; Ins.RESET_PIN; 0x00; 0x80] /\ apdu_body (E := Empty_set) apdu = Ok (Some (k ++ n))
  | EvFactoryReset => take 4 apdu = [0x00; Ins.YK_RESET; 0x00; 0x00]
  end.

(** *** Which event a command is *)

Definition key_slot (p2 : Z) : bool := (p2 =? 0x9A) || (p2 =? 0x9C) || (p2 =? 0x9D) || (p2 =? 0x9E).

(** The answer ends in 9000. *)
Definition succeeded (resp : bytes) : bool := bytes_eqb (drop (length resp - 2) resp) [0x90; 0x00].

Definition body_of_apdu (apdu : bytes) : bytes :=
  match apdu_body (E := Empty_set) apdu with Ok (Some body) => body | _ => [] end.

(** The event, by the command's four header bytes, the length of its body and, for a key operation, the answer. *)
Definition command_event {K} (c : VirtualCard K) (apdu resp : bytes) : PinEvent :=
  let body := body_of_apdu apdu in
  match take 4 apdu with
  | [cla; ins; p1; p2] =>
      if negb (cla =? 0x00) then EvOther
      else if (ins =? 0x20) && (p1 =? 0x00) && (p2 =? 0x80) && (len body =? 8) then EvVerify body
      else if (ins =? 0x24) && (p1 =? 0x00) && (p2 =? 0x80) && (len body =? 16) then EvChangePin (take 8 body) (drop 8 body)
      else if (ins =? 0x24) && (p1 =? 0x00) && (p2 =? 0x81) && (len body =? 16) then EvChangePuk (take 8 body) (drop 8 body)
      else if (ins =? 0x2C) && (p1 =? 0x00) && (p2 =? 0x80) && (len body =? 16) then EvUnblock (take 8 body) (drop 8 body)
      else if (ins =? 0xFB) && (p1 =? 0x00) && (p2 =? 0x00) then EvFactoryReset
      else if (ins =? 0x87) && (p1 =? 0x11) && key_slot p2 && (effective_pin_policy c p2 =? PIN_ALWAYS) && succeeded resp then EvDrop
      else EvOther
  | _ => EvOther
  end.

(** A queued fault answers it. *)
Definition fault_due {K} (c : VirtualCard K) (apdu : bytes) : bool :=
  match apdu !! 1%nat with
  | Some ins => existsb (fun f => (0 <? fault_remaining f) && match fault_ins f with None => true | Some want => want =? ins end) (vc_faults c)
  | None => false
  end.

(** An applet takes it: one is selected, or the card does not ask for that. *)
Definition applet_there {K} (c : VirtualCard K) : bool := negb (vc_require_select c) || vc_selected_piv c || vc_selected_otp c.

Definition event_of {K} (c : VirtualCard K) (apdu resp : bytes) : PinEvent :=
  if applet_there c && negb (fault_due c apdu) then command_event c apdu resp else EvOther.

(** Take a computation that returned apart, branch by branch. *)
Ltac run_cases :=
  repeat first
    [ progress inv_ok
    | match goal with
      | H : Panic = Ok _ |- _ => discriminate H
      | H : Err _ = Ok _ |- _ => discriminate H
      | H : (_, _) = (_, _) |- _ => injection H as ? ?
      | H : Ok _ = Ok _ |- _ => injection H as H
      | H : reply _ _ _ = Ok _ |- _ => unfold reply in H
      | H : context [match ?x with _ => _ end] |- _ => destruct x eqn:?
      end ]; subst.

Section Refine.
Context {K : CardCrypto}.
Implicit Type c : VirtualCard K.

Definition same_pin c c' : Prop := pin_of c' = pin_of c.

(** The outcomes of [r] that are values satisfy [Q]. *)
Definition gives (r : @Reply K) (Q : bytes -> VirtualCard K -> Prop) : Prop :=
  forall resp c', r = Ok (resp, c') -> Q resp c'.

(** Handlers that leave the reference data alone. *)
Ltac quiet := intros resp c' H; run_cases; reflexivity.

Lemma get_data_pin c apdu : gives (handle_get_data c apdu) (fun _ => same_pin c).
Proof. unfold handle_get_data. quiet. Qed.

Lemma put_data_pin c apdu : gives (handle_put_data c apdu) (fun _ => same_pin c).
Proof. unfold handle_put_data. quiet. Qed.

Lemma select_pin c apdu : gives (handle_select c apdu) (fun _ => same_pin c).
Proof. unfold handle_select. quiet. Qed.

Lemma mgmt_pin c body : gives (handle_general_authenticate_mgmt_key c body) (fun _ => same_pin c).
Proof. unfold handle_general_authenticate_mgmt_key. quiet. Qed.

Lemma set_mgmt_pin c body : gives (handle_set_mgmt_key c body) (fun _ => same_pin c).
Proof. unfold handle_set_mgmt_key. quiet. Qed.

Lemma install_pin c c' slot k p o : install_slot_key c slot k p o = Ok c' -> same_pin c c'.
Proof. unfold install_slot_key. intros H. run_cases; reflexivity. Qed.

Lemma generate_pin c slot body : gives (handle_generate_asymmetric c slot body) (fun _ => same_pin c).
Proof.
  intros resp c' H. unfold handle_generate_asymmetric in H. run_cases; try reflexivity;
    match goal with H : install_slot_key _ _ _ _ _ = Ok _ |- _ => apply install_pin in H; exact H end.
Qed.

Lemma import_pin c alg slot body : gives (handle_import_asymmetric c alg slot body) (fun _ => same_pin c).
Proof.
  intros resp c' H. unfold handle_import_asymmetric in H. run_cases; try reflexivity;
    match goal with H : install_slot_key _ _ _ _ _ = Ok _ |- _ => apply install_pin in H; exact H end.
Qed.

Lemma attest_pin c slot : gives (handle_attest c slot) (fun _ => same_pin c).
Proof. unfold handle_attest. quiet. Qed.

Lemma metadata_pin c slot : gives (handle_get_metadata c slot) (fun _ => same_pin c).
Proof. unfold handle_get_metadata. quiet. Qed.

Lemma touch_pin now c slot pass c' : pass_touch_gate now c slot = (pass, c') -> same_pin c c'.
Proof. unfold pass_touch_gate. intros H. run_cases; reflexivity. Qed.

Lemma take_fault_pin c i f c' : take_fault c i = (f, c') -> same_pin c c'.
Proof. unfold take_fault. intros H. run_cases; reflexivity. Qed.

(** A private-key operation keeps the reference data, or drops the verification. *)
Definition key_pin c slot resp c' : Prop :=
  pin_of c' = pin_step (pin_of c) (if (effective_pin_policy c slot =? PIN_ALWAYS) && succeeded resp then EvDrop else EvOther).

Lemma succeeded_sw a b : succeeded (sw_bytes a b) = bytes_eqb [a; b] [0x90; 0x00].
Proof. reflexivity. Qed.

Lemma succeeded_ok d : succeeded (d ++ sw_bytes 0x90 0x00) = true.
Proof.
  unfold succeeded. rewrite length_app. change (length (sw_bytes _ _)) with 2%nat. rewrite Nat.add_sub, drop_app_length. reflexivity.
Qed.

Lemma key_fails c slot resp : succeeded resp = false -> key_pin c slot resp c.
Proof. intros H. unfold key_pin. now rewrite H, andb_false_r. Qed.

Lemma key_blocked now c slot c' : pass_touch_gate now c slot = (false, c') -> key_pin c slot SW_TOUCH_TIMEOUT c'.
Proof. intros H. apply touch_pin in H. unfold key_pin. change (succeeded SW_TOUCH_TIMEOUT) with false. rewrite andb_false_r. exact H. Qed.

Lemma consume_pin c c' slot resp : same_pin c c' -> succeeded resp = true -> key_pin c slot resp (consume_verify c' (effective_pin_policy c slot)).
Proof.
  unfold consume_verify, key_pin, same_pin. intros H ->. rewrite andb_true_r. case_match; [|exact H].
  unfold pin_of, pin_step in *. simpl. injection H as -> -> _ -> ->. reflexivity.
Qed.

Ltac key_op :=
  intros resp c' H; run_cases; try (apply key_fails; reflexivity);
  match goal with
  | H : pass_touch_gate _ _ _ = (?b, _), N : negb ?b = true |- _ => apply negb_true_iff in N; subst b; now apply key_blocked in H
  | H : pass_touch_gate _ _ _ = _ |- _ => apply touch_pin in H; apply consume_pin; [exact H|]
  end; rewrite ?app_comm_cons, ?app_assoc; apply succeeded_ok.

Lemma ecdh_pin now c body : gives (handle_general_authenticate_ecdh_slot_9d now c body) (key_pin c 0x9D).
Proof. unfold handle_general_authenticate_ecdh_slot_9d. key_op. Qed.

Lemma sign_pin now c body slot : gives (sign_ecdsa_slot now c body slot) (key_pin c slot).
Proof. unfold sign_ecdsa_slot. key_op. Qed.

(** The commands that compare a secret, and the reset: follow the tests. *)
Ltac follow :=
  repeat match goal with
  | H : ?b = true |- context [?b] => rewrite H
  | H : ?b = false |- context [?b] => rewrite H
  | H : usub _ _ = Ok _ |- _ => unfold usub in H; destruct (_ <=? _); [injection H as <-|discriminate H]
  end.

Definition opt_body (body : option bytes) : bytes := match body with Some b => b | None => [] end.

Lemma verify_pin c body :
  gives (handle_verify c body) (fun _ c' =>
    pin_of c' = pin_step (pin_of c) (if len (opt_body body) =? 8 then EvVerify (opt_body body) else EvOther)).
Proof.
  intros resp c' H. unfold handle_verify in H. destruct body as [p|]; [|run_cases; reflexivity]. cbn [opt_body].
  destruct (len p =? 8) eqn:Hl; cbn [negb] in H; [|run_cases; reflexivity].
  run_cases; unfold pin_step, try_pin; simpl; follow; reflexivity.
Qed.

(** A 16-byte body is two values of 8 bytes. *)
Lemma halves (body o n : bytes) :
  len body = 16 -> slice (E := Empty_set) body 0 8 = Ok o -> slice_from (E := Empty_set) body 8 = Ok n ->
  body = o ++ n /\ len o = 8 /\ len n = 8.
Proof.
  intros Hl Ho Hn. rewrite slice_Ok in Ho by lia. rewrite slice_from_Ok in Hn by lia.
  injection Ho as <-. injection Hn as <-. rewrite zdrop_0. change (8 - 0) with 8.
  split; [apply zsplit|]. rewrite len_ztake, len_zdrop by lia. lia.
Qed.

Lemma halves_take (body o n : bytes) :
  len body = 16 -> slice (E := Empty_set) body 0 8 = Ok o -> slice_from (E := Empty_set) body 8 = Ok n -> take 8 body = o /\ drop 8 body = n.
Proof.
  intros Hl Ho Hn. rewrite slice_Ok in Ho by lia. rewrite slice_from_Ok in Hn by lia. injection Ho as <-. injection Hn as <-. now rewrite zdrop_0.
Qed.

Lemma change_pin c p2 body :
  (p2 = 0x80 \/ p2 = 0x81) ->
  gives (handle_change_reference_data c p2 body) (fun _ c' =>
    let b := opt_body body in
    pin_of c' = pin_step (pin_of c) (if len b =? 16 then if p2 =? 0x80 then EvChangePin (take 8 b) (drop 8 b) else EvChangePuk (take 8 b) (drop 8 b) else EvOther)).
Proof.
  intros Hp2 resp c' H. unfold handle_change_reference_data in H. destruct body as [body|]; [|run_cases; reflexivity]. cbn [opt_body].
  destruct (len body =? 16) eqn:Hl; cbn [negb] in H; [|run_cases; reflexivity].
  apply res_bind_Ok_inv in H as (o & Ho & H). apply res_bind_Ok_inv in H as (n & Hn & H).
  apply Z.eqb_eq in Hl. destruct (halves_take body o n Hl Ho Hn) as (-> & ->).
  destruct Hp2 as [-> | ->];
    [change (0x80 =? 0x80) with true in * | change (0x81 =? 0x80) with false in *]; cbv iota in H;
    run_cases; unfold pin_step, try_pin, try_puk; simpl;
    repeat match goal with
    | H : negb _ = true |- _ => apply negb_true_iff in H
    | H : negb _ = false |- _ => apply negb_false_iff in H
    end; follow; reflexivity.
Qed.

Lemma unblock_pin c body :
  gives (handle_reset_retry_counter c body) (fun _ c' =>
    let b := opt_body body in pin_of c' = pin_step (pin_of c) (if len b =? 16 then EvUnblock (take 8 b) (drop 8 b) else EvOther)).
Proof.
  intros resp c' H. unfold handle_reset_retry_counter in H. destruct body as [body|]; [|run_cases; reflexivity]. cbn [opt_body].
  destruct (len body =? 16) eqn:Hl; cbn [negb] in H; [|run_cases; reflexivity].
  apply res_bind_Ok_inv in H as (o & Ho & H). apply res_bind_Ok_inv in H as (n & Hn & H).
  apply Z.eqb_eq in Hl. destruct (halves_take body o n Hl Ho Hn) as (-> & ->).
  run_cases; unfold pin_step, try_puk; simpl;
    repeat match goal with
    | H : negb _ = true |- _ => apply negb_true_iff in H
    | H : negb _ = false |- _ => apply negb_false_iff in H
    end; follow; reflexivity.
Qed.

Lemma factory_pin c : gives (handle_factory_reset c) (fun _ c' => pin_of c' = pin_step (pin_of c) EvFactoryReset).
Proof.
  intros resp c' H. unfold handle_factory_reset in H. unfold pin_step. simpl.
  destruct (vc_pin_retries c =? 0), (vc_puk_retries c =? 0); cbn [negb orb andb] in *; run_cases; reflexivity.
Qed.

Lemma header (apdu : bytes) cla ins p1 p2 :
  4 <= len apdu ->
  index (E := Empty_set) apdu 0 = Ok cla -> index (E := Empty_set) apdu 1 = Ok ins ->
  index (E := Empty_set) apdu 2 = Ok p1 -> index (E := Empty_set) apdu 3 = Ok p2 ->
  take 4 apdu = [cla; ins; p1; p2].
Proof.
  intros Hl. destruct apdu as [|a [|b [|d [|e t]]]];
    try (exfalso; revert Hl; unfold len; simpl length; lia).
  unfold index. zbool. simpl. intros [= <-] [= <-] [= <-] [= <-]. reflexivity.
Qed.

(** A fault answers exactly when one is due, and nothing else changes. *)
Lemma position_existsb {A} (f : A -> bool) l : position f l = None <-> existsb f l = false.
Proof. induction l as [|x l IH]; [easy|]. cbn. destruct (f x); [easy|]. cbn. rewrite <- IH. now destruct (position f l). Qed.

Lemma take_fault_due c apdu i : apdu !! 1%nat = Some i -> (take_fault c i).1 <> None <-> fault_due c apdu = true.
Proof.
  intros Hi. unfold take_fault, fault_due. rewrite Hi. change (fun f : Fault => _) with (fault_matches i).
  destruct (position (fault_matches i) (vc_faults c)) as [n|] eqn:Hp.
  - destruct (position_hit _ _ _ Hp) as (f & Hf & Hm). rewrite Hf. split; [intros _|easy]. apply existsb_exists. exists f. split; [|exact Hm].
    apply list_elem_of_In. eapply list_elem_of_lookup_2. exact Hf.
  - apply position_existsb in Hp. rewrite Hp. split; [now intros []|discriminate].
Qed.

Lemma take_fault_none c i c1 : take_fault c i = (None, c1) -> c1 = c.
Proof. unfold take_fault. intros H. repeat match type of H with context [match ?x with _ => _ end] => destruct x end; congruence. Qed.

Lemma body_default apdu body : apdu_body (E := Empty_set) apdu = Ok body -> body_of_apdu apdu = opt_body body.
Proof. intros H. unfold body_of_apdu. rewrite H. now destruct body. Qed.

(** The event of a command, read off its header; [other]: of one that the tests before have ruled out. *)
Ltac at_header Hh := unfold command_event; rewrite Hh; cbn -[key_slot take drop len body_of_apdu pin_step pin_of].

Ltac other Hh :=
  at_header Hh; unfold key_slot; repeat case_match; try reflexivity; exfalso;
  repeat match goal with
  | H : (_ && _)%bool = true |- _ => apply andb_true_iff in H; destruct H
  | H : negb _ = false |- _ => apply negb_false_iff in H
  | H : (_ =? _) = true |- _ => apply Z.eqb_eq in H
  end; subst; cbn in *;
  repeat match goal with H : context [?x =? ?y] |- _ => destruct (Z.eqb_spec x y); subst; cbn in * end; congruence.

Lemma dispatch_command_pin now c apdu :
  gives (dispatch_command now c apdu) (fun resp c' => pin_of c' = pin_step (pin_of c) (if fault_due c apdu then EvOther else command_event c apdu resp)).
Proof.
  intros resp c' H. unfold dispatch_command in H.
  destruct (len apdu <? 4) eqn:Hlen.
  { injection H as _ <-. apply Z.ltb_lt in Hlen. unfold command_event.
    destruct apdu as [|? [|? [|? [|? t]]]]; try (case_match; reflexivity). exfalso. pose proof (len_nonneg t). rewrite !len_cons in Hlen. lia. }
  apply Z.ltb_ge in Hlen.
  apply res_bind_Ok_inv in H as (cla & Hcla & H). apply res_bind_Ok_inv in H as (ins & Hins & H).
  apply res_bind_Ok_inv in H as (p1 & Hp1 & H). apply res_bind_Ok_inv in H as (p2 & Hp2 & H).
  pose proof (header apdu cla ins p1 p2 Hlen Hcla Hins Hp1 Hp2) as Hh.
  assert (Hi : apdu !! 1%nat = Some ins) by (rewrite <- (take_drop 4 apdu), Hh; reflexivity).
  pose proof (take_fault_due c apdu ins Hi) as Hdue.
  destruct (take_fault c ins) as [fault c1] eqn:Hf. cbn [fst] in Hdue.
  destruct fault as [fsw|].
  { rewrite (proj1 Hdue) by discriminate. injection H as _ <-. exact (take_fault_pin _ _ _ _ Hf). }
  destruct (fault_due c apdu); [now destruct (proj2 Hdue)|]. apply take_fault_none in Hf as ->. clear Hdue Hcla Hins Hp1 Hp2 Hi.
  repeat match type of H with
  | (if ?b then _ else _) = _ => destruct b eqn:?
  | res_bind (apdu_body _) _ = _ => apply res_bind_Ok_inv in H as (body & Hbody & H)
  end.
  all: try (bprop; subst; cbn [Z.eqb Pos.eqb]).
  all: try (solve [injection H as _ <-; other Hh]).
  all: at_header Hh.
  - exact (select_pin _ _ _ _ H).
  - exact (get_data_pin _ _ _ _ H).
  - exact (put_data_pin _ _ _ _ H).
  - exact (generate_pin _ _ _ _ _ H).
  - destruct (piv_serial c); injection H as _ <-; reflexivity.
  - apply verify_pin in H. rewrite (body_default _ _ Hbody). exact H.
  - assert (Hp : p2 = 0x80 \/ p2 = 0x81).
    { match goal with H : (_ || _)%bool = true |- _ => apply orb_true_iff in H as [H|H]; bprop; auto end. }
    apply (change_pin c p2 body Hp) in H. rewrite (body_default _ _ Hbody). destruct Hp as [-> | ->]; cbn in *; rewrite H; now case_match.
  - apply unblock_pin in H. rewrite (body_default _ _ Hbody). exact H.
  - exact (factory_pin _ _ _ H).
  - apply res_bind_Ok_inv in H as (sign & Hs & H). change (key_slot 0x9D) with true. cbn [andb].
    destruct sign; [exact (sign_pin _ _ _ _ _ _ H)|exact (ecdh_pin _ _ _ _ _ H)].
  - assert (Hk : key_slot p2 = true) by (unfold key_slot; match goal with H : (_ || _)%bool = true |- _ => revert H; destruct (p2 =? 0x9A), (p2 =? 0x9C), (p2 =? 0x9E), (p2 =? 0x9D); auto end).
    rewrite Hk. cbn [andb]. exact (sign_pin _ _ _ _ _ _ H).
  - exact (mgmt_pin _ _ _ _ H).
  - exact (set_mgmt_pin _ _ _ _ H).
  - exact (import_pin _ _ _ _ _ _ H).
  - exact (attest_pin _ _ _ _ H).
  - exact (metadata_pin _ _ _ _ H).
Qed.

(** A select is no event. *)
Lemma select_event c apdu resp : apdu !! 1%nat = Some Ins.SELECT -> command_event c apdu resp = EvOther.
Proof.
  intros H. unfold command_event. destruct apdu as [|cla [|i [|p1 [|p2 t]]]]; try reflexivity. assert (Hi : i = Ins.SELECT) by (cbn in H; congruence). subst i. cbv [Ins.SELECT]. cbn. now destruct (cla =? 0).
Qed.

Lemma transmit_event now c apdu : gives (transmit now c apdu) (fun resp c' => pin_of c' = pin_step (pin_of c) (event_of c apdu resp)).
Proof.
  intros resp c' H. unfold transmit, dispatch in H. cbv zeta in H.
  change (vc_require_select (set_touch_blocked None c)) with (vc_require_select c) in H. change (vc_selected_piv (set_touch_blocked None c)) with (vc_selected_piv c) in H.
  change (vc_selected_otp (set_touch_blocked None c)) with (vc_selected_otp c) in H. unfold event_of, applet_there.
  destruct (vc_require_select c && negb (vc_selected_piv c) && negb (vc_selected_otp c)) eqn:Hsel; cbn [andb] in H.
  - replace (negb (vc_require_select c) || vc_selected_piv c || vc_selected_otp c) with false by (revert Hsel; now destruct (vc_require_select c), (vc_selected_piv c), (vc_selected_otp c)).
    cbn [andb]. destruct (apdu !! 1%nat) as [i|] eqn:Hi; [destruct (Z.eqb_spec i Ins.SELECT) as [->|]|]; cbn [negb] in H.
    + apply res_bind_Ok_inv in H as ([r2 c2] & H2 & H). injection H as _ <-. apply res_bind_Ok_inv in H2 as ([r3 c3] & H3 & H2). apply dispatch_command_pin in H3.
      rewrite select_event in H3 by exact Hi. injection H2 as _ <-. match goal with |- context [if ?b then _ else _] => destruct b end; change (pin_of c3 = pin_step (pin_of c) EvOther); rewrite H3; now case_match.
    + injection H as _ <-. reflexivity.
    + apply res_bind_Ok_inv in H as ([r2 c2] & H2 & H). injection H as _ <-. apply res_bind_Ok_inv in H2 as ([r3 c3] & H3 & H2). apply dispatch_command_pin in H3.
      assert (He : command_event (set_touch_blocked None c) apdu r3 = EvOther) by (unfold command_event; destruct apdu as [|? [|]]; [reflexivity..|discriminate]).
      rewrite He in H3. injection H2 as _ <-. match goal with |- context [if ?b then _ else _] => destruct b end; change (pin_of c3 = pin_step (pin_of c) EvOther); rewrite H3; now case_match.
  - replace (negb (vc_require_select c) || vc_selected_piv c || vc_selected_otp c) with true by (revert Hsel; now destruct (vc_require_select c), (vc_selected_piv c), (vc_selected_otp c)).
    cbn [andb]. apply res_bind_Ok_inv in H as ([r2 c2] & H2 & H). injection H as <- <-. apply res_bind_Ok_inv in H2 as ([r3 c3] & H3 & H2). apply dispatch_command_pin in H3.
    injection H2 as <- <-. change (fault_due (set_touch_blocked None c) apdu) with (fault_due c apdu) in H3. change (command_event (set_touch_blocked None c) apdu r3) with (command_event c apdu r3) in H3.
    change (pin_of (set_touch_blocked None c)) with (pin_of c) in H3. destruct (fault_due c apdu); cbn [negb]; match goal with |- context [if ?b then set_command_since_verify _ _ else _] => destruct b end; exact H3.
Qed.

(** The command that an event stands for. *)
Lemma split_16 (b : bytes) : len b =? 16 = true -> len (take 8 b) = 8 /\ len (drop 8 b) = 8.
Proof. intros H. apply Z.eqb_eq in H. unfold len in *. rewrite length_take, length_drop. lia. Qed.

Lemma body_some apdu : body_of_apdu apdu <> [] -> apdu_body (E := Empty_set) apdu = Ok (Some (body_of_apdu apdu)).
Proof. unfold body_of_apdu. destruct (apdu_body apdu) as [[b|]| |]; now try destruct e. Qed.

Lemma event_of_command c apdu resp : command_of apdu (event_of c apdu resp) /\ event_ok (event_of c apdu resp).
Proof.
  unfold event_of. destruct (_ && _); [|now split]. unfold command_event. cbv zeta. destruct (take 4 apdu) as [|cla [|ins [|p1 [|p2 [|]]]]] eqn:Hh; try (now split).
  destruct (Z.eqb_spec cla 0x00) as [->|]; cbn [negb]; [|now split].
  assert (Hb : forall n, len (body_of_apdu apdu) =? Z.of_nat (S n) = true -> apdu_body (E := Empty_set) apdu = Ok (Some (body_of_apdu apdu))).
  { intros n Hn. apply body_some. intros He. rewrite He in Hn. discriminate. }
  repeat match goal with |- context [if ?x then _ else _] => destruct x eqn:?; [bprop; subst|] end; try (now split);
    match goal with
    | H : len _ = 8 |- _ => specialize (Hb 7%nat ltac:(now apply Z.eqb_eq)); split; [split; [exact Hh|exact Hb]|exact H]
    | H : len _ = 16 |- _ => specialize (Hb 15%nat ltac:(now apply Z.eqb_eq)); split; [split; [exact Hh|rewrite take_drop; exact Hb]|apply split_16; now apply Z.eqb_eq]
    end.
Qed.

(** What one command does to the PIN: an event, which the command stands for. *)
Lemma transmit_pin now c apdu resp c' : transmit now c apdu = Ok (resp, c') -> exists e, command_of apdu e /\ event_ok e /\ pin_of c' = pin_step (pin_of c) e.
Proof. intros H. exists (event_of c apdu resp). destruct (event_of_command c apdu resp). split; [assumption|]. split; [assumption|]. exact (transmit_event _ _ _ _ _ H). Qed.
End Refine.

(** ** Runs *)

Section Runs.
Context {K : CardCrypto}.
Implicit Type c : VirtualCard K.

(** The events of a run, one per command. *)
Fixpoint events c (cmds : list (Z * bytes)) : list PinEvent :=
  match cmds with
  | [] => []
  | (now, apdu) :: cmds =>
      match transmit now c apdu with
      | Ok (resp, c1) => event_of c apdu resp :: events c1 cmds
      | _ => []
      end
  end.

Lemma run_events cmds : forall c c',
  run_card c cmds = Ok c' ->
  let es := events c cmds in
  Forall2 command_of (map snd cmds) es /\ Forall event_ok es /\
    pin_of c' = pin_run (pin_of c) es /\
    forall es1 es2, es = es1 ++ es2 ->
      exists cmds1 cmds2 c1, cmds = cmds1 ++ cmds2 /\ run_card c cmds1 = Ok c1 /\
        length cmds1 = length es1 /\ pin_of c1 = pin_run (pin_of c) es1.
Proof.
  induction cmds as [|[now apdu] cmds IH]; intros c c' H; simpl in H |- *.
  - injection H as <-. split; [constructor|]. split; [constructor|]. split; [reflexivity|].
    intros es1 es2 He. symmetry in He. apply app_eq_nil in He as [-> ->].
    now exists [], [], c.
  - apply res_bind_Ok_inv in H as ([r c1] & H1 & H). rewrite H1.
    destruct (event_of_command c apdu r) as [He Hok]. pose proof (transmit_event now c apdu r c1 H1) as Hp.
    destruct (IH c1 c' H) as (Hes & Hoks & Hps & Hsplit).
    split; [now constructor|]. split; [now constructor|].
    split; [simpl; rewrite Hps, Hp; reflexivity|].
    intros [|e1 es1] es2 Hcut.
    + exists [], ((now, apdu) :: cmds), c. auto.
    + injection Hcut as <- Hcut. destruct (Hsplit es1 es2 Hcut) as (k1 & k2 & ck & -> & Hrun & Hlen & Hpk).
      exists ((now, apdu) :: k1), k2, ck. split; [reflexivity|]. simpl. rewrite H1. simpl.
      rewrite <- Hp. auto.
Qed.

(** A command guesses the PIN: the value it compares. *)
Definition pin_guess (apdu : bytes) : option bytes :=
  match apdu_body (E := Empty_set) apdu with
  | Ok (Some body) =>
      if bytes_eqb (take 4 apdu) [0x00; Ins.VERIFY; 0x00; 0x80] then Some body
      else if bytes_eqb (take 4 apdu) [0x00; Ins.CHANGE_PIN; 0x00; 0x80] then Some (take 8 body)
      else None
  | _ => None
  end.

(** A command guesses the PUK. *)
Definition puk_guess (apdu : bytes) : option bytes :=
  match apdu_body (E := Empty_set) apdu with
  | Ok (Some body) =>
      if bytes_eqb (take 4 apdu) [0x00; Ins.CHANGE_PIN; 0x00; 0x81]
         || bytes_eqb (take 4 apdu) [0x00; Ins.RESET_PIN; 0x00; 0x80] then Some (take 8 body)
      else None
  | _ => None
  end.

Definition is_factory_reset (apdu : bytes) : bool :=
  bytes_eqb (take 4 apdu) [0x00; Ins.YK_RESET; 0x00; 0x00].

Lemma take_8 (a b : bytes) : len a = 8 -> take 8 (a ++ b) = a.
Proof. intros H. replace 8%nat with (length a) by (unfold len in H; lia). apply take_app_length. Qed.

(** A command that compares neither secret, nor resets the card, stands for an
    event of someone who knows neither. *)
Lemma command_ignorant apdu e s :
  command_of apdu e -> event_ok e ->
  pin_guess apdu <> Some (ps_pin s) -> puk_guess apdu <> Some (ps_puk s) ->
  is_factory_reset apdu = false -> ignorant s e.
Proof.
  intros He Hok Hp Hk Hf. split; [|split].
  - destruct e; simpl in *; try discriminate; destruct He as [Hh Hb];
      unfold pin_guess in Hp; rewrite Hb, Hh in Hp.
    + exact Hp.
    + change (Some (take 8 (old ++ new)) <> Some (ps_pin s)) in Hp. now rewrite take_8 in Hp.
  - destruct e; simpl in *; try discriminate; destruct He as [Hh Hb];
      unfold puk_guess in Hk; rewrite Hb, Hh in Hk.
    + change (Some (take 8 (old ++ new)) <> Some (ps_puk s)) in Hk. now rewrite take_8 in Hk.
    + change (Some (take 8 (puk ++ new_pin)) <> Some (ps_puk s)) in Hk. now rewrite take_8 in Hk.
  - intros ->. simpl in He. unfold is_factory_reset in Hf. rewrite He in Hf. discriminate.
Qed.

(** None of the commands carries a secret of the card, or resets it. *)
Definition knows_nothing (s : PinState) (apdu : bytes) : Prop :=
  pin_guess apdu <> Some (ps_pin s) /\ puk_guess apdu <> Some (ps_puk s) /\ is_factory_reset apdu = false.

Lemma ignorant_run_of es : forall s apdus,
  Forall2 command_of apdus es -> Forall event_ok es -> pin_state_ok s ->
  Forall (knows_nothing s) apdus -> ignorant_run s es.
Proof.
  induction es as [|e es IH]; intros s apdus H2 Hok Hs Hk; [exact I|].
  apply list.Forall2_cons_inv_r in H2 as (apdu & apdus' & Hc & H2 & ->).
  apply list.Forall_cons in Hok as [He Hok]. apply list.Forall_cons in Hk as [(Hp & Hu & Hf) Hk].
  pose proof (command_ignorant apdu e s Hc He Hp Hu Hf) as Hi. split; [exact Hi|].
  destruct (ignorant_step s e Hs Hi) as (Epin & Epuk & _).
  apply IH with apdus'; [exact H2|exact Hok|now apply pin_step_ok|].
  eapply list.Forall_impl; [exact Hk|]. unfold knows_nothing. intros a. now rewrite Epin, Epuk.
Qed.
End Runs.

(** ** Properties *)

(** C10 (refinement).  Whatever command the card is sent, what happens to its
    PIN, its PUK, their retry counters and the verified flag is one step of the
    abstract machine, by the event that the command is: nothing when a fault
    answers it, or no applet is selected on a card that asks for one;
    otherwise what its header says, with 8 bytes (VERIFY) or twice 8 (the
    others) in its body, and a key operation that succeeds under the policy
    "always" drops the verification. *)
Theorem card_refines_pin_spec K now (c c' : VirtualCard K) apdu resp :
  transmit now c apdu = Ok (resp, c') ->
  event_ok (event_of c apdu resp) /\ pin_of c' = pin_step (pin_of c) (event_of c apdu resp).
Proof. intros H. split; [apply event_of_command|exact (transmit_event now c apdu resp c' H)]. Qed.

(** C3 (safety).  A card whose PIN is not verified gets it verified, over any
    run of commands, only by a VERIFY command whose body is the PIN the card had
    at that moment, and with tries left. *)
Theorem verified_only_by_the_pin K (c c' : VirtualCard K) cmds :
  run_card c cmds = Ok c' -> vc_pin_verified c = false -> vc_pin_verified c' = true ->
  exists cmds1 now apdu cmds2 c1,
    cmds = cmds1 ++ (now, apdu) :: cmds2 /\ run_card c cmds1 = Ok c1 /\
    take 4 apdu = [0x00; Ins.VERIFY; 0x00; 0x80] /\
    apdu_body (E := Empty_set) apdu = Ok (Some (vc_pin c1)) /\ vc_pin_retries c1 <> 0.
Proof.
  intros Hrun H0 H1. pose proof (run_events cmds c c' Hrun) as Hes. set (es := events c cmds) in Hes. clearbody es. destruct Hes as (H2 & Hok & Hp & Hsplit).
  assert (Hv : ps_verified (pin_run (pin_of c) es) = true) by (rewrite <- Hp; exact H1).
  destruct (pin_run_verifies es (pin_of c) H0 Hv) as (es1 & es2 & -> & Hr).
  destruct (Hsplit es1 _ eq_refl) as (cmds1 & cmds2 & c1 & -> & Hrun1 & Hlen & Hp1).
  rewrite map_app in H2. apply list.Forall2_app_inv in H2 as [_ H2]; [|now rewrite length_map].
  apply list.Forall2_cons_inv_r in H2 as (apdu & rest & [Hh Hb] & _ & Hcmds).
  destruct cmds2 as [|[now a] cmds2]; [discriminate|]. injection Hcmds as -> _.
  exists cmds1, now, apdu, cmds2, c1. rewrite <- Hp1 in Hb, Hr. auto.
Qed.

(** C30 (bounds).  Over any run of commands that never carry the PIN or the PUK
    and do not reset the card, the PIN counter goes down by one with every
    VERIFY and CHANGE REFERENCE DATA of the PIN that the card compares - one
    that reaches it, with a body of the right length and tries left - so at
    most three are compared, and the PIN does not become verified. *)
Theorem guesses_are_bounded K (c c' : VirtualCard K) cmds :
  pin_state_ok (pin_of c) -> run_card c cmds = Ok c' ->
  Forall (knows_nothing (pin_of c)) (map snd cmds) ->
  vc_pin_retries c' = vc_pin_retries c - pin_tries (pin_of c) (events c cmds) /\
  0 <= pin_tries (pin_of c) (events c cmds) <= vc_pin_retries c /\ vc_pin_retries c <= 3 /\
  (vc_pin_verified c' = true -> vc_pin_verified c = true).
Proof.
  intros Hs Hrun Hk. destruct (run_events cmds c c' Hrun) as (H2 & Hok & Hp & _). set (es := events c cmds) in *. clearbody es.
  pose proof (ignorant_run_of es _ _ H2 Hok Hs Hk) as Hi.
  destruct (ignorant_run_tries es _ Hs Hok Hi) as (Hr & H0 & Hv).
  rewrite <- Hp in Hr, H0, Hv. simpl in Hr, H0, Hv. destruct Hs as ((Hr1 & Hr2) & _). simpl in Hr1, Hr2.
  split; [exact Hr|]. split; [split; [|lia]|split; [exact Hr2|exact Hv]].
  clear. generalize (pin_of c). induction es as [|e es IH]; intros s; simpl; [lia|].
  specialize (IH (pin_step s e)). case_match; lia.
Qed.

(** The commands of the witnesses: a wrong PIN, the factory PIN. *)
Definition verify_apdu (pin : bytes) : bytes := apdu_to_bytes (MkApdu 0 Ins.VERIFY 0 0x80 pin None).

(** The card after a run that returned. *)
Definition after {K} (c : VirtualCard K) (cmds : list (Z * bytes)) : VirtualCard K :=
  match run_card c cmds with Ok c' => c' | _ => c end.

Lemma card_refines_pin_spec_witness :
  pin_of (after toy_card [(0, verify_apdu DEFAULT_PIN)]) = pin_step (pin_of toy_card) (EvVerify DEFAULT_PIN).
Proof.
  apply (card_refines_pin_spec ToyCard 0 toy_card _ (verify_apdu DEFAULT_PIN) (sw_bytes 0x90 0x00)). vm_compute. reflexivity.
Defined.

Lemma verified_only_by_the_pin_witness :
  exists cmds1 now apdu cmds2 c1,
    [(0, verify_apdu DEFAULT_PUK); (1, verify_apdu DEFAULT_PIN)] = cmds1 ++ (now, apdu) :: cmds2 /\
    run_card toy_card cmds1 = Ok c1 /\ take 4 apdu = [0x00; Ins.VERIFY; 0x00; 0x80] /\
    apdu_body (E := Empty_set) apdu = Ok (Some (vc_pin c1)) /\ vc_pin_retries c1 <> 0.
Proof.
  apply (verified_only_by_the_pin ToyCard toy_card
           (after toy_card [(0, verify_apdu DEFAULT_PUK); (1, verify_apdu DEFAULT_PIN)]));
    vm_compute; reflexivity.
Defined.

Definition four_wrong_pins : list (Z * bytes) := repeat (0, verify_apdu DEFAULT_PUK) 4.

Lemma guesses_are_bounded_witness :
  vc_pin_retries (after toy_card four_wrong_pins) = 0 /\ pin_tries (pin_of toy_card) (events toy_card four_wrong_pins) = 3.
Proof.
  assert (H : vc_pin_retries (after toy_card four_wrong_pins) = vc_pin_retries toy_card - pin_tries (pin_of toy_card) (events toy_card four_wrong_pins)).
  { apply (guesses_are_bounded ToyCard toy_card).
    - by_compute.
    - vm_compute. reflexivity.
    - repeat constructor; vm_compute; congruence. }
  split; [rewrite H|]; vm_compute; reflexivity.
Defined.
