(* ===== verification/CardSafe.v ===== *)
(** * CardSafe: no command breaks the virtual card

    The invariant of the card's state, and that every command preserves it and
    is answered with a status word, never with a panic. *)

From Stdlib Require Import ZArith Lia String.
From stdpp Require Import base tactics list numbers gmap.
From S2P Require Import Prelude Apdu CardTlv CardState PinSpec Card CardPin.

Local Open Scope Z_scope.

(** ** Well-formed cards *)

(** What the model needs of the crates: lengths and bytes. *)
Record CardCryptoLaws (K : CardCrypto) : Prop := {
  p256_public_bytes : forall s pt, p256_public K s = Some pt -> bytes_ok pt;
  p256_sign_bytes : forall s m der, p256_sign K s m = Some der -> bytes_ok der;
  p256_dh_bytes : forall s pt, bytes_ok (p256_dh K s pt);
  p256_random_bytes : forall g, bytes_ok (p256_random K g).1 /\ len (p256_random K g).1 = 32;
  attest_bytes : forall a slot pt pol fw, bytes_ok (attest_slot K a slot pt pol fw);
  cert_object_bytes : forall a, bytes_ok (cert_object K a);
}.

Definition secret_ok (n : Z) (s : bytes) : Prop := bytes_ok s /\ len s = n.

Record card_ok {K} (c : VirtualCard K) : Prop := {
  ok_pin : pin_state_ok (pin_of c);
  ok_pin_bytes : bytes_ok (vc_pin c) /\ bytes_ok (vc_puk c);
  ok_mgmt : secret_ok 24 (vc_mgmt_key c);
  ok_witness : forall w, vc_pending_mgmt_witness c = Some w -> secret_ok 8 w;
  ok_slots : forall slot s, slot_priv c slot = Some s -> secret_ok 32 s;
  ok_overrides : forall slot s, vc_generate_overrides c !! slot = Some s -> secret_ok 32 s;
  ok_policies : forall slot p, vc_slot_policies c !! slot = Some p -> 0 <= p.1 <= 3 /\ 0 <= p.2 <= 3;
  ok_origins : forall slot o, vc_slot_origins c !! slot = Some o -> slot_priv c slot <> None;
  ok_objects : forall tag v, vc_data_objects c !! tag = Some v -> bytes_ok v;
  ok_serial : forall s, vc_serial_override c = Some s -> bytes_ok s;
}.

(** A response: bytes, with room for the status word. *)
Definition response_ok (r : bytes) : Prop := bytes_ok r /\ 2 <= len r.

Section Safe.
Context {K : CardCrypto} (L : CardCryptoLaws K).
Implicit Type c : VirtualCard K.

Definition reply_ok (rc : bytes * VirtualCard K) : Prop := response_ok rc.1 /\ card_ok rc.2.

Lemma response_app v a b : bytes_ok v -> byte_ok a -> byte_ok b -> response_ok (v ++ sw_bytes a b).
Proof.
  intros Hv Ha Hb. split; [unfold sw_bytes; auto with bytes|].
  rewrite len_app. pose proof (len_nonneg v). change (len (sw_bytes a b)) with 2. lia.
Qed.

Lemma reply_yields a b c : byte_ok a -> byte_ok b -> card_ok c -> yields (reply a b c) reply_ok.
Proof. intros Ha Hb Hc. split; [|exact Hc]. apply (response_app []); auto with bytes. Qed.

Lemma byte_const z : 0 <= z < 256 -> byte_ok z.
Proof. auto. Qed.

Lemma retries_byte n : 0 <= n <= 3 -> byte_ok (Z.lor 0xC0 n).
Proof.
  intros Hn. assert (n = 0 \/ n = 1 \/ n = 2 \/ n = 3) as [-> | [-> | [-> | ->]]] by lia;
    apply byte_const; vm_compute; split; congruence.
Qed.

(** A card that differs only in fields the invariant constrains as given. *)
Ltac card_ok_tac := match goal with Hc : card_ok _ |- _ => destruct Hc; constructor; simpl; auto end.

Ltac answer := apply reply_yields; [apply byte_const; lia|apply byte_const; lia|].

Lemma verify_yields c body :
  card_ok c -> yields (handle_verify c body) reply_ok.
Proof.
  intros Hc. pose proof (ok_pin _ Hc) as ((Hr1 & Hr2) & Hp). simpl in Hr1, Hr2.
  unfold handle_verify. destruct body as [p|].
  - case_match; [now answer|]. case_match; [now answer|]. bprop. case_match.
    + answer. card_ok_tac. unfold pin_state_ok in *. simpl in *. unfold DEFAULT_PIN_RETRIES. lia.
    + rewrite usub_Ok by lia. cbn [res_bind].
      assert (Hc' : card_ok (set_pin_retries (vc_pin_retries c - 1) c)).
      { card_ok_tac. unfold pin_state_ok in *. simpl in *. lia. }
      case_match; [now answer|]. apply reply_yields; [apply byte_const; lia| |exact Hc'].
      apply retries_byte. simpl. lia.
  - case_match; [now answer|]. apply reply_yields; [apply byte_const; lia|now apply retries_byte|exact Hc].
Qed.

Lemma body_cases apdu :
  bytes_ok apdu -> yields (apdu_body (E := Empty_set) apdu) (fun b => forall d, b = Some d -> bytes_ok d).
Proof.
  intros Ha. unfold apdu_body. case_match; [simpl; congruence|]. bprop.
  apply yields_bind with (1 := index_yields apdu 4 Ha ltac:(lia)). unfold byte_ok. intros b4 H4.
  assert (Hcut : forall lo lc, 0 <= lo -> 0 <= lc ->
    yields (if (lc =? 0) || (len apdu <? lo + lc) then Ok None
            else let* body := slice (E := Empty_set) apdu lo (lo + lc) in Ok (Some body))
      (fun b => forall d, b = Some d -> bytes_ok d)).
  { intros lo lc Hlo Hlc. destruct ((lc =? 0) || _) eqn:Hd; [simpl; congruence|]. bprop.
    apply yields_bind with (1 := slice_yields apdu lo (lo + lc) Ha ltac:(lia) ltac:(lia)).
    intros d [Hd' _]. simpl. congruence. }
  case_match; [|apply Hcut; lia]. bprop.
  apply yields_bind with (1 := index_yields apdu 5 Ha ltac:(lia)). intros hi Hhi.
  apply yields_bind with (1 := index_yields apdu 6 Ha ltac:(lia)). intros lo Hlo.
  cbv zeta. apply Hcut; [lia|]. apply from_be_bytes_bound. auto with bytes.
Qed.

Lemma as_option_yields {A} (p : res unit A) (Q : A -> Prop) :
  yields p Q -> yields (E := Empty_set) (as_option p) (fun o => forall a, o = Some a -> Q a).
Proof. destruct p; simpl; auto; congruence. Qed.

Lemma get_data_yields c apdu :
  card_ok c -> bytes_ok apdu -> yields (handle_get_data c apdu) reply_ok.
Proof.
  intros Hc Ha. apply yields_bind with (1 := body_cases apdu Ha). intros [body|] Hb; [|now answer].
  specialize (Hb body eq_refl).
  assert (Ht : yields (parse_5c_tag body) bytes_ok).
  { apply yields_bind with (1 := parse_5c_yields body Hb). now intros [t r] [Ht _]. }
  apply yields_bind with (1 := as_option_yields _ _ Ht). intros [tag|] Htag; [|now answer]. cbv zeta.
  destruct (vc_data_objects c !! tag) as [v|] eqn:Hv.
  - split; [|exact Hc]. apply response_app; [exact (ok_objects _ Hc _ _ Hv)|apply byte_const; lia..].
  - destruct (bytes_eqb tag _); [|now answer]. split; [|exact Hc].
    apply response_app; [apply cert_object_bytes, L|apply byte_const; lia..].
Qed.

Lemma put_data_yields c apdu :
  card_ok c -> bytes_ok apdu -> yields (handle_put_data c apdu) reply_ok.
Proof.
  intros Hc Ha. apply yields_bind with (1 := body_cases apdu Ha). intros [body|] Hb; [|now answer].
  specialize (Hb body eq_refl).
  apply yields_bind with (1 := as_option_yields _ _ (parse_5c_yields body Hb)).
  intros [[tag rest]|] Hp; [|now answer]. destruct (Hp _ eq_refl) as [Htag Hrest].
  apply yields_bind with (1 := as_option_yields _ _ (split_53_yields rest Hrest)).
  intros [[tlv trailing]|] Hs; [|now answer]. destruct (Hs _ eq_refl) as [Htlv _].
  answer. card_ok_tac. intros tag' v Hv. apply lookup_insert_Some in Hv as [[-> ->]|[_ Hv]]; eauto.
Qed.

Lemma mgmt_yields c body :
  card_ok c -> (forall d, body = Some d -> bytes_ok d) ->
  yields (handle_general_authenticate_mgmt_key c body) reply_ok.
Proof.
  intros Hc Hb. unfold handle_general_authenticate_mgmt_key. destruct body as [body|]; [|now answer].
  specialize (Hb body eq_refl). case_match.
  - assert (Hw : secret_ok 8 (default (repeat 0 8) (vc_pending_mgmt_witness c))).
    { destruct (vc_pending_mgmt_witness c) eqn:Hw; simpl; [exact (ok_witness _ Hc _ Hw)|by_compute]. }
    split; simpl.
    + apply (response_app (0x7C :: 0x0A :: 0x81 :: 0x08 :: _)); [|apply byte_const; lia..].
      destruct Hw as [Hw _]. byte_list; exact Hw.
    + card_ok_tac. now intros w [= <-].
  - case_match; [|now answer]. bprop.
    apply yields_bind with (1 := slice_yields body 4 12 Hb ltac:(lia) ltac:(lia)). intros enc _.
    destruct (vc_pending_mgmt_witness c) as [w|] eqn:Hw; [|now answer].
    case_match; answer; card_ok_tac; discriminate.
Qed.

Lemma change_yields c p2 body :
  card_ok c -> (forall d, body = Some d -> bytes_ok d) ->
  yields (handle_change_reference_data c p2 body) reply_ok.
Proof.
  intros Hc Hb. unfold handle_change_reference_data. destruct body as [body|]; [|now answer].
  specialize (Hb body eq_refl). case_match; [now answer|]. bprop.
  apply yields_bind with (1 := slice_yields body 0 8 Hb ltac:(lia) ltac:(lia)). intros o [Ho Hlo].
  rewrite slice_from_Ok by lia. cbn [res_bind]. cbv zeta.
  assert (Hn : bytes_ok (zdrop 8 body)) by auto with bytes.
  assert (Hln : len (zdrop 8 body) = 8) by (rewrite len_zdrop; lia).
  pose proof (ok_pin _ Hc) as ((Hr1 & Hr2) & (Hk1 & Hk2) & Hlp & Hlk). simpl in Hr1, Hr2, Hk1, Hk2, Hlp, Hlk.
  pose proof (ok_pin_bytes _ Hc) as [Hpb Hkb].
  destruct (p2 =? 0x80); (case_match; [now answer|]); bprop; case_match.
  - rewrite usub_Ok by lia. apply reply_yields; [apply byte_const; lia|apply retries_byte; lia|].
    card_ok_tac. unfold pin_state_ok. simpl. lia.
  - answer. card_ok_tac. unfold pin_state_ok, DEFAULT_PIN_RETRIES. simpl. lia.
  - rewrite usub_Ok by lia. apply reply_yields; [apply byte_const; lia|apply retries_byte; lia|].
    card_ok_tac. unfold pin_state_ok. simpl. lia.
  - answer. card_ok_tac. unfold pin_state_ok, DEFAULT_PUK_RETRIES. simpl. lia.
Qed.

Lemma unblock_yields c body :
  card_ok c -> (forall d, body = Some d -> bytes_ok d) ->
  yields (handle_reset_retry_counter c body) reply_ok.
Proof.
  intros Hc Hb. unfold handle_reset_retry_counter. destruct body as [body|]; [|now answer].
  specialize (Hb body eq_refl). case_match; [now answer|]. bprop.
  apply yields_bind with (1 := slice_yields body 0 8 Hb ltac:(lia) ltac:(lia)). intros o [Ho Hlo].
  rewrite slice_from_Ok by lia. cbn [res_bind]. cbv zeta.
  assert (Hn : bytes_ok (zdrop 8 body)) by auto with bytes.
  assert (Hln : len (zdrop 8 body) = 8) by (rewrite len_zdrop; lia).
  pose proof (ok_pin _ Hc) as ((Hr1 & Hr2) & (Hk1 & Hk2) & Hlp & Hlk). simpl in Hr1, Hr2, Hk1, Hk2, Hlp, Hlk.
  pose proof (ok_pin_bytes _ Hc) as [Hpb Hkb].
  case_match; [now answer|]. bprop. case_match.
  - rewrite usub_Ok by lia. apply reply_yields; [apply byte_const; lia|apply retries_byte; lia|].
    card_ok_tac. unfold pin_state_ok. simpl. lia.
  - answer. card_ok_tac. unfold pin_state_ok, DEFAULT_PIN_RETRIES, DEFAULT_PUK_RETRIES. simpl. lia.
Qed.

Lemma factory_yields c : card_ok c -> yields (handle_factory_reset c) reply_ok.
Proof.
  intros Hc. unfold handle_factory_reset. case_match; [now answer|]. answer.
  destruct Hc. constructor; auto; try solve [by_compute | simpl; intros *; rewrite lookup_empty; discriminate].
  unfold slot_priv. simpl. intros slot s. repeat case_match; discriminate.
Qed.

Lemma set_mgmt_yields c body :
  card_ok c -> (forall d, body = Some d -> bytes_ok d) -> yields (handle_set_mgmt_key c body) reply_ok.
Proof.
  intros Hc Hb. unfold handle_set_mgmt_key. case_match; [now answer|]. destruct body as [body|]; [|now answer].
  specialize (Hb body eq_refl). case_match; [now answer|]. bprop. rewrite slice_from_Ok by lia. simpl.
  answer. card_ok_tac. split; [auto with bytes|]. rewrite len_zdrop; lia.
Qed.

Lemma push_ber_len_ok out n : bytes_ok out -> 0 <= n -> bytes_ok (push_ber_len out n).
Proof.
  intros Ho Hn. unfold push_ber_len.
  repeat case_match; (apply bytes_ok_app; [exact Ho|]); byte_list.
Qed.

Lemma touch_gate_ok now c slot pass c' : card_ok c -> pass_touch_gate now c slot = (pass, c') -> card_ok c'.
Proof.
  intros Hc H. unfold pass_touch_gate in H.
  repeat match type of H with
  | (if ?b then _ else _) = _ => destruct b
  | match ?x with _ => _ end = _ => destruct x as [[?|?] ?]
  end; injection H as _ <-; try exact Hc; card_ok_tac.
Qed.

Lemma consume_ok c policy : card_ok c -> card_ok (consume_verify c policy).
Proof. intros Hc. unfold consume_verify. case_match; [|exact Hc]. card_ok_tac. Qed.

Lemma touch_timeout_ok c : card_ok c -> reply_ok (SW_TOUCH_TIMEOUT, c).
Proof. intros Hc. split; [apply (response_app [] 0x69 0x82); [constructor|apply byte_const; lia..]|exact Hc]. Qed.

Lemma ecdh_yields now c body :
  card_ok c -> (forall d, body = Some d -> bytes_ok d) ->
  yields (handle_general_authenticate_ecdh_slot_9d now c body) reply_ok.
Proof.
  intros Hc Hb. unfold handle_general_authenticate_ecdh_slot_9d. cbv zeta. case_match; [now answer|].
  destruct (vc_slot_9d_priv c) as [s|]; [|now answer]. destruct body as [body|]; [|now answer].
  specialize (Hb body eq_refl).
  apply yields_bind with (1 := as_option_yields _ _ (ga_request_yields _ _ body Hb)).
  intros [eph|] _; [|now answer]. do 3 (case_match; [now answer|]).
  destruct (pass_touch_gate now c 0x9D) as [pass c1] eqn:Ht. apply touch_gate_ok in Ht; [|exact Hc].
  case_match; [now apply touch_timeout_ok|]. split; [|now apply consume_ok].
  apply (response_app (0x7C :: 0x22 :: 0x82 :: 0x20 :: _)); [|apply byte_const; lia..].
  byte_list; apply p256_dh_bytes, L.
Qed.

Lemma sign_yields now c body slot :
  card_ok c -> (forall d, body = Some d -> bytes_ok d) ->
  yields (sign_ecdsa_slot now c body slot) reply_ok.
Proof.
  intros Hc Hb. unfold sign_ecdsa_slot. cbv zeta. case_match; [now answer|].
  destruct (slot_priv c slot) as [s|]; [|now answer]. destruct body as [body|]; [|now answer].
  specialize (Hb body eq_refl).
  apply yields_bind with (1 := as_option_yields _ _ (ga_request_yields _ _ body Hb)).
  intros [m|] _; [|now answer]. destruct (p256_public K s); [|now answer].
  destruct (p256_sign K s m) as [der|] eqn:Hder; [|now answer]. apply (p256_sign_bytes K L) in Hder.
  destruct (pass_touch_gate now c slot) as [pass c1] eqn:Ht. apply touch_gate_ok in Ht; [|exact Hc].
  case_match; [now apply touch_timeout_ok|]. split; [|now apply consume_ok]. simpl.
  rewrite app_assoc. apply response_app; [|apply byte_const; lia..].
  assert (Hi : bytes_ok (push_ber_len [0x82] (len der) ++ der)).
  { apply bytes_ok_app; [|exact Hder]. apply push_ber_len_ok; [|apply len_nonneg].
    byte_list. }
  apply bytes_ok_app; [|exact Hi]. apply push_ber_len_ok; [|apply len_nonneg].
  byte_list.
Qed.

(** Installing a key changes the slot, its policy and its origin. *)
Lemma install_spec c slot s p o :
  (slot = 0x9A \/ slot = 0x9C \/ slot = 0x9D \/ slot = 0x9E) ->
  exists c', install_slot_key c slot s p o = Ok c' /\
    (forall sl, slot_priv c' sl = if sl =? slot then Some s else slot_priv c sl) /\
    vc_slot_policies c' = <[slot := p]> (vc_slot_policies c) /\
    vc_slot_origins c' = <[slot := o]> (vc_slot_origins c) /\
    same_pin c c' /\ vc_mgmt_key c' = vc_mgmt_key c /\
    vc_pending_mgmt_witness c' = vc_pending_mgmt_witness c /\
    vc_generate_overrides c' = vc_generate_overrides c /\
    vc_data_objects c' = vc_data_objects c /\ vc_serial_override c' = vc_serial_override c.
Proof.
  intros [-> | [-> | [-> | ->]]]; eexists; (split; [reflexivity|]); (split; [|repeat split]);
    intros sl; unfold slot_priv; simpl; repeat case_match; bprop; subst; congruence.
Qed.

Lemma install_yields c slot s p o :
  card_ok c -> secret_ok 32 s -> 0 <= p.1 <= 3 /\ 0 <= p.2 <= 3 ->
  (slot = 0x9A \/ slot = 0x9C \/ slot = 0x9D \/ slot = 0x9E) ->
  yields (install_slot_key c slot s p o) (@card_ok K).
Proof.
  intros Hc Hs Hp Hslot.
  destruct (install_spec c slot s p o Hslot) as (c' & -> & Hpriv & Hpol & Hor & Hpin & Hm & Hw & Hov & Hob & Hser).
  unfold same_pin in Hpin. pose proof (ok_pin_bytes _ Hc) as Hpb.
  constructor.
  - rewrite Hpin. exact (ok_pin _ Hc).
  - unfold pin_of in Hpin. injection Hpin as -> _ _ -> _. exact Hpb.
  - rewrite Hm. exact (ok_mgmt _ Hc).
  - rewrite Hw. exact (ok_witness _ Hc).
  - intros sl x. rewrite Hpriv. case_match; [now intros [= <-]|exact (ok_slots _ Hc sl x)].
  - rewrite Hov. exact (ok_overrides _ Hc).
  - intros sl q. rewrite Hpol. intros Hq. apply lookup_insert_Some in Hq as [[_ <-]|[_ Hq]];
      [exact Hp|exact (ok_policies _ Hc _ _ Hq)].
  - intros sl q. rewrite Hor, Hpriv. intros Hq. case_match; [discriminate|]. bprop.
    apply lookup_insert_Some in Hq as [[Hn _]|[_ Hq]]; [congruence|exact (ok_origins _ Hc _ _ Hq)].
  - rewrite Hob. exact (ok_objects _ Hc).
  - rewrite Hser. exact (ok_serial _ Hc).
Qed.

(** The policies a request may carry; the parsers hand on bytes. *)
Lemma validated_policy_ok pin touch p :
  policy_ok pin -> policy_ok touch ->
  validated_policy pin touch = Some p -> 0 <= p.1 <= 3 /\ 0 <= p.2 <= 3.
Proof.
  intros Hp Ht. unfold validated_policy. case_match; [|discriminate]. bprop. intros [= <-]. simpl.
  destruct pin as [z|]; simpl in *; [specialize (Hp z eq_refl)|];
    (destruct touch as [y|]; simpl in *; [specialize (Ht y eq_refl)|]); lia.
Qed.

Lemma key_slots slot :
  (slot =? 0x9A) || (slot =? 0x9C) || (slot =? 0x9D) || (slot =? 0x9E) = true ->
  slot = 0x9A \/ slot = 0x9C \/ slot = 0x9D \/ slot = 0x9E.
Proof. rewrite !orb_true_iff, !Z.eqb_eq. tauto. Qed.

Lemma generate_yields c slot body :
  card_ok c -> (forall d, body = Some d -> bytes_ok d) ->
  yields (handle_generate_asymmetric c slot body) reply_ok.
Proof.
  intros Hc Hb. unfold handle_generate_asymmetric. case_match; [now answer|].
  destruct body as [body|]; [|now answer]. specialize (Hb body eq_refl).
  apply yields_bind with (1 := as_option_yields _ _ (parse_generate_yields body Hb)).
  intros [rq|] Hrq; [|now answer]. destruct (Hrq _ eq_refl) as [Hpp Htp]. case_match; [now answer|].
  destruct ((slot =? 0x9A) || (slot =? 0x9C) || (slot =? 0x9D)) eqn:Hslot; [|now answer]. cbn [negb].
  destruct (validated_policy _ _) as [policy|] eqn:Hpol; [|now answer].
  apply validated_policy_ok in Hpol; [|assumption..].
  assert (Hs : exists s c1, match vc_generate_overrides c !! slot with
                       | Some s => (s, c)
                       | None => let (s, g) := p256_random K (vc_rng c) in (s, set_rng g c)
                       end = (s, c1) /\ secret_ok 32 s /\ card_ok c1).
  { destruct (vc_generate_overrides c !! slot) as [s|] eqn:Hov.
    - exists s, c. split; [reflexivity|]. split; [exact (ok_overrides _ Hc _ _ Hov)|exact Hc].
    - pose proof (p256_random_bytes K L (vc_rng c)) as Hr. destruct (p256_random K (vc_rng c)) as [s g].
      exists s, (set_rng g c). split; [reflexivity|]. split; [exact Hr|]. card_ok_tac. }
  destruct Hs as (s & c1 & -> & Hs & Hc1).
  destruct (p256_public K s) as [pt|] eqn:Hpt; [|now answer]. apply (p256_public_bytes K L) in Hpt.
  assert (Hk : slot = 0x9A \/ slot = 0x9C \/ slot = 0x9D \/ slot = 0x9E) by (apply key_slots; now rewrite Hslot).
  apply yields_bind with (1 := install_yields c1 slot s policy Generated Hc1 Hs Hpol Hk). intros c2 Hc2.
  split; [|exact Hc2]. cbn [fst]. rewrite app_assoc. apply response_app; [|apply byte_const; lia..].
  assert (Hi : bytes_ok (push_ber_len [0x86] (len pt) ++ pt)).
  { apply bytes_ok_app; [|exact Hpt]. apply push_ber_len_ok; [|apply len_nonneg].
    byte_list. }
  apply bytes_ok_app; [|exact Hi]. apply push_ber_len_ok; [|apply len_nonneg].
  byte_list.
Qed.

Lemma import_yields c alg slot body :
  card_ok c -> (forall d, body = Some d -> bytes_ok d) ->
  yields (handle_import_asymmetric c alg slot body) reply_ok.
Proof.
  intros Hc Hb. unfold handle_import_asymmetric. case_match; [now answer|]. case_match; [now answer|].
  destruct (((slot =? 0x9A) || (slot =? 0x9C) || (slot =? 0x9D)) || (slot =? 0x9E)) eqn:Hslot; [|now answer]. cbn [negb].
  apply yields_bind with (P := fun o => forall r, o = Some r ->
    secret_ok 32 (ir_scalar r) /\ policy_ok (ir_pin_policy r) /\ policy_ok (ir_touch_policy r)).
  { destruct body as [body|]; [|simpl; congruence]. exact (as_option_yields _ _ (parse_import_yields body (Hb _ eq_refl))). }
  intros [rq|] Hrq; [|now answer]. destruct (Hrq _ eq_refl) as (Hs & Hpp & Htp).
  destruct (p256_public K _); [|now answer].
  destruct (validated_policy _ _) as [policy|] eqn:Hpol; [|now answer].
  apply validated_policy_ok in Hpol; [|assumption..].
  apply yields_bind with (1 := install_yields c slot _ policy Imported Hc Hs Hpol (key_slots slot Hslot)).
  intros c2 Hc2. now answer.
Qed.

Lemma attest_yields c slot : card_ok c -> yields (handle_attest c slot) reply_ok.
Proof.
  intros Hc. unfold handle_attest. cbv zeta. destruct (if bool_decide _ then _ else _); [|now answer].
  split; [|exact Hc]. apply response_app; [apply attest_bytes, L|apply byte_const; lia..].
Qed.

Lemma stored_policy_ok c slot : card_ok c -> byte_ok (stored_policy c slot).1 /\ byte_ok (stored_policy c slot).2.
Proof.
  intros Hc. unfold stored_policy. destruct (vc_slot_policies c !! slot) as [p|] eqn:Hp; simpl.
  - apply (ok_policies _ Hc) in Hp. unfold byte_ok. lia.
  - split; apply byte_const; vm_compute; split; congruence.
Qed.

Lemma metadata_yields c slot : card_ok c -> yields (handle_get_metadata c slot) reply_ok.
Proof.
  intros Hc. unfold handle_get_metadata. destruct (slot_point c slot) as [pt|] eqn:Hpt; [|now answer].
  assert (Hptb : bytes_ok pt).
  { unfold slot_point in Hpt. destruct (slot_priv c slot); [|discriminate]. exact (p256_public_bytes K L _ _ Hpt). }
  destruct (stored_policy_ok c slot Hc) as [Hp Ht]. destruct (stored_policy c slot) as [pin touch].
  simpl in Hp, Ht. cbv zeta. split; [|exact Hc]. cbn [fst]. rewrite app_assoc.
  apply response_app; [|apply byte_const; lia..]. apply bytes_ok_app; [|exact Hptb].
  apply push_ber_len_ok; [|apply len_nonneg]. apply bytes_ok_app; [|byte_list].
  apply push_ber_len_ok; [|pose proof (len_nonneg pt); lia].
  apply bytes_ok_app; [|byte_list].
  apply bytes_ok_app; [byte_list|].
  destruct (default _ _); simpl; byte_list.
Qed.

Lemma fci_ok m : bytes_ok (select_fci_bytes m).
Proof. destruct m; by_compute. Qed.

Lemma select_yields c apdu : card_ok c -> bytes_ok apdu -> yields (handle_select c apdu) reply_ok.
Proof.
  intros Hc Ha. apply yields_bind with (1 := body_cases apdu Ha). intros body _. cbv zeta.
  case_match; [|case_match; [|now answer]].
  - split; [|card_ok_tac]. apply response_app; [apply fci_ok|apply byte_const; lia..].
  - answer. card_ok_tac.
Qed.

Lemma take_fault_ok c i f c' : card_ok c -> take_fault c i = (f, c') -> card_ok c'.
Proof.
  intros Hc H. unfold take_fault in H.
  repeat match type of H with context [match ?x with _ => _ end] => destruct x end;
    injection H as _ <-; try exact Hc; card_ok_tac.
Qed.

Lemma serial_ok c s : card_ok c -> piv_serial c = Some s -> bytes_ok s.
Proof.
  intros Hc. unfold piv_serial. destruct (vc_model c); simpl; [discriminate|]. intros [= <-].
  destruct (vc_serial_override c) eqn:Hs; simpl; [exact (ok_serial _ Hc _ Hs)|by_compute].
Qed.

Lemma otp_serial_ok c : card_ok c -> bytes_ok (otp_serial c).
Proof.
  intros Hc. unfold otp_serial. destruct (vc_serial_override c) eqn:Hs; simpl; [exact (ok_serial _ Hc _ Hs)|].
  destruct (vc_model c); by_compute.
Qed.

Lemma version_ok m : bytes_ok (firmware_version m).
Proof. destruct m; by_compute. Qed.

Lemma dispatch_command_yields now c apdu :
  card_ok c -> bytes_ok apdu -> yields (dispatch_command now c apdu) reply_ok.
Proof.
  intros Hc0 Ha. unfold dispatch_command. case_match; [now answer|]. bprop.
  apply yields_bind with (1 := index_yields apdu 0 Ha ltac:(lia)). intros cla _.
  apply yields_bind with (1 := index_yields apdu 1 Ha ltac:(lia)). intros ins _.
  apply yields_bind with (1 := index_yields apdu 2 Ha ltac:(lia)). intros p1 _.
  apply yields_bind with (1 := index_yields apdu 3 Ha ltac:(lia)). intros p2 _.
  destruct (take_fault c ins) as [fault c1] eqn:Hf. apply take_fault_ok in Hf as Hc; [|exact Hc0].
  destruct fault as [fsw|]; [apply reply_yields; auto using u8_ok|]. clear Hf Hc0.
  repeat match goal with
  | |- yields (if ?b then _ else _) _ => destruct b
  | |- yields (res_bind (apdu_body _) _) _ =>
      apply yields_bind with (1 := body_cases apdu Ha); intros body Hbody
  end; try now answer.
  - now apply select_yields.
  - now apply get_data_yields.
  - now apply put_data_yields.
  - now apply generate_yields.
  - split; [|exact Hc]. apply response_app; [apply version_ok|apply byte_const; lia..].
  - destruct (piv_serial c1) as [s|] eqn:Hs; [|now answer]. split; [|exact Hc].
    apply response_app; [exact (serial_ok _ _ Hc Hs)|apply byte_const; lia..].
  - split; [|exact Hc]. apply response_app; [now apply otp_serial_ok|apply byte_const; lia..].
  - now apply verify_yields.
  - now apply change_yields.
  - now apply unblock_yields.
  - now apply factory_yields.
  - apply yields_bind with (P := fun _ => True).
    { destruct body as [b|]; [|exact I].
      eapply yields_weaken; [exact (as_option_yields _ _ (ga_request_yields _ _ b (Hbody b eq_refl)))|auto]. }
    intros [m|] _; [now apply sign_yields|now apply ecdh_yields].
  - now apply sign_yields.
  - now apply mgmt_yields.
  - now apply set_mgmt_yields.
  - now apply import_yields.
  - now apply attest_yields.
  - now apply metadata_yields.
Qed.

Lemma dispatch_yields now c apdu : card_ok c -> bytes_ok apdu -> yields (dispatch now c apdu) reply_ok.
Proof.
  intros Hc Ha. unfold dispatch. cbv zeta. assert (Hc1 : card_ok (set_touch_blocked None c)) by card_ok_tac.
  match goal with |- context [if ?b then reply _ _ _ else _] => destruct b end; [now answer|].
  apply yields_bind with (1 := dispatch_command_yields now _ apdu Hc1 Ha). intros [r c2] [Hr Hc2].
  split; [exact Hr|]. simpl in *. match goal with |- context [if ?b then _ else _] => destruct b end; [card_ok_tac|exact Hc2].
Qed.

Lemma transmit_yields now c apdu : card_ok c -> bytes_ok apdu -> yields (transmit now c apdu) reply_ok.
Proof.
  intros Hc Ha. apply yields_bind with (1 := dispatch_yields now c apdu Hc Ha). intros [r c2] [Hr Hc2].
  split; [exact Hr|]. simpl in *. card_ok_tac.
Qed.

Lemma await_yields now c apdu : card_ok c -> bytes_ok apdu ->
  yields (transmit_or_await_touch now c apdu) (fun oc => card_ok oc.2).
Proof.
  intros Hc Ha. apply yields_bind with (1 := dispatch_yields now c apdu Hc Ha). intros [r c2] [_ Hc2].
  simpl in *. card_ok_tac.
Qed.

(** The other operations of the reader keep the card well formed. *)
Lemma clear_faults_ok c : card_ok c -> card_ok (clear_faults c).
Proof. intros Hc. card_ok_tac. Qed.

Lemma set_present_ok c present : card_ok c -> card_ok (set_present c present).
Proof.
  intros Hc. unfold set_present. cbv zeta.
  destruct (negb present && vc_inserted c); simpl; case_match; card_ok_tac; discriminate.
Qed.

Lemma inject_fault_ok c f : card_ok c -> yields (inject_fault c f) (@card_ok K).
Proof. intros Hc. unfold inject_fault. case_match; [exact I|]. simpl. card_ok_tac. Qed.

Lemma connect_ok c : card_ok c -> card_ok (connect c).
Proof. intros Hc. card_ok_tac. Qed.

Lemma disconnect_ok c : card_ok c -> card_ok (disconnect c).
Proof. intros Hc. card_ok_tac. discriminate. Qed.

Lemma end_transaction_ok c d : card_ok c -> card_ok (end_transaction c d).
Proof. intros Hc. unfold end_transaction. case_match; [|exact Hc]. card_ok_tac. discriminate. Qed.

Lemma grant_touch_ok c : card_ok c -> card_ok (grant_touch c).2.
Proof. intros Hc. unfold grant_touch. simpl. card_ok_tac. Qed.

Lemma with_model_ok m a g : card_ok (with_model (K := K) m a g).
Proof.
  constructor; auto; try solve [by_compute | simpl; intros *; rewrite ?lookup_empty; discriminate].
  unfold slot_priv. simpl. intros slot s. repeat case_match; discriminate.
Qed.

End Safe.

(** ** What unlocks what *)

Section Gates.
Context {K : CardCrypto}.
Implicit Type c : VirtualCard K.

Definition keys_of c : option bytes * option bytes * option bytes * option bytes :=
  (vc_slot_9a_priv c, vc_slot_9c_priv c, vc_slot_9d_priv c, vc_slot_9e_priv c).

(** The keys, and whether the management key is authenticated. *)
Definition admin_of c := (keys_of c, vc_mgmt_authenticated c).

Definition same_admin c c' : Prop := admin_of c' = admin_of c.

Ltac quiet := intros resp c' H; run_cases; reflexivity.

Lemma verify_admin c body : gives (handle_verify c body) (fun _ => same_admin c).
Proof. unfold handle_verify. quiet. Qed.
Lemma get_data_admin c apdu : gives (handle_get_data c apdu) (fun _ => same_admin c).
Proof. unfold handle_get_data. quiet. Qed.
Lemma put_data_admin c apdu : gives (handle_put_data c apdu) (fun _ => same_admin c).
Proof. unfold handle_put_data. quiet. Qed.
Lemma select_admin c apdu : gives (handle_select c apdu) (fun _ => same_admin c).
Proof. unfold handle_select. quiet. Qed.
Lemma change_admin c p2 body : gives (handle_change_reference_data c p2 body) (fun _ => same_admin c).
Proof. unfold handle_change_reference_data. quiet. Qed.
Lemma unblock_admin c body : gives (handle_reset_retry_counter c body) (fun _ => same_admin c).
Proof. unfold handle_reset_retry_counter. quiet. Qed.
Lemma set_mgmt_admin c body : gives (handle_set_mgmt_key c body) (fun _ => same_admin c).
Proof. unfold handle_set_mgmt_key. quiet. Qed.
Lemma attest_admin c slot : gives (handle_attest c slot) (fun _ => same_admin c).
Proof. unfold handle_attest. quiet. Qed.
Lemma metadata_admin c slot : gives (handle_get_metadata c slot) (fun _ => same_admin c).
Proof. unfold handle_get_metadata. quiet. Qed.

Lemma touch_admin now c slot pass c' : pass_touch_gate now c slot = (pass, c') -> same_admin c c'.
Proof. unfold pass_touch_gate. intros H. run_cases; reflexivity. Qed.

Lemma consume_admin c c' policy : same_admin c c' -> same_admin c (consume_verify c' policy).
Proof. unfold consume_verify. intros H. case_match; exact H. Qed.

Ltac key_op :=
  intros resp c' H; run_cases;
  try match goal with H : pass_touch_gate _ _ _ = _ |- _ => apply touch_admin in H end;
  first [ now apply consume_admin | reflexivity | assumption ].

Lemma ecdh_admin now c body : gives (handle_general_authenticate_ecdh_slot_9d now c body) (fun _ => same_admin c).
Proof. unfold handle_general_authenticate_ecdh_slot_9d. key_op. Qed.
Lemma sign_admin now c body slot : gives (sign_ecdsa_slot now c body slot) (fun _ => same_admin c).
Proof. unfold sign_ecdsa_slot. key_op. Qed.

(** The answer to the outstanding witness that authenticates. *)
Definition answers_witness c (body : option bytes) : Prop :=
  exists enc w, body = Some ([0x7C; 0x0A; 0x82; 0x08] ++ enc) /\ len enc = 8 /\
    vc_pending_mgmt_witness c = Some w /\ tdes_decrypt K (vc_mgmt_key c) enc = w.

Lemma mgmt_admin c body :
  gives (handle_general_authenticate_mgmt_key c body) (fun _ c' =>
    keys_of c' = keys_of c /\
    (vc_mgmt_authenticated c' = vc_mgmt_authenticated c \/ answers_witness c body)).
Proof.
  intros resp c' H. unfold handle_general_authenticate_mgmt_key in H.
  destruct body as [body|]; [|run_cases; auto].
  destruct (bytes_eqb body _); [run_cases; auto|].
  destruct ((len body =? 12) && starts_with body _) eqn:Hb; [|run_cases; auto]. bprop.
  rewrite slice_Ok in H by lia. cbn [res_bind] in H.
  destruct (vc_pending_mgmt_witness c) as [w|] eqn:Hw; [|run_cases; auto]. cbv zeta in H.
  destruct (bytes_eqb _ w) eqn:Heq; [|run_cases; auto].
  injection H as _ <-. split; [reflexivity|]. right. apply bytes_eqb_true in Heq.
  exists (ztake (12 - 4) (zdrop 4 body)), w. split; [|split; [|split; [exact Hw|exact Heq]]].
  - match goal with H : starts_with _ _ = true |- _ => apply bool_decide_eq_true in H; rename H into Hs end.
    change (take 4 body = [0x7C; 0x0A; 0x82; 0x08]) in Hs.
    f_equal. rewrite <- (take_drop 4 body) at 1. rewrite Hs. f_equal. change (zdrop 4 body) with (drop 4 body).
    symmetry. unfold ztake. apply take_ge. rewrite length_drop. unfold len in *. lia.
  - rewrite len_ztake by (rewrite len_zdrop; lia). lia.
Qed.

(** A new key comes in only under management-key authentication. *)
Lemma install_admin c c1 slot s p o : install_slot_key c slot s p o = Ok c1 -> vc_mgmt_authenticated c1 = vc_mgmt_authenticated c.
Proof. unfold install_slot_key. intros H. run_cases; reflexivity. Qed.

Lemma generate_admin c slot body :
  gives (handle_generate_asymmetric c slot body) (fun _ c' =>
    same_admin c c' \/ (vc_mgmt_authenticated c = true /\ vc_mgmt_authenticated c' = true)).
Proof.
  intros resp c' H. unfold handle_generate_asymmetric in H.
  destruct (vc_mgmt_authenticated c) eqn:Ha; cbn [negb] in H; [|run_cases; left; reflexivity].
  run_cases; try (left; reflexivity);
    match goal with H : install_slot_key _ _ _ _ _ = Ok _ |- _ =>
      apply install_admin in H; right; split; [reflexivity|]; rewrite H; exact Ha
    end.
Qed.

Lemma import_admin c alg slot body :
  gives (handle_import_asymmetric c alg slot body) (fun _ c' =>
    same_admin c c' \/ (vc_mgmt_authenticated c = true /\ vc_mgmt_authenticated c' = true)).
Proof.
  intros resp c' H. unfold handle_import_asymmetric in H.
  destruct (vc_mgmt_authenticated c) eqn:Ha; cbn [negb] in H; [|run_cases; left; reflexivity].
  run_cases; try (left; reflexivity);
    match goal with H : install_slot_key _ _ _ _ _ = Ok _ |- _ =>
      apply install_admin in H; right; split; [reflexivity|]; rewrite H; exact Ha
    end.
Qed.

(** What one command may do to the keys and to the admin authentication. *)
Definition admin_step (apdu : bytes) c c' : Prop :=
  same_admin c c' \/
  (vc_mgmt_authenticated c = true /\ vc_mgmt_authenticated c' = true) \/
  (keys_of c' = keys_of c /\ take 4 apdu = [0x00; Ins.GEN_AUTH; 0x03; 0x9B] /\
   exists body, apdu_body (E := Empty_set) apdu = Ok body /\ answers_witness c body) \/
  (vc_pin_retries c = 0 /\ vc_puk_retries c = 0 /\ take 4 apdu = [0x00; Ins.YK_RESET; 0x00; 0x00] /\
   keys_of c' = (None, None, None, None) /\ vc_mgmt_authenticated c' = vc_mgmt_authenticated c).

Lemma take_fault_same c i f c1 :
  take_fault c i = (f, c1) -> exists fs, c1 = set_faults fs c.
Proof.
  unfold take_fault. intros H. assert (Hc : c = set_faults (vc_faults c) c) by (destruct c; reflexivity).
  repeat match type of H with context [match ?x with _ => _ end] => destruct x end;
    injection H as _ <-; eauto.
Qed.

Lemma dispatch_command_admin now c apdu : gives (dispatch_command now c apdu) (fun _ => admin_step apdu c).
Proof.
  intros resp c' H. unfold dispatch_command in H.
  destruct (len apdu <? 4) eqn:Hlen; [injection H as _ <-; left; reflexivity|].
  apply Z.ltb_ge in Hlen.
  apply res_bind_Ok_inv in H as (cla & Hcla & H). apply res_bind_Ok_inv in H as (ins & Hins & H).
  apply res_bind_Ok_inv in H as (p1 & Hp1 & H). apply res_bind_Ok_inv in H as (p2 & Hp2 & H).
  pose proof (header apdu cla ins p1 p2 Hlen Hcla Hins Hp1 Hp2) as Hh. clear Hcla Hins Hp1 Hp2.
  destruct (take_fault c ins) as [fault c1] eqn:Hf. apply take_fault_same in Hf as [fs ->].
  destruct fault as [fsw|]; [injection H as _ <-; left; reflexivity|].
  repeat match type of H with
  | (if ?b then _ else _) = _ => destruct b eqn:?
  | res_bind (apdu_body _) _ = _ => apply res_bind_Ok_inv in H as (body & Hbody & H)
  end; try (injection H as _ <-; left; reflexivity).
  - left. exact (select_admin _ _ _ _ H).
  - left. exact (get_data_admin _ _ _ _ H).
  - left. exact (put_data_admin _ _ _ _ H).
  - destruct (generate_admin _ _ _ _ _ H) as [H'|H']; [left; exact H'|right; left; exact H'].
  - destruct (piv_serial _); injection H as _ <-; left; reflexivity.
  - left. exact (verify_admin _ _ _ _ H).
  - left. exact (change_admin _ _ _ _ _ H).
  - left. exact (unblock_admin _ _ _ _ H).
  - bprop. subst. unfold handle_factory_reset in H. cbn [vc_pin_retries vc_puk_retries set_faults] in H.
    destruct (vc_pin_retries c =? 0) eqn:H1, (vc_puk_retries c =? 0) eqn:H2; cbn [negb orb] in H;
      injection H as _ <-; try (left; reflexivity).
    right. right. right. bprop. repeat split; assumption.
  - left. apply res_bind_Ok_inv in H as (m & _ & H).
    destruct m; [exact (sign_admin _ _ _ _ _ _ H)|exact (ecdh_admin _ _ _ _ _ H)].
  - left. exact (sign_admin _ _ _ _ _ _ H).
  - destruct (mgmt_admin _ _ _ _ H) as [Hk [Ha|Ha]].
    + left. unfold same_admin, admin_of. rewrite Hk, Ha. reflexivity.
    + bprop. subst. right. right. left. split; [exact Hk|]. split; [exact Hh|]. eauto.
  - left. exact (set_mgmt_admin _ _ _ _ H).
  - destruct (import_admin _ _ _ _ _ _ H) as [H'|H']; [left; exact H'|right; left; exact H'].
  - left. exact (attest_admin _ _ _ _ H).
  - left. exact (metadata_admin _ _ _ _ H).
Qed.

(** [transmit] is [dispatch_command], refused without an applet under
    [--require-select], and some bookkeeping around it. *)
Lemma transmit_inv now c apdu resp c' :
  transmit now c apdu = Ok (resp, c') ->
  (resp = sw_bytes 0x6D 0x00 /\ c' = set_touch_blocked None (set_touch_blocked None c)) \/
  exists c2, dispatch_command now (set_touch_blocked None c) apdu = Ok (resp, c2) /\
    (c' = set_touch_blocked None c2 \/ c' = set_touch_blocked None (set_command_since_verify true c2)).
Proof.
  unfold transmit, dispatch. cbv zeta.
  match goal with |- context [if ?b then reply _ _ _ else _] => destruct b end.
  - intros [= <- <-]. auto.
  - intros H. apply res_bind_Ok_inv in H as ([r2 c2] & H2 & H). injection H as <- <-.
    apply res_bind_Ok_inv in H2 as ([r3 c3] & H3 & H2). right. exists c3. rewrite H3. injection H2 as <- <-.
    split; [reflexivity|]. match goal with |- context [if ?b then _ else _] => destruct b end; auto.
Qed.

(** A key operation that was carried out: the answer ends in 9000. *)
Definition answered_ok (resp : bytes) : Prop := exists d, resp = d ++ sw_bytes 0x90 0x00.

Lemma answered_sw a b : answered_ok (sw_bytes a b) -> a = 0x90 /\ b = 0x00.
Proof.
  intros [d H]. change (sw_bytes a b) with ([] ++ sw_bytes a b) in H.
  apply app_inj_2 in H as [_ H]; [|reflexivity]. now injection H.
Qed.

(** The key operations check the PIN first, and spend it when they must. *)
Definition key_allowed c c' (slot : Z) : Prop :=
  slot_priv c slot <> None /\ pin_refused c slot = false /\
  (effective_pin_policy c slot = PIN_ALWAYS -> vc_pin_verified c' = false).

Lemma consume_drops c policy : policy = PIN_ALWAYS -> vc_pin_verified (consume_verify c policy) = false.
Proof. now intros ->. Qed.

Lemma sign_allowed now c body slot resp c' :
  sign_ecdsa_slot now c body slot = Ok (resp, c') -> answered_ok resp -> key_allowed c c' slot.
Proof.
  intros H Ha. unfold sign_ecdsa_slot, key_allowed in *. cbv zeta in H.
  destruct (pin_refused c slot) eqn:Hp; run_cases;
    try (apply answered_sw in Ha; destruct Ha; discriminate);
    (split; [congruence|]); (split; [reflexivity|]); intros Hpol;
    rewrite Hpol; now apply consume_drops.
Qed.

Lemma ecdh_allowed now c body resp c' :
  handle_general_authenticate_ecdh_slot_9d now c body = Ok (resp, c') -> answered_ok resp ->
  key_allowed c c' 0x9D.
Proof.
  intros H Ha. unfold handle_general_authenticate_ecdh_slot_9d, key_allowed in *. cbv zeta in H.
  destruct (pin_refused c 0x9D) eqn:Hp; run_cases;
    try (apply answered_sw in Ha; destruct Ha; discriminate);
    (split; [change (slot_priv c 0x9D) with (vc_slot_9d_priv c); congruence|]); (split; [reflexivity|]); intros Hpol;
    rewrite Hpol; now apply consume_drops.
Qed.

(** The header decides which handler runs. *)
Lemma header_index (apdu : bytes) a b d e :
  take 4 apdu = [a; b; d; e] ->
  4 <= len apdu /\ index (E := Empty_set) apdu 0 = Ok a /\ index (E := Empty_set) apdu 1 = Ok b /\
  index (E := Empty_set) apdu 2 = Ok d /\ index (E := Empty_set) apdu 3 = Ok e.
Proof.
  intros H. rewrite <- (take_drop 4 apdu), H. generalize (drop 4 apdu). intros t. cbn [app].
  split; [rewrite !len_cons; pose proof (len_nonneg t); lia|].
  repeat split; (eapply index_Ok; [lia|reflexivity]).
Qed.

Ltac pick_branch H :=
  repeat match type of H with
  | (if ?b then _ else _) = _ =>
      first [ replace b with false in H by (try destruct (vc_selected_otp _); reflexivity)
            | replace b with true in H by (try destruct (vc_selected_otp _); reflexivity) ];
      cbv iota in H
  end.

Lemma key_command_allowed now c apdu slot resp c' :
  vc_faults c = [] -> slot = 0x9A \/ slot = 0x9C \/ slot = 0x9D \/ slot = 0x9E ->
  take 4 apdu = [0x00; Ins.GEN_AUTH; 0x11; slot] ->
  dispatch_command now c apdu = Ok (resp, c') -> answered_ok resp -> key_allowed c c' slot.
Proof.
  intros Hf Hs Hh H Ha. destruct (header_index _ _ _ _ _ Hh) as (Hl & H0 & H1 & H2 & H3).
  unfold dispatch_command in H. rewrite H0, H1, H2, H3 in H. cbn [res_bind] in H.
  replace (len apdu <? 4) with false in H by (symmetry; now apply Z.ltb_ge).
  unfold take_fault in H. rewrite Hf in H. cbn [position] in H.
  destruct Hs as [-> | [-> | [-> | ->]]]; pick_branch H;
    apply res_bind_Ok_inv in H as (body & _ & H); try exact (sign_allowed _ _ _ _ _ _ H Ha).
  apply res_bind_Ok_inv in H as (m & _ & H).
  destruct m; [exact (sign_allowed _ _ _ _ _ _ H Ha)|exact (ecdh_allowed _ _ _ _ _ H Ha)].
Qed.
End Gates.

(** ** Properties *)

(** C34 (safety).  On a well-formed card any command is answered, with at least a
    status word, by a card that is well formed again: no command makes the card
    panic, whatever its bytes. *)
Theorem card_never_panics K (L : CardCryptoLaws K) now (c : VirtualCard K) apdu :
  card_ok c -> bytes_ok apdu ->
  exists resp c', transmit now c apdu = Ok (resp, c') /\ response_ok resp /\ card_ok c'.
Proof.
  intros Hc Ha. pose proof (transmit_yields L now c apdu Hc Ha) as Hy.
  destruct (transmit now c apdu) as [[resp c']|e|] eqn:Ht.
  - exists resp, c'. destruct Hy as [Hr Hc']. auto.
  - destruct e.
  - contradiction.
Qed.

(** C29 (safety).  The keys of the card change only under management-key
    authentication, or by a factory reset, which is refused while a counter is
    above zero and leaves no key; and the card becomes authenticated only by a
    command that returns the outstanding witness encrypted under the card's
    management key. *)
Theorem keys_need_admin K now (c c' : VirtualCard K) apdu resp :
  transmit now c apdu = Ok (resp, c') ->
  (keys_of c' <> keys_of c ->
     vc_mgmt_authenticated c = true \/
     (vc_pin_retries c = 0 /\ vc_puk_retries c = 0 /\ keys_of c' = (None, None, None, None))) /\
  (vc_mgmt_authenticated c = false -> vc_mgmt_authenticated c' = true ->
     exists enc w, apdu_body (E := Empty_set) apdu = Ok (Some ([0x7C; 0x0A; 0x82; 0x08] ++ enc)) /\
       vc_pending_mgmt_witness c = Some w /\ tdes_decrypt K (vc_mgmt_key c) enc = w).
Proof.
  intros H. destruct (transmit_inv now c apdu resp c' H) as [[_ ->]|(c2 & Hd & Hc')].
  { split; [intros Hn; exfalso; now apply Hn|]. intros H0 H1. simpl in H1. congruence. }
  assert (Hk : keys_of c' = keys_of c2) by (destruct Hc' as [-> | ->]; reflexivity).
  assert (Ha : vc_mgmt_authenticated c' = vc_mgmt_authenticated c2) by (destruct Hc' as [-> | ->]; reflexivity).
  rewrite Hk, Ha. clear Hk Ha Hc'.
  destruct (dispatch_command_admin _ _ _ _ _ Hd)
    as [Hs|[[Hs1 Hs2]|[(Hs1 & Hs2 & body & Hb & enc & w & -> & Hw)|(Hs1 & Hs2 & _ & Hs4 & Hs5)]]].
  - assert (Hk : keys_of c2 = keys_of c) by exact (f_equal fst Hs).
    assert (Ha : vc_mgmt_authenticated c2 = vc_mgmt_authenticated c) by exact (f_equal snd Hs).
    split; [intros Hn; now destruct Hn|]. congruence.
  - change (vc_mgmt_authenticated c = true) in Hs1. split; [auto|]. congruence.
  - change (keys_of c2 = keys_of c) in Hs1. split; [intros Hn; now destruct Hn|].
    intros _ _. exists enc, w. destruct Hw as (_ & Hw & Ht). auto.
  - change (vc_mgmt_authenticated c2 = vc_mgmt_authenticated c) in Hs5. split; [|congruence].
    intros _. right. auto.
Qed.

(** A factory reset of a card with both counters at zero
    erases every key, policy, origin and object and restores the factory PIN,
    PUK, management key and counters; but it leaves a management-key
    authentication of before in force. *)
Theorem factory_reset_effect K now (c : VirtualCard K) :
  vc_faults c = [] -> vc_selected_piv c = true -> vc_pin_retries c = 0 -> vc_puk_retries c = 0 ->
  exists c', transmit now c (apdu_to_bytes (apdu_new 0x00 Ins.YK_RESET 0x00 0x00)) = Ok (sw_bytes 0x90 0x00, c') /\
    keys_of c' = (None, None, None, None) /\ vc_slot_policies c' = ∅ /\ vc_slot_origins c' = ∅ /\
    vc_data_objects c' = ∅ /\ vc_mgmt_key c' = DEFAULT_MGMT_KEY /\
    pin_of c' = MkPinState DEFAULT_PIN DEFAULT_PIN_RETRIES false DEFAULT_PUK DEFAULT_PUK_RETRIES /\
    vc_mgmt_authenticated c' = vc_mgmt_authenticated c.
Proof.
  intros Hf Hsel Hp Hk.
  change (apdu_to_bytes (apdu_new 0x00 Ins.YK_RESET 0x00 0x00)) with [0x00; Ins.YK_RESET; 0x00; 0x00].
  eexists. unfold transmit, dispatch. cbv zeta. cbn [vc_require_select vc_selected_piv set_touch_blocked].
  rewrite Hsel. cbn [negb]. rewrite andb_false_r. cbn [andb]. unfold dispatch_command.
  change (len [0; Ins.YK_RESET; 0; 0] <? 4) with false. cbv iota.
  change (index (E := Empty_set) [0; Ins.YK_RESET; 0; 0] 0) with (Ok (E := Empty_set) 0).
  change (index (E := Empty_set) [0; Ins.YK_RESET; 0; 0] 1) with (Ok (E := Empty_set) Ins.YK_RESET).
  change (index (E := Empty_set) [0; Ins.YK_RESET; 0; 0] 2) with (Ok (E := Empty_set) 0).
  change (index (E := Empty_set) [0; Ins.YK_RESET; 0; 0] 3) with (Ok (E := Empty_set) 0). cbn [res_bind].
  unfold take_fault. cbn [vc_faults set_touch_blocked]. rewrite Hf. cbn [position].
  match goal with |- context [vc_selected_otp ?x && ?p && ?q && ?r && ?s] =>
    replace (vc_selected_otp x && p && q && r && s) with false by (destruct (vc_selected_otp x); reflexivity) end.
  cbn [Z.eqb Ins.YK_RESET Ins.SELECT Ins.GET_DATA Ins.PUT_DATA Ins.GEN_ASYM Ins.YK_GET_VERSION Ins.YK_GET_SERIAL
    Ins.VERIFY Ins.CHANGE_PIN Ins.RESET_PIN Pos.eqb andb orb negb].
  unfold handle_factory_reset. cbn [vc_pin_retries vc_puk_retries set_touch_blocked]. rewrite Hp, Hk.
  cbn [Z.eqb negb orb]. split; [reflexivity|]. repeat split.
Qed.

(** ** Witnesses *)

Lemma map_u8_ok l : bytes_ok (u8 <$> l).
Proof. apply Forall_fmap, Forall_true. intros x. apply u8_ok. Qed.

Lemma toy_card_laws : CardCryptoLaws ToyCard.
Proof.
  constructor; simpl.
  - intros s pt. case_match; [|discriminate]. intros [= <-]. constructor; [unfold byte_ok; lia|apply map_u8_ok].
  - intros s m der. case_match; [|discriminate]. intros [= <-]. constructor; [unfold byte_ok; lia|apply map_u8_ok].
  - intros s pt. apply map_u8_ok.
  - intros g. split; [|reflexivity]. byte_list.
  - intros a slot pt pol fw. byte_list.
  - intros a. by_compute.
Qed.

(** A card with a key in 9C and the factory PIN verified. *)
Definition card_key : bytes := repeat 9 32.
Definition toy_keyed : VirtualCard ToyCard :=
  set_selected_piv true (set_pin_verified true (set_slot_9c_priv (Some card_key) toy_card)).
Definition toy_sign_apdu (slot : Z) : bytes :=
  apdu_to_bytes (apdu_general_authenticate 0x11 slot [0x7C; 0x05; 0x82; 0x00; 0x81; 0x01; 0x2A]).
Definition toy_signed : VirtualCard ToyCard := after toy_keyed [(0, toy_sign_apdu 0x9C)].

Lemma card_never_panics_witness :
  exists resp c', transmit 0 toy_card (apdu_to_bytes (apdu_select PIV_AID)) = Ok (resp, c') /\
    response_ok resp /\ card_ok c'.
Proof.
  apply (card_never_panics ToyCard toy_card_laws); [apply with_model_ok|by_compute].
Defined.

Definition toy_witness : bytes := repeat 5 8.
Definition toy_challenged : VirtualCard ToyCard := set_pending_mgmt_witness (Some toy_witness) toy_card.
Definition toy_response : bytes := xor_key DEFAULT_MGMT_KEY toy_witness.
Definition toy_auth_apdu : bytes :=
  apdu_to_bytes (apdu_general_authenticate 0x03 0x9B ([0x7C; 0x0A; 0x82; 0x08] ++ toy_response)).

Lemma keys_need_admin_witness :
  exists enc w, apdu_body (E := Empty_set) toy_auth_apdu = Ok (Some ([0x7C; 0x0A; 0x82; 0x08] ++ enc)) /\
    vc_pending_mgmt_witness toy_challenged = Some w /\ tdes_decrypt ToyCard (vc_mgmt_key toy_challenged) enc = w.
Proof.
  apply (keys_need_admin ToyCard 0 toy_challenged (after toy_challenged [(0, toy_auth_apdu)]) toy_auth_apdu
           (sw_bytes 0x90 0x00)); vm_compute; reflexivity.
Defined.

Definition toy_blocked : VirtualCard ToyCard :=
  set_selected_piv true (set_pin_retries 0 (set_puk_retries 0 toy_keyed)).

Lemma factory_reset_effect_witness :
  exists c', transmit 0 toy_blocked (apdu_to_bytes (apdu_new 0x00 Ins.YK_RESET 0x00 0x00))
      = Ok (sw_bytes 0x90 0x00, c') /\
    keys_of c' = (None, None, None, None) /\ vc_slot_policies c' = ∅ /\ vc_slot_origins c' = ∅ /\
    vc_data_objects c' = ∅ /\ vc_mgmt_key c' = DEFAULT_MGMT_KEY /\
    pin_of c' = MkPinState DEFAULT_PIN DEFAULT_PIN_RETRIES false DEFAULT_PUK DEFAULT_PUK_RETRIES /\
    vc_mgmt_authenticated c' = vc_mgmt_authenticated toy_blocked.
Proof. apply (factory_reset_effect ToyCard 0 toy_blocked); reflexivity. Defined.
