(* ===== verification/CardKeys.v ===== *)
(** * CardKeys: the PIN and the keys of the virtual card

    Over any run of commands of [Card], from a card whose PIN is not verified: which VERIFY a key operation rests on, and, under the
    policy "always", what can have come between the two. *)

From Stdlib Require Import ZArith Lia String.
From stdpp Require Import base tactics list numbers gmap.
From S2P Require Import Prelude Apdu CardTlv CardState PinSpec Card CardPin CardSafe.

Local Open Scope Z_scope.

Section Keys.
Context {K : CardCrypto}.
Implicit Type c : VirtualCard K.

(** The VERIFY that the card takes: with its PIN, and tries left. *)
Definition right_verify c (apdu : bytes) : Prop :=
  take 4 apdu = [0x00; 0x20; 0x00; 0x80] /\ apdu_body (E := Empty_set) apdu = Ok (Some (vc_pin c)) /\ vc_pin_retries c <> 0.

(** A GENERAL AUTHENTICATE with a key that was left waiting for a touch. *)
Definition untouched (apdu resp : bytes) : Prop := resp = [0x69; 0x82] /\ exists slot, take 4 apdu = [0x00; 0x87; 0x11; slot].

(** A run of commands in which none is carried out but VERIFYs: every other waits for a touch that does not come, or finds no applet. *)
Inductive undisturbed : VirtualCard K -> list (Z * bytes) -> VirtualCard K -> Prop :=
| undisturbed_none c : undisturbed c [] c
| undisturbed_more now apdu resp cmds c c1 c2 :
    transmit now c apdu = Ok (resp, c1) -> apdu !! 1%nat = Some 0x20 \/ untouched apdu resp \/ applet_there c = false ->
    undisturbed c1 cmds c2 -> undisturbed c ((now, apdu) :: cmds) c2.

Lemma undisturbed_app cmds1 : forall c c1 c2 cmds2, undisturbed c cmds1 c1 -> undisturbed c1 cmds2 c2 -> undisturbed c (cmds1 ++ cmds2) c2.
Proof.
  induction cmds1 as [|[now a] cmds1 IH]; intros c c1 c2 cmds2 H1 H2; inversion H1; subst; [exact H2|].
  eapply undisturbed_more; eauto.
Qed.

(** *** The flag of the policy "always" *)

Definition flags_of c := (vc_pin_verified c, vc_command_since_verify c, vc_touch_blocked c).
Definition same_flags c c' : Prop := flags_of c' = flags_of c.

(** What the flags are after a handler: a verified PIN is one that was verified, with the flag as it was. *)
Definition no_fresher c c' : Prop :=
  vc_touch_blocked c' = vc_touch_blocked c /\ vc_command_since_verify c' = vc_command_since_verify c /\
  (vc_pin_verified c' = true -> vc_pin_verified c = true).

Ltac quiet := intros resp c' H; run_cases; (split; [reflexivity|split; [reflexivity|]]); cbn; congruence.

Lemma install_fresher c c' slot k p o : install_slot_key c slot k p o = Ok c' -> no_fresher c c'.
Proof. unfold install_slot_key. intros H. run_cases; (split; [reflexivity|split; [reflexivity|]]); exact id. Qed.

Lemma verify_fresher c body : gives (handle_verify c body) (fun _ c' =>
  no_fresher c c' \/ (body = Some (vc_pin c) /\ vc_pin_retries c <> 0 /\ vc_touch_blocked c' = vc_touch_blocked c)).
Proof.
  intros resp c' H. unfold handle_verify in H. destruct body as [p|]; [|run_cases; left; split; auto].
  destruct (negb (len p =? 8)); [run_cases; left; split; auto|].
  destruct (vc_pin_retries c =? 0) eqn:Hr; [run_cases; left; split; auto|]. destruct (bytes_eqb p (vc_pin c)) eqn:He.
  - run_cases. right. apply bytes_eqb_true in He as ->. apply Z.eqb_neq in Hr. auto.
  - left. run_cases; (split; [reflexivity|split; [reflexivity|]]); exact id.
Qed.

(** A key operation may be left waiting; then nothing else of it has happened. *)
Definition key_fresher c resp c' : Prop :=
  no_fresher c c' \/ (resp = [0x69; 0x82] /\ vc_pin_verified c' = vc_pin_verified c /\ vc_command_since_verify c' = vc_command_since_verify c).

Lemma gate_fresher now c slot pass c' : pass_touch_gate now c slot = (pass, c') ->
  vc_pin_verified c' = vc_pin_verified c /\ vc_command_since_verify c' = vc_command_since_verify c /\ (pass = true -> vc_touch_blocked c' = vc_touch_blocked c).
Proof. unfold pass_touch_gate. intros H. run_cases; repeat split; discriminate. Qed.

Lemma consume_fresher c c' policy : no_fresher c c' -> no_fresher c (consume_verify c' policy).
Proof. unfold consume_verify. intros (H1 & H2 & H3). case_match; split; auto. split; [exact H2|discriminate]. Qed.

Ltac key_op :=
  intros resp c' H; run_cases; try (left; split; [reflexivity|split; [reflexivity|exact id]]);
  match goal with
  | H : pass_touch_gate _ _ _ = (?b, _), N : negb ?b = true |- _ =>
      apply negb_true_iff in N; subst b; apply gate_fresher in H as (? & ? & _); right; repeat split; assumption
  | H : pass_touch_gate _ _ _ = (?b, _), N : negb ?b = false |- _ =>
      apply negb_false_iff in N; subst b; apply gate_fresher in H as (H1 & H2 & H3); left; apply consume_fresher; split; [auto|split; [assumption|congruence]]
  end.

Lemma sign_fresher now c body slot : gives (sign_ecdsa_slot now c body slot) (key_fresher c).
Proof. unfold sign_ecdsa_slot. key_op. Qed.

Lemma ecdh_fresher now c body : gives (handle_general_authenticate_ecdh_slot_9d now c body) (key_fresher c).
Proof. unfold handle_general_authenticate_ecdh_slot_9d. key_op. Qed.

Lemma handlers_no_fresher c :
  (forall apdu, gives (handle_select c apdu) (fun _ => no_fresher c)) /\
  (forall apdu, gives (handle_get_data c apdu) (fun _ => no_fresher c)) /\
  (forall apdu, gives (handle_put_data c apdu) (fun _ => no_fresher c)) /\
  (forall slot body, gives (handle_generate_asymmetric c slot body) (fun _ => no_fresher c)) /\
  (forall p2 body, gives (handle_change_reference_data c p2 body) (fun _ => no_fresher c)) /\
  (forall body, gives (handle_reset_retry_counter c body) (fun _ => no_fresher c)) /\
  gives (handle_factory_reset c) (fun _ => no_fresher c) /\
  (forall body, gives (handle_general_authenticate_mgmt_key c body) (fun _ => no_fresher c)) /\
  (forall body, gives (handle_set_mgmt_key c body) (fun _ => no_fresher c)) /\
  (forall alg slot body, gives (handle_import_asymmetric c alg slot body) (fun _ => no_fresher c)) /\
  (forall slot, gives (handle_attest c slot) (fun _ => no_fresher c)) /\
  (forall slot, gives (handle_get_metadata c slot) (fun _ => no_fresher c)).
Proof.
  repeat match goal with |- _ /\ _ => split end; intros; intros resp c' H;
    [unfold handle_select in H|unfold handle_get_data in H|unfold handle_put_data in H|unfold handle_generate_asymmetric in H
    |unfold handle_change_reference_data in H|unfold handle_reset_retry_counter in H|unfold handle_factory_reset in H
    |unfold handle_general_authenticate_mgmt_key in H|unfold handle_set_mgmt_key in H|unfold handle_import_asymmetric in H
    |unfold handle_attest in H|unfold handle_get_metadata in H];
    run_cases;
    try match goal with H : install_slot_key _ _ _ _ _ = Ok _ |- _ => apply install_fresher in H; exact H end;
    (split; [reflexivity|split; [reflexivity|]]); cbn; congruence.
Qed.

Lemma fault_fresher c i f c1 : take_fault c i = (f, c1) -> no_fresher c c1 /\ vc_pin c1 = vc_pin c /\ vc_pin_retries c1 = vc_pin_retries c.
Proof. intros H. apply take_fault_same in H as [fs ->]. repeat split. exact id. Qed.

Lemma no_fresher_trans c c1 c2 : no_fresher c c1 -> no_fresher c1 c2 -> no_fresher c c2.
Proof. intros (A1 & A2 & A3) (B1 & B2 & B3). split; [congruence|split; [congruence|auto]]. Qed.

Lemma key_fresher_trans c c1 resp c2 : no_fresher c c1 -> vc_pin_verified c1 = vc_pin_verified c -> key_fresher c1 resp c2 -> key_fresher c resp c2.
Proof. intros H Hv [H2|(H2 & H3 & H4)]; [left; eapply no_fresher_trans; eassumption|]. right. destruct H as (_ & H & _). repeat split; congruence. Qed.

(** What a command leaves of the flags. *)
Definition freshness c (apdu resp : bytes) c' : Prop :=
  no_fresher c c' \/
  (right_verify c apdu /\ vc_touch_blocked c' = vc_touch_blocked c) \/
  (untouched apdu resp /\ vc_pin_verified c' = vc_pin_verified c /\ vc_command_since_verify c' = vc_command_since_verify c).

Lemma dispatch_freshness now c apdu : gives (dispatch_command now c apdu) (fun resp c' => freshness c apdu resp c').
Proof.
  intros resp c' H. unfold dispatch_command in H. assert (Hrefl : no_fresher c c) by (repeat split; auto).
  destruct (len apdu <? 4) eqn:Hlen; [injection H as _ <-; now left|]. apply Z.ltb_ge in Hlen.
  apply res_bind_Ok_inv in H as (cla & Hcla & H). apply res_bind_Ok_inv in H as (ins & Hins & H).
  apply res_bind_Ok_inv in H as (p1 & Hp1 & H). apply res_bind_Ok_inv in H as (p2 & Hp2 & H).
  pose proof (header apdu cla ins p1 p2 Hlen Hcla Hins Hp1 Hp2) as Hh. clear Hcla Hins Hp1 Hp2.
  destruct (take_fault c ins) as [fault c1] eqn:Hf. pose proof (fault_fresher _ _ _ _ Hf) as (F & Fp & Fr).
  assert (Fv : vc_pin_verified c1 = vc_pin_verified c) by (apply take_fault_same in Hf as [fs ->]; reflexivity).
  destruct fault as [fsw|]; [injection H as _ <-; left; exact F|]. pose proof (handlers_no_fresher c1) as (Q1 & Q2 & Q3 & Q4 & Q5 & Q6 & Q7 & Q8 & Q9 & Q10 & Q11 & Q12).
  assert (Hquiet : forall c2, no_fresher c1 c2 -> freshness c apdu resp c2) by (intros c2 H2; left; exact (no_fresher_trans _ _ _ F H2)).
  assert (Hkey : forall c2, take 4 apdu = [0x00; 0x87; 0x11; p2] -> key_fresher c1 resp c2 -> freshness c apdu resp c2).
  { intros c2 Hx Hk. apply (key_fresher_trans _ _ _ _ F Fv) in Hk as [Hk|(Hk & Hk2 & Hk3)]; [now left|]. right. right. split; [split; [exact Hk|eauto]|auto]. }
  repeat match type of H with
  | (if ?b then _ else _) = _ => destruct b eqn:?
  | res_bind (apdu_body _) _ = _ => apply res_bind_Ok_inv in H as (body & Hbody & H)
  end; try (injection H as _ <-; left; exact F); bprop; subst;
    try (apply Hquiet; first [eapply Q1; exact H|eapply Q2; exact H|eapply Q3; exact H|eapply Q4; exact H|eapply Q5; exact H|eapply Q6; exact H|eapply Q7; exact H|eapply Q8; exact H|eapply Q9; exact H|eapply Q10; exact H|eapply Q11; exact H|eapply Q12; exact H]).
  - destruct (piv_serial c1); injection H as _ <-; left; exact F.
  - apply verify_fresher in H as [H|(-> & H & Hb)]; [apply Hquiet; exact H|]. right. left. rewrite <- (proj1 F). split; [|exact Hb].
    split; [exact Hh|]. rewrite <- Fp, <- Fr. auto.
  - apply Hkey; [exact Hh|]. apply res_bind_Ok_inv in H as (m & _ & H). destruct m; [exact (sign_fresher _ _ _ _ _ _ H)|exact (ecdh_fresher _ _ _ _ _ H)].
  - apply Hkey; [exact Hh|]. exact (sign_fresher _ _ _ _ _ _ H).
Qed.

(** A PIN that is fresh after a command: the command verified it, or it was fresh and nothing was carried out. *)
Lemma transmit_fresh now c apdu resp c' :
  transmit now c apdu = Ok (resp, c') -> vc_pin_verified c' = true ->
  right_verify c apdu \/
  (vc_pin_verified c = true /\
   (vc_command_since_verify c' = false -> vc_command_since_verify c = false /\ (apdu !! 1%nat = Some 0x20 \/ untouched apdu resp \/ applet_there c = false))).
Proof.
  unfold transmit, dispatch. cbv zeta.
  change (vc_require_select (set_touch_blocked None c)) with (vc_require_select c). change (vc_selected_piv (set_touch_blocked None c)) with (vc_selected_piv c).
  change (vc_selected_otp (set_touch_blocked None c)) with (vc_selected_otp c).
  match goal with |- context [if ?b then reply _ _ _ else _] => destruct b eqn:Hsel end.
  - intros [= <- <-] Hv. right. split; [exact Hv|]. intros Hs. split; [exact Hs|]. right. right. unfold applet_there. bprop.
    now rewrite H, H1, H2.
  - clear Hsel. intros H Hv. apply res_bind_Ok_inv in H as ([r2 c2] & H2 & H). injection H as <- <-.
    apply res_bind_Ok_inv in H2 as ([r3 c3] & H3 & H2). apply dispatch_freshness in H3. injection H2 as <- <-.
    assert (Hv3 : vc_pin_verified c3 = true) by (revert Hv; case_match; exact id). clear Hv.
    destruct H3 as [(B & S & V)|[[Hr _]|(Hu & V & S)]]; [|left; exact Hr|]; right.
    + split; [exact (V Hv3)|]. change (vc_touch_blocked c3 = None) in B. rewrite B. rewrite (bool_decide_eq_true_2 (None = None)) by reflexivity. rewrite andb_true_r.
      destruct (bool_decide (apdu !! 1%nat = Some Ins.VERIFY)) eqn:Hi; cbn [negb]; [|intros Hx; discriminate Hx]. apply bool_decide_eq_true in Hi.
      intros Hx. split; [|left; exact Hi]. change (vc_command_since_verify c3 = false) in Hx. now rewrite <- Hx, S.
    + split; [rewrite <- Hv3; exact (eq_sym V)|]. intros Hx. split; [|right; left; exact Hu].
      change (vc_command_since_verify c3 = vc_command_since_verify c) in S. rewrite <- S. revert Hx. case_match; [discriminate|exact id].
Qed.

Lemma run_card_app cmds1 : forall c c' cmds2, run_card c (cmds1 ++ cmds2) = Ok c' -> exists c1, run_card c cmds1 = Ok c1 /\ run_card c1 cmds2 = Ok c'.
Proof.
  induction cmds1 as [|[now a] cmds1 IH]; intros c c' cmds2 H; [now exists c|]. cbn [app run_card] in *.
  apply res_bind_Ok_inv in H as ([r c1] & H1 & H). rewrite H1. cbn [res_bind]. now apply IH.
Qed.

Lemma run_card_snoc c now a r c1 c2 cmds : run_card c cmds = Ok c1 -> transmit now c1 a = Ok (r, c2) -> run_card c (cmds ++ [(now, a)]) = Ok c2.
Proof.
  revert c. induction cmds as [|[n b] cmds IH]; intros c; cbn [app run_card].
  - intros [= ->] H. now rewrite H.
  - intros H H2. apply res_bind_Ok_inv in H as ([rb cb] & Hb & H). rewrite Hb. cbn [res_bind]. now apply IH.
Qed.

(** A verified PIN goes back to a VERIFY; a fresh one to a VERIFY with nothing carried out since. *)
Definition rests_on_verify c0 (cmds : list (Z * bytes)) (after_it : VirtualCard K -> list (Z * bytes) -> Prop) : Prop :=
  exists cmds1 now v cmds2 c1 resp c2, cmds = cmds1 ++ (now, v) :: cmds2 /\ run_card c0 cmds1 = Ok c1 /\
    right_verify c1 v /\ transmit now c1 v = Ok (resp, c2) /\ after_it c2 cmds2.

Lemma verified_rests c0 : vc_pin_verified c0 = false -> forall cmds c, run_card c0 cmds = Ok c -> vc_pin_verified c = true ->
  rests_on_verify c0 cmds (fun c2 cmds2 => run_card c2 cmds2 = Ok c) /\
  (vc_command_since_verify c = false -> rests_on_verify c0 cmds (fun c2 cmds2 => undisturbed c2 cmds2 c)).
Proof.
  intros H0. induction cmds as [|[now a] cmds IH] using rev_ind; intros c Hrun Hv; [injection Hrun as ->; congruence|].
  apply run_card_app in Hrun as (c1 & Hrun & H1). cbn [run_card] in H1. apply res_bind_Ok_inv in H1 as ([resp c'] & Ht & H1). injection H1 as ->.
  destruct (transmit_fresh now c1 a resp c Ht Hv) as [Hr|[Hv1 Hs]].
  - split; [|intros _]; exists cmds, now, a, [], c1, resp, c; (split; [reflexivity|]); (split; [exact Hrun|]); (split; [exact Hr|]); (split; [exact Ht|]); constructor.
  - destruct (IH c1 Hrun Hv1) as [(k1 & n & v & k2 & d1 & r & d2 & -> & Hk1 & Hv' & Hd & Hk2) IH2]. split.
    + exists k1, n, v, (k2 ++ [(now, a)]), d1, r, d2. split; [now rewrite <- app_assoc|]. repeat (split; [assumption|]). eapply run_card_snoc; eassumption.
    + intros Hf. destruct (Hs Hf) as [Hf1 Hwhy]. destruct (IH2 Hf1) as (l1 & n' & v' & l2 & e1 & r' & e2 & -> & He1 & Hv2 & He & Hl2).
      exists l1, n', v', (l2 ++ [(now, a)]), e1, r', e2. split; [now rewrite <- app_assoc|]. repeat (split; [assumption|]).
      eapply undisturbed_app; [exact Hl2|]. eapply undisturbed_more; [exact Ht|exact Hwhy|constructor].
Qed.
End Keys.

(** ** Properties *)

(** C5 (safety).  From a card whose PIN is not verified, over any run of
    commands, and with no fault queued at the end of it: a GENERAL AUTHENTICATE
    on a key slot is answered 9000 only if the slot holds a key and, unless the
    slot's policy is "never", the run had a VERIFY with the PIN the card had at
    that moment, and tries left.  Under "always" every command after that
    VERIFY was another VERIFY, or was not carried out, since no touch came or no
    applet was selected; and the verification is spent by the operation. *)
Theorem key_needs_pin K now (c0 c c' : VirtualCard K) cmds apdu slot resp :
  vc_pin_verified c0 = false -> run_card c0 cmds = Ok c ->
  vc_faults c = [] -> slot = 0x9A \/ slot = 0x9C \/ slot = 0x9D \/ slot = 0x9E ->
  take 4 apdu = [0x00; 0x87; 0x11; slot] ->
  transmit now c apdu = Ok (resp, c') -> answered_ok resp ->
  slot_priv c slot <> None /\
  (effective_pin_policy c slot = PIN_NEVER \/ vc_pin_verified c = true /\ rests_on_verify c0 cmds (fun c2 cmds2 => run_card c2 cmds2 = Ok c)) /\
  (effective_pin_policy c slot = PIN_ALWAYS ->
     rests_on_verify c0 cmds (fun c2 cmds2 => undisturbed c2 cmds2 c) /\ vc_pin_verified c' = false).
Proof.
  intros H0 Hrun Hf Hs Hh H Ha.
  destruct (transmit_inv now c apdu resp c' H) as [[-> _]|(c2 & Hd & Hc')];
    [apply answered_sw in Ha; destruct Ha; discriminate|].
  destruct (key_command_allowed now (set_touch_blocked None c) apdu slot resp c2 Hf Hs Hh Hd Ha) as (Hk & Hr & Hdrop).
  change (pin_refused c slot = false) in Hr. change (slot_priv c slot <> None) in Hk.
  change (effective_pin_policy c slot = PIN_ALWAYS -> vc_pin_verified c2 = false) in Hdrop.
  split; [exact Hk|]. unfold pin_refused in Hr. apply orb_false_iff in Hr as [H1 H2]. apply andb_false_iff in H1, H2.
  assert (Hv : effective_pin_policy c slot = PIN_NEVER \/ vc_pin_verified c = true) by (destruct H1 as [H1|H1]; bprop; auto). split.
  - destruct Hv as [Hv|Hv]; [now left|]. right. split; [exact Hv|]. exact (proj1 (verified_rests c0 H0 cmds c Hrun Hv)).
  - intros Hpol. rewrite Hpol in H2, Hv. destruct Hv as [Hv|Hv]; [discriminate Hv|]. split; [|destruct Hc' as [-> | ->]; now apply Hdrop].
    apply (verified_rests c0 H0 cmds c Hrun Hv). destruct H2 as [H2|H2]; [bprop; congruence|exact H2].
Qed.

(** ** Witnesses *)

(** A card with a key in 9C, which is given its PIN. *)
Definition toy_fresh : VirtualCard ToyCard := set_selected_piv true (set_slot_9c_priv (Some card_key) toy_card).
Definition toy_session : list (Z * bytes) := [(0, verify_apdu DEFAULT_PUK); (1, verify_apdu DEFAULT_PIN)].

Lemma key_needs_pin_witness :
  slot_priv (after toy_fresh toy_session) 0x9C <> None /\
  (effective_pin_policy (after toy_fresh toy_session) 0x9C = PIN_ALWAYS ->
     rests_on_verify toy_fresh toy_session (fun c2 cmds2 => undisturbed c2 cmds2 (after toy_fresh toy_session))).
Proof.
  destruct (key_needs_pin ToyCard 2 toy_fresh (after toy_fresh toy_session) (after toy_fresh (toy_session ++ [(2, toy_sign_apdu 0x9C)])) toy_session (toy_sign_apdu 0x9C) 0x9C
           ([0x7C; 0x23; 0x82; 0x21; 0x30] ++ card_key ++ sw_bytes 0x90 0x00)) as (H1 & _ & H2);
    [reflexivity|vm_compute; reflexivity|vm_compute; reflexivity|tauto|reflexivity|vm_compute; reflexivity| |].
  - exists ([0x7C; 0x23; 0x82; 0x21; 0x30] ++ card_key). reflexivity.
  - split; [exact H1|]. intros Hp. now apply H2.
Defined.
