(* ===== verification/HostCard.v ===== *)
(** * HostCard: the host's sessions against the virtual card

    The two halves of the project that meet at the APDU: the session of
    [Session] runs over a link to the card of [Card], as in the in-process
    transport of [piggy-piv/tests/card_ecdh_tests.rs].  The clock of the link
    moves at every command by an arbitrary [tick]. *)

From Stdlib Require Import ZArith Lia String.
From stdpp Require Import base tactics list numbers gmap.
From S2P Require Import Prelude PivError Reader Tlv Apdu CardTlv CardState PinSpec Card CardPin CardSafe.
From S2P Require Import Transport Walk Slot Session.

Local Open Scope Z_scope.

Section Link.
Context {K : CardCrypto} (tick : Z -> Z).
Implicit Type c : VirtualCard K.

Record Link := MkLink { lk_card : VirtualCard K; lk_now : Z }.

(** The in-process transport: [card.lock().unwrap().transmit(command)]. *)
Definition link_transmit (command : bytes) (l : Link) : Link * res PivError bytes :=
  let now := tick (lk_now l) in
  match Card.transmit now (lk_card l) command with
  | Ok (resp, c) => (MkLink c now, Ok resp)
  | Err e => match e with end
  | Panic => (MkLink (lk_card l) now, Panic)
  end.

Definition disposition_code (d : EndDisposition) : Z :=
  match d with LeaveCard => DISPOSITION_LEAVE | ResetCard => DISPOSITION_RESET end.

Definition link_end (d : EndDisposition) (l : Link) : Link * res PivError unit :=
  (MkLink (end_transaction (lk_card l) (disposition_code d)) (lk_now l), Ok tt).

#[export] Instance link_raw : RawApdu Link := link_transmit.

#[export] Instance link_transport : ApduTransport Link := {|
  ap_session := Link;
  begin_transaction l := inl l;
  session_end := link_end;
  session_drop l := l;
|}.

Implicit Type s : PinSession Link.

Definition card_of s : VirtualCard K := lk_card (ps_session s).

Definition session_at c (now : Z) (verified : bool) : PinSession Link :=
  @MkSession Link link_transport (MkLink c now) verified.

(** ** The operations a session offers *)

Inductive SessionOp : Type :=
| OpVerify (pin : bytes)
| OpRetries
| OpReadSlot (slot : Z)
| OpSign (slot : PivSlot) (d : bytes)
| OpSignWithAlg (slot alg : Z) (d : bytes)
| OpEcdh (slot : PivSlot) (point : bytes)
| OpAttestedPolicy (slot : Z)
| OpAuthenticate (key : bytes) (key_alg : Z)
| OpGenerate (slot alg : Z) (pin touch : option Z)
| OpImport (slot alg : Z) (scalar : bytes)
| OpChangePin (old new : bytes)
| OpChangePuk (old new : bytes)
| OpResetPin (puk new : bytes)
| OpSetManagementKey (key : bytes)
| OpPutData (tag : Z) (value : bytes)
| OpWriteChuid (guid : bytes)
| OpPutCert (slot : Z) (cert : bytes)
| OpClearCert (slot : Z)
| OpWriteKeyHistory (oncard offcard : Z) (url : option bytes).

Context (fuel : nat) (L : CertLib) (des : bytes -> bytes -> bytes).

Definition ignore {E S A} (m : IO E S A) : IO E S unit := do! _ := m in io_ret tt.

Definition run_op (op : SessionOp) : IO PivError (PinSession Link) unit :=
  match op with
  | OpVerify pin => verify_pin fuel pin
  | OpRetries => ignore (pin_retries_remaining fuel)
  | OpReadSlot slot => ignore (read_slot_on fuel L slot)
  | OpSign slot d => ignore (sign_prehash fuel slot d)
  | OpSignWithAlg slot alg d => ignore (sign_prehash_with_alg fuel slot alg d)
  | OpEcdh slot point => ignore (ecdh_derive fuel slot point)
  | OpAttestedPolicy slot => ignore (attested_policy fuel slot)
  | OpAuthenticate key alg => authenticate_admin fuel des key alg
  | OpGenerate slot alg p t => ignore (generate_key fuel slot alg p t)
  | OpImport slot alg scalar => import_ec_key fuel slot alg scalar
  | OpChangePin old new => change_pin fuel old new
  | OpChangePuk old new => change_puk fuel old new
  | OpResetPin puk new => reset_pin fuel puk new
  | OpSetManagementKey key => set_management_key_3des fuel key
  | OpPutData tag value => put_data fuel tag value
  | OpWriteChuid guid => write_chuid fuel guid
  | OpPutCert slot cert => put_cert fuel slot cert
  | OpClearCert slot => clear_cert fuel slot
  | OpWriteKeyHistory on off url => write_keyhistory fuel on off url
  end.

(** A use of the session: operations that succeed or fail, and go on. *)
Fixpoint run_ops (ops : list SessionOp) : IO PivError (PinSession Link) unit :=
  match ops with
  | [] => io_ret tt
  | op :: ops => do! _ := io_try (F := PivError) (run_op op) in run_ops ops
  end.

(** ** The PIN's verification is known to the session *)

(** A verified card is one the session verified. *)
Definition accounted s : Prop := vc_pin_verified (card_of s) = true -> ps_pin_verified s = true.

Definition VERIFY_HEADER : bytes := [0x00; Ins.VERIFY; 0x00; 0x80].

(** The command cannot verify the PIN. *)
Definition quiet_cmd (apdu : bytes) : Prop :=
  take 4 apdu <> VERIFY_HEADER \/ apdu_body (E := Empty_set) apdu = Ok None.

Lemma quiet_transmit now c apdu resp c' :
  quiet_cmd apdu -> Card.transmit now c apdu = Ok (resp, c') ->
  vc_pin_verified c' = true -> vc_pin_verified c = true.
Proof.
  intros Hq Ht Hv. destruct (transmit_pin now c apdu resp c' Ht) as (e & He & _ & Hp).
  change (vc_pin_verified c') with (ps_verified (pin_of c')) in Hv. rewrite Hp in Hv.
  change (vc_pin_verified c) with (ps_verified (pin_of c)). destruct e; simpl in Hv.
  - exact Hv.
  - discriminate.
  - destruct He as [Hh Hb]. destruct Hq as [Hq|Hq]; [now destruct Hq|congruence].
  - unfold try_pin in Hv. repeat case_match; exact Hv.
  - unfold try_puk in Hv. repeat case_match; exact Hv.
  - unfold try_puk in Hv. repeat case_match; simpl in *; congruence.
  - case_match; [discriminate|exact Hv].
Qed.

(** A command that verifies the PIN is answered 9000. *)
Lemma verifying_transmit now c apdu resp c' :
  Card.transmit now c apdu = Ok (resp, c') -> vc_pin_verified c = false -> vc_pin_verified c' = true ->
  resp = sw_bytes 0x90 0x00.
Proof.
  intros Ht Hv0 Hv.
  destruct (decide (take 4 apdu = VERIFY_HEADER)) as [Hh|Hh];
    [|rewrite (quiet_transmit now c apdu resp c' (or_introl Hh) Ht Hv) in Hv0; discriminate].
  destruct (transmit_inv now c apdu resp c' Ht) as [[_ ->]|(c2 & Hd & Hc')].
  { change (vc_pin_verified c = true) in Hv. congruence. }
  assert (Hv2 : vc_pin_verified c2 = true) by (destruct Hc' as [-> | ->]; exact Hv). clear Hc' Hv.
  destruct (header_index _ _ _ _ _ Hh) as (Hl & H0 & H1 & H2 & H3).
  unfold dispatch_command in Hd. rewrite H0, H1, H2, H3 in Hd. cbn [res_bind] in Hd.
  replace (len apdu <? 4) with false in Hd by (symmetry; now apply Z.ltb_ge).
  destruct (take_fault _ _) as [f c1] eqn:Hf. apply take_fault_same in Hf as [fs ->].
  assert (Hnv : vc_pin_verified (set_faults fs (set_touch_blocked None c)) = false) by exact Hv0.
  destruct f as [fsw|]; [injection Hd as _ <-; congruence|].
  cbn [Z.eqb Pos.eqb andb negb orb] in Hd. rewrite ?andb_false_r in Hd.
  assert (Hb : exists body, handle_verify (set_faults fs (set_touch_blocked None c)) body = Ok (resp, c2)).
  { repeat match type of Hd with
    | (if ?b then _ else _) = _ => replace b with false in Hd by (try destruct (vc_selected_otp c); reflexivity)
    | (if true then _ else _) = _ => cbv iota in Hd
    end.
    apply res_bind_Ok_inv in Hd as (body & _ & Hd). eauto. }
  destruct Hb as [body Hb]. unfold handle_verify in Hb. rewrite Hnv in Hb.
  run_cases; simpl in *; congruence.
Qed.

Lemma quiet_apdu a : ins a <> Ins.VERIFY \/ data a = [] -> quiet_cmd (apdu_to_bytes a).
Proof.
  intros [H|H]; [left|right; now apply apdu_body_no_data].
  rewrite apdu_to_bytes_header. unfold VERIFY_HEADER. congruence.
Qed.

(** A session's exchange is the card's. *)
Lemma raw_session_eq cmd s :
  raw cmd s =
  let now := tick (lk_now (ps_session s)) in
  match Card.transmit now (card_of s) cmd with
  | Ok (resp, c) => Some (session_at c now (ps_pin_verified s), Ok resp)
  | Err e => match e with end
  | Panic => Some (session_at (card_of s) now (ps_pin_verified s), Panic)
  end.
Proof.
  cbv zeta. transitivity (Some (let (l, r) := link_transmit cmd (ps_session s) in (@MkSession Link link_transport l (ps_pin_verified s), r))).
  - unfold raw. change (transmit_raw cmd s) with (let (l, r) := link_transmit cmd (ps_session s) in (@MkSession Link link_transport l (ps_pin_verified s), r)).
    now destruct (link_transmit cmd (ps_session s)).
  - unfold link_transmit. cbv zeta. change (lk_card (ps_session s)) with (card_of s).
    now destruct (Card.transmit _ _ _) as [[resp c]|[]|].
Qed.

Lemma raw_session cmd s s' r :
  raw cmd s = Some (s', r) -> ps_pin_verified s' = ps_pin_verified s /\
  (card_of s' = card_of s \/ exists resp, r = Ok resp /\ Card.transmit (tick (lk_now (ps_session s))) (card_of s) cmd = Ok (resp, card_of s')).
Proof.
  rewrite raw_session_eq. cbv zeta. destruct (Card.transmit _ _ _) as [[resp c]|[]|] eqn:Ht; intros [= <- <-]; simpl; eauto.
Qed.

Lemma keeps_raw_quiet cmd : quiet_cmd cmd -> keeps accounted (raw cmd).
Proof.
  intros Hq s Hs s' r Hr. destruct (raw_session cmd s s' r Hr) as [Hf [Hc|(resp & _ & Ht)]]; unfold accounted in *.
  - now rewrite Hc, Hf.
  - intros Hv. rewrite Hf. apply Hs. exact (quiet_transmit _ _ _ _ _ Hq Ht Hv).
Qed.

Lemma keeps_quiet a : ins a <> Ins.VERIFY \/ data a = [] -> keeps accounted (Session.transmit fuel a).
Proof.
  intros Ha. apply keeps_transmit; [now apply keeps_raw_quiet, quiet_apdu|].
  intros sw. apply keeps_raw_quiet, quiet_apdu. now left.
Qed.

Lemma keeps_command a : ins a <> Ins.VERIFY \/ data a = [] -> keeps accounted (command fuel a).
Proof.
  intros Ha. apply keeps_bind; [now apply keeps_quiet|]. intros [d sw].
  apply keeps_bind; [apply keeps_lift|]. intros _. apply keeps_ret.
Qed.

Lemma keeps_chain full sw : keeps accounted (get_response_chain fuel full sw).
Proof.
  clear. revert full sw. induction fuel as [|k IH]; intros full sw; [now intros s _ s' r|].
  simpl. case_match; [|apply keeps_ret].
  apply keeps_bind; [apply keeps_raw_quiet, quiet_apdu; now left|]. intros resp. case_match; [apply keeps_err|].
  apply keeps_bind; [apply keeps_lift|]. intros [more w']. apply IH.
Qed.

(** What [verify_pin] does behind the card's first answer. *)
Lemma keeps_tail resp :
  keeps accounted
    (io_bind
       (if len resp <? 2 then io_err (PivOther ResponseTooShort)
        else do! (d, sw) := io_lift (split_sw resp) in
             if has_more_data sw then get_response_chain fuel d sw else io_ret (d, sw))
       (fun '(_, sw) =>
          if is_success sw then io_modify set_pin_verified
          else if is_pin_incorrect sw then io_err (PinIncorrect (default 0 (sw_pin_retries_remaining sw)))
          else if as_u16 sw =? 0x6983 then io_err PinBlocked
          else io_err (PivApdu (as_u16 sw)))).
Proof.
  apply keeps_bind.
  - case_match; [apply keeps_err|]. apply keeps_bind; [apply keeps_lift|]. intros [d sw].
    case_match; [apply keeps_chain|apply keeps_ret].
  - intros [d sw]. repeat (case_match; try apply keeps_err). apply keeps_modify. now intros s Hs _.
Qed.

(** VERIFY: when the card becomes verified, it says so, and the session notes it. *)
Lemma keeps_verify pin : keeps accounted (Session.verify_pin fuel pin).
Proof.
  unfold Session.verify_pin. case_match; [apply keeps_err|]. apply keeps_built. intros a _.
  intros s Hs s' r Hr. unfold Session.transmit, transmit_on in Hr. rewrite io_bind_assoc in Hr.
  unfold io_bind at 1 in Hr. destruct (raw (apdu_to_bytes a) s) as [[s1 o]|] eqn:Hraw; [|discriminate].
  destruct (raw_session _ _ _ _ Hraw) as [Hf Hc].
  assert (Hcase : accounted s1 \/ o = Ok (sw_bytes 0x90 0x00)).
  { destruct (vc_pin_verified (card_of s)) eqn:Hv0; [left; intros _; rewrite Hf; now apply Hs|].
    destruct (vc_pin_verified (card_of s1)) eqn:Hv1; [|left; unfold accounted; congruence].
    destruct Hc as [Hc|(resp & -> & Ht)]; [congruence|]. right.
    now rewrite (verifying_transmit _ _ _ _ _ Ht Hv0 Hv1). }
  destruct Hcase as [H1| ->]; [|injection Hr as <- _; now intros _].
  destruct o as [resp|e|]; [|now injection Hr as <- _|now injection Hr as <- _].
  revert Hr. apply (keeps_tail resp s1 H1 s' r).
Qed.

(** ** Every operation *)

Lemma built_ins {A} (c : res PivError A) (P : A -> Prop) : yields c P -> forall a, c = Ok a -> P a.
Proof. intros H a ->. exact H. Qed.

Ltac built :=
  let a := fresh "a" in let Ha := fresh "Ha" in
  intros a Ha; repeat match type of Ha with
  | res_bind ?c _ = Ok _ => apply res_bind_Ok_inv in Ha as (? & _ & Ha)
  | (if ?b then _ else _) = Ok _ => destruct b
  | Err _ = Ok _ => discriminate Ha
  | Ok _ = Ok _ => injection Ha as <-
  end.

(** Every step of an operation other than VERIFY. *)
Ltac keeps_tac :=
  repeat match goal with
  | |- keeps _ (io_bind (io_lift _) _) => apply keeps_built; built
  | |- keeps _ (io_bind _ _) => apply keeps_bind; [|intros]
  | |- keeps _ (Session.transmit _ _) => apply keeps_quiet; first [left; discriminate | right; reflexivity]
  | |- keeps _ (command _ _) => apply keeps_command; left; discriminate
  | |- keeps _ (let '(_, _) := ?x in _) => destruct x
  | |- keeps _ (if _ then _ else _) => case_match
  | |- keeps _ (io_try _) => apply keeps_try
  | |- _ => solve [auto with keeps]
  end.

Lemma run_op_keeps op : keeps accounted (run_op op).
Proof.
  destruct op; cbn [run_op]; unfold ignore, pin_retries_remaining, read_slot_on, sign_prehash, sign_prehash_with_alg,
    ecdh_derive, general_authenticate, attested_policy, authenticate_admin, generate_key, import_ec_key,
    Session.change_pin, change_puk, change_reference_data, reset_pin, reference_command, set_management_key_3des,
    write_chuid, put_cert, clear_cert, write_keyhistory, put_data, apdu_get_data, apdu_put_data, apdu_generate_asym,
    change_reference_data_apdu, reset_retry_counter_apdu, set_management_key_apdu;
    try exact (keeps_verify _); keeps_tac.
Qed.

Lemma run_ops_keep ops : keeps accounted (run_ops ops).
Proof.
  induction ops as [|op ops IH]; [apply keeps_ret|]. cbn [run_ops].
  apply keeps_bind; [apply keeps_try, run_op_keeps|]. now intros _.
Qed.

(** ** One exchange with a card that has no fault queued *)

Definition applet_ok c : Prop := vc_faults c = [] /\ vc_selected_piv c = true.

(** The bookkeeping of [dispatch] and [transmit] around a command. *)
Definition settle (i : Z) c : VirtualCard K :=
  set_touch_blocked None
    (if negb (i =? Ins.VERIFY) && bool_decide (vc_touch_blocked c = None) then set_command_since_verify true c else c).

Lemma transmit_dispatch now c apdu a i p q :
  applet_ok c -> take 4 apdu = [a; i; p; q] ->
  Card.transmit now c apdu
  = let* (r, c2) := dispatch_command now (set_touch_blocked None c) apdu in Ok (r, settle i c2).
Proof.
  intros [_ Hs] Hh. assert (Hi : apdu !! 1%nat = Some i).
  { rewrite <- (lookup_take_lt apdu 4 1) by lia. now rewrite Hh. }
  unfold Card.transmit, dispatch. cbv zeta. rewrite Hi. change (vc_selected_piv (set_touch_blocked None c)) with (vc_selected_piv c).
  rewrite Hs, andb_false_r. cbn [andb]. destruct (dispatch_command _ _ _) as [[r c2]|e|]; [|destruct e|reflexivity].
  cbn [res_bind]. unfold settle. do 4 f_equal. destruct (Z.eqb_spec i Ins.VERIFY) as [->|Hn].
  - now rewrite bool_decide_true by reflexivity.
  - now rewrite (bool_decide_false (Some i = _)) by congruence.
Qed.

(** Read a command's header, and follow the interpreter's tests on it. *)
Lemma dispatch_header c apdu a i p q :
  vc_faults c = [] -> take 4 apdu = [a; i; p; q] ->
  (len apdu <? 4) = false /\ index (E := Empty_set) apdu 0 = Ok a /\ index (E := Empty_set) apdu 1 = Ok i /\
  index (E := Empty_set) apdu 2 = Ok p /\ index (E := Empty_set) apdu 3 = Ok q /\ take_fault c i = (None, c).
Proof.
  intros Hf Hh. destruct (header_index _ _ _ _ _ Hh) as (Hl & H0 & H1 & H2 & H3).
  split; [now apply Z.ltb_ge|]. repeat split; try assumption. unfold take_fault. now rewrite Hf.
Qed.

Ltac follow_header Hf Hh :=
  let Hl := fresh in let H0 := fresh in let H1 := fresh in let H2 := fresh in let H3 := fresh in let Ht := fresh in
  match type of Hf with vc_faults ?c = [] =>
    destruct (dispatch_header c _ _ _ _ _ Hf Hh) as (Hl & H0 & H1 & H2 & H3 & Ht);
    unfold dispatch_command; rewrite Hl, H0, H1, H2, H3; cbn [res_bind]; rewrite Ht;
    repeat match goal with
    | |- (if ?b then _ else _) = _ =>
        first [ replace b with false by (try destruct (vc_selected_otp _); reflexivity)
              | replace b with true by (try destruct (vc_selected_otp _); reflexivity) ]; cbv iota
    end
  end.

Lemma dispatch_verify now c apdu body :
  vc_faults c = [] -> take 4 apdu = VERIFY_HEADER -> apdu_body (E := Empty_set) apdu = Ok body ->
  dispatch_command now c apdu = handle_verify c body.
Proof. intros Hf Hh Hb. follow_header Hf Hh. now rewrite Hb. Qed.

Lemma dispatch_select now c apdu :
  vc_faults c = [] -> take 4 apdu = [0x00; Ins.SELECT; 0x04; 0x00] -> dispatch_command now c apdu = handle_select c apdu.
Proof. intros Hf Hh. now follow_header Hf Hh. Qed.

Lemma dispatch_get_data now c apdu :
  vc_faults c = [] -> take 4 apdu = [0x00; Ins.GET_DATA; 0x3F; 0xFF] -> dispatch_command now c apdu = handle_get_data c apdu.
Proof. intros Hf Hh. now follow_header Hf Hh. Qed.

Lemma dispatch_put_data now c apdu :
  vc_faults c = [] -> take 4 apdu = [0x00; Ins.PUT_DATA; 0x3F; 0xFF] -> dispatch_command now c apdu = handle_put_data c apdu.
Proof. intros Hf Hh. now follow_header Hf Hh. Qed.

Lemma dispatch_mgmt now c apdu body :
  vc_faults c = [] -> take 4 apdu = [0x00; Ins.GEN_AUTH; 0x03; 0x9B] -> apdu_body (E := Empty_set) apdu = Ok body ->
  dispatch_command now c apdu = handle_general_authenticate_mgmt_key c body.
Proof. intros Hf Hh Hb. follow_header Hf Hh. now rewrite Hb. Qed.

Lemma dispatch_agree now c apdu body :
  vc_faults c = [] -> take 4 apdu = [0x00; Ins.GEN_AUTH; 0x11; 0x9D] -> apdu_body (E := Empty_set) apdu = Ok (Some body) ->
  parse_ga_sign_request body = Err tt ->
  dispatch_command now c apdu = handle_general_authenticate_ecdh_slot_9d now c (Some body).
Proof. intros Hf Hh Hb Hs. follow_header Hf Hh. rewrite Hb. cbn [res_bind]. now rewrite Hs. Qed.

Lemma dispatch_change now c apdu p2 body :
  vc_faults c = [] -> p2 = 0x80 \/ p2 = 0x81 -> take 4 apdu = [0x00; Ins.CHANGE_PIN; 0x00; p2] -> apdu_body (E := Empty_set) apdu = Ok body ->
  dispatch_command now c apdu = handle_change_reference_data c p2 body.
Proof. intros Hf [-> | ->] Hh Hb; follow_header Hf Hh; now rewrite Hb. Qed.

Lemma dispatch_set_mgmt now c apdu body :
  vc_faults c = [] -> take 4 apdu = [0x00; Ins.SET_MGMT_KEY; 0xFF; 0xFF] -> apdu_body (E := Empty_set) apdu = Ok body ->
  dispatch_command now c apdu = handle_set_mgmt_key c body.
Proof. intros Hf Hh Hb. follow_header Hf Hh. now rewrite Hb. Qed.

(** A command whose answer does not ask for GET RESPONSE. *)
Lemma exchange s a d x y c' :
  Card.transmit (tick (lk_now (ps_session s))) (card_of s) (apdu_to_bytes a) = Ok (d ++ sw_bytes x y, c') ->
  x <> 0x61 ->
  Session.transmit fuel a s
  = Some (session_at c' (tick (lk_now (ps_session s))) (ps_pin_verified s), Ok (d, MkSw x y)).
Proof.
  intros Ht Hx. apply transmit_single; [|exact (proj2 (Z.eqb_neq x 0x61) Hx)].
  rewrite raw_session_eq. cbv zeta. rewrite Ht. reflexivity.
Qed.

(** ** VERIFY *)

Definition pin_block (pin : bytes) : bytes := pin ++ repeat 0xFF (Z.to_nat (8 - len pin)).

Lemma len_pin_block pin : len pin <= 8 -> len (pin_block pin) = 8.
Proof.
  intros H. unfold pin_block. rewrite len_app. unfold len at 2. rewrite repeat_length.
  pose proof (len_nonneg pin). lia.
Qed.

(** What the host is told of a VERIFY. *)
Definition verify_outcome (p : PinState) (block : bytes) : res PivError unit :=
  if ps_retries p =? 0 then Err PinBlocked
  else if bytes_eqb block (ps_pin p) then Ok tt
  else if ps_retries p =? 1 then Err PinBlocked
  else Err (PinIncorrect (ps_retries p - 1)).

Lemma verify_apdu_spec pin :
  len pin <= 8 -> apdu_verify_pin pin = Ok (MkApdu 0x00 Ins.VERIFY 0x00 0x80 (pin_block pin) None).
Proof. intros H. unfold apdu_verify_pin. now rewrite (proj2 (Z.leb_le (len pin) 8) H). Qed.

Lemma body_of a : data a <> [] -> len (data a) < 65536 -> apdu_body (E := Empty_set) (apdu_to_bytes a) = Ok (Some (data a)).
Proof. apply apdu_body_data. Qed.

Lemma pin_block_nonempty pin : len pin <= 8 -> pin_block pin <> [].
Proof. intros H Hn. apply len_pin_block in H. rewrite Hn in H. discriminate. Qed.

(** The card's answer to VERIFY, as a status word. *)
Definition verify_sw (p : PinState) (block : bytes) : StatusWord :=
  if ps_retries p =? 0 then MkSw 0x69 0x83
  else if bytes_eqb block (ps_pin p) then MkSw 0x90 0x00
  else if ps_retries p =? 1 then MkSw 0x69 0x83
  else MkSw 0x63 (Z.lor 0xC0 (ps_retries p - 1)).

Lemma handle_verify_spec c block :
  len block = 8 -> pin_state_ok (pin_of c) ->
  exists c', handle_verify c (Some block) = Ok (sw_bytes (sw1 (verify_sw (pin_of c) block)) (sw2 (verify_sw (pin_of c) block)), c') /\
    pin_of c' = pin_step (pin_of c) (EvVerify block) /\ vc_faults c' = vc_faults c /\ vc_selected_piv c' = vc_selected_piv c.
Proof.
  intros Hl (Hr & _). unfold handle_verify, verify_sw, pin_step, try_pin.
  rewrite Hl. change (negb (8 =? 8)) with false. cbv iota.
  change (ps_retries (pin_of c)) with (vc_pin_retries c) in *. change (ps_pin (pin_of c)) with (vc_pin c).
  destruct (vc_pin_retries c =? 0) eqn:H0; [eexists; repeat split|].
  destruct (bytes_eqb block (vc_pin c)); [eexists; repeat split|]. bprop.
  rewrite usub_Ok by lia. cbn [res_bind]. change (vc_pin_retries (set_pin_retries ?v c)) with v.
  replace (vc_pin_retries c - 1 =? 0) with (vc_pin_retries c =? 1) by (destruct (Z.eqb_spec (vc_pin_retries c) 1); symmetry; [apply Z.eqb_eq|apply Z.eqb_neq]; lia).
  destruct (vc_pin_retries c =? 1); eexists; repeat split.
Qed.

(** What the host makes of those status words. *)
Lemma verify_sw_outcome p block s :
  pin_state_ok p ->
  has_more_data (verify_sw p block) = false /\
  (if is_success (verify_sw p block) then io_modify set_pin_verified
   else if is_pin_incorrect (verify_sw p block) then
     io_err (PinIncorrect (default 0 (sw_pin_retries_remaining (verify_sw p block))))
   else if as_u16 (verify_sw p block) =? 0x6983 then io_err PinBlocked
   else io_err (PivApdu (as_u16 (verify_sw p block)))) s
  = Some (if is_ok (verify_outcome p block) then set_pin_verified s else s, verify_outcome p block).
Proof.
  intros (Hr & _). unfold verify_sw, verify_outcome. destruct (ps_retries p =? 0) eqn:H0; [split; reflexivity|].
  destruct (bytes_eqb block (ps_pin p)); [split; reflexivity|].
  destruct (ps_retries p =? 1) eqn:H1; [split; reflexivity|]. bprop. split; [reflexivity|].
  assert (Hc : ps_retries p = 2 \/ ps_retries p = 3) by lia. destruct Hc as [-> | ->]; reflexivity.
Qed.

Definition pin_apdu (pin : bytes) : Apdu := MkApdu 0x00 Ins.VERIFY 0x00 0x80 (pin_block pin) None.

(** The card answers a VERIFY with the abstract machine's step. *)
Lemma verify_transmit now c pin :
  applet_ok c -> pin_state_ok (pin_of c) -> len pin <= 8 ->
  exists c', Card.transmit now c (apdu_to_bytes (pin_apdu pin))
             = Ok (sw_bytes (sw1 (verify_sw (pin_of c) (pin_block pin))) (sw2 (verify_sw (pin_of c) (pin_block pin))), c') /\
    pin_of c' = pin_step (pin_of c) (EvVerify (pin_block pin)) /\ applet_ok c'.
Proof.
  intros Ha Hp Hl. pose proof (len_pin_block pin Hl) as Hb.
  assert (Hh : take 4 (apdu_to_bytes (pin_apdu pin)) = VERIFY_HEADER) by apply apdu_to_bytes_header.
  assert (Hbody : apdu_body (E := Empty_set) (apdu_to_bytes (pin_apdu pin)) = Ok (Some (pin_block pin))).
  { apply (body_of (pin_apdu pin)); [exact (pin_block_nonempty pin Hl)|]. simpl. rewrite Hb. lia. }
  destruct (handle_verify_spec (set_touch_blocked None c) (pin_block pin) Hb Hp) as (c2 & Hv & Hp2 & Hf2 & Hs2).
  change (pin_of (set_touch_blocked None c)) with (pin_of c) in Hv, Hp2. exists (settle Ins.VERIFY c2).
  split; [|split; [exact Hp2|exact (conj (eq_trans Hf2 (proj1 Ha)) (eq_trans Hs2 (proj2 Ha)))]].
  assert (Hf : vc_faults (set_touch_blocked None c) = []) by exact (proj1 Ha).
  rewrite (transmit_dispatch now c _ _ _ _ _ Ha Hh), (dispatch_verify now _ _ _ Hf Hh Hbody).
  rewrite Hv. cbn [res_bind]. reflexivity.
Qed.

(** VERIFY against the card. *)
Lemma verify_run s pin :
  applet_ok (card_of s) -> pin_state_ok (pin_of (card_of s)) -> len pin <= 8 ->
  exists s', Session.verify_pin fuel pin s = Some (s', verify_outcome (pin_of (card_of s)) (pin_block pin)) /\
    pin_of (card_of s') = pin_step (pin_of (card_of s)) (EvVerify (pin_block pin)) /\ applet_ok (card_of s') /\
    (is_ok (verify_outcome (pin_of (card_of s)) (pin_block pin)) = true -> ps_pin_verified s' = true).
Proof.
  intros Ha Hp Hl.
  destruct (verify_transmit (tick (lk_now (ps_session s))) (card_of s) pin Ha Hp Hl) as (c' & Ht & Hp2 & Ha').
  destruct (verify_sw_outcome (pin_of (card_of s)) (pin_block pin)
              (session_at c' (tick (lk_now (ps_session s))) (ps_pin_verified s)) Hp) as [Hm Ho].
  revert Ht Hm Ho. generalize (verify_sw (pin_of (card_of s)) (pin_block pin)). intros [x y] Ht Hm Ho.
  eexists. split; [|split; [|split]].
  - unfold Session.verify_pin. rewrite (proj2 (Z.ltb_ge 8 (len pin)) Hl), (verify_apdu_spec pin Hl).
    fold (pin_apdu pin). unfold io_bind at 1, io_lift. unfold io_bind.
    rewrite (exchange s (pin_apdu pin) [] x y c' Ht); [exact Ho|].
    intros ->. discriminate Hm.
  - destruct (is_ok _); exact Hp2.
  - destruct (is_ok _); exact Ha'.
  - now intros ->.
Qed.

(** ** Beginning a session *)

Definition select_apdu : Apdu := apdu_select PIV_AID.

Definition selected c : VirtualCard K := settle Ins.SELECT (set_selected_otp false (set_selected_piv true (set_touch_blocked None c))).

Lemma select_transmit now c :
  vc_faults c = [] ->
  Card.transmit now c (apdu_to_bytes select_apdu) = Ok (select_fci_bytes (vc_model c) ++ sw_bytes 0x90 0x00, selected c).
Proof.
  intros Hf. assert (Hh : take 4 (apdu_to_bytes select_apdu) = [0x00; Ins.SELECT; 0x04; 0x00]) by reflexivity.
  unfold Card.transmit, dispatch. cbv zeta. change (apdu_to_bytes select_apdu !! 1%nat) with (Some Ins.SELECT).
  change (negb (Ins.SELECT =? Ins.SELECT)) with false. rewrite andb_false_r.
  rewrite dispatch_select by (exact Hf || exact Hh). unfold handle_select.
  rewrite (body_of select_apdu) by (discriminate || reflexivity). cbn [res_bind default].
  change (starts_with (data select_apdu) PIV_AID_PREFIX) with true. cbv iota. cbn [res_bind].
  unfold selected, settle. change (negb (Ins.SELECT =? Ins.VERIFY)) with true.
  now rewrite (bool_decide_false (Some Ins.SELECT = Some Ins.VERIFY)) by discriminate.
Qed.

(** A session on a card without faults begins, with the applet selected and
    nothing else of the card changed. *)
Lemma begin_run (l : Link) :
  vc_faults (lk_card l) = [] ->
  begin_pin_session fuel l
  = Some (inl (session_at (selected (lk_card l)) (tick (lk_now l)) false)).
Proof.
  intros Hf. unfold begin_pin_session. cbn [begin_transaction link_transport].
  pose proof (select_transmit (tick (lk_now l)) (lk_card l) Hf) as Ht.
  assert (Hrun : transmit_on (T := Link) fuel (apdu_select PIV_AID) l
                 = Some (MkLink (selected (lk_card l)) (tick (lk_now l)),
                         Ok (select_fci_bytes (vc_model (lk_card l)), MkSw 0x90 0x00))).
  { apply transmit_single; [|reflexivity]. unfold raw. change (transmit_raw ?cmd l) with (link_transmit cmd l).
    unfold link_transmit. cbv zeta. fold select_apdu. now rewrite Ht. }
  change (@transmit_on (ap_session Link) (@session_raw Link link_transport)) with (@transmit_on Link link_raw).
  rewrite Hrun. reflexivity.
Qed.

Lemma begin_keeps (l : Link) :
  vc_pin_verified (lk_card l) = false ->
  match begin_pin_session fuel l with
  | Some (inl s) => accounted s
  | Some (inr (l', _)) => vc_pin_verified (lk_card l') = false
  | None => True
  end.
Proof.
  intros Hv. unfold begin_pin_session. cbn [begin_transaction link_transport].
  assert (Hk : keeps (fun l : Link => vc_pin_verified (lk_card l) = false) (transmit_on fuel (apdu_select PIV_AID))).
  { assert (Hq : forall a, ins a <> Ins.VERIFY ->
               keeps (fun l : Link => vc_pin_verified (lk_card l) = false) (raw (apdu_to_bytes a))).
    { intros a Ha l0 H0 l1 r Hr. unfold raw in Hr. change (transmit_raw ?cmd l0) with (link_transmit cmd l0) in Hr.
      unfold link_transmit in Hr. cbv zeta in Hr.
      destruct (Card.transmit _ _ _) as [[resp c]|[]|] eqn:Ht; injection Hr as <- _; simpl; [|exact H0].
      destruct (vc_pin_verified c) eqn:Hc; [|reflexivity].
      rewrite (quiet_transmit _ _ _ _ _ (quiet_apdu a (or_introl Ha)) Ht Hc) in H0. discriminate. }
    apply keeps_transmit; [apply Hq; discriminate|intros sw; apply Hq; discriminate]. }
  change (@transmit_on (ap_session Link) (@session_raw Link link_transport)) with (@transmit_on Link link_raw).
  destruct (transmit_on fuel (apdu_select PIV_AID) l) as [[l1 [[d sw]|e|]]|] eqn:Hr; try exact (Hk l Hv l1 _ Hr); [|exact Logic.I].
  pose proof (Hk l Hv l1 _ Hr) as H1. cbn beta in H1. destruct (negb (is_success sw)); [exact H1|].
  intros Hc. unfold card_of in Hc. simpl in Hc. congruence.
Qed.

(** The end of a session. *)
Lemma end_forgets s :
  accounted s -> vc_pin_verified (lk_card (end_session s).1) = false.
Proof.
  intros Ha. unfold end_session, disposition. cbn [session_end link_transport]. unfold link_end. simpl.
  destruct (ps_pin_verified s) eqn:Hf; [reflexivity|].
  unfold end_transaction. simpl. destruct (vc_pin_verified (lk_card (ps_session s))) eqn:Hv; [|reflexivity].
  rewrite (Ha Hv) in Hf. discriminate.
Qed.
End Link.

(** ** Properties *)

(** C4 (invariant).  No PIN verification outlives a session: on a card that was
    not verified, whatever operations the session runs and however they turn
    out, the card is not verified once the session has ended or was dropped;
    and it is not when the session could not begin. *)
Theorem session_forgets_pin {K : CardCrypto} tick fuel L des (l : @Link K) ops :
  vc_pin_verified (lk_card l) = false ->
  match begin_pin_session (H := link_transport tick) fuel l with
  | Some (inr (l', _)) => vc_pin_verified (lk_card l') = false
  | Some (inl s) =>
      forall s' r, run_ops tick fuel L des ops s = Some (s', r) ->
        vc_pin_verified (lk_card (end_session s').1) = false /\
        vc_pin_verified (lk_card (drop_session s')) = false
  | None => True
  end.
Proof.
  intros Hv. pose proof (begin_keeps tick fuel l Hv) as Hb.
  destruct (begin_pin_session fuel l) as [[s|[l' e]]|]; [|exact Hb|exact Logic.I].
  intros s' r Hr. pose proof (run_ops_keep tick fuel L des ops s Hb s' r Hr) as Hs.
  split; exact (end_forgets tick s' Hs).
Qed.

(** A VERIFY of the host is one event of the abstract PIN
    machine on the card, and the host is told exactly what became of it: the
    right PIN verifies, a wrong one costs a try and is reported with the tries
    left, the last one and a blocked PIN are reported as blocked, and an
    overlong PIN never reaches the card. *)
Theorem verify_pin_exact {K : CardCrypto} tick fuel (s : @PinSession (@Link K) (link_transport tick)) pin :
  applet_ok (card_of tick s) -> pin_state_ok (pin_of (card_of tick s)) ->
  (8 < len pin -> Session.verify_pin fuel pin s = Some (s, Err (PivOther (PinTooLong (len pin))))) /\
  (len pin <= 8 ->
   exists s', Session.verify_pin fuel pin s = Some (s', verify_outcome (pin_of (card_of tick s)) (pin_block pin)) /\
     pin_of (card_of tick s') = pin_step (pin_of (card_of tick s)) (EvVerify (pin_block pin)) /\
     (is_ok (verify_outcome (pin_of (card_of tick s)) (pin_block pin)) = true -> ps_pin_verified s' = true)).
Proof.
  intros Ha Hp. split; intros Hl.
  - unfold Session.verify_pin. now rewrite (proj2 (Z.ltb_lt 8 (len pin)) Hl).
  - destruct (verify_run tick fuel s pin Ha Hp Hl) as (s' & H1 & H2 & _ & H3). eauto.
Qed.

Definition steady (now : Z) : Z := now + 1.

Definition no_des (key block : bytes) : bytes := block.

(** Certificates that hold an Ed25519 key behind one byte. *)
Definition toy_lib : CertLib := {|
  certificate_from_der cert :=
    match cert with
    | 0x30 :: key => Some (MkSpki OID_ED25519 None (Some key))
    | _ => None
    end;
  p256_uncompressed _ := None;
  p384_uncompressed _ := None;
  pkcs1_from_der _ := None;
  mpint_from_positive _ := None;
  ecdsa_from_sec1 _ := None;
  p256_key_ok _ := false;
  p256_sig_ok _ := false;
  p384_key_ok _ := false;
  p384_sig_ok _ := false;
  p256_verify _ _ _ := false;
  p384_verify _ _ _ := false;
|}.

Definition toy_link : @Link ToyCard := MkLink toy_card 0.

(** Two wrong PINs, the right one, and a change of it. *)
Definition toy_ops : list SessionOp :=
  [OpVerify [0x39]; OpRetries; OpVerify DEFAULT_PIN; OpRetries; OpChangePin DEFAULT_PIN [0x31; 0x32; 0x33; 0x34; 0x35; 0x36]].

Definition toy_session : @PinSession (@Link ToyCard) (link_transport steady) :=
  session_at steady (selected toy_card) 1 false.

Lemma session_forgets_pin_witness :
  vc_pin_verified (lk_card toy_link) = false /\
  match begin_pin_session (H := link_transport steady) 1 toy_link with
  | Some (inr (l', _)) => vc_pin_verified (lk_card l') = false
  | Some (inl s) =>
      forall s' r, run_ops steady 1 toy_lib no_des toy_ops s = Some (s', r) ->
        vc_pin_verified (lk_card (end_session s').1) = false /\
        vc_pin_verified (lk_card (drop_session s')) = false
  | None => True
  end.
Proof. split; [reflexivity|]. apply session_forgets_pin. reflexivity. Defined.

Example toy_ops_verified :
  match run_ops steady 1 toy_lib no_des toy_ops toy_session with
  | Some (s', _) => vc_pin_verified (card_of steady s') = true /\ ps_pin_verified s' = true
  | None => False
  end.
Proof. vm_compute. split; reflexivity. Qed.

Lemma verify_pin_exact_witness :
  applet_ok (card_of steady toy_session) /\ len DEFAULT_PIN <= 8 /\
  exists s', Session.verify_pin 1 DEFAULT_PIN toy_session
             = Some (s', verify_outcome (pin_of (card_of steady toy_session)) (pin_block DEFAULT_PIN)) /\
    pin_of (card_of steady s') = pin_step (pin_of (card_of steady toy_session)) (EvVerify (pin_block DEFAULT_PIN)) /\
    (is_ok (verify_outcome (pin_of (card_of steady toy_session)) (pin_block DEFAULT_PIN)) = true -> ps_pin_verified s' = true).
Proof.
  assert (Ha : applet_ok (card_of steady toy_session)) by (split; reflexivity).
  assert (Hp : pin_state_ok (pin_of (card_of steady toy_session))) by (vm_compute; repeat split; discriminate).
  assert (Hl : len DEFAULT_PIN <= 8) by (vm_compute; discriminate).
  split; [exact Ha|split; [exact Hl|]].
  exact (proj2 (verify_pin_exact steady 1 toy_session DEFAULT_PIN Ha Hp) Hl).
Defined.
