(* ===== verification/HostObjects.v ===== *)
(** * HostObjects: what the host stores on the card is what it reads back

    The write operations of [put_data.rs] and [admin.rs] run over the link of
    [HostCard] against the card's GET DATA, PUT DATA and management key
    handlers. *)

From Stdlib Require Import ZArith Lia String.
From stdpp Require Import base tactics list numbers gmap strings.
From S2P Require Import Prelude PivError Reader Tlv Guid Apdu CardTlv CardState PinSpec Card CardPin CardSafe.
From S2P Require Import Transport Walk Slot Session HostCard.

Local Open Scope Z_scope.

(** ** The card's parsers on the host's encodings *)

Lemma tag_to_bytes_enc {E} tag : tag_to_bytes (E := E) tag = Ok (enc_tag tag).
Proof.
  unfold tag_to_bytes, enc_tag. destruct (tag =? 0); [reflexivity|]. cbv zeta.
  destruct (position _ _) as [i|] eqn:Hp.
  - apply position_Some in Hp as [Hi _]. rewrite length_to_be_bytes in Hi.
    now rewrite slice_from_Ok by (unfold len; rewrite length_to_be_bytes; lia).
  - now rewrite slice_from_Ok by (unfold len; rewrite length_to_be_bytes; lia).
Qed.

Lemma len_enc_tag tag : 0 <= tag < 2 ^ 32 -> 1 <= len (enc_tag tag) <= 4.
Proof.
  intros Ht. unfold enc_tag. destruct (tag =? 0); [by_compute|]. cbv zeta.
  destruct (position _ _) as [i|] eqn:Hp.
  - apply position_Some in Hp as [Hi _]. rewrite length_to_be_bytes in Hi.
    rewrite len_zdrop; unfold len; rewrite length_to_be_bytes; lia.
  - rewrite len_zdrop; unfold len; rewrite length_to_be_bytes; lia.
Qed.

(** The tag list of GET DATA and PUT DATA. *)
Lemma parse_5c_enc tag rest :
  0 <= tag < 2 ^ 32 -> parse_5c_tag_with_rest (enc_tlv 0x5C (enc_tag tag) ++ rest) = Ok (enc_tag tag, rest).
Proof.
  intros Ht. pose proof (len_enc_tag tag Ht) as Hl. unfold enc_tlv, enc_length.
  rewrite (proj2 (Z.ltb_lt (len (enc_tag tag)) 0x80)) by lia. change (enc_tag 0x5C) with [0x5C].
  set (n := len (enc_tag tag)) in *. rewrite <- !app_assoc. set (l := [0x5C] ++ [n] ++ enc_tag tag ++ rest).
  assert (Hlen : len l = 2 + n + len rest) by (unfold l; rewrite !len_app, !len_cons, len_nil; fold n; lia).
  assert (Hdrop : zdrop 2 l = enc_tag tag ++ rest) by exact (zdrop_app [0x5C; n] _).
  pose proof (len_nonneg rest). unfold parse_5c_tag_with_rest.
  change (first l) with (Ok (E := unit) 0x5C). change (get_at l 1) with (Ok (E := unit) n). cbn [res_bind].
  change (negb (0x5C =? 0x5C)) with false. cbv iota.
  rewrite (proj2 (Z.eqb_neq n 0)), (proj2 (Z.ltb_ge (len l) (2 + n))) by lia. cbn [orb].
  unfold n. rewrite (slice_app 2 l _ rest) by (exact Hdrop || lia). cbn [res_bind].
  rewrite slice_from_Ok by lia. cbn [res_bind]. now rewrite (zdrop_step 2 l (enc_tag tag) rest ltac:(lia) Hdrop).
Qed.

(** The head of a [53] object as the card reads it. *)
Lemma split_53_head h v n rest l :
  l = h ++ v ++ rest -> first l = Ok 0x53 ->
  (let* first_len := get_at l 1 in
   if first_len <? 0x80 then Ok (2, first_len)
   else if first_len =? 0x81 then let* n := get_at l 2 in Ok (3, n)
   else if first_len =? 0x82 then
     let* hi := get_at l 2 in let* lo := get_at l 3 in Ok (4, Z.lor (Z.shiftl hi 8) lo)
   else Err tt) = Ok (len h, n) ->
  len v = n -> split_53_tlv l = Ok (h ++ v, rest).
Proof.
  intros -> Hf Hh <-. unfold split_53_tlv. rewrite Hf. cbn [res_bind]. change (negb (0x53 =? 0x53)) with false. cbv iota.
  destruct (get_at _ 1) as [fl|e|]; [|discriminate|discriminate]. cbn [res_bind] in Hh |- *. rewrite Hh. cbn [res_bind].
  rewrite app_assoc. pose proof (len_nonneg rest). pose proof (len_nonneg (h ++ v)).
  rewrite <- len_app. rewrite (proj2 (Z.ltb_ge _ _)) by (rewrite (len_app (h ++ v)); lia).
  rewrite (slice_app 0 _ (h ++ v) rest) by (reflexivity || (rewrite (len_app (h ++ v)); lia)). cbn [res_bind].
  rewrite slice_from_Ok by (rewrite (len_app (h ++ v)); lia). cbn [res_bind]. now rewrite zdrop_app.
Qed.

Lemma split_53_enc v : len v < 0x10000 -> split_53_tlv (enc_tlv 0x53 v) = Ok (enc_tlv 0x53 v, []).
Proof.
  intros Hv. pose proof (len_nonneg v) as H0. unfold enc_tlv. change (enc_tag 0x53) with [0x53]. rewrite app_assoc.
  apply split_53_head with (n := len v); try reflexivity; [now rewrite app_nil_r|].
  unfold enc_length. destruct (len v <? 0x80) eqn:H1; [|destruct (len v <? 0x100) eqn:H2; [|rewrite (proj2 (Z.ltb_lt _ _) Hv)]]; bprop.
  - unfold get_at. simpl. zbool. reflexivity.
  - unfold get_at, to_be_bytes. simpl. rewrite Z.div_1_r, Z.mod_small by lia. reflexivity.
  - unfold get_at, to_be_bytes. simpl. rewrite Z.div_1_r. cbn [res_bind]. do 2 f_equal.
    rewrite shift_or_byte by (try apply Z.mod_pos_bound; lia).
    assert (0 <= len v / 256 < 256) by (split; [apply Z.div_pos|apply Z.div_lt_upper_bound]; lia).
    rewrite (Z.mod_small (len v / 256)) by lia. rewrite (Z.div_mod (len v) 256) at 3 by lia. lia.
Qed.

(** A GENERAL AUTHENTICATE template around one short item. *)
Lemma enc_template t v :
  len v < 0x7E -> enc_tag t = [t] ->
  len (enc_tlv t v) = len v + 2 /\ enc_tlv 0x7C (enc_tlv t v) = [0x7C; len v + 2; t; len v] ++ v.
Proof.
  intros Hl Ht. pose proof (len_nonneg v).
  assert (Hi : enc_tlv t v = [t; len v] ++ v).
  { unfold enc_tlv, enc_length. rewrite Ht, (proj2 (Z.ltb_lt _ _)) by lia. reflexivity. }
  assert (Hlen : len (enc_tlv t v) = len v + 2) by (rewrite Hi, len_app; change (len [t; len v]) with 2; lia).
  split; [exact Hlen|]. unfold enc_tlv at 1. rewrite Hlen, Hi. unfold enc_length.
  now rewrite (proj2 (Z.ltb_lt _ _)) by lia.
Qed.

(** ** GET DATA and PUT DATA *)

Section Objects.
Context {K : CardCrypto} (tick : Z -> Z) (fuel : nat) (L : CertLib).
Implicit Type c : VirtualCard K.
Implicit Type s : @PinSession (@Link K) (link_transport tick).

Definition object c (tag : Z) : option bytes := vc_data_objects c !! enc_tag tag.

Definition card_with (tag : Z) (value : bytes) c : VirtualCard K :=
  settle Ins.PUT_DATA
    (set_data_objects (<[enc_tag tag := enc_tlv 0x53 value]> (vc_data_objects c)) (set_touch_blocked None c)).

Definition tag_range (tag : Z) : Prop := 0 <= tag < 2 ^ 32.

Lemma applet_card_with tag v c : applet_ok c -> applet_ok (card_with tag v c).
Proof. intros [Hf Hs]. split; [exact Hf|exact Hs]. Qed.

Lemma put_apdu tag v :
  tag_range tag -> len v < 65000 ->
  apdu_put_data tag v
  = Ok (MkApdu 0x00 Ins.PUT_DATA 0x3F 0xFF (enc_tlv 0x5C (enc_tag tag) ++ enc_tlv 0x53 v) None).
Proof.
  intros Ht Hv. pose proof (len_enc_tag tag Ht). unfold apdu_put_data. rewrite tag_to_bytes_enc. cbn [res_bind].
  rewrite write_tag_value_Ok by lia. cbn [res_bind]. rewrite write_tag_value_Ok by lia. cbn [res_bind].
  reflexivity.
Qed.

Lemma len_enc_length n : len (enc_length n) <= 4.
Proof. unfold enc_length. repeat case_match; by_compute. Qed.

Lemma put_transmit now c tag v a :
  applet_ok c -> tag_range tag -> len v < 65000 -> apdu_put_data tag v = Ok a ->
  Card.transmit now c (apdu_to_bytes a) = Ok (sw_bytes 0x90 0x00, card_with tag v c).
Proof.
  intros Ha Ht Hv. rewrite put_apdu by assumption. intros [= <-]. set (a := MkApdu _ _ _ _ _ _).
  assert (Hh : take 4 (apdu_to_bytes a) = [0x00; Ins.PUT_DATA; 0x3F; 0xFF]) by apply apdu_to_bytes_header.
  assert (Hf : vc_faults (set_touch_blocked None c) = []) by exact (proj1 Ha).
  rewrite (transmit_dispatch now c _ _ _ _ _ Ha Hh), (dispatch_put_data now _ _ Hf Hh).
  unfold handle_put_data. rewrite (body_of a).
  - cbn [res_bind]. change (data a) with (enc_tlv 0x5C (enc_tag tag) ++ enc_tlv 0x53 v).
    rewrite parse_5c_enc by exact Ht. cbn [as_option res_bind]. rewrite split_53_enc by lia.
    cbn [as_option res_bind]. reflexivity.
  - discriminate.
  - change (data a) with (enc_tlv 0x5C (enc_tag tag) ++ enc_tlv 0x53 v).
    pose proof (len_enc_tag tag Ht). pose proof (len_enc_length (len (enc_tag tag))). pose proof (len_enc_length (len v)).
    unfold enc_tlv. rewrite !len_app. change (len (enc_tag 0x5C)) with 1. change (len (enc_tag 0x53)) with 1. lia.
Qed.

Definition card_read c : VirtualCard K := settle Ins.GET_DATA (set_touch_blocked None c).

Lemma get_apdu tag :
  tag_range tag -> apdu_get_data tag = Ok (MkApdu 0x00 Ins.GET_DATA 0x3F 0xFF (enc_tlv 0x5C (enc_tag tag)) None).
Proof.
  intros Ht. pose proof (len_enc_tag tag Ht). unfold apdu_get_data. rewrite tag_to_bytes_enc. cbn [res_bind].
  rewrite write_tag_value_Ok by lia. reflexivity.
Qed.

Lemma get_transmit now c tag stored a :
  applet_ok c -> tag_range tag -> object c tag = Some stored -> apdu_get_data tag = Ok a ->
  Card.transmit now c (apdu_to_bytes a) = Ok (stored ++ sw_bytes 0x90 0x00, card_read c).
Proof.
  intros Ha Ht Ho. rewrite get_apdu by assumption. intros [= <-]. set (a := MkApdu _ _ _ _ _ _).
  assert (Hh : take 4 (apdu_to_bytes a) = [0x00; Ins.GET_DATA; 0x3F; 0xFF]) by apply apdu_to_bytes_header.
  assert (Hf : vc_faults (set_touch_blocked None c) = []) by exact (proj1 Ha).
  rewrite (transmit_dispatch now c _ _ _ _ _ Ha Hh), (dispatch_get_data now _ _ Hf Hh).
  unfold handle_get_data. rewrite (body_of a).
  - cbn [res_bind]. unfold parse_5c_tag. change (data a) with (enc_tlv 0x5C (enc_tag tag)).
    rewrite <- (app_nil_r (enc_tlv 0x5C _)), parse_5c_enc by exact Ht. cbn [as_option res_bind].
    unfold object in Ho. change (vc_data_objects (set_touch_blocked None c)) with (vc_data_objects c). rewrite Ho. reflexivity.
  - discriminate.
  - change (data a) with (enc_tlv 0x5C (enc_tag tag)). pose proof (len_enc_tag tag Ht).
    pose proof (len_enc_length (len (enc_tag tag))). unfold enc_tlv. rewrite !len_app.
    change (len (enc_tag 0x5C)) with 1. lia.
Qed.

(** *** Through the session *)

Definition after s c : PinSession (H := link_transport tick) Link :=
  session_at tick c (tick (lk_now (ps_session s))) (ps_pin_verified s).

Lemma put_run s tag v :
  applet_ok (card_of tick s) -> tag_range tag -> len v < 65000 ->
  put_data fuel tag v s = Some (after s (card_with tag v (card_of tick s)), Ok tt).
Proof.
  intros Ha Ht Hv. pose proof (put_apdu tag v Ht Hv) as Hp. unfold put_data. rewrite Hp.
  unfold io_bind at 1, io_lift at 1, command. unfold io_bind.
  rewrite (exchange tick fuel s _ [] 0x90 0x00 (card_with tag v (card_of tick s)));
    [reflexivity| |discriminate].
  exact (put_transmit _ _ tag v _ Ha Ht Hv Hp).
Qed.

Lemma get_run s tag stored a :
  applet_ok (card_of tick s) -> tag_range tag -> object (card_of tick s) tag = Some stored -> apdu_get_data tag = Ok a ->
  Session.transmit fuel a s = Some (after s (card_read (card_of tick s)), Ok (stored, MkSw 0x90 0x00)).
Proof.
  intros Ha Ht Ho Hg. apply exchange; [|discriminate]. exact (get_transmit _ _ tag stored a Ha Ht Ho Hg).
Qed.

Lemma object_card_with tag v c : object (card_with tag v c) tag = Some (enc_tlv 0x53 v).
Proof. exact (lookup_insert_eq (vc_data_objects c) (enc_tag tag) _). Qed.

Lemma object_card_with_ne tag tag' v c : enc_tag tag <> enc_tag tag' -> object (card_with tag v c) tag' = object c tag'.
Proof. intros H. exact (lookup_insert_ne (vc_data_objects c) (enc_tag tag) (enc_tag tag') _ H). Qed.

(** *** Certificates *)

Lemma push_der_len_spec buf n : 0 <= n < 0x10000 -> push_der_len buf n = buf ++ enc_length n.
Proof.
  intros Hn. assert (H : write_length (E := unit) (MkTlvWriter buf) n = Ok (MkTlvWriter (push_der_len buf n))).
  { unfold write_length, push_der_len, tw_push. simpl. destruct (n <? 0x80); [reflexivity|].
    destruct (n <? 0x100); [reflexivity|]. zbool. reflexivity. }
  rewrite write_length_Ok in H by lia. injection H as H. now rewrite <- H.
Qed.

Lemma cert_object_items cert :
  len cert < 0x10000 -> Apdu.cert_object cert = enc_items [(0x70, cert); (0x71, [0x00])].
Proof.
  intros Hl. unfold Apdu.cert_object. rewrite push_der_len_spec by (pose proof (len_nonneg cert); lia).
  rewrite !enc_items_cons. unfold enc_items, enc_tlv. cbn [mbind list_bind]. rewrite app_nil_r, <- !app_assoc. reflexivity.
Qed.

Lemma len_cert_object cert : len cert < 0x10000 -> len (Apdu.cert_object cert) <= len cert + 8.
Proof.
  intros Hl. unfold Apdu.cert_object. rewrite push_der_len_spec by (pose proof (len_nonneg cert); lia).
  rewrite !len_app. pose proof (len_enc_length (len cert)). change (len [0x70]) with 1. change (len [0x71; 0x01; 0x00]) with 3. lia.
Qed.

Lemma find_cert_stored cert :
  len cert < 0x10000 -> find_cert (enc_tlv 0x53 (Apdu.cert_object cert)) = Ok (Some cert).
Proof.
  intros Hl. pose proof (len_cert_object cert Hl). unfold find_cert.
  rewrite wrapper_reads_all by (lia || by_compute). cbn [res_bind]. rewrite cert_object_items by exact Hl.
  rewrite walk_tlvs_items; [reflexivity|].
  constructor; [split; [by_compute|lia]|]. constructor; [split; [by_compute|reflexivity]|constructor].
Qed.

(** The four slots [put_cert] serves, with their objects. *)
Definition cert_slot (slot tag : Z) : Prop :=
  cert_tag_for_slot slot = Some tag.

Lemma cert_slot_cases slot tag :
  cert_slot slot tag -> slot_to_cert_tag slot = Some tag /\ tag_range tag.
Proof.
  unfold cert_slot, cert_tag_for_slot, slot_to_cert_tag, tag_range.
  repeat case_match; intros [= <-]; (split; [reflexivity|by_compute]).
Qed.

Lemma put_cert_run s slot tag cert :
  applet_ok (card_of tick s) -> cert_slot slot tag -> len cert < 64000 ->
  put_cert fuel slot cert s = Some (after s (card_with tag (Apdu.cert_object cert) (card_of tick s)), Ok tt).
Proof.
  intros Ha Hs Hl. destruct (cert_slot_cases slot tag Hs) as [_ Ht]. unfold put_cert. rewrite Hs. cbn [ok_or].
  unfold io_bind at 1, io_lift at 1. apply put_run; [exact Ha|exact Ht|].
  pose proof (len_cert_object cert ltac:(lia)). lia.
Qed.

(** What [read_slot] makes of a certificate. *)
Definition slot_of (slot : Z) (cert : bytes) : res PivError PivSlot :=
  let* (alg, key) := extract_public_key L cert in Ok (MkSlot slot alg cert key).

Lemma read_slot_run s slot tag cert :
  applet_ok (card_of tick s) -> cert_slot slot tag -> len cert < 64000 ->
  object (card_of tick s) tag = Some (enc_tlv 0x53 (Apdu.cert_object cert)) ->
  read_slot_on fuel L slot s = Some (after s (card_read (card_of tick s)), slot_of slot cert).
Proof.
  intros Ha Hs Hl Ho. destruct (cert_slot_cases slot tag Hs) as [Hst Ht].
  unfold read_slot_on. rewrite Hst. cbn [ok_or]. unfold io_bind at 1, io_lift at 1.
  rewrite (get_apdu tag Ht). unfold io_bind at 1, io_lift at 1. unfold io_bind at 1.
  rewrite (get_run s tag _ _ Ha Ht Ho (get_apdu tag Ht)). change (negb (is_success (MkSw 0x90 0x00))) with false. cbv iota.
  rewrite find_cert_stored by lia. unfold io_bind, io_lift, slot_of. cbn [ok_or].
  destruct (extract_public_key L cert) as [[alg key]|e|]; reflexivity.
Qed.

Lemma clear_cert_run s slot tag :
  applet_ok (card_of tick s) -> cert_slot slot tag ->
  clear_cert fuel slot s = Some (after s (card_with tag [] (card_of tick s)), Ok tt).
Proof.
  intros Ha Hs. destruct (cert_slot_cases slot tag Hs) as [_ Ht]. unfold clear_cert. rewrite Hs. cbn [ok_or].
  unfold io_bind at 1, io_lift at 1. now apply put_run.
Qed.

Lemma read_cleared_run s slot tag :
  applet_ok (card_of tick s) -> cert_slot slot tag -> object (card_of tick s) tag = Some (enc_tlv 0x53 []) ->
  read_slot_on fuel L slot s = Some (after s (card_read (card_of tick s)), Err (SlotEmpty slot)).
Proof.
  intros Ha Hs Ho. destruct (cert_slot_cases slot tag Hs) as [Hst Ht].
  unfold read_slot_on. rewrite Hst. cbn [ok_or]. unfold io_bind at 1, io_lift at 1.
  rewrite (get_apdu tag Ht). unfold io_bind at 1, io_lift at 1. unfold io_bind at 1.
  now rewrite (get_run s tag _ _ Ha Ht Ho (get_apdu tag Ht)).
Qed.

Lemma cert_slots_apart slot tag slot' tag' :
  cert_slot slot tag -> cert_slot slot' tag' -> slot <> slot' -> enc_tag tag <> enc_tag tag'.
Proof.
  unfold cert_slot, cert_tag_for_slot. intros H H' Hn. repeat case_match; bprop; subst; try congruence;
    injection H as <-; injection H' as <-; vm_compute; discriminate.
Qed.

(** *** The GUID *)

Lemma find_guid_stored guid :
  len guid = 16 -> find_guid (enc_tlv 0x53 (build_chuid_object guid)) = Ok (MkGuid guid).
Proof.
  intros Hg. assert (Hb : build_chuid_object guid = enc_items [(0x30, FASCN_ALL_ZERO); (0x34, guid); (0x35, CHUID_EXPIRY); (0x3E, [])]).
  { unfold build_chuid_object. rewrite Hg, !enc_items_cons. unfold enc_tlv. rewrite Hg. reflexivity. }
  unfold find_guid. rewrite wrapper_reads_all; [|by_compute|unfold build_chuid_object; rewrite !len_app, Hg; reflexivity].
  cbn [res_bind]. rewrite Hb, walk_tlvs_items.
  - cbn [walk_items guid_step]. unfold guid_step. simpl. unfold guid_from_bytes. now rewrite Hg.
  - do 4 (constructor; [split; [by_compute|rewrite ?Hg; reflexivity]|]). constructor.
Qed.

Implicit Type k : PivToken (@Link K).

Definition token_card k : VirtualCard K := lk_card (tok_transport k).

(** A token's exchange is the card's. *)
Lemma raw_token_eq cmd k resp c' :
  Card.transmit (tick (lk_now (tok_transport k))) (token_card k) cmd = Ok (resp, c') ->
  raw (H := token_raw (H := link_transport tick)) cmd k
  = Some (with_transport (MkLink c' (tick (lk_now (tok_transport k)))) k, Ok resp).
Proof.
  intros Ht. unfold raw.
  change (transmit_raw cmd k) with (let (t, r) := link_transmit tick cmd (tok_transport k) in (with_transport t k, r)).
  unfold link_transmit. cbv zeta. change (lk_card (tok_transport k)) with (token_card k). now rewrite Ht.
Qed.

Lemma token_select_run k :
  vc_faults (token_card k) = [] ->
  select_piv (H := link_transport tick) fuel k
  = Some (with_transport (MkLink (selected (token_card k)) (tick (lk_now (tok_transport k)))) k, Ok tt).
Proof.
  intros Hf. unfold select_piv, command. rewrite io_bind_assoc. unfold io_bind at 1, Session.transmit. fold select_apdu.
  rewrite (transmit_single fuel _ k _ (select_fci_bytes (vc_model (token_card k))) (MkSw 0x90 0x00)
             (raw_token_eq _ k _ _ (select_transmit _ _ Hf)) eq_refl). reflexivity.
Qed.

Lemma token_get_run k tag stored a :
  applet_ok (token_card k) -> tag_range tag -> object (token_card k) tag = Some stored -> apdu_get_data tag = Ok a ->
  command (H := token_raw (H := link_transport tick)) fuel a k
  = Some (with_transport (MkLink (card_read (token_card k)) (tick (lk_now (tok_transport k)))) k, Ok stored).
Proof.
  intros Ha Ht Ho Hg. unfold command, io_bind at 1, Session.transmit.
  now rewrite (transmit_single fuel a k _ stored (MkSw 0x90 0x00)
                 (raw_token_eq _ k _ _ (get_transmit _ _ tag stored a Ha Ht Ho Hg)) eq_refl).
Qed.

Lemma read_chuid_run k guid :
  applet_ok (token_card k) -> len guid = 16 ->
  object (token_card k) PIV_TAG_CHUID = Some (enc_tlv 0x53 (build_chuid_object guid)) ->
  exists k', read_chuid (H := link_transport tick) fuel k = Some (k', Ok tt) /\ tok_guid k' = MkGuid guid /\
    tok_chuid_raw k' = Some (enc_tlv 0x53 (build_chuid_object guid)).
Proof.
  intros Ha Hg Ho. assert (Ht : tag_range PIV_TAG_CHUID) by by_compute.
  eexists. unfold read_chuid. rewrite (get_apdu PIV_TAG_CHUID Ht). unfold io_bind at 1, io_lift at 1. unfold io_bind at 1.
  rewrite (token_get_run k _ _ _ Ha Ht Ho (get_apdu _ Ht)). unfold io_bind, io_modify, io_lift.
  rewrite find_guid_stored by exact Hg. split; [reflexivity|]. split; reflexivity.
Qed.

Lemma selected_applet c : vc_faults c = [] -> applet_ok (selected c).
Proof. now split. Qed.

Lemma selected_object c tag : object (selected c) tag = object c tag.
Proof. reflexivity. Qed.

(** Opening the applet and reading the CHUID. *)
Lemma token_open_run k guid :
  vc_faults (token_card k) = [] -> len guid = 16 ->
  object (token_card k) PIV_TAG_CHUID = Some (enc_tlv 0x53 (build_chuid_object guid)) ->
  exists k', (do! _ := select_piv (H := link_transport tick) fuel in read_chuid (H := link_transport tick) fuel) k
             = Some (k', Ok tt) /\ tok_guid k' = MkGuid guid /\
    tok_chuid_raw k' = Some (enc_tlv 0x53 (build_chuid_object guid)).
Proof.
  intros Hf Hg Ho. unfold io_bind. rewrite (token_select_run k Hf).
  apply read_chuid_run; [exact (selected_applet _ Hf)|exact Hg|].
  change (object (selected (token_card k)) PIV_TAG_CHUID = Some (enc_tlv 0x53 (build_chuid_object guid))).
  now rewrite selected_object.
Qed.

Lemma end_objects s tag : object (lk_card (end_session s).1) tag = object (card_of tick s) tag.
Proof.
  unfold end_session. cbn [session_end link_transport]. unfold link_end, end_transaction, disposition.
  now destruct (ps_pin_verified s).
Qed.

Lemma end_faults s : vc_faults (lk_card (end_session s).1) = vc_faults (card_of tick s).
Proof.
  unfold end_session. cbn [session_end link_transport]. unfold link_end, end_transaction, disposition.
  now destruct (ps_pin_verified s).
Qed.

(** *** The management key *)

Definition mgmt_apdu (d : bytes) : Apdu := apdu_general_authenticate ALG_TDEA_3KEY SLOT_MGMT d.

Lemma mgmt_transmit now c d resp c2 :
  applet_ok c -> 0 < len d < 65536 ->
  handle_general_authenticate_mgmt_key (set_touch_blocked None c) (Some d) = Ok (resp, c2) ->
  Card.transmit now c (apdu_to_bytes (mgmt_apdu d)) = Ok (resp, settle Ins.GEN_AUTH c2).
Proof.
  intros Ha Hd Hm.
  assert (Hh : take 4 (apdu_to_bytes (mgmt_apdu d)) = [0x00; Ins.GEN_AUTH; 0x03; 0x9B]) by apply apdu_to_bytes_header.
  assert (Hb : apdu_body (E := Empty_set) (apdu_to_bytes (mgmt_apdu d)) = Ok (Some d)).
  { apply (body_of (mgmt_apdu d)); [|exact (proj2 Hd)]. change (data (mgmt_apdu d)) with d. intros ->. now apply proj1 in Hd. }
  assert (Hf : vc_faults (set_touch_blocked None c) = []) by exact (proj1 Ha).
  rewrite (transmit_dispatch now c _ _ _ _ _ Ha Hh), (dispatch_mgmt now _ _ _ Hf Hh Hb), Hm. reflexivity.
Qed.

(** The challenge the card will check against. *)
Definition witness_of c : bytes := default (repeat 0 8) (vc_pending_mgmt_witness c).

Definition challenged c : VirtualCard K :=
  settle Ins.GEN_AUTH (set_pending_mgmt_witness (Some (witness_of c)) (set_touch_blocked None c)).

Lemma challenge_transmit now c :
  applet_ok c ->
  Card.transmit now c (apdu_to_bytes (mgmt_apdu [0x7C; 0x02; 0x81; 0x00]))
  = Ok (([0x7C; 0x0A; 0x81; 0x08] ++ witness_of c) ++ sw_bytes 0x90 0x00, challenged c).
Proof.
  intros Ha. apply mgmt_transmit; [exact Ha|by_compute|]. rewrite <- app_assoc. reflexivity.
Qed.

(** The card's check of the answer. *)
Definition mgmt_passes c (enc : bytes) : bool := bytes_eqb (tdes_decrypt K (vc_mgmt_key c) enc) (witness_of c).

Definition answered (ok : bool) c : VirtualCard K :=
  let c := set_pending_mgmt_witness None (set_touch_blocked None (challenged c)) in
  settle Ins.GEN_AUTH (if ok then set_mgmt_authenticated true c else c).

Lemma answer_transmit now c enc :
  applet_ok c -> len enc = 8 ->
  Card.transmit now (challenged c) (apdu_to_bytes (mgmt_apdu ([0x7C; 0x0A; 0x82; 0x08] ++ enc)))
  = Ok (if mgmt_passes c enc then sw_bytes 0x90 0x00 else sw_bytes 0x69 0x82, answered (mgmt_passes c enc) c).
Proof.
  intros Ha Hl. assert (Hc : applet_ok (challenged c)) by (split; [exact (proj1 Ha)|exact (proj2 Ha)]).
  assert (Hlen : len ([0x7C; 0x0A; 0x82; 0x08] ++ enc) = 12) by (rewrite len_app, Hl; reflexivity).
  rewrite (mgmt_transmit now _ _ (if mgmt_passes c enc then sw_bytes 0x90 0x00 else sw_bytes 0x69 0x82)
             (let c' := set_pending_mgmt_witness None (set_touch_blocked None (challenged c)) in
              if mgmt_passes c enc then set_mgmt_authenticated true c' else c') Hc); [reflexivity|rewrite Hlen; lia|].
  unfold handle_general_authenticate_mgmt_key. rewrite Hlen.
  replace (bytes_eqb _ [0x7C; 0x02; 0x81; 0x00]) with false by reflexivity.
  replace (starts_with _ _) with true by reflexivity. cbn [Z.eqb Pos.eqb andb].
  rewrite slice_Ok by (rewrite ?Hlen; lia). cbn [res_bind].
  replace (ztake (12 - 4) (zdrop 4 ([0x7C; 0x0A; 0x82; 0x08] ++ enc))) with enc.
  2:{ change (zdrop 4 _) with enc. rewrite <- Hl at 1. rewrite <- (app_nil_r enc) at 3. symmetry. apply ztake_app. }
  change (vc_pending_mgmt_witness (set_touch_blocked None (challenged c))) with (Some (witness_of c)). cbv iota zeta.
  change (vc_mgmt_key _) with (vc_mgmt_key c). unfold mgmt_passes. now destruct (bytes_eqb _ _).
Qed.

Lemma ga_request_answer enc :
  len enc = 8 -> ga_request GA_RESPONSE enc = Ok ([0x7C; 0x0A; 0x82; 0x08] ++ enc).
Proof.
  intros Hl. destruct (enc_template GA_RESPONSE enc ltac:(lia) eq_refl) as [Hlen He]. rewrite Hl in Hlen, He. unfold ga_request.
  rewrite write_tag_value_Ok by lia. cbn [res_bind].
  change (tw_buf (tw_push tlv_writer_new (enc_tlv GA_RESPONSE enc))) with (enc_tlv GA_RESPONSE enc).
  rewrite write_tag_value_Ok by lia. cbn [res_bind]. exact (f_equal Ok He).
Qed.

Lemma parse_witness_challenge w : len w = 8 -> parse_witness ([0x7C; 0x0A; 0x81; 0x08] ++ w) = Ok w.
Proof.
  intros Hl. destruct (enc_template GA_CHALLENGE w ltac:(lia) eq_refl) as [Hlen He]. rewrite Hl in Hlen, He.
  assert (H7 : tag_ok 0x7C) by by_compute. assert (H8 : tag_ok GA_CHALLENGE) by by_compute.
  transitivity (parse_witness (enc_tlv 0x7C (enc_tlv GA_CHALLENGE w))); [now rewrite He|]. unfold parse_witness.
  rewrite (wrapper_reads_all "admin auth" 0x7C (enc_tlv GA_CHALLENGE w) H7) by lia. cbn [res_bind].
  apply wrapper_reads_all; [exact H8|lia].
Qed.

Context (des : bytes -> bytes -> bytes).

Lemma authenticate_run s key :
  applet_ok (card_of tick s) -> len key = 24 -> len (witness_of (card_of tick s)) = 8 ->
  len (des key (witness_of (card_of tick s))) = 8 ->
  let ok := mgmt_passes (card_of tick s) (des key (witness_of (card_of tick s))) in
  exists now, authenticate_admin fuel des key ALG_TDEA_3KEY s
  = Some (session_at tick (answered ok (card_of tick s)) now (ps_pin_verified s),
          if ok then Ok tt else Err ManagementAuthFailed).
Proof.
  intros Ha Hk Hw He. cbv zeta. set (w := witness_of (card_of tick s)) in *. set (enc := des key w) in *.
  eexists. unfold authenticate_admin. rewrite Z.eqb_refl, Hk. cbn [negb Z.eqb Pos.eqb].
  change (ga_request GA_CHALLENGE []) with (Ok (E := PivError) [0x7C; 0x02; 0x81; 0x00]).
  unfold io_bind at 1, io_lift at 1. unfold command, io_bind at 1, io_bind at 1. fold (mgmt_apdu [0x7C; 0x02; 0x81; 0x00]).
  rewrite (exchange tick fuel s (mgmt_apdu [0x7C; 0x02; 0x81; 0x00]) _ 0x90 0x00 _ (challenge_transmit _ _ Ha)) by discriminate.
  unfold io_bind at 1, io_lift at 1. cbn [require_success is_success]. change (require_success (MkSw 0x90 0x00)) with (Ok (E := PivError) tt).
  unfold io_ret. unfold io_bind at 1, io_lift at 1. fold w. rewrite (parse_witness_challenge w Hw).
  unfold io_bind at 1, io_lift at 1. unfold des3_ecb_encrypt. rewrite Hk, Hw. cbn [negb Z.eqb Pos.eqb]. fold enc.
  unfold io_bind at 1, io_lift at 1. rewrite (ga_request_answer enc He). unfold io_bind.
  fold (mgmt_apdu ([0x7C; 0x0A; 0x82; 0x08] ++ enc)).
  set (s1 := session_at tick (challenged (card_of tick s)) _ _). set (ok := mgmt_passes (card_of tick s) enc).
  pose proof (answer_transmit (tick (lk_now (ps_session s1))) (card_of tick s) enc Ha He) as Ht. fold ok in Ht.
  rewrite (exchange tick fuel s1 _ [] (if ok then 0x90 else 0x69) (if ok then 0x00 else 0x82) (answered ok (card_of tick s))).
  - now destruct ok.
  - change (card_of tick s1) with (challenged (card_of tick s)). rewrite Ht. now destruct ok.
  - now destruct ok.
Qed.
End Objects.

(** ** Properties *)

(** The certificates a session stores in two slots are the ones
    the slots then hold, whatever was there before; and a slot whose certificate
    is cleared is empty, with the other slot's kept. *)
Theorem certificates_read_back {K : CardCrypto} tick fuel L (s : @PinSession (@Link K) (link_transport tick)) slot cert slot' cert' :
  applet_ok (card_of tick s) ->
  is_Some (cert_tag_for_slot slot) -> is_Some (cert_tag_for_slot slot') -> slot <> slot' ->
  len cert < 64000 -> len cert' < 64000 ->
  exists s1 s2,
    (do! _ := put_cert fuel slot cert in put_cert fuel slot' cert') s = Some (s1, Ok tt) /\
    snd <$> read_slot_on fuel L slot s1 = Some (slot_of L slot cert) /\
    snd <$> read_slot_on fuel L slot' s1 = Some (slot_of L slot' cert') /\
    clear_cert fuel slot s1 = Some (s2, Ok tt) /\
    snd <$> read_slot_on fuel L slot s2 = Some (Err (SlotEmpty slot)) /\
    snd <$> read_slot_on fuel L slot' s2 = Some (slot_of L slot' cert').
Proof.
  intros Ha [tag Hs] [tag' Hs'] Hn Hl Hl'. pose proof (cert_slots_apart slot tag slot' tag' Hs Hs' Hn) as Ht.
  set (c1 := card_with tag (Apdu.cert_object cert) (card_of tick s)). set (c2 := card_with tag' (Apdu.cert_object cert') c1).
  assert (H1 : applet_ok c1) by now apply applet_card_with. assert (H2 : applet_ok c2) by now apply applet_card_with.
  pose proof (applet_card_with tag [] c2 H2) as H3.
  assert (Ho : object c2 tag = Some (enc_tlv 0x53 (Apdu.cert_object cert))).
  { unfold c2. rewrite object_card_with_ne by congruence. apply object_card_with. }
  exists (after tick (after tick s c1) c2). eexists. split; [|split; [|split; [|split; [|split]]]].
  - unfold io_bind. rewrite (put_cert_run tick fuel s slot tag cert Ha Hs Hl).
    exact (put_cert_run tick fuel (after tick s c1) slot' tag' cert' H1 Hs' Hl').
  - now rewrite (read_slot_run tick fuel L (after tick (after tick s c1) c2) slot tag cert H2 Hs Hl Ho).
  - now rewrite (read_slot_run tick fuel L (after tick (after tick s c1) c2) slot' tag' cert' H2 Hs' Hl'
                   (object_card_with tag' _ c1)).
  - exact (clear_cert_run tick fuel (after tick (after tick s c1) c2) slot tag H2 Hs).
  - now rewrite (read_cleared_run tick fuel L (after tick _ _) slot tag H3 Hs (object_card_with tag [] c2)).
  - rewrite (read_slot_run tick fuel L (after tick _ _) slot' tag' cert' H3 Hs' Hl'); [reflexivity|].
    unfold after, card_of. simpl. rewrite object_card_with_ne by congruence. apply object_card_with.
Qed.

(** The GUID a session writes into the CHUID is the token's:
    once the session has ended, opening the applet again reads it. *)
Theorem guid_read_back {K : CardCrypto} tick fuel (l : @Link K) guid name :
  vc_faults (lk_card l) = [] -> len guid = 16 ->
  exists s s' k k',
    begin_pin_session (H := link_transport tick) fuel l = Some (inl s) /\
    write_chuid fuel guid s = Some (s', Ok tt) /\
    k = MkToken (end_session s').1 (MkGuid (repeat 0 16)) name None None false None /\
    (do! _ := select_piv (H := link_transport tick) fuel in read_chuid (H := link_transport tick) fuel) k = Some (k', Ok tt) /\
    tok_guid k' = MkGuid guid /\ tok_chuid_raw k' = Some (enc_tlv 0x53 (build_chuid_object guid)) /\
    object (card_of tick s') OBJECT_CHUID = tok_chuid_raw k'.
Proof.
  intros Hf Hg. set (s := session_at tick (selected (lk_card l)) (tick (lk_now l)) false).
  assert (Ha : applet_ok (card_of tick s)) by (split; [exact Hf|reflexivity]).
  set (v := build_chuid_object guid). set (s' := after tick s (card_with OBJECT_CHUID v (card_of tick s))).
  assert (Hv : len v < 65000) by (unfold v, build_chuid_object; rewrite !len_app, Hg; reflexivity).
  assert (Hw : write_chuid fuel guid s = Some (s', Ok tt)).
  { unfold write_chuid. fold v. assert (Ht : tag_range OBJECT_CHUID) by by_compute.
    exact (put_run tick fuel s OBJECT_CHUID v Ha Ht Hv). }
  set (k := MkToken (end_session s').1 (MkGuid (repeat 0 16)) name None None false None).
  destruct (token_open_run tick fuel k guid) as (k' & Hr & Hk & Hc).
  - change (vc_faults (lk_card (end_session s').1) = []). rewrite end_faults. exact (proj1 (applet_card_with _ _ _ Ha)).
  - exact Hg.
  - change (object (lk_card (end_session s').1) OBJECT_CHUID = Some (enc_tlv 0x53 v)).
    rewrite end_objects. apply object_card_with.
  - exists s, s', k, k'. split; [exact (begin_run tick fuel l Hf)|]. split; [exact Hw|]. split; [reflexivity|].
    split; [exact Hr|]. split; [exact Hk|]. split; [exact Hc|]. rewrite Hc. apply object_card_with.
Qed.

(** Management authentication: a key of the wrong size never
    reaches the card; otherwise the host proves that it holds the key by
    encrypting the card's challenge, and is told so exactly when the card's
    decryption of the answer gives the challenge back.  The challenge is used up
    either way, a failure takes no authentication away, and with the card's own
    key it succeeds. *)
Theorem authenticate_admin_exact {K : CardCrypto} tick fuel des (s : @PinSession (@Link K) (link_transport tick)) key :
  applet_ok (card_of tick s) -> len (witness_of (card_of tick s)) = 8 ->
  (forall k b, len b = 8 -> len (des k b) = 8) ->
  let c := card_of tick s in
  let ok := mgmt_passes c (des key (witness_of c)) in
  (len key <> 24 -> authenticate_admin fuel des key ALG_TDEA_3KEY s = Some (s, Err (PivOther (MgmtKeyLength (len key))))) /\
  (len key = 24 ->
   exists s', authenticate_admin fuel des key ALG_TDEA_3KEY s = Some (s', if ok then Ok tt else Err ManagementAuthFailed) /\
     vc_mgmt_authenticated (card_of tick s') = ok || vc_mgmt_authenticated c /\
     vc_pending_mgmt_witness (card_of tick s') = None) /\
  (key = vc_mgmt_key c -> (forall b, tdes_decrypt K key (des key b) = b) -> ok = true).
Proof.
  intros Ha Hw Hdes c ok. split; [|split].
  - intros Hk. unfold authenticate_admin. rewrite Z.eqb_refl. cbn [negb]. now rewrite (proj2 (Z.eqb_neq _ _) Hk).
  - intros Hk. destruct (authenticate_run tick fuel des s key Ha Hk Hw (Hdes _ _ Hw)) as [now Hr].
    eexists. split; [exact Hr|]. unfold ok, c. now destruct (mgmt_passes _ _).
  - intros -> Hinv. unfold ok, mgmt_passes. rewrite Hinv. now apply bool_decide_true.
Qed.

(** Two certificates of [toy_lib]. *)
Definition toy_cert (b : Z) : bytes := 0x30 :: repeat b 32.

Lemma certificates_read_back_witness :
  exists s1 s2,
    (do! _ := put_cert 1 0x9A (toy_cert 1) in put_cert 1 0x9D (toy_cert 2)) toy_session = Some (s1, Ok tt) /\
    snd <$> read_slot_on 1 toy_lib 0x9A s1 = Some (slot_of toy_lib 0x9A (toy_cert 1)) /\
    snd <$> read_slot_on 1 toy_lib 0x9D s1 = Some (slot_of toy_lib 0x9D (toy_cert 2)) /\
    clear_cert 1 0x9A s1 = Some (s2, Ok tt) /\
    snd <$> read_slot_on 1 toy_lib 0x9A s2 = Some (Err (SlotEmpty 0x9A)) /\
    snd <$> read_slot_on 1 toy_lib 0x9D s2 = Some (slot_of toy_lib 0x9D (toy_cert 2)).
Proof.
  apply (certificates_read_back steady 1 toy_lib toy_session); try reflexivity; try (eexists; reflexivity). discriminate.
Defined.

Example toy_slot : slot_of toy_lib 0x9A (toy_cert 1)
                   = Ok (MkSlot 0x9A AlgEd25519 (toy_cert 1) (KeyEd25519 (repeat 1 32))).
Proof. reflexivity. Qed.

Lemma guid_read_back_witness :
  exists s s' k k',
    begin_pin_session (H := link_transport steady) 1 toy_link = Some (inl s) /\
    write_chuid 1 (repeat 0xA5 16) s = Some (s', Ok tt) /\
    k = MkToken (end_session s').1 (MkGuid (repeat 0 16)) [] None None false None /\
    (do! _ := select_piv (H := link_transport steady) 1 in read_chuid (H := link_transport steady) 1) k = Some (k', Ok tt) /\
    tok_guid k' = MkGuid (repeat 0xA5 16) /\
    tok_chuid_raw k' = Some (enc_tlv 0x53 (build_chuid_object (repeat 0xA5 16))) /\
    object (card_of steady s') OBJECT_CHUID = tok_chuid_raw k'.
Proof. apply (guid_read_back steady 1 toy_link (repeat 0xA5 16) []); reflexivity. Defined.

Definition toy_des (key block : bytes) : bytes := take 8 (xor_key key block ++ repeat 0 8).

Lemma authenticate_admin_exact_witness :
  let c := card_of steady toy_session in
  let ok := mgmt_passes c (toy_des DEFAULT_MGMT_KEY (witness_of c)) in
  (len DEFAULT_MGMT_KEY = 24 /\ ok = true) /\
  exists s', authenticate_admin 1 toy_des DEFAULT_MGMT_KEY ALG_TDEA_3KEY toy_session
             = Some (s', if ok then Ok tt else Err ManagementAuthFailed) /\
    vc_mgmt_authenticated (card_of steady s') = ok || vc_mgmt_authenticated c /\
    vc_pending_mgmt_witness (card_of steady s') = None.
Proof.
  split; [split; reflexivity|]. apply (authenticate_admin_exact steady 1 toy_des toy_session DEFAULT_MGMT_KEY);
    [split; reflexivity|reflexivity| |reflexivity].
  intros k b Hb. unfold toy_des, len. rewrite length_take, length_app, repeat_length. lia.
Defined.
