(* ===== verification/HostEcdh.v ===== *)
(** * HostEcdh: the PIN session and the key agreement against the card, end to end

    [CardEcdh] over the link of [HostCard]: a card without queued faults answers
    every command without asking for GET RESPONSE, so every method of the host
    returns; the loop that asks for the PIN ends; and the key agreement gives
    the secret of the card's key. *)

From Stdlib Require Import ZArith Lia String.
From stdpp Require Import base tactics list numbers gmap strings.
From S2P Require Import Prelude PivError Reader Tlv Guid Apdu CardTlv CardState PinSpec Card CardPin CardSafe.
From S2P Require Import Transport Walk Slot Session CardEcdh HostCard HostObjects.

Local Open Scope Z_scope.

(** ** The card's answers are whole *)

Section Plain.
Context {K : CardCrypto}.
Implicit Type c : VirtualCard K.

(** The answer ends in a status word that asks for nothing more. *)
Definition whole (resp : bytes) : Prop := exists d x y, resp = d ++ sw_bytes x y /\ x <> 0x61.

Definition plain c (resp : bytes) c' : Prop := whole resp /\ vc_faults c' = vc_faults c.

Lemma whole_app d x y : x <> 0x61 -> whole (d ++ sw_bytes x y).
Proof. intros H. now exists d, x, y. Qed.

Lemma whole_sw x y : x <> 0x61 -> whole (sw_bytes x y).
Proof. exact (whole_app [] x y). Qed.

Lemma install_faults c slot p pol o c' : install_slot_key c slot p pol o = Ok c' -> vc_faults c' = vc_faults c.
Proof. unfold install_slot_key. intros H. run_cases; reflexivity. Qed.

Lemma gate_faults now c slot pass c' : pass_touch_gate now c slot = (pass, c') -> vc_faults c' = vc_faults c.
Proof. unfold pass_touch_gate. intros H. run_cases; reflexivity. Qed.

Lemma consume_faults c p : vc_faults (consume_verify c p) = vc_faults c.
Proof. unfold consume_verify. now case_match. Qed.

Ltac whole_tac :=
  first [ apply whole_sw; discriminate | apply whole_app; discriminate
        | rewrite !app_assoc; apply whole_app; discriminate
        | match goal with |- whole (?a :: ?b :: ?d :: ?e :: ?x ++ ?w) =>
            change (whole (([a; b; d; e] ++ x) ++ w)); apply whole_app; discriminate
          end ].

Ltac plain_tac :=
  intros resp c' H; run_cases; (split; [whole_tac|]); rewrite ?consume_faults;
  repeat match goal with
  | H : pass_touch_gate _ _ _ = _ |- _ => apply gate_faults in H
  | H : install_slot_key _ _ _ _ _ = Ok _ |- _ => apply install_faults in H
  end; first [reflexivity | assumption].

Lemma handlers_plain now c :
  (forall apdu, gives (handle_get_data c apdu) (plain c)) /\ (forall apdu, gives (handle_put_data c apdu) (plain c)) /\
  (forall apdu, gives (handle_select c apdu) (plain c)) /\ (forall body, gives (handle_verify c body) (plain c)) /\
  (forall p body, gives (handle_change_reference_data c p body) (plain c)) /\
  (forall body, gives (handle_reset_retry_counter c body) (plain c)) /\
  gives (handle_factory_reset c) (plain c) /\ (forall body, gives (handle_set_mgmt_key c body) (plain c)) /\
  (forall slot, gives (handle_attest c slot) (plain c)) /\ (forall slot, gives (handle_get_metadata c slot) (plain c)) /\
  (forall slot body, gives (handle_generate_asymmetric c slot body) (plain c)) /\
  (forall alg slot body, gives (handle_import_asymmetric c alg slot body) (plain c)) /\
  (forall body, gives (handle_general_authenticate_mgmt_key c body) (plain c)) /\
  (forall body, gives (handle_general_authenticate_ecdh_slot_9d now c body) (plain c)) /\
  (forall slot body, gives (sign_ecdsa_slot now c body slot) (plain c)).
Proof.
  repeat match goal with |- _ /\ _ => split end; intros;
  [ unfold handle_get_data | unfold handle_put_data | unfold handle_select | unfold handle_verify
  | unfold handle_change_reference_data | unfold handle_reset_retry_counter | unfold handle_factory_reset
  | unfold handle_set_mgmt_key | unfold handle_attest | unfold handle_get_metadata | unfold handle_generate_asymmetric
  | unfold handle_import_asymmetric | unfold handle_general_authenticate_mgmt_key
  | unfold handle_general_authenticate_ecdh_slot_9d | unfold sign_ecdsa_slot ]; plain_tac.
Qed.

Lemma take_no_fault c i : vc_faults c = [] -> take_fault c i = (None, c).
Proof. intros H. unfold take_fault. now rewrite H. Qed.

Lemma dispatch_command_plain now c apdu : vc_faults c = [] -> gives (dispatch_command now c apdu) (plain c).
Proof.
  intros Hf resp c' H. unfold dispatch_command in H.
  destruct (len apdu <? 4); [injection H as <- <-; now split; [apply whole_sw|]|].
  apply res_bind_Ok_inv in H as (cla & _ & H). apply res_bind_Ok_inv in H as (ins & _ & H).
  apply res_bind_Ok_inv in H as (p1 & _ & H). apply res_bind_Ok_inv in H as (p2 & _ & H).
  rewrite take_no_fault in H by exact Hf.
  repeat match type of H with
  | (if ?b then _ else _) = _ => destruct b
  | res_bind (apdu_body _) _ = _ => apply res_bind_Ok_inv in H as (body & _ & H)
  | res_bind _ _ = _ => apply res_bind_Ok_inv in H as (sign & _ & H)
  | match ?x with Some _ => _ | None => _ end = _ => destruct x
  | reply _ _ _ = _ => injection H as <- <-; split; [apply whole_sw; discriminate|reflexivity]
  | Ok (_, _) = _ => injection H as <- <-; split; [apply whole_app; discriminate|reflexivity]
  end;
  (destruct (handlers_plain now c) as (H1 & H2 & H3 & H4 & H5 & H6 & H7 & H8 & H9 & H10 & H11 & H12 & H13 & H14 & H15);
   first [ eapply H1; exact H | eapply H2; exact H | eapply H3; exact H | eapply H4; exact H | eapply H5; exact H
         | eapply H6; exact H | eapply H7; exact H | eapply H8; exact H | eapply H9; exact H | eapply H10; exact H
         | eapply H11; exact H | eapply H12; exact H | eapply H13; exact H | eapply H14; exact H | eapply H15; exact H ]).
Qed.

Lemma transmit_plain now c apdu : vc_faults c = [] -> gives (Card.transmit now c apdu) (plain c).
Proof.
  intros Hf resp c' H. destruct (transmit_inv now c apdu resp c' H) as [[-> ->]|(c2 & Hd & Hc)].
  - split; [now apply whole_sw|reflexivity].
  - destruct (dispatch_command_plain now (set_touch_blocked None c) apdu Hf resp c2 Hd) as [Hw Hs]. split; [exact Hw|].
    destruct Hc as [-> | ->]; exact Hs.
Qed.
End Plain.

(** ** Every method of a session returns *)

Section Returns.
Context {K : CardCrypto} (tick : Z -> Z) (fuel : nat) (L : CertLib) (des : bytes -> bytes -> bytes).
Implicit Type s : @PinSession (@Link K) (link_transport tick).

Definition faultless s : Prop := vc_faults (card_of tick s) = [].

(** One command: the card's answer is the outcome, and its state is the card's. *)
Lemma transmit_one a s :
  faultless s ->
  exists s' r, Session.transmit fuel a s = Some (s', r) /\ faultless s' /\
    (card_of tick s' = card_of tick s \/
     exists now resp, Card.transmit now (card_of tick s) (apdu_to_bytes a) = Ok (resp, card_of tick s')).
Proof.
  intros Hs. unfold Session.transmit, transmit_on, io_bind at 1. rewrite raw_session_eq. cbv zeta.
  destruct (Card.transmit _ _ _) as [[resp c]|[]|] eqn:Ht; [|eexists; eexists; split; [reflexivity|split; [exact Hs|now left]]].
  destruct (transmit_plain _ _ _ Hs resp c Ht) as [(d & x & y & -> & Hx) Hf].
  pose proof (len_resp d (MkSw x y)) as Hl. pose proof (split_sw_app d (MkSw x y)) as Hsp. simpl in Hl, Hsp.
  unfold sw_bytes in *. rewrite Hl. unfold io_bind, io_lift. rewrite Hsp. unfold has_more_data. simpl.
  rewrite (proj2 (Z.eqb_neq x 0x61) Hx). eexists; eexists; split; [reflexivity|].
  split; [exact (eq_trans Hf Hs)|right; eauto].
Qed.

Lemma transmit_returns a : returns faultless (Session.transmit fuel a).
Proof. intros s Hs. destruct (transmit_one a s Hs) as (s' & r & Hr & Hf & _). eauto. Qed.

(** A property of the card that one command keeps. *)
Lemma transmit_returns_card (P : VirtualCard K -> Prop) a :
  (forall now c resp c', vc_faults c = [] -> P c -> Card.transmit now c (apdu_to_bytes a) = Ok (resp, c') -> P c') ->
  returns (fun s => faultless s /\ P (card_of tick s)) (Session.transmit fuel a).
Proof.
  intros HP s [Hs Hc]. destruct (transmit_one a s Hs) as (s' & r & Hr & Hf & Hcase).
  exists s', r. split; [exact Hr|]. split; [exact Hf|]. destruct Hcase as [->|(now & resp & Ht)]; [exact Hc|eauto].
Qed.

Lemma command_returns a : returns faultless (command fuel a).
Proof.
  apply returns_bind; [apply transmit_returns|]. intros [d sw].
  apply returns_bind; [apply returns_lift|]. intros _. apply returns_ret.
Qed.
#[local] Hint Resolve transmit_returns command_returns : returns.

Ltac returns_tac :=
  repeat match goal with
  | |- returns _ (io_bind _ _) => apply returns_bind; [|intros]
  | |- returns _ (let '(_, _) := ?x in _) => destruct x
  | |- returns _ (if _ then _ else _) => case_match
  | |- returns _ (io_modify set_pin_verified) => apply returns_modify; now intros
  | |- _ => solve [auto with returns]
  end.

Lemma run_op_returns op : returns faultless (run_op tick fuel L des op).
Proof.
  destruct op; cbn [run_op]; unfold ignore, Session.verify_pin, pin_retries_remaining, read_slot_on, sign_prehash,
    sign_prehash_with_alg, ecdh_derive, general_authenticate, attested_policy, authenticate_admin, generate_key,
    import_ec_key, Session.change_pin, change_puk, change_reference_data, reset_pin, reference_command,
    set_management_key_3des, write_chuid, put_cert, clear_cert, write_keyhistory, put_data; returns_tac.
Qed.

Lemma run_ops_return ops : returns faultless (run_ops tick fuel L des ops).
Proof.
  induction ops as [|op ops IH]; [apply returns_ret|]. cbn [run_ops].
  apply returns_bind; [apply returns_try, run_op_returns|]. now intros _.
Qed.
End Returns.

(** ** Commands that leave the PIN's secrets alone *)

Section Secrets.
Context {K : CardCrypto}.
Implicit Type c : VirtualCard K.

Definition same_secrets c c' : Prop :=
  ps_pin (pin_of c') = ps_pin (pin_of c) /\ ps_retries (pin_of c') = ps_retries (pin_of c) /\
  (pin_state_ok (pin_of c) -> pin_state_ok (pin_of c')).

(** The instructions that compare or replace a secret. *)
Definition secret_ins (i : Z) : Prop := i = Ins.VERIFY \/ i = Ins.CHANGE_PIN \/ i = Ins.RESET_PIN \/ i = Ins.YK_RESET.

Lemma transmit_same_secrets now c a resp c' :
  ~ secret_ins (ins a) -> Card.transmit now c (apdu_to_bytes a) = Ok (resp, c') -> same_secrets c c'.
Proof.
  intros Hi Ht. destruct (transmit_pin now c _ resp c' Ht) as (e & He & _ & Hp). unfold same_secrets. rewrite Hp.
  unfold secret_ins in Hi.
  destruct e; simpl in He; try (split; [reflexivity|split; [reflexivity|exact (fun H => H)]]); exfalso; apply Hi; rewrite apdu_to_bytes_header in He;
    try apply proj1 in He; injection He; auto.
Qed.
End Secrets.

(** *** The two exchanges of a key agreement *)

Section Agreement.
Context {K : CardCrypto} (tick : Z -> Z) (fuel : nat) (L : CertLib).
Implicit Type c : VirtualCard K.
Implicit Type s : @PinSession (@Link K) (link_transport tick).

Lemma handle_get_data_same c apdu resp c' : handle_get_data c apdu = Ok (resp, c') -> c' = c.
Proof. unfold handle_get_data. intros H. run_cases; reflexivity. Qed.

(** GET DATA changes nothing the PIN or the applet depend on. *)
Lemma read_slot_returns (p : PinState) slot :
  returns (fun s => faultless tick s /\ vc_selected_piv (card_of tick s) = true /\ pin_of (card_of tick s) = p)
    (read_slot_on fuel L slot).
Proof.
  apply returns_bind; [apply returns_lift|]. intros tag. apply returns_built. intros a Ha.
  apply returns_bind.
  - apply (transmit_returns_card tick fuel (fun c => vc_selected_piv c = true /\ pin_of c = p)). intros now c resp c' Hf [Hs Hp] Ht.
    assert (Hh : take 4 (apdu_to_bytes a) = [0x00; Ins.GET_DATA; 0x3F; 0xFF]).
    { unfold apdu_get_data in Ha. apply res_bind_Ok_inv in Ha as (? & _ & Ha).
      apply res_bind_Ok_inv in Ha as (? & _ & Ha). injection Ha as <-. apply apdu_to_bytes_header. }
    rewrite (transmit_dispatch now c _ _ _ _ _ (conj Hf Hs) Hh) in Ht.
    assert (Hf0 : vc_faults (set_touch_blocked None c) = []) by exact Hf.
    rewrite (dispatch_get_data now _ _ Hf0 Hh) in Ht.
    apply res_bind_Ok_inv in Ht as ([r2 c2] & Hg & Ht). apply handle_get_data_same in Hg as ->.
    injection Ht as _ <-. now split.
  - intros [d sw]. case_match; [apply returns_err|]. apply returns_bind; [apply returns_lift|]. intros cert.
    apply returns_bind; [apply returns_lift|]. intros der. apply returns_bind; [apply returns_lift|].
    intros [alg key]. apply returns_ret.
Qed.

Lemma ecdh_returns c0 slot partner :
  returns (fun s => faultless tick s /\ same_secrets c0 (card_of tick s)) (ecdh_derive fuel slot partner).
Proof.
  apply returns_bind; [apply returns_lift|]. intros _. apply returns_built. intros template _.
  apply returns_bind.
  - apply (transmit_returns_card tick fuel (same_secrets c0)). intros now c resp c' _ (H1 & H2 & H3) Ht.
    apply transmit_same_secrets in Ht as (H4 & H5 & H6).
    + split; [now rewrite H4|]. split; [now rewrite H5|auto].
    + unfold secret_ins. simpl. intuition discriminate.
  - intros [d sw]. case_match; [apply returns_err|]. apply returns_bind; [apply returns_lift|].
    intros _. apply returns_lift.
Qed.
End Agreement.

(** ** The loop that asks for the PIN *)

Section PinLoop.
Context {K : CardCrypto} (tick : Z -> Z) (fuel : nat) (L : CertLib).
Context {Q : Type} (pin_source : PinRequest -> Q -> Q * option bytes).
Implicit Type r : @Run (@Link K) (link_transport tick) Q.

(** The source counts the times it is asked. *)
Context (asked : Q -> nat) (Hasked : forall req q, asked (pin_source req q).1 = S (asked q)).

Definition run_card_of r : VirtualCard K := card_of tick (run_session r).
Definition run_pin r : PinState := pin_of (run_card_of r).

(** The card's PIN, as the host pads it. *)
Definition right_pin (p : PinState) (pin : bytes) : Prop := len pin <= 8 /\ pin_block pin = ps_pin p.

Definition cache_right (p : PinState) (cached : option bytes) : Prop := forall pin, cached = Some pin -> right_pin p pin.

(** The turns the loop can take: one more than the tries that are left to lose. *)
Definition turns (p : PinState) : nat := Z.to_nat (Z.max 1 (ps_retries p)).

Lemma verify_outcome_right p pin :
  pin_state_ok p -> verify_outcome p (pin_block pin) = Ok tt -> pin_block pin = ps_pin p.
Proof.
  intros _. unfold verify_outcome. destruct (ps_retries p =? 0); [discriminate|].
  destruct (bytes_eqb _ _) eqn:Hb; [|destruct (ps_retries p =? 1); discriminate]. intros _. now apply bool_decide_eq_true in Hb.
Qed.

Lemma pin_step_same p b : ps_pin (pin_step p (EvVerify b)) = ps_pin p.
Proof. unfold pin_step, try_pin. repeat case_match; reflexivity. Qed.

Lemma verify_step_ok p b : pin_state_ok p -> pin_state_ok (pin_step p (EvVerify b)).
Proof.
  intros (H1 & H2 & H3 & H4). unfold pin_step, try_pin, pin_state_ok. destruct (ps_retries p =? 0) eqn:H0; [now repeat split|].
  bprop. destruct (bytes_eqb _ _); simpl; repeat split; try assumption; unfold DEFAULT_PIN_RETRIES; lia.
Qed.

(** A wrong PIN with tries left to lose takes one. *)
Lemma verify_outcome_wrong p pin n :
  pin_state_ok p -> verify_outcome p (pin_block pin) = Err (PinIncorrect n) ->
  ps_retries (pin_step p (EvVerify (pin_block pin))) = ps_retries p - 1 /\ 2 <= ps_retries p.
Proof.
  intros (Hr & _). unfold verify_outcome, pin_step, try_pin. destruct (ps_retries p =? 0) eqn:H0; [discriminate|].
  destruct (bytes_eqb _ _); [discriminate|]. destruct (ps_retries p =? 1) eqn:H1; [discriminate|]. bprop. simpl. intros _. lia.
Qed.

(** What the loop leaves behind. *)
Record loop_post r r' : Prop := {
  lp_applet : applet_ok (run_card_of r');
  lp_state : pin_state_ok (run_pin r');
  lp_pin : ps_pin (run_pin r') = ps_pin (run_pin r);
  lp_cache : cache_right (run_pin r') (run_cached r');
}.

Lemma next_pin_runs guid rr r :
  exists q o, next_pin pin_source guid rr r = Some (MkRun (run_session r) q None, ok_or o EcdhPinDeclined) /\
    (asked q <= S (asked (run_source r)))%nat /\
    (forall pin, run_cached r = Some pin -> o = Some pin /\ q = run_source r).
Proof.
  unfold next_pin. destruct (run_cached r) as [pin|] eqn:Hc.
  - exists (run_source r), (Some pin). split; [reflexivity|]. split; [lia|]. now intros ? [= <-].
  - destruct (pin_source _ _) as [q o] eqn:Hs. exists q, o. split; [reflexivity|].
    split; [|discriminate]. pose proof (Hasked (MkPinRequest guid SLOT_9D rr) (run_source r)) as Ha.
    rewrite Hs in Ha. simpl in Ha. lia.
Qed.

Lemma turn_loop_post r r' pin (cached : option bytes) :
  applet_ok (run_card_of r') -> pin_state_ok (run_pin r) ->
  run_pin r' = pin_step (run_pin r) (EvVerify (pin_block pin)) ->
  cache_right (run_pin r') (run_cached r') -> loop_post r r'.
Proof.
  intros Ha Hp He Hc. constructor; [exact Ha| |..]; try exact Hc; rewrite He; [now apply verify_step_ok|apply pin_step_same].
Qed.

Lemma loop_post_trans r r1 r2 : loop_post r r1 -> loop_post r1 r2 -> loop_post r r2.
Proof. intros [_ _ H1 _] [Ha Hs H2 Hc]. constructor; try assumption. now rewrite H2. Qed.

Lemma try_on_session {A} (m : IO PivError (@PinSession (@Link K) (link_transport tick)) A) r s' a :
  m (run_session r) = Some (s', a) ->
  io_try (F := CardEcdhError) (on_session m) r
  = Some (MkRun s' (run_source r) (run_cached r),
          match a with Ok a => Ok (inl a) | Err e => Ok (inr e) | Panic => Panic end).
Proof. intros H. unfold io_try, on_session. rewrite H. now destruct a. Qed.

Lemma pin_loop_runs guid n : forall rr r,
  applet_ok (run_card_of r) -> pin_state_ok (run_pin r) -> (turns (run_pin r) <= n)%nat ->
  exists r' res, pin_loop fuel pin_source n guid rr r = Some (r', res) /\ loop_post r r' /\
    (asked (run_source r') <= asked (run_source r) + turns (run_pin r))%nat /\
    (res = Ok tt -> run_cached r' <> None /\ ps_verified (run_pin r') = true).
Proof.
  induction n as [|n IH]; intros rr r Ha Hp Hn; [unfold turns in Hn; lia|]. cbn [pin_loop].
  destruct (next_pin_runs guid rr r) as (q & o & Hnext & Hq & _). unfold io_bind at 1. rewrite Hnext.
  assert (Ht : (1 <= turns (run_pin r))%nat) by (unfold turns; lia).
  set (r1 := MkRun (run_session r) q None).
  destruct o as [pin|]; [|exists r1; eexists; split; [reflexivity|split; [|split; [simpl; lia|discriminate]]];
                          constructor; auto; discriminate].
  cbn [ok_or]. unfold io_bind at 1. destruct (Z.le_gt_cases (len pin) 8) as [Hl|Hl].
  2:{ assert (Hv : Session.verify_pin fuel pin (run_session r1) = Some (run_session r1, Err (PivOther (PinTooLong (len pin))))).
      { unfold Session.verify_pin. now rewrite (proj2 (Z.ltb_lt 8 (len pin)) Hl). }
      rewrite (try_on_session _ r1 _ _ Hv). exists r1. eexists. split; [reflexivity|]. split; [|split; [simpl; lia|discriminate]].
      constructor; auto; discriminate. }
  destruct (verify_run tick fuel (run_session r) pin Ha Hp Hl) as (s' & Hv & Hps & Ha' & _).
  change (pin_of (card_of tick (run_session r))) with (run_pin r) in Hv, Hps.
  rewrite (try_on_session _ r1 s' _ Hv). cbn [run_source run_cached r1].
  set (r2 := MkRun s' q None). change (pin_of (card_of tick s')) with (run_pin r2) in Hps.
  assert (Hpost : forall cached, cache_right (run_pin r2) cached -> loop_post r (MkRun s' q cached)).
  { intros cached Hc. now apply turn_loop_post with pin. }
  destruct (verify_outcome (run_pin r) (pin_block pin)) as [[]|e|] eqn:Ho.
  - exists (MkRun s' q (Some pin)), (Ok tt). split; [reflexivity|]. split; [|split; [simpl; lia|]].
    + apply Hpost. intros ? [= <-]. split; [exact Hl|]. rewrite Hps, pin_step_same. now apply verify_outcome_right.
    + intros _. split; [discriminate|]. change (ps_verified (run_pin r2) = true). rewrite Hps.
      revert Ho. unfold verify_outcome, pin_step, try_pin. destruct (ps_retries _ =? 0); [discriminate|].
      destruct (bytes_eqb _ _); [reflexivity|]. now destruct (ps_retries _ =? 1).
  - destruct e; try (exists r2; eexists; split; [reflexivity|split; [apply Hpost; discriminate|split; [simpl; lia|discriminate]]]).
    destruct (verify_outcome_wrong _ _ _ Hp Ho) as [Hret Hge].
    assert (Hpok : pin_state_ok (run_pin r2)) by (rewrite Hps; now apply verify_step_ok).
    assert (Hturns : turns (run_pin r) = S (turns (run_pin r2))) by (unfold turns; rewrite Hps, Hret; lia).
    destruct (IH (Some (retries_u8 retries)) r2 Ha' Hpok ltac:(lia)) as (r' & res & Hrun & Hlp & Hasks & Hok).
    exists r', res. split; [exact Hrun|]. split; [|split; [simpl in Hasks; lia|exact Hok]].
    apply loop_post_trans with r2; [apply Hpost; discriminate|exact Hlp].
  - exfalso. revert Ho. unfold verify_outcome. repeat (case_match; try discriminate).
Qed.

(** *** The whole method *)

(** What a call leaves behind, whatever it returns. *)
Record run_post r r' : Prop := {
  rp_faults : vc_faults (run_card_of r') = [];
  rp_state : pin_state_ok (run_pin r');
  rp_pin : ps_pin (run_pin r') = ps_pin (run_pin r);
  rp_cache : run_cached r' = run_cached r \/ cache_right (run_pin r') (run_cached r');
  rp_asked : (asked (run_source r') <= asked (run_source r) + turns (run_pin r))%nat;
}.

Lemma on_session_runs {A} (m : IO PivError (@PinSession (@Link K) (link_transport tick)) A) r s' a :
  m (run_session r) = Some (s', a) ->
  io_map_err EcdhPiv (on_session m) r = Some (MkRun s' (run_source r) (run_cached r), map_err EcdhPiv a).
Proof. intros H. unfold io_map_err, on_session. now rewrite H. Qed.

Lemma ecdh_body_runs n guid want partner r :
  applet_ok (run_card_of r) -> pin_state_ok (run_pin r) -> (turns (run_pin r) <= n)%nat ->
  exists r' res, ecdh_body fuel L pin_source n guid want partner r = Some (r', res) /\ run_post r r'.
Proof.
  intros [Hf Hs] Hp Hn. unfold ecdh_body.
  destruct (read_slot_returns tick fuel L (run_pin r) SLOT_9D (run_session r) (conj Hf (conj Hs eq_refl)))
    as (s1 & slot & Hread & Hf1 & Hs1 & Hp1).
  unfold io_bind at 1. rewrite (on_session_runs _ r s1 slot Hread).
  set (r1 := MkRun s1 (run_source r) (run_cached r)). change (run_pin r1 = run_pin r) in Hp1.
  assert (Hpost1 : run_post r r1) by (constructor; [exact Hf1|now rewrite Hp1|now rewrite Hp1|now left|simpl; lia]).
  destruct slot as [slot|e|]; cbn [map_err]; [|now exists r1, (Err (EcdhPiv e))|now exists r1, Panic].
  unfold io_bind at 1, io_lift.
  destruct (piv_err _) as [point|e|]; [|now exists r1, (Err e)|now exists r1, Panic].
  case_match; [now exists r1, (Err NotThisCard)|].
  destruct (pin_loop_runs guid n None r1 (conj Hf1 Hs1)) as (r2 & res & Hloop & [Ha2 Hok2 Hp2 Hc2] & Hasks & _);
    [now rewrite Hp1|now rewrite Hp1|].
  unfold io_bind. rewrite Hloop.
  assert (Hpost2 : run_post r r2).
  { constructor; [exact (proj1 Ha2)|exact Hok2|now rewrite Hp2, Hp1|now right|]. rewrite Hp1 in Hasks. exact Hasks. }
  destruct res as [[]|e|]; [|now exists r2, (Err e)|now exists r2, Panic].
  destruct (ecdh_returns tick fuel (run_card_of r2) slot partner (run_session r2))
    as (s3 & secret & Hder & Hf3 & H3pin & H3ret & H3ok); [split; [exact (proj1 Ha2)|now split]|].
  rewrite (on_session_runs _ r2 s3 secret Hder). set (r3 := MkRun s3 (run_source r2) (run_cached r2)).
  exists r3. eexists. split; [reflexivity|]. destruct Hpost2 as [_ _ Hpin _ Hask]. constructor.
  - exact Hf3.
  - exact (H3ok Hok2).
  - exact (eq_trans H3pin Hpin).
  - right. intros pin Hpin2. destruct (Hc2 pin Hpin2) as [Hl Hb]. split; [exact Hl|]. rewrite Hb. symmetry. exact H3pin.
  - exact Hask.
Qed.

Implicit Type e : CardEcdh (@Link K) Q.

Definition ce_card e : VirtualCard K := lk_card (tok_transport (ce_token e)).

(** The card after the session that [r] holds has ended. *)
Lemma ended_card (s : @PinSession (@Link K) (link_transport tick)) :
  (forall t, t = (end_session s).1 \/ t = drop_session s ->
   vc_faults (lk_card t) = vc_faults (card_of tick s) /\
   ps_pin (pin_of (lk_card t)) = ps_pin (pin_of (card_of tick s)) /\
   (pin_state_ok (pin_of (card_of tick s)) -> pin_state_ok (pin_of (lk_card t)))) /\ (end_session s).2 = Ok tt.
Proof.
  unfold end_session, drop_session. cbn [session_end link_transport]. unfold link_end, end_transaction, disposition.
  destruct (ps_pin_verified s); (split; [|reflexivity]); intros t [-> | ->]; (split; [reflexivity|split; [reflexivity|exact (fun H => H)]]).
Qed.

Lemma ended_retries (s : @PinSession (@Link K) (link_transport tick)) :
  ps_retries (pin_of (lk_card (drop_session s))) = ps_retries (pin_of (card_of tick s)).
Proof.
  unfold drop_session. cbn [session_end link_transport]. unfold link_end, end_transaction, disposition.
  now destruct (ps_pin_verified s).
Qed.

(** What a call of [ecdh] leaves behind. *)
Definition ecdh_post e e' : Prop :=
  vc_faults (ce_card e') = [] /\ pin_state_ok (pin_of (ce_card e')) /\
  ps_pin (pin_of (ce_card e')) = ps_pin (pin_of (ce_card e)) /\
  (ce_cached_pin e' = ce_cached_pin e \/ cache_right (pin_of (ce_card e')) (ce_cached_pin e')) /\
  (asked (ce_source e') <= asked (ce_source e) + turns (pin_of (ce_card e)))%nat.

Lemma cache_right_pin p p' cached : ps_pin p' = ps_pin p -> cache_right p cached -> cache_right p' cached.
Proof. intros He Hc pin H. destruct (Hc pin H) as [Hl Hb]. split; [exact Hl|]. now rewrite He. Qed.

Lemma after_run_post e r r' t :
  run_post r r' -> run_pin r = pin_of (ce_card e) -> run_source r = ce_source e -> run_cached r = ce_cached_pin e ->
  t = (end_session (run_session r')).1 \/ t = drop_session (run_session r') ->
  ecdh_post e (after_run (ce_token e) t r').
Proof.
  intros [Hf Hs Hp Hc Ha] Hrp Hrs Hrc Ht. destruct (proj1 (ended_card (run_session r')) t Ht) as (E1 & E2 & E3).
  unfold ecdh_post. change (ce_card (after_run (ce_token e) t r')) with (lk_card t).
  change (ce_cached_pin (after_run (ce_token e) t r')) with (run_cached r').
  change (ce_source (after_run (ce_token e) t r')) with (run_source r').
  split; [exact (eq_trans E1 Hf)|]. split; [exact (E3 Hs)|]. rewrite <- Hrp, <- Hrs, <- Hrc.
  split; [exact (eq_trans E2 Hp)|]. split; [|exact Ha].
  destruct Hc as [Hc|Hc]; [now left|right]. exact (cache_right_pin _ _ _ E2 Hc).
Qed.

Lemma ecdh_runs n recipient partner e :
  vc_faults (ce_card e) = [] -> pin_state_ok (pin_of (ce_card e)) -> (turns (pin_of (ce_card e)) <= n)%nat ->
  exists e' res, ecdh (H := link_transport tick) fuel L pin_source n recipient partner e = Some (e', res) /\ ecdh_post e e'.
Proof.
  intros Hf Hp Hn. assert (Hsame : ecdh_post e e) by (repeat split; try assumption; try apply Hp; [now left|lia]).
  unfold ecdh. destruct (res_bind _ _) as [[want peer]|err|]; [|eauto|eauto].
  rewrite (begin_run tick fuel _ Hf). unfold ecdh_in_session.
  set (r := MkRun (session_at tick (selected (lk_card (tok_transport (ce_token e)))) _ false) (ce_source e) (ce_cached_pin e)).
  assert (Hr : applet_ok (run_card_of r)) by exact (selected_applet _ Hf).
  destruct (ecdh_body_runs n (tok_guid (ce_token e)) want peer r Hr Hp Hn) as (r' & res & Hrun & Hpost). rewrite Hrun.
  assert (Hafter : forall t, t = (end_session (run_session r')).1 \/ t = drop_session (run_session r') ->
                   ecdh_post e (after_run (ce_token e) t r')) by (intros t; now apply after_run_post with r).
  destruct res as [resp|err|].
  - pose proof (proj2 (ended_card (run_session r'))) as Hok.
    destruct (end_session (run_session r')) as [t ended] eqn:He. simpl in Hok. subst ended.
    eexists. eexists. split; [reflexivity|]. apply Hafter. now left.
  - eexists. eexists. split; [reflexivity|]. apply Hafter. now right.
  - eexists. eexists. split; [reflexivity|]. apply Hafter. now right.
Qed.
End PinLoop.

(** ** The key agreement's messages *)

(** The host's template around the peer's point. *)
Definition ecdh_template (point : bytes) : bytes := [0x7C; len point + 4; 0x82; 0x00; 0x85; len point] ++ point.

Lemma ga_template_ecdh point : len point = 65 -> ga_template GA_EXPONENT point = Ok (ecdh_template point).
Proof.
  intros Hl. unfold ga_template. rewrite write_tag_value_Ok by reflexivity. cbn [res_bind].
  rewrite write_tag_value_Ok by lia. cbn [res_bind]. unfold ecdh_template. rewrite Hl.
  assert (He : tw_buf (tw_push (tw_push tlv_writer_new (enc_tlv GA_RESPONSE [])) (enc_tlv GA_EXPONENT point))
               = [0x82; 0x00; 0x85; 0x41] ++ point) by (unfold enc_tlv at 2; rewrite Hl; reflexivity).
  rewrite He, write_tag_value_Ok by (rewrite len_app, Hl; reflexivity). cbn [res_bind].
  unfold enc_tlv. rewrite len_app, Hl. reflexivity.
Qed.

(** One short item off the card's walk. *)
Lemma ga_item_short t v rest :
  len v < 0x80 -> ga_item ([t; len v] ++ v ++ rest) = Ok (t, v, rest).
Proof.
  intros Hl. pose proof (len_nonneg v). pose proof (len_nonneg rest). set (cur := [t; len v] ++ v ++ rest).
  assert (Hlen : len cur = 2 + len v + len rest) by (unfold cur; rewrite !len_app; change (len [t; len v]) with 2; lia).
  assert (Hd : zdrop 2 cur = v ++ rest) by exact (zdrop_app [t; len v] _).
  unfold ga_item. change (first cur) with (Ok (E := unit) t). cbn [res_bind].
  rewrite slice_from_Ok by lia. cbn [res_bind]. change (zdrop 1 cur) with (len v :: v ++ rest).
  unfold ber_len, first. cbn [head ok_or res_bind hd_error]. rewrite (proj2 (Z.ltb_lt (len v) 0x80) Hl). cbn [res_bind].
  change (1 + 1) with 2. rewrite (proj2 (Z.ltb_ge (len cur) (2 + len v))) by lia.
  rewrite (slice_app 2 cur v rest) by (exact Hd || lia). cbn [res_bind].
  rewrite slice_from_Ok by lia. cbn [res_bind]. now rewrite (zdrop_step 2 cur v rest ltac:(lia) Hd).
Qed.

Lemma template_inner_short t v : len v < 0x80 -> template_inner t ([t; len v] ++ v) = Ok v.
Proof.
  intros Hl. pose proof (len_nonneg v). set (body := [t; len v] ++ v).
  assert (Hlen : len body = 2 + len v) by (unfold body; rewrite len_app; change (len [t; len v]) with 2; lia).
  assert (Hd : zdrop 2 body = v ++ []) by (rewrite app_nil_r; exact (zdrop_app [t; len v] _)).
  unfold template_inner. change (first body) with (Ok (E := unit) t). cbn [res_bind]. rewrite Z.eqb_refl. cbn [negb].
  rewrite slice_from_Ok by lia. cbn [res_bind]. change (zdrop 1 body) with (len v :: v).
  unfold ber_len, first. cbn [head ok_or res_bind hd_error]. rewrite (proj2 (Z.ltb_lt (len v) 0x80) Hl). cbn [res_bind].
  change (1 + 1) with 2. rewrite (proj2 (Z.ltb_ge (len body) (2 + len v))) by lia.
  now rewrite (slice_app 2 body v []) by (exact Hd || lia).
Qed.

(** The card finds the point in the host's template, and no challenge to sign. *)
Lemma ecdh_template_parses point :
  len point = 65 -> head point = Some 0x04 ->
  parse_ga_ecdh_request (ecdh_template point) = Ok point /\ parse_ga_sign_request (ecdh_template point) = Err tt.
Proof.
  intros Hl Hh. set (inner := [0x82; 0x00; 0x85; len point] ++ point).
  assert (Hi : ecdh_template point = [0x7C; len inner] ++ inner).
  { unfold ecdh_template, inner. rewrite len_app, Hl. reflexivity. }
  assert (Hin : template_inner 0x7C (ecdh_template point) = Ok inner).
  { rewrite Hi. apply template_inner_short. unfold inner. rewrite len_app, Hl. reflexivity. }
  assert (H1 : ga_item inner = Ok (0x82, [], [0x85; len point] ++ point)) by (apply (ga_item_short 0x82 []); reflexivity).
  assert (H2 : ga_item ([0x85; len point] ++ point) = Ok (0x85, point, [])).
  { rewrite <- (app_nil_r point) at 2. apply ga_item_short. lia. }
  assert (Hp : is_p256_point point = true).
  { unfold is_p256_point. rewrite Hl. destruct point as [|b l]; [discriminate|]. injection Hh as ->. reflexivity. }
  assert (Hn : length inner = S (S (length ([0x85; len point] ++ point)))) by reflexivity.
  assert (Hne : inner <> []) by discriminate. assert (Hne2 : [0x85; len point] ++ point <> []) by discriminate.
  unfold parse_ga_ecdh_request, parse_ga_sign_request. rewrite Hin. cbn [res_bind]. rewrite Hn. cbn [ga_walk].
  rewrite !(bool_decide_false (inner = [])) by exact Hne. rewrite H1. cbn [res_bind Z.eqb Pos.eqb].
  rewrite !(bool_decide_false (_ ++ point = [])) by exact Hne2. rewrite H2. cbn [res_bind Z.eqb Pos.eqb].
  rewrite Hp. split; [reflexivity|]. now rewrite bool_decide_true.
Qed.

Lemma parse_ga_response_enc x : len x = 32 -> parse_ga_response ([0x7C; 0x22; 0x82; 0x20] ++ x) = Ok x.
Proof.
  intros Hl. destruct (enc_template GA_RESPONSE x ltac:(lia) eq_refl) as [Hlen He]. rewrite Hl in Hlen, He.
  assert (H7 : tag_ok 0x7C) by by_compute. assert (H8 : tag_ok GA_RESPONSE) by by_compute.
  transitivity (parse_ga_response (enc_tlv 0x7C (enc_tlv GA_RESPONSE x))); [now rewrite He|]. unfold parse_ga_response.
  rewrite (wrapper_reads_all "GA response" 0x7C (enc_tlv GA_RESPONSE x) H7) by lia. cbn [res_bind].
  apply wrapper_reads_all; [exact H8|lia].
Qed.

(** ** One key agreement that succeeds *)

Section Success.
Context {K : CardCrypto} (tick : Z -> Z) (fuel : nat) (L : CertLib).
Context {Q : Type} (pin_source : PinRequest -> Q -> Q * option bytes).
Implicit Type c : VirtualCard K.
Implicit Type s : @PinSession (@Link K) (link_transport tick).

(** The card after VERIFY with its PIN. *)
Definition verified c : VirtualCard K :=
  settle Ins.VERIFY
    (CardState.set_command_since_verify false
       (CardState.set_pin_verified true (set_pin_retries DEFAULT_PIN_RETRIES (set_touch_blocked None c)))).

Lemma verify_right_transmit now c pin :
  applet_ok c -> right_pin (pin_of c) pin -> vc_pin_retries c <> 0 ->
  Card.transmit now c (apdu_to_bytes (pin_apdu pin)) = Ok (sw_bytes 0x90 0x00, verified c).
Proof.
  intros Ha [Hl Hr] Hn. pose proof (len_pin_block pin Hl) as Hb. change (pin_block pin = vc_pin c) in Hr.
  assert (Hh : take 4 (apdu_to_bytes (pin_apdu pin)) = VERIFY_HEADER) by apply apdu_to_bytes_header.
  assert (Hbody : apdu_body (E := Empty_set) (apdu_to_bytes (pin_apdu pin)) = Ok (Some (pin_block pin))).
  { apply (body_of (pin_apdu pin)); [exact (pin_block_nonempty pin Hl)|]. simpl. rewrite Hb. lia. }
  assert (Hf : vc_faults (set_touch_blocked None c) = []) by exact (proj1 Ha).
  rewrite (transmit_dispatch now c _ _ _ _ _ Ha Hh), (dispatch_verify now _ _ _ Hf Hh Hbody).
  unfold handle_verify. rewrite Hb. change (negb (8 =? 8)) with false. cbv iota.
  change (vc_pin_retries (set_touch_blocked None c)) with (vc_pin_retries c).
  change (vc_pin (set_touch_blocked None c)) with (vc_pin c).
  rewrite (proj2 (Z.eqb_neq _ _) Hn). rewrite Hr. replace (bytes_eqb (vc_pin c) (vc_pin c)) with true by (symmetry; now apply bool_decide_true).
  reflexivity.
Qed.

Lemma verify_right_run s pin :
  applet_ok (card_of tick s) -> right_pin (pin_of (card_of tick s)) pin -> vc_pin_retries (card_of tick s) <> 0 ->
  Session.verify_pin fuel pin s
  = Some (session_at tick (verified (card_of tick s)) (tick (lk_now (ps_session s))) true, Ok tt).
Proof.
  intros Ha Hr Hn. pose proof (proj1 Hr) as Hl. unfold Session.verify_pin.
  rewrite (proj2 (Z.ltb_ge 8 (len pin)) Hl), (verify_apdu_spec pin Hl). fold (pin_apdu pin).
  unfold io_bind at 1, io_lift. unfold io_bind.
  now rewrite (exchange tick fuel s (pin_apdu pin) [] 0x90 0x00 _ (verify_right_transmit _ _ pin Ha Hr Hn)) by discriminate.
Qed.

(** What the key agreement needs of the card: the key, and no touch. *)
Record ready c (scalar point : bytes) : Prop := {
  rd_key : vc_slot_9d_priv c = Some scalar;
  rd_scalar : p256_scalar_ok K scalar = true;
  rd_sec1 : p256_sec1_ok K point = true;
  rd_curve : p256_on_curve K point = true;
  rd_touch : effective_touch_policy c SLOT_9D = TOUCH_NEVER \/ vc_auto_touch c = true;
}.

Lemma touch_free now c : effective_touch_policy c SLOT_9D = TOUCH_NEVER \/ vc_auto_touch c = true ->
  pass_touch_gate now c 0x9D = (true, c).
Proof.
  intros [H|H]; unfold pass_touch_gate; change 0x9D with SLOT_9D.
  - now rewrite H.
  - rewrite H. now case_match.
Qed.

(** Right after VERIFY no PIN policy refuses. *)
Lemma pin_fresh c : vc_pin_verified c = true -> vc_command_since_verify c = false -> pin_refused c 0x9D = false.
Proof. intros H1 H2. unfold pin_refused. now rewrite H1, H2, !andb_false_r. Qed.

Definition agreed c : VirtualCard K :=
  settle Ins.GEN_AUTH (consume_verify (set_touch_blocked None c) (effective_pin_policy (set_touch_blocked None c) 0x9D)).

Lemma agreed_retries c : vc_pin_retries (agreed c) = vc_pin_retries c.
Proof. unfold agreed, settle, consume_verify. now destruct (_ =? PIN_ALWAYS). Qed.

Definition agree_apdu (point : bytes) : Apdu := apdu_general_authenticate 0x11 0x9D (ecdh_template point).

Lemma agree_transmit now c scalar point :
  applet_ok c -> ready c scalar point -> len point = 65 -> head point = Some 0x04 ->
  vc_pin_verified c = true -> vc_command_since_verify c = false ->
  Card.transmit now c (apdu_to_bytes (agree_apdu point))
  = Ok (([0x7C; 0x22; 0x82; 0x20] ++ p256_dh K scalar point) ++ sw_bytes 0x90 0x00, agreed c).
Proof.
  intros Ha [Hk Hs H1 H2 Ht] Hl Hp Hv Hc. destruct (ecdh_template_parses point Hl Hp) as [He Hsign].
  assert (Hh : take 4 (apdu_to_bytes (agree_apdu point)) = [0x00; Ins.GEN_AUTH; 0x11; 0x9D]) by apply apdu_to_bytes_header.
  assert (Hb : apdu_body (E := Empty_set) (apdu_to_bytes (agree_apdu point)) = Ok (Some (ecdh_template point))).
  { apply (body_of (agree_apdu point)); [discriminate|]. change (data (agree_apdu point)) with (ecdh_template point).
    unfold ecdh_template. rewrite len_app, Hl. reflexivity. }
  assert (Hf : vc_faults (set_touch_blocked None c) = []) by exact (proj1 Ha).
  assert (Href : pin_refused (set_touch_blocked None c) 0x9D = false) by (apply pin_fresh; assumption).
  rewrite (transmit_dispatch now c _ _ _ _ _ Ha Hh), (dispatch_agree now _ _ _ Hf Hh Hb Hsign).
  unfold handle_general_authenticate_ecdh_slot_9d. rewrite Href.
  change (vc_slot_9d_priv (set_touch_blocked None c)) with (vc_slot_9d_priv c). rewrite Hk, He. cbn [as_option res_bind].
  rewrite H1, H2, Hs. cbn [negb]. rewrite (touch_free now (set_touch_blocked None c) Ht). cbn [negb res_bind].
  unfold agreed. rewrite <- app_assoc. reflexivity.
Qed.

Lemma agree_run s slot scalar point :
  applet_ok (card_of tick s) -> ready (card_of tick s) scalar point -> len point = 65 -> head point = Some 0x04 ->
  vc_pin_verified (card_of tick s) = true -> vc_command_since_verify (card_of tick s) = false ->
  slot_algorithm slot = EcP256 -> slot_id slot = SLOT_9D -> len (p256_dh K scalar point) = 32 ->
  ecdh_derive fuel slot point s
  = Some (session_at tick (agreed (card_of tick s)) (tick (lk_now (ps_session s))) (ps_pin_verified s),
          Ok (p256_dh K scalar point)).
Proof.
  intros Ha Hr Hl Hp Hv Hc Halg Hid Hdh. unfold ecdh_derive. rewrite Halg, Hid.
  assert (Hval : validate_ec_point EcP256 point = Ok tt).
  { unfold validate_ec_point. destruct point as [|b l]; [discriminate|]. injection Hp as ->.
    cbn [res_bind]. rewrite (bool_decide_false (_ = [])) by discriminate. cbn [res_bind].
    rewrite (index_Ok (0x04 :: l) 0 0x04 l) by (reflexivity || lia). cbn [res_bind]. rewrite Hl. reflexivity. }
  rewrite Hval. unfold io_bind at 1, io_lift at 1. unfold general_authenticate.
  rewrite ga_template_ecdh by exact Hl. unfold io_bind at 1, io_lift at 1. unfold io_bind at 1.
  change (apdu_general_authenticate (alg_to_byte EcP256) SLOT_9D (ecdh_template point)) with (agree_apdu point).
  rewrite (exchange tick fuel s (agree_apdu point) _ 0x90 0x00 _ (agree_transmit _ _ scalar point Ha Hr Hl Hp Hv Hc)) by discriminate.
  change (as_u16 (MkSw 0x90 0x00) =? 0x6982) with false. cbv iota.
  change (require_success (MkSw 0x90 0x00)) with (Ok (E := PivError) tt). unfold io_bind, io_lift.
  now rewrite parse_ga_response_enc by exact Hdh.
Qed.

Implicit Type e : CardEcdh (@Link K) Q.

(** The PIN the call starts with, and the source after it was fetched. *)
Definition first_pin e : option bytes :=
  match ce_cached_pin e with
  | Some pin => Some pin
  | None => (pin_source (MkPinRequest (tok_guid (ce_token e)) SLOT_9D None) (ce_source e)).2
  end.
Definition source_after e : Q :=
  match ce_cached_pin e with
  | Some _ => ce_source e
  | None => (pin_source (MkPinRequest (tok_guid (ce_token e)) SLOT_9D None) (ce_source e)).1
  end.

(** The card holds the recipient: its slot 9D certificate, its key, its PIN. *)
Record holder e (recipient partner cert want scalar point pin : bytes) (key : KeyData) : Prop := {
  hd_faults : vc_faults (ce_card e) = [];
  hd_stored : object (ce_card e) CERT_9D = Some (enc_tlv 0x53 (Apdu.cert_object cert));
  hd_cert_len : len cert < 64000;
  hd_key : extract_public_key L cert = Ok (EcP256, key);
  hd_point : cert_sec1_point L cert = Ok want;
  hd_recipient : p256_uncompressed L recipient = Some want;
  hd_partner : p256_uncompressed L partner = Some point;
  hd_uncompressed : len point = 65 /\ head point = Some 0x04;
  hd_ready : ready (ce_card e) scalar point;
  hd_secret : len (p256_dh K scalar point) = 32;
  hd_pin : first_pin e = Some pin /\ right_pin (pin_of (ce_card e)) pin /\ vc_pin_retries (ce_card e) <> 0;
}.

Lemma after_run_card (token : PivToken (@Link K)) c now (r : @Run (@Link K) (link_transport tick) Q) :
  ce_card (after_run token (MkLink c now) r) = c.
Proof. reflexivity. Qed.

Lemma session_card c now b : lk_card (ps_session (session_at tick c now b)) = c.
Proof. reflexivity. Qed.

Lemma end_retries c d : vc_pin_retries (end_transaction c d) = vc_pin_retries c.
Proof. unfold end_transaction. now case_match. Qed.

Lemma verified_retries c : vc_pin_retries (verified c) = DEFAULT_PIN_RETRIES.
Proof. reflexivity. Qed.

(** The card at the end of the agreement, before the session ends. *)
Definition agreed_card e : VirtualCard K := agreed (verified (card_read (selected (ce_card e)))).

Lemma next_pin_first e (r : @Run (@Link K) (link_transport tick) Q) rr :
  run_source r = ce_source e -> run_cached r = ce_cached_pin e -> rr = None ->
  next_pin pin_source (tok_guid (ce_token e)) rr r
  = Some (MkRun (run_session r) (source_after e) None, ok_or (first_pin e) EcdhPinDeclined).
Proof.
  intros Hs Hc ->. unfold next_pin, first_pin, source_after. rewrite Hc, Hs. destruct (ce_cached_pin e); [unfold set_cached; now rewrite Hs|].
  now destruct (pin_source _ _).
Qed.

Lemma pin_loop_first n e (r : @Run (@Link K) (link_transport tick) Q) pin :
  run_source r = ce_source e -> run_cached r = ce_cached_pin e -> first_pin e = Some pin ->
  applet_ok (run_card_of tick r) -> right_pin (pin_of (run_card_of tick r)) pin -> vc_pin_retries (run_card_of tick r) <> 0 ->
  pin_loop fuel pin_source (S n) (tok_guid (ce_token e)) None r
  = Some (MkRun (session_at tick (verified (run_card_of tick r)) (tick (lk_now (ps_session (run_session r)))) true)
            (source_after e) (Some pin), Ok tt).
Proof.
  intros Hs Hc Hp Ha Hr Hn. cbn [pin_loop]. unfold io_bind at 1. rewrite (next_pin_first e r None Hs Hc eq_refl), Hp.
  cbn [ok_or]. unfold io_bind at 1.
  now rewrite (try_on_session tick _ (MkRun (run_session r) (source_after e) None) _ _ (verify_right_run _ pin Ha Hr Hn)).
Qed.

Lemma ecdh_body_agrees n e recipient partner cert want scalar point pin key now :
  holder e recipient partner cert want scalar point pin key ->
  exists now',
    ecdh_body fuel L pin_source (S n) (tok_guid (ce_token e)) want point
      (MkRun (session_at tick (selected (ce_card e)) now false) (ce_source e) (ce_cached_pin e))
    = Some (MkRun (session_at tick (agreed_card e) now' true) (source_after e) (Some pin), Ok (p256_dh K scalar point)).
Proof.
  intros [Hf Ho Hl Hkey Hpoint _ _ [Hu1 Hu2] Hready Hsec (Hpin & Hright & Hret)].
  set (s0 := session_at tick (selected (ce_card e)) now false).
  assert (Ha : applet_ok (card_of tick s0)) by exact (selected_applet _ Hf).
  pose proof (read_slot_run tick fuel L s0 SLOT_9D CERT_9D cert Ha eq_refl Hl Ho) as Hread.
  set (s1 := after tick s0 (card_read (card_of tick s0))) in Hread.
  assert (Ha1 : applet_ok (card_of tick s1)) by exact Ha.
  pose proof (pin_loop_first n e (MkRun s1 (ce_source e) (ce_cached_pin e)) pin eq_refl eq_refl Hpin Ha1 Hright Hret) as Hloop.
  set (s2 := session_at tick (verified (card_read (selected (ce_card e)))) (tick (lk_now (ps_session s1))) true).
  change (session_at tick (verified _) _ true) with s2 in Hloop.
  assert (Ha2 : applet_ok (card_of tick s2)) by exact Ha.
  assert (Hr2 : ready (card_of tick s2) scalar point) by (destruct Hready; constructor; assumption).
  pose proof (agree_run s2 (MkSlot SLOT_9D EcP256 cert key) scalar point Ha2 Hr2 Hu1 Hu2 eq_refl eq_refl eq_refl eq_refl Hsec) as Hagree.
  eexists. unfold ecdh_body, io_bind at 1.
  rewrite (on_session_runs tick _ (MkRun s0 (ce_source e) (ce_cached_pin e)) _ _ Hread).
  unfold slot_of. rewrite Hkey. cbn [map_err res_bind]. unfold io_bind at 1, io_lift at 1.
  unfold slot_sec1_point. cbn [slot_cert_der]. rewrite Hpoint. cbn [piv_err map_err].
  rewrite (bool_decide_true (want = want)) by reflexivity. cbn [negb run_source run_cached].
  unfold io_bind. rewrite Hloop.
  rewrite (on_session_runs tick _ (MkRun s2 (source_after e) (Some pin)) _ _ Hagree). reflexivity.
Qed.

(** The body up to the certificate. *)
Lemma ecdh_body_point n e want' partner cert key point now :
  vc_faults (ce_card e) = [] -> object (ce_card e) CERT_9D = Some (enc_tlv 0x53 (Apdu.cert_object cert)) -> len cert < 64000 ->
  extract_public_key L cert = Ok (EcP256, key) -> cert_sec1_point L cert = Ok point ->
  exists now',
    ecdh_body fuel L pin_source n (tok_guid (ce_token e)) want' partner
      (MkRun (session_at tick (selected (ce_card e)) now false) (ce_source e) (ce_cached_pin e))
    = (if negb (bool_decide (point = want')) then io_err NotThisCard
       else do! _ := pin_loop fuel pin_source n (tok_guid (ce_token e)) None in
            io_map_err EcdhPiv (on_session (ecdh_derive fuel (MkSlot SLOT_9D EcP256 cert key) partner)))
        (MkRun (session_at tick (card_read (selected (ce_card e))) now' false) (ce_source e) (ce_cached_pin e)).
Proof.
  intros Hf Ho Hl Hkey Hpoint. set (s0 := session_at tick (selected (ce_card e)) now false).
  assert (Ha : applet_ok (card_of tick s0)) by exact (selected_applet _ Hf).
  pose proof (read_slot_run tick fuel L s0 SLOT_9D CERT_9D cert Ha eq_refl Hl Ho) as Hread.
  eexists. unfold ecdh_body, io_bind at 1.
  rewrite (on_session_runs tick _ (MkRun s0 (ce_source e) (ce_cached_pin e)) _ _ Hread).
  unfold slot_of. rewrite Hkey. cbn [map_err res_bind]. unfold io_bind at 1, io_lift at 1.
  unfold slot_sec1_point. cbn [slot_cert_der]. rewrite Hpoint. reflexivity.
Qed.

(** A VERIFY when the PIN is blocked. *)
Lemma pin_loop_blocked n e (r : @Run (@Link K) (link_transport tick) Q) pin :
  run_source r = ce_source e -> run_cached r = ce_cached_pin e -> first_pin e = Some pin -> len pin <= 8 ->
  applet_ok (run_card_of tick r) -> pin_state_ok (pin_of (run_card_of tick r)) -> ps_retries (pin_of (run_card_of tick r)) = 0 ->
  exists s', pin_loop fuel pin_source (S n) (tok_guid (ce_token e)) None r
             = Some (MkRun s' (source_after e) None, Err EcdhPinBlocked) /\
    pin_of (card_of tick s') = pin_of (run_card_of tick r).
Proof.
  intros Hs Hc Hp Hl Ha Hok H0. cbn [pin_loop]. unfold io_bind at 1. rewrite (next_pin_first e r None Hs Hc eq_refl), Hp.
  cbn [ok_or]. destruct (verify_run tick fuel (run_session r) pin Ha Hok Hl) as (s' & Hv & Hpin & _).
  unfold io_bind at 1. rewrite (try_on_session tick _ (MkRun (run_session r) (source_after e) None) _ _ Hv).
  exists s'. unfold verify_outcome. change (card_of tick (run_session r)) with (run_card_of tick r) in *. rewrite H0.
  split; [reflexivity|]. rewrite Hpin. unfold pin_step, try_pin. now rewrite H0.
Qed.
End Success.

(** ** Properties *)

(** C2 (functional).  Key agreement through the host and the card, end to end, on
    a card without queued faults whose slot 9D needs no touch (its policy is
    "never", or touches are automatic): when the slot holds a P-256 key and
    its certificate, below 64000 bytes, names the recipient, the first PIN is right and
    not blocked, [ecdh] returns the shared secret of the slot's key and the
    partner's point, whatever the slot's PIN policy is, since nothing sits
    between the VERIFY and the GENERAL AUTHENTICATE.  The PIN is cached, the
    tries are full again, and the card is left without a verified PIN. *)
Theorem card_ecdh_agrees {K : CardCrypto} tick fuel L {Q} (pin_source : PinRequest -> Q -> Q * option bytes)
    n (e : CardEcdh (@Link K) Q) recipient partner cert want scalar point pin key :
  holder L pin_source e recipient partner cert want scalar point pin key ->
  exists e', ecdh (H := link_transport tick) fuel L pin_source (S n) recipient partner e = Some (e', Ok (p256_dh K scalar point)) /\
    ce_cached_pin e' = Some pin /\ ce_source e' = source_after pin_source e /\
    vc_pin_retries (ce_card e') = DEFAULT_PIN_RETRIES /\ vc_pin_verified (ce_card e') = false.
Proof.
  intros Hh. destruct (ecdh_body_agrees tick fuel L pin_source n e recipient partner cert want scalar point pin key
                         (tick (lk_now (tok_transport (ce_token e)))) Hh) as [now' Hbody].
  destruct Hh as [Hf _ _ _ _ Hrec Hpar _ _ Hsec _].
  unfold ecdh, uncompressed_p256. rewrite Hrec, Hpar. cbn [ok_or res_bind].
  rewrite (begin_run tick fuel (tok_transport (ce_token e)) Hf). unfold ecdh_in_session. unfold ce_card in Hbody. rewrite Hbody.
  assert (Hx : shared_secret (p256_dh K scalar point) = Some (p256_dh K scalar point)).
  { unfold shared_secret. rewrite Hsec. cbn [Z.leb Z.compare Pos.compare Pos.compare_cont]. f_equal.
    unfold ztake. apply take_ge. unfold len in Hsec. lia. }
  rewrite Hx. unfold end_session. cbn [run_session session_end link_transport].
  eexists. split; [reflexivity|]. split; [reflexivity|]. split; [reflexivity|]. split; [|reflexivity].
  rewrite after_run_card, end_retries. unfold agreed_card. rewrite session_card, agreed_retries. exact (verified_retries _).
Qed.

(** When the key agreement is refused, the error says why and
    nothing is lost.  A slot 9D that holds another key is [NotThisCard], with no
    PIN asked and the cached one kept; a user who gives no PIN is [PinDeclined];
    a blocked PIN is [PinBlocked], and is not kept in the cache.  The card's PIN
    and its tries are what they were. *)
Theorem card_ecdh_refusals {K : CardCrypto} tick fuel L {Q} (pin_source : PinRequest -> Q -> Q * option bytes)
    n (e : CardEcdh (@Link K) Q) recipient partner cert key point want peer :
  vc_faults (ce_card e) = [] -> pin_state_ok (pin_of (ce_card e)) ->
  object (ce_card e) CERT_9D = Some (enc_tlv 0x53 (Apdu.cert_object cert)) -> len cert < 64000 ->
  extract_public_key L cert = Ok (EcP256, key) -> cert_sec1_point L cert = Ok point ->
  p256_uncompressed L recipient = Some want -> p256_uncompressed L partner = Some peer ->
  let outcome err e' cached source :=
    ecdh (H := link_transport tick) fuel L pin_source (S n) recipient partner e = Some (e', Err err) /\
    ce_cached_pin e' = cached /\ ce_source e' = source /\
    ps_pin (pin_of (ce_card e')) = ps_pin (pin_of (ce_card e)) /\
    ps_retries (pin_of (ce_card e')) = ps_retries (pin_of (ce_card e)) in
  (point <> want -> exists e', outcome NotThisCard e' (ce_cached_pin e) (ce_source e)) /\
  (point = want -> first_pin pin_source e = None -> exists e', outcome EcdhPinDeclined e' None (source_after pin_source e)) /\
  (point = want -> ps_retries (pin_of (ce_card e)) = 0 ->
   forall pin, first_pin pin_source e = Some pin -> len pin <= 8 ->
   exists e', outcome EcdhPinBlocked e' None (source_after pin_source e)).
Proof.
  intros Hf Hok Ho Hl Hkey Hpoint Hrec Hpar outcome.
  destruct (ecdh_body_point tick fuel L pin_source (S n) e want peer cert key point (tick (lk_now (tok_transport (ce_token e))))
              Hf Ho Hl Hkey Hpoint) as [now' Hbody].
  assert (Hpre : forall r err, ecdh_body fuel L pin_source (S n) (tok_guid (ce_token e)) want peer
                   (MkRun (session_at tick (selected (ce_card e)) (tick (lk_now (tok_transport (ce_token e)))) false)
                      (ce_source e) (ce_cached_pin e)) = Some (r, Err err) ->
                 pin_of (run_card_of tick r) = pin_of (ce_card e) ->
                 exists e', outcome err e' (run_cached r) (run_source r)).
  { intros r err Hr Hp. exists (after_run (ce_token e) (drop_session (run_session r)) r). unfold outcome.
    destruct (proj1 (ended_card tick (run_session r)) _ (or_intror eq_refl)) as (_ & E2 & _).
    split; [|split; [reflexivity|split; [reflexivity|split]]].
    - unfold ecdh, uncompressed_p256. rewrite Hrec, Hpar. cbn [ok_or res_bind].
      rewrite (begin_run tick fuel (tok_transport (ce_token e)) Hf). unfold ecdh_in_session. unfold ce_card in Hr. now rewrite Hr.
    - rewrite <- Hp. exact E2.
    - rewrite <- Hp. exact (ended_retries tick (run_session r)). }
  set (r1 := MkRun (session_at tick (card_read (selected (ce_card e))) now' false) (ce_source e) (ce_cached_pin e)) in *.
  assert (Hap : applet_ok (run_card_of tick r1)) by exact (selected_applet _ Hf).
  split; [|split].
  - intros Hne. apply (Hpre r1 NotThisCard); [|reflexivity]. rewrite Hbody, bool_decide_false by exact Hne. reflexivity.
  - intros -> Hnone. apply (Hpre (MkRun (run_session r1) (source_after pin_source e) None) EcdhPinDeclined); [|reflexivity].
    rewrite Hbody, bool_decide_true by reflexivity. cbn [negb pin_loop]. unfold io_bind at 1. unfold io_bind at 1.
    now rewrite (next_pin_first tick pin_source e r1 None eq_refl eq_refl eq_refl), Hnone.
  - intros -> H0 pin Hpin Hlen.
    destruct (pin_loop_blocked tick fuel pin_source n e r1 pin eq_refl eq_refl Hpin Hlen Hap Hok H0) as (s' & Hloop & Hps).
    apply (Hpre (MkRun s' (source_after pin_source e) None) EcdhPinBlocked); [|exact Hps].
    rewrite Hbody, bool_decide_true by reflexivity. cbn [negb]. unfold io_bind. now rewrite Hloop.
Qed.

(** [ecdh] always returns, whatever the PIN source answers:
    on a card without faults the loop turns at most as often as there are tries
    to lose, and the source is asked at most that often.  It leaves the card's
    PIN alone, and a PIN it has newly cached is the card's, so that no cached PIN
    ever costs a try. *)
Theorem card_ecdh_returns {K : CardCrypto} tick fuel L {Q} (pin_source : PinRequest -> Q -> Q * option bytes)
    (asked : Q -> nat) n (e : CardEcdh (@Link K) Q) recipient partner :
  (forall req q, asked (pin_source req q).1 = S (asked q)) ->
  vc_faults (ce_card e) = [] -> pin_state_ok (pin_of (ce_card e)) -> (turns (pin_of (ce_card e)) <= n)%nat ->
  exists e' r, ecdh (H := link_transport tick) fuel L pin_source n recipient partner e = Some (e', r) /\
    (asked (ce_source e') <= asked (ce_source e) + turns (pin_of (ce_card e)) <= asked (ce_source e) + 3)%nat /\
    vc_faults (ce_card e') = [] /\ pin_state_ok (pin_of (ce_card e')) /\
    ps_pin (pin_of (ce_card e')) = ps_pin (pin_of (ce_card e)) /\
    (ce_cached_pin e' = ce_cached_pin e \/ cache_right (pin_of (ce_card e')) (ce_cached_pin e')).
Proof.
  intros Hask Hf Hp Hn.
  destruct (ecdh_runs tick fuel L pin_source asked Hask n recipient partner e Hf Hp Hn) as (e' & r & Hr & H1 & H2 & H3 & H4 & H5).
  exists e', r. split; [exact Hr|]. split; [|auto]. split; [exact H5|]. destruct Hp as (Hret & _). unfold turns. lia.
Qed.

(** Every session on a card without queued faults goes through:
    it begins, each of its operations returns, whatever the arguments, the
    order and the outcomes before, and the chain of GET RESPONSEs never starts. *)
Theorem session_returns {K : CardCrypto} tick fuel L des (l : @Link K) ops :
  vc_faults (lk_card l) = [] ->
  exists s s' r, begin_pin_session (H := link_transport tick) fuel l = Some (inl s) /\
    faultless tick s /\ run_ops tick fuel L des ops s = Some (s', r) /\ faultless tick s'.
Proof.
  intros Hf. set (s := session_at tick (selected (lk_card l)) (tick (lk_now l)) false).
  destruct (run_ops_return tick fuel L des ops s) as (s' & r & Hr & Hs'); [exact Hf|].
  exists s, s', r. split; [exact (begin_run tick fuel l Hf)|]. now split.
Qed.

(** *** Witnesses *)

(** Certificates whose P-256 point is the 65 bytes behind the first. *)
Definition ec_lib : CertLib := {|
  certificate_from_der cert :=
    match cert with
    | 0x30 :: key => Some (MkSpki OID_EC_PUBLIC_KEY (Some (ParamsOid (Some OID_PRIME256V1))) (Some key))
    | _ => None
    end;
  p256_uncompressed p := if len p =? 65 then Some p else None;
  p384_uncompressed _ := None;
  pkcs1_from_der _ := None;
  mpint_from_positive _ := None;
  ecdsa_from_sec1 p := Some (NistP256 p);
  p256_key_ok _ := false;
  p256_sig_ok _ := false;
  p384_key_ok _ := false;
  p384_sig_ok _ := false;
  p256_verify _ _ _ := false;
  p384_verify _ _ _ := false;
|}.

Definition toy_point (b : Z) : bytes := 0x04 :: repeat b 64.

(** A user who types one PIN after the other, and then gives up. *)
Definition typed (req : PinRequest) (q : nat * list bytes) : (nat * list bytes) * option bytes :=
  match q.2 with
  | pin :: more => ((S q.1, more), Some pin)
  | [] => ((S q.1, []), None)
  end.

Definition toy_holder_card : VirtualCard ToyCard :=
  card_with CERT_9D (Apdu.cert_object (0x30 :: toy_point 5)) (set_slot_9d_priv (Some card_key) toy_card).

Definition toy_ecdh (pins : list bytes) : CardEcdh (@Link ToyCard) (nat * list bytes) :=
  card_ecdh_new (MkToken (MkLink toy_holder_card 0) (MkGuid (repeat 0 16)) [] None None false None) (0%nat, pins).

Lemma card_ecdh_agrees_witness :
  exists e', ecdh (H := link_transport steady) 1 ec_lib typed 3 (toy_point 5) (toy_point 7) (toy_ecdh [DEFAULT_PIN])
             = Some (e', Ok (p256_dh ToyCard card_key (toy_point 7))) /\
    ce_cached_pin e' = Some DEFAULT_PIN /\ ce_source e' = source_after typed (toy_ecdh [DEFAULT_PIN]) /\
    vc_pin_retries (ce_card e') = DEFAULT_PIN_RETRIES /\ vc_pin_verified (ce_card e') = false.
Proof.
  apply (card_ecdh_agrees steady 1 ec_lib typed 2 (toy_ecdh [DEFAULT_PIN]) (toy_point 5) (toy_point 7)
           (0x30 :: toy_point 5) (toy_point 5) card_key (toy_point 7) DEFAULT_PIN (KeyEcdsa (NistP256 (toy_point 5)))).
  constructor; try reflexivity; try (split; reflexivity).
  - constructor; try reflexivity. left. reflexivity.
  - split; [reflexivity|]. split; [split; [by_compute|reflexivity]|discriminate].
Defined.

Definition wrong_pins : CardEcdh (@Link ToyCard) (nat * list bytes) := toy_ecdh [[0x31]; [0x32]].

Lemma card_ecdh_returns_witness :
  exists e' r, ecdh (H := link_transport steady) 1 ec_lib typed 3 (toy_point 5) (toy_point 7) wrong_pins = Some (e', r) /\
    ((ce_source e').1 <= 0 + turns (pin_of (ce_card wrong_pins)) <= 0 + 3)%nat /\
    vc_faults (ce_card e') = [] /\ pin_state_ok (pin_of (ce_card e')) /\
    ps_pin (pin_of (ce_card e')) = ps_pin (pin_of (ce_card wrong_pins)) /\
    (ce_cached_pin e' = None \/ cache_right (pin_of (ce_card e')) (ce_cached_pin e')).
Proof.
  apply (card_ecdh_returns steady 1 ec_lib typed fst 3 wrong_pins (toy_point 5) (toy_point 7)).
  - intros req [k [|pin pins]]; reflexivity.
  - reflexivity.
  - vm_compute. repeat split; discriminate.
  - vm_compute. lia.
Defined.

(** Two wrong PINs, then none: the user declined, and two tries are gone. *)
Example toy_declined :
  match ecdh (H := link_transport steady) 1 ec_lib typed 3 (toy_point 5) (toy_point 7) wrong_pins with
  | Some (e', Err EcdhPinDeclined) => vc_pin_retries (ce_card e') = 1 /\ (ce_source e').1 = 3%nat
  | _ => False
  end.
Proof. vm_compute. split; reflexivity. Qed.

(** The right card; the user declines at once. *)
Lemma card_ecdh_refusals_witness :
  first_pin typed (toy_ecdh []) = None /\
  exists e', ecdh (H := link_transport steady) 1 ec_lib typed 3 (toy_point 5) (toy_point 7) (toy_ecdh []) = Some (e', Err EcdhPinDeclined) /\
    ce_cached_pin e' = None /\ ce_source e' = source_after typed (toy_ecdh []) /\
    ps_pin (pin_of (ce_card e')) = ps_pin (pin_of (ce_card (toy_ecdh []))) /\
    ps_retries (pin_of (ce_card e')) = ps_retries (pin_of (ce_card (toy_ecdh []))).
Proof.
  split; [reflexivity|].
  refine (proj1 (proj2 (card_ecdh_refusals steady 1 ec_lib typed 2 (toy_ecdh []) (toy_point 5) (toy_point 7) (0x30 :: toy_point 5)
           (KeyEcdsa (NistP256 (toy_point 5))) (toy_point 5) (toy_point 5) (toy_point 7) _ _ _ _ _ _ _ _)) _ _); try reflexivity.
  vm_compute. repeat split; discriminate.
Defined.

Lemma session_returns_witness :
  vc_faults (lk_card toy_link) = [] /\
  exists s s' r, begin_pin_session (H := link_transport steady) 1 toy_link = Some (inl s) /\
    faultless steady s /\ run_ops steady 1 toy_lib no_des toy_ops s = Some (s', r) /\ faultless steady s'.
Proof. split; [reflexivity|]. apply (session_returns steady 1 toy_lib no_des toy_link toy_ops). reflexivity. Defined.
