(* ===== verification/Proto.v ===== *)
(** * Proto: the wire structs of pcsc-lite, [fibby/src/proto.rs] and [frame.rs]

    What [libpcsclite] and the daemon exchange: little-endian structs of fixed
    size, an eight-byte header before what a client sends and none before a
    reply.  A reader's name is its UTF-8 bytes. *)

From Stdlib Require Import ZArith Lia.
From stdpp Require Import base tactics list numbers strings.
From S2P Require Import Prelude Utf8.

Local Open Scope Z_scope.

(** ** Integers *)

Definition to_le_bytes (n : nat) (z : Z) : bytes := rev (to_be_bytes n z).
Definition from_le_bytes (l : bytes) : Z := from_be_bytes (rev l).

(** The [i32] with the bits of a [u32], and [wrapping_add]. *)
Definition as_i32 (z : Z) : Z := let z := u32 z in if z <? 2 ^ 31 then z else z - 2 ^ 32.

Definition u32_ok (z : Z) : Prop := 0 <= z < 2 ^ 32.
Definition i32_ok (z : Z) : Prop := - 2 ^ 31 <= z < 2 ^ 31.

(** [u32::from_le_bytes(b[o..o + 4])], [i32::from_le_bytes(b[o..o + 4])]: the
    callers have checked the length. *)
Definition le_u32 (b : bytes) (o : Z) : Z := from_le_bytes (ztake 4 (zdrop o b)).
Definition le_i32 (b : bytes) (o : Z) : Z := as_i32 (le_u32 b o).

Lemma length_to_le_bytes n z : length (to_le_bytes n z) = n.
Proof. unfold to_le_bytes. now rewrite length_rev, length_to_be_bytes. Qed.

Lemma len_to_le_bytes n z : len (to_le_bytes n z) = Z.of_nat n.
Proof. unfold len. now rewrite length_to_le_bytes. Qed.

Lemma to_le_bytes_ok n z : bytes_ok (to_le_bytes n z).
Proof. apply Forall_rev, to_be_bytes_ok. Qed.

Lemma from_to_le_bytes z : from_le_bytes (to_le_bytes 4 z) = u32 z.
Proof. unfold from_le_bytes, to_le_bytes. rewrite rev_involutive. apply (from_to_be_bytes 4). Qed.

Lemma as_i32_ok z : i32_ok z -> as_i32 (u32 z) = z.
Proof.
  unfold i32_ok, as_i32. change (u32 (u32 z)) with (u32 z mod 2 ^ 32). unfold u32. rewrite Z.mod_mod by lia. intros H.
  destruct (Z.leb_spec 0 z) as [Hz|Hz].
  - rewrite Z.mod_small by lia. rewrite (proj2 (Z.ltb_lt _ _)) by lia. reflexivity.
  - replace (z mod 2 ^ 32) with (z + 2 ^ 32) by (apply (Z.mod_unique_pos _ _ (-1)); lia).
    rewrite (proj2 (Z.ltb_ge _ _)) by lia. lia.
Qed.

Lemma le_u32_at a v t o : len a = o -> u32_ok v -> le_u32 (a ++ to_le_bytes 4 v ++ t) o = v.
Proof.
  intros <- Hv. unfold le_u32. rewrite zdrop_app.
  replace 4 with (len (to_le_bytes 4 v)) by apply len_to_le_bytes. rewrite ztake_app, from_to_le_bytes. now apply Z.mod_small.
Qed.

Lemma le_i32_at a v t o : len a = o -> i32_ok v -> le_i32 (a ++ to_le_bytes 4 v ++ t) o = v.
Proof.
  intros <- Hv. unfold le_i32, le_u32. rewrite zdrop_app.
  replace 4 with (len (to_le_bytes 4 v)) by apply len_to_le_bytes. rewrite ztake_app, from_to_le_bytes. now apply as_i32_ok.
Qed.

(** ** Constants *)

Definition PROTOCOL_VERSION_MAJOR : Z := 4.
Definition PROTOCOL_VERSION_MINOR : Z := 6.
Definition MAX_READERNAME : Z := 128.
Definition MAX_ATR_SIZE : Z := 33.
Definition HEADER_LEN : Z := 8.
Definition MAX_READERS_CONTEXTS : Z := 16.

Definition SCOPE_SYSTEM : Z := 2.
Definition PROTOCOL_UNDEFINED : Z := 0.
Definition PROTOCOL_T1 : Z := 2.
Definition FLAG_ABSENT : Z := 0x2.
Definition FLAG_PRESENT : Z := 0x4.
Definition FLAG_POWERED : Z := 0x10.
Definition FLAG_NEGOTIABLE : Z := 0x20.

(** [error.rs] *)
Definition SCARD_S_SUCCESS : Z := 0.
Definition SCARD_E_INVALID_HANDLE : Z := 0x80100003.
Definition SCARD_E_INVALID_VALUE : Z := 0x80100011.
Definition SCARD_E_NO_SMARTCARD : Z := 0x8010000C.
Definition SCARD_E_UNKNOWN_READER : Z := 0x80100009.
Definition SCARD_E_SHARING_VIOLATION : Z := 0x8010000B.
Definition SCARD_E_NO_SERVICE : Z := 0x8010001D.

Inductive Command : Type :=
| EstablishContext | ReleaseContext | ListReaders | Connect | Reconnect | Disconnect | BeginTransaction
| EndTransaction | Transmit | Control | Status | GetStatusChange | Cancel | CancelTransaction | GetAttrib
| SetAttrib | Version | GetReadersState | WaitReaderStateChange | StopWaitingReaderStateChange
| GetReaderEvents | GetReadersStateSize | GetReadersStateArray.

(** The discriminants: [command as u32]. *)
Definition command_u32 (c : Command) : Z :=
  match c with
  | EstablishContext => 0x01 | ReleaseContext => 0x02 | ListReaders => 0x03 | Connect => 0x04 | Reconnect => 0x05
  | Disconnect => 0x06 | BeginTransaction => 0x07 | EndTransaction => 0x08 | Transmit => 0x09 | Control => 0x0A
  | Status => 0x0B | GetStatusChange => 0x0C | Cancel => 0x0D | CancelTransaction => 0x0E | GetAttrib => 0x0F
  | SetAttrib => 0x10 | Version => 0x11 | GetReadersState => 0x12 | WaitReaderStateChange => 0x13
  | StopWaitingReaderStateChange => 0x14 | GetReaderEvents => 0x15 | GetReadersStateSize => 0x16
  | GetReadersStateArray => 0x17
  end.

Definition all_commands : list Command :=
  [EstablishContext; ReleaseContext; ListReaders; Connect; Reconnect; Disconnect; BeginTransaction; EndTransaction;
   Transmit; Control; Status; GetStatusChange; Cancel; CancelTransaction; GetAttrib; SetAttrib; Version; GetReadersState;
   WaitReaderStateChange; StopWaitingReaderStateChange; GetReaderEvents; GetReadersStateSize; GetReadersStateArray].

Definition command_from_u32 (v : Z) : option Command := List.find (fun c => command_u32 c =? v) all_commands.

(** ** Fixed-width names *)

(** [n] bytes, the name cut so that the last one is NUL. *)
Definition write_cstr (n : Z) (s : bytes) : bytes :=
  let s := ztake (n - 1) s in s ++ repeat 0 (Z.to_nat (n - len s)).

Fixpoint until_nul (l : bytes) : bytes :=
  match l with
  | [] => []
  | c :: l => if c =? 0 then [] else c :: until_nul l
  end.

Definition read_cstr (src : bytes) : bytes := from_utf8_lossy (until_nul src).

(** ** The structs *)

Record Header := MkHeader { h_size : Z; h_command : Z }.

Definition header_to_bytes (h : Header) : bytes := to_le_bytes 4 (h_size h) ++ to_le_bytes 4 (h_command h).

Definition header_from_bytes (b : bytes) : option Header :=
  if len b <? HEADER_LEN then None else Some (MkHeader (le_u32 b 0) (le_u32 b 4)).

Record VersionStruct := MkVersion { v_major : Z; v_minor : Z; v_rv : Z }.

Definition version_to_bytes (v : VersionStruct) : bytes :=
  to_le_bytes 4 (v_major v) ++ to_le_bytes 4 (v_minor v) ++ to_le_bytes 4 (v_rv v).

Definition version_from_bytes (b : bytes) : option VersionStruct :=
  if len b <? 12 then None else Some (MkVersion (le_i32 b 0) (le_i32 b 4) (le_u32 b 8)).

Record EstablishStruct := MkEstablish { e_scope : Z; e_context : Z; e_rv : Z }.

Definition establish_to_bytes (e : EstablishStruct) : bytes :=
  to_le_bytes 4 (e_scope e) ++ to_le_bytes 4 (e_context e) ++ to_le_bytes 4 (e_rv e).

Definition establish_from_bytes (b : bytes) : option EstablishStruct :=
  if len b <? 12 then None else Some (MkEstablish (le_u32 b 0) (le_u32 b 4) (le_u32 b 8)).

Record TransmitStruct := MkTransmit {
  t_card : Z;
  t_send_pci_protocol : Z;
  t_send_pci_length : Z;
  t_send_length : Z;
  t_recv_pci_protocol : Z;
  t_recv_pci_length : Z;
  t_recv_length : Z;
  t_rv : Z;
}.

Definition transmit_to_bytes (t : TransmitStruct) : bytes :=
  to_le_bytes 4 (t_card t) ++ to_le_bytes 4 (t_send_pci_protocol t) ++ to_le_bytes 4 (t_send_pci_length t)
  ++ to_le_bytes 4 (t_send_length t) ++ to_le_bytes 4 (t_recv_pci_protocol t) ++ to_le_bytes 4 (t_recv_pci_length t)
  ++ to_le_bytes 4 (t_recv_length t) ++ to_le_bytes 4 (t_rv t).

Definition transmit_from_bytes (b : bytes) : option TransmitStruct :=
  if len b <? 32 then None
  else Some (MkTransmit (le_i32 b 0) (le_u32 b 4) (le_u32 b 8) (le_u32 b 12) (le_u32 b 16) (le_u32 b 20) (le_u32 b 24)
                        (le_u32 b 28)).

Record ConnectStruct := MkConnect {
  c_context : Z;
  c_reader : bytes;
  c_share_mode : Z;
  c_preferred : Z;
  c_card : Z;
  c_active : Z;
  c_rv : Z;
}.

Definition connect_to_bytes (c : ConnectStruct) : bytes :=
  to_le_bytes 4 (c_context c) ++ write_cstr MAX_READERNAME (c_reader c) ++ to_le_bytes 4 (c_share_mode c)
  ++ to_le_bytes 4 (c_preferred c) ++ to_le_bytes 4 (c_card c) ++ to_le_bytes 4 (c_active c) ++ to_le_bytes 4 (c_rv c).

Definition connect_from_bytes (b : bytes) : option ConnectStruct :=
  if len b <? 152 then None
  else
    let o := 4 + MAX_READERNAME in
    Some (MkConnect (le_u32 b 0) (read_cstr (ztake MAX_READERNAME (zdrop 4 b))) (le_u32 b o) (le_u32 b (o + 4))
                    (le_i32 b (o + 8)) (le_u32 b (o + 12)) (le_u32 b (o + 16))).

Record HandleArgRv := MkHandleArg { ha_handle : Z; ha_arg : Z; ha_rv : Z }.

Definition handle_arg_to_bytes (h : HandleArgRv) : bytes :=
  to_le_bytes 4 (ha_handle h) ++ to_le_bytes 4 (ha_arg h) ++ to_le_bytes 4 (ha_rv h).

Definition handle_arg_from_bytes (b : bytes) : option HandleArgRv :=
  if len b <? 12 then None else Some (MkHandleArg (le_i32 b 0) (le_u32 b 4) (le_u32 b 8)).

Record HandleRv := MkHandleRv { hr_handle : Z; hr_rv : Z }.

Definition handle_rv_to_bytes (h : HandleRv) : bytes := to_le_bytes 4 (hr_handle h) ++ to_le_bytes 4 (hr_rv h).

Definition handle_rv_from_bytes (b : bytes) : option HandleRv :=
  if len b <? 8 then None else Some (MkHandleRv (le_i32 b 0) (le_u32 b 4)).

Record ReaderState := MkReaderState {
  rs_name : bytes;
  rs_event_counter : Z;
  rs_state : Z;
  rs_sharing : Z;
  rs_atr : bytes;
  rs_protocol : Z;
}.

(** Three bytes of padding after the 33 of the ATR. *)
Definition reader_state_to_bytes (s : ReaderState) : bytes :=
  let atr := ztake MAX_ATR_SIZE (rs_atr s) in
  write_cstr MAX_READERNAME (rs_name s) ++ to_le_bytes 4 (rs_event_counter s) ++ to_le_bytes 4 (rs_state s)
  ++ to_le_bytes 4 (rs_sharing s) ++ (atr ++ repeat 0 (Z.to_nat (36 - len atr))) ++ to_le_bytes 4 (len atr)
  ++ to_le_bytes 4 (rs_protocol s).

Definition reader_state_from_bytes (b : bytes) : option ReaderState :=
  if len b <? 184 then None
  else
    let atr_len := Z.min (le_u32 b 176) MAX_ATR_SIZE in
    Some (MkReaderState (read_cstr (ztake MAX_READERNAME b)) (le_u32 b 128) (le_u32 b 132) (le_i32 b 136)
                        (ztake atr_len (zdrop 140 b)) (le_u32 b 180)).

(** Sixteen slots; those past [states] are zero. *)
Definition readers_state_array (states : list ReaderState) : bytes :=
  let states := ztake MAX_READERS_CONTEXTS states in
  mbind reader_state_to_bytes states ++ repeat 0 (Z.to_nat ((MAX_READERS_CONTEXTS - len states) * 184)).

(** ** Framing *)

Definition MAX_BODY : Z := 1024 * 1024.

(** What a blocking read of a socket comes to: [NeedMore] is a thread that goes
    on waiting, [Refused] an [io::Error]. *)
Inductive Received (A : Type) : Type :=
| Got (a : A) (rest : bytes)
| CleanEof
| NeedMore
| Refused.
Arguments Got {A}.
Arguments CleanEof {A}.
Arguments NeedMore {A}.
Arguments Refused {A}.

(** [r.read_exact(&mut [0; n])]: [eof] says that the peer writes nothing more. *)
Definition read_exact (eof : bool) (n : Z) (input : bytes) : Received bytes :=
  if len input <? n then (if eof then Refused else NeedMore) else Got (ztake n input) (zdrop n input).

Definition read_message (eof : bool) (input : bytes) : Received (Header * bytes) :=
  if len input <? HEADER_LEN then
    if eof then (if len input =? 0 then CleanEof else Refused) else NeedMore
  else
    match header_from_bytes (ztake HEADER_LEN input) with
    | None => Refused
    | Some header =>
        if MAX_BODY <? h_size header then Refused
        else
          match read_exact eof (h_size header) (zdrop HEADER_LEN input) with
          | Got body rest => Got (header, body) rest
          | NeedMore => NeedMore
          | _ => Refused
          end
    end.

Definition read_payload (eof : bool) (n : Z) (input : bytes) : Received bytes :=
  if MAX_BODY <? n then Refused else read_exact eof n input.

(** A client's message. *)
Definition frame (c : Command) (body : bytes) : bytes := header_to_bytes (MkHeader (len body) (command_u32 c)) ++ body.

(** ** What the structs promise

    The size on the wire, the reading back, and the refusal of what is short. *)

Class WireStruct (A : Type) := {
  wire_len : Z;
  wire_to : A -> bytes;
  wire_from : bytes -> option A;
  wire_ok : A -> Prop;
}.

Class WireStructLaws (A : Type) {W : WireStruct A} : Prop := {
  wire_to_len a : wire_ok a -> len (wire_to a) = wire_len;
  wire_to_bytes a : wire_ok a -> bytes_ok (wire_to a);
  wire_roundtrip a t : wire_ok a -> wire_from (wire_to a ++ t) = Some a;
  wire_short b : len b < wire_len -> wire_from b = None;
}.

(** A name that fits its field. *)
Definition name_fits (s : bytes) : Prop :=
  utf8_valid s = true /\ bytes_ok s /\ ~ In 0 s /\ len s < MAX_READERNAME.

#[export] Instance header_wire : WireStruct Header := {|
  wire_len := HEADER_LEN; wire_to := header_to_bytes; wire_from := header_from_bytes;
  wire_ok h := u32_ok (h_size h) /\ u32_ok (h_command h);
|}.

#[export] Instance version_wire : WireStruct VersionStruct := {|
  wire_len := 12; wire_to := version_to_bytes; wire_from := version_from_bytes;
  wire_ok v := i32_ok (v_major v) /\ i32_ok (v_minor v) /\ u32_ok (v_rv v);
|}.

#[export] Instance establish_wire : WireStruct EstablishStruct := {|
  wire_len := 12; wire_to := establish_to_bytes; wire_from := establish_from_bytes;
  wire_ok e := u32_ok (e_scope e) /\ u32_ok (e_context e) /\ u32_ok (e_rv e);
|}.

#[export] Instance transmit_wire : WireStruct TransmitStruct := {|
  wire_len := 32; wire_to := transmit_to_bytes; wire_from := transmit_from_bytes;
  wire_ok t := i32_ok (t_card t) /\ u32_ok (t_send_pci_protocol t) /\ u32_ok (t_send_pci_length t) /\
    u32_ok (t_send_length t) /\ u32_ok (t_recv_pci_protocol t) /\ u32_ok (t_recv_pci_length t) /\
    u32_ok (t_recv_length t) /\ u32_ok (t_rv t);
|}.

#[export] Instance connect_wire : WireStruct ConnectStruct := {|
  wire_len := 152; wire_to := connect_to_bytes; wire_from := connect_from_bytes;
  wire_ok c := u32_ok (c_context c) /\ name_fits (c_reader c) /\ u32_ok (c_share_mode c) /\ u32_ok (c_preferred c) /\
    i32_ok (c_card c) /\ u32_ok (c_active c) /\ u32_ok (c_rv c);
|}.

#[export] Instance handle_arg_wire : WireStruct HandleArgRv := {|
  wire_len := 12; wire_to := handle_arg_to_bytes; wire_from := handle_arg_from_bytes;
  wire_ok h := i32_ok (ha_handle h) /\ u32_ok (ha_arg h) /\ u32_ok (ha_rv h);
|}.

#[export] Instance handle_rv_wire : WireStruct HandleRv := {|
  wire_len := 8; wire_to := handle_rv_to_bytes; wire_from := handle_rv_from_bytes;
  wire_ok h := i32_ok (hr_handle h) /\ u32_ok (hr_rv h);
|}.

#[export] Instance reader_state_wire : WireStruct ReaderState := {|
  wire_len := 184; wire_to := reader_state_to_bytes; wire_from := reader_state_from_bytes;
  wire_ok s := name_fits (rs_name s) /\ u32_ok (rs_event_counter s) /\ u32_ok (rs_state s) /\ i32_ok (rs_sharing s) /\
    (bytes_ok (rs_atr s) /\ len (rs_atr s) <= MAX_ATR_SIZE) /\ u32_ok (rs_protocol s);
|}.

(** *** Fields *)

Lemma zdrop_skip {A} (x r : list A) o : len x <= o -> zdrop o (x ++ r) = zdrop (o - len x) r.
Proof.
  unfold zdrop, len. intros H. rewrite drop_app_ge by lia. f_equal. lia.
Qed.

Lemma le_u32_skip x r o : len x <= o -> le_u32 (x ++ r) o = le_u32 r (o - len x).
Proof. intros H. unfold le_u32. now rewrite zdrop_skip. Qed.

Lemma le_i32_skip x r o : len x <= o -> le_i32 (x ++ r) o = le_i32 r (o - len x).
Proof. intros H. unfold le_i32. now rewrite le_u32_skip. Qed.

Lemma le_u32_here v r : u32_ok v -> le_u32 (to_le_bytes 4 v ++ r) 0 = v.
Proof. intros H. exact (le_u32_at [] v r 0 eq_refl H). Qed.

Lemma le_i32_here v r : i32_ok v -> le_i32 (to_le_bytes 4 v ++ r) 0 = v.
Proof. intros H. exact (le_i32_at [] v r 0 eq_refl H). Qed.

Lemma until_nul_pad s n : ~ In 0 s -> (1 <= n)%nat -> until_nul (s ++ repeat 0 n) = s.
Proof.
  intros H Hn. induction s as [|c s IH].
  - destruct n; [lia|reflexivity].
  - cbn [app until_nul]. rewrite (proj2 (Z.eqb_neq c 0)) by (intros ->; apply H; now left).
    f_equal. apply IH. intros Hin. apply H. now right.
Qed.

Lemma len_write_cstr n s : 1 <= n -> len (write_cstr n s) = n.
Proof.
  intros Hn. unfold write_cstr. assert (H : len (ztake (n - 1) s) <= n - 1) by (unfold len, ztake; rewrite length_take; lia).
  rewrite len_app. unfold len at 2. rewrite repeat_length. pose proof (len_nonneg (ztake (n - 1) s)). lia.
Qed.

Lemma write_cstr_ok n s : bytes_ok s -> bytes_ok (write_cstr n s).
Proof.
  intros H. unfold write_cstr. apply bytes_ok_app; [now apply bytes_ok_ztake|]. apply List.Forall_forall.
  intros b Hb. apply repeat_spec in Hb as ->. unfold byte_ok. lia.
Qed.

Lemma ztake_all {A} (l : list A) n : len l <= n -> ztake n l = l.
Proof. intros H. unfold ztake, len in *. apply take_ge. lia. Qed.

Lemma read_write_cstr s t : name_fits s -> read_cstr (ztake MAX_READERNAME (write_cstr MAX_READERNAME s ++ t)) = s.
Proof.
  intros (Hu & _ & Hz & Hl). rewrite <- (len_write_cstr MAX_READERNAME s) at 1 by (unfold MAX_READERNAME; lia).
  rewrite ztake_app. unfold read_cstr, write_cstr. unfold MAX_READERNAME in *. rewrite ztake_all by lia.
  rewrite until_nul_pad by (assumption || lia). now apply from_utf8_lossy_valid.
Qed.

Ltac field_lens :=
  repeat first [rewrite len_to_le_bytes | rewrite len_write_cstr by (unfold MAX_READERNAME; lia) | rewrite len_app].

(** Read every field of a struct that was written. *)
Ltac read_fields :=
  repeat match goal with
  | |- context [le_u32 (to_le_bytes 4 ?v ++ ?r) ?o] => change o with 0; rewrite (le_u32_here v r) by assumption
  | |- context [le_i32 (to_le_bytes 4 ?v ++ ?r) ?o] => change o with 0; rewrite (le_i32_here v r) by assumption
  | |- context [le_u32 (?x ++ ?r) ?o] => rewrite (le_u32_skip x r o) by (field_lens; unfold MAX_READERNAME; lia); field_lens
  | |- context [le_i32 (?x ++ ?r) ?o] => rewrite (le_i32_skip x r o) by (field_lens; unfold MAX_READERNAME; lia); field_lens
  end.

Ltac wire_laws unfolds :=
  split;
  [ intros a H; unfolds; cbn [wire_to wire_len wire_ok] in *; field_lens; try reflexivity
  | intros a H; unfolds; cbn [wire_to wire_ok] in *; destruct_and?;
    repeat match goal with |- Forall _ (_ ++ _) => apply bytes_ok_app end; try apply to_le_bytes_ok
  | intros a t H; unfolds; cbn [wire_ok wire_from wire_to] in *; destruct_and?; rewrite <- ?app_assoc; pose proof (len_nonneg t);
    rewrite (proj2 (Z.ltb_ge _ _)) by (field_lens; unfold MAX_READERNAME; lia); read_fields
  | intros b H; unfolds; cbn [wire_len wire_from] in *; now rewrite (proj2 (Z.ltb_lt _ _)) by lia ].

#[export] Instance header_laws : WireStructLaws Header.
Proof.
  wire_laws ltac:(unfold header_wire, header_to_bytes, header_from_bytes, HEADER_LEN in * ). now destruct a.
Qed.

#[export] Instance version_laws : WireStructLaws VersionStruct.
Proof. wire_laws ltac:(unfold version_wire, version_to_bytes, version_from_bytes in * ). now destruct a. Qed.

#[export] Instance establish_laws : WireStructLaws EstablishStruct.
Proof. wire_laws ltac:(unfold establish_wire, establish_to_bytes, establish_from_bytes in * ). now destruct a. Qed.

#[export] Instance transmit_laws : WireStructLaws TransmitStruct.
Proof. wire_laws ltac:(unfold transmit_wire, transmit_to_bytes, transmit_from_bytes in * ). now destruct a. Qed.

#[export] Instance handle_arg_laws : WireStructLaws HandleArgRv.
Proof. wire_laws ltac:(unfold handle_arg_wire, handle_arg_to_bytes, handle_arg_from_bytes in * ). now destruct a. Qed.

#[export] Instance handle_rv_laws : WireStructLaws HandleRv.
Proof. wire_laws ltac:(unfold handle_rv_wire, handle_rv_to_bytes, handle_rv_from_bytes in * ). now destruct a. Qed.

#[export] Instance connect_laws : WireStructLaws ConnectStruct.
Proof.
  wire_laws ltac:(unfold connect_wire, connect_to_bytes, connect_from_bytes in * ).
  - apply write_cstr_ok. now match goal with H : name_fits _ |- _ => destruct H as (_ & H & _) end.
  - rewrite zdrop_skip by (field_lens; lia). field_lens. change (zdrop (4 - Z.of_nat 4)) with (@zdrop Z 0). rewrite zdrop_0.
    rewrite read_write_cstr by assumption. now destruct a.
Qed.

Lemma len_atr_field atr : len (ztake MAX_ATR_SIZE atr ++ repeat 0 (Z.to_nat (36 - len (ztake MAX_ATR_SIZE atr)))) = 36.
Proof.
  assert (len (ztake MAX_ATR_SIZE atr) <= 33) by (unfold len, ztake, MAX_ATR_SIZE; rewrite length_take; lia).
  rewrite len_app. unfold len at 2. rewrite repeat_length. lia.
Qed.

#[export] Instance reader_state_laws : WireStructLaws ReaderState.
Proof.
  split; unfold reader_state_wire, reader_state_to_bytes, reader_state_from_bytes in *; cbn [wire_to wire_from wire_len wire_ok] in *.
  - intros s H. field_lens. pose proof (len_atr_field (rs_atr s)) as Ha. rewrite len_app in Ha. unfold MAX_READERNAME. lia.
  - intros s ((_ & Hn & _) & _ & _ & _ & [Ha _] & _).
    repeat match goal with |- Forall _ (_ ++ _) => apply bytes_ok_app end; try apply to_le_bytes_ok; [now apply write_cstr_ok|now apply bytes_ok_ztake|].
    apply List.Forall_forall. intros b Hb. apply repeat_spec in Hb as ->. unfold byte_ok. lia.
  - intros s t (Hn & He & Hs & Hsh & [_ Ha] & Hp). pose proof (len_atr_field (rs_atr s)) as Hf.
    rewrite (ztake_all (rs_atr s)) in * by exact Ha. set (field := rs_atr s ++ _) in *. rewrite <- !app_assoc.
    pose proof (len_nonneg t). rewrite (proj2 (Z.ltb_ge _ _)) by (field_lens; unfold MAX_READERNAME; lia).
    assert (Hlen : u32_ok (len (rs_atr s))) by (pose proof (len_nonneg (rs_atr s)); unfold u32_ok, MAX_ATR_SIZE in *; lia).
    rewrite read_write_cstr by exact Hn. rewrite (zdrop_skip (write_cstr _ _)) by (field_lens; unfold MAX_READERNAME; lia).
    do 3 (rewrite (zdrop_skip (to_le_bytes _ _)) by (field_lens; unfold MAX_READERNAME; lia)). field_lens.
    change (zdrop (140 - _ - _ - _ - _)) with (@zdrop Z 0). rewrite zdrop_0.
    rewrite (le_u32_skip (write_cstr _ _)) by (field_lens; unfold MAX_READERNAME; lia).
    read_fields. rewrite Hf. read_fields.
    rewrite Z.min_l by exact Ha. unfold field. rewrite <- app_assoc, ztake_app. now destruct s.
  - intros b H. now rewrite (proj2 (Z.ltb_lt _ _)) by lia.
Qed.

(** ** Framing *)

Lemma command_roundtrip c : command_from_u32 (command_u32 c) = Some c.
Proof. destruct c; reflexivity. Qed.

Lemma command_u32_ok c : u32_ok (command_u32 c).
Proof. unfold u32_ok. destruct c; cbn; lia. Qed.

Lemma len_frame c body : len (frame c body) = HEADER_LEN + len body.
Proof. unfold frame, header_to_bytes. field_lens. reflexivity. Qed.

Lemma ztake_take {A} n m (l : list A) : n <= m -> ztake n (ztake m l) = ztake n l.
Proof. intros H. unfold ztake. rewrite take_take. f_equal. lia. Qed.

(** The header is read as soon as its eight bytes are there. *)
Lemma read_message_header eof input header :
  HEADER_LEN <= len input -> header_from_bytes (ztake HEADER_LEN input) = Some header ->
  read_message eof input =
    if MAX_BODY <? h_size header then Refused
    else match read_exact eof (h_size header) (zdrop HEADER_LEN input) with
         | Got body rest => Got (header, body) rest
         | NeedMore => NeedMore
         | _ => Refused
         end.
Proof. intros Hl Hh. unfold read_message. rewrite (proj2 (Z.ltb_ge _ _)) by lia. now rewrite Hh. Qed.

Lemma frame_header c body t :
  len body <= MAX_BODY ->
  header_from_bytes (ztake HEADER_LEN (frame c body ++ t)) = Some (MkHeader (len body) (command_u32 c)).
Proof.
  intros Hb. unfold frame. rewrite <- app_assoc.
  assert (Hok : wire_ok (MkHeader (len body) (command_u32 c))).
  { split; [|apply command_u32_ok]. pose proof (len_nonneg body). unfold u32_ok, MAX_BODY in *. cbn. lia. }
  assert (Hl : len (header_to_bytes (MkHeader (len body) (command_u32 c))) = HEADER_LEN) by exact (wire_to_len _ Hok).
  rewrite <- Hl, ztake_app, <- (app_nil_r (header_to_bytes _)). exact (wire_roundtrip _ [] Hok).
Qed.

Lemma read_frame eof c body rest :
  len body <= MAX_BODY -> read_message eof (frame c body ++ rest) = Got (MkHeader (len body) (command_u32 c), body) rest.
Proof.
  intros Hb. pose proof (len_frame c body) as Hf. pose proof (len_nonneg rest). pose proof (len_nonneg body).
  erewrite read_message_header; [|rewrite len_app; lia|now apply frame_header]. cbn [h_size].
  rewrite (proj2 (Z.ltb_ge _ _)) by lia. assert (Hd : zdrop HEADER_LEN (frame c body ++ rest) = body ++ rest).
  { unfold frame. rewrite <- app_assoc. rewrite zdrop_skip; unfold header_to_bytes; cbn [h_size h_command]; field_lens; [|easy].
    change (HEADER_LEN - _) with 0. apply zdrop_0. }
  rewrite Hd. unfold read_exact. rewrite len_app, (proj2 (Z.ltb_ge _ _)) by lia. now rewrite ztake_app, zdrop_app.
Qed.

(** Of a message that is cut short: nothing, an error, or a longer wait. *)
Lemma frame_cut eof c body n :
  len body <= MAX_BODY -> 0 <= n < len (frame c body) ->
  read_message eof (ztake n (frame c body)) = if eof then (if n =? 0 then CleanEof else Refused) else NeedMore.
Proof.
  intros Hb Hn. pose proof (len_frame c body) as Hf. pose proof (len_ztake n (frame c body) ltac:(lia)) as Hl.
  destruct (Z.ltb_spec n HEADER_LEN) as [Hs|Hs].
  - unfold read_message. rewrite Hl, (proj2 (Z.ltb_lt _ _)) by lia. now destruct eof.
  - erewrite read_message_header; [|lia|].
    2:{ rewrite ztake_take by lia. rewrite <- (app_nil_r (frame c body)). now apply frame_header. }
    cbn [h_size]. rewrite (proj2 (Z.ltb_ge _ _)) by lia. unfold read_exact.
    rewrite (proj2 (Z.ltb_lt _ _)) by (rewrite len_zdrop, Hl; unfold HEADER_LEN in *; lia).
    destruct eof; [|reflexivity]. now rewrite (proj2 (Z.eqb_neq n 0)) by (unfold HEADER_LEN in Hs; lia).
Qed.

(** *** The array of readers *)

Lemma len_mbind_states (states : list ReaderState) :
  Forall wire_ok states -> len (mbind reader_state_to_bytes states) = 184 * len states.
Proof.
  induction 1 as [|s states Hs _ IH]; [reflexivity|]. rewrite bind_cons, len_app, len_cons, IH.
  pose proof (wire_to_len s Hs) as Hl. cbn in Hl. lia.
Qed.

(** A client finds in slot [i] the [i]th reader. *)
Lemma array_slot states i s :
  Forall wire_ok states -> len states <= MAX_READERS_CONTEXTS -> states !! i = Some s ->
  len (readers_state_array states) = MAX_READERS_CONTEXTS * 184 /\
  reader_state_from_bytes (zdrop (184 * Z.of_nat i) (readers_state_array states)) = Some s.
Proof.
  intros Hok Hl Hi. unfold readers_state_array. rewrite (ztake_all states) by exact Hl.
  pose proof (len_mbind_states states Hok) as Hm. split.
  { rewrite len_app, Hm. unfold len at 2. rewrite repeat_length. lia. }
  pose proof (lookup_lt_Some _ _ _ Hi). rewrite <- (take_drop_middle states i s Hi) in Hok |- *.
  apply Forall_app in Hok as [Ha Hb]. apply list.Forall_cons in Hb as [Hs Hb].
  rewrite bind_app, bind_cons, <- !app_assoc. rewrite zdrop_skip; rewrite len_mbind_states by exact Ha;
    unfold len; rewrite length_take; [|lia].
  replace (184 * Z.of_nat i - 184 * Z.of_nat (i `min` length states)) with 0 by lia. rewrite zdrop_0.
  exact (wire_roundtrip s _ Hs).
Qed.

(** ** Properties *)

(** What a client writes is what the daemon reads, struct by
    struct and wherever the socket cuts the bytes: a message is taken off the
    stream exactly when it is complete, with its command and its fields; until
    then the reader waits, or, when the client is gone, ends: quietly between two
    messages, with an error within one. *)
Theorem messages_read_back {A} `{WireStructLaws A} (c : Command) (a : A) eof rest n :
  wire_ok a -> wire_len <= MAX_BODY ->
  (exists h body, read_message eof (frame c (wire_to a) ++ rest) = Got (h, body) rest /\
     command_from_u32 (h_command h) = Some c /\ wire_from body = Some a) /\
  (0 <= n < len (frame c (wire_to a)) ->
   read_message eof (ztake n (frame c (wire_to a))) = if eof then (if n =? 0 then CleanEof else Refused) else NeedMore).
Proof.
  intros Ha Hl. pose proof (wire_to_len a Ha) as Hw. split; [|apply frame_cut; lia].
  eexists _, (wire_to a). split; [apply read_frame; lia|]. split; [apply command_roundtrip|].
  rewrite <- (app_nil_r (wire_to a)). now apply wire_roundtrip.
Qed.

Definition toy_connect : ConnectStruct := MkConnect 7 (ascii "Virtual PCD piggy fibby 00 00") 2 3 (-1) 0 0.

Lemma messages_read_back_witness :
  (exists h body, read_message false (frame Connect (wire_to toy_connect) ++ [1; 2]) = Got (h, body) [1; 2] /\
     command_from_u32 (h_command h) = Some Connect /\ wire_from body = Some toy_connect) /\
  (0 <= 100 < len (frame Connect (wire_to toy_connect)) ->
   read_message false (ztake 100 (frame Connect (wire_to toy_connect))) = NeedMore).
Proof.
  apply (messages_read_back Connect toy_connect false [1; 2] 100).
  - cbn [wire_ok connect_wire]. unfold u32_ok, i32_ok, name_fits.
    repeat split; try solve [cbn; lia | vm_compute; reflexivity | apply ascii_ok | cbn; intuition lia].
  - cbn. unfold MAX_BODY. lia.
Defined.
