(* ===== verification/Server.v ===== *)
(** * Server: fibby's pcsc-lite daemon, [fibby/src/server.rs]

    One thread per client connection, a table of cards each behind its lock, and
    a control socket.  A thread's turn ([thread]) is what it does between two
    locks: a handler that takes a lock, lets go of it and takes another is two
    turns with a [Phase] in between, and other threads may run there.  An
    [Event] is a turn of a thread, of the control socket, or something a client
    does to its socket; a run is a list of them. *)

From Stdlib Require Import ZArith Lia.
From stdpp Require Import base tactics list numbers gmap strings.
From S2P Require Import Prelude Utf8 Text CardState Proto.

Local Open Scope Z_scope.

(** ** The trait [Backend] ([backend.rs]) *)

(** The pad to park on is the card's own. *)
Record TouchWait := MkWait { tw_seen : Z; tw_timeout : Z; tw_response : bytes }.

Inductive Outcome : Type :=
| OutDone (response : bytes)
| OutAwait (wait : TouchWait).

Class Backend (B : Type) := {
  reader_name : B -> list Z;
  card_present : B -> bool;
  b_set_present : bool -> B -> B;
  b_event_counter : B -> Z;
  (** [Some e] is an error *)
  b_inject_fault : Fault -> B -> B * option (list Z);
  b_clear_faults : B -> B;
  b_atr : B -> bytes;
  b_connect : Z -> Z -> B -> B * res Z Z;
  b_disconnect : Z -> B -> B * res Z unit;
  b_end_transaction : Z -> B -> B;
  b_transmit_or_await_touch : Z -> bytes -> B -> B * res Z Outcome;
  b_grant_touch : B -> B * (Z + list Z);
  (** [TouchPad::generation], read under the pad's lock *)
  b_generation : B -> Z;
}.

Definition resets (disp : Z) : bool := (disp =? DISPOSITION_RESET) || (disp =? DISPOSITION_UNPOWER).

(** ** State *)

Record CardShare := MkShare { open_handles : Z; transaction_holder : option Z }.

Definition admits (s : CardShare) (h_card : Z) : bool :=
  match transaction_holder s with None => true | Some holder => holder =? h_card end.

(** Per connection: handles, the protocol each negotiated, the card each is on. *)
Record ConnState := MkConnState {
  contexts : gset Z;
  card_protocols : gmap Z Z;
  card_backends : gmap Z nat;
}.

Definition conn_state_new : ConnState := MkConnState ∅ ∅ ∅.

Definition backend_of (st : ConnState) (h_card : Z) : nat := default O (card_backends st !! h_card).

Definition protocol_of (st : ConnState) (h_card : Z) : Z := default PROTOCOL_T1 (card_protocols st !! h_card).

Definition forget_card (st : ConnState) (h_card : Z) : option nat * ConnState :=
  (card_backends st !! h_card, MkConnState (contexts st) (delete h_card (card_protocols st)) (delete h_card (card_backends st))).

Definition open_cards (st : ConnState) : list Z := (map_to_list (card_backends st)).*1.

Definition add_card (h_card protocol : Z) (backend_idx : nat) (st : ConnState) : ConnState :=
  MkConnState (contexts st) (<[h_card := protocol]> (card_protocols st)) (<[h_card := backend_idx]> (card_backends st)).

Definition add_context (h : Z) (st : ConnState) : ConnState :=
  MkConnState ({[h]} ∪ contexts st) (card_protocols st) (card_backends st).

(** What was written to a client: by its thread, as the array of a [0x13], or
    as a wake. *)
Inductive Sent : Type :=
| Reply (b : bytes)
| Array (b : bytes)
| Wake (b : bytes).

Inductive AfterClose : Type :=
| AnswerDisconnect (handle arg : Z)
| NextCard.

(** Where a connection's thread is, between two turns. *)
Inductive Phase : Type :=
| Handshake
| Idle
(** [connect], the card seen present; [reconnect], the share looked at *)
| Connecting (req : ConnectStruct) (idx : nat)
| Reconnecting (body : bytes) (h_card share_mode preferred initialization : Z) (idx : nat) (sole : bool)
(** [close_handle], the share updated *)
| Closing (idx : nat) (disp : Z) (last : bool) (after : AfterClose)
(** [transmit]: reading the APDU, let through to the card, waiting for a touch *)
| ReadApdu (req : TransmitStruct)
| LetThrough (req : TransmitStruct) (idx : nat) (apdu : bytes) (deadline : option Z)
| Parked (req : TransmitStruct) (idx : nat) (apdu : bytes) (seen deadline : Z) (timeout_response : bytes)
(** [end_transaction], the transaction given up; [wait_reader_state], the states read *)
| Ending (req : HandleArgRv) (idx : nat)
| Registering (array : bytes)
(** after the command loop: leave the registry, then close what is open *)
| Exiting
| Cleanup
| Gone.

Record Conn := MkConn {
  cn_in : bytes;
  cn_closed : bool;
  cn_out : list Sent;
  cn_state : ConnState;
  cn_armed : bool;
  cn_phase : Phase;
}.

Definition conn_new : Conn := MkConn [] false [] conn_state_new false Handshake.

Definition set_in (v : bytes) (c : Conn) : Conn := MkConn v (cn_closed c) (cn_out c) (cn_state c) (cn_armed c) (cn_phase c).
Definition set_state (v : ConnState) (c : Conn) : Conn := MkConn (cn_in c) (cn_closed c) (cn_out c) v (cn_armed c) (cn_phase c).
Definition set_armed (v : bool) (c : Conn) : Conn := MkConn (cn_in c) (cn_closed c) (cn_out c) (cn_state c) v (cn_phase c).
Definition go (v : Phase) (c : Conn) : Conn := MkConn (cn_in c) (cn_closed c) (cn_out c) (cn_state c) (cn_armed c) v.
Definition put_out (ms : list Sent) (c : Conn) : Conn :=
  if cn_closed c then c else MkConn (cn_in c) (cn_closed c) (cn_out c ++ ms) (cn_state c) (cn_armed c) (cn_phase c).

(** [reply(stream, ...)?], then on to [next]: writing to a client that is gone
    ends the connection. *)
Definition answer (ms : list Sent) (next : Phase) (c : Conn) : Conn :=
  if cn_closed c then go Exiting c else go next (put_out ms c).

(** [sv_live] is the registry of sinks; [sv_notifying] what is left of the loop
    of [notify_waiters], which holds the registry's lock; [sv_to_notify] counts
    the control threads about to start one. *)
Record Server (B : Type) := MkServer {
  sv_backends : list B;
  sv_shares : list CardShare;
  sv_conns : list Conn;
  sv_live : list nat;
  sv_notifying : list nat;
  sv_to_notify : nat;
  sv_next_context : Z;
  sv_next_card : Z;
}.
Arguments MkServer {B}.
Arguments sv_backends {B}.
Arguments sv_shares {B}.
Arguments sv_conns {B}.
Arguments sv_live {B}.
Arguments sv_notifying {B}.
Arguments sv_to_notify {B}.
Arguments sv_next_context {B}.
Arguments sv_next_card {B}.

Section Server.
Context {B : Type} {HB : Backend B}.
Implicit Type sv : Server B.

Definition put_conn (i : nat) (c : Conn) sv : Server B :=
  MkServer (sv_backends sv) (sv_shares sv) (<[i := c]> (sv_conns sv)) (sv_live sv) (sv_notifying sv) (sv_to_notify sv)
           (sv_next_context sv) (sv_next_card sv).
Definition put_backend (idx : nat) (b : B) sv : Server B :=
  MkServer (<[idx := b]> (sv_backends sv)) (sv_shares sv) (sv_conns sv) (sv_live sv) (sv_notifying sv) (sv_to_notify sv)
           (sv_next_context sv) (sv_next_card sv).
Definition put_share (idx : nat) (s : CardShare) sv : Server B :=
  MkServer (sv_backends sv) (<[idx := s]> (sv_shares sv)) (sv_conns sv) (sv_live sv) (sv_notifying sv) (sv_to_notify sv)
           (sv_next_context sv) (sv_next_card sv).
Definition set_live (l : list nat) sv : Server B :=
  MkServer (sv_backends sv) (sv_shares sv) (sv_conns sv) l (sv_notifying sv) (sv_to_notify sv)
           (sv_next_context sv) (sv_next_card sv).
Definition set_notify (l : list nat) (n : nat) sv : Server B :=
  MkServer (sv_backends sv) (sv_shares sv) (sv_conns sv) (sv_live sv) l n (sv_next_context sv) (sv_next_card sv).

(** [NEXT_CONTEXT.fetch_add(1)], [NEXT_CARD.fetch_add(1)]: both wrap. *)
Definition next_context sv : Z * Server B :=
  (sv_next_context sv,
   MkServer (sv_backends sv) (sv_shares sv) (sv_conns sv) (sv_live sv) (sv_notifying sv) (sv_to_notify sv)
            (u32 (sv_next_context sv + 1)) (sv_next_card sv)).
Definition next_card sv : Z * Server B :=
  (sv_next_card sv,
   MkServer (sv_backends sv) (sv_shares sv) (sv_conns sv) (sv_live sv) (sv_notifying sv) (sv_to_notify sv)
            (sv_next_context sv) (as_i32 (sv_next_card sv + 1))).

(** [backends[idx]], [shares[idx]] *)
Definition backend_at sv (idx : nat) : res unit B := match sv_backends sv !! idx with Some b => Ok b | None => Panic end.
Definition share_at sv (idx : nat) : res unit CardShare := match sv_shares sv !! idx with Some s => Ok s | None => Panic end.

(** ** Replies *)

Definition reply_handle_rv (handle rv : Z) : list Sent := [Reply (handle_rv_to_bytes (MkHandleRv handle rv))].

Definition connect_reply (req : ConnectStruct) (h_card active rv : Z) : list Sent :=
  [Reply (connect_to_bytes (MkConnect (c_context req) (c_reader req) (c_share_mode req) (c_preferred req) h_card active rv))].

(** [u32::from_le_bytes(body[o..o + 4])] and [out[o..o + 4].copy_from_slice(&v.to_le_bytes())] *)
Definition read_u32 (b : bytes) (o : Z) : res unit Z := let* s := slice b o (o + 4) in Ok (from_le_bytes s).
Definition patch_u32 (b : bytes) (o v : Z) : res unit bytes :=
  let* _ := slice b o (o + 4) in Ok (ztake o b ++ to_le_bytes 4 v ++ zdrop (o + 4) b).

Definition simple_ok (body : bytes) : res unit (list Sent) :=
  if 4 <=? len body then let* out := patch_u32 body (len body - 4) SCARD_S_SUCCESS in Ok [Reply out] else Ok [Reply body].

Definition transmit_reply (req : TransmitStruct) (active : Z) (response : bytes) : list Sent :=
  [Reply (transmit_to_bytes (MkTransmit (t_card req) (t_send_pci_protocol req) (t_send_pci_length req) (t_send_length req)
                                        active 8 (u32 (len response)) SCARD_S_SUCCESS));
   Reply response].

Definition transmit_error (req : TransmitStruct) (code : Z) : list Sent :=
  [Reply (transmit_to_bytes (MkTransmit (t_card req) (t_send_pci_protocol req) (t_send_pci_length req) (t_send_length req)
                                        (t_recv_pci_protocol req) (t_recv_pci_length req) 0 code))].

Definition wait_notification_bytes : bytes := to_le_bytes 4 0 ++ to_le_bytes 4 SCARD_S_SUCCESS.

Definition reader_state (b : B) : ReaderState :=
  let present := card_present b in
  MkReaderState (as_bytes (reader_name b)) (b_event_counter b)
    (if present then Z.lor (Z.lor FLAG_PRESENT FLAG_POWERED) FLAG_NEGOTIABLE else FLAG_ABSENT) 0
    (if present then b_atr b else []) (if present then PROTOCOL_T1 else PROTOCOL_UNDEFINED).

Definition build_reader_states sv : list ReaderState := reader_state <$> sv_backends sv.

(** ** Cards and handles *)

Definition backend_for_reader sv (sz_reader : bytes) : option nat :=
  match position (fun b => bytes_eqb (as_bytes (reader_name b)) sz_reader) (sv_backends sv) with
  | Some idx => Some idx
  | None => if len (sv_backends sv) =? 1 then Some O else None
  end.

(** [close_handle] up to the backend's lock: the card's index and whether the
    handle was its last, or that there is no such handle. *)
Definition close_share (st : ConnState) (h_card : Z) sv : res unit (option (nat * bool) * ConnState * Server B) :=
  match forget_card st h_card with
  | (None, st) => Ok (None, st, sv)
  | (Some idx, st) =>
      let* share := share_at sv idx in
      let holder := if bool_decide (transaction_holder share = Some h_card) then None else transaction_holder share in
      let open := Z.max 0 (open_handles share - 1) in
      Ok (Some (idx, open =? 0), st, put_share idx (MkShare open holder) sv)
  end.

(** [close_handle] under the backend's lock. *)
Definition close_backend (idx : nat) (disp : Z) (last : bool) sv : res unit (Z * Server B) :=
  let* b := backend_at sv idx in
  if last then
    match b_disconnect disp b with
    | (b, Ok _) => Ok (SCARD_S_SUCCESS, put_backend idx b sv)
    | (b, Err code) => Ok (code, put_backend idx b sv)
    | (_, Panic) => Panic
    end
  else Ok (SCARD_S_SUCCESS, if resets disp then put_backend idx (b_end_transaction disp b) sv else sv).

(** [connect] under the share's lock, a new handle's included. *)
Definition connect_share (req : ConnectStruct) (idx : nat) (st : ConnState) sv : res unit (list Sent * ConnState * Server B) :=
  let* share := share_at sv idx in
  let* b := backend_at sv idx in
  let (b, powered) := if open_handles share =? 0 then b_connect (c_share_mode req) (c_preferred req) b
                      else (b, Ok PROTOCOL_T1) in
  let sv := put_backend idx b sv in
  match powered with
  | Panic => Panic
  | Err code => Ok (connect_reply req (-1) 0 code, st, sv)
  | Ok active =>
      let sv := put_share idx (MkShare (open_handles share + 1) (transaction_holder share)) sv in
      let (h, sv) := next_card sv in
      Ok (connect_reply req h active SCARD_S_SUCCESS, add_card h active idx st, sv)
  end.

Definition reconnect_backend (body : bytes) (h_card share_mode preferred initialization : Z) (idx : nat) (sole : bool)
    (st : ConnState) sv : res unit (list Sent * Server B) :=
  let* b := backend_at sv idx in
  let (b, result) :=
    if sole then b_connect share_mode preferred b
    else (if resets initialization then b_end_transaction initialization b else b, Ok (protocol_of st h_card)) in
  let sv := put_backend idx b sv in
  match result with
  | Ok active =>
      let* out := patch_u32 body 16 active in
      let* out := patch_u32 out 20 SCARD_S_SUCCESS in
      Ok ([Reply out], sv)
  | Err code => let* out := patch_u32 body 20 code in Ok ([Reply out], sv)
  | Panic => Panic
  end.

Definition begin_share (h_card : Z) (idx : nat) sv : res unit (Z * Server B) :=
  let* share := share_at sv idx in
  if admits share h_card then Ok (SCARD_S_SUCCESS, put_share idx (MkShare (open_handles share) (Some h_card)) sv)
  else Ok (SCARD_E_SHARING_VIOLATION, sv).

Definition end_share (h_card : Z) (idx : nat) sv : res unit (bool * Server B) :=
  let* share := share_at sv idx in
  if bool_decide (transaction_holder share = Some h_card)
  then Ok (true, put_share idx (MkShare (open_handles share) None) sv) else Ok (false, sv).

Definition end_reply (req : HandleArgRv) : list Sent :=
  [Reply (handle_arg_to_bytes (MkHandleArg (ha_handle req) (ha_arg req) SCARD_S_SUCCESS))].

(** ** Commands

    The first turn of the handler of each; [c] is the connection with the message
    taken off its input. *)

Definition establish (body : bytes) (i : nat) (c : Conn) sv : Server B :=
  let req := default (MkEstablish SCOPE_SYSTEM 0 0) (establish_from_bytes body) in
  let (h, sv) := next_context sv in
  put_conn i (answer [Reply (establish_to_bytes (MkEstablish (e_scope req) h SCARD_S_SUCCESS))] Idle
                     (set_state (add_context h (cn_state c)) c)) sv.

Definition readers_state (i : nat) (c : Conn) sv : Server B :=
  put_conn i (answer [Reply (readers_state_array (build_reader_states sv))] Idle c) sv.

(** [connect] up to the share's lock *)
Definition connect_turn (body : bytes) (i : nat) (c : Conn) sv : res unit (Server B) :=
  match connect_from_bytes body with
  | None => Ok (put_conn i (answer (reply_handle_rv (-1) SCARD_E_INVALID_VALUE) Idle c) sv)
  | Some req =>
      match backend_for_reader sv (c_reader req) with
      | None => Ok (put_conn i (answer (connect_reply req (-1) 0 SCARD_E_UNKNOWN_READER) Idle c) sv)
      | Some idx =>
          let* b := backend_at sv idx in
          if negb (card_present b) then Ok (put_conn i (answer (connect_reply req (-1) 0 SCARD_E_NO_SMARTCARD) Idle c) sv)
          else Ok (put_conn i (go (Connecting req idx) c) sv)
      end
  end.

(** [reconnect] up to the backend's lock, the share looked at *)
Definition reconnect_turn (body : bytes) (i : nat) (c : Conn) sv : res unit (Server B) :=
  if len body <? 24 then Ok (put_conn i (answer [Reply body] Idle c) sv)
  else
    let* h_card := read_u32 body 0 in
    let* share_mode := read_u32 body 4 in
    let* preferred := read_u32 body 8 in
    let* initialization := read_u32 body 12 in
    let h_card := as_i32 h_card in
    let idx := backend_of (cn_state c) h_card in
    let* _ := backend_at sv idx in
    let* share := share_at sv idx in
    Ok (put_conn i (go (Reconnecting body h_card share_mode preferred initialization idx (open_handles share <=? 1)) c) sv).

Definition disconnect_turn (body : bytes) (i : nat) (c : Conn) sv : res unit (Server B) :=
  let req := default (MkHandleArg (-1) DISPOSITION_LEAVE 0) (handle_arg_from_bytes body) in
  let* (closed, st, sv) := close_share (cn_state c) (ha_handle req) sv in
  let c := set_state st c in
  match closed with
  | None => Ok (put_conn i (answer [Reply (handle_arg_to_bytes (MkHandleArg (ha_handle req) (ha_arg req) SCARD_E_INVALID_HANDLE))]
                                   Idle c) sv)
  | Some (idx, last) => Ok (put_conn i (go (Closing idx (ha_arg req) last (AnswerDisconnect (ha_handle req) (ha_arg req))) c) sv)
  end.

Definition begin_transaction (body : bytes) (i : nat) (c : Conn) sv : res unit (Server B) :=
  let req := default (MkHandleRv (-1) 0) (handle_rv_from_bytes body) in
  let* (rv, sv) := begin_share (hr_handle req) (backend_of (cn_state c) (hr_handle req)) sv in
  Ok (put_conn i (answer (reply_handle_rv (hr_handle req) rv) Idle c) sv).

(** [end_transaction] up to the backend's lock *)
Definition end_turn (body : bytes) (i : nat) (c : Conn) sv : res unit (Server B) :=
  let req := default (MkHandleArg (-1) DISPOSITION_LEAVE 0) (handle_arg_from_bytes body) in
  let idx := backend_of (cn_state c) (ha_handle req) in
  let* (held, sv) := end_share (ha_handle req) idx sv in
  Ok (put_conn i (if held : bool then go (Ending req idx) c else answer (end_reply req) Idle c) sv).

(** [transmit] up to the APDU, which follows on the stream *)
Definition transmit_turn (body : bytes) (i : nat) (c : Conn) sv : Server B :=
  match transmit_from_bytes body with
  | None => put_conn i c sv
  | Some req => put_conn i (go (ReadApdu req) c) sv
  end.

(** [status], and [cancel] *)
Definition status (body : bytes) (i : nat) (c : Conn) sv : Server B :=
  let req := default (MkHandleRv (-1) 0) (handle_rv_from_bytes body) in
  put_conn i (answer (reply_handle_rv (hr_handle req) SCARD_S_SUCCESS) Idle c) sv.

(** [wait_reader_state] up to the sink's lock *)
Definition wait_turn (i : nat) (c : Conn) sv : Server B :=
  put_conn i (go (Registering (readers_state_array (build_reader_states sv))) c) sv.

Definition stop_waiting (i : nat) (c : Conn) sv : Server B :=
  if cn_armed c then
    if cn_closed c then put_conn i (go Exiting c) sv
    else put_conn i (set_armed false (put_out [Wake wait_notification_bytes] c)) sv
  else put_conn i c sv.

Definition command_turn (command : option Command) (body : bytes) (i : nat) (c : Conn) sv : res unit (Server B) :=
  match command with
  | Some EstablishContext => Ok (establish body i c sv)
  | Some ReleaseContext => let* ms := simple_ok body in Ok (put_conn i (answer ms Idle c) sv)
  | Some GetReadersState => Ok (readers_state i c sv)
  | Some Connect => connect_turn body i c sv
  | Some Reconnect => reconnect_turn body i c sv
  | Some Disconnect => disconnect_turn body i c sv
  | Some BeginTransaction => begin_transaction body i c sv
  | Some EndTransaction => end_turn body i c sv
  | Some Transmit => Ok (transmit_turn body i c sv)
  | Some Status | Some Cancel => Ok (status body i c sv)
  | Some WaitReaderStateChange => Ok (wait_turn i c sv)
  | Some StopWaitingReaderStateChange => Ok (stop_waiting i c sv)
  (* not spoken, or not known: the connection is closed *)
  | Some _ | None => Ok (put_conn i (go Exiting c) sv)
  end.

(** [CMD_VERSION], first of all. *)
Definition handshake_turn (command : option Command) (body : bytes) (i : nat) (c : Conn) sv : Server B :=
  match command with
  | Some Version =>
      let client_major := match version_from_bytes body with Some v => v_major v | None => 0 end in
      let rv := if client_major =? PROTOCOL_VERSION_MAJOR then SCARD_S_SUCCESS else SCARD_E_NO_SERVICE in
      put_conn i (answer [Reply (version_to_bytes (MkVersion PROTOCOL_VERSION_MAJOR PROTOCOL_VERSION_MINOR rv))]
                         (if rv =? SCARD_S_SUCCESS then Idle else Exiting) c) sv
  | _ => put_conn i (go Exiting c) sv
  end.

(** ** A turn of a connection's thread *)

(** An end of file seen by a peek that reads nothing. *)
Definition peer_hung_up (c : Conn) : bool := cn_closed c && (len (cn_in c) =? 0).

Definition attempt_turn (now : Z) (req : TransmitStruct) (idx : nat) (apdu : bytes) (deadline : option Z)
    (i : nat) (c : Conn) sv : res unit (Server B) :=
  let* b := backend_at sv idx in
  let (b, result) := b_transmit_or_await_touch now apdu b in
  let sv := put_backend idx b sv in
  match result with
  | Ok (OutDone response) => Ok (put_conn i (answer (transmit_reply req (protocol_of (cn_state c) (t_card req)) response) Idle c) sv)
  | Ok (OutAwait w) =>
      Ok (put_conn i (go (Parked req idx apdu (tw_seen w) (default (now + tw_timeout w) deadline) (tw_response w)) c) sv)
  | Err code => Ok (put_conn i (answer (transmit_error req code) Idle c) sv)
  | Panic => Panic
  end.

(** [Err tt]: the thread waits, or has ended. *)
Definition thread (now : Z) (i : nat) sv : res unit (Server B) :=
  let* c := ok_or (sv_conns sv !! i) tt in
  match cn_phase c with
  | Handshake =>
      match read_message (cn_closed c) (cn_in c) with
      | Got (header, body) rest => Ok (handshake_turn (command_from_u32 (h_command header)) body i (set_in rest c) sv)
      | NeedMore => Err tt
      | CleanEof | Refused => Ok (put_conn i (go Exiting c) sv)
      end
  | Idle =>
      match read_message (cn_closed c) (cn_in c) with
      | Got (header, body) rest => command_turn (command_from_u32 (h_command header)) body i (set_in rest c) sv
      | NeedMore => Err tt
      | CleanEof | Refused => Ok (put_conn i (go Exiting c) sv)
      end
  | Connecting req idx =>
      let* (ms, st, sv) := connect_share req idx (cn_state c) sv in
      Ok (put_conn i (answer ms Idle (set_state st c)) sv)
  | Reconnecting body h_card share_mode preferred initialization idx sole =>
      let* (ms, sv) := reconnect_backend body h_card share_mode preferred initialization idx sole (cn_state c) sv in
      Ok (put_conn i (answer ms Idle c) sv)
  | Closing idx disp last after =>
      let* (rv, sv) := close_backend idx disp last sv in
      Ok (put_conn i (match after with
                      | AnswerDisconnect handle arg => answer [Reply (handle_arg_to_bytes (MkHandleArg handle arg rv))] Idle c
                      | NextCard => go Cleanup c
                      end) sv)
  | ReadApdu req =>
      match read_payload (cn_closed c) (t_send_length req) (cn_in c) with
      | Got apdu rest =>
          let c := set_in rest c in
          let idx := backend_of (cn_state c) (t_card req) in
          let* share := share_at sv idx in
          if admits share (t_card req) then Ok (put_conn i (go (LetThrough req idx apdu None) c) sv)
          else Ok (put_conn i (answer (transmit_error req SCARD_E_SHARING_VIOLATION) Idle c) sv)
      | NeedMore => Err tt
      | CleanEof | Refused => Ok (put_conn i (go Exiting c) sv)
      end
  | LetThrough req idx apdu deadline => attempt_turn now req idx apdu deadline i c sv
  | Parked req idx apdu seen deadline timeout_response =>
      let* b := backend_at sv idx in
      let timed_out := answer (transmit_reply req (protocol_of (cn_state c) (t_card req)) timeout_response) Idle c in
      if peer_hung_up c then Ok (put_conn i timed_out sv)
      else if negb (b_generation b =? seen) then Ok (put_conn i (go (LetThrough req idx apdu (Some deadline)) c) sv)
      else if deadline <=? now then Ok (put_conn i timed_out sv)
      else Err tt
  | Ending req idx =>
      let* b := backend_at sv idx in
      Ok (put_conn i (answer (end_reply req) Idle c) (put_backend idx (b_end_transaction (ha_arg req) b) sv))
  | Registering array =>
      if cn_closed c then Ok (put_conn i (go Exiting c) sv)
      else Ok (put_conn i (set_armed true (go Idle (put_out [Array array] c))) sv)
  | Exiting =>
      (* the registry is locked while a notification goes round *)
      if bool_decide (sv_notifying sv = [])
      then Ok (put_conn i (go Cleanup c) (set_live (List.filter (fun j => negb (Nat.eqb j i)) (sv_live sv)) sv)) else Err tt
  | Cleanup =>
      match open_cards (cn_state c) with
      | [] => Ok (put_conn i (go Gone c) sv)
      | h_card :: _ =>
          let* (closed, st, sv) := close_share (cn_state c) h_card sv in
          let c := set_state st c in
          Ok (put_conn i (match closed with
                          | Some (idx, last) => go (Closing idx DISPOSITION_LEAVE last NextCard) c
                          | None => c
                          end) sv)
      end
  | Gone => Err tt
  end.

(** ** The control socket *)

(** What a command answers; the texts are spelled in [control_command]. *)
Inductive ControlReply : Type :=
| CtlOk
| CtlPending (pending : Z)
| CtlList (readers : list (list Z * bool))
| CtlNoReader (name : list Z)
| CtlUnknown (verb : list Z)
| CtlUsage
| CtlBadIns (ins : list Z)
| CtlBadCount (count : list Z)
| CtlBadSw (sw : list Z)
| CtlFailed (e : list Z).

(** [char::to_digit(radix)] *)
Definition to_digit (radix c : Z) : option Z :=
  let v := if is_ascii_digit c then c - 48
           else if is_ascii_lowercase c then c - 97 + 10
           else if is_ascii_uppercase c then c - 65 + 10 else radix in
  if v <? radix then Some v else None.

Fixpoint digits_value (radix limit acc : Z) (s : list Z) : option Z :=
  match s with
  | [] => Some acc
  | c :: s =>
      d ← to_digit radix c;
      let acc := acc * radix + d in
      if limit <=? acc then None else digits_value radix limit acc s
  end.

(** [uN::from_str_radix]: digits, after a [+] if there is one. *)
Definition from_str_radix (radix limit : Z) (s : list Z) : option Z :=
  match s with
  | [] => None
  | [c] => if (c =? 43) || (c =? 45) then None else digits_value radix limit 0 [c]
  | c :: s' => digits_value radix limit 0 (if c =? 43 then s' else s)
  end.

Definition find_backend sv (name : list Z) : option nat :=
  position (fun b => bool_decide (reader_name b = name)) (sv_backends sv).

(** [f] applied to the card of that name. *)
Definition on_backend sv (name : list Z) (f : B -> B * ControlReply) : Server B * ControlReply :=
  match find_backend sv name with
  | None => (sv, CtlNoReader name)
  | Some idx =>
      match sv_backends sv !! idx with
      | None => (sv, CtlNoReader name)
      | Some b => let (b, r) := f b in (put_backend idx b sv, r)
      end
  end.

Definition control_fault sv (args : list Z) : Server B * ControlReply :=
  match split_once [32] args with
  | None => (sv, CtlUsage)
  | Some (first, rest) =>
      if bool_decide (first = ascii "clear") then on_backend sv (trim rest) (fun b => (b_clear_faults b, CtlOk))
      else
        match (if bool_decide (first = ascii "*") then Some None else Some <$> from_str_radix 16 256 first) with
        | None => (sv, CtlBadIns first)
        | Some ins =>
            match split_once [32] rest with
            | None => (sv, CtlUsage)
            | Some (sw_count, name) =>
                match (match split_once (ascii "x") sw_count with
                       | Some (sw, n) =>
                           match from_str_radix 10 (2 ^ 32) n with
                           | Some n' => if 0 <? n' then inl (sw, n') else inr n
                           | None => inr n
                           end
                       | None => inl (sw_count, 1)
                       end) with
                | inr n => (sv, CtlBadCount n)
                | inl (sw_hex, count) =>
                    match from_str_radix 16 65536 sw_hex with
                    | Some sw =>
                        if str_len sw_hex =? 4 then
                          on_backend sv (trim name)
                            (fun b => match b_inject_fault (MkFault ins sw count) b with
                                      | (b, None) => (b, CtlOk)
                                      | (b, Some e) => (b, CtlFailed e)
                                      end)
                        else (sv, CtlBadSw sw_hex)
                    | None => (sv, CtlBadSw sw_hex)
                    end
                end
            end
        end
  end.

(** [insert] and [remove] end with a notification, which is its own turns. *)
Definition control_command sv (line : list Z) : Server B * ControlReply :=
  let (verb, name) := match split_once [32] line with Some (v, n) => (v, trim n) | None => (line, []) end in
  if bool_decide (verb = ascii "fault") then control_fault sv name
  else if bool_decide (verb = ascii "touch") then
    on_backend sv name (fun b => match b_grant_touch b with
                                 | (b, inl pending) => (b, CtlPending pending)
                                 | (b, inr e) => (b, CtlFailed e)
                                 end)
  else if bool_decide (verb = ascii "insert") || bool_decide (verb = ascii "remove") then
    match on_backend sv name (fun b => (b_set_present (bool_decide (verb = ascii "insert")) b, CtlOk)) with
    | (sv, CtlOk) => (set_notify (sv_notifying sv) (S (sv_to_notify sv)) sv, CtlOk)
    | failed => failed
    end
  else if bool_decide (verb = ascii "list") then
    (sv, CtlList ((fun b => (reader_name b, card_present b)) <$> sv_backends sv))
  else (sv, CtlUnknown verb).

(** ** Events and runs *)

Inductive Event : Type :=
(** a client connects, writes, goes *)
| Accept
| Client (i : nat) (data : bytes)
| Hangup (i : nat)
(** a turn of a connection's thread, at a time *)
| Turn (now : Z) (i : nat)
(** a control command; [notify_waiters] taking the registry; its next sink *)
| ControlLine (line : list Z)
| NotifyStart
| NotifyNext.

(** One sink of [notify_waiters]: a failed write is ignored. *)
Definition notify_sink (c : Conn) : Conn :=
  if cn_armed c then set_armed false (put_out [Wake wait_notification_bytes] c) else c.

Definition exec sv (ev : Event) : res unit (Server B) :=
  match ev with
  | Accept =>
      (* registering takes the registry's lock *)
      if bool_decide (sv_notifying sv = []) then
        Ok (MkServer (sv_backends sv) (sv_shares sv) (sv_conns sv ++ [conn_new]) (sv_live sv ++ [length (sv_conns sv)])
                     (sv_notifying sv) (sv_to_notify sv) (sv_next_context sv) (sv_next_card sv))
      else Err tt
  | Client i data =>
      let* c := ok_or (sv_conns sv !! i) tt in
      if cn_closed c then Err tt else Ok (put_conn i (set_in (cn_in c ++ data) c) sv)
  | Hangup i =>
      let* c := ok_or (sv_conns sv !! i) tt in
      Ok (put_conn i (MkConn (cn_in c) true (cn_out c) (cn_state c) (cn_armed c) (cn_phase c)) sv)
  | Turn now i => thread now i sv
  | ControlLine line => Ok (control_command sv line).1
  | NotifyStart =>
      match sv_to_notify sv with
      | S n => if bool_decide (sv_notifying sv = []) then Ok (set_notify (sv_live sv) n sv) else Err tt
      | O => Err tt
      end
  | NotifyNext =>
      match sv_notifying sv with
      | [] => Err tt
      | j :: js =>
          let sv := set_notify js (sv_to_notify sv) sv in
          Ok (match sv_conns sv !! j with Some c => put_conn j (notify_sink c) sv | None => sv end)
      end
  end.

Fixpoint run sv (evs : list Event) : res unit (Server B) :=
  match evs with
  | [] => Ok sv
  | ev :: evs => let* sv := exec sv ev in run sv evs
  end.

(** [serve] *)
Definition serve (backends : list B) : Server B :=
  MkServer backends (const (MkShare 0 None) <$> backends) [] [] [] 0 1 1.
End Server.

(** ** What the server relies on of a card

    An invariant that every operation keeps, and under which none panics. *)
Class BackendLaws (B : Type) {HB : Backend B} := {
  b_ok : B -> Prop;
  b_connect_ok s p b : b_ok b -> b_ok (b_connect s p b).1 /\ no_panic (b_connect s p b).2;
  b_disconnect_ok d b : b_ok b -> b_ok (b_disconnect d b).1 /\ no_panic (b_disconnect d b).2;
  b_end_ok d b : b_ok b -> b_ok (b_end_transaction d b);
  b_present_ok v b : b_ok b -> b_ok (b_set_present v b);
  b_inject_ok f b : b_ok b -> b_ok (b_inject_fault f b).1;
  b_clear_ok b : b_ok b -> b_ok (b_clear_faults b);
  b_grant_ok b : b_ok b -> b_ok (b_grant_touch b).1;
  b_transmit_ok now apdu b : b_ok b -> bytes_ok apdu ->
    b_ok (b_transmit_or_await_touch now apdu b).1 /\ no_panic (b_transmit_or_await_touch now apdu b).2;
  (** the generation to wait on is the pad's, as it was left *)
  b_await_seen now apdu b b' w : b_transmit_or_await_touch now apdu b = (b', Ok (OutAwait w)) -> tw_seen w = b_generation b';
}.
