(* ===== verification/ServerInv.v ===== *)
(** * ServerInv: what holds of the daemon however its threads interleave

    The bookkeeping of handles, and that no bytes a client writes make a thread
    panic. *)

From Stdlib Require Import ZArith Lia.
From stdpp Require Import base tactics list numbers gmap strings.
From S2P Require Import Prelude Utf8 Text CardState Proto Server.

Local Open Scope Z_scope.

Section Inv.
Context {B : Type} {HB : Backend B} {LB : BackendLaws B}.
Implicit Type sv : Server B.

(** ** The invariant *)

(** How many handles a connection has on a card, and all of them together. *)
Definition open_on (idx : nat) (c : Conn) : nat := size (filter (fun p => p.2 = idx) (card_backends (cn_state c))).

Definition handles_on (idx : nat) sv : Z := Z.of_nat (sum_list_with (open_on idx) (sv_conns sv)).

Definition phase_ok (n : nat) (p : Phase) : Prop :=
  match p with
  | Connecting _ idx | Closing idx _ _ _ | Ending _ idx => (idx < n)%nat
  | Reconnecting body _ _ _ _ idx _ => (idx < n)%nat /\ 24 <= len body
  | LetThrough _ idx apdu _ | Parked _ idx apdu _ _ _ => (idx < n)%nat /\ bytes_ok apdu
  | _ => True
  end.

Record conn_ok (n : nat) (next : Z) (c : Conn) : Prop := {
  co_in : bytes_ok (cn_in c);
  co_handles h idx : card_backends (cn_state c) !! h = Some idx -> (idx < n)%nat /\ 1 <= h < next;
  co_phase : phase_ok n (cn_phase c);
}.

Record server_ok sv : Prop := {
  so_shares : length (sv_shares sv) = length (sv_backends sv);
  so_some : (0 < length (sv_backends sv))%nat;
  so_backends : Forall b_ok (sv_backends sv);
  so_next : 1 <= sv_next_card sv;
  so_conns i c : sv_conns sv !! i = Some c -> conn_ok (length (sv_backends sv)) (sv_next_card sv) c;
  so_distinct i j c d h :
    sv_conns sv !! i = Some c -> sv_conns sv !! j = Some d ->
    is_Some (card_backends (cn_state c) !! h) -> is_Some (card_backends (cn_state d) !! h) -> i = j;
  so_counted idx s : sv_shares sv !! idx = Some s -> open_handles s = handles_on idx sv;
}.

(** ** Counting *)

Lemma sum_insert {A} (f : A -> nat) l i x y :
  l !! i = Some x -> (sum_list_with f (<[i := y]> l) + f x = sum_list_with f l + f y)%nat.
Proof.
  revert i. induction l as [|a l IH]; intros [|i] H; try discriminate.
  - injection H as ->. change (<[O := y]> (x :: l)) with (y :: l). cbn. lia.
  - change (<[S i := y]> (a :: l)) with (a :: <[i := y]> l). cbn. specialize (IH i H). lia.
Qed.

Lemma sum_at {A} (f : A -> nat) l i x : l !! i = Some x -> (f x <= sum_list_with f l)%nat.
Proof.
  revert i. induction l as [|a l IH]; intros [|i] H; try discriminate; cbn.
  - injection H as ->. lia.
  - specialize (IH i H). lia.
Qed.

Lemma open_on_insert idx k h (m : gmap Z nat) :
  m !! h = None ->
  size (filter (fun p => p.2 = idx) (<[h := k]> m)) =
  (size (filter (fun p : Z * nat => p.2 = idx) m) + if decide (k = idx) then 1 else 0)%nat.
Proof.
  intros Hm. destruct (decide (k = idx)) as [Hk|Hk].
  - rewrite map_filter_insert_True by exact Hk. rewrite map_size_insert_None; [lia|].
    now apply map_lookup_filter_None_2; left.
  - rewrite map_filter_insert_False by exact Hk. rewrite delete_id by exact Hm. lia.
Qed.

Lemma open_on_delete idx k h (m : gmap Z nat) :
  m !! h = Some k ->
  size (filter (fun p : Z * nat => p.2 = idx) m) =
  (size (filter (fun p => p.2 = idx) (delete h m)) + if decide (k = idx) then 1 else 0)%nat.
Proof.
  intros Hm. rewrite <- (open_on_insert idx k h (delete h m)) by apply lookup_delete_eq.
  now rewrite insert_delete_id.
Qed.

(** ** Changes that keep it *)

Lemma put_conn_handles i c c' sv idx :
  sv_conns sv !! i = Some c -> open_on idx c' = open_on idx c -> handles_on idx (put_conn i c' sv) = handles_on idx sv.
Proof.
  intros Hi He. unfold handles_on, put_conn. cbn [sv_conns]. f_equal.
  pose proof (sum_insert (open_on idx) (sv_conns sv) i c c' Hi). lia.
Qed.

Lemma conns_insert (l : list Conn) i c c' j d :
  l !! i = Some c -> <[i := c']> l !! j = Some d -> (j = i /\ d = c') \/ (j <> i /\ l !! j = Some d).
Proof.
  intros Hi H. destruct (decide (j = i)) as [->|Hj].
  - rewrite list_lookup_insert_eq in H by (now apply lookup_lt_Some in Hi). injection H as <-. now left.
  - rewrite list_lookup_insert_ne in H by congruence. now right.
Qed.

(** A turn that leaves the connection's handles alone. *)
Lemma put_conn_ok i c c' sv :
  server_ok sv -> sv_conns sv !! i = Some c -> card_backends (cn_state c') = card_backends (cn_state c) ->
  bytes_ok (cn_in c') -> phase_ok (length (sv_backends sv)) (cn_phase c') -> server_ok (put_conn i c' sv).
Proof.
  intros H Hi Hh Hin Hp. pose proof (so_conns sv H i c Hi) as Hc.
  split; cbn [put_conn sv_shares sv_backends sv_conns sv_next_card]; try apply H.
  - intros j d Hj. destruct (conns_insert _ i c c' j d Hi Hj) as [[-> ->]|[_ Hj']]; [|exact (so_conns sv H j d Hj')].
    split; [exact Hin|rewrite Hh; apply Hc|exact Hp].
  - intros j k d e h Hj Hk Hd He.
    assert (forall j d, <[i := c']> (sv_conns sv) !! j = Some d -> is_Some (card_backends (cn_state d) !! h) ->
              exists d', sv_conns sv !! j = Some d' /\ is_Some (card_backends (cn_state d') !! h)) as Hback.
    { intros j' d' Hj' Hd'. destruct (conns_insert _ i c c' j' d' Hi Hj') as [[-> ->]|[_ Hj'']]; [|eauto].
      exists c. split; [exact Hi|]. now rewrite <- Hh. }
    destruct (Hback j d Hj Hd) as (d' & H1 & H2). destruct (Hback k e Hk He) as (e' & H3 & H4).
    exact (so_distinct sv H j k d' e' h H1 H3 H2 H4).
  - intros idx s Hs. change (sv_shares sv !! idx = Some s) in Hs. rewrite (so_counted sv H idx s Hs). symmetry.
    apply (put_conn_handles i c); [exact Hi|]. unfold open_on. now rewrite Hh.
Qed.

Lemma put_backend_ok idx b sv : server_ok sv -> b_ok b -> server_ok (put_backend idx b sv).
Proof.
  intros H Hb. destruct H. split; cbn [put_backend sv_shares sv_backends sv_conns sv_next_card]; rewrite ?length_insert; try assumption.
  now apply Forall_insert.
Qed.

Lemma put_share_ok idx s h sv :
  server_ok sv -> sv_shares sv !! idx = Some s -> server_ok (put_share idx (MkShare (open_handles s) h) sv).
Proof.
  intros H Hs. destruct H. split; cbn [put_share sv_shares sv_backends sv_conns sv_next_card]; rewrite ?length_insert; try assumption.
  intros k t Hk. destruct (decide (k = idx)) as [->|Hne].
  - rewrite list_lookup_insert_eq in Hk by (now apply lookup_lt_Some in Hs). injection Hk as <-. cbn. exact (so_counted0 idx s Hs).
  - rewrite list_lookup_insert_ne in Hk by congruence. exact (so_counted0 k t Hk).
Qed.

Lemma next_context_ok sv : server_ok sv -> server_ok (next_context sv).2.
Proof. intros H. destruct H. now split. Qed.

(** A new handle: a card's count goes up with it. *)
Lemma open_ok i c sv idx s h proto c' :
  server_ok sv -> sv_conns sv !! i = Some c -> sv_shares sv !! idx = Some s -> sv_next_card sv < 2 ^ 31 - 1 ->
  h = sv_next_card sv -> cn_state c' = add_card h proto idx (cn_state c) -> bytes_ok (cn_in c') ->
  phase_ok (length (sv_backends sv)) (cn_phase c') ->
  server_ok (put_conn i c' (next_card (put_share idx (MkShare (open_handles s + 1) (transaction_holder s)) sv)).2).
Proof.
  intros H Hi Hs Hnext Hh Hst Hin Hp. pose proof (so_conns sv H i c Hi) as Hc. pose proof (so_next sv H) as H1.
  assert (Hw : as_i32 (sv_next_card sv + 1) = sv_next_card sv + 1).
  { unfold as_i32. unfold u32. rewrite Z.mod_small by lia. now rewrite (proj2 (Z.ltb_lt _ _)) by lia. }
  assert (Hfresh : forall j d, sv_conns sv !! j = Some d -> card_backends (cn_state d) !! h = None).
  { intros j d Hj. destruct (card_backends (cn_state d) !! h) as [k|] eqn:E; [|reflexivity].
    apply (so_conns sv H j d Hj) in E. lia. }
  split; cbn [put_conn next_card put_share snd sv_shares sv_backends sv_conns sv_next_card]; rewrite ?Hw, ?length_insert; try apply H; try lia.
  - intros j d Hj. destruct (conns_insert _ i c c' j d Hi Hj) as [[-> ->]|[_ Hj']].
    + split; [exact Hin| |exact Hp]. intros h' k. rewrite Hst. cbn [add_card card_backends]. intros Hl.
      destruct (decide (h' = h)) as [->|Hne].
      * rewrite lookup_insert_eq in Hl. injection Hl as <-. apply lookup_lt_Some in Hs. rewrite (so_shares sv H) in Hs. lia.
      * rewrite lookup_insert_ne in Hl by congruence. apply Hc in Hl. lia.
    + destruct (so_conns sv H j d Hj') as [A1 A2 A3]. split; [exact A1| |exact A3]. intros h' k Hl. apply A2 in Hl. lia.
  - intros j k d e h' Hj Hk Hd He.
    destruct (decide (h' = h)) as [->|Hne].
    + assert (forall j d, <[i := c']> (sv_conns sv) !! j = Some d -> is_Some (card_backends (cn_state d) !! h) -> j = i) as Hi'.
      { intros j' d' Hj' [x Hx]. destruct (conns_insert _ i c c' j' d' Hi Hj') as [[-> _]|[_ Hj'']]; [reflexivity|].
        rewrite (Hfresh j' d' Hj'') in Hx. discriminate. }
      now rewrite (Hi' j d Hj Hd), (Hi' k e Hk He).
    + assert (forall j d, <[i := c']> (sv_conns sv) !! j = Some d -> is_Some (card_backends (cn_state d) !! h') ->
              exists d', sv_conns sv !! j = Some d' /\ is_Some (card_backends (cn_state d') !! h')) as Hback.
      { intros j' d' Hj' Hd'. destruct (conns_insert _ i c c' j' d' Hi Hj') as [[-> ->]|[_ Hj'']]; [|eauto].
        exists c. split; [exact Hi|]. rewrite Hst in Hd'. cbn [add_card card_backends] in Hd'.
        now rewrite lookup_insert_ne in Hd' by congruence. }
      destruct (Hback j d Hj Hd) as (d' & B1 & B2). destruct (Hback k e Hk He) as (e' & B3 & B4).
      exact (so_distinct sv H j k d' e' h' B1 B3 B2 B4).
  - intros k t Hk. match goal with |- _ = handles_on k ?x => change (handles_on k x) with (Z.of_nat (sum_list_with (open_on k) (<[i := c']> (sv_conns sv)))) end.
    pose proof (sum_insert (open_on k) (sv_conns sv) i c c' Hi) as Hsum.
    assert (Ho : open_on k c' = (open_on k c + if decide (idx = k) then 1 else 0)%nat).
    { unfold open_on. rewrite Hst. cbn [add_card card_backends]. apply open_on_insert. exact (Hfresh i c Hi). }
    destruct (decide (k = idx)) as [->|Hne].
    + rewrite list_lookup_insert_eq in Hk by (now apply lookup_lt_Some in Hs). injection Hk as <-. cbn [open_handles].
      rewrite (so_counted sv H idx s Hs). unfold handles_on. rewrite decide_True in Ho by reflexivity. lia.
    + rewrite list_lookup_insert_ne in Hk by congruence. rewrite (so_counted sv H k t Hk). unfold handles_on.
      rewrite decide_False in Ho by congruence. lia.
Qed.

(** A handle that is closed: its card's count goes down. *)
Lemma close_ok i c sv idx s h holder c' :
  server_ok sv -> sv_conns sv !! i = Some c -> card_backends (cn_state c) !! h = Some idx -> sv_shares sv !! idx = Some s ->
  cn_state c' = (forget_card (cn_state c) h).2 -> bytes_ok (cn_in c') -> phase_ok (length (sv_backends sv)) (cn_phase c') ->
  server_ok (put_conn i c' (put_share idx (MkShare (Z.max 0 (open_handles s - 1)) holder) sv)).
Proof.
  intros H Hi Hh Hs Hst Hin Hp. pose proof (so_conns sv H i c Hi) as Hc.
  assert (Hsub : forall h' k, card_backends (cn_state c') !! h' = Some k -> card_backends (cn_state c) !! h' = Some k).
  { intros h' k. rewrite Hst. cbn. rewrite lookup_delete_Some. tauto. }
  split; cbn [put_conn put_share sv_shares sv_backends sv_conns sv_next_card]; rewrite ?length_insert; try apply H.
  - intros j d Hj. destruct (conns_insert _ i c c' j d Hi Hj) as [[-> ->]|[_ Hj']]; [|exact (so_conns sv H j d Hj')].
    split; [exact Hin| |exact Hp]. intros h' k Hl. apply Hc. now apply Hsub.
  - intros j k d e h' Hj Hk Hd He.
    assert (forall j d, <[i := c']> (sv_conns sv) !! j = Some d -> is_Some (card_backends (cn_state d) !! h') ->
              exists d', sv_conns sv !! j = Some d' /\ is_Some (card_backends (cn_state d') !! h')) as Hback.
    { intros j' d' Hj' [x Hx]. destruct (conns_insert _ i c c' j' d' Hi Hj') as [[-> ->]|[_ Hj'']]; [|eauto].
      exists c. split; [exact Hi|]. exists x. now apply Hsub. }
    destruct (Hback j d Hj Hd) as (d' & B1 & B2). destruct (Hback k e Hk He) as (e' & B3 & B4).
    exact (so_distinct sv H j k d' e' h' B1 B3 B2 B4).
  - intros k t Hk. match goal with |- _ = handles_on k ?x => change (handles_on k x) with (Z.of_nat (sum_list_with (open_on k) (<[i := c']> (sv_conns sv)))) end.
    pose proof (sum_insert (open_on k) (sv_conns sv) i c c' Hi) as Hsum.
    pose proof (sum_at (open_on k) (sv_conns sv) i c Hi) as Hat.
    assert (Ho : open_on k c = (open_on k c' + if decide (idx = k) then 1 else 0)%nat).
    { unfold open_on. rewrite Hst. cbn [forget_card snd card_backends]. now apply open_on_delete. }
    destruct (decide (k = idx)) as [->|Hne].
    + rewrite list_lookup_insert_eq in Hk by (now apply lookup_lt_Some in Hs). injection Hk as <-. cbn [open_handles].
      rewrite (so_counted sv H idx s Hs). unfold handles_on. rewrite decide_True in Ho by reflexivity. lia.
    + rewrite list_lookup_insert_ne in Hk by congruence. rewrite (so_counted sv H k t Hk). unfold handles_on.
      rewrite decide_False in Ho by congruence. lia.
Qed.

(** ** Turns *)

Definition turn_ok sv sv' : Prop :=
  server_ok sv' /\ length (sv_backends sv') = length (sv_backends sv) /\ sv_next_card sv' <= sv_next_card sv + 1.

Lemma turn_same sv sv' :
  server_ok sv' -> length (sv_backends sv') = length (sv_backends sv) -> sv_next_card sv' = sv_next_card sv -> turn_ok sv sv'.
Proof. intros H Hl Hn. split; [exact H|]. split; [exact Hl|lia]. Qed.

(** The connection [c] after its turn is [c']: same handles, and a phase that is
    in order. *)
Lemma quiet_turn i c c' sv :
  server_ok sv -> sv_conns sv !! i = Some c -> card_backends (cn_state c') = card_backends (cn_state c) ->
  bytes_ok (cn_in c') -> phase_ok (length (sv_backends sv)) (cn_phase c') -> turn_ok sv (put_conn i c' sv).
Proof. intros. apply turn_same; [|reflexivity..]. now apply (put_conn_ok i c). Qed.

Lemma card_turn i c c' idx b sv :
  server_ok sv -> b_ok b -> sv_conns sv !! i = Some c -> card_backends (cn_state c') = card_backends (cn_state c) ->
  bytes_ok (cn_in c') -> phase_ok (length (sv_backends sv)) (cn_phase c') ->
  turn_ok sv (put_conn i c' (put_backend idx b sv)).
Proof.
  intros H Hb Hi Hh Hin Hp. assert (Hl : length (sv_backends (put_backend idx b sv)) = length (sv_backends sv)) by apply length_insert.
  apply turn_same; [|exact Hl|reflexivity]. apply (put_conn_ok i c); [now apply put_backend_ok|assumption..|now rewrite Hl].
Qed.

Lemma share_turn i c c' idx s h sv :
  server_ok sv -> sv_shares sv !! idx = Some s -> sv_conns sv !! i = Some c ->
  card_backends (cn_state c') = card_backends (cn_state c) -> bytes_ok (cn_in c') ->
  phase_ok (length (sv_backends sv)) (cn_phase c') ->
  turn_ok sv (put_conn i c' (put_share idx (MkShare (open_handles s) h) sv)).
Proof.
  intros H Hs Hi Hh Hin Hp. apply turn_same; [|reflexivity..]. apply (put_conn_ok i c); [now apply put_share_ok|assumption..].
Qed.

Lemma backend_at_ok sv idx : server_ok sv -> (idx < length (sv_backends sv))%nat ->
  exists b, backend_at sv idx = Ok b /\ sv_backends sv !! idx = Some b /\ b_ok b.
Proof.
  intros H Hi. destruct (lookup_lt_is_Some_2 _ _ Hi) as [b Hb]. exists b. unfold backend_at. rewrite Hb.
  split; [reflexivity|]. split; [reflexivity|]. exact (list.Forall_lookup_1 _ _ _ _ (so_backends sv H) Hb).
Qed.

Lemma share_at_ok sv idx : server_ok sv -> (idx < length (sv_backends sv))%nat ->
  exists s, share_at sv idx = Ok s /\ sv_shares sv !! idx = Some s.
Proof.
  intros H Hi. rewrite <- (so_shares sv H) in Hi. destruct (lookup_lt_is_Some_2 _ _ Hi) as [s Hs]. exists s. unfold share_at.
  now rewrite Hs.
Qed.

Lemma backend_of_lt sv i c h : server_ok sv -> sv_conns sv !! i = Some c ->
  (backend_of (cn_state c) h < length (sv_backends sv))%nat.
Proof.
  intros H Hi. unfold backend_of. destruct (card_backends (cn_state c) !! h) as [idx|] eqn:E; cbn; [|apply H].
  now apply (so_conns sv H i c Hi) in E.
Qed.

Lemma answer_fields ms p c :
  cn_state (answer ms p c) = cn_state c /\ cn_in (answer ms p c) = cn_in c /\
  (cn_phase (answer ms p c) = p \/ cn_phase (answer ms p c) = Exiting).
Proof. unfold answer, put_out. destruct (cn_closed c); cbn; auto. Qed.

Lemma answer_phase n ms p c : phase_ok n p -> phase_ok n (cn_phase (answer ms p c)).
Proof. intros H. destruct (answer_fields ms p c) as (_ & _ & [-> | ->]); [exact H|exact I]. Qed.

Lemma read_exact_bytes eof n input a rest : bytes_ok input -> read_exact eof n input = Got a rest -> bytes_ok a /\ bytes_ok rest.
Proof.
  intros H. unfold read_exact. destruct (len input <? n); [destruct eof; discriminate|]. intros [= <- <-].
  split; [now apply bytes_ok_ztake|now apply bytes_ok_zdrop].
Qed.

Lemma read_message_bytes eof input h body rest :
  bytes_ok input -> read_message eof input = Got (h, body) rest -> bytes_ok body /\ bytes_ok rest.
Proof.
  intros H. unfold read_message. destruct (len input <? HEADER_LEN); [destruct eof; [destruct (len input =? 0)|]; discriminate|].
  destruct (header_from_bytes _) as [hd|]; [|discriminate]. destruct (MAX_BODY <? h_size hd); [discriminate|].
  destruct (read_exact eof (h_size hd) (zdrop HEADER_LEN input)) as [b r| | |] eqn:E; try discriminate. intros [= <- <- <-].
  exact (read_exact_bytes _ _ _ _ _ (bytes_ok_zdrop _ _ H) E).
Qed.

Lemma read_payload_bytes eof n input a rest : bytes_ok input -> read_payload eof n input = Got a rest -> bytes_ok a /\ bytes_ok rest.
Proof. intros H. unfold read_payload. destruct (MAX_BODY <? n); [discriminate|]. now apply read_exact_bytes. Qed.

(** [close_handle], up to the backend's lock. *)
Lemma close_turn i c sv h :
  server_ok sv -> sv_conns sv !! i = Some c ->
  match close_share (cn_state c) h sv with
  | Ok (None, st, sv') => sv' = sv /\ card_backends st = card_backends (cn_state c)
  | Ok (Some (idx, last), st, sv') =>
      (idx < length (sv_backends sv))%nat /\
      (forall c', cn_state c' = st -> bytes_ok (cn_in c') -> phase_ok (length (sv_backends sv)) (cn_phase c') ->
         turn_ok sv (put_conn i c' sv'))
  | Err _ => True
  | Panic => False
  end.
Proof.
  intros H Hi. unfold close_share, forget_card. destruct (card_backends (cn_state c) !! h) as [idx|] eqn:Hh.
  - assert (Hlt : (idx < length (sv_backends sv))%nat) by (now apply (so_conns sv H i c Hi) in Hh).
    destruct (share_at_ok sv idx H Hlt) as (s & -> & Hs). cbn [res_bind]. split; [exact Hlt|].
    intros c' Hst Hin Hp. apply turn_same; [|reflexivity..].
    apply (close_ok i c sv idx s h); assumption.
  - split; [reflexivity|]. cbn. now apply delete_id.
Qed.

Lemma handshake_ok command body i c sv :
  server_ok sv -> sv_conns sv !! i = Some c -> forall rest, bytes_ok rest ->
  turn_ok sv (handshake_turn command body i (set_in rest c) sv).
Proof.
  intros H Hi rest Hr. unfold handshake_turn.
  assert (Hexit : turn_ok sv (put_conn i (go Exiting (set_in rest c)) sv)) by (apply (quiet_turn i c); auto; exact I).
  destruct command as [[]|]; try exact Hexit.
  match goal with |- turn_ok _ (put_conn _ (answer ?ms ?p _) _) => pose proof (answer_fields ms p (set_in rest c)) as (Hst & Hin & _) end.
  apply (quiet_turn i c); auto; [now rewrite Hst|now rewrite Hin|]. apply answer_phase. now destruct (_ =? _).
Qed.

Lemma answer_turn i c1 ms p sv sv' :
  (forall c', card_backends (cn_state c') = card_backends (cn_state c1) -> bytes_ok (cn_in c') ->
     phase_ok (length (sv_backends sv)) (cn_phase c') -> turn_ok sv (put_conn i c' sv')) ->
  bytes_ok (cn_in c1) -> phase_ok (length (sv_backends sv)) p -> turn_ok sv (put_conn i (answer ms p c1) sv').
Proof.
  intros Hk Hin Hp. destruct (answer_fields ms p c1) as (Hst & Hi & _). apply Hk; [now rewrite Hst|now rewrite Hi|].
  now apply answer_phase.
Qed.

Lemma position_lt {A} (f : A -> bool) l i : position f l = Some i -> (i < length l)%nat.
Proof. intros H. apply position_hit in H as (x & H & _). now apply lookup_lt_Some in H. Qed.

Lemma backend_for_reader_lt sv name idx : server_ok sv -> backend_for_reader sv name = Some idx -> (idx < length (sv_backends sv))%nat.
Proof.
  intros H. unfold backend_for_reader. destruct (position _ _) as [k|] eqn:E; [intros [= <-]; exact (position_lt _ _ _ E)|].
  destruct (_ =? 1); [|discriminate]. intros [= <-]. apply H.
Qed.

Lemma read_u32_Ok b o : 0 <= o -> o + 4 <= len b -> read_u32 b o = Ok (le_u32 b o).
Proof. intros Ho Hl. unfold read_u32. rewrite slice_Ok by lia. cbn [res_bind]. replace (o + 4 - o) with 4 by lia. reflexivity. Qed.

Lemma patch_u32_Ok b o v : 0 <= o -> o + 4 <= len b -> exists out, patch_u32 b o v = Ok out /\ len out = len b.
Proof.
  intros Ho Hl. unfold patch_u32. rewrite slice_Ok by lia. cbn [res_bind]. eexists. split; [reflexivity|].
  rewrite !len_app, len_to_le_bytes, len_ztake, len_zdrop by lia. lia.
Qed.

Lemma command_ok command body i c sv rest :
  server_ok sv -> sv_conns sv !! i = Some c -> cn_phase c = Idle -> bytes_ok rest -> bytes_ok body ->
  yields (command_turn command body i (set_in rest c) sv) (turn_ok sv).
Proof.
  intros H Hi Hph Hr Hb. set (c1 := set_in rest c).
  assert (Hq : forall c', card_backends (cn_state c') = card_backends (cn_state c) -> bytes_ok (cn_in c') ->
                 phase_ok (length (sv_backends sv)) (cn_phase c') -> turn_ok sv (put_conn i c' sv)) by (intros; now apply (quiet_turn i c)).
  assert (Ha : forall ms, turn_ok sv (put_conn i (answer ms Idle c1) sv)) by (intros; apply (answer_turn i c1); auto; exact I).
  assert (Hg : forall p, phase_ok (length (sv_backends sv)) p -> turn_ok sv (put_conn i (go p c1) sv)) by (intros; apply Hq; auto).
  assert (Hsame : turn_ok sv (put_conn i c1 sv)) by (apply Hq; auto; cbn; rewrite Hph; exact I).
  destruct command as [[]|];
    cbn [command_turn yields];
    unfold establish, readers_state, connect_turn, reconnect_turn, disconnect_turn, begin_transaction, end_turn, transmit_turn, status,
      wait_turn, stop_waiting;
    cbn [next_context yields]; try (now apply Hg); try apply Ha.
  - (* EstablishContext *)
    apply turn_same; [|reflexivity..]. pose proof (next_context_ok sv H) as H'. cbn [next_context snd] in H'.
    match goal with |- server_ok (put_conn i (answer ?ms Idle ?c') ?sv') => pose proof (answer_fields ms Idle c') as (Hst & Hin & Hp) end.
    apply (put_conn_ok i c); [exact H'|exact Hi|now rewrite Hst|now rewrite Hin|]. destruct Hp as [-> | ->]; exact I.
  - (* ReleaseContext *)
    unfold simple_ok. destruct (4 <=? len body) eqn:Hl; [|apply Ha]. bprop.
    destruct (patch_u32_Ok body (len body - 4) SCARD_S_SUCCESS ltac:(lia) ltac:(lia)) as (out & -> & _). apply Ha.
  - (* Connect *)
    destruct (connect_from_bytes body) as [req|]; [|apply Ha]. destruct (backend_for_reader sv (c_reader req)) as [idx|] eqn:E; [|apply Ha].
    apply backend_for_reader_lt in E; [|exact H]. destruct (backend_at_ok sv idx H E) as (b & -> & _). cbn [res_bind].
    destruct (negb (card_present b)); [apply Ha|apply Hg; exact E].
  - (* Reconnect *)
    destruct (len body <? 24) eqn:Hl; [apply Ha|]. bprop. rewrite !read_u32_Ok by lia. cbn [res_bind].
    pose proof (backend_of_lt sv i c (le_i32 body 0) H Hi) as Hlt. fold (le_i32 body 0).
    change (cn_state c1) with (cn_state c). destruct (backend_at_ok sv _ H Hlt) as (b & -> & _). destruct (share_at_ok sv _ H Hlt) as (s & -> & _).
    apply Hg. split; [exact Hlt|lia].
  - (* Disconnect *)
    change (cn_state c1) with (cn_state c). set (req := default _ _). pose proof (close_turn i c sv (ha_handle req) H Hi) as Hc.
    destruct (close_share (cn_state c) (ha_handle req) sv) as [[[[[idx last]|] st] sv']|e|]; cbn [res_bind yields] in *; try contradiction; try exact I.
    + destruct Hc as [Hlt Hc]. apply Hc; auto.
    + destruct Hc as [-> Hst]. apply (answer_turn i (set_state st c1)); auto; [|exact I].
      intros c' Hc' Hin Hp. apply Hq; auto. rewrite Hc'. exact Hst.
  - (* BeginTransaction *)
    change (cn_state c1) with (cn_state c). set (req := default _ _). pose proof (backend_of_lt sv i c (hr_handle req) H Hi) as Hlt.
    unfold begin_share. destruct (share_at_ok sv _ H Hlt) as (s & -> & Hs). cbn [res_bind].
    destruct (admits s (hr_handle req)); cbn [res_bind yields]; [|apply Ha].
    apply (answer_turn i c1); auto; [|exact I]. intros. now apply (share_turn i c).
  - (* EndTransaction *)
    change (cn_state c1) with (cn_state c). set (req := default _ _). pose proof (backend_of_lt sv i c (ha_handle req) H Hi) as Hlt.
    unfold end_share. destruct (share_at_ok sv _ H Hlt) as (s & -> & Hs). cbn [res_bind].
    case_bool_decide; cbn [res_bind yields]; [|apply Ha]. apply (share_turn i c); auto.
  - (* Transmit *)
    destruct (transmit_from_bytes body); [apply Hg; exact I|exact Hsame].
  - (* StopWaiting *)
    change (cn_armed c1) with (cn_armed c). destruct (cn_armed c); [|exact Hsame].
    change (cn_closed c1) with (cn_closed c). destruct (cn_closed c) eqn:Hcl; [apply Hg; exact I|].
    unfold put_out. change (cn_closed c1) with (cn_closed c). rewrite Hcl. apply Hq; auto. cbn. rewrite Hph. exact I.
Qed.

Lemma attempt_ok now req idx apdu deadline i c sv :
  server_ok sv -> sv_conns sv !! i = Some c -> (idx < length (sv_backends sv))%nat -> bytes_ok apdu ->
  yields (attempt_turn now req idx apdu deadline i c sv) (turn_ok sv).
Proof.
  intros H Hi Hlt Ha. unfold attempt_turn. destruct (backend_at_ok sv idx H Hlt) as (b & -> & _ & Hb). cbn [res_bind].
  pose proof (b_transmit_ok now apdu b Hb Ha) as [Hok Hnp]. destruct (b_transmit_or_await_touch now apdu b) as [b' r]. cbn [fst snd] in *.
  pose proof (so_conns sv H i c Hi) as Hc.
  assert (Hq : forall ms, turn_ok sv (put_conn i (answer ms Idle c) (put_backend idx b' sv))).
  { intros ms. apply answer_turn; [|apply Hc|exact I]. intros. now apply (card_turn i c). }
  destruct r as [[resp|w]|e|]; cbn [yields]; [apply Hq| |apply Hq|now contradiction Hnp].
  apply (card_turn i c); auto; [apply Hc|]. now split.
Qed.

Lemma connecting_ok req idx i c sv :
  server_ok sv -> sv_next_card sv < 2 ^ 31 - 1 -> sv_conns sv !! i = Some c -> (idx < length (sv_backends sv))%nat ->
  yields (let* (ms, st, sv) := connect_share req idx (cn_state c) sv in Ok (put_conn i (answer ms Idle (set_state st c)) sv)) (turn_ok sv).
Proof.
  intros H Hn Hi Hlt. unfold connect_share. destruct (share_at_ok sv idx H Hlt) as (s & -> & Hs).
  destruct (backend_at_ok sv idx H Hlt) as (b & -> & _ & Hb). cbn [res_bind]. pose proof (so_conns sv H i c Hi) as Hc.
  assert (Hp : exists b' r, (if open_handles s =? 0 then b_connect (c_share_mode req) (c_preferred req) b else (b, Ok PROTOCOL_T1)) = (b', r)
                            /\ b_ok b' /\ no_panic r).
  { destruct (open_handles s =? 0); [|exists b, (Ok PROTOCOL_T1); split; [reflexivity|]; split; [exact Hb|discriminate]].
    pose proof (b_connect_ok (c_share_mode req) (c_preferred req) b Hb) as Hx. destruct (b_connect _ _ b) as [b' r]. now exists b', r. }
  destruct Hp as (b' & r & -> & Hb' & Hnp). destruct r as [active|code|]; [| |now contradiction Hnp].
  - cbn [next_card]. set (sv1 := put_backend idx b' sv). assert (H1 : server_ok sv1) by now apply put_backend_ok.
    cbn [res_bind yields]. destruct (answer_fields (connect_reply req (sv_next_card sv) active SCARD_S_SUCCESS) Idle
      (set_state (add_card (sv_next_card sv) active idx (cn_state c)) c)) as (Hst & Hin & Hph).
    split; [|split].
    + refine (open_ok i c sv1 idx s (sv_next_card sv) active _ H1 Hi Hs Hn eq_refl Hst _ _); [rewrite Hin; apply Hc|].
      destruct Hph as [-> | ->]; exact I.
    + apply length_insert.
    + match goal with |- ?x <= _ => change x with (as_i32 (sv_next_card sv + 1)) end. unfold as_i32, u32. pose proof (so_next sv H).
      rewrite Z.mod_small by lia. rewrite (proj2 (Z.ltb_lt _ _)) by lia. lia.
  - cbn [res_bind yields]. apply answer_turn; [|apply Hc|exact I]. intros. now apply (card_turn i c).
Qed.

Lemma reconnecting_ok body h_card share_mode preferred initialization idx sole i c sv :
  server_ok sv -> sv_conns sv !! i = Some c -> (idx < length (sv_backends sv))%nat -> 24 <= len body ->
  yields (let* (ms, sv) := reconnect_backend body h_card share_mode preferred initialization idx sole (cn_state c) sv in
          Ok (put_conn i (answer ms Idle c) sv)) (turn_ok sv).
Proof.
  intros H Hi Hlt Hl. unfold reconnect_backend. destruct (backend_at_ok sv idx H Hlt) as (b & -> & _ & Hb). cbn [res_bind].
  pose proof (so_conns sv H i c Hi) as Hc.
  assert (Hq : forall b' ms, b_ok b' -> turn_ok sv (put_conn i (answer ms Idle c) (put_backend idx b' sv))).
  { intros b' ms Hb'. apply answer_turn; [|apply Hc|exact I]. intros. now apply (card_turn i c). }
  assert (H16 : forall v, exists out, patch_u32 body 16 v = Ok out /\ len out = len body) by (intros; apply patch_u32_Ok; lia).
  assert (H20 : forall b v, len b = len body -> exists out, patch_u32 b 20 v = Ok out /\ len out = len b) by (intros; apply patch_u32_Ok; lia).
  assert (Hfin : forall b' r, b_ok b' -> no_panic r ->
            yields (let* (ms, sv) := match r with
                     | Ok active => let* out := patch_u32 body 16 active in let* out := patch_u32 out 20 SCARD_S_SUCCESS in
                                    Ok ([Reply out], put_backend idx b' sv)
                     | Err code => let* out := patch_u32 body 20 code in Ok ([Reply out], put_backend idx b' sv)
                     | Panic => Panic
                     end in Ok (put_conn i (answer ms Idle c) sv)) (turn_ok sv)).
  { intros b' [active|code|] Hb' Hr; [| |now contradiction Hr].
    - destruct (H16 active) as (o1 & -> & L1). cbn [res_bind]. destruct (H20 o1 SCARD_S_SUCCESS L1) as (o2 & -> & _). now apply Hq.
    - destruct (H20 body code eq_refl) as (o1 & -> & _). now apply Hq. }
  destruct sole.
  - pose proof (b_connect_ok share_mode preferred b Hb) as [Hb' Hnp]. destruct (b_connect _ _ b) as [b' r]. exact (Hfin b' r Hb' Hnp).
  - apply (Hfin _ (Ok _)); [|discriminate]. destruct (resets initialization); [now apply b_end_ok|exact Hb].
Qed.

Lemma closing_ok idx disp last i c sv k :
  server_ok sv -> sv_conns sv !! i = Some c -> (idx < length (sv_backends sv))%nat ->
  (forall rv, cn_state (k rv) = cn_state c /\ bytes_ok (cn_in (k rv)) /\ phase_ok (length (sv_backends sv)) (cn_phase (k rv))) ->
  yields (let* (rv, sv) := close_backend idx disp last sv in Ok (put_conn i (k rv) sv)) (turn_ok sv).
Proof.
  intros H Hi Hlt Hk. unfold close_backend. destruct (backend_at_ok sv idx H Hlt) as (b & -> & _ & Hb). cbn [res_bind].
  assert (Hq : forall b' rv, b_ok b' -> turn_ok sv (put_conn i (k rv) (put_backend idx b' sv))).
  { intros b' rv Hb'. destruct (Hk rv) as (K1 & K2 & K3). apply (card_turn i c); auto. now rewrite K1. }
  destruct last.
  - pose proof (b_disconnect_ok disp b Hb) as [Hb' Hnp]. destruct (b_disconnect disp b) as [b' [[]|e|]]; cbn in *; [now apply Hq..|now contradiction Hnp].
  - cbn. destruct (resets disp); [apply Hq; now apply b_end_ok|]. destruct (Hk SCARD_S_SUCCESS) as (K1 & K2 & K3).
    apply (quiet_turn i c); auto. now rewrite K1.
Qed.

Lemma thread_ok now i sv : server_ok sv -> sv_next_card sv < 2 ^ 31 - 1 -> yields (thread now i sv) (turn_ok sv).
Proof.
  intros H Hn. unfold thread. destruct (sv_conns sv !! i) as [c|] eqn:Hi; [|exact I]. cbn [ok_or res_bind].
  pose proof (so_conns sv H i c Hi) as [Hin _ Hph].
  assert (Hg : forall p, phase_ok (length (sv_backends sv)) p -> turn_ok sv (put_conn i (go p c) sv)) by (intros; now apply (quiet_turn i c)).
  destruct (cn_phase c) as [| |req idx|body h sm pref init idx sole|idx disp last after|req|req idx apdu dl|req idx apdu seen dl tr|
                            req idx|arr| | |] eqn:E; cbn [phase_ok] in Hph; [..|exact I].
  - destruct (read_message (cn_closed c) (cn_in c)) as [[h body] rest| | |] eqn:Em; cbn [yields]; try exact I; try (apply Hg; exact I).
    apply handshake_ok; auto. now apply read_message_bytes in Em.
  - destruct (read_message (cn_closed c) (cn_in c)) as [[h body] rest| | |] eqn:Em; cbn [yields]; try exact I; try (apply Hg; exact I).
    apply read_message_bytes in Em as [Hb Hr]; [|exact Hin]. now apply command_ok.
  - now apply connecting_ok.
  - destruct Hph. now apply reconnecting_ok.
  - apply (closing_ok idx disp last i c sv (fun rv => match after with
                      | AnswerDisconnect handle arg => answer [Reply (handle_arg_to_bytes (MkHandleArg handle arg rv))] Idle c
                      | NextCard => go Cleanup c
                      end)); auto. intros rv. destruct after; cbn; auto.
    match goal with |- context [answer ?ms ?p c] => destruct (answer_fields ms p c) as (A & -> & [-> | ->]) end; rewrite A; repeat split; auto.
  - destruct (read_payload (cn_closed c) (t_send_length req) (cn_in c)) as [apdu rest| | |] eqn:Em; cbn [yields]; try exact I; try (apply Hg; exact I).
    apply read_payload_bytes in Em as [Ha Hr]; [|exact Hin]. change (cn_state (set_in rest c)) with (cn_state c).
    pose proof (backend_of_lt sv i c (t_card req) H Hi) as Hlt. destruct (share_at_ok sv _ H Hlt) as (s & -> & _). cbn [res_bind].
    destruct (admits s (t_card req)); cbn [yields].
    + apply (quiet_turn i c); auto. now split.
    + apply answer_turn; [|exact Hr|exact I]. intros. now apply (quiet_turn i c).
  - destruct Hph. now apply attempt_ok.
  - destruct Hph as [Hlt Ha]. destruct (backend_at_ok sv idx H Hlt) as (b & -> & _ & Hb). cbn [res_bind].
    assert (Ht : forall ms, turn_ok sv (put_conn i (answer ms Idle c) sv)) by (intros; apply answer_turn; [intros; now apply (quiet_turn i c)|exact Hin|exact I]).
    destruct (peer_hung_up c); [apply Ht|]. destruct (negb _); [apply Hg; now split|]. destruct (dl <=? now); [apply Ht|exact I].
  - destruct (backend_at_ok sv idx H Hph) as (b & -> & _ & Hb). cbn [res_bind yields].
    apply answer_turn; [|exact Hin|exact I]. intros. apply (card_turn i c); auto. now apply b_end_ok.
  - destruct (cn_closed c) eqn:Hcl; cbn [yields]; [apply Hg; exact I|]. unfold put_out. rewrite Hcl. now apply (quiet_turn i c).
  - case_bool_decide; [|exact I]. cbn [yields]. assert (H1 : server_ok (set_live (List.filter (fun j => negb (Nat.eqb j i)) (sv_live sv)) sv)) by (destruct H; now split).
    apply turn_same; [|reflexivity..]. now apply (put_conn_ok i c).
  - destruct (open_cards (cn_state c)) as [|h hs]; [apply Hg; exact I|]. pose proof (close_turn i c sv h H Hi) as Hc.
    destruct (close_share (cn_state c) h sv) as [[[[[idx last]|] st] sv']|e|]; cbn [res_bind yields] in *; try contradiction; try exact I.
    + destruct Hc as [Hlt Hc]. apply Hc; auto.
    + destruct Hc as [-> Hst]. apply (quiet_turn i c); auto. cbn. rewrite E. exact I.
Qed.

(** ** Events *)

(** What a client writes are bytes. *)
Definition event_ok (ev : Event) : Prop := match ev with Client _ data => bytes_ok data | _ => True end.

Lemma on_backend_ok sv name f :
  server_ok sv -> (forall b, b_ok b -> b_ok (f b).1) -> turn_ok sv (on_backend sv name f).1.
Proof.
  intros H Hf. assert (Hrefl : turn_ok sv sv) by now apply turn_same. unfold on_backend.
  destruct (find_backend sv name) as [idx|]; [|exact Hrefl].
  destruct (sv_backends sv !! idx) as [b|] eqn:Hb; [|exact Hrefl].
  pose proof (Hf b (list.Forall_lookup_1 _ _ _ _ (so_backends sv H) Hb)) as Hb'. destruct (f b) as [b' r]. cbn [fst] in *.
  apply turn_same; [now apply put_backend_ok|apply length_insert|reflexivity].
Qed.

Lemma control_ok sv line : server_ok sv -> turn_ok sv (control_command sv line).1.
Proof.
  intros H. assert (Hrefl : turn_ok sv sv) by now apply turn_same.
  assert (Hon : forall name f, (forall b, b_ok b -> b_ok (f b).1) -> turn_ok sv (on_backend sv name f).1) by (intros; now apply on_backend_ok).
  unfold control_command. destruct (match split_once [32] line with Some (v, n) => (v, trim n) | None => (line, []) end) as [verb name].
  case_bool_decide as Hv1.
  { unfold control_fault. destruct (split_once [32] name) as [[first rest]|]; [|exact Hrefl].
    case_bool_decide; [apply Hon; intros; now apply b_clear_ok|].
    destruct (if bool_decide _ then _ else _) as [ins|]; [|exact Hrefl].
    destruct (split_once [32] rest) as [[sw_count nm]|]; [|exact Hrefl].
    match goal with |- context [match ?x with inl _ => _ | inr _ => _ end] => destruct x as [[sw_hex count]|n] end; [|exact Hrefl].
    destruct (from_str_radix 16 65536 sw_hex) as [sw|]; [|exact Hrefl]. destruct (_ =? 4); [|exact Hrefl].
    apply Hon. intros b Hb. pose proof (b_inject_ok (MkFault ins sw count) b Hb) as Hi.
    destruct (b_inject_fault _ b) as [b' [e|]]; exact Hi. }
  case_bool_decide.
  { apply Hon. intros b Hb. pose proof (b_grant_ok b Hb) as Hg. destruct (b_grant_touch b) as [b' [p|e]]; exact Hg. }
  destruct (_ || _).
  { set (on := on_backend _ _ _). assert (Ht : turn_ok sv on.1) by (apply Hon; intros; now apply b_present_ok).
    destruct on as [sv' r]. cbn [fst] in Ht. destruct r; try exact Ht. destruct Ht as (A & Hl & Hn).
    split; [|split; assumption]. destruct A. now split. }
  case_bool_decide; exact Hrefl.
Qed.

Lemma set_notify_ok js n sv : server_ok sv -> server_ok (set_notify js n sv).
Proof. intros H. destruct H. now split. Qed.

Lemma exec_ok sv ev : server_ok sv -> sv_next_card sv < 2 ^ 31 - 1 -> event_ok ev -> yields (exec sv ev) (turn_ok sv).
Proof.
  intros H Hn He. destruct ev as [|i data|i|now i|line| |]; cbn [exec event_ok] in *.
  - case_bool_decide; [|exact I]. cbn [yields]. apply turn_same; [|reflexivity..].
    assert (Hback : forall j d, (sv_conns sv ++ [conn_new]) !! j = Some d -> sv_conns sv !! j = Some d \/ d = conn_new).
    { intros j d Hj. apply lookup_app_Some in Hj as [Hj|[_ Hj]]; [now left|]. apply list_lookup_singleton_Some in Hj as [_ <-]. now right. }
    split; cbn [sv_shares sv_backends sv_conns sv_next_card]; try apply H.
    + intros j d Hj. destruct (Hback j d Hj) as [Hj'| ->]; [exact (so_conns sv H j d Hj')|].
      split; [constructor| |exact I]. intros h k Hl. cbn in Hl. now rewrite lookup_empty in Hl.
    + intros j k d e h Hj Hk [x Hd] [y Hk']. destruct (Hback j d Hj) as [Hj'| ->]; [|cbn in Hd; now rewrite lookup_empty in Hd].
      destruct (Hback k e Hk) as [Hk''| ->]; [|cbn in Hk'; now rewrite lookup_empty in Hk'].
      refine (so_distinct sv H j k d e h Hj' Hk'' _ _); eauto.
    + intros idx s Hs. rewrite (so_counted sv H idx s Hs). unfold handles_on. cbn [sv_conns]. f_equal.
      assert (Hnew : open_on idx conn_new = O) by (unfold open_on; cbn; now rewrite map_filter_empty, map_size_empty).
      generalize (sv_conns sv) as l. clear -Hnew. induction l as [|c l IH]; cbn; lia.
  - destruct (sv_conns sv !! i) as [c|] eqn:Hi; [|exact I]. cbn [ok_or res_bind]. destruct (cn_closed c); [exact I|].
    cbn [yields]. pose proof (so_conns sv H i c Hi) as Hc. apply (quiet_turn i c); auto; [|apply Hc].
    apply bytes_ok_app; [apply Hc|exact He].
  - destruct (sv_conns sv !! i) as [c|] eqn:Hi; [|exact I]. cbn [ok_or res_bind yields].
    pose proof (so_conns sv H i c Hi) as Hc. apply (quiet_turn i c); auto; apply Hc.
  - now apply thread_ok.
  - now apply control_ok.
  - destruct (sv_to_notify sv); [exact I|]. case_bool_decide; [|exact I]. apply turn_same; [now apply set_notify_ok|reflexivity..].
  - destruct (sv_notifying sv) as [|j js]; [exact I|]. cbn [yields]. pose proof (set_notify_ok js (sv_to_notify sv) sv H) as H1.
    destruct (sv_conns (set_notify js (sv_to_notify sv) sv) !! j) as [c|] eqn:Hj; [|now apply turn_same].
    apply turn_same; [|reflexivity..]. pose proof (so_conns sv H j c Hj) as Hc.
    assert (Hs : cn_state (notify_sink c) = cn_state c /\ cn_in (notify_sink c) = cn_in c /\ cn_phase (notify_sink c) = cn_phase c).
    { unfold notify_sink, put_out. destruct (cn_armed c), (cn_closed c); now cbn. }
    destruct Hs as (E1 & E2 & E3). apply (put_conn_ok j c); auto; [now rewrite E1|rewrite E2; apply Hc|rewrite E3; apply Hc].
Qed.

Lemma run_ok evs : forall sv,
  server_ok sv -> sv_next_card sv + Z.of_nat (length evs) < 2 ^ 31 -> Forall event_ok evs ->
  yields (run sv evs) (fun sv' => server_ok sv' /\ length (sv_backends sv') = length (sv_backends sv)).
Proof.
  induction evs as [|ev evs IH]; intros sv H Hn He; cbn [run]; [now split|]. inversion He as [|? ? He1 He2]; subst.
  cbn [length] in Hn. apply (yields_bind _ _ (turn_ok sv)); [apply exec_ok; auto; lia|].
  intros sv' (H' & Hl & Hn'). eapply yields_weaken; [apply (IH sv'); auto; lia|]. intros sv2 [H2 Hl2]. split; [exact H2|congruence].
Qed.

Lemma serve_ok (backends : list B) : backends <> [] -> Forall b_ok backends -> server_ok (serve backends).
Proof.
  intros Hne Hb. split; cbn [serve sv_shares sv_backends sv_conns sv_next_card]; try lia; try assumption.
  - apply length_fmap.
  - destruct backends; [contradiction|cbn; lia].
  - intros i c Hi. now rewrite lookup_nil in Hi.
  - intros i j c d h Hi. now rewrite lookup_nil in Hi.
  - intros idx s Hs. apply list_lookup_fmap_Some_1 in Hs as (b & -> & _). reflexivity.
Qed.
End Inv.

(** A run of the daemon from its start. *)
Lemma served (B : Type) (HB : Backend B) (LB : BackendLaws B) (backends : list B) evs :
  backends <> [] -> Forall b_ok backends -> Forall event_ok evs -> Z.of_nat (length evs) < 2 ^ 31 - 1 ->
  yields (run (serve backends) evs) (fun sv => server_ok sv /\ length (sv_backends sv) = length backends).
Proof. intros Hne Hb He Hn. apply (run_ok evs (serve backends)); [now apply serve_ok|cbn; lia|exact He]. Qed.

(** ** Properties *)

(** C18 (invariant).  However the threads of the daemon interleave, and whatever
    the clients send, the share of every card counts the handles that are open on
    it; no handle is open on two connections; and every handle leads to a card
    that exists.  (Until [NEXT_CARD] has gone through all [i32]s.) *)
Theorem handles_counted (B : Type) (HB : Backend B) (LB : BackendLaws B) (backends : list B) evs sv :
  backends <> [] -> Forall b_ok backends -> Forall event_ok evs -> Z.of_nat (length evs) < 2 ^ 31 - 1 ->
  run (serve backends) evs = Ok sv ->
  (forall idx s, sv_shares sv !! idx = Some s -> open_handles s = handles_on idx sv) /\
  (forall i j c d h, sv_conns sv !! i = Some c -> sv_conns sv !! j = Some d -> is_Some (card_backends (cn_state c) !! h) ->
     is_Some (card_backends (cn_state d) !! h) -> i = j) /\
  (forall i c h idx, sv_conns sv !! i = Some c -> card_backends (cn_state c) !! h = Some idx -> (idx < length backends)%nat).
Proof.
  intros Hne Hb He Hn Hrun. pose proof (served B HB LB backends evs Hne Hb He Hn) as Hy. rewrite Hrun in Hy. destruct Hy as [Hy Hl].
  split; [exact (so_counted sv Hy)|]. split; [exact (so_distinct sv Hy)|].
  intros i c h idx Hi Hh. apply (so_conns sv Hy i c Hi) in Hh as [Hlt _]. lia.
Qed.

(** C33 (safety).  No bytes a client can write and no interleaving of the threads
    make the daemon panic: a thread finds the shares and cards it looks up, and the
    bodies it patches are long enough. *)
Theorem server_never_panics (B : Type) (HB : Backend B) (LB : BackendLaws B) (backends : list B) evs :
  backends <> [] -> Forall b_ok backends -> Forall event_ok evs -> Z.of_nat (length evs) < 2 ^ 31 - 1 ->
  no_panic (run (serve backends) evs).
Proof. intros Hne Hb He Hn. exact (yields_no_panic _ _ (served B HB LB backends evs Hne Hb He Hn)). Qed.
