(* ===== verification/ServerShare.v ===== *)
(** * ServerShare: what the daemon gives its clients

    A transaction keeps other handles' APDUs off the card, a client that leaves
    takes its transactions along, a wait for a reader ends with one wake, and a
    wait for a touch ends. *)

From Stdlib Require Import ZArith Lia.
From stdpp Require Import base tactics list numbers gmap strings.
From S2P Require Import Prelude Utf8 Text CardState Proto Server ServerInv.

Local Open Scope Z_scope.

(** ** The cases of a turn *)

(** Follow the handlers to what they leave: [H] is the outcome of a turn. *)
Ltac turn_cases H :=
  lazymatch type of H with
  | Ok (match ?x with _ => _ end) = Ok _ => let Hx := fresh "Hd" in destruct x eqn:Hx; cbn beta iota in H; turn_cases H
  | Ok _ = Ok _ => apply Ok_inj in H; try subst
  | Err _ = Ok _ => discriminate H
  | Panic = Ok _ => discriminate H
  | res_bind _ _ = Ok _ =>
      let x := fresh "x" in let Hx := fresh "Hx" in
      apply res_bind_Ok_inv in H as (x & Hx & H); cbn beta iota in H; turn_cases Hx; cbn beta iota in H; turn_cases H
  | (let (_, _) := ?x in _) = Ok _ => let Hx := fresh "Hd" in destruct x eqn:Hx; cbn beta iota in H; turn_cases H
  | match ?x with _ => _ end = Ok _ => let Hx := fresh "Hd" in destruct x eqn:Hx; cbn beta iota in H; turn_cases H
  | _ => idtac
  end.

Section Share.
Context {B : Type} {HB : Backend B}.
Implicit Type sv : Server B.

Lemma conn_at sv i c : ok_or (sv_conns sv !! i) tt = Ok c -> sv_conns sv !! i = Some c.
Proof. destruct (sv_conns sv !! i); [now intros [= ->]|discriminate]. Qed.

Lemma share_at_inv sv k s : share_at sv k = Ok s -> sv_shares sv !! k = Some s.
Proof. unfold share_at. destruct (sv_shares sv !! k); [now intros [= ->]|discriminate]. Qed.

Lemma backend_at_inv sv k b : backend_at sv k = Ok b -> sv_backends sv !! k = Some b.
Proof. unfold backend_at. destruct (sv_backends sv !! k); [now intros [= ->]|discriminate]. Qed.

Lemma handshake_cases command body i c sv :
  exists ms p, handshake_turn command body i c sv = put_conn i (if bool_decide (ms = []) then go Exiting c else answer ms p c) sv /\
    (p = Idle \/ p = Exiting) /\ Forall (fun m => match m with Reply _ => True | _ => False end) ms.
Proof.
  unfold handshake_turn.
  assert (He : exists ms p, put_conn i (go Exiting c) sv = put_conn i (if bool_decide (ms = []) then go Exiting c else answer ms p c) sv /\
    (p = Idle \/ p = Exiting) /\ Forall (fun m => match m with Reply _ => True | _ => False end) ms) by (exists [], Exiting; auto).
  destruct command as [[]|]; try exact He. eexists [_], _. split; [reflexivity|]. split; [destruct (_ =? SCARD_S_SUCCESS); auto|].
  repeat constructor.
Qed.

End Share.

(** Open every handler of [H : thread now i sv = Ok sv']; the connection is at
    hand as [Hi]. *)
Ltac open_turn H :=
  unfold thread, command_turn, establish, readers_state, connect_turn, reconnect_turn, disconnect_turn, begin_transaction, end_turn, transmit_turn, status, wait_turn, stop_waiting,
    attempt_turn, connect_share, reconnect_backend, begin_share, end_share, close_share,
    close_backend, simple_ok, next_context, next_card in H;
  turn_cases H; try subst;
  match goal with Hc : ok_or _ tt = Ok _ |- _ => apply conn_at in Hc; rename Hc into Hi end;
  try match goal with |- context [handshake_turn ?co ?bo ?i ?c ?sv] =>
        let ms := fresh "ms" in let p := fresh "p" in let E := fresh "E" in let Hp := fresh "Hp" in let Hms := fresh "Hms" in
        destruct (handshake_cases co bo i c sv) as (ms & p & E & Hp & Hms); rewrite E in *; clear E
      end;
  try match goal with after : AfterClose |- _ => destruct after end;
  repeat match goal with |- context [if ?b then go Exiting _ else answer _ _ _] => destruct b end;
  try match goal with |- context [if resets ?d then put_backend _ _ _ else _] => destruct (resets d) eqn:? end.

Section Transactions.
Context {B : Type} {HB : Backend B}.
Implicit Type sv : Server B.

(** ** Transactions *)

Definition holder_of (idx : nat) sv : option Z := sv_shares sv !! idx ≫= transaction_holder.

(** While [h] holds the card [idx]: an APDU on its way to the card, or waiting
    there for a touch, is [h]'s, and no other transaction is being ended. *)
Definition permits (idx : nat) (h : Z) (p : Phase) : Prop :=
  match p with
  | LetThrough req k _ _ | Parked req k _ _ _ _ => k = idx -> t_card req = h
  | Ending _ k => k <> idx
  | _ => True
  end.

Definition exclusive (idx : nat) (h : Z) sv : Prop :=
  holder_of idx sv = Some h /\ Forall (fun c => permits idx h (cn_phase c)) (sv_conns sv).

Lemma answer_permits idx h ms p c : permits idx h p -> permits idx h (cn_phase (answer ms p c)).
Proof. intros H. destruct (answer_fields ms p c) as (_ & _ & [-> | ->]); [exact H|exact I]. Qed.

Lemma put_forall (Q : Conn -> Prop) i c' sv sv1 :
  Forall Q (sv_conns sv) -> sv_conns sv1 = sv_conns sv -> Q c' -> Forall Q (sv_conns (put_conn i c' sv1)).
Proof. intros H E Hc. cbn [put_conn sv_conns]. rewrite E. now apply Forall_insert. Qed.

Lemma admits_holder idx h req sv s :
  holder_of idx sv = Some h -> sv_shares sv !! idx = Some s -> admits s (t_card req) = true -> t_card req = h.
Proof. unfold holder_of, admits. intros Hh Hs. rewrite Hs in Hh. cbn in Hh. rewrite Hh. intros E. bprop. congruence. Qed.

Lemma turn_permits idx h now i sv sv' :
  exclusive idx h sv -> thread now i sv = Ok sv' -> holder_of idx sv' = Some h -> exclusive idx h sv'.
Proof.
  intros [Hh Hall] H Hh'. split; [exact Hh'|]. revert Hh'. pose proof Hall as Hall'. rewrite Forall_lookup in Hall'.
  open_turn H; intros Hh'; pose proof (Hall' _ _ Hi) as Hold; cbn beta in Hold;
    try match goal with Hp : cn_phase ?x = _ |- _ => rewrite Hp in Hold end.
  all: apply (put_forall _ _ _ sv); [exact Hall|reflexivity|].
  all: try solve [exact I | apply answer_permits; exact I | exact Hold | apply answer_permits; destruct Hp as [-> | ->]; exact I
                 | unfold put_out; cbn; try destruct (cn_closed _); cbn; match goal with Hp : cn_phase ?x = _ |- _ => now rewrite Hp end].
  - (* EndTransaction by the holder: it holds no longer *)
    cbn [permits go cn_phase]. intros E. unfold holder_of in Hh'. cbn [sv_shares put_conn put_share] in Hh'. rewrite E in *.
    match goal with Hs : share_at _ _ = Ok _ |- _ => apply share_at_inv in Hs end.
    rewrite list_lookup_insert_eq in Hh' by (eapply lookup_lt_Some; eassumption). discriminate.
  - (* admitted: the holder, as the share says *)
    intros E. rewrite E in *. match goal with Hs : share_at _ _ = Ok _ |- _ => apply share_at_inv in Hs end.
    eapply admits_holder; eassumption.
Qed.

(** A client, the control socket or the notifier starts nothing on a card. *)
Lemma on_backend_conns sv name f : sv_conns (on_backend sv name f).1 = sv_conns sv.
Proof.
  unfold on_backend. destruct (find_backend sv name); [|reflexivity]. destruct (sv_backends sv !! _); [|reflexivity].
  now destruct (f b).
Qed.

Lemma control_conns sv line : sv_conns (control_command sv line).1 = sv_conns sv.
Proof.
  unfold control_command. destruct (match split_once [32] line with Some (v, n) => (v, trim n) | None => (line, []) end) as [verb name].
  case_bool_decide as Hv1.
  { unfold control_fault. destruct (split_once [32] name) as [[first rest]|]; [|reflexivity].
    case_bool_decide; [apply on_backend_conns|]. destruct (if bool_decide _ then _ else _) as [ins|]; [|reflexivity].
    destruct (split_once [32] rest) as [[sw_count nm]|]; [|reflexivity].
    match goal with |- context [match ?x with inl _ => _ | inr _ => _ end] => destruct x as [[sw_hex count]|n] end; [|reflexivity].
    destruct (from_str_radix 16 65536 sw_hex); [|reflexivity]. destruct (_ =? 4); [apply on_backend_conns|reflexivity]. }
  case_bool_decide; [apply on_backend_conns|]. destruct (_ || _).
  { set (on := on_backend _ _ _). assert (E : sv_conns on.1 = sv_conns sv) by apply on_backend_conns.
    destruct on as [sv' r]. now destruct r. }
  now case_bool_decide.
Qed.

Lemma notify_sink_fields c :
  cn_phase (notify_sink c) = cn_phase c /\ cn_state (notify_sink c) = cn_state c /\ cn_in (notify_sink c) = cn_in c.
Proof. unfold notify_sink, put_out. destruct (cn_armed c), (cn_closed c); now cbn. Qed.

(** What happens between the turns keeps every property of phases. *)
Lemma event_phases (Q : Phase -> Prop) ev sv sv' :
  (forall now i, ev <> Turn now i) -> Q Handshake -> Forall (fun c => Q (cn_phase c)) (sv_conns sv) -> exec sv ev = Ok sv' ->
  Forall (fun c => Q (cn_phase c)) (sv_conns sv').
Proof.
  intros Hev Hq Hall H. pose proof Hall as Hall'. rewrite Forall_lookup in Hall'.
  destruct ev as [|i data|i|now i|line| |]; cbn [exec] in H.
  - turn_cases H. cbn [sv_conns]. apply Forall_app. split; [exact Hall|]. constructor; [exact Hq|constructor].
  - turn_cases H. apply conn_at in Hx. apply put_forall with sv; auto. exact (Hall' _ _ Hx).
  - turn_cases H. apply conn_at in Hx. apply put_forall with sv; auto. exact (Hall' _ _ Hx).
  - now destruct (Hev now i).
  - turn_cases H. now rewrite control_conns.
  - turn_cases H. exact Hall.
  - destruct (sv_notifying sv) as [|j js]; [discriminate|]. injection H as <-.
    cbn [sv_conns set_notify]. destruct (sv_conns sv !! j) as [c|] eqn:Hj; [|exact Hall]. apply put_forall with sv; auto.
    destruct (notify_sink_fields c) as (-> & _). exact (Hall' _ _ Hj).
Qed.

Lemma exec_exclusive idx h ev sv sv' :
  exclusive idx h sv -> exec sv ev = Ok sv' -> holder_of idx sv' = Some h -> exclusive idx h sv'.
Proof.
  intros Hx H Hh'. destruct ev as [|i data|i|now i|line| |].
  all: try (split; [exact Hh'|]; refine (event_phases (permits idx h) _ sv sv' _ I (proj2 Hx) H); intros ? ?; discriminate).
  exact (turn_permits idx h now i sv sv' Hx H Hh').
Qed.

(** [h] holds the card all along. *)
Fixpoint holds_throughout (idx : nat) (h : Z) sv (evs : list Event) : Prop :=
  holder_of idx sv = Some h /\ match evs with
  | [] => True
  | ev :: evs => match exec sv ev with Ok sv => holds_throughout idx h sv evs | _ => True end
  end.

Lemma run_exclusive idx h evs : forall sv sv',
  exclusive idx h sv -> holds_throughout idx h sv evs -> run sv evs = Ok sv' -> exclusive idx h sv'.
Proof.
  induction evs as [|ev evs IH]; intros sv sv' Hx Ht H; cbn [run] in H; [now injection H as <-|].
  apply res_bind_Ok_inv in H as (sv1 & H1 & H). cbn [holds_throughout] in Ht. rewrite H1 in Ht. destruct Ht as [_ Ht].
  apply (IH sv1 sv'); auto. apply (exec_exclusive idx h ev sv); auto. destruct evs; exact (proj1 Ht).
Qed.

(** The phases in which a turn reaches a card's [connect], [disconnect],
    [end_transaction] or [transmit_or_await_touch]. *)
Definition reaches (idx : nat) (c : Conn) sv : Prop :=
  match cn_phase c with
  | LetThrough req k _ _ => k = idx
  | Ending _ k => k = idx
  | Connecting _ k => k = idx /\ exists s, sv_shares sv !! k = Some s /\ open_handles s = 0
  | Reconnecting _ _ _ _ init k sole => k = idx /\ (sole = true \/ resets init = true)
  | Closing k disp last _ => k = idx /\ (last = true \/ resets disp = true)
  | _ => False
  end.

Lemma insert_at (l : list B) k idx b : <[k := b]> l !! idx <> l !! idx -> k = idx.
Proof. intros H. destruct (decide (k = idx)) as [E|E]; [exact E|]. destruct H. now rewrite list_lookup_insert_ne. Qed.

Lemma insert_changes (l : list B) k idx b b' :
  l !! k = Some b -> <[k := b']> l !! idx <> l !! idx -> k = idx /\ b' <> b.
Proof. intros Hb H. split; [exact (insert_at _ _ _ _ H)|]. intros ->. destruct H. now rewrite list_insert_id. Qed.

Lemma turn_reaches idx now i c sv sv' :
  sv_conns sv !! i = Some c -> thread now i sv = Ok sv' -> sv_backends sv' !! idx <> sv_backends sv !! idx -> reaches idx c sv.
Proof.
  intros Hc H. open_turn H; intros Hne; assert (x = c) as -> by congruence; unfold reaches;
    match goal with Hp : cn_phase c = _ |- _ => rewrite Hp end.
  all: try solve [now destruct Hne].
  all: repeat match goal with Hs : share_at _ _ = Ok _ |- _ => apply share_at_inv in Hs end.
  all: repeat match goal with Hs : backend_at _ _ = Ok _ |- _ => apply backend_at_inv in Hs end.
  all: cbn [sv_backends put_conn put_share put_backend] in Hne.
  all: try solve [exact (insert_at _ _ _ _ Hne) | split; [exact (insert_at _ _ _ _ Hne)|auto]].
  all: try match goal with Hb : sv_backends _ !! _ = Some _ |- _ => apply (insert_changes _ _ _ _ _ Hb) in Hne as [-> Hne] end.
  all: split; [reflexivity|].
  1,2: eexists; split; [eassumption|]; destruct (open_handles _ =? 0) eqn:?; bprop; [assumption|congruence].
  all: destruct sole; [now left|]; destruct (resets initialization); [now right|congruence].
Qed.

End Transactions.

(** ** Waits for a reader *)

Section Waits.
Context {B : Type} {HB : Backend B}.
Implicit Type sv : Server B.

(** What a client reads: [Some armed] when every wake ended a wait of its own. *)
Fixpoint wakes (armed : bool) (out : list Sent) : option bool :=
  match out with
  | [] => Some armed
  | Reply _ :: out => wakes armed out
  | Array _ :: out => wakes true out
  | Wake _ :: out => if armed then wakes false out else None
  end.

Definition waits_ok (c : Conn) : Prop :=
  exists armed, wakes false (cn_out c) = Some armed /\ (cn_closed c = false -> cn_armed c = armed).

Lemma wakes_app o1 : forall armed o2, wakes armed (o1 ++ o2) = (a ← wakes armed o1; wakes a o2).
Proof. induction o1 as [|[] o1 IH]; intros armed o2; cbn; auto. now destruct armed. Qed.

Definition is_reply (m : Sent) : Prop := match m with Reply _ => True | _ => False end.

Lemma wakes_replies ms armed : Forall is_reply ms -> wakes armed ms = Some armed.
Proof. induction 1 as [|[] ms Hm _ IH]; cbn; auto; destruct Hm. Qed.

Lemma answer_waits ms p c : Forall is_reply ms -> waits_ok c -> waits_ok (answer ms p c).
Proof.
  intros Hms (a & Ha & Hc). unfold answer, put_out. destruct (cn_closed c) eqn:E; [exists a; split; [exact Ha|cbn; congruence]|].
  exists a. cbn. split; [|auto]. rewrite wakes_app, Ha. cbn. now apply wakes_replies.
Qed.

Lemma put_waits i c sv sv1 :
  Forall waits_ok (sv_conns sv) -> sv_conns sv1 = sv_conns sv -> waits_ok c -> Forall waits_ok (sv_conns (put_conn i c sv1)).
Proof. intros H E Hc. cbn [put_conn sv_conns]. rewrite E. now apply Forall_insert. Qed.

Lemma wake_waits c : waits_ok c -> cn_armed c = true -> waits_ok (set_armed false (put_out [Wake wait_notification_bytes] c)).
Proof.
  intros (a & Ha & Hc) Harm. unfold put_out. destruct (cn_closed c) eqn:E; [exists a; split; [exact Ha|cbn; congruence]|].
  exists false. cbn. rewrite wakes_app, Ha. cbn. specialize (Hc eq_refl). rewrite Harm in Hc. now subst a.
Qed.

Lemma notify_waits c : waits_ok c -> waits_ok (notify_sink c).
Proof. intros H. unfold notify_sink. destruct (cn_armed c) eqn:E; [now apply wake_waits|exact H]. Qed.

Lemma array_waits b p c : waits_ok c -> waits_ok (set_armed true (go p (put_out [Array b] c))).
Proof.
  intros (a & Ha & Hc). unfold put_out. destruct (cn_closed c) eqn:E; [exists a; split; [exact Ha|cbn; congruence]|].
  exists true. cbn. now rewrite wakes_app, Ha.
Qed.

Lemma turn_waits now i sv sv' : Forall waits_ok (sv_conns sv) -> thread now i sv = Ok sv' -> Forall waits_ok (sv_conns sv').
Proof.
  intros Hall H. pose proof Hall as Hall'. rewrite Forall_lookup in Hall'.
  open_turn H; pose proof (Hall' _ _ Hi) as Hold; cbn beta in Hold; apply (put_waits _ _ sv); try exact Hall; try reflexivity;
    try exact Hold; try (apply array_waits; exact Hold); try (apply wake_waits; [exact Hold|assumption]).
  all: apply answer_waits; [first [exact Hms | repeat constructor]|exact Hold].
Qed.

Lemma exec_waits ev sv sv' : Forall waits_ok (sv_conns sv) -> exec sv ev = Ok sv' -> Forall waits_ok (sv_conns sv').
Proof.
  intros Hall H. pose proof Hall as Hall'. rewrite Forall_lookup in Hall'.
  destruct ev as [|i data|i|now i|line| |]; cbn [exec] in H.
  - turn_cases H. cbn [sv_conns]. apply Forall_app. split; [exact Hall|]. constructor; [|constructor]. exists false. now cbn.
  - turn_cases H. apply conn_at in Hx. apply (put_waits _ _ sv); auto. exact (Hall' _ _ Hx).
  - turn_cases H. apply conn_at in Hx. apply (put_waits _ _ sv); auto.
    destruct (Hall' _ _ Hx) as (a & Ha & _). exists a. split; [exact Ha|cbn; congruence].
  - exact (turn_waits now i sv sv' Hall H).
  - turn_cases H. now rewrite control_conns.
  - turn_cases H. exact Hall.
  - destruct (sv_notifying sv) as [|j js]; [discriminate|]. injection H as <-. cbn [sv_conns set_notify].
    destruct (sv_conns sv !! j) as [c|] eqn:Hj; [|exact Hall]. apply (put_waits _ _ sv); auto. apply notify_waits. exact (Hall' _ _ Hj).
Qed.

Lemma run_waits evs : forall sv sv', Forall waits_ok (sv_conns sv) -> run sv evs = Ok sv' -> Forall waits_ok (sv_conns sv').
Proof.
  induction evs as [|ev evs IH]; intros sv sv' Hw H; cbn [run] in H; [now injection H as <-|].
  apply res_bind_Ok_inv in H as (sv1 & H1 & H). apply (IH sv1 sv'); [|exact H]. exact (exec_waits ev sv sv1 Hw H1).
Qed.
End Waits.

(** ** Waits for a touch *)

Section Touches.
Context {B : Type} {HB : Backend B}.
Implicit Type sv : Server B.

(** [n] turns of a connection's thread with nothing in between, ended early
    where it waits. *)
Fixpoint turns (n : nat) (now : Z) (i : nat) sv : res unit (Server B) :=
  match n with
  | O => Ok sv
  | S n => let* sv := thread now i sv in turns n now i sv
  end.

Definition back_to_its_client (i : nat) sv : Prop := exists c, sv_conns sv !! i = Some c /\ (cn_phase c = Idle \/ cn_phase c = Exiting).

Definition in_phase (i : nat) (p : Phase) sv : Prop := exists c, sv_conns sv !! i = Some c /\ cn_phase c = p.

Lemma answered i ms c sv : (i < length (sv_conns sv))%nat -> back_to_its_client i (put_conn i (answer ms Idle c) sv).
Proof.
  intros Hi. exists (answer ms Idle c). split; [cbn; now apply list_lookup_insert_eq|].
  destruct (answer_fields ms Idle c) as (_ & _ & [E|E]); auto.
Qed.

(** The deadline has passed: a waiting thread answers, or sees a touch. *)
Lemma parked_turn now i sv c req idx apdu seen deadline resp b :
  sv_conns sv !! i = Some c -> cn_phase c = Parked req idx apdu seen deadline resp -> sv_backends sv !! idx = Some b ->
  deadline <= now ->
  exists sv', thread now i sv = Ok sv' /\
    (back_to_its_client i sv' \/
     (b_generation b <> seen /\ sv' = put_conn i (go (LetThrough req idx apdu (Some deadline)) c) sv)).
Proof.
  intros Hi Hp Hb Hd. unfold thread, backend_at. rewrite Hi. cbn [ok_or res_bind]. rewrite Hp, Hb. cbn [res_bind].
  pose proof (lookup_lt_Some _ _ _ Hi) as Hlt.
  destruct (peer_hung_up c); [eexists; split; [reflexivity|left; now apply answered]|].
  destruct (b_generation b =? seen) eqn:Eg; cbn [negb]; bprop.
  - replace (deadline <=? now) with true by (symmetry; lia). eexists. split; [reflexivity|left; now apply answered].
  - eexists. split; [reflexivity|right; now split].
Qed.

Lemma put_conn_same i c c' sv : put_conn i c (put_conn i c' sv) = put_conn i c sv.
Proof. unfold put_conn. cbn. f_equal. apply list_insert_insert_eq. Qed.
End Touches.

Section TouchEnds.
Context {B : Type} {HB : Backend B} {LB : BackendLaws B}.
Implicit Type sv : Server B.

(** A retry answers, or waits on the generation it leaves the pad with. *)
Lemma attempt_again now i sv c req idx apdu deadline b :
  sv_conns sv !! i = Some c -> cn_phase c = LetThrough req idx apdu (Some deadline) -> sv_backends sv !! idx = Some b ->
  b_ok b -> bytes_ok apdu ->
  exists sv', thread now i sv = Ok sv' /\
    (back_to_its_client i sv' \/
     exists b' resp, sv_backends sv' !! idx = Some b' /\
       sv' = put_conn i (go (Parked req idx apdu (b_generation b') deadline resp) c) (put_backend idx b' sv)).
Proof.
  intros Hi Hp Hb Hok Ha. unfold thread. rewrite Hi. cbn [ok_or res_bind]. rewrite Hp. unfold attempt_turn, backend_at. rewrite Hb. cbn [res_bind].
  destruct (b_transmit_ok now apdu b Hok Ha) as [_ Hnp]. pose proof (b_await_seen now apdu b) as Hs.
  pose proof (lookup_lt_Some _ _ _ Hi) as Hlt. pose proof (lookup_lt_Some _ _ _ Hb) as Hlb.
  destruct (b_transmit_or_await_touch now apdu b) as [b' [[response|w]|code|]]; cbn [snd] in Hnp; [..|contradiction].
  - eexists. split; [reflexivity|left; now apply answered].
  - eexists. split; [reflexivity|right]. exists b', (tw_response w). rewrite <- (Hs b' w eq_refl).
    split; [cbn; now apply list_lookup_insert_eq|reflexivity].
  - eexists. split; [reflexivity|left; now apply answered].
Qed.

Lemma turns_S n now i sv sv' : thread now i sv = Ok sv' -> turns (S n) now i sv = turns n now i sv'.
Proof. intros H. cbn [turns]. now rewrite H. Qed.

Lemma parked_ends now i sv c req idx apdu seen deadline resp :
  server_ok sv -> sv_conns sv !! i = Some c -> cn_phase c = Parked req idx apdu seen deadline resp -> deadline <= now ->
  exists n sv', (n <= 3)%nat /\ turns n now i sv = Ok sv' /\ back_to_its_client i sv'.
Proof.
  intros H Hi Hp Hd. destruct (so_conns sv H i c Hi) as [_ _ Hph]. rewrite Hp in Hph. destruct Hph as [Hlt Ha].
  destruct (backend_at_ok sv idx H Hlt) as (b & Hb & _ & Hok). apply backend_at_inv in Hb.
  pose proof (lookup_lt_Some _ _ _ Hi) as Hil. assert (Hat : forall c' sv1, length (sv_conns sv1) = length (sv_conns sv) ->
    sv_conns (put_conn i c' sv1) !! i = Some c') by (intros c' sv1 E; cbn; apply list_lookup_insert_eq; now rewrite E).
  destruct (parked_turn now i sv c req idx apdu seen deadline resp b Hi Hp Hb Hd) as (sv1 & H1 & [Hend|[_ ->]]).
  { exists 1%nat, sv1. split; [lia|]. now rewrite (turns_S 0 _ _ _ _ H1). }
  destruct (attempt_again now i _ (go (LetThrough req idx apdu (Some deadline)) c) req idx apdu deadline b (Hat _ _ eq_refl) eq_refl Hb Hok Ha) as (sv2 & H2 & [Hend|(b' & r & Hb' & E2)]).
  { exists 2%nat, sv2. split; [lia|]. now rewrite (turns_S 1 _ _ _ _ H1), (turns_S 0 _ _ _ _ H2). }
  assert (Hi2 : sv_conns sv2 !! i = Some (go (Parked req idx apdu (b_generation b') deadline r) (go (LetThrough req idx apdu (Some deadline)) c)))
    by (rewrite E2; apply Hat; cbn; apply length_insert).
  destruct (parked_turn now i sv2 _ req idx apdu (b_generation b') deadline r b' Hi2 eq_refl Hb' Hd) as (sv3 & H3 & [Hend|[Hne _]]); [|now destruct Hne].
  exists 3%nat, sv3. split; [lia|]. now rewrite (turns_S 2 _ _ _ _ H1), (turns_S 1 _ _ _ _ H2), (turns_S 0 _ _ _ _ H3).
Qed.
End TouchEnds.

(** ** Properties *)

(** C12 (safety).  While a handle [h] holds a card, and no APDU under another
    handle and no reset was already on its way to it when [h] began, the only
    turns that can change the card are: of a thread whose APDU names [h] - the
    handle in the request is all the server goes by, it does not ask whose
    connection opened it; of one that closes or reconnects a handle, where it
    was the last on the card or asks for a reset; and of one that connects to a
    card no handle was open on. *)
Theorem transaction_exclusive (B : Type) (HB : Backend B) idx h (sv sv1 sv2 : Server B) evs now i c :
  exclusive idx h sv -> holds_throughout idx h sv evs -> run sv evs = Ok sv1 ->
  sv_conns sv1 !! i = Some c -> thread now i sv1 = Ok sv2 -> sv_backends sv2 !! idx <> sv_backends sv1 !! idx ->
  match cn_phase c with
  | LetThrough req k _ _ => k = idx /\ t_card req = h
  | Closing k disp last _ => k = idx /\ (last = true \/ resets disp = true)
  | Reconnecting _ _ _ _ initialization k sole => k = idx /\ (sole = true \/ resets initialization = true)
  | Connecting _ k => k = idx /\ exists s, sv_shares sv1 !! idx = Some s /\ open_handles s = 0
  | _ => False
  end.
Proof.
  intros Hx Ht Hr Hi H Hne. destruct (run_exclusive idx h evs sv sv1 Hx Ht Hr) as [_ Hall].
  rewrite Forall_lookup in Hall. specialize (Hall i c Hi). cbn beta in Hall.
  pose proof (turn_reaches idx now i c sv1 sv2 Hi H Hne) as Hreach. unfold reaches in Hreach.
  destruct (cn_phase c); try contradiction; try exact Hreach; cbn [permits] in Hall; auto.
  destruct Hreach as [-> Hs]. now split.
Qed.

(** A client that waits for a change in the readers gets one wake
    for a wait: whatever comes together (a change, a stop, a second wait), no wake
    is written that does not end a wait the client had begun. *)
Theorem one_wake_per_wait (B : Type) (HB : Backend B) (backends : list B) evs sv i c :
  run (serve backends) evs = Ok sv -> sv_conns sv !! i = Some c ->
  exists armed, wakes false (cn_out c) = Some armed /\ (cn_closed c = false -> cn_armed c = armed).
Proof.
  intros Hr Hi. assert (Hall : Forall waits_ok (sv_conns sv)) by (apply (run_waits evs (serve backends)); [constructor|exact Hr]).
  rewrite Forall_lookup in Hall. exact (Hall i c Hi).
Qed.

(** C32 (liveness).  A wait for a touch outlives its deadline only by touches
    that come in between.  In whatever state the server has reached, by
    whatever interleaving, a thread that takes a turn while it waits on a pad
    with the deadline passed answers its client (or finds that it left), unless
    a touch was granted since it last looked; then it tries its command again,
    and the turn that does so answers, or waits on with the pad's present
    generation as the one it has seen and the deadline it had.  So with no other
    turn or touch in between it has answered within three turns. *)
Theorem touch_wait_ends (B : Type) (HB : Backend B) (LB : BackendLaws B) (backends : list B) evs sv i c :
  backends <> [] -> Forall b_ok backends -> Forall event_ok evs -> Z.of_nat (length evs) < 2 ^ 31 - 1 ->
  run (serve backends) evs = Ok sv -> sv_conns sv !! i = Some c ->
  (forall now req idx apdu seen deadline timeout_response,
     cn_phase c = Parked req idx apdu seen deadline timeout_response -> deadline <= now ->
     (exists sv', thread now i sv = Ok sv' /\
        (back_to_its_client i sv' \/
         (exists b, sv_backends sv !! idx = Some b /\ b_generation b <> seen) /\ in_phase i (LetThrough req idx apdu (Some deadline)) sv')) /\
     exists n sv', (n <= 3)%nat /\ turns n now i sv = Ok sv' /\ back_to_its_client i sv') /\
  (forall now req idx apdu deadline, cn_phase c = LetThrough req idx apdu (Some deadline) ->
     exists sv', thread now i sv = Ok sv' /\
       (back_to_its_client i sv' \/
        exists b resp, sv_backends sv' !! idx = Some b /\ in_phase i (Parked req idx apdu (b_generation b) deadline resp) sv')).
Proof.
  intros Hne Hb He Hn Hr Hi. pose proof (served B HB LB backends evs Hne Hb He Hn) as Hy. rewrite Hr in Hy. destruct Hy as [Hy _].
  pose proof (lookup_lt_Some _ _ _ Hi) as Hil. destruct (so_conns sv Hy i c Hi) as [_ _ Hph]. split.
  - intros now req idx apdu seen deadline resp Hp Hd. split; [|exact (parked_ends now i sv c _ _ _ _ _ _ Hy Hi Hp Hd)].
    rewrite Hp in Hph. destruct Hph as [Hlt Ha]. destruct (backend_at_ok sv idx Hy Hlt) as (b & Hbk & _ & Hok). apply backend_at_inv in Hbk.
    destruct (parked_turn now i sv c req idx apdu seen deadline resp b Hi Hp Hbk Hd) as (sv1 & H1 & [Hend|[Hg ->]]); eexists; (split; [exact H1|]); [now left|].
    right. split; [now exists b|]. eexists. split; [cbn; now apply list_lookup_insert_eq|reflexivity].
  - intros now req idx apdu deadline Hp. rewrite Hp in Hph. destruct Hph as [Hlt Ha]. destruct (backend_at_ok sv idx Hy Hlt) as (b & Hbk & _ & Hok). apply backend_at_inv in Hbk.
    destruct (attempt_again now i sv c req idx apdu deadline b Hi Hp Hbk Hok Ha) as (sv1 & H1 & [Hend|(b' & r & Hb' & ->)]); eexists; (split; [exact H1|]); [now left|].
    right. exists b', r. split; [exact Hb'|]. eexists. split; [cbn; now apply list_lookup_insert_eq|reflexivity].
Qed.
