(* ===== verification/ServerCard.v ===== *)
(** * ServerCard: the virtual card behind the daemon

    [impl Backend for VirtualCard], the laws the daemon relies on, and runs of the
    daemon on a card: the witnesses of its properties, and the interleavings that
    its locks let through. *)

From Stdlib Require Import ZArith Lia.
From stdpp Require Import base tactics list numbers gmap strings.
From S2P Require Import Prelude Utf8 Text Apdu CardState Card CardPin CardSafe Proto Server ServerInv ServerShare.

Local Open Scope Z_scope.

Definition YK4_ATR : bytes :=
  [0x3B; 0xF8; 0x13; 0x00; 0x00; 0x81; 0x31; 0xFE; 0x15; 0x59; 0x75; 0x62; 0x69; 0x6B; 0x65; 0x79; 0x34; 0xD4].
Definition YK5_ATR : bytes :=
  [0x3B; 0xFD; 0x13; 0x00; 0x00; 0x81; 0x31; 0xFE; 0x15; 0x80; 0x73; 0xC0; 0x21; 0xC0; 0x57; 0x59; 0x75; 0x62; 0x69;
   0x4B; 0x65; 0x79; 0x40].

Definition model_atr (m : Model) : bytes := match m with Yk4 => YK4_ATR | Yk5 => YK5_ATR end.

(** The fields of [VirtualCard] that only the reader uses, with the card. *)
Record ReaderCard (K : CardCrypto) := MkReaderCard {
  rc_name : list Z;
  rc_touch_timeout : Z;
  rc_card : VirtualCard K;
}.
Arguments MkReaderCard {K}.
Arguments rc_name {K}.
Arguments rc_touch_timeout {K}.
Arguments rc_card {K}.

Section Backend.
Context {K : CardCrypto}.
Implicit Type b : ReaderCard K.

Definition with_card b (c : VirtualCard K) : ReaderCard K := MkReaderCard (rc_name b) (rc_touch_timeout b) c.

Definition card_inject_fault (f : Fault) b : ReaderCard K * option (list Z) :=
  match inject_fault (rc_card b) f with
  | Ok c => (with_card b c, None)
  | _ => (b, Some (ascii "fault count must be at least 1"))
  end.

Definition card_transmit (now : Z) (apdu : bytes) b : ReaderCard K * res Z Outcome :=
  match transmit_or_await_touch now (rc_card b) apdu with
  | Ok (Done response, c) => (with_card b c, Ok (OutDone response))
  | Ok (AwaitTouch _ seen response, c) => (with_card b c, Ok (OutAwait (MkWait seen (rc_touch_timeout b) response)))
  | Err e => match e : Empty_set with end
  | Panic => (b, Panic)
  end.

Definition card_grant_touch b : ReaderCard K * (Z + list Z) :=
  let (pending, c) := grant_touch (rc_card b) in (with_card b c, inl pending).

#[global] Instance card_backend : Backend (ReaderCard K) := {
  reader_name := rc_name;
  card_present b := vc_inserted (rc_card b);
  b_set_present v b := with_card b (set_present (rc_card b) v);
  b_event_counter b := vc_event_counter (rc_card b);
  b_inject_fault := card_inject_fault;
  b_clear_faults b := with_card b (clear_faults (rc_card b));
  b_atr b := model_atr (vc_model (rc_card b));
  b_connect _ _ b := (with_card b (connect (rc_card b)), Ok PROTOCOL_T1);
  b_disconnect _ b := (with_card b (disconnect (rc_card b)), Ok tt);
  b_end_transaction d b := with_card b (end_transaction (rc_card b) d);
  b_transmit_or_await_touch := card_transmit;
  b_grant_touch := card_grant_touch;
  b_generation b := pad_generation (vc_touch (rc_card b));
}.

(** ** A blocked operation leaves the pad as it found it *)

(** The generation to wait on is the pad's. *)
Definition seen_ok (c : VirtualCard K) : Prop :=
  match vc_touch_blocked c with Some (_, seen) => seen = pad_generation (vc_touch c) | None => True end.

Definition blocks_well (c c' : VirtualCard K) : Prop := vc_touch_blocked c = None -> seen_ok c'.

Lemma unblocked_well (c c' : VirtualCard K) : vc_touch_blocked c' = vc_touch_blocked c -> blocks_well c c'.
Proof. intros E H. unfold seen_ok. now rewrite E, H. Qed.

Lemma try_consume_seen slot cached now p g p' : try_consume slot cached now p = (inr g, p') -> g = pad_generation p'.
Proof.
  unfold try_consume. intros H.
  repeat match type of H with (if ?x then _ else _) = _ => destruct x end; injection H as <- <- || discriminate H; reflexivity.
Qed.

Lemma gate_well now (c : VirtualCard K) slot pass c' : pass_touch_gate now c slot = (pass, c') -> blocks_well c c'.
Proof.
  unfold pass_touch_gate. intros H Hn. unfold seen_ok.
  destruct (negb _); [injection H as _ <-; now rewrite Hn|]. cbv zeta in H.
  destruct (vc_auto_touch c); [injection H as _ <-; now rewrite Hn|].
  destruct (try_consume _ _ _ _) as [[t|g] pad] eqn:Ht; injection H as _ <-; cbn; [now rewrite Hn|].
  exact (try_consume_seen _ _ _ _ _ _ Ht).
Qed.

Lemma consume_blocked (c : VirtualCard K) policy :
  vc_touch_blocked (consume_verify c policy) = vc_touch_blocked c /\ vc_touch (consume_verify c policy) = vc_touch c.
Proof. unfold consume_verify. case_match; now cbn. Qed.

Lemma install_blocked (c c1 : VirtualCard K) slot s p o : install_slot_key c slot s p o = Ok c1 -> vc_touch_blocked c1 = vc_touch_blocked c.
Proof. unfold install_slot_key. intros H. run_cases; reflexivity. Qed.

Ltac well :=
  intros resp c' H; run_cases;
  try match goal with H : install_slot_key _ _ _ _ _ = Ok _ |- _ => apply install_blocked in H end;
  try match goal with H : pass_touch_gate _ _ _ = _ |- _ => apply gate_well in H end;
  unfold blocks_well, seen_ok in *; intros;
  rewrite ?(proj1 (consume_blocked _ _)), ?(proj2 (consume_blocked _ _)); cbn in *;
  try match goal with E : ?b = ?b', H : ?b' = None |- context [match ?b with _ => _ end] => rewrite E, H end; auto;
  try match goal with H : _ = None |- _ => now rewrite H end;
  try match goal with H : _ = None -> _ |- _ => apply H; assumption end.

Lemma select_well (c : VirtualCard K) apdu : gives (handle_select c apdu) (fun _ => blocks_well c).
Proof. unfold handle_select. well. Qed.
Lemma get_data_well (c : VirtualCard K) apdu : gives (handle_get_data c apdu) (fun _ => blocks_well c).
Proof. unfold handle_get_data. well. Qed.
Lemma put_data_well (c : VirtualCard K) apdu : gives (handle_put_data c apdu) (fun _ => blocks_well c).
Proof. unfold handle_put_data. well. Qed.
Lemma generate_well (c : VirtualCard K) slot body : gives (handle_generate_asymmetric c slot body) (fun _ => blocks_well c).
Proof. unfold handle_generate_asymmetric. well. Qed.
Lemma import_well (c : VirtualCard K) alg slot body : gives (handle_import_asymmetric c alg slot body) (fun _ => blocks_well c).
Proof. unfold handle_import_asymmetric. well. Qed.
Lemma verify_well (c : VirtualCard K) body : gives (handle_verify c body) (fun _ => blocks_well c).
Proof. unfold handle_verify. well. Qed.
Lemma change_well (c : VirtualCard K) p2 body : gives (handle_change_reference_data c p2 body) (fun _ => blocks_well c).
Proof. unfold handle_change_reference_data. well. Qed.
Lemma unblock_well (c : VirtualCard K) body : gives (handle_reset_retry_counter c body) (fun _ => blocks_well c).
Proof. unfold handle_reset_retry_counter. well. Qed.
Lemma factory_well (c : VirtualCard K) : gives (handle_factory_reset c) (fun _ => blocks_well c).
Proof. unfold handle_factory_reset. well. Qed.
Lemma set_mgmt_well (c : VirtualCard K) body : gives (handle_set_mgmt_key c body) (fun _ => blocks_well c).
Proof. unfold handle_set_mgmt_key. well. Qed.
Lemma mgmt_well (c : VirtualCard K) body : gives (handle_general_authenticate_mgmt_key c body) (fun _ => blocks_well c).
Proof. unfold handle_general_authenticate_mgmt_key. well. Qed.
Lemma attest_well (c : VirtualCard K) slot : gives (handle_attest c slot) (fun _ => blocks_well c).
Proof. unfold handle_attest. well. Qed.
Lemma metadata_well (c : VirtualCard K) slot : gives (handle_get_metadata c slot) (fun _ => blocks_well c).
Proof. unfold handle_get_metadata. well. Qed.
Lemma ecdh_well now (c : VirtualCard K) body : gives (handle_general_authenticate_ecdh_slot_9d now c body) (fun _ => blocks_well c).
Proof. unfold handle_general_authenticate_ecdh_slot_9d. well. Qed.
Lemma sign_well now (c : VirtualCard K) body slot : gives (sign_ecdsa_slot now c body slot) (fun _ => blocks_well c).
Proof. unfold sign_ecdsa_slot. well. Qed.

Lemma dispatch_command_well now (c : VirtualCard K) apdu : gives (dispatch_command now c apdu) (fun _ => blocks_well c).
Proof.
  intros resp c' H. unfold dispatch_command in H.
  destruct (len apdu <? 4); [injection H as _ <-; now apply unblocked_well|].
  do 4 (apply res_bind_Ok_inv in H as (? & _ & H)).
  destruct (take_fault c _) as [fault c1] eqn:Hf. apply take_fault_same in Hf as [fs ->].
  destruct fault as [fsw|]; [injection H as _ <-; now apply unblocked_well|].
  repeat match type of H with
  | (if ?b then _ else _) = _ => destruct b
  | res_bind _ _ = _ => apply res_bind_Ok_inv in H as (? & _ & H)
  | match ?x with _ => _ end = _ => destruct x
  end; try (injection H as _ <-; now apply unblocked_well).
  all: intros Hn; change (vc_touch_blocked (set_faults fs c) = None) in Hn; revert Hn.
  all: first [ exact (select_well _ _ _ _ H) | exact (get_data_well _ _ _ _ H) | exact (put_data_well _ _ _ _ H)
             | exact (generate_well _ _ _ _ _ H) | exact (verify_well _ _ _ _ H) | exact (change_well _ _ _ _ _ H)
             | exact (unblock_well _ _ _ _ H) | exact (factory_well _ _ _ H) | exact (sign_well _ _ _ _ _ _ H)
             | exact (ecdh_well _ _ _ _ _ H) | exact (mgmt_well _ _ _ _ H) | exact (set_mgmt_well _ _ _ _ H)
             | exact (import_well _ _ _ _ _ _ H) | exact (attest_well _ _ _ _ H) | exact (metadata_well _ _ _ _ H) ].
Qed.

Lemma dispatch_well now (c : VirtualCard K) apdu resp c' : dispatch now c apdu = Ok (resp, c') -> seen_ok c'.
Proof.
  unfold dispatch. cbv zeta. intros H.
  match type of H with (if ?b then _ else _) = _ => destruct b end; [now injection H as _ <-|].
  apply res_bind_Ok_inv in H as ([r c2] & H2 & H). injection H as _ <-.
  pose proof (dispatch_command_well now _ _ _ _ H2 eq_refl) as Hs. match goal with |- context [if ?b then _ else _] => destruct b end; exact Hs.
Qed.
End Backend.

#[global] Instance card_backend_laws (K : CardCrypto) (L : CardCryptoLaws K) : BackendLaws (ReaderCard K).
Proof.
  refine {| b_ok b := card_ok (rc_card b) |}; cbn.
  - intros _ _ b H. split; [exact (connect_ok _ H)|discriminate].
  - intros _ b H. split; [exact (disconnect_ok _ H)|discriminate].
  - intros d b H. exact (end_transaction_ok _ d H).
  - intros v b H. exact (set_present_ok _ v H).
  - intros f b H. unfold card_inject_fault. pose proof (inject_fault_ok _ f H) as Hy.
    destruct (inject_fault (rc_card b) f); exact H || exact Hy.
  - intros b H. exact (clear_faults_ok _ H).
  - intros b H. exact (grant_touch_ok _ H).
  - intros now apdu b H Ha. unfold card_transmit.
    pose proof (await_yields L now _ apdu H Ha) as Hy. destruct (transmit_or_await_touch now (rc_card b) apdu) as [[[r|s g r] c]|e|]; cbn in *;
      [split; [exact Hy|discriminate]..|destruct e|contradiction].
  - intros now apdu b b' w. unfold card_transmit, transmit_or_await_touch.
    destruct (dispatch now (rc_card b) apdu) as [[r c]|e|] eqn:Hd; [|destruct e|discriminate].
    apply dispatch_well in Hd. unfold seen_ok in Hd. cbn. destruct (vc_touch_blocked c) as [[slot seen]|]; [|discriminate].
    intros [= <- <-]. exact Hd.
Defined.

(** ** Runs of the daemon on one card *)

Definition toy_reader : ReaderCard ToyCard := MkReaderCard (ascii "Virtual PCD piggy fibby 00 00") 15000 toy_card.

Definition outcome (sv0 : Server (ReaderCard ToyCard)) (r : res unit (Server (ReaderCard ToyCard))) : Server (ReaderCard ToyCard) :=
  match r with Ok sv => sv | _ => sv0 end.
Definition ran (r : res unit (Server (ReaderCard ToyCard))) : bool := match r with Ok _ => true | _ => false end.

Lemma outcome_ran sv0 r : ran r = true -> r = Ok (outcome sv0 r).
Proof. now destruct r. Qed.

Definition played (evs : list Event) : Server (ReaderCard ToyCard) := outcome (serve []) (run (serve [toy_reader]) evs).

Definition conn_of (i : nat) (sv : Server (ReaderCard ToyCard)) : Conn := default (go Gone conn_new) (sv_conns sv !! i).
Definition card_of (sv : Server (ReaderCard ToyCard)) : VirtualCard ToyCard := default toy_card (rc_card <$> sv_backends sv !! O).

Lemma conn_of_at i sv : Nat.ltb i (length (sv_conns sv)) = true -> sv_conns sv !! i = Some (conn_of i sv).
Proof. intros H. apply Nat.ltb_lt, lookup_lt_is_Some in H as [c Hc]. unfold conn_of. now rewrite Hc. Qed.

(** What a client does, and the turns its thread takes for it. *)
Definition hello (i : nat) : list Event := [Accept; Client i (frame Version (version_to_bytes (MkVersion 4 6 0))); Turn 0 i].
Definition connects (i : nat) : list Event := hello i ++ [Client i (frame Connect (connect_to_bytes toy_connect)); Turn 0 i; Turn 0 i].
Definition begins (i : nat) (h : Z) : list Event := [Client i (frame BeginTransaction (handle_rv_to_bytes (MkHandleRv h 0))); Turn 0 i].
Definition ends (i : nat) (h disp : Z) : list Event := [Client i (frame EndTransaction (handle_arg_to_bytes (MkHandleArg h disp 0))); Turn 0 i].
Definition leaves (i : nat) (h disp : Z) : list Event := [Client i (frame Disconnect (handle_arg_to_bytes (MkHandleArg h disp 0))); Turn 0 i].
(** up to the card, and at the card *)
Definition sends (i : nat) (h : Z) (apdu : bytes) : list Event :=
  [Client i (frame Transmit (transmit_to_bytes (MkTransmit h 2 8 (len apdu) 2 8 0 0)) ++ apdu); Turn 0 i; Turn 0 i].
Definition transmits (i : nat) (h : Z) (apdu : bytes) : list Event := sends i h apdu ++ [Turn 0 i].

Definition two_clients : list Event := connects 0 ++ connects 1.
Definition toy_select : bytes := apdu_to_bytes (apdu_select PIV_AID).

Lemma events_ok_by (evs : list Event) :
  forallb (fun ev => match ev with Client _ data => forallb (fun x => (0 <=? x) && (x <? 256)) data | _ => true end) evs = true ->
  Forall event_ok evs.
Proof.
  intros H. rewrite forallb_forall in H. apply List.Forall_forall. intros ev Hev. specialize (H ev Hev).
  destruct ev; try exact I. cbn in *. rewrite forallb_forall in H. apply List.Forall_forall. intros x Hx. specialize (H x Hx). bprop. split; lia.
Qed.

Lemma toy_backends_ok : Forall (b_ok (BackendLaws := card_backend_laws ToyCard toy_card_laws)) [toy_reader].
Proof. constructor; [|constructor]. apply with_model_ok. Qed.

(** A card whose 9C wants a touch for every signature. *)
Definition touch_reader : ReaderCard ToyCard :=
  MkReaderCard (rc_name toy_reader) 15000 (set_slot_policies {[0x9C := (PIN_NEVER, TOUCH_ALWAYS)]} toy_keyed).

Lemma touch_backends_ok : Forall (b_ok (BackendLaws := card_backend_laws ToyCard toy_card_laws)) [touch_reader].
Proof.
  constructor; [|constructor]. destruct (with_model_ok (K := ToyCard) Yk5 tt 7). constructor; try assumption.
  - intros slot s. intros Hs. assert (E : s = card_key) by (unfold slot_priv in Hs; repeat case_match; first [discriminate Hs | injection Hs as <-; reflexivity]). rewrite E. by_compute.
  - cbn. intros slot p Hp. apply lookup_singleton_Some in Hp as [_ <-]. cbn. unfold PIN_NEVER, TOUCH_ALWAYS. lia.
  - intros slot o Ho. cbn in Ho. now rewrite lookup_empty in Ho.
Qed.

Definition touch_played (evs : list Event) : Server (ReaderCard ToyCard) := outcome (serve []) (run (serve [touch_reader]) evs).

(** Its client waits for a touch from time 0 on. *)
Definition touch_wait : list Event := connects 0 ++ transmits 0 1 (toy_sign_apdu 0x9C).

(** ** Witnesses *)

Ltac toy_run :=
  match goal with
  | |- [_] <> [] => discriminate
  | |- Forall event_ok _ => apply events_ok_by; vm_compute; reflexivity
  | |- Forall _ [toy_reader] => exact toy_backends_ok
  | |- Forall _ [touch_reader] => exact touch_backends_ok
  | |- _ = Ok _ => apply outcome_ran; vm_compute; reflexivity
  | |- sv_conns _ !! _ = Some _ => apply conn_of_at; vm_compute; reflexivity
  | |- _ => vm_compute; reflexivity
  end.

Lemma handles_counted_witness : 2 = handles_on 0 (played two_clients).
Proof.
  apply (handles_counted _ _ (card_backend_laws _ toy_card_laws) [toy_reader] two_clients (played two_clients)) with (s := MkShare 2 None); toy_run.
Defined.

Lemma server_never_panics_witness : no_panic (run (serve [toy_reader]) (two_clients ++ begins 1 2 ++ leaves 0 1 0 ++ [Hangup 1; Turn 0 1])).
Proof.
  apply (server_never_panics _ _ (card_backend_laws _ toy_card_laws) [toy_reader]); toy_run.
Defined.

Fixpoint holds_all (idx : nat) (h : Z) (sv : Server (ReaderCard ToyCard)) (evs : list Event) : bool :=
  bool_decide (holder_of idx sv = Some h) && match evs with
  | [] => true
  | ev :: evs => match exec sv ev with Ok sv => holds_all idx h sv evs | _ => true end
  end.

Lemma holds_by idx h evs : forall sv, holds_all idx h sv evs = true -> holds_throughout idx h sv evs.
Proof.
  induction evs as [|ev evs IH]; intros sv H; cbn [holds_all holds_throughout] in *; bprop; (split; [assumption|]); [exact I|].
  destruct (exec sv ev) as [sv'|e|]; [now apply IH|exact I..].
Qed.

(** The holder's SELECT reaches the card; the other client's was refused. *)
Definition held : Server (ReaderCard ToyCard) := played (two_clients ++ begins 0 1).
Definition held_evs : list Event := sends 1 2 toy_select ++ sends 0 1 toy_select.
Definition held_then : Server (ReaderCard ToyCard) := outcome held (run held held_evs).
Definition held_after : Server (ReaderCard ToyCard) := outcome held (thread 0 0 held_then).

Lemma transaction_exclusive_witness :
  match cn_phase (conn_of 0 held_then) with LetThrough req k _ _ => k = O /\ t_card req = 1 | _ => False end.
Proof.
  assert (Hp : exists req k apdu d, cn_phase (conn_of 0 held_then) = LetThrough req k apdu d) by (vm_compute; eauto).
  pose proof (transaction_exclusive (ReaderCard ToyCard) card_backend 0 1 held held_then held_after held_evs 0 0 (conn_of 0 held_then)) as H.
  destruct Hp as (req & k & apdu & d & Hp). rewrite Hp in *. apply H.
  - split; [vm_compute; reflexivity|]. vm_compute. repeat constructor.
  - apply holds_by. vm_compute. reflexivity.
  - apply outcome_ran. vm_compute. reflexivity.
  - apply conn_of_at. vm_compute. reflexivity.
  - apply outcome_ran. vm_compute. reflexivity.
  - intros E. apply (f_equal (fun o => vc_selected_piv (rc_card (default toy_reader o)))) in E. vm_compute in E. discriminate E.
Defined.

(** A wait and the wake that ends it. *)
Definition woken : list Event :=
  hello 0 ++ [Client 0 (frame WaitReaderStateChange []); Turn 0 0; Turn 0 0;
              ControlLine (ascii "remove Virtual PCD piggy fibby 00 00"); NotifyStart; NotifyNext].

Lemma one_wake_per_wait_witness :
  exists armed, wakes false (cn_out (conn_of 0 (played woken))) = Some armed /\
    (cn_closed (conn_of 0 (played woken)) = false -> cn_armed (conn_of 0 (played woken)) = armed).
Proof. apply (one_wake_per_wait _ _ [toy_reader] woken (played woken) 0); toy_run. Defined.

Lemma touch_wait_ends_witness :
  exists n sv', (n <= 3)%nat /\ turns n 15000 0 (touch_played touch_wait) = Ok sv' /\ back_to_its_client 0 sv'.
Proof.
  assert (Hp : exists req idx apdu seen resp, cn_phase (conn_of 0 (touch_played touch_wait)) = Parked req idx apdu seen 15000 resp)
    by (vm_compute; eauto 6).
  destruct Hp as (req & idx & apdu & seen & resp & Hp).
  destruct (touch_wait_ends _ _ (card_backend_laws _ toy_card_laws) [touch_reader] touch_wait (touch_played touch_wait) 0
           (conn_of 0 (touch_played touch_wait))) as [Hw _]; [toy_run || lia..|].
  apply (Hw 15000 _ _ _ _ _ _ Hp). lia.
Defined.

(** ** Interleavings that the locks let through *)

(** The transaction is asked for once, when the APDU has been read: one that
    begins while the APDU is on its way (or waits for a touch) does not keep it
    from the card. *)
Definition overtaken : list Event := two_clients ++ sends 1 2 toy_select ++ begins 0 1.

Example foreign_apdu_in_transaction :
  holder_of 0 (played overtaken) = Some 1 /\ holder_of 0 (played (overtaken ++ [Turn 0 1])) = Some 1 /\
  vc_selected_piv (card_of (played overtaken)) = false /\ vc_selected_piv (card_of (played (overtaken ++ [Turn 0 1]))) = true.
Proof. vm_compute. auto. Qed.

(** [close_handle] lets go of the share before it takes the card: a client that
    connects in between is left with a card that has no power. *)
Definition closing_late : list Event := connects 0 ++ leaves 0 1 0 ++ connects 1 ++ [Turn 0 0].

Example powered_down_under_a_handle :
  open_handles <$> sv_shares (played closing_late) = [1] /\ vc_powered (card_of (played closing_late)) = false.
Proof. vm_compute. auto. Qed.

(** So does [end_transaction]: its reset can hit the next holder's transaction. *)
Definition ending_late : list Event := two_clients ++ begins 0 1 ++ ends 0 1 1 ++ begins 1 2 ++ transmits 1 2 toy_select.

Example reset_in_the_next_transaction :
  holder_of 0 (played (ending_late ++ [Turn 0 0])) = Some 2 /\
  vc_selected_piv (card_of (played ending_late)) = true /\ vc_selected_piv (card_of (played (ending_late ++ [Turn 0 0]))) = false.
Proof. vm_compute. auto. Qed.

(** [wait_reader_state] reads the states before it takes the sink: of a change
    in between the client learns neither from the array nor by a wake. *)
Definition change_lost : list Event :=
  hello 0 ++ [Client 0 (frame WaitReaderStateChange []); Turn 0 0;
              ControlLine (ascii "remove Virtual PCD piggy fibby 00 00"); NotifyStart; NotifyNext; Turn 0 0].

Example change_without_a_wake :
  cn_out (conn_of 0 (played change_lost)) =
    cn_out (conn_of 0 (played (hello 0))) ++ [Array (readers_state_array (build_reader_states (played (hello 0))))] /\
  cn_armed (conn_of 0 (played change_lost)) = true /\ sv_notifying (played change_lost) = [] /\ sv_to_notify (played change_lost) = O /\
  vc_inserted (card_of (played change_lost)) = false /\ vc_inserted (card_of (played (hello 0))) = true.
Proof. vm_compute. auto 10. Qed.

(** [begin_transaction] takes a handle that was never opened: nothing that its
    client does when it leaves gives the first card back. *)
Definition squatter : list Event := hello 0 ++ begins 0 99 ++ [Hangup 0; Turn 0 0; Turn 0 0; Turn 0 0].

Example unopened_handle_keeps_the_card :
  cn_phase (conn_of 0 (played squatter)) = Gone /\ holder_of 0 (played squatter) = Some 99 /\
  list.last (cn_out (conn_of 1 (played (squatter ++ connects 1 ++ begins 1 1)))) =
    Some (Reply (handle_rv_to_bytes (MkHandleRv 1 SCARD_E_SHARING_VIOLATION))).
Proof. vm_compute. auto. Qed.
