(* ===== verification/Provision.v ===== *)
(** * Provision: setting up a card

    [piggy/src/card]: the key policies of [slot_policy.rs], the interaction
    types and the [Frontend] of [protocol.rs], the escrow of [seal.rs] and the
    engine of [engine.rs].  A card, a frontend and an escrow are classes; their
    states, side by side on a [Bench], are what an operation works on.  A text
    that is only shown is a constructor with what is interpolated; a [&str] is the
    list of its characters. *)

From Stdlib Require Import ZArith Lia String.
From stdpp Require Import base tactics list numbers.
From S2P Require Import Prelude PivError Guid Utf8 Text Apdu Transport Slot Markl OperatorAct.

Local Open Scope Z_scope.

(** ** Policies ([slot_policy.rs], [card/mod.rs]) *)

Inductive RequestBinding : Type := Cli | JsonRpc.

Definition SLOT_PIV_AUTH : Z := 0x9A.
Definition SLOT_SIGNATURE : Z := 0x9C.
Definition SLOT_KEY_MGMT : Z := 0x9D.

Definition lower (s : list Z) : list Z := to_ascii_lowercase <$> s.

Definition named_slot (name : list Z) : option Z :=
  let n := lower name in
  if bytes_eqb n (ascii "9a") then Some SLOT_PIV_AUTH
  else if bytes_eqb n (ascii "9c") then Some SLOT_SIGNATURE
  else if bytes_eqb n (ascii "9d") then Some SLOT_KEY_MGMT
  else None.

(** The [FromStr] of the policies, on characters; the error is the name. *)
Definition pin_from_str (s : list Z) : res (list Z) PinPolicy.t :=
  if bytes_eqb s (ascii "default") then Ok PinPolicy.Default
  else if bytes_eqb s (ascii "never") then Ok PinPolicy.Never
  else if bytes_eqb s (ascii "once") then Ok PinPolicy.Once
  else if bytes_eqb s (ascii "always") then Ok PinPolicy.Always
  else Err s.

Definition touch_from_str (s : list Z) : res (list Z) TouchPolicy.t :=
  if bytes_eqb s (ascii "default") then Ok TouchPolicy.Default
  else if bytes_eqb s (ascii "never") then Ok TouchPolicy.Never
  else if bytes_eqb s (ascii "always") then Ok TouchPolicy.Always
  else if bytes_eqb s (ascii "cached") then Ok TouchPolicy.Cached
  else Err s.

Definition parse_policy_name {T} (from_str : list Z -> res (list Z) T) (name : list Z) : res (list Z) T :=
  match from_str (lower name) with
  | Err _ => from_str name
  | r => r
  end.

Inductive OperatorActBlocker : Type := BlockedPolicy (p : KeyPolicy) | Unattested.

Definition operator_act_verdict (attested : option KeyPolicy) : res OperatorActBlocker unit :=
  match attested with
  | Some policy => if serves_operator_acts policy then Ok tt else Err (BlockedPolicy policy)
  | None => Err Unattested
  end.

Record SlotPolicies := MkSlotPolicies { sp_piv_auth : KeyPolicy; sp_signature : KeyPolicy; sp_key_mgmt : KeyPolicy }.

Definition slot_policies_default : SlotPolicies :=
  MkSlotPolicies (MkKeyPolicy PinPolicy.Once TouchPolicy.Cached) OPERATOR_ACT Slot.CARD_DEFAULT.

Definition slot_policies_card_default : SlotPolicies := MkSlotPolicies Slot.CARD_DEFAULT Slot.CARD_DEFAULT Slot.CARD_DEFAULT.

Definition for_slot (p : SlotPolicies) (slot : Z) : KeyPolicy :=
  if slot =? SLOT_PIV_AUTH then sp_piv_auth p
  else if slot =? SLOT_SIGNATURE then sp_signature p
  else if slot =? SLOT_KEY_MGMT then sp_key_mgmt p
  else Slot.CARD_DEFAULT.

Inductive UsageError : Type :=
| UnknownSlot (name : list Z)
| UnknownPolicy (name : list Z)
| FlagShape (flag : list Z)
| SlotNeverRegenerated.

(** [slot_mut], and what is done to the policy it gives. *)
Definition on_slot (slot : list Z) (f : KeyPolicy -> res UsageError KeyPolicy) (p : SlotPolicies) : res UsageError SlotPolicies :=
  match named_slot slot with
  | Some s =>
      if s =? SLOT_PIV_AUTH then let* k := f (sp_piv_auth p) in Ok (MkSlotPolicies k (sp_signature p) (sp_key_mgmt p))
      else if s =? SLOT_SIGNATURE then let* k := f (sp_signature p) in Ok (MkSlotPolicies (sp_piv_auth p) k (sp_key_mgmt p))
      else let* k := f (sp_key_mgmt p) in Ok (MkSlotPolicies (sp_piv_auth p) (sp_signature p) k)
  | None => Err (UnknownSlot slot)
  end.

Definition set_pin (slot policy : list Z) : SlotPolicies -> res UsageError SlotPolicies :=
  on_slot slot (fun k => let* pin := map_err UnknownPolicy (parse_policy_name pin_from_str policy) in Ok (MkKeyPolicy pin (kp_touch k))).

Definition set_touch (slot policy : list Z) : SlotPolicies -> res UsageError SlotPolicies :=
  on_slot slot (fun k => let* touch := map_err UnknownPolicy (parse_policy_name touch_from_str policy) in Ok (MkKeyPolicy (kp_pin k) touch)).

Definition split_flag (flag : list Z) : res UsageError (list Z * list Z) := ok_or (split_once [61] flag) (FlagShape flag).

Fixpoint apply_flags (set : list Z -> list Z -> SlotPolicies -> res UsageError SlotPolicies) (flags : list (list Z)) (p : SlotPolicies)
    : res UsageError SlotPolicies :=
  match flags with
  | [] => Ok p
  | flag :: flags =>
      let* (slot, policy) := split_flag flag in
      let* p := set slot policy p in
      apply_flags set flags p
  end.

Definition slot_policies_from_flags (pin touch : list (list Z)) : res UsageError SlotPolicies :=
  let* p := apply_flags set_pin pin slot_policies_default in
  apply_flags set_touch touch p.

Definition add_key_slot (slot : list Z) : res UsageError (Z * KeyPolicy) :=
  match named_slot slot with
  | Some s =>
      if s =? SLOT_SIGNATURE then Ok (SLOT_SIGNATURE, sp_signature slot_policies_default)
      else if s =? SLOT_PIV_AUTH then Ok (SLOT_PIV_AUTH, sp_piv_auth slot_policies_default)
      else Err SlotNeverRegenerated
  | None => Err (UnknownSlot slot)
  end.

Definition key_policy_from_flags (base : KeyPolicy) (pin touch : option (list Z)) : res UsageError KeyPolicy :=
  let* policy := (match pin with
                  | Some p => let* pin := map_err UnknownPolicy (parse_policy_name pin_from_str p) in Ok (MkKeyPolicy pin (kp_touch base))
                  | None => Ok base
                  end) in
  match touch with
  | Some t => let* touch := map_err UnknownPolicy (parse_policy_name touch_from_str t) in Ok (MkKeyPolicy (kp_pin policy) touch)
  | None => Ok policy
  end.

(** ** The escrow ([seal.rs]) *)

Inductive SealMode : Type := SealNever | SealOffer | SealAlways (pass_name : option bytes).

Definition seal_mode_from_cli (seal : option bytes) (no_seal : bool) : SealMode :=
  match seal, no_seal with
  | Some [], _ => SealAlways None
  | Some p, _ => SealAlways (Some p)
  | None, true => SealNever
  | None, false => SealOffer
  end.

Definition default_pass_name (guid_hex : bytes) : bytes := ascii "piv/" ++ guid_hex ++ ascii "/management-key".

Definition same_key (a b : Id) : bool := bool_decide (id_format a = id_format b) && bytes_eqb (id_data a) (id_data b).

Inductive EscrowRefusal : Type := NoRecipients | OnlyTheDoomedKey.

(** [Ok true] is the warning that the doomed key is one recipient among others. *)
Definition check_escrow_recipients (recipients : list Id) (destroyed_9d : option Id) : res EscrowRefusal bool :=
  match recipients with
  | [] => Err NoRecipients
  | _ =>
      match destroyed_9d with
      | None => Ok false
      | Some doomed =>
          if negb (existsb (fun r => same_key r doomed) recipients) then Ok false
          else if forallb (fun r => same_key r doomed) recipients then Err OnlyTheDoomedKey
          else Ok true
      end
  end.

(** ** The interaction types ([protocol.rs]) *)

Record CardId := MkCardId { ci_guid : bytes; ci_serial : option Z; ci_cn : option bytes }.

Inductive SecretKind : Type :=
| CurrentPin | NewPin | ConfirmNewPin | CurrentPuk | NewPuk | ConfirmNewPuk | ManagementKey | Generic.

(** The shortest label of a card: its serial, or eight characters of its GUID. *)
Inductive Label : Type := SerialLabel (serial : Z) | GuidLabel (short : bytes).

Definition short_label (c : CardId) : Label :=
  match ci_serial c with
  | Some s => SerialLabel s
  | None => GuidLabel (take 8 (ci_guid c))
  end.

(** The texts that the engine shows. *)
Inductive Shown : Type :=
| Plain (text : string)
| ConfirmProvision (card : Label)
| ConfirmReprovision (card : Label)
| ConfirmAddKey (slot : Z) (policy : KeyPolicy) (card : Label)
| ConfirmReplaceKey (slot : Z) (policy : KeyPolicy) (card : Label)
| ConfirmSeal (card : Label) (pass_name : bytes) (recipients : Z)
| TouchNow (slot : Z)
| TouchIfAsked (slot : Z)
| NoOperatorActs (why : OperatorActBlocker)
| Sealing (pass_name : bytes)
| SealSkipped
| DoomedRecipient
| Generating (slot : Z)
| ToSign (slot : Z).

Record SecretRequest := MkSecretRequest {
  sq_kind : SecretKind; sq_prompt : string; sq_card : option CardId; sq_slot : option Z; sq_attempts : option Z; sq_detail : option Shown
}.
Record MgmtKeyRequest := MkMgmtKeyRequest { mk_prompt : string; mk_card : CardId }.
Inductive MgmtKeyChoice : Type := MgmtDefault | MgmtHex (key : list Z) | MgmtRandom.
Record ConfirmRequest := MkConfirmRequest { cf_message : Shown; cf_default : option bool }.

(** A progress token is a word, with a slot in some. *)
Record ProgressEvent := MkProgress { pe_step : string; pe_slot : option Z; pe_message : Shown; pe_current : option Z; pe_total : option Z }.

Inductive FrontendError : Type := Declined (m : bytes) | TransportFailed (m : bytes) | ProtocolError (m : bytes).

(** ** The engine's types ([engine.rs]) *)

Definition DEFAULT_PIN : list Z := ascii "123456".
Definition DEFAULT_PUK : list Z := ascii "12345678".

(** [piggy_piv::DEFAULT_ADMIN_KEY] *)
Definition DEFAULT_ADMIN_KEY : bytes := [1; 2; 3; 4; 5; 6; 7; 8; 1; 2; 3; 4; 5; 6; 7; 8; 1; 2; 3; 4; 5; 6; 7; 8].

Record ProvisionConfig := MkProvisionConfig {
  pc_policies : SlotPolicies; pc_accepts_policies : bool; pc_guid : bytes; pc_reprovision : bool
}.

Record SealedKey := MkSealedKey { sk_pass_name : bytes; sk_recipients : Z }.

Record ProvisionOutcome := MkProvisionOutcome {
  po_guid : bytes; po_generated_mgmt_key : option bytes; po_sealed_mgmt_key : option SealedKey; po_serves_operator_acts : bool
}.

(** What to run after the card was left halfway. *)
Inductive Advice : Type := InitRecovery | AddKeyRetry (slot : Z) (binding : RequestBinding).

(** How the operator chose a card ([init_cmd.rs]), and why no card was chosen; [reprovision] is the word for the cards
    that were eligible, the candidates are named by GUID and reader. *)
Inductive CardSelector : Type := SelSerial (serial : Z) | SelGuid (guid : Guid) | SelReader (reader : bytes) | SelAuto.

Inductive SelectError : Type :=
| NoProvisionedCard
| NoCandidate (reprovision : bool)
| Ambiguous (reprovision : bool) (n : Z) (candidates : list (Guid * bytes))
| NoMatch (reprovision : bool) (what : CardSelector) (candidates : list (Guid * bytes))
| SeveralMatch (reprovision : bool) (n : Z) (what : CardSelector) (candidates : list (Guid * bytes)).

Inductive SealRefusal : Type := StoreRefuses (m : bytes) | EscrowRefused (e : EscrowRefusal).

Inductive SetupError : Type :=
| SlotHoldsAKey (slot : Z) (card : Label) (binding : RequestBinding)
| StoredKeyUnread (m : bytes)
| Usage (e : UsageError)
| Select (e : SelectError)
| OccupiedUnknown (slot : Z) (e : PivError)
| SessionOpen (e : PivError)
| PcscSetup (e : PivError)
| EnumerateSetup (e : PivError)
| RngSetup
| CannotSeal (pass_name : bytes) (e : SealRefusal).

Inductive BadKey : Type := KeyNotHex | KeyLength (n : Z) | KeyRng.

Inductive ProvisionError : Type :=
| Setup (e : SetupError)
| CardError (e : PivError)
| FrontendErr (e : FrontendError)
| Aborted
| PinMismatch
| PukMismatch
| BadMgmtKey (e : BadKey)
| Partial (slot : Z) (e : PivError) (why : option (SecurityStatusRefusal * Z)) (advice : Advice)
| SealFailed (m : bytes).

Record AddKeyOutcome := MkAddKeyOutcome { ao_guid : bytes; ao_slot : Z; ao_public_point : bytes; ao_serves_operator_acts : bool }.

(** A [completed] event: what it sums up, or the error. *)
Inductive Summary : Type := InitDone (guid : bytes) (sealed : option bytes) | AddKeyDone (guid : bytes) (slot : Z).
Inductive CompletedEvent : Type := CompletedOk (s : Summary) | CompletedError (e : ProvisionError).

(** ** The interfaces *)

Class ProvisionCard (K : Type) := {
  card_serial : K -> option Z;
  card_authenticate_admin : bytes -> IO PivError K unit;
  card_verify_pin : list Z -> IO PivError K unit;
  card_write_chuid : bytes -> IO PivError K unit;
  card_generate_key : Z -> PivAlgorithm -> KeyPolicy -> IO PivError K bytes;
  card_attested_policy : Z -> IO Empty_set K (option KeyPolicy);
  card_sign_prehash : Z -> PivAlgorithm -> bytes -> IO PivError K bytes;
  card_put_cert : Z -> bytes -> IO PivError K unit;
  card_change_pin : list Z -> list Z -> IO PivError K unit;
  card_change_puk : list Z -> list Z -> IO PivError K unit;
  card_set_management_key_3des : bytes -> IO PivError K unit;
}.

Class Frontend (F : Type) := {
  request_secret : SecretRequest -> F -> F * res FrontendError (list Z);
  request_mgmt_key : MgmtKeyRequest -> F -> F * res FrontendError MgmtKeyChoice;
  confirm : ConfirmRequest -> F -> F * res FrontendError bool;
  progress : ProgressEvent -> F -> F;
  completed : CompletedEvent -> F -> F;
}.

Class KeyEscrow (X : Type) := {
  pass_name : X -> bytes;
  recipients : X -> list Id;
  seal_key : bytes -> X -> X * res bytes unit;
  rollback : X -> X;
  commit : X -> X;
}.

(** What [build_self_signed_cert] leaves to the x509 crates: the TBSCertificate of a key and a common name, its
    digest, and the certificate made of it and a signature. *)
Record CertBuilder := {
  tbs_certificate : bytes -> bytes -> res PivError bytes;
  tbs_digest : bytes -> bytes;
  assemble_cert : bytes -> bytes -> bytes -> res PivError bytes;
}.

(** ** The engine *)

Record Bench (K F X : Type) := MkBench { bn_card : K; bn_frontend : F; bn_sink : X }.
Arguments MkBench {K F X}.
Arguments bn_card {K F X}.
Arguments bn_frontend {K F X}.
Arguments bn_sink {K F X}.

Section Engine.
Context {K F X : Type} `{ProvisionCard K} `{Frontend F} `{KeyEscrow X} (B : CertBuilder).

(** The time a sign took, from the card before and after it; [rand_bytes] for the key of a [Random] choice. *)
Context (sign_took : K -> K -> Z) (random_key : option bytes).

Abbreviation Bn := (Bench K F X).

Definition on_card {D E A} (f : D -> E) (m : IO D K A) : IO E Bn A :=
  fun b => match m (bn_card b) with
           | Some (k, r) => Some (MkBench k (bn_frontend b) (bn_sink b), map_err f r)
           | None => None
           end.

Definition on_frontend {E A} (m : IO E F A) : IO E Bn A :=
  fun b => match m (bn_frontend b) with
           | Some (f, r) => Some (MkBench (bn_card b) f (bn_sink b), r)
           | None => None
           end.

Definition on_sink {E A} (g : X -> X * res E A) : IO E Bn A :=
  fun b => let (x, r) := g (bn_sink b) in Some (MkBench (bn_card b) (bn_frontend b) x, r).

(** An answer of the operator. *)
Definition ask_operator {A} (q : F -> F * res FrontendError A) : IO ProvisionError F A :=
  fun f => let (f, r) := q f in Some (f, map_err FrontendErr r).

Definition tell {E} (ev : ProgressEvent) : IO E F unit := io_modify (progress ev).

Definition notice (step : string) (slot : option Z) (message : Shown) : ProgressEvent := MkProgress step slot message None None.

Definition touch_instruction (touch : TouchPolicy.t) (slot : Z) : Shown :=
  match touch with TouchPolicy.Cached => TouchIfAsked slot | _ => TouchNow slot end.

Definition slot_cn (prefix guid_hex : bytes) : bytes := prefix ++ [64] ++ take 8 guid_hex.

(** A sign, and how long it took if the card refused it with [6982]. *)
Definition signing (slot : Z) (digest : bytes) : IO (PivError * option Z) Bn bytes :=
  fun b => match card_sign_prehash slot EcP256 digest (bn_card b) with
           | None => None
           | Some (k, r) =>
               let took e := match e with
                             | PinRequired => Some (sign_took (bn_card b) k)
                             | PivApdu sw => if sw =? 0x6982 then Some (sign_took (bn_card b) k) else None
                             | _ => None
                             end in
               Some (MkBench k (bn_frontend b) (bn_sink b), map_err (fun e => (e, took e)) r)
           end.

Definition unsigned {A} (r : res PivError A) : res (PivError * option Z) A := map_err (fun e => (e, None)) r.

Definition build_self_signed_cert (point cn : bytes) (sign_digest : bytes -> IO (PivError * option Z) Bn bytes)
    : IO (PivError * option Z) Bn bytes :=
  do! tbs := io_lift (unsigned (tbs_certificate B point cn)) in
  do! signature := sign_digest (tbs_digest B tbs) in
  io_lift (unsigned (assemble_cert B point cn signature)).

(** The closure [certified] of [provision_slot]. *)
Definition certify (slot : Z) (cn : bytes) (policy : KeyPolicy) (pin : list Z) (point : bytes) : IO (PivError * option Z) Bn unit :=
  let plain e : PivError * option Z := (e, None) in
  do! _ := (if bool_decide (effective_pin policy slot = PinPolicy.Always) then on_card plain (card_verify_pin pin) else io_ret tt) in
  do! _ := (if needs_touch policy
            then on_frontend (tell (notice "touch" (Some slot) (touch_instruction (kp_touch policy) slot))) else io_ret tt) in
  do! cert := build_self_signed_cert point cn (signing slot) in
  on_card plain (card_put_cert slot cert).

Definition provision_slot (slot : Z) (cn : bytes) (policy : KeyPolicy) (pin : list Z) (advice : Advice) : IO ProvisionError Bn bytes :=
  do! point := on_card CardError (card_generate_key slot EcP256 policy) in
  do! _ := io_map_err (fun '(e, refused_after) =>
             Partial slot e ((fun elapsed => (classify elapsed (needs_touch policy), elapsed)) <$> refused_after) advice)
           (certify slot cn policy pin point) in
  io_ret point.

Definition check_operator_acts : IO ProvisionError Bn bool :=
  do! attested := on_card (Empty_set_rect _) (card_attested_policy SLOT_SIGNATURE) in
  match operator_act_verdict attested with
  | Ok _ => io_ret true
  | Err why => do! _ := on_frontend (tell (notice "no-operator-acts" None (NoOperatorActs why))) in io_ret false
  | Panic => fun b => Some (b, Panic)
  end.

(** *** The management key *)

(** [hex::decode] on a string; anything but pairs of hex digits is an error. *)
Definition hex_value (c : Z) : option Z :=
  if between 48 c 57 then Some (c - 48)
  else if between 97 c 102 then Some (c - 87)
  else if between 65 c 70 then Some (c - 55)
  else None.

Fixpoint hex_decode (s : list Z) : option bytes :=
  match s with
  | [] => Some []
  | [_] => None
  | a :: b :: s =>
      match hex_value a, hex_value b, hex_decode s with
      | Some x, Some y, Some l => Some (16 * x + y :: l)
      | _, _, _ => None
      end
  end.

Definition hex_encode_upper (l : bytes) : bytes := mbind fmt_hex2_upper l.

Definition eq_ignore_ascii_case (a b : list Z) : bool := bytes_eqb (lower a) (lower b).

Definition key_bytes (key : list Z) : res ProvisionError bytes :=
  let* l := ok_or (hex_decode key) (BadMgmtKey KeyNotHex) in
  if negb (len l =? 24) then Err (BadMgmtKey (KeyLength (len l))) else Ok l.

Definition parse_current_mgmt_key (key : list Z) : res ProvisionError bytes :=
  let key := trim key in
  if eq_ignore_ascii_case key (ascii "default") then Ok DEFAULT_ADMIN_KEY else key_bytes key.

Definition note_unsealed (escrow : option bool) : IO ProvisionError Bn unit :=
  match escrow with
  | Some false => on_frontend (tell (notice "seal-skipped" None SealSkipped))
  | _ => io_ret tt
  end.

(** The question whether to seal; a failed answer means no. *)
Definition offer_seal (card : CardId) : IO ProvisionError Bn bool :=
  do! b := io_get in
  let x := bn_sink b in
  on_frontend (ask_operator (confirm (MkConfirmRequest (ConfirmSeal (short_label card) (pass_name x) (len (recipients x))) (Some false)))).

Definition seal_then_rotate (key key_hex : bytes) : IO ProvisionError Bn SealedKey :=
  do! b := io_get in
  do! _ := on_frontend (tell (notice "seal-mgmt-key" None (Sealing (pass_name (bn_sink b))))) in
  do! _ := on_sink (fun x => let (x, r) := seal_key key_hex x in (x, map_err SealFailed r)) in
  do! r := io_try (on_card (fun e => e) (card_set_management_key_3des key)) in
  match r with
  | inr e => do! _ := on_sink (fun x => (rollback x, Ok tt)) in io_err (CardError e)
  | inl _ =>
      do! _ := on_sink (fun x => (commit x, Ok tt)) in
      do! b := io_get in
      io_ret (MkSealedKey (pass_name (bn_sink b)) (len (recipients (bn_sink b))))
  end.

(** The escrow, if there is one, with whether to ask. *)
Definition rotate_mgmt_key (card : CardId) (escrow : option bool) : IO ProvisionError Bn (option bytes * option SealedKey) :=
  do! choice := on_frontend (ask_operator (request_mgmt_key (MkMgmtKeyRequest "Management key for the card" card))) in
  match choice with
  | MgmtDefault => do! _ := note_unsealed escrow in io_ret (None, None)
  | MgmtHex key =>
      do! l := io_lift (key_bytes (trim key)) in
      do! _ := on_card CardError (card_set_management_key_3des l) in
      do! _ := note_unsealed escrow in
      io_ret (None, None)
  | MgmtRandom =>
      do! key := io_lift (ok_or random_key (BadMgmtKey KeyRng)) in
      let key_hex := hex_encode_upper key in
      do! sealing := (match escrow with
                      | Some false => io_ret true
                      | Some true =>
                          do! answer := io_try (offer_seal card) in
                          io_ret (match answer with inl yes => yes | inr _ => false end)
                      | None => io_ret false
                      end) in
      if sealing then do! sealed := seal_then_rotate key key_hex in io_ret (None, Some sealed)
      else do! _ := on_card CardError (card_set_management_key_3des key) in io_ret (Some key_hex, None)
  end.

(** *** [card init] *)

Definition step (n : Z) (token : string) (message : string) : IO ProvisionError Bn unit :=
  on_frontend (tell (MkProgress token None (Plain message) (Some n) (Some 7))).

Definition collect_new_secret (card : CardId) (enter again : SecretKind) (prompt : string) (mismatch : ProvisionError)
    : IO ProvisionError Bn (list Z) :=
  do! first := on_frontend (ask_operator (request_secret (MkSecretRequest enter prompt (Some card) None None None))) in
  do! second := on_frontend (ask_operator (request_secret (MkSecretRequest again "Re-enter to confirm" (Some card) None None None))) in
  if negb (bytes_eqb first second) then io_err mismatch else io_ret first.

Definition run_inner (cfg : ProvisionConfig) (escrow : option bool) : IO ProvisionError Bn ProvisionOutcome :=
  let guid_hex := hex_encode_upper (pc_guid cfg) in
  do! b := io_get in
  let card := MkCardId guid_hex (card_serial (bn_card b)) None in
  let message := if pc_reprovision cfg then ConfirmReprovision (short_label card) else ConfirmProvision (short_label card) in
  do! proceed := on_frontend (ask_operator (confirm (MkConfirmRequest message (Some false)))) in
  if negb proceed then io_err Aborted
  else
    let policies := if pc_accepts_policies cfg then pc_policies cfg else slot_policies_card_default in
    do! _ := step 1 "admin-auth" "Authenticating management key" in
    do! _ := on_card CardError (card_authenticate_admin DEFAULT_ADMIN_KEY) in
    do! _ := on_card CardError (card_verify_pin DEFAULT_PIN) in
    do! _ := step 2 "write-chuid" "Writing CHUID" in
    do! _ := on_card CardError (card_write_chuid (pc_guid cfg)) in
    do! _ := step 3 "generate-9d" "Generating key-management key (9D)" in
    do! _ := provision_slot SLOT_KEY_MGMT (slot_cn (ascii "piv-key-mgmt") guid_hex) (sp_key_mgmt policies) DEFAULT_PIN InitRecovery in
    do! _ := step 4 "generate-9a" "Generating authentication key (9A)" in
    do! _ := provision_slot SLOT_PIV_AUTH (slot_cn (ascii "piv-auth") guid_hex) (sp_piv_auth policies) DEFAULT_PIN InitRecovery in
    do! _ := step 5 "generate-9c" "Generating operator-act key (9C)" in
    do! _ := provision_slot SLOT_SIGNATURE (slot_cn (ascii "piv-sign") guid_hex) (sp_signature policies) DEFAULT_PIN InitRecovery in
    do! serves := check_operator_acts in
    do! _ := step 6 "change-secrets" "Setting new PIN and PUK" in
    do! new_pin := collect_new_secret card NewPin ConfirmNewPin "Choose a new PIN" PinMismatch in
    do! _ := on_card CardError (card_change_pin DEFAULT_PIN new_pin) in
    do! new_puk := collect_new_secret card NewPuk ConfirmNewPuk "Choose a new PUK" PukMismatch in
    do! _ := on_card CardError (card_change_puk DEFAULT_PUK new_puk) in
    do! _ := step 7 "rotate-mgmt-key" "Rotating management key" in
    do! (generated, sealed) := rotate_mgmt_key card escrow in
    io_ret (MkProvisionOutcome guid_hex generated sealed serves).

(** The terminal event of an operation that came back. *)
Definition closing {A} (summary : A -> Summary) (m : IO ProvisionError Bn A) : IO ProvisionError Bn A :=
  fun b => match m b with
           | Some (b, Ok x) => Some (MkBench (bn_card b) (completed (CompletedOk (summary x)) (bn_frontend b)) (bn_sink b), Ok x)
           | Some (b, Err e) => Some (MkBench (bn_card b) (completed (CompletedError e) (bn_frontend b)) (bn_sink b), Err e)
           | r => r
           end.

Definition init_summary (o : ProvisionOutcome) : Summary := InitDone (po_guid o) (sk_pass_name <$> po_sealed_mgmt_key o).

Definition run (cfg : ProvisionConfig) (escrow : option bool) : IO ProvisionError Bn ProvisionOutcome :=
  closing init_summary (run_inner cfg escrow).

(** *** [card add-key] *)

Record AddKeyConfig := MkAddKeyConfig {
  ak_guid : bytes; ak_slot : Z; ak_policy : KeyPolicy; ak_accepts_policies : bool; ak_occupied : bool; ak_replace : bool;
  (** reads the store when it is called *)
  ak_stored_mgmt_key : option (F -> F * res bytes (list Z));
  ak_binding : RequestBinding;
}.

Record AddKeyPlan := MkAddKeyPlan {
  ap_guid : bytes; ap_slot : Z; ap_policy : KeyPolicy; ap_mgmt_key : bytes; ap_pin : list Z; ap_binding : RequestBinding
}.

Definition slot_cn_prefix (slot : Z) : bytes :=
  if slot =? SLOT_PIV_AUTH then ascii "piv-auth" else if slot =? SLOT_SIGNATURE then ascii "piv-sign" else ascii "piv-key-mgmt".

(** It is given no card. *)
Definition plan_add_key (serial : option Z) (cfg : AddKeyConfig) : IO ProvisionError F AddKeyPlan :=
  let slot := ak_slot cfg in
  let card := MkCardId (ak_guid cfg) serial None in
  let label := short_label card in
  if ak_occupied cfg && negb (ak_replace cfg) then io_err (Setup (SlotHoldsAKey slot label (ak_binding cfg)))
  else
    let policy := if ak_accepts_policies cfg then ak_policy cfg else Slot.CARD_DEFAULT in
    let message := if ak_occupied cfg then ConfirmReplaceKey slot policy label else ConfirmAddKey slot policy label in
    do! proceed := ask_operator (confirm (MkConfirmRequest message (Some false))) in
    if negb proceed then io_err Aborted
    else
      do! key := (match ak_stored_mgmt_key cfg with
                  | Some read => fun f => let (f, r) := read f in Some (f, map_err (fun m => Setup (StoredKeyUnread m)) r)
                  | None => ask_operator (request_secret (MkSecretRequest ManagementKey "Current management key" (Some card) (Some slot) None
                                   (Some (Plain "the card's current key: 48 hex digits, or the word default"))))
                  end) in
      do! mgmt_key := io_lift (parse_current_mgmt_key key) in
      do! pin := ask_operator (request_secret (MkSecretRequest CurrentPin "Card PIN" (Some card) (Some slot) None (Some (ToSign slot)))) in
      io_ret (MkAddKeyPlan (ak_guid cfg) slot policy mgmt_key pin (ak_binding cfg)).

Definition apply_add_key (p : AddKeyPlan) : IO ProvisionError Bn AddKeyOutcome :=
  do! _ := on_card CardError (card_authenticate_admin (ap_mgmt_key p)) in
  do! _ := on_card CardError (card_verify_pin (ap_pin p)) in
  do! _ := on_frontend (tell (notice "generate" (Some (ap_slot p)) (Generating (ap_slot p)))) in
  do! point := provision_slot (ap_slot p) (slot_cn (slot_cn_prefix (ap_slot p)) (ap_guid p)) (ap_policy p) (ap_pin p)
                 (AddKeyRetry (ap_slot p) (ap_binding p)) in
  do! serves := (if ap_slot p =? SLOT_SIGNATURE then check_operator_acts else io_ret false) in
  io_ret (MkAddKeyOutcome (ap_guid p) (ap_slot p) point serves).

Definition add_key_summary (o : AddKeyOutcome) : Summary := AddKeyDone (ao_guid o) (ao_slot o).

Definition add_key (cfg : AddKeyConfig) : IO ProvisionError Bn AddKeyOutcome :=
  closing add_key_summary
    (do! b := io_get in
     do! plan := on_frontend (plan_add_key (card_serial (bn_card b)) cfg) in
     apply_add_key plan).
End Engine.
