(* ===== verification/ProvisionSafe.v ===== *)
(** * ProvisionSafe: what setting up a card does to it

    Which commands a card gets, in which order, and where they may stop; and where a
    generated management key ends up. *)

From Stdlib Require Import ZArith Lia String.
From stdpp Require Import base tactics list numbers.
From S2P Require Import Prelude PivError Utf8 Text Apdu Transport Slot Markl Session Effects OperatorAct Provision.

Local Open Scope Z_scope.

(** ** Records *)

Inductive CardOp : Type :=
| OpAdmin (key : bytes) | OpPin (pin : list Z) | OpChuid (guid : bytes) | OpGenerate (slot : Z) (policy : KeyPolicy)
| OpAttested (slot : Z) | OpSign (slot : Z) | OpPut (slot : Z) | OpChangePin (old : list Z) | OpChangePuk (old : list Z) | OpMgmtKey (key : bytes).

Inductive SinkOp : Type := SinkSeal (key_hex : bytes) (done : bool) | SinkRollback | SinkCommit.

(** A card, or an escrow, with what was asked of it so far, and whether it was done. *)
Abbreviation CardLog K := (K * list (CardOp * bool))%type.
Abbreviation SinkLog X := (X * list SinkOp)%type.

Definition recorded {K E A} (op : CardOp) (m : IO E K A) : IO E (CardLog K) A :=
  fun s => match m (fst s) with
           | Some (k, r) => Some ((k, snd s ++ [(op, is_ok r)]), r)
           | None => None
           end.

#[export] Instance logged_card {K} `{ProvisionCard K} : ProvisionCard (CardLog K) := {
  card_serial s := card_serial (fst s);
  card_authenticate_admin key := recorded (OpAdmin key) (card_authenticate_admin key);
  card_verify_pin pin := recorded (OpPin pin) (card_verify_pin pin);
  card_write_chuid guid := recorded (OpChuid guid) (card_write_chuid guid);
  card_generate_key slot alg policy := recorded (OpGenerate slot policy) (card_generate_key slot alg policy);
  card_attested_policy slot := recorded (OpAttested slot) (card_attested_policy slot);
  card_sign_prehash slot alg digest := recorded (OpSign slot) (card_sign_prehash slot alg digest);
  card_put_cert slot cert := recorded (OpPut slot) (card_put_cert slot cert);
  card_change_pin old new := recorded (OpChangePin old) (card_change_pin old new);
  card_change_puk old new := recorded (OpChangePuk old) (card_change_puk old new);
  card_set_management_key_3des key := recorded (OpMgmtKey key) (card_set_management_key_3des key);
}.

#[export] Instance logged_sink {X} `{KeyEscrow X} : KeyEscrow (SinkLog X) := {
  pass_name s := pass_name (fst s);
  recipients s := recipients (fst s);
  seal_key key_hex s := let (x, r) := seal_key key_hex (fst s) in ((x, snd s ++ [SinkSeal key_hex (is_ok r)]), r);
  rollback s := (rollback (fst s), snd s ++ [SinkRollback]);
  commit s := (commit (fst s), snd s ++ [SinkCommit]);
}.

(** ** Scripts *)

(** The card got a beginning of [script], each command only after the one before was done. *)
Definition began (script : list CardOp) (ops : list (CardOp * bool)) : Prop :=
  (fst <$> ops) `prefix_of` script /\ Forall (fun o => snd o = true) (removelast ops).

Definition finished (script : list CardOp) (ops : list (CardOp * bool)) : Prop :=
  fst <$> ops = script /\ Forall (fun o => snd o = true) ops.

Lemma began_nil script : began script [].
Proof. split; [apply prefix_nil|constructor]. Qed.

Lemma finished_nil : finished [] [].
Proof. split; [reflexivity|constructor]. Qed.

Lemma finished_began script ops : finished script ops -> began script ops.
Proof.
  intros [<- Hall]. split; [reflexivity|]. destruct ops as [|o ops] using rev_ind; [constructor|].
  rewrite removelast_last. now apply Forall_app in Hall as [Hall _].
Qed.

Lemma began_app s1 s2 ops : began s1 ops -> began (s1 ++ s2) ops.
Proof. intros [Hp Hd]. split; [now apply prefix_app_r|exact Hd]. Qed.

Lemma finished_then s1 s2 ops1 ops2 : finished s1 ops1 -> began s2 ops2 -> began (s1 ++ s2) (ops1 ++ ops2).
Proof.
  intros [<- Hall] [Hp Hd]. split; [rewrite fmap_app; now apply prefix_app|].
  destruct ops2 as [|o ops2]; [rewrite app_nil_r; now apply (finished_began (fst <$> ops1))|].
  rewrite removelast_app by discriminate. apply Forall_app. auto.
Qed.

Lemma finished_app s1 s2 ops1 ops2 : finished s1 ops1 -> finished s2 ops2 -> finished (s1 ++ s2) (ops1 ++ ops2).
Proof. intros [<- H1'] [<- H2']. split; [apply fmap_app|now apply Forall_app]. Qed.

Section Scripts.
Context {K F X : Type} `{ProvisionCard K} `{Frontend F} `{KeyEscrow X} (B : CertBuilder).
Context (sign_took : CardLog K -> CardLog K -> Z) (random_key : option bytes).

Abbreviation Bn := (Bench (CardLog K) F (SinkLog X)).

(** A run appends to both records what [P] says. *)
Definition records {E A} (m : IO E Bn A) (P : list (CardOp * bool) -> list SinkOp -> res E A -> Prop) : Prop :=
  forall b b' r, m b = Some (b', r) ->
  exists ops sinks, snd (bn_card b') = snd (bn_card b) ++ ops /\ snd (bn_sink b') = snd (bn_sink b) ++ sinks /\ P ops sinks r.

(** A value is returned after all of the script, anything else after a beginning of it; the escrow is not used. *)
Definition follows {E A} (m : IO E Bn A) (script : list CardOp) : Prop :=
  records m (fun ops sinks r => sinks = [] /\ if is_ok r then finished script ops else began script ops).

(** First [script], and then what [Q] says. *)
Definition after {E A} (script : list CardOp) (Q : list (CardOp * bool) -> list SinkOp -> res E A -> Prop)
    (ops : list (CardOp * bool)) (sinks : list SinkOp) (r : res E A) : Prop :=
  (began script ops /\ sinks = [] /\ is_ok r = false) \/
  exists ops1 ops2, ops = ops1 ++ ops2 /\ finished script ops1 /\ Q ops2 sinks r.

(** Neither the card nor the escrow. *)
Definition silent {E A} (m : IO E Bn A) : Prop := forall b b' r, m b = Some (b', r) -> bn_card b' = bn_card b /\ bn_sink b' = bn_sink b.

(** *** Rules *)

Lemma records_bind {E A A'} (m : IO E Bn A) (k : A -> IO E Bn A') script Q :
  follows m script -> (forall a, records (k a) Q) -> records (io_bind m k) (after script Q).
Proof.
  intros Hm Hk b b' r. unfold io_bind. destruct (m b) as [[b1 x]|] eqn:E1; [|discriminate].
  destruct (Hm _ _ _ E1) as (ops1 & s1 & Hl & Hs & -> & Hx). rewrite app_nil_r in Hs. destruct x as [a|e|].
  - intros Hr. destruct (Hk a _ _ _ Hr) as (ops2 & s2 & Hl2 & Hs2 & HQ). exists (ops1 ++ ops2), s2.
    rewrite Hl2, Hl, Hs2, Hs, app_assoc. split; [reflexivity|]. split; [reflexivity|]. right. eauto.
  - intros [= <- <-]. exists ops1, []. rewrite Hl, Hs, app_nil_r. split; [reflexivity|]. split; [reflexivity|]. now left.
  - intros [= <- <-]. exists ops1, []. rewrite Hl, Hs, app_nil_r. split; [reflexivity|]. split; [reflexivity|]. now left.
Qed.

Lemma records_impl {E A} (m : IO E Bn A) P Q : records m P -> (forall ops sinks r, P ops sinks r -> Q ops sinks r) -> records m Q.
Proof. intros Hm Hi b b' r Hr. destruct (Hm _ _ _ Hr) as (ops & sinks & Hl & Hs & HP). eauto 6. Qed.

Lemma after_app {E A} s1 s2 (Q : list (CardOp * bool) -> list SinkOp -> res E A -> Prop) ops sinks r :
  after s1 (after s2 Q) ops sinks r -> after (s1 ++ s2) Q ops sinks r.
Proof.
  intros [(Hb & Hs & Hr)|(ops1 & ops2 & -> & Hf & [(Hb & Hs & Hr)|(ops3 & ops4 & -> & Hf2 & HQ)])].
  - left. split; [now apply began_app|auto].
  - left. split; [now apply finished_then|auto].
  - right. exists (ops1 ++ ops3), ops4. split; [now rewrite app_assoc|]. split; [now apply finished_app|exact HQ].
Qed.

Lemma follows_bind {E A A'} (m : IO E Bn A) (k : A -> IO E Bn A') s1 s2 :
  follows m s1 -> (forall a, follows (k a) s2) -> follows (io_bind m k) (s1 ++ s2).
Proof.
  intros Hm Hk. eapply records_impl; [exact (records_bind m k s1 _ Hm Hk)|]. intros ops sinks r.
  intros [(Hb & -> & ->)|(ops1 & ops2 & -> & Hf & -> & Hr)]; (split; [reflexivity|]); [now apply began_app|].
  destruct (is_ok r); [now apply finished_app|now apply finished_then].
Qed.

Lemma follows_silent {E A} (m : IO E Bn A) : silent m -> follows m [].
Proof.
  intros Hm b b' r Hr. apply Hm in Hr as [Hc Hs]. exists [], []. rewrite Hc, Hs, !app_nil_r. split; [reflexivity|]. split; [reflexivity|].
  split; [reflexivity|]. destruct (is_ok r); [apply finished_nil|apply began_nil].
Qed.

Lemma silent_ret {E A} (a : A) : silent (E := E) (io_ret a).
Proof. now intros b b' r [= <- _]. Qed.

Lemma silent_err {E A} (e : E) : silent (A := A) (io_err e).
Proof. now intros b b' r [= <- _]. Qed.

Lemma silent_lift {E A} (c : res E A) : silent (io_lift c).
Proof. now intros b b' r [= <- _]. Qed.

Lemma silent_get {E} : silent (E := E) io_get.
Proof. now intros b b' r [= <- _]. Qed.

Lemma silent_frontend {E A} (m : IO E F A) : silent (on_frontend m).
Proof. intros b b' r. unfold on_frontend. destruct (m (bn_frontend b)) as [[f x]|]; [|discriminate]. now intros [= <- _]. Qed.

Lemma silent_bind {E A A'} (m : IO E Bn A) (k : A -> IO E Bn A') : silent m -> (forall a, silent (k a)) -> silent (io_bind m k).
Proof.
  intros Hm Hk b b' r. unfold io_bind. destruct (m b) as [[b1 [a|e|]]|] eqn:E1; [| | |discriminate]; apply Hm in E1 as [Ec Es].
  - intros Hr. apply Hk in Hr as [Hc Hs]. split; congruence.
  - intros [= <- _]. auto.
  - intros [= <- _]. auto.
Qed.

Lemma silent_try {E E' A} (m : IO E Bn A) : silent m -> silent (io_try (F := E') m).
Proof. intros Hm b b' r. unfold io_try. destruct (m b) as [[b1 [a|e|]]|] eqn:E1; [| | |discriminate]; intros [= <- _]; now apply Hm in E1. Qed.

Lemma follows_card {D E A} (f : D -> E) op (m : IO D K A) : follows (on_card f (recorded op m)) [op].
Proof.
  intros b b' r. unfold on_card, recorded. destruct (m (fst (bn_card b))) as [[k x]|]; [|discriminate]. intros [= <- <-].
  exists [(op, is_ok x)], []. split; [reflexivity|]. split; [now rewrite app_nil_r|]. split; [reflexivity|].
  destruct x; cbn [map_err is_ok]; (split; [reflexivity|repeat constructor]).
Qed.

Lemma follows_map_err {E E' A} (f : E -> E') (m : IO E Bn A) s : follows m s -> follows (io_map_err f m) s.
Proof.
  intros Hm b b' r. unfold io_map_err. destruct (m b) as [[b1 x]|] eqn:E1; [|discriminate]. intros [= <- <-].
  destruct (Hm _ _ _ E1) as (ops & sinks & Hl & Hs & Hx). exists ops, sinks. split; [exact Hl|]. split; [exact Hs|]. now destruct x.
Qed.

Lemma follows_quiet {E A A'} (m : IO E Bn A) (k : A -> IO E Bn A') s : silent m -> (forall a, follows (k a) s) -> follows (io_bind m k) s.
Proof. intros Hm Hk. exact (follows_bind m k [] s (follows_silent m Hm) Hk). Qed.

Lemma follows_after {E A A'} (m : IO E Bn A) (k : A -> IO E Bn A') s : follows m s -> (forall a, silent (k a)) -> follows (io_bind m k) s.
Proof. intros Hm Hk. rewrite <- (app_nil_r s). apply follows_bind; [exact Hm|]. intros a. now apply follows_silent. Qed.

Lemma follows_op {D E A A'} (f : D -> E) op (m : IO D K A) (k : A -> IO E Bn A') s :
  (forall a, follows (k a) s) -> follows (io_bind (on_card f (recorded op m)) k) (op :: s).
Proof. intros Hk. exact (follows_bind _ k [op] s (follows_card f op m) Hk). Qed.

(** *** The engine *)

Create HintDb silent.
#[local] Hint Resolve silent_ret silent_err silent_lift silent_get silent_frontend silent_try : silent.

(** The commands that give a slot a key: the PIN again right before the signature, if the key asks for it each time. *)
Definition slot_script (slot : Z) (policy : KeyPolicy) (pin : list Z) : list CardOp :=
  OpGenerate slot policy :: (if bool_decide (effective_pin policy slot = PinPolicy.Always) then [OpPin pin] else []) ++ [OpSign slot; OpPut slot].

Definition init_script (cfg : ProvisionConfig) : list CardOp :=
  let policies := if pc_accepts_policies cfg then pc_policies cfg else slot_policies_card_default in
  [OpAdmin DEFAULT_ADMIN_KEY; OpPin DEFAULT_PIN; OpChuid (pc_guid cfg)] ++
  slot_script SLOT_KEY_MGMT (sp_key_mgmt policies) DEFAULT_PIN ++
  slot_script SLOT_PIV_AUTH (sp_piv_auth policies) DEFAULT_PIN ++
  slot_script SLOT_SIGNATURE (sp_signature policies) DEFAULT_PIN ++
  [OpAttested SLOT_SIGNATURE; OpChangePin DEFAULT_PIN; OpChangePuk DEFAULT_PUK].

Definition add_key_script (p : AddKeyPlan) : list CardOp :=
  [OpAdmin (ap_mgmt_key p); OpPin (ap_pin p)] ++ slot_script (ap_slot p) (ap_policy p) (ap_pin p) ++
  (if ap_slot p =? SLOT_SIGNATURE then [OpAttested SLOT_SIGNATURE] else []).

Lemma follows_signing slot digest : follows (signing sign_took slot digest) [OpSign slot].
Proof.
  intros b b' r. unfold signing. cbn [card_sign_prehash logged_card]. unfold recorded.
  destruct (card_sign_prehash slot EcP256 digest (fst (bn_card b))) as [[k x]|]; [|discriminate]. intros [= <- <-].
  exists [(OpSign slot, is_ok x)], []. split; [reflexivity|]. split; [now rewrite app_nil_r|]. split; [reflexivity|].
  destruct x; cbn [map_err is_ok]; (split; [reflexivity|repeat constructor]).
Qed.

Lemma follows_certify slot cn policy pin point :
  follows (certify B sign_took slot cn policy pin point)
    ((if bool_decide (effective_pin policy slot = PinPolicy.Always) then [OpPin pin] else []) ++ [OpSign slot; OpPut slot]).
Proof.
  unfold certify. cbv zeta. apply follows_bind; [case_bool_decide; [apply (follows_card _ (OpPin pin))|apply follows_silent; auto with silent]|].
  intros u. apply follows_quiet; [destruct (needs_touch policy); auto with silent|]. intros u1.
  apply (follows_bind _ _ [OpSign slot] [OpPut slot]); [|intros cert; apply (follows_card _ (OpPut slot))].
  unfold build_self_signed_cert. apply follows_quiet; [auto with silent|]. intros tbs.
  apply follows_after; [apply follows_signing|auto with silent].
Qed.

Lemma follows_slot slot cn policy pin advice : follows (provision_slot B sign_took slot cn policy pin advice) (slot_script slot policy pin).
Proof.
  unfold provision_slot, slot_script. apply (follows_op CardError (OpGenerate slot policy)). intros point.
  apply follows_after; [apply follows_map_err, follows_certify|auto with silent].
Qed.

Lemma follows_attested : follows (check_operator_acts (K := CardLog K) (X := SinkLog X)) [OpAttested SLOT_SIGNATURE].
Proof.
  unfold check_operator_acts. apply follows_after; [apply (follows_card _ (OpAttested SLOT_SIGNATURE))|]. intros attested.
  destruct (operator_act_verdict attested); [auto with silent|apply silent_bind; auto with silent|now intros b b' r [= <- _]].
Qed.

Lemma silent_collect card enter again prompt mismatch : silent (collect_new_secret card enter again prompt mismatch).
Proof.
  unfold collect_new_secret. repeat (apply silent_bind; [auto with silent|intros ?]).
  match goal with |- silent (if ?c then _ else _) => destruct c end; auto with silent.
Qed.
#[local] Hint Resolve silent_collect : silent.

Lemma silent_step n token message : silent (step n token message).
Proof. apply silent_frontend. Qed.
#[local] Hint Resolve silent_step : silent.

Lemma silent_note escrow : silent (note_unsealed escrow).
Proof. unfold note_unsealed. destruct escrow as [[]|]; auto with silent. Qed.

Lemma silent_offer card : silent (offer_seal card).
Proof. unfold offer_seal. apply silent_bind; auto with silent. Qed.
#[local] Hint Resolve silent_note silent_offer : silent.

(** *** The management key *)

(** What becomes of the key: what the card and the escrow were asked, and what is returned. *)
Inductive key_fate : list (CardOp * bool) -> list SinkOp -> res ProvisionError (option bytes * option SealedKey) -> Prop :=
| fate_kept : key_fate [] [] (Ok (None, None))
| fate_own own key : hex_decode (trim own) = Some key -> len key = 24 -> key_fate [(OpMgmtKey key, true)] [] (Ok (None, None))
| fate_shown key : random_key = Some key -> key_fate [(OpMgmtKey key, true)] [] (Ok (Some (hex_encode_upper key), None))
| fate_sealed key s : random_key = Some key ->
    key_fate [(OpMgmtKey key, true)] [SinkSeal (hex_encode_upper key) true; SinkCommit] (Ok (None, Some s))
| fate_failed r : is_ok r = false -> key_fate [] [] r
| fate_unsealed key r : is_ok r = false -> key_fate [] [SinkSeal (hex_encode_upper key) false] r
| fate_refused key r : is_ok r = false -> key_fate [(OpMgmtKey key, false)] [] r
| fate_rolled_back key e : random_key = Some key ->
    key_fate [(OpMgmtKey key, false)] [SinkSeal (hex_encode_upper key) true; SinkRollback] (Err (CardError e))
| fate_panicked key : key_fate [(OpMgmtKey key, false)] [SinkSeal (hex_encode_upper key) true] Panic.

Lemma records_quiet {E A A'} (m : IO E Bn A) (k : A -> IO E Bn A') (Q : list (CardOp * bool) -> list SinkOp -> res E A' -> Prop) :
  silent m -> (forall a, records (k a) Q) -> (forall r, is_ok r = false -> Q [] [] r) -> records (io_bind m k) Q.
Proof.
  intros Hm Hk Hf. eapply records_impl; [exact (records_bind m k [] Q (follows_silent m Hm) Hk)|]. intros ops sinks r.
  intros [([Hp _] & -> & Hr)|(ops1 & ops2 & -> & [Hp _] & HQ)].
  - apply prefix_nil_inv in Hp. destruct ops; [now apply Hf|discriminate].
  - now destruct ops1.
Qed.

Lemma seal_records key : random_key = Some key ->
  records (do! sealed := seal_then_rotate key (hex_encode_upper key) in io_ret (None, Some sealed)) key_fate.
Proof.
  intros Hkey b b' r. unfold seal_then_rotate, io_get, tell, io_modify, on_frontend, on_sink, on_card, io_try, io_ret, io_err. unfold io_bind.
  cbn [bn_card bn_sink bn_frontend seal_key rollback commit logged_sink card_set_management_key_3des logged_card pass_name recipients].
  destruct (seal_key _ _) as [x [u|e|]]; cbn [map_err is_ok bn_card bn_sink bn_frontend].
  2,3: (intros [= <- <-]; cbn [bn_card bn_sink snd]; exists [], [SinkSeal (hex_encode_upper key) false]; rewrite app_nil_r;
        split; [reflexivity|]; split; [reflexivity|]; now apply fate_unsealed).
  unfold recorded. destruct (card_set_management_key_3des key _) as [[k [u'|e|]]|]; cbn [map_err is_ok fst snd bn_card bn_sink bn_frontend]; [| | |discriminate];
    intros [= <- <-]; cbn [bn_card bn_sink snd fst].
  - exists [(OpMgmtKey key, true)], [SinkSeal (hex_encode_upper key) true; SinkCommit]. rewrite <- app_assoc. split; [reflexivity|]. split; [reflexivity|].
    now apply fate_sealed.
  - exists [(OpMgmtKey key, false)], [SinkSeal (hex_encode_upper key) true; SinkRollback]. rewrite <- app_assoc. split; [reflexivity|]. split; [reflexivity|].
    now apply fate_rolled_back.
  - exists [(OpMgmtKey key, false)], [SinkSeal (hex_encode_upper key) true]. split; [reflexivity|]. split; [reflexivity|]. apply fate_panicked.
Qed.

(** A key is set on the card, and then something that does not fail is said. *)
Lemma set_records {A} (f : A -> option bytes * option SealedKey) key (m : IO ProvisionError Bn A) :
  silent m -> (forall b b' r, m b = Some (b', r) -> exists x, r = Ok x /\ key_fate [(OpMgmtKey key, true)] [] (Ok (f x))) ->
  records (do! _ := on_card CardError (recorded (OpMgmtKey key) (card_set_management_key_3des key)) in do! x := m in io_ret (f x)) key_fate.
Proof.
  intros Hm Hf b b' r. unfold io_bind, on_card, recorded.
  destruct (card_set_management_key_3des key (fst (bn_card b))) as [[k [u|e|]]|]; cbn [map_err is_ok]; [| | |discriminate].
  - set (b0 := MkBench _ _ _). destruct (m b0) as [[b1 x]|] eqn:E1; [|discriminate]. destruct (Hf _ _ _ E1) as (v & -> & Hv).
    intros [= <- <-]. apply Hm in E1 as [-> ->]. exists [(OpMgmtKey key, true)], []. rewrite app_nil_r. auto.
  - intros [= <- <-]. exists [(OpMgmtKey key, false)], []. rewrite app_nil_r. split; [reflexivity|]. split; [reflexivity|]. now apply fate_refused.
  - intros [= <- <-]. exists [(OpMgmtKey key, false)], []. rewrite app_nil_r. split; [reflexivity|]. split; [reflexivity|]. now apply fate_refused.
Qed.

Lemma key_bytes_inv own key : key_bytes own = Ok key -> hex_decode own = Some key /\ len key = 24.
Proof.
  unfold key_bytes. destruct (hex_decode own) as [l|]; [|discriminate]. cbn [ok_or res_bind].
  destruct (negb (len l =? 24)) eqn:E1; [discriminate|]. bprop. intros [= ->]. auto.
Qed.

Lemma note_returns escrow b b' r : note_unsealed (K := CardLog K) (X := SinkLog X) escrow b = Some (b', r) -> exists x, r = Ok x.
Proof. unfold note_unsealed. destruct escrow as [[]|]; intros [= _ <-]; eauto. Qed.

Lemma rotate_records card escrow : records (rotate_mgmt_key random_key card escrow) key_fate.
Proof.
  unfold rotate_mgmt_key. apply records_quiet; [auto with silent| |now apply fate_failed]. intros [|own|].
  - intros b b' r Hr. assert (Hs : silent (do! _ := note_unsealed escrow in io_ret (E := ProvisionError) (@None bytes, @None SealedKey)))
      by (apply silent_bind; auto with silent).
    destruct (Hs _ _ _ Hr) as [-> ->]. exists [], []. rewrite !app_nil_r. split; [reflexivity|]. split; [reflexivity|].
    unfold io_bind in Hr. destruct (note_unsealed escrow b) as [[b1 x]|] eqn:E1; [|discriminate].
    destruct (note_returns _ _ _ _ E1) as [u ->]. injection Hr as _ <-. apply fate_kept.
  - intros b b' r Hr. unfold io_bind at 1, io_lift in Hr. destruct (key_bytes (trim own)) as [key|e|] eqn:Hk.
    + apply key_bytes_inv in Hk as [Hk Hl]. revert b b' r Hr.
      apply (set_records (fun _ => (None, None)) key (note_unsealed escrow)); [auto with silent|].
      intros b b' r Hr. destruct (note_returns _ _ _ _ Hr) as [x ->]. exists x. split; [reflexivity|]. now apply (fate_own own).
    + injection Hr as <- <-. exists [], []. rewrite !app_nil_r. split; [reflexivity|]. split; [reflexivity|]. now apply fate_failed.
    + injection Hr as <- <-. exists [], []. rewrite !app_nil_r. split; [reflexivity|]. split; [reflexivity|]. now apply fate_failed.
  - destruct random_key as [key|] eqn:Hkey.
    2: { intros b b' r [= <- <-]. exists [], []. rewrite !app_nil_r. split; [reflexivity|]. split; [reflexivity|]. now apply fate_failed. }
    intros b b' r Hr. unfold io_bind at 1, io_lift, ok_or in Hr. revert b b' r Hr. cbv zeta.
    apply records_quiet; [|intros sealing; destruct sealing|now apply fate_failed].
    + destruct escrow as [[]|]; auto with silent. apply silent_bind; auto with silent.
    + now apply seal_records.
    + apply (set_records (fun _ : unit => (Some (hex_encode_upper key), None)) key (io_ret tt)); [auto with silent|].
      intros b b' r [= <- <-]. exists tt. split; [reflexivity|]. now apply fate_shown.
Qed.

(** *** [card init] and [card add-key] *)

(** What [card init] does to the management key, in the terms of its outcome. *)
Definition init_fate (ops : list (CardOp * bool)) (sinks : list SinkOp) (r : res ProvisionError ProvisionOutcome) : Prop :=
  key_fate ops sinks (let* o := r in Ok (po_generated_mgmt_key o, po_sealed_mgmt_key o)).

Lemma after_quiet {E A A'} (m : IO E Bn A) (k : A -> IO E Bn A') s (Q : list (CardOp * bool) -> list SinkOp -> res E A' -> Prop) :
  silent m -> (forall a, records (k a) (after s Q)) -> records (io_bind m k) (after s Q).
Proof. intros Hm Hk. apply records_quiet; [exact Hm|exact Hk|]. intros r Hr. left. split; [apply began_nil|auto]. Qed.

Lemma after_then {E A A'} (m : IO E Bn A) (k : A -> IO E Bn A') s1 s2 (Q : list (CardOp * bool) -> list SinkOp -> res E A' -> Prop) :
  follows m s1 -> (forall a, records (k a) (after s2 Q)) -> records (io_bind m k) (after (s1 ++ s2) Q).
Proof. intros Hm Hk. eapply records_impl; [exact (records_bind m k s1 _ Hm Hk)|]. intros ops sinks r. apply after_app. Qed.

Lemma after_op {D E A A'} (f : D -> E) op (m : IO D K A) (k : A -> IO E Bn A') s (Q : list (CardOp * bool) -> list SinkOp -> res E A' -> Prop) :
  (forall a, records (k a) (after s Q)) -> records (io_bind (on_card f (recorded op m)) k) (after (op :: s) Q).
Proof. intros Hk. exact (after_then _ k [op] s Q (follows_card f op m) Hk). Qed.

Lemma after_nil {E A} (m : IO E Bn A) (Q : list (CardOp * bool) -> list SinkOp -> res E A -> Prop) : records m Q -> records m (after [] Q).
Proof. intros Hm. eapply records_impl; [exact Hm|]. intros ops sinks r HQ. right. exists [], ops. split; [reflexivity|]. split; [apply finished_nil|exact HQ]. Qed.

(** A run that closes with an event leaves the records as they are. *)
Lemma closing_inv {A} (summary : A -> Summary) (m : IO ProvisionError Bn A) b b' r :
  closing summary m b = Some (b', r) -> exists b1, m b = Some (b1, r) /\ bn_card b' = bn_card b1 /\ bn_sink b' = bn_sink b1.
Proof. unfold closing. destruct (m b) as [[b1 [x|e|]]|]; [| | |discriminate]; intros [= <- <-]; eauto. Qed.

Definition init_request (cfg : ProvisionConfig) (serial : option Z) : ConfirmRequest :=
  let label := short_label (MkCardId (hex_encode_upper (pc_guid cfg)) serial None) in
  MkConfirmRequest (if pc_reprovision cfg then ConfirmReprovision label else ConfirmProvision label) (Some false).

(** The operator said yes to what was shown. *)
Definition confirmed (request : ConfirmRequest) (f : F) : Prop := exists f', confirm request f = (f', Ok true).

Lemma run_records cfg escrow (b b' : Bn) r :
  run_inner B sign_took random_key cfg escrow b = Some (b', r) ->
  exists ops sinks, snd (bn_card b') = snd (bn_card b) ++ ops /\ snd (bn_sink b') = snd (bn_sink b) ++ sinks /\
    after (init_script cfg) init_fate ops sinks r /\
    (ops <> [] -> confirmed (init_request cfg (card_serial (bn_card b))) (bn_frontend b)).
Proof.
  intros Hr. unfold run_inner in Hr. cbv zeta in Hr. unfold io_bind at 1, io_get in Hr. unfold io_bind at 1, on_frontend at 1, ask_operator in Hr.
  fold (init_request cfg (card_serial (bn_card b))) in Hr. unfold confirmed.
  destruct (confirm _ (bn_frontend b)) as [f [[|]|e|]] eqn:Hc; cbn [map_err negb] in Hr.
  2-4: (injection Hr as <- <-; exists [], []; rewrite !app_nil_r; split; [reflexivity|]; split; [reflexivity|]; split; [|congruence];
        left; split; [apply began_nil|auto]).
  match type of Hr with ?m ?b0 = _ => assert (Hm : records m (after (init_script cfg) init_fate)) end.
  { unfold init_script. cbn [app]. cbv zeta. set (policies := if pc_accepts_policies cfg then _ else _).
    apply after_quiet; [auto with silent|intros _]. apply (after_op CardError (OpAdmin _)). intros _. apply (after_op CardError (OpPin _)). intros _.
    apply after_quiet; [auto with silent|intros _]. apply (after_op CardError (OpChuid _)). intros _.
    do 3 (apply after_quiet; [auto with silent|intros _]; apply after_then; [apply follows_slot|intros _]).
    apply (after_then _ _ [OpAttested SLOT_SIGNATURE]); [apply follows_attested|intros serves].
    apply after_quiet; [auto with silent|intros _]. apply after_quiet; [auto with silent|intros pin]. apply (after_op CardError (OpChangePin _)). intros _.
    apply after_quiet; [auto with silent|intros puk]. apply (after_op CardError (OpChangePuk _)). intros _.
    apply after_quiet; [auto with silent|intros _]. apply after_nil. intros b0 b1 r0 Hr0. unfold io_bind in Hr0.
    set (c := MkCardId _ _ _) in Hr0.
    destruct (rotate_mgmt_key random_key c escrow b0) as [[b2 x]|] eqn:E1; [|discriminate].
    destruct (rotate_records _ _ _ _ _ E1) as (ops & sinks & Hl & Hs & Hf). exists ops, sinks.
    destruct x as [[generated sealed]|e|]; injection Hr0 as <- <-; auto. }
  destruct (Hm _ _ _ Hr) as (ops & sinks & Hl & Hs & Ha). exists ops, sinks. eauto 6.
Qed.

Lemma plan_inv serial cfg f f' plan :
  plan_add_key serial cfg f = Some (f', Ok plan) ->
  (ak_occupied cfg = true -> ak_replace cfg = true) /\ ap_slot plan = ak_slot cfg /\
  ap_policy plan = (if ak_accepts_policies cfg then ak_policy cfg else Slot.CARD_DEFAULT) /\
  exists request, confirmed request f /\
    cf_message request = (if ak_occupied cfg then ConfirmReplaceKey (ak_slot cfg) (ap_policy plan) (short_label (MkCardId (ak_guid cfg) serial None))
                          else ConfirmAddKey (ak_slot cfg) (ap_policy plan) (short_label (MkCardId (ak_guid cfg) serial None))).
Proof.
  unfold plan_add_key. cbv zeta. destruct (ak_occupied cfg && negb (ak_replace cfg)) eqn:Ho; [discriminate|]. intros Hp.
  assert (Hrep : ak_occupied cfg = true -> ak_replace cfg = true) by (destruct (ak_occupied cfg), (ak_replace cfg); auto; discriminate).
  split; [exact Hrep|]. bind_inv Hp as f1 proceed Hc. destruct proceed; [|discriminate]. cbn [negb] in Hp.
  bind_inv Hp as f2 key Hk. bind_inv Hp as f3 mgmt Hm. bind_inv Hp as f4 pin Hpin. unfold io_ret in Hp. injection Hp as _ <-.
  cbn [ap_slot ap_policy]. split; [reflexivity|]. split; [reflexivity|].
  unfold ask_operator in Hc. destruct (confirm _ f) as [g [yes|e|]] eqn:Hg; try discriminate. injection Hc as -> ->.
  eexists. split; [eexists; exact Hg|]. cbn [cf_message]. destruct (ak_occupied cfg); reflexivity.
Qed.

Lemma follows_apply p : follows (apply_add_key B sign_took p) (add_key_script p).
Proof.
  unfold apply_add_key, add_key_script. cbn [app]. apply (follows_op CardError (OpAdmin _)). intros u1. apply (follows_op CardError (OpPin _)). intros u2.
  apply follows_quiet; [auto with silent|]. intros u3. apply follows_bind; [apply follows_slot|]. intros point.
  apply follows_after; [|auto with silent]. destruct (ap_slot p =? SLOT_SIGNATURE); [apply follows_attested|apply follows_silent; auto with silent].
Qed.

(** The last command was not done. *)
Definition refused (ops : list (CardOp * bool)) : Prop := exists front op, ops = front ++ [(op, false)].

(** An error after the card made the new key says that the old one is gone. *)
Lemma apply_partial p (b b' : Bn) e :
  apply_add_key B sign_took p b = Some (b', Err e) ->
  (exists error why advice, e = Partial (ap_slot p) error why advice) \/
  exists error script, e = CardError error /\ (script = [OpAdmin (ap_mgmt_key p)] \/ script = [OpAdmin (ap_mgmt_key p); OpPin (ap_pin p)] \/
     script = [OpAdmin (ap_mgmt_key p); OpPin (ap_pin p); OpGenerate (ap_slot p) (ap_policy p)]) /\
    exists ops, snd (bn_card b') = snd (bn_card b) ++ ops /\ fst <$> ops = script /\ refused ops.
Proof.
  unfold apply_add_key. intros Ha.
  assert (Hcard : forall (op : CardOp) (m : IO PivError K unit) (b1 b2 : Bn) x, on_card CardError (recorded op m) b1 = Some (b2, x) ->
    snd (bn_card b2) = snd (bn_card b1) ++ [(op, is_ok x)] /\ forall e', x = Err e' -> exists error, e' = CardError error).
  { intros op m b1 b2 x. unfold on_card, recorded. destruct (m (fst (bn_card b1))) as [[k y]|]; [|discriminate]. intros [= <- <-].
    destruct y; (split; [reflexivity|]); intros e'; try discriminate. intros [= <-]. eauto. }
  apply io_bind_Err_inv in Ha as [Ha|(b1 & [] & H1' & Ha)].
  { destruct (Hcard _ _ _ _ _ Ha) as [Hl He]. destruct (He e eq_refl) as [error ->]. right. exists error, [OpAdmin (ap_mgmt_key p)].
    split; [reflexivity|]. split; [auto|]. exists [(OpAdmin (ap_mgmt_key p), false)]. split; [exact Hl|]. split; [reflexivity|]. now eexists [], _. }
  destruct (Hcard _ _ _ _ _ H1') as [Hl1 _]. apply io_bind_Err_inv in Ha as [Ha|(b2 & [] & H2' & Ha)].
  { destruct (Hcard _ _ _ _ _ Ha) as [Hl He]. destruct (He e eq_refl) as [error ->]. right. eexists error, [_; _].
    split; [reflexivity|]. split; [right; left; reflexivity|]. exists [(OpAdmin (ap_mgmt_key p), true); (OpPin (ap_pin p), false)].
    split; [rewrite Hl, Hl1, <- app_assoc; reflexivity|]. split; [reflexivity|]. now eexists [_], _. }
  destruct (Hcard _ _ _ _ _ H2') as [Hl2 _]. apply io_bind_Err_inv in Ha as [Ha|(b3 & [] & H3' & Ha)]; [discriminate|].
  destruct (silent_frontend _ _ _ _ H3') as [Hc3 _]. apply io_bind_Err_inv in Ha as [Ha|(b4 & point & H4' & Ha)].
  - unfold provision_slot in Ha. apply io_bind_Err_inv in Ha as [Ha|(b4 & point & H4' & Ha)].
    + right. unfold on_card in Ha. cbn [card_generate_key logged_card] in Ha. unfold recorded in Ha.
      destruct (card_generate_key (ap_slot p) EcP256 (ap_policy p) (fst (bn_card b3))) as [[k y]|]; [|discriminate].
      destruct y as [v|error|]; try discriminate. cbn [map_err is_ok] in Ha. injection Ha as <- <-. eexists error, [_; _; _]. split; [reflexivity|].
      split; [right; right; reflexivity|]. eexists [(_, true); (_, true); (_, false)]. cbn [bn_card snd]. rewrite Hc3, Hl2, Hl1, <- !app_assoc.
      split; [reflexivity|]. split; [reflexivity|]. now eexists [_; _], _.
    + left. apply io_bind_Err_inv in Ha as [Ha|(b5 & [] & H5' & Ha)]; [|discriminate]. unfold io_map_err in Ha.
      destruct (certify _ _ _ _ _ _ _ b4) as [[b5 [v|[error refused]|]]|]; try discriminate. cbn [map_err] in Ha. injection Ha as _ <-. eauto.
  - exfalso. apply io_bind_Err_inv in Ha as [Ha|(b5 & serves & H5' & Ha)]; [|discriminate].
    destruct (ap_slot p =? SLOT_SIGNATURE); [|discriminate]. unfold check_operator_acts in Ha.
    apply io_bind_Err_inv in Ha as [Ha|(b5 & attested & H5' & Ha)].
    + unfold on_card in Ha. destruct (card_attested_policy SLOT_SIGNATURE (bn_card b4)) as [[k [v|[]|]]|]; discriminate.
    + destruct (operator_act_verdict attested); [discriminate| |discriminate]. now apply io_bind_Err_inv in Ha as [Ha|(b6 & u & H6' & Ha)].
Qed.

(** ** Properties *)

(** C17 (safety). [card init] is one script. The card gets no command before the operator said yes to a message that names it;
    then each command comes only after the one before was done: the factory management key and PIN, the GUID, three keys, each
    signing its own certificate with the PIN verified right before if its policy asks for it each time, the PIN and the PUK,
    and last, if at all, the management key; a value is returned only after all of it, and the escrow is used for nothing but
    the management key. *)
Theorem init_is_scripted cfg escrow (b b' : Bn) r :
  Provision.run B sign_took random_key cfg escrow b = Some (b', r) ->
  exists ops sinks, snd (bn_card b') = snd (bn_card b) ++ ops /\ snd (bn_sink b') = snd (bn_sink b) ++ sinks /\
    after (init_script cfg) init_fate ops sinks r /\
    (ops <> [] -> confirmed (init_request cfg (card_serial (bn_card b))) (bn_frontend b)).
Proof.
  intros Hr. apply closing_inv in Hr as (b1 & Hr & -> & ->). exact (run_records cfg escrow b b1 r Hr).
Qed.

(** C25 (safety). [card add-key] touches one slot. It asks the card nothing before the operator said yes to a message that
    names the slot and says whether a key is destroyed, and nothing at all when the slot holds a key and replacing was not asked
    for; then the commands are the given management key and PIN, and the key, certificate and attestation of that slot, in this
    order, each only after the one before was done, so a wrong PIN or management key destroys no key; the escrow is not used;
    and an error is either that of one of the first three commands, which then was the last one, or says that the old key is gone. *)
Theorem add_key_touches_one_slot cfg (b b' : Bn) r :
  add_key B sign_took cfg b = Some (b', r) ->
  exists ops, snd (bn_card b') = snd (bn_card b) ++ ops /\ snd (bn_sink b') = snd (bn_sink b) /\
    (ops <> [] \/ is_ok r = true ->
     exists p f, plan_add_key (card_serial (bn_card b)) cfg (bn_frontend b) = Some (f, Ok p) /\
       (ak_occupied cfg = true -> ak_replace cfg = true) /\ ap_slot p = ak_slot cfg /\
       (exists request, confirmed request (bn_frontend b) /\
          cf_message request = (if ak_occupied cfg then ConfirmReplaceKey (ak_slot cfg) (ap_policy p) (short_label (MkCardId (ak_guid cfg) (card_serial (bn_card b)) None))
                                else ConfirmAddKey (ak_slot cfg) (ap_policy p) (short_label (MkCardId (ak_guid cfg) (card_serial (bn_card b)) None)))) /\
       (if is_ok r then finished (add_key_script p) ops else began (add_key_script p) ops) /\
       (forall e, r = Err e -> (exists error why advice, e = Partial (ak_slot cfg) error why advice) \/
          exists error, e = CardError error /\ (length ops <= 3)%nat /\ refused ops)).
Proof.
  intros Hr. apply closing_inv in Hr as (b1 & Hr & -> & ->). unfold io_bind at 1, io_get in Hr. unfold io_bind at 1, on_frontend in Hr.
  destruct (plan_add_key _ cfg (bn_frontend b)) as [[f [p|e|]]|] eqn:Hp; [| | |discriminate].
  2,3: (injection Hr as <- <-; exists []; rewrite app_nil_r; split; [reflexivity|]; split; [reflexivity|]; now intros [Hn|Hn]).
  destruct (follows_apply p _ _ _ Hr) as (ops & sinks & Hl & Hs & -> & Hf). rewrite app_nil_r in Hs. exists ops. split; [exact Hl|]. split; [exact Hs|].
  intros _. exists p, f. destruct (plan_inv _ _ _ _ _ Hp) as (H1' & H2' & H3' & request & Hc & Hm). split; [reflexivity|]. split; [exact H1'|].
  split; [exact H2'|]. split; [eauto|]. split; [exact Hf|]. intros e ->. apply apply_partial in Hr as [(error & why & advice & ->)|(error & script & -> & Hsc & ops' & Hl' & Hfst & Hlast)].
  - left. rewrite H2'. eauto.
  - right. exists error. cbn [bn_card] in Hl, Hl'. rewrite Hl' in Hl. apply app_inv_head in Hl as <-. split; [reflexivity|]. split; [|exact Hlast].
    rewrite <- (length_fmap fst), Hfst. destruct Hsc as [->|[->| ->]]; cbn; lia.
Qed.
End Scripts.

(** ** Where the management key comes from *)

(** The digits that were decoded. *)
Lemma hex_value_digit c x : hex_value c = Some x -> 0 <= x < 16 /\ to_ascii_lowercase (upper_hex x) = to_ascii_lowercase c.
Proof.
  unfold hex_value, between. intros Hc.
  assert (Hall : 48 <= c <= 57 /\ x = c - 48 \/ 97 <= c <= 102 /\ x = c - 87 \/ 65 <= c <= 70 /\ x = c - 55).
  { repeat match type of Hc with (if ?b then _ else _) = _ => destruct b eqn:?; [injection Hc as <-; bprop; lia|] end. discriminate. }
  split; [lia|]. unfold to_ascii_lowercase, is_ascii_uppercase, upper_hex, between. destruct (Z.ltb_spec x 10);
    repeat match goal with |- context [(?a <=? ?b)] => destruct (Z.leb_spec a b) end; cbn [andb]; lia.
Qed.

Lemma hex_decode_digits : forall s l, hex_decode s = Some l -> lower s = lower (hex_encode_upper l).
Proof.
  fix IH 1. intros [|a [|b s]] l Hl; [now injection Hl as <-|discriminate|]. cbn [hex_decode] in Hl.
  destruct (hex_value a) as [x|] eqn:Ha, (hex_value b) as [y|] eqn:Hb, (hex_decode s) as [l'|] eqn:Hs; try discriminate. injection Hl as <-.
  apply hex_value_digit in Ha as [Hx Ha], Hb as [Hy Hb]. cbn [lower fmap list_fmap hex_encode_upper mbind list_bind fmt_hex2_upper app].
  rewrite <- (Z.div_unique_pos (16 * x + y) 16 x y), <- (Z.mod_unique_pos (16 * x + y) 16 x y), Ha, Hb by lia.
  do 2 f_equal. exact (IH s l' Hs).
Qed.

(** A frontend with the answers to the question for the management key, in the order they were given. *)
Abbreviation FrontLog F := (F * list MgmtKeyChoice)%type.

#[export] Instance logged_frontend {F} `{Frontend F} : Frontend (FrontLog F) := {
  request_secret q s := let (f, r) := request_secret q (fst s) in ((f, snd s), r);
  request_mgmt_key q s := let (f, r) := request_mgmt_key q (fst s) in ((f, snd s ++ match r with Ok c => [c] | _ => [] end), r);
  confirm q s := let (f, r) := confirm q (fst s) in ((f, snd s), r);
  progress ev s := (progress ev (fst s), snd s);
  completed ev s := (completed ev (fst s), snd s);
}.

(** The card took the key as its management key. *)
Definition key_taken (key : bytes) (ops : list (CardOp * bool)) : Prop := In (OpMgmtKey key, true) ops.

Section Answers.
Context {K F X : Type} `{ProvisionCard K} `{Frontend F} `{KeyEscrow X} (B : CertBuilder).
Context (sign_took : CardLog K -> CardLog K -> Z) (random_key : option bytes).

Abbreviation Bn := (Bench (CardLog K) (FrontLog F) (SinkLog X)).

(** The question was not asked, and no management key set. *)
Definition tame {E A} (m : IO E Bn A) : Prop := forall b b' r, m b = Some (b', r) ->
  snd (bn_frontend b') = snd (bn_frontend b) /\
  exists ops, snd (bn_card b') = snd (bn_card b) ++ ops /\ forall key done, ~ In (OpMgmtKey key, done) ops.

(** The card took no key but the one of the answer; a value returned after a generated one was taken is not [kept]. *)
Definition answers {E A} (kept : A -> Prop) (m : IO E Bn A) : Prop := forall b b' r, m b = Some (b', r) ->
  exists cs ops, snd (bn_frontend b') = snd (bn_frontend b) ++ cs /\ snd (bn_card b') = snd (bn_card b) ++ ops /\
    forall key, key_taken key ops ->
      (exists own, cs = [MgmtHex own] /\ key_bytes (trim own) = Ok key) \/
      cs = [MgmtRandom] /\ random_key = Some key /\ forall x, r = Ok x -> ~ kept x.

Lemma tame_answers {E A} kept (m : IO E Bn A) : tame m -> answers kept m.
Proof.
  intros Hm b b' r Hr. destruct (Hm _ _ _ Hr) as (Hf & ops & Hl & Hno). exists [], ops. rewrite app_nil_r. split; [exact Hf|]. split; [exact Hl|].
  intros key Hk. now apply Hno in Hk.
Qed.

Lemma answers_bind {E A A'} kept (m : IO E Bn A) (k : A -> IO E Bn A') : tame m -> (forall a, answers kept (k a)) -> answers kept (io_bind m k).
Proof.
  intros Hm Hk b b' r. unfold io_bind. destruct (m b) as [[b1 [a|e|]]|] eqn:E1; [| | |discriminate];
    destruct (Hm _ _ _ E1) as (Hf & ops & Hl & Hno).
  - intros Hr. destruct (Hk a _ _ _ Hr) as (cs & ops2 & Hf2 & Hl2 & Hall). exists cs, (ops ++ ops2). rewrite Hf2, Hl2, Hf, Hl, app_assoc.
    split; [reflexivity|]. split; [reflexivity|]. intros key Hin. apply Hall. apply in_app_or in Hin as [Hin|Hin]; [now apply Hno in Hin|exact Hin].
  - intros [= <- <-]. exists [], ops. rewrite app_nil_r. split; [exact Hf|]. split; [exact Hl|]. intros key Hin. now apply Hno in Hin.
  - intros [= <- <-]. exists [], ops. rewrite app_nil_r. split; [exact Hf|]. split; [exact Hl|]. intros key Hin. now apply Hno in Hin.
Qed.

Lemma tame_bind {E A A'} (m : IO E Bn A) (k : A -> IO E Bn A') : tame m -> (forall a, tame (k a)) -> tame (io_bind m k).
Proof.
  intros Hm Hk b b' r. unfold io_bind. destruct (m b) as [[b1 [a|e|]]|] eqn:E1; [| | |discriminate];
    destruct (Hm _ _ _ E1) as (Hf & ops & Hl & Hno).
  - intros Hr. destruct (Hk a _ _ _ Hr) as (Hf2 & ops2 & Hl2 & Hno2). split; [congruence|]. exists (ops ++ ops2). rewrite Hl2, Hl, app_assoc.
    split; [reflexivity|]. intros key done Hin. apply in_app_or in Hin as [Hin|Hin]; [now apply Hno in Hin|now apply Hno2 in Hin].
  - intros [= <- <-]. eauto.
  - intros [= <- <-]. eauto.
Qed.

Lemma tame_still {E A} (m : IO E Bn A) : (forall b b' r, m b = Some (b', r) -> b' = b) -> tame m.
Proof. intros Hm b b' r Hr. apply Hm in Hr as ->. split; [reflexivity|]. exists []. now rewrite app_nil_r. Qed.

Lemma tame_ret {E A} (a : A) : tame (E := E) (io_ret a).
Proof. apply tame_still. now intros b b' r [= <- _]. Qed.

Lemma tame_err {E A} (e : E) : tame (A := A) (io_err e).
Proof. apply tame_still. now intros b b' r [= <- _]. Qed.

Lemma tame_lift {E A} (c : res E A) : tame (io_lift c).
Proof. apply tame_still. now intros b b' r [= <- _]. Qed.

Lemma tame_get {E} : tame (E := E) io_get.
Proof. apply tame_still. now intros b b' r [= <- _]. Qed.

Lemma tame_frontend {E A} (m : IO E (FrontLog F) A) : (forall f f' r, m f = Some (f', r) -> snd f' = snd f) -> tame (on_frontend m).
Proof.
  intros Hm b b' r. unfold on_frontend. destruct (m (bn_frontend b)) as [[f x]|] eqn:E1; [|discriminate]. intros [= <- _].
  split; [exact (Hm _ _ _ E1)|]. exists []. now rewrite app_nil_r.
Qed.

Lemma tame_tell {E} ev : tame (E := E) (on_frontend (tell ev)).
Proof. apply tame_frontend. now intros f f' r [= <- _]. Qed.

Lemma tame_confirm q : tame (on_frontend (ask_operator (confirm q))).
Proof. apply tame_frontend. intros f f' r. unfold ask_operator. cbn. destruct (confirm q (fst f)). now intros [= <- _]. Qed.

Lemma tame_secret q : tame (on_frontend (ask_operator (request_secret q))).
Proof. apply tame_frontend. intros f f' r. unfold ask_operator. cbn. destruct (request_secret q (fst f)). now intros [= <- _]. Qed.

Lemma tame_card {D E A} (f : D -> E) op (m : IO D K A) : (forall key, op <> OpMgmtKey key) -> tame (on_card f (recorded op m)).
Proof.
  intros Hop b b' r. unfold on_card, recorded. destruct (m (fst (bn_card b))) as [[k x]|]; [|discriminate]. intros [= <- _].
  split; [reflexivity|]. exists [(op, is_ok x)]. split; [reflexivity|]. intros key done [[= Ho _]|[]]. now apply (Hop key).
Qed.

Lemma tame_map_err {E E' A} (f : E -> E') (m : IO E Bn A) : tame m -> tame (io_map_err f m).
Proof. intros Hm b b' r. unfold io_map_err. destruct (m b) as [[b1 x]|] eqn:E1; [|discriminate]. intros [= <- _]. exact (Hm _ _ _ E1). Qed.

Lemma tame_try {E E' A} (m : IO E Bn A) : tame m -> tame (io_try (F := E') m).
Proof. intros Hm b b' r. unfold io_try. destruct (m b) as [[b1 [a|e|]]|] eqn:E1; [| | |discriminate]; intros [= <- _]; exact (Hm _ _ _ E1). Qed.

Create HintDb tame.
#[local] Hint Resolve tame_bind tame_ret tame_err tame_lift tame_get tame_tell tame_confirm tame_secret tame_map_err tame_try : tame.
#[local] Hint Extern 4 (tame (on_card _ _)) => (apply tame_card; discriminate) : tame.
#[local] Hint Extern 4 (tame (if ?c then _ else _)) => destruct c : tame.

Lemma tame_slot slot cn policy pin advice : tame (provision_slot B sign_took slot cn policy pin advice).
Proof.
  unfold provision_slot. apply tame_bind; [apply (tame_card CardError (OpGenerate slot policy)); discriminate|]. intros point.
  apply tame_bind; [|auto with tame]. apply tame_map_err. unfold certify. cbv zeta.
  apply tame_bind; [case_bool_decide; [apply (tame_card _ (OpPin pin)); discriminate|auto with tame]|]. intros u1.
  apply tame_bind; [auto with tame|]. intros u2.
  apply tame_bind; [|intros cert; apply (tame_card _ (OpPut slot)); discriminate].
  unfold build_self_signed_cert. apply tame_bind; [auto with tame|]. intros tbs. apply tame_bind; [|auto with tame].
  intros b b' r. unfold signing. cbn [card_sign_prehash logged_card]. unfold recorded.
  destruct (card_sign_prehash slot EcP256 _ (fst (bn_card b))) as [[k x]|]; [|discriminate]. intros [= <- _].
  split; [reflexivity|]. exists [(OpSign slot, is_ok x)]. split; [reflexivity|]. intros key done [[=]|[]].
Qed.

Lemma tame_attested : tame (check_operator_acts (K := CardLog K) (F := FrontLog F) (X := SinkLog X)).
Proof.
  unfold check_operator_acts. apply tame_bind; [apply (tame_card _ (OpAttested SLOT_SIGNATURE)); discriminate|]. intros attested.
  destruct (operator_act_verdict attested); auto with tame. apply tame_still. now intros b b' r [= <- _].
Qed.

Lemma tame_collect card enter again prompt mismatch : tame (collect_new_secret (K := CardLog K) (F := FrontLog F) (X := SinkLog X) card enter again prompt mismatch).
Proof. unfold collect_new_secret. auto with tame. Qed.

Lemma tame_note escrow : tame (note_unsealed (K := CardLog K) (F := FrontLog F) (X := SinkLog X) escrow).
Proof. unfold note_unsealed. destruct escrow as [[]|]; auto with tame. Qed.

Lemma tame_offer card : tame (offer_seal (K := CardLog K) (F := FrontLog F) (X := SinkLog X) card).
Proof. unfold offer_seal. auto with tame. Qed.
#[local] Hint Resolve tame_slot tame_attested tame_collect tame_note tame_offer : tame.

(** One key is all that is tried. *)
Definition tries (key : bytes) {E A} (kept : A -> Prop) (m : IO E Bn A) : Prop := forall b b' r, m b = Some (b', r) ->
  snd (bn_frontend b') = snd (bn_frontend b) /\
  exists ops, snd (bn_card b') = snd (bn_card b) ++ ops /\ (forall key', key_taken key' ops -> key' = key) /\ forall x, r = Ok x -> ~ kept x.

Lemma tries_set key {A} kept (x : A) (m : IO ProvisionError Bn unit) : tame m -> ~ kept x ->
  tries key kept (do! _ := on_card CardError (recorded (OpMgmtKey key) (card_set_management_key_3des key)) in do! _ := m in io_ret x).
Proof.
  intros Hm Hx b b' r. unfold io_bind, on_card, recorded.
  destruct (card_set_management_key_3des key (fst (bn_card b))) as [[k [u|e|]]|]; cbn [map_err is_ok]; [| | |discriminate].
  - set (b0 := MkBench _ _ _). destruct (m b0) as [[b1 y]|] eqn:E1; [|discriminate]. destruct (Hm _ _ _ E1) as (Hf & ops & Hl & Hno).
    intros Hr. assert (Hb : b1 = b' /\ forall z, r = Ok z -> z = x) by (destruct y; injection Hr as <- <-; split; congruence). destruct Hb as [-> Hz].
    split; [exact Hf|]. exists ((OpMgmtKey key, true) :: ops). split; [rewrite Hl; unfold b0; cbn [bn_card snd]; now rewrite <- app_assoc|].
    split; [|now intros z Hz' ; rewrite (Hz _ Hz')]. intros key' [[= <-]|Hin]; [reflexivity|now apply Hno in Hin].
  - intros [= <- <-]. split; [reflexivity|]. exists [(OpMgmtKey key, false)]. split; [reflexivity|]. split; [intros key' [[=]|[]]|discriminate].
  - intros [= <- <-]. split; [reflexivity|]. exists [(OpMgmtKey key, false)]. split; [reflexivity|]. split; [intros key' [[=]|[]]|discriminate].
Qed.

Lemma tries_quiet key {E A A'} kept (m : IO E Bn A) (k : A -> IO E Bn A') : tame m -> (forall a, tries key kept (k a)) -> tries key kept (io_bind m k).
Proof.
  intros Hm Hk b b' r. unfold io_bind. destruct (m b) as [[b1 [a|e|]]|] eqn:E1; [| | |discriminate];
    destruct (Hm _ _ _ E1) as (Hf & ops & Hl & Hno).
  - intros Hr. destruct (Hk a _ _ _ Hr) as (Hf2 & ops2 & Hl2 & Hall & Hx). split; [congruence|]. exists (ops ++ ops2). rewrite Hl2, Hl, app_assoc.
    split; [reflexivity|]. split; [|exact Hx]. intros key' Hin. apply in_app_or in Hin as [Hin|Hin]; [now apply Hno in Hin|now apply Hall].
  - intros [= <- <-]. split; [exact Hf|]. exists ops. split; [exact Hl|]. split; [intros key' Hin; now apply Hno in Hin|discriminate].
  - intros [= <- <-]. split; [exact Hf|]. exists ops. split; [exact Hl|]. split; [intros key' Hin; now apply Hno in Hin|discriminate].
Qed.

Lemma tries_seal key key_hex : tries key (fun x => x = (None, None))
  (do! sealed := seal_then_rotate key key_hex in io_ret (@None bytes, Some sealed)).
Proof.
  intros b b' r. unfold seal_then_rotate, io_get, tell, io_modify, on_frontend, on_sink, on_card, io_try, io_ret, io_err. unfold io_bind.
  cbn [bn_card bn_sink bn_frontend seal_key rollback commit logged_sink card_set_management_key_3des logged_card pass_name recipients].
  destruct (seal_key _ _) as [x [u|e|]]; cbn [map_err is_ok bn_card bn_sink bn_frontend].
  2,3: (intros [= <- <-]; split; [reflexivity|]; exists []; rewrite app_nil_r; split; [reflexivity|]; split; [intros key' []|discriminate]).
  unfold recorded. destruct (card_set_management_key_3des key _) as [[k [u'|e|]]|]; cbn [map_err is_ok fst snd bn_card bn_sink bn_frontend]; [| | |discriminate];
    intros [= <- <-]; (split; [reflexivity|]); (eexists [_]; split; [reflexivity|]; split; [|discriminate || (intros y [= <-]; discriminate)]);
    intros key' [[= <-]|[]]; reflexivity.
Qed.

Lemma rotate_answers card escrow : answers (fun x => x = (None, None)) (rotate_mgmt_key random_key card escrow).
Proof.
  intros b b' r. unfold rotate_mgmt_key. unfold io_bind at 1. unfold on_frontend at 1, ask_operator. cbn [request_mgmt_key logged_frontend].
  destruct (request_mgmt_key _ (fst (bn_frontend b))) as [f [choice|e|]]; cbn [map_err].
  2,3: (intros [= <- <-]; exists [], []; rewrite !app_nil_r; split; [reflexivity|]; split; [reflexivity|]; intros key []).
  set (b1 := MkBench (bn_card b) (f, snd (bn_frontend b) ++ [choice]) (bn_sink b)).
  assert (Hafter : forall m : IO ProvisionError Bn (option bytes * option SealedKey), m b1 = Some (b', r) ->
     tame m \/ (exists own key, choice = MgmtHex own /\ key_bytes (trim own) = Ok key /\ tries key (fun _ => False) m) \/
     (exists key, choice = MgmtRandom /\ random_key = Some key /\ tries key (fun x => x = (None, None)) m) ->
     exists cs ops, snd (bn_frontend b') = snd (bn_frontend b) ++ cs /\ snd (bn_card b') = snd (bn_card b) ++ ops /\
       forall key, key_taken key ops -> (exists own, cs = [MgmtHex own] /\ key_bytes (trim own) = Ok key) \/
         cs = [MgmtRandom] /\ random_key = Some key /\ forall x, r = Ok x -> x <> (None, None)).
  { intros m Hm Hc. exists [choice]. destruct Hc as [Ht|[(own & key & -> & Hk & Ht)|(key & -> & Hk & Ht)]].
    - destruct (Ht _ _ _ Hm) as (Hf & ops & Hl & Hno). exists ops. do 2 (split; [assumption|]). intros key Hin. now apply Hno in Hin.
    - destruct (Ht _ _ _ Hm) as (Hf & ops & Hl & Hall & _). exists ops. do 2 (split; [assumption|]). intros key' Hin. rewrite (Hall _ Hin). left. eauto.
    - destruct (Ht _ _ _ Hm) as (Hf & ops & Hl & Hall & Hx). exists ops. do 2 (split; [assumption|]). intros key' Hin. rewrite (Hall _ Hin). right. auto. }
  destruct choice as [|own|]; intros Hr.
  - apply (Hafter _ Hr). left. auto with tame.
  - unfold io_bind at 1, io_lift in Hr. destruct (key_bytes (trim own)) as [key|e|] eqn:Hk.
    + apply (Hafter _ Hr). right. left. exists own, key. split; [reflexivity|]. split; [exact Hk|]. apply tries_set; auto with tame.
    + apply (Hafter (io_err e) Hr). left. auto with tame.
    + apply (Hafter (io_lift Panic) Hr). left. auto with tame.
  - destruct random_key as [key|] eqn:Hkey; [|apply (Hafter (io_err _) Hr); left; auto with tame].
    unfold io_bind at 1, io_lift, ok_or in Hr. cbv zeta in Hr.
    apply (Hafter _ Hr). right. right. exists key. split; [reflexivity|]. split; [reflexivity|].
    apply tries_quiet; [destruct escrow as [[]|]; auto with tame|]. intros [|]; [apply tries_seal|].
    apply (tries_set key (fun x => x = (None, None)) (Some (hex_encode_upper key), None) (io_ret tt)); [auto with tame|discriminate].
Qed.

Lemma answers_closing {A} kept (summary : A -> Summary) (m : IO ProvisionError Bn A) : answers kept m -> answers kept (closing summary m).
Proof.
  intros Hm b b' r. unfold closing. destruct (m b) as [[b1 [x|e|]]|] eqn:E1; [| | |discriminate]; intros [= <- <-]; exact (Hm _ _ _ E1).
Qed.

Definition kept_key (o : ProvisionOutcome) : Prop := po_generated_mgmt_key o = None /\ po_sealed_mgmt_key o = None.

Lemma run_answers cfg escrow : answers kept_key (Provision.run B sign_took random_key cfg escrow).
Proof.
  apply answers_closing. unfold run_inner, step. cbv zeta. apply answers_bind; [auto with tame|intros b0]. apply answers_bind; [auto with tame|intros yes].
  destruct (negb yes); [apply tame_answers; auto with tame|]. set (policies := if pc_accepts_policies cfg then _ else _).
  repeat (apply answers_bind; [first [apply (tame_card CardError (OpAdmin DEFAULT_ADMIN_KEY)); discriminate|apply (tame_card CardError (OpPin DEFAULT_PIN)); discriminate
    |apply (tame_card CardError (OpChuid (pc_guid cfg))); discriminate|apply (tame_card CardError (OpChangePin DEFAULT_PIN)); discriminate
    |apply (tame_card CardError (OpChangePuk DEFAULT_PUK)); discriminate|solve [auto with tame]]|intros ?]).
  intros b b' r Hr. unfold io_bind in Hr.
  destruct (rotate_mgmt_key random_key _ escrow b) as [[b2 x]|] eqn:E1; [|discriminate].
  destruct (rotate_answers _ _ _ _ _ E1) as (cs & ops & Hf & Hl & Hall). exists cs, ops.
  assert (Hb : b2 = b' /\ forall o, r = Ok o -> x = Ok (po_generated_mgmt_key o, po_sealed_mgmt_key o))
    by (destruct x as [[g sl]|e|]; injection Hr as <- <-; (split; [reflexivity|]); [now intros o [= <-]|discriminate|discriminate]).
  destruct Hb as [-> Hx]. split; [exact Hf|]. split; [exact Hl|]. intros key Hin. destruct (Hall key Hin) as [Hown|(Hc & Hk & Hno)]; [now left|right].
  split; [exact Hc|]. split; [exact Hk|]. intros o Ho [Hg Hs]. apply (Hno _ (Hx o Ho)). now rewrite Hg, Hs.
Qed.

(** C9 (safety). No management key is lost. When the card took one during [card init], then either the operator, asked for
    the management key once, answered with its 48 hexadecimal digits, or the answer was to generate one, and it is the generated
    one, and then init succeeded and either hands it out or has sealed and committed it, not both; and a generated key
    that was sealed and not rolled back is on the card, unless the card's code panicked. *)
Theorem management_key_is_not_lost cfg escrow (b b' : Bn) r ops sinks said :
  Provision.run B sign_took random_key cfg escrow b = Some (b', r) ->
  snd (bn_card b') = snd (bn_card b) ++ ops -> snd (bn_sink b') = snd (bn_sink b) ++ sinks ->
  snd (bn_frontend b') = snd (bn_frontend b) ++ said ->
  (forall key, key_taken key ops ->
     (exists own, said = [MgmtHex own] /\ lower (trim own) = lower (hex_encode_upper key) /\ len key = 24) \/
     said = [MgmtRandom] /\ random_key = Some key /\ exists o, r = Ok o /\
       (po_generated_mgmt_key o = Some (hex_encode_upper key) /\ po_sealed_mgmt_key o = None /\ sinks = [] \/
        po_generated_mgmt_key o = None /\ is_Some (po_sealed_mgmt_key o) /\ sinks = [SinkSeal (hex_encode_upper key) true; SinkCommit])) /\
  (forall key_hex, In (SinkSeal key_hex true) sinks -> ~ In SinkRollback sinks -> r <> Panic ->
     exists key, key_hex = hex_encode_upper key /\ key_taken key ops).
Proof.
  intros Hr Hops Hsinks Hsaid. destruct (run_answers _ _ _ _ _ Hr) as (cs & cops & Hcs & Hcops & Hans).
  rewrite Hcs in Hsaid. apply app_inv_head in Hsaid as <-. rewrite Hcops in Hops. apply app_inv_head in Hops as <-. rename cops into ops.
  rename Hcops into Hops. unfold key_taken in *. apply closing_inv in Hr as (b1 & Hr & E1 & E2). rewrite E1 in Hops. rewrite E2 in Hsinks.
  destruct (run_records B sign_took random_key cfg escrow b b1 r Hr) as (ops' & sinks' & Hl & Hs & Ha & _).
  rewrite Hl in Hops. apply app_inv_head in Hops as <-. rewrite Hs in Hsinks. apply app_inv_head in Hsinks as <-.
  assert (Hno : forall (ops1 : list (CardOp * bool)) key done, fst <$> ops1 = init_script cfg \/ (fst <$> ops1) `prefix_of` init_script cfg -> ~ In (OpMgmtKey key, done) ops1).
  { intros ops1 key done Hp Hin. assert (Hin' : In (OpMgmtKey key) (init_script cfg)).
    { apply (in_map fst) in Hin. destruct Hp as [<-|[rest ->]]; [exact Hin|apply in_or_app; now left]. }
    unfold init_script, slot_script in Hin'. cbv zeta in Hin'. rewrite !in_app_iff in Hin'. cbn [In] in Hin'.
    repeat match type of Hin' with context [if ?c then [_] else []] => destruct c end; cbn [app In] in Hin'; intuition discriminate. }
  destruct Ha as [([Hp _] & -> & _)|(ops1 & ops2 & -> & [Hp _] & Hf)].
  { split; [intros key Hin; now apply Hno in Hin; [|right]|intros key_hex []]. }
  assert (Hin2 : forall key, In (OpMgmtKey key, true) (ops1 ++ ops2) -> In (OpMgmtKey key, true) ops2).
  { intros key Hin. apply in_app_or in Hin as [Hin|Hin]; [|exact Hin]. now apply Hno in Hin; [|left]. }
  unfold init_fate in Hf. split.
  - intros key Hin. destruct (Hans key Hin) as [(own & -> & Hk)|(-> & Hrand & Hkept)].
    { left. apply key_bytes_inv in Hk as [Hk Hlen]. exists own. split; [reflexivity|]. split; [now apply hex_decode_digits|exact Hlen]. }
    right. split; [reflexivity|]. split; [exact Hrand|]. apply Hin2 in Hin.
    remember (let* o := r in Ok (po_generated_mgmt_key o, po_sealed_mgmt_key o)) as x eqn:Hx.
    destruct Hf; cbn [In] in Hin; try (intuition discriminate); destruct Hin as [[= <-]|[]];
      destruct r as [o|e|]; try discriminate; injection Hx as Hg Hsl; exists o; (split; [reflexivity|]).
    + exfalso. exact (Hkept o eq_refl (conj (eq_sym Hg) (eq_sym Hsl))).
    + left. rewrite <- Hg, <- Hsl. auto.
    + right. rewrite <- Hg, <- Hsl. eauto.
  - intros key_hex Hin Hnr Hnp. remember (let* o := r in Ok (po_generated_mgmt_key o, po_sealed_mgmt_key o)) as x eqn:Hx.
    destruct Hf; cbn [In] in Hin, Hnr; try (intuition discriminate).
    + destruct Hin as [[= <-]|Hin]; [|intuition discriminate]. exists key. split; [reflexivity|]. apply in_or_app. right. now left.
    + destruct r; [discriminate..|now destruct Hnp].
Qed.
End Answers.

(** ** Witnesses *)

(** A card that does what it is told, but takes no other PIN than its own, and changes it only if [K] says so. *)
Record MockCard := MkMock { mock_pin : list Z; mock_changes_pin : bool }.

Definition mock_ok {A} (a : A) : IO PivError MockCard A := io_ret a.

#[local] Instance mock_card : ProvisionCard MockCard := {
  card_serial _ := Some 5;
  card_authenticate_admin _ := mock_ok tt;
  card_verify_pin pin := fun k => Some (k, if bytes_eqb pin (mock_pin k) then Ok tt else Err (PinIncorrect 2));
  card_write_chuid _ := mock_ok tt;
  card_generate_key slot _ _ := mock_ok [0x04; slot];
  card_attested_policy _ := io_ret (Some OPERATOR_ACT);
  card_sign_prehash _ _ digest := mock_ok digest;
  card_put_cert _ _ := mock_ok tt;
  card_change_pin _ new := fun k => Some (if mock_changes_pin k then (MkMock new true, Ok tt) else (k, Err PinBlocked));
  card_change_puk _ _ := mock_ok tt;
  card_set_management_key_3des _ := mock_ok tt;
}.

(** An operator who agrees, wants a generated key and types [123457]. *)
#[local] Instance mock_frontend : Frontend unit := {
  request_secret _ f := (f, Ok (ascii "123457"));
  request_mgmt_key _ f := (f, Ok MgmtRandom);
  confirm _ f := (f, Ok true);
  progress _ f := f;
  completed _ f := f;
}.

#[local] Instance mock_escrow : KeyEscrow unit := {
  pass_name _ := ascii "piv/key";
  recipients _ := [];
  seal_key _ x := (x, Ok tt);
  rollback x := x;
  commit x := x;
}.

Definition mock_builder : CertBuilder := {|
  tbs_certificate point cn := Ok (point ++ cn);
  tbs_digest tbs := take 32 tbs;
  assemble_cert point cn signature := Ok (point ++ cn ++ signature);
|}.

Definition mock_config : ProvisionConfig := MkProvisionConfig slot_policies_default true (repeat 7 16) false.

Definition mock_bench (pin : list Z) (changes : bool) : Bench (CardLog MockCard) unit (SinkLog unit) := MkBench (MkMock pin changes, []) tt (tt, []).

Definition mock_key : option bytes := Some (repeat 3 24).

Abbreviation mock_init escrow := (Provision.run (K := CardLog MockCard) (F := unit) (X := SinkLog unit) mock_builder (fun _ _ => 0) mock_key mock_config escrow).

Definition mock_end (escrow : option bool) : Bench (CardLog MockCard) unit (SinkLog unit) * res ProvisionError ProvisionOutcome :=
  default (mock_bench [] true, Panic) (mock_init escrow (mock_bench DEFAULT_PIN true)).

Lemma mock_runs escrow : mock_init escrow (mock_bench DEFAULT_PIN true) = Some (mock_end escrow).
Proof. destruct escrow as [[]|]; vm_compute; reflexivity. Qed.

Lemma init_is_scripted_witness :
  let (b', r) := mock_end (Some false) in
  exists ops sinks, snd (bn_card b') = ops /\ snd (bn_sink b') = sinks /\ after (init_script mock_config) (init_fate mock_key) ops sinks r.
Proof.
  destruct (init_is_scripted mock_builder (fun _ _ => 0) mock_key mock_config (Some false) (mock_bench DEFAULT_PIN true) _ _
              (eq_trans (mock_runs (Some false)) (f_equal Some (surjective_pairing _)))) as (ops & sinks & Hl & Hs & Ha & _).
  rewrite (surjective_pairing (mock_end (Some false))). exists ops, sinks. auto.
Defined.

(** The same with the operator's answers written down. *)
Definition heard_bench : Bench (CardLog MockCard) (FrontLog unit) (SinkLog unit) := MkBench (MkMock DEFAULT_PIN true, []) (tt, []) (tt, []).

Abbreviation heard_init := (Provision.run (K := CardLog MockCard) (F := FrontLog unit) (X := SinkLog unit) mock_builder (fun _ _ => 0) mock_key mock_config (Some false)).

Definition heard_end : Bench (CardLog MockCard) (FrontLog unit) (SinkLog unit) * res ProvisionError ProvisionOutcome :=
  default (heard_bench, Panic) (heard_init heard_bench).

Lemma heard_runs : heard_init heard_bench = Some (heard_end.1, heard_end.2).
Proof. vm_compute. reflexivity. Qed.

Lemma heard_sealed :
  snd (bn_sink heard_end.1) = [SinkSeal (hex_encode_upper (repeat 3 24)) true; SinkCommit] /\
  In (OpMgmtKey (repeat 3 24), true) (snd (bn_card heard_end.1)) /\ snd (bn_frontend heard_end.1) = [MgmtRandom].
Proof. vm_compute. tauto. Qed.

Lemma management_key_is_not_lost_witness : exists o, heard_end.2 = Ok o /\ is_Some (po_sealed_mgmt_key o).
Proof.
  destruct heard_sealed as (Hsinks & Hin & Hsaid).
  pose proof (management_key_is_not_lost mock_builder (fun _ _ => 0) mock_key mock_config (Some false) heard_bench heard_end.1 heard_end.2
    (snd (bn_card heard_end.1)) (snd (bn_sink heard_end.1)) (snd (bn_frontend heard_end.1)) heard_runs eq_refl eq_refl eq_refl) as Hp.
  revert Hin Hsinks Hsaid Hp. generalize (snd (bn_card heard_end.1)) (snd (bn_sink heard_end.1)) (snd (bn_frontend heard_end.1)) heard_end.2.
  intros ops sinks said r Hin -> -> [Hk _]. destruct (Hk _ Hin) as [(own & [=] & _)|(_ & _ & o & Ho & [(_ & _ & [=])|(_ & Hn & _)])].
  exists o. split; assumption.
Defined.

(** A key for a slot that is free, with a wrong PIN: the slot is not touched. *)
Definition mock_add : AddKeyConfig (F := unit) := MkAddKeyConfig (ascii "0707") SLOT_SIGNATURE OPERATOR_ACT true false false (Some (fun f => (f, Ok (ascii "default")))) Cli.

Abbreviation mock_adding := (add_key (K := CardLog MockCard) (F := unit) (X := SinkLog unit) mock_builder (fun _ _ => 0) mock_add).

Definition mock_added : Bench (CardLog MockCard) unit (SinkLog unit) * res ProvisionError AddKeyOutcome :=
  default (mock_bench [] true, Panic) (mock_adding (mock_bench DEFAULT_PIN true)).

Lemma mock_adds : mock_adding (mock_bench DEFAULT_PIN true) = Some (mock_added.1, mock_added.2).
Proof. vm_compute. reflexivity. Qed.

Lemma mock_refused : mock_added.2 = Err (CardError (PinIncorrect 2)) /\
  snd (bn_card mock_added.1) = [(OpAdmin DEFAULT_ADMIN_KEY, true); (OpPin (ascii "123457"), false)].
Proof. vm_compute. tauto. Qed.

Lemma add_key_touches_one_slot_witness :
  exists ops, snd (bn_card mock_added.1) = snd (bn_card (mock_bench DEFAULT_PIN true)) ++ ops /\
    exists p, began (add_key_script p) ops /\ ap_slot p = SLOT_SIGNATURE.
Proof.
  destruct (add_key_touches_one_slot mock_builder (fun _ _ => 0) mock_add (mock_bench DEFAULT_PIN true) mock_added.1 mock_added.2 mock_adds)
    as (ops & Hl & _ & Hp). exists ops. split; [exact Hl|]. destruct mock_refused as [He Hops].
  assert (Hn : ops <> []) by (intros ->; rewrite Hops in Hl; discriminate Hl).
  destruct (Hp (or_introl Hn)) as (p & f & _ & _ & Hs & _ & Hf & _). exists p. split; [|exact Hs].
  rewrite He in Hf. exact Hf.
Defined.

(** A card that keeps its PIN: the three keys are new, and the error is the card's own, with no word on the state it is in. *)
Example late_failure_is_not_partial :
  let (b', r) := default (mock_bench [] true, Panic) (mock_init None (mock_bench DEFAULT_PIN false)) in
  r = Err (CardError PinBlocked) /\ In (OpGenerate SLOT_SIGNATURE OPERATOR_ACT, true) (snd (bn_card b')).
Proof. vm_compute. tauto. Qed.
