(* ===== verification/CardSetup.v ===== *)
(** * CardSetup: [card init] and [card add-key] on real cards

    [init_cmd.rs] and [add_key_cmd.rs]: the session of [Session] as the card of [Provision], which card is meant, the
    preparation of the escrow, and the two commands from the enumeration of the cards to the end of the session.
    The cards are a world of [AgentCards]; the operator and the store stand beside it on a [Desk]. *)

From Stdlib Require Import ZArith Lia String.
From stdpp Require Import base tactics list numbers.
From S2P Require Import Prelude PivError Guid Utf8 Text Apdu Transport Slot Session Effects Markl Classify AgentCards Provision.

Local Open Scope Z_scope.

(** ** A session as the engine's card *)

Record SessionCard (T : Type) `{ApduTransport T} := MkSessionCard { sc_session : PinSession T; sc_serial : option Z }.
Arguments MkSessionCard {T _}.
Arguments sc_session {T _}.
Arguments sc_serial {T _}.

Section SessionCard.
Context {T : Type} `{ApduTransport T} (fuel : nat) (des : bytes -> bytes -> bytes).

Definition on_session {E A} (m : IO E (PinSession T) A) : IO E (SessionCard T) A :=
  fun c => match m (sc_session c) with
           | Some (s, r) => Some (MkSessionCard s (sc_serial c), r)
           | None => None
           end.

(** [.ok()] *)
Definition io_ok {E F S A} (m : IO E S A) : IO F S (option A) :=
  do! r := io_try m in io_ret (match r with inl a => Some a | inr _ => None end).

Instance session_card : ProvisionCard (SessionCard T) := {|
  card_serial := sc_serial;
  card_authenticate_admin key := on_session (authenticate_admin fuel des key ALG_TDEA_3KEY);
  card_verify_pin pin := on_session (Session.verify_pin fuel (as_bytes pin));
  card_write_chuid guid := on_session (write_chuid fuel guid);
  card_generate_key slot alg policy :=
    on_session (generate_key fuel slot (alg_to_byte alg) (PinPolicy.generate_tag_byte (kp_pin policy))
                  (TouchPolicy.generate_tag_byte (kp_touch policy)));
  card_attested_policy slot := on_session (io_ok (attested_policy fuel slot));
  card_sign_prehash slot alg digest := on_session (sign_prehash_with_alg fuel slot (alg_to_byte alg) digest);
  card_put_cert slot cert := on_session (put_cert fuel slot cert);
  card_change_pin old new := on_session (Session.change_pin fuel (as_bytes old) (as_bytes new));
  card_change_puk old new := on_session (change_puk fuel (as_bytes old) (as_bytes new));
  card_set_management_key_3des key := on_session (set_management_key_3des fuel key);
|}.
End SessionCard.

(** ** Which card *)

Inductive SelectorError : Type := BadGuid (e : PivError) | GuidNotHex | SeveralSelectors.

(** [Guid::from_hex] *)
Definition guid_from_hex (s : list Z) : res SelectorError Guid :=
  let* l := ok_or (hex_decode s) GuidNotHex in map_err BadGuid (guid_from_bytes l).

Definition selector_from_flags (serial : option Z) (guid : option (list Z)) (reader : option bytes) : res SelectorError CardSelector :=
  match serial, guid, reader with
  | None, None, None => Ok SelAuto
  | Some s, None, None => Ok (SelSerial s)
  | None, Some g, None => let* g := guid_from_hex (trim g) in Ok (SelGuid g)
  | None, None, Some r => Ok (SelReader r)
  | _, _, _ => Err SeveralSelectors
  end.

Record CardMeta := MkCardMeta { cm_serial : option Z; cm_guid : Guid; cm_reader : bytes; cm_initialized : bool }.

Definition from_token {T} (k : PivToken T) : CardMeta :=
  MkCardMeta (tok_yk_serial k) (tok_guid k) (tok_reader_name k) (tok_initialized k).

Definition resolve_match (reprovision : bool) (matching : list nat) (what : CardSelector) (candidates : list (Guid * bytes)) : res SelectError nat :=
  match matching with
  | [] => Err (NoMatch reprovision what candidates)
  | [i] => Ok i
  | _ => Err (SeveralMatch reprovision (len matching) what candidates)
  end.

(** The filters of the indices of the cards. *)
Definition indices (p : CardMeta -> bool) (metas : list CardMeta) : list nat :=
  List.filter (fun i => match metas !! i with Some m => p m | None => false end) (seq 0 (length metas)).

Definition eligible (allow_reprovision : bool) (m : CardMeta) : bool := allow_reprovision || negb (cm_initialized m).

Definition selects (selector : CardSelector) (m : CardMeta) : bool :=
  match selector with
  | SelSerial want => bool_decide (cm_serial m = Some want)
  | SelGuid want => bool_decide (cm_guid m = want)
  | SelReader want => bytes_eqb (cm_reader m) want
  | SelAuto => true
  end.

Definition choose_card_index (metas : list CardMeta) (selector : CardSelector) (allow_reprovision : bool) : res SelectError nat :=
  let found := indices (eligible allow_reprovision) metas in
  let candidates := omap (fun i => m ← metas !! i; Some (cm_guid m, cm_reader m)) found in
  match selector with
  | SelAuto =>
      match found with
      | [] => Err (NoCandidate allow_reprovision)
      | [i] => Ok i
      | _ => Err (Ambiguous allow_reprovision (len found) candidates)
      end
  | _ =>
      resolve_match allow_reprovision
        (List.filter (fun i => match metas !! i with Some m => selects selector m | None => false end) found) selector candidates
  end.

(** ** The commands *)

Record AddKeyArgs := MkAddKeyArgs {
  aa_slot : list Z; aa_pin_policy : option (list Z); aa_touch_policy : option (list Z); aa_replace : bool;
  aa_management_key_from_store : option bytes; aa_binding : RequestBinding;
}.

Definition slot_and_policy (a : AddKeyArgs) : res UsageError (Z * KeyPolicy) :=
  let* (slot, default_policy) := add_key_slot (aa_slot a) in
  let* policy := key_policy_from_flags default_policy (aa_pin_policy a) (aa_touch_policy a) in
  Ok (slot, policy).

Record Desk (W F X : Type) := MkDesk { dk_world : W; dk_frontend : F; dk_store : X }.
Arguments MkDesk {W F X}.
Arguments dk_world {W F X}.
Arguments dk_frontend {W F X}.
Arguments dk_store {W F X}.

Section Commands.
Context {W F X : Type} `{CardWorld W} `{Frontend F} `{KeyEscrow X} (fuel : nat) (L : CertLib) (I : X509Lib) (des : bytes -> bytes -> bytes) (B : CertBuilder).

Abbreviation D := (Desk W F X).
Abbreviation Token := (PivToken (card_handle W)).
Abbreviation Card := (SessionCard (W * card_handle W)).

(** [ManagementKeySealer]: the store, with the escrow it resolved for a name; and a stored key, read back with cards and an
    operator of its own. [sign_took], [random_key] as in [Provision]; [random_guid] is [rand_bytes] for the GUID. *)
Context (prepare : bytes -> X -> X * res bytes unit) (recover : bytes -> D -> D * res bytes (list Z)).
Context (sign_took : Card -> Card -> Z) (random_key random_guid : option bytes).

Definition at_world {E A} (m : IO E W A) : IO E D A :=
  fun d => match m (dk_world d) with
           | Some (w, r) => Some (MkDesk w (dk_frontend d) (dk_store d), r)
           | None => None
           end.

Definition with_frontend (f : F) (d : D) : D := MkDesk (dk_world d) f (dk_store d).
Definition with_world (g : W -> W) (d : D) : D := MkDesk (g (dk_world d)) (dk_frontend d) (dk_store d).

#[local] Instance desk_frontend : Frontend D := {|
  request_secret q d := let (f, r) := request_secret q (dk_frontend d) in (with_frontend f d, r);
  request_mgmt_key q d := let (f, r) := request_mgmt_key q (dk_frontend d) in (with_frontend f d, r);
  confirm q d := let (f, r) := confirm q (dk_frontend d) in (with_frontend f d, r);
  progress ev d := with_frontend (progress ev (dk_frontend d)) d;
  completed ev d := with_frontend (completed ev (dk_frontend d)) d;
|}.

Definition setup {A} (f : PivError -> SetupError) (m : IO PivError W A) : IO ProvisionError D A := at_world (io_map_err (fun e => Setup (f e)) m).

(** [tokens.into_iter().nth(idx).unwrap()]: the tokens around the one are dropped. *)
Definition take_nth (tokens : list Token) (idx : nat) : IO ProvisionError D Token :=
  do! _ := io_modify (with_world (drop_tokens (take idx tokens ++ drop (S idx) tokens))) in
  match tokens !! idx with
  | Some k => io_ret k
  | None => io_lift Panic
  end.

Definition select_card_for_provision (tokens : list Token) (selector : CardSelector) (allow_reprovision : bool) : IO ProvisionError D Token :=
  match choose_card_index (from_token <$> tokens) selector allow_reprovision with
  | Ok idx => take_nth tokens idx
  | Err e => do! _ := io_modify (with_world (drop_tokens tokens)) in io_err (Setup (Select e))
  | Panic => io_lift Panic
  end.

Definition select_provisioned_card (selector : CardSelector) : IO ProvisionError D Token :=
  do! _ := setup PcscSetup new_context in
  do! tokens := setup EnumerateSetup (enumerate_tokens fuel) in
  match tokens with
  | [] => io_err (Setup (Select NoProvisionedCard))
  | _ => select_card_for_provision tokens selector true
  end.

Definition accepts_policies (k : Token) : IO ProvisionError W bool :=
  do! version := io_ok (on_token k (read_ykpiv_version fuel)) in
  io_ret (match version with Some (Some _) => true | _ => false end).

(** The engine in a session of its own on the card. *)
Definition with_session {A} (k : Token) (m : IO ProvisionError (Bench Card F X) A) : IO ProvisionError D A :=
  do! s := setup SessionOpen (open_session fuel k) in
  fun d =>
    match m (MkBench (MkSessionCard (@MkSession _ world_transport (dk_world d, os_handle s) (os_verified s)) (tok_yk_serial k)) (dk_frontend d) (dk_store d)) with
    | Some (b, r) => Some (MkDesk (fst (drop_session (sc_session (bn_card b)))) (bn_frontend b) (bn_sink b), r)
    | None => None
    end.

(** *** [card init] *)

Definition current_9d_recipient (k : Token) : IO ProvisionError D (option Id) :=
  do! slot := at_world (io_ok (on_token k (read_slot_on fuel L 0x9D))) in
  match slot with
  | None => io_ret None
  | Some slot =>
      do! c := io_lift (map_err (Empty_set_rect _) (classify_slot_9d I (tok_guid k) (tok_reader_name k) (tok_yk_serial k) (slot_algorithm slot) (slot_cert_der slot))) in
      io_ret (match c with Supported id _ _ _ _ _ _ _ _ => Some id | _ => None end)
  end.

(** The escrow for a name, checked; the value is the warning. *)
Definition prepare_checked (pass_name : bytes) (destroyed_9d : IO ProvisionError D (option Id)) : IO (ProvisionError + SealRefusal) D bool :=
  do! _ := (fun d => let (x, r) := prepare pass_name (dk_store d) in
                     Some (MkDesk (dk_world d) (dk_frontend d) x, map_err (fun m => inr (StoreRefuses m)) r)) in
  do! doomed := io_map_err inl destroyed_9d in
  do! d := io_get in
  io_lift (map_err (fun e => inr (EscrowRefused e)) (check_escrow_recipients (recipients (dk_store d)) doomed)).

(** Whether there is an escrow. *)
Definition prepare_named (pass_name : bytes) (required : bool) (destroyed_9d : IO ProvisionError D (option Id)) : IO ProvisionError D bool :=
  do! prepared := io_try (prepare_checked pass_name destroyed_9d) in
  match prepared with
  | inl warning =>
      do! _ := (if warning : bool then io_modify (progress (notice "seal-warning" None DoomedRecipient)) else io_ret tt) in
      io_ret true
  | inr (inr e) => if required then io_err (Setup (CannotSeal pass_name e)) else io_ret false
  | inr (inl e) => io_err e
  end.

Definition prepare_escrow (mode : SealMode) (guid_hex : bytes) (destroyed_9d : IO ProvisionError D (option Id)) : IO ProvisionError D bool :=
  match mode with
  | SealNever => io_ret false
  | SealOffer => prepare_named (default_pass_name guid_hex) false destroyed_9d
  | SealAlways name => prepare_named (default (default_pass_name guid_hex) name) true destroyed_9d
  end.

Definition provision_with_frontend (selector : CardSelector) (allow_reprovision : bool) (policies : SlotPolicies) (mode : SealMode)
    : IO ProvisionError D ProvisionOutcome :=
  do! _ := setup PcscSetup new_context in
  do! tokens := setup EnumerateSetup (enumerate_tokens_including_uninitialized fuel) in
  do! token := select_card_for_provision tokens selector allow_reprovision in
  io_finally
    (let reprovision := tok_initialized token in
     do! accepts := at_world (accepts_policies token) in
     do! guid := io_lift (ok_or random_guid (Setup RngSetup)) in
     do! escrow := prepare_escrow mode (hex_encode_upper guid) (if reprovision then current_9d_recipient token else io_ret None) in
     let ask := match mode with SealOffer => true | _ => false end in
     with_session token
       (run (H := session_card fuel des) B sign_took random_key (MkProvisionConfig policies accepts guid reprovision) (if escrow then Some ask else None)))
    (with_world (drop_token token)).

(** *** [card add-key] *)

(** Whether the slot holds a key: whether it has a certificate. *)
Definition slot_occupied (k : Token) (slot : Z) : IO ProvisionError D bool :=
  do! r := at_world (io_try (on_token k (read_slot_on fuel L slot))) in
  match r with
  | inl _ => io_ret true
  | inr (SlotEmpty _) => io_ret false
  | inr e => io_err (Setup (OccupiedUnknown slot e))
  end.

(** Where the management key is read from, when it is called. *)
Definition stored_key (guid_hex name : bytes) : D -> D * res bytes (list Z) :=
  let pass_name := match name with [] => default_pass_name guid_hex | _ => name end in
  fun d =>
    let (d, r) := recover pass_name d in
    (d, map_err (fun e => ascii "cannot read the management key from " ++ pass_name ++ ascii " in the password store: " ++ e) r).

Definition report_add_key (m : IO ProvisionError D AddKeyOutcome) : IO ProvisionError D AddKeyOutcome :=
  fun d => match m d with
           | Some (d, Ok x) => Some (completed (CompletedOk (add_key_summary x)) d, Ok x)
           | Some (d, Err e) => Some (completed (CompletedError e) d, Err e)
           | r => r
           end.

Definition add_key_with_frontend (selector : CardSelector) (args : AddKeyArgs) : IO ProvisionError D AddKeyOutcome :=
  do! (slot, policy) := io_lift (map_err (fun e => Setup (Usage e)) (slot_and_policy args)) in
  do! token := select_provisioned_card selector in
  io_finally
    (do! accepts := at_world (accepts_policies token) in
     do! occupied := slot_occupied token slot in
     let cfg := MkAddKeyConfig (F := D) (to_hex (tok_guid token)) slot policy accepts occupied (aa_replace args)
                  (stored_key (to_hex (tok_guid token)) <$> aa_management_key_from_store args) (aa_binding args) in
     report_add_key
       (do! plan := plan_add_key (tok_yk_serial token) cfg in
        with_session token (apply_add_key (H := session_card fuel des) B sign_took plan)))
    (with_world (drop_token token)).
End Commands.

(** ** Lemmas *)

Lemma elem_of_indices p metas i : In i (indices p metas) <-> exists m, metas !! i = Some m /\ p m = true.
Proof.
  unfold indices. rewrite filter_In, in_seq. split.
  - intros [_ Hp]. destruct (metas !! i) as [m|]; [eauto|discriminate].
  - intros (m & Hm & Hp). rewrite Hm. split; [|exact Hp]. apply lookup_lt_Some in Hm. lia.
Qed.

Lemma nodup_indices p metas : List.NoDup (indices p metas).
Proof. apply List.NoDup_filter, seq_NoDup. Qed.

(** A list without repetition has one element exactly when it has one. *)
Lemma singleton_iff {A} (l : list A) i : List.NoDup l -> (l = [i] <-> In i l /\ forall j, In j l -> j = i).
Proof.
  intros Hn. split; [intros ->; split; [now left|intros j [->|[]]; reflexivity]|]. intros [Hi Hall].
  destruct l as [|a [|b l]]; [destruct Hi|now rewrite (Hall a) by now left|].
  inversion Hn as [|? ? Ha _]; subst. destruct Ha. rewrite (Hall a), (Hall b) by (simpl; auto). now left.
Qed.

(** The cards that are eligible and that the selector names. *)
Lemma chosen_among metas selector allow i :
  In i (List.filter (fun i => match metas !! i with Some m => selects selector m | None => false end) (indices (eligible allow) metas))
  <-> exists m, metas !! i = Some m /\ eligible allow m = true /\ selects selector m = true.
Proof.
  rewrite filter_In, elem_of_indices. split.
  - intros [(m & Hm & He) Hs]. rewrite Hm in Hs. eauto.
  - intros (m & Hm & He & Hs). rewrite Hm. eauto.
Qed.

Lemma resolve_match_Ok allow matching what candidates i : resolve_match allow matching what candidates = Ok i <-> matching = [i].
Proof. destruct matching as [|a [|b l]]; cbn; split; try discriminate; congruence. Qed.

Lemma filter_all {A} (p : A -> bool) (l : list A) : (forall x, In x l -> p x = true) -> List.filter p l = l.
Proof.
  induction l as [|a l IH]; intros Hp; [reflexivity|]. cbn. rewrite (Hp a) by now left. f_equal. apply IH. intros x Hx. apply Hp. now right.
Qed.

Lemma choose_is_match metas selector allow i :
  choose_card_index metas selector allow = Ok i <->
  List.filter (fun i => match metas !! i with Some m => selects selector m | None => false end) (indices (eligible allow) metas) = [i].
Proof.
  unfold choose_card_index. cbv zeta. destruct selector; try apply resolve_match_Ok.
  rewrite filter_all.
  - destruct (indices (eligible allow) metas) as [|a [|b l]]; split; try discriminate; congruence.
  - intros j Hj. apply elem_of_indices in Hj as (m & -> & _). reflexivity.
Qed.

(** *** Seals *)

Section Seals.
Context {K F X : Type} `{ProvisionCard K} `{Frontend F} `{KeyEscrow X} (B : CertBuilder) (sign_took : K -> K -> Z) (random_key : option bytes).

(** What becomes of a key, by whether there is an escrow and whether it asks. *)
Definition seal_kept (escrow : option bool) (generated : option bytes) (sealed : option SealedKey) : Prop :=
  (escrow = None -> sealed = None) /\ (escrow = Some false -> generated = None).

Lemma rotate_kept card escrow (b b' : Bench K F X) generated sealed :
  rotate_mgmt_key random_key card escrow b = Some (b', Ok (generated, sealed)) -> seal_kept escrow generated sealed.
Proof.
  intros Hr. unfold rotate_mgmt_key in Hr. bind_inv Hr as b1 choice H1'. unfold seal_kept. destruct choice.
  1,2: repeat (let b2 := fresh "b" in let u := fresh in let Hu := fresh in bind_inv Hr as b2 u Hu); injection Hr as <- <- <-; auto.
  bind_inv Hr as b2 key H2'. bind_inv Hr as b3 sealing H3'. destruct sealing.
  - bind_inv Hr as b4 k H4'. injection Hr as <- <- <-. split; [intros ->; discriminate|reflexivity].
  - bind_inv Hr as b4 u H4'. injection Hr as <- <- <-. split; [reflexivity|]. intros ->. discriminate.
Qed.

Lemma run_kept cfg escrow (b b' : Bench K F X) o :
  run B sign_took random_key cfg escrow b = Some (b', Ok o) -> seal_kept escrow (po_generated_mgmt_key o) (po_sealed_mgmt_key o).
Proof.
  unfold run, closing. intros Hr. destruct (run_inner _ _ _ _ _ b) as [[b1 [x|e|]]|] eqn:Hi; try discriminate. injection Hr as _ <-.
  unfold run_inner in Hi. cbv zeta in Hi. bind_inv Hi as b2 s H2'. bind_inv Hi as b3 proceed H3'. destruct (negb proceed); [discriminate|].
  repeat match type of Hi with io_bind (rotate_mgmt_key _ _ _) _ _ = _ => fail 1 | _ =>
    let b4 := fresh "b" in let u := fresh in let Hu := fresh in bind_inv Hi as b4 u Hu end.
  bind_inv Hi as bn [generated sealed] Hrot. pure_inv Hi. exact (rotate_kept _ _ _ _ _ _ Hrot).
Qed.
End Seals.

Lemma forallb_exists_false {A} (p : A -> bool) l : forallb p l = false -> exists x, In x l /\ p x = false.
Proof.
  induction l as [|a l IH]; cbn; [discriminate|]. destruct (p a) eqn:Ha; cbn; [|exists a; auto].
  intros Hl. destruct (IH Hl) as (x & Hx & Hp). exists x. auto.
Qed.

(** A recipient is another key: of another format or with other data. *)
Definition another_key (r key : Id) : Prop := id_format r <> id_format key \/ id_data r <> id_data key.

Lemma same_key_false r key : same_key r key = false -> another_key r key.
Proof.
  unfold same_key, another_key, bytes_eqb. do 2 case_bool_decide; cbn; try discriminate; auto.
Qed.

(** The recipients keep a reader when the doomed key is gone. *)
Lemma checked_recipients rs doomed warning :
  check_escrow_recipients rs doomed = Ok warning -> exists r, In r rs /\ forall k, doomed = Some k -> another_key r k.
Proof.
  unfold check_escrow_recipients. destruct rs as [|r rs]; [discriminate|]. destruct doomed as [k|]; [|intros _; exists r; split; [now left|discriminate]].
  destruct (existsb _ (r :: rs)) eqn:He; cbn [negb].
  - destruct (forallb _ (r :: rs)) eqn:Ha; [discriminate|]. intros _. destruct (forallb_exists_false _ _ Ha) as (x & Hx & Hk).
    exists x. split; [exact Hx|]. intros k' [= <-]. now apply same_key_false.
  - intros _. exists r. split; [now left|]. intros k' [= <-]. cbn in He. apply orb_false_iff in He as [He _]. now apply same_key_false.
Qed.

(** ** Properties *)

(** Which card is set up. A card is chosen exactly when it is the only one that is eligible - blank, unless
    reprovisioning was asked for - and that the selector names; nothing else is ever chosen for it, and the choice does not panic. *)
Theorem only_match_is_chosen metas selector allow :
  (forall i, choose_card_index metas selector allow = Ok i <->
     (exists m, metas !! i = Some m /\ eligible allow m = true /\ selects selector m = true) /\
     forall j m, metas !! j = Some m -> eligible allow m = true -> selects selector m = true -> j = i) /\
  choose_card_index metas selector allow <> Panic.
Proof.
  split.
  - intros i. rewrite choose_is_match, singleton_iff by (apply List.NoDup_filter, nodup_indices). rewrite chosen_among.
    split; intros [H1 H2]; (split; [exact H1|]).
    + intros j m Hm He Hs. apply H2. apply chosen_among. eauto.
    + intros j Hj. apply chosen_among in Hj as (m & Hm & He & Hs). eauto.
  - unfold choose_card_index, resolve_match. cbv zeta. destruct selector; repeat case_match; discriminate.
Qed.

Section Sealed.
Context {W F X : Type} `{CardWorld W} `{Frontend F} `{KeyEscrow X} (fuel : nat) (L : CertLib) (I : X509Lib) (des : bytes -> bytes -> bytes) (B : CertBuilder).
Context (prepare : bytes -> X -> X * res bytes unit).
Context (sign_took : SessionCard (W * card_handle W) -> SessionCard (W * card_handle W) -> Z) (random_key random_guid : option bytes).

Abbreviation D := (Desk W F X).

(** The escrow that the store resolves for [name], in the state [d], has a reader that is not the key that [doomed] gives right after; [d'] is
    the state after that, but for what the operator is told. *)
Definition escrow_readable (name : bytes) (doomed : IO ProvisionError D (option Id)) (d d' : D) : Prop :=
  exists x d1 k r, prepare name (dk_store d) = (x, Ok tt) /\ doomed (MkDesk (dk_world d) (dk_frontend d) x) = Some (d1, Ok k) /\
    In r (recipients (dk_store d1)) /\ (forall key, k = Some key -> another_key r key) /\
    dk_world d' = dk_world d1 /\ dk_store d' = dk_store d1.

Lemma prepare_named_inv name required doomed (d d' : D) b :
  prepare_named prepare name required doomed d = Some (d', Ok b) -> (b = true -> escrow_readable name doomed d d') /\ (required = true -> b = true).
Proof.
  intros Hp. unfold prepare_named in Hp. bind_inv Hp as d1 prepared H1'. destruct prepared as [warning|[e|e]]; [|discriminate|].
  2: { destruct required; [discriminate|]. pure_inv Hp. split; discriminate. }
  bind_inv Hp as d2 u H2'. pure_inv Hp. split; [intros _|auto]. pure_inv H1'. unfold prepare_checked in H1'.
  bind_inv H1' as d3 u3 H3'. destruct (prepare name (dk_store d)) as [x [[]|e|]] eqn:Hx; try discriminate. injection H3' as <- <-.
  bind_inv H1' as d4 k H4'. pure_inv H4'. bind_inv H1' as d5 d6 H5'. injection H5' as -> <-. pure_inv H1'.
  destruct (checked_recipients _ _ _ H1') as (r & Hr & Hk). exists x, d5, k, r. do 4 (split; [assumption|]).
  destruct warning; injection H2' as <- _; auto.
Qed.

(** The name that the escrow goes by. *)
Definition escrow_name (mode : SealMode) (guid_hex name : bytes) : Prop :=
  match mode with
  | SealNever => False
  | SealAlways (Some given) => name = given
  | _ => name = ascii "piv/" ++ guid_hex ++ ascii "/management-key"
  end.

Lemma prepare_escrow_inv mode guid doomed (d d' : D) b :
  prepare_escrow prepare mode guid doomed d = Some (d', Ok b) ->
  (b = true -> exists name, escrow_name mode guid name /\ escrow_readable name doomed d d') /\
  (mode = SealNever -> b = false) /\ (forall name, mode = SealAlways name -> b = true).
Proof.
  destruct mode as [| |name]; cbn [prepare_escrow]; intros Hp.
  - pure_inv Hp. split; [discriminate|]. split; [reflexivity|discriminate].
  - destruct (prepare_named_inv _ _ _ _ _ _ Hp) as [H1' _]. split; [intros Hb; eexists; split; [reflexivity|exact (H1' Hb)]|]. split; discriminate.
  - destruct (prepare_named_inv _ _ _ _ _ _ Hp) as [H1' H2']. split; [|split; [discriminate|auto]].
    intros Hb. eexists. split; [|exact (H1' Hb)]. now destruct name.
Qed.

(** C11 (safety). The management key of [card init] in the store. With a seal required, the command returns an outcome only with
    the generated key out of sight; with none wanted, nothing is sealed; and a key is sealed only after this run: the cards were
    enumerated and one selected, the store resolved an escrow for the name that the mode says, and of its recipients at least one is another
    key than the card's own 9D key, as it was then read from the card - a reprovision destroys that one; a blank card, and one whose
    9D slot cannot be read or holds no key of a supported kind, has no such key. Only after that is the session opened in which the card is changed. *)
Theorem sealed_key_has_a_reader selector allow policies mode (d d' : D) o :
  provision_with_frontend fuel L I des B prepare sign_took random_key random_guid selector allow policies mode d = Some (d', Ok o) ->
  (mode = SealNever -> po_sealed_mgmt_key o = None) /\
  (forall name, mode = SealAlways name -> po_generated_mgmt_key o = None) /\
  (is_Some (po_sealed_mgmt_key o) ->
   exists (d1 d2 d3 d4 d5 d6 : D) session tokens token accepts guid name,
     setup PcscSetup new_context d = Some (d1, Ok tt) /\
     setup EnumerateSetup (enumerate_tokens_including_uninitialized fuel) d1 = Some (d2, Ok tokens) /\
     select_card_for_provision tokens selector allow d2 = Some (d3, Ok token) /\
     at_world (accepts_policies fuel token) d3 = Some (d4, Ok accepts) /\
     random_guid = Some guid /\ escrow_name mode (hex_encode_upper guid) name /\
     escrow_readable name (if tok_initialized token then current_9d_recipient fuel L I token else io_ret None) d4 d5 /\
     setup SessionOpen (open_session fuel token) d5 = Some (d6, Ok session)).
Proof.
  intros Hp. unfold provision_with_frontend in Hp. bind_inv Hp as d1 u1 H1'. bind_inv Hp as d2 tokens H2'. bind_inv Hp as d3 token H3'.
  apply io_finally_inv in Hp as (d4 & Hp & _). cbv zeta in Hp. bind_inv Hp as d5 accepts H5'. bind_inv Hp as d6 guid H6'. bind_inv Hp as d7 escrow H7'.
  unfold with_session in Hp. bind_inv Hp as d8 s H8'. destruct (run _ _ _ _ _ _) as [[b r]|] eqn:Hr; [|discriminate]. injection Hp as _ ->.
  apply run_kept in Hr as [Hn Hf]. destruct (prepare_escrow_inv _ _ _ _ _ _ H7') as (Hread & Hnever & Halways).
  split; [intros Hm; rewrite (Hnever Hm) in Hn; auto|]. split; [intros name Hm; rewrite (Halways name Hm), Hm in Hf; auto|].
  intros [k Hk]. destruct escrow; [|rewrite Hn in Hk; [discriminate|reflexivity]]. destruct (Hread eq_refl) as (name & Hname & Her).
  pure_inv H6'. destruct u1. eexists d1, d2, d3, _, d7, d8, s, tokens, token, accepts, guid, name.
  repeat (split; [first [eassumption|reflexivity]|]). eassumption.
Qed.

(** A card that refuses to read the certificate, for whatever reason, has a free slot for [card add-key]. *)
Lemma unread_slot_is_free (k : PivToken (card_handle W)) slot tag a (d : D) k' data sw :
  slot_to_cert_tag slot = Some tag -> apdu_get_data tag = Ok a ->
  Session.transmit (H := token_raw) fuel a (attach (dk_world d) k) = Some (k', Ok (data, sw)) -> is_success sw = false ->
  slot_occupied fuel L k slot d = Some (MkDesk (fst (tok_transport k')) (dk_frontend d) (dk_store d), Ok false).
Proof.
  intros Ht Ha Hr Hsw. unfold slot_occupied, at_world, on_token, read_slot_on, io_try, io_bind, io_lift. rewrite Ht. cbn [ok_or]. rewrite Ha, Hr, Hsw.
  reflexivity.
Qed.
End Sealed.
