(* ===== verification/CardInit.v ===== *)
(** * CardInit: [card init] against the card, end to end

    The engine of [Provision] in a session of [CardSetup] on the virtual card of [HostCard]: what a command can change of a
    card's identity and secrets, instruction by instruction, and the card that a whole [card init] leaves. *)

From Stdlib Require Import ZArith Lia String.
From stdpp Require Import base tactics list numbers gmap strings.
From S2P Require Import Prelude PivError Utf8 Text Tlv Apdu CardTlv CardState PinSpec Card CardPin CardSafe.
From S2P Require Import Transport Walk Slot Session Effects HostCard HostObjects HostEcdh Markl Classify AgentCards Provision CardSetup.

Local Open Scope Z_scope.

(** ** What an instruction can change *)

Section Frame.
Context {K : CardCrypto}.
Implicit Type c : VirtualCard K.

(** The applet, the objects and the management key. *)
Definition outside c := (vc_faults c, vc_selected_piv c, vc_data_objects c, vc_mgmt_key c).

Lemma install_outside c slot p pol o c' : install_slot_key c slot p pol o = Ok c' -> outside c' = outside c.
Proof. unfold install_slot_key. intros H. run_cases; reflexivity. Qed.

Lemma gate_outside now c slot pass c' : pass_touch_gate now c slot = (pass, c') -> outside c' = outside c.
Proof. unfold pass_touch_gate. intros H. run_cases; reflexivity. Qed.

Lemma consume_outside c p : outside (consume_verify c p) = outside c.
Proof. unfold consume_verify. now case_match. Qed.

Ltac outside_tac :=
  intros resp c' H; run_cases; rewrite ?consume_outside;
  repeat match goal with
  | H : pass_touch_gate _ _ _ = _ |- _ => apply gate_outside in H
  | H : install_slot_key _ _ _ _ _ = Ok _ |- _ => apply install_outside in H
  end; first [reflexivity | assumption].

Lemma handlers_outside now c :
  (forall apdu, gives (handle_get_data c apdu) (fun _ c' => outside c' = outside c)) /\
  (forall body, gives (handle_verify c body) (fun _ c' => outside c' = outside c)) /\
  (forall p body, gives (handle_change_reference_data c p body) (fun _ c' => outside c' = outside c)) /\
  (forall body, gives (handle_reset_retry_counter c body) (fun _ c' => outside c' = outside c)) /\
  (forall slot, gives (handle_attest c slot) (fun _ c' => outside c' = outside c)) /\
  (forall slot, gives (handle_get_metadata c slot) (fun _ c' => outside c' = outside c)) /\
  (forall slot body, gives (handle_generate_asymmetric c slot body) (fun _ c' => outside c' = outside c)) /\
  (forall alg slot body, gives (handle_import_asymmetric c alg slot body) (fun _ c' => outside c' = outside c)) /\
  (forall body, gives (handle_general_authenticate_mgmt_key c body) (fun _ c' => outside c' = outside c)) /\
  (forall body, gives (handle_general_authenticate_ecdh_slot_9d now c body) (fun _ c' => outside c' = outside c)) /\
  (forall slot body, gives (sign_ecdsa_slot now c body slot) (fun _ c' => outside c' = outside c)).
Proof.
  repeat match goal with |- _ /\ _ => split end; intros;
  [ unfold handle_get_data | unfold handle_verify | unfold handle_change_reference_data | unfold handle_reset_retry_counter
  | unfold handle_attest | unfold handle_get_metadata | unfold handle_generate_asymmetric | unfold handle_import_asymmetric
  | unfold handle_general_authenticate_mgmt_key | unfold handle_general_authenticate_ecdh_slot_9d | unfold sign_ecdsa_slot ]; outside_tac.
Qed.

(** The objects change by PUT DATA, the management key by its own command, both by a factory reset, the applet by SELECT. *)
Definition framed (i : Z) c c' : Prop :=
  vc_faults c' = vc_faults c /\ (i <> Ins.SELECT -> vc_selected_piv c' = vc_selected_piv c) /\
  (i <> Ins.PUT_DATA -> i <> Ins.YK_RESET -> vc_data_objects c' = vc_data_objects c) /\
  (i <> Ins.SET_MGMT_KEY -> i <> Ins.YK_RESET -> vc_mgmt_key c' = vc_mgmt_key c).

Lemma outside_framed i c c' : outside c' = outside c -> framed i c c'.
Proof. intros [= H1 H2 H3 H4]. now repeat split. Qed.

Lemma dispatch_command_framed now c apdu i :
  vc_faults c = [] -> apdu !! 1%nat = Some i -> gives (dispatch_command now c apdu) (fun _ c' => framed i c c').
Proof.
  intros Hf Hi resp c' H. unfold dispatch_command in H.
  destruct (len apdu <? 4) eqn:Hlen; [injection H as _ <-; now apply outside_framed|]. apply Z.ltb_ge in Hlen.
  apply res_bind_Ok_inv in H as (cla & Hcla & H). apply res_bind_Ok_inv in H as (ins & Hins & H).
  apply res_bind_Ok_inv in H as (p1 & Hp1 & H). apply res_bind_Ok_inv in H as (p2 & Hp2 & H).
  pose proof (header apdu cla ins p1 p2 Hlen Hcla Hins Hp1 Hp2) as Hh. clear Hcla Hins Hp1 Hp2.
  rewrite <- (lookup_take_lt apdu 4 1) in Hi by lia. rewrite Hh in Hi. injection Hi as ->.
  rewrite take_no_fault in H by exact Hf.
  repeat match type of H with
  | (if ?b then _ else _) = _ => destruct b eqn:?
  | res_bind (apdu_body _) _ = _ => apply res_bind_Ok_inv in H as (body & _ & H)
  | res_bind _ _ = _ => apply res_bind_Ok_inv in H as (sign & _ & H)
  | match ?x with Some _ => _ | None => _ end = _ => destruct x
  end;
  try (destruct (handlers_outside now c) as (H1 & H2 & H3 & H4 & H5 & H6 & H7 & H8 & H9 & H10 & H11); apply outside_framed;
   first [ injection H as _ <-; reflexivity | eapply H1; exact H | eapply H2; exact H | eapply H3; exact H | eapply H4; exact H | eapply H5; exact H
         | eapply H6; exact H | eapply H7; exact H | eapply H8; exact H | eapply H9; exact H | eapply H10; exact H | eapply H11; exact H ]);
  bprop; subst.
  - unfold handle_select in H. run_cases; repeat split; congruence.
  - unfold handle_put_data in H. run_cases; repeat split; congruence.
  - unfold handle_factory_reset in H. run_cases; repeat split; congruence.
  - unfold handle_set_mgmt_key in H. run_cases; repeat split; congruence.
Qed.

Lemma transmit_framed now c a resp c' :
  vc_faults c = [] -> Card.transmit now c (apdu_to_bytes a) = Ok (resp, c') -> framed (ins a) c c'.
Proof.
  intros Hf Ht. destruct (transmit_inv now c _ resp c' Ht) as [[_ ->]|(c2 & Hd & Hc)]; [now apply outside_framed|].
  apply (dispatch_command_framed now (set_touch_blocked None c) _ (ins a) Hf) in Hd; [destruct Hc as [-> | ->]; exact Hd|].
  rewrite <- (lookup_take_lt _ 4 1), apdu_to_bytes_header by lia. reflexivity.
Qed.
End Frame.

(** ** What an operation of a session keeps *)

Section Kept.
Context {K : CardCrypto} (tick : Z -> Z) (fuel : nat) (des : bytes -> bytes -> bytes).
Implicit Type c : VirtualCard K.
Implicit Type s : @PinSession (@Link K) (link_transport tick).

(** The applet is selected, no fault is queued, and [P]. *)
Definition good (P : VirtualCard K -> Prop) s : Prop := applet_ok (card_of tick s) /\ P (card_of tick s).

Definition stable (P : VirtualCard K -> Prop) (a : Apdu) : Prop :=
  forall now c resp c', applet_ok c -> P c -> Card.transmit now c (apdu_to_bytes a) = Ok (resp, c') -> applet_ok c' /\ P c'.

(** Only the instructions of [bad] can change [P]. *)
Definition outlives (bad : list Z) (P : VirtualCard K -> Prop) : Prop := forall a, ~ In (ins a) bad -> stable P a.

Lemma keeps_stable (P : VirtualCard K -> Prop) a : stable P a -> keeps (good P) (Session.transmit fuel a).
Proof.
  intros Hst s [Ha HP] s' r Hr. destruct (transmit_one tick fuel a s (proj1 Ha)) as (s1 & r1 & Hr1 & _ & Hcase).
  rewrite Hr1 in Hr. injection Hr as <- <-. destruct Hcase as [Hc|(now & resp & Ht)].
  - unfold good. now rewrite Hc.
  - exact (Hst now _ resp _ Ha HP Ht).
Qed.

(** What the answer says is what the card said. *)
Lemma transmit_answer a s s' d sw :
  applet_ok (card_of tick s) -> Session.transmit fuel a s = Some (s', Ok (d, sw)) ->
  exists now, Card.transmit now (card_of tick s) (apdu_to_bytes a) = Ok (d ++ sw_bytes (sw1 sw) (sw2 sw), card_of tick s').
Proof.
  intros Ha Hr. exists (tick (lk_now (ps_session s))).
  destruct (Card.transmit (tick (lk_now (ps_session s))) (card_of tick s) (apdu_to_bytes a)) as [[resp c]|[]|] eqn:Ht.
  - destruct (transmit_plain _ _ _ (proj1 Ha) resp c Ht) as [(e & x & y & -> & Hx) _].
    rewrite (exchange tick fuel s a e x y c Ht Hx) in Hr. injection Hr as <- <- <-. reflexivity.
  - exfalso. unfold Session.transmit, transmit_on, io_bind at 1 in Hr. rewrite raw_session_eq in Hr. cbv zeta in Hr. rewrite Ht in Hr. discriminate.
Qed.

(** *** The operations of [card init] *)

Context (P : VirtualCard K -> Prop) (bad : list Z) (Hout : outlives bad P).

Ltac kept_tac :=
  repeat first
    [ solve [eauto 2 with keeps]
    | match goal with |- keeps _ (Session.transmit _ _) => apply keeps_stable, Hout; assumption end
    | match goal with |- keeps _ (io_bind _ _) => apply keeps_bind; [|intros ?] end
    | match goal with |- keeps _ (let '(_, _) := ?x in _) => destruct x end
    | match goal with |- keeps _ (if ?b then _ else _) => destruct b end
    | apply keeps_modify; intros ? Hg; exact Hg ].

Lemma built_ins_is {A} (m : res PivError A) (k : A -> Apdu) i a : (forall x, ins (k x) = i) -> (let* x := m in Ok (k x)) = Ok a -> ins a = i.
Proof. intros Hk Ha. apply res_bind_Ok_inv in Ha as (x & _ & [= <-]). apply Hk. Qed.

Lemma kept_command a : ~ In (ins a) bad -> keeps (good P) (command fuel a).
Proof. intros Hi. unfold command. kept_tac. Qed.

Lemma kept_verify pin : ~ In Ins.VERIFY bad -> keeps (good P) (Session.verify_pin fuel pin).
Proof.
  intros Hi. unfold Session.verify_pin. destruct (8 <? len pin); [apply keeps_err|]. apply keeps_built. intros a Ha.
  assert (Ha' : ins a = Ins.VERIFY) by (unfold apdu_verify_pin in Ha; destruct (len pin <=? 8); [now injection Ha as <-|discriminate]).
  rewrite <- Ha' in Hi. kept_tac.
Qed.

Lemma kept_ga alg slot tag d : ~ In Ins.GEN_AUTH bad -> keeps (good P) (general_authenticate fuel alg slot tag d).
Proof. intros Hi. unfold general_authenticate. kept_tac. Qed.

Lemma kept_admin key alg : ~ In Ins.GEN_AUTH bad -> keeps (good P) (authenticate_admin fuel des key alg).
Proof. intros Hi. unfold authenticate_admin, command. kept_tac. Qed.

Lemma kept_generate slot alg p t : ~ In Ins.GEN_ASYM bad -> keeps (good P) (generate_key fuel slot alg p t).
Proof.
  intros Hi. unfold generate_key. apply keeps_built. intros a Ha.
  assert (Ha' : ins a = Ins.GEN_ASYM) by (unfold apdu_generate_asym in Ha; repeat (apply res_bind_Ok_inv in Ha as (? & _ & Ha)); now injection Ha as <-).
  rewrite <- Ha' in Hi. apply keeps_bind; [now apply kept_command|]. intros. apply keeps_lift.
Qed.

Lemma kept_attested slot : ~ In Ins.YK_ATTEST bad -> keeps (good P) (attested_policy fuel slot).
Proof. intros Hi. unfold attested_policy, command. kept_tac. Qed.

Lemma kept_put tag v : ~ In Ins.PUT_DATA bad -> keeps (good P) (put_data fuel tag v).
Proof.
  intros Hi. unfold put_data. apply keeps_built. intros a Ha.
  assert (Ha' : ins a = Ins.PUT_DATA) by (unfold apdu_put_data in Ha; repeat (apply res_bind_Ok_inv in Ha as (? & _ & Ha)); now injection Ha as <-).
  rewrite <- Ha' in Hi. apply keeps_bind; [now apply kept_command|]. intros. apply keeps_ret.
Qed.

Lemma kept_change p2 old new : ~ In Ins.CHANGE_PIN bad -> keeps (good P) (change_reference_data fuel p2 old new).
Proof.
  intros Hi. unfold change_reference_data. apply keeps_built. intros a Ha.
  assert (Ha' : ins a = Ins.CHANGE_PIN) by (unfold change_reference_data_apdu in Ha; repeat (apply res_bind_Ok_inv in Ha as (? & _ & Ha)); now injection Ha as <-).
  rewrite <- Ha' in Hi. unfold reference_command. kept_tac.
Qed.

Lemma kept_set_mgmt key : ~ In Ins.SET_MGMT_KEY bad -> keeps (good P) (set_management_key_3des fuel key).
Proof.
  intros Hi. unfold set_management_key_3des. apply keeps_built. intros a Ha.
  assert (Ha' : ins a = Ins.SET_MGMT_KEY) by (unfold set_management_key_apdu in Ha; destruct (negb _); [discriminate|now injection Ha as <-]).
  rewrite <- Ha' in Hi. apply keeps_bind; [now apply kept_command|]. intros. apply keeps_ret.
Qed.
End Kept.

(** ** What [card init] leaves behind *)

Section Secrets.
Context {K : CardCrypto}.
Implicit Type c : VirtualCard K.

Definition has_pin (block : bytes) c : Prop := vc_pin c = block.
Definition has_puk (block : bytes) c : Prop := vc_puk c = block.
Definition has_object (tag : Z) (v : bytes) c : Prop := object c tag = Some v.
Definition has_mgmt_key (key : bytes) c : Prop := vc_mgmt_key c = key.

Lemma applet_framed i c c' : applet_ok c -> framed i c c' -> i <> Ins.SELECT -> applet_ok c'.
Proof. intros [Hf Hs] (H1 & H2 & _) Hi. split; [now rewrite H1|now rewrite H2]. Qed.

(** The event of a command that is neither of the two with a PIN and a PUK in them. *)
Lemma secrets_stable now c a resp c' :
  ~ In (ins a) [Ins.CHANGE_PIN; Ins.RESET_PIN; Ins.YK_RESET] -> Card.transmit now c (apdu_to_bytes a) = Ok (resp, c') ->
  vc_pin c' = vc_pin c /\ vc_puk c' = vc_puk c.
Proof.
  intros Hi Ht. destruct (transmit_pin now c _ resp c' Ht) as (e & He & _ & Hp).
  assert (Hq : vc_pin c' = ps_pin (pin_step (pin_of c) e) /\ vc_puk c' = ps_puk (pin_step (pin_of c) e)) by (rewrite <- Hp; now split).
  destruct Hq as [-> ->]. destruct e; simpl in He; try (now split);
    try (exfalso; apply Hi; rewrite apdu_to_bytes_header in He; try apply proj1 in He; injection He; intros; simpl; auto; fail).
  unfold pin_step, try_pin. repeat case_match; now split.
Qed.

Definition SECRET_INS : list Z := [Ins.SELECT; Ins.CHANGE_PIN; Ins.RESET_PIN; Ins.YK_RESET].

Lemma pin_outlives block : outlives SECRET_INS (has_pin block).
Proof.
  intros a Hi now c resp c' Ha HP Ht. simpl in Hi. split; [eapply applet_framed; [exact Ha|exact (transmit_framed _ _ _ _ _ (proj1 Ha) Ht)|intuition congruence]|].
  apply secrets_stable in Ht as [Hp _]; [unfold has_pin in *; congruence|simpl; tauto].
Qed.

Lemma puk_outlives block : outlives SECRET_INS (has_puk block).
Proof.
  intros a Hi now c resp c' Ha HP Ht. simpl in Hi. split; [eapply applet_framed; [exact Ha|exact (transmit_framed _ _ _ _ _ (proj1 Ha) Ht)|intuition congruence]|].
  apply secrets_stable in Ht as [_ Hp]; [unfold has_puk in *; congruence|simpl; tauto].
Qed.

Definition OBJECT_INS : list Z := [Ins.SELECT; Ins.PUT_DATA; Ins.YK_RESET].

Lemma object_outlives tag v : outlives OBJECT_INS (has_object tag v).
Proof.
  intros a Hi now c resp c' Ha HP Ht. simpl in Hi. pose proof (transmit_framed _ _ _ _ _ (proj1 Ha) Ht) as Hf.
  split; [eapply applet_framed; [exact Ha|exact Hf|intuition congruence]|]. destruct Hf as (_ & _ & Ho & _). unfold has_object, object in *.
  rewrite Ho by intuition congruence. exact HP.
Qed.

Definition KEY_INS : list Z := [Ins.SELECT; Ins.SET_MGMT_KEY; Ins.YK_RESET].

Lemma key_outlives key : outlives KEY_INS (has_mgmt_key key).
Proof.
  intros a Hi now c resp c' Ha HP Ht. simpl in Hi. pose proof (transmit_framed _ _ _ _ _ (proj1 Ha) Ht) as Hf.
  split; [eapply applet_framed; [exact Ha|exact Hf|intuition congruence]|]. destruct Hf as (_ & _ & _ & Hk). unfold has_mgmt_key in *.
  rewrite Hk by intuition congruence. exact HP.
Qed.

(** *** The commands that set them *)

Lemma pad_reference_Ok r b : pad_reference r = Ok b -> b = pin_block r /\ len r <= 8.
Proof.
  unfold pad_reference. destruct (8 <? len r) eqn:Hl; [discriminate|]. destruct (bool_decide _); [discriminate|]. intros [= <-].
  split; [reflexivity|]. now apply Z.ltb_ge in Hl.
Qed.

(** A change that was answered 9000. *)
Lemma change_done now c old new p2 resp c' :
  applet_ok c -> p2 = 0x80 \/ p2 = 0x81 -> len old <= 8 -> len new <= 8 ->
  Card.transmit now c (apdu_to_bytes (with_data (apdu_new 0x00 Ins.CHANGE_PIN 0x00 p2) (pin_block old ++ pin_block new))) = Ok (resp, c') ->
  answered_ok resp ->
  if p2 =? 0x80 then vc_pin c' = pin_block new /\ vc_puk c' = vc_puk c else vc_puk c' = pin_block new /\ vc_pin c' = vc_pin c.
Proof.
  intros Ha Hp Ho Hn Ht Hok. set (a := with_data _ _) in Ht. pose proof (len_pin_block old Ho) as Hlo. pose proof (len_pin_block new Hn) as Hln.
  assert (Hh : take 4 (apdu_to_bytes a) = [0x00; Ins.CHANGE_PIN; 0x00; p2]) by apply apdu_to_bytes_header.
  assert (Hb : apdu_body (E := Empty_set) (apdu_to_bytes a) = Ok (Some (pin_block old ++ pin_block new))).
  { apply (body_of a); change (data a) with (pin_block old ++ pin_block new); [|rewrite len_app; lia]. intros Hn'. apply (f_equal len) in Hn'.
    rewrite len_app, Hlo, Hln in Hn'. discriminate. }
  rewrite (transmit_dispatch now c _ _ _ _ _ Ha Hh) in Ht. assert (Hf : vc_faults (set_touch_blocked None c) = []) by exact (proj1 Ha).
  rewrite (dispatch_change now _ _ p2 _ Hf Hp Hh Hb) in Ht. apply res_bind_Ok_inv in Ht as ([r c2] & Hc & Ht). injection Ht as <- <-.
  enough (if p2 =? 0x80 then vc_pin c2 = pin_block new /\ vc_puk c2 = vc_puk c else vc_puk c2 = pin_block new /\ vc_pin c2 = vc_pin c)
    by (destruct (p2 =? 0x80); unfold settle; case_match; assumption).
  unfold handle_change_reference_data in Hc. replace (len (pin_block old ++ pin_block new) =? 16) with true in Hc by (rewrite len_app, Hlo, Hln; reflexivity).
  cbn [negb] in Hc. apply res_bind_Ok_inv in Hc as (o & _ & Hc). apply res_bind_Ok_inv in Hc as (n & Hnew & Hc).
  rewrite slice_from_Ok in Hnew by (rewrite len_app; lia). injection Hnew as <-.
  replace (zdrop 8 (pin_block old ++ pin_block new)) with (pin_block new) in Hc by (rewrite <- Hlo; symmetry; apply zdrop_app).
  destruct Hp as [-> | ->]; cbn [Z.eqb Pos.eqb] in *; run_cases; try (now apply answered_sw in Hok as [[=] _]); now split.
Qed.

Lemma mgmt_key_done now c key resp c' :
  applet_ok c -> len key = 24 ->
  Card.transmit now c (apdu_to_bytes (with_data (apdu_new 0x00 Ins.SET_MGMT_KEY 0xFF 0xFF) ([ALG_TDEA_3KEY; SLOT_MGMT; u8 (len key)] ++ key)))
    = Ok (resp, c') -> answered_ok resp -> vc_mgmt_key c' = key.
Proof.
  intros Ha Hk Ht Hok. set (a := with_data _ _) in Ht. set (body := [ALG_TDEA_3KEY; SLOT_MGMT; u8 (len key)] ++ key) in *.
  assert (Hl : len body = 27) by (unfold body; rewrite len_app, Hk; reflexivity).
  assert (Hh : take 4 (apdu_to_bytes a) = [0x00; Ins.SET_MGMT_KEY; 0xFF; 0xFF]) by apply apdu_to_bytes_header.
  assert (Hb : apdu_body (E := Empty_set) (apdu_to_bytes a) = Ok (Some body)) by (apply (body_of a); [discriminate|change (data a) with body; lia]).
  rewrite (transmit_dispatch now c _ _ _ _ _ Ha Hh) in Ht. assert (Hf : vc_faults (set_touch_blocked None c) = []) by exact (proj1 Ha).
  rewrite (dispatch_set_mgmt now _ _ _ Hf Hh Hb) in Ht. apply res_bind_Ok_inv in Ht as ([r c2] & Hc & Ht). injection Ht as <- <-.
  enough (vc_mgmt_key c2 = key) by (unfold settle; case_match; assumption).
  unfold handle_set_mgmt_key in Hc. destruct (negb (vc_mgmt_authenticated _)); [injection Hc as <- _; now apply answered_sw in Hok as [[=] _]|]. rewrite Hl in Hc.
  match type of Hc with (if ?b then _ else _) = _ => destruct b; [injection Hc as <- _; now apply answered_sw in Hok as [[=] _]|] end.
  apply res_bind_Ok_inv in Hc as (k & Hs & Hc). injection Hc as _ <-. rewrite slice_from_Ok in Hs by lia. injection Hs as <-. reflexivity.
Qed.
End Secrets.

Section Done.
Context {K : CardCrypto} (tick : Z -> Z) (fuel : nat).
Implicit Type s : @PinSession (@Link K) (link_transport tick).

Lemma success_answered sw : is_success sw = true -> exists x y, sw = MkSw x y /\ forall d, answered_ok (d ++ sw_bytes x y).
Proof. destruct sw as [x y]. unfold is_success. cbn. intros Hs. bprop. subst. exists 0x90, 0x00. split; [reflexivity|]. intros d. now exists d. Qed.

Lemma require_success_Ok sw u : require_success sw = Ok u -> is_success sw = true.
Proof. unfold require_success. now destruct (is_success sw). Qed.

Lemma change_session p2 old new s s' :
  applet_ok (card_of tick s) -> p2 = 0x80 \/ p2 = 0x81 -> change_reference_data fuel p2 old new s = Some (s', Ok tt) ->
  if p2 =? 0x80 then has_pin (pin_block new) (card_of tick s') /\ vc_puk (card_of tick s') = vc_puk (card_of tick s)
  else has_puk (pin_block new) (card_of tick s') /\ vc_pin (card_of tick s') = vc_pin (card_of tick s).
Proof.
  intros Ha Hp Hc. unfold change_reference_data in Hc. bind_inv Hc as s1 a H1. apply io_lift_Ok_inv in H1 as [-> H1].
  unfold change_reference_data_apdu in H1. apply res_bind_Ok_inv in H1 as (o & Ho & H1). apply res_bind_Ok_inv in H1 as (n & Hn & H1).
  apply pad_reference_Ok in Ho as [-> Ho], Hn as [-> Hn]. injection H1 as <-.
  unfold reference_command in Hc. bind_inv Hc as s2 [d sw] H2. destruct (is_pin_incorrect sw); [discriminate|]. apply io_lift_Ok_inv in Hc as [-> Hc].
  apply require_success_Ok, success_answered in Hc as (x & y & -> & Hok). destruct (transmit_answer tick fuel _ _ _ _ _ Ha H2) as [now Ht].
  exact (change_done now _ old new p2 _ _ Ha Hp Ho Hn Ht (Hok d)).
Qed.

Lemma mgmt_key_session key s s' :
  applet_ok (card_of tick s) -> set_management_key_3des fuel key s = Some (s', Ok tt) -> has_mgmt_key key (card_of tick s').
Proof.
  intros Ha Hc. unfold set_management_key_3des in Hc. bind_inv Hc as s1 a H1. apply io_lift_Ok_inv in H1 as [-> H1].
  unfold set_management_key_apdu in H1. destruct (negb (len key =? 24)) eqn:Hl; [discriminate|]. injection H1 as <-. bprop.
  bind_inv Hc as s2 d H2. injection Hc as <-. unfold command in H2. bind_inv H2 as s3 [d' sw] H3. bind_inv H2 as s4 u H4. injection H2 as <- <-.
  apply io_lift_Ok_inv in H4 as [-> H4]. apply require_success_Ok, success_answered in H4 as (x & y & -> & Hok).
  destruct (transmit_answer tick fuel _ _ _ _ _ Ha H3) as [now Ht]. exact (mgmt_key_done now _ key _ _ Ha Hl Ht (Hok d')).
Qed.

(** A certificate goes to an object of its own. *)
Lemma put_cert_chuid slot cert v : len cert < 64000 -> keeps (good (K := K) tick (has_object OBJECT_CHUID v)) (put_cert fuel slot cert).
Proof.
  intros Hl s [Ha Ho] s' r Hr. destruct (cert_tag_for_slot slot) as [tag|] eqn:Ht; [|unfold put_cert in Hr; rewrite Ht in Hr; now injection Hr as <- _].
  rewrite (put_cert_run tick fuel s slot tag cert Ha Ht Hl) in Hr. injection Hr as <- _. split; [exact (applet_card_with _ _ _ Ha)|].
  change (has_object OBJECT_CHUID v (card_with tag (Apdu.cert_object cert) (card_of tick s))).
  unfold has_object. rewrite object_card_with_ne; [exact Ho|].
  revert Ht. unfold cert_tag_for_slot. repeat case_match; intros [= <-]; discriminate.
Qed.
End Done.

(** ** The engine on the card *)

Section Engine.
Context {K : CardCrypto} (tick : Z -> Z) (fuel : nat) (des : bytes -> bytes -> bytes).
Context {F X : Type} `{Frontend F} `{KeyEscrow X} (B : CertBuilder).

Abbreviation SC := (@SessionCard (@Link K) (link_transport tick)).
Abbreviation Bn := (Bench SC F X).

#[local] Instance the_card : ProvisionCard SC := session_card (H := link_transport tick) fuel des.

Context (sign_took : SC -> SC -> Z) (random_key : option bytes).

(** The x509 crates give certificates that fit an extended APDU. *)
Context (Hshort : forall point cn signature cert, assemble_cert B point cn signature = Ok cert -> len cert < 64000).

Definition bench_card (b : Bn) : VirtualCard K := card_of tick (sc_session (bn_card b)).
Definition on_bench (P : VirtualCard K -> Prop) (b : Bn) : Prop := good tick P (sc_session (bn_card b)).

Lemma keeps_on_card {D E A} (P : VirtualCard K -> Prop) (f : D -> E) (m : IO D (@PinSession (@Link K) (link_transport tick)) A) :
  keeps (good tick P) m -> keeps (on_bench P) (on_card (F := F) (X := X) f (on_session m)).
Proof.
  intros Hm b Hb b' r Hr. unfold on_card, on_session in Hr. destruct (m (sc_session (bn_card b))) as [[s r1]|] eqn:E1; [|discriminate].
  injection Hr as <- _. exact (Hm _ Hb s r1 E1).
Qed.

Lemma keeps_on_frontend {E A} (P : VirtualCard K -> Prop) (m : IO E F A) : keeps (on_bench P) (on_frontend (K := SC) (X := X) m).
Proof. intros b Hb b' r Hr. unfold on_frontend in Hr. destruct (m (bn_frontend b)) as [[f r1]|]; [|discriminate]. injection Hr as <- _. exact Hb. Qed.

Lemma keeps_on_sink {E A} (P : VirtualCard K -> Prop) (g : X -> X * res E A) : keeps (on_bench P) (on_sink (K := SC) (F := F) g).
Proof. intros b Hb b' r Hr. unfold on_sink in Hr. destruct (g (bn_sink b)). injection Hr as <- _. exact Hb. Qed.

(** A step whose value satisfies [Q]. *)
Lemma keeps_bind_value {E A A'} (P : VirtualCard K -> Prop) (Q : A -> Prop) (m : IO E Bn A) (k : A -> IO E Bn A') :
  keeps (on_bench P) m -> (forall b b' a, m b = Some (b', Ok a) -> Q a) -> (forall a, Q a -> keeps (on_bench P) (k a)) -> keeps (on_bench P) (io_bind m k).
Proof.
  intros Hm Hq Hk b Hb b' r Hr. unfold io_bind in Hr. destruct (m b) as [[b1 [a|e|]]|] eqn:E1; try discriminate.
  - exact (Hk a (Hq _ _ _ E1) b1 (Hm b Hb b1 _ E1) b' r Hr).
  - injection Hr as <- _. exact (Hm b Hb b1 _ E1).
  - injection Hr as <- _. exact (Hm b Hb b1 _ E1).
Qed.

Section Slots.
Context (P : VirtualCard K -> Prop) (bad : list Z) (Hout : outlives bad P).
Context (Hins : Forall (fun i => ~ In i bad) [Ins.VERIFY; Ins.GEN_AUTH; Ins.GEN_ASYM; Ins.YK_ATTEST]).
Context (Hput : forall slot cert, len cert < 64000 -> keeps (good tick P) (put_cert fuel slot cert)).

Lemma free_ins i : In i [Ins.VERIFY; Ins.GEN_AUTH; Ins.GEN_ASYM; Ins.YK_ATTEST] -> ~ In i bad.
Proof. rewrite List.Forall_forall in Hins. apply Hins. Qed.

Lemma kept_signing slot digest : keeps (on_bench P) (signing sign_took slot digest).
Proof.
  intros b Hb b' r Hr. unfold signing in Hr. cbn [card_sign_prehash the_card session_card] in Hr. unfold on_session in Hr.
  destruct (sign_prehash_with_alg _ _ _ _ _) as [[s r1]|] eqn:E1; [|discriminate]. injection Hr as <- _.
  refine (kept_ga tick fuel P bad Hout _ _ _ _ _ _ Hb s r1 E1). apply free_ins. simpl. auto.
Qed.

Lemma kept_certify slot cn policy pin point : keeps (on_bench P) (certify B sign_took slot cn policy pin point).
Proof.
  unfold certify. cbv zeta. apply keeps_bind.
  { destruct (bool_decide _); [|apply keeps_ret]. apply keeps_on_card, (kept_verify tick fuel P bad Hout). apply free_ins. simpl. auto. }
  intros _. apply keeps_bind; [destruct (needs_touch policy); [apply keeps_on_frontend|apply keeps_ret]|]. intros _.
  apply (keeps_bind_value P (fun cert => len cert < 64000)).
  - unfold build_self_signed_cert. apply keeps_bind; [apply keeps_lift|]. intros tbs. apply keeps_bind; [apply kept_signing|]. intros s. apply keeps_lift.
  - intros b b' cert Hc. unfold build_self_signed_cert in Hc. bind_inv Hc as b1 tbs H1'. bind_inv Hc as b2 s H2'. apply io_lift_Ok_inv in Hc as [_ Hc].
    unfold unsigned in Hc. destruct (assemble_cert _ _ _ _) as [c|e|] eqn:Ea; try discriminate. injection Hc as ->. exact (Hshort _ _ _ _ Ea).
  - intros cert Hc. apply keeps_on_card. now apply Hput.
Qed.

Lemma kept_provision slot cn policy pin advice : keeps (on_bench P) (provision_slot B sign_took slot cn policy pin advice).
Proof.
  unfold provision_slot. apply keeps_bind; [apply keeps_on_card, (kept_generate tick fuel P bad Hout), free_ins; simpl; auto|].
  intros point. apply keeps_bind; [apply keeps_map_err, kept_certify|]. intros _. apply keeps_ret.
Qed.

Lemma kept_check : keeps (on_bench P) (check_operator_acts (K := SC) (F := F) (X := X)).
Proof.
  unfold check_operator_acts. apply keeps_bind.
  { apply keeps_on_card. apply keeps_bind; [apply keeps_try, (kept_attested tick fuel P bad Hout), free_ins; simpl; auto|]. intros r. apply keeps_ret. }
  intros att. destruct (operator_act_verdict att); [apply keeps_ret| |].
  - apply keeps_bind; [apply keeps_on_frontend|]. intros _. apply keeps_ret.
  - intros b Hb b' r Hr. now injection Hr as <- _.
Qed.
End Slots.

(** *** The secrets *)

Lemma on_card_inv {D E A} (f : D -> E) (m : IO D (@PinSession (@Link K) (link_transport tick)) A) (b b' : Bn) a :
  on_card f (on_session m) b = Some (b', Ok a) -> m (sc_session (bn_card b)) = Some (sc_session (bn_card b'), Ok a).
Proof.
  unfold on_card, on_session. destruct (m (sc_session (bn_card b))) as [[s [x|e|]]|]; try discriminate. now intros [= <- <-].
Qed.

Lemma keeps_step {E A} (P : VirtualCard K -> Prop) (m : IO E Bn A) b b' r : keeps (on_bench P) m -> on_bench P b -> m b = Some (b', r) -> on_bench P b'.
Proof. intros Hm Hb Hr. exact (Hm b Hb b' r Hr). Qed.

(** The operator typed [secret] twice. *)
Definition typed_twice (enter again : SecretKind) (secret : list Z) : Prop :=
  exists q1 q2 f1 f2 f3 f4, sq_kind q1 = enter /\ sq_kind q2 = again /\
    request_secret q1 f1 = (f2, Ok secret) /\ request_secret q2 f3 = (f4, Ok secret).

Lemma collect_inv card enter again prompt e (b b' : Bn) secret :
  collect_new_secret card enter again prompt e b = Some (b', Ok secret) -> bn_card b' = bn_card b /\ typed_twice enter again secret.
Proof.
  intros Hr. unfold collect_new_secret in Hr. bind_inv Hr as b1 s1 H1'. bind_inv Hr as b2 s2 H2'.
  destruct (bytes_eqb s1 s2) eqn:He; [|discriminate]. injection Hr as <- <-. apply bytes_eqb_true in He as <-.
  unfold on_frontend, ask_operator in H1', H2'.
  destruct (request_secret _ (bn_frontend b)) as [f1 [x1|x1|]] eqn:E1; try discriminate. injection H1' as <- ->.
  destruct (request_secret _ (bn_frontend {| bn_card := _ |})) as [f2 [x2|x2|]] eqn:E2; try discriminate. injection H2' as <- ->.
  split; [reflexivity|]. do 6 eexists. repeat split; [| |exact E1|exact E2]; reflexivity.
Qed.

(** What a rotation is done with. *)
Definition rotated (key : option bytes) (generated : option bytes) (sealed : option SealedKey) (b : Bn) : Prop :=
  (forall key_hex, generated = Some key_hex -> exists k, key = Some k /\ key_hex = hex_encode_upper k /\ vc_mgmt_key (bench_card b) = k) /\
  (is_Some sealed -> key = Some (vc_mgmt_key (bench_card b))).

Lemma set_key_done {D} (f : PivError -> D) k (b b' : Bn) :
  applet_ok (bench_card b) -> on_card f (card_set_management_key_3des k) b = Some (b', Ok tt) -> vc_mgmt_key (bench_card b') = k.
Proof. intros Ha Hr. apply on_card_inv in Hr. exact (mgmt_key_session tick fuel k _ _ Ha Hr). Qed.

Lemma seal_rotated key key_hex (b b' : Bn) sealed :
  applet_ok (bench_card b) -> seal_then_rotate key key_hex b = Some (b', Ok sealed) -> vc_mgmt_key (bench_card b') = key.
Proof.
  intros Ha Hr. unfold seal_then_rotate in Hr. bind_inv Hr as b1 b2 H1'. injection H1' as <- <-. bind_inv Hr as b3 u3 H3'. bind_inv Hr as b4 u4 H4'.
  bind_inv Hr as b5 r H5'. destruct r as [u|e]; [|bind_inv Hr as b6 u6 H6'; discriminate]. pure_inv H5'. destruct u.
  assert (Ha4 : applet_ok (bench_card b4)).
  { assert (Hb : on_bench (fun _ => True) b) by now split. eapply (keeps_step (fun _ => True)) in H3'; [|apply keeps_on_frontend|exact Hb].
    eapply (keeps_step (fun _ => True)) in H4'; [|apply keeps_on_sink|exact H3']. exact (proj1 H4'). }
  apply set_key_done in H5'; [|exact Ha4]. bind_inv Hr as b6 u6 H6'. bind_inv Hr as b7 b8 H7'. injection H7' as <- <-. injection Hr as <- _.
  injection H6' as <- _. exact H5'.
Qed.

Lemma rotate_done card escrow (b b' : Bn) generated sealed :
  applet_ok (bench_card b) -> rotate_mgmt_key random_key card escrow b = Some (b', Ok (generated, sealed)) -> rotated random_key generated sealed b'.
Proof.
  intros Ha Hr. unfold rotate_mgmt_key in Hr. bind_inv Hr as b1 choice H1'.
  assert (Hb : on_bench (fun _ => True) b) by now split. eapply (keeps_step (fun _ => True)) in H1'; [|apply keeps_on_frontend|exact Hb].
  destruct choice as [|hex|].
  - bind_inv Hr as b2 u H2'. injection Hr as <- <- <-. split; [discriminate|intros [? [=]]].
  - bind_inv Hr as b2 l H2'. bind_inv Hr as b3 u H3'. bind_inv Hr as b4 u4 H4'. injection Hr as <- <- <-. split; [discriminate|intros [? [=]]].
  - bind_inv Hr as b2 key H2'. apply io_lift_Ok_inv in H2' as [-> Hk]. destruct random_key as [k|]; [|discriminate]. injection Hk as ->.
    bind_inv Hr as b3 sealing H3'.
    assert (Hb3 : on_bench (fun _ => True) b3).
    { eapply keeps_step; [|exact H1'|exact H3']. destruct escrow as [[]|]; [|apply keeps_ret..]. apply keeps_bind; [|intros; apply keeps_ret].
      apply keeps_try. unfold offer_seal. apply keeps_bind; [apply keeps_get|]. intros. apply keeps_on_frontend. }
    destruct sealing.
    + bind_inv Hr as b4 s H4'. injection Hr as <- <- <-. apply seal_rotated in H4'; [|exact (proj1 Hb3)].
      split; [discriminate|]. intros _. now rewrite H4'.
    + bind_inv Hr as b4 u H4'. destruct u. injection Hr as <- <- <-. apply set_key_done in H4'; [|exact (proj1 Hb3)].
      split; [|intros [? [=]]]. intros key_hex [= <-]. eauto.
Qed.

(** Whatever is asked of the operator and the escrow, and a management key: none of it touches an object, the PIN or the PUK. *)
Lemma kept_rotate (P : VirtualCard K -> Prop) bad card escrow :
  outlives bad P -> ~ In Ins.SET_MGMT_KEY bad -> keeps (on_bench P) (rotate_mgmt_key (X := X) random_key card escrow).
Proof.
  intros Hout Hi. unfold rotate_mgmt_key. apply keeps_bind; [apply keeps_on_frontend|]. intros choice.
  assert (Hset : forall (D : Type) (f : PivError -> D) k, keeps (on_bench P) (on_card (F := F) (X := X) f (card_set_management_key_3des k)))
    by (intros D f k; now apply keeps_on_card, (kept_set_mgmt tick fuel P bad Hout)).
  assert (Hnote : keeps (on_bench P) (note_unsealed (F := F) (X := X) escrow)) by (unfold note_unsealed; destruct escrow as [[]|]; [apply keeps_ret|apply keeps_on_frontend|apply keeps_ret]).
  destruct choice as [|hex|].
  - apply keeps_bind; [exact Hnote|]. intros. apply keeps_ret.
  - apply keeps_bind; [apply keeps_lift|]. intros l. apply keeps_bind; [apply Hset|]. intros. apply keeps_bind; [exact Hnote|]. intros. apply keeps_ret.
  - apply keeps_bind; [apply keeps_lift|]. intros key. apply keeps_bind.
    { destruct escrow as [[]|]; [|apply keeps_ret..]. apply keeps_bind; [|intros; apply keeps_ret].
      apply keeps_try. unfold offer_seal. apply keeps_bind; [apply keeps_get|]. intros. apply keeps_on_frontend. }
    intros sealing. destruct sealing.
    + apply keeps_bind; [|intros; apply keeps_ret]. unfold seal_then_rotate. apply keeps_bind; [apply keeps_get|]. intros b0.
      apply keeps_bind; [apply keeps_on_frontend|]. intros _. apply keeps_bind; [apply keeps_on_sink|]. intros _.
      apply keeps_bind; [apply keeps_try, Hset|]. intros [u|e].
      * apply keeps_bind; [apply keeps_on_sink|]. intros _. apply keeps_bind; [apply keeps_get|]. intros. apply keeps_ret.
      * apply keeps_bind; [apply keeps_on_sink|]. intros _. apply keeps_err.
    + apply keeps_bind; [apply Hset|]. intros. apply keeps_ret.
Qed.

(** *** The run *)

Lemma any_outlives : outlives OBJECT_INS (fun _ : VirtualCard K => True).
Proof.
  intros a Hi now c resp c' Ha HP Ht. simpl in Hi. split; [|exact HP].
  eapply applet_framed; [exact Ha|exact (transmit_framed _ _ _ _ _ (proj1 Ha) Ht)|intuition congruence].
Qed.

Lemma object_ins_free : Forall (fun i => ~ In i OBJECT_INS) [Ins.VERIFY; Ins.GEN_AUTH; Ins.GEN_ASYM; Ins.YK_ATTEST].
Proof. repeat constructor; simpl; intuition discriminate. Qed.

Lemma kept_slot v slot cn policy pin advice :
  keeps (on_bench (has_object OBJECT_CHUID v)) (provision_slot (X := X) B sign_took slot cn policy pin advice).
Proof. exact (kept_provision _ _ (object_outlives _ v) object_ins_free (fun slot cert Hl => put_cert_chuid tick fuel slot cert v Hl) _ _ _ _ _). Qed.

Lemma chuid_done (b b' : Bn) (f : PivError -> ProvisionError) guid :
  applet_ok (bench_card b) -> len guid = 16 -> on_card f (card_write_chuid guid) b = Some (b', Ok tt) ->
  on_bench (has_object OBJECT_CHUID (enc_tlv 0x53 (build_chuid_object guid))) b'.
Proof.
  intros Ha Hg Hr. apply on_card_inv in Hr. unfold write_chuid in Hr.
  rewrite (put_run tick fuel _ OBJECT_CHUID (build_chuid_object guid) Ha) in Hr; [|by_compute|unfold build_chuid_object; rewrite !len_app, Hg; reflexivity].
  injection Hr as Hr. unfold on_bench. rewrite <- Hr. split; [exact (applet_card_with _ _ _ Ha)|].
  change (has_object OBJECT_CHUID (enc_tlv 0x53 (build_chuid_object guid)) (card_with OBJECT_CHUID (build_chuid_object guid) (bench_card b))).
  apply object_card_with.
Qed.

Lemma change_done_on (b b' : Bn) (f : PivError -> ProvisionError) (p2 : Z) old new :
  applet_ok (bench_card b) -> p2 = 0x80 \/ p2 = 0x81 ->
  on_card f (on_session (change_reference_data fuel p2 (as_bytes old) (as_bytes new))) b = Some (b', Ok tt) ->
  if p2 =? 0x80 then has_pin (pin_block (as_bytes new)) (bench_card b') /\ vc_puk (bench_card b') = vc_puk (bench_card b)
  else has_puk (pin_block (as_bytes new)) (bench_card b') /\ vc_pin (bench_card b') = vc_pin (bench_card b).
Proof. intros Ha Hp Hr. apply on_card_inv in Hr. exact (change_session tick fuel p2 _ _ _ _ Ha Hp Hr). Qed.

(** The next step of a run, that keeps [P]. *)
Ltac keep_through H P t H0 := eapply (keeps_step P) in H; [|t|exact H0].
Tactic Notation "advance" hyp(Hi) "as" simple_intropattern(b) simple_intropattern(u) ident(H) "from" hyp(H0) "keeping" constr(P) "by" tactic3(t) :=
  apply io_bind_Ok_inv in Hi as (b & u & H & Hi); keep_through H P t H0.

(** C6 (functional). The card that [card init] leaves. When it returns a value, on a card without faults, the card's PIN and PUK
    are the ones the operator typed twice, its CHUID holds the GUID that is reported, and a generated management key
    is the card's own, whether it is shown or was sealed. *)
Theorem init_secures_the_card cfg escrow (b b' : Bn) o :
  applet_ok (bench_card b) -> len (pc_guid cfg) = 16 ->
  Provision.run B sign_took random_key cfg escrow b = Some (b', Ok o) ->
  exists pin puk, typed_twice NewPin ConfirmNewPin pin /\ typed_twice NewPuk ConfirmNewPuk puk /\
    vc_pin (bench_card b') = pin_block (as_bytes pin) /\ vc_puk (bench_card b') = pin_block (as_bytes puk) /\
    object (bench_card b') OBJECT_CHUID = Some (enc_tlv 0x53 (build_chuid_object (pc_guid cfg))) /\ po_guid o = hex_encode_upper (pc_guid cfg) /\
    rotated random_key (po_generated_mgmt_key o) (po_sealed_mgmt_key o) b'.
Proof.
  intros Ha Hg Hr. unfold Provision.run, closing in Hr. destruct (run_inner _ _ _ _ _ b) as [[bz [x|e|]]|] eqn:Hi; try discriminate. injection Hr as <- <-.
  unfold run_inner in Hi. cbv zeta in Hi. bind_inv Hi as b0 b1 H1'. injection H1' as <- <-. bind_inv Hi as b2 proceed H2'. destruct (negb proceed); [discriminate|].
  set (T := fun _ : VirtualCard K => True). assert (Hb : on_bench T b) by now split.
  eapply (keeps_step T) in H2'; [|apply keeps_on_frontend|exact Hb].
  advance Hi as b3 u3 H3' from H2' keeping T by (apply keeps_on_frontend).
  advance Hi as b4 u4 H4' from H3' keeping T by (apply keeps_on_card, (kept_admin tick fuel des T _ any_outlives); simpl; intuition discriminate).
  advance Hi as b5 u5 H5' from H4' keeping T by (apply keeps_on_card, (kept_verify tick fuel T _ any_outlives); simpl; intuition discriminate).
  advance Hi as b6 u6 H6' from H5' keeping T by (apply keeps_on_frontend).
  bind_inv Hi as b7 u7 H7'. destruct u7. apply chuid_done in H7'; [|exact (proj1 H6')|exact Hg]. set (O := has_object _ _) in H7'.
  advance Hi as b8 u8 H8' from H7' keeping O by (apply keeps_on_frontend).
  advance Hi as b9 u9 H9' from H8' keeping O by (apply kept_slot).
  advance Hi as b10 u10 H10' from H9' keeping O by (apply keeps_on_frontend).
  advance Hi as b11 u11 H11' from H10' keeping O by (apply kept_slot).
  advance Hi as b12 u12 H12' from H11' keeping O by (apply keeps_on_frontend).
  advance Hi as b13 u13 H13' from H12' keeping O by (apply kept_slot).
  advance Hi as b14 serves H14' from H13' keeping O by (exact (kept_check _ _ (object_outlives _ _) object_ins_free)).
  advance Hi as b15 u15 H15' from H14' keeping O by (apply keeps_on_frontend).
  bind_inv Hi as b16 pin H16'. apply collect_inv in H16' as [Hc16 Hpin]. assert (Ho16 : on_bench O b16) by (unfold on_bench; rewrite Hc16; exact H15').
  bind_inv Hi as b17 u17 H17'. destruct u17. pose proof H17' as Hdone. apply (change_done_on _ _ _ P2_PIN _ _ (proj1 Ho16) (or_introl eq_refl)) in Hdone as [Hp17 _].
  eapply (keeps_step O) in H17'; [|apply keeps_on_card, (kept_change tick fuel O _ (object_outlives _ _)); simpl; intuition discriminate|exact Ho16].
  bind_inv Hi as b18 puk H18'. apply collect_inv in H18' as [Hc18 Hpuk]. assert (Ho18 : on_bench O b18) by (unfold on_bench; rewrite Hc18; exact H17').
  bind_inv Hi as b19 u19 H19'. destruct u19. pose proof H19' as Hdone. apply (change_done_on _ _ _ P2_PUK _ _ (proj1 Ho18) (or_intror eq_refl)) in Hdone as [Hk19 Hp19].
  eapply (keeps_step O) in H19'; [|apply keeps_on_card, (kept_change tick fuel O _ (object_outlives _ _)); simpl; intuition discriminate|exact Ho18].
  bind_inv Hi as b20 u20 H20'. assert (Hc20 : bn_card b20 = bn_card b19) by (unfold step, on_frontend, tell, io_modify in H20'; now injection H20' as <- _).
  bind_inv Hi as b21 [generated sealed] H21'. injection Hi as <- <-. cbn [po_guid po_generated_mgmt_key po_sealed_mgmt_key].
  change (bench_card (MkBench (bn_card b21) _ _)) with (bench_card b21).
  assert (Hkeep : forall P bad, outlives bad P -> ~ In Ins.SET_MGMT_KEY bad -> applet_ok (bench_card b19) -> P (bench_card b19) -> P (bench_card b21)).
  { intros P bad Hout Hbad Hok HP. apply (kept_rotate P bad _ _ Hout Hbad) in H21'; [exact (proj2 H21')|]. unfold on_bench. rewrite Hc20. now split. }
  exists pin, puk. split; [exact Hpin|]. split; [exact Hpuk|].
  split; [apply (Hkeep _ _ (pin_outlives _)); [simpl; intuition discriminate|exact (proj1 H19')|]|].
  { unfold has_pin. rewrite Hp19. unfold bench_card. rewrite Hc18. exact Hp17. }
  split; [apply (Hkeep _ _ (puk_outlives _)); [simpl; intuition discriminate|exact (proj1 H19')|exact Hk19]|].
  split; [apply (Hkeep _ _ (object_outlives _ _)); [simpl; intuition discriminate|exact (proj1 H19')|exact (proj2 H19')]|].
  split; [reflexivity|]. apply rotate_done in H21'; [exact H21'|]. unfold bench_card. rewrite Hc20. exact (proj1 H19').
Qed.
End Engine.

(** ** Witness *)

(** An operator who agrees, wants a generated key and types [123457]; an escrow that takes every key. *)
#[local] Instance agreeing : Frontend unit := {
  request_secret _ f := (f, Ok (ascii "123457"));
  request_mgmt_key _ f := (f, Ok MgmtRandom);
  confirm _ f := (f, Ok true);
  progress _ f := f;
  completed _ f := f;
}.

#[local] Instance taking : KeyEscrow unit := {
  pass_name _ := ascii "piv/key";
  recipients _ := [];
  seal_key _ x := (x, Ok tt);
  rollback x := x;
  commit x := x;
}.

Definition toy_builder : CertBuilder := {|
  tbs_certificate point cn := Ok (take 65 point);
  tbs_digest tbs := take 32 tbs;
  assemble_cert point cn signature := Ok (take 32 point);
|}.

Abbreviation ToySession := (@SessionCard (@Link ToyCard) (link_transport steady)).

Definition toy_bench : Bench ToySession unit unit := MkBench (MkSessionCard (H := link_transport steady) toy_session None) tt tt.

Definition toy_config : ProvisionConfig := MkProvisionConfig slot_policies_default false (repeat 7 16) false.

Definition toy_key : option bytes := Some (repeat 3 24).

Abbreviation toy_init :=
  (Provision.run (K := ToySession) (F := unit) (X := unit) (H := the_card steady 1 toy_des) toy_builder (fun _ _ => 0) toy_key toy_config None).

Definition shown_key (r : option (Bench ToySession unit unit * res ProvisionError ProvisionOutcome)) : bool :=
  match r with
  | Some (_, Ok o) => bool_decide (po_generated_mgmt_key o = Some (hex_encode_upper (repeat 3 24)))
  | _ => false
  end.

Lemma toy_is_done : shown_key (toy_init toy_bench) = true.
Proof. vm_compute. reflexivity. Qed.

Lemma toy_short point cn signature cert : assemble_cert toy_builder point cn signature = Ok cert -> len cert < 64000.
Proof. intros [= <-]. unfold len. rewrite length_take. lia. Qed.

Lemma init_secures_the_card_witness :
  exists b' o pin, toy_init toy_bench = Some (b', Ok o) /\ typed_twice NewPin ConfirmNewPin pin /\
    vc_pin (bench_card steady b') = pin_block (as_bytes pin) /\ hex_encode_upper (vc_mgmt_key (bench_card steady b')) = hex_encode_upper (repeat 3 24).
Proof.
  pose proof toy_is_done as Hd. revert Hd. destruct (toy_init toy_bench) as [[b' [o|e|]]|] eqn:Hr; intros Hd; [|discriminate Hd..]. cbn [shown_key] in Hd. exists b', o. apply bool_decide_eq_true in Hd.
  destruct (init_secures_the_card steady 1 toy_des toy_builder (fun _ _ => 0) toy_key toy_short toy_config None toy_bench b' o (conj eq_refl eq_refl) eq_refl Hr)
    as (pin & puk & Hpin & _ & Hp & _ & _ & _ & Hk & _).
  exists pin. split; [reflexivity|]. split; [exact Hpin|]. split; [exact Hp|].
  destruct (Hk _ Hd) as (k & _ & Hh & Hm). rewrite Hm. now symmetry.
Defined.

(** The toy card in the one reader of a world, to be set up with a seal. *)
#[local] Instance toy_world : CardWorld (@Link ToyCard) := {|
  card_handle := unit;
  establish w := (w, Ok tt);
  list_readers w := (w, Ok [ascii "reader"]);
  open_reader _ w := (w, Ok tt);
  close_handle _ w := w;
  send cmd _ w := link_transmit steady cmd w;
  begin_on _ w := (w, None);
  end_on d _ w := link_end d w;
  leave_on _ w := w;
  fresh_challenge w := (w, None);
|}.

#[local] Instance toy_store : KeyEscrow (list bytes) := {
  pass_name _ := ascii "piv/key";
  recipients _ := [MkId (Some PiggyRecipientV1) PivyEcdhP256Pub (repeat 2 33)];
  seal_key key_hex x := (key_hex :: x, Ok tt);
  rollback x := tail x;
  commit x := x;
}.

Abbreviation toy_provision :=
  (provision_with_frontend (W := @Link ToyCard) (F := unit) (X := list bytes) 1 toy_lib toy_x509 toy_des toy_builder
     (fun _ x => (x, Ok tt)) (fun _ _ => 0) toy_key (Some (repeat 7 16)) SelAuto false slot_policies_card_default (SealAlways None)).

Abbreviation toy_desk := (MkDesk (W := @Link ToyCard) toy_link tt (@nil bytes)).

Definition sealed_key (r : option (Desk (@Link ToyCard) unit (list bytes) * res ProvisionError ProvisionOutcome)) : bool :=
  match r with
  | Some (_, Ok o) => bool_decide (is_Some (po_sealed_mgmt_key o))
  | _ => false
  end.

Lemma toy_is_sealed : sealed_key (toy_provision toy_desk) = true.
Proof. vm_compute. reflexivity. Qed.

Lemma sealed_key_has_a_reader_witness :
  exists d' o, toy_provision toy_desk = Some (d', Ok o) /\ po_generated_mgmt_key o = None /\
    exists token name d4 d5, name = ascii "piv/" ++ hex_encode_upper (repeat 7 16) ++ ascii "/management-key" /\
      escrow_readable (W := @Link ToyCard) (F := unit) (X := list bytes) (fun _ x => (x, Ok tt)) name
        (if tok_initialized token then current_9d_recipient 1 toy_lib toy_x509 token else io_ret None) d4 d5.
Proof.
  pose proof toy_is_sealed as Hd. revert Hd. destruct (toy_provision toy_desk) as [[d' [o|e|]]|] eqn:Hr; intros Hd; [|discriminate Hd..]. cbn [sealed_key] in Hd.
  exists d', o. split; [reflexivity|]. apply bool_decide_eq_true in Hd.
  destruct (sealed_key_has_a_reader 1 toy_lib toy_x509 toy_des toy_builder (fun _ x => (x, Ok tt)) (fun _ _ => 0) toy_key (Some (repeat 7 16))
              SelAuto false slot_policies_card_default (SealAlways None) toy_desk d' o Hr) as (_ & Hg & Hs).
  split; [exact (Hg None eq_refl)|].
  destruct (Hs Hd) as (d1 & d2 & d3 & d4 & d5 & d6 & session & tokens & token & accepts & guid & name & _ & _ & _ & _ & [= <-] & Hname & Her & _).
  exists token, name, d4, d5. split; [exact Hname|exact Her].
Defined.
