(* ===== verification/AgentClient.v ===== *)
(** * AgentClient: what piggy asks of an SSH agent

    [piggy/src/agent_client.rs], the client of the extensions that [AgentSession] answers, and the commands that are its thin
    front: [operator-sign] ([operator_sign.rs]) and the sockets they ask.  The connection of [ssh-agent-lib] is a class; a runtime
    that cannot be built is an error of connecting.  Texts of errors are constructors or the words they begin with. *)

From Stdlib Require Import ZArith Lia String.
From stdpp Require Import base tactics list numbers.
From S2P Require Import Prelude PivError Guid Utf8 Wire Text Slot AgentExt Transport Session Effects OperatorAct SigFormat Presence Upstream.
From S2P Require Import AgentCards AgentSession Unlock Provision.

Local Open Scope Z_scope.

(** ** The connection *)

Class AgentSockets (N : Type) := {
  Client : Type;
  (** [UnixStream::connect] *)
  connect_socket : bytes -> N -> N * res bytes Client;
  (** [Client::extension], [request_identities], [sign], [unlock] *)
  client_extension : Client -> Extension -> N -> N * res bytes (option Extension);
  client_identities : Client -> N -> N * res bytes (list Identity);
  client_sign : Client -> SignRequest -> N -> N * res bytes Signature;
  client_unlock : Client -> list Z -> N -> N * res bytes unit;
}.

(** ** Which key *)

(** [str::split_whitespace] *)
Definition flush (word : list Z) (words : list (list Z)) : list (list Z) := match word with [] => words | _ => word :: words end.

Fixpoint words_from (word s : list Z) : list (list Z) :=
  match s with
  | [] => flush word []
  | c :: s => if is_whitespace c then flush word (words_from [] s) else words_from (word ++ [c]) s
  end.

Definition split_whitespace (s : list Z) : list (list Z) := words_from [] s.

Definition starts_with (s p : list Z) : bool := match strip_str p s with Some _ => true | None => false end.

Definition is_nil (s : list Z) : bool := match s with [] => true | _ => false end.

Definition guid_prefix_match (comment_guid hint : list Z) : bool :=
  let a := lower comment_guid in
  let b := lower hint in
  negb (is_nil a) && negb (is_nil b) && (starts_with a b || starts_with b a).

(** Whether a comment names the slot, and the card of the hint. *)
Definition comment_matches (slot_id : Z) (guid_hint : option (list Z)) (comment : list Z) : bool :=
  let tag := ascii "PIV_slot_" ++ fmt_hex2_upper slot_id in
  match split_whitespace comment with
  | [] => false
  | t :: parts =>
      if negb (eq_ignore_ascii_case t tag) then false
      else match guid_hint with
           | None => true
           | Some hint => guid_prefix_match (match parts with [] => [] | g :: _ => g end) hint
           end
  end.

Inductive SelectKeyError : Type :=
| NoKeyForSlot (slot_id : Z) (guid_hint : option (list Z)) (served : list (list Z))
| KeysForSlot (n : Z) (slot_id : Z) (served : list (list Z)).

Definition select_signing_identity (comments : list (list Z)) (slot_id : Z) (guid_hint : option (list Z)) : res SelectKeyError nat :=
  match List.filter (fun i => match comments !! i with Some c => comment_matches slot_id guid_hint c | None => false end) (seq 0 (length comments)) with
  | [] => Err (NoKeyForSlot slot_id guid_hint comments)
  | [idx] => Ok idx
  | many => Err (KeysForSlot (len many) slot_id comments)
  end.

(** ** The list of extensions *)

Inductive QueryError : Type := TruncatedPrefix (trailing : Z) | TruncatedName (want have : Z) | NameNotUtf8.

(** The loop [while !buf.is_empty()]; a turn takes at least four bytes. *)
Fixpoint flat_cstrings_loop (fuel : nat) (buf : bytes) : res QueryError (list (list Z)) :=
  match fuel, buf with
  | _, [] => Ok []
  | O, _ => Panic
  | S fuel, _ =>
      if len buf <? 4 then Err (TruncatedPrefix (len buf))
      else
        let* n := be32_at buf 0 in
        let* buf := slice_from buf 4 in
        if len buf <? n then Err (TruncatedName n (len buf))
        else
          let* name := slice buf 0 n in
          let* name := ok_or (from_utf8 name) NameNotUtf8 in
          let* buf := slice_from buf n in
          let* names := flat_cstrings_loop fuel buf in
          Ok (name :: names)
  end.

Definition parse_flat_cstrings (buf : bytes) : res QueryError (list (list Z)) := flat_cstrings_loop (length buf) buf.

Definition decode_query_response (details : bytes) : res QueryError (list (list Z)) :=
  if 4 <=? len details then
    let* blob_len := be32_at details 0 in
    if blob_len + 4 =? len details then let* inner := slice_from details 4 in parse_flat_cstrings inner
    else parse_flat_cstrings details
  else parse_flat_cstrings details.

(** ** Signing by an agent *)

Inductive AgentSignError : Type :=
| NoConnection (e : bytes)
| NoIdentities (e : bytes)
| ServesNothing
| NoSuchIdentity (e : SelectKeyError)
| UnsupportedCurve
| NotEcdsa
| AgentRefused (e : bytes)
| NotEcdsaSignature (algorithm : bytes)
| BadSignature (e : SigError).

Definition ecdsa_field_len (pubkey : KeyData) : res AgentSignError Z :=
  match pubkey with
  | KeyEcdsa (NistP256 _) => Ok 32
  | KeyEcdsa (NistP384 _) => Ok 48
  | KeyEcdsa (NistP521 _) => Err UnsupportedCurve
  | _ => Err NotEcdsa
  end.

(** [PIGGY_AUTH_SOCK], unless empty. *)
Definition piggy_auth_sock_override (piggy_auth_sock : option bytes) : option bytes :=
  match piggy_auth_sock with Some [] => None | s => s end.

(** The socket to ask: that, or [SSH_AUTH_SOCK] unless empty. *)
Definition agent_socket (piggy_auth_sock ssh_auth_sock : option bytes) : option bytes :=
  match piggy_auth_sock_override piggy_auth_sock with
  | Some s => Some s
  | None => match ssh_auth_sock with Some [] => None | s => s end
  end.

Section Client.
Context {N : Type} `{AgentSockets N}.

(** A call of the library, with what becomes of its error. *)
Definition calls {E A} (f : bytes -> E) (m : N -> N * res bytes A) : IO E N A :=
  fun n => let (n, r) := m n in Some (n, map_err f r).

Definition unlock_agent_pin (socket : bytes) (pin : list Z) : IO OracleError N unit :=
  do! client := calls (fun _ => OracleTransport "connect") (connect_socket socket) in
  calls (fun _ => OracleTransport "unlock") (client_unlock client pin).

Definition agent_sign_message (socket : bytes) (slot_id : Z) (guid_hint fixed_pin : option (list Z)) (message : bytes) : IO AgentSignError N (bytes * Z) :=
  do! _ := (match fixed_pin with
            | Some pin => do! _ := io_try (unlock_agent_pin socket pin) in io_ret tt
            | None => io_ret tt
            end) in
  do! client := calls NoConnection (connect_socket socket) in
  do! ids := calls NoIdentities (client_identities client) in
  match ids with
  | [] => io_err ServesNothing
  | _ =>
      do! idx := io_lift (map_err NoSuchIdentity (select_signing_identity (id_comment <$> ids) slot_id guid_hint)) in
      do! id := io_lift (match ids !! idx with Some id => Ok id | None => Panic end) in
      do! field_len := io_lift (ecdsa_field_len (id_pubkey id)) in
      do! sig := calls AgentRefused (client_sign client (MkSignRequest (id_pubkey id) message 0)) in
      if negb (starts_with (sig_algorithm sig) (ascii "ecdsa-sha2-nistp")) then io_err (NotEcdsaSignature (sig_algorithm sig))
      else
        do! der := io_lift (map_err BadSignature (ssh_ecdsa_blob_to_der (sig_bytes sig))) in
        io_ret (der, field_len)
  end.

(** ** The key agreement *)

Inductive EcdhAttemptError : Type := AttemptRefused (e : OracleError) | AttemptFatal (e : OracleError).

Definition ecdh_once (socket name request_bytes : bytes) : IO EcdhAttemptError N bytes :=
  do! client := calls (fun _ => AttemptFatal (OracleTransport "connect")) (connect_socket socket) in
  do! response := calls (fun _ => AttemptRefused (OracleTransport "extension call")) (client_extension client (MkExtension name request_bytes)) in
  do! ext := io_lift (ok_or response (AttemptFatal (OracleProtocol "agent returned SUCCESS instead of ExtensionResponse"))) in
  io_lift (map_err (fun _ => AttemptFatal (OracleProtocol "response")) (decode_ecdh_response (ext_details ext))).

Fixpoint ecdh_under (names : list bytes) (last_refusal : option OracleError) (socket request_bytes : bytes) : IO OracleError N bytes :=
  match names with
  | [] => io_lift (match last_refusal with Some e => Err e | None => Panic end)
  | name :: names =>
      do! r := io_try (ecdh_once socket name request_bytes) in
      match r with
      | inl secret => io_ret secret
      | inr (AttemptRefused e) => ecdh_under names (Some e) socket request_bytes
      | inr (AttemptFatal e) => io_err e
      end
  end.

(** [AgentEcdhOracle::ecdh] *)
Definition agent_ecdh (socket self_pubkey_ssh_blob partner_pubkey_ssh_blob : bytes) : IO OracleError N bytes :=
  ecdh_under ECDH_NAMES None socket (encode_ecdh_request self_pubkey_ssh_blob partner_pubkey_ssh_blob 0).

(** ** Operator acts *)

Inductive OperatorActError : Type :=
| Unreachable (e : bytes)
| NoOperatorKey (e : option SelectKeyError)
| ActNotServed (e : bytes)
| ActProtocol (label : string).

(** [ssh_key::PublicKey::to_bytes] *)
Context (encode_key : KeyData -> option bytes).

Definition operator_act (socket : bytes) (slot_id : Z) (guid_hint : option (list Z)) (namespace : bytes) (hash : HashAlgorithm) (text : bytes)
    : IO OperatorActError N (Response * Identity) :=
  do! client := calls Unreachable (connect_socket socket) in
  do! identities := calls Unreachable (client_identities client) in
  do! index := io_lift (map_err (fun e => NoOperatorKey (Some e)) (select_signing_identity (id_comment <$> identities) slot_id guid_hint)) in
  do! identity := io_lift (match identities !! index with Some id => Ok id | None => Panic end) in
  do! key := io_lift (ok_or (encode_key (id_pubkey identity)) (NoOperatorKey None)) in
  let request := MkRequest key namespace (hash_as_str hash) text in
  do! answer := calls ActNotServed (client_extension client (MkExtension OPERATOR_ACT_EXT (request_encode request))) in
  do! answer := io_lift (ok_or answer (ActProtocol "plain SUCCESS, no operator-act response")) in
  if negb (bytes_eqb (ext_name answer) OPERATOR_ACT_EXT) then io_err (ActProtocol "a response to another extension")
  else
    do! response := io_lift (ok_or (response_decode (ext_details answer)) (ActProtocol "malformed operator-act response")) in
    match rs_status response, rs_sshsig response with
    | Signed, [] => io_err (ActProtocol "status signed, with no signature")
    | _, _ => io_ret (response, identity)
    end.
End Client.

(** ** [piggy operator-sign] *)

Inductive Exit : Type := ExitRefused | ExitUsage | ExitNotServed | ExitRetryable.

Definition exit_code (e : Exit) : Z := match e with ExitRefused => 1 | ExitUsage => 2 | ExitNotServed => 3 | ExitRetryable => 4 end.

Definition exit_of_status (status : Status) : Exit :=
  match status with Cancelled | CardAbsent => ExitRetryable | _ => ExitRefused end.

Definition exit_of_client_error (e : OperatorActError) : Exit :=
  match e with
  | Unreachable _ | ActNotServed _ => ExitNotServed
  | NoOperatorKey _ | ActProtocol _ => ExitRefused
  end.

(** [sign_core::parse_slot]: the slots that sign. *)
Inductive SlotError : Type := KeyManagementSlot | UnsupportedSlot (name : list Z).

Definition parse_slot (s : list Z) : res SlotError Z :=
  match named_slot s with
  | Some slot =>
      if (slot =? SLOT_PIV_AUTH) || (slot =? SLOT_SIGNATURE) then Ok slot
      else if slot =? SLOT_KEY_MGMT then Err KeyManagementSlot
      else Err (UnsupportedSlot (lower s))
  | None => Err (UnsupportedSlot (lower s))
  end.

Inductive SignRefusal : Type :=
| BadSlot (e : SlotError)
| BadHash (hash : list Z)
| BadNamespace (namespace : bytes)
| NoText
| TextTooLong (n : Z)
| NotDisplayable
| NoSocket
| ClientFailed (e : OperatorActError)
| AgentStatus (status : Status) (detail : bytes).

Definition parse_slot_and_hash (slot hash : list Z) : res SignRefusal (Z * HashAlgorithm) :=
  let* slot_id := map_err BadSlot (parse_slot slot) in
  let* hash := ok_or (hash_parse hash) (BadHash hash) in
  Ok (slot_id, hash).

Definition check_namespace (namespace : bytes) : res SignRefusal unit :=
  match display_class namespace with Some _ => Ok tt | None => Err (BadNamespace namespace) end.

Definition check_text (text : bytes) : res SignRefusal unit :=
  match displayable_text text with
  | Some _ => Ok tt
  | None => Err (match text with [] => NoText | _ => if MAX_TEXT_BYTES <? len text then TextTooLong (len text) else NotDisplayable end)
  end.

Record OperatorSignCli := MkOperatorSignCli { os_namespace : bytes; os_slot : list Z; os_guid : option (list Z); os_hash : list Z }.

Section OperatorSign.
Context {N : Type} `{AgentSockets N} (encode_key : KeyData -> option bytes) (base64_encode : bytes -> bytes).
Context (piggy_auth_sock ssh_auth_sock : option bytes).

Definition failing {A} (exit : Exit) (r : res SignRefusal A) : res (Exit * SignRefusal) A := map_err (pair exit) r.

(** The bytes for stdout, given those of stdin. *)
Definition operator_sign (args : OperatorSignCli) (text : bytes) : IO (Exit * SignRefusal) N bytes :=
  do! (slot_id, hash) := io_lift (failing ExitUsage (parse_slot_and_hash (os_slot args) (os_hash args))) in
  do! _ := io_lift (failing ExitRefused (check_namespace (os_namespace args))) in
  do! _ := io_lift (failing ExitRefused (check_text text)) in
  do! socket := io_lift (failing ExitNotServed (ok_or (agent_socket piggy_auth_sock ssh_auth_sock) NoSocket)) in
  do! (response, _) := io_map_err (fun e => (exit_of_client_error e, ClientFailed e))
    (operator_act encode_key socket slot_id (os_guid args) (os_namespace args) hash text) in
  match rs_status response with
  | Signed => io_ret (armor base64_encode (rs_sshsig response))
  | status => io_err (exit_of_status status, AgentStatus status (rs_detail response))
  end.
End OperatorSign.

(** ** Lemmas *)

(** *** Words of a comment *)

Definition word_char (c : Z) : Prop := is_whitespace c = false.

Lemma words_of_word w : forall acc rest, Forall word_char w -> words_from acc (w ++ rest) = words_from (acc ++ w) rest.
Proof.
  induction w as [|c w IH]; intros acc rest Hw; [now rewrite app_nil_r|]. inversion Hw as [|? ? Hc Hw']; subst. cbn. unfold word_char in Hc. rewrite Hc.
  rewrite IH by exact Hw'. now rewrite <- app_assoc.
Qed.

Lemma two_words a b : Forall word_char a -> Forall word_char b -> a <> [] -> b <> [] -> split_whitespace (a ++ [32] ++ b) = [a; b].
Proof.
  intros Ha Hb Na Nb. unfold split_whitespace. rewrite words_of_word by exact Ha. cbn. rewrite <- (app_nil_r b) at 1. rewrite words_of_word by exact Hb. cbn.
  unfold flush. destruct a; [easy|]. now destruct b.
Qed.

(** *** Hexadecimal digits *)

Definition digit (d : Z) : Prop := 0 <= d < 16.

Lemma upper_hex_plain d : digit d -> word_char (upper_hex d) /\ to_ascii_lowercase (upper_hex d) = if d <? 10 then 48 + d else 87 + d.
Proof.
  unfold digit. intros Hd. assert (Hall : d = 0 \/ d = 1 \/ d = 2 \/ d = 3 \/ d = 4 \/ d = 5 \/ d = 6 \/ d = 7 \/ d = 8 \/ d = 9 \/ d = 10 \/ d = 11 \/ d = 12 \/ d = 13 \/ d = 14 \/ d = 15) by lia.
  repeat (destruct Hall as [-> |Hall]; [now split|]). subst d. now split.
Qed.

Lemma lower_hex_inj a b : digit a -> digit b -> to_ascii_lowercase (upper_hex a) = to_ascii_lowercase (upper_hex b) -> a = b.
Proof.
  intros Ha Hb. rewrite (proj2 (upper_hex_plain a Ha)), (proj2 (upper_hex_plain b Hb)). unfold digit in *.
  destruct (Z.ltb_spec a 10), (Z.ltb_spec b 10); lia.
Qed.

Lemma byte_digits b : 0 <= b < 256 -> digit (b / 16) /\ digit (b mod 16).
Proof. unfold digit. pose proof (Z.mod_pos_bound b 16). intros Hb. split; [split; [apply Z.div_pos; lia|apply Z.div_lt_upper_bound; lia]|lia]. Qed.

Lemma hex2_word b : 0 <= b < 256 -> Forall word_char (fmt_hex2_upper b).
Proof. intros Hb. destruct (byte_digits b Hb) as [H1 H2]. repeat constructor; now apply upper_hex_plain. Qed.

Lemma hex2_inj a b : 0 <= a < 256 -> 0 <= b < 256 -> lower (fmt_hex2_upper a) = lower (fmt_hex2_upper b) -> a = b.
Proof.
  intros Ha Hb [= H1 H2]. destruct (byte_digits a Ha), (byte_digits b Hb). apply lower_hex_inj in H1, H2; try assumption.
  rewrite (Z.div_mod a 16), (Z.div_mod b 16) by lia. now rewrite H1, H2.
Qed.

Definition hex (l : bytes) : list Z := mbind fmt_hex2_upper l.

Lemma hex_words l : bytes_ok l -> Forall word_char (hex l).
Proof.
  intros Hl. induction Hl as [|b l Hb _ IH]; [constructor|]. unfold hex. cbn. change (mbind fmt_hex2_upper l) with (hex l).
  destruct (byte_digits b Hb) as [H1 H2]. constructor; [now apply upper_hex_plain|]. constructor; [now apply upper_hex_plain|exact IH].
Qed.

Lemma length_hex l : length (hex l) = (2 * length l)%nat.
Proof. induction l as [|b l IH]; [reflexivity|]. unfold hex in *. cbn. rewrite IH. lia. Qed.

Lemma hex_inj : forall a b, bytes_ok a -> bytes_ok b -> lower (hex a) = lower (hex b) -> a = b.
Proof.
  induction a as [|x a IH]; intros [|y b] Ha Hb He; try reflexivity; try discriminate He. inversion Ha as [|? ? Hx Ha']; inversion Hb as [|? ? Hy Hb']; subst.
  change (lower (hex (x :: a))) with (lower (fmt_hex2_upper x) ++ lower (hex a)) in He. change (lower (hex (y :: b))) with (lower (fmt_hex2_upper y) ++ lower (hex b)) in He.
  apply app_inj_1 in He as [H1 H2]; [|reflexivity]. apply hex2_inj in H1; [|assumption..]. subst. f_equal. now apply IH.
Qed.

Lemma hex_take n l : hex (take n l) = take (2 * n) (hex l).
Proof.
  revert l. induction n as [|n IH]; intros l; [reflexivity|]. destruct l as [|b l]; [now rewrite !take_nil|]. unfold hex in *. cbn [take mbind].
  replace (2 * S n)%nat with (S (S (2 * n))) by lia. cbn. f_equal. f_equal. apply IH.
Qed.

Lemma starts_with_true s p : starts_with s p = true <-> exists t, s = p ++ t.
Proof.
  unfold starts_with. revert s. induction p as [|c p IH]; intros s; cbn; [split; eauto|]. destruct s as [|d s]; [split; [discriminate|intros [t Ht]; discriminate]|].
  destruct (Z.eqb_spec c d) as [->|Hne]; [rewrite IH; split; intros [t Ht]; exists t; [now rewrite Ht|now injection Ht]|].
  split; [discriminate|]. intros [t [= ? _]]. congruence.
Qed.

(** *** The comment of a served key *)

(** As [cached_key] of [AgentCards] writes it. *)
Definition key_label (slot : Z) (g : Guid) : list Z := ascii "PIV_slot_" ++ fmt_hex2_upper slot ++ ascii " " ++ short_id g.

Definition guid_ok (g : Guid) : Prop := len (guid_bytes g) = 16 /\ bytes_ok (guid_bytes g).

Lemma label_words slot g : 0 <= slot < 256 -> guid_ok g -> split_whitespace (key_label slot g) = [ascii "PIV_slot_" ++ fmt_hex2_upper slot; hex (take 4 (guid_bytes g))].
Proof.
  intros Hs [Hl Hb]. unfold key_label. rewrite app_assoc. apply two_words.
  - apply Forall_app. split; [repeat constructor|now apply hex2_word].
  - apply hex_words. now apply Forall_take.
  - discriminate.
  - destruct (guid_bytes g) as [|b l]; discriminate.
Qed.

Lemma tag_same s s' : 0 <= s < 256 -> 0 <= s' < 256 ->
  eq_ignore_ascii_case (ascii "PIV_slot_" ++ fmt_hex2_upper s) (ascii "PIV_slot_" ++ fmt_hex2_upper s') = true <-> s = s'.
Proof.
  intros Hs Hs'. unfold eq_ignore_ascii_case, bytes_eqb. rewrite bool_decide_eq_true. split; [|now intros ->].
  unfold lower at 1 2. rewrite !fmap_app. intros He. apply app_inv_head in He. now apply hex2_inj.
Qed.

Lemma lower_take n s : lower (take n s) = take n (lower s).
Proof. apply fmap_take. Qed.

(** A full GUID as the hint means the cards whose GUID begins with its first four bytes. *)
Lemma short_matches g g' : guid_ok g -> guid_ok g' ->
  guid_prefix_match (hex (take 4 (guid_bytes g))) (to_hex g') = true <-> take 4 (guid_bytes g) = take 4 (guid_bytes g').
Proof.
  intros [Hl Hb] [Hl' Hb']. change (to_hex g') with (hex (guid_bytes g')). unfold guid_prefix_match. unfold len in Hl, Hl'.
  assert (Hn : forall l, (0 < length l)%nat -> is_nil (lower (hex l)) = false) by (now intros [|b l]; [cbn; lia|]).
  rewrite !Hn by (rewrite ?length_take; lia). cbn [negb andb]. rewrite orb_true_iff, !starts_with_true. split.
  - intros [[t Ht]|[t Ht]].
    + apply (f_equal length) in Ht. unfold lower in Ht. rewrite length_app, !length_fmap, !length_hex, length_take in Ht. lia.
    + apply hex_inj; [now apply Forall_take..|]. rewrite (hex_take 4 (guid_bytes g')), lower_take, Ht.
      rewrite take_app_length'; [reflexivity|]. unfold lower. rewrite length_fmap, length_hex, length_take. lia.
  - intros ->. right. exists (lower (hex (drop 4 (guid_bytes g')))). unfold lower. rewrite <- fmap_app. f_equal.
    rewrite <- (take_drop 4 (guid_bytes g')) at 1. unfold hex. now rewrite bind_app.
Qed.

(** The key serves the slot, on a card that the hint may mean. *)
Definition meant (slot : Z) (hint : option Guid) (key : CachedKey) : Prop :=
  ck_slot_id key = slot /\ forall g, hint = Some g -> take 4 (guid_bytes (ck_guid key)) = take 4 (guid_bytes g).

Definition key_labelled (key : CachedKey) : Prop :=
  ck_comment key = key_label (ck_slot_id key) (ck_guid key) /\ 0 <= ck_slot_id key < 256 /\ guid_ok (ck_guid key).

Lemma comment_meant slot hint key : 0 <= slot < 256 -> (forall g, hint = Some g -> guid_ok g) -> key_labelled key ->
  comment_matches slot (to_hex <$> hint) (ck_comment key) = true <-> meant slot hint key.
Proof.
  intros Hs Hh (Hc & Hk & Hg). unfold comment_matches, meant. rewrite Hc, label_words by assumption.
  pose proof (tag_same (ck_slot_id key) slot Hk Hs) as Ht. destruct (eq_ignore_ascii_case _ _); cbn [negb].
  - destruct hint as [g|]; cbn [fmap option_fmap option_map].
    + rewrite short_matches by auto. split; [intros He; split; [now apply Ht|now intros g' [= <-]]|intros [_ He]; auto].
    + split; [intros _; split; [now apply Ht|discriminate]|auto].
  - split; [discriminate|]. intros [He _]. now apply Ht in He.
Qed.

(** The only element that satisfies a predicate. *)
Lemma filter_one {A} (p : A -> bool) (l : list A) i :
  List.filter (fun i => match l !! i with Some x => p x | None => false end) (seq 0 (length l)) = [i] <->
  (exists x, l !! i = Some x /\ p x = true) /\ forall j x, l !! j = Some x -> p x = true -> j = i.
Proof.
  assert (Hin : forall j, In j (List.filter (fun i => match l !! i with Some x => p x | None => false end) (seq 0 (length l))) <-> exists x, l !! j = Some x /\ p x = true).
  { intros j. rewrite filter_In, in_seq. split.
    - intros [_ Hp]. destruct (l !! j) as [x|]; [eauto|discriminate].
    - intros (x & Hx & Hp). rewrite Hx. split; [|exact Hp]. apply lookup_lt_Some in Hx. lia. }
  set (ixs := List.filter _ _) in *. assert (Hnd : List.NoDup ixs) by apply List.NoDup_filter, seq_NoDup. clearbody ixs. split.
  - intros ->. split; [apply Hin; now left|]. intros j x Hx Hp. destruct (proj2 (Hin j)) as [->|[]]; eauto.
  - intros [Hi Hall]. apply Hin in Hi. destruct ixs as [|a [|b ixs]]; [destruct Hi|destruct Hi as [->|[]]; reflexivity|]. exfalso.
    assert (Ha : forall j, In j (a :: b :: ixs) -> j = i) by (intros j Hj; apply Hin in Hj as (x & Hx & Hp); eauto).
    inversion Hnd as [|? ? Hno _]; subst. apply Hno. rewrite (Ha a), (Ha b) by (simpl; auto). now left.
Qed.

Lemma select_one comments slot hint i : select_signing_identity comments slot hint = Ok i <->
  (exists c, comments !! i = Some c /\ comment_matches slot hint c = true) /\
  forall j c, comments !! j = Some c -> comment_matches slot hint c = true -> j = i.
Proof. rewrite <- filter_one. unfold select_signing_identity. destruct (List.filter _ _) as [|a [|b l]]; split; try discriminate; congruence. Qed.

(** *** The list of extensions *)

Lemma be32_of {E} n rest : 0 <= n < 2 ^ 32 -> be32_at (E := E) (to_be_bytes 4 n ++ rest) 0 = Ok n.
Proof.
  intros Hn. rewrite be32_at_Ok; [|lia|rewrite len_app, to_be_len; pose proof (len_nonneg rest); lia]. rewrite zdrop_0.
  change 4 with (len (to_be_bytes 4 n)) at 1. rewrite ztake_app. f_equal. apply from_to_be_bytes_small. exact Hn.
Qed.

Lemma parse_flat names texts : Forall2 (fun name text => from_utf8 name = Some text /\ len name < 2 ^ 32) names texts ->
  forall fuel, (length (query_details names) <= fuel)%nat -> flat_cstrings_loop fuel (query_details names) = Ok texts.
Proof.
  intros Hn. induction Hn as [|name text names texts [Hu Hl] _ IH]; intros fuel Hf; [now destruct fuel|].
  assert (Hd : query_details (name :: names) = to_be_bytes 4 (len name) ++ name ++ query_details names).
  { unfold query_details. cbn. now rewrite <- app_assoc. }
  rewrite Hd in Hf |- *. clear Hd. pose proof (len_nonneg name) as H0. assert (H4 : length (to_be_bytes 4 (len name)) = 4%nat) by apply length_to_be_bytes.
  rewrite !length_app, H4 in Hf. destruct fuel as [|fuel]; [lia|]. cbn [flat_cstrings_loop].
  destruct (to_be_bytes 4 (len name) ++ name ++ query_details names) as [|c s] eqn:Hc; [apply (f_equal length) in Hc; rewrite !length_app, H4 in Hc; discriminate|].
  rewrite <- Hc. clear c s Hc. pose proof (len_nonneg (query_details names)) as H1.
  destruct (Z.ltb_spec (len (to_be_bytes 4 (len name) ++ name ++ query_details names)) 4) as [Hlt|_]; [rewrite !len_app, to_be_len in Hlt; lia|].
  rewrite be32_of by lia. cbn [res_bind]. rewrite slice_from_Ok by (rewrite !len_app, to_be_len; lia). cbn [res_bind].
  assert (Hz : zdrop 4 (to_be_bytes 4 (len name) ++ name ++ query_details names) = name ++ query_details names) by (now rewrite <- (to_be_len (len name)), zdrop_app).
  rewrite Hz. destruct (Z.ltb_spec (len (name ++ query_details names)) (len name)) as [Hlt|_]; [rewrite len_app in Hlt; lia|].
  rewrite <- (Z.add_0_l (len name)) at 1. rewrite (slice_app 0 _ name (query_details names)) by (rewrite ?len_app, ?zdrop_0; try reflexivity; lia). cbn [res_bind].
  rewrite Hu. cbn [ok_or res_bind]. rewrite slice_from_Ok by (rewrite len_app; lia). cbn [res_bind]. rewrite zdrop_app, IH by lia. reflexivity.
Qed.

Lemma decode_flat names : length names <> 1%nat -> Forall (fun name => len name < 2 ^ 32) names ->
  decode_query_response (query_details names) = parse_flat_cstrings (query_details names).
Proof.
  intros Hn Hl. unfold decode_query_response. destruct names as [|name [|name2 names]]; [reflexivity|easy|]. inversion Hl as [|? ? Hname _]; subst.
  assert (Hd : query_details (name :: name2 :: names) = to_be_bytes 4 (len name) ++ name ++ to_be_bytes 4 (len name2) ++ name2 ++ query_details names).
  { unfold query_details. cbn. now rewrite <- !app_assoc. }
  pose proof (len_nonneg name) as H0. pose proof (len_nonneg name2) as H1. pose proof (len_nonneg (query_details names)) as H2.
  destruct (4 <=? len _); [|reflexivity]. rewrite Hd at 1. rewrite be32_of by lia. cbn [res_bind].
  destruct (Z.eqb_spec (len name + 4) (len (query_details (name :: name2 :: names)))) as [He|_]; [|reflexivity].
  rewrite Hd in He. rewrite !len_app, !to_be_len in He. lia.
Qed.

(** ** Properties *)

(** The list of extensions that an agent answers is the list its client reads: flat, as [handle_query] writes it, unless it
    is a single name, and wrapped in one string, as a proxy may write it, whatever it is. *)
Theorem query_answer_is_read names texts :
  Forall2 (fun name text => from_utf8 name = Some text /\ len name < 2 ^ 32) names texts ->
  (length names <> 1%nat -> decode_query_response (query_details names) = Ok texts) /\
  (len (query_details names) < 2 ^ 32 -> decode_query_response (enc32 (query_details names)) = Ok texts).
Proof.
  intros Hn. assert (Hl : Forall (fun name => len name < 2 ^ 32) names) by (eapply Forall2_Forall_l; [exact Hn|apply Forall_true; intros ? ? []; assumption]).
  split.
  - intros Hs. rewrite decode_flat by assumption. exact (parse_flat names texts Hn _ (le_n _)).
  - intros Hd. unfold decode_query_response, enc32. pose proof (len_nonneg (query_details names)) as H0. rewrite len_app, to_be_len.
    rewrite (proj2 (Z.leb_le _ _)) by lia. rewrite be32_of by lia. cbn [res_bind]. rewrite Z.add_comm, Z.eqb_refl.
    rewrite slice_from_Ok by (rewrite len_app, to_be_len; lia). cbn [res_bind]. rewrite <- (to_be_len (len (query_details names))) at 1. rewrite zdrop_app.
    exact (parse_flat names texts Hn _ (le_n _)).
Qed.

(** Which key a client asks an agent to sign with. Among the keys that an agent serves under the comments it gives
    them, the one chosen for a slot - and for a card, named by its whole GUID - is the only key of that slot on a card whose GUID
    begins with the same four bytes; when there is no such key, or more than one, none is chosen. *)
Theorem served_key_is_selected (keys : list CachedKey) slot hint i :
  0 <= slot < 256 -> (forall g, hint = Some g -> guid_ok g) -> Forall key_labelled keys ->
  select_signing_identity (ck_comment <$> keys) slot (to_hex <$> hint) = Ok i <->
  (exists key, keys !! i = Some key /\ meant slot hint key) /\ forall j key, keys !! j = Some key -> meant slot hint key -> j = i.
Proof.
  intros Hs Hh Hk. rewrite select_one. assert (Hkey : forall j key, keys !! j = Some key -> key_labelled key) by (intros j key Hj; eapply Forall_lookup_1; eauto).
  split; intros [(c & Hc & Hm) Hall].
  - rewrite list_lookup_fmap in Hc. destruct (keys !! i) as [key|] eqn:Hi; [|discriminate]. injection Hc as <-.
    split; [exists key; split; [reflexivity|]; eapply comment_meant; eauto|]. intros j key' Hj Hm'. apply (Hall j (ck_comment key')).
    + now rewrite list_lookup_fmap, Hj.
    + eapply comment_meant; eauto.
  - split; [exists (ck_comment c); split; [now rewrite list_lookup_fmap, Hc|eapply comment_meant; eauto]|]. intros j c' Hj Hm'.
    rewrite list_lookup_fmap in Hj. destruct (keys !! j) as [key|] eqn:Hkj; [|discriminate]. injection Hj as <-. apply (Hall j key Hkj). eapply comment_meant; eauto.
Qed.

Section Asked.
Context {N : Type} `{AgentSockets N} (encode_key : KeyData -> option bytes) (base64_encode : bytes -> bytes).
Context (piggy_auth_sock ssh_auth_sock : option bytes).

(** The comment of a key of the slot, on a card that the hint may mean. *)
Definition names_slot (slot : Z) (hint : option (list Z)) (comment : list Z) : Prop :=
  exists tag rest, split_whitespace comment = tag :: rest /\ lower tag = lower (ascii "PIV_slot_" ++ fmt_hex2_upper slot) /\
    forall h, hint = Some h -> guid_prefix_match (match rest with [] => [] | g :: _ => g end) h = true.

Lemma comment_names slot hint comment : comment_matches slot hint comment = true <-> names_slot slot hint comment.
Proof.
  unfold comment_matches, names_slot. destruct (split_whitespace comment) as [|tag rest]; [split; [discriminate|now intros (? & ? & ? & _)]|].
  unfold eq_ignore_ascii_case, bytes_eqb. case_bool_decide as Ht; cbn [negb].
  - split; [|intros (? & ? & [= <- <-] & _ & Hh)].
    + intros Hm. exists tag, rest. split; [reflexivity|]. split; [exact Ht|]. intros h ->. exact Hm.
    + destruct hint as [h|]; [now apply Hh|reflexivity].
  - split; [discriminate|]. intros (? & ? & [= <- <-] & He & _). contradiction.
Qed.

(** One run of the client, each call in the state that the one before it left: the socket is connected to, the identities are listed,
    the one of them that is of the slot is asked for the act, and the agent answers with a signature. *)
Definition asked_for (socket : bytes) (slot : Z) (hint : option (list Z)) (namespace : bytes) (hash : HashAlgorithm) (text : bytes)
    (response : Response) (n n' : N) : Prop :=
  exists (client : Client) (n1 n2 : N) ids i identity key details,
    connect_socket socket n = (n1, Ok client) /\ client_identities client n1 = (n2, Ok ids) /\
    ids !! i = Some identity /\ names_slot slot hint (id_comment identity) /\
    (forall j id, ids !! j = Some id -> names_slot slot hint (id_comment id) -> j = i) /\
    encode_key (id_pubkey identity) = Some key /\
    client_extension client (MkExtension OPERATOR_ACT_EXT (request_encode (MkRequest key namespace (hash_as_str hash) text))) n2
      = (n', Ok (Some (MkExtension OPERATOR_ACT_EXT details))) /\
    response_decode details = Some response.

Lemma parse_slot_signs s slot : parse_slot s = Ok slot -> In slot [0x9A; 0x9C].
Proof.
  unfold parse_slot. destruct (named_slot s) as [v|]; [|discriminate]. destruct ((v =? SLOT_PIV_AUTH) || _) eqn:Hv; [|destruct (v =? SLOT_KEY_MGMT); discriminate].
  intros [= <-]. apply orb_true_iff in Hv as [Hv|Hv]; apply Z.eqb_eq in Hv as ->; simpl; auto.
Qed.

Lemma calls_Ok_inv {E A} (f : bytes -> E) (m : N -> N * res bytes A) (n n' : N) x :
  calls f m n = Some (n', Ok x) -> m n = (n', Ok x).
Proof. unfold calls. destruct (m n) as [m' [y|e|]]; try discriminate. intros [= -> ->]. reflexivity. Qed.

Lemma operator_act_inv socket slot hint namespace hash text (n n' : N) response identity :
  operator_act encode_key socket slot hint namespace hash text n = Some (n', Ok (response, identity)) ->
  (rs_status response = Signed -> rs_sshsig response <> []) /\ asked_for socket slot hint namespace hash text response n n'.
Proof.
  intros Ha. unfold operator_act in Ha. bind_inv Ha as n1 client H1. bind_inv Ha as n2 ids H2. bind_inv Ha as n3 i H3. pure_inv H3.
  bind_inv Ha as n4 id H4. pure_inv H4. destruct (ids !! i) as [id'|] eqn:Hi; [|discriminate]. injection H4 as ->.
  bind_inv Ha as n5 key H5. pure_inv H5. bind_inv Ha as n6 answer H6. bind_inv Ha as n7 ext H7. pure_inv H7.
  destruct (bytes_eqb (ext_name ext) OPERATOR_ACT_EXT) eqn:Hn; cbn [negb] in Ha; [|discriminate]. apply bool_decide_eq_true in Hn.
  bind_inv Ha as n8 resp H8. pure_inv H8. apply calls_Ok_inv in H1, H2, H6.
  assert (Hr : resp = response /\ n6 = n').
  { destruct (rs_status resp); try (injection Ha as -> -> _; auto). destruct (rs_sshsig resp); [discriminate|injection Ha as -> -> _; auto]. }
  destruct Hr as [-> ->]. split; [intros Hst; rewrite Hst in Ha; now destruct (rs_sshsig response)|].
  destruct ext as [name details]. cbn [ext_name ext_details] in *. subst name.
  match goal with Hs : select_signing_identity _ _ _ = Ok i |- _ => apply select_one in Hs as [(c & Hc & Hm) Hall] end.
  rewrite list_lookup_fmap, Hi in Hc. injection Hc as <-.
  eexists client, n1, n2, ids, i, id, key, details. do 3 (split; [assumption|]). split; [now apply comment_names|].
  split; [|auto]. intros j id'' Hj Hnm. apply (Hall j (id_comment id'')); [now rewrite list_lookup_fmap, Hj|now apply comment_names].
Qed.

(** C8 (safety). What [piggy operator-sign] asks for and gives out. An agent is contacted only for a slot that signs, a registered namespace
    and a text that can be shown whole. Bytes come out only when the run was this: the agent was connected to and listed its
    identities; the one of them whose comment names the slot, and a card that the hint may mean, is the key that it was asked to sign with,
    over that very namespace, hash and text; it answered that it signed; and the bytes are the armor of its signature, which is not empty.
    The exit code that says asking again may help comes only of a cancelled act or an absent card. *)
Theorem operator_sign_is_shown_first args text (n n' : N) r :
  operator_sign encode_key base64_encode piggy_auth_sock ssh_auth_sock args text n = Some (n', r) ->
  (n' = n \/ exists slot hash class shown, parse_slot (os_slot args) = Ok slot /\ In slot [0x9A; 0x9C] /\ hash_parse (os_hash args) = Some hash /\
     display_class (os_namespace args) = Some class /\ displayable_text text = Some shown) /\
  (forall out, r = Ok out -> exists socket slot hash response, agent_socket piggy_auth_sock ssh_auth_sock = Some socket /\
     parse_slot (os_slot args) = Ok slot /\ hash_parse (os_hash args) = Some hash /\
     asked_for socket slot (os_guid args) (os_namespace args) hash text response n n' /\
     rs_status response = Signed /\ rs_sshsig response <> [] /\ out = armor base64_encode (rs_sshsig response)) /\
  (forall e why, r = Err (e, why) -> exit_code e = 4 -> exists status detail, why = AgentStatus status detail /\ (status = Cancelled \/ status = CardAbsent)).
Proof.
  intros Ho. unfold operator_sign in Ho. unfold io_bind at 1, io_lift at 1, parse_slot_and_hash, failing in Ho.
  destruct (parse_slot (os_slot args)) as [slot|e|] eqn:Hslot; cbn [map_err res_bind] in Ho;
    [|injection Ho as <- <-; split; [now left|]; split; [discriminate|]; now intros ? ? [= <- <-]
     |injection Ho as <- <-; split; [now left|]; split; discriminate].
  destruct (hash_parse (os_hash args)) as [hash|] eqn:Hhash; cbn [ok_or map_err res_bind] in Ho;
    [|injection Ho as <- <-; split; [now left|]; split; [discriminate|]; now intros ? ? [= <- <-]].
  unfold io_bind at 1, io_lift at 1, check_namespace in Ho. destruct (display_class (os_namespace args)) as [class|] eqn:Hclass; cbn [map_err] in Ho;
    [|injection Ho as <- <-; split; [now left|]; split; [discriminate|]; now intros ? ? [= <- <-]].
  unfold io_bind at 1, io_lift at 1, check_text in Ho. destruct (displayable_text text) as [shown|] eqn:Hshown; cbn [map_err] in Ho;
    [|injection Ho as <- <-; split; [now left|]; split; [discriminate|]; now intros ? ? [= <- <-]].
  split; [right; apply parse_slot_signs in Hslot as Hsigns; eauto 10|].
  unfold io_bind at 1, io_lift at 1 in Ho. destruct (agent_socket _ _) as [socket|]; cbn [ok_or map_err] in Ho;
    [|injection Ho as <- <-; split; [discriminate|]; now intros ? ? [= <- <-]].
  unfold io_bind at 1, io_map_err in Ho. destruct (operator_act encode_key socket slot _ _ hash text n) as [[m [[response identity]|e|]]|] eqn:Ha; [| | |discriminate];
    cbn [map_err] in Ho;
    [|injection Ho as <- <-; split; [discriminate|]; intros ? ? [= <- <-]; now destruct e|injection Ho as <- <-; now split].
  destruct (operator_act_inv _ _ _ _ _ _ _ _ _ _ Ha) as (Hsig & Hans). split.
  - intros out ->. destruct (rs_status response) eqn:Hst; try discriminate. injection Ho as -> <-. exists socket, slot, hash, response.
    repeat (split; [auto|]); auto.
  - intros e why -> He. destruct (rs_status response) eqn:Hst; try discriminate; injection Ho as _ <- <-; try discriminate He; eauto.
Qed.
End Asked.

(** The agent as the oracle of [Unlock] and of the plugin: its sockets, and the path of one. *)
Record AgentEcdhOracle (N : Type) := MkAgentOracle { ao_sockets : N; ao_socket_path : bytes }.
Arguments MkAgentOracle {N}.
Arguments ao_sockets {N}.
Arguments ao_socket_path {N}.

(** The loop over the names has no fuel: the call always returns. *)
#[export] Instance agent_ecdh_oracle {N : Type} `{AgentSockets N} : EcdhOracle (AgentEcdhOracle N) := {|
  ecdh o self_blob partner_blob :=
    match agent_ecdh (ao_socket_path o) self_blob partner_blob (ao_sockets o) with
    | Some (n, r) => (r, MkAgentOracle n (ao_socket_path o))
    | None => (Panic, o)
    end
|}.

Lemma agent_ecdh_returns {N : Type} `{AgentSockets N} socket a b (n : N) : agent_ecdh socket a b n <> None.
Proof.
  assert (Ho : forall name request (n : N), ecdh_once socket name request n <> None).
  { intros name request m. unfold ecdh_once, io_bind, calls, io_lift, ok_or. destruct (connect_socket socket m) as [m1 [client|e|]]; try discriminate.
    cbn [map_err]. destruct (client_extension client _ m1) as [m2 [[ext|]|e|]]; discriminate. }
  unfold agent_ecdh, ECDH_NAMES. cbn [ecdh_under]. unfold io_bind, io_try.
  pose proof (Ho CANONICAL (encode_ecdh_request a b 0) n) as H1. destruct (ecdh_once socket CANONICAL _ n) as [[n1 [s|[e|e]|]]|]; try discriminate; [|contradiction].
  pose proof (Ho LEGACY (encode_ecdh_request a b 0) n1) as H2. destruct (ecdh_once socket LEGACY _ n1) as [[n2 [s|[e2|e2]|]]|]; try discriminate. contradiction.
Qed.

(** ** Witnesses *)

Lemma query_answer_is_read_witness :
  decode_query_response (query_details (native_names false)) = Ok (native_names false) /\
  decode_query_response (enc32 (query_details (native_names true))) = Ok (native_names true).
Proof.
  split.
  - apply query_answer_is_read; [|discriminate]. repeat (constructor; [split; vm_compute; reflexivity|]). constructor.
  - apply query_answer_is_read; [|vm_compute; reflexivity]. repeat (constructor; [split; vm_compute; reflexivity|]). constructor.
Defined.

Definition toy_guid (b : Z) : Guid := MkGuid (repeat b 16).
Definition toy_served (slot b : Z) : CachedKey := MkCachedKey (toy_guid b) [] slot EcP256 (KeyEcdsa (NistP256 [])) (key_label slot (toy_guid b)).

Lemma toy_guid_ok b : 0 <= b < 256 -> guid_ok (toy_guid b).
Proof. intros Hb. split; [reflexivity|]. now repeat constructor. Qed.

Lemma toy_served_ok slot b : 0 <= slot < 256 -> 0 <= b < 256 -> key_labelled (toy_served slot b).
Proof. intros Hs Hb. split; [reflexivity|]. split; [exact Hs|]. now apply toy_guid_ok. Qed.

Lemma served_key_is_selected_witness :
  select_signing_identity (ck_comment <$> [toy_served 0x9A 7; toy_served 0x9C 7; toy_served 0x9C 171]) 0x9C (to_hex <$> Some (toy_guid 171)) = Ok 2%nat.
Proof.
  apply served_key_is_selected.
  - lia.
  - intros g [= <-]. now apply toy_guid_ok.
  - repeat (constructor; [apply toy_served_ok; lia|]). constructor.
  - split; [eexists; split; [reflexivity|]; split; [reflexivity|now intros g [= <-]]|].
    intros [|[|[|j]]] key Hj [Hs Hg]; cbn in Hj; try discriminate; injection Hj as <-; [discriminate Hs| |reflexivity]. specialize (Hg _ eq_refl). discriminate Hg.
Defined.

(** An agent that serves slots 9A and 9C, and signs whatever act it is asked for. *)
#[local] Instance toy_sockets : AgentSockets nat := {|
  Client := unit;
  connect_socket _ n := (S n, Ok tt);
  client_extension _ ext n := (S n, Ok (Some (MkExtension (ext_name ext) (response_encode (response_signed [1; 2])))));
  client_identities _ n := (S n, Ok [MkIdentity (KeyEcdsa (NistP256 [4])) (key_label 0x9A (toy_guid 7)); MkIdentity (KeyEcdsa (NistP256 [5])) (key_label 0x9C (toy_guid 7))]);
  client_sign _ _ n := (n, Err []);
  client_unlock _ _ n := (n, Err []);
|}.

Definition toy_cli : OperatorSignCli := MkOperatorSignCli (ascii "piggy-escalation-v1") (ascii "9C") None (ascii "sha512").

Abbreviation toy_sign_act := (operator_sign (N := nat) (fun _ => Some [9]) (fun l => l) None (Some (ascii "/agent")) toy_cli (ascii "grant: merge") 0%nat).

Lemma operator_sign_is_shown_first_witness :
  exists out n', toy_sign_act = Some (n', Ok out) /\ exists socket slot hash response,
    agent_socket None (Some (ascii "/agent")) = Some socket /\
    parse_slot (os_slot toy_cli) = Ok slot /\ hash_parse (os_hash toy_cli) = Some hash /\
    asked_for (fun _ => Some [9]) socket slot (os_guid toy_cli) (os_namespace toy_cli) hash (ascii "grant: merge") response 0%nat n' /\
    rs_status response = Signed /\ rs_sshsig response <> [] /\ out = armor (fun l => l) (rs_sshsig response).
Proof.
  assert (Hd : match toy_sign_act with Some (_, Ok _) => true | _ => false end = true) by (vm_compute; reflexivity).
  revert Hd. destruct toy_sign_act as [[n' [out|e|]]|] eqn:Hr; intros Hd; [|discriminate Hd..]. exists out, n'. split; [reflexivity|].
  exact (proj1 (proj2 (operator_sign_is_shown_first (fun _ => Some [9]) (fun l => l) None (Some (ascii "/agent")) toy_cli (ascii "grant: merge") 0%nat n' (Ok out) Hr)) out eq_refl).
Defined.
