(* ===== verification/SignBytes.v ===== *)
(** * SignBytes: signing bytes with a card or an agent, [piggy/src/sign_core.rs]

    [sign_message], which [piggy sign-bytes] and the [manage] method of that name call: a card first, the agent only when no
    card can be chosen.  The cards are a world of [AgentCards], the operator a [Frontend] of [Provision], the agent the sockets of
    [AgentClient].  In a request to the operator the slot is its number. *)

From Stdlib Require Import ZArith Lia String.
From stdpp Require Import base tactics list numbers.
From S2P Require Import Prelude PivError Guid Utf8 Wire Text Apdu Transport Slot Session Effects OperatorAct SigFormat Presence Upstream.
From S2P Require Import AgentCards AgentSession Provision AgentClient AgentEnds.

Local Open Scope Z_scope.

Definition PIN_RETRY_LIMIT : Z := 2.

Inductive Framing : Type := Raw | Der.

Inductive PickError : Type :=
| PcscContext (e : PivError)
| EnumerateCards (e : PivError)
| NoCardDetected
| NoCardWithGuid (guid : list Z)
| SeveralCards (n : Z) (guids : list (list Z)).

Inductive Failure : Type :=
| FailedSlot (e : SlotError)
| FailedAct (namespace : bytes)
| FailedPick (e : PickError)
| FailedBoth (card : PickError) (agent : AgentSignError)
| FailedRead (e : PivError)
| UnsupportedKey (alg : PivAlgorithm)
| FailedEntry (e : FrontendError)
| FailedSession (e : PivError)
| WrongPin (retries : Z)
| FailedVerify (e : PivError)
| FailedSign (e : PivError)
| FailedReframe (e : SigError).

(** [SignError]: a decline of the operator is apart from the rest. *)
Inductive SignBytesError : Type := SignDeclined (m : bytes) | SignFailed (e : Failure).

(** ** Which card *)

Section Pick.
Context {W : Type} `{CardWorld W} (fuel : nat).

Abbreviation Token := (PivToken (card_handle W)).

(** [into_iter().find(p)]: the tokens before the one, and then those after it, are dropped. *)
Fixpoint take_first (p : Token -> bool) (e : PickError) (ks : list Token) : IO PickError W Token :=
  match ks with
  | [] => io_err e
  | k :: ks =>
      if p k then do! _ := io_modify (drop_tokens ks) in io_ret k
      else do! _ := io_modify (drop_token k) in take_first p e ks
  end.

Definition pick_token (guid_hint : option (list Z)) (tokens : list Token) : IO PickError W Token :=
  match tokens, guid_hint with
  | [], _ => io_err NoCardDetected
  | _, Some guid => take_first (fun t => eq_ignore_ascii_case (to_hex (tok_guid t)) guid) (NoCardWithGuid guid) tokens
  | [k], None => io_ret k
  | _, None => do! _ := io_modify (drop_tokens tokens) in io_err (SeveralCards (len tokens) ((fun t => to_hex (tok_guid t)) <$> tokens))
  end.

Definition select_token (guid_hint : option (list Z)) : IO PickError W Token :=
  do! _ := io_map_err PcscContext new_context in
  do! tokens := io_map_err EnumerateCards (enumerate_tokens fuel) in
  pick_token guid_hint tokens.
End Pick.

(** ** Signing *)

(** The cards, the operator and the agents. *)
Record Signer (W F N : Type) := MkSigner { sg_world : W; sg_frontend : F; sg_agents : N }.
Arguments MkSigner {W F N}.
Arguments sg_world {W F N}.
Arguments sg_frontend {W F N}.
Arguments sg_agents {W F N}.

Section Sign.
Context {W F N : Type} `{CardWorld W} `{Frontend F} `{AgentSockets N} (fuel : nat) (L : CertLib) (Hs : Hashes).

(** The common name of a certificate's subject, of OpenSSL; and the environment. *)
Context (slot_cn : bytes -> option bytes) (piggy_auth_sock ssh_auth_sock : option bytes).

Abbreviation St := (Signer W F N).
Abbreviation Token := (PivToken (card_handle W)).

Definition at_cards {E A} (m : IO E W A) : IO E St A :=
  fun s => match m (sg_world s) with
           | Some (w, r) => Some (MkSigner w (sg_frontend s) (sg_agents s), r)
           | None => None
           end.

Definition at_frontend {E A} (q : F -> F * res E A) : IO E St A :=
  fun s => let (f, r) := q (sg_frontend s) in Some (MkSigner (sg_world s) f (sg_agents s), r).

Definition at_agents {E A} (m : IO E N A) : IO E St A :=
  fun s => match m (sg_agents s) with
           | Some (n, r) => Some (MkSigner (sg_world s) (sg_frontend s) n, r)
           | None => None
           end.

Definition failed {E A} (f : E -> Failure) (m : IO E St A) : IO SignBytesError St A := io_map_err (fun e => SignFailed (f e)) m.

(** The PIN of a turn; [frontend] tells whether there is one to ask. *)
Definition pin_request (card : CardId) (slot_id : Z) (attempts_remaining : option Z) : SecretRequest :=
  MkSecretRequest CurrentPin "Enter PIN" (Some card) (Some slot_id) attempts_remaining None.

Definition entry_error (e : FrontendError) : SignBytesError :=
  match e with Declined m => SignDeclined m | e => SignFailed (FailedEntry e) end.

Definition acquire_pin (fixed_pin : option (list Z)) (frontend : bool) (request : SecretRequest) : IO SignBytesError St (list Z) :=
  match fixed_pin with
  | Some p => io_ret p
  | None => if frontend then io_map_err entry_error (at_frontend (request_secret request)) else io_lift Panic
  end.

(** The session of a turn, until it is left: [inl] for another turn, after a wrong PIN that leaves so many tries. *)
Definition session_turn (k : Token) (slot_id : Z) (digest : bytes) (pin : list Z) (last : bool) : IO Failure W (Z + bytes) :=
  do! s := io_map_err FailedSession (open_session fuel k) in
  fun w =>
    match (do! slot := io_map_err FailedRead (in_session (read_slot_on fuel L slot_id)) in
           do! verified := io_try (in_session (Session.verify_pin fuel (as_bytes pin))) in
           match verified with
           | inl _ => do! der := io_map_err FailedSign (in_session (sign_prehash fuel slot digest)) in io_ret (inr der)
           | inr (PinIncorrect retries) => if last then io_err (WrongPin retries) else io_ret (inl retries)
           | inr e => io_err (FailedVerify e)
           end) (w, s) with
    | Some (ws, r) => Some (drop_open ws, r)
    | None => None
    end.

(** The loop; [None] when it has not ended within so many turns. *)
Fixpoint sign_with_card (turns : nat) (k : Token) (slot_id : Z) (digest : bytes) (fixed_pin : option (list Z)) (card : CardId) (frontend : bool)
    (attempt : Z) (attempts_remaining : option Z) : IO SignBytesError St bytes :=
  match turns with
  | O => fun _ => None
  | Datatypes.S turns =>
      do! pin := acquire_pin fixed_pin frontend (pin_request card slot_id attempts_remaining) in
      let last := match fixed_pin with Some _ => true | None => PIN_RETRY_LIMIT <=? attempt end in
      do! r := failed (fun e => e) (at_cards (session_turn k slot_id digest pin last)) in
      match r with
      | inl retries => sign_with_card turns k slot_id digest fixed_pin card frontend (attempt + 1) (Some retries)
      | inr der => io_ret der
      end
  end.

(** The digest and the field length of a key. *)
Definition digest_for (alg : PivAlgorithm) (message : bytes) : res Failure (bytes * Z) :=
  match alg with
  | EcP256 => Ok (sha256 Hs message, 32)
  | EcP384 => Ok (sha384 Hs message, 48)
  | other => Err (UnsupportedKey other)
  end.

Definition sign_with_token (turns : nat) (k : Token) (slot_id : Z) (message : bytes) (fixed_pin : option (list Z)) (frontend : bool)
    : IO SignBytesError St (bytes * Z) :=
  do! slot_meta := failed FailedRead (at_cards (on_token k (read_slot_on fuel L slot_id))) in
  do! (digest, field_len) := failed (fun e => e) (io_lift (digest_for (slot_algorithm slot_meta) message)) in
  let card_id := MkCardId (to_hex (tok_guid k)) (tok_yk_serial k) (slot_cn (slot_cert_der slot_meta)) in
  do! der := sign_with_card turns k slot_id digest fixed_pin card_id frontend 0 None in
  io_ret (der, field_len).

Definition sign_via_agent (slot_id : Z) (guid fixed_pin : option (list Z)) (message : bytes) (card_err : PickError) : IO SignBytesError St (bytes * Z) :=
  match agent_socket piggy_auth_sock ssh_auth_sock with
  | None => io_err (SignFailed (FailedPick card_err))
  | Some socket => failed (FailedBoth card_err) (at_agents (agent_sign_message socket slot_id guid fixed_pin message))
  end.

Definition framed (format : Framing) (signed : bytes * Z) : res SignBytesError bytes :=
  match format with
  | Raw => map_err (fun e => SignFailed (FailedReframe e)) (der_to_raw_rs (fst signed) (snd signed))
  | Der => Ok (fst signed)
  end.

Definition sign_message (turns : nat) (slot : list Z) (guid : option (list Z)) (message : bytes) (format : Framing) (fixed_pin : option (list Z))
    (frontend : bool) : IO SignBytesError St bytes :=
  do! slot_id := failed FailedSlot (io_lift (parse_slot slot)) in
  do! _ := failed FailedAct (io_lift (refuse_operator_act_signed_data message)) in
  do! selected := io_try (at_cards (select_token fuel guid)) in
  do! signed := (match selected with
                 | inl k => io_finally (sign_with_token turns k slot_id message fixed_pin frontend)
                              (fun s => MkSigner (drop_token k (sg_world s)) (sg_frontend s) (sg_agents s))
                 | inr card_err => sign_via_agent slot_id guid fixed_pin message card_err
                 end) in
  io_lift (framed format signed).
End Sign.

(** ** Lemmas *)

(** Questions for the PIN of a card, one after the other; the last answer may be a decline. *)
Inductive prompted {F} `{Frontend F} (card : CardId) (slot_id : Z) : nat -> option bytes -> F -> F -> Prop :=
| prompted_none f : prompted card slot_id 0 None f f
| prompted_declined remaining f f' m :
    request_secret (pin_request card slot_id remaining) f = (f', Err (Declined m)) -> prompted card slot_id 1 (Some m) f f'
| prompted_more n d remaining r f f1 f2 :
    request_secret (pin_request card slot_id remaining) f = (f1, r) -> (forall m, r <> Err (Declined m)) -> prompted card slot_id n d f1 f2 -> prompted card slot_id (S n) d f f2.

(** What was declined, by the result. *)
Definition declined_of {A} (r : res SignBytesError A) : option bytes := match r with Err (SignDeclined m) => Some m | _ => None end.

Section Facts.
Context {W F N : Type} `{CardWorld W} `{Frontend F} `{AgentSockets N} (fuel : nat) (L : CertLib) (Hs : Hashes).
Context (slot_cn : bytes -> option bytes) (piggy_auth_sock ssh_auth_sock : option bytes).

Abbreviation St := (Signer W F N).
Abbreviation Token := (PivToken (card_handle W)).

Lemma at_cards_inv {E A} (m : IO E W A) (s s' : St) r : at_cards m s = Some (s', r) -> sg_frontend s' = sg_frontend s /\ sg_agents s' = sg_agents s /\ m (sg_world s) = Some (sg_world s', r).
Proof. unfold at_cards. destruct (m (sg_world s)) as [[w x]|]; [|discriminate]. now intros [= <- <-]. Qed.

Lemma failed_inv {E A} (f : E -> Failure) (m : IO E St A) s s' r : failed f m s = Some (s', r) -> exists x, m s = Some (s', x) /\ r = map_err (fun e => SignFailed (f e)) x.
Proof. unfold failed, io_map_err. destruct (m s) as [[s1 x]|]; [|discriminate]. intros [= <- <-]. eauto. Qed.

Lemma session_turn_last k slot_id digest pin (w w' : W) retries : session_turn fuel L k slot_id digest pin true w <> Some (w', Ok (inl retries)).
Proof.
  intros Ht. unfold session_turn in Ht. bind_inv Ht as w1 sess Ho. destruct (io_bind _ _ _) as [[ws r]|] eqn:Hb; [|discriminate]. injection Ht as _ ->.
  bind_inv Hb as s1 slot H1'. bind_inv Hb as s2 v H2'. destruct v as [u|e]; [|destruct e; discriminate]. bind_inv Hb as s3 der H3'. discriminate.
Qed.

(** One PIN: no question when it is fixed, one otherwise. *)
Lemma acquire_prompts fixed_pin frontend card slot_id remaining (s s' : St) r :
  acquire_pin fixed_pin frontend (pin_request card slot_id remaining) s = Some (s', r) ->
  sg_agents s' = sg_agents s /\ exists n, (n <= 1)%nat /\ (is_Some fixed_pin -> n = 0%nat) /\
    prompted card slot_id n (declined_of r) (sg_frontend s) (sg_frontend s') /\
    (declined_of r = None -> forall m d f, prompted card slot_id m d (sg_frontend s') f -> prompted card slot_id (n + m) d (sg_frontend s) f).
Proof.
  unfold acquire_pin. destruct fixed_pin as [p|]; [intros [= <- <-]; split; [reflexivity|]; exists 0%nat; repeat split; [lia|constructor|auto]|].
  destruct frontend; [|intros [= <- <-]; split; [reflexivity|]; exists 0%nat; repeat split; [lia|constructor|auto]].
  unfold io_map_err, at_frontend. destruct (request_secret _ _) as [f x] eqn:Hq. intros [= <- <-]. split; [reflexivity|]. exists 1%nat.
  split; [lia|]. split; [now intros [? [=]]|]. destruct x as [p|fe|]; cbn.
  1,3: (split; [eapply prompted_more; [eauto|easy|constructor]|intros _ m d f' Hm; eapply prompted_more; [eauto|easy|exact Hm]]).
  destruct fe; cbn; (split; [first [eapply prompted_declined; eauto | eapply prompted_more; [eauto|easy|constructor]]|]);
    first [discriminate | intros _ m' d f' Hm; eapply prompted_more; [eauto|easy|exact Hm]].
Qed.

(** The loop asks at most as often as turns are left, and nobody with a fixed PIN. *)
Lemma card_prompts turns : forall k slot_id digest fixed_pin card frontend attempt remaining (s s' : St) r,
  0 <= attempt <= PIN_RETRY_LIMIT ->
  sign_with_card fuel L turns k slot_id digest fixed_pin card frontend attempt remaining s = Some (s', r) ->
  sg_agents s' = sg_agents s /\ exists n, Z.of_nat n <= PIN_RETRY_LIMIT + 1 - attempt /\ (is_Some fixed_pin -> n = 0%nat) /\
    prompted card slot_id n (declined_of r) (sg_frontend s) (sg_frontend s').
Proof.
  unfold PIN_RETRY_LIMIT. induction turns as [|turns IH]; intros k slot_id digest fixed_pin card frontend attempt remaining s s' r Ha Hr; [discriminate|].
  cbn [sign_with_card] in Hr. unfold io_bind at 1 in Hr. destruct (acquire_pin _ _ _ s) as [[s1 p]|] eqn:Hp; [|discriminate].
  apply acquire_prompts in Hp as (Hag & n & Hn & Hfix & Hpr & Hext).
  assert (Hstop : forall (x : res SignBytesError bytes), declined_of x = declined_of p -> Some (s1, x) = Some (s', r) ->
    sg_agents s' = sg_agents s /\ exists n, Z.of_nat n <= 2 + 1 - attempt /\ (is_Some fixed_pin -> n = 0%nat) /\ prompted card slot_id n (declined_of r) (sg_frontend s) (sg_frontend s')).
  { intros x Hx [= <- <-]. split; [exact Hag|]. exists n. split; [lia|]. split; [exact Hfix|]. now rewrite Hx. }
  destruct p as [pin|e|]; [|apply (Hstop (Err e) eq_refl Hr)|apply (Hstop Panic eq_refl Hr)]. clear Hstop.
  cbv zeta in Hr. unfold io_bind at 1 in Hr. destruct (failed _ _ s1) as [[s2 x]|] eqn:Ht; [|discriminate].
  apply failed_inv in Ht as (y & Ht & ->). apply at_cards_inv in Ht as (Hf2 & Ha2 & Hw2). rewrite <- Hf2 in Hext. cbn in Hext. specialize (Hext eq_refl).
  destruct y as [[retries|der]|e|]; cbn [map_err] in Hr.
  2,3,4: (injection Hr as <- <-; split; [congruence|]; exists (n + 0)%nat; split; [lia|]; split; [intros Hx; rewrite (Hfix Hx); reflexivity|]; apply Hext; constructor).
  assert (Hlast : fixed_pin = None /\ attempt < 2).
  { destruct fixed_pin as [p|]; [now apply session_turn_last in Hw2|]. split; [reflexivity|]. destruct (Z.leb_spec PIN_RETRY_LIMIT attempt) as [|Hlt]; [now apply session_turn_last in Hw2|exact Hlt]. }
  destruct Hlast as [-> Hlt]. apply IH in Hr as (Hag3 & m & Hm & _ & Hpr3); [|lia]. split; [congruence|]. exists (n + m)%nat. split; [lia|].
  split; [now intros [? [=]]|]. now apply Hext.
Qed.

Definition few_prompts (slot_id : Z) (fixed_pin : option (list Z)) (declined : option bytes) (s s' : St) : Prop :=
  sg_agents s' = sg_agents s /\ exists card n, Z.of_nat n <= 3 /\ (is_Some fixed_pin -> n = 0%nat) /\ prompted card slot_id n declined (sg_frontend s) (sg_frontend s').

Lemma token_prompts turns k slot_id message fixed_pin frontend (s s' : St) r :
  sign_with_token fuel L Hs slot_cn turns k slot_id message fixed_pin frontend s = Some (s', r) -> few_prompts slot_id fixed_pin (declined_of r) s s'.
Proof.
  intros Hr. unfold sign_with_token in Hr. unfold io_bind at 1 in Hr. destruct (failed FailedRead _ s) as [[s1 y]|] eqn:Hread; [|discriminate].
  apply failed_inv in Hread as (z & Hread & ->). apply at_cards_inv in Hread as (Hf & Ha & _).
  assert (Hnone : forall (q : res SignBytesError (bytes * Z)), Some (s1, q) = Some (s', r) -> declined_of q = None -> few_prompts slot_id fixed_pin (declined_of r) s s').
  { intros q [= <- <-] Hq. split; [exact Ha|]. exists (MkCardId [] None None), 0%nat. rewrite Hq, Hf. split; [lia|]. split; [auto|constructor]. }
  destruct z as [meta|e|]; cbn [map_err] in Hr; [|exact (Hnone _ Hr eq_refl)..]. unfold io_bind at 1, failed, io_map_err, io_lift in Hr.
  destruct (digest_for Hs _ message) as [[d fl]|e|]; cbn [map_err] in Hr; [|exact (Hnone _ Hr eq_refl)..]. clear Hnone.
  unfold io_bind in Hr. destruct (sign_with_card _ _ _ _ _ _ _ _ _ _ _ s1) as [[s2 y]|] eqn:Hc; [|discriminate].
  apply card_prompts in Hc as (Ha2 & n & Hn & Hfix & Hpr); [|unfold PIN_RETRY_LIMIT; lia].
  assert (Hx : s' = s2 /\ declined_of r = declined_of y) by (destruct y; now injection Hr as <- <-). destruct Hx as [-> ->].
  split; [congruence|]. rewrite <- Hf. do 2 eexists. split; [exact Hn|]. split; [exact Hfix|exact Hpr].
Qed.

Lemma agent_silent slot_id guid fixed_pin message card_err (s s' : St) r :
  sign_via_agent piggy_auth_sock ssh_auth_sock slot_id guid fixed_pin message card_err s = Some (s', r) ->
  sg_frontend s' = sg_frontend s /\ sg_world s' = sg_world s /\ declined_of r = None.
Proof.
  unfold sign_via_agent. destruct (agent_socket _ _) as [socket|]; [|now intros [= <- <-]]. intros Ha. apply failed_inv in Ha as (y & Ha & ->).
  unfold at_agents in Ha. destruct (agent_sign_message _ _ _ _ _ _) as [[n z]|]; [|discriminate]. injection Ha as <- ->. repeat split. now destruct y.
Qed.

Lemma framed_declines format signed : declined_of (framed format signed) = None.
Proof. unfold framed. destruct format; [|reflexivity]. now destruct (der_to_raw_rs _ _). Qed.
End Facts.

(** ** Properties *)

Section Properties.
Context {W F N : Type} `{CardWorld W} `{Frontend F} `{AgentSockets N} (fuel : nat) (L : CertLib) (Hs : Hashes).
Context (slot_cn : bytes -> option bytes) (piggy_auth_sock ssh_auth_sock : option bytes).

Abbreviation St := (Signer W F N).
Abbreviation sign := (sign_message (W := W) (F := F) (N := N) fuel L Hs slot_cn piggy_auth_sock ssh_auth_sock).

(** C14 (safety). Whom [sign-bytes] asks, and for what. A slot that does not sign, and the signed data of an operator act, are refused with
    nobody asked. Otherwise a card is chosen first. When there is one, no agent is asked whatever happens then, and the operator is asked for
    its PIN at most three times, not at all when a PIN was given. When there is none, no operator is asked. And the
    result is a decline exactly when the operator declined. *)
Theorem sign_message_asks turns slot guid message format fixed_pin frontend (s s' : St) r :
  sign turns slot guid message format fixed_pin frontend s = Some (s', r) ->
  ((is_ok (parse_slot slot) = false \/ is_ok (refuse_operator_act_signed_data message) = false) -> s' = s /\ exists e, r = Err (SignFailed e)) /\
  (s' = s \/ exists slot_id w picked, parse_slot slot = Ok slot_id /\ select_token fuel guid (sg_world s) = Some (w, picked) /\
     match picked with
     | Ok _ => few_prompts slot_id fixed_pin (declined_of r) s s'
     | _ => sg_frontend s' = sg_frontend s /\ sg_world s' = w /\ declined_of r = None
     end).
Proof.
  intros Hr. unfold sign_message in Hr. unfold io_bind at 1, failed, io_map_err, io_lift at 1 in Hr.
  destruct (parse_slot slot) as [slot_id|e|] eqn:Hslot; cbn [map_err] in Hr;
    [|injection Hr as <- <-; split; [split; [reflexivity|eauto]|now left]|exfalso; revert Hslot; unfold parse_slot; repeat case_match; discriminate].
  unfold io_bind at 1, io_map_err, io_lift at 1 in Hr. destruct (refuse_operator_act_signed_data message) as [[]|e|] eqn:Hact; cbn [map_err] in Hr;
    [|injection Hr as <- <-; split; [split; [reflexivity|eauto]|now left]|exfalso; revert Hact; unfold refuse_operator_act_signed_data; repeat case_match; discriminate].
  split; [intros [Hx|Hx]; discriminate Hx|]. right. unfold io_bind at 1, io_try, at_cards at 1 in Hr.
  destruct (select_token fuel guid (sg_world s)) as [[w [k|e|]]|] eqn:Hsel; try discriminate; exists slot_id, w; eexists; (split; [reflexivity|]); (split; [reflexivity|]).
  - unfold io_bind at 1 in Hr. destruct (io_finally _ _ _) as [[s1 x]|] eqn:Hf; [|discriminate]. apply io_finally_inv in Hf as (s2 & Hf & ->).
    apply token_prompts in Hf as (Ha & card & n & Hn & Hfix & Hpr). cbn in Ha, Hpr.
    assert (Hend : sg_frontend s' = sg_frontend s2 /\ sg_agents s' = sg_agents s2 /\ declined_of r = declined_of x).
    { destruct x as [signed|e|]; [|injection Hr as <- <-; auto..]. unfold io_lift in Hr. injection Hr as <- <-. repeat split. apply framed_declines. }
    destruct Hend as (Ef & Ea & ->). split; [congruence|]. exists card, n. rewrite Ef. auto.
  - unfold io_bind at 1 in Hr. destruct (sign_via_agent _ _ _ _ _ _ _ _) as [[s1 x]|] eqn:Ha; [|discriminate].
    apply agent_silent in Ha as (Hf & Hw & Hd). destruct x as [signed|e2|]; [|injection Hr as <- <-; auto..].
    unfold io_lift in Hr. injection Hr as <- <-. repeat split; try assumption. apply framed_declines.
  - injection Hr as <- <-. auto.
Qed.
End Properties.

(** *** It ends *)

Section Ends.
Context {W F N : Type} `{CardWorld W} `{Frontend F} `{AgentSockets N} (fuel : nat) (L : CertLib) (Hs : Hashes).
Context (slot_cn : bytes -> option bytes) (piggy_auth_sock ssh_auth_sock : option bytes).
Context (Ht : forall a, total (S := W * card_handle W) (Session.transmit fuel a)).

Abbreviation St := (Signer W F N).
Abbreviation Token := (PivToken (card_handle W)).

Lemma total_session_turn k slot_id digest pin last : total (session_turn fuel L k slot_id digest pin last).
Proof.
  unfold session_turn. apply total_bind; [apply total_map_err, total_open_session, Ht|]. intros s w. destruct (io_bind _ _ (w, s)) as [[ws r]|] eqn:E; [discriminate|].
  exfalso. revert E. refine (total_bind _ _ _ _ (w, s)); [apply total_map_err, total_in_session, (total_session_read_slot (H := world_transport)), Ht|].
  intros slot. apply total_bind; [apply total_try, total_in_session, (total_verify_pin (H := world_transport)), Ht|].
  intros [u|e]; [|destruct e; try destruct last; auto with total]. apply total_bind; [apply total_map_err, total_in_session, (total_ga (H := world_transport)), Ht|]. auto with total.
Qed.

Lemma total_at_cards {E A} (m : IO E W A) : total m -> total (S := St) (at_cards m).
Proof. intros Hm s. unfold at_cards. destruct (m (sg_world s)) as [[w r]|] eqn:E1; [discriminate|now apply Hm in E1]. Qed.

Lemma total_acquire fixed_pin frontend request : total (S := St) (acquire_pin fixed_pin frontend request).
Proof.
  unfold acquire_pin. destruct fixed_pin as [p|]; [apply total_ret|]. destruct frontend; [|apply total_lift]. apply total_map_err. intros s. unfold at_frontend.
  now destruct (request_secret request (sg_frontend s)).
Qed.

Lemma pin_turns_end k slot_id digest fixed_pin card frontend m : forall attempt remaining,
  PIN_RETRY_LIMIT + 1 - attempt <= Z.of_nat m -> (1 <= m)%nat ->
  total (S := St) (sign_with_card fuel L m k slot_id digest fixed_pin card frontend attempt remaining).
Proof.
  induction m as [|m IH]; intros attempt remaining Ha Hm; [lia|]. cbn [sign_with_card]. apply total_bind; [apply total_acquire|]. intros pin s. cbv zeta.
  pose proof (total_at_cards _ (total_session_turn k slot_id digest pin (match fixed_pin with Some _ => true | None => PIN_RETRY_LIMIT <=? attempt end)) s) as Hturn.
  unfold io_bind, failed, io_map_err. destruct (at_cards _ s) as [[s1 [[retries|der]|e|]]|] eqn:E1; cbn [map_err]; try discriminate; [|now destruct Hturn].
  apply at_cards_inv in E1 as (_ & _ & E1). destruct fixed_pin as [p|]; [now apply session_turn_last in E1|].
  destruct (Z.leb_spec PIN_RETRY_LIMIT attempt) as [|Hlt]; [now apply session_turn_last in E1|]. apply IH; unfold PIN_RETRY_LIMIT in *; lia.
Qed.

Lemma total_take_first (p : Token -> bool) e (ks : list Token) : total (take_first p e ks).
Proof. induction ks as [|k ks IH]; cbn [take_first]; total_walk. Qed.

Lemma total_select guid : total (select_token (W := W) fuel guid).
Proof.
  unfold select_token. apply total_bind; [apply total_map_err, total_new_context|]. intros u. apply total_bind; [apply total_map_err, total_enumerate, Ht|].
  intros tokens. unfold pick_token. pose proof total_take_first. destruct tokens as [|k [|k2 ks]], guid as [g|]; total_walk.
Qed.

Lemma total_calls {E A} (f : bytes -> E) (m : N -> N * res bytes A) : total (calls f m).
Proof. intros n. unfold calls. now destruct (m n). Qed.

Lemma total_agent_sign socket slot_id guid pin message : total (S := N) (agent_sign_message socket slot_id guid pin message).
Proof.
  unfold agent_sign_message, unlock_agent_pin. pose proof @total_calls. apply total_bind; [destruct pin; total_walk|]. intros u. total_walk.
Qed.

(** [sign-bytes] ends: when every command of a card returns, three turns of its PIN loop are enough, whatever the operator types,
    the card answers and the agent does. *)
Theorem sign_message_ends n slot guid message format fixed_pin frontend (s : St) :
  exists s' r, sign_message fuel L Hs slot_cn piggy_auth_sock ssh_auth_sock (3 + n) slot guid message format fixed_pin frontend s = Some (s', r).
Proof.
  assert (Hn : total (S := St) (sign_message fuel L Hs slot_cn piggy_auth_sock ssh_auth_sock (3 + n) slot guid message format fixed_pin frontend)).
  2: { specialize (Hn s). destruct (sign_message _ _ _ _ _ _ _ _ _ _ _ _ _ s) as [[s' r]|]; [eauto|easy]. }
  unfold sign_message. apply total_bind; [apply total_map_err, total_lift|]. intros slot_id. apply total_bind; [apply total_map_err, total_lift|]. intros u.
  apply total_bind; [apply total_try, total_at_cards, total_select|]. intros selected. apply total_bind; [|auto with total]. destruct selected as [k|e].
  - apply total_finally. unfold sign_with_token. apply total_bind; [apply total_map_err, total_at_cards, total_token_read_slot, Ht|]. intros meta.
    apply total_bind; [apply total_map_err, total_lift|]. intros [d fl]. apply total_bind; [|auto with total]. apply pin_turns_end; unfold PIN_RETRY_LIMIT; lia.
  - unfold sign_via_agent. destruct (agent_socket _ _) as [socket|]; [|auto with total]. apply total_map_err. intros s1. unfold at_agents.
    pose proof (total_agent_sign socket slot_id guid fixed_pin message (sg_agents s1)) as Hx. now destruct (agent_sign_message _ _ _ _ _ _) as [[n1 r]|].
Qed.
End Ends.

(** ** Witnesses *)

(** The card of [AgentCards], with a P-256 key, which takes no PIN. *)
Definition strict_answer (cmd : bytes) : bytes := if bool_decide (cmd !! 1%nat = Some 0x20) then [0x63; 0xC2] else demo_answer cmd ++ [0x90; 0x00].

Definition strict_world : CardWorld unit := {|
  card_handle := unit;
  establish w := (w, Ok tt);
  list_readers w := (w, Ok [ascii "reader"]);
  open_reader _ w := (w, Ok tt);
  close_handle _ w := w;
  send cmd _ w := (w, Ok (strict_answer cmd));
  begin_on _ w := (w, None);
  end_on _ _ w := (w, Ok tt);
  leave_on _ w := w;
  fresh_challenge w := (w, Some (repeat 0 32));
|}.

Definition strict_lib : CertLib := {|
  certificate_from_der _ := Some (MkSpki OID_EC_PUBLIC_KEY (Some (ParamsOid (Some OID_PRIME256V1))) (Some (4 :: repeat 5 64)));
  p256_uncompressed p := Some p;
  p384_uncompressed _ := None;
  pkcs1_from_der _ := None;
  mpint_from_positive _ := None;
  ecdsa_from_sec1 p := Some (Slot.NistP256 p);
  p256_key_ok _ := false;
  p256_sig_ok _ := false;
  p384_key_ok _ := false;
  p384_sig_ok _ := false;
  p256_verify _ _ _ := false;
  p384_verify _ _ _ := false;
|}.

(** An operator who types the same wrong PIN, and counts. *)
#[local] Instance typing : Frontend nat := {|
  request_secret _ n := (S n, Ok (ascii "000000"));
  request_mgmt_key _ n := (n, Err (Declined []));
  confirm _ n := (n, Ok false);
  progress _ n := n;
  completed _ n := n;
|}.

#[local] Instance no_agents : AgentSockets unit := {|
  Client := unit;
  connect_socket _ n := (n, Err []);
  client_extension _ _ n := (n, Err []);
  client_identities _ n := (n, Err []);
  client_sign _ _ n := (n, Err []);
  client_unlock _ _ n := (n, Err []);
|}.

Abbreviation toy_sign pin s :=
  (sign_message (H := strict_world) 1 strict_lib toy_hashes (fun _ => None) None None 3 (ascii "9c") None [1; 2; 3] Raw pin true s).

Definition three_wrong (r : option (Signer unit nat unit * res SignBytesError bytes)) : bool :=
  match r with Some (s, Err (SignFailed (WrongPin retries))) => (retries =? 2) && Nat.eqb (sg_frontend s) 3 | _ => false end.

Lemma toy_three_wrong : three_wrong (toy_sign None (MkSigner tt 0%nat tt)) = true.
Proof. vm_compute. reflexivity. Qed.

Lemma sign_message_asks_witness :
  exists s', sg_frontend s' = 3%nat /\ exists slot_id w picked, parse_slot (ascii "9c") = Ok slot_id /\ select_token (H := strict_world) 1 None tt = Some (w, picked) /\
     match picked with
     | Ok _ => few_prompts slot_id None None (MkSigner tt 0%nat tt) s'
     | _ => sg_frontend s' = 0%nat /\ sg_world s' = w /\ None = @None bytes
     end.
Proof.
  pose proof toy_three_wrong as Hd. revert Hd. destruct (toy_sign None (MkSigner tt 0%nat tt)) as [[s' [out|[m|[]]|]]|] eqn:Hr; intros Hd; try discriminate Hd.
  destruct s' as [w f a]. apply andb_prop in Hd as [_ Hf]. apply Nat.eqb_eq in Hf. exists (MkSigner w f a).
  split; [exact Hf|]. destruct (sign_message_asks (H := strict_world) 1 strict_lib toy_hashes (fun _ => None) None None 3 (ascii "9c") None [1; 2; 3] Raw None true _ _ _ Hr) as [_ [He|He]];
    [injection He as _ ->; discriminate Hf|exact He].
Defined.

Lemma strict_commands_return c : total (S := unit * @card_handle unit strict_world) (@Session.transmit _ (@world_raw unit strict_world) 1 c).
Proof.
  intros [[] []] Hn.
  assert (Ha : exists d sw, has_more_data sw = false /\ raw (H := @world_raw unit strict_world) (apdu_to_bytes c) ((), ()) = Some (((), ()), Ok (d ++ [sw1 sw; sw2 sw]))).
  { unfold raw, transmit_raw, world_raw, send_to. cbn [fst snd send strict_world]. unfold strict_answer.
    destruct (bool_decide _); [exists [], (MkSw 0x63 0xC2)|exists (demo_answer (apdu_to_bytes c)), (MkSw 0x90 0x00)]; now split. }
  destruct Ha as (d & sw & Hm & Ha). discriminate (eq_trans (eq_sym Hn) (transmit_single (H := @world_raw unit strict_world) 1 c _ _ d sw Ha Hm)).
Qed.

Lemma sign_message_ends_witness : exists s' r, toy_sign (Some (ascii "123456")) (MkSigner tt 0%nat tt) = Some (s', r).
Proof. apply (sign_message_ends (H := strict_world) 1 strict_lib toy_hashes (fun _ => None) None None strict_commands_return 0). Defined.
