(* ===== verification/AgePlugin.v ===== *)
(** * AgePlugin: the age plugin of the project, [age-plugin-piggy]

    Stanzas ([p256_stanza.rs]), the two state machines that age drives ([plugin.rs], [recipient.rs], [identity.rs]), the
    text of keys ([bech32id.rs], [convert.rs]) and the key of an attached card ([generate.rs]).  What comes from the
    crates [p256], [sha2], [age-core], [base64] and [bech32] is the record [AgeSuite]; the callbacks of [age-plugin] are a class. *)

From Stdlib Require Import ZArith Lia String.
From stdpp Require Import base tactics list numbers gmap.
From S2P Require Import Prelude PivError Guid Utf8 Reader Wire Text Slot Crypto AgentExt Transport Session Effects Blech32 Markl AgentCards Unlock Provision AgentClient SignBytes.

Local Open Scope Z_scope.

(** ** What the plugin takes from its libraries *)

(** [age_core::format::Stanza] *)
Record Stanza := MkStanza { st_tag : list Z; st_args : list (list Z); st_body : bytes }.

Record AgeSuite := {
  EncodedPoint : Type;
  PublicKey : Type;
  EphemeralSecret : Type;
  os_rng : Type;
  (** [EncodedPoint::from_bytes], [is_compressed], [PublicKey::from_encoded_point] *)
  ep_from_bytes : bytes -> option EncodedPoint;
  ep_is_compressed : EncodedPoint -> bool;
  pk_from_encoded_point : EncodedPoint -> option PublicKey;
  pk_from_sec1_bytes : bytes -> option PublicKey;
  (** [to_encoded_point(compress).as_bytes()] *)
  pk_to_encoded_point : bool -> PublicKey -> bytes;
  esk_random : os_rng -> EphemeralSecret * os_rng;
  esk_public_key : EphemeralSecret -> PublicKey;
  (** the X coordinate of the product *)
  esk_diffie_hellman : EphemeralSecret -> PublicKey -> bytes;
  sha256 : bytes -> bytes;
  (** [age_core::primitives]: salt, label, input key; the text; key, size of the text, ciphertext *)
  age_hkdf : bytes -> bytes -> bytes -> bytes;
  aead_encrypt : bytes -> bytes -> bytes;
  aead_decrypt : bytes -> Z -> bytes -> option bytes;
  (** [BASE64_STANDARD_NO_PAD] *)
  b64_encode : bytes -> list Z;
  b64_decode : list Z -> option bytes;
  (** [bech32::encode] of the base-32 groups of the bytes, [Variant::Bech32] *)
  bech32_encode : list Z -> bytes -> option (list Z);
}.

(** Documented behaviour of the libraries. *)
Record AgeSuiteLaws (A : AgeSuite) : Prop := {
  sha256_len m : len (sha256 A m) = 32;
  compressed_len p : len (pk_to_encoded_point A true p) = 33;
  uncompressed_len p : len (pk_to_encoded_point A false p) = 65;
  compressed_parses p : exists e, ep_from_bytes A (pk_to_encoded_point A true p) = Some e /\
    ep_is_compressed A e = true /\ pk_from_encoded_point A e = Some p;
  (** a compressed encoding is that of its point, for either parser *)
  compressed_unique b e p : ep_from_bytes A b = Some e -> ep_is_compressed A e = true -> pk_from_encoded_point A e = Some p ->
    pk_from_sec1_bytes A b = Some p /\ pk_to_encoded_point A true p = b;
  sec1_uncompressed p : pk_from_sec1_bytes A (pk_to_encoded_point A false p) = Some p;
  aead_len k m : len (aead_encrypt A k m) = len m + 16;
  aead_decrypt_len k n c m : aead_decrypt A k n c = Some m -> len m = n;
  aead_roundtrip k m : aead_decrypt A k (len m) (aead_encrypt A k m) = Some m;
  b64_roundtrip b : b64_decode A (b64_encode A b) = Some b;
  (** the encoding is canonical: no padding, no trailing bits *)
  b64_canonical s b : b64_decode A s = Some b -> b64_encode A b = s;
}.

(** A copy into an array of [n] bytes. *)
Definition copy_from_slice {E} (n : Z) (l : bytes) : res E bytes := if len l =? n then Ok l else Panic.

(** [try_into().ok()] *)
Definition to_array (n : Z) (l : bytes) : option bytes := if len l =? n then Some l else None.

(** ** Stanzas ([p256_stanza.rs]) *)

Definition PLUGIN_NAME : list Z := ascii "piggy".
Definition STANZA_TAG : list Z := ascii "piv-p256".
Definition STANZA_KEY_LABEL : bytes := ascii "piv-p256".
Definition TAG_BYTES : Z := 4.
Definition COMPRESSED_BYTES : Z := 33.
Definition FILE_KEY_BYTES : Z := 16.
Definition ENCRYPTED_FILE_KEY_BYTES : Z := FILE_KEY_BYTES + 16.

Inductive UnwrapError : Type := BadKey | OracleErr (e : OracleError) | Decrypt.

Record RecipientLine := MkLine { rl_tag : bytes; rl_epk_compressed : bytes; rl_encrypted_file_key : bytes }.

Definition salt (epk_compressed pk_compressed : bytes) : bytes := epk_compressed ++ pk_compressed.

Section Stanzas.
Context (A : AgeSuite).

Definition static_tag (pk_compressed : bytes) : bytes := ztake TAG_BYTES (sha256 A pk_compressed).

Definition validate_compressed (pk_compressed : bytes) : option unit :=
  encoded ← ep_from_bytes A pk_compressed;
  if negb (ep_is_compressed A encoded) then None
  else match pk_from_encoded_point A encoded with Some _ => Some tt | None => None end.

Definition uncompressed (pk_compressed : bytes) : option bytes :=
  pk ← pk_from_sec1_bytes A pk_compressed; Some (pk_to_encoded_point A false pk).

Definition decode_fixed (n : Z) (arg : list Z) : option bytes := l ← b64_decode A arg; to_array n l.

(** [From<RecipientLine> for Stanza] *)
Definition to_stanza (line : RecipientLine) : Stanza :=
  MkStanza STANZA_TAG [b64_encode A (rl_tag line); b64_encode A (rl_epk_compressed line)] (rl_encrypted_file_key line).

(** [None]: not a stanza of this plugin; [Some (Err tt)]: one, but malformed. *)
Definition from_stanza (stanza : Stanza) : option (res unit RecipientLine) :=
  if negb (bytes_eqb (st_tag stanza) STANZA_TAG) then None
  else
    let (tag, epk) := match st_args stanza with
                      | [tag; epk] => (decode_fixed TAG_BYTES tag, decode_fixed COMPRESSED_BYTES epk)
                      | _ => (None, None)
                      end in
    let body := to_array ENCRYPTED_FILE_KEY_BYTES (st_body stanza) in
    Some (match tag, epk, body with
          | Some tag, Some epk_compressed, Some encrypted_file_key =>
              match validate_compressed epk_compressed with
              | None => Err tt
              | Some _ => Ok (MkLine tag epk_compressed encrypted_file_key)
              end
          | _, _, _ => Err tt
          end).

Definition wrap_file_key (recipient_compressed file_key : bytes) (g : os_rng A) : res Empty_set (RecipientLine * os_rng A) :=
  match pk_from_sec1_bytes A recipient_compressed with
  | None => Panic
  | Some recipient_pub =>
      let (esk, g) := esk_random A g in
      let* epk_compressed := copy_from_slice COMPRESSED_BYTES (pk_to_encoded_point A true (esk_public_key A esk)) in
      let shared := esk_diffie_hellman A esk recipient_pub in
      let enc_key := age_hkdf A (salt epk_compressed recipient_compressed) STANZA_KEY_LABEL shared in
      let* encrypted_file_key := copy_from_slice ENCRYPTED_FILE_KEY_BYTES (aead_encrypt A enc_key file_key) in
      Ok (MkLine (static_tag recipient_compressed) epk_compressed encrypted_file_key, g)
  end.

Context {S : Type} `{EcdhOracle S}.

(** The call of an oracle, [&mut self]. *)
Definition ask_oracle (self_blob partner_blob : bytes) : IO OracleError S bytes :=
  fun o => let (r, o) := ecdh o self_blob partner_blob in Some (o, r).

Definition unwrap_file_key (line : RecipientLine) (recipient_compressed : bytes) : IO UnwrapError S bytes :=
  do! self_point := io_lift (ok_or (uncompressed recipient_compressed) BadKey) in
  do! partner_point := io_lift (ok_or (uncompressed (rl_epk_compressed line)) BadKey) in
  let self_blob := ec_point_to_ssh_pubkey_blob NistP256 self_point in
  let partner_blob := ec_point_to_ssh_pubkey_blob NistP256 partner_point in
  do! shared := io_map_err OracleErr (ask_oracle self_blob partner_blob) in
  let enc_key := age_hkdf A (salt (rl_epk_compressed line) recipient_compressed) STANZA_KEY_LABEL shared in
  do! plaintext := io_lift (ok_or (aead_decrypt A enc_key FILE_KEY_BYTES (rl_encrypted_file_key line)) Decrypt) in
  io_lift (copy_from_slice FILE_KEY_BYTES plaintext).
End Stanzas.

(** ** The state machines ([plugin.rs]) *)

Inductive PluginError : Type :=
| BadRecipient (index : Z)
| BadIdentity (index : Z)
| InvalidStanza (file_index stanza_index : nat)
| StanzaFailed (file_index stanza_index : nat) (e : UnwrapError)
| Internal (message : bytes).

(** [Callbacks::error]: taken, refused by age, or a broken pipe. *)
Inductive CallbackAnswer : Type := Taken | Refused | Broken (e : bytes).

Class Callbacks (K : Type) := callback_error : PluginError -> K -> K * CallbackAnswer.

Section Plugin.
Context (A : AgeSuite).

(** [Recipient::from_bytes]; [Identity::from_bytes] has the same body. *)
Definition key_from_bytes (plugin_name : list Z) (l : bytes) : option bytes :=
  if negb (bytes_eqb plugin_name PLUGIN_NAME) then None
  else
    compressed ← to_array COMPRESSED_BYTES l;
    _ ← validate_compressed A compressed;
    Some compressed.

(** [RecipientPlugin]: its recipients; [IdentityPlugin]: its identities. *)
Definition add_recipient (index : Z) (plugin_name : list Z) (l : bytes) (recipients : list bytes) : list bytes * res PluginError unit :=
  match key_from_bytes plugin_name l with
  | Some recipient => (recipients ++ [recipient], Ok tt)
  | None => (recipients, Err (BadRecipient index))
  end.

Definition add_identity (index : Z) (plugin_name : list Z) (l : bytes) (keys : list bytes) : list bytes * res PluginError unit :=
  match key_from_bytes plugin_name l with
  | Some identity => (keys ++ [identity], Ok tt)
  | None => (keys, Err (BadIdentity index))
  end.

(** The stanzas of one file key, one per recipient; of all file keys. *)
Fixpoint wrap_to (recipients : list bytes) (file_key : bytes) (g : os_rng A) : res Empty_set (list Stanza * os_rng A) :=
  match recipients with
  | [] => Ok ([], g)
  | r :: recipients =>
      let* (line, g) := wrap_file_key A r file_key g in
      let* (rest, g) := wrap_to recipients file_key g in
      Ok (to_stanza A line :: rest, g)
  end.

Fixpoint wrap_file_keys (recipients file_keys : list bytes) (g : os_rng A) : res Empty_set (list (list Stanza) * os_rng A) :=
  match file_keys with
  | [] => Ok ([], g)
  | file_key :: file_keys =>
      let* (stanzas, g) := wrap_to recipients file_key g in
      let* (rest, g) := wrap_file_keys recipients file_keys g in
      Ok (stanzas :: rest, g)
  end.

Context {S K : Type} `{EcdhOracle S} `{Callbacks K}.

Abbreviation FileKeys := (gmap nat (bytes + list PluginError)).

(** [callbacks.error(e)?.unwrap()] *)
Definition report_error {X} (e : PluginError) : IO bytes (X * K) unit :=
  fun s => let (k, a) := callback_error e (snd s) in
           Some ((fst s, k), match a with Taken => Ok tt | Refused => Panic | Broken e => Err e end).

Definition on_oracle {E B} (m : IO E S B) : IO E (S * K) B :=
  fun s => match m (fst s) with
           | Some (o, r) => Some ((o, snd s), r)
           | None => None
           end.

(** [agent_oracle] *)
Definition agent_oracle (piggy_auth_sock ssh_auth_sock : option bytes) (new : bytes -> res bytes S) : res bytes S :=
  match (match piggy_auth_sock_override piggy_auth_sock with Some s => Some s | None => ssh_auth_sock end) with
  | None => Err (ascii "no SSH agent socket: set PIGGY_AUTH_SOCK or SSH_AUTH_SOCK to a piggy-agent")
  | Some socket => new socket
  end.

Definition is_unwrapped (file_keys : FileKeys) (file_index : nat) : bool :=
  match file_keys !! file_index with Some (inl _) => true | _ => false end.

Definition try_stanza (identities : list bytes) (file_index stanza_index : nat) (stanza : Stanza) (file_keys : FileKeys)
    : IO bytes (S * K) FileKeys :=
  match from_stanza A stanza with
  | None => io_ret file_keys
  | Some (Ok line) =>
      match List.find (fun id => bytes_eqb (static_tag A id) (rl_tag line)) identities with
      | None => io_ret file_keys
      | Some identity =>
          do! r := io_try (on_oracle (unwrap_file_key A line identity)) in
          match r with
          | inl file_key => io_ret (<[file_index := inl file_key]> file_keys)
          | inr e => do! _ := report_error (StanzaFailed file_index stanza_index e) in io_ret file_keys
          end
      end
  | Some _ => do! _ := report_error (InvalidStanza file_index stanza_index) in io_ret file_keys
  end.

Fixpoint stanza_loop (identities : list bytes) (file_index stanza_index : nat) (stanzas : list Stanza) (file_keys : FileKeys)
    : IO bytes (S * K) FileKeys :=
  match stanzas with
  | [] => io_ret file_keys
  | stanza :: stanzas =>
      if is_unwrapped file_keys file_index then io_ret file_keys
      else
        do! file_keys := try_stanza identities file_index stanza_index stanza file_keys in
        stanza_loop identities file_index (Datatypes.S stanza_index) stanzas file_keys
  end.

Fixpoint file_loop (identities : list bytes) (file_index : nat) (files : list (list Stanza)) (file_keys : FileKeys) : IO bytes (S * K) FileKeys :=
  match files with
  | [] => io_ret file_keys
  | stanzas :: files =>
      do! file_keys := stanza_loop identities file_index 0 stanzas file_keys in
      file_loop identities (Datatypes.S file_index) files file_keys
  end.

(** The oracle lives as long as the run. *)
Definition unwrap_file_keys (identities : list bytes) (agent : res bytes S) (files : list (list Stanza)) : IO bytes K FileKeys :=
  match identities with
  | [] => io_ret ∅
  | _ =>
      fun k =>
        match agent with
        | Ok oracle =>
            match file_loop identities 0 files ∅ (oracle, k) with
            | Some (s, r) => Some (snd s, r)
            | None => None
            end
        | Err message =>
            match (do! _ := report_error (Internal message) in io_ret ∅) (tt, k) with
            | Some (s, r) => Some (snd s, r)
            | None => None
            end
        | Panic => Some (k, Panic)
        end
  end.
End Plugin.

(** ** Keys as text, and from a card *)

Section Keys.
Context (A : AgeSuite).

Definition recipient_hrp : list Z := ascii "age1" ++ PLUGIN_NAME.
Definition identity_hrp : list Z := ascii "age-plugin-" ++ PLUGIN_NAME ++ ascii "-".

Definition to_uppercase (s : list Z) : list Z := (fun c => if between 97 c 122 then c - 32 else c) <$> s.

(** The text is ASCII. *)
Definition encode_recipient (pubkey : bytes) : res Empty_set (list Z) :=
  match bech32_encode A recipient_hrp pubkey with Some s => Ok s | None => Panic end.

Definition encode_identity (pubkey : bytes) : res Empty_set (list Z) :=
  match bech32_encode A identity_hrp pubkey with Some s => Ok (to_uppercase s) | None => Panic end.

(** The two lines that [convert] and [generate] print. *)
Definition printed_key (pubkey : bytes) : res Empty_set (list Z * list Z) :=
  let* recipient := encode_recipient pubkey in
  let* identity := encode_identity pubkey in
  Ok (ascii "# recipient: " ++ recipient, identity).

Inductive ConvertError : Type := UnsupportedRecipient (f : FormatId) | NotAKey | WrongLength | NotCompressed.

Definition to_compressed (l : bytes) : res ConvertError bytes :=
  let* compressed := ok_or (to_array COMPRESSED_BYTES l) WrongLength in
  let* _ := ok_or (validate_compressed A compressed) NotCompressed in
  Ok compressed.

Definition resolve_pubkey (input : list Z) : res ConvertError bytes :=
  match id_parse input with
  | Ok id =>
      match id_format id with
      | PivyEcdhP256Pub => to_compressed (id_data id)
      | other => Err (UnsupportedRecipient other)
      end
  | Err _ =>
      match hex_decode (trim input) with
      | Some l => to_compressed l
      | None => Err NotAKey
      end
  | Panic => Panic
  end.

Inductive GenerateError : Type := GeneratePick (e : PickError) | GenerateRead (e : PivError) | NotP256 | BadSlotKey | BadCompressed.

Definition compress (sec1 : bytes) : res GenerateError bytes :=
  let* pubkey := ok_or (pk_from_sec1_bytes A sec1) BadSlotKey in
  ok_or (to_array COMPRESSED_BYTES (pk_to_encoded_point A true pubkey)) BadCompressed.

Context {W : Type} `{CardWorld W} (fuel : nat) (L : CertLib).

(** The card is chosen as [select_token] of [sign_core.rs] does, and dropped at the end. *)
Definition read_slot_9d_compressed (guid_hint : option (list Z)) : IO GenerateError W bytes :=
  do! token := io_map_err GeneratePick (select_token fuel guid_hint) in
  io_finally
    (do! slot := io_map_err GenerateRead (on_token token (read_slot_on fuel L 0x9D)) in
     do! uncompressed := io_lift (match slot_public_key slot with
                                  | KeyEcdsa (Slot.NistP256 point) => Ok point
                                  | _ => Err NotP256
                                  end) in
     io_lift (compress uncompressed))
    (drop_token token).
End Keys.

(** [--guid G] or [--guid=G] ([main.rs]). *)
Fixpoint parse_guid (args : list (list Z)) : option (list Z) :=
  match args with
  | [] => None
  | arg :: rest =>
      match strip_str (ascii "--guid=") arg with
      | Some value => Some value
      | None => if bytes_eqb arg (ascii "--guid") then head rest else parse_guid rest
      end
  end.

(** ** Lemmas *)

Section Lemmas.
Context (A : AgeSuite) (L : AgeSuiteLaws A).

(** What [add_recipient] and [add_identity] let in. *)
Definition is_key (l : bytes) : Prop := len l = COMPRESSED_BYTES /\ validate_compressed A l = Some tt.

(** The bytes of a point. *)
Definition key_of (p : PublicKey A) (l : bytes) : Prop := pk_from_sec1_bytes A l = Some p /\ pk_to_encoded_point A true p = l.

Lemma validated l : is_Some (validate_compressed A l) -> exists p, key_of p l.
Proof.
  intros [u Hv]. unfold validate_compressed in Hv. destruct (ep_from_bytes A l) as [e|] eqn:He; [|discriminate]. cbn in Hv.
  destruct (ep_is_compressed A e) eqn:Hc; [|discriminate]. cbn in Hv. destruct (pk_from_encoded_point A e) as [p|] eqn:Hp; [|discriminate].
  exists p. exact (compressed_unique A L _ _ _ He Hc Hp).
Qed.

Lemma point_validates p : is_key (pk_to_encoded_point A true p).
Proof.
  split; [apply L|]. destruct (compressed_parses A L p) as (e & He & Hc & Hp). unfold validate_compressed. rewrite He. cbn. now rewrite Hc, Hp.
Qed.

Lemma key_from_bytes_inv name l key : key_from_bytes A name l = Some key -> key = l /\ is_key l.
Proof.
  unfold key_from_bytes, to_array, is_key. destruct (negb _); [discriminate|]. destruct (len l =? COMPRESSED_BYTES) eqn:Hl; [|discriminate]. cbn.
  destruct (validate_compressed A l) as [[]|] eqn:Hv; [|discriminate]. intros [= <-]. apply Z.eqb_eq in Hl. auto.
Qed.

(** What the two machines hold are keys. *)
Lemma added_keys index name l keys :
  Forall is_key keys -> Forall is_key (fst (add_recipient A index name l keys)) /\ Forall is_key (fst (add_identity A index name l keys)).
Proof.
  intros Hk. unfold add_recipient, add_identity. destruct (key_from_bytes A name l) as [key|] eqn:Ha; [|split; exact Hk].
  apply key_from_bytes_inv in Ha as [-> Ha]. cbn. split; (apply Forall_app; split; [exact Hk|now apply Forall_singleton]).
Qed.

Lemma to_array_Some n l l' : to_array n l = Some l' <-> l' = l /\ len l = n.
Proof. unfold to_array. destruct (Z.eqb_spec (len l) n); split; [intros [= <-]; auto|intros [-> _]; auto|discriminate|intros [_ ?]; lia]. Qed.

Lemma decode_fixed_Some n s l : decode_fixed A n s = Some l <-> b64_encode A l = s /\ len l = n.
Proof.
  unfold decode_fixed. split.
  - destruct (b64_decode A s) as [b|] eqn:Hb; [|discriminate]. cbn. intros Hl. apply to_array_Some in Hl as [-> Hl]. split; [now apply L|exact Hl].
  - intros [<- Hl]. rewrite (b64_roundtrip A L). cbn. now apply to_array_Some.
Qed.

(** Whatever [convert] and [generate] print is a key that the plugin takes. *)
Lemma to_compressed_key l key : to_compressed A l = Ok key -> is_key key /\ key_from_bytes A PLUGIN_NAME key = Some key.
Proof.
  unfold to_compressed, to_array. destruct (len l =? COMPRESSED_BYTES) eqn:Hl; [|discriminate]. cbn [ok_or res_bind].
  destruct (validate_compressed A l) as [[]|] eqn:Hv; [|discriminate]. intros [= <-]. apply Z.eqb_eq in Hl as Hl'. split; [now split|].
  unfold key_from_bytes, to_array. rewrite Hl. cbn. now rewrite Hv.
Qed.

Lemma resolved_key input key : resolve_pubkey A input = Ok key -> is_key key /\ key_from_bytes A PLUGIN_NAME key = Some key.
Proof.
  unfold resolve_pubkey. destruct (id_parse input) as [id|e|]; [|destruct (hex_decode _); [|discriminate]|discriminate].
  - destruct (id_format id); try discriminate. apply to_compressed_key.
  - apply to_compressed_key.
Qed.

Lemma generated_key {W : Type} `{CardWorld W} fuel CL guid (w w' : W) key :
  read_slot_9d_compressed A fuel CL guid w = Some (w', Ok key) -> is_key key.
Proof.
  intros Hr. unfold read_slot_9d_compressed in Hr. bind_inv Hr as w1 token H1. apply io_finally_inv in Hr as (w2 & Hr & _).
  bind_inv Hr as w3 slot H3. bind_inv Hr as w4 point H4. pure_inv Hr. unfold compress in Hr. destruct (pk_from_sec1_bytes A point) as [p|]; [|discriminate].
  cbn [ok_or res_bind] in Hr. destruct (to_array _ _) as [l|] eqn:Hl; [|discriminate]. injection Hr as ->. apply to_array_Some in Hl as [-> _]. apply point_validates.
Qed.

(** *** Wrapping *)

Definition line_of (r : bytes) (p : PublicKey A) (file_key : bytes) (esk : EphemeralSecret A) : RecipientLine :=
  let epk := pk_to_encoded_point A true (esk_public_key A esk) in
  MkLine (static_tag A r) epk (aead_encrypt A (age_hkdf A (salt epk r) STANZA_KEY_LABEL (esk_diffie_hellman A esk p)) file_key).

Lemma wrap_file_key_line r p file_key g :
  key_of p r -> len file_key = FILE_KEY_BYTES ->
  wrap_file_key A r file_key g = Ok (line_of r p file_key (fst (esk_random A g)), snd (esk_random A g)).
Proof.
  intros [Hp _] Hf. unfold wrap_file_key, copy_from_slice. rewrite Hp. destruct (esk_random A g) as [esk g']. cbn [fst snd].
  rewrite (compressed_len A L). change (33 =? COMPRESSED_BYTES) with true. cbn [res_bind]. rewrite (aead_len A L), Hf. reflexivity.
Qed.

Lemma static_tag_len l : len (static_tag A l) = TAG_BYTES.
Proof. unfold static_tag. rewrite len_ztake; [reflexivity|]. rewrite (sha256_len A L). now vm_compute. Qed.

(** A stanza is read back as written, and only as written. *)
Lemma from_stanza_exact stanza line :
  from_stanza A stanza = Some (Ok line) <->
  stanza = to_stanza A line /\ len (rl_tag line) = TAG_BYTES /\ is_key (rl_epk_compressed line) /\ len (rl_encrypted_file_key line) = ENCRYPTED_FILE_KEY_BYTES.
Proof.
  split.
  - unfold from_stanza. destruct stanza as [tag args body]. cbn [st_tag st_args st_body]. destruct (bytes_eqb tag STANZA_TAG) eqn:Ht; [|discriminate].
    apply bool_decide_eq_true in Ht as ->. cbn [negb]. destruct args as [|a [|b [|c args]]]; try discriminate.
    destruct (decode_fixed A TAG_BYTES a) as [tag|] eqn:Ha, (decode_fixed A COMPRESSED_BYTES b) as [epk|] eqn:Hb, (to_array ENCRYPTED_FILE_KEY_BYTES body) as [efk|] eqn:Hc; try discriminate.
    destruct (validate_compressed A epk) as [[]|] eqn:Hv; [|discriminate]. intros [= <-].
    apply decode_fixed_Some in Ha as [<- Ha]. apply decode_fixed_Some in Hb as [<- Hb]. apply to_array_Some in Hc as [-> Hc]. repeat split; assumption.
  - intros (-> & Ht & [Hl Hv] & He). unfold from_stanza, to_stanza. cbn [st_tag st_args st_body].
    rewrite (bool_decide_eq_true_2 _ eq_refl : bytes_eqb STANZA_TAG STANZA_TAG = true). cbn [negb]. rewrite (proj2 (decode_fixed_Some TAG_BYTES _ _) (conj eq_refl Ht)).
    rewrite (proj2 (decode_fixed_Some COMPRESSED_BYTES _ _) (conj eq_refl Hl)), (proj2 (to_array_Some ENCRYPTED_FILE_KEY_BYTES _ _) (conj eq_refl He)), Hv.
    now destruct line.
Qed.

Lemma line_of_stanza r p file_key esk :
  len file_key = FILE_KEY_BYTES -> from_stanza A (to_stanza A (line_of r p file_key esk)) = Some (Ok (line_of r p file_key esk)).
Proof.
  intros Hf. apply from_stanza_exact. split; [reflexivity|]. split; [apply static_tag_len|]. split; [apply point_validates|]. cbn. now rewrite (aead_len A L), Hf.
Qed.

(** *** Unwrapping *)

Context {S K : Type} `{EcdhOracle S} `{Callbacks K}.

Definition blob (p : PublicKey A) : bytes := ec_point_to_ssh_pubkey_blob NistP256 (pk_to_encoded_point A false p).

(** A secret that is not that of the keys of a stanza: the stanza's file key is not decrypted under what is derived from it. *)
Definition opens_nothing (p : PublicKey A) (e : EphemeralSecret A) (s : bytes) : Prop :=
  forall r fk, key_of p r -> len fk = 16 ->
  let epk := pk_to_encoded_point A true (esk_public_key A e) in
  aead_decrypt A (age_hkdf A (epk ++ r) (ascii "piv-p256") s) 16
    (aead_encrypt A (age_hkdf A (epk ++ r) (ascii "piv-p256") (esk_diffie_hellman A e p)) fk) = None.

(** An agent that serves the keys [held]: it does not crash, and it answers for the keys it serves, with the shared secret.  For another key
    it may answer with an error, with the right secret, or with a wrong one. *)
Record serves (good : S -> Prop) (held : PublicKey A -> Prop) : Prop := {
  serves_safe o a b : good o -> fst (ecdh o a b) <> Panic;
  serves_on o a b : good o -> good (snd (ecdh o a b));
  serves_held o p e : good o -> held p -> fst (ecdh o (blob p) (blob (esk_public_key A e))) = Ok (esk_diffie_hellman A e p);
  serves_other o p e s : good o -> fst (ecdh o (blob p) (blob (esk_public_key A e))) = Ok s ->
    s = esk_diffie_hellman A e p \/ opens_nothing p e s;
}.

Lemma uncompressed_key p l : key_of p l -> uncompressed A l = Some (pk_to_encoded_point A false p).
Proof. intros [Hp _]. unfold uncompressed. now rewrite Hp. Qed.

Lemma key_point p : key_of p (pk_to_encoded_point A true p).
Proof. destruct (validated (pk_to_encoded_point A true p)) as (q & Hq & He); [rewrite (proj2 (point_validates p)); eauto|].
  destruct (compressed_parses A L p) as (e & H1 & H2 & H3). exact (compressed_unique A L _ _ _ H1 H2 H3).
Qed.

Section Agent.
Context (good : S -> Prop) (held : PublicKey A -> Prop) (Ho : serves good held).

(** The file key of a stanza that was wrapped to the key it is tried with, or a refusal. *)
Lemma unwrap_line o r p file_key esk :
  good o -> key_of p r -> len file_key = FILE_KEY_BYTES ->
  exists o' x, unwrap_file_key A (line_of r p file_key esk) r o = Some (o', x) /\ good o' /\ x <> Panic /\
    (forall fk, x = Ok fk -> fk = file_key) /\ (held p -> x = Ok file_key).
Proof.
  intros Hg Hp Hf. unfold unwrap_file_key, line_of. cbn [rl_epk_compressed rl_encrypted_file_key].
  rewrite (uncompressed_key _ _ Hp), (uncompressed_key _ _ (key_point _)). unfold io_bind at 1 2, io_lift at 1 2. cbn [ok_or].
  fold (blob p) (blob (esk_public_key A esk)). unfold io_bind at 1, io_map_err, ask_oracle.
  pose proof (serves_safe _ _ Ho o (blob p) (blob (esk_public_key A esk)) Hg) as Hs. pose proof (serves_on _ _ Ho o (blob p) (blob (esk_public_key A esk)) Hg) as Hk.
  pose proof (serves_other _ _ Ho o p esk) as Hr. pose proof (serves_held _ _ Ho o p esk Hg) as Hh.
  destruct (ecdh o (blob p) (blob (esk_public_key A esk))) as [[s|e|] o']; cbn [fst snd map_err] in *; [| |contradiction].
  - assert (Hright : s = esk_diffie_hellman A esk p -> exists o'' x, (do! enc_key := io_ret (age_hkdf A (salt (pk_to_encoded_point A true (esk_public_key A esk)) r) STANZA_KEY_LABEL s) in
        do! plaintext := io_lift (ok_or (aead_decrypt A enc_key FILE_KEY_BYTES
          (aead_encrypt A (age_hkdf A (salt (pk_to_encoded_point A true (esk_public_key A esk)) r) STANZA_KEY_LABEL (esk_diffie_hellman A esk p)) file_key)) Decrypt) in
        io_lift (copy_from_slice FILE_KEY_BYTES plaintext)) o' = Some (o'', x) /\ o'' = o' /\ x = Ok file_key).
    { intros ->. unfold io_bind, io_ret, io_lift. match goal with |- context [aead_decrypt A ?k _ _] => pose proof (aead_roundtrip A L k file_key) as Hrt end.
      rewrite Hf in Hrt. rewrite Hrt. cbn [ok_or]. unfold copy_from_slice. rewrite Hf. exists o', (Ok file_key). auto. }
    destruct (Hr s Hg eq_refl) as [Hs'|Hwrong].
    + destruct (Hright Hs') as (o'' & x & Hx & -> & ->). unfold io_bind at 1, io_ret in Hx. exists o', (Ok file_key).
      split; [exact Hx|]. repeat split; try assumption; [discriminate|now intros fk [= <-]].
    + pose proof (Hwrong r file_key Hp Hf) as Hnone. cbv zeta in Hnone. unfold io_bind, io_lift, salt, STANZA_KEY_LABEL, FILE_KEY_BYTES. rewrite Hnone.
      exists o', (Err Decrypt). repeat split; try assumption; try discriminate. intros Hp'. exfalso. injection (Hh Hp') as ->.
      pose proof (aead_roundtrip A L (age_hkdf A (pk_to_encoded_point A true (esk_public_key A esk) ++ r) (ascii "piv-p256") (esk_diffie_hellman A esk p)) file_key) as Hrt.
      rewrite Hf in Hrt. unfold FILE_KEY_BYTES in Hrt. congruence.
  - exists o', (Err (OracleErr e)). repeat split; try assumption; try discriminate. intros Hp'. discriminate (Hh Hp').
Qed.

Context (taken : forall e (k : K), snd (callback_error e k) = Taken).

Lemma report_taken {X} e (s : X * K) : exists k, report_error e s = Some ((fst s, k), Ok tt).
Proof. unfold report_error. pose proof (taken e (snd s)) as Ht. destruct (callback_error e (snd s)) as [k a]. cbn in Ht. subst a. eauto. Qed.

Context (recipients identities : list bytes).
Context (Hids : Forall is_key identities).
Context (apart : forall r i, r ∈ recipients -> i ∈ identities -> static_tag A r = static_tag A i -> r = i).

(** A recipient that an identity of the machine is, and that the agent serves. *)
Definition readable (r : bytes) : Prop := r ∈ identities /\ exists p, key_of p r /\ held p.

Abbreviation FileKeys := (gmap nat (bytes + list PluginError)).

Lemma try_wrapped fi si r p file_key esk (keys : FileKeys) (o : S) (k : K) :
  good o -> r ∈ recipients -> key_of p r -> len file_key = FILE_KEY_BYTES ->
  exists o' k' keys', try_stanza A identities fi si (to_stanza A (line_of r p file_key esk)) keys (o, k) = Some ((o', k'), Ok keys') /\ good o' /\
    (keys' = <[fi := inl file_key]> keys \/ keys' = keys /\ ~ readable r).
Proof.
  intros Hg Hr Hp Hf. unfold try_stanza. rewrite line_of_stanza by exact Hf. cbn [rl_tag line_of].
  destruct (List.find _ identities) as [id|] eqn:Hid.
  - apply find_some in Hid as [Hin Ht]. apply bool_decide_eq_true in Ht. apply list_elem_of_In in Hin.
    rewrite <- (apart r id Hr Hin (eq_sym Ht)) in *. destruct (unwrap_line o r p file_key esk Hg Hp Hf) as (o' & x & Hu & Hg' & Hx & Hok & Hh).
    unfold io_bind at 1, io_try, on_oracle. cbn [fst snd]. rewrite Hu. destruct x as [fk|e|]; [| |contradiction].
    + rewrite (Hok fk eq_refl). exists o', k, (<[fi := inl file_key]> keys). split; [reflexivity|]. auto.
    + cbn. destruct (report_taken (StanzaFailed fi si e) (o', k)) as [k' Hk]. unfold io_bind. rewrite Hk. exists o', k', keys. split; [reflexivity|].
      split; [exact Hg'|]. right. split; [reflexivity|]. intros [_ (q & Hq & Hheld)]. destruct Hp as [Hp _], Hq as [Hq _]. rewrite Hp in Hq. injection Hq as <-.
      discriminate (Hh Hheld).
  - exists o, k, keys. split; [reflexivity|]. split; [exact Hg|]. right. split; [reflexivity|]. intros [Hin _]. apply list_elem_of_In in Hin.
    apply (find_none _ _ Hid) in Hin. unfold bytes_eqb in Hin. now rewrite bool_decide_eq_true_2 in Hin.
Qed.

(** The stanzas of one file key. *)
Lemma stanza_loop_wrapped fi file_key : len file_key = FILE_KEY_BYTES -> forall rs g stanzas g' si (keys : FileKeys) (o : S) (k : K),
  wrap_to A rs file_key g = Ok (stanzas, g') -> Forall is_key rs -> (forall r, r ∈ rs -> r ∈ recipients) -> good o -> keys !! fi = None ->
  exists o' k' keys', stanza_loop A identities fi si stanzas keys (o, k) = Some ((o', k'), Ok keys') /\ good o' /\
    (keys' = <[fi := inl file_key]> keys \/ keys' = keys /\ forall r, r ∈ rs -> ~ readable r).
Proof.
  intros Hf rs. induction rs as [|r rs IH]; intros g stanzas g' si keys o k Hw Hrs Hin Hg Hk.
  { injection Hw as <- <-. exists o, k, keys. split; [reflexivity|]. split; [exact Hg|]. right. split; [reflexivity|]. intros r Hr. inversion Hr. }
  inversion Hrs as [|? ? Hr Hrs']; subst. destruct (validated r) as [p Hp]; [rewrite (proj2 Hr); eauto|]. cbn [wrap_to] in Hw.
  rewrite (wrap_file_key_line _ _ _ g Hp Hf) in Hw. cbn [res_bind] in Hw.
  destruct (wrap_to A rs file_key _) as [[rest g2]| |] eqn:Hrest; try discriminate. injection Hw as <- <-. cbn [stanza_loop]. unfold is_unwrapped. rewrite Hk.
  destruct (try_wrapped fi si r p file_key (fst (esk_random A g)) keys o k Hg) as (o1 & k1 & keys1 & H1 & Hg1 & Hcase);
    [apply Hin; now left|exact Hp|exact Hf|]. unfold io_bind. rewrite H1. destruct Hcase as [->|[-> Hno]].
  - exists o1, k1, (<[fi := inl file_key]> keys). split; [|auto]. destruct rest; cbn; [reflexivity|]. unfold is_unwrapped. now rewrite lookup_insert_eq.
  - destruct (IH _ _ _ (Datatypes.S si) keys o1 k1 Hrest Hrs') as (o2 & k2 & keys2 & H2 & Hg2 & Hcase2); [intros x Hx; apply Hin; now right|exact Hg1|exact Hk|].
    exists o2, k2, keys2. split; [exact H2|]. split; [exact Hg2|]. destruct Hcase2 as [->|[-> Hno2]]; [now left|right]. split; [reflexivity|].
    intros x Hx. apply elem_of_cons in Hx as [->|Hx]; auto.
Qed.

Lemma file_loop_wrapped : Forall is_key recipients -> (exists r, r ∈ recipients /\ readable r) ->
  forall file_keys g files g' fi (keys : FileKeys) (o : S) (k : K),
  wrap_file_keys A recipients file_keys g = Ok (files, g') -> Forall (fun fk => len fk = FILE_KEY_BYTES) file_keys -> good o ->
  (forall n, (fi <= n)%nat -> keys !! n = None) ->
  exists o' k' keys', file_loop A identities fi files keys (o, k) = Some ((o', k'), Ok keys') /\
    forall n, keys' !! n = if decide (n < fi)%nat then keys !! n else inl <$> file_keys !! (n - fi)%nat.
Proof.
  intros Hrs (r & Hr & Hread) file_keys. induction file_keys as [|fk file_keys IH]; intros g files g' fi keys o k Hw Hl Hg Hk.
  { injection Hw as <- <-. exists o, k, keys. split; [reflexivity|]. intros n. destruct (decide (n < fi)%nat); [reflexivity|]. rewrite lookup_nil. apply Hk. lia. }
  inversion Hl as [|? ? Hf Hl']; subst. cbn [wrap_file_keys] in Hw. destruct (wrap_to A recipients fk g) as [[stanzas g1]| |] eqn:H1; try discriminate. cbn [res_bind] in Hw.
  destruct (wrap_file_keys A recipients file_keys g1) as [[rest g2]| |] eqn:H2; try discriminate. injection Hw as <- <-. cbn [file_loop].
  destruct (stanza_loop_wrapped fi fk Hf _ _ _ _ 0%nat keys o k H1 Hrs) as (o1 & k1 & keys1 & H3 & Hg1 & Hcase); [auto|exact Hg|apply Hk; lia|].
  destruct Hcase as [->|[_ Hno]]; [|now destruct (Hno r Hr)]. unfold io_bind. rewrite H3.
  destruct (IH _ _ _ (Datatypes.S fi) (<[fi := inl fk]> keys) o1 k1 H2 Hl' Hg1) as (o2 & k2 & keys2 & H4 & Hlook).
  { intros n Hn. rewrite lookup_insert_ne by lia. apply Hk. lia. }
  exists o2, k2, keys2. split; [exact H4|]. intros n. rewrite Hlook. destruct (decide (n = fi)) as [->|Hne].
  - rewrite decide_True, decide_False by lia. rewrite lookup_insert_eq, Nat.sub_diag. reflexivity.
  - destruct (decide (n < fi)%nat); [rewrite decide_True by lia; now rewrite lookup_insert_ne by lia|].
    rewrite decide_False by lia. replace (n - fi)%nat with (Datatypes.S (n - Datatypes.S fi)) by lia. reflexivity.
Qed.

Lemma wrap_to_runs file_key rs g : Forall is_key rs -> len file_key = FILE_KEY_BYTES -> exists stanzas g', wrap_to A rs file_key g = Ok (stanzas, g').
Proof.
  intros Hrs Hf. revert g. induction Hrs as [|r rs [_ Hr] _ IH]; intros g; [eauto|]. destruct (validated r) as [p Hp]; [rewrite Hr; eauto|]. cbn.
  rewrite (wrap_file_key_line _ _ _ g Hp Hf). cbn [res_bind]. destruct (IH (snd (esk_random A g))) as (x & g' & ->). cbn. eauto.
Qed.

Lemma wrap_runs file_keys g : Forall is_key recipients -> Forall (fun fk => len fk = FILE_KEY_BYTES) file_keys ->
  exists files g', wrap_file_keys A recipients file_keys g = Ok (files, g').
Proof.
  intros Hrs Hl. revert g. induction Hl as [|fk file_keys Hf _ IH]; intros g; [eauto|]. cbn.
  destruct (wrap_to_runs fk recipients g Hrs Hf) as (x & g1 & ->). cbn. destruct (IH g1) as (y & g2 & ->). cbn. eauto.
Qed.
End Agent.
End Lemmas.

(** ** What is released *)

Section Released.
Context (A : AgeSuite) {S K : Type} `{EcdhOracle S} `{Callbacks K}.

Abbreviation FileKeys := (gmap nat (bytes + list PluginError)).

(** One question to the oracle, and any number of them. *)
Definition questioned (o o' : S) : Prop := exists a b, o' = snd (ecdh o a b).
Definition questions : S -> S -> Prop := rtc questioned.

(** The stanza opens to the file key: it is of the plugin's type, with a tag of four bytes, an ephemeral key that is the compressed encoding of a
    point, and a body of 32 bytes; the tag is the beginning of the hash of an identity of the machine; and the body is the file
    key, encrypted under what is derived from both keys and the secret that the agent, at some time of the run that
    began in [o0], gave for the two. *)
Definition opens (o0 : S) (identities : list bytes) (stanza : Stanza) (file_key : bytes) : Prop :=
  exists arg1 arg2 tag epk encoded id self partner shared (o : S),
    st_tag stanza = ascii "piv-p256" /\ st_args stanza = [arg1; arg2] /\
    b64_decode A arg1 = Some tag /\ len tag = 4 /\ b64_decode A arg2 = Some epk /\ len epk = 33 /\ len (st_body stanza) = 32 /\
    ep_from_bytes A epk = Some encoded /\ ep_is_compressed A encoded = true /\ is_Some (pk_from_encoded_point A encoded) /\
    id ∈ identities /\ tag = ztake 4 (sha256 A id) /\
    pk_from_sec1_bytes A id = Some self /\ pk_from_sec1_bytes A epk = Some partner /\ questions o0 o /\
    fst (ecdh o (ec_point_to_ssh_pubkey_blob NistP256 (pk_to_encoded_point A false self))
                (ec_point_to_ssh_pubkey_blob NistP256 (pk_to_encoded_point A false partner))) = Ok shared /\
    aead_decrypt A (age_hkdf A (epk ++ id) (ascii "piv-p256") shared) 16 (st_body stanza) = Some file_key /\ len file_key = 16.

(** Every entry of the map is a file key, and a stanza of its file opens to it. *)
Definition vouched (o0 : S) (identities : list bytes) (files : list (list Stanza)) (keys : FileKeys) : Prop :=
  forall n v, keys !! n = Some v -> exists file_key stanzas stanza,
    v = inl file_key /\ files !! n = Some stanzas /\ stanza ∈ stanzas /\ opens o0 identities stanza file_key.

(** What a stanza that is read looks like. *)
Lemma from_stanza_inv stanza line : from_stanza A stanza = Some (Ok line) ->
  exists arg1 arg2 encoded, st_tag stanza = ascii "piv-p256" /\ st_args stanza = [arg1; arg2] /\
    b64_decode A arg1 = Some (rl_tag line) /\ len (rl_tag line) = 4 /\
    b64_decode A arg2 = Some (rl_epk_compressed line) /\ len (rl_epk_compressed line) = 33 /\
    rl_encrypted_file_key line = st_body stanza /\ len (st_body stanza) = 32 /\
    ep_from_bytes A (rl_epk_compressed line) = Some encoded /\ ep_is_compressed A encoded = true /\ is_Some (pk_from_encoded_point A encoded).
Proof.
  assert (Hfix : forall n arg l, decode_fixed A n arg = Some l -> b64_decode A arg = Some l /\ len l = n).
  { intros n arg l. unfold decode_fixed, to_array. destruct (b64_decode A arg) as [b|]; [|discriminate]. cbn.
    destruct (Z.eqb_spec (len b) n); [intros [= <-]; auto|discriminate]. }
  unfold from_stanza. destruct (bytes_eqb _ _) eqn:Ht; [|discriminate]. apply bool_decide_eq_true in Ht. cbn [negb].
  destruct (st_args stanza) as [|a [|b [|c args]]]; try discriminate.
  destruct (decode_fixed A TAG_BYTES a) as [tag|] eqn:Ha, (decode_fixed A COMPRESSED_BYTES b) as [epk|] eqn:Hb,
    (to_array ENCRYPTED_FILE_KEY_BYTES (st_body stanza)) as [efk|] eqn:Hc; try discriminate.
  destruct (validate_compressed A epk) as [[]|] eqn:Hv; [|discriminate]. intros [= <-]. apply Hfix in Ha, Hb. cbn [rl_tag rl_epk_compressed rl_encrypted_file_key].
  unfold to_array in Hc. destruct (Z.eqb_spec (len (st_body stanza)) ENCRYPTED_FILE_KEY_BYTES) as [Hl|]; [|discriminate]. injection Hc as <-.
  unfold validate_compressed in Hv. destruct (ep_from_bytes A epk) as [e|]; [|discriminate]. cbn in Hv.
  destruct (ep_is_compressed A e) eqn:He; [|discriminate]. cbn [negb] in Hv. destruct (pk_from_encoded_point A e) eqn:Hp; [|discriminate].
  exists a, b, e. rewrite Hp. intuition eauto.
Qed.

Lemma unwrap_questions line id (o o' : S) r : unwrap_file_key A line id o = Some (o', r) -> questions o o'.
Proof.
  unfold unwrap_file_key, io_bind, io_lift, io_map_err, ask_oracle. intros Hu.
  destruct (ok_or (uncompressed A id) BadKey) as [self|e|]; [|injection Hu as <- _; apply rtc_refl..].
  destruct (ok_or (uncompressed A (rl_epk_compressed line)) BadKey) as [partner|e|]; [|injection Hu as <- _; apply rtc_refl..].
  match type of Hu with context [ecdh o ?a ?b] => assert (Hq : questioned o (snd (ecdh o a b))) by (now exists a, b); destruct (ecdh o a b) as [x y] end.
  cbn [snd] in Hq. apply rtc_once in Hq. destruct x as [shared|e|]; cbn [map_err] in Hu; [|injection Hu as <- _; exact Hq..].
  match type of Hu with context [ok_or ?d Decrypt] => destruct (ok_or d Decrypt) end; injection Hu as <- _; exact Hq.
Qed.

Lemma unwrap_opens line id stanza identities (o0 o o' : S) file_key :
  from_stanza A stanza = Some (Ok line) -> id ∈ identities -> static_tag A id = rl_tag line -> questions o0 o ->
  unwrap_file_key A line id o = Some (o', Ok file_key) -> opens o0 identities stanza file_key.
Proof.
  intros Hs Hid Ht Hq Hu. apply from_stanza_inv in Hs as (a1 & a2 & e & T1 & T2 & T3 & T4 & T5 & T6 & T7 & T8 & T9 & T10 & T11).
  unfold unwrap_file_key in Hu. bind_inv Hu as o1 self H1. pure_inv H1. bind_inv Hu as o2 partner H2. pure_inv H2.
  bind_inv Hu as o3 shared H3. pure_inv H3. bind_inv Hu as o4 plain H4. pure_inv H4. pure_inv Hu.
  unfold copy_from_slice in Hu. destruct (Z.eqb_spec (len plain) FILE_KEY_BYTES) as [Hl|]; [|discriminate]. injection Hu as ->.
  unfold uncompressed in H1, H2. destruct (pk_from_sec1_bytes A id) as [P|] eqn:HP; [|discriminate]. injection H1 as <-.
  destruct (pk_from_sec1_bytes A (rl_epk_compressed line)) as [E|] eqn:HE; [|discriminate]. injection H2 as <-. rewrite T7 in H4.
  unfold ask_oracle in H3. match type of H3 with (let (_, _) := ?q in _) = _ => destruct q as [x y] eqn:Eq end. injection H3 as _ ->.
  eexists a1, a2, (rl_tag line), (rl_epk_compressed line), e, id, P, E, shared, _. repeat (split; [eassumption|]). split; [symmetry; exact Ht|].
  do 2 (split; [assumption|]). split; [exact Hq|]. split; [now rewrite Eq|]. split; [exact H4|exact Hl].
Qed.

Lemma report_keeps {X} e (s s' : X * K) r : report_error e s = Some (s', r) -> fst s' = fst s.
Proof. unfold report_error. destruct (callback_error e (snd s)). now intros [= <- _]. Qed.

Lemma try_vouched o0 identities files fi si stanzas stanza (keys keys' : FileKeys) (s s' : S * K) :
  files !! fi = Some stanzas -> stanza ∈ stanzas -> vouched o0 identities files keys -> questions o0 (fst s) ->
  try_stanza A identities fi si stanza keys s = Some (s', Ok keys') -> vouched o0 identities files keys' /\ questions o0 (fst s').
Proof.
  intros Hf Hin Hv Hq Ht. unfold try_stanza in Ht. destruct (from_stanza A stanza) as [[line|u|]|] eqn:Hs.
  2,3: (bind_inv Ht as s1 u1 H1; pure_inv Ht; apply report_keeps in H1; rewrite H1; auto). 2: (pure_inv Ht; auto).
  destruct (List.find _ identities) as [id|] eqn:Hid; [|pure_inv Ht; auto]. apply find_some in Hid as [Hmem Htag]. apply bool_decide_eq_true in Htag.
  apply list_elem_of_In in Hmem. unfold io_bind at 1, io_try, on_oracle in Ht.
  destruct (unwrap_file_key A line id (fst s)) as [[o r]|] eqn:Hu; [|discriminate].
  assert (Hq' : questions o0 o) by (etransitivity; [exact Hq|exact (unwrap_questions _ _ _ _ _ Hu)]).
  destruct r as [fk|e|]; [|bind_inv Ht as s2 u2 H2; pure_inv Ht; apply report_keeps in H2; rewrite H2; auto|discriminate]. pure_inv Ht.
  split; [|exact Hq']. intros n v. destruct (decide (n = fi)) as [->|Hn]; [rewrite lookup_insert_eq|rewrite lookup_insert_ne by auto; apply Hv].
  intros [= <-]. exists fk, stanzas, stanza. repeat (split; [auto|]). exact (unwrap_opens _ _ _ _ _ _ _ _ Hs Hmem Htag Hq Hu).
Qed.

Lemma stanza_loop_vouched o0 identities files fi all stanzas : forall si (keys keys' : FileKeys) (s s' : S * K),
  files !! fi = Some all -> (forall x, x ∈ stanzas -> x ∈ all) -> vouched o0 identities files keys -> questions o0 (fst s) ->
  stanza_loop A identities fi si stanzas keys s = Some (s', Ok keys') -> vouched o0 identities files keys' /\ questions o0 (fst s').
Proof.
  induction stanzas as [|x stanzas IH]; intros si keys keys' s s' Hf Hin Hv Hq Hl; cbn [stanza_loop] in Hl; [pure_inv Hl; auto|].
  destruct (is_unwrapped keys fi); [pure_inv Hl; auto|]. bind_inv Hl as s1 keys1 H1.
  destruct (try_vouched o0 identities files fi si all x keys keys1 s s1 Hf (Hin x ltac:(now left)) Hv Hq H1) as [Hv1 Hq1].
  eapply IH; [exact Hf| |exact Hv1|exact Hq1|exact Hl]. intros y Hy. apply Hin. now right.
Qed.

Lemma file_loop_vouched o0 identities files rest : forall fi (keys keys' : FileKeys) (s s' : S * K),
  rest = drop fi files -> vouched o0 identities files keys -> questions o0 (fst s) ->
  file_loop A identities fi rest keys s = Some (s', Ok keys') -> vouched o0 identities files keys'.
Proof.
  induction rest as [|x rest IH]; intros fi keys keys' s s' Hr Hv Hq Hl; cbn [file_loop] in Hl; [pure_inv Hl; exact Hv|]. bind_inv Hl as s1 keys1 H1.
  assert (Hx : files !! fi = Some x) by (rewrite <- (Nat.add_0_r fi), <- lookup_drop, <- Hr; reflexivity).
  assert (Hd : rest = drop (Datatypes.S fi) files) by (replace (Datatypes.S fi) with (fi + 1)%nat by lia; rewrite <- drop_drop, <- Hr; reflexivity).
  destruct (stanza_loop_vouched o0 identities files fi x x 0 keys keys1 s s1 Hx (fun y Hy => Hy) Hv Hq H1) as [Hv1 Hq1].
  exact (IH _ _ _ _ _ Hd Hv1 Hq1 Hl).
Qed.
End Released.

(** ** Properties *)

(** C24 (roundtrip). age files are read back. Whatever file keys are wrapped to recipients that age handed in, wrapping returns;
    and when an agent serves the key of one of the recipients, and an identity of that key was handed in, unwrapping the stanzas
    returns all the file keys and nothing else, whatever other identities there are: what the agent answers for their keys - an
    error, the secret, or a wrong secret, under which no file key is decrypted - is reported to age at most, and the other stanzas are still tried.
    The agent does not crash; the four bytes of a tag have to tell the recipients from the identities of other keys; age has to take what is reported. *)
Theorem file_keys_read_back A (L : AgeSuiteLaws A) {S K : Type} `{EcdhOracle S} `{Callbacks K} good held recipients identities file_keys g (o : S) (k : K) :
  serves A good held -> (forall e (k : K), snd (callback_error e k) = Taken) ->
  Forall (is_key A) recipients -> Forall (is_key A) identities ->
  (forall r i, r ∈ recipients -> i ∈ identities -> static_tag A r = static_tag A i -> r = i) ->
  Forall (fun fk => len fk = FILE_KEY_BYTES) file_keys ->
  (exists r p, r ∈ recipients /\ r ∈ identities /\ key_of A p r /\ held p) -> good o ->
  exists files g', wrap_file_keys A recipients file_keys g = Ok (files, g') /\
    exists k' keys, unwrap_file_keys A identities (Ok o) files k = Some (k', Ok keys) /\ forall n, keys !! n = inl <$> file_keys !! n.
Proof.
  intros Ho Ht Hrs Hids Hap Hl (r & p & Hr & Hi & Hp & Hh) Hg. destruct (wrap_runs A L recipients file_keys g Hrs Hl) as (files & g' & Hw).
  exists files, g'. split; [exact Hw|].
  destruct (file_loop_wrapped A L good held Ho Ht recipients identities Hap Hrs (ex_intro _ r (conj Hr (conj Hi (ex_intro _ p (conj Hp Hh))))) file_keys g files g' 0%nat ∅ o k Hw Hl Hg)
    as (o' & k' & keys & Hloop & Hlook); [intros n _; apply lookup_empty|]. exists k', keys. unfold unwrap_file_keys. destruct identities as [|i identities]; [inversion Hi|].
  rewrite Hloop. split; [reflexivity|]. intros n. rewrite Hlook. rewrite decide_False by lia. now rewrite Nat.sub_0_r.
Qed.

(** C27 (safety). No file key is released that its file does not vouch for: whatever stanzas age hands in, every entry of the
    result is the plaintext of a well-formed stanza of that very file - of the plugin's type, with two arguments, of which the second is a
    valid compressed point - whose first argument is the tag of an identity of the machine, under the key derived
    from a secret that the agent gave, in the course of this run, for that identity and the stanza's ephemeral key; without an agent there is none. *)
Theorem released_keys_are_vouched A {S K : Type} `{EcdhOracle S} `{Callbacks K} identities (agent : res bytes S) files (k k' : K) keys :
  unwrap_file_keys A identities agent files k = Some (k', Ok keys) ->
  match agent with Ok o0 => vouched A o0 identities files keys | _ => keys = ∅ end.
Proof.
  unfold unwrap_file_keys. destruct identities as [|i identities].
  { intros [= _ <-]. destruct agent; [|reflexivity..]. intros n v. now rewrite lookup_empty. }
  destruct agent as [o|e|]; [| |discriminate].
  - destruct (file_loop A (i :: identities) 0 files ∅ (o, k)) as [[s r]|] eqn:Hl; [|discriminate]. intros [= _ ->].
    refine (file_loop_vouched A o (i :: identities) files files 0 ∅ keys (o, k) s eq_refl _ (rtc_refl _ o) Hl). intros n v. now rewrite lookup_empty.
  - unfold io_bind, report_error. cbn. destruct (callback_error _ _) as [k1 []]; cbn; try discriminate. now intros [= _ <-].
Qed.

(** ** Witnesses *)

(** Two points, [true] and [false]; a secret is its point. *)
Definition toy_sec1 (compress : bool) (p : bool) : bytes :=
  if compress then (if p then 2 else 3) :: repeat 0 32 else 4 :: (if p then 2 else 3) :: repeat 0 63.

Definition toy_parse (compress : bool) (l : bytes) : option bool :=
  if bytes_eqb l (toy_sec1 compress true) then Some true else if bytes_eqb l (toy_sec1 compress false) then Some false else None.

Definition toy_tag16 (k : bytes) : bytes := take 16 (k ++ repeat 0 16).

Definition toy_age : AgeSuite := {|
  EncodedPoint := bytes; PublicKey := bool; EphemeralSecret := bool; os_rng := Z;
  ep_from_bytes l := Some l;
  ep_is_compressed l := match l with 2 :: _ | 3 :: _ => true | _ => false end;
  pk_from_encoded_point := toy_parse true;
  pk_from_sec1_bytes l := match toy_parse true l with Some p => Some p | None => toy_parse false l end;
  pk_to_encoded_point := toy_sec1;
  esk_random g := (Z.odd g, g + 1);
  esk_public_key e := e;
  esk_diffie_hellman e p := [if andb e p then 7 else 9];
  sha256 l := take 32 (l ++ repeat 0 32);
  age_hkdf s l i := i ++ l ++ s;
  aead_encrypt k m := m ++ toy_tag16 k;
  aead_decrypt k n c := if (len c =? n + 16) && bytes_eqb (zdrop n c) (toy_tag16 k) && (0 <=? n) then Some (ztake n c) else None;
  b64_encode l := l;
  b64_decode s := Some s;
  bech32_encode hrp l := Some (hrp ++ [49] ++ l);
|}.

Lemma toy_parse_Some c l p : toy_parse c l = Some p -> toy_sec1 c p = l.
Proof. unfold toy_parse, bytes_eqb. repeat case_bool_decide; intros [= <-]; congruence. Qed.

Lemma toy_tag16_len k : len (toy_tag16 k) = 16.
Proof. unfold toy_tag16, len. rewrite length_take, length_app, repeat_length. lia. Qed.

(** The first sixteen bytes of the key matter. *)
Lemma toy_wrong_key k k' fk : len fk = 16 -> toy_tag16 k <> toy_tag16 k' -> aead_decrypt toy_age k' 16 (aead_encrypt toy_age k fk) = None.
Proof.
  intros Hl Hk. cbn [toy_age aead_decrypt aead_encrypt]. assert (Hz : forall t, zdrop 16 (fk ++ t) = t) by (intros t; rewrite <- Hl; apply zdrop_app).
  rewrite Hz. unfold bytes_eqb.
  rewrite (bool_decide_eq_false_2 _ Hk), andb_false_r. reflexivity.
Qed.

Lemma toy_age_laws : AgeSuiteLaws toy_age.
Proof.
  split; cbn [toy_age EncodedPoint PublicKey EphemeralSecret sha256 pk_to_encoded_point ep_from_bytes ep_is_compressed pk_from_encoded_point
    pk_from_sec1_bytes aead_encrypt aead_decrypt b64_encode b64_decode].
  - intros m. unfold len. rewrite length_take, length_app, repeat_length. lia.
  - now intros [].
  - now intros [].
  - intros []; eexists; repeat split.
  - intros b e p [= <-] _ Hp. rewrite Hp. split; [reflexivity|exact (toy_parse_Some _ _ _ Hp)].
  - now intros [].
  - intros k m. rewrite len_app, toy_tag16_len. reflexivity.
  - intros k n c m. destruct (_ && _) eqn:Hc; [|discriminate]. apply andb_prop in Hc as [Hc Hn]. apply andb_prop in Hc as [Hc _]. intros [= <-].
    apply Z.eqb_eq in Hc. apply Z.leb_le in Hn. apply len_ztake. lia.
  - intros k m. rewrite len_app, toy_tag16_len, Z.eqb_refl, zdrop_app, ztake_app. unfold bytes_eqb. rewrite bool_decide_eq_true_2 by reflexivity.
    rewrite (proj2 (Z.leb_le _ _) (len_nonneg m)). reflexivity.
  - reflexivity.
  - now intros s b [= <-].
Qed.

(** An agent that serves the point [true], and answers for [false] with a secret that is not the shared one; callbacks that count. *)
Definition toy_agent_blob (p : bool) : bytes := ec_point_to_ssh_pubkey_blob NistP256 (toy_sec1 false p).

#[local] Instance toy_agent : EcdhOracle nat := {|
  ecdh n a b :=
    (if bytes_eqb a (toy_agent_blob true) then
       if bytes_eqb b (toy_agent_blob true) then Ok [7] else if bytes_eqb b (toy_agent_blob false) then Ok [9] else Err NoKey
     else if bytes_eqb a (toy_agent_blob false) then Ok [1] else Err NoKey, S n)
|}.

#[local] Instance toy_callbacks : Callbacks nat := fun _ n => (S n, Taken).

Lemma toy_agent_serves : serves toy_age (S := nat) (fun _ => True) (fun p => p = true).
Proof.
  split.
  - intros o a b _. cbn. repeat case_match; discriminate.
  - auto.
  - intros o p e _ ->. now destruct e.
  - intros o p e s _ Hs. destruct p, e; vm_compute in Hs; try discriminate; injection Hs as <-; try (now left); right;
      (intros r fk _ Hl; cbv zeta; apply toy_wrong_key; [exact Hl|intros [=]]).
Qed.

Definition toy_keys : list bytes := [repeat 5 16; repeat 6 16].

Definition toy_ids : list bytes := [toy_sec1 true false; toy_sec1 true true].

Abbreviation toy_unwrap files := (unwrap_file_keys toy_age (S := nat) (K := nat) toy_ids (Ok 0%nat) files 0%nat).

Lemma file_keys_read_back_witness :
  exists files g', wrap_file_keys toy_age [toy_sec1 true false; toy_sec1 true true] toy_keys 1 = Ok (files, g') /\
    exists k' keys, toy_unwrap files = Some (k', Ok keys) /\ forall n, keys !! n = inl <$> toy_keys !! n.
Proof.
  apply (file_keys_read_back toy_age toy_age_laws (S := nat) (K := nat) (fun _ => True) (fun p => p = true)).
  - exact toy_agent_serves.
  - reflexivity.
  - repeat constructor.
  - repeat constructor.
  - intros r i Hr Hi. unfold toy_ids in Hi. rewrite !elem_of_cons, elem_of_nil in Hr, Hi.
    destruct Hr as [->|[->|[]]], Hi as [->|[->|[]]]; intros Ht; first [reflexivity|now vm_compute in Ht].
  - repeat constructor.
  - exists (toy_sec1 true true), true. split; [right; left|]. split; [right; left|]. repeat split.
  - exact I.
Defined.

Definition toy_files : list (list Stanza) :=
  match wrap_file_keys toy_age [toy_sec1 true false; toy_sec1 true true] toy_keys 1 with Ok (files, _) => files | _ => [] end.

Definition toy_opened (r : option (nat * res bytes (gmap nat (bytes + list PluginError)))) : bool :=
  match r with Some (_, Ok keys) => match keys !! 1%nat with Some (inl fk) => bytes_eqb fk (repeat 6 16) | _ => false end | _ => false end.

Lemma toy_files_open : toy_opened (toy_unwrap toy_files) = true.
Proof. vm_compute. reflexivity. Qed.

Lemma released_keys_are_vouched_witness :
  exists keys, keys !! 1%nat = Some (inl (repeat 6 16)) /\ vouched toy_age 0%nat toy_ids toy_files keys.
Proof.
  pose proof toy_files_open as Hd. revert Hd. destruct (toy_unwrap toy_files) as [[k' [keys|e|]]|] eqn:Hr; intros Hd; [|discriminate Hd..].
  exists keys. split; [| exact (released_keys_are_vouched toy_age (S := nat) (K := nat) _ (Ok 0%nat) _ _ _ _ Hr)].
  cbn [toy_opened] in Hd. destruct (keys !! 1%nat) as [[fk|e]|]; [|discriminate Hd..]. now apply bool_decide_eq_true in Hd as ->.
Defined.
