(* ===== verification/CardOracle.v ===== *)
(** * CardOracle: key agreement on a card without an agent, [piggy/src/card_oracle.rs]

    [CardEcdhOracle] over the cards of [AgentCards]: which card holds a key, the PIN that is kept per card, the session of an
    agreement; the route of a PIN prompt, and what the answer of an askpass program means.  Who supplies PINs is a class.
    OpenSSL's points are those of [Crypto]. *)

From Stdlib Require Import ZArith Lia String.
From stdpp Require Import base tactics list numbers gmap.
From S2P Require Import Prelude PivError Guid Utf8 Wire Text Apdu Transport Slot Crypto AgentExt Session Effects Unlock PinCache AgentCards AgentEnds.

Local Open Scope Z_scope.

(** ** The PIN prompt *)

Inductive PinRoute : Type := Askpass (program : bytes) | Tty.

Definition pin_route (require askpass : option bytes) : res OracleError PinRoute :=
  if bool_decide (require = Some (ascii "never")) then Ok Tty
  else match askpass with
       | Some (c :: v) => Ok (Askpass (c :: v))
       | _ =>
           if bool_decide (require = Some (ascii "force"))
           then Err (OracleOther "no PIN source: SSH_ASKPASS_REQUIRE=force but SSH_ASKPASS not set")
           else Ok Tty
       end.

Definition ASKPASS_EXIT_REFUSED_WITH_REASON : Z := 3.

(** [trim_end_matches] of carriage returns and newlines. *)
Fixpoint trim_lines_start (s : list Z) : list Z :=
  match s with
  | c :: t => if (c =? 13) || (c =? 10) then trim_lines_start t else s
  | [] => []
  end.
Definition trim_lines (s : list Z) : list Z := reverse (trim_lines_start (reverse s)).

(** The end of an askpass program, by its exit code ([None]: a signal) and its output, as [run_askpass_of_kind] reads it. *)
Inductive AskpassRefusal : Type := RefusedWith (reason : list Z) | ExitedWith (code : option Z) | EmptyPin.

Definition askpass_answer (code : option Z) (output : list Z) : res AskpassRefusal (list Z) :=
  let reason := trim output in
  if bool_decide (code = Some ASKPASS_EXIT_REFUSED_WITH_REASON) && negb (bool_decide (reason = [])) then Err (RefusedWith reason)
  else if negb (bool_decide (code = Some 0)) then Err (ExitedWith code)
  else match trim_lines output with
       | [] => Err EmptyPin
       | pin => Ok pin
       end.

(** ** The oracle *)

(** [PinSupplier]: a closure with a state. *)
Class PinSupplier (Q : Type) := supply_pin : list Z -> Q -> Q * res OracleError (list Z).

(** The errors of the calls, with the texts they begin with. *)
Definition transport_err (label : string) (_ : PivError) : OracleError := OracleTransport label.

Definition piv_to_oracle_pin_error (e : PivError) : OracleError :=
  match e with
  | PinIncorrect _ => OracleOther "wrong PIN"
  | PivError.PinBlocked => OracleOther "PIN blocked"
  | _ => OracleTransport "verify_pin"
  end.

(** [template::DEFAULT_SLOT] *)
Definition DEFAULT_SLOT : Z := 0x9D.

Record CardEcdhOracle (W Q : Type) := MkCardOracle { co_world : W; co_supplier : Q; co_pin_cache : gmap Guid (list Z) }.
Arguments MkCardOracle {W Q}.
Arguments co_world {W Q}.
Arguments co_supplier {W Q}.
Arguments co_pin_cache {W Q}.

Section Oracle.
Context (C : Crypto) {W Q : Type} `{CardWorld W} `{PinSupplier Q} (fuel : nat) (L : CertLib).

Abbreviation St := (CardEcdhOracle W Q).
Abbreviation Token := (PivToken (card_handle W)).

Definition canonicalize_uncompressed (point : bytes) : res OracleError bytes :=
  if bool_decide (head point = Some 0x04) then Ok point
  else
    let* c := (if len point =? 33 then Ok Crypto.NistP256
               else if len point =? 49 then Ok Crypto.NistP384
               else Err (InvalidPubkey "compressed point does not match P-256 or P-384")) in
    let* ec := map_err (fun _ => InvalidPubkey "decompress") (ec_from_bytes C c point) in
    map_err (fun _ => OracleOther "openssl encode") (ec_uncompressed C c ec).

Definition on_cards {E A} (m : IO E W A) : IO E St A :=
  fun o => match m (co_world o) with
           | Some (w, r) => Some (MkCardOracle w (co_supplier o) (co_pin_cache o), r)
           | None => None
           end.

(** The loop over the tokens: one that is passed over is dropped. *)
Fixpoint find_by_pubkey (target_uncompressed : bytes) (tokens : list Token) : IO OracleError W (option Token) :=
  match tokens with
  | [] => io_ret None
  | token :: tokens =>
      do! slot := io_try (on_token token (read_slot_on fuel L DEFAULT_SLOT)) in
      let candidate := match slot with
                       | inl s => match slot_public_key s with
                                  | KeyEcdsa (Slot.NistP256 p) => Some p
                                  | KeyEcdsa (Slot.NistP384 p) => Some p
                                  | _ => None
                                  end
                       | inr _ => None
                       end in
      if bool_decide (candidate = Some target_uncompressed) then do! _ := io_modify (drop_tokens tokens) in io_ret (Some token)
      else do! _ := io_modify (drop_token token) in find_by_pubkey target_uncompressed tokens
  end.

Definition find_token_by_pubkey (target_uncompressed : bytes) : IO OracleError W (option Token) :=
  do! tokens := io_map_err (transport_err "enumerate tokens") (enumerate_tokens fuel) in
  find_by_pubkey target_uncompressed tokens.

Definition pin_prompt (g : Guid) : list Z := ascii "PIV PIN for token " ++ to_hex g.

(** The PIN of a card: the one it was asked for before, or an answer that is kept from now on. *)
Definition pin_for (g : Guid) : IO OracleError St (list Z) :=
  fun o => match co_pin_cache o !! g with
           | Some p => Some (o, Ok p)
           | None =>
               let (q, r) := supply_pin (pin_prompt g) (co_supplier o) in
               Some (MkCardOracle (co_world o) q (match r with Ok p => <[g := p]> (co_pin_cache o) | _ => co_pin_cache o end), r)
           end.

(** The session of an agreement. *)
Definition agree_on (token : Token) (pin partner_uncompressed : bytes) : IO OracleError W bytes :=
  do! s := io_map_err (transport_err "begin_pin_session") (open_session fuel token) in
  fun w =>
    match (do! slot := io_map_err (transport_err "read slot") (in_session (read_slot_on fuel L DEFAULT_SLOT)) in
           do! _ := io_map_err piv_to_oracle_pin_error (in_session (Session.verify_pin fuel (as_bytes pin))) in
           io_map_err (transport_err "ecdh_derive") (in_session (ecdh_derive fuel slot partner_uncompressed))) (w, s) with
    | Some (ws, r) => Some (drop_open ws, r)
    | None => None
    end.

(** [<CardEcdhOracle as EcdhOracle>::ecdh] *)
Definition card_ecdh (self_pubkey_ssh_blob partner_pubkey_ssh_blob : bytes) : IO OracleError St bytes :=
  do! self_point := io_lift (extract_point_from_sshkey_blob self_pubkey_ssh_blob) in
  do! self_uncompressed := io_lift (canonicalize_uncompressed self_point) in
  do! found := on_cards (find_token_by_pubkey self_uncompressed) in
  match found with
  | None => io_err NoKey
  | Some token =>
      io_finally
        (do! pin := pin_for (tok_guid token) in
         do! partner_point := io_lift (extract_point_from_sshkey_blob partner_pubkey_ssh_blob) in
         do! partner_uncompressed := io_lift (canonicalize_uncompressed partner_point) in
         on_cards (agree_on token pin partner_uncompressed))
        (fun o => MkCardOracle (drop_token token (co_world o)) (co_supplier o) (co_pin_cache o))
  end.
End Oracle.

(** ** Lemmas *)

Section Facts.
Context (C : Crypto) {W Q : Type} `{CardWorld W} `{PinSupplier Q} (fuel : nat) (L : CertLib).

Abbreviation St := (CardEcdhOracle W Q).
Abbreviation Token := (PivToken (card_handle W)).

(** Nobody is asked, and no PIN is kept. *)
Definition quiet (o o' : St) : Prop := co_supplier o' = co_supplier o /\ co_pin_cache o' = co_pin_cache o.

(** One question for the PIN of a card that has none; its answer, if it is one, is kept. *)
Definition asks (g : Guid) (r : res OracleError (list Z)) (o o' : St) : Prop :=
  co_pin_cache o !! g = None /\ supply_pin (ascii "PIV PIN for token " ++ to_hex g) (co_supplier o) = (co_supplier o', r) /\
  co_pin_cache o' = match r with Ok p => <[g := p]> (co_pin_cache o) | _ => co_pin_cache o end.

Lemma on_cards_quiet {E A} (m : IO E W A) (o o' : St) r : on_cards m o = Some (o', r) -> quiet o o' /\ m (co_world o) = Some (co_world o', r).
Proof. unfold on_cards, quiet. destruct (m (co_world o)) as [[w x]|]; [|discriminate]. now intros [= <- <-]. Qed.

Lemma pin_for_cases g (o o' : St) r : pin_for g o = Some (o', r) ->
  co_world o' = co_world o /\ (o' = o /\ (exists p, co_pin_cache o !! g = Some p /\ r = Ok p) \/ asks g r o o').
Proof.
  unfold pin_for, asks. destruct (co_pin_cache o !! g) as [p|] eqn:Hp; [intros [= <- <-]; eauto 6|].
  destruct (supply_pin _ _) as [q x] eqn:Hs. intros [= <- <-]. auto.
Qed.

(** The slot holds the key with the uncompressed point [target]. *)
Definition carries_key (target : bytes) (slot : PivSlot) : Prop :=
  slot_public_key slot = KeyEcdsa (Slot.NistP256 target) \/ slot_public_key slot = KeyEcdsa (Slot.NistP384 target).

(** A search of cards, one after the other, each read in the state that the one before it left: the first whose slot 9D holds the
    key, if there is one, with the rest let go. *)
Inductive searched (target : bytes) : list Token -> W -> option Token -> W -> Prop :=
| searched_all w : searched target [] w None w
| searched_here k ks w w1 slot : on_token k (read_slot_on fuel L 0x9D) w = Some (w1, Ok slot) -> carries_key target slot ->
    searched target (k :: ks) w (Some k) (drop_tokens ks w1)
| searched_other k ks w w1 slot x w' : on_token k (read_slot_on fuel L 0x9D) w = Some (w1, Ok slot) -> ~ carries_key target slot ->
    searched target ks (drop_token k w1) x w' -> searched target (k :: ks) w x w'
| searched_unread k ks w w1 e x w' : on_token k (read_slot_on fuel L 0x9D) w = Some (w1, Err e) ->
    searched target ks (drop_token k w1) x w' -> searched target (k :: ks) w x w'.

(** The card that a call for the key in [blob] is about: found among those enumerated. *)
Definition holder (blob : bytes) (o : St) (token : Token) : Prop :=
  exists point target tokens w1 w2, extract_point_from_sshkey_blob blob = Ok point /\ canonicalize_uncompressed C point = Ok target /\
    enumerate_tokens fuel (co_world o) = Some (w1, Ok tokens) /\ searched target tokens w1 (Some token) w2.

(** The candidate of the loop. *)
Lemma candidate_holds target s :
  match slot_public_key s with KeyEcdsa (Slot.NistP256 p) => Some p | KeyEcdsa (Slot.NistP384 p) => Some p | _ => None end = Some target <->
  carries_key target s.
Proof.
  unfold carries_key. destruct (slot_public_key s) as [| |[]|]; (split; [try discriminate; intros [= ->]; auto|intros [He|He]; try discriminate; congruence]).
Qed.

Lemma find_searches target tokens : forall (w w' : W) x,
  find_by_pubkey fuel L target tokens w = Some (w', Ok x) <-> searched target tokens w x w'.
Proof.
  induction tokens as [|k tokens IH]; intros w w' x.
  - split; [intros [= <- <-]; constructor|]. intros Hs. inversion Hs; subst. reflexivity.
  - cbn [find_by_pubkey]. unfold io_bind at 1, io_try. change DEFAULT_SLOT with 0x9D. cbv zeta.
    destruct (on_token k (read_slot_on fuel L 0x9D) w) as [[w1 [s|e|]]|] eqn:Hr.
    2: { rewrite bool_decide_false by discriminate. unfold io_bind, io_modify. rewrite IH.
         split; [intros Hs; exact (searched_unread _ _ _ _ _ _ _ _ Hr Hs)|intros Hs; inversion Hs; subst; congruence]. }
    2,3: (split; [discriminate|intros Hs; inversion Hs; subst; congruence]).
    case_bool_decide as Hc; rewrite candidate_holds in Hc; unfold io_bind, io_modify.
    + split; [intros [= <- <-]; exact (searched_here _ _ _ _ _ _ Hr Hc)|]. intros Hs. inversion Hs; subst; [|congruence..].
      match goal with Hr' : on_token k _ w = Some (_, Ok _) |- _ => rewrite Hr in Hr'; injection Hr' as <- <- end. reflexivity.
    + rewrite IH. split; [intros Hs; exact (searched_other _ _ _ _ _ _ _ _ Hr Hc Hs)|]. intros Hs. inversion Hs; subst; [congruence| |congruence].
      match goal with Hr' : on_token k _ w = Some (_, Ok _) |- _ => rewrite Hr in Hr'; injection Hr' as <- <- end. assumption.
Qed.

(** What happens once a card is found. *)
Definition agreement (token : Token) (partner_blob : bytes) : IO OracleError St bytes :=
  do! pin := pin_for (tok_guid token) in
  do! partner_point := io_lift (extract_point_from_sshkey_blob partner_blob) in
  do! partner_uncompressed := io_lift (canonicalize_uncompressed C partner_point) in
  on_cards (agree_on fuel L token pin partner_uncompressed).

Lemma agreement_asks token partner_blob (o o' : St) r : agreement token partner_blob o = Some (o', r) ->
  match co_pin_cache o !! tok_guid token with
  | Some _ => quiet o o'
  | None => exists answer, asks (tok_guid token) answer o o'
  end.
Proof.
  intros Ha. unfold agreement in Ha. unfold io_bind at 1 in Ha. destruct (pin_for _ o) as [[o1 p]|] eqn:Hp; [|discriminate].
  apply pin_for_cases in Hp as [_ Hp].
  assert (Hq : quiet o1 o').
  { destruct p as [pin|e|]; [|injection Ha as <- <-; now split..]. unfold io_bind at 1, io_lift at 1 in Ha.
    destruct (extract_point_from_sshkey_blob partner_blob) as [point|e|]; [|injection Ha as <- <-; now split..].
    unfold io_bind, io_lift in Ha. destruct (canonicalize_uncompressed C point) as [u|e|]; [|injection Ha as <- <-; now split..].
    now apply on_cards_quiet in Ha as [Hq _]. }
  destruct Hq as [Q1 Q2]. destruct Hp as [[-> (pin & Hpin & ->)]|(A1 & A2 & A3)].
  - rewrite Hpin. now split.
  - rewrite A1. exists p. split; [exact A1|]. now rewrite Q1, Q2.
Qed.

(** A call either is an agreement with the holder of its key, or leaves everything as it is. *)
Lemma card_ecdh_cases a b (o o' : St) r : card_ecdh C fuel L a b o = Some (o', r) ->
  (exists token o1 o2, holder a o token /\ quiet o o1 /\ agreement token b o1 = Some (o2, r) /\ quiet o2 o') \/
  quiet o o' /\ forall token, ~ holder a o token.
Proof.
  intros Hr. unfold card_ecdh in Hr. unfold io_bind at 1, io_lift at 1 in Hr.
  destruct (extract_point_from_sshkey_blob a) as [point|e|] eqn:Hp;
    [|injection Hr as <- <-; right; split; [now split|intros token (? & ? & ? & ? & ? & He & _); congruence]..].
  unfold io_bind at 1, io_lift at 1 in Hr. destruct (canonicalize_uncompressed C point) as [target|e|] eqn:Ht;
    [|injection Hr as <- <-; right; split; [now split|intros token (? & ? & ? & ? & ? & He & Hc & _); congruence]..].
  unfold io_bind at 1 in Hr. destruct (on_cards _ o) as [[o1 found]|] eqn:Hf; [|discriminate]. apply on_cards_quiet in Hf as [Hq Hf].
  assert (Hdet : forall token, holder a o token -> found = Ok (Some token)).
  { intros token (point' & target' & tokens & w1 & w2 & He & Hc & Hen & Hs). rewrite Hp in He. injection He as <-. rewrite Ht in Hc. injection Hc as <-.
    apply find_searches in Hs. unfold find_token_by_pubkey, io_bind, io_map_err in Hf. rewrite Hen in Hf. cbn [map_err] in Hf. rewrite Hs in Hf. congruence. }
  destruct found as [[token|]|e|];
    [|injection Hr as <- <-; right; split; [exact Hq|intros token Hh; discriminate (Hdet token Hh)]..].
  left. apply io_finally_inv in Hr as (o2 & Hr & ->). exists token, o1, o2. split; [|split; [exact Hq|split; [exact Hr|now split]]].
  unfold find_token_by_pubkey in Hf. bind_inv Hf as w1 tokens Htok. pure_inv Htok. apply find_searches in Hf.
  exists point, target, tokens, w1, (co_world o1). auto.
Qed.
End Facts.

(** ** Properties *)

(** Calls of an oracle, one after the other, whatever they return; [gs] are the cards whose PIN was given on being asked for. *)
Inductive called (C : Crypto) {W Q : Type} `{CardWorld W} `{PinSupplier Q} (fuel : nat) (L : CertLib) :
    list Guid -> CardEcdhOracle W Q -> CardEcdhOracle W Q -> Prop :=
| called_none o : called C fuel L [] o o
| called_quiet gs o o1 o2 a b r : card_ecdh C fuel L a b o = Some (o1, r) -> quiet o o1 -> called C fuel L gs o1 o2 -> called C fuel L gs o o2
| called_asked g x gs o o1 o2 a b r : card_ecdh C fuel L a b o = Some (o1, r) -> asks g x o o1 -> called C fuel L gs o1 o2 ->
    called C fuel L (match x with Ok _ => g :: gs | _ => gs end) o o2.

(** C21 (safety). Whose PIN is asked for, and how often. A call looks for the first of the enumerated cards whose slot 9D, read one after
    the other, holds the key. When there is none, nobody is asked; when there is one, the PIN of that very card is asked for,
    by its GUID, if none is kept for it, and kept under its GUID if it was given, and nobody is asked if one is kept. Over any run of calls no
    card is asked about again once its PIN was given, and a PIN once given is kept as it is, whatever the card thought of it. *)
Theorem pins_are_asked_once (C : Crypto) {W Q : Type} `{CardWorld W} `{PinSupplier Q} (fuel : nat) (L : CertLib) :
  (forall a b (o o' : CardEcdhOracle W Q) r, card_ecdh C fuel L a b o = Some (o', r) ->
     (exists token, holder C fuel L a o token /\
        match co_pin_cache o !! tok_guid token with
        | Some _ => quiet o o'
        | None => exists answer, asks (tok_guid token) answer o o'
        end) \/
     quiet o o' /\ forall token, ~ holder C fuel L a o token) /\
  (forall gs (o o' : CardEcdhOracle W Q), called C fuel L gs o o' ->
     NoDup gs /\ (forall g, g ∈ gs -> co_pin_cache o !! g = None /\ is_Some (co_pin_cache o' !! g)) /\ co_pin_cache o ⊆ co_pin_cache o').
Proof.
  split.
  - intros a b o o' r Hr. apply card_ecdh_cases in Hr as [(token & o1 & o2 & Hh & [Q1 Q2] & Ha & [Q3 Q4])|Hr]; [left|now right].
    exists token. split; [exact Hh|]. apply agreement_asks in Ha. rewrite Q2 in Ha. destruct (co_pin_cache o !! tok_guid token) as [p|] eqn:Hp.
    + destruct Ha as [Q5 Q6]. split; congruence.
    + destruct Ha as (answer & A1 & A2 & A3). exists answer. split; [exact Hp|]. split; [congruence|]. rewrite Q4, A3. now rewrite Q2.
  - intros gs o o' Hc. induction Hc as [o|gs o o1 o2 a b r _ [Q1 Q2] _ (IH1 & IH2 & IH3)|g x gs o o1 o2 a b r _ (A1 & A2 & A3) _ (IH1 & IH2 & IH3)].
    + split; [constructor|]. split; [intros g Hg; inversion Hg|reflexivity].
    + rewrite Q2 in IH2, IH3. auto.
    + destruct x as [p|e|]; rewrite A3 in IH2, IH3; [|auto..]. split; [|split].
      * constructor; [|exact IH1]. intros Hg. destruct (IH2 g Hg) as [Hn _]. now rewrite lookup_insert_eq in Hn.
      * intros g' Hg. apply elem_of_cons in Hg as [->|Hg].
        -- split; [exact A1|]. eexists. apply (lookup_weaken _ _ _ _ (lookup_insert_eq _ _ _) IH3).
        -- destruct (IH2 g' Hg) as [Hn Hs]. split; [|exact Hs]. destruct (decide (g = g')) as [->|Hne]; [exact A1|now rewrite lookup_insert_ne in Hn].
      * etransitivity; [|exact IH3]. now apply insert_subseteq.
Qed.

(** ** Witnesses *)

(** A card with a P-256 key that counts the tries of its PIN down, and takes none. *)
Definition counting_answer (n : Z) (cmd : bytes) : bytes :=
  if bool_decide (cmd !! 1%nat = Some 0x20) then (if n =? 0 then [0x69; 0x83] else [0x63; 0xC0 + n]) else demo_answer cmd ++ [0x90; 0x00].

Definition counting_world : CardWorld Z := {|
  card_handle := unit;
  establish w := (w, Ok tt);
  list_readers w := (w, Ok [ascii "reader"]);
  open_reader _ w := (w, Ok tt);
  close_handle _ w := w;
  send cmd _ w := let n := if bool_decide (cmd !! 1%nat = Some 0x20) then Z.max 0 (w - 1) else w in (n, Ok (counting_answer n cmd));
  begin_on _ w := (w, None);
  end_on _ _ w := (w, Ok tt);
  leave_on _ w := w;
  fresh_challenge w := (w, Some (repeat 0 32));
|}.

(** Certificates of one P-256 key. *)
Definition one_key_lib : CertLib := {|
  certificate_from_der _ := Some (MkSpki OID_EC_PUBLIC_KEY (Some (ParamsOid (Some OID_PRIME256V1))) (Some (4 :: repeat 5 64)));
  p256_uncompressed p := Some p;
  p384_uncompressed _ := None;
  pkcs1_from_der _ := None;
  mpint_from_positive _ := None;
  ecdsa_from_sec1 p := Some (Slot.NistP256 p);
  p256_key_ok _ := false;
  p256_sig_ok _ := false;
  p384_key_ok _ := false;
  p384_sig_ok _ := false;
  p256_verify _ _ _ := false;
  p384_verify _ _ _ := false;
|}.

(** Someone who mistypes, and would type it right the second time. *)
#[local] Instance mistyping : PinSupplier nat := fun _ n => (S n, Ok (if Nat.eqb n 0 then ascii "123465" else ascii "123456")).

Definition key_blob : bytes := ec_point_to_ssh_pubkey_blob Crypto.NistP256 (4 :: repeat 5 64).

Abbreviation mistyped_call o := (card_ecdh ToyCrypto (H := counting_world) 1 one_key_lib key_blob key_blob o).

Definition oracle_after (tries : Z) (asked : nat) (o : option (CardEcdhOracle Z nat * res OracleError bytes)) (err : string) : bool :=
  match o with
  | Some (o, Err (OracleOther e)) => (co_world o =? tries) && Nat.eqb (co_supplier o) asked && String.eqb e err
  | _ => false
  end.

Abbreviation next_call o := (match o with Some (o, _) => mistyped_call o | None => None end).

(** A wrong PIN is kept as if it were right: the next call verifies it again without a question, and so on until the card blocks. *)
Lemma wrong_pin_is_tried_again :
  let one := mistyped_call (MkCardOracle 3 0%nat ∅) in
  let two := next_call one in
  let three := next_call two in
  oracle_after 2 1 one "wrong PIN" = true /\ oracle_after 1 1 two "wrong PIN" = true /\ oracle_after 0 1 three "PIN blocked" = true.
Proof. split; [|split]; vm_compute; reflexivity. Qed.

Definition asked_once (o : option (CardEcdhOracle Z nat * res OracleError bytes)) : bool :=
  match o with
  | Some (o', Err _) => Nat.eqb (co_supplier o') 1
  | _ => false
  end.

Lemma pins_are_asked_once_witness :
  exists o' e, mistyped_call (MkCardOracle 3 0%nat ∅) = Some (o', Err e) /\ co_supplier o' = 1%nat /\
    exists token x, holder ToyCrypto (H := counting_world) 1 one_key_lib key_blob (MkCardOracle 3 0%nat ∅) token /\
      asks (tok_guid token) x (MkCardOracle 3 0%nat ∅) o'.
Proof.
  assert (Hd : asked_once (mistyped_call (MkCardOracle 3 0%nat ∅)) = true) by (vm_compute; reflexivity). revert Hd.
  destruct (mistyped_call (MkCardOracle 3 0%nat ∅)) as [[o' [s|e|]]|] eqn:Hr; intros Hd; [discriminate Hd| |discriminate Hd..].
  exists o', e. split; [reflexivity|]. apply Nat.eqb_eq in Hd. split; [exact Hd|].
  destruct (proj1 (pins_are_asked_once ToyCrypto (H := counting_world) 1 one_key_lib) _ _ _ _ _ Hr) as [(token & Hh & x & Ha)|[[Hq _] _]].
  - exists token, x. split; [exact Hh|exact Ha].
  - rewrite Hd in Hq. discriminate Hq.
Defined.
