(* ===== verification/PigpenAgent.v ===== *)
(** * PigpenAgent: the oracle of pigpen over an agent, [piggy-pigpen/src/agent.rs]

    The second client of the key agreement extension, with bytes of its own from the frame down.  Sockets are a class, whose calls are
    those of [UnixStream]; the oracle is one of [Document.open].  The theorems relate the bytes to the extension's messages of
    [AgentExt]. *)

From Stdlib Require Import ZArith Lia String.
From stdpp Require Import base tactics list numbers.
From S2P Require Import Prelude Utf8 Wire Crypto AgentExt Transport Effects Markl Pigpen PigpenCrypto OperatorAct AgentSession.

Local Open Scope Z_scope.

Definition SSH_AGENT_FAILURE : Z := 5.
Definition SSH_AGENTC_EXTENSION : Z := 27.
Definition SSH_AGENT_EXTENSION_RESPONSE : Z := 29.
Definition MAX_REPLY_LEN : Z := 2 ^ 20.
Definition DEFAULT_TIMEOUT : Z := 30.

(** The first of the variables that is set and not empty. *)
Fixpoint first_set (vars : list (option bytes)) : option bytes :=
  match vars with
  | [] => None
  | Some (c :: v) :: _ => Some (c :: v)
  | _ :: vars => first_set vars
  end.

Definition resolve_auth_sock (piggy_auth_sock ssh_auth_sock pivy_auth_sock : option bytes) : option bytes :=
  first_set [piggy_auth_sock; ssh_auth_sock; pivy_auth_sock].

(** ** Bytes *)

(** The length is cut to 32 bits. *)
Definition ssh_put_u32 (out : bytes) (value : Z) : bytes := out ++ to_be_bytes 4 value.
Definition ssh_put_string (out b : bytes) : bytes := ssh_put_u32 out (len b) ++ b.

Definition ssh_take_string (buf : bytes) : option (bytes * bytes) :=
  if len buf <? 4 then None
  else
    let n := from_be_bytes (ztake 4 buf) in
    let rest := zdrop 4 buf in
    if n <=? len rest then Some (ztake n rest, zdrop n rest) else None.

Inductive Answer : Type := Secret (secret : bytes) | AnswerRefused.

Definition oracle_error {A} (e : AgentProblem) : res PigpenError A := Err (AgentOracleErr e).

Definition parse_reply (name reply : bytes) : res PigpenError Answer :=
  match reply with
  | [] => oracle_error (TruncatedReply name)
  | t :: body =>
      if t =? SSH_AGENT_FAILURE then Ok AnswerRefused
      else if t =? SSH_AGENT_EXTENSION_RESPONSE then
        match ssh_take_string body with
        | None => oracle_error (TruncatedReply name)
        | Some (echoed, rest) =>
            if negb (is_ecdh echoed) then oracle_error (EchoedName name (from_utf8_lossy echoed))
            else
              match ssh_take_string rest with
              | None => oracle_error (TruncatedReply name)
              | Some (secret, rest) =>
                  if negb (bool_decide (rest = [])) then oracle_error (TrailingReply name (len rest))
                  else if negb (len secret =? 32) then oracle_error (SecretLength name (len secret))
                  else Ok (Secret secret)
              end
        end
      else oracle_error (ReplyType name t)
  end.

(** ** The oracle *)

Class UnixSockets (N : Type) := {
  Stream : Type;
  unix_connect : bytes -> N -> N * res bytes Stream;
  (** read and write timeout, in seconds *)
  set_timeouts : Z -> Stream -> N -> N * res bytes unit;
  write_all : bytes -> Stream -> N -> N * res bytes unit;
  read_exact : Z -> Stream -> N -> N * res bytes bytes;
}.

Record AgentOracle := MkAgentOracle { ao_socket : bytes; ao_timeout : Z }.

Definition agent_oracle_new (socket : bytes) : AgentOracle := MkAgentOracle socket DEFAULT_TIMEOUT.
Definition with_timeout (timeout : Z) (o : AgentOracle) : AgentOracle := MkAgentOracle (ao_socket o) timeout.

Section Oracle.
Context (C : Suite) (p256_uncompressed : P256Point C -> bytes) {N : Type} `{UnixSockets N}.

Definition io {A} (e : AgentProblem) (m : N -> N * res bytes A) : IO PigpenError N A :=
  fun n => let (n, r) := m n in Some (n, map_err (fun _ => AgentOracleErr e) r).

(** The frame of a request. *)
Definition framed_request (name details : bytes) : bytes :=
  ssh_put_string [] (ssh_put_string [SSH_AGENTC_EXTENSION] name ++ details).

Definition ask (o : AgentOracle) (name details : bytes) : IO PigpenError N Answer :=
  do! stream := io SocketConnect (unix_connect (ao_socket o)) in
  do! _ := io SocketTimeout (set_timeouts (ao_timeout o) stream) in
  do! _ := io (SocketWrite name) (write_all (framed_request name details) stream) in
  do! l := io (ReadReplyLength name) (read_exact 4 stream) in
  let n := from_be_bytes l in
  if MAX_REPLY_LEN <? n then io_err (AgentOracleErr (ReplyTooLarge name n))
  else
    do! reply := io (ReadReply name) (read_exact n stream) in
    io_lift (parse_reply name reply).

Definition p256_ssh_blob (sec1 : bytes) (what : string) : res PigpenError bytes :=
  let* key := ok_or (p256_from_sec1 C sec1) (AgentOracleErr (NotAPoint what)) in
  let blob := ssh_put_string [] (ascii "ecdsa-sha2-nistp256") in
  let blob := ssh_put_string blob (ascii "nistp256") in
  Ok (ssh_put_string blob (p256_uncompressed key)).

Definition request_details (card_blob partner_blob : bytes) : bytes :=
  let inner := ssh_put_string [] card_blob in
  let inner := ssh_put_string inner partner_blob in
  ssh_put_string [] (ssh_put_u32 inner 0).

(** The loop over the names. *)
Fixpoint ask_under (o : AgentOracle) (names : list bytes) (details : bytes) : IO PigpenError N bytes :=
  match names with
  | [] => io_err (AgentOracleErr RefusedBoth)
  | name :: names =>
      do! a := ask o name details in
      match a with
      | Secret secret => io_ret secret
      | AnswerRefused => ask_under o names details
      end
  end.

(** [<AgentEcdhOracle as EcdhOracle>::ecdh] *)
Definition agent_oracle_ecdh (o : AgentOracle) (self_recipient : Id) (partner_epk : bytes) : IO PigpenError N bytes :=
  if negb (bool_decide (id_format self_recipient = PivyEcdhP256Pub)) then io_err (UnsupportedFormat (NotCardRecipient (id_format self_recipient)))
  else
    do! card_blob := io_lift (p256_ssh_blob (id_data self_recipient) "recipient key") in
    do! partner_blob := io_lift (p256_ssh_blob partner_epk "ephemeral key") in
    ask_under o ECDH_NAMES (request_details card_blob partner_blob).
End Oracle.

(** ** Lemmas *)

Lemma ssh_put_string_enc out b : ssh_put_string out b = out ++ enc32 b.
Proof. unfold ssh_put_string, ssh_put_u32, enc32. now rewrite <- app_assoc. Qed.

Lemma ssh_take_string_split b : bytes_ok b -> ssh_take_string b = split_string b.
Proof.
  intros Hb. unfold ssh_take_string, split_string. pose proof (be32_bound b 0 Hb) as Hn. rewrite zdrop_0 in Hn. destruct (Z.ltb_spec (len b) 4); [reflexivity|].
  rewrite len_zdrop by (pose proof (len_nonneg b); lia). destruct (Z.leb_spec (from_be_bytes (ztake 4 b)) (len b - 4)), (Z.ltb_spec (len b - 4) (from_be_bytes (ztake 4 b))); try lia; [|reflexivity].
  do 2 f_equal. unfold zdrop. rewrite drop_drop. f_equal. lia.
Qed.

Lemma ssh_take_string_app l t : bytes_ok l -> bytes_ok t -> len l < 2 ^ 32 -> ssh_take_string (enc32 l ++ t) = Some (l, t).
Proof. intros Hl Ht Hn. rewrite ssh_take_string_split by auto with bytes. now apply split_string_enc. Qed.

Lemma enc32_bytes l t : bytes_ok (enc32 l ++ t) -> bytes_ok t.
Proof. intros H. now apply Forall_app in H. Qed.

Lemma enc32_bytes' l t : bytes_ok (enc32 l ++ t) -> bytes_ok l.
Proof. intros H. apply Forall_app in H as [H _]. now apply Forall_app in H. Qed.

(** What a reply of each kind is. *)
Lemma parse_reply_secret name reply s : bytes_ok reply ->
  parse_reply name reply = Ok (Secret s) <-> exists echoed, is_ecdh echoed = true /\ len s = 32 /\ reply = SSH_AGENT_EXTENSION_RESPONSE :: enc32 echoed ++ enc32 s.
Proof.
  intros Hb. split.
  - unfold parse_reply. destruct reply as [|t body]; [discriminate|]. inversion Hb as [|? ? _ Hbody]; subst.
    destruct (t =? SSH_AGENT_FAILURE); [discriminate|]. destruct (Z.eqb_spec t SSH_AGENT_EXTENSION_RESPONSE) as [->|]; [|discriminate].
    rewrite ssh_take_string_split by exact Hbody. destruct (split_string body) as [[echoed rest]|] eqn:H1; [|discriminate].
    apply split_string_inv in H1 as [-> H1]; [|exact Hbody]. apply enc32_bytes in Hbody as Hrest.
    destruct (is_ecdh echoed) eqn:He; [|discriminate]. cbn [negb]. rewrite ssh_take_string_split by exact Hrest.
    destruct (split_string rest) as [[secret rest2]|] eqn:H2; [|discriminate]. apply split_string_inv in H2 as [-> H2]; [|exact Hrest].
    case_bool_decide as Hn; [|discriminate]. subst rest2. cbn [negb]. destruct (Z.eqb_spec (len secret) 32) as [Hs|]; [|discriminate]. intros [= <-].
    exists echoed. rewrite app_nil_r. auto.
  - intros (echoed & He & Hs & ->). apply Forall_inv_tail in Hb as Hbody. apply Forall_app in Hbody as [H1 H2]. unfold parse_reply. cbn [Z.eqb SSH_AGENT_EXTENSION_RESPONSE SSH_AGENT_FAILURE Pos.eqb].
    assert (Hl : len echoed < 2 ^ 32). { unfold is_ecdh in He. apply existsb_exists in He as (n & Hin & He). apply bool_decide_eq_true in He as <-. destruct Hin as [<-|[<-|[]]]; now vm_compute. }
    rewrite ssh_take_string_split by auto with bytes. rewrite split_string_enc by exact Hl. rewrite He. cbn [negb].
    rewrite ssh_take_string_split by exact H2. rewrite <- (app_nil_r (enc32 s)), split_string_enc by lia. rewrite bool_decide_eq_true_2 by reflexivity. cbn [negb]. now rewrite Hs.
Qed.

Lemma parse_reply_refused name reply : parse_reply name reply = Ok AnswerRefused <-> head reply = Some SSH_AGENT_FAILURE.
Proof.
  unfold parse_reply, oracle_error. destruct reply as [|t body]; [split; discriminate|]. cbn [head]. destruct (Z.eqb_spec t SSH_AGENT_FAILURE) as [->|Hn]; [now split|].
  split; [|congruence]. destruct (t =? SSH_AGENT_EXTENSION_RESPONSE); [|discriminate]. destruct (ssh_take_string body) as [[e r]|]; [|discriminate].
  destruct (negb (is_ecdh e)); [discriminate|]. destruct (ssh_take_string r) as [[s r2]|]; [|discriminate]. now repeat case_match.
Qed.

Lemma parse_reply_returns name reply : no_panic (parse_reply name reply).
Proof. unfold parse_reply, oracle_error. repeat case_match; discriminate. Qed.

(** ** An agent on the wire *)

(** What reads the frame of an extension request: its name and details. *)
Definition read_request (frame : bytes) : option (bytes * bytes) :=
  match split_string frame with
  | Some (t :: message, []) => if t =? SSH_AGENTC_EXTENSION then split_string message else None
  | _ => None
  end.

Section Wire.
(** What the socket delivers after a request, up to its end. *)
Context (answer : bytes -> bytes -> bytes).

(** The requests it has read, and what is left to be read of it. *)
Record WireAgent := MkWire { wa_asked : list (bytes * bytes); wa_pending : bytes }.

Instance wire_sockets : UnixSockets WireAgent := {|
  Stream := unit;
  unix_connect _ n := (MkWire (wa_asked n) [], Ok tt);
  set_timeouts _ _ n := (n, Ok tt);
  write_all frame _ n :=
    match read_request frame with
    | Some (name, details) => (MkWire (wa_asked n ++ [(name, details)]) (answer name details), Ok tt)
    | None => (MkWire (wa_asked n) [], Ok tt)
    end;
  read_exact k _ n := if len (wa_pending n) <? k then (n, Err []) else (MkWire (wa_asked n) (zdrop k (wa_pending n)), Ok (ztake k (wa_pending n)));
|}.

Lemma request_read name details : bytes_ok name -> bytes_ok details -> len name < 2 ^ 31 -> len details < 2 ^ 30 -> read_request (framed_request name details) = Some (name, details).
Proof.
  intros Hn Hd Ln Ld. pose proof (len_nonneg name). pose proof (len_nonneg details). unfold framed_request, read_request. rewrite !ssh_put_string_enc. cbn [app].
  rewrite <- (app_nil_r (enc32 _)) at 1. rewrite split_string_enc.
  - cbn [Z.eqb SSH_AGENTC_EXTENSION Pos.eqb]. apply split_string_enc. lia.
  - rewrite len_cons. unfold enc32. rewrite !len_app. change (len (to_be_bytes 4 _)) with 4. lia.
Qed.

(** What [ask] makes of a stream. *)
Definition read_answer (name stream : bytes) : res PigpenError Answer :=
  if len stream <? 4 then oracle_error (ReadReplyLength name)
  else
    let n := from_be_bytes (ztake 4 stream) in
    if MAX_REPLY_LEN <? n then oracle_error (ReplyTooLarge name n)
    else if len (zdrop 4 stream) <? n then oracle_error (ReadReply name)
    else parse_reply name (ztake n (zdrop 4 stream)).

(** A request on the wire is asked once, and the reply is what the stream holds. *)
Lemma ask_wire o name details (n : WireAgent) :
  bytes_ok name -> bytes_ok details -> len name < 2 ^ 31 -> len details < 2 ^ 30 ->
  exists n', ask o name details n = Some (n', read_answer name (answer name details)) /\ wa_asked n' = wa_asked n ++ [(name, details)].
Proof.
  intros Hn Hd Ln Ld. unfold ask, io_bind, io. cbn [unix_connect set_timeouts write_all wire_sockets map_err]. rewrite request_read by assumption. cbn [map_err].
  unfold read_answer. set (stream := answer name details). cbn [read_exact wire_sockets wa_pending wa_asked].
  destruct (len stream <? 4); [eexists; split; reflexivity|]. cbn [map_err]. destruct (MAX_REPLY_LEN <? _); [eexists; split; reflexivity|].
  cbn [read_exact wire_sockets wa_pending wa_asked]. destruct (len (zdrop 4 stream) <? _); cbn [map_err]; eexists; (split; [reflexivity|]); reflexivity.
Qed.

(** *** What a stream says, byte by byte *)

(** A whole frame of at most a mebibyte comes out of it. *)
Definition delivers (stream reply : bytes) : Prop := exists rest, stream = enc32 reply ++ rest /\ len reply <= 2 ^ 20.

Definition delivers_secret (stream s : bytes) : Prop :=
  exists echo, (echo = ascii "ecdh@code.linenisgreat.com" \/ echo = ascii "ecdh@joyent.com") /\ len s = 32 /\ delivers stream (29 :: enc32 echo ++ enc32 s).

Definition delivers_refusal (stream : bytes) : Prop := exists rest, delivers stream (5 :: rest).

Lemma read_delivered name stream (a : Answer) : bytes_ok stream ->
  read_answer name stream = Ok a <-> exists reply, delivers stream reply /\ bytes_ok reply /\ parse_reply name reply = Ok a.
Proof.
  intros Hb. unfold read_answer, oracle_error. pose proof (be32_bound stream 0 Hb) as Hn. rewrite zdrop_0 in Hn. split.
  - destruct (Z.ltb_spec (len stream) 4); [discriminate|]. destruct (Z.ltb_spec MAX_REPLY_LEN (from_be_bytes (ztake 4 stream))) as [|Hm]; [discriminate|].
    rewrite len_zdrop by lia. destruct (Z.ltb_spec (len stream - 4) (from_be_bytes (ztake 4 stream))); [discriminate|]. intros Hp.
    assert (Hs : split_string stream = Some (ztake (from_be_bytes (ztake 4 stream)) (zdrop 4 stream), zdrop (4 + from_be_bytes (ztake 4 stream)) stream)).
    { unfold split_string. now rewrite (proj2 (Z.ltb_ge _ _)), (proj2 (Z.ltb_ge _ _)) by lia. }
    apply split_string_inv in Hs as [Hs _]; [|exact Hb]. eexists. split; [eexists; split; [exact Hs|]|split; [auto with bytes|exact Hp]].
    rewrite len_ztake by (rewrite len_zdrop; lia). exact Hm.
  - intros (reply & (rest & Hs & Hl) & _ & Hp). pose proof (len_nonneg reply). pose proof (len_nonneg rest).
    assert (Hh : len (to_be_bytes 4 (len reply)) = 4) by reflexivity.
    assert (Ht : ztake 4 stream = to_be_bytes 4 (len reply)) by (rewrite Hs; unfold enc32; rewrite <- app_assoc, <- Hh at 1; apply ztake_app).
    assert (Hz : zdrop 4 stream = reply ++ rest) by (rewrite Hs; unfold enc32; rewrite <- app_assoc, <- Hh at 1; apply zdrop_app).
    rewrite Ht, Hz, from_to_be_bytes_small by (change (256 ^ Z.of_nat 4) with (2 ^ 32); lia).
    assert (Hls : len stream = 4 + len reply + len rest) by (rewrite Hs; unfold enc32; rewrite !len_app, Hh; lia).
    rewrite (proj2 (Z.ltb_ge _ _)), (proj2 (Z.ltb_ge _ _)), (proj2 (Z.ltb_ge _ _)) by (unfold MAX_REPLY_LEN; rewrite ?len_app; lia). now rewrite ztake_app.
Qed.

Lemma is_ecdh_names echo : is_ecdh echo = true <-> echo = CANONICAL \/ echo = LEGACY.
Proof.
  unfold is_ecdh. rewrite existsb_exists. split.
  - intros (n & Hin & He). apply bool_decide_eq_true in He as <-. destruct Hin as [<-|[<-|[]]]; auto.
  - intros [->| ->]; eexists; (split; [|apply bool_decide_eq_true; reflexivity]); cbn; auto.
Qed.

Lemma read_secret name stream s : bytes_ok stream -> read_answer name stream = Ok (Secret s) <-> delivers_secret stream s.
Proof.
  intros Hb. rewrite read_delivered by exact Hb. split.
  - intros (reply & Hd & Hr & Hp). apply parse_reply_secret in Hp as (echo & He & Hl & ->); [|exact Hr]. apply is_ecdh_names in He. now exists echo.
  - intros (echo & He & Hl & Hd). eexists. split; [exact Hd|]. assert (Hr : bytes_ok (29 :: enc32 echo ++ enc32 s)).
    { destruct Hd as (rest & Hs & _). rewrite Hs in Hb. now apply enc32_bytes' in Hb. }
    split; [exact Hr|]. apply parse_reply_secret; [exact Hr|]. exists echo. split; [now apply is_ecdh_names|auto].
Qed.

Lemma read_refusal name stream : bytes_ok stream -> read_answer name stream = Ok AnswerRefused <-> delivers_refusal stream.
Proof.
  intros Hb. rewrite read_delivered by exact Hb. split.
  - intros ([|t rest] & Hd & _ & Hp); apply parse_reply_refused in Hp; [discriminate|]. injection Hp as ->. now exists rest.
  - intros (rest & Hd). eexists. split; [exact Hd|]. split; [|now apply parse_reply_refused]. destruct Hd as (more & Hs & _). rewrite Hs in Hb. now apply enc32_bytes' in Hb.
Qed.

Lemma read_answer_returns name stream : read_answer name stream <> Panic.
Proof. unfold read_answer, oracle_error. repeat case_match; try discriminate. apply parse_reply_returns. Qed.

Lemma never_refused_both name stream : read_answer name stream <> Err (AgentOracleErr RefusedBoth).
Proof. unfold read_answer, parse_reply, oracle_error. repeat case_match; discriminate. Qed.

Context (sound : forall name details, bytes_ok (answer name details)).

(** C38 (equivalence). The bytes that this oracle puts on a socket are the messages of the extension. Its request is, byte for byte, the one that the
    client of the boxes sends, and the agent's parser gets the two keys out of it. Whatever bytes the socket delivers then, in a
    connection that takes the request, the canonical name is asked for once, and the legacy one exactly when a whole frame with a failure came
    back; a secret is returned exactly when the last frame is a response under either name with those 32 bytes and nothing after them; every
    other reply, of another type, cut short, too long or with a different name, is an error and never a refusal; and
    that both names were refused is reported exactly when it is the case. *)
Theorem agent_oracle_speaks_the_extension (C : Suite) (unc : P256Point C -> bytes) o id epk P E (n : WireAgent) :
  id_format id = PivyEcdhP256Pub -> p256_from_sec1 C (id_data id) = Some P -> p256_from_sec1 C epk = Some E ->
  (forall p, bytes_ok (unc p) /\ len (unc p) = 65) ->
  let card := ec_point_to_ssh_pubkey_blob Crypto.NistP256 (unc P) in
  let partner := ec_point_to_ssh_pubkey_blob Crypto.NistP256 (unc E) in
  let details := encode_ecdh_request card partner 0 in
  let first := answer (ascii "ecdh@code.linenisgreat.com") details in
  let second := answer (ascii "ecdh@joyent.com") details in
  request_details card partner = details /\ parse_ecdh_request details = Ok (card, partner, 0) /\
  exists n' r, agent_oracle_ecdh C unc o id epk n = Some (n', r) /\ r <> Panic /\
    (r = Err (AgentOracleErr RefusedBoth) <-> delivers_refusal first /\ delivers_refusal second) /\
    (~ delivers_refusal first -> wa_asked n' = wa_asked n ++ [(CANONICAL, details)] /\ forall s, r = Ok s <-> delivers_secret first s) /\
    (delivers_refusal first -> wa_asked n' = wa_asked n ++ [(CANONICAL, details); (LEGACY, details)] /\ forall s, r = Ok s <-> delivers_secret second s).
Proof.
  intros Hf HP HE Hu card partner details first second. destruct (Hu P) as [BP LP], (Hu E) as [BE LE].
  assert (Hc : card = enc32 (ascii "ecdsa-sha2-nistp256") ++ enc32 (ascii "nistp256") ++ enc32 (unc P)) by (apply blob_enc; lia).
  assert (Hp : partner = enc32 (ascii "ecdsa-sha2-nistp256") ++ enc32 (ascii "nistp256") ++ enc32 (unc E)) by (apply blob_enc; lia).
  assert (Lc : len card = 104) by (rewrite Hc, !len_app, !enc32_len, LP; reflexivity). assert (Lp : len partner = 104) by (rewrite Hp, !len_app, !enc32_len, LE; reflexivity).
  assert (Bc : bytes_ok card) by (rewrite Hc; auto 10 with bytes). assert (Bp : bytes_ok partner) by (rewrite Hp; auto 10 with bytes).
  assert (Hd : details = enc32 (enc32 card ++ enc32 partner ++ to_be_bytes 4 0)) by (apply encode_ecdh_request_enc; lia).
  assert (Hreq : request_details card partner = details) by (unfold request_details, ssh_put_u32; rewrite !ssh_put_string_enc, Hd; cbn [app]; now rewrite <- app_assoc).
  split; [exact Hreq|]. split; [apply ecdh_request_roundtrip; [exact Bc|exact Bp|lia|lia]|].
  assert (Bd : bytes_ok details) by (rewrite Hd; auto 10 with bytes). assert (Ld : len details < 2 ^ 30) by (rewrite Hd, enc32_len, !len_app, !enc32_len, Lc, Lp; now vm_compute).
  unfold agent_oracle_ecdh. rewrite Hf, bool_decide_eq_true_2 by reflexivity. cbn [negb]. unfold p256_ssh_blob. rewrite HP, HE. unfold io_bind at 1 2, io_lift at 1 2. cbn [ok_or res_bind].
  rewrite !ssh_put_string_enc. cbn [app]. rewrite <- !app_assoc, <- Hc, <- Hp, Hreq. unfold ECDH_NAMES. cbn [ask_under].
  destruct (ask_wire o CANONICAL details n (ascii_ok _) Bd ltac:(now vm_compute) Ld) as (n1 & H1 & A1). unfold io_bind at 1. rewrite H1.
  change (answer CANONICAL details) with first in *. pose proof (read_refusal CANONICAL first (sound _ _)) as F1. pose proof (read_secret CANONICAL first) as G1.
  pose proof (read_answer_returns CANONICAL first) as R1. pose proof (never_refused_both CANONICAL first) as N1.
  destruct (read_answer CANONICAL first) as [[s|]|e|] eqn:Hr1; [| | |now destruct R1].
  - assert (Hno : ~ delivers_refusal first) by (intros Hx; now apply F1 in Hx). exists n1, (Ok s). split; [reflexivity|]. split; [discriminate|].
    split; [split; [discriminate|tauto]|]. split; [|tauto]. intros _. split; [exact A1|]. intros s'. rewrite <- G1 by apply sound. split; now intros [= ->].
  - assert (Hyes : delivers_refusal first) by now apply F1. destruct (ask_wire o LEGACY details n1 (ascii_ok _) Bd ltac:(now vm_compute) Ld) as (n2 & H2 & A2).
    unfold io_bind. rewrite H2. change (answer LEGACY details) with second in *.
    pose proof (read_refusal LEGACY second (sound _ _)) as F2. pose proof (read_secret LEGACY second) as G2.
    pose proof (read_answer_returns LEGACY second) as R2. pose proof (never_refused_both LEGACY second) as N2.
    assert (Ha : wa_asked n2 = wa_asked n ++ [(CANONICAL, details); (LEGACY, details)]) by now rewrite A2, A1, <- app_assoc.
    destruct (read_answer LEGACY second) as [[s|]|e|] eqn:Hr2; [| | |now destruct R2]; exists n2; eexists; (split; [reflexivity|]); (split; [discriminate|]).
    + split; [split; [discriminate|]; intros [_ Hx]; now apply F2 in Hx|]. split; [tauto|]. intros _. split; [exact Ha|]. intros s'. rewrite <- G2 by apply sound. split; now intros [= ->].
    + split; [split; [|reflexivity]; intros _; split; [exact Hyes|now apply F2]|]. split; [tauto|]. intros _. split; [exact Ha|]. intros s'. rewrite <- G2 by apply sound. split; discriminate.
    + split; [split; [intros [= ->]; now destruct N2|]; intros [_ Hx]; now apply F2 in Hx|]. split; [tauto|]. intros _. split; [exact Ha|]. intros s'. rewrite <- G2 by apply sound. split; discriminate.
  - assert (Hno : ~ delivers_refusal first) by (intros Hx; now apply F1 in Hx). exists n1, (Err e). split; [reflexivity|]. split; [discriminate|].
    split; [split; [intros [= ->]; now destruct N1|tauto]|]. split; [|tauto]. intros _. split; [exact A1|]. intros s'. rewrite <- G1 by apply sound. split; discriminate.
Qed.
End Wire.

(** An agent that knows the legacy name only, and its secret. *)
Definition toy_answer (name details : bytes) : bytes :=
  if bytes_eqb name LEGACY then enc32 (29 :: enc32 LEGACY ++ enc32 (repeat 5 32)) else enc32 [5].

Definition toy_recipient : Id := MkId (Some PiggyRecipientV1) PivyEcdhP256Pub (2 :: repeat 0 32).

Abbreviation toy_wire := (agent_oracle_ecdh (H := wire_sockets toy_answer) toy_suite (fun _ => repeat 4 65) (agent_oracle_new (ascii "/run/agent")) toy_recipient
  (3 :: repeat 0 32) (MkWire [] [])).

Example toy_run_asks_twice : (match toy_wire with Some (n, r) => Some (fst <$> wa_asked n, r) | None => None end) = Some ([CANONICAL; LEGACY], Ok (repeat 5 32)).
Proof. now vm_compute. Qed.

Lemma toy_answer_bytes name details : bytes_ok (toy_answer name details).
Proof. unfold toy_answer. destruct (bytes_eqb name LEGACY); now apply bytes_okb_ok. Qed.

Lemma agent_oracle_speaks_the_extension_witness : exists n r, toy_wire = Some (n, r) /\ r = Ok (repeat 5 32).
Proof.
  destruct (agent_oracle_speaks_the_extension toy_answer toy_answer_bytes) with (C := toy_suite) (unc := fun _ : P256Point toy_suite => repeat 4 65) (o := agent_oracle_new (ascii "/run/agent"))
    (id := toy_recipient) (epk := 3 :: repeat 0 32) (P := false) (E := true) (n := MkWire [] []) as (_ & _ & n' & r & H & _ & _ & _ & Hl);
    [reflexivity..|intros _; split; [now apply bytes_okb_ok|reflexivity]|].
  exists n', r. split; [exact H|]. apply Hl.
  - exists []. now exists [].
  - exists LEGACY. split; [now right|]. split; [reflexivity|]. now exists [].
Defined.
